(* ===== verification/_CoqProject ===== *)
-Q . S2P
Prelude.v
Status.v
Buffer.v
Float.v
Cbor.v
CborProofs.v
CborValues.v
CborWrap.v
CborMap.v
CborTheorems.v
BitVec.v
BitVecProofs.v
Bloom.v
Rle.v
BitVecSerial.v
CountVec.v
BitVecTheorems.v
Topics.v
TopicProofs.v
TopicSound.v
TopicTheorems.v
Uuid.v
Addr.v
History.v
HistTree.v
HistRemove.v
HistList.v
HistOps.v
HistTheorems.v
Node.v
Remote.v
RemoteProofs.v
Sub.v
SubProofs.v
NodeTheorems.v
Frame.v
SubMsg.v
SubMsgProofs.v
SendProofs.v
Pub.v
PubProofs.v
Link.v
SubDecode.v
Coap.v
Queue.v
Tls.v
Keys.v
TlsLaws.v
Cose.v
PubMsg.v
PubRecv.v
PubSend.v
Ack.v
Life.v
PubMsgProofs.v
CoseProofs.v
CoseDecode.v
CoseRound.v
CoseSign.v
CoseMsg.v
CoseOpen.v
CoseVerify.v
CoseTheorems.v
SubDecodeProofs.v
PubParseProofs.v
DeliverProofs.v
HandlerProofs.v
ReceiveProofs.v
DeliverTheorems.v
PublishProofs.v
AckProofs.v
SyncProofs.v
SyncTheorems.v
LiveTheorems.v
AckTheorems.v
RouteTheorems.v
LifeTheorems.v
PublishTheorems.v
MeshTheorems.v
