(* ===== verification/Prelude.v ===== *)
(** * DPS for IoT: a verification library

    DPS is a publish/subscribe protocol without a broker.  The nodes of a mesh tell
    their neighbours what they are interested in, as Bloom filters over the topics of
    their subscriptions and of those behind them, and a publication is forwarded to the
    neighbours whose interests it matches.  This library models the core of the C
    implementation, [src/src] with the headers in [src/inc/dps], and proves what makes
    it correct.  [src/dps-micro] is a port of the same code to small devices and is not
    modelled.

    ** The parts, from the bottom up

    - [Prelude]: machine words with their wrap-around, the option monad (an undefined
      operation of C, a failed [assert] included, is [None]), lemmas on lists and words,
      the tactics [bools], [words] and [major], the hint database [dps].
    - [Status] ([err.c]), [Buffer] (the receive and transmit buffers of [dps.c]),
      [Float] and [Cbor] ([cbor.c]): every encoder and decoder, [CBOR_Skip], the matching
      of map keys.  [CborProofs], [CborValues], [CborWrap] and [CborMap] hold their
      lemmas, [CborTheorems] the properties.
    - [BitVec] ([bitvec.c], [sha2.c]): bit vectors, Bloom filters, fuzzy hashes, the
      run-length encoding, count vectors.  [BitVecProofs], [Bloom], [Rle], [BitVecSerial]
      and [CountVec] hold the lemmas, [BitVecTheorems] the properties.
    - [Topics] ([topics.c]), with [TopicProofs], [TopicSound] and [TopicTheorems]: which
      topics match, and what is inserted in the Bloom filters for them.
    - [Uuid] ([uuid.c]), [Addr] (addresses, [network.c]) with their properties.
    - [History] ([history.c]): the binary search tree and the list of the
      publications seen, over a heap of cells with explicit pointers.  [HistTree] to [HistOps] relate
      the heap to a map from UUIDs to records, [HistTheorems] has the properties.
    - [Node] ([node.h], [sub.h], [pub.h]): the state of a node, one heap for each type of
      object, and the monad of the operations, [M A = DPS_Node -> option (A * DPS_Node)],
      with weakest preconditions [wp] (the operation is defined and ...) and [wlp] (if it
      is defined, then ...).  The class [Environment] is what the code gets from libuv,
      from malloc and from the transports; what it does to them is a list of [Event]s.
    - [Remote] (the neighbours of [dps.c]), [Sub] ([sub.c]), [Pub] (the life cycle of
      publications, [pub.c]), [Link] (links, the subscription timer, shutdown, [dps.c]).
      [RemoteProofs], [SubProofs] and [PubProofs] show that the operations keep
      [node_inv], the invariant of a node; [NodeTheorems] puts them together.
    - [SubMsg], [SubDecode] ([sub.c], [dps.c], [network.c]): the SUB and SAK messages,
      written and read.  [SubMsgProofs], [SendProofs], [SubDecodeProofs] and [SyncProofs]
      lead to [SyncTheorems], which takes the bytes from one node to the other;
      [MeshTheorems] is about muted links and differing needs.
    - [PubMsg], [PubRecv], [PubSend] ([pub.c], [dps.c]): publications, created and
      serialised, received and given to the handlers, sent, retained and expired.
      [PubMsgProofs], [PubParseProofs], [DeliverProofs], [HandlerProofs],
      [ReceiveProofs] and [PublishProofs] hold the lemmas, [DeliverTheorems],
      [RouteTheorems] and [PublishTheorems] the properties.
    - [Ack] ([ack.c]): acknowledgements, with [AckProofs] and [AckTheorems].
    - [Tls] ([ec.c], [gcm.c], [hkdf.c], [keywrap.c], [mbedtls.c]): what the wrappers do
      around Mbed TLS.  The library is not in src/: it is the class [Mbedtls], and what
      the proofs rely on (what was encrypted is decrypted, what was signed is verified,
      sizes) is the class [MbedtlsOk] of [TlsLaws], which [toy_tls] satisfies.
    - [Keys] ([keystore.c]): requests to the key handlers of the application (the class
      [KeyStore]) and the key store in memory.
    - [Cose] ([cose.c]): the structures that are authenticated, encrypting, decrypting,
      signing and verifying, the loops over the recipients.  [CoseProofs],
      [CoseDecode], [CoseRound], [CoseSign], [CoseMsg] and [CoseOpen] lead to
      [CoseTheorems]; [CoseVerify] says what an accepted message is evidence of.
    - [Coap] ([coap.c], [OnMulticastReceive]): the envelope of a multicast message.
    - [Queue] ([queue.c]): the circular lists, over a heap of links.
    - [Life] ([dps.c]): creating, starting, stopping and destroying a node, with
      [LifeTheorems]; [LiveTheorems] is about the rounds of the subscription timer.

    A definition has the name of the C function that it models; where a C function is
    split, the pieces have names of their own and a comment.  The manifest maps
    each definition to its lines.

    ** How the parts interact

    An application call ([DPS_Subscribe], [DPS_Publish], [DPS_LinkRemoteAddr]) changes
    the node and wakes a task with [uv_async_send], the event [EvAsyncSend].  The task
    ([SendSubsTimer], [SendPubs], [SendAcksTask], [FreeTask], [RunRequestsTask]) is another
    operation.  Sending is the event [EvNetSend] with the bytes and the result.  Receiving is
    [OnNetReceive] on the bytes, or [OnMulticastReceive] on the bytes with their envelope:
    [DecodeRequest] goes to [DPS_DecodeSubscription], [DPS_DecodeSubscriptionAck],
    [DPS_DecodePublication] or [DPS_DecodeAcknowledgement].  A publication and an
    acknowledgement are encrypted by [COSE_Encrypt] or signed by [COSE_Sign], with the
    keys that the application's store gives.  A history of a node is thus
    a sequence of operations in any order, and the theorems about invariants
    quantify over all of them; the node lock makes each operation atomic.

    ** What the theorems show

    - The codec: what is written is read back and nothing else is touched ([CborTheorems],
      [BitVecTheorems.serialize_roundtrip]); the decoders stay inside the message.
    - The filters: no false negatives, from a Bloom filter to the fuzzy hash, the count
      vectors and the topics ([BitVecTheorems], [TopicTheorems]).
    - The history is a map and suppresses duplicates ([HistTheorems]).
    - A node: its counters are the multisets of the vectors it holds, after any sequence
      of operations, and no assertion on them fails ([NodeTheorems]) but the one of
      dps.c:491, on the needs of the remotes, which can ([MeshTheorems]).
    - Two nodes: the interests that one sends are exactly those that the other records
      ([SyncTheorems]), and a publication that a subscription behind a remote matches is
      routed to that remote when the subscription has a topic other than ["+"] or ["#"]
      alone; for ["#"] it need not be ([RouteTheorems]).
    - Publications: the bytes that are sent are accepted and carry what was published, the
      matching subscriptions get it once, and it is forwarded with its time to live
      ([PublishTheorems], [DeliverTheorems]); the same for
      acknowledgements ([AckTheorems]).
    - Cryptography: what is encrypted for a recipient or signed is recovered by the holder
      of the key; what is accepted was authenticated, with the additional data, under the
      key that the key handler gave for the recipient reported or that was wrapped or
      agreed with it ([CoseTheorems]).
    - The life of a node: a started node satisfies the types and the invariants, a
      destroyed one leaves nothing behind ([LifeTheorems]), and remotes that never
      answer get their last message again in every round of the timer until they are
      given up ([LiveTheorems]).
    - The envelope of a multicast message is taken off again and the parser stays in its
      buffer ([Coap]); the circular lists are lists, as long as nothing is removed twice
      ([Queue]).
    - Defects: where the code does not do what it means to, the theorem says on which
      inputs (the properties of kind error; the manifest lists the findings).

    ** Bounds and fuel

    Loops over lists recurse on the list.  [CBOR_Skip], the loops over the keys of a
    map and those over the options of a CoAP message take the fuel [skip_fuel], one more than
    the bytes that are left: every round reads at least one ([CborTheorems.CBOR_Skip_total],
    [CborMap.skip_fuel_matching], [Coap.count_opts_safe]); so do the loops over the
    recipients of a COSE message.  The loop of [gcm.c] takes [gcm_fuel], the number of
    buffers and of their bytes ([CoseTheorems.gcm_any_buffers]).
    The loops of the history take as fuel the number of cells and are shown to end with
    it ([HistOps]).  [SendSubsTimer] and [RunRequestsTask] take a fuel argument, since
    what they call may change the lists; [send_requests] takes the length of its queue,
    to which nothing is added meanwhile.  [StopNode] empties its lists with a fuel of
    their length; its argument bounds the rounds of the event loop while handles close, and
    one round is enough when nothing is in flight ([LifeTheorems.destroyed_node_freed]).

    ** Not modelled, and why

    - Mbed TLS, libuv, malloc and the handlers of the application: they are not in src/,
      so they are classes or arguments.
    - The transports ([dtls], [tcp], [udp], [pipe], sending of [multicast]), [resolver.c],
      with its part of [StopNode], and the rest of [network.c]: glue around libuv and the
      sockets.
    - [registration.c] and [discovery.c]: services built on the public interface, and
      [synchronous.c], [event.c], [dispatcher.c]: waiting for completions.
    - [json.c], a text form of CBOR for the bindings; the debug output, the
      fuzzer, the bindings, the examples and the tests. *)
From Stdlib Require Export ZArith Lia List.
From stdpp Require Export base option list numbers decidable.

#[global] Set Default Goal Selector "!".
#[global] Open Scope Z_scope.

Declare Scope dps_scope.
Delimit Scope dps_scope with dps.
Notation "a .| b" := (Z.lor a b) (at level 50, left associativity) : dps_scope.
Notation "a .& b" := (Z.land a b) (at level 40, left associativity) : dps_scope.
Notation "a .^ b" := (Z.lxor a b) (at level 50, left associativity) : dps_scope.
#[global] Open Scope dps_scope.

Create HintDb dps discriminated.

(** ** Machine integers: the value of a C conversion to an unsigned type *)

Definition u8 (x : Z) : Z := x mod 2 ^ 8.
Definition u16 (x : Z) : Z := x mod 2 ^ 16.
Definition u32 (x : Z) : Z := x mod 2 ^ 32.
Definition u64 (x : Z) : Z := x mod 2 ^ 64.

(** Two's complement: the value of a conversion to [int64_t] and [int32_t]. *)
Definition s64 (x : Z) : Z := if u64 x <? 2 ^ 63 then u64 x else u64 x - 2 ^ 64.
Definition s32 (x : Z) : Z := if u32 x <? 2 ^ 31 then u32 x else u32 x - 2 ^ 32.
Definition s16 (x : Z) : Z := if u16 x <? 2 ^ 15 then u16 x else u16 x - 2 ^ 16.
Definition s8 (x : Z) : Z := if u8 x <? 2 ^ 7 then u8 x else u8 x - 2 ^ 8.

Definition is_byte (x : Z) : Prop := 0 <= x < 256.
Definition is_word (w : Z) (x : Z) : Prop := 0 <= x < 2 ^ w.

#[export] Instance is_byte_dec x : Decision (is_byte x).
Proof. unfold is_byte. apply _. Defined.
#[export] Instance is_word_dec w x : Decision (is_word w x).
Proof. unfold is_word. apply _. Defined.

(** ** Tactics *)

(** Replace closed powers of two by their values, so that [lia] sees numerals. *)
Ltac pow2s :=
  repeat match goal with
  | |- context [2 ^ Zpos ?p] =>
      let v := eval vm_compute in (2 ^ Zpos p) in change (2 ^ Zpos p) with v
  | H : context [2 ^ Zpos ?p] |- _ =>
      let v := eval vm_compute in (2 ^ Zpos p) in change (2 ^ Zpos p) with v in H
  end.

Ltac unfold_words :=
  unfold is_byte, is_word, u8, u16, u32, u64 in *; pow2s.

(** [lia] over machine integers: divisions and remainders become equations. *)
Ltac solve_words := unfold_words; Z.div_mod_to_equations; lia.

(** Take a monadic hypothesis [m ≫= f = Some x] apart. *)
Ltac inv_bind :=
  repeat match goal with
  | H : (?m ≫= _) = Some _ |- _ =>
      let E := fresh "E" in
      destruct m eqn:E; simpl in H; [|discriminate H]
  | H : Some _ = Some _ |- _ => injection H as H; subst
  | p : _ * _ |- _ => destruct p
  end.

(** Split a boolean test of the source. *)
Ltac case_if :=
  match goal with
  | |- context [if ?b then _ else _] => let E := fresh "T" in destruct b eqn:E
  end.

(** Turn boolean comparisons in the context into propositions. *)
Ltac bools :=
  repeat match goal with
  | H : (_ <? _) = true |- _ => apply Z.ltb_lt in H
  | H : (_ <? _) = false |- _ => apply Z.ltb_ge in H
  | H : (_ <=? _) = true |- _ => apply Z.leb_le in H
  | H : (_ <=? _) = false |- _ => apply Z.leb_gt in H
  | H : (_ =? _) = true |- _ => apply Z.eqb_eq in H
  | H : (_ =? _) = false |- _ => apply Z.eqb_neq in H
  | H : _ && _ = true |- _ => apply andb_true_iff in H as [? ?]
  | H : _ || _ = false |- _ => apply orb_false_iff in H as [? ?]
  | H : negb _ = true |- _ => apply negb_true_iff in H
  | H : negb _ = false |- _ => apply negb_false_iff in H
  end.

(** ** Functional update of a field of a record

    A record declares how it is rebuilt from its fields ([Settable]); the update
    of one field is derived from that by [derive_setter]. *)

Class Settable (R : Type) := rebuild : R -> R.
Class Setter {R T : Type} (field : R -> T) := set : (T -> T) -> R -> R.
Arguments set {R T} field {_} _ _ /.

Ltac derive_setter :=
  match goal with
  | |- @Setter ?R ?T ?field =>
      let r := constr:(_ : Settable R) in
      let e := eval hnf in r in
      let p := eval pattern field in e in
      match p with
      | ?update _ => exact (fun f => update (fun x => f (field x)))
      end
  end.

Notation "r <| field := v |>" := (set field (fun _ => v) r)
  (at level 1, left associativity, field at next level, v at level 200,
   format "r <| field  :=  v |>").

(** ** Bits of integers *)

Lemma testbit_ge_pow2 x n : 0 <= x < 2 ^ n -> forall i, n <= i -> Z.testbit x i = false.
Proof.
  intros Hx i Hi. destruct (decide (x = 0)) as [->|]; [apply Z.bits_0|].
  assert (0 <= n). { destruct (Z.lt_ge_cases n 0); [|lia]. rewrite Z.pow_neg_r in Hx; lia. }
  apply Z.bits_above_log2; [lia|]. apply Z.log2_lt_pow2; [lia|].
  pose proof (Z.pow_le_mono_r 2 n i). lia.
Qed.

Lemma lor_shiftl_add a b k :
  0 <= k -> 0 <= b < 2 ^ k -> (a ≪ k) .| b = a * 2 ^ k + b.
Proof.
  intros Hk Hb. rewrite <- Z.add_lor_land, <- Z.shiftl_mul_pow2 by lia.
  rewrite (Z.bits_inj' (Z.land (a ≪ k) b) 0); [lia|].
  intros n Hn. rewrite Z.land_spec, Z.bits_0.
  destruct (Z.lt_ge_cases n k).
  - rewrite Z.shiftl_spec_low by lia. done.
  - rewrite (testbit_ge_pow2 b k) by lia. apply andb_false_r.
Qed.

Lemma lor_high a b k :
  0 <= k -> 0 <= b < 2 ^ k -> a mod 2 ^ k = 0 -> a .| b = a + b.
Proof.
  intros Hk Hb Ha.
  assert (2 ^ k <> 0) by (apply Z.pow_nonzero; lia).
  assert (a = (a / 2 ^ k) ≪ k) as ->.
  { rewrite Z.shiftl_mul_pow2 by lia. pose proof (Z.div_mod a (2 ^ k)). lia. }
  rewrite lor_shiftl_add by done. rewrite Z.shiftl_mul_pow2 by lia. done.
Qed.

Lemma pow2_pos n : 0 <= n -> 0 < 2 ^ n.
Proof. intros. apply Z.pow_pos_nonneg; lia. Qed.

Lemma bits_lt_pow2 x n :
  0 <= n -> (forall i, n <= i -> Z.testbit x i = false) -> 0 <= x < 2 ^ n.
Proof.
  intros Hn Hx. assert (x = x mod 2 ^ n) as ->.
  { apply Z.bits_inj'. intros i Hi. destruct (Z.lt_ge_cases i n).
    - by rewrite Z.mod_pow2_bits_low.
    - rewrite Z.mod_pow2_bits_high by lia. auto. }
  apply Z.mod_pos_bound, pow2_pos, Hn.
Qed.

Lemma land_range a b n : 0 <= n -> 0 <= a < 2 ^ n -> 0 <= a .& b < 2 ^ n.
Proof.
  intros Hn Ha. apply bits_lt_pow2; [done|]. intros i Hi.
  by rewrite Z.land_spec, (testbit_ge_pow2 a n).
Qed.

Lemma lor_range a b n :
  0 <= n -> 0 <= a < 2 ^ n -> 0 <= b < 2 ^ n -> 0 <= a .| b < 2 ^ n.
Proof.
  intros Hn Ha Hb. apply bits_lt_pow2; [done|]. intros i Hi.
  by rewrite Z.lor_spec, (testbit_ge_pow2 a n), (testbit_ge_pow2 b n).
Qed.

Lemma lxor_range a b n :
  0 <= n -> 0 <= a < 2 ^ n -> 0 <= b < 2 ^ n -> 0 <= a .^ b < 2 ^ n.
Proof.
  intros Hn Ha Hb. apply bits_lt_pow2; [done|]. intros i Hi.
  by rewrite Z.lxor_spec, (testbit_ge_pow2 a n), (testbit_ge_pow2 b n).
Qed.

Lemma u8_small x : 0 <= x < 256 -> u8 x = x.
Proof. intros. unfold u8. apply Z.mod_small. done. Qed.
Lemma u16_small x : 0 <= x < 65536 -> u16 x = x.
Proof. intros. unfold u16. apply Z.mod_small. done. Qed.
Lemma u32_small x : 0 <= x < 2 ^ 32 -> u32 x = x.
Proof. intros. unfold u32. apply Z.mod_small. done. Qed.
Lemma u64_small x : 0 <= x < 2 ^ 64 -> u64 x = x.
Proof. intros. unfold u64. apply Z.mod_small. done. Qed.

Lemma u8_byte x : is_byte (u8 x).
Proof. unfold is_byte, u8. apply (Z.mod_pos_bound x 256). lia. Qed.
#[export] Hint Resolve u8_byte : dps.

(** ** Bytes *)

(** A boolean property of bytes is checked on the 256 of them. *)
Lemma byte_forallb (P : Z -> bool) :
  forallb P (seqZ 0 256) = true -> forall x, is_byte x -> P x = true.
Proof.
  intros H x Hx. rewrite forallb_forall in H. apply H.
  apply list_elem_of_In, elem_of_seqZ. unfold is_byte in Hx. lia.
Qed.

(** Split off the byte at bit [k]. *)
Lemma mod_pow2_step n k :
  0 <= k -> n mod 2 ^ (k + 8) = ((n ≫ k) mod 256) * 2 ^ k + n mod 2 ^ k.
Proof.
  intros Hk. rewrite Z.shiftr_div_pow2 by lia.
  rewrite Z.pow_add_r by lia. pose proof (pow2_pos k Hk).
  rewrite Z.rem_mul_r by lia. change (2 ^ 8) with 256. lia.
Qed.

(** The big-endian readings of the decoders. *)
Lemma be2_value p1 p2 :
  is_byte p1 -> is_byte p2 -> (p1 ≪ 8) .| p2 = p1 * 2 ^ 8 + p2.
Proof. intros H1 H2. apply lor_shiftl_add; [lia|exact H2]. Qed.

Lemma shl_mul_byte p k : 0 <= k -> is_byte p -> 0 <= p ≪ k < 2 ^ (k + 8).
Proof.
  intros Hk [H1 H2]. rewrite Z.shiftl_mul_pow2, Z.pow_add_r by lia.
  pose proof (pow2_pos k Hk). change (2 ^ 8) with 256. nia.
Qed.

(** One step of a big-endian reading: the bytes read so far are above bit
    [k + 8], the next one goes to bit [k]. *)
Lemma lor_be_step a p k :
  0 <= k -> is_byte p ->
  (a * 2 ^ (k + 8)) .| (p ≪ k) = (a * 256 + p) * 2 ^ k.
Proof.
  intros Hk Hp. rewrite (lor_high _ _ (k + 8)).
  - rewrite Z.shiftl_mul_pow2, Z.pow_add_r by lia. change (2 ^ 8) with 256. lia.
  - lia.
  - by apply shl_mul_byte.
  - apply Z.mod_mul. apply Z.pow_nonzero; lia.
Qed.

Fixpoint be_value (acc : Z) (bs : list Z) : Z :=
  match bs with [] => acc | b :: bs => be_value (acc * 256 + b) bs end.

Lemma be4_value p1 p2 p3 p4 :
  is_byte p1 -> is_byte p2 -> is_byte p3 -> is_byte p4 ->
  (p1 ≪ 24) .| (p2 ≪ 16) .| (p3 ≪ 8) .| p4 = be_value 0 [p1; p2; p3; p4].
Proof.
  intros. rewrite (Z.shiftl_mul_pow2 p1) by lia.
  rewrite (lor_be_step _ _ 16), (lor_be_step _ _ 8) by (done || lia).
  rewrite <- (Z.shiftl_0_r p4) at 1; rewrite (lor_be_step _ _ 0) by (done || lia).
  cbn [be_value]. rewrite Z.pow_0_r. lia.
Qed.

Lemma be8_value p1 p2 p3 p4 p5 p6 p7 p8 :
  Forall is_byte [p1; p2; p3; p4; p5; p6; p7; p8] ->
  (p1 ≪ 56) .| (p2 ≪ 48) .| (p3 ≪ 40) .| (p4 ≪ 32) .| (p5 ≪ 24) .| (p6 ≪ 16)
    .| (p7 ≪ 8) .| p8 = be_value 0 [p1; p2; p3; p4; p5; p6; p7; p8].
Proof.
  intros H. rewrite !Forall_cons_iff in H. destruct_and! H.
  rewrite (Z.shiftl_mul_pow2 p1) by lia.
  rewrite (lor_be_step _ _ 48), (lor_be_step _ _ 40), (lor_be_step _ _ 32),
    (lor_be_step _ _ 24), (lor_be_step _ _ 16), (lor_be_step _ _ 8) by (done || lia).
  rewrite <- (Z.shiftl_0_r p8) at 1; rewrite (lor_be_step _ _ 0) by (done || lia).
  cbn [be_value]. rewrite Z.pow_0_r. lia.
Qed.

(** The [n] big-endian bytes of [x], as the encoders store them. *)
Fixpoint be_bytes (n : nat) (x : Z) : list Z :=
  match n with O => [] | S n => u8 (x ≫ (8 * Z.of_nat n)) :: be_bytes n x end.

Lemma be_bytes_length n x : length (be_bytes n x) = n.
Proof. induction n; simpl; auto. Qed.

Lemma be_bytes_are_bytes n x : Forall is_byte (be_bytes n x).
Proof. induction n; simpl; constructor; auto using u8_byte. Qed.

Lemma be_value_acc acc bs :
  be_value acc bs = acc * 256 ^ Z.of_nat (length bs) + be_value 0 bs.
Proof.
  revert acc. induction bs as [|b bs IH]; intros acc.
  - cbn [be_value length]. change (256 ^ Z.of_nat 0) with 1. lia.
  - cbn [be_value length]. rewrite IH, (IH (0 * 256 + b)), Nat2Z.inj_succ, Z.pow_succ_r by lia.
    lia.
Qed.

Lemma be_value_bytes n x : be_value 0 (be_bytes n x) = x mod 2 ^ (8 * Z.of_nat n).
Proof.
  induction n; cbn [be_bytes be_value].
  - rewrite Z.mod_1_r. done.
  - rewrite be_value_acc, be_bytes_length, IHn.
    replace (8 * Z.of_nat (S n)) with (8 * Z.of_nat n + 8) by lia.
    rewrite mod_pow2_step by lia. unfold u8. change (2 ^ 8) with 256.
    replace (256 ^ Z.of_nat n) with (2 ^ (8 * Z.of_nat n)); [lia|].
    rewrite Z.pow_mul_r by lia. done.
Qed.

#[export] Hint Resolve be_bytes_are_bytes : dps.

(** ** Lists *)

Lemma Forall_mp {A} (P Q : A -> Prop) l :
  Forall (fun x => P x -> Q x) l -> Forall P l -> Forall Q l.
Proof. induction 1; inversion 1; constructor; auto. Qed.
