(* ===== verification/Status.v ===== *)
(** * Status codes ([inc/dps/err.h], [src/err.c])

    The result type of almost every operation, its numeric values and the text
    [DPS_ErrTxt] gives for them. *)
From S2P Require Import Prelude.
From stdpp Require Import strings pretty.
#[local] Open Scope string_scope.
#[local] Open Scope Z_scope.

(** [DPS_ERR_OK] is an alias of [DPS_OK], so it has no constructor of its own. *)
Inductive DPS_Status :=
  | DPS_OK | DPS_ERR_FAILURE | DPS_ERR_NULL | DPS_ERR_ARGS | DPS_ERR_RESOURCES
  | DPS_ERR_READ | DPS_ERR_WRITE | DPS_ERR_TIMEOUT | DPS_ERR_EOD | DPS_ERR_OVERFLOW
  | DPS_ERR_NETWORK | DPS_ERR_INVALID | DPS_ERR_BUSY | DPS_ERR_EXISTS | DPS_ERR_MISSING
  | DPS_ERR_STALE | DPS_ERR_NO_ROUTE | DPS_ERR_NOT_STARTED | DPS_ERR_NOT_INITIALIZED
  | DPS_ERR_EXPIRED | DPS_ERR_UNRESOLVED | DPS_ERR_NODE_DESTROYED | DPS_ERR_EOF
  | DPS_ERR_NOT_IMPLEMENTED | DPS_ERR_SECURITY | DPS_ERR_NOT_ENCRYPTED | DPS_ERR_STOPPING
  | DPS_ERR_RANGE | DPS_ERR_LOST_PRECISION | DPS_ERR_NOT_COSE | DPS_ERR_NONCE_OVERFLOW.

#[export] Instance DPS_Status_eq_dec : EqDecision DPS_Status.
Proof. solve_decision. Defined.

(** The boolean test [ret == DPS_OK]. *)
Definition is_OK (s : DPS_Status) : bool := bool_decide (s = DPS_OK).

Lemma is_OK_true s : is_OK s = true <-> s = DPS_OK.
Proof. apply bool_decide_eq_true. Qed.
Lemma is_OK_false s : is_OK s = false <-> s <> DPS_OK.
Proof. apply bool_decide_eq_false. Qed.

(** The macros of [err.h], in their order. *)
Definition all_status : list DPS_Status :=
  [DPS_OK; DPS_ERR_FAILURE; DPS_ERR_NULL; DPS_ERR_ARGS; DPS_ERR_RESOURCES;
   DPS_ERR_READ; DPS_ERR_WRITE; DPS_ERR_TIMEOUT; DPS_ERR_EOD; DPS_ERR_OVERFLOW;
   DPS_ERR_NETWORK; DPS_ERR_INVALID; DPS_ERR_BUSY; DPS_ERR_EXISTS; DPS_ERR_MISSING;
   DPS_ERR_STALE; DPS_ERR_NO_ROUTE; DPS_ERR_NOT_STARTED; DPS_ERR_NOT_INITIALIZED;
   DPS_ERR_EXPIRED; DPS_ERR_UNRESOLVED; DPS_ERR_NODE_DESTROYED; DPS_ERR_EOF;
   DPS_ERR_NOT_IMPLEMENTED; DPS_ERR_SECURITY; DPS_ERR_NOT_ENCRYPTED; DPS_ERR_STOPPING;
   DPS_ERR_RANGE; DPS_ERR_LOST_PRECISION; DPS_ERR_NOT_COSE; DPS_ERR_NONCE_OVERFLOW].

Definition status_code (s : DPS_Status) : Z :=
  match s with
  | DPS_OK => 0 | DPS_ERR_FAILURE => 1 | DPS_ERR_NULL => 2 | DPS_ERR_ARGS => 3
  | DPS_ERR_RESOURCES => 4 | DPS_ERR_READ => 5 | DPS_ERR_WRITE => 6
  | DPS_ERR_TIMEOUT => 7 | DPS_ERR_EOD => 8 | DPS_ERR_OVERFLOW => 9
  | DPS_ERR_NETWORK => 10 | DPS_ERR_INVALID => 11 | DPS_ERR_BUSY => 12
  | DPS_ERR_EXISTS => 13 | DPS_ERR_MISSING => 14 | DPS_ERR_STALE => 15
  | DPS_ERR_NO_ROUTE => 16 | DPS_ERR_NOT_STARTED => 17 | DPS_ERR_NOT_INITIALIZED => 18
  | DPS_ERR_EXPIRED => 19 | DPS_ERR_UNRESOLVED => 20 | DPS_ERR_NODE_DESTROYED => 21
  | DPS_ERR_EOF => 22 | DPS_ERR_NOT_IMPLEMENTED => 23 | DPS_ERR_SECURITY => 24
  | DPS_ERR_NOT_ENCRYPTED => 25 | DPS_ERR_STOPPING => 26 | DPS_ERR_RANGE => 27
  | DPS_ERR_LOST_PRECISION => 28 | DPS_ERR_NOT_COSE => 29 | DPS_ERR_NONCE_OVERFLOW => 30
  end.

(** [snprintf(buf, 8, "ERR%d", s)]: at most seven characters are kept. *)
Definition err_default (s : Z) : string :=
  String.substring 0 7 ("ERR" +:+ pretty s).

Definition DPS_ErrTxt (s : Z) : string :=
  match s with
  | 0 => "OK" | 1 => "FAILURE" | 2 => "NULL" | 3 => "ARGS" | 4 => "RESOURCES"
  | 5 => "READ" | 6 => "WRITE" | 7 => "TIMEOUT" | 8 => "EOD" | 9 => "OVERFLOW"
  | 10 => "NETWORK" | 11 => "INVALID" | 12 => "BUSY" | 13 => "EXISTS" | 14 => "MISSING"
  | 15 => "STALE" | 16 => "NO_ROUTE" | 17 => "NOT_STARTED" | 18 => "NOT_INITIALIZED"
  | 19 => "EXPIRED" | 20 => "UNRESOLVED" | 21 => "NODE_DESTROYED" | 22 => "EOF"
  | 23 => "NOT_IMPLEMENTED" | 24 => "SECURITY" | 25 => "NOT_ENCRYPTED" | 26 => "STOPPING"
  | 27 => "RANGE" | 28 => "LOST_PRECISION" | 29 => "NOT_COSE" | 30 => "NONCE_OVERFLOW"
  | _ => err_default s
  end.

Lemma all_status_complete s : s ∈ all_status.
Proof. destruct s; vm_compute; repeat constructor. Qed.

Lemma status_code_inj s t : status_code s = status_code t -> s = t.
Proof. destruct s, t; simpl; congruence. Qed.
