(* ===== verification/Buffer.v ===== *)
(** * Receive and transmit buffers ([inc/dps/private/dps.h], [src/dps.c])

    A buffer of the source is three pointers into one allocation.  Here the
    allocation is the list of its bytes and a pointer is an offset into it.
    Every access goes through [mem_read] and [mem_write], which are undefined
    ([None]) outside the allocation, so that "the operation is defined" is
    memory safety of the operation. *)
From S2P Require Import Prelude Status.

(** ** Memory *)

(** [mem[i]] *)
Definition mem_get (mem : list Z) (i : nat) : option Z := mem !! i.

(** The [n] bytes at [p]. *)
Definition mem_read (mem : list Z) (p n : nat) : option (list Z) :=
  if decide (p + n <= length mem)%nat then Some (take n (drop p mem)) else None.

(** Store [bs] at [p]. *)
Definition mem_write (mem : list Z) (p : nat) (bs : list Z) : option (list Z) :=
  if decide (p + length bs <= length mem)%nat
  then Some (take p mem ++ bs ++ drop (p + length bs) mem) else None.

(** C11 Annex K [memcpy_s(mem + p, dmax, src, n)] with [src] the [n] source
    bytes: a runtime-constraint violation ([n > dmax]) zeroes the [dmax] bytes
    of the destination and reports an error ([false]).  Copying no bytes
    succeeds, as the standard has it.  The library that the code links for this
    ([safe_lib.h]) is not in src/; should its function refuse a count of 0, then
    [DPS_AddTopic] would report RESOURCES at topics.c:166 for the empty level between
    two consecutive separators. *)
Definition memcpy_s (mem : list Z) (p : nat) (dmax : Z) (src : list Z)
  : option (bool * list Z) :=
  if Z.of_nat (length src) <=? dmax then
    mem' ← mem_write mem p src; Some (true, mem')
  else
    mem' ← mem_write mem p (replicate (Z.to_nat dmax) 0); Some (false, mem').

(** ** Receive buffers *)

Record DPS_RxBuffer := mkRx {
  rx_mem : list Z;   (* the allocation [base] points to *)
  rx_eod : nat;      (* [eod - base] *)
  rx_pos : nat       (* [rxPos - base] *)
}.

Definition rx_set_pos (b : DPS_RxBuffer) (p : nat) : DPS_RxBuffer :=
  mkRx (rx_mem b) (rx_eod b) p.

(** [buffer->rxPos += n] *)
Definition rx_skip (b : DPS_RxBuffer) (n : nat) : DPS_RxBuffer :=
  rx_set_pos b (rx_pos b + n).

(** [buffer->rxPos\[i\]] *)
Definition rx_peek (b : DPS_RxBuffer) (i : nat) : option Z :=
  mem_get (rx_mem b) (rx_pos b + i).

Definition DPS_RxBufferAvail (b : DPS_RxBuffer) : Z :=
  u32 (Z.of_nat (rx_eod b) - Z.of_nat (rx_pos b)).

(** [storage] is the memory the pointer argument designates; the empty buffer
    has null pointers. *)
Definition DPS_RxBufferInit (storage : list Z) (size : nat) : DPS_Status * DPS_RxBuffer :=
  (DPS_OK, if decide (size = 0%nat) then mkRx [] 0 0 else mkRx storage size 0).

Definition DPS_RxBufferFree (b : DPS_RxBuffer) : DPS_RxBuffer := mkRx [] 0 0.

(** ** Transmit buffers *)

Record DPS_TxBuffer := mkTx {
  tx_mem : list Z;   (* [base .. eob) *)
  tx_pos : nat       (* [txPos - base] *)
}.

Definition tx_eob (b : DPS_TxBuffer) : nat := length (tx_mem b).

Definition tx_set_pos (b : DPS_TxBuffer) (p : nat) : DPS_TxBuffer := mkTx (tx_mem b) p.

Definition DPS_TxBufferSpace (b : DPS_TxBuffer) : Z :=
  u32 (Z.of_nat (tx_eob b) - Z.of_nat (tx_pos b)).

Definition DPS_TxBufferUsed (b : DPS_TxBuffer) : Z := u32 (Z.of_nat (tx_pos b)).

Definition DPS_TxBufferCapacity (b : DPS_TxBuffer) : Z := u32 (Z.of_nat (tx_eob b)).

(** A run of [*p++ = byte] stores from [txPos], after which [txPos = p]. *)
Definition tx_put (b : DPS_TxBuffer) (bs : list Z) : option DPS_TxBuffer :=
  mem' ← mem_write (tx_mem b) (tx_pos b) bs;
  Some (mkTx mem' (tx_pos b + length bs)).

(** [storage] is [Some] of the caller's memory, or [None] for the null pointer;
    then [malloc] is asked for [size] bytes, and its outcome is [alloc]: the
    (indeterminate) contents of the block, or [None] when it fails. *)
Definition DPS_TxBufferInit (storage : option (list Z)) (alloc : option (list Z)) (size : nat)
  : DPS_Status * DPS_TxBuffer :=
  match storage with
  | Some mem => (DPS_OK, mkTx (take size mem) 0)
  | None =>
      if decide (size = 0%nat) then (DPS_OK, mkTx [] 0)
      else match alloc with
           | Some mem => (DPS_OK, mkTx (take size mem) 0)
           | None => (DPS_ERR_RESOURCES, mkTx [] 0)
           end
  end.

Definition DPS_TxBufferFree (b : DPS_TxBuffer) : DPS_TxBuffer := mkTx [] 0.

(** [data] is [None] for the null pointer. *)
Definition DPS_TxBufferAppend (b : DPS_TxBuffer) (data : option (list Z))
  : option (DPS_Status * DPS_TxBuffer) :=
  match data with
  | None | Some [] => Some (DPS_OK, b)
  | Some src =>
      '(ok, mem') ← memcpy_s (tx_mem b) (tx_pos b) (DPS_TxBufferSpace b) src;
      Some (if ok : bool then (DPS_OK, mkTx mem' (tx_pos b + length src))
            else (DPS_ERR_OVERFLOW, mkTx mem' (tx_pos b)))
  end.

Definition DPS_TxBufferToRx (b : DPS_TxBuffer) : DPS_RxBuffer :=
  mkRx (tx_mem b) (tx_pos b) 0.

Definition DPS_RxBufferToTx (b : DPS_RxBuffer) : DPS_TxBuffer :=
  mkTx (take (rx_eod b) (rx_mem b)) (rx_eod b).

(** ** Well-formedness *)

(** The pointers are in order and inside an allocation of less than 4 GiB,
    which is what the [uint32_t] casts of the macros assume. *)
Definition rx_wf (b : DPS_RxBuffer) : Prop :=
  (rx_pos b <= rx_eod b <= length (rx_mem b))%nat /\
  Z.of_nat (length (rx_mem b)) < 2 ^ 32 /\ Forall is_byte (rx_mem b).

Definition tx_wf (b : DPS_TxBuffer) : Prop :=
  (tx_pos b <= length (tx_mem b))%nat /\
  Z.of_nat (length (tx_mem b)) < 2 ^ 32 /\ Forall is_byte (tx_mem b).

#[export] Instance rx_wf_dec b : Decision (rx_wf b).
Proof. unfold rx_wf. apply _. Defined.
#[export] Instance tx_wf_dec b : Decision (tx_wf b).
Proof. unfold tx_wf. apply _. Defined.

(** The unread bytes and the written bytes. *)
Definition rx_rest (b : DPS_RxBuffer) : list Z :=
  take (rx_eod b - rx_pos b) (drop (rx_pos b) (rx_mem b)).
Definition tx_written (b : DPS_TxBuffer) : list Z := take (tx_pos b) (tx_mem b).
Definition tx_space (b : DPS_TxBuffer) : nat := length (tx_mem b) - tx_pos b.

(** ** Lemmas *)

Lemma mem_write_fits mem p bs :
  (p + length bs <= length mem)%nat ->
  mem_write mem p bs = Some (take p mem ++ bs ++ drop (p + length bs) mem).
Proof. intros. unfold mem_write. by rewrite decide_True. Qed.

Lemma mem_write_length mem p bs mem' :
  mem_write mem p bs = Some mem' -> length mem' = length mem.
Proof.
  unfold mem_write. case_decide; [|done]. intros [= <-].
  rewrite !length_app, length_take, length_drop. lia.
Qed.

Lemma mem_write_bytes mem p bs mem' :
  mem_write mem p bs = Some mem' -> Forall is_byte mem -> Forall is_byte bs ->
  Forall is_byte mem'.
Proof.
  unfold mem_write. case_decide; [|done]. intros [= <-] Hm Hb.
  repeat apply Forall_app_2; auto using Forall_take, Forall_drop.
Qed.

Lemma mem_read_fits mem p n :
  (p + n <= length mem)%nat -> mem_read mem p n = Some (take n (drop p mem)).
Proof. intros. unfold mem_read. by rewrite decide_True. Qed.

Lemma memcpy_s_fits mem p dmax src :
  Z.of_nat (length src) <= dmax -> (p + length src <= length mem)%nat ->
  memcpy_s mem p dmax src = Some (true, take p mem ++ src ++ drop (p + length src) mem).
Proof.
  intros Hd Hm. unfold memcpy_s. rewrite (proj2 (Z.leb_le _ _) Hd).
  by rewrite mem_write_fits.
Qed.

Lemma memcpy_s_overflow mem p dmax src :
  0 <= dmax < Z.of_nat (length src) -> (p + Z.to_nat dmax <= length mem)%nat ->
  memcpy_s mem p dmax src =
    Some (false, take p mem ++ replicate (Z.to_nat dmax) 0 ++ drop (p + Z.to_nat dmax) mem).
Proof.
  intros Hd Hm. unfold memcpy_s. rewrite (proj2 (Z.leb_gt _ _)) by lia.
  by rewrite mem_write_fits; rewrite length_replicate.
Qed.

Lemma take_app3 {A} n (l1 l2 l3 : list A) :
  (length l1 + length l2 = n)%nat -> take n (l1 ++ l2 ++ l3) = l1 ++ l2.
Proof. intros <-. rewrite app_assoc. apply take_app_length'. by rewrite length_app. Qed.

Lemma drop_app3 {A} n (l1 l2 l3 : list A) :
  (length l1 + length l2 <= n)%nat ->
  drop n (l1 ++ l2 ++ l3) = drop (n - length l1 - length l2) l3.
Proof. intros H. rewrite app_assoc, drop_app_ge; rewrite length_app; [f_equal|]; lia. Qed.

(** *** Transmit buffers *)

(** [b] after appending [bs] (total; meaningful when they fit). *)
Definition tx_app (b : DPS_TxBuffer) (bs : list Z) : DPS_TxBuffer :=
  mkTx (take (tx_pos b) (tx_mem b) ++ bs ++ drop (tx_pos b + length bs) (tx_mem b))
       (tx_pos b + length bs).

Definition tx_fits (b : DPS_TxBuffer) (n : nat) : Prop :=
  (tx_pos b + n <= length (tx_mem b))%nat.

#[export] Instance tx_fits_dec b n : Decision (tx_fits b n).
Proof. unfold tx_fits. apply _. Defined.

Lemma tx_put_fits b bs : tx_fits b (length bs) -> tx_put b bs = Some (tx_app b bs).
Proof. intros H. unfold tx_put. rewrite mem_write_fits by done. done. Qed.

Lemma tx_app_pos b bs : tx_pos (tx_app b bs) = (tx_pos b + length bs)%nat.
Proof. done. Qed.

Lemma tx_app_length b bs :
  tx_fits b (length bs) -> length (tx_mem (tx_app b bs)) = length (tx_mem b).
Proof.
  unfold tx_fits. intros. simpl. rewrite !length_app, length_take, length_drop. lia.
Qed.

Lemma tx_app_written b bs :
  tx_wf b -> tx_written (tx_app b bs) = tx_written b ++ bs.
Proof.
  intros [Hp _]. unfold tx_written, tx_app; simpl.
  rewrite app_assoc, take_app_le by (rewrite length_app, length_take; lia).
  apply take_ge. rewrite length_app, length_take. lia.
Qed.

Lemma tx_app_wf b bs :
  tx_wf b -> tx_fits b (length bs) -> Forall is_byte bs -> tx_wf (tx_app b bs).
Proof.
  intros (Hp & Hl & Hb) Hf Hbs. unfold tx_wf. rewrite tx_app_length by done.
  split_and!; [done|done|].
  simpl. repeat apply Forall_app_2; auto using Forall_take, Forall_drop.
Qed.

Lemma tx_app_app b bs1 bs2 :
  tx_wf b -> tx_fits b (length bs1) ->
  tx_app (tx_app b bs1) bs2 = tx_app b (bs1 ++ bs2).
Proof.
  intros [Hp _] Hf. unfold tx_fits in Hf. unfold tx_app; simpl. f_equal.
  - assert (length (take (tx_pos b) (tx_mem b)) = tx_pos b) by (rewrite length_take; lia).
    rewrite take_app3 by lia. rewrite drop_app3 by lia.
    rewrite <- !app_assoc, drop_drop, length_app. do 4 f_equal. lia.
  - rewrite length_app. lia.
Qed.

Lemma tx_app_fits b bs n :
  tx_fits b (length bs) -> tx_fits (tx_app b bs) n <-> tx_fits b (length bs + n).
Proof. intros H. unfold tx_fits. rewrite tx_app_length by done. simpl. lia. Qed.

Lemma tx_app_nil b : tx_wf b -> tx_app b [] = b.
Proof.
  intros [Hp _]. destruct b as [m p]; unfold tx_app; simpl in *.
  by rewrite Nat.add_0_r, take_drop.
Qed.

Lemma DPS_TxBufferSpace_spec b :
  tx_wf b -> DPS_TxBufferSpace b = Z.of_nat (tx_space b).
Proof.
  intros (? & ? & _). unfold DPS_TxBufferSpace, tx_eob, tx_space.
  rewrite u32_small by lia. lia.
Qed.

Lemma tx_fits_space b n :
  tx_wf b -> tx_fits b n <-> Z.of_nat n <= DPS_TxBufferSpace b.
Proof.
  intros H. rewrite DPS_TxBufferSpace_spec by done. destruct H as [? _].
  unfold tx_space, tx_fits. lia.
Qed.

(** *** Receive buffers *)

Lemma DPS_RxBufferAvail_spec b :
  rx_wf b -> DPS_RxBufferAvail b = Z.of_nat (length (rx_rest b)).
Proof.
  intros (? & ? & _). unfold DPS_RxBufferAvail, rx_rest.
  rewrite u32_small by lia. rewrite length_take, length_drop. lia.
Qed.

Lemma rx_peek_rest b i x : rx_rest b !! i = Some x -> rx_peek b i = Some x.
Proof.
  unfold rx_rest, rx_peek, mem_get. intros H.
  apply lookup_take_Some in H as [H _]. by rewrite lookup_drop in H.
Qed.

Lemma rx_peek_avail b i :
  rx_wf b -> Z.of_nat i < DPS_RxBufferAvail b ->
  exists x, rx_peek b i = Some x /\ rx_rest b !! i = Some x /\ is_byte x.
Proof.
  intros Hwf Hi. rewrite DPS_RxBufferAvail_spec in Hi by done.
  destruct (lookup_lt_is_Some_2 (rx_rest b) i) as [x Hx]; [lia|].
  exists x. split_and!; [by apply rx_peek_rest|done|].
  destruct Hwf as (_ & _ & Hb).
  eapply Forall_lookup_1; [|apply Hx]. apply Forall_take, Forall_drop, Hb.
Qed.

Lemma rx_skip_rest b n : rx_rest (rx_skip b n) = drop n (rx_rest b).
Proof.
  unfold rx_rest; simpl. rewrite skipn_firstn_comm, drop_drop. f_equal. lia.
Qed.

Lemma rx_skip_wf b n :
  rx_wf b -> Z.of_nat n <= DPS_RxBufferAvail b -> rx_wf (rx_skip b n).
Proof.
  intros Hwf Hn. rewrite DPS_RxBufferAvail_spec in Hn by done.
  unfold rx_rest in Hn. rewrite length_take, length_drop in Hn.
  destruct Hwf as (? & ? & ?). unfold rx_wf; simpl. split_and!; auto; lia.
Qed.

Lemma rx_skip_avail b n :
  rx_wf b -> Z.of_nat n <= DPS_RxBufferAvail b ->
  DPS_RxBufferAvail (rx_skip b n) = DPS_RxBufferAvail b - Z.of_nat n.
Proof.
  intros Hwf Hn. rewrite (DPS_RxBufferAvail_spec _ (rx_skip_wf _ _ Hwf Hn)).
  rewrite rx_skip_rest, length_drop. rewrite DPS_RxBufferAvail_spec in * by done. lia.
Qed.

Lemma rx_rest_whole l : rx_rest (mkRx l (length l) 0) = l.
Proof. unfold rx_rest. cbn [rx_mem rx_eod rx_pos drop]. rewrite Nat.sub_0_r. apply take_ge. done. Qed.

Lemma rx_rest_bytes b : rx_wf b -> Forall is_byte (rx_rest b).
Proof. intros (_ & _ & H). apply Forall_take, Forall_drop, H. Qed.

#[export] Hint Resolve tx_app_wf rx_skip_wf rx_rest_bytes : dps.

(** *** Progress of a decoder *)

(** [b'] is [b] with its read position moved forward inside the data. *)
Definition rx_adv (b b' : DPS_RxBuffer) : Prop :=
  rx_mem b' = rx_mem b /\ rx_eod b' = rx_eod b /\ (rx_pos b <= rx_pos b' <= rx_eod b)%nat.

Lemma rx_adv_refl b : rx_wf b -> rx_adv b b.
Proof. intros (? & _). unfold rx_adv. auto with lia. Qed.

#[export] Instance rx_adv_trans : Transitive rx_adv.
Proof.
  intros b1 b2 b3 (Hm & He & Hp) (Hm' & He' & Hp'). unfold rx_adv.
  rewrite Hm', He', Hm, He in *. split_and!; auto; lia.
Qed.

Lemma rx_adv_wf b b' : rx_wf b -> rx_adv b b' -> rx_wf b'.
Proof.
  intros (? & ? & ?) (Hm & He & ?). unfold rx_wf. rewrite Hm, He. split_and!; auto; lia.
Qed.

Lemma rx_adv_avail b b' :
  rx_wf b -> rx_adv b b' ->
  DPS_RxBufferAvail b' = DPS_RxBufferAvail b - (Z.of_nat (rx_pos b') - Z.of_nat (rx_pos b)).
Proof.
  intros Hwf Ha. pose proof (rx_adv_wf _ _ Hwf Ha) as Hwf'.
  rewrite !DPS_RxBufferAvail_spec by done. unfold rx_rest.
  rewrite !length_take, !length_drop.
  destruct Ha as (-> & -> & ?), Hwf as (? & _). lia.
Qed.

Lemma rx_skip_adv b n :
  rx_wf b -> Z.of_nat n <= DPS_RxBufferAvail b -> rx_adv b (rx_skip b n).
Proof.
  intros Hwf Hn. pose proof (rx_skip_wf _ _ Hwf Hn) as (? & _).
  unfold rx_adv; simpl in *. auto with lia.
Qed.

Lemma rx_avail_nonneg b : rx_wf b -> 0 <= DPS_RxBufferAvail b < 2 ^ 32.
Proof. intros _. unfold DPS_RxBufferAvail, u32. by apply Z.mod_pos_bound. Qed.

#[export] Hint Resolve rx_adv_refl rx_adv_wf rx_skip_adv rx_avail_nonneg : dps.
