(* ===== verification/Float.v ===== *)
(** * The C floating-point conversions the CBOR codec and the bit vectors use

    [float] and [double] values are their IEEE 754 bit patterns (binary32 and
    binary64).  The arithmetic is the specification of the Standard Library
    ([SpecFloat]), rounding to nearest even.  A conversion to an integer type
    is undefined ([None]) when the truncated value does not fit. *)
From S2P Require Import Prelude.
From Stdlib Require Import SpecFloat.

(** A format: [mw] bits of fraction and [ew] bits of exponent. *)
Section Format.
Context (mw ew : Z).

Definition prec : Z := mw + 1.
Definition emax : Z := 2 ^ (ew - 1).
Definition fmin : Z := 3 - emax - prec.   (* exponent of the least subnormal *)

Definition sf_of_bits (x : Z) : spec_float :=
  let s := Z.testbit x (mw + ew) in
  let e := (x ≫ mw) .& Z.ones ew in
  let m := x .& Z.ones mw in
  if e =? 0 then
    match m with Zpos p => S754_finite s p fmin | _ => S754_zero s end
  else if e =? Z.ones ew then (if m =? 0 then S754_infinity s else S754_nan)
  else match m + 2 ^ mw with
       | Zpos p => S754_finite s p (e - 1 + fmin)
       | _ => S754_zero s
       end.

Definition bits_of_sf (f : spec_float) : Z :=
  let sgn (s : bool) := if s then 2 ^ (mw + ew) else 0 in
  match f with
  | S754_zero s => sgn s
  | S754_infinity s => sgn s + (Z.ones ew ≪ mw)
  | S754_nan => (Z.ones ew ≪ mw) + 2 ^ (mw - 1)
  | S754_finite s m e =>
      if Zpos m <? 2 ^ mw then sgn s + Zpos m
      else sgn s + ((e - fmin + 1) ≪ mw) + (Zpos m - 2 ^ mw)
  end.

(** Round the exact value of a finite number to this format. *)
Definition sf_round (f : spec_float) : spec_float :=
  match f with
  | S754_finite s m e => binary_normalize prec emax (cond_Zopp s (Zpos m)) e s
  | _ => f
  end.

Definition sf_of_Z (n : Z) : spec_float := binary_normalize prec emax n 0 false.
End Format.

(** Truncation toward zero. *)
Definition sf_trunc (f : spec_float) : option Z :=
  match f with
  | S754_zero _ => Some 0
  | S754_finite s m e => Some (cond_Zopp s (if 0 <=? e then Zpos m ≪ e else Zpos m ≫ (- e)))
  | _ => None
  end.

Definition sf_double (d : Z) : spec_float := sf_of_bits 52 11 d.
Definition sf_float (f : Z) : spec_float := sf_of_bits 23 8 f.

(** [(float)d], [(double)f], [(float)n], [(double)n] *)
Definition double_to_float (d : Z) : Z := bits_of_sf 23 8 (sf_round 23 8 (sf_double d)).
Definition float_to_double (f : Z) : Z := bits_of_sf 52 11 (sf_round 52 11 (sf_float f)).
Definition int_to_float (n : Z) : Z := bits_of_sf 23 8 (sf_of_Z 23 8 n).
Definition int_to_double (n : Z) : Z := bits_of_sf 52 11 (sf_of_Z 52 11 n).

(** [(uint64_t)v] and [(int64_t)v] *)
Definition sf_to_u64 (f : spec_float) : option Z :=
  n ← sf_trunc f; if (0 <=? n) && (n <? 2 ^ 64) then Some n else None.
Definition sf_to_s64 (f : spec_float) : option Z :=
  n ← sf_trunc f; if (- 2 ^ 63 <=? n) && (n <? 2 ^ 63) then Some n else None.

(** [d != d'] *)
Definition double_ne (d d' : Z) : bool := negb (SFeqb (sf_double d) (sf_double d')).

(** [FLT_MAX] and [fabs(d) > FLT_MAX] *)
Definition FLT_MAX : spec_float := S754_finite false 16777215 104.
Definition fabs_gt_FLT_MAX (d : Z) : bool := SFltb FLT_MAX (SFabs (sf_double d)).

Example double_1_5 : float_to_double 0x3FC00000 = 0x3FF8000000000000.
Proof. reflexivity. Qed.
Example double_tenth : double_to_float 0x3FB999999999999A = 0x3DCCCCCD.
Proof. reflexivity. Qed.
Example float_2_24_1 : int_to_float 16777217 = 0x4B800000.
Proof. reflexivity. Qed.
Example u64_max_float : sf_to_u64 (sf_float (int_to_float (2 ^ 64 - 1))) = None.
Proof. reflexivity. Qed.
Example double_min_subnormal : double_to_float 1 = 0 /\ float_to_double 1 = 0x36A0000000000000.
Proof. split; reflexivity. Qed.
