(* ===== verification/Cbor.v ===== *)
(** * The CBOR codec ([src/cbor.c], [inc/dps/private/cbor.h])

    Encoders take the transmit buffer and return a status and the buffer after
    the call; decoders do the same with a receive buffer.  The outer [option]
    is the memory model's: [None] is an access outside the allocation.
    An output parameter [*x] is passed with the value it had before the call,
    because the code leaves it alone on some paths. *)
From S2P Require Import Prelude Status Buffer Float.

(** ** Constants *)

Definition CBOR_UINT : Z := 0x00.
Definition CBOR_NEG : Z := 0x20.
Definition CBOR_BYTES : Z := 0x40.
Definition CBOR_STRING : Z := 0x60.
Definition CBOR_ARRAY : Z := 0x80.
Definition CBOR_MAP : Z := 0xA0.
Definition CBOR_TAG : Z := 0xC0.
Definition CBOR_OTHER : Z := 0xE0.
Definition CBOR_FALSE : Z := 0xF4.
Definition CBOR_TRUE : Z := 0xF5.
Definition CBOR_NULL : Z := 0xF6.
Definition CBOR_FLOAT : Z := 0xFA.
Definition CBOR_DOUBLE : Z := 0xFB.

Definition CBOR_LEN1 : Z := 24.
Definition CBOR_LEN2 : Z := 25.
Definition CBOR_LEN4 : Z := 26.
Definition CBOR_LEN8 : Z := 27.

Definition CBOR_MAX_STRING_LEN : Z := 2048.
Definition CBOR_MAX_LENGTH : nat := 9.

Definition UINT8_MAX : Z := 255.
Definition UINT16_MAX : Z := 65535.
Definition UINT32_MAX : Z := 4294967295.
Definition SIZE_MAX : Z := 18446744073709551615.

Definition MAJOR_ENCODES_LENGTH (m : Z) : bool :=
  (m =? CBOR_BYTES) || (m =? CBOR_STRING) || (m =? CBOR_ARRAY) || (m =? CBOR_MAP).

Definition CBOR_SIZEOF_LEN (l : Z) : Z :=
  if l <? 24 then 1 else if l <=? UINT8_MAX then 2 else if l <=? UINT16_MAX then 3
  else if l <=? UINT32_MAX then 5 else 9.

(** ** Encoders *)

Definition Requires (n : Z) : Z :=
  if n <? 24 then 0 else if n <=? UINT8_MAX then 1 else if n <=? UINT16_MAX then 2
  else if n <=? UINT32_MAX then 4 else 8.

Definition EncodeUint (buffer : DPS_TxBuffer) (n maj : Z) : option (DPS_Status * DPS_TxBuffer) :=
  let lenReq := u32 (Requires n) in
  if u32 (lenReq + 1) >? DPS_TxBufferSpace buffer then Some (DPS_ERR_OVERFLOW, buffer)
  else
    buffer' ← tx_put buffer
      (match lenReq with
       | 0 => [u8 (maj .| n)]
       | 1 => [u8 (maj .| CBOR_LEN1); u8 n]
       | 2 => [u8 (maj .| CBOR_LEN2); u8 (n ≫ 8); u8 n]
       | 4 => [u8 (maj .| CBOR_LEN4); u8 (n ≫ 24); u8 (n ≫ 16); u8 (n ≫ 8); u8 n]
       | 8 => [u8 (maj .| CBOR_LEN8); u8 (n ≫ 56); u8 (n ≫ 48); u8 (n ≫ 40); u8 (n ≫ 32);
               u8 (n ≫ 24); u8 (n ≫ 16); u8 (n ≫ 8); u8 n]
       | _ => []
       end);
    Some (DPS_OK, buffer').

Definition CBOR_EncodeLength (buffer : DPS_TxBuffer) (len maj : Z) :
  option (DPS_Status * DPS_TxBuffer) := EncodeUint buffer len maj.

(** [data] is [None] for the null pointer, else the memory it points to. *)
Definition CBOR_Copy (buffer : DPS_TxBuffer) (data : option (list Z)) (len : nat) :
  option (DPS_Status * DPS_TxBuffer) :=
  match data with
  | Some mem =>
      if decide (len = 0%nat) then Some (DPS_OK, buffer)
      else
        src ← mem_read mem 0 len;
        '(ok, mem') ← memcpy_s (tx_mem buffer) (tx_pos buffer) (DPS_TxBufferSpace buffer) src;
        Some (if ok : bool then (DPS_OK, mkTx mem' (tx_pos buffer + len))
              else (DPS_ERR_OVERFLOW, mkTx mem' (tx_pos buffer)))
  | None => Some (DPS_OK, buffer)
  end.

(** The one-byte encoders: booleans and null. *)
Definition CBOR_EncodeBoolean (buffer : DPS_TxBuffer) (i : Z) :
  option (DPS_Status * DPS_TxBuffer) :=
  if DPS_TxBufferSpace buffer <? 1 then Some (DPS_ERR_OVERFLOW, buffer)
  else buffer' ← tx_put buffer [if negb (i =? 0) then CBOR_TRUE else CBOR_FALSE];
       Some (DPS_OK, buffer').

Definition CBOR_EncodeNull (buffer : DPS_TxBuffer) : option (DPS_Status * DPS_TxBuffer) :=
  if DPS_TxBufferSpace buffer <? 1 then Some (DPS_ERR_OVERFLOW, buffer)
  else buffer' ← tx_put buffer [CBOR_NULL]; Some (DPS_OK, buffer').

Definition CBOR_EncodeUint (buffer : DPS_TxBuffer) (n : Z) := EncodeUint buffer n CBOR_UINT.

(** [~(uint64_t)i] *)
Definition not_u64 (i : Z) : Z := u64 (Z.lnot (u64 i)).

Definition _CBOR_SizeOfInt (i : Z) : Z :=
  if i >=? 0 then CBOR_SIZEOF_LEN (u64 i) else CBOR_SIZEOF_LEN (not_u64 i).

Definition CBOR_EncodeInt (buffer : DPS_TxBuffer) (i : Z) :=
  if i >=? 0 then EncodeUint buffer (u64 i) CBOR_UINT
  else EncodeUint buffer (not_u64 i) CBOR_NEG.

Definition CBOR_EncodeBytes (buffer : DPS_TxBuffer) (data : option (list Z)) (len : nat) :
  option (DPS_Status * DPS_TxBuffer) :=
  '(ret, buffer) ← EncodeUint buffer (u32 (Z.of_nat len)) CBOR_BYTES;
  if is_OK ret then CBOR_Copy buffer data len else Some (ret, buffer).

(** The third component is [*ptr], as an offset into the buffer. *)
Definition CBOR_ReserveBytes (buffer : DPS_TxBuffer) (len : nat) (ptr : option nat) :
  option (DPS_Status * DPS_TxBuffer * option nat) :=
  '(ret, buffer) ← EncodeUint buffer (u32 (Z.of_nat len)) CBOR_BYTES;
  if is_OK ret then
    if DPS_TxBufferSpace buffer <? Z.of_nat len then Some (DPS_ERR_OVERFLOW, buffer, ptr)
    else Some (DPS_OK, tx_set_pos buffer (tx_pos buffer + len), Some (tx_pos buffer))
  else Some (ret, buffer, ptr).

Definition CBOR_StartWrapBytes (buffer : DPS_TxBuffer) (hintLen : nat) :
  option (DPS_Status * DPS_TxBuffer * nat) :=
  let ptr := tx_pos buffer in
  '(ret, buffer, tmp) ← CBOR_ReserveBytes buffer hintLen None;
  if is_OK ret then
    tmp ← tmp; Some (ret, tx_set_pos buffer tmp, ptr)
  else Some (ret, buffer, ptr).

(** [str] is [None] for the null pointer, else the characters before the NUL. *)
Definition strnlen_s (str : list Z) (max : Z) : Z := Z.min (Z.of_nat (length str)) max.

Definition CBOR_EncodeString (buffer : DPS_TxBuffer) (str : option (list Z)) :
  option (DPS_Status * DPS_TxBuffer) :=
  let len := match str with Some s => strnlen_s s (CBOR_MAX_STRING_LEN + 1) | None => 0 end in
  '(ret, buffer) ←
    (if len >? CBOR_MAX_STRING_LEN then Some (DPS_ERR_OVERFLOW, buffer)
     else EncodeUint buffer (u32 len) CBOR_STRING);
  if is_OK ret then CBOR_Copy buffer str (Z.to_nat len) else Some (ret, buffer).

Definition CBOR_EncodeStringAndLength (buffer : DPS_TxBuffer) (str : option (list Z)) (len : nat) :
  option (DPS_Status * DPS_TxBuffer) :=
  '(ret, buffer) ← EncodeUint buffer (u32 (Z.of_nat len)) CBOR_STRING;
  if is_OK ret then CBOR_Copy buffer str len else Some (ret, buffer).

Definition CBOR_EncodeArray (buffer : DPS_TxBuffer) (len : Z) :=
  EncodeUint buffer (u32 len) CBOR_ARRAY.
Definition CBOR_EncodeMap (buffer : DPS_TxBuffer) (len : Z) :=
  EncodeUint buffer (u32 len) CBOR_MAP.
Definition CBOR_EncodeTag (buffer : DPS_TxBuffer) (n : Z) := EncodeUint buffer n CBOR_TAG.

(** [*--pf] four times from the end of the little-endian float. *)
Definition CBOR_EncodeFloat (buffer : DPS_TxBuffer) (f : Z) :
  option (DPS_Status * DPS_TxBuffer) :=
  if DPS_TxBufferSpace buffer <? 5 then Some (DPS_ERR_OVERFLOW, buffer)
  else buffer' ← tx_put buffer [CBOR_FLOAT; u8 (f ≫ 24); u8 (f ≫ 16); u8 (f ≫ 8); u8 f];
       Some (DPS_OK, buffer').

Definition CBOR_EncodeDouble (buffer : DPS_TxBuffer) (d : Z) :
  option (DPS_Status * DPS_TxBuffer) :=
  if DPS_TxBufferSpace buffer <? 9 then Some (DPS_ERR_OVERFLOW, buffer)
  else buffer' ← tx_put buffer
         [CBOR_DOUBLE; u8 (d ≫ 56); u8 (d ≫ 48); u8 (d ≫ 40); u8 (d ≫ 32);
          u8 (d ≫ 24); u8 (d ≫ 16); u8 (d ≫ 8); u8 d];
       Some (DPS_OK, buffer').

(** [uuid] is the 16 bytes of the [DPS_UUID]. *)
Definition CBOR_EncodeUUID (buffer : DPS_TxBuffer) (uuid : list Z) :=
  CBOR_EncodeBytes buffer (Some uuid) 16.

Definition _CBOR_SizeOfString (s : option (list Z)) : Z :=
  let len := match s with Some s => strnlen_s s (CBOR_MAX_STRING_LEN + 1) | None => 0 end in
  len + CBOR_SIZEOF_LEN len.

(** ** Decoders *)

Definition IntLengths : list Z :=
  [1;1;1;1;1;1;1;1;1;1;1;1;1;1;1;1;1;1;1;1;1;1;1;1;2;3;5;9;0;0;0;0].

(** Outputs: status, [*n], [*maj], [*len]. *)
Definition PeekUint (buffer : DPS_RxBuffer) (n maj len : Z) :
  option (DPS_Status * Z * Z * Z) :=
  let avail := DPS_RxBufferAvail buffer in
  let p := rx_peek buffer in
  if avail <? 1 then Some (DPS_ERR_EOD, n, maj, len)
  else
    info ← p 0%nat;
    let maj := info .& 0xE0 in
    let info := info .& 0x1F in
    len ← IntLengths !! Z.to_nat info;
    if avail <? len then Some (DPS_ERR_EOD, n, maj, len)
    else match len with
    | 1 => Some (DPS_OK, info, maj, len)
    | 2 => p1 ← p 1%nat; Some (DPS_OK, p1, maj, len)
    | 3 => p1 ← p 1%nat; p2 ← p 2%nat; Some (DPS_OK, (p1 ≪ 8) .| p2, maj, len)
    | 5 => p1 ← p 1%nat; p2 ← p 2%nat; p3 ← p 3%nat; p4 ← p 4%nat;
           Some (DPS_OK, (p1 ≪ 24) .| (p2 ≪ 16) .| (p3 ≪ 8) .| p4, maj, len)
    | 9 => p1 ← p 1%nat; p2 ← p 2%nat; p3 ← p 3%nat; p4 ← p 4%nat;
           p5 ← p 5%nat; p6 ← p 6%nat; p7 ← p 7%nat; p8 ← p 8%nat;
           Some (DPS_OK, (p1 ≪ 56) .| (p2 ≪ 48) .| (p3 ≪ 40) .| (p4 ≪ 32)
                         .| (p5 ≪ 24) .| (p6 ≪ 16) .| (p7 ≪ 8) .| p8, maj, len)
    | _ => Some (DPS_ERR_INVALID, n, maj, len)
    end.

(** The locals [maj] and [len] are uninitialised in the source; [PeekUint] sets
    both before they are read, so their initial value 0 is never used. *)
Definition DecodeUint (buffer : DPS_RxBuffer) (n expectMaj : Z) :
  option (DPS_Status * Z * DPS_RxBuffer) :=
  '(ret, n, maj, len) ← PeekUint buffer n 0 0;
  if is_OK ret then
    if negb (maj =? expectMaj) then Some (DPS_ERR_INVALID, n, buffer)
    else Some (ret, n, rx_skip buffer (Z.to_nat len))
  else Some (ret, n, buffer).

Definition CBOR_DecodeBoolean (buffer : DPS_RxBuffer) (i : Z) :
  option (DPS_Status * Z * DPS_RxBuffer) :=
  if DPS_RxBufferAvail buffer <? 1 then Some (DPS_ERR_EOD, i, buffer)
  else
    b ← rx_peek buffer 0;
    let buffer := rx_skip buffer 1 in
    if negb (b =? CBOR_FALSE) && negb (b =? CBOR_TRUE) then Some (DPS_ERR_INVALID, i, buffer)
    else Some (DPS_OK, b .& 1, buffer).

Definition CBOR_DecodeUint (buffer : DPS_RxBuffer) (n : Z) := DecodeUint buffer n CBOR_UINT.

Definition CBOR_DecodeUint8 (buffer : DPS_RxBuffer) (n : Z) :
  option (DPS_Status * Z * DPS_RxBuffer) :=
  '(ret, u64, buffer) ← DecodeUint buffer 0 CBOR_UINT;
  if negb (is_OK ret) then Some (ret, n, buffer)
  else if u64 >? UINT8_MAX then Some (DPS_ERR_RANGE, n, buffer)
  else Some (ret, u8 u64, buffer).

Definition CBOR_DecodeUint16 (buffer : DPS_RxBuffer) (n : Z) :
  option (DPS_Status * Z * DPS_RxBuffer) :=
  '(ret, u64, buffer) ← DecodeUint buffer 0 CBOR_UINT;
  if negb (is_OK ret) then Some (ret, n, buffer)
  else if u64 >? UINT16_MAX then Some (DPS_ERR_RANGE, n, buffer)
  else Some (ret, u16 u64, buffer).

Definition CBOR_DecodeUint32 (buffer : DPS_RxBuffer) (n : Z) :
  option (DPS_Status * Z * DPS_RxBuffer) :=
  '(ret, u64, buffer) ← DecodeUint buffer 0 CBOR_UINT;
  if negb (is_OK ret) then Some (ret, n, buffer)
  else if u64 >? UINT32_MAX then Some (DPS_ERR_RANGE, n, buffer)
  else Some (ret, u32 u64, buffer).

Definition CBOR_DecodeInt (buffer : DPS_RxBuffer) (i : Z) :
  option (DPS_Status * Z * DPS_RxBuffer) :=
  '(ret, n, maj, len) ← PeekUint buffer 0 0 0;
  if is_OK ret then
    if maj =? CBOR_UINT then
      let i := s64 n in
      if i <? 0 then Some (DPS_ERR_INVALID, i, buffer)
      else Some (ret, i, rx_skip buffer (Z.to_nat len))
    else if maj =? CBOR_NEG then
      let i := s64 (Z.lnot n) in
      if i >? 0 then Some (DPS_ERR_INVALID, i, buffer)
      else Some (ret, i, rx_skip buffer (Z.to_nat len))
    else Some (DPS_ERR_INVALID, i, buffer)
  else Some (ret, i, buffer).

Definition INT8_MIN : Z := -128.
Definition INT8_MAX : Z := 127.
Definition INT16_MIN : Z := -32768.
Definition INT16_MAX : Z := 32767.
Definition INT32_MIN : Z := -2147483648.
Definition INT32_MAX : Z := 2147483647.

Definition CBOR_DecodeInt8 (buffer : DPS_RxBuffer) (n : Z) :
  option (DPS_Status * Z * DPS_RxBuffer) :=
  '(ret, i64, buffer) ← CBOR_DecodeInt buffer 0;
  if is_OK ret && ((i64 <? INT8_MIN) || (i64 >? INT8_MAX)) then Some (DPS_ERR_RANGE, n, buffer)
  else Some (ret, s8 i64, buffer).

Definition CBOR_DecodeInt16 (buffer : DPS_RxBuffer) (n : Z) :
  option (DPS_Status * Z * DPS_RxBuffer) :=
  '(ret, i64, buffer) ← CBOR_DecodeInt buffer 0;
  if is_OK ret && ((i64 <? INT16_MIN) || (i64 >? INT16_MAX)) then Some (DPS_ERR_RANGE, n, buffer)
  else Some (ret, s16 i64, buffer).

Definition CBOR_DecodeInt32 (buffer : DPS_RxBuffer) (n : Z) :
  option (DPS_Status * Z * DPS_RxBuffer) :=
  '(ret, i64, buffer) ← CBOR_DecodeInt buffer 0;
  if is_OK ret && ((i64 <? INT32_MIN) || (i64 >? INT32_MAX)) then Some (DPS_ERR_RANGE, n, buffer)
  else Some (ret, s32 i64, buffer).

(** [*data] is an offset into the buffer's memory, [None] for the null pointer. *)
Definition CBOR_DecodeBytes (buffer : DPS_RxBuffer) :
  option (DPS_Status * option nat * Z * DPS_RxBuffer) :=
  '(ret, len, buffer) ← DecodeUint buffer 0 CBOR_BYTES;
  if is_OK ret then
    if (len >? DPS_RxBufferAvail buffer) || (len >? SIZE_MAX)
    then Some (DPS_ERR_INVALID, None, 0, buffer)
    else if len =? 0 then Some (ret, None, 0, buffer)
    else Some (ret, Some (rx_pos buffer), u64 len, rx_skip buffer (Z.to_nat len))
  else Some (ret, None, 0, buffer).

Definition CBOR_DecodeString (buffer : DPS_RxBuffer) (data : option nat) (size : Z) :
  option (DPS_Status * option nat * Z * DPS_RxBuffer) :=
  '(ret, len, buffer) ← DecodeUint buffer 0 CBOR_STRING;
  if is_OK ret then
    if (len >? DPS_RxBufferAvail buffer) || (len >? SIZE_MAX)
    then Some (DPS_ERR_INVALID, data, size, buffer)
    else if len >? 0
    then Some (ret, Some (rx_pos buffer), u64 len, rx_skip buffer (Z.to_nat len))
    else Some (ret, None, 0, buffer)
  else Some (ret, data, size, buffer).

Definition CBOR_DecodeArray (buffer : DPS_RxBuffer) (size : Z) :
  option (DPS_Status * Z * DPS_RxBuffer) :=
  '(ret, len, buffer) ← DecodeUint buffer 0 CBOR_ARRAY;
  if is_OK ret then
    if len >? SIZE_MAX then Some (DPS_ERR_INVALID, size, buffer)
    else Some (ret, u64 len, buffer)
  else Some (ret, size, buffer).

Definition CBOR_DecodeMap (buffer : DPS_RxBuffer) (size : Z) :
  option (DPS_Status * Z * DPS_RxBuffer) :=
  '(ret, len, buffer) ← DecodeUint buffer 0 CBOR_MAP;
  if is_OK ret then
    if len >? SIZE_MAX then Some (DPS_ERR_INVALID, size, buffer)
    else Some (ret, u64 len, buffer)
  else Some (ret, size, buffer).

Definition CBOR_DecodeTag (buffer : DPS_RxBuffer) (n : Z) :
  option (DPS_Status * Z * DPS_RxBuffer) :=
  let pos := rx_pos buffer in
  '(ret, n, buffer) ← DecodeUint buffer n CBOR_TAG;
  if negb (is_OK ret) then Some (ret, n, rx_set_pos buffer pos) else Some (ret, n, buffer).

(** *** Floating point *)

(** [*--pf = *p++] from the end of a little-endian [float] or [double]: the
    first byte read is the most significant. *)
Definition rx_read_f32 (p : nat -> option Z) : option Z :=
  b1 ← p 1%nat; b2 ← p 2%nat; b3 ← p 3%nat; b4 ← p 4%nat;
  Some ((b1 ≪ 24) .| (b2 ≪ 16) .| (b3 ≪ 8) .| b4).

Definition rx_read_f64 (p : nat -> option Z) : option Z :=
  b1 ← p 1%nat; b2 ← p 2%nat; b3 ← p 3%nat; b4 ← p 4%nat;
  b5 ← p 5%nat; b6 ← p 6%nat; b7 ← p 7%nat; b8 ← p 8%nat;
  Some ((b1 ≪ 56) .| (b2 ≪ 48) .| (b3 ≪ 40) .| (b4 ≪ 32)
        .| (b5 ≪ 24) .| (b6 ≪ 16) .| (b7 ≪ 8) .| b8).

(** The part of [CBOR_DecodeFloat] after [if ( *p != CBOR_FLOAT)], which is also
    all that [CBOR_DecodeDouble] runs of it (it calls it on that byte only). *)
Definition DecodeFloatExact (buffer : DPS_RxBuffer) (f : Z) :
  option (DPS_Status * Z * DPS_RxBuffer) :=
  if DPS_RxBufferAvail buffer <? 5 then Some (DPS_ERR_EOD, f, buffer)
  else f ← rx_read_f32 (rx_peek buffer); Some (DPS_OK, f, rx_skip buffer 5).

(** The same part of [CBOR_DecodeDouble]. *)
Definition DecodeDoubleExact (buffer : DPS_RxBuffer) (d : Z) :
  option (DPS_Status * Z * DPS_RxBuffer) :=
  if DPS_RxBufferAvail buffer <? 9 then Some (DPS_ERR_EOD, d, buffer)
  else d ← rx_read_f64 (rx_peek buffer); Some (DPS_OK, d, rx_skip buffer 9).

Definition CBOR_DecodeFloat (buffer : DPS_RxBuffer) (f : Z) :
  option (DPS_Status * Z * DPS_RxBuffer) :=
  if DPS_RxBufferAvail buffer <? 1 then Some (DPS_ERR_EOD, f, buffer)
  else
    p0 ← rx_peek buffer 0;
    if negb (p0 =? CBOR_FLOAT) then
      let maj := p0 .& 0xE0 in
      if p0 =? CBOR_DOUBLE then
        '(status, d, buffer) ← DecodeDoubleExact buffer 0;
        if is_OK status then
          if fabs_gt_FLT_MAX d then Some (DPS_ERR_RANGE, f, buffer)
          else
            let f := double_to_float d in
            Some (if double_ne d (float_to_double f) then DPS_ERR_LOST_PRECISION else status,
                  f, buffer)
        else Some (status, f, buffer)
      else if maj =? CBOR_UINT then
        '(status, u64, buffer) ← CBOR_DecodeUint buffer 0;
        if is_OK status then
          let f := int_to_float u64 in
          v ← sf_to_u64 (sf_float f);
          Some (if negb (v =? u64) then DPS_ERR_LOST_PRECISION else status, f, buffer)
        else Some (status, f, buffer)
      else if maj =? CBOR_NEG then
        '(status, i64, buffer) ← CBOR_DecodeInt buffer 0;
        if is_OK status then
          let f := int_to_float i64 in
          v ← sf_to_s64 (sf_float f);
          Some (if negb (v =? i64) then DPS_ERR_LOST_PRECISION else status, f, buffer)
        else Some (status, f, buffer)
      else Some (DPS_ERR_INVALID, f, buffer)
    else DecodeFloatExact buffer f.

Definition CBOR_DecodeDouble (buffer : DPS_RxBuffer) (d : Z) :
  option (DPS_Status * Z * DPS_RxBuffer) :=
  if DPS_RxBufferAvail buffer <? 1 then Some (DPS_ERR_EOD, d, buffer)
  else
    p0 ← rx_peek buffer 0;
    if negb (p0 =? CBOR_DOUBLE) then
      let maj := p0 .& 0xE0 in
      if p0 =? CBOR_FLOAT then
        '(status, f, buffer) ← DecodeFloatExact buffer 0;
        Some (status, if is_OK status || bool_decide (status = DPS_ERR_LOST_PRECISION)
                      then float_to_double f else d, buffer)
      else if maj =? CBOR_UINT then
        '(status, u64, buffer) ← CBOR_DecodeUint buffer 0;
        if is_OK status then
          let d := int_to_double u64 in
          v ← sf_to_u64 (sf_double d);
          Some (if negb (v =? u64) then DPS_ERR_LOST_PRECISION else status, d, buffer)
        else Some (status, d, buffer)
      else if maj =? CBOR_NEG then
        '(status, i64, buffer) ← CBOR_DecodeInt buffer 0;
        if is_OK status then
          let d := int_to_double i64 in
          v ← sf_to_s64 (sf_double d);
          Some (if negb (v =? i64) then DPS_ERR_LOST_PRECISION else status, d, buffer)
        else Some (status, d, buffer)
      else Some (DPS_ERR_INVALID, d, buffer)
    else DecodeDoubleExact buffer d.

(** *** UUIDs, peeking and skipping *)

Definition CBOR_DecodeUUID (buffer : DPS_RxBuffer) (uuid : list Z) :
  option (DPS_Status * list Z * DPS_RxBuffer) :=
  '(ret, bytes, len, buffer) ← CBOR_DecodeBytes buffer;
  let ret := if is_OK ret && negb (len =? 16) then DPS_ERR_INVALID else ret in
  if is_OK ret then
    p ← bytes; val ← mem_read (rx_mem buffer) p 16; Some (ret, val, buffer)
  else Some (ret, uuid, buffer).

(** [majOut] and [infoOut] are [None] for null pointers. *)
Definition CBOR_Peek (buffer : DPS_RxBuffer) (majOut infoOut : option Z) :
  option (DPS_Status * option Z * option Z) :=
  let avail := DPS_RxBufferAvail buffer in
  if avail <? 1 then Some (DPS_ERR_EOD, majOut, infoOut)
  else match majOut with
  | None => Some (DPS_ERR_ARGS, majOut, infoOut)
  | Some maj =>
      '(ret, info, maj, _) ← PeekUint buffer 0 maj 0;
      let ret := if is_OK ret && MAJOR_ENCODES_LENGTH maj && (info >=? avail)
                 then DPS_ERR_INVALID else ret in
      Some (ret, Some maj, if is_OK ret then (_ ← infoOut; Some info) else infoOut)
  end.

(** [while ((ret == DPS_OK) && len--)] over a step [skip]. *)
Fixpoint skip_items (skip : DPS_RxBuffer -> option (DPS_Status * DPS_RxBuffer))
    (fuel : nat) (len : Z) (ret : DPS_Status) (buffer : DPS_RxBuffer) :
  option (DPS_Status * DPS_RxBuffer) :=
  if negb (is_OK ret) || (len =? 0) then Some (ret, buffer)
  else match fuel with
  | O => None
  | S fuel => '(ret, buffer) ← skip buffer; skip_items skip fuel (len - 1) ret buffer
  end.

(** [fuel] bounds the nesting depth and the items of one array or map; the
    number of available bytes is enough for both ([CBOR_Skip_total]). *)
Fixpoint CBOR_Skip (fuel : nat) (buffer : DPS_RxBuffer) (majOut skipped : option Z) :
  option (DPS_Status * option Z * option Z * DPS_RxBuffer) :=
  match fuel with
  | O => None
  | S fuel =>
    let avail := DPS_RxBufferAvail buffer in
    let startPos := rx_pos buffer in
    if avail <? 1 then Some (DPS_ERR_EOD, majOut, skipped, buffer)
    else
      info ← rx_peek buffer 0;
      let maj := info .& 0xE0 in
      let info := info .& 0x1F in
      let skip1 b := '(ret, _, _, b) ← CBOR_Skip fuel b None None; Some (ret, b) in
      '(ret, buffer) ←
        (if (maj =? CBOR_UINT) || (maj =? CBOR_NEG) || (maj =? CBOR_TAG) then
           len ← IntLengths !! Z.to_nat info;
           Some (if len =? 0 then (DPS_ERR_INVALID, buffer)
                 else if avail <? len then (DPS_ERR_EOD, buffer)
                 else (DPS_OK, rx_skip buffer (Z.to_nat len)))
         else if maj =? CBOR_BYTES then
           '(ret, _, _, b) ← CBOR_DecodeBytes buffer; Some (ret, b)
         else if maj =? CBOR_STRING then
           '(ret, _, _, b) ← CBOR_DecodeString buffer None 0; Some (ret, b)
         else if maj =? CBOR_ARRAY then
           '(ret, len, b) ← DecodeUint buffer 0 maj;
           skip_items skip1 fuel len ret b
         else if maj =? CBOR_MAP then
           '(ret, len, b) ← DecodeUint buffer 0 maj;
           skip_items (fun b => '(ret, b) ← skip1 b;
                                if is_OK ret then skip1 b else Some (ret, b)) fuel len ret b
         else if maj =? CBOR_OTHER then
           if (20 <=? info) && (info <=? 22) then Some (DPS_OK, rx_skip buffer 1)
           else if info =? 26 then '(ret, _, b) ← CBOR_DecodeFloat buffer 0; Some (ret, b)
           else if info =? 27 then '(ret, _, b) ← CBOR_DecodeDouble buffer 0; Some (ret, b)
           else Some (DPS_ERR_INVALID, buffer)
         else Some (DPS_ERR_INVALID, buffer));
      Some (ret, (_ ← majOut; Some maj),
            (_ ← skipped; Some (Z.of_nat (rx_pos buffer) - Z.of_nat startPos)), buffer)
  end.

(** The fuel every call site uses. *)
Definition skip_fuel (buffer : DPS_RxBuffer) : nat :=
  S (Z.to_nat (DPS_RxBufferAvail buffer)).

(** ** Wrapping *)

(** C11 Annex K [memmove_s(mem + d, dmax, mem + s, n)]. *)
Definition memmove_s (mem : list Z) (d : nat) (dmax : Z) (s n : nat) :
  option (bool * list Z) :=
  src ← mem_read mem s n; memcpy_s mem d dmax src.

(** [wrapPtr] is an offset into the buffer's memory; [rx] reads that memory
    from there on, so its positions are relative to it. *)
Definition CBOR_EndWrapBytes (buffer : DPS_TxBuffer) (wrapPtr : nat) :
  option (DPS_Status * DPS_TxBuffer) :=
  let '(_, rx) := DPS_RxBufferInit (drop wrapPtr (tx_mem buffer)) CBOR_MAX_LENGTH in
  '(ret, hint, rx) ← DecodeUint rx 0 CBOR_BYTES;
  if negb (is_OK ret) then Some (DPS_ERR_INVALID, buffer)
  else
    let rxPos := (wrapPtr + rx_pos rx)%nat in
    let actual := (tx_pos buffer - rxPos)%nat in
    let diff := Requires (Z.of_nat actual) - Requires hint in
    '(moved, buffer) ←
      (if negb (diff =? 0) && negb (Nat.eqb actual 0) then
         let buffer := tx_set_pos buffer (wrapPtr + Z.to_nat (Requires (Z.of_nat actual))) in
         '(ok, mem') ← memmove_s (tx_mem buffer) (Z.to_nat (Z.of_nat rxPos + diff))
                                 (DPS_TxBufferSpace buffer) rxPos actual;
         Some (ok, mkTx mem' (tx_pos buffer))
       else Some (true, buffer));
    if negb moved then Some (DPS_ERR_RESOURCES, buffer)
    else
      '(ret, buffer, _) ← CBOR_ReserveBytes (tx_set_pos buffer wrapPtr) actual None;
      Some (ret, buffer).

(** ** Map matching *)

(** [buffer] is the designated buffer itself; [needs] (with [needKeys]) and
    [wants] (with [wantKeys]) are the keys that remain. *)
Record CBOR_MapState := mkMapState {
  ms_buffer : DPS_RxBuffer;
  ms_needs : list Z;
  ms_wants : list Z;
  ms_entries : Z;
  ms_result : DPS_Status
}.

Definition ms_set_result (m : CBOR_MapState) (r : DPS_Status) : CBOR_MapState :=
  mkMapState (ms_buffer m) (ms_needs m) (ms_wants m) (ms_entries m) r.
Definition ms_set_buffer (m : CBOR_MapState) (b : DPS_RxBuffer) : CBOR_MapState :=
  mkMapState b (ms_needs m) (ms_wants m) (ms_entries m) (ms_result m).
Definition ms_set_needs (m : CBOR_MapState) (l : list Z) : CBOR_MapState :=
  mkMapState (ms_buffer m) l (ms_wants m) (ms_entries m) (ms_result m).
Definition ms_set_wants (m : CBOR_MapState) (l : list Z) : CBOR_MapState :=
  mkMapState (ms_buffer m) (ms_needs m) l (ms_entries m) (ms_result m).
Definition ms_dec_entries (m : CBOR_MapState) : CBOR_MapState :=
  mkMapState (ms_buffer m) (ms_needs m) (ms_wants m) (ms_entries m - 1) (ms_result m).

(** [entries0] is what [mapState->entries] held before the call. *)
Definition DPS_ParseMapInit (buffer : DPS_RxBuffer) (keys optKeys : list Z) (entries0 : Z) :
  option (DPS_Status * CBOR_MapState) :=
  '(ret, entries, buffer) ← CBOR_DecodeMap buffer entries0;
  Some (ret, mkMapState buffer keys optKeys entries ret).

Definition is_nil {A} (l : list A) : bool := match l with [] => true | _ => false end.

(** The inner loop over [wants]: the keys that remain, and whether [k] matched. *)
Fixpoint want_loop (k : Z) (wants : list Z) : list Z * bool :=
  match wants with
  | [] => ([], false)
  | w :: ws => if k <? w then (wants, false)
               else if k =? w then (ws, true)
               else want_loop k ws
  end.

(** The body of the outer loop up to [Exit]: the state and [*key] there. *)
Fixpoint ParseMapLoop (fuel : nat) (m : CBOR_MapState) (k key : Z) :
  option (CBOR_MapState * Z) :=
  if (ms_entries m =? 0) || (is_nil (ms_needs m) && is_nil (ms_wants m)) then Some (m, key)
  else match fuel with
  | O => None
  | S fuel =>
    let m := ms_dec_entries m in
    '(ret, k, buffer) ← CBOR_DecodeInt32 (ms_buffer m) k;
    let m := ms_set_result (ms_set_buffer m buffer) ret in
    if negb (is_OK ret) then Some (m, key)
    else
      let wants_and_skip :=
        let '(wants, found) := want_loop k (ms_wants m) in
        let m := ms_set_wants m wants in
        if found then Some (m, k)
        else
          '(ret, _, _, buffer) ← CBOR_Skip (skip_fuel (ms_buffer m)) (ms_buffer m) None None;
          let m := ms_set_result (ms_set_buffer m buffer) ret in
          if negb (is_OK ret) then Some (m, key) else ParseMapLoop fuel m k key in
      match ms_needs m with
      | [] => wants_and_skip
      | n :: ns => if k <? n then wants_and_skip
                   else if k =? n then Some (ms_set_needs m ns, k)
                   else Some (ms_set_result m DPS_ERR_MISSING, key)
      end
  end.

Definition DPS_ParseMapNext (m : CBOR_MapState) (key : Z) :
  option (DPS_Status * CBOR_MapState * Z) :=
  if negb (is_OK (ms_result m)) then Some (ms_result m, m, key)
  else
    let m := ms_set_result m DPS_ERR_MISSING in
    '(m, key) ← ParseMapLoop (skip_fuel (ms_buffer m)) m 0 key;
    if negb (is_OK (ms_result m)) then Some (ms_result m, m, key)
    else
      let m := if negb (is_nil (ms_needs m)) && (ms_entries m =? 0)
               then ms_set_result m DPS_ERR_MISSING else m in
      Some (ms_result m, m, key).

(** The final loop of [DPS_ParseMapDone]. *)
Fixpoint SkipEntries (fuel : nat) (m : CBOR_MapState) : option (bool * CBOR_MapState) :=
  if ms_entries m =? 0 then Some (true, m)
  else match fuel with
  | O => None
  | S fuel =>
    let m := ms_dec_entries m in
    '(ret, _, buffer) ← CBOR_DecodeInt32 (ms_buffer m) 0;
    let m := ms_set_result (ms_set_buffer m buffer) ret in
    '(m) ← (if is_OK ret then
              '(ret, _, _, buffer) ← CBOR_Skip (skip_fuel (ms_buffer m)) (ms_buffer m) None None;
              Some (ms_set_result (ms_set_buffer m buffer) ret)
            else Some m);
    if negb (is_OK (ms_result m)) then Some (false, m) else SkipEntries fuel m
  end.

Definition DPS_ParseMapDone (m : CBOR_MapState) : option (bool * CBOR_MapState) :=
  if negb (is_nil (ms_needs m)) then Some (false, m)
  else if negb (is_nil (ms_wants m)) && negb (ms_entries m =? 0) then Some (false, m)
  else SkipEntries (skip_fuel (ms_buffer m)) m.
