(* ===== verification/CborProofs.v ===== *)
(** * Theorems about the CBOR codec *)
From S2P Require Import Prelude Status Buffer Float Cbor.

(** ** The wire format of a CBOR head (RFC 7049, section 2) *)

Definition cbor_head (maj n : Z) : list Z :=
  match Requires n with
  | 0 => [maj + n]
  | 1 => (maj + CBOR_LEN1) :: be_bytes 1 n
  | 2 => (maj + CBOR_LEN2) :: be_bytes 2 n
  | 4 => (maj + CBOR_LEN4) :: be_bytes 4 n
  | _ => (maj + CBOR_LEN8) :: be_bytes 8 n
  end.

(** A major type: the top three bits of a byte. *)
Definition is_major (maj : Z) : Prop := 0 <= maj < 256 /\ maj mod 32 = 0.

(** The five shapes of a head, with the range of the number in each. *)
Ltac by_requires n :=
  unfold Requires, UINT8_MAX, UINT16_MAX, UINT32_MAX in *;
  destruct (Z.ltb_spec n 24); [|destruct (Z.leb_spec n 255);
    [|destruct (Z.leb_spec n 65535); [|destruct (Z.leb_spec n 4294967295)]]].

Lemma Requires_cases n :
  Requires n = 0 \/ Requires n = 1 \/ Requires n = 2 \/ Requires n = 4 \/ Requires n = 8.
Proof. by_requires n; auto. Qed.

Lemma cbor_head_length maj n : Z.of_nat (length (cbor_head maj n)) = Requires n + 1.
Proof.
  unfold cbor_head. destruct (Requires_cases n) as [->|[->|[->|[->| ->]]]];
    cbn [length]; rewrite ?be_bytes_length; lia.
Qed.

Lemma cbor_head_sizeof maj n : Z.of_nat (length (cbor_head maj n)) = CBOR_SIZEOF_LEN n.
Proof.
  rewrite cbor_head_length. unfold CBOR_SIZEOF_LEN. by_requires n; lia.
Qed.

Lemma cbor_head_bytes maj n : is_major maj -> 0 <= n -> Forall is_byte (cbor_head maj n).
Proof.
  intros [Hm Hm'] Hn.
  assert (forall k, 0 <= k < 32 -> is_byte (maj + k)).
  { intros k Hk. unfold is_byte. Z.div_mod_to_equations. lia. }
  unfold cbor_head. by_requires n; constructor; auto using be_bytes_are_bytes, Forall_nil_2;
    apply H; unfold CBOR_LEN1, CBOR_LEN2, CBOR_LEN4, CBOR_LEN8; lia.
Qed.

Lemma u8_lor_major maj k : is_major maj -> 0 <= k < 32 -> u8 (maj .| k) = maj + k.
Proof.
  intros [Hm Hm'] Hk. rewrite (lor_high maj k 5) by (done || lia).
  apply u8_small. Z.div_mod_to_equations. lia.
Qed.

(** ** Encoding a head *)

Lemma EncodeUint_spec b n maj :
  tx_wf b -> is_major maj -> 0 <= n < 2 ^ 64 ->
  EncodeUint b n maj =
    Some (if decide (tx_fits b (length (cbor_head maj n)))
          then (DPS_OK, tx_app b (cbor_head maj n)) else (DPS_ERR_OVERFLOW, b)).
Proof.
  intros Hwf Hm Hn. unfold EncodeUint.
  rewrite (u32_small (Requires n)) by (destruct (Requires_cases n) as [->|[->|[->|[->| ->]]]]; done).
  rewrite (u32_small (Requires n + 1)) by (destruct (Requires_cases n) as [->|[->|[->|[->| ->]]]]; done).
  rewrite <- (cbor_head_length maj n). case_decide as Hf.
  - pose proof (proj1 (tx_fits_space b _ Hwf) Hf) as Hsp.
    destruct (Z.gtb_spec (Z.of_nat (length (cbor_head maj n))) (DPS_TxBufferSpace b)); [lia|].
    match goal with |- context [tx_put b ?l] => replace l with (cbor_head maj n) end.
    { by rewrite tx_put_fits. }
    unfold cbor_head. by_requires n; cbn [be_bytes];
      rewrite ?u8_lor_major by (done || unfold CBOR_LEN1, CBOR_LEN2, CBOR_LEN4, CBOR_LEN8; lia);
      rewrite ?Z.mul_0_r, ?Z.shiftr_0_r; done.
  - destruct (Z.gtb_spec (Z.of_nat (length (cbor_head maj n))) (DPS_TxBufferSpace b)); [done|].
    exfalso. apply Hf. apply tx_fits_space; done.
Qed.

(** ** Decoding a head *)

Lemma land_1F x : is_byte x -> x .& 0x1F = x mod 32.
Proof. intros _. change 0x1F with (Z.ones 5). by rewrite Z.land_ones. Qed.

Lemma land_E0 x : is_byte x -> x .& 0xE0 = x - x mod 32.
Proof.
  intros Hx. apply Z.eqb_eq.
  apply (byte_forallb (fun x => x .& 0xE0 =? x - x mod 32)); [vm_compute; done|done].
Qed.

Lemma major_split maj k : is_major maj -> 0 <= k < 32 ->
  is_byte (maj + k) /\ (maj + k) .& 0xE0 = maj /\ (maj + k) .& 0x1F = k.
Proof.
  intros [Hm Hm'] Hk.
  assert (is_byte (maj + k)) by (unfold is_byte; Z.div_mod_to_equations; lia).
  assert ((maj + k) mod 32 = k).
  { Z.div_mod_to_equations. lia. }
  rewrite land_E0, land_1F by done. split_and!; [done|lia|lia].
Qed.

Lemma IntLengths_small k : 0 <= k < 24 -> IntLengths !! Z.to_nat k = Some 1.
Proof.
  intros Hk. assert (Z.to_nat k < 24)%nat as H by lia. revert H.
  generalize (Z.to_nat k) as i. intros i H. do 24 (destruct i as [|i]; [done|]). lia.
Qed.

(** The bytes after position 0 of a buffer whose unread bytes are known. *)
Lemma rx_peek_eq b l i x : rx_rest b = l -> l !! i = Some x -> rx_peek b i = Some x.
Proof. intros <-. apply rx_peek_rest. Qed.

Lemma rx_avail_app b l tl :
  rx_wf b -> rx_rest b = l ++ tl ->
  DPS_RxBufferAvail b = Z.of_nat (length l) + Z.of_nat (length tl).
Proof. intros Hwf E. rewrite DPS_RxBufferAvail_spec, E, length_app by done. lia. Qed.

(** It is enough that the bytes of the head are readable and counted as available. *)
Lemma PeekUint_head b maj n n0 m0 l0 :
  is_major maj -> 0 <= n < 2 ^ 64 ->
  Z.of_nat (length (cbor_head maj n)) <= DPS_RxBufferAvail b ->
  (forall i x, cbor_head maj n !! i = Some x -> rx_peek b i = Some x) ->
  PeekUint b n0 m0 l0 = Some (DPS_OK, n, maj, CBOR_SIZEOF_LEN n).
Proof.
  intros Hm Hn Hav Hp. rewrite <- (cbor_head_sizeof maj n). unfold PeekUint.
  rewrite cbor_head_length in *. revert Hp.
  unfold cbor_head in *. by_requires n; intros Hp;
    match goal with |- context [if ?a <? 1 then _ else _] =>
      replace (a <? 1) with false by (symmetry; apply Z.ltb_ge; lia) end;
    rewrite (Hp 0%nat _ eq_refl); cbn [mbind option_bind];
    match goal with |- context [(maj + ?k) .& 0xE0] =>
      destruct (major_split maj k Hm ltac:(unfold CBOR_LEN1, CBOR_LEN2, CBOR_LEN4, CBOR_LEN8; lia))
        as (_ & -> & ->) end;
    [rewrite IntLengths_small by lia | change (IntLengths !! _) with (Some 2)
    | change (IntLengths !! _) with (Some 3) | change (IntLengths !! _) with (Some 5)
    | change (IntLengths !! _) with (Some 9)];
    cbn [mbind option_bind];
    match goal with |- context [if ?a <? ?c then _ else _] =>
      replace (a <? c) with false by (symmetry; apply Z.ltb_ge; lia) end;
    [done|..]; cbn [be_bytes] in Hp;
    repeat match goal with |- context [rx_peek b ?i] =>
      rewrite (Hp i _ eq_refl); cbn [mbind option_bind] end;
    do 4 f_equal.
  - unfold u8. cbn. rewrite Z.mul_0_r, Z.shiftr_0_r. apply Z.mod_small. lia.
  - rewrite be2_value by auto with dps.
    change (be_value 0 (be_bytes 2 n) = n). rewrite be_value_bytes. apply Z.mod_small. lia.
  - rewrite be4_value by auto with dps.
    change (be_value 0 (be_bytes 4 n) = n). rewrite be_value_bytes. apply Z.mod_small. lia.
  - rewrite be8_value by apply (be_bytes_are_bytes 8 n).
    change (be_value 0 (be_bytes 8 n) = n). rewrite be_value_bytes. apply Z.mod_small. lia.
Qed.

Lemma PeekUint_spec b maj n n0 m0 l0 tl :
  rx_wf b -> is_major maj -> 0 <= n < 2 ^ 64 -> rx_rest b = cbor_head maj n ++ tl ->
  PeekUint b n0 m0 l0 = Some (DPS_OK, n, maj, CBOR_SIZEOF_LEN n).
Proof.
  intros Hwf Hm Hn E. apply PeekUint_head; [done|done| |].
  - rewrite (rx_avail_app _ _ _ Hwf E). lia.
  - intros i x Hx. apply (rx_peek_eq _ _ _ _ E). by apply lookup_app_l_Some.
Qed.

Lemma DecodeUint_spec b maj n n0 tl :
  rx_wf b -> is_major maj -> 0 <= n < 2 ^ 64 -> rx_rest b = cbor_head maj n ++ tl ->
  DecodeUint b n0 maj = Some (DPS_OK, n, rx_skip b (length (cbor_head maj n))).
Proof.
  intros. unfold DecodeUint. erewrite PeekUint_spec by done. simpl.
  rewrite Z.eqb_refl. simpl. rewrite <- (cbor_head_sizeof maj), Nat2Z.id. done.
Qed.

Lemma DecodeUint_other_major b maj maj' n n0 tl :
  rx_wf b -> is_major maj -> maj <> maj' -> 0 <= n < 2 ^ 64 ->
  rx_rest b = cbor_head maj n ++ tl ->
  DecodeUint b n0 maj' = Some (DPS_ERR_INVALID, n, b).
Proof.
  intros. unfold DecodeUint. erewrite PeekUint_spec by done. simpl.
  by rewrite (proj2 (Z.eqb_neq _ _)).
Qed.

(** ** Memory safety of decoding a head, on any input *)

Lemma land_parts x : is_byte x ->
  is_major (x .& 0xE0) /\ 0 <= x .& 0x1F < 32 /\ x = (x .& 0xE0) + (x .& 0x1F).
Proof.
  intros Hx. rewrite land_E0, land_1F by done. unfold is_major, is_byte in *.
  Z.div_mod_to_equations. lia.
Qed.

Lemma IntLengths_lookup k :
  0 <= k < 32 -> exists l, IntLengths !! Z.to_nat k = Some l /\ l ∈ [0; 1; 2; 3; 5; 9].
Proof.
  intros Hk.
  assert (existsb (fun l => bool_decide (IntLengths !! Z.to_nat k = Some l)) [0; 1; 2; 3; 5; 9]
          = true) as H.
  { assert (forallb (fun k => existsb (fun l => bool_decide (IntLengths !! Z.to_nat k = Some l))
      [0; 1; 2; 3; 5; 9]) (seqZ 0 32) = true) as H by (vm_compute; done).
    rewrite forallb_forall in H. apply H, list_elem_of_In, elem_of_seqZ. lia. }
  apply existsb_exists in H as (l & Hin & Hl). apply bool_decide_eq_true in Hl.
  exists l. split; [done|]. by apply list_elem_of_In.
Qed.

Lemma be_value_range acc bs :
  0 <= acc -> Forall is_byte bs ->
  0 <= be_value acc bs < (acc + 1) * 256 ^ Z.of_nat (length bs).
Proof.
  revert acc. induction bs as [|b bs IH]; intros acc Hacc Hb.
  - cbn [be_value length]. change (256 ^ Z.of_nat 0) with 1. lia.
  - inversion_clear Hb as [|? ? [Hb1 Hb2] Hbs]. cbn [be_value length].
    rewrite Nat2Z.inj_succ, Z.pow_succ_r by lia.
    pose proof (IH (acc * 256 + b) ltac:(lia) Hbs) as [H1 H2].
    split; [done|]. eapply Z.lt_le_trans; [exact H2|].
    rewrite Z.mul_assoc. apply Z.mul_le_mono_nonneg_r; [|lia].
    apply Z.pow_nonneg. lia.
Qed.

(** A list of variables known to be bytes. *)
Ltac forall_bytes := repeat (apply Forall_cons; [assumption|]); apply Forall_nil.

(** Read the bytes below the available count. *)
Ltac read_byte Hwf i :=
  let x := fresh "p" in let Hx := fresh "Hp" in let Hb := fresh "Hb" in
  destruct (rx_peek_avail _ i Hwf ltac:(simpl; lia)) as (x & Hx & _ & Hb);
  rewrite Hx; cbn [mbind option_bind].

Lemma PeekUint_safe b n0 m0 l0 :
  rx_wf b -> exists ret n maj len,
    PeekUint b n0 m0 l0 = Some (ret, n, maj, len) /\
    (ret = DPS_OK -> 1 <= len <= DPS_RxBufferAvail b /\ is_major maj /\ 0 <= n < 2 ^ 64).
Proof.
  intros Hwf. unfold PeekUint. destruct (Z.ltb_spec (DPS_RxBufferAvail b) 1).
  { eexists _, _, _, _. split; [done|done]. }
  read_byte Hwf 0%nat. destruct (land_parts p Hb) as (Hm & Hi & _).
  destruct (IntLengths_lookup _ Hi) as (l & -> & Hl). cbn [mbind option_bind].
  destruct (Z.ltb_spec (DPS_RxBufferAvail b) l).
  { eexists _, _, _, _. split; [done|done]. }
  repeat (apply elem_of_cons in Hl as [->|Hl]).
  - eexists _, _, _, _. split; [done|done].
  - eexists _, _, _, _. split; [done|]. intros _. split_and!; (done || lia).
  - read_byte Hwf 1%nat. eexists _, _, _, _. split; [done|]. intros _.
    unfold is_byte in *. split_and!; (done || lia).
  - read_byte Hwf 1%nat. read_byte Hwf 2%nat. eexists _, _, _, _. split; [done|]. intros _.
    rewrite be2_value by done. unfold is_byte in *. split_and!; (done || lia).
  - do 4 (match goal with |- context [rx_peek b ?i] => read_byte Hwf i end).
    eexists _, _, _, _. split; [done|]. intros _. rewrite be4_value by done.
    pose proof (be_value_range 0 [p3; p2; p1; p0] ltac:(lia) ltac:(forall_bytes)) as Hr.
    change (Z.of_nat (length _)) with 4 in Hr. split_and!; (done || lia).
  - do 8 (match goal with |- context [rx_peek b ?i] => read_byte Hwf i end).
    eexists _, _, _, _. split; [done|]. intros _. rewrite be8_value by forall_bytes.
    pose proof (be_value_range 0 [p7; p6; p5; p4; p3; p2; p1; p0] ltac:(lia) ltac:(forall_bytes)) as Hr.
    change (Z.of_nat (length _)) with 8 in Hr. split_and!; (done || lia).
  - by apply not_elem_of_nil in Hl.
Qed.

Lemma DecodeUint_safe b n0 maj :
  rx_wf b -> exists ret n b',
    DecodeUint b n0 maj = Some (ret, n, b') /\ rx_adv b b' /\
    (ret = DPS_OK -> (rx_pos b < rx_pos b')%nat /\ 0 <= n < 2 ^ 64).
Proof.
  intros Hwf. unfold DecodeUint.
  destruct (PeekUint_safe b n0 0 0 Hwf) as (ret & n & maj' & len & -> & Hok).
  cbn [mbind option_bind]. destruct (is_OK ret) eqn:Er.
  - apply is_OK_true in Er as ->. destruct (Hok eq_refl) as (Hl & _ & Hn).
    case_if; eexists _, _, _; (split; [done|]); split; auto with dps.
    + done.
    + apply rx_skip_adv; [done|lia].
    + intros _. simpl. lia.
  - eexists _, _, _. split; [done|]. split; [auto with dps|].
    intros ->. done.
Qed.

(** A decoder call that stays inside the allocation, only moves the position
    forward inside the data, and consumes at least a byte when it succeeds. *)
Definition dec_safe {A} (b : DPS_RxBuffer) (r : option (DPS_Status * A * DPS_RxBuffer)) : Prop :=
  exists ret x b', r = Some (ret, x, b') /\ rx_adv b b' /\
    (ret = DPS_OK -> (rx_pos b < rx_pos b')%nat).

Lemma dec_safe_fail {A} b (ret : DPS_Status) (x : A) :
  rx_wf b -> ret <> DPS_OK -> dec_safe b (Some (ret, x, b)).
Proof. intros. eexists _, _, _. split_and!; [done|auto with dps|done]. Qed.

Lemma dec_safe_skip {A} b (ret : DPS_Status) (x : A) n :
  rx_wf b -> (0 < n)%nat -> Z.of_nat n <= DPS_RxBufferAvail b ->
  dec_safe b (Some (ret, x, rx_skip b n)).
Proof.
  intros. eexists _, _, _. split_and!; [done|by apply rx_skip_adv|]. simpl. lia.
Qed.

Lemma CBOR_DecodeInt_safe b i : rx_wf b -> dec_safe b (CBOR_DecodeInt b i).
Proof.
  intros Hwf. unfold CBOR_DecodeInt.
  destruct (PeekUint_safe b 0 0 0 Hwf) as (ret & n & maj & len & -> & Hok).
  cbn [mbind option_bind]. destruct (is_OK ret) eqn:Er.
  - apply is_OK_true in Er as ->. destruct (Hok eq_refl) as (Hl & _ & Hn).
    repeat case_if; first [apply dec_safe_skip; (done || lia) | by apply dec_safe_fail].
  - apply dec_safe_fail; [done|by apply is_OK_false].
Qed.

(** A call followed by a check that does not move the position. *)
Lemma dec_safe_map {A B} b (r : option (DPS_Status * A * DPS_RxBuffer))
    (f : DPS_Status -> A -> DPS_Status * B) :
  dec_safe b r -> (forall ret x, fst (f ret x) = DPS_OK -> ret = DPS_OK) ->
  dec_safe b ('(ret, x, b') ← r; Some (f ret x, b')).
Proof.
  intros (ret & x & b' & -> & Ha & Hok) Hf. cbn [mbind option_bind].
  destruct (f ret x) as [ret' y] eqn:E. eexists _, _, _. split_and!; [done..|].
  intros ->. apply Hok, (Hf ret x). by rewrite E.
Qed.

Lemma CBOR_DecodeInt32_safe b n : rx_wf b -> dec_safe b (CBOR_DecodeInt32 b n).
Proof.
  intros Hwf. unfold CBOR_DecodeInt32.
  destruct (CBOR_DecodeInt_safe b 0 Hwf) as (ret & x & b' & -> & Ha & Hok).
  cbn [mbind option_bind]. case_if; eexists _, _, _; split_and!; done.
Qed.

Lemma CBOR_DecodeBytes_safe b :
  rx_wf b -> exists ret p n b', CBOR_DecodeBytes b = Some (ret, p, n, b') /\
    dec_safe b (Some (ret, (p, n), b')) /\
    (ret = DPS_OK -> 0 <= n /\ (n <> 0 -> exists q, p = Some q /\
       (q + Z.to_nat n = rx_pos b' /\ rx_pos b' <= rx_eod b)%nat)).
Proof.
  intros Hwf. unfold CBOR_DecodeBytes.
  destruct (DecodeUint_safe b 0 CBOR_BYTES Hwf) as (ret & n & b' & -> & Ha & Hok).
  cbn [mbind option_bind]. destruct (is_OK ret) eqn:Er.
  2:{ apply is_OK_false in Er. eexists _, _, _, _. split; [done|]. split; [|done].
      eexists _, _, _. done. }
  apply is_OK_true in Er as ->. destruct (Hok eq_refl) as (Hlt & Hn).
  pose proof (rx_adv_wf _ _ Hwf Ha) as Hwf'.
  destruct (_ || _) eqn:Eb; [|destruct (Z.eqb_spec n 0)].
  - eexists _, _, _, _. split; [done|]. split; [|done]. eexists _, _, _. done.
  - eexists _, _, _, _. split; [done|]. split; [|done]. eexists _, _, _. done.
  - apply orb_false_iff in Eb as [Eb _]. rewrite Z.gtb_ltb in Eb. apply Z.ltb_ge in Eb.
    pose proof (rx_skip_adv b' (Z.to_nat n) Hwf' ltac:(lia)) as Hs.
    eexists _, _, _, _. split; [done|]. split.
    + eexists _, _, _. split; [done|]. split; [by etrans|]. simpl. lia.
    + intros _. rewrite u64_small by done. split; [lia|]. intros _. eexists. split; [done|].
      destruct Hs as (_ & He & Hs). simpl in *. destruct Ha as (_ & -> & _) in Hs. lia.
Qed.

Lemma CBOR_DecodeString_safe b p0 n0 :
  rx_wf b -> exists ret p n b', CBOR_DecodeString b p0 n0 = Some (ret, p, n, b') /\
    dec_safe b (Some (ret, (p, n), b')).
Proof.
  intros Hwf. unfold CBOR_DecodeString.
  destruct (DecodeUint_safe b 0 CBOR_STRING Hwf) as (ret & n & b' & -> & Ha & Hok).
  cbn [mbind option_bind]. destruct (is_OK ret) eqn:Er.
  2:{ apply is_OK_false in Er. eexists _, _, _, _. split; [done|]. eexists _, _, _. done. }
  apply is_OK_true in Er as ->. destruct (Hok eq_refl) as (Hlt & Hn).
  pose proof (rx_adv_wf _ _ Hwf Ha) as Hwf'.
  destruct (_ || _) eqn:Eb; [|destruct (Z.gtb_spec n 0)].
  - eexists _, _, _, _. split; [done|]. eexists _, _, _. done.
  - apply orb_false_iff in Eb as [Eb _]. rewrite Z.gtb_ltb in Eb. apply Z.ltb_ge in Eb.
    pose proof (rx_skip_adv b' (Z.to_nat n) Hwf' ltac:(lia)) as Hs.
    eexists _, _, _, _. split; [done|]. eexists _, _, _. split; [done|].
    split; [by etrans|]. simpl. lia.
  - eexists _, _, _, _. split; [done|]. eexists _, _, _. done.
Qed.

Lemma rx_read_f32_safe b :
  rx_wf b -> 5 <= DPS_RxBufferAvail b -> is_Some (rx_read_f32 (rx_peek b)).
Proof.
  intros Hwf H. unfold rx_read_f32.
  do 4 (match goal with |- context [rx_peek b ?i] => read_byte Hwf i end). eauto.
Qed.

Lemma rx_read_f64_safe b :
  rx_wf b -> 9 <= DPS_RxBufferAvail b -> is_Some (rx_read_f64 (rx_peek b)).
Proof.
  intros Hwf H. unfold rx_read_f64.
  do 8 (match goal with |- context [rx_peek b ?i] => read_byte Hwf i end). eauto.
Qed.

Lemma DecodeFloatExact_safe b f : rx_wf b -> dec_safe b (DecodeFloatExact b f).
Proof.
  intros Hwf. unfold DecodeFloatExact. destruct (Z.ltb_spec (DPS_RxBufferAvail b) 5).
  - by apply dec_safe_fail.
  - destruct (rx_read_f32_safe b Hwf ltac:(lia)) as [x ->]. cbn [mbind option_bind].
    apply dec_safe_skip; (done || lia).
Qed.

Lemma DecodeDoubleExact_safe b f : rx_wf b -> dec_safe b (DecodeDoubleExact b f).
Proof.
  intros Hwf. unfold DecodeDoubleExact. destruct (Z.ltb_spec (DPS_RxBufferAvail b) 9).
  - by apply dec_safe_fail.
  - destruct (rx_read_f64_safe b Hwf ltac:(lia)) as [x ->]. cbn [mbind option_bind].
    apply dec_safe_skip; (done || lia).
Qed.

(** Float and double decoding on their own initial byte. *)
Lemma CBOR_DecodeFloat_own b f p :
  rx_wf b -> rx_peek b 0 = Some p -> p = CBOR_FLOAT ->
  1 <= DPS_RxBufferAvail b -> CBOR_DecodeFloat b f = DecodeFloatExact b f.
Proof.
  intros Hwf Hp -> H. unfold CBOR_DecodeFloat.
  destruct (Z.ltb_spec (DPS_RxBufferAvail b) 1); [lia|]. by rewrite Hp.
Qed.

Lemma CBOR_DecodeDouble_own b f p :
  rx_wf b -> rx_peek b 0 = Some p -> p = CBOR_DOUBLE ->
  1 <= DPS_RxBufferAvail b -> CBOR_DecodeDouble b f = DecodeDoubleExact b f.
Proof.
  intros Hwf Hp -> H. unfold CBOR_DecodeDouble.
  destruct (Z.ltb_spec (DPS_RxBufferAvail b) 1); [lia|]. by rewrite Hp.
Qed.

(** ** Skipping *)

Definition step_safe (b : DPS_RxBuffer) (r : option (DPS_Status * DPS_RxBuffer)) : Prop :=
  exists ret b', r = Some (ret, b') /\ rx_adv b b' /\
    (ret = DPS_OK -> (rx_pos b < rx_pos b')%nat).

Lemma skip_items_safe skip fuel len ret b :
  (forall c, rx_wf c -> DPS_RxBufferAvail c <= DPS_RxBufferAvail b -> step_safe c (skip c)) ->
  rx_wf b -> DPS_RxBufferAvail b < Z.of_nat fuel ->
  exists ret' b', skip_items skip fuel len ret b = Some (ret', b') /\ rx_adv b b' /\
    (ret' = DPS_OK -> ret = DPS_OK).
Proof.
  revert len ret b. induction fuel as [|fuel IH]; intros len ret b Hs Hwf Hf;
    pose proof (rx_avail_nonneg b Hwf); [lia|].
  cbn [skip_items]. destruct (negb (is_OK ret) || (len =? 0)) eqn:E.
  { eexists _, _. split_and!; [done|auto with dps|done]. }
  apply orb_false_iff in E as [E _]. apply negb_false_iff, is_OK_true in E as ->.
  destruct (Hs b Hwf ltac:(lia)) as (ret & b' & -> & Ha & Hok). cbn [mbind option_bind].
  pose proof (rx_adv_wf _ _ Hwf Ha) as Hwf'. pose proof (rx_adv_avail _ _ Hwf Ha) as Hav.
  destruct (decide (ret = DPS_OK)) as [->|Hne].
  - specialize (Hok eq_refl).
    destruct (IH (len - 1) DPS_OK b') as (ret' & b2 & -> & Ha2 & Hok2); [|done|lia|].
    { intros c Hc Hcb. apply Hs; [done|]. destruct Ha as (_ & _ & ?). lia. }
    eexists _, _. split_and!; [done|by etrans|done].
  - destruct fuel; cbn [skip_items]; rewrite (proj2 (is_OK_false ret)) by done; simpl;
      eexists _, _; split_and!; done.
Qed.

Lemma step_safe_twice skip c :
  (forall c', rx_wf c' -> DPS_RxBufferAvail c' <= DPS_RxBufferAvail c -> step_safe c' (skip c')) ->
  rx_wf c ->
  step_safe c ('(ret, b) ← skip c; if is_OK ret then skip b else Some (ret, b)).
Proof.
  intros Hs Hc. destruct (Hs c Hc ltac:(lia)) as (ret & b & -> & Ha & Hok).
  cbn [mbind option_bind]. destruct (is_OK ret) eqn:E.
  - apply is_OK_true in E. specialize (Hok E).
    pose proof (rx_adv_wf _ _ Hc Ha) as Hb.
    destruct (Hs b Hb) as (ret2 & b2 & -> & Ha2 & Hok2).
    { rewrite (rx_adv_avail _ _ Hc Ha). destruct Ha as (_ & _ & ?). lia. }
    eexists _, _. split_and!; [done|by etrans|]. intros H2. specialize (Hok2 H2). lia.
  - eexists _, _. done.
Qed.

(** An array or map: its head, then its items. *)
Lemma container_safe b maj skip fuel :
  rx_wf b -> DPS_RxBufferAvail b <= Z.of_nat fuel ->
  (forall c, rx_wf c -> DPS_RxBufferAvail c < DPS_RxBufferAvail b -> step_safe c (skip c)) ->
  step_safe b ('(ret, len, c) ← DecodeUint b 0 maj; skip_items skip fuel len ret c).
Proof.
  intros Hwf Hf Hs. destruct (DecodeUint_safe b 0 maj Hwf) as (ret & n & b' & -> & Ha & Hok).
  cbn [mbind option_bind]. pose proof (rx_adv_wf _ _ Hwf Ha) as Hwf'.
  destruct (decide (ret = DPS_OK)) as [->|Hne].
  - destruct (Hok eq_refl) as (Hlt & _). pose proof (rx_adv_avail _ _ Hwf Ha) as Hav.
    destruct (skip_items_safe skip fuel n DPS_OK b') as (ret' & b2 & -> & Ha2 & _).
    + intros c Hc Hca. apply Hs; [done|lia].
    + done.
    + lia.
    + eexists _, _. split_and!; [done|by etrans|]. intros _. destruct Ha2 as (_ & _ & ?). lia.
  - destruct fuel; cbn [skip_items]; rewrite (proj2 (is_OK_false ret)) by done;
      eexists _, _; split_and!; done.
Qed.

(** The scalars whose length the initial byte gives. *)
Lemma fixed_length_safe b info :
  rx_wf b -> 0 <= info < 32 ->
  step_safe b (len ← IntLengths !! Z.to_nat info;
    Some (if len =? 0 then (DPS_ERR_INVALID, b)
          else if DPS_RxBufferAvail b <? len then (DPS_ERR_EOD, b)
          else (DPS_OK, rx_skip b (Z.to_nat len)))).
Proof.
  intros Hwf Hi. destruct (IntLengths_lookup _ Hi) as (l & -> & Hl). cbn [mbind option_bind].
  assert (0 <= l).
  { repeat (apply elem_of_cons in Hl as [->|Hl]); try lia. by apply not_elem_of_nil in Hl. }
  destruct (Z.eqb_spec l 0); [|destruct (Z.ltb_spec (DPS_RxBufferAvail b) l)];
    eexists _, _; (split; [done|]); split; auto with dps; try done.
  - apply rx_skip_adv; [done|lia].
  - simpl. lia.
Qed.

(** Simple values and floats: [p] is the initial byte. *)
Lemma other_safe b p :
  rx_wf b -> 1 <= DPS_RxBufferAvail b -> rx_peek b 0 = Some p -> is_byte p ->
  p .& 0xE0 = CBOR_OTHER ->
  step_safe b
    (if (20 <=? p .& 0x1F) && (p .& 0x1F <=? 22) then Some (DPS_OK, rx_skip b 1)
     else if p .& 0x1F =? 26 then '(ret, _, b) ← CBOR_DecodeFloat b 0; Some (ret, b)
     else if p .& 0x1F =? 27 then '(ret, _, b) ← CBOR_DecodeDouble b 0; Some (ret, b)
     else Some (DPS_ERR_INVALID, b)).
Proof.
  intros Hwf Hav Hp Hb Ho. destruct (land_parts p Hb) as (_ & _ & Hsplit).
  rewrite Ho in Hsplit.
  assert (forall r : option (DPS_Status * Z * DPS_RxBuffer), dec_safe b r ->
    step_safe b ('(ret, _, b') ← r; Some (ret, b'))) as Hdec.
  { intros r (ret & x & b' & -> & ? & ?). eexists _, _. done. }
  case_if; [|destruct (Z.eqb_spec (p .& 0x1F) 26) as [E|];
             [|destruct (Z.eqb_spec (p .& 0x1F) 27) as [E|]]].
  - eexists _, _. split_and!; [done|apply rx_skip_adv; [done|lia]|]. simpl. lia.
  - apply Hdec. rewrite (CBOR_DecodeFloat_own _ _ p) by (done || rewrite Hsplit, E; done).
    by apply DecodeFloatExact_safe.
  - apply Hdec. rewrite (CBOR_DecodeDouble_own _ _ p) by (done || rewrite Hsplit, E; done).
    by apply DecodeDoubleExact_safe.
  - eexists _, _. split_and!; [done|auto with dps|done].
Qed.

Definition skip_safe (b : DPS_RxBuffer)
    (r : option (DPS_Status * option Z * option Z * DPS_RxBuffer)) : Prop :=
  exists ret mj sk b', r = Some (ret, mj, sk, b') /\ rx_adv b b' /\
    (ret = DPS_OK -> (rx_pos b < rx_pos b')%nat).

Lemma CBOR_Skip_safe fuel b mo so :
  rx_wf b -> DPS_RxBufferAvail b < Z.of_nat fuel -> skip_safe b (CBOR_Skip fuel b mo so).
Proof.
  revert b mo so. induction fuel as [|fuel IH]; intros b mo so Hwf Hf;
    pose proof (rx_avail_nonneg b Hwf); [lia|].
  cbn [CBOR_Skip]. destruct (Z.ltb_spec (DPS_RxBufferAvail b) 1).
  { eexists _, _, _, _. split_and!; [done|auto with dps|done]. }
  read_byte Hwf 0%nat. destruct (land_parts p Hb) as (_ & Hi & _).
  assert (forall r, step_safe b r ->
    skip_safe b ('(ret, buffer) ← r;
      Some (ret, (_ ← mo; Some (p .& 0xE0)),
            (_ ← so; Some (Z.of_nat (rx_pos buffer) - Z.of_nat (rx_pos b))), buffer))) as Hfin.
  { intros r (ret & b' & -> & Ha & Hok). cbn [mbind option_bind].
    eexists _, _, _, _. done. }
  apply Hfin. clear Hfin.
  assert (forall c, rx_wf c -> DPS_RxBufferAvail c < Z.of_nat fuel ->
    step_safe c ('(ret, _, _, b) ← CBOR_Skip fuel c None None; Some (ret, b))) as Hskip1.
  { intros c Hc Hcf. destruct (IH c None None Hc Hcf) as (ret & ? & ? & b' & -> & ? & ?).
    eexists _, _. done. }
  case_if; [|case_if; [|case_if; [|case_if; [|case_if; [|case_if]]]]]; bools.
  - by apply fixed_length_safe.
  - destruct (CBOR_DecodeBytes_safe b Hwf) as (ret & q & n & b' & -> & Hd & _).
    destruct Hd as (? & ? & ? & [= <- <- <-] & ? & ?). eexists _, _. done.
  - destruct (CBOR_DecodeString_safe b None 0 Hwf) as (ret & q & n & b' & -> & Hd).
    destruct Hd as (? & ? & ? & [= <- <- <-] & ? & ?). eexists _, _. done.
  - apply container_safe; [done|lia|]. intros c Hc Hca. apply Hskip1; [done|lia].
  - apply container_safe; [done|lia|]. intros c Hc Hca.
    apply (step_safe_twice (fun c => '(ret, _, _, b) ← CBOR_Skip fuel c None None; Some (ret, b)));
      [|done]. intros c' Hc' Hca'. apply Hskip1; [done|lia].
  - by apply (other_safe b p).
  - eexists _, _. split_and!; [done|auto with dps|done].
Qed.

(** ** What the encoders append *)

(** The call appends exactly [bs] when they fit; otherwise it reports an
    overflow and leaves the size of the buffer and what was written before the
    call as they were. *)
Definition enc_spec (b : DPS_TxBuffer) (bs : list Z) (r : option (DPS_Status * DPS_TxBuffer)) : Prop :=
  if decide (tx_fits b (length bs)) then r = Some (DPS_OK, tx_app b bs)
  else exists b', r = Some (DPS_ERR_OVERFLOW, b') /\
       length (tx_mem b') = length (tx_mem b) /\ take (tx_pos b) (tx_mem b') = tx_written b.

Lemma enc_spec_ok b bs r : enc_spec b bs r -> tx_fits b (length bs) -> r = Some (DPS_OK, tx_app b bs).
Proof. unfold enc_spec. intros H Hf. by rewrite decide_True in H. Qed.

Lemma EncodeUint_enc b n maj :
  tx_wf b -> is_major maj -> 0 <= n < 2 ^ 64 -> enc_spec b (cbor_head maj n) (EncodeUint b n maj).
Proof.
  intros. unfold enc_spec. rewrite EncodeUint_spec by done. case_decide; [done|]. eexists. done.
Qed.

Lemma CBOR_Copy_enc b bs : tx_wf b -> enc_spec b bs (CBOR_Copy b (Some bs) (length bs)).
Proof.
  intros Hwf. unfold enc_spec, CBOR_Copy.
  destruct (decide (tx_fits b (length bs))) as [Hf|Hf]; destruct (decide (length bs = 0%nat)) as [Hn|Hn].
  - apply nil_length_inv in Hn as ->. by rewrite tx_app_nil.
  - rewrite mem_read_fits, drop_0, take_ge by done. cbn [mbind option_bind].
    pose proof (proj1 (tx_fits_space b _ Hwf) Hf). by rewrite memcpy_s_fits.
  - exfalso. apply Hf. unfold tx_fits. destruct Hwf. lia.
  - rewrite mem_read_fits, drop_0, take_ge by done. cbn [mbind option_bind].
    rewrite tx_fits_space, DPS_TxBufferSpace_spec in Hf by done.
    rewrite DPS_TxBufferSpace_spec by done. destruct Hwf as (Hp & _).
    rewrite memcpy_s_overflow by (unfold tx_space in *; lia). cbn [mbind option_bind].
    eexists. split; [done|]. unfold tx_space, tx_written in *; simpl. split.
    + rewrite !length_app, length_take, length_replicate, length_drop. lia.
    + rewrite take_app_le by (rewrite length_take; lia). rewrite take_take. f_equal. lia.
Qed.

(** One encoder after another. *)
Lemma enc_spec_seq b bs1 bs2 r1 (f : DPS_TxBuffer -> option (DPS_Status * DPS_TxBuffer)) :
  tx_wf b -> Forall is_byte bs1 -> enc_spec b bs1 r1 ->
  (forall b', tx_wf b' -> enc_spec b' bs2 (f b')) ->
  enc_spec b (bs1 ++ bs2)
    ('(ret, b') ← r1; if is_OK ret then f b' else Some (ret, b')).
Proof.
  intros Hwf Hb H1 H2. unfold enc_spec in H1. case_decide as Hf1.
  - subst r1. cbn [mbind option_bind].
    assert (tx_wf (tx_app b bs1)) as Hwf1 by auto with dps.
    specialize (H2 _ Hwf1). unfold enc_spec in *. rewrite length_app.
    case_decide as Hf2; rewrite tx_app_fits in Hf2 by done.
    + rewrite decide_True by done. simpl. rewrite H2. by rewrite tx_app_app.
    + rewrite decide_False by done. simpl. destruct H2 as (b' & -> & Hl & Ht).
      exists b'. split; [done|]. rewrite tx_app_length in Hl by done. split; [done|].
      rewrite tx_app_written, tx_app_pos in Ht by done.
      apply (f_equal (take (tx_pos b))) in Ht. destruct Hwf as [Hp _].
      rewrite take_take, Nat.min_l in Ht by lia. rewrite Ht.
      rewrite take_app_length'; [done|]. unfold tx_written. rewrite length_take. lia.
  - destruct H1 as (b' & -> & Hl & Ht). cbn [mbind option_bind]. unfold enc_spec.
    rewrite decide_False. { by exists b'. }
    intros Hf. apply Hf1. unfold tx_fits in *. rewrite length_app in Hf. lia.
Qed.

Lemma major_bytes : is_major CBOR_BYTES /\ is_major CBOR_STRING /\ is_major CBOR_ARRAY /\
  is_major CBOR_MAP /\ is_major CBOR_TAG /\ is_major CBOR_UINT /\ is_major CBOR_NEG.
Proof. unfold is_major. vm_compute. intuition congruence. Qed.

Ltac major := first [done | apply major_bytes].

Lemma CBOR_EncodeBytes_enc b bs :
  tx_wf b -> Z.of_nat (length bs) < 2 ^ 32 ->
  enc_spec b (cbor_head CBOR_BYTES (Z.of_nat (length bs)) ++ bs)
    (CBOR_EncodeBytes b (Some bs) (length bs)).
Proof.
  intros Hwf Hl. unfold CBOR_EncodeBytes. rewrite u32_small by lia.
  apply (enc_spec_seq _ _ _ _ (fun b => CBOR_Copy b (Some bs) (length bs))); auto using CBOR_Copy_enc.
  - apply cbor_head_bytes; [major|lia].
  - apply EncodeUint_enc; [done|major|lia].
Qed.

Lemma CBOR_EncodeStringAndLength_enc b bs :
  tx_wf b -> Z.of_nat (length bs) < 2 ^ 32 ->
  enc_spec b (cbor_head CBOR_STRING (Z.of_nat (length bs)) ++ bs)
    (CBOR_EncodeStringAndLength b (Some bs) (length bs)).
Proof.
  intros Hwf Hl. unfold CBOR_EncodeStringAndLength. rewrite u32_small by lia.
  apply (enc_spec_seq _ _ _ _ (fun b => CBOR_Copy b (Some bs) (length bs))); auto using CBOR_Copy_enc.
  - apply cbor_head_bytes; [major|lia].
  - apply EncodeUint_enc; [done|major|lia].
Qed.

Lemma CBOR_EncodeString_enc b bs :
  tx_wf b -> Z.of_nat (length bs) <= CBOR_MAX_STRING_LEN ->
  enc_spec b (cbor_head CBOR_STRING (Z.of_nat (length bs)) ++ bs) (CBOR_EncodeString b (Some bs)).
Proof.
  intros Hwf Hl. unfold CBOR_EncodeString, strnlen_s, CBOR_MAX_STRING_LEN in *.
  rewrite Z.min_l by lia. destruct (Z.gtb_spec (Z.of_nat (length bs)) 2048); [lia|].
  rewrite u32_small, Nat2Z.id by lia.
  apply (enc_spec_seq _ _ _ _ (fun b => CBOR_Copy b (Some bs) (length bs))); auto using CBOR_Copy_enc.
  - apply cbor_head_bytes; [major|lia].
  - apply EncodeUint_enc; [done|major|lia].
Qed.

(** [~(uint64_t)i] of a negative [i] is [-1 - i]. *)
Lemma not_u64_neg i : - 2 ^ 63 <= i < 0 -> not_u64 i = -1 - i.
Proof.
  intros Hi. unfold not_u64, u64. unfold Z.lnot. pow2s. Z.div_mod_to_equations. lia.
Qed.

(** The CBOR head of a signed integer. *)
Definition cbor_int (i : Z) : list Z :=
  if i >=? 0 then cbor_head CBOR_UINT i else cbor_head CBOR_NEG (-1 - i).

Lemma CBOR_EncodeInt_enc b i :
  tx_wf b -> - 2 ^ 63 <= i < 2 ^ 63 -> enc_spec b (cbor_int i) (CBOR_EncodeInt b i).
Proof.
  intros Hwf Hi. unfold CBOR_EncodeInt, cbor_int. destruct (Z.geb_spec i 0).
  - rewrite u64_small by lia. apply EncodeUint_enc; [done|major|lia].
  - rewrite not_u64_neg by lia. apply EncodeUint_enc; [done|major|lia].
Qed.
