(* ===== verification/CborValues.v ===== *)
(** * CBOR values: round trips and exact skipping

    A tree of CBOR data items, the bytes it is written as, the writer that
    calls the encoders of [src/cbor.c], and what the decoders and [CBOR_Skip]
    do on those bytes. *)
From S2P Require Import Prelude Status Buffer Float Cbor CborProofs.

(** ** Decoding what the encoders wrote *)

Lemma rx_rest_skip_app b l tl :
  rx_rest b = l ++ tl -> rx_rest (rx_skip b (length l)) = tl.
Proof. intros E. rewrite rx_skip_rest, E. apply drop_app_length. Qed.

Lemma rx_skip_app_wf b l tl :
  rx_wf b -> rx_rest b = l ++ tl -> rx_wf (rx_skip b (length l)).
Proof.
  intros Hwf E. apply rx_skip_wf; [done|]. rewrite (rx_avail_app _ _ _ Hwf E). lia.
Qed.

Lemma rx_skip_skip b n m : rx_skip (rx_skip b n) m = rx_skip b (n + m).
Proof. unfold rx_skip, rx_set_pos; simpl. f_equal. lia. Qed.

Lemma s64_small n : 0 <= n < 2 ^ 63 -> s64 n = n.
Proof.
  intros. unfold s64. rewrite u64_small by lia. destruct (Z.ltb_spec n (2 ^ 63)); lia.
Qed.

Lemma s64_lnot n : 0 <= n < 2 ^ 63 -> s64 (Z.lnot n) = -1 - n.
Proof.
  intros H. unfold s64. replace (u64 (Z.lnot n)) with (2 ^ 64 - 1 - n).
  - destruct (Z.ltb_spec (2 ^ 64 - 1 - n) (2 ^ 63)); lia.
  - unfold u64, Z.lnot. apply Z.mod_unique_pos with (-1); lia.
Qed.

Lemma CBOR_DecodeInt_spec b i i0 tl :
  rx_wf b -> - 2 ^ 63 <= i < 2 ^ 63 -> rx_rest b = cbor_int i ++ tl ->
  CBOR_DecodeInt b i0 = Some (DPS_OK, i, rx_skip b (length (cbor_int i))).
Proof.
  intros Hwf Hi E. unfold CBOR_DecodeInt, cbor_int in *. destruct (Z.geb_spec i 0).
  - rewrite (PeekUint_spec b CBOR_UINT i _ _ _ tl) by (done || major || lia).
    cbn [mbind option_bind is_OK]. simpl (bool_decide _). cbn match.
    rewrite Z.eqb_refl, s64_small by lia. destruct (Z.ltb_spec i 0); [lia|].
    by rewrite <- (cbor_head_sizeof CBOR_UINT), Nat2Z.id.
  - rewrite (PeekUint_spec b CBOR_NEG (-1 - i) _ _ _ tl) by (done || major || lia).
    cbn [mbind option_bind is_OK]. simpl (bool_decide _). cbn match.
    change (CBOR_NEG =? CBOR_UINT) with false. rewrite Z.eqb_refl, s64_lnot by lia.
    destruct (Z.gtb_spec (-1 - (-1 - i)) 0); [lia|].
    rewrite <- (cbor_head_sizeof CBOR_NEG), Nat2Z.id. do 3 f_equal. lia.
Qed.

Lemma CBOR_DecodeBytes_spec b bs tl :
  rx_wf b -> Z.of_nat (length bs) < 2 ^ 32 ->
  rx_rest b = cbor_head CBOR_BYTES (Z.of_nat (length bs)) ++ bs ++ tl ->
  CBOR_DecodeBytes b =
    Some (DPS_OK,
          if decide (bs = []) then None
          else Some (rx_pos b + length (cbor_head CBOR_BYTES (Z.of_nat (length bs))))%nat,
          Z.of_nat (length bs),
          rx_skip b (length (cbor_head CBOR_BYTES (Z.of_nat (length bs)) ++ bs))).
Proof.
  intros Hwf Hl E. unfold CBOR_DecodeBytes.
  rewrite (DecodeUint_spec b CBOR_BYTES (Z.of_nat (length bs)) 0 (bs ++ tl)) by (done || major || lia).
  cbn [mbind option_bind].
  change (is_OK DPS_OK) with true. cbv beta iota.
  pose proof (rx_skip_app_wf _ _ _ Hwf E) as Hwf'.
  rewrite (rx_avail_app _ bs tl Hwf') by (by apply rx_rest_skip_app).
  destruct (Z.gtb_spec (Z.of_nat (length bs)) (Z.of_nat (length bs) + Z.of_nat (length tl))); [lia|].
  unfold SIZE_MAX. destruct (Z.gtb_spec (Z.of_nat (length bs)) 18446744073709551615); [lia|].
  simpl orb. cbv iota. destruct (Z.eqb_spec (Z.of_nat (length bs)) 0).
  - destruct bs; [|simpl in *; lia]. rewrite app_nil_r, decide_True by done. done.
  - rewrite decide_False by (intros ->; done).
    rewrite u64_small, rx_skip_skip, Nat2Z.id, length_app by lia. done.
Qed.

Lemma CBOR_DecodeString_spec b bs p0 n0 tl :
  rx_wf b -> Z.of_nat (length bs) < 2 ^ 32 ->
  rx_rest b = cbor_head CBOR_STRING (Z.of_nat (length bs)) ++ bs ++ tl ->
  CBOR_DecodeString b p0 n0 =
    Some (DPS_OK,
          if decide (bs = []) then None
          else Some (rx_pos b + length (cbor_head CBOR_STRING (Z.of_nat (length bs))))%nat,
          Z.of_nat (length bs),
          rx_skip b (length (cbor_head CBOR_STRING (Z.of_nat (length bs)) ++ bs))).
Proof.
  intros Hwf Hl E. unfold CBOR_DecodeString.
  rewrite (DecodeUint_spec b CBOR_STRING (Z.of_nat (length bs)) 0 (bs ++ tl)) by (done || major || lia).
  cbn [mbind option_bind].
  change (is_OK DPS_OK) with true. cbv beta iota.
  pose proof (rx_skip_app_wf _ _ _ Hwf E) as Hwf'.
  rewrite (rx_avail_app _ bs tl Hwf') by (by apply rx_rest_skip_app).
  destruct (Z.gtb_spec (Z.of_nat (length bs)) (Z.of_nat (length bs) + Z.of_nat (length tl))); [lia|].
  unfold SIZE_MAX. destruct (Z.gtb_spec (Z.of_nat (length bs)) 18446744073709551615); [lia|].
  simpl orb. cbv iota. destruct (Z.gtb_spec (Z.of_nat (length bs)) 0).
  - rewrite decide_False by (intros ->; simpl in *; lia).
    rewrite u64_small, rx_skip_skip, Nat2Z.id, length_app by lia. done.
  - destruct bs; [|simpl in *; lia]. rewrite app_nil_r, decide_True by done. done.
Qed.

(** The bytes a decoded pointer designates are the ones that were encoded. *)
Lemma rx_read_payload b h bs tl :
  rx_wf b -> rx_rest b = h ++ bs ++ tl ->
  mem_read (rx_mem b) (rx_pos b + length h) (length bs) = Some bs.
Proof.
  intros Hwf E. pose proof (f_equal length E) as El. unfold rx_rest in *.
  rewrite length_take, length_drop, !length_app in El. destruct Hwf as (? & ? & _).
  rewrite mem_read_fits by lia. f_equal. rewrite <- drop_drop.
  apply (f_equal (fun l => take (length bs) (drop (length h) l))) in E.
  rewrite drop_app_length, take_app_length in E. rewrite <- E at 2.
  rewrite skipn_firstn_comm, take_take. f_equal. lia.
Qed.

Lemma CBOR_DecodeUUID_spec b u u0 tl :
  rx_wf b -> length u = 16%nat -> rx_rest b = cbor_head CBOR_BYTES 16 ++ u ++ tl ->
  CBOR_DecodeUUID b u0 = Some (DPS_OK, u, rx_skip b 17).
Proof.
  intros Hwf Hl E. unfold CBOR_DecodeUUID.
  pose proof (CBOR_DecodeBytes_spec b u tl Hwf) as H. rewrite Hl in H.
  rewrite H by done. clear H. rewrite decide_False by (intros ->; done).
  cbn [mbind option_bind]. change (Z.of_nat 16) with 16 in *. simpl negb.
  change (is_OK DPS_OK && false) with false. cbv iota beta.
  change (is_OK DPS_OK) with true. cbv iota beta.
  pose proof (rx_read_payload _ _ _ _ Hwf E) as Hr. rewrite Hl in Hr. simpl rx_mem. rewrite Hr.
  cbn [mbind option_bind]. by rewrite length_app, Hl.
Qed.

(** ** Floats travel bit for bit *)

Definition cbor_float (f : Z) : list Z := CBOR_FLOAT :: be_bytes 4 f.
Definition cbor_double (d : Z) : list Z := CBOR_DOUBLE :: be_bytes 8 d.

Lemma CBOR_EncodeFloat_enc b f : tx_wf b -> enc_spec b (cbor_float f) (CBOR_EncodeFloat b f).
Proof.
  intros Hwf. unfold enc_spec, CBOR_EncodeFloat, cbor_float.
  case_decide as Hf; rewrite (tx_fits_space b _ Hwf) in Hf; simpl in Hf;
    destruct (Z.ltb_spec (DPS_TxBufferSpace b) 5); try lia; [|by eexists].
  match goal with |- context [tx_put b ?l] => replace l with (cbor_float f) end.
  - by rewrite tx_put_fits by (apply tx_fits_space; simpl; done || lia).
  - unfold cbor_float. cbn [be_bytes]. by rewrite Z.mul_0_r, Z.shiftr_0_r.
Qed.

Lemma CBOR_EncodeDouble_enc b d : tx_wf b -> enc_spec b (cbor_double d) (CBOR_EncodeDouble b d).
Proof.
  intros Hwf. unfold enc_spec, CBOR_EncodeDouble, cbor_double.
  case_decide as Hf; rewrite (tx_fits_space b _ Hwf) in Hf; simpl in Hf;
    destruct (Z.ltb_spec (DPS_TxBufferSpace b) 9); try lia; [|by eexists].
  match goal with |- context [tx_put b ?l] => replace l with (cbor_double d) end.
  - by rewrite tx_put_fits by (apply tx_fits_space; simpl; done || lia).
  - unfold cbor_double. cbn [be_bytes]. by rewrite Z.mul_0_r, Z.shiftr_0_r.
Qed.

Lemma CBOR_DecodeFloat_spec b f f0 tl :
  rx_wf b -> 0 <= f < 2 ^ 32 -> rx_rest b = cbor_float f ++ tl ->
  CBOR_DecodeFloat b f0 = Some (DPS_OK, f, rx_skip b 5).
Proof.
  intros Hwf Hf E. pose proof (rx_avail_app _ _ _ Hwf E) as Hav. simpl in Hav.
  assert (forall i x, (cbor_float f ++ tl) !! i = Some x -> rx_peek b i = Some x) as Hp.
  { intros i x. by apply rx_peek_eq. }
  rewrite (CBOR_DecodeFloat_own _ _ CBOR_FLOAT) by (done || (by apply Hp) || lia).
  unfold DecodeFloatExact. destruct (Z.ltb_spec (DPS_RxBufferAvail b) 5); [lia|].
  unfold rx_read_f32, cbor_float in *. cbn [be_bytes] in Hp.
  repeat match goal with |- context [rx_peek b ?i] =>
    rewrite (Hp i _ eq_refl); cbn [mbind option_bind] end.
  rewrite be4_value by auto with dps. do 3 f_equal.
  change (be_value 0 (be_bytes 4 f) = f). rewrite be_value_bytes. by apply Z.mod_small.
Qed.

Lemma CBOR_DecodeDouble_spec b d d0 tl :
  rx_wf b -> 0 <= d < 2 ^ 64 -> rx_rest b = cbor_double d ++ tl ->
  CBOR_DecodeDouble b d0 = Some (DPS_OK, d, rx_skip b 9).
Proof.
  intros Hwf Hf E. pose proof (rx_avail_app _ _ _ Hwf E) as Hav. simpl in Hav.
  assert (forall i x, (cbor_double d ++ tl) !! i = Some x -> rx_peek b i = Some x) as Hp.
  { intros i x. by apply rx_peek_eq. }
  rewrite (CBOR_DecodeDouble_own _ _ CBOR_DOUBLE) by (done || (by apply Hp) || lia).
  unfold DecodeDoubleExact. destruct (Z.ltb_spec (DPS_RxBufferAvail b) 9); [lia|].
  unfold rx_read_f64, cbor_double in *. cbn [be_bytes] in Hp.
  repeat match goal with |- context [rx_peek b ?i] =>
    rewrite (Hp i _ eq_refl); cbn [mbind option_bind] end.
  rewrite be8_value by apply (be_bytes_are_bytes 8 d). do 3 f_equal.
  change (be_value 0 (be_bytes 8 d) = d). rewrite be_value_bytes. by apply Z.mod_small.
Qed.

(** ** Data items *)

#[local] Set Warnings "-register-all".
Inductive cbor :=
  | CInt (i : Z)
  | CBytes (bs : list Z)
  | CString (bs : list Z)
  | CArray (items : list cbor)
  | CMap (entries : list (cbor * cbor))
  | CBool (b : bool)
  | CNull
  | CFloat (f : Z)
  | CDouble (d : Z).

Section CborInd.
Context (P : cbor -> Prop).
Hypothesis HInt : forall i, P (CInt i).
Hypothesis HBytes : forall bs, P (CBytes bs).
Hypothesis HString : forall bs, P (CString bs).
Hypothesis HArray : forall items, Forall P items -> P (CArray items).
Hypothesis HMap : forall es, Forall (fun e => P e.1 /\ P e.2) es -> P (CMap es).
Hypothesis HBool : forall b, P (CBool b).
Hypothesis HNull : P CNull.
Hypothesis HFloat : forall f, P (CFloat f).
Hypothesis HDouble : forall d, P (CDouble d).

Fixpoint cbor_nested_ind (v : cbor) : P v :=
  match v with
  | CInt i => HInt i | CBytes bs => HBytes bs | CString bs => HString bs
  | CArray l => HArray l
      ((fix go l : Forall P l :=
          match l with [] => Forall_nil _ | x :: l => Forall_cons _ x l (cbor_nested_ind x) (go l) end) l)
  | CMap l => HMap l
      ((fix go l : Forall (fun e => P e.1 /\ P e.2) l :=
          match l with
          | [] => Forall_nil _
          | e :: l => Forall_cons _ e l (conj (cbor_nested_ind e.1) (cbor_nested_ind e.2)) (go l)
          end) l)
  | CBool b => HBool b | CNull => HNull | CFloat f => HFloat f | CDouble d => HDouble d
  end.
End CborInd.

(** The wire format. *)
Fixpoint wire (v : cbor) : list Z :=
  match v with
  | CInt i => cbor_int i
  | CBytes bs => cbor_head CBOR_BYTES (Z.of_nat (length bs)) ++ bs
  | CString bs => cbor_head CBOR_STRING (Z.of_nat (length bs)) ++ bs
  | CArray l => cbor_head CBOR_ARRAY (Z.of_nat (length l)) ++ flat_map wire l
  | CMap l => cbor_head CBOR_MAP (Z.of_nat (length l)) ++
              flat_map (fun e => wire e.1 ++ wire e.2) l
  | CBool b => [if b then CBOR_TRUE else CBOR_FALSE]
  | CNull => [CBOR_NULL]
  | CFloat f => cbor_float f
  | CDouble d => cbor_double d
  end.

(** What the C types can hold, with 32-bit lengths. *)
Fixpoint cbor_ok (v : cbor) : Prop :=
  match v with
  | CInt i => - 2 ^ 63 <= i < 2 ^ 63
  | CBytes bs => Z.of_nat (length bs) < 2 ^ 32 /\ Forall is_byte bs
  | CString bs => Z.of_nat (length bs) < 2 ^ 32 /\ Forall is_byte bs
  | CArray l => Z.of_nat (length l) < 2 ^ 32 /\
      (fix go l := match l with [] => True | x :: l => cbor_ok x /\ go l end) l
  | CMap l => Z.of_nat (length l) < 2 ^ 32 /\
      (fix go l := match l with [] => True | e :: l => (cbor_ok e.1 /\ cbor_ok e.2) /\ go l end) l
  | CBool _ | CNull => True
  | CFloat f => 0 <= f < 2 ^ 32
  | CDouble d => 0 <= d < 2 ^ 64
  end.

Lemma cbor_ok_array l : cbor_ok (CArray l) <-> Z.of_nat (length l) < 2 ^ 32 /\ Forall cbor_ok l.
Proof.
  cbn [cbor_ok]. apply and_iff_compat_l. clear. induction l as [|x l IH].
  - split; [constructor|done].
  - rewrite Forall_cons_iff, IH. done.
Qed.

Lemma cbor_ok_map l :
  cbor_ok (CMap l) <->
  Z.of_nat (length l) < 2 ^ 32 /\ Forall (fun e => cbor_ok e.1 /\ cbor_ok e.2) l.
Proof.
  cbn [cbor_ok]. apply and_iff_compat_l. clear. induction l as [|x l IH].
  - split; [constructor|done].
  - rewrite Forall_cons_iff, IH. done.
Qed.

Lemma flat_map_bytes {A} (f : A -> list Z) l :
  Forall (fun x => Forall is_byte (f x)) l -> Forall is_byte (flat_map f l).
Proof. induction 1; simpl; [constructor|]. by apply Forall_app_2. Qed.

Lemma wire_bytes v : cbor_ok v -> Forall is_byte (wire v).
Proof.
  induction v using cbor_nested_ind; intros Hok; cbn [wire].
  - cbn [cbor_ok] in Hok. unfold cbor_int.
    destruct (Z.geb_spec i 0); apply cbor_head_bytes; (major || lia).
  - destruct Hok. apply Forall_app_2; [|done]. apply cbor_head_bytes; (major || lia).
  - destruct Hok. apply Forall_app_2; [|done]. apply cbor_head_bytes; (major || lia).
  - apply cbor_ok_array in Hok as [_ Hok]. apply Forall_app_2.
    + apply cbor_head_bytes; (major || lia).
    + apply flat_map_bytes. by eapply Forall_mp.
  - apply cbor_ok_map in Hok as [_ Hok]. apply Forall_app_2.
    + apply cbor_head_bytes; (major || lia).
    + apply flat_map_bytes. apply (Forall_mp (fun e => cbor_ok e.1 /\ cbor_ok e.2)); [|done].
      eapply Forall_impl; [|apply H]. intros [k v] [Hk Hv] [? ?]. apply Forall_app_2; auto.
  - destruct b; repeat constructor; done.
  - repeat constructor; done.
  - constructor; [done|]. apply be_bytes_are_bytes.
  - constructor; [done|]. apply be_bytes_are_bytes.
Qed.

(** *** Skipping an item skips exactly its bytes *)

(** [CBOR_Skip] at fuel [fuel] on an item followed by anything. *)
Definition skips (fuel : nat) (bs : list Z) : Prop :=
  forall b tl mo so, rx_wf b -> rx_rest b = bs ++ tl ->
    DPS_RxBufferAvail b < Z.of_nat fuel ->
    exists mj sk, CBOR_Skip fuel b mo so = Some (DPS_OK, mj, sk, rx_skip b (length bs)).

Lemma skip_items_exact {A} skip (f : A -> list Z) l fuel b tl :
  Forall (fun x => (0 < length (f x))%nat /\ forall c tl, rx_wf c -> rx_rest c = f x ++ tl ->
     DPS_RxBufferAvail c < Z.of_nat fuel ->
     skip c = Some (DPS_OK, rx_skip c (length (f x)))) l ->
  rx_wf b -> rx_rest b = flat_map f l ++ tl -> DPS_RxBufferAvail b < Z.of_nat fuel ->
  forall n, (length (flat_map f l) < n)%nat ->
  skip_items skip n (Z.of_nat (length l)) DPS_OK b =
    Some (DPS_OK, rx_skip b (length (flat_map f l))).
Proof.
  intros Hl. revert b. induction Hl as [|x l [Hpos Hx] Hl IH]; intros b Hwf E Hf n Hn.
  - destruct n; [lia|]. simpl. unfold rx_skip. by rewrite Nat.add_0_r; destruct b.
  - destruct n; [lia|]. cbn [skip_items flat_map length].
    rewrite (proj2 (Z.eqb_neq _ _)) by lia. simpl orb. cbv iota.
    cbn [flat_map] in *. rewrite <- app_assoc in E. rewrite (Hx b (flat_map f l ++ tl)) by done.
    cbn [mbind option_bind]. rewrite length_app in *.
    replace (Z.of_nat (S (length l)) - 1) with (Z.of_nat (length l)) by lia.
    rewrite IH; [|by eapply rx_skip_app_wf|by apply rx_rest_skip_app| |lia].
    + by rewrite rx_skip_skip.
    + rewrite rx_skip_avail; [lia|done|].
      rewrite (rx_avail_app _ _ _ Hwf E). lia.
Qed.

Lemma cbor_head_first maj n :
  0 <= n ->
  exists k tl, 0 <= k < 32 /\ cbor_head maj n = (maj + k) :: tl /\
    IntLengths !! Z.to_nat k = Some (CBOR_SIZEOF_LEN n).
Proof.
  intros Hn. unfold cbor_head, CBOR_SIZEOF_LEN. by_requires n.
  - exists n. eexists. rewrite IntLengths_small by lia. split_and!; done || lia.
  - exists CBOR_LEN1. eexists. done.
  - exists CBOR_LEN2. eexists. done.
  - exists CBOR_LEN4. eexists. done.
  - exists CBOR_LEN8. eexists. done.
Qed.

(** The dispatch of [CBOR_Skip] on the initial byte [maj + k]. *)
Lemma CBOR_Skip_dispatch fuel b mo so maj k r :
  rx_wf b -> is_major maj -> 0 <= k < 32 -> 1 <= DPS_RxBufferAvail b ->
  rx_peek b 0 = Some (maj + k) ->
  (let skip1 b := '(ret, _, _, b) ← CBOR_Skip fuel b None None; Some (ret, b) in
   (if (maj =? CBOR_UINT) || (maj =? CBOR_NEG) || (maj =? CBOR_TAG) then
      len ← IntLengths !! Z.to_nat k;
      Some (if len =? 0 then (DPS_ERR_INVALID, b)
            else if DPS_RxBufferAvail b <? len then (DPS_ERR_EOD, b)
            else (DPS_OK, rx_skip b (Z.to_nat len)))
    else if maj =? CBOR_BYTES then '(ret, _, _, b) ← CBOR_DecodeBytes b; Some (ret, b)
    else if maj =? CBOR_STRING then '(ret, _, _, b) ← CBOR_DecodeString b None 0; Some (ret, b)
    else if maj =? CBOR_ARRAY then
      '(ret, len, b) ← DecodeUint b 0 maj; skip_items skip1 fuel len ret b
    else if maj =? CBOR_MAP then
      '(ret, len, b) ← DecodeUint b 0 maj;
      skip_items (fun b => '(ret, b) ← skip1 b; if is_OK ret then skip1 b else Some (ret, b))
        fuel len ret b
    else if maj =? CBOR_OTHER then
      if (20 <=? k) && (k <=? 22) then Some (DPS_OK, rx_skip b 1)
      else if k =? 26 then '(ret, _, b) ← CBOR_DecodeFloat b 0; Some (ret, b)
      else if k =? 27 then '(ret, _, b) ← CBOR_DecodeDouble b 0; Some (ret, b)
      else Some (DPS_ERR_INVALID, b)
    else Some (DPS_ERR_INVALID, b)) = Some (DPS_OK, r)) ->
  exists mj sk, CBOR_Skip (S fuel) b mo so = Some (DPS_OK, mj, sk, r).
Proof.
  intros Hwf Hm Hk Hav Hp Hr. destruct (major_split maj k Hm Hk) as (_ & E1 & E2).
  cbn [CBOR_Skip]. destruct (Z.ltb_spec (DPS_RxBufferAvail b) 1); [lia|].
  rewrite Hp. cbn [mbind option_bind]. rewrite E1, E2.
  cbv zeta in Hr. unfold mbind, option_bind in Hr |- *. rewrite Hr. eexists _, _. done.
Qed.

(** The side conditions of [CBOR_Skip_dispatch] for an item that starts with a head. *)
Lemma skips_head maj n rest fuel :
  0 <= n -> is_major maj ->
  (forall k b tl mo so, 0 <= k < 32 -> IntLengths !! Z.to_nat k = Some (CBOR_SIZEOF_LEN n) ->
     rx_wf b -> rx_rest b = cbor_head maj n ++ rest ++ tl ->
     DPS_RxBufferAvail b <= Z.of_nat fuel -> 1 <= DPS_RxBufferAvail b ->
     rx_peek b 0 = Some (maj + k) ->
     exists mj sk, CBOR_Skip (S fuel) b mo so =
       Some (DPS_OK, mj, sk, rx_skip b (length (cbor_head maj n ++ rest)))) ->
  skips (S fuel) (cbor_head maj n ++ rest).
Proof.
  intros Hn Hm H b tl mo so Hwf E Hf. rewrite <- app_assoc in E.
  destruct (cbor_head_first maj n Hn) as (k & l & Hk & Eh & Hi).
  apply (H k b tl); try done.
  - lia.
  - rewrite (rx_avail_app _ _ _ Hwf E), Eh. simpl. lia.
  - apply (rx_peek_eq _ _ _ _ E). by rewrite Eh.
Qed.

(** Integers, and tags: for a tag this is the head only, not the tagged item. *)
Lemma skips_scalar maj n fuel :
  0 <= n -> is_major maj ->
  (maj =? CBOR_UINT) || (maj =? CBOR_NEG) || (maj =? CBOR_TAG) = true ->
  skips (S fuel) (cbor_head maj n).
Proof.
  intros Hn Hm Hmaj. rewrite <- (app_nil_r (cbor_head _ _)).
  apply skips_head; [lia|done|]. intros k b tl mo so Hk Hl Hwf E Hf Hav Hp.
  rewrite app_nil_r. cbn [app] in E.
  eapply CBOR_Skip_dispatch; [exact Hwf|exact Hm|exact Hk|exact Hav|exact Hp|].
  cbv zeta. rewrite Hmaj, Hl. cbn [mbind option_bind].
  rewrite <- (cbor_head_sizeof maj n), Nat2Z.id.
  pose proof (rx_avail_app _ _ _ Hwf E). pose proof (cbor_head_length maj n).
  pose proof (Requires_cases n).
  rewrite (proj2 (Z.eqb_neq _ _)), (proj2 (Z.ltb_ge _ _)) by lia. done.
Qed.

Lemma skips_int i fuel : - 2 ^ 63 <= i < 2 ^ 63 -> skips (S fuel) (cbor_int i).
Proof.
  intros Hi. unfold cbor_int.
  destruct (Z.geb_spec i 0); apply skips_scalar; (done || major || lia).
Qed.

Lemma skips_bytes bs fuel : Z.of_nat (length bs) < 2 ^ 32 -> skips (S fuel) (wire (CBytes bs)).
Proof.
  intros Hl. apply (skips_head _ _ _ _); [lia|major|].
  intros k b tl mo so Hk _ Hwf E Hf Hav Hp.
  eapply CBOR_Skip_dispatch; [exact Hwf| |exact Hk|exact Hav|exact Hp|]; [major|]. cbv zeta.
  simpl. rewrite (CBOR_DecodeBytes_spec b bs tl) by done. done.
Qed.

Lemma skips_string bs fuel : Z.of_nat (length bs) < 2 ^ 32 -> skips (S fuel) (wire (CString bs)).
Proof.
  intros Hl. apply (skips_head _ _ _ _); [lia|major|].
  intros k b tl mo so Hk _ Hwf E Hf Hav Hp.
  eapply CBOR_Skip_dispatch; [exact Hwf| |exact Hk|exact Hav|exact Hp|]; [major|]. cbv zeta.
  simpl. rewrite (CBOR_DecodeString_spec b bs _ _ tl) by done. done.
Qed.

Lemma cbor_head_nonempty maj n rest : (0 < length (cbor_head maj n ++ rest))%nat.
Proof.
  rewrite length_app. pose proof (cbor_head_length maj n). pose proof (Requires_cases n). lia.
Qed.

Lemma wire_nonempty v : (0 < length (wire v))%nat.
Proof.
  destruct v; cbn [wire]; try apply cbor_head_nonempty; try (simpl; lia).
  unfold cbor_int. rewrite <- (app_nil_r (cbor_head CBOR_UINT i)), <- (app_nil_r (cbor_head CBOR_NEG _)).
  case_if; apply cbor_head_nonempty.
Qed.

(** A container whose items are skipped exactly by [skip]. *)
Lemma skip_container {A} maj (f : A -> list Z) l skip fuel b tl :
  is_major maj -> Z.of_nat (length l) < 2 ^ 32 ->
  Forall (fun x => (0 < length (f x))%nat /\ forall c tl, rx_wf c -> rx_rest c = f x ++ tl ->
     DPS_RxBufferAvail c < Z.of_nat fuel ->
     skip c = Some (DPS_OK, rx_skip c (length (f x)))) l ->
  rx_wf b ->
  rx_rest b = cbor_head maj (Z.of_nat (length l)) ++ flat_map f l ++ tl ->
  DPS_RxBufferAvail b <= Z.of_nat fuel ->
  ('(ret, len, b) ← DecodeUint b 0 maj; skip_items skip fuel len ret b) =
    Some (DPS_OK, rx_skip b (length (cbor_head maj (Z.of_nat (length l)) ++ flat_map f l))).
Proof.
  intros Hm Hl Hall Hwf E Hf.
  rewrite (DecodeUint_spec b maj (Z.of_nat (length l)) 0 _ Hwf Hm ltac:(lia) E). cbn [mbind option_bind].
  pose proof (rx_avail_app _ _ _ Hwf E) as Hav. rewrite length_app in Hav.
  pose proof (cbor_head_length maj (Z.of_nat (length l))).
  pose proof (Requires_cases (Z.of_nat (length l))).
  pose proof (rx_skip_app_wf _ _ _ Hwf E) as Hwf'.
  pose proof (rx_rest_skip_app _ _ _ E) as E'.
  rewrite (skip_items_exact _ f l fuel _ tl); [|done|done|done| |lia].
  - by rewrite rx_skip_skip, length_app.
  - rewrite (rx_avail_app _ _ _ Hwf' E'). lia.
Qed.

Lemma skips_skip1 fuel bs c tl :
  skips fuel bs -> rx_wf c -> rx_rest c = bs ++ tl -> DPS_RxBufferAvail c < Z.of_nat fuel ->
  ('(ret, _, _, b) ← CBOR_Skip fuel c None None; Some (ret, b)) =
    Some (DPS_OK, rx_skip c (length bs)).
Proof. intros H Hwf E Hf. by destruct (H c tl None None Hwf E Hf) as (? & ? & ->). Qed.

Lemma skips_pair fuel bs1 bs2 c tl :
  skips fuel bs1 -> skips fuel bs2 -> rx_wf c -> rx_rest c = (bs1 ++ bs2) ++ tl ->
  DPS_RxBufferAvail c < Z.of_nat fuel ->
  ('(ret, b) ← ('(ret, _, _, b) ← CBOR_Skip fuel c None None; Some (ret, b));
   if is_OK ret then '(ret, _, _, b) ← CBOR_Skip fuel b None None; Some (ret, b)
   else Some (ret, b)) = Some (DPS_OK, rx_skip c (length (bs1 ++ bs2))).
Proof.
  intros H1 H2 Hwf E Hf. rewrite <- app_assoc in E.
  rewrite (skips_skip1 _ bs1 c (bs2 ++ tl)) by done. cbn [mbind option_bind].
  change (is_OK DPS_OK) with true. cbv iota.
  pose proof (skips_skip1 fuel bs2 _ tl H2 (rx_skip_app_wf _ _ _ Hwf E)
                (rx_rest_skip_app _ _ _ E)) as Hs.
  rewrite Hs, rx_skip_skip, length_app; [done|].
  rewrite rx_skip_avail; [lia|done|]. rewrite (rx_avail_app _ _ _ Hwf E). lia.
Qed.

Lemma skips_other x fuel : 20 <= x <= 22 -> skips (S fuel) [CBOR_OTHER + x].
Proof.
  intros Hx b tl mo so Hwf E Hf.
  eapply (CBOR_Skip_dispatch fuel b mo so CBOR_OTHER x); [done|done|lia| | |].
  - rewrite (rx_avail_app _ _ _ Hwf E). simpl. lia.
  - by apply (rx_peek_eq _ _ _ _ E).
  - cbv zeta. simpl. rewrite (proj2 (Z.leb_le _ _)), (proj2 (Z.leb_le _ _)) by lia. done.
Qed.

Lemma skips_float f fuel : 0 <= f < 2 ^ 32 -> skips (S fuel) (cbor_float f).
Proof.
  intros Hx b tl mo so Hwf E Hf.
  eapply (CBOR_Skip_dispatch fuel b mo so CBOR_OTHER 26); [done|done|lia| | |].
  - rewrite (rx_avail_app _ _ _ Hwf E). simpl. lia.
  - by apply (rx_peek_eq _ _ _ _ E).
  - cbv zeta. simpl. by rewrite (CBOR_DecodeFloat_spec b f _ tl).
Qed.

Lemma skips_double d fuel : 0 <= d < 2 ^ 64 -> skips (S fuel) (cbor_double d).
Proof.
  intros Hx b tl mo so Hwf E Hf.
  eapply (CBOR_Skip_dispatch fuel b mo so CBOR_OTHER 27); [done|done|lia| | |].
  - rewrite (rx_avail_app _ _ _ Hwf E). simpl. lia.
  - by apply (rx_peek_eq _ _ _ _ E).
  - cbv zeta. simpl. by rewrite (CBOR_DecodeDouble_spec b d _ tl).
Qed.

Lemma skips_wire v : cbor_ok v -> forall fuel, skips (S fuel) (wire v).
Proof.
  induction v using cbor_nested_ind; intros Hok fuel; cbn [wire].
  - by apply skips_int.
  - by apply skips_bytes, Hok.
  - by apply skips_string, Hok.
  - apply cbor_ok_array in Hok as [Hl Hok]. apply skips_head; [lia|major|].
    intros k b tl mo so Hk _ Hwf E Hf Hav Hp.
    eapply CBOR_Skip_dispatch; [exact Hwf| |exact Hk|exact Hav|exact Hp|]; [major|].
    cbv zeta. simpl (if _ || _ then _ else _).
    apply (skip_container _ wire items _ _ _ tl); try (done || major).
    eapply Forall_mp; [|exact Hok]. eapply Forall_impl; [|exact H]. simpl.
    intros v Hv Hvok. split; [apply wire_nonempty|]. intros c tl' Hc Ec Hcf.
    destruct fuel; [pose proof (rx_avail_nonneg c Hc); lia|].
    apply (skips_skip1 _ _ _ tl'); auto.
  - apply cbor_ok_map in Hok as [Hl Hok]. apply skips_head; [lia|major|].
    intros k b tl mo so Hk _ Hwf E Hf Hav Hp.
    eapply CBOR_Skip_dispatch; [exact Hwf| |exact Hk|exact Hav|exact Hp|]; [major|].
    cbv zeta. simpl (if _ || _ then _ else _).
    apply (skip_container _ (fun e => wire e.1 ++ wire e.2) es _ _ _ tl); try (done || major).
    apply (Forall_mp (fun e => cbor_ok e.1 /\ cbor_ok e.2)); [|exact Hok].
    eapply Forall_impl; [|exact H]. intros [v w] [Hv Hw] [Hvok Hwok]. simpl in *.
    split; [rewrite length_app; pose proof (wire_nonempty v); lia|]. intros c tl' Hc Ec Hcf.
    destruct fuel; [pose proof (rx_avail_nonneg c Hc); lia|].
    apply (skips_pair _ _ _ _ tl'); auto.
  - destruct b; [apply (skips_other 21)|apply (skips_other 20)]; lia.
  - apply (skips_other 22). lia.
  - by apply skips_float.
  - by apply skips_double.
Qed.

(** ** Writing a data item with the encoders *)

(** [ret = f1(buffer); if (ret == DPS_OK) ret = f2(buffer); ...] over a list. *)
Fixpoint enc_list {A} (f : DPS_TxBuffer -> A -> option (DPS_Status * DPS_TxBuffer))
    (b : DPS_TxBuffer) (l : list A) : option (DPS_Status * DPS_TxBuffer) :=
  match l with
  | [] => Some (DPS_OK, b)
  | x :: l => '(ret, b) ← f b x; if is_OK ret then enc_list f b l else Some (ret, b)
  end.

Fixpoint enc_value (v : cbor) (b : DPS_TxBuffer) : option (DPS_Status * DPS_TxBuffer) :=
  match v with
  | CInt i => CBOR_EncodeInt b i
  | CBytes bs => CBOR_EncodeBytes b (Some bs) (length bs)
  | CString bs => CBOR_EncodeStringAndLength b (Some bs) (length bs)
  | CArray l =>
      '(ret, b) ← CBOR_EncodeArray b (Z.of_nat (length l));
      if is_OK ret then enc_list (fun b v => enc_value v b) b l else Some (ret, b)
  | CMap l =>
      '(ret, b) ← CBOR_EncodeMap b (Z.of_nat (length l));
      if is_OK ret then
        enc_list (fun b e => '(ret, b) ← enc_value e.1 b;
                             if is_OK ret then enc_value e.2 b else Some (ret, b)) b l
      else Some (ret, b)
  | CBool x => CBOR_EncodeBoolean b (if x then 1 else 0)
  | CNull => CBOR_EncodeNull b
  | CFloat f => CBOR_EncodeFloat b f
  | CDouble d => CBOR_EncodeDouble b d
  end.

Lemma enc_list_enc {A} (f : DPS_TxBuffer -> A -> option (DPS_Status * DPS_TxBuffer)) w l :
  Forall (fun x => Forall is_byte (w x) /\ forall b, tx_wf b -> enc_spec b (w x) (f b x)) l ->
  forall b, tx_wf b -> enc_spec b (flat_map w l) (enc_list f b l).
Proof.
  induction 1 as [|x l [Hb Hx] _ IH]; intros b Hwf; cbn [flat_map enc_list].
  - unfold enc_spec. rewrite decide_True; [by rewrite tx_app_nil|].
    unfold tx_fits. destruct Hwf. simpl. lia.
  - apply (enc_spec_seq _ _ _ _ (fun b => enc_list f b l)); auto.
Qed.

Lemma enc_byte b x :
  tx_wf b ->
  enc_spec b [x] (if DPS_TxBufferSpace b <? 1 then Some (DPS_ERR_OVERFLOW, b)
                  else b' ← tx_put b [x]; Some (DPS_OK, b')).
Proof.
  intros Hwf. unfold enc_spec. case_decide as Hf; rewrite (tx_fits_space b _ Hwf) in Hf; simpl in Hf.
  - rewrite (proj2 (Z.ltb_ge _ _)) by lia.
    by rewrite tx_put_fits by (apply tx_fits_space; simpl; done || lia).
  - rewrite (proj2 (Z.ltb_lt _ _)) by lia. by eexists.
Qed.

Lemma enc_value_enc v : cbor_ok v -> forall b, tx_wf b -> enc_spec b (wire v) (enc_value v b).
Proof.
  induction v using cbor_nested_ind; intros Hok b' Hwf; cbn [wire enc_value].
  - by apply CBOR_EncodeInt_enc.
  - by apply CBOR_EncodeBytes_enc, Hok.
  - by apply CBOR_EncodeStringAndLength_enc, Hok.
  - apply cbor_ok_array in Hok as [Hl Hok].
    apply (enc_spec_seq _ _ _ _ (fun b => enc_list (fun b v => enc_value v b) b items));
      [done|apply cbor_head_bytes; (major || lia)| |].
    + unfold CBOR_EncodeArray. rewrite u32_small by lia. apply EncodeUint_enc; (done || major || lia).
    + apply enc_list_enc. eapply Forall_mp; [|exact Hok]. eapply Forall_impl; [|exact H].
      intros v Hv Hvok. split; [by apply wire_bytes|auto].
  - apply cbor_ok_map in Hok as [Hl Hok].
    apply (enc_spec_seq _ _ _ _ (fun b => enc_list _ b es));
      [done|apply cbor_head_bytes; (major || lia)| |].
    + unfold CBOR_EncodeMap. rewrite u32_small by lia. apply EncodeUint_enc; (done || major || lia).
    + apply enc_list_enc. apply (Forall_mp (fun e => cbor_ok e.1 /\ cbor_ok e.2)); [|exact Hok].
      eapply Forall_impl; [|exact H]. intros [v w] [Hv Hw] [Hvok Hwok]. cbn [fst snd] in *.
      split; [apply Forall_app_2; by apply wire_bytes|]. intros b Hb.
      apply (enc_spec_seq _ _ _ _ (enc_value w)); auto. by apply wire_bytes.
  - destruct b; by apply enc_byte.
  - by apply enc_byte.
  - by apply CBOR_EncodeFloat_enc.
  - by apply CBOR_EncodeDouble_enc.
Qed.
