(* ===== verification/CborWrap.v ===== *)
(** * Wrapping a byte string whose length is not known in advance

    [CBOR_StartWrapBytes], any writes, then [CBOR_EndWrapBytes], which moves
    the payload when the length field changed size. *)
From S2P Require Import Prelude Status Buffer Float Cbor CborProofs.

(** [tx_set_pos buffer wrapPtr] then [CBOR_ReserveBytes] over a payload that is
    already in place. *)
Lemma ReserveBytes_over mem p bs rest :
  let h := cbor_head CBOR_BYTES (Z.of_nat (length bs)) in
  tx_wf (mkTx mem p) -> drop (p + length h) mem = bs ++ rest ->
  (p + length h <= length mem)%nat ->
  exists b' ptr, CBOR_ReserveBytes (mkTx mem p) (length bs) None = Some (DPS_OK, b', ptr) /\
    tx_written b' = take p mem ++ h ++ bs /\ length (tx_mem b') = length mem /\ tx_wf b'.
Proof.
  intros h Hwf Hd Hp.
  pose proof Hwf as (Hpos & Hlen & _). simpl in Hpos, Hlen.
  assert (length mem = p + length h + length bs + length rest)%nat as Hlm.
  { apply (f_equal length) in Hd. rewrite length_drop, length_app in Hd. lia. }
  unfold CBOR_ReserveBytes. rewrite u32_small by lia.
  rewrite EncodeUint_spec by (done || major || lia). fold h.
  rewrite decide_True by (unfold tx_fits; simpl; lia). cbn [mbind option_bind].
  change (is_OK DPS_OK) with true. cbv iota.
  assert (tx_wf (tx_app (mkTx mem p) h)) as Hwf'.
  { apply tx_app_wf; [done|unfold tx_fits; simpl; lia|]. apply cbor_head_bytes; (major || lia). }
  rewrite DPS_TxBufferSpace_spec by done. unfold tx_space.
  rewrite tx_app_length, tx_app_pos by (unfold tx_fits; simpl; lia). simpl (tx_mem _). simpl (tx_pos _).
  destruct (Z.ltb_spec (Z.of_nat (length mem - (p + length h))) (Z.of_nat (length bs))); [lia|].
  assert (Hml : length (tx_mem (tx_app (mkTx mem p) h)) = length mem)
    by (apply tx_app_length; unfold tx_fits; simpl; lia).
  eexists _, _. split; [done|]. split; [|split].
  - unfold tx_written, tx_set_pos, tx_app; simpl. rewrite Hd, app_assoc, app_assoc.
    rewrite take_app_length'.
    + by rewrite <- app_assoc.
    + rewrite !length_app, length_take. lia.
  - exact Hml.
  - pose proof Hwf' as (_ & _ & Hb). rewrite <- Hml in Hlen, Hlm. split_and!; [|exact Hlen|exact Hb].
    change (p + length h + length bs <= length (tx_mem (tx_app (mkTx mem p) h)))%nat. lia.
Qed.

(** The state in which [CBOR_EndWrapBytes] is called: the head that announced
    [hint], then the payload. *)
Definition wrapped (b : DPS_TxBuffer) (hint : nat) (bs : list Z) : DPS_TxBuffer :=
  tx_app b (cbor_head CBOR_BYTES (Z.of_nat hint) ++ bs).

Lemma CBOR_StartWrapBytes_spec b hint :
  tx_wf b -> Z.of_nat hint < 2 ^ 32 ->
  tx_fits b (length (cbor_head CBOR_BYTES (Z.of_nat hint)) + hint) ->
  CBOR_StartWrapBytes b hint = Some (DPS_OK, wrapped b hint [], tx_pos b).
Proof.
  intros Hwf Hh Hf. unfold CBOR_StartWrapBytes, CBOR_ReserveBytes, wrapped.
  rewrite u32_small, app_nil_r by lia.
  assert (tx_fits b (length (cbor_head CBOR_BYTES (Z.of_nat hint)))) as Hf1.
  { unfold tx_fits in *. lia. }
  rewrite EncodeUint_spec by (done || major || lia). rewrite decide_True by done.
  cbn [mbind option_bind]. change (is_OK DPS_OK) with true. cbv iota.
  assert (tx_wf (tx_app b (cbor_head CBOR_BYTES (Z.of_nat hint)))) as Hwf'.
  { apply tx_app_wf; [done..|]. apply cbor_head_bytes; (major || lia). }
  destruct (Z.ltb_spec (DPS_TxBufferSpace (tx_app b (cbor_head CBOR_BYTES (Z.of_nat hint))))
              (Z.of_nat hint)); [|done].
  exfalso. rewrite DPS_TxBufferSpace_spec in * by done. unfold tx_space in *.
  rewrite tx_app_length, tx_app_pos in * by done. unfold tx_fits in Hf. lia.
Qed.

Section EndWrap.
Context (b : DPS_TxBuffer) (hint : nat) (bs : list Z).
Hypothesis Hwf : tx_wf b.
Hypothesis Hhint : Z.of_nat hint < 2 ^ 32.
Hypothesis Hbytes : Forall is_byte bs.

Let h0 := cbor_head CBOR_BYTES (Z.of_nat hint).
Let h := cbor_head CBOR_BYTES (Z.of_nat (length bs)).
Let w := wrapped b hint bs.

Hypothesis Hfits : tx_fits b (length h0 + length bs).

Lemma wrapped_wf : tx_wf w.
Proof.
  apply tx_app_wf; [done|by rewrite length_app|].
  apply Forall_app_2; [|done]. apply cbor_head_bytes; (major || lia).
Qed.

Lemma wrapped_drop : drop (tx_pos b) (tx_mem w) =
  h0 ++ bs ++ drop (tx_pos b + length h0 + length bs) (tx_mem b).
Proof.
  unfold w, wrapped, tx_app; simpl. fold h0. destruct Hwf as (? & _).
  rewrite drop_app_length' by (rewrite length_take; lia).
  rewrite <- app_assoc, length_app. do 3 f_equal. lia.
Qed.

Lemma wrapped_take : take (tx_pos b) (tx_mem w) = tx_written b.
Proof.
  unfold w, wrapped, tx_app; simpl. destruct Hwf as (? & _).
  rewrite take_app_length'; [done|]. rewrite length_take. lia.
Qed.

Lemma wrapped_length : length (tx_mem w) = length (tx_mem b).
Proof. unfold w, wrapped. apply tx_app_length. rewrite length_app. exact Hfits. Qed.

Lemma wrapped_pos : tx_pos w = (tx_pos b + length h0 + length bs)%nat.
Proof. unfold w, wrapped. rewrite tx_app_pos, length_app. fold h0. lia. Qed.

Lemma wrapped_head n0 :
  DecodeUint (DPS_RxBufferInit (drop (tx_pos b) (tx_mem w)) CBOR_MAX_LENGTH).2 n0 CBOR_BYTES =
    Some (DPS_OK, Z.of_nat hint,
          rx_skip (mkRx (drop (tx_pos b) (tx_mem w)) 9 0) (length h0)).
Proof.
  unfold DecodeUint. pose proof (cbor_head_length CBOR_BYTES (Z.of_nat hint)) as Hl.
  pose proof (Requires_cases (Z.of_nat hint)). fold h0 in Hl.
  cbn [DPS_RxBufferInit snd]. rewrite decide_False by done.
  rewrite (PeekUint_head _ CBOR_BYTES (Z.of_nat hint)); [|major|lia| |].
  - cbn [mbind option_bind]. by rewrite <- (cbor_head_sizeof CBOR_BYTES), Nat2Z.id.
  - fold h0. change (DPS_RxBufferAvail _) with 9. lia.
  - intros i x Hi. unfold rx_peek, mem_get. cbn [rx_mem rx_pos Nat.add].
    rewrite wrapped_drop. by apply lookup_app_l_Some.
Qed.

Lemma Requires_head_length : Z.of_nat (length h) = Requires (Z.of_nat (length bs)) + 1 /\
  Z.of_nat (length h0) = Requires (Z.of_nat hint) + 1.
Proof. split; apply cbor_head_length. Qed.

(** The call up to the final [CBOR_ReserveBytes]. *)
Lemma EndWrap_unfold :
  CBOR_EndWrapBytes w (tx_pos b) =
    '(moved, buffer) ←
      (if negb (length h =? length h0)%nat && negb (length bs =? 0)%nat then
         '(ok, mem') ← memmove_s (tx_mem w) (tx_pos b + length h)
                         (DPS_TxBufferSpace (tx_set_pos w (tx_pos b + length h - 1)))
                         (tx_pos b + length h0) (length bs);
         Some (ok, mkTx mem' (tx_pos b + length h - 1))
       else Some (true, w));
    if negb moved then Some (DPS_ERR_RESOURCES, buffer)
    else '(ret, buffer, _) ← CBOR_ReserveBytes (tx_set_pos buffer (tx_pos b)) (length bs) None;
         Some (ret, buffer).
Proof.
  destruct Requires_head_length as [Hl Hl0].
  pose proof (Requires_cases (Z.of_nat (length bs))).
  pose proof (Requires_cases (Z.of_nat hint)).
  unfold CBOR_EndWrapBytes. rewrite (surjective_pairing (DPS_RxBufferInit _ _)).
  rewrite (wrapped_head 0). cbn [mbind option_bind].
  change (negb (is_OK DPS_OK)) with false. cbv iota zeta. cbn [rx_skip rx_set_pos rx_pos Nat.add].
  replace (tx_pos w - (tx_pos b + length h0))%nat with (length bs)
    by (rewrite wrapped_pos; lia).
  replace (Requires (Z.of_nat (length bs)) - Requires (Z.of_nat hint) =? 0)
    with (length h =? length h0)%nat
    by (destruct (Nat.eqb_spec (length h) (length h0)), (Z.eqb_spec
          (Requires (Z.of_nat (length bs)) - Requires (Z.of_nat hint)) 0); done || lia).
  replace (Z.to_nat (Z.of_nat (tx_pos b + length h0) +
            (Requires (Z.of_nat (length bs)) - Requires (Z.of_nat hint))))
    with (tx_pos b + length h)%nat by lia.
  replace (tx_pos b + Z.to_nat (Requires (Z.of_nat (length bs))))%nat
    with (tx_pos b + length h - 1)%nat by lia.
  done.
Qed.

(** The final [CBOR_ReserveBytes], once the payload is behind its head. *)
Lemma EndWrap_finish mem pos rest :
  Forall is_byte mem -> length mem = length (tx_mem b) ->
  take (tx_pos b) mem = tx_written b ->
  drop (tx_pos b + length h) mem = bs ++ rest ->
  (tx_pos b + length h <= length mem)%nat ->
  exists b', ('(ret, buffer, _) ←
      CBOR_ReserveBytes (tx_set_pos (mkTx mem pos) (tx_pos b)) (length bs) None;
    Some (ret, buffer)) = Some (DPS_OK, b') /\
    tx_written b' = tx_written b ++ h ++ bs /\ length (tx_mem b') = length (tx_mem b) /\ tx_wf b'.
Proof.
  intros Hb Hl Ht Hd Hp. destruct Hwf as (? & ? & _).
  destruct (ReserveBytes_over mem (tx_pos b) bs rest) as (b' & ptr & Hr & Hw & Hm & Hwf');
    [unfold tx_wf; simpl; split_and!; (done || lia)|done|done|].
  unfold tx_set_pos; simpl. rewrite Hr. cbn [mbind option_bind].
  eexists. split; [done|]. split; [by rewrite Hw, Ht|]. split; [congruence|done].
Qed.

(** The size [memmove_s] is told: from one byte before the destination. *)
Lemma moved_space :
  (tx_pos b + length h <= S (length (tx_mem b)))%nat ->
  DPS_TxBufferSpace (tx_set_pos w (tx_pos b + length h - 1)) =
    Z.of_nat (length (tx_mem b)) - Z.of_nat (tx_pos b + length h) + 1.
Proof.
  intros Hp. destruct Requires_head_length as [Hl _].
  pose proof (Requires_cases (Z.of_nat (length bs))). destruct Hwf as (? & ? & _).
  unfold DPS_TxBufferSpace, tx_eob, tx_set_pos. cbn [tx_mem tx_pos].
  rewrite wrapped_length. rewrite u32_small by lia. lia.
Qed.

(** Whenever the result fits, it is what [CBOR_EncodeBytes] would have written. *)
Lemma EndWrap_ok :
  tx_fits b (length h + length bs) ->
  exists b', CBOR_EndWrapBytes w (tx_pos b) = Some (DPS_OK, b') /\
    tx_written b' = tx_written b ++ h ++ bs /\ length (tx_mem b') = length (tx_mem b) /\ tx_wf b'.
Proof.
  intros Hf. rewrite EndWrap_unfold. unfold tx_fits in *.
  pose proof wrapped_wf as (Hwp & Hwl & Hwb). rewrite wrapped_length in Hwl.
  destruct Hwf as (Hp & _ & _).
  destruct (length h =? length h0)%nat eqn:Eh; [|destruct (length bs =? 0)%nat eqn:Eb].
  - apply Nat.eqb_eq in Eh. cbn [negb andb mbind option_bind].
    apply (EndWrap_finish (tx_mem w) (tx_pos w)
             (drop (tx_pos b + length h0 + length bs) (tx_mem b)));
      auto using wrapped_length, wrapped_take; [|rewrite wrapped_length; lia].
    rewrite Eh, <- drop_drop, wrapped_drop. apply drop_app_length.
  - apply Nat.eqb_eq, nil_length_inv in Eb. cbn [negb andb mbind option_bind].
    apply (EndWrap_finish (tx_mem w) (tx_pos w) (drop (tx_pos b + length h) (tx_mem w)));
      auto using wrapped_length, wrapped_take; [by rewrite Eb|rewrite wrapped_length; lia].
  - cbn [negb andb]. unfold memmove_s.
    rewrite mem_read_fits by (rewrite wrapped_length; lia).
    rewrite <- drop_drop, wrapped_drop, drop_app_length, take_app_length.
    cbn [mbind option_bind].
    rewrite memcpy_s_fits; [|rewrite moved_space; lia|rewrite wrapped_length; lia].
    cbn [mbind option_bind negb].
    apply (EndWrap_finish _ _ (drop (tx_pos b + length h + length bs) (tx_mem w))).
    + repeat apply Forall_app_2; auto using Forall_take, Forall_drop.
    + rewrite !length_app, length_take, length_drop, wrapped_length. lia.
    + rewrite take_app_le by (rewrite length_take, wrapped_length; lia).
      rewrite take_take, Nat.min_l by lia. apply wrapped_take.
    + rewrite drop_app_length'; [done|]. rewrite length_take, wrapped_length. lia.
    + rewrite !length_app, length_take, length_drop, wrapped_length. lia.
Qed.

(** One byte short: the length field grows, and the copy that makes room for
    it is checked against a space that is one byte too large. *)
Lemma EndWrap_overrun :
  (length h0 < length h)%nat -> (0 < length bs)%nat ->
  (tx_pos b + length h + length bs = S (length (tx_mem b)))%nat ->
  CBOR_EndWrapBytes w (tx_pos b) = None.
Proof.
  intros Hlt Hne Hf. rewrite EndWrap_unfold.
  destruct (Nat.eqb_spec (length h) (length h0)); [lia|].
  destruct (Nat.eqb_spec (length bs) 0); [lia|]. cbn [negb andb].
  unfold tx_fits in *. unfold memmove_s.
  rewrite mem_read_fits by (rewrite wrapped_length; lia).
  rewrite <- drop_drop, wrapped_drop, drop_app_length, take_app_length.
  cbn [mbind option_bind]. unfold memcpy_s.
  rewrite (proj2 (Z.leb_le _ _)) by (rewrite moved_space; lia).
  unfold mem_write. rewrite decide_False; [done|]. rewrite wrapped_length. lia.
Qed.
End EndWrap.
