(* ===== verification/CborMap.v ===== *)
(** * Matching the keys of a map

    What [DPS_ParseMapNext] returns on a map whose entries are data items with
    ascending 32-bit keys. *)
From S2P Require Import Prelude Status Buffer Float Cbor CborProofs CborValues.
From Stdlib Require Import Sorting.Sorted.

Definition ewire (es : list (Z * cbor)) : list Z :=
  flat_map (fun e => cbor_int e.1 ++ wire e.2) es.

Definition key_ok (k : Z) : Prop := - 2 ^ 31 <= k < 2 ^ 31.
Definition entry_ok (e : Z * cbor) : Prop := key_ok e.1 /\ cbor_ok e.2.

Lemma s32_small k : key_ok k -> s32 k = k.
Proof.
  intros [H1 H2]. unfold s32, u32. pow2s.
  destruct (Z.ltb_spec (k mod 4294967296) 2147483648); Z.div_mod_to_equations; lia.
Qed.

Lemma CBOR_DecodeInt32_spec b k k0 tl :
  rx_wf b -> key_ok k -> rx_rest b = cbor_int k ++ tl ->
  CBOR_DecodeInt32 b k0 = Some (DPS_OK, k, rx_skip b (length (cbor_int k))).
Proof.
  intros Hwf Hk E. unfold CBOR_DecodeInt32. pose proof Hk as [H1 H2].
  rewrite (CBOR_DecodeInt_spec b k 0 tl) by (done || lia). cbn [mbind option_bind].
  unfold INT32_MIN, INT32_MAX. rewrite (proj2 (Z.ltb_ge _ _)), Z.gtb_ltb, (proj2 (Z.ltb_ge _ _)) by lia.
  simpl. by rewrite s32_small.
Qed.

Lemma filter_above k (ws : list Z) : Forall (Z.lt k) ws -> filter (fun w => k < w) ws = ws.
Proof. induction 1; [done|]. rewrite filter_cons_True by done. by f_equal. Qed.

(** The inner loop drops the optional keys that are not above [k]. *)
Lemma want_loop_spec k ws :
  StronglySorted Z.lt ws ->
  want_loop k ws = (filter (fun w => k < w) ws, bool_decide (k ∈ ws)).
Proof.
  induction 1 as [|w ws Hs IH Hw]; [done|]. cbn [want_loop].
  assert (forall x, x ∈ ws -> w < x) as Hlt.
  { intros x Hx. rewrite Forall_forall in Hw. apply Hw. by apply list_elem_of_In. }
  destruct (Z.ltb_spec k w) as [Hk|Hk].
  - rewrite filter_cons_True by done. rewrite bool_decide_eq_false_2.
    + do 2 f_equal. symmetry. apply filter_above, Forall_forall. intros x Hx%list_elem_of_In.
      specialize (Hlt x Hx). lia.
    + intros [->|H]%elem_of_cons; [lia|]. specialize (Hlt k H). lia.
  - rewrite filter_cons_False by lia. destruct (Z.eqb_spec k w) as [->|Hne].
    + rewrite bool_decide_eq_true_2 by (by left). f_equal.
      symmetry. by apply filter_above.
    + rewrite IH. f_equal. apply bool_decide_ext. rewrite elem_of_cons. naive_solver.
Qed.

Lemma filter_lt_sorted k ws : StronglySorted Z.lt ws -> StronglySorted Z.lt (filter (fun w => k < w) ws).
Proof.
  induction 1 as [|w ws Hs IH Hw]; [constructor|]. rewrite filter_cons. case_decide; [|done].
  constructor; [done|]. apply Forall_forall. intros x Hx.
  apply list_elem_of_In, list_elem_of_filter in Hx as [_ Hx]. rewrite Forall_forall in Hw.
  by apply Hw, list_elem_of_In.
Qed.

Lemma filter_lt_filter (j k : Z) (ws : list Z) :
  j <= k -> filter (fun w => k < w) (filter (fun w => j < w) ws) = filter (fun w => k < w) ws.
Proof.
  intros Hjk. induction ws as [|w ws IH]; [done|]. rewrite (filter_cons (fun w => j < w)).
  case_decide; rewrite ?filter_cons, IH; repeat case_decide; (done || lia).
Qed.

(** A map being matched: [es] are the entries still to be read. *)
Record matching (m : CBOR_MapState) (es : list (Z * cbor)) (tl : list Z) : Prop := {
  mt_wf : rx_wf (ms_buffer m);
  mt_rest : rx_rest (ms_buffer m) = ewire es ++ tl;
  mt_entries : ms_entries m = Z.of_nat (length es);
  mt_ok : Forall entry_ok es;
  mt_sorted : StronglySorted Z.lt (map fst es);
  mt_needs : StronglySorted Z.lt (ms_needs m);
  mt_wants : StronglySorted Z.lt (ms_wants m)
}.

(** One iteration up to the comparison of the keys. *)
Lemma matching_key m k v es tl k0 :
  matching m ((k, v) :: es) tl ->
  CBOR_DecodeInt32 (ms_buffer m) k0 =
    Some (DPS_OK, k, rx_skip (ms_buffer m) (length (cbor_int k))).
Proof.
  intros []. apply Forall_cons_iff in mt_ok0 as [[Hk Hv] _]. simpl in *.
  apply (CBOR_DecodeInt32_spec _ _ _ (wire v ++ ewire es ++ tl)); [done|done|].
  rewrite mt_rest0. unfold ewire; simpl. by rewrite <- !app_assoc.
Qed.

Definition entry_len (e : Z * cbor) : nat := length (cbor_int e.1) + length (wire e.2).

Lemma rx_skip_value b v tl :
  rx_wf b -> cbor_ok v -> rx_rest b = wire v ++ tl ->
  exists mj sk, CBOR_Skip (skip_fuel b) b None None = Some (DPS_OK, mj, sk, rx_skip b (length (wire v))).
Proof.
  intros Hwf Hv E. eapply skips_wire; eauto. unfold skip_fuel.
  pose proof (rx_avail_nonneg b Hwf). lia.
Qed.

(** The state after an entry has been read past. *)
Definition ms_past (m : CBOR_MapState) (e : Z * cbor) (wants : list Z) : CBOR_MapState :=
  mkMapState (rx_skip (ms_buffer m) (entry_len e)) (ms_needs m) wants (ms_entries m - 1) DPS_OK.

Lemma matching_past m e es tl :
  matching m (e :: es) tl ->
  matching (ms_past m e (filter (fun w => e.1 < w) (ms_wants m))) es tl.
Proof.
  intros []. destruct e as [k v].
  assert (rx_rest (ms_buffer m) = (cbor_int k ++ wire v) ++ ewire es ++ tl) as E.
  { rewrite mt_rest0. unfold ewire; simpl. by rewrite <- !app_assoc. }
  unfold ms_past, entry_len. rewrite <- length_app. constructor; simpl.
  - by eapply rx_skip_app_wf.
  - by apply rx_rest_skip_app.
  - rewrite mt_entries0. simpl. lia.
  - by inversion mt_ok0.
  - by inversion mt_sorted0.
  - done.
  - by apply filter_lt_sorted.
Qed.

Definition ewire_len (es : list (Z * cbor)) : nat := sum_list_with entry_len es.

Lemma skip_fuel_matching m es tl :
  matching m es tl -> (length es < skip_fuel (ms_buffer m))%nat.
Proof.
  intros []. unfold skip_fuel. rewrite (rx_avail_app _ _ _ mt_wf0 mt_rest0).
  assert (length es <= length (ewire es))%nat; [|lia].
  clear. induction es as [|[k v] es IH]; [done|]. unfold ewire in *; simpl.
  rewrite !length_app. pose proof (wire_nonempty v). lia.
Qed.

(** One turn of the loop on an entry that is in neither list: it is read past. *)
Lemma ParseMapLoop_past fuel m e es tl k0 key :
  matching m (e :: es) tl -> e.1 ∉ ms_needs m -> e.1 ∉ ms_wants m ->
  (forall n, n ∈ ms_needs m -> e.1 < n) ->
  is_nil (ms_needs m) && is_nil (ms_wants m) = false ->
  ParseMapLoop (S fuel) m k0 key =
    ParseMapLoop fuel (ms_past m e (filter (fun w => e.1 < w) (ms_wants m))) e.1 key.
Proof.
  intros Hm Hn Hw Hlt Hnil. destruct e as [k v]. cbn [fst] in *. cbn [ParseMapLoop].
  rewrite Hnil. pose proof (mt_entries _ _ _ Hm) as He. simpl length in He.
  rewrite (proj2 (Z.eqb_neq (ms_entries m) 0)) by lia. cbn [orb].
  change (ms_buffer (ms_dec_entries m)) with (ms_buffer m).
  rewrite (matching_key m k v es tl) by done. cbn [mbind option_bind].
  change (negb (is_OK DPS_OK)) with false. cbv iota zeta.
  pose proof (mt_wf _ _ _ Hm) as Hwf. pose proof (mt_rest _ _ _ Hm) as E.
  pose proof (mt_ok _ _ _ Hm) as Hok. apply Forall_cons_iff in Hok as [[_ Hv] _].
  unfold ewire in E; simpl in E. rewrite <- !app_assoc in E.
  destruct (rx_skip_value (rx_skip (ms_buffer m) (length (cbor_int k))) v (ewire es ++ tl))
    as (mj & sk & Hs); [by eapply rx_skip_app_wf|done|by apply rx_rest_skip_app|].
  cbn [ms_wants ms_needs ms_set_result ms_set_buffer ms_dec_entries ms_buffer].
  rewrite want_loop_spec by apply Hm. rewrite bool_decide_eq_false_2 by done.
  cbn [ms_wants ms_needs ms_set_wants ms_set_result ms_set_buffer ms_dec_entries ms_buffer].
  rewrite Hs. cbn [mbind option_bind]. change (negb (is_OK DPS_OK)) with false. cbv iota.
  rewrite rx_skip_skip. unfold ms_past, entry_len, ms_set_result, ms_set_buffer; simpl.
  destruct (ms_needs m) as [|n ns]; [done|].
  rewrite (proj2 (Z.ltb_lt _ _)); [done|]. apply Hlt. by left.
Qed.

(** One turn of the loop on an entry that is found. *)
Lemma ParseMapLoop_found fuel m k v es tl k0 key :
  matching m ((k, v) :: es) tl ->
  (forall n, n ∈ ms_needs m -> k <= n) -> k ∈ ms_needs m \/ k ∈ ms_wants m ->
  exists wants', ParseMapLoop (S fuel) m k0 key =
    Some (mkMapState (rx_skip (ms_buffer m) (length (cbor_int k)))
            (filter (fun n => k < n) (ms_needs m)) wants' (Z.of_nat (length es)) DPS_OK, k) /\
    (wants' = ms_wants m \/ wants' = filter (fun w => k < w) (ms_wants m)).
Proof.
  intros Hm Hle Hin. cbn [ParseMapLoop]. pose proof (mt_entries _ _ _ Hm) as He. simpl length in He.
  rewrite (proj2 (Z.eqb_neq (ms_entries m) 0)) by lia.
  assert (is_nil (ms_needs m) && is_nil (ms_wants m) = false) as ->.
  { destruct (ms_needs m), (ms_wants m); try done. destruct Hin as [H|H]; by apply not_elem_of_nil in H. }
  cbn [orb]. change (ms_buffer (ms_dec_entries m)) with (ms_buffer m).
  rewrite (matching_key m k v es tl) by done. cbn [mbind option_bind].
  change (negb (is_OK DPS_OK)) with false. cbv iota zeta.
  cbn [ms_wants ms_needs ms_set_result ms_set_buffer ms_dec_entries ms_buffer].
  rewrite want_loop_spec by apply Hm.
  pose proof (mt_needs _ _ _ Hm) as Hsort. destruct m as [buf needs wants ent res]. simpl in *.
  unfold ms_set_wants, ms_set_needs, ms_set_result, ms_set_buffer, ms_dec_entries; simpl.
  replace (ent - 1) with (Z.of_nat (length es)) by lia.
  destruct needs as [|n ns].
  - destruct Hin as [H|H]; [by apply not_elem_of_nil in H|].
    rewrite bool_decide_eq_true_2 by done. eexists. split; [done|by right].
  - pose proof (Hle n ltac:(by left)) as Hkn. destruct (Z.ltb_spec k n) as [Hlt|Hge].
    + assert (k ∉ n :: ns) as Hnot.
      { inversion Hsort as [|? ? _ Hall]; subst. rewrite Forall_forall in Hall.
        intros [->|H]%elem_of_cons; [lia|]. specialize (Hall k ltac:(by apply list_elem_of_In)). lia. }
      destruct Hin as [H|H]; [done|]. rewrite bool_decide_eq_true_2 by done.
      eexists. split; [|by right]. do 3 f_equal.
      symmetry. apply filter_above, Forall_forall. intros x Hx%list_elem_of_In.
      pose proof (Hle x Hx). destruct (decide (k = x)) as [->|]; [done|lia].
    + rewrite (proj2 (Z.eqb_eq k n)) by lia. assert (k = n) as -> by lia.
      eexists. split; [|by left]. do 3 f_equal.
      rewrite filter_cons_False by lia. symmetry. apply filter_above.
      inversion Hsort; subst. done.
  Qed.

Lemma matching_sorted_head m e es tl e' :
  matching m (e :: es) tl -> e' ∈ es -> e.1 < e'.1.
Proof.
  intros [] Hin. inversion mt_sorted0 as [|? ? _ Hall]; subst. rewrite Forall_forall in Hall.
  apply Hall, in_map. by apply list_elem_of_In.
Qed.

(** Entries in neither list are read past until the first that is in one. *)
Lemma ParseMapLoop_next skipped k v rest tl key :
  forall fuel m k0, matching m (skipped ++ (k, v) :: rest) tl ->
  (length skipped < fuel)%nat ->
  Forall (fun e => (e.1 ∉ ms_needs m) /\ (e.1 ∉ ms_wants m)) skipped ->
  (forall n, n ∈ ms_needs m -> k <= n) -> k ∈ ms_needs m \/ k ∈ ms_wants m ->
  exists wants', ParseMapLoop fuel m k0 key =
    Some (mkMapState (rx_skip (ms_buffer m) (ewire_len skipped + length (cbor_int k)))
            (filter (fun n => k < n) (ms_needs m)) wants' (Z.of_nat (length rest)) DPS_OK, k) /\
    filter (fun w => k < w) wants' = filter (fun w => k < w) (ms_wants m) /\
    StronglySorted Z.lt wants'.
Proof.
  induction skipped as [|e skipped IH]; intros fuel m k0 Hm Hf Hsk Hle Hin;
    (destruct fuel as [|fuel]; [lia|]).
  - destruct (ParseMapLoop_found fuel m k v rest tl k0 key Hm Hle Hin) as (w & -> & Hw).
    pose proof (mt_wants _ _ _ Hm). eexists. split; [done|].
    destruct Hw as [-> | ->]; [done|]. split; [by apply filter_lt_filter|by apply filter_lt_sorted].
  - apply Forall_cons_iff in Hsk as [[Hn Hw] Hsk].
    assert (e.1 < k) as Hek.
    { apply (matching_sorted_head m e (skipped ++ (k, v) :: rest) tl (k, v) Hm).
      apply elem_of_app. right. by left. }
    rewrite (ParseMapLoop_past fuel m e (skipped ++ (k, v) :: rest) tl); [|done..| |].
    2:{ intros n Hin'. specialize (Hle n Hin'). lia. }
    2:{ destruct (ms_needs m), (ms_wants m); try done.
        destruct Hin as [H|H]; by apply not_elem_of_nil in H. }
    destruct (IH fuel (ms_past m e (filter (fun w => e.1 < w) (ms_wants m))) e.1)
      as (w & -> & Hw' & Hs'); cbn [ms_past ms_needs ms_wants ms_buffer] in *.
    + by apply matching_past.
    + simpl in Hf. lia.
    + eapply Forall_impl; [|exact Hsk]. intros x [Hx1 Hx2]. split; [done|].
      intros [_ ?]%list_elem_of_filter. done.
    + done.
    + destruct Hin as [H|H]; [by left|right]. apply list_elem_of_filter. done.
    + eexists. split_and!; [| |done].
      * rewrite rx_skip_skip. unfold ewire_len; simpl. by rewrite Nat.add_assoc.
      * rewrite Hw'. apply filter_lt_filter. lia.
Qed.

(** Only optional keys remain and no entry has one: every entry is read past. *)
Lemma ParseMapLoop_none es tl key :
  forall fuel m k0, matching m es tl -> (length es < fuel)%nat ->
  Forall (fun e => e.1 ∉ ms_wants m) es -> ms_needs m = [] -> ms_result m = DPS_OK ->
  exists m', ParseMapLoop fuel m k0 key = Some (m', key) /\ ms_result m' = DPS_OK /\
    ms_needs m' = [].
Proof.
  induction es as [|e es IH]; intros fuel m k0 Hm Hf Hw Hn Hr;
    (destruct fuel as [|fuel]; [lia|]).
  - cbn [ParseMapLoop]. rewrite (mt_entries _ _ _ Hm). simpl. eauto.
  - destruct (is_nil (ms_wants m)) eqn:Hnil.
    { cbn [ParseMapLoop]. rewrite Hn, Hnil, orb_true_r. eauto. }
    apply Forall_cons_iff in Hw as [Hw Hws].
    rewrite (ParseMapLoop_past fuel m e es tl); [|done|rewrite Hn; by apply not_elem_of_nil|done| |].
    2:{ rewrite Hn. intros n H. by apply not_elem_of_nil in H. }
    2:{ by rewrite Hnil, andb_false_r. }
    destruct (IH fuel (ms_past m e (filter (fun w => e.1 < w) (ms_wants m))) e.1)
      as (m' & -> & ? & ?); eauto; cbn [ms_past ms_wants] in *.
    + by apply matching_past.
    + simpl in Hf. lia.
    + eapply Forall_impl; [|exact Hws]. intros x Hx [_ ?]%list_elem_of_filter. done.
Qed.

(** ** A caller that reads the keys it asked for

    The loop around [DPS_ParseMapNext] of the packet decoders, with
    [CBOR_Skip] in the place of decoding the value. *)
Fixpoint read_keys (n : nat) (m : CBOR_MapState) : option (DPS_Status * list Z * CBOR_MapState) :=
  match n with
  | O => Some (DPS_OK, [], m)
  | S n =>
      '(ret, m, k) ← DPS_ParseMapNext m 0;
      if negb (is_OK ret) then Some (ret, [], m)
      else
        '(ret, _, _, b) ← CBOR_Skip (skip_fuel (ms_buffer m)) (ms_buffer m) None None;
        if negb (is_OK ret) then Some (ret, [], m)
        else
          '(ret, ks, m) ← read_keys n (ms_set_buffer m b); Some (ret, k :: ks, m)
  end.

(** The keys of the entries that are asked for. *)
Definition asked (m : CBOR_MapState) (es : list (Z * cbor)) : list Z :=
  filter (fun k => k ∈ ms_needs m \/ k ∈ ms_wants m) (map fst es).

(** The entries up to the first that is asked for. *)
Lemma asked_split m es k ks :
  asked m es = k :: ks ->
  exists skipped v rest, es = skipped ++ (k, v) :: rest /\
    Forall (fun e => (e.1 ∉ ms_needs m) /\ (e.1 ∉ ms_wants m)) skipped /\
    (k ∈ ms_needs m \/ k ∈ ms_wants m) /\ asked m rest = ks.
Proof.
  unfold asked. revert k ks. induction es as [|[j v] es IH]; intros k ks; cbn [map fst].
  - rewrite filter_nil. done.
  - destruct (decide (j ∈ ms_needs m \/ j ∈ ms_wants m)) as [Hj|Hj].
    + rewrite filter_cons_True by done. intros [= -> <-].
      exists [], v, es. split_and!; (done || constructor).
    + rewrite filter_cons_False by done. intros E.
      destruct (IH _ _ E) as (sk & v' & rest & -> & Hsk & Hk & Hr).
      exists ((j, v) :: sk), v', rest. split_and!; [done| |done..].
      constructor; [|done]. simpl. tauto.
Qed.

Lemma ewire_len_spec es : ewire_len es = length (ewire es).
Proof.
  induction es as [|[k v] es IH]; [done|]. unfold ewire_len, ewire in *; simpl.
  rewrite IH, !length_app. unfold entry_len. simpl. lia.
Qed.

(** The position after the key of an entry. *)
Lemma matching_at_value m skipped k v rest tl :
  matching m (skipped ++ (k, v) :: rest) tl ->
  let b' := rx_skip (ms_buffer m) (ewire_len skipped + length (cbor_int k)) in
  rx_wf b' /\ rx_rest b' = wire v ++ ewire rest ++ tl /\ cbor_ok v.
Proof.
  intros [Hwf Hr _ Hok _ _ _] b'.
  assert (rx_rest (ms_buffer m) = (ewire skipped ++ cbor_int k) ++ wire v ++ ewire rest ++ tl) as E.
  { rewrite Hr. unfold ewire. rewrite flat_map_app. cbn [flat_map fst snd].
    by rewrite <- !app_assoc. }
  unfold b'. rewrite ewire_len_spec, <- length_app.
  apply Forall_app in Hok as [_ [[_ ?] _]%Forall_cons_iff].
  split_and!; [by eapply rx_skip_app_wf|by apply rx_rest_skip_app|done].
Qed.

(** One call of [DPS_ParseMapNext] and the value after it. *)
Lemma ParseMapNext_step m skipped k v rest tl key :
  ms_result m = DPS_OK -> matching m (skipped ++ (k, v) :: rest) tl ->
  Forall (fun e => (e.1 ∉ ms_needs m) /\ (e.1 ∉ ms_wants m)) skipped ->
  k ∈ ms_needs m \/ k ∈ ms_wants m ->
  Forall (fun n => n ∈ k :: map fst rest) (ms_needs m) ->
  exists m', DPS_ParseMapNext m key = Some (DPS_OK, m', k) /\ ms_result m' = DPS_OK /\
    rx_wf (ms_buffer m') /\ rx_rest (ms_buffer m') = wire v ++ ewire rest ++ tl /\
    ms_needs m' = filter (fun n => k < n) (ms_needs m) /\
    filter (fun w => k < w) (ms_wants m') = filter (fun w => k < w) (ms_wants m) /\
    matching (ms_set_buffer m' (rx_skip (ms_buffer m') (length (wire v)))) rest tl /\
    rx_mem (ms_buffer m') = rx_mem (ms_buffer m) /\ rx_eod (ms_buffer m') = rx_eod (ms_buffer m).
Proof.
  intros Hr Hm Hsk Hin Hneeds. pose proof (matching_at_value m skipped k v rest tl Hm) as (Hwf' & Hr' & Hv).
  assert (Hsort : StronglySorted Z.lt (k :: map fst rest)).
  { pose proof (mt_sorted _ _ _ Hm) as Hs. rewrite map_app in Hs. cbn [map fst] in Hs.
    clear -Hs. induction (map fst skipped); [done|]. inversion Hs; subst. auto. }
  assert (Hle : forall n, n ∈ ms_needs m -> k <= n).
  { intros n Hn. rewrite List.Forall_forall in Hneeds. apply list_elem_of_In, Hneeds, elem_of_cons in Hn.
    inversion Hsort as [|? ? _ Hall]; subst. destruct Hn as [->|Hn]; [lia|].
    rewrite List.Forall_forall in Hall. apply list_elem_of_In, Hall in Hn. lia. }
  unfold DPS_ParseMapNext. rewrite Hr. change (negb (is_OK DPS_OK)) with false. cbv iota zeta.
  destruct (ParseMapLoop_next skipped k v rest tl key (skip_fuel (ms_buffer m))
              (ms_set_result m DPS_ERR_MISSING) 0) as (w & E & Hw & Hs);
    [destruct Hm; by constructor| |done..|].
  { pose proof (skip_fuel_matching _ _ _ Hm) as Hf. rewrite length_app in Hf. lia. }
  cbn [ms_set_result ms_buffer ms_needs ms_wants] in E, Hw.
  change (ms_buffer (ms_set_result m DPS_ERR_MISSING)) with (ms_buffer m).
  rewrite E. cbn [mbind option_bind ms_result ms_needs ms_entries].
  change (negb (is_OK DPS_OK)) with false. cbv iota.
  assert (negb (is_nil (filter (fun n => k < n) (ms_needs m))) && (Z.of_nat (length rest) =? 0) = false) as ->.
  { destruct rest; [|by rewrite andb_false_r]. apply andb_false_iff. left.
    destruct (filter (fun n => k < n) (ms_needs m)) as [|n ns] eqn:Ef; [done|].
    assert (n ∈ filter (fun n => k < n) (ms_needs m)) as [Hn1 Hn2]%list_elem_of_filter by (rewrite Ef; by left).
    rewrite List.Forall_forall in Hneeds. apply list_elem_of_In, Hneeds, list_elem_of_singleton in Hn2.
    lia. }
  cbv iota zeta. eexists. split_and!; [done|done|exact Hwf'|exact Hr'|done|exact Hw| |done|done].
  destruct Hm.
  constructor; cbn [ms_set_buffer ms_buffer ms_needs ms_wants ms_entries]; try done.
  - by eapply rx_skip_app_wf.
  - by eapply rx_rest_skip_app.
  - apply Forall_app in mt_ok0 as [_ [_ ?]%Forall_cons_iff]. done.
  - by inversion Hsort.
  - by apply filter_lt_sorted.
Qed.

(** Later keys are asked for after the call exactly when they were before. *)
Lemma asked_later m m' k (rest : list (Z * cbor)) :
  Forall (fun j => k < j) (map fst rest) ->
  ms_needs m' = filter (fun n => k < n) (ms_needs m) ->
  filter (fun w => k < w) (ms_wants m') = filter (fun w => k < w) (ms_wants m) ->
  asked m' rest = asked m rest.
Proof.
  intros Hall Hn Hw. unfold asked. induction Hall as [|j l Hj _ IH]; [done|].
  assert (forall P Q : list Z, filter (fun w => k < w) P = filter (fun w => k < w) Q ->
            j ∈ P <-> j ∈ Q) as Hf.
  { intros P Q E. split; intros Hin; apply (list_elem_of_filter (fun w => k < w)); try rewrite E;
      [rewrite <- E|]; apply list_elem_of_filter; done. }
  assert (j ∈ ms_needs m' <-> j ∈ ms_needs m) as H1.
  { rewrite Hn, list_elem_of_filter. tauto. }
  pose proof (Hf _ _ Hw) as H2.
  destruct (decide (j ∈ ms_needs m \/ j ∈ ms_wants m)).
  - rewrite !filter_cons_True by tauto. by rewrite IH.
  - rewrite !filter_cons_False by tauto. done.
Qed.

(** The caller gets exactly the keys it asked for, in the order of the map. *)
Lemma read_keys_spec ks :
  forall m es tl, ms_result m = DPS_OK -> matching m es tl ->
  Forall (fun n => n ∈ map fst es) (ms_needs m) -> asked m es = ks ->
  exists m' rest, read_keys (length ks) m = Some (DPS_OK, ks, m') /\
    matching m' rest tl /\ ms_result m' = DPS_OK /\ ms_needs m' = [] /\ asked m' rest = [].
Proof.
  induction ks as [|k ks IH]; intros m es tl Hr Hm Hn Ha; cbn [length read_keys].
  - exists m, es. split_and!; [done..| |done].
    destruct (ms_needs m) as [|n ns] eqn:E; [done|]. apply Forall_cons_iff in Hn as [Hn _].
    assert (n ∈ asked m es) as Hin by (apply list_elem_of_filter; rewrite E; split; [left; by left|done]).
    rewrite Ha in Hin. by apply not_elem_of_nil in Hin.
  - destruct (asked_split _ _ _ _ Ha) as (skipped & v & rest & -> & Hsk & Hk & Hrest).
    assert (Hn' : Forall (fun n => n ∈ k :: map fst rest) (ms_needs m)).
    { rewrite List.Forall_forall in *. intros n Hin. specialize (Hn n Hin).
      rewrite map_app in Hn. apply elem_of_app in Hn as [Hn|Hn]; [|done].
      apply list_elem_of_In, in_map_iff in Hn as (e & <- & He). apply Hsk in He.
      destruct He as [He _]. destruct He. by apply list_elem_of_In. }
    destruct (ParseMapNext_step m skipped k v rest tl 0 Hr Hm Hsk Hk Hn')
      as (m' & -> & Hr' & Hwf' & Hrest' & Hneeds & Hwants & Hm' & _).
    cbn [mbind option_bind]. change (negb (is_OK DPS_OK)) with false. cbv iota.
    assert (cbor_ok v) by (by destruct (matching_at_value _ _ _ _ _ _ Hm) as (_ & _ & ?)).
    destruct (rx_skip_value (ms_buffer m') v (ewire rest ++ tl)) as (mj & sk & ->); [done..|].
    cbn [mbind option_bind]. change (negb (is_OK DPS_OK)) with false. cbv iota.
    set (m2 := ms_set_buffer m' (rx_skip (ms_buffer m') (length (wire v)))) in *.
    assert (Hs : Forall (fun j => k < j) (map fst rest)).
    { pose proof (mt_sorted _ _ _ Hm) as Hs. rewrite map_app in Hs. cbn [map fst] in Hs.
      clear -Hs. induction (map fst skipped); inversion Hs; subst; auto. }
    destruct (IH m2 rest tl) as (m3 & rest3 & -> & ?); [done|done| | |].
    + change (ms_needs m2) with (ms_needs m'). rewrite Hneeds.
      rewrite List.Forall_forall in *. intros n [Hlt Hin]%list_elem_of_In%list_elem_of_filter.
      apply list_elem_of_In, Hn', elem_of_cons in Hin as [->|?]; [lia|done].
    + rewrite <- Hrest. by apply (asked_later m m2 k rest).
    + by exists m3, rest3.
Qed.
