(* ===== verification/CborTheorems.v ===== *)
(** * The correctness theorems of the CBOR codec ([src/cbor.c])

    Encoders and decoders are inverse to each other, decoding any input is
    memory safe, wrapping is the same as encoding a byte string, and matching
    the keys of a map returns the next key the caller asked for. *)
From S2P Require Import Prelude Status Buffer Float Cbor CborProofs CborValues CborWrap CborMap.
From Stdlib Require Import Sorting.Sorted.

(** The bytes appended to [b], as a reader of the finished buffer sees them. *)
Definition reread (b b' : DPS_TxBuffer) : DPS_RxBuffer :=
  rx_set_pos (DPS_TxBufferToRx b') (tx_pos b).

Lemma reread_rest b bs :
  tx_wf b -> tx_fits b (length bs) -> rx_rest (reread b (tx_app b bs)) = bs.
Proof.
  intros (? & _) Hf. unfold reread, rx_rest, tx_fits in *. cbn.
  rewrite drop_app_length' by (rewrite length_take; lia).
  replace (tx_pos b + length bs - tx_pos b)%nat with (length bs) by lia.
  apply take_app_length.
Qed.

Lemma reread_wf b bs :
  tx_wf b -> tx_fits b (length bs) -> Forall is_byte bs -> rx_wf (reread b (tx_app b bs)).
Proof.
  intros Hwf Hf Hbs. destruct (tx_app_wf b bs Hwf Hf Hbs) as (H1 & H2 & H3).
  unfold rx_wf, reread. cbn in *. split_and!; try done; lia.
Qed.

Lemma reread_rest_nil b bs :
  tx_wf b -> tx_fits b (length bs) -> rx_rest (reread b (tx_app b bs)) = bs ++ [].
Proof. intros. rewrite app_nil_r. by apply reread_rest. Qed.

#[local] Hint Resolve reread_wf reread_rest_nil : dps.

Lemma enc_spec_fail b bs r :
  enc_spec b bs r -> ~ tx_fits b (length bs) -> exists b', r = Some (DPS_ERR_OVERFLOW, b') /\
    take (tx_pos b) (tx_mem b') = tx_written b.
Proof. unfold enc_spec. case_decide; [done|]. intros (b' & ? & _ & ?) _. by exists b'. Qed.

Ltac witness_wf := unfold tx_wf, rx_wf; simpl; split_and!; (done || lia || (repeat constructor; unfold is_byte; lia)).

(** ** Round trips *)

(** A tag and an item, written one after the other: skipping stops between
    them. *)
Lemma tagged_skip b v t :
  tx_wf b -> cbor_ok v -> 0 <= t < 2 ^ 64 -> let h := cbor_head CBOR_TAG t in
  tx_fits b (length h + length (wire v)) ->
  exists b1 b2 mj sk, CBOR_EncodeTag b t = Some (DPS_OK, b1) /\
    enc_value v b1 = Some (DPS_OK, b2) /\
    tx_written b2 = tx_written b ++ h ++ wire v /\
    CBOR_Skip (skip_fuel (reread b b2)) (reread b b2) None None =
      Some (DPS_OK, mj, sk, rx_skip (reread b b2) (length h)) /\
    rx_rest (rx_skip (reread b b2) (length h)) = wire v.
Proof.
  intros Hwf Hok Ht h Hf. pose proof (wire_bytes v Hok) as Hv.
  assert (Hh : Forall is_byte h) by (apply cbor_head_bytes; [major|lia]).
  assert (Hf1 : tx_fits b (length h)) by (unfold tx_fits in *; lia).
  assert (Hw1 : tx_wf (tx_app b h)) by (by apply tx_app_wf).
  assert (Hf2 : tx_fits (tx_app b h) (length (wire v))) by (by apply tx_app_fits).
  pose proof (enc_spec_ok _ _ _ (EncodeUint_enc b t CBOR_TAG Hwf ltac:(major) Ht) Hf1) as E1.
  pose proof (enc_spec_ok _ _ _ (enc_value_enc v Hok _ Hw1) Hf2) as E2.
  rewrite tx_app_app in E2 by (done || by rewrite length_app).
  assert (Hf3 : tx_fits b (length (h ++ wire v))) by (by rewrite length_app).
  assert (Hrest : rx_rest (reread b (tx_app b (h ++ wire v))) = h ++ wire v) by (by apply reread_rest).
  assert (Hrw : rx_wf (reread b (tx_app b (h ++ wire v)))) by (apply reread_wf; auto using Forall_app_2).
  destruct (skips_scalar CBOR_TAG t (Z.to_nat (DPS_RxBufferAvail (reread b (tx_app b (h ++ wire v)))))
              ltac:(lia) ltac:(major) eq_refl _ (wire v) None None Hrw Hrest) as (mj & sk & Hs).
  { pose proof (rx_avail_nonneg _ Hrw). lia. }
  exists (tx_app b h), (tx_app b (h ++ wire v)), mj, sk.
  split_and!; [exact E1|exact E2|by apply tx_app_written|exact Hs|].
  rewrite rx_skip_rest, Hrest. apply drop_app_length.
Qed.

(** C23: writing any untagged data item (integers, strings, floats, booleans,
    null, nested arrays and maps) with the encoders either appends exactly its
    RFC 7049 encoding, which [CBOR_Skip] then skips to its last byte, or reports
    an overflow when it does not fit and leaves what was written before. The
    same item after a tag, for which RFC 7049 has one data item, is written as
    well, but [CBOR_Skip] skips only the head of the tag and leaves the item. *)
Theorem enc_value_skip v b :
  tx_wf b -> cbor_ok v ->
  (tx_fits b (length (wire v)) ->
     exists b' mj sk, enc_value v b = Some (DPS_OK, b') /\
       tx_written b' = tx_written b ++ wire v /\
       CBOR_Skip (skip_fuel (reread b b')) (reread b b') None None =
         Some (DPS_OK, mj, sk, rx_skip (reread b b') (length (wire v))) /\
       rx_rest (rx_skip (reread b b') (length (wire v))) = []) /\
  (~ tx_fits b (length (wire v)) ->
     exists b', enc_value v b = Some (DPS_ERR_OVERFLOW, b') /\
       take (tx_pos b) (tx_mem b') = tx_written b) /\
  (forall t, 0 <= t < 2 ^ 64 -> let h := cbor_head CBOR_TAG t in
     tx_fits b (length h + length (wire v)) ->
     exists b1 b2 mj sk, CBOR_EncodeTag b t = Some (DPS_OK, b1) /\
       enc_value v b1 = Some (DPS_OK, b2) /\
       tx_written b2 = tx_written b ++ h ++ wire v /\
       CBOR_Skip (skip_fuel (reread b b2)) (reread b b2) None None =
         Some (DPS_OK, mj, sk, rx_skip (reread b b2) (length h)) /\
       rx_rest (rx_skip (reread b b2) (length h)) = wire v).
Proof.
  intros Hwf Hok. pose proof (enc_value_enc v Hok b Hwf) as He. pose proof (wire_bytes v Hok).
  split_and!; [|by apply enc_spec_fail|].
  2:{ intros t Ht h Hf. by apply tagged_skip. }
  intros Hf. rewrite (enc_spec_ok _ _ _ He Hf).
  destruct (rx_skip_value (reread b (tx_app b (wire v))) v []) as (mj & sk & Hs);
    [auto with dps..|]. eexists _, mj, sk. split_and!; [done|by apply tx_app_written|done|].
  rewrite rx_skip_rest. rewrite reread_rest by done. apply drop_all.
Qed.

Lemma enc_value_skip_witness :
  let v := CMap [(CInt 1, CArray [CInt (-70000); CString [104; 105]; CBool true])] in
  let b := mkTx (replicate 32 0) 4 in
  exists b' mj sk, enc_value v b = Some (DPS_OK, b') /\
       tx_written b' = tx_written b ++ wire v /\
       CBOR_Skip (skip_fuel (reread b b')) (reread b b') None None =
         Some (DPS_OK, mj, sk, rx_skip (reread b b') (length (wire v))) /\
       rx_rest (rx_skip (reread b b') (length (wire v))) = [].
Proof.
  intros v b. apply (enc_value_skip v b).
  - witness_wf.
  - cbn. unfold is_byte. split_and!; try lia. repeat constructor; lia.
  - vm_compute. lia.
Defined.

(** The tag 24 of a data item that is skipped without the item. *)
Example tag_not_item :
  CBOR_Skip 10 (mkRx (cbor_head CBOR_TAG 24 ++ wire (CBytes [1; 2])) 5 0) None None =
    Some (DPS_OK, None, None, mkRx [0xD8; 24; 0x42; 1; 2] 5 2).
Proof. vm_compute. reflexivity. Qed.

(** C24: a 64-bit signed integer is decoded to the value that was encoded,
    consuming exactly its bytes; the 32-bit decoder returns it when it is in
    the range of [int32_t] and the error RANGE otherwise. *)
Theorem int_roundtrip b i i0 :
  tx_wf b -> - 2 ^ 63 <= i < 2 ^ 63 -> tx_fits b (length (cbor_int i)) ->
  exists b' r, CBOR_EncodeInt b i = Some (DPS_OK, b') /\
    tx_written b' = tx_written b ++ cbor_int i /\
    rx_rest r = [] /\
    CBOR_DecodeInt (reread b b') i0 = Some (DPS_OK, i, r) /\
    CBOR_DecodeInt32 (reread b b') i0 =
      Some (if (INT32_MIN <=? i) && (i <=? INT32_MAX) then (DPS_OK, i, r)
            else (DPS_ERR_RANGE, i0, r)).
Proof.
  intros Hwf Hi Hf. assert (Hb : Forall is_byte (cbor_int i)) by (by apply (wire_bytes (CInt i))).
  pose proof (enc_spec_ok _ _ _ (CBOR_EncodeInt_enc b i Hwf Hi) Hf) as ->.
  eexists _, _. split_and!; [done|by apply tx_app_written| |
    apply (CBOR_DecodeInt_spec _ i i0 []); auto with dps|].
  { rewrite rx_skip_rest, reread_rest by done. apply drop_all. }
  unfold CBOR_DecodeInt32. erewrite CBOR_DecodeInt_spec by eauto with dps.
  cbn [mbind option_bind]. change (is_OK DPS_OK) with true. cbn [andb].
  unfold INT32_MIN, INT32_MAX. rewrite Z.gtb_ltb.
  destruct (Z.leb_spec (-2147483648) i), (Z.leb_spec i 2147483647),
    (Z.ltb_spec i (-2147483648)), (Z.ltb_spec 2147483647 i); cbn [andb orb]; try done; try lia.
  rewrite s32_small; [done|]. unfold key_ok. pow2s. lia.
Qed.

Lemma int_roundtrip_witness :
  exists b' r, CBOR_EncodeInt (mkTx (replicate 9 7) 2) (-70000) = Some (DPS_OK, b') /\
    tx_written b' = [7; 7] ++ cbor_int (-70000) /\
    rx_rest r = [] /\
    CBOR_DecodeInt (reread (mkTx (replicate 9 7) 2) b') 5 = Some (DPS_OK, -70000, r) /\
    CBOR_DecodeInt32 (reread (mkTx (replicate 9 7) 2) b') 5 = Some (DPS_OK, -70000, r).
Proof.
  apply (int_roundtrip (mkTx (replicate 9 7) 2) (-70000) 5); [witness_wf|lia|vm_compute; lia].
Defined.

(** A head of major type [maj] with a payload, written and read back. *)
Lemma payload_reread b maj bs :
  tx_wf b -> is_major maj -> Forall is_byte bs -> tx_fits b (9 + length bs) ->
  let w := cbor_head maj (Z.of_nat (length bs)) ++ bs in
  let r := reread b (tx_app b w) in
  tx_fits b (length w) /\ rx_wf r /\
  rx_rest r = cbor_head maj (Z.of_nat (length bs)) ++ bs ++ [] /\
  rx_rest (rx_skip r (length w)) = [].
Proof.
  intros Hwf Hm Hb Hf w r.
  assert (Hl : (length (cbor_head maj (Z.of_nat (length bs))) <= 9)%nat).
  { pose proof (cbor_head_length maj (Z.of_nat (length bs))).
    pose proof (Requires_cases (Z.of_nat (length bs))). lia. }
  assert (Hf' : tx_fits b (length w)).
  { unfold tx_fits, w in *. rewrite length_app. lia. }
  assert (Hw : Forall is_byte w).
  { apply Forall_app_2; [|done]. apply cbor_head_bytes; [done|lia]. }
  split_and!; [done|by apply reread_wf| |].
  - unfold r. rewrite reread_rest by done. unfold w. by rewrite app_nil_r.
  - unfold r. rewrite rx_skip_rest, reread_rest by done. apply drop_all.
Qed.

(** The pointer a string decoder returns. *)
Definition points_to (r : DPS_RxBuffer) (p : option nat) (bs : list Z) : Prop :=
  (p = None <-> bs = []) /\ forall q, p = Some q -> mem_read (rx_mem r) q (length bs) = Some bs.

Lemma decoded_points_to b h bs n :
  rx_wf b -> rx_rest b = h ++ bs ++ [] ->
  points_to (rx_skip b n) (if decide (bs = []) then None else Some (rx_pos b + length h)%nat) bs.
Proof.
  intros Hwf Hr. split; [case_decide; split; (done || congruence)|].
  intros q. case_decide; [done|]. intros [= <-]. apply (rx_read_payload b h bs [] Hwf Hr).
Qed.

(** byte strings, text strings and UUIDs are decoded to a pointer to
    exactly the bytes that were encoded (a null pointer for the empty string)
    and their length, and nothing of the buffer is left. *)
Theorem bytes_roundtrip b bs p0 n0 :
  tx_wf b -> Z.of_nat (length bs) < 2 ^ 32 -> Forall is_byte bs -> tx_fits b (9 + length bs) ->
  (exists b' p r, CBOR_EncodeBytes b (Some bs) (length bs) = Some (DPS_OK, b') /\
     CBOR_DecodeBytes (reread b b') = Some (DPS_OK, p, Z.of_nat (length bs), r) /\
     rx_rest r = [] /\ points_to r p bs) /\
  (exists b' p r, CBOR_EncodeStringAndLength b (Some bs) (length bs) = Some (DPS_OK, b') /\
     CBOR_DecodeString (reread b b') p0 n0 = Some (DPS_OK, p, Z.of_nat (length bs), r) /\
     rx_rest r = [] /\ points_to r p bs) /\
  (length bs = 16%nat -> exists b' r, CBOR_EncodeUUID b bs = Some (DPS_OK, b') /\
     CBOR_DecodeUUID (reread b b') bs = Some (DPS_OK, bs, r) /\ rx_rest r = []).
Proof.
  intros Hwf Hl Hb Hf.
  destruct (payload_reread b CBOR_BYTES bs) as (Hf1 & Hw1 & Hr1 & Hd1); [done|major|done|done|].
  destruct (payload_reread b CBOR_STRING bs) as (Hf2 & Hw2 & Hr2 & Hd2); [done|major|done|done|].
  pose proof (enc_spec_ok _ _ _ (CBOR_EncodeBytes_enc b bs Hwf Hl) Hf1) as E1.
  pose proof (enc_spec_ok _ _ _ (CBOR_EncodeStringAndLength_enc b bs Hwf Hl) Hf2) as E2.
  split_and!.
  - do 3 eexists. split_and!; [exact E1|by apply (CBOR_DecodeBytes_spec _ bs [])|done|].
    by apply decoded_points_to.
  - do 3 eexists. split_and!; [exact E2|by apply (CBOR_DecodeString_spec _ bs _ _ [])|done|].
    by apply decoded_points_to.
  - intros H16. unfold CBOR_EncodeUUID. rewrite length_app, H16 in *. do 2 eexists.
    split_and!; [exact E1|by apply (CBOR_DecodeUUID_spec _ bs _ [])|exact Hd1].
Qed.

Lemma bytes_roundtrip_witness :
  exists b' p r, CBOR_EncodeBytes (mkTx (replicate 16 0) 1) (Some [1; 2; 3]) 3 = Some (DPS_OK, b') /\
     CBOR_DecodeBytes (reread (mkTx (replicate 16 0) 1) b') = Some (DPS_OK, p, 3, r) /\
     rx_rest r = [] /\ points_to r p [1; 2; 3].
Proof.
  apply (bytes_roundtrip (mkTx (replicate 16 0) 1) [1; 2; 3] None 0);
    [witness_wf|simpl; lia|repeat constructor; unfold is_byte; lia|vm_compute; lia].
Defined.

(** C25: floats and doubles travel bit for bit, NaN payloads, infinities and
    signed zeros included. *)
Theorem float_roundtrip b f d f0 d0 :
  tx_wf b -> 0 <= f < 2 ^ 32 -> 0 <= d < 2 ^ 64 -> tx_fits b 9 ->
  (exists b' r, CBOR_EncodeFloat b f = Some (DPS_OK, b') /\
     CBOR_DecodeFloat (reread b b') f0 = Some (DPS_OK, f, r) /\ rx_rest r = []) /\
  (exists b' r, CBOR_EncodeDouble b d = Some (DPS_OK, b') /\
     CBOR_DecodeDouble (reread b b') d0 = Some (DPS_OK, d, r) /\ rx_rest r = []).
Proof.
  intros Hwf Hfr Hd Hf. unfold tx_fits in Hf.
  assert (Hf1 : tx_fits b (length (cbor_float f))) by (unfold tx_fits; cbn; lia).
  assert (Hf2 : tx_fits b (length (cbor_double d))) by (unfold tx_fits; cbn; lia).
  rewrite (enc_spec_ok _ _ _ (CBOR_EncodeFloat_enc b f Hwf) Hf1).
  rewrite (enc_spec_ok _ _ _ (CBOR_EncodeDouble_enc b d Hwf) Hf2).
  pose proof (wire_bytes (CFloat f) Hfr) as Hb1. pose proof (wire_bytes (CDouble d) Hd) as Hb2.
  split; do 2 eexists; (split_and!; [done| |]).
  - apply (CBOR_DecodeFloat_spec _ f _ []); auto with dps.
  - rewrite rx_skip_rest, reread_rest by done. done.
  - apply (CBOR_DecodeDouble_spec _ d _ []); auto with dps.
  - rewrite rx_skip_rest, reread_rest by done. done.
Qed.

Lemma float_roundtrip_witness :
  let b := mkTx (replicate 10 0) 1 in
  (exists b' r, CBOR_EncodeFloat b 0x7FC00001 = Some (DPS_OK, b') /\
     CBOR_DecodeFloat (reread b b') 0 = Some (DPS_OK, 0x7FC00001, r) /\ rx_rest r = []) /\
  (exists b' r, CBOR_EncodeDouble b (2 ^ 63) = Some (DPS_OK, b') /\
     CBOR_DecodeDouble (reread b b') 0 = Some (DPS_OK, 2 ^ 63, r) /\ rx_rest r = []).
Proof.
  intros b. apply (float_roundtrip b 0x7FC00001 (2 ^ 63) 0 0); [witness_wf|lia|lia|vm_compute; lia].
Defined.

(** ** Safety on any input *)

(** C26: on any bytes whatsoever, [CBOR_Skip] terminates, reads only inside the
    allocation, never moves the position back or past the end of the data, and
    when it succeeds has consumed at least one byte: a node cannot be made to
    read outside a packet or to loop by nested or truncated items. *)
Theorem CBOR_Skip_total b mo so :
  rx_wf b ->
  exists ret mj sk b', CBOR_Skip (skip_fuel b) b mo so = Some (ret, mj, sk, b') /\
    rx_mem b' = rx_mem b /\ rx_eod b' = rx_eod b /\
    (rx_pos b <= rx_pos b' <= rx_eod b)%nat /\
    (ret = DPS_OK -> (rx_pos b < rx_pos b')%nat).
Proof.
  intros Hwf. pose proof (rx_avail_nonneg b Hwf).
  destruct (CBOR_Skip_safe (skip_fuel b) b mo so Hwf) as (ret & mj & sk & b' & ? & (? & ? & ?) & ?).
  { unfold skip_fuel. lia. }
  by exists ret, mj, sk, b'.
Qed.

Lemma CBOR_Skip_total_witness :
  let b := mkRx [0x9B; 255; 255; 255; 255; 255; 255; 255; 255; 0x81; 0x81] 11 0 in
  exists ret mj sk b', CBOR_Skip (skip_fuel b) b None None = Some (ret, mj, sk, b') /\
    rx_mem b' = rx_mem b /\ rx_eod b' = rx_eod b /\
    (rx_pos b <= rx_pos b' <= rx_eod b)%nat /\
    (ret = DPS_OK -> (rx_pos b < rx_pos b')%nat).
Proof. intros b. apply (CBOR_Skip_total b None None). witness_wf. Defined.

(** ** Wrapping *)

(** C27: [CBOR_StartWrapBytes] with any length hint, then writing the payload,
    then [CBOR_EndWrapBytes], leaves exactly what [CBOR_EncodeBytes] of the
    payload would have written, also when the length field had to grow or
    shrink and the payload to be moved. *)
Theorem wrap_is_encode b hint bs :
  tx_wf b -> Forall is_byte bs -> Z.of_nat hint < 2 ^ 32 ->
  tx_fits b (length (cbor_head CBOR_BYTES (Z.of_nat hint)) + Nat.max hint (length bs)) ->
  tx_fits b (length (cbor_head CBOR_BYTES (Z.of_nat (length bs))) + length bs) ->
  exists b1 b2 b3 b4, CBOR_StartWrapBytes b hint = Some (DPS_OK, b1, tx_pos b) /\
    CBOR_Copy b1 (Some bs) (length bs) = Some (DPS_OK, b2) /\
    CBOR_EndWrapBytes b2 (tx_pos b) = Some (DPS_OK, b3) /\
    CBOR_EncodeBytes b (Some bs) (length bs) = Some (DPS_OK, b4) /\
    tx_written b3 = tx_written b4.
Proof.
  intros Hwf Hb Hh Hf1 Hf2. pose proof Hwf as (? & ? & _). unfold tx_fits in Hf1, Hf2.
  set (h := cbor_head CBOR_BYTES (Z.of_nat hint)) in *.
  assert (Hhb : Forall is_byte h) by (apply cbor_head_bytes; [major|lia]).
  assert (Hfh : tx_fits b (length h)) by (unfold tx_fits; lia).
  assert (Hw1 : tx_wf (wrapped b hint [])) by (unfold wrapped; fold h; rewrite app_nil_r; auto with dps).
  assert (Hf3 : tx_fits (wrapped b hint []) (length bs)).
  { unfold wrapped. fold h. rewrite app_nil_r. apply tx_app_fits; [done|]. unfold tx_fits. lia. }
  pose proof (enc_spec_ok _ _ _ (CBOR_Copy_enc _ bs Hw1) Hf3) as E2.
  assert (tx_app (wrapped b hint []) bs = wrapped b hint bs) as E2'.
  { unfold wrapped. fold h. rewrite app_nil_r. by apply tx_app_app. }
  destruct (EndWrap_ok b hint bs) as (b3 & E3 & Hw3 & _ & _);
    [done|done|done|unfold tx_fits; fold h; lia|unfold tx_fits; lia|].
  assert (Hl : Z.of_nat (length bs) < 2 ^ 32) by lia.
  pose proof (enc_spec_ok _ _ _ (CBOR_EncodeBytes_enc b bs Hwf Hl)) as E4.
  eexists _, _, b3, _. split_and!.
  - apply CBOR_StartWrapBytes_spec; [done|done|unfold tx_fits; fold h; lia].
  - exact E2.
  - rewrite E2'. exact E3.
  - apply E4. rewrite length_app. unfold tx_fits. lia.
  - rewrite Hw3. by rewrite tx_app_written by done.
Qed.

Lemma wrap_is_encode_witness :
  let b := mkTx (replicate 40 0) 3 in let bs := replicate 30 9 in
  exists b1 b2 b3 b4, CBOR_StartWrapBytes b 5 = Some (DPS_OK, b1, tx_pos b) /\
    CBOR_Copy b1 (Some bs) (length bs) = Some (DPS_OK, b2) /\
    CBOR_EndWrapBytes b2 (tx_pos b) = Some (DPS_OK, b3) /\
    CBOR_EncodeBytes b (Some bs) (length bs) = Some (DPS_OK, b4) /\
    tx_written b3 = tx_written b4.
Proof.
  intros b bs. apply (wrap_is_encode b 5 bs); [witness_wf|repeat constructor; unfold is_byte; lia|lia| |];
    vm_compute; lia.
Defined.

(** A defect: when the length field has to grow and the payload already
    fills the buffer up to one byte less than that needs, the check of the copy
    that makes room is against a space one byte too large, so
    [CBOR_EndWrapBytes] writes one byte past the end of the buffer instead of
    reporting an overflow. *)
Theorem EndWrapBytes_overrun b hint bs :
  tx_wf b -> Z.of_nat hint < 2 ^ 32 -> Forall is_byte bs ->
  let h0 := cbor_head CBOR_BYTES (Z.of_nat hint) in
  let h := cbor_head CBOR_BYTES (Z.of_nat (length bs)) in
  tx_fits b (length h0 + length bs) ->
  (length h0 < length h)%nat -> (0 < length bs)%nat ->
  (tx_pos b + length h + length bs = S (length (tx_mem b)))%nat ->
  CBOR_EndWrapBytes (wrapped b hint bs) (tx_pos b) = None.
Proof. intros. by apply EndWrap_overrun. Qed.

Lemma EndWrapBytes_overrun_witness :
  CBOR_EndWrapBytes (wrapped (mkTx (replicate 25 0) 0) 5 (replicate 24 1)) 0 = None.
Proof.
  apply (EndWrapBytes_overrun (mkTx (replicate 25 0) 0) 5 (replicate 24 1));
    [witness_wf|lia|repeat constructor; unfold is_byte; lia|vm_compute; lia|vm_compute; lia
    |vm_compute; lia|vm_compute; lia].
Defined.

(** ** Matching the keys of a map *)

(** A defect: when only optional keys remain and none of the remaining
    entries has one, [DPS_ParseMapNext] reads past all of them and reports OK
    without storing a key, so the caller handles a stale key again. *)
Theorem ParseMapNext_stale m es tl key :
  matching m es tl -> ms_result m = DPS_OK -> es <> [] ->
  Forall (fun e => (e.1 ∉ ms_wants m)) es -> ms_needs m = [] -> ms_wants m <> [] ->
  exists m', DPS_ParseMapNext m key = Some (DPS_OK, m', key).
Proof.
  intros Hm Hr Hne Hw Hn Hwn. unfold DPS_ParseMapNext. rewrite Hr.
  change (negb (is_OK DPS_OK)) with false. cbv iota zeta.
  pose proof (skip_fuel_matching _ _ _ Hm) as Hf. destruct es as [|e es]; [done|].
  apply Forall_cons_iff in Hw as [Hw Hws].
  change (ms_buffer (ms_set_result m DPS_ERR_MISSING)) with (ms_buffer m).
  destruct (skip_fuel (ms_buffer m)) as [|fuel]; [lia|].
  assert (Hm0 : matching (ms_set_result m DPS_ERR_MISSING) (e :: es) tl) by (destruct Hm; by constructor).
  rewrite (ParseMapLoop_past fuel _ e es tl);
    [|done|cbn; rewrite Hn; by apply not_elem_of_nil|done| |].
  2:{ cbn. rewrite Hn. intros n H. by apply not_elem_of_nil in H. }
  2:{ cbn. rewrite Hn. by destruct (ms_wants m). }
  destruct (ParseMapLoop_none es tl key fuel
     (ms_past (ms_set_result m DPS_ERR_MISSING) e (filter (fun w => e.1 < w) (ms_wants m))) e.1)
    as (m' & E & Hr' & Hn'); [exact (matching_past _ _ _ _ Hm0)|simpl in Hf; lia| |done|done|].
  { eapply Forall_impl; [|exact Hws]. intros x Hx. cbn. by intros [_ ?]%list_elem_of_filter. }
  cbn [ms_set_result ms_wants] in *. rewrite E. cbn [mbind option_bind]. rewrite Hr', Hn'.
  change (negb (is_OK DPS_OK)) with false. cbn [is_nil negb andb]. rewrite Hr'.
  by exists m'.
Qed.

Lemma ParseMapNext_stale_witness :
  let m := mkMapState (mkRx [9; 0xF6] 2 0) [] [3] 1 DPS_OK in
  exists m', DPS_ParseMapNext m 77 = Some (DPS_OK, m', 77).
Proof.
  intros m. apply (ParseMapNext_stale m [(9, CNull)] [] 77); [|done|done| |done|done].
  - constructor; [witness_wf|reflexivity|reflexivity| | | |]; repeat constructor;
      unfold key_ok; simpl; lia.
  - repeat constructor. apply (bool_decide_unpack _). vm_compute. done.
Defined.

(** Nothing is left to ask for, or nothing is left to read: the call says so. *)
Lemma ParseMapNext_missing m es tl key :
  matching m es tl -> ms_result m = DPS_OK -> ms_needs m = [] ->
  is_nil es || is_nil (ms_wants m) = true ->
  exists m', DPS_ParseMapNext m key = Some (DPS_ERR_MISSING, m', key).
Proof.
  intros Hm Hr Hn Hend. unfold DPS_ParseMapNext. rewrite Hr.
  change (negb (is_OK DPS_OK)) with false. cbv iota zeta.
  pose proof (skip_fuel_matching _ _ _ Hm) as Hf.
  change (ms_buffer (ms_set_result m DPS_ERR_MISSING)) with (ms_buffer m).
  destruct (skip_fuel (ms_buffer m)) as [|fuel]; [lia|]. cbn [ParseMapLoop].
  change (ms_needs (ms_set_result m DPS_ERR_MISSING)) with (ms_needs m).
  change (ms_wants (ms_set_result m DPS_ERR_MISSING)) with (ms_wants m).
  change (ms_entries (ms_set_result m DPS_ERR_MISSING)) with (ms_entries m).
  rewrite Hn, (mt_entries _ _ _ Hm). cbn [is_nil andb].
  assert ((Z.of_nat (length es) =? 0) || is_nil (ms_wants m) = true) as ->.
  { destruct es; [done|]. cbn [is_nil orb] in Hend. by rewrite Hend, orb_true_r. }
  cbn [mbind option_bind ms_set_result ms_result]. by eexists.
Qed.

(** The call after the last key: an error when no entry or no key is left,
    else OK with the key of the call before. *)
Lemma ParseMapNext_after m es tl key :
  matching m es tl -> ms_result m = DPS_OK -> ms_needs m = [] -> asked m es = [] ->
  exists m', DPS_ParseMapNext m key =
    Some (if is_nil es || is_nil (ms_wants m) then DPS_ERR_MISSING else DPS_OK, m', key).
Proof.
  intros Hm Hr Hn Ha. destruct (is_nil es || is_nil (ms_wants m)) eqn:E.
  { by eapply ParseMapNext_missing. }
  apply orb_false_elim in E as [E1 E2]. apply (ParseMapNext_stale m es tl); try done.
  - by destruct es.
  - rewrite List.Forall_forall. intros e He Hw.
    assert (e.1 ∈ asked m es) as Hin.
    { apply list_elem_of_filter. split; [by right|]. apply list_elem_of_In. by apply in_map. }
    rewrite Ha in Hin. by apply elem_of_nil in Hin.
  - by destruct (ms_wants m).
Qed.

(** C28: on a well-formed map with strictly ascending 32-bit keys that holds
    all the needed ones, a caller that calls [DPS_ParseMapNext] and reads past
    the value exactly as often as there are entries it asked for gets exactly
    the keys it asked for, needed or optional, in order, whatever the other
    entries hold, and then no needed key is left. The call after those reports
    MISSING when no entry or no optional key remains; otherwise (the optional
    keys that remain are in no entry) it reports OK and stores no key, so that
    the caller has the one of the call before. *)
Theorem ParseMap_reads_asked b b0 es tl keys optKeys :
  rx_wf b -> rx_rest b = cbor_head CBOR_MAP (Z.of_nat (length es)) ++ ewire es ++ tl ->
  Forall entry_ok es -> StronglySorted Z.lt (map fst es) -> Z.of_nat (length es) < 2 ^ 64 ->
  StronglySorted Z.lt keys -> StronglySorted Z.lt optKeys ->
  Forall (fun n => n ∈ map fst es) keys ->
  let ks := filter (fun k => k ∈ keys \/ k ∈ optKeys) (map fst es) in
  exists m m' rest, DPS_ParseMapInit b keys optKeys b0 = Some (DPS_OK, m) /\
    read_keys (length ks) m = Some (DPS_OK, ks, m') /\
    ms_needs m' = [] /\ matching m' rest tl /\
    forall key, exists m'', DPS_ParseMapNext m' key =
      Some (if is_nil rest || is_nil (ms_wants m') then DPS_ERR_MISSING else DPS_OK, m'', key).
Proof.
  intros Hwf Hr Hok Hs Hl Hk Ho Hin ks.
  unfold DPS_ParseMapInit, CBOR_DecodeMap.
  rewrite (DecodeUint_spec b CBOR_MAP (Z.of_nat (length es)) 0 (ewire es ++ tl)); [|done|major|lia|done].
  cbn [mbind option_bind]. change (is_OK DPS_OK) with true. cbv iota.
  rewrite Z.gtb_ltb, (proj2 (Z.ltb_ge _ _)), u64_small by (unfold SIZE_MAX; lia).
  cbn [mbind option_bind].
  set (m := mkMapState _ keys optKeys (Z.of_nat (length es)) DPS_OK).
  assert (Hm : matching m es tl).
  { constructor; try done; cbn; [by eapply rx_skip_app_wf|by eapply rx_rest_skip_app]. }
  destruct (read_keys_spec ks m es tl) as (m' & rest & ? & ? & ? & ? & ?); [done..|].
  exists m, m', rest. split_and!; [done..|]. intros key. by apply (ParseMapNext_after m' rest tl).
Qed.

(** The map {0: "x", 1: [2], 2: true, 5: 7, 9: null} read for the keys 1 and 5, and
    optionally 2 and 3. *)
Definition example_entries : list (Z * cbor) :=
  [(0, CString [120]); (1, CArray [CInt 2]); (2, CBool true); (5, CInt 7); (9, CNull)].
Definition example_map : list Z :=
  cbor_head CBOR_MAP 5 ++ ewire example_entries ++ [0].

Lemma ParseMap_reads_asked_witness :
  exists m m' rest, DPS_ParseMapInit (mkRx example_map (length example_map) 0) [1; 5] [2; 3] 0 =
      Some (DPS_OK, m) /\
    read_keys 3 m = Some (DPS_OK, [1; 2; 5], m') /\
    ms_needs m' = [] /\ matching m' rest [0] /\
    forall key, exists m'', DPS_ParseMapNext m' key =
      Some (if is_nil rest || is_nil (ms_wants m') then DPS_ERR_MISSING else DPS_OK, m'', key).
Proof.
  apply (ParseMap_reads_asked (mkRx example_map (length example_map) 0) 0 example_entries [0] [1; 5] [2; 3]).
  - apply (bool_decide_unpack (rx_wf _)). vm_compute. done.
  - reflexivity.
  - unfold example_entries, entry_ok, key_ok, is_byte.
    repeat (constructor; [cbn; split_and!; first [lia | done | repeat constructor; lia]|]). constructor.
  - repeat constructor.
  - vm_compute. done.
  - repeat constructor.
  - repeat constructor.
  - apply (bool_decide_unpack _). vm_compute. done.
Defined.
