(* ===== verification/BitVec.v ===== *)
(** * Bit vectors, Bloom filters and count vectors ([src/bitvec.c])

    A bit vector is its cached population count, its length in bits and its
    64-bit chunks.  An [assert] that fails is [None], like an access out of
    bounds.  A pointer argument that the code tests against the null pointer is
    an [option]; the output argument of an operation comes back in its result,
    and so does a vector whose cached population count the operation fills in.
    SHA-256 is Mbed TLS's: [mbedtls_md] maps the input bytes to the digest.

    [CompressedBitDump], [DPS_BitVectorDump], [RLE_Size] and
    [DPS_CountVectorDump] only print. *)
From S2P Require Import Prelude Status Buffer Float Cbor.
From Stdlib Require Import SpecFloat.

Definition CHUNK_SIZE : Z := 64.
Definition CHUNK_MAX : Z := 2 ^ 64 - 1.
Definition FLAG_RLE_ENCODED : Z := 1.
Definition FLAG_RLE_COMPLEMENT : Z := 2.
Definition CV_MAX : Z := UINT16_MAX.
Definition DPS_CONFIG_BIT_LEN : Z := 8192.
Definition DPS_CONFIG_HASHES : Z := 3.
Definition MIN_HASHES : Z := 1.
Definition MAX_HASHES : Z := 8.
Definition FH_BITVECTOR_LEN : Z := 4 * CHUNK_SIZE.

Definition c_assert (b : bool) : option unit := if b then Some () else None.

(** ** Bits of a word *)

Fixpoint pos_popcount (p : positive) : Z :=
  match p with
  | xH => 1
  | xO p => pos_popcount p
  | xI p => 1 + pos_popcount p
  end.
Definition POPCOUNT (n : Z) : Z := match n with Zpos p => pos_popcount p | _ => 0 end.

(** The number of trailing zeros; the code never asks for that of 0. *)
Fixpoint pos_ctz (p : positive) : Z :=
  match p with xO p => 1 + pos_ctz p | _ => 0 end.
Definition COUNT_TZ (n : Z) : Z := match n with Zpos p => pos_ctz p | _ => 0 end.

Definition ROTL64 (n r : Z) : Z := u64 (n ≪ r) .| (n ≫ (64 - r)).

Definition SET_BIT (a : list Z) (b : Z) : option (list Z) :=
  c ← a !! Z.to_nat (b ≫ 6);
  Some (<[Z.to_nat (b ≫ 6) := c .| u64 (1 ≪ (b .& 0x3F))]> a).
Definition TEST_BIT (a : list Z) (b : Z) : option bool :=
  c ← a !! Z.to_nat (b ≫ 6); Some (negb (c .& (1 ≪ (b .& 0x3F)) =? 0)).

(** Memory is little-endian. *)
Fixpoint le_value (bs : list Z) : Z :=
  match bs with [] => 0 | b :: bs => b + 256 * le_value bs end.
Fixpoint le_bytes (n : nat) (x : Z) : list Z :=
  match n with O => [] | S n => u8 x :: le_bytes n (x ≫ 8) end.
Definition bytes_of_chunks (cs : list Z) : list Z := concat (map (le_bytes 8) cs).
Fixpoint words_of_bytes (w n : nat) (bs : list Z) : list Z :=
  match n with
  | O => []
  | S n => le_value (take w bs) :: words_of_bytes w n (drop w bs)
  end.

(** ** Bit vectors *)

Record DPS_BitVector := mkBV { popCount : Z; len : Z; bits : list Z }.

Definition set_popCount (bv : DPS_BitVector) (n : Z) : DPS_BitVector := mkBV n (len bv) (bits bv).
Definition set_bits (bv : DPS_BitVector) (l : list Z) : DPS_BitVector :=
  mkBV (popCount bv) (len bv) l.
Definition UNKNOWN_POPCOUNT (bv : DPS_BitVector) : bool := popCount bv <? 0.
Definition INVALIDATE_POPCOUNT (bv : DPS_BitVector) : DPS_BitVector := set_popCount bv (-1).
Definition NUM_CHUNKS (bv : DPS_BitVector) : Z := len bv / CHUNK_SIZE.

Record Configuration := mkConfig { bitLen : Z; numHashes : Z }.
Definition config0 : Configuration := mkConfig DPS_CONFIG_BIT_LEN DPS_CONFIG_HASHES.

Definition DPS_Configure (config : Configuration) (bitLen numHashes : Z)
  : DPS_Status * Configuration :=
  if negb (bitLen .& 63 =? 0) then (DPS_ERR_ARGS, config)
  else if (numHashes <? MIN_HASHES) || (numHashes >? MAX_HASHES) then (DPS_ERR_ARGS, config)
  else (DPS_OK, mkConfig bitLen (u8 numHashes)).

(** [calloc] is whether the allocation succeeds. *)
Definition AllocBV (calloc : bool) (sz : Z) : option (option DPS_BitVector) :=
  _ ← c_assert (sz mod 64 =? 0);
  Some (if calloc
        then Some (INVALIDATE_POPCOUNT (mkBV 0 sz (replicate (Z.to_nat (sz / CHUNK_SIZE)) 0)))
        else None).
Definition DPS_BitVectorAlloc (config : Configuration) (calloc : bool) :=
  AllocBV calloc (bitLen config).
Definition DPS_BitVectorAllocFH (calloc : bool) := AllocBV calloc FH_BITVECTOR_LEN.

Definition DPS_BitVectorIsClear (bv : DPS_BitVector) : bool * DPS_BitVector :=
  if UNKNOWN_POPCOUNT bv then
    if existsb (fun c => negb (c =? 0)) (bits bv) then (false, bv)
    else (true, set_popCount bv 0)
  else (popCount bv =? 0, bv).

Definition DPS_BitVectorPopCount (bv : DPS_BitVector) : Z * DPS_BitVector :=
  let bv := if UNKNOWN_POPCOUNT bv
            then set_popCount bv (s32 (foldl (fun n c => u32 (n + POPCOUNT c)) 0 (bits bv)))
            else bv in
  (u64 (popCount bv), bv).

(** Copying a vector onto itself changes nothing either. *)
Definition DPS_BitVectorDup (dst src : DPS_BitVector) : option DPS_BitVector :=
  _ ← c_assert (len dst =? len src);
  Some (mkBV (popCount src) (len dst) (bits src)).

Definition DPS_BitVectorClone (malloc : bool) (bv : DPS_BitVector) : option DPS_BitVector :=
  if malloc then Some bv else None.

Definition DPS_BitVectorClear (bv : DPS_BitVector) : DPS_BitVector :=
  if negb (popCount bv =? 0) then mkBV 0 (len bv) (replicate (length (bits bv)) 0) else bv.

Definition DPS_BitVectorFill (bv : option DPS_BitVector) : option DPS_BitVector :=
  bv ← bv;
  Some (mkBV (s32 (u32 (len bv))) (len bv) (replicate (length (bits bv)) CHUNK_MAX)).

Definition DPS_BitVectorComplement (bv : DPS_BitVector) : DPS_BitVector :=
  let bv := set_bits bv (map (fun c => u64 (Z.lnot c)) (bits bv)) in
  if negb (popCount bv =? 0) then set_popCount bv (s32 (u32 (len bv) - popCount bv)) else bv.

Definition DPS_BitVectorSet (bv : DPS_BitVector) (data : list Z) (n : nat)
  : option (DPS_Status * DPS_BitVector) :=
  if negb (Z.of_nat n =? len bv / 8) then Some (DPS_ERR_ARGS, bv)
  else data ← mem_read data 0 n;
       Some (DPS_OK, INVALIDATE_POPCOUNT (set_bits bv (words_of_bytes 8 (n / 8) data))).

(** ** Bloom filters *)

Section Bloom.
Context (mbedtls_md : list Z -> list Z).

Definition DPS_Sha2 (data : list Z) : list Z := mbedtls_md data.

(** [hashes] is the digest read as an array of 8 [uint32_t]. *)
Definition bloom_hashes (data : list Z) : list Z := words_of_bytes 4 8 (DPS_Sha2 data).

(** The bit position for hash [h]; the remainder by 0 is undefined. *)
Definition bloom_index (bv : DPS_BitVector) (hashes : list Z) (h : nat) : option Z :=
  x ← hashes !! h; if len bv =? 0 then None else Some (u32 (x mod len bv)).

(** [for (h = start; n more times; ++h)] *)
Fixpoint bloom_insert_loop (bv : DPS_BitVector) (hashes : list Z) (start n : nat)
  : option DPS_BitVector :=
  match n with
  | O => Some bv
  | S n =>
      index ← bloom_index bv hashes start;
      l ← SET_BIT (bits bv) index;
      bloom_insert_loop (set_bits bv l) hashes (S start) n
  end.

Definition DPS_BitVectorBloomInsert (config : Configuration) (bv : DPS_BitVector)
    (data : list Z) : option DPS_BitVector :=
  bv ← bloom_insert_loop bv (bloom_hashes data) 0 (Z.to_nat (numHashes config));
  Some (INVALIDATE_POPCOUNT bv).

Fixpoint bloom_test_loop (bv : DPS_BitVector) (hashes : list Z) (start n : nat)
  : option bool :=
  match n with
  | O => Some true
  | S n =>
      index ← bloom_index bv hashes start;
      b ← TEST_BIT (bits bv) index;
      if negb b then Some false else bloom_test_loop bv hashes (S start) n
  end.

Definition DPS_BitVectorBloomTest (config : Configuration) (bv : DPS_BitVector)
    (data : list Z) : option bool :=
  bloom_test_loop bv (bloom_hashes data) 0 (Z.to_nat (numHashes config)).
End Bloom.

(** [(float)((100.0 * DPS_BitVectorPopCount(bv) + 1.0) / bv->len)], as the bits
    of the [float]. *)
Definition DPS_BitVectorLoadFactor (bv : DPS_BitVector) : Z * DPS_BitVector :=
  let '(n, bv) := DPS_BitVectorPopCount bv in
  let d (x : Z) := sf_of_Z 52 11 x in
  let load := SFdiv 53 1024 (SFadd 53 1024 (SFmul 53 1024 (d 100) (d n)) (d 1)) (d (len bv)) in
  (bits_of_sf 23 8 (sf_round 23 8 load), bv).

Definition float_lt_int (f n : Z) : bool :=
  SFltb (sf_double (float_to_double f)) (sf_double (int_to_double n)).
Definition float_gt_int (f n : Z) : bool :=
  SFltb (sf_double (int_to_double n)) (sf_double (float_to_double f)).

(** ** Comparison and set operations *)

Definition DPS_BitVectorEquals (bv1 bv2 : option DPS_BitVector) : bool :=
  match bv1, bv2 with
  | Some bv1, Some bv2 =>
      if negb (len bv1 =? len bv2) then false
      else forallb (fun '(b1, b2) => b1 =? b2) (zip (bits bv1) (bits bv2))
  | _, _ => false
  end.

Definition DPS_BitVectorIncludes (bv1 bv2 : option DPS_BitVector) : option bool :=
  match bv1, bv2 with
  | Some bv1, Some bv2 =>
      _ ← c_assert (len bv1 =? len bv2);
      if popCount bv1 =? 0 then Some false
      else if existsb (fun '(b1, b2) => negb (b1 .& b2 =? b2)) (zip (bits bv1) (bits bv2))
      then Some false
      else Some (negb (foldl Z.lor 0 (bits bv1) =? 0))
  | _, _ => Some false
  end.

(** The four words of a fuzzy hash, from the squashed vector and its count. *)
Definition fuzzy_chunks (s popCount : Z) : list Z :=
  let rot p r := p .| ROTL64 p r in
  [ rot (rot s 7) 31;
    rot (rot (rot s 11) 29) 37;
    rot (rot (rot (rot s 13) 17) 19) 41;
    if popCount >? 62 then CHUNK_MAX else (1 ≪ popCount) - 1 ].

(** The vector [bv] comes back with its count filled in. *)
Definition DPS_BitVectorFuzzyHash (hash bv : option DPS_BitVector)
  : option (DPS_Status * option DPS_BitVector * option DPS_BitVector) :=
  match hash, bv with
  | Some hash, Some bv =>
      _ ← c_assert (len hash =? FH_BITVECTOR_LEN);
      let '(n, s, bv) :=
        if negb (popCount bv =? 0) then
          let n := foldl (fun n c => u32 (n + POPCOUNT c)) 0 (bits bv) in
          (n, foldl Z.lor 0 (bits bv), set_popCount bv (s32 n))
        else (0, 0, bv) in
      if n =? 0 then Some (DPS_OK, Some (DPS_BitVectorClear hash), Some bv)
      else Some (DPS_OK, Some (INVALIDATE_POPCOUNT (set_bits hash (fuzzy_chunks s n))), Some bv)
  | _, _ => Some (DPS_ERR_NULL, hash, bv)
  end.

Definition DPS_BitVectorUnion (bvOut bv : option DPS_BitVector)
  : option (DPS_Status * option DPS_BitVector) :=
  match bvOut, bv with
  | Some bvOut, Some bv =>
      _ ← c_assert (len bvOut =? len bv);
      Some (DPS_OK, Some (INVALIDATE_POPCOUNT (set_bits bvOut (zip_with Z.lor (bits bvOut) (bits bv)))))
  | _, _ => Some (DPS_ERR_NULL, bvOut)
  end.

Definition DPS_BitVectorIntersection (bvOut bv1 bv2 : option DPS_BitVector)
  : option (DPS_Status * option DPS_BitVector) :=
  match bvOut, bv1, bv2 with
  | Some bvOut, Some bv1, Some bv2 =>
      _ ← c_assert ((len bvOut =? len bv1) && (len bvOut =? len bv2));
      if negb (popCount bv1 =? 0) && negb (popCount bv2 =? 0) then
        let l := zip_with Z.land (bits bv1) (bits bv2) in
        let nz := existsb (fun c => negb (c =? 0)) l in
        let bvOut := set_bits bvOut l in
        Some (DPS_OK, Some (if nz then INVALIDATE_POPCOUNT bvOut else set_popCount bvOut 0))
      else Some (DPS_OK, Some (DPS_BitVectorClear bvOut))
  | _, _, _ => Some (DPS_ERR_NULL, bvOut)
  end.

(** [equal] is [None] for the null pointer.  The result has the status, [bvOut],
    [bv1], [bv2] (with their counts as far as the code computed them) and
    [*equal].  When [bvOut] is the same object as [bv1] or [bv2], its value after
    the call is the first of these vectors. *)
Definition DPS_BitVectorXor (bvOut bv1 bv2 : option DPS_BitVector) (equal : option bool)
  : option (DPS_Status * option DPS_BitVector * option DPS_BitVector * option DPS_BitVector
            * option bool) :=
  match bvOut, bv1, bv2 with
  | Some bvOut, Some bv1, Some bv2 =>
      _ ← c_assert ((len bvOut =? len bv1) && (len bvOut =? len bv2));
      (* equal && DPS_BitVectorPopCount(bv) == 0 *)
      let is_empty bv := match equal with
                         | Some _ => let '(n, bv) := DPS_BitVectorPopCount bv in (n =? 0, bv)
                         | None => (false, bv)
                         end in
      if popCount bv1 =? 0 then
        let '(e, bv2) := is_empty bv2 in
        out ← DPS_BitVectorDup bvOut bv2;
        Some (DPS_OK, Some out, Some bv1, Some bv2, if e then Some true else equal)
      else if popCount bv2 =? 0 then
        let '(e, bv1) := is_empty bv1 in
        out ← DPS_BitVectorDup bvOut bv1;
        Some (DPS_OK, Some out, Some bv1, Some bv2, if e then Some true else equal)
      else
        let l := zip_with Z.lxor (bits bv1) (bits bv2) in
        let diff := existsb (fun c => negb (c =? 0)) l in
        Some (DPS_OK, Some (INVALIDATE_POPCOUNT (set_bits bvOut l)), Some bv1, Some bv2,
              _ ← equal; Some (negb diff))
  | _, _, _ => Some (DPS_ERR_NULL, bvOut, bv1, bv2, equal)
  end.

(** ** Run-length encoding *)

Definition SET_BIT8 (mem : list Z) (packed : nat) (b : Z) : option (list Z) :=
  let i := (packed + Z.to_nat (b ≫ 3))%nat in
  c ← mem_get mem i; mem_write mem i [u8 (c .| (1 ≪ (b .& 7)))].

Definition Ceil_Log2 (n : Z) : Z :=
  let '(n, b) := (u16 n, 0) in
  let '(n, b) := if negb (n .& 0xFF00 =? 0) then (n ≫ 8, b + 8) else (n, b) in
  let '(n, b) := if negb (n .& 0x00F0 =? 0) then (n ≫ 4, b + 4) else (n, b) in
  let '(n, b) := if negb (n .& 0x000C =? 0) then (n ≫ 2, b + 2) else (n, b) in
  let '(n, b) := if negb (n .& 0x0002 =? 0) then (n ≫ 1, b + 1) else (n, b) in
  b.

(** [while (sz--)]: the count bits, least significant first. *)
Fixpoint put_run (mem : list Z) (packed : nat) (rleSize val : Z) (sz : nat)
  : option (list Z * Z) :=
  match sz with
  | O => Some (mem, rleSize)
  | S sz =>
      mem ← (if val .& 1 =? 0 then Some mem else SET_BIT8 mem packed rleSize);
      put_run mem packed (rleSize + 1) (val ≫ 1) sz
  end.

(** [while (chunk)]: the runs of one chunk.  Result: status (an error is the
    early return), memory, [rleSize] and [rem0]. *)
Fixpoint encode_chunk (fuel : nat) (bvlen : Z) (packed : nat) (mem : list Z)
    (chunk num0 rem0 rleSize : Z) : option (DPS_Status * list Z * Z * Z) :=
  if chunk =? 0 then Some (DPS_OK, mem, rleSize, rem0)
  else match fuel with
  | O => None
  | S fuel =>
      let tz := COUNT_TZ chunk in
      let chunk := chunk ≫ tz in
      let rem0 := u32 (rem0 - (tz + 1)) in
      let num0 := u32 (num0 + tz) in
      let sz := Ceil_Log2 (u32 (num0 + 1)) in
      let val := u32 (num0 - ((1 ≪ sz) - 1)) in
      let rleSize := rleSize + sz in
      mem ← SET_BIT8 mem packed rleSize;
      let rleSize := rleSize + 1 in
      if rleSize + sz >? bvlen then Some (DPS_ERR_OVERFLOW, mem, rleSize, rem0)
      else
        '(mem, rleSize) ← put_run mem packed rleSize val (Z.to_nat sz);
        encode_chunk fuel bvlen packed mem (chunk ≫ 1) 0 rem0 rleSize
  end.

(** The loop over the chunks; a chunk has at most 64 runs. *)
Fixpoint encode_chunks (bvlen : Z) (packed : nat) (complement : Z) (mem : list Z)
    (chunks : list Z) (num0 rleSize : Z) : option (DPS_Status * list Z * Z) :=
  match chunks with
  | [] => Some (DPS_OK, mem, rleSize)
  | chunk :: chunks =>
      let chunk := chunk .^ complement in
      if chunk =? 0 then
        encode_chunks bvlen packed complement mem chunks (u32 (num0 + CHUNK_SIZE)) rleSize
      else
        '(ret, mem, rleSize, rem0) ← encode_chunk 64 bvlen packed mem chunk num0 CHUNK_SIZE rleSize;
        if is_OK ret then encode_chunks bvlen packed complement mem chunks rem0 rleSize
        else Some (ret, mem, rleSize)
  end.

Definition RunLengthEncode (bv : DPS_BitVector) (buffer : DPS_TxBuffer) (flags : Z)
  : option (DPS_Status * DPS_TxBuffer) :=
  let packed := tx_pos buffer in
  let complement := if negb (flags .& FLAG_RLE_COMPLEMENT =? 0) then CHUNK_MAX else 0 in
  if popCount bv =? 0 then Some (DPS_OK, buffer)
  else if DPS_TxBufferSpace buffer <? len bv / 8 then Some (DPS_ERR_OVERFLOW, buffer)
  else
    mem ← mem_write (tx_mem buffer) packed (replicate (Z.to_nat (len bv / 8)) 0);
    '(ret, mem, rleSize) ← encode_chunks (len bv) packed complement mem (bits bv) 0 0;
    if negb (is_OK ret) then Some (ret, mkTx mem packed)
    else if rleSize >? len bv then Some (DPS_ERR_OVERFLOW, mkTx mem packed)
    else Some (DPS_OK, mkTx mem (packed + Z.to_nat ((rleSize + 7) / 8))).

Definition TOP_UP_THRESHOLD : Z := 56.

(** [while (packedSize && (currentBits <= TOP_UP_THRESHOLD))] *)
Fixpoint top_up (packed : list Z) (current currentBits : Z) : list Z * Z * Z :=
  match packed with
  | b :: packed' =>
      if currentBits <=? TOP_UP_THRESHOLD
      then top_up packed' (current .| u64 (b ≪ currentBits)) (currentBits + 8)
      else (packed, current, currentBits)
  | [] => (packed, current, currentBits)
  end.

(** A shift by the width of the type is undefined. *)
Definition shr64 (x n : Z) : option Z := if n <? 64 then Some (x ≫ n) else None.

(** One run from the window: the new [bitPos], [current] and [currentBits]. *)
Definition decode_run (bitPos current currentBits : Z) : option (Z * Z * Z) :=
  if negb (current .& 1 =? 0) then Some (bitPos, current ≫ 1, u64 (currentBits - 1))
  else
    let tz := COUNT_TZ current in
    current ← shr64 current (tz + 1);
    let val := current .& ((1 ≪ tz) - 1) in
    let num0 := u64 (val + ((1 ≪ tz) - 1)) in
    let bitPos := u64 (bitPos + num0) in
    let currentBits := u64 (currentBits - (1 + tz * 2)) in
    current ← shr64 current tz;
    Some (bitPos, current, currentBits).

(** [while (currentBits)]: every iteration sets a bit below [len] above the
    last one, so [len + 1] iterations are enough. *)
Fixpoint decode_loop (fuel : nat) (packed : list Z) (bits : list Z) (len : Z)
    (bitPos current currentBits : Z) : option (DPS_Status * list Z) :=
  if currentBits =? 0 then Some (DPS_OK, bits)
  else match fuel with
  | O => None
  | S fuel =>
      let '(packed, current, currentBits) := top_up packed current currentBits in
      if current =? 0 then _ ← c_assert (is_nil packed); Some (DPS_OK, bits)
      else
        '(bitPos, current, currentBits) ← decode_run bitPos current currentBits;
        if bitPos >=? len then Some (DPS_ERR_INVALID, bits)
        else
          bits ← SET_BIT bits bitPos;
          decode_loop fuel packed bits len (u64 (bitPos + 1)) current currentBits
  end.

(** [n] is the number of chunks of [bits]. *)
Definition RunLengthDecode (packed : list Z) (n : nat) (len : Z)
  : option (DPS_Status * list Z) :=
  let bits := replicate n 0 in
  match packed with
  | [] => Some (DPS_OK, bits)
  | b :: packed => decode_loop (S (Z.to_nat len)) packed bits len 0 b 8
  end.

(** ** Serialisation *)

Definition DPS_BitVectorSerializeFH (bv : DPS_BitVector) (buffer : DPS_TxBuffer)
  : option (DPS_Status * DPS_TxBuffer) :=
  _ ← c_assert (len bv =? FH_BITVECTOR_LEN);
  CBOR_EncodeBytes buffer (Some (bytes_of_chunks (bits bv))) (Z.to_nat (len bv / 8)).

(** One round of [while (1)]; the boolean is [continue]. *)
Definition SerializeRound (bv : DPS_BitVector) (buffer : DPS_TxBuffer) (flags : Z)
  : option (DPS_Status * DPS_TxBuffer * bool) :=
  let resetPos := tx_pos buffer in
  '(ret, buffer) ← CBOR_EncodeUint buffer flags;
  if negb (is_OK ret) then Some (ret, buffer, false)
  else
  '(ret, buffer) ← CBOR_EncodeUint buffer (len bv);
  if negb (is_OK ret) then Some (ret, buffer, false)
  else if negb (flags .& FLAG_RLE_ENCODED =? 0) then
    '(ret, buffer, wrapPos) ← CBOR_StartWrapBytes buffer (Z.to_nat (len bv / 8));
    if is_OK ret then
      '(ret, buffer) ← RunLengthEncode bv buffer flags;
      if is_OK ret then
        '(ret, buffer) ← CBOR_EndWrapBytes buffer wrapPos; Some (ret, buffer, false)
      else Some (ret, buffer, false)
    else if bool_decide (ret = DPS_ERR_OVERFLOW) then Some (ret, tx_set_pos buffer resetPos, true)
    else Some (ret, buffer, false)
  else
    '(ret, buffer) ← CBOR_EncodeBytes buffer (Some (bytes_of_chunks (bits bv)))
                                      (Z.to_nat (len bv / 8));
    Some (ret, buffer, false).

(** The encoding to try first for a load factor. *)
Definition serialize_flags (load : Z) : Z :=
  if float_lt_int load 30 then FLAG_RLE_ENCODED
  else if float_gt_int load 70 then FLAG_RLE_ENCODED .| FLAG_RLE_COMPLEMENT
  else 0.

(** [continue] sets [flags] to 0, and a round with 0 does not continue. *)
Definition DPS_BitVectorSerialize (bv : DPS_BitVector) (buffer : DPS_TxBuffer)
  : option (DPS_Status * DPS_BitVector * DPS_TxBuffer) :=
  let '(load, bv) := DPS_BitVectorLoadFactor bv in
  '(ret, buffer) ← CBOR_EncodeArray buffer 3;
  if negb (is_OK ret) then Some (ret, bv, buffer)
  else
    '(ret, buffer, continue) ← SerializeRound bv buffer (serialize_flags load);
    if continue : bool then
      '(ret, buffer, _) ← SerializeRound bv buffer 0; Some (ret, bv, buffer)
    else Some (ret, bv, buffer).

(** [CBOR_SIZEOF(type)] for a type of [sz] bytes. *)
Definition CBOR_SIZEOF (sz : Z) : Z := 1 + sz.
Definition CBOR_SIZEOF_BYTES (l : Z) : Z := l + CBOR_SIZEOF_LEN l.

Definition DPS_BitVectorSerializeMaxSize (bv : DPS_BitVector) : Z :=
  CBOR_SIZEOF_LEN 3 + CBOR_SIZEOF 1 + CBOR_SIZEOF 4 + CBOR_SIZEOF_BYTES (len bv / 8).
Definition DPS_BitVectorSerializeFHSize : Z := CBOR_SIZEOF_BYTES (FH_BITVECTOR_LEN / 8).

(** The bytes a [CBOR_DecodeBytes] result designates. *)
Definition decoded_bytes (buffer : DPS_RxBuffer) (data : option nat) (size : Z) : option (list Z) :=
  match data with
  | Some p => mem_read (rx_mem buffer) p (Z.to_nat size)
  | None => if size =? 0 then Some [] else None
  end.

Definition DPS_BitVectorDeserializeFH (bv : DPS_BitVector) (buffer : DPS_RxBuffer)
  : option (DPS_Status * DPS_BitVector * DPS_RxBuffer) :=
  _ ← c_assert (len bv =? FH_BITVECTOR_LEN);
  '(ret, data, size, buffer) ← CBOR_DecodeBytes buffer;
  if is_OK ret then
    if size =? len bv / 8 then
      bytes ← decoded_bytes buffer data size;
      Some (ret, set_bits bv (words_of_bytes 8 (Z.to_nat (NUM_CHUNKS bv)) bytes), buffer)
    else Some (DPS_ERR_INVALID, bv, buffer)
  else Some (ret, bv, buffer).

Definition DPS_BitVectorDeserialize (bv : DPS_BitVector) (buffer : DPS_RxBuffer)
  : option (DPS_Status * DPS_BitVector * DPS_RxBuffer) :=
  '(ret, size, buffer) ← CBOR_DecodeArray buffer 0;
  if negb (is_OK ret) then Some (ret, bv, buffer)
  else if negb (size =? 3) then Some (DPS_ERR_INVALID, bv, buffer)
  else
  '(ret, flags, buffer) ← CBOR_DecodeUint buffer 0;
  if negb (is_OK ret) then Some (ret, bv, buffer)
  else
  '(ret, n, buffer) ← CBOR_DecodeUint buffer 0;
  if negb (is_OK ret) then Some (ret, bv, buffer)
  else if negb (n =? len bv) then Some (DPS_ERR_INVALID, bv, buffer)
  else
  '(ret, data, size, buffer) ← CBOR_DecodeBytes buffer;
  if negb (is_OK ret) then Some (ret, bv, buffer)
  else if negb (flags .& FLAG_RLE_ENCODED =? 0) then
    packed ← decoded_bytes buffer data size;
    '(ret, l) ← RunLengthDecode packed (length (bits bv)) (len bv);
    let bv := set_bits bv l in
    Some (ret, if is_OK ret && negb (flags .& FLAG_RLE_COMPLEMENT =? 0)
               then DPS_BitVectorComplement bv else bv, buffer)
  else if size =? len bv / 8 then
    bytes ← decoded_bytes buffer data size;
    Some (ret, set_bits bv (words_of_bytes 8 (length (bits bv)) bytes), buffer)
  else Some (DPS_ERR_INVALID, bv, buffer).

(** ** Count vectors *)

Record DPS_CountVector := mkCV {
  entries : Z;
  cvlen : Z;
  bvUnion : option DPS_BitVector;
  counts : list (list Z)            (* [counter_t counts\[\]], 64 counters each *)
}.

Definition set_entries (cv : DPS_CountVector) (n : Z) : DPS_CountVector :=
  mkCV n (cvlen cv) (bvUnion cv) (counts cv).

Definition AllocCV (calloc : bool) (sz : Z) : option (option DPS_CountVector) :=
  _ ← c_assert (sz mod 64 =? 0);
  Some (if calloc
        then Some (mkCV 0 sz None (replicate (Z.to_nat (sz / CHUNK_SIZE)) (replicate 64 0)))
        else None).

Definition DPS_CountVectorAlloc (config : Configuration) (calloc1 calloc2 : bool)
  : option (option DPS_CountVector) :=
  cv ← AllocCV calloc1 (bitLen config);
  match cv with
  | Some cv =>
      u ← AllocBV calloc2 (bitLen config);
      Some (u ← u; Some (mkCV (entries cv) (cvlen cv) (Some u) (counts cv)))
  | None => Some None
  end.
Definition DPS_CountVectorAllocFH (calloc : bool) := AllocCV calloc FH_BITVECTOR_LEN.

(** [do { .. } while (chunk)] of [DPS_CountVectorAdd]. *)
Fixpoint add_counts (chunk : Z) (count : list Z) : option (list Z) :=
  match count with
  | [] => None
  | c :: count =>
      let c := if negb (chunk .& 1 =? 0) then u16 (c + 1) else c in
      let chunk := chunk ≫ 1 in
      if chunk =? 0 then Some (c :: count)
      else count ← add_counts chunk count; Some (c :: count)
  end.

(** [do { .. } while (chunk)] of [DPS_CountVectorDel]: the counters and [clear]. *)
Fixpoint del_counts (chunk bit clear : Z) (count : list Z) : option (list Z * Z) :=
  match count with
  | [] => None
  | c :: count =>
      let '(c, clear) :=
        if negb (chunk .& 1 =? 0) then
          let c := u16 (c - 1) in (c, if c =? 0 then clear .| bit else clear)
        else (c, clear) in
      let bit := u64 (bit ≪ 1) in
      let chunk := chunk ≫ 1 in
      if chunk =? 0 then Some (c :: count, clear)
      else '(count, clear) ← del_counts chunk bit clear count; Some (c :: count, clear)
  end.

(** The loops over the chunks of a vector, next to the counters and, when there
    is one, the chunks of the union. *)
Fixpoint for_chunks (f : Z -> list Z -> option Z -> option (list Z * option Z))
    (chunks : list Z) (counts : list (list Z)) (us : option (list Z))
  : option (list (list Z) * option (list Z)) :=
  match chunks with
  | [] => Some (counts, us)
  | chunk :: chunks =>
      match counts, us with
      | count :: counts, None =>
          '(count, _) ← f chunk count None;
          '(counts, _) ← for_chunks f chunks counts None;
          Some (count :: counts, None)
      | count :: counts, Some (u :: us) =>
          '(count, u) ← f chunk count (Some u);
          '(counts, us) ← for_chunks f chunks counts (Some us);
          Some (count :: counts, u ← u; us ← us; Some (u :: us))
      | _, _ => None
      end
  end.

Definition cv_for_chunks (f : Z -> list Z -> option Z -> option (list Z * option Z))
    (cv : DPS_CountVector) (bv : DPS_BitVector) : option DPS_CountVector :=
  '(counts, us) ← for_chunks f (bits bv) (counts cv) (u ← bvUnion cv; Some (bits u));
  Some (mkCV (entries cv) (cvlen cv)
         (u ← bvUnion cv; us ← us; Some (INVALIDATE_POPCOUNT (set_bits u us))) counts).

Definition add_chunk (chunk : Z) (count : list Z) (u : option Z) : option (list Z * option Z) :=
  if chunk =? 0 then Some (count, u)
  else count ← add_counts chunk count; Some (count, u ← u; Some (u .| chunk)).

Definition del_chunk (chunk : Z) (count : list Z) (u : option Z) : option (list Z * option Z) :=
  if chunk =? 0 then Some (count, u)
  else '(count, clear) ← del_counts chunk 1 0 count; Some (count, u ← u; Some (u .^ clear)).

Definition DPS_CountVectorAdd (cv : option DPS_CountVector) (bv : option DPS_BitVector)
  : option (DPS_Status * option DPS_CountVector) :=
  match cv, bv with
  | Some cv, Some bv =>
      if entries cv =? CV_MAX then Some (DPS_ERR_RESOURCES, Some cv)
      else
        cv ← (if negb (popCount bv =? 0) then cv_for_chunks add_chunk cv bv else Some cv);
        Some (DPS_OK, Some (set_entries cv (entries cv + 1)))
  | _, _ => Some (DPS_ERR_NULL, cv)
  end.

Definition DPS_CountVectorDel (cv : option DPS_CountVector) (bv : option DPS_BitVector)
  : option (DPS_Status * option DPS_CountVector) :=
  match cv, bv with
  | Some cv, Some bv =>
      if entries cv =? 0 then Some (DPS_ERR_ARGS, Some cv)
      else
        cv ← (if negb (popCount bv =? 0) then cv_for_chunks del_chunk cv bv else Some cv);
        Some (DPS_OK, Some (set_entries cv (entries cv - 1)))
  | _, _ => Some (DPS_ERR_NULL, cv)
  end.

Definition DPS_CountVectorToUnion (malloc : bool) (cv : option DPS_CountVector)
  : option DPS_BitVector :=
  match cv with
  | Some cv => u ← bvUnion cv; DPS_BitVectorClone malloc u
  | None => None
  end.

(** [while (b)] of [DPS_CountVectorToIntersection]. *)
Fixpoint inter_chunk (entries : Z) (count : list Z) (b chunk : Z) : option Z :=
  if b =? 0 then Some chunk
  else match count with
  | [] => None
  | c :: count =>
      inter_chunk entries count (u64 (b ≪ 1)) (if c =? entries then chunk .| b else chunk)
  end.

(** The loop over the chunks of the fresh vector: a chunk whose union is empty
    stays 0. *)
Fixpoint inter_chunks (entries : Z) (counts : list (list Z)) (us : option (list Z)) (n : nat)
  : option (list Z) :=
  match n with
  | O => Some []
  | S n =>
      count ← head counts;
      '(u, us) ← match us with
                 | None => Some (None, None)
                 | Some us => u ← head us; Some (Some u, Some (tail us))
                 end;
      c ← (if bool_decide (u = Some 0) then Some 0 else inter_chunk entries count 1 0);
      cs ← inter_chunks entries (tail counts) us n;
      Some (c :: cs)
  end.

Definition DPS_CountVectorToIntersection (calloc : bool) (cv : DPS_CountVector)
  : option (option DPS_BitVector) :=
  bv ← AllocBV calloc (cvlen cv);
  match bv with
  | Some bv =>
      if entries cv =? 0 then Some (Some bv)
      else
        l ← inter_chunks (entries cv) (counts cv) (u ← bvUnion cv; Some (bits u))
                         (Z.to_nat (NUM_CHUNKS bv));
        Some (Some (set_bits bv l))
  | None => Some None
  end.
