(* ===== verification/BitVecProofs.v ===== *)
(** * Lemmas on bit vectors: inclusion, counting, the set operations and Bloom
    filters *)
From S2P Require Import Prelude Status Buffer Float Cbor BitVec.

(** ** Words as sets of bits *)

(** [zsub y x]: every bit of [y] is a bit of [x]. *)
Definition zsub (y x : Z) : Prop := forall i, 0 <= i -> Z.testbit y i = true -> Z.testbit x i = true.

Lemma zsub_land y x : zsub y x <-> x .& y = y.
Proof.
  split.
  - intros H. apply Z.bits_inj'. intros i Hi. rewrite Z.land_spec.
    destruct (Z.testbit y i) eqn:E; [|apply andb_false_r]. by rewrite (H i).
  - intros H i Hi Hy. rewrite <- H, Z.land_spec in Hy. by apply andb_true_iff in Hy as [? ?].
Qed.

#[export] Instance zsub_dec y x : Decision (zsub y x).
Proof. refine (cast_if (decide (x .& y = y))); by rewrite zsub_land. Defined.

#[export] Instance zsub_refl : Reflexive zsub.
Proof. intros x i ? ?. done. Qed.
#[export] Instance zsub_trans : Transitive zsub.
Proof. intros x y z H1 H2 i ? ?. auto. Qed.

Lemma zsub_0 x : zsub 0 x.
Proof. intros i _. by rewrite Z.bits_0. Qed.
Lemma zsub_lor a b c d : zsub a c -> zsub b d -> zsub (a .| b) (c .| d).
Proof.
  intros H1 H2 i Hi. rewrite !Z.lor_spec, !orb_true_iff. intros [?|?]; auto.
Qed.
Lemma zsub_lor_l a b : zsub a (a .| b).
Proof. intros i Hi H. by rewrite Z.lor_spec, H. Qed.
Lemma zsub_lor_r a b : zsub b (a .| b).
Proof. intros i Hi H. rewrite Z.lor_spec, H. apply orb_true_r. Qed.
Lemma zsub_land_2 a b c : zsub a b -> zsub a c -> zsub a (b .& c).
Proof. intros H1 H2 i Hi H. rewrite Z.land_spec, H1, H2; auto. Qed.
#[export] Hint Resolve zsub_0 zsub_lor zsub_lor_l zsub_lor_r zsub_land_2 : dps.

(** ** Counting bits *)

Lemma POPCOUNT_step x :
  0 <= x -> POPCOUNT x = Z.b2z (Z.testbit x 0) + POPCOUNT (x ≫ 1).
Proof. intros Hx. destruct x as [|[p|p|]|p]; [done|done|done|done|lia]. Qed.

Lemma POPCOUNT_nonneg x : 0 <= POPCOUNT x.
Proof. destruct x as [|p|p]; simpl; [done| |done]. induction p; simpl; lia. Qed.

Lemma POPCOUNT_0 x : 0 <= x -> POPCOUNT x = 0 -> x = 0.
Proof.
  destruct x as [|p|p]; [done| |lia]. intros _. cbn [POPCOUNT].
  assert (forall p, 0 < pos_popcount p) as H by (induction p0; simpl; lia).
  specialize (H p). lia.
Qed.

Lemma word_shiftr1 n x : 0 <= x < 2 ^ Z.of_nat (S n) -> 0 <= x ≫ 1 < 2 ^ Z.of_nat n.
Proof.
  rewrite Nat2Z.inj_succ, Z.pow_succ_r, Z.shiftr_div_pow2 by lia. intros H.
  change (2 ^ 1) with 2. split; [apply Z.div_pos; lia|apply Z.div_lt_upper_bound; lia].
Qed.

Lemma zsub_shiftr y x k : 0 <= k -> zsub y x -> zsub (y ≫ k) (x ≫ k).
Proof. intros Hk H i Hi. rewrite !Z.shiftr_spec by lia. apply H. lia. Qed.

Lemma zsub_POPCOUNT_n (n : nat) y x :
  0 <= y < 2 ^ Z.of_nat n -> 0 <= x < 2 ^ Z.of_nat n -> zsub y x -> POPCOUNT y <= POPCOUNT x.
Proof.
  revert y x. induction n as [|n IH]; intros y x Hy Hx H.
  - change (2 ^ Z.of_nat 0) with 1 in *. replace y with 0 by lia. replace x with 0 by lia. lia.
  - rewrite (POPCOUNT_step y), (POPCOUNT_step x) by lia.
    apply Z.add_le_mono.
    + specialize (H 0). destruct (Z.testbit y 0); [rewrite H by done; lia|].
      destruct (Z.testbit x 0); simpl; lia.
    + apply IH; auto using word_shiftr1. by apply zsub_shiftr.
Qed.

Lemma zsub_POPCOUNT y x : is_word 64 y -> is_word 64 x -> zsub y x -> POPCOUNT y <= POPCOUNT x.
Proof. apply (zsub_POPCOUNT_n 64). Qed.

Lemma POPCOUNT_le_n (n : nat) x : 0 <= x < 2 ^ Z.of_nat n -> POPCOUNT x <= Z.of_nat n.
Proof.
  revert x. induction n as [|n IH]; intros x Hx.
  - change (2 ^ Z.of_nat 0) with 1 in *. replace x with 0 by lia. done.
  - rewrite POPCOUNT_step by lia. pose proof (IH _ (word_shiftr1 _ _ Hx)).
    destruct (Z.testbit x 0); simpl; lia.
Qed.

(** ** Vectors of chunks *)

Definition chunks_ok (l : list Z) : Prop := Forall (is_word 64) l.
(** [chunks_sub l2 l1]: the set [l2] is included in the set [l1]. *)
Definition chunks_sub (l2 l1 : list Z) : Prop := Forall2 zsub l2 l1.
Fixpoint chunks_count (l : list Z) : Z :=
  match l with [] => 0 | c :: l => POPCOUNT c + chunks_count l end.

(** Chunk [i], and bit [i], of a vector. *)
Definition chunk_at (l : list Z) (i : nat) : Z := default 0 (l !! i).
Definition chunks_test (l : list Z) (i : Z) : bool :=
  Z.testbit (chunk_at l (Z.to_nat (i / 64))) (i mod 64).

Lemma chunk_at_Some l i c : l !! i = Some c -> chunk_at l i = c.
Proof. intros H. unfold chunk_at. by rewrite H. Qed.

#[export] Instance chunks_sub_refl : Reflexive chunks_sub.
Proof. unfold chunks_sub. intros l. induction l; constructor; [reflexivity|done]. Qed.
#[export] Instance chunks_sub_trans : Transitive chunks_sub.
Proof.
  unfold chunks_sub. intros l1 l2 l3 H12. revert l3.
  induction H12; inversion 1; subst; constructor; [etrans; eassumption|auto].
Qed.

Lemma chunks_sub_length l2 l1 : chunks_sub l2 l1 -> length l2 = length l1.
Proof. apply Forall2_length. Qed.

Lemma chunks_count_nonneg l : 0 <= chunks_count l.
Proof. induction l as [|c l IH]; simpl; [lia|]. pose proof (POPCOUNT_nonneg c). lia. Qed.

Lemma chunks_count_mono l2 l1 :
  chunks_ok l2 -> chunks_ok l1 -> chunks_sub l2 l1 -> chunks_count l2 <= chunks_count l1.
Proof.
  intros H2 H1 H. induction H as [|y x l2 l1 Hyx H IH]; simpl; [lia|].
  apply Forall_cons_iff in H2 as [? ?], H1 as [? ?].
  apply Z.add_le_mono; [by apply zsub_POPCOUNT|auto].
Qed.

Lemma chunks_count_0 l : chunks_ok l -> chunks_count l = 0 <-> Forall (eq 0) l.
Proof.
  intros H. induction H as [|c l Hc _ IH]; simpl; [done|].
  rewrite Forall_cons_iff. pose proof (POPCOUNT_nonneg c). pose proof (chunks_count_nonneg l).
  split.
  - intros E. split; [symmetry; apply POPCOUNT_0; [apply Hc|lia]|apply IH; lia].
  - intros [<- E]. apply IH in E. simpl. lia.
Qed.

Lemma chunks_count_bound l :
  chunks_ok l -> chunks_count l <= 64 * Z.of_nat (length l).
Proof.
  induction 1 as [|c l Hc _ IH]; cbn [chunks_count length]; [lia|].
  pose proof (POPCOUNT_le_n 64 c Hc). lia.
Qed.

Lemma foldl_count l n :
  chunks_ok l -> 0 <= n -> n + 64 * Z.of_nat (length l) < 2 ^ 32 ->
  foldl (fun n c => u32 (n + POPCOUNT c)) n l = n + chunks_count l.
Proof.
  intros H. revert n. induction H as [|c l Hc Hl IH]; intros n Hn Hb; cbn [foldl length chunks_count] in *.
  - lia.
  - pose proof (POPCOUNT_le_n 64 c Hc). pose proof (POPCOUNT_nonneg c).
    rewrite u32_small by lia. rewrite IH by lia. lia.
Qed.

Lemma foldl_lor l s : foldl Z.lor s l = s .| foldr Z.lor 0 l.
Proof.
  revert s. induction l as [|c l IH]; intros s; simpl; [by rewrite Z.lor_0_r|].
  by rewrite IH, Z.lor_assoc.
Qed.

Definition squash (l : list Z) : Z := foldr Z.lor 0 l.
Arguments squash !l /.

Lemma squash_sub l2 l1 : chunks_sub l2 l1 -> zsub (squash l2) (squash l1).
Proof. induction 1; simpl; auto with dps. Qed.

Lemma squash_word l : chunks_ok l -> is_word 64 (squash l).
Proof.
  induction 1; simpl; [unfold is_word; pow2s; lia|]. by apply (lor_range _ _ 64); [lia| |].
Qed.

Lemma squash_0 l : chunks_ok l -> squash l = 0 <-> Forall (eq 0) l.
Proof.
  induction 1 as [|c l Hc Hl IH]; simpl; [done|].
  rewrite Z.lor_eq_0_iff, Forall_cons_iff, IH. intuition congruence.
Qed.

Lemma existsb_nz l : existsb (fun c => negb (c =? 0)) l = false <-> Forall (eq 0) l.
Proof.
  induction l as [|c l IH]; simpl; [done|].
  rewrite orb_false_iff, negb_false_iff, Z.eqb_eq, IH, Forall_cons_iff. intuition congruence.
Qed.

Lemma existsb_zip_sub l1 l2 :
  length l1 = length l2 ->
  existsb (fun '(b1, b2) => negb (b1 .& b2 =? b2)) (zip l1 l2) = false <-> chunks_sub l2 l1.
Proof.
  revert l2. induction l1 as [|x l1 IH]; intros [|y l2]; simpl; intros [=].
  - split; [intros _; constructor|done].
  - rewrite orb_false_iff, negb_false_iff, Z.eqb_eq, IH by done.
    unfold chunks_sub. rewrite Forall2_cons_iff, zsub_land. done.
Qed.

Lemma chunks_sub_zeros l2 l1 :
  Forall (eq 0) l2 -> length l2 = length l1 -> chunks_sub l2 l1.
Proof.
  intros H. revert l1. induction H as [|? l2 <- H IH]; intros [|x l1]; intros [=].
  - constructor.
  - constructor; [apply zsub_0|by apply IH].
Qed.

Lemma chunks_sub_at l2 l1 :
  chunks_sub l2 l1 <-> length l2 = length l1 /\ forall i, zsub (chunk_at l2 i) (chunk_at l1 i).
Proof.
  split.
  - intros H. split; [by apply Forall2_length in H|].
    intros i. destruct (l2 !! i) as [y|] eqn:Ey.
    + destruct (Forall2_lookup_l _ _ _ _ _ H Ey) as (x & Ex & Hyx).
      by rewrite (chunk_at_Some _ _ _ Ex), (chunk_at_Some _ _ _ Ey).
    + unfold chunk_at at 1. rewrite Ey. apply zsub_0.
  - intros [Hl H]. apply Forall2_same_length_lookup_2; [done|]. intros i y x Hy Hx.
    specialize (H i). by rewrite (chunk_at_Some _ _ _ Hx), (chunk_at_Some _ _ _ Hy) in H.
Qed.

(** ** The invariant of a bit vector *)

(** The chunks are words and as many as the length says; a count that is cached
    is the right one.  Lengths are below 2^31 so that counts fit [int32_t]. *)
Record bv_wf (bv : DPS_BitVector) : Prop := {
  bv_len : len bv = 64 * Z.of_nat (length (bits bv));
  bv_small : len bv < 2 ^ 31;
  bv_chunks : chunks_ok (bits bv);
  bv_count : popCount bv = -1 \/ popCount bv = chunks_count (bits bv)
}.

#[export] Instance bv_wf_dec bv : Decision (bv_wf bv).
Proof.
  refine (cast_if (decide ((len bv = 64 * Z.of_nat (length (bits bv)) /\ len bv < 2 ^ 31) /\
    (chunks_ok (bits bv) /\ (popCount bv = -1 \/ popCount bv = chunks_count (bits bv)))))).
  all: abstract (destruct_and?; (constructor + intros []); tauto).
Defined.

Definition bv_sub (bv2 bv1 : DPS_BitVector) : Prop := chunks_sub (bits bv2) (bits bv1).

Lemma s32_small_nonneg n : 0 <= n < 2 ^ 31 -> s32 n = n.
Proof.
  intros. unfold s32. rewrite u32_small by lia. rewrite (proj2 (Z.ltb_lt _ _)) by lia. done.
Qed.

Lemma bv_count_bound bv : bv_wf bv -> 0 <= chunks_count (bits bv) <= len bv.
Proof.
  intros [-> _ H _]. split; [apply chunks_count_nonneg|by apply chunks_count_bound].
Qed.

Lemma foldl_count_bv bv :
  bv_wf bv -> foldl (fun n c => u32 (n + POPCOUNT c)) 0 (bits bv) = chunks_count (bits bv).
Proof.
  intros H. rewrite foldl_count; [lia|apply H|lia|].
  destruct H as [Hl Hs _ _]. lia.
Qed.

Lemma bv_empty bv : bv_wf bv -> popCount bv = 0 -> Forall (eq 0) (bits bv).
Proof.
  intros [_ _ Hc Hn] H0. apply chunks_count_0; [done|]. lia.
Qed.

(** Counting gives the number of bits and keeps the vector. *)
Lemma DPS_BitVectorPopCount_spec bv :
  bv_wf bv ->
  DPS_BitVectorPopCount bv = (chunks_count (bits bv), set_popCount bv (chunks_count (bits bv))).
Proof.
  intros Hwf. pose proof (bv_count_bound _ Hwf). pose proof (bv_small _ Hwf).
  unfold DPS_BitVectorPopCount, UNKNOWN_POPCOUNT. rewrite foldl_count_bv by done.
  rewrite s32_small_nonneg by lia. destruct (popCount bv <? 0) eqn:E; simpl.
  - rewrite u64_small by lia. done.
  - apply Z.ltb_ge in E. destruct (bv_count _ Hwf) as [H1|H1]; [lia|].
    rewrite H1, u64_small by lia. destruct bv; simpl in *. unfold set_popCount; simpl. congruence.
Qed.

Lemma set_popCount_wf bv n :
  bv_wf bv -> (n = -1 \/ n = chunks_count (bits bv)) -> bv_wf (set_popCount bv n).
Proof. intros [] ?. by constructor. Qed.

Lemma zeros_count n : chunks_count (replicate n 0) = 0.
Proof. induction n; simpl; [done|]. rewrite IHn. done. Qed.

Lemma Forall_zeros_replicate l : Forall (eq 0) l -> l = replicate (length l) 0.
Proof. induction 1 as [|? l <- _ IH]; simpl; congruence. Qed.

Lemma zeros_ok n : chunks_ok (replicate n 0).
Proof. apply Forall_replicate. unfold is_word. pow2s. lia. Qed.

Lemma DPS_BitVectorClear_spec bv :
  bv_wf bv -> DPS_BitVectorClear bv = mkBV 0 (len bv) (replicate (length (bits bv)) 0).
Proof.
  intros Hwf. unfold DPS_BitVectorClear. destruct (popCount bv =? 0) eqn:E; simpl; [|done].
  apply Z.eqb_eq in E. pose proof (Forall_zeros_replicate _ (bv_empty _ Hwf E)) as H.
  destruct bv; simpl in *. congruence.
Qed.

Lemma cleared_wf bv : bv_wf bv -> bv_wf (mkBV 0 (len bv) (replicate (length (bits bv)) 0)).
Proof.
  intros [Hl Hs _ _]. constructor; simpl; auto using zeros_ok.
  - by rewrite length_replicate.
  - right. by rewrite zeros_count.
Qed.

Lemma zip_with_ok (f : Z -> Z -> Z) l1 l2 :
  (forall x y, is_word 64 x -> is_word 64 y -> is_word 64 (f x y)) ->
  chunks_ok l1 -> chunks_ok l2 -> chunks_ok (zip_with f l1 l2).
Proof.
  intros Hf H1. revert l2. induction H1 as [|x l1 ? ? IH]; intros [|y l2] H2; simpl;
    try constructor; apply Forall_cons_iff in H2 as [? ?]; auto. apply IH. done.
Qed.

(** ** Inclusion, union, intersection *)

(** [Includes] is inclusion of sets, except that nothing includes anything in an
    empty first vector. *)
Lemma DPS_BitVectorIncludes_spec bv1 bv2 :
  bv_wf bv1 -> bv_wf bv2 -> len bv1 = len bv2 ->
  exists b, DPS_BitVectorIncludes (Some bv1) (Some bv2) = Some b /\
    (b = true <-> bv_sub bv2 bv1 /\ chunks_count (bits bv1) <> 0).
Proof.
  intros H1 H2 Hl. unfold DPS_BitVectorIncludes. rewrite Hl, Z.eqb_refl. cbn.
  assert (length (bits bv1) = length (bits bv2)) as Hlen.
  { pose proof (bv_len _ H1). pose proof (bv_len _ H2). lia. }
  pose proof (chunks_count_0 _ (bv_chunks _ H1)) as Hc0.
  destruct (popCount bv1 =? 0) eqn:E.
  { eexists. split; [done|]. apply Z.eqb_eq in E. split; [done|].
    intros [_ []]. by apply Hc0, bv_empty. }
  destruct (existsb _ _) eqn:Ex.
  - eexists. split; [done|]. split; [done|]. intros [Hs _].
    apply (existsb_zip_sub _ _ Hlen) in Hs. congruence.
  - apply (existsb_zip_sub _ _ Hlen) in Ex. eexists. split; [done|].
    rewrite negb_true_iff, Z.eqb_neq, foldl_lor, Z.lor_0_l.
    change (foldr Z.lor 0 (bits bv1)) with (squash (bits bv1)).
    rewrite squash_0 by apply H1. unfold bv_sub. tauto.
Qed.

Lemma chunk_at_zip (f : Z -> Z -> Z) l1 l2 i :
  length l1 = length l2 -> f 0 0 = 0 ->
  chunk_at (zip_with f l1 l2) i = f (chunk_at l1 i) (chunk_at l2 i).
Proof.
  intros H Hf. unfold chunk_at. rewrite lookup_zip_with.
  destruct (l1 !! i) eqn:E1, (l2 !! i) eqn:E2; simpl; try done.
  - apply lookup_lt_Some in E1. apply lookup_ge_None in E2. lia.
  - apply lookup_lt_Some in E2. apply lookup_ge_None in E1. lia.
Qed.

Lemma DPS_BitVectorUnion_spec out bv :
  bv_wf out -> bv_wf bv -> len out = len bv ->
  exists out', DPS_BitVectorUnion (Some out) (Some bv) = Some (DPS_OK, Some out') /\
    bv_wf out' /\ len out' = len out /\ bits out' = zip_with Z.lor (bits out) (bits bv).
Proof.
  intros H1 H2 Hl. unfold DPS_BitVectorUnion. rewrite Hl, Z.eqb_refl. cbn.
  eexists. split; [done|]. assert (length (bits out) = length (bits bv)).
  { pose proof (bv_len _ H1). pose proof (bv_len _ H2). lia. }
  split_and!; try done. constructor; simpl; [| |apply zip_with_ok|by left].
  - rewrite length_zip_with_l_eq by done. apply H1.
  - apply H1.
  - intros. by apply (lor_range _ _ 64).
  - apply H1.
  - apply H2.
Qed.

Lemma zip_land_zeros l1 l2 :
  length l1 = length l2 -> Forall (eq 0) l1 \/ Forall (eq 0) l2 ->
  Forall (eq 0) (zip_with Z.land l1 l2).
Proof.
  revert l2. induction l1 as [|x l1 IH]; intros [|y l2]; intros [=] Hz; simpl.
  - constructor.
  - rewrite !Forall_cons_iff in Hz. constructor; [|apply IH; [done|tauto]].
    destruct Hz as [[<- _]|[<- _]]; [done|by rewrite Z.land_0_r].
Qed.

Lemma DPS_BitVectorIntersection_spec out bv1 bv2 :
  bv_wf out -> bv_wf bv1 -> bv_wf bv2 -> len out = len bv1 -> len out = len bv2 ->
  exists out', DPS_BitVectorIntersection (Some out) (Some bv1) (Some bv2)
                 = Some (DPS_OK, Some out') /\
    bv_wf out' /\ len out' = len out /\ bits out' = zip_with Z.land (bits bv1) (bits bv2).
Proof.
  intros Ho H1 H2 Hl1 Hl2. unfold DPS_BitVectorIntersection.
  rewrite <- Hl1, <- Hl2, Z.eqb_refl. cbn.
  assert (length (bits bv1) = length (bits bv2) /\ length (bits out) = length (bits bv1)) as [E Eo].
  { pose proof (bv_len _ H1). pose proof (bv_len _ H2). pose proof (bv_len _ Ho). lia. }
  assert (chunks_ok (zip_with Z.land (bits bv1) (bits bv2))) as Hok.
  { apply zip_with_ok; [|apply H1|apply H2]. intros. by apply (land_range _ _ 64). }
  destruct (_ && _) eqn:Ez.
  - eexists. split; [done|]. destruct (existsb _ _) eqn:Ex; simpl.
    all: split_and!; try done; constructor; simpl; try done.
    all: rewrite ?length_zip_with_l_eq by done; rewrite ?Hl1; try apply H1; auto.
    apply existsb_nz in Ex. right. symmetry. by apply chunks_count_0.
  - eexists. split; [done|]. rewrite DPS_BitVectorClear_spec by done. simpl.
    split_and!; [by apply cleared_wf|done|].
    assert (Forall (eq 0) (zip_with Z.land (bits bv1) (bits bv2))) as Hz.
    { apply zip_land_zeros; [done|]. apply andb_false_iff in Ez.
      destruct Ez as [Ez|Ez]; apply negb_false_iff, Z.eqb_eq in Ez;
        [left|right]; by apply bv_empty. }
    rewrite (Forall_zeros_replicate _ Hz). f_equal.
    rewrite length_zip_with_l_eq by done. done.
Qed.

(** ** Fuzzy hashes *)

Lemma zsub_u64 y x : zsub y x -> zsub (u64 y) (u64 x).
Proof.
  intros H i Hi. unfold u64. destruct (Z.lt_ge_cases i 64).
  - rewrite !Z.mod_pow2_bits_low by lia. auto.
  - by rewrite !Z.mod_pow2_bits_high by lia.
Qed.

Lemma zsub_shiftl y x k : 0 <= k -> zsub y x -> zsub (y ≪ k) (x ≪ k).
Proof.
  intros Hk H i Hi. rewrite !Z.shiftl_spec by lia.
  destruct (Z.lt_ge_cases i k); [by rewrite !Z.testbit_neg_r by lia|]. apply H. lia.
Qed.

Lemma zsub_ROTL64 y x r : 0 <= r <= 64 -> zsub y x -> zsub (ROTL64 y r) (ROTL64 x r).
Proof.
  intros Hr H. apply zsub_lor.
  - apply zsub_u64, zsub_shiftl; [lia|done].
  - apply zsub_shiftr; [lia|done].
Qed.

Lemma zsub_ones a b : 0 <= a <= b -> zsub ((1 ≪ a) - 1) ((1 ≪ b) - 1).
Proof.
  intros Hab i Hi. rewrite !Z.shiftl_1_l, !Z.sub_1_r.
  rewrite <- !Z.ones_equiv, !Z.testbit_ones_nonneg, !Z.ltb_lt by lia. lia.
Qed.

Lemma fuzzy_chunks_mono s2 s1 n2 n1 :
  zsub s2 s1 -> 0 <= n2 <= n1 -> chunks_sub (fuzzy_chunks s2 n2) (fuzzy_chunks s1 n1).
Proof.
  intros Hs Hn. unfold fuzzy_chunks, chunks_sub.
  repeat apply Forall2_cons_2; [| | | |constructor].
  1-3: repeat first [done | apply zsub_ROTL64; [lia|] | apply zsub_lor].
  rewrite !Z.gtb_ltb. destruct (62 <? n2) eqn:E2, (62 <? n1) eqn:E1; bools; try lia.
  - reflexivity.
  - rewrite <- (Z.add_0_r CHUNK_MAX). change (CHUNK_MAX + 0) with ((1 ≪ 64) - 1).
    apply zsub_ones. lia.
  - apply zsub_ones. lia.
Qed.

Lemma ROTL64_word x r : 0 <= r <= 64 -> is_word 64 x -> is_word 64 (ROTL64 x r).
Proof.
  intros Hr Hx. apply (lor_range _ _ 64); [lia| |].
  - unfold u64. apply Z.mod_pos_bound. pow2s. lia.
  - unfold is_word in Hx. rewrite Z.shiftr_div_pow2 by lia. pose proof (pow2_pos (64 - r)).
    split; [apply Z.div_pos; lia|]. apply Z.div_lt_upper_bound; nia.
Qed.

Lemma fuzzy_chunks_ok s n : is_word 64 s -> 0 <= n -> chunks_ok (fuzzy_chunks s n).
Proof.
  intros Hs Hn. assert (forall x r, 0 <= r <= 64 -> is_word 64 x -> is_word 64 (x .| ROTL64 x r)) as H.
  { intros. apply (lor_range _ _ 64); [lia|done|]. by apply ROTL64_word. }
  unfold fuzzy_chunks. repeat apply Forall_cons; [..|constructor].
  1-3: repeat (apply H; [lia|]); done.
  rewrite Z.gtb_ltb. destruct (62 <? n) eqn:E; bools; [unfold is_word, CHUNK_MAX; pow2s; lia|].
  rewrite Z.shiftl_1_l. unfold is_word. pose proof (pow2_pos n).
  pose proof (Z.pow_le_mono_r 2 n 62). pow2s. lia.
Qed.

(** The hash of a vector, as a function of its chunks. *)
Definition fuzzy_spec (l : list Z) : list Z :=
  if chunks_count l =? 0 then replicate 4 0 else fuzzy_chunks (squash l) (chunks_count l).

Lemma DPS_BitVectorFuzzyHash_spec hash bv :
  bv_wf hash -> len hash = FH_BITVECTOR_LEN -> bv_wf bv ->
  exists hash', DPS_BitVectorFuzzyHash (Some hash) (Some bv)
      = Some (DPS_OK, Some hash', Some (set_popCount bv (chunks_count (bits bv)))) /\
    bv_wf hash' /\ len hash' = FH_BITVECTOR_LEN /\ bits hash' = fuzzy_spec (bits bv).
Proof.
  intros Hh Hlen Hwf. unfold DPS_BitVectorFuzzyHash. rewrite Hlen, Z.eqb_refl. cbn -[fuzzy_chunks].
  assert (length (bits hash) = 4%nat) as Hl4.
  { pose proof (bv_len _ Hh) as Hl. rewrite Hlen in Hl. unfold FH_BITVECTOR_LEN, CHUNK_SIZE in Hl. lia. }
  rewrite foldl_count_bv, foldl_lor, Z.lor_0_l by done.
  pose proof (bv_count_bound _ Hwf). pose proof (bv_small _ Hwf).
  rewrite s32_small_nonneg by lia. unfold fuzzy_spec.
  pose proof (cleared_wf _ Hh) as Hc. rewrite Hl4 in Hc.
  destruct (popCount bv =? 0) eqn:E0; simpl.
  { apply Z.eqb_eq in E0. pose proof (bv_empty _ Hwf E0) as Hz.
    apply chunks_count_0 in Hz; [|apply Hwf]. rewrite Hz, Z.eqb_refl.
    eexists. rewrite DPS_BitVectorClear_spec, Hl4 by done.
    split; [destruct bv; simpl in *; subst; done|]. done. }
  destruct (chunks_count (bits bv) =? 0) eqn:E1.
  - eexists. rewrite DPS_BitVectorClear_spec, Hl4 by done. split; [done|]. done.
  - eexists. split; [done|]. split_and!; [|done|done].
    constructor; simpl; [done|by rewrite Hlen|apply fuzzy_chunks_ok; [|lia]|by left].
    apply squash_word, Hwf.
Qed.

Lemma fuzzy_spec_mono l2 l1 :
  chunks_ok l2 -> chunks_ok l1 -> chunks_sub l2 l1 -> chunks_sub (fuzzy_spec l2) (fuzzy_spec l1).
Proof.
  intros H2 H1 Hs. unfold fuzzy_spec.
  pose proof (chunks_count_mono _ _ H2 H1 Hs). pose proof (chunks_count_nonneg l2).
  destruct (chunks_count l2 =? 0) eqn:E2.
  - apply chunks_sub_zeros; [by apply Forall_replicate|].
    destruct (chunks_count l1 =? 0); reflexivity.
  - bools. rewrite (proj2 (Z.eqb_neq _ _)) by lia.
    apply fuzzy_chunks_mono; [by apply squash_sub|lia].
Qed.

(** The hash of a set that is not empty is not empty. *)
Lemma fuzzy_spec_nonempty l : chunks_ok l -> chunks_count l <> 0 -> chunks_count (fuzzy_spec l) <> 0.
Proof.
  intros H Hn. unfold fuzzy_spec. rewrite (proj2 (Z.eqb_neq _ _)) by done.
  pose proof (fuzzy_chunks_ok (squash l) (chunks_count l) (squash_word _ H)
                (chunks_count_nonneg l)) as Hok.
  rewrite chunks_count_0 by done. unfold fuzzy_chunks. rewrite !Forall_cons_iff.
  intros (E & _). symmetry in E. apply Z.lor_eq_0_iff in E as [E _].
  apply Z.lor_eq_0_iff in E as [E _]. apply squash_0 in E; [|done].
  by apply chunks_count_0 in E.
Qed.
