(* ===== verification/Bloom.v ===== *)
(** * Lemmas on Bloom filters: setting and testing bits, the hash positions of a
    datum, insertion and test as operations on sets of bits *)
From S2P Require Import Prelude Status Buffer Float Cbor BitVec BitVecProofs.

(** ** Little-endian words *)

Lemma le_value_bound bs : Forall is_byte bs -> 0 <= le_value bs < 2 ^ (8 * Z.of_nat (length bs)).
Proof.
  induction 1 as [|b bs Hb _ IH]; cbn [le_value length]; [change (2 ^ (8 * Z.of_nat 0)) with 1; lia|].
  rewrite Nat2Z.inj_succ. replace (8 * Z.succ (Z.of_nat (length bs))) with
    (8 * Z.of_nat (length bs) + 8) by lia.
  rewrite Z.pow_add_r by lia. unfold is_byte in Hb. change (2 ^ 8) with 256. lia.
Qed.

Lemma words_of_bytes_length w n bs : length (words_of_bytes w n bs) = n.
Proof. revert bs. induction n; simpl; auto. Qed.

Lemma words_of_bytes_bound w n bs :
  Forall is_byte bs -> Forall (is_word (8 * Z.of_nat w)) (words_of_bytes w n bs).
Proof.
  revert bs. induction n as [|n IH]; intros bs Hb; simpl; constructor; auto using Forall_drop.
  pose proof (le_value_bound _ (Forall_take _ w _ Hb)) as H. rewrite length_take in H.
  pose proof (Z.pow_le_mono_r 2 (8 * Z.of_nat (w `min` length bs)) (8 * Z.of_nat w)).
  unfold is_word. lia.
Qed.

(** ** Setting and testing one bit *)

Section Bits.
Context (a : list Z) (b : Z) (Hb : 0 <= b < 64 * Z.of_nat (length a)).

Lemma bit_index : (Z.to_nat (b ≫ 6) < length a)%nat /\ b .& 0x3F = b mod 64
                  /\ Z.to_nat (b ≫ 6) = Z.to_nat (b / 64).
Proof using Hb.
  rewrite Z.shiftr_div_pow2 by lia. change (2 ^ 6) with 64.
  change 0x3F with (Z.ones 6). rewrite Z.land_ones by lia. change (2 ^ 6) with 64.
  pose proof (Z.div_lt_upper_bound b 64 (Z.of_nat (length a))).
  pose proof (Z.div_pos b 64). split_and!; try done. lia.
Qed.

Lemma TEST_BIT_spec : TEST_BIT a b = Some (chunks_test a b).
Proof using Hb.
  destruct bit_index as (Hi & Hm & Hd). unfold TEST_BIT, chunks_test. rewrite Hm, Hd in *.
  destruct (lookup_lt_is_Some_2 _ _ Hi) as [c Hc]. rewrite Hc, (chunk_at_Some _ _ _ Hc).
  cbn. f_equal. rewrite Z.shiftl_1_l. pose proof (Z.mod_pos_bound b 64).
  destruct (Z.testbit c (b mod 64)) eqn:E.
  - apply negb_true_iff, Z.eqb_neq. intros H0.
    assert (Z.testbit (c .& 2 ^ (b mod 64)) (b mod 64) = false) as Hf by (rewrite H0; apply Z.bits_0).
    rewrite Z.land_spec, E, Z.pow2_bits_true in Hf by lia. done.
  - apply negb_false_iff, Z.eqb_eq, Z.bits_inj'. intros i Hi'.
    rewrite Z.land_spec, Z.bits_0, Z.pow2_bits_eqb by lia.
    destruct (b mod 64 =? i) eqn:Ei; [apply Z.eqb_eq in Ei; subst; by rewrite E|apply andb_false_r].
Qed.

Lemma SET_BIT_spec :
  exists a', SET_BIT a b = Some a' /\ length a' = length a /\ (chunks_ok a -> chunks_ok a') /\
    forall i, 0 <= i -> chunks_test a' i = chunks_test a i || (i =? b).
Proof using Hb.
  destruct bit_index as (Hi & Hm & Hd). unfold SET_BIT. rewrite Hm.
  destruct (lookup_lt_is_Some_2 _ _ Hi) as [c Hc]. rewrite Hc. cbn.
  pose proof (Z.mod_pos_bound b 64 ltac:(lia)) as Hr.
  assert (u64 (1 ≪ (b mod 64)) = 2 ^ (b mod 64)) as ->.
  { rewrite Z.shiftl_1_l. apply u64_small. split; [lia|]. apply Z.pow_lt_mono_r; lia. }
  eexists. split; [done|]. split_and!; [apply length_insert| |].
  - intros Hok. apply Forall_insert; [done|].
    apply (lor_range _ _ 64); [lia|by apply (Forall_lookup_1 _ _ _ _ Hok Hc)|].
    split; [lia|]. apply Z.pow_lt_mono_r; lia.
  - intros i Hi0. unfold chunks_test, chunk_at. rewrite Hd in *.
    destruct (decide (i / 64 = b / 64)) as [E|E].
    + rewrite E, list_lookup_insert_eq, Hc by done. cbn.
      rewrite Z.lor_spec, Z.pow2_bits_eqb by lia. f_equal.
      pose proof (Z.div_mod i 64). pose proof (Z.div_mod b 64).
      destruct (Z.eqb_spec (b mod 64) (i mod 64)), (Z.eqb_spec i b); lia || congruence.
    + pose proof (Z.div_pos i 64). pose proof (Z.div_pos b 64).
      rewrite list_lookup_insert_ne by lia.
      destruct (Z.eqb_spec i b); [congruence|]. by rewrite orb_false_r.
Qed.
End Bits.

Lemma chunks_test_mono l2 l1 i :
  chunks_sub l2 l1 -> 0 <= i -> chunks_test l2 i = true -> chunks_test l1 i = true.
Proof.
  rewrite chunks_sub_at. intros [_ H] Hi. unfold chunks_test. apply H.
  apply Z.mod_pos_bound. lia.
Qed.

(** A vector is determined, and included, by its bits. *)
Lemma chunks_sub_test l2 l1 :
  chunks_ok l2 -> length l2 = length l1 ->
  (forall i, 0 <= i -> chunks_test l2 i = true -> chunks_test l1 i = true) -> chunks_sub l2 l1.
Proof.
  intros Hok Hl H. apply chunks_sub_at. split; [done|]. intros i j Hj Hy.
  destruct (Z.lt_ge_cases j 64).
  - specialize (H (64 * Z.of_nat i + j)). unfold chunks_test in H.
    rewrite (Z.mul_comm 64), Z.add_comm, Z.div_add, Z.mod_add, Z.div_small, Z.mod_small in H by lia.
    rewrite Z.add_0_l, Nat2Z.id in H. apply H; [lia|done].
  - rewrite (testbit_ge_pow2 _ 64) in Hy; [done| |lia]. unfold chunk_at.
    destruct (l2 !! i) as [y|] eqn:E; simpl; [|lia]. by apply (Forall_lookup_1 _ _ _ _ Hok E).
Qed.

(** ** Insertion and test *)

Section Bloom.
Context (mbedtls_md : list Z -> list Z).
(** A digest is bytes. *)
Context (md_bytes : forall d, Forall is_byte (mbedtls_md d)).
Context (config : Configuration) (Hconfig : 0 <= numHashes config <= MAX_HASHES).

(** The bit positions of a datum in a vector of [n] bits. *)
Definition bloom_positions (n : Z) (data : list Z) : list Z :=
  map (fun x => x mod n) (take (Z.to_nat (numHashes config)) (bloom_hashes mbedtls_md data)).

Definition bloom_has (l : list Z) (n : Z) (data : list Z) : Prop :=
  Forall (fun i => chunks_test l i = true) (bloom_positions n data).

Lemma bloom_hashes_length data : length (bloom_hashes mbedtls_md data) = 8%nat.
Proof. apply words_of_bytes_length. Qed.

Lemma bloom_hashes_bound data : Forall (is_word 32) (bloom_hashes mbedtls_md data).
Proof using md_bytes. apply (words_of_bytes_bound 4 8). apply md_bytes. Qed.

Lemma bloom_index_spec bv hashes h x :
  0 < len bv -> Forall (is_word 32) hashes -> hashes !! h = Some x ->
  bloom_index bv hashes h = Some (x mod len bv) /\ 0 <= x mod len bv < len bv.
Proof.
  intros Hl Hh Hx. unfold bloom_index. rewrite Hx. cbn.
  rewrite (proj2 (Z.eqb_neq _ _)) by lia. pose proof (Forall_lookup_1 _ _ _ _ Hh Hx) as Hw.
  unfold is_word in Hw. pose proof (Z.mod_pos_bound x (len bv)).
  pose proof (Z.mod_le x (len bv)). rewrite u32_small by lia. split; [done|lia].
Qed.

Lemma bloom_insert_loop_spec bv hashes start n :
  len bv = 64 * Z.of_nat (length (bits bv)) -> 0 < len bv -> chunks_ok (bits bv) ->
  Forall (is_word 32) hashes -> (start + n <= length hashes)%nat ->
  exists l', bloom_insert_loop bv hashes start n = Some (set_bits bv l') /\
    length l' = length (bits bv) /\ chunks_ok l' /\
    forall i, 0 <= i -> chunks_test l' i = chunks_test (bits bv) i ||
      bool_decide (i ∈ map (fun x => x mod len bv) (take n (drop start hashes))).
Proof.
  intros Hl Hp. revert bv start Hl Hp.
  induction n as [|n IH]; intros bv start Hl Hp Hok Hh Hs; cbn [bloom_insert_loop].
  { exists (bits bv). split; [by destruct bv|]. split_and!; try done.
    intros. by rewrite bool_decide_eq_false_2, orb_false_r by (apply not_elem_of_nil). }
  destruct (lookup_lt_is_Some_2 hashes start) as [x Hx]; [lia|].
  destruct (bloom_index_spec bv hashes start x Hp Hh Hx) as [-> Hr]. cbn.
  destruct (SET_BIT_spec (bits bv) (x mod len bv)) as (a' & -> & Ha & Hok' & Ht); [lia|]. cbn.
  destruct (IH (set_bits bv a') (S start)) as (l' & -> & Hl' & Hok2 & Ht2);
    cbn; rewrite ?Ha; auto; [lia|].
  exists l'. split; [done|]. split_and!; [by rewrite Hl'|done|]. intros i Hi.
  rewrite Ht2, Ht by done. cbn. rewrite (drop_S _ _ _ Hx). cbn.
  rewrite <- orb_assoc. f_equal. destruct (Z.eqb_spec i (x mod len bv)) as [->|Hne]; cbn.
  - symmetry. apply bool_decide_eq_true_2. left.
  - apply bool_decide_ext. rewrite elem_of_cons. tauto.
Qed.

Lemma DPS_BitVectorBloomInsert_spec bv data :
  bv_wf bv -> 0 < len bv ->
  exists bv', DPS_BitVectorBloomInsert mbedtls_md config bv data = Some bv' /\
    bv_wf bv' /\ len bv' = len bv /\ popCount bv' = -1 /\
    forall i, 0 <= i -> chunks_test (bits bv') i =
      chunks_test (bits bv) i || bool_decide (i ∈ bloom_positions (len bv) data).
Proof using md_bytes Hconfig.
  intros Hwf Hp. unfold DPS_BitVectorBloomInsert.
  destruct (bloom_insert_loop_spec bv (bloom_hashes mbedtls_md data) 0
              (Z.to_nat (numHashes config))) as (l' & -> & Hl & Hok & Ht);
    [apply Hwf|done|apply Hwf|apply bloom_hashes_bound| |].
  { rewrite bloom_hashes_length. unfold MAX_HASHES in Hconfig. lia. }
  cbn. eexists. split; [done|]. split_and!; [|done|done|exact Ht].
  constructor; cbn; [rewrite Hl; apply Hwf|apply Hwf|done|by left].
Qed.

Lemma bloom_test_loop_spec bv hashes start n :
  len bv = 64 * Z.of_nat (length (bits bv)) -> 0 < len bv ->
  Forall (is_word 32) hashes -> (start + n <= length hashes)%nat ->
  bloom_test_loop bv hashes start n =
    Some (forallb (chunks_test (bits bv)) (map (fun x => x mod len bv) (take n (drop start hashes)))).
Proof.
  intros Hl Hp Hh. revert start.
  induction n as [|n IH]; intros start Hs; cbn [bloom_test_loop]; [done|].
  destruct (lookup_lt_is_Some_2 hashes start) as [x Hx]; [lia|].
  destruct (bloom_index_spec bv hashes start x Hp Hh Hx) as [-> Hr]. cbn.
  rewrite TEST_BIT_spec by lia. cbn. rewrite (drop_S _ _ _ Hx). cbn.
  destruct (chunks_test _ _); cbn; [apply IH; lia|done].
Qed.

Lemma DPS_BitVectorBloomTest_spec bv data :
  bv_wf bv -> 0 < len bv ->
  exists b, DPS_BitVectorBloomTest mbedtls_md config bv data = Some b /\
    (b = true <-> bloom_has (bits bv) (len bv) data).
Proof using md_bytes Hconfig.
  intros Hwf Hp. unfold DPS_BitVectorBloomTest.
  rewrite bloom_test_loop_spec; [|apply Hwf|done|apply bloom_hashes_bound|].
  2: { rewrite bloom_hashes_length. unfold MAX_HASHES in Hconfig. lia. }
  eexists. split; [done|]. unfold bloom_has, bloom_positions.
  rewrite forallb_forall, List.Forall_forall. done.
Qed.

Lemma bloom_positions_range n data : 0 < n -> Forall (fun i => 0 <= i < n) (bloom_positions n data).
Proof.
  intros Hn. apply Forall_map, Forall_take, Forall_forall. intros x _. by apply Z.mod_pos_bound.
Qed.

Lemma bloom_has_mono l2 l1 n data :
  0 < n -> chunks_sub l2 l1 -> bloom_has l2 n data -> bloom_has l1 n data.
Proof.
  intros Hn Hs H. unfold bloom_has. pose proof (bloom_positions_range n data Hn) as Hr.
  unfold bloom_has in H. rewrite List.Forall_forall in *. intros i Hi.
  apply (chunks_test_mono l2); [done|apply (Hr i Hi)|by apply H].
Qed.

(** What an insertion gives: the vector grows and has the datum. *)
Lemma bloom_insert_has bv bv' data :
  bv_wf bv -> 0 < len bv -> DPS_BitVectorBloomInsert mbedtls_md config bv data = Some bv' ->
  bv_wf bv' /\ len bv' = len bv /\ bv_sub bv bv' /\ bloom_has (bits bv') (len bv) data.
Proof using md_bytes Hconfig.
  intros Hwf Hp E. destruct (DPS_BitVectorBloomInsert_spec bv data Hwf Hp)
    as (b & E' & Hwf' & Hl & _ & Ht). rewrite E in E'. injection E' as <-.
  split_and!; [done|done| |].
  - apply chunks_sub_test; [apply Hwf| |].
    { pose proof (bv_len _ Hwf). pose proof (bv_len _ Hwf'). lia. }
    intros i Hi H. by rewrite Ht, H.
  - unfold bloom_has. pose proof (bloom_positions_range (len bv) data Hp) as Hr.
    rewrite List.Forall_forall in *. intros i Hi. rewrite Ht by apply (Hr i Hi).
    rewrite bool_decide_eq_true_2 by (by apply list_elem_of_In). apply orb_true_r.
Qed.

(** Insertion adds nothing but the positions of the datum: it stays inside any
    vector that has the datum. *)
Lemma bloom_insert_least bv bv' bv1 data :
  bv_wf bv -> 0 < len bv -> DPS_BitVectorBloomInsert mbedtls_md config bv data = Some bv' ->
  bv_wf bv1 -> len bv1 = len bv -> bv_sub bv bv1 -> bloom_has (bits bv1) (len bv) data ->
  bv_sub bv' bv1.
Proof using md_bytes Hconfig.
  intros Hwf Hp E Hwf1 Hl1 Hs Hh. destruct (DPS_BitVectorBloomInsert_spec bv data Hwf Hp)
    as (b & E' & Hwf' & Hl & _ & Ht). rewrite E in E'. injection E' as <-.
  apply chunks_sub_test; [apply Hwf'| |].
  - pose proof (bv_len _ Hwf1). pose proof (bv_len _ Hwf'). lia.
  - intros i Hi. rewrite Ht, orb_true_iff, bool_decide_eq_true by done. intros [H|H].
    + by apply (chunks_test_mono (bits bv)).
    + unfold bloom_has in Hh. rewrite List.Forall_forall in Hh. apply Hh. by apply list_elem_of_In.
Qed.
End Bloom.
