(* ===== verification/Rle.v ===== *)
(** * The run-length code of bit vectors

    A bit vector and a packed byte string are each read as one integer, least
    significant bit first ([chunks_value], [le_value]).  [rle M s v] says that the
    code of the bits of [M] is the [s] bits of [v].  The encoder writes such a
    [v], and the decoder, from any [v] padded to whole bytes, gives [M] back. *)
From S2P Require Import Prelude Status Buffer Float Cbor BitVec BitVecProofs Bloom.

(** ** Trailing zeros *)

Lemma COUNT_TZ_double y : 0 < y -> COUNT_TZ (2 * y) = 1 + COUNT_TZ y.
Proof. destruct y; [lia|done|lia]. Qed.

Lemma COUNT_TZ_odd m : 0 <= m -> COUNT_TZ (1 + 2 * m) = 0.
Proof. destruct m; [done|done|lia]. Qed.

Lemma COUNT_TZ_pow g m : 0 <= g -> 0 <= m -> COUNT_TZ (2 ^ g * (1 + 2 * m)) = g.
Proof.
  intros Hg Hm. revert g Hg. apply natlike_ind.
  - rewrite Z.pow_0_r, Z.mul_1_l. by apply COUNT_TZ_odd.
  - intros g Hg IH. rewrite Z.pow_succ_r, <- Z.mul_assoc by lia.
    pose proof (pow2_pos g Hg). rewrite COUNT_TZ_double by nia. lia.
Qed.

Lemma COUNT_TZ_spec z :
  0 < z -> exists m, 0 <= m /\ 0 <= COUNT_TZ z /\ z = 2 ^ COUNT_TZ z * (1 + 2 * m).
Proof.
  destruct z as [|p|p]; [lia| |lia]. intros _. cbn [COUNT_TZ]. induction p as [p _|p IH|].
  - exists (Zpos p). split_and!; done.
  - destruct IH as (m & Hm & Hz & E). exists m. split_and!; [done|cbn [pos_ctz]; lia|].
    cbn [pos_ctz]. rewrite Z.add_1_l, Z.pow_succ_r by lia. lia.
  - exists 0. done.
Qed.

(** ** The logarithm *)

Lemma Ceil_Log2_byte n : 1 <= n < 256 -> Ceil_Log2 n = Z.log2 n.
Proof.
  intros Hn.
  assert ((n =? 0) || (Ceil_Log2 n =? Z.log2 n) = true) as H.
  { apply (byte_forallb (fun n => (n =? 0) || (Ceil_Log2 n =? Z.log2 n)));
      [vm_compute; done|unfold is_byte; lia]. }
  apply orb_true_iff in H as [H|H]; apply Z.eqb_eq in H; lia.
Qed.

Lemma land_high_byte n : 0 <= n < 65536 -> (n .& 0xFF00 =? 0) = (n <? 256).
Proof.
  intros Hn. replace 0xFF00 with (Z.ones 8 ≪ 8) by done.
  assert (n .& (Z.ones 8 ≪ 8) = ((n ≫ 8) .& Z.ones 8) ≪ 8) as ->.
  { apply Z.bits_inj'. intros i Hi. rewrite Z.land_spec, !Z.shiftl_spec by lia.
    destruct (Z.lt_ge_cases i 8).
    - rewrite !(Z.testbit_neg_r _ (i - 8)) by lia. apply andb_false_r.
    - rewrite Z.land_spec, Z.shiftr_spec, Z.sub_add by lia. done. }
  rewrite Z.land_ones, Z.shiftr_div_pow2, Z.shiftl_mul_pow2 by lia. change (2 ^ 8) with 256.
  destruct (Z.eqb_spec ((n / 256) mod 256 * 256) 0), (Z.ltb_spec n 256); Z.div_mod_to_equations; lia.
Qed.

(** What [Ceil_Log2] computes is the floor of the logarithm, on 16 bits. *)
Lemma Ceil_Log2_spec n : 1 <= n < 65536 -> Ceil_Log2 n = Z.log2 n.
Proof.
  intros Hn. destruct (Z.lt_ge_cases n 256); [apply Ceil_Log2_byte; lia|].
  pose proof (Z.shiftr_div_pow2 n 8 ltac:(lia)) as Es. change (2 ^ 8) with 256 in Es.
  assert (1 <= n ≫ 8 < 256) as Hs by (rewrite Es; Z.div_mod_to_equations; lia).
  assert (Ceil_Log2 n = Ceil_Log2 (n ≫ 8) + 8) as ->.
  { unfold Ceil_Log2. rewrite (u16_small n), (u16_small (n ≫ 8)) by lia.
    rewrite (land_high_byte n), (land_high_byte (n ≫ 8)) by lia.
    rewrite (proj2 (Z.ltb_ge n _)), (proj2 (Z.ltb_lt (n ≫ 8) _)) by lia. cbn [negb].
    repeat case_if; lia. }
  rewrite Ceil_Log2_byte by done. rewrite Z.log2_shiftr by lia.
  assert (8 <= Z.log2 n) by (apply Z.log2_le_pow2; lia). lia.
Qed.

(** ** The code *)

(** The size of the count field for a run of [g] zeros. *)
Definition run_sz (g : Z) : Z := Z.log2 (g + 1).

Inductive rle : Z -> Z -> Z -> Prop :=
| rle_nil : rle 0 0 0
| rle_run g M s v :
    0 <= g -> rle M s v ->
    rle (2 ^ g * (1 + 2 * M)) (2 * run_sz g + 1 + s)
        (2 ^ run_sz g + 2 ^ (run_sz g + 1) * (g + 1 - 2 ^ run_sz g) + 2 ^ (2 * run_sz g + 1) * v).

Lemma run_sz_spec g :
  0 <= g -> 0 <= run_sz g /\ 0 <= g + 1 - 2 ^ run_sz g < 2 ^ run_sz g.
Proof.
  intros Hg. unfold run_sz. pose proof (Z.log2_nonneg (g + 1)).
  pose proof (Z.log2_spec (g + 1) ltac:(lia)) as H1. rewrite Z.pow_succ_r in H1 by lia. lia.
Qed.

Lemma rle_facts M s v : rle M s v -> 0 <= M /\ 0 <= s /\ 0 <= v < 2 ^ s.
Proof.
  induction 1 as [|g M s v Hg H (HM & Hs & Hv)]; [change (2 ^ 0) with 1; lia|].
  destruct (run_sz_spec g Hg) as [Hz Hr]. set (z := run_sz g) in *.
  pose proof (pow2_pos g Hg). pose proof (pow2_pos z Hz).
  replace (2 * z + 1 + s) with (s + (z + (z + 1))) by lia.
  replace (2 * z + 1) with (z + (z + 1)) by lia.
  rewrite !(Z.pow_add_r 2) by lia. change (2 ^ 1) with 2.
  split_and!; [nia|lia|nia|]. nia.
Qed.

(** ** Setting bits of a packed region

    The memory is [pre ++ reg ++ suf], and the region [reg] is where the encoder
    writes. *)
Lemma le_value_app l1 l2 :
  le_value (l1 ++ l2) = le_value l1 + 2 ^ (8 * Z.of_nat (length l1)) * le_value l2.
Proof.
  induction l1 as [|b l1 IH]; cbn [app le_value length].
  - change (2 ^ (8 * Z.of_nat 0)) with 1. lia.
  - rewrite IH, Nat2Z.inj_succ.
    replace (8 * Z.succ (Z.of_nat (length l1))) with (8 + 8 * Z.of_nat (length l1)) by lia.
    rewrite Z.pow_add_r by lia. change (2 ^ 8) with 256. lia.
Qed.

Lemma le_value_zeros n : le_value (replicate n 0) = 0.
Proof. induction n; simpl; lia. Qed.

Lemma SET_BIT8_some mem p k :
  0 <= k -> Forall is_byte mem -> (p + Z.to_nat (k / 8) < length mem)%nat ->
  exists mem', SET_BIT8 mem p k = Some mem'.
Proof.
  intros Hk Hb Hp. unfold SET_BIT8, mem_get. rewrite Z.shiftr_div_pow2 by lia.
  change (2 ^ 3) with 8.
  destruct (lookup_lt_is_Some_2 mem (p + Z.to_nat (k / 8)) Hp) as [c ->]. cbn.
  rewrite mem_write_fits by (cbn; lia). eauto.
Qed.

Lemma byte_set_bit b j : 0 <= j < 8 -> 0 <= b < 2 ^ j -> u8 (b .| (1 ≪ j)) = b + 2 ^ j.
Proof.
  intros Hj Hb. rewrite Z.lor_comm, lor_shiftl_add by lia.
  pose proof (Z.pow_le_mono_r 2 (j + 1) 8 ltac:(lia) ltac:(lia)) as H.
  rewrite Z.pow_add_r in H by lia. change (2 ^ 8) with 256 in H. change (2 ^ 1) with 2 in H.
  rewrite u8_small by lia. lia.
Qed.

Lemma SET_BIT8_spec pre reg suf k :
  0 <= k < 8 * Z.of_nat (length reg) -> Forall is_byte reg -> le_value reg < 2 ^ k ->
  exists reg', SET_BIT8 (pre ++ reg ++ suf) (length pre) k = Some (pre ++ reg' ++ suf) /\
    length reg' = length reg /\ Forall is_byte reg' /\ le_value reg' = le_value reg + 2 ^ k.
Proof.
  intros Hk Hb Hv. set (i := Z.to_nat (k / 8)). set (j := k mod 8).
  assert (Hkij : k = 8 * Z.of_nat i + j) by (unfold i, j; pose proof (Z.div_pos k 8);
    pose proof (Z.div_mod k 8); lia).
  assert (Hj : 0 <= j < 8) by (unfold j; apply Z.mod_pos_bound; lia).
  destruct (lookup_lt_is_Some_2 reg i) as [b Eb]; [lia|].
  pose proof (list_elem_of_split_length reg i b Eb) as (a & c & -> & Ha). subst i.
  rewrite le_value_app in Hv |- *. cbn [le_value] in *.
  apply Forall_app in Hb as [Hba Hbb]. apply Forall_cons_iff in Hbb as [Hb Hbc].
  pose proof (le_value_bound a Hba). pose proof (le_value_bound c Hbc) as [Hc _].
  rewrite Ha in Hkij. set (P := 2 ^ (8 * Z.of_nat (length a))) in *.
  assert (2 ^ k = P * 2 ^ j) as HP by (rewrite Hkij, Z.pow_add_r by lia; done).
  assert (0 <= b < 2 ^ j) as Hbj by (unfold is_byte in Hb; rewrite HP in Hv; nia).
  exists (a ++ (b + 2 ^ j) :: c). split_and!.
  - unfold SET_BIT8, mem_get. rewrite Z.shiftr_div_pow2 by lia. change (2 ^ 3) with 8.
    rewrite Ha.
    rewrite lookup_app_r by lia.
    replace (length pre + length a - length pre)%nat with (length a) by lia.
    rewrite <- app_assoc. cbn [app]. rewrite list_lookup_middle by done. cbn [mbind option_bind].
    change 7 with (Z.ones 3). rewrite Z.land_ones by lia. change (2 ^ 3) with 8. fold j.
    rewrite byte_set_bit by done.
    rewrite mem_write_fits by (rewrite !length_app; cbn; lia). f_equal.
    rewrite take_app3, drop_app3 by (rewrite ?length_app; lia). cbn [length].
    replace (_ - _ - _)%nat with 1%nat by lia. cbn [drop]. by rewrite <- !app_assoc.
  - rewrite !length_app. done.
  - apply Forall_app_2; [done|]. constructor; [|done].
    rewrite <- byte_set_bit by done. apply u8_byte.
  - rewrite le_value_app. cbn [le_value]. fold P. rewrite HP. lia.
Qed.

Lemma put_run_spec (sz : nat) pre reg suf k val :
  0 <= k -> k + Z.of_nat sz <= 8 * Z.of_nat (length reg) -> Forall is_byte reg ->
  le_value reg < 2 ^ k -> 0 <= val < 2 ^ Z.of_nat sz ->
  exists reg', put_run (pre ++ reg ++ suf) (length pre) k val sz
      = Some (pre ++ reg' ++ suf, k + Z.of_nat sz) /\
    length reg' = length reg /\ Forall is_byte reg' /\
    le_value reg' = le_value reg + 2 ^ k * val.
Proof.
  revert reg k val. induction sz as [|sz IH]; intros reg k val Hk Hl Hb Hv Hval; cbn [put_run].
  { change (2 ^ Z.of_nat 0) with 1 in Hval. exists reg.
    rewrite Z.add_0_r. split_and!; try done. replace val with 0 by lia. lia. }
  pose proof (word_shiftr1 _ _ Hval) as Hs. pose proof (pow2_pos k Hk).
  change (val .& 1) with (val .& Z.ones 1). rewrite Z.land_ones by lia. change (2 ^ 1) with 2.
  rewrite Z.shiftr_div_pow2 in * by lia. change (2 ^ 1) with 2 in *.
  pose proof (Z.div_mod val 2 ltac:(lia)) as Hd. pose proof (Z.mod_pos_bound val 2 ltac:(lia)).
  assert (exists r, (if val mod 2 =? 0 then Some (pre ++ reg ++ suf)
             else SET_BIT8 (pre ++ reg ++ suf) (length pre) k) = Some (pre ++ r ++ suf) /\
             length r = length reg /\ Forall is_byte r /\
             le_value r = le_value reg + 2 ^ k * (val mod 2)) as (r & -> & Hr1 & Hr2 & Hr3).
  { destruct (Z.eqb_spec (val mod 2) 0) as [E|E].
    - exists reg. rewrite E. split_and!; try done. lia.
    - destruct (SET_BIT8_spec pre reg suf k) as (r & -> & ? & ? & Er); [lia|done|done|].
      exists r. rewrite Er. split_and!; try done. replace (val mod 2) with 1 by lia. lia. }
  cbn [mbind option_bind].
  destruct (IH r (k + 1) (val / 2)) as (reg' & -> & ? & ? & E);
    [lia|rewrite Hr1; lia|done| |done|].
  { rewrite Hr3, Z.pow_add_r by lia. change (2 ^ 1) with 2. nia. }
  exists reg'. split_and!; [do 2 f_equal; lia|congruence|done|].
  rewrite E, Hr3, Z.pow_add_r by lia. change (2 ^ 1) with 2. rewrite Hd at 3. ring.
Qed.

(** ** The encoder *)

(** From a packed region that holds [k] bits of code, the encoder has produced
    the code of [M], whose remaining part [M'] is still to come. *)
Definition encoded (reg reg' : list Z) (k k' : Z) (M M' : Z) : Prop :=
  length reg' = length reg /\ Forall is_byte reg' /\ 0 <= k' /\ le_value reg' < 2 ^ k' /\
  forall s' v', rle M' s' v' ->
    exists s v, rle M s v /\ k + s = k' + s' /\
      le_value reg + 2 ^ k * v = le_value reg' + 2 ^ k' * v'.

Lemma encoded_refl reg k M :
  Forall is_byte reg -> 0 <= k -> le_value reg < 2 ^ k -> encoded reg reg k k M M.
Proof. intros. split_and!; try done. eauto. Qed.

Lemma encoded_trans reg1 reg2 reg3 k1 k2 k3 M1 M2 M3 :
  encoded reg1 reg2 k1 k2 M1 M2 -> encoded reg2 reg3 k2 k3 M2 M3 ->
  encoded reg1 reg3 k1 k3 M1 M3.
Proof.
  intros (Hl & _ & _ & _ & H12) (Hl' & ? & ? & ? & H23). split_and!; try done; [congruence|].
  intros s' v' Hr. destruct (H23 _ _ Hr) as (s2 & v2 & Hr2 & ? & ?).
  destruct (H12 _ _ Hr2) as (s1 & v1 & Hr1 & ? & ?). exists s1, v1. split_and!; [done|lia|lia].
Qed.

(** The code of one run, written at bit [k]. *)
Lemma write_run pre reg suf k g M :
  0 <= g -> 0 <= k -> k + (2 * run_sz g + 1) <= 8 * Z.of_nat (length reg) ->
  Forall is_byte reg -> le_value reg < 2 ^ k ->
  exists mem reg', SET_BIT8 (pre ++ reg ++ suf) (length pre) (k + run_sz g) = Some mem /\
    put_run mem (length pre) (k + run_sz g + 1) (g - (2 ^ run_sz g - 1)) (Z.to_nat (run_sz g))
      = Some (pre ++ reg' ++ suf, k + (2 * run_sz g + 1)) /\
    encoded reg reg' k (k + (2 * run_sz g + 1)) (2 ^ g * (1 + 2 * M)) M.
Proof.
  intros Hg Hk Hl Hb Hv. destruct (run_sz_spec g Hg) as [Hz Hr]. set (z := run_sz g) in *.
  pose proof (pow2_pos k Hk) as Pk. pose proof (pow2_pos z Hz) as Pz.
  assert (2 ^ (k + z) = 2 ^ k * 2 ^ z) as E1 by (apply Z.pow_add_r; lia).
  assert (2 ^ (k + z + 1) = 2 ^ k * 2 ^ z * 2) as E2 by (rewrite Z.pow_add_r, E1 by lia; done).
  destruct (SET_BIT8_spec pre reg suf (k + z)) as (r1 & -> & Hl1 & Hb1 & Hv1);
    [lia|done|rewrite E1; nia|].
  assert (le_value r1 < 2 ^ (k + z + 1)) as Hlt by (rewrite Hv1, E1, E2; nia).
  destruct (put_run_spec (Z.to_nat z) pre r1 suf (k + z + 1) (g - (2 ^ z - 1)))
    as (r2 & Hp & Hl2 & Hb2 & Hv2); [lia|lia|done|done|rewrite Z2Nat.id by lia; lia|].
  eexists _, r2. split; [done|]. rewrite Hp. rewrite !Z2Nat.id by lia. split; [do 2 f_equal; lia|].
  assert (2 ^ (k + (2 * z + 1)) = 2 ^ k * 2 ^ (2 * z + 1)) as E3 by (apply Z.pow_add_r; lia).
  assert (2 ^ (2 * z + 1) = 2 ^ z * 2 ^ z * 2) as E4.
  { replace (2 * z + 1) with (z + z + 1) by lia. rewrite !Z.pow_add_r by lia. done. }
  assert (2 ^ (z + 1) = 2 ^ z * 2) as E5 by (rewrite Z.pow_add_r by lia; done).
  rewrite E2 in Hv2. rewrite E1 in Hv1.
  assert (g - (2 ^ z - 1) = g + 1 - 2 ^ z) as E6 by lia. rewrite E6 in Hv2.
  split_and!; [congruence|done|lia| |].
  - rewrite E3, E4, Hv2, Hv1.
    assert (2 ^ k * 2 ^ z * 2 * (g + 1 - 2 ^ z) <= 2 ^ k * 2 ^ z * 2 * (2 ^ z - 1)).
    { apply Z.mul_le_mono_nonneg_l; nia. }
    nia.
  - intros s' v' H. eexists _, _. split; [by apply rle_run|]. fold z. split; [lia|].
    rewrite Hv2, Hv1, E3, E5. ring.
Qed.

(** The outcome of the encoder's loops on the memory [pre ++ reg ++ suf]: they
    stay inside it and either report that the code is too long or leave in
    [reg] the code of [M] but for the part [M' rem]. *)
Definition enc_outcome (bvlen : Z) (pre reg suf : list Z) (k M : Z) (M' : Z -> Z)
    (ret : DPS_Status) (mem : list Z) (k' rem : Z) : Prop :=
  length mem = length (pre ++ reg ++ suf) /\ Forall is_byte mem /\
  (ret = DPS_ERR_OVERFLOW \/
   ret = DPS_OK /\ k' <= bvlen /\
   exists reg', mem = pre ++ reg' ++ suf /\ encoded reg reg' k k' M (M' rem)).

(** The runs of a chunk: splitting off the first one. *)
Lemma chunk_first_run c rem0 num0 R :
  0 < c < 2 ^ rem0 -> 0 <= rem0 -> 0 <= num0 ->
  exists m, (c ≫ COUNT_TZ c) ≫ 1 = m /\ 0 <= COUNT_TZ c /\ COUNT_TZ c + 1 <= rem0 /\
    0 <= m < 2 ^ (rem0 - (COUNT_TZ c + 1)) /\
    2 ^ num0 * (c + 2 ^ rem0 * R) =
      2 ^ (num0 + COUNT_TZ c) * (1 + 2 * (m + 2 ^ (rem0 - (COUNT_TZ c + 1)) * R)).
Proof.
  intros Hc Hr Hn. destruct (COUNT_TZ_spec c) as (m & Hm & Htz & E); [lia|].
  set (t := COUNT_TZ c) in *. pose proof (pow2_pos t Htz) as Pt. exists m.
  assert (c ≫ t = 1 + 2 * m) as ->.
  { rewrite Z.shiftr_div_pow2, E, Z.mul_comm, Z.div_mul by lia. done. }
  assert (t + 1 <= rem0) as Ht.
  { destruct (Z.le_gt_cases (t + 1) rem0); [done|].
    pose proof (Z.pow_le_mono_r 2 rem0 t ltac:(lia) ltac:(lia)). nia. }
  assert (2 ^ rem0 = 2 ^ t * (2 * 2 ^ (rem0 - (t + 1)))) as E2.
  { rewrite <- Z.pow_succ_r, <- Z.pow_add_r by lia. f_equal. lia. }
  split_and!; try done.
  - rewrite Z.shiftr_div_pow2, Z.add_comm, Z.mul_comm by lia. change (2 ^ 1) with 2.
    rewrite Z.div_add_l by lia. change (1 / 2) with 0. lia.
  - nia.
  - rewrite E2, Z.pow_add_r by lia. rewrite E at 1. ring.
Qed.

Lemma enc_outcome_step bvlen pre reg reg1 suf k k1 M M1 M' ret mem k' rem :
  encoded reg reg1 k k1 M M1 -> enc_outcome bvlen pre reg1 suf k1 M1 M' ret mem k' rem ->
  enc_outcome bvlen pre reg suf k M M' ret mem k' rem.
Proof.
  intros He (Hl & Hb & H). assert (length reg1 = length reg) by apply He.
  split_and!; [rewrite Hl, !length_app; lia|done|].
  destruct H as [?|(? & ? & r & ? & ?)]; [by left|right]. split_and!; [done|done|].
  exists r. split; [done|]. by eapply encoded_trans.
Qed.

Lemma enc_outcome_done bvlen pre reg suf k num0 rem0 R :
  num0 = 0 -> 0 <= k <= bvlen -> Forall is_byte (pre ++ reg ++ suf) -> le_value reg < 2 ^ k ->
  enc_outcome bvlen pre reg suf k (2 ^ num0 * (0 + 2 ^ rem0 * R)) (fun rem => 2 ^ rem * R)
              DPS_OK (pre ++ reg ++ suf) k rem0.
Proof.
  intros -> Hk Hb Hv. rewrite Z.pow_0_r, Z.mul_1_l, Z.add_0_l. split_and!; [done|done|right].
  split_and!; [done|lia|]. exists reg. split; [done|]. apply encoded_refl; [|lia|done].
  apply Forall_app in Hb as [_ Hb]. by apply Forall_app in Hb as [Hb _].
Qed.

Lemma encode_chunk_spec (fuel : nat) bvlen pre reg suf c num0 rem0 k R :
  0 <= c < 2 ^ rem0 -> 0 <= rem0 <= Z.of_nat fuel -> rem0 <= 64 -> 0 <= num0 ->
  num0 + rem0 <= 65535 -> c <> 0 \/ num0 = 0 -> 0 <= R ->
  0 <= k <= bvlen -> bvlen = 8 * Z.of_nat (length reg) -> (2 <= length suf)%nat ->
  Forall is_byte (pre ++ reg ++ suf) -> le_value reg < 2 ^ k ->
  exists ret mem k' rem, encode_chunk fuel bvlen (length pre) (pre ++ reg ++ suf) c num0 rem0 k
      = Some (ret, mem, k', rem) /\
    0 <= rem <= rem0 /\
    enc_outcome bvlen pre reg suf k (2 ^ num0 * (c + 2 ^ rem0 * R)) (fun rem => 2 ^ rem * R)
                ret mem k' rem.
Proof.
  revert reg c num0 rem0 k. induction fuel as [|fuel IH]; intros reg c num0 rem0 k
    Hc Hrem H64 Hn Hb16 Hc0 HR Hk Hbv Hsuf Hb Hv; cbn [encode_chunk].
  all: destruct (Z.eqb_spec c 0) as [->|Hne].
  1,3: eexists _, _, _, _; split; [done|]; split; [lia|]; apply enc_outcome_done; done || lia.
  { replace rem0 with 0 in Hc by lia. change (2 ^ 0) with 1 in Hc. lia. }
  assert (Forall is_byte reg) as Hreg.
  { apply Forall_app in Hb as [_ Hb]. by apply Forall_app in Hb as [Hb _]. }
  destruct (chunk_first_run c rem0 num0 R) as (m & Em & Ht & Htr & Hm & EM); [lia|lia|lia|].
  set (t := COUNT_TZ c) in *. cbv zeta. rewrite EM.
  rewrite (u32_small (num0 + t)), (u32_small (num0 + t + 1)) by lia.
  rewrite Ceil_Log2_spec by lia. fold (run_sz (num0 + t)).
  destruct (run_sz_spec (num0 + t)) as [Hz Hr]; [lia|]. set (z := run_sz (num0 + t)) in *.
  assert (z < 16) as Hz16.
  { apply (Z.pow_lt_mono_r_iff 2); [lia|lia|]. change (2 ^ 16) with 65536. lia. }
  rewrite Z.shiftl_1_l, (u32_small (num0 + t - _)), Em by lia.
  destruct (Z.leb_spec (k + (2 * z + 1)) bvlen) as [Hfit|Hfit].
  - destruct (write_run pre reg suf k (num0 + t) (m + 2 ^ (rem0 - (t + 1)) * R))
      as (mem1 & reg1 & Hset & Hput & Henc); [lia|lia|fold z; lia|done|done|].
    fold z in Hset, Hput, Henc. rewrite Hset. cbn [mbind option_bind].
    rewrite Z.gtb_ltb, (proj2 (Z.ltb_ge bvlen _)) by lia. rewrite Hput. cbn [mbind option_bind].
    rewrite (u32_small (rem0 - _)) by lia. pose proof Henc as (Hl1 & Hb1 & Hk1 & Hv1 & _).
    destruct (IH reg1 m 0 (rem0 - (t + 1)) (k + (2 * z + 1)))
      as (ret & mem & k' & rem & -> & Hrem' & Hout); try lia; try done.
    { apply Forall_app in Hb as [Hp Hb]. apply Forall_app in Hb as [_ Hs].
      by repeat apply Forall_app_2. }
    exists ret, mem, k', rem. split; [done|]. split; [lia|].
    rewrite Z.pow_0_r, Z.mul_1_l in Hout. by eapply enc_outcome_step.
  - destruct (SET_BIT8_some (pre ++ reg ++ suf) (length pre) (k + z)) as [mem1 E1]; [lia|done| |].
    { rewrite !length_app. Z.div_mod_to_equations. lia. }
    rewrite E1. cbn [mbind option_bind].
    rewrite Z.gtb_ltb, (proj2 (Z.ltb_lt bvlen _)) by lia.
    eexists _, _, _, _. split; [done|]. rewrite u32_small by lia. split; [lia|].
    unfold SET_BIT8 in E1. destruct (mem_get _ _); [|done]. cbn in E1.
    split_and!; [by eapply mem_write_length| |by left].
    eapply mem_write_bytes; [done|done|]. constructor; [apply u8_byte|constructor].
Qed.

(** ** The integer of a bit vector *)

Fixpoint chunks_value (l : list Z) : Z :=
  match l with [] => 0 | c :: l => c + 2 ^ 64 * chunks_value l end.

Definition complemented (complement : Z) (l : list Z) : list Z :=
  map (fun c => c .^ complement) l.

Lemma chunks_value_nonneg l : chunks_ok l -> 0 <= chunks_value l.
Proof. induction 1 as [|c l Hc _ IH]; simpl; [lia|]. unfold is_word in Hc. lia. Qed.

Lemma encode_chunks_spec bvlen pre reg suf complement chunks num0 k :
  chunks_ok (complemented complement chunks) -> 0 <= num0 ->
  num0 + 64 * Z.of_nat (length chunks) <= 65535 ->
  0 <= k <= bvlen -> bvlen = 8 * Z.of_nat (length reg) -> (2 <= length suf)%nat ->
  Forall is_byte (pre ++ reg ++ suf) -> le_value reg < 2 ^ k ->
  exists ret mem k', encode_chunks bvlen (length pre) complement (pre ++ reg ++ suf) chunks num0 k
      = Some (ret, mem, k') /\
    enc_outcome bvlen pre reg suf k (2 ^ num0 * chunks_value (complemented complement chunks))
                (fun _ => 0) ret mem k' 0.
Proof.
  revert reg num0 k. induction chunks as [|c chunks IH]; intros reg num0 k
    Hok Hn Hb16 Hk Hbv Hsuf Hb Hv; cbn [encode_chunks complemented map chunks_value length] in *.
  { eexists _, _, _. split; [done|]. rewrite Z.mul_0_r. split_and!; [done|done|right].
    split_and!; [done|lia|]. exists reg. split; [done|]. apply encoded_refl; [|lia|done].
    apply Forall_app in Hb as [_ Hb]. by apply Forall_app in Hb as [Hb _]. }
  apply Forall_cons_iff in Hok as [Hc Hok]. fold (complemented complement chunks) in *.
  set (R := chunks_value (complemented complement chunks)) in *.
  assert (0 <= R) by by apply chunks_value_nonneg.
  destruct (Z.eqb_spec (c .^ complement) 0) as [E|E].
  { rewrite E, Z.add_0_l, Z.mul_assoc, <- Z.pow_add_r by lia. unfold CHUNK_SIZE.
    rewrite u32_small by lia. apply IH; done || lia. }
  destruct (encode_chunk_spec 64 bvlen pre reg suf (c .^ complement) num0 64 k R)
    as (ret & mem & k' & rem & Henc & Hrem & Hout);
    try done; try lia; try by left.
  unfold CHUNK_SIZE. rewrite Henc. cbn [mbind option_bind].
  destruct Hout as (Hl & Hmb & [->|(-> & Hk' & reg' & -> & He)]); cbn [is_OK].
  { eexists _, _, _. split; [done|]. split_and!; [done|done|by left]. }
  pose proof He as (Hl' & Hb' & Hk0 & Hv' & _).
  destruct (IH reg' rem k') as (ret & mem & k2 & -> & Hout); try done; try lia.
  eexists _, _, _. split; [done|]. by eapply enc_outcome_step.
Qed.

(** ** The decoder *)

Lemma testbit_chunks_value l i :
  chunks_ok l -> 0 <= i -> Z.testbit (chunks_value l) i = chunks_test l i.
Proof.
  intros H. revert i. induction H as [|c l Hc Hl IH]; intros i Hi; cbn [chunks_value].
  - unfold chunks_test, chunk_at. rewrite lookup_nil. cbn. by rewrite !Z.bits_0.
  - rewrite Z.add_comm, (Z.mul_comm (2 ^ 64)), <- lor_shiftl_add by (lia || exact Hc).
    rewrite Z.lor_spec, Z.shiftl_spec by lia. unfold chunks_test, chunk_at.
    destruct (Z.lt_ge_cases i 64).
    + rewrite (Z.testbit_neg_r _ (i - 64)), Z.div_small, Z.mod_small by lia. done.
    + rewrite (testbit_ge_pow2 c 64), orb_false_r, IH by (apply Hc || lia).
      unfold chunks_test, chunk_at.
      assert (i / 64 = (i - 64) / 64 + 1 /\ i mod 64 = (i - 64) mod 64) as [-> ->].
      { replace i with (i - 64 + 1 * 64) at 1 3 by lia. by rewrite Z.div_add, Z.mod_add by lia. }
      pose proof (Z.div_pos (i - 64) 64). rewrite Z2Nat.inj_add, Nat.add_comm by lia. done.
Qed.

Lemma chunks_value_inj l1 l2 :
  chunks_ok l1 -> chunks_ok l2 -> length l1 = length l2 ->
  chunks_value l1 = chunks_value l2 -> l1 = l2.
Proof.
  intros H1. revert l2. induction H1 as [|c1 l1 Hc1 _ IH]; intros [|c2 l2]; intros H2 [=] E; [done|].
  apply Forall_cons_iff in H2 as [Hc2 H2]. cbn [chunks_value] in E. unfold is_word in *.
  assert (c1 = c2 /\ chunks_value l1 = chunks_value l2) as [-> E2] by (pow2s; lia).
  f_equal. by apply IH.
Qed.

Lemma chunks_value_bound l : chunks_ok l -> chunks_value l < 2 ^ (64 * Z.of_nat (length l)).
Proof.
  induction 1 as [|c l Hc _ IH]; cbn [chunks_value length]; [done|].
  rewrite Nat2Z.inj_succ. replace (64 * Z.succ (Z.of_nat (length l))) with
    (64 + 64 * Z.of_nat (length l)) by lia.
  rewrite Z.pow_add_r by lia. unfold is_word in Hc. pow2s. lia.
Qed.

Lemma SET_BIT_value bits b :
  chunks_ok bits -> 0 <= b < 64 * Z.of_nat (length bits) -> chunks_value bits < 2 ^ b ->
  exists bits', SET_BIT bits b = Some bits' /\ length bits' = length bits /\ chunks_ok bits' /\
    chunks_value bits' = chunks_value bits + 2 ^ b.
Proof.
  intros Hok Hb Hv. destruct (SET_BIT_spec bits b Hb) as (a & -> & Hl & Hok' & Ht).
  exists a. split_and!; auto. pose proof (chunks_value_nonneg _ Hok).
  transitivity ((1 ≪ b) .| chunks_value bits).
  - apply Z.bits_inj'. intros i Hi. rewrite testbit_chunks_value, Ht, Z.lor_spec by auto.
    rewrite testbit_chunks_value, orb_comm by done. f_equal.
    rewrite Z.shiftl_1_l, Z.pow2_bits_eqb by lia. apply Z.eqb_sym.
  - rewrite lor_shiftl_add by lia. lia.
Qed.

Lemma top_up_spec packed current currentBits :
  Forall is_byte packed -> 0 <= current < 2 ^ currentBits -> 0 <= currentBits <= 64 ->
  exists packed' current' currentBits',
    top_up packed current currentBits = (packed', current', currentBits') /\
    Forall is_byte packed' /\ 0 <= current' < 2 ^ currentBits' /\ 0 <= currentBits' <= 64 /\
    current' + 2 ^ currentBits' * le_value packed' = current + 2 ^ currentBits * le_value packed /\
    currentBits' + 8 * Z.of_nat (length packed') = currentBits + 8 * Z.of_nat (length packed) /\
    (packed' = [] \/ 56 < currentBits').
Proof.
  intros Hb. revert current currentBits.
  induction Hb as [|b packed Hb Hp IH]; intros current cb Hc Hcb; cbn [top_up].
  { eexists [], _, _. split; [done|]. split_and!; auto; lia. }
  unfold TOP_UP_THRESHOLD. destruct (Z.leb_spec cb 56) as [Hle|Hgt].
  2: { eexists (b :: packed), _, _. split; [done|]. split_and!; auto; lia. }
  assert (u64 (b ≪ cb) = b ≪ cb) as ->.
  { apply u64_small. pose proof (shl_mul_byte b cb ltac:(lia) Hb).
    pose proof (Z.pow_le_mono_r 2 (cb + 8) 64). lia. }
  rewrite Z.lor_comm, lor_shiftl_add by lia. unfold is_byte in Hb.
  pose proof (pow2_pos cb ltac:(lia)) as Pc.
  assert (2 ^ (cb + 8) = 2 ^ cb * 256) as E8 by (rewrite Z.pow_add_r by lia; done).
  destruct (IH (b * 2 ^ cb + current) (cb + 8)) as (p & c & n & -> & H1 & H2 & H3 & H4 & H5 & H6);
    [rewrite E8; nia|lia|].
  exists p, c, n. split_and!; try done; try lia; [|cbn [length]; lia].
  rewrite H4, E8. cbn [le_value]. ring.
Qed.

(** The window after [top_up] starts with a whole run. *)
Lemma window_run z val v' cur cb q :
  0 <= z -> 0 <= val < 2 ^ z -> 0 <= cur < 2 ^ cb -> 2 * z + 1 <= cb ->
  cur + 2 ^ cb * q = 2 ^ z + 2 ^ (z + 1) * val + 2 ^ (2 * z + 1) * v' ->
  exists w, cur = 2 ^ z * (1 + 2 * (val + 2 ^ z * w)) /\ 0 <= w < 2 ^ (cb - (2 * z + 1)) /\
    w + 2 ^ (cb - (2 * z + 1)) * q = v'.
Proof.
  intros Hz Hval Hcur Hcb E. set (r := cb - (2 * z + 1)). pose proof (pow2_pos z Hz) as Pz.
  pose proof (pow2_pos r ltac:(lia)) as Pr.
  assert (2 ^ (z + 1) = 2 ^ z * 2) as E1 by (rewrite Z.pow_add_r by lia; done).
  assert (2 ^ (2 * z + 1) = 2 ^ z * 2 ^ z * 2) as E2.
  { replace (2 * z + 1) with (z + z + 1) by lia. rewrite !Z.pow_add_r by lia. done. }
  assert (2 ^ cb = 2 ^ (2 * z + 1) * 2 ^ r) as Ecb.
  { rewrite <- Z.pow_add_r by lia. f_equal. lia. }
  pose proof (Z.div_mod v' (2 ^ r) ltac:(lia)) as Hd.
  pose proof (Z.mod_pos_bound v' (2 ^ r) Pr) as Hm.
  set (w := v' mod 2 ^ r) in *. set (a := 2 ^ z + 2 ^ (z + 1) * val) in *.
  assert (0 <= a < 2 ^ (2 * z + 1)) as Ha.
  { unfold a. rewrite E1, E2. assert (2 ^ z * 2 * val <= 2 ^ z * 2 * (2 ^ z - 1)); nia. }
  set (P := 2 ^ (2 * z + 1)) in *.
  assert (P * w <= P * (2 ^ r - 1)) by (apply Z.mul_le_mono_nonneg_l; lia).
  assert (cur = a + P * w /\ q = v' / 2 ^ r) as [-> ->].
  { assert (q = v' / 2 ^ r /\ cur = a + P * w) as []; [|done].
    apply (Z.div_mod_unique (2 ^ cb)); [left; done|left; rewrite Ecb; nia|].
    rewrite Z.add_comm in E. rewrite E, Ecb. rewrite Hd at 1. ring. }
  exists w. split_and!; [unfold a; rewrite E1, E2; ring|lia|lia|lia].
Qed.

Lemma land1_even x : 0 <= x -> (2 * x) .& 1 = 0.
Proof.
  intros. change 1 with (Z.ones 1). rewrite Z.land_ones by lia. change (2 ^ 1) with 2.
  rewrite Z.mul_comm. apply Z.mod_mul. lia.
Qed.
Lemma land1_odd x : 0 <= x -> (1 + 2 * x) .& 1 = 1.
Proof.
  intros. change 1 with (Z.ones 1) at 2. rewrite Z.land_ones by lia. change (2 ^ 1) with 2.
  rewrite (Z.mul_comm 2), Z.mod_add by lia. done.
Qed.
Lemma shiftr1_odd x : 0 <= x -> (1 + 2 * x) ≫ 1 = x.
Proof.
  intros. rewrite Z.shiftr_div_pow2 by lia. change (2 ^ 1) with 2.
  rewrite (Z.mul_comm 2), Z.div_add by lia. change (1 / 2) with 0. lia.
Qed.

Lemma decode_run_spec bitPos g w cb :
  let z := run_sz g in
  0 <= g -> z < 32 -> 0 <= bitPos < 2 ^ 32 -> 0 <= w -> 2 * z + 1 <= cb <= 64 ->
  decode_run bitPos (2 ^ z * (1 + 2 * (g + 1 - 2 ^ z + 2 ^ z * w))) cb
    = Some (bitPos + g, w, cb - (2 * z + 1)).
Proof.
  intros z Hg Hz32 Hbp Hw Hcb. destruct (run_sz_spec g Hg) as [Hz Hr]. fold z in Hz, Hr.
  pose proof (pow2_pos z Hz) as Pz. pose proof (Z.pow_le_mono_r 2 z 31 ltac:(lia) ltac:(lia)).
  set (m := g + 1 - 2 ^ z + 2 ^ z * w). assert (0 <= m) by (unfold m; nia).
  unfold decode_run. destruct (decide (z = 0)) as [E|E].
  { assert (2 ^ z = 1) as P1 by by rewrite E.
    rewrite P1, Z.mul_1_l, land1_odd, shiftr1_odd by lia. cbn [negb Z.eqb].
    rewrite u64_small by lia. unfold m. rewrite P1. f_equal; f_equal; [f_equal|]; lia. }
  assert (2 ^ z * (1 + 2 * m) = 2 * (2 ^ (z - 1) * (1 + 2 * m))) as Ev.
  { rewrite Z.mul_assoc, <- Z.pow_succ_r by lia. do 2 f_equal. lia. }
  pose proof (pow2_pos (z - 1) ltac:(lia)).
  rewrite Ev at 1. rewrite land1_even by nia. cbn [negb Z.eqb]. rewrite COUNT_TZ_pow by lia.
  unfold shr64. rewrite (proj2 (Z.ltb_lt (z + 1) 64)), (proj2 (Z.ltb_lt z 64)) by lia.
  cbn [mbind option_bind].
  assert ((2 ^ z * (1 + 2 * m)) ≫ (z + 1) = m) as ->.
  { rewrite <- Z.shiftr_shiftr by lia. rewrite (Z.shiftr_div_pow2 _ z), Z.mul_comm, Z.div_mul by lia.
    by apply shiftr1_odd. }
  assert ((1 ≪ z) - 1 = Z.ones z) as -> by (rewrite Z.ones_equiv, Z.shiftl_1_l; lia).
  rewrite Z.land_ones, Z.shiftr_div_pow2, Z.ones_equiv by lia.
  assert (m mod 2 ^ z = g + 1 - 2 ^ z /\ m / 2 ^ z = w) as [-> ->].
  { unfold m. rewrite (Z.mul_comm (2 ^ z) w), Z.mod_add, Z.div_add, Z.mod_small, Z.div_small by lia.
    lia. }
  pow2s. rewrite (u64_small (g + 1 - 2 ^ z + _)) by (pow2s; lia).
  rewrite !u64_small by (pow2s; lia). f_equal; f_equal; [f_equal|]; lia.
Qed.

Lemma decode_loop_spec M s v :
  rle M s v -> forall (fuel : nat) packed bits len bitPos cur cb,
  Forall is_byte packed -> 0 <= cur < 2 ^ cb -> 0 <= cb <= 64 -> packed = [] \/ 0 < cb ->
  cur + 2 ^ cb * le_value packed = v -> s <= cb + 8 * Z.of_nat (length packed) < s + 8 ->
  chunks_ok bits -> len = 64 * Z.of_nat (length bits) -> len <= 65535 ->
  chunks_value bits < 2 ^ bitPos -> 0 <= bitPos -> 2 ^ bitPos * M < 2 ^ len ->
  Z.max 0 (len - bitPos) < Z.of_nat fuel ->
  exists bits', decode_loop fuel packed bits len bitPos cur cb = Some (DPS_OK, bits') /\
    chunks_ok bits' /\ length bits' = length bits /\
    chunks_value bits' = chunks_value bits + 2 ^ bitPos * M.
Proof.
  induction 1 as [|g M s v Hg Hrle IH]; intros fuel packed bits len bitPos cur cb
    Hp Hcur Hcb Hne Hv Hs Hok Hlen H16 Hval Hbp HM Hfuel;
    (destruct fuel as [|fuel]; [lia|]); cbn [decode_loop].
  - assert (packed = []) as -> by (destruct packed; [done|cbn [length] in Hs; lia]).
    assert (cur = 0) as -> by (cbn in Hv; lia). cbn.
    exists bits. split; [by destruct (cb =? 0)|]. split_and!; [done|done|lia].
  - pose proof (rle_facts _ _ _ Hrle) as (HM0 & Hs0 & Hv0).
    destruct (run_sz_spec g Hg) as [Hz Hr]. set (z := run_sz g) in *.
    assert ((cb =? 0) = false) as -> by (apply Z.eqb_neq; destruct Hne as [->|]; cbn in Hs; lia).
    destruct (top_up_spec packed cur cb) as (p & c & n & -> & Hp' & Hc' & Hn' & Ev & El & Hlong);
      [done|done|done|].
    pose proof (pow2_pos g Hg) as Pg. pose proof (pow2_pos bitPos Hbp) as Pb.
    assert (bitPos + g < len) as Hin.
    { apply (Z.pow_lt_mono_r_iff 2); [lia|lia|]. rewrite Z.pow_add_r by lia. nia. }
    assert (z < 16) as Hz16.
    { apply (Z.pow_lt_mono_r_iff 2); [lia|lia|]. change (2 ^ 16) with 65536. lia. }
    assert (2 * z + 1 <= n) as Hn by (destruct Hlong as [->|]; cbn [length] in *; lia).
    destruct (window_run z (g + 1 - 2 ^ z) v c n (le_value p)) as (w & -> & Hw & Hrest);
      [done|done|done|done|lia|].
    pose proof (pow2_pos z Hz) as Pz. assert (0 <= 2 ^ z * w) by (apply Z.mul_nonneg_nonneg; lia).
    rewrite (proj2 (Z.eqb_neq _ 0)) by (apply Z.neq_mul_0; lia).
    unfold z. rewrite decode_run_spec; fold z; try lia. cbn [mbind option_bind].
    rewrite Z.geb_leb, (proj2 (Z.leb_gt len (bitPos + g))) by lia.
    pose proof (Z.pow_le_mono_r 2 bitPos (bitPos + g) ltac:(lia) ltac:(lia)).
    destruct (SET_BIT_value bits (bitPos + g)) as (bits1 & -> & Hl1 & Hok1 & Hv1);
      [done|lia|lia|]. cbn [mbind option_bind]. rewrite u64_small by lia.
    assert (2 ^ (bitPos + g + 1) = 2 ^ bitPos * 2 ^ g * 2) as E1 by (rewrite !Z.pow_add_r by lia; done).
    assert (2 ^ (bitPos + g) = 2 ^ bitPos * 2 ^ g) as E0 by (rewrite !Z.pow_add_r by lia; done).
    destruct (IH fuel p bits1 len (bitPos + g + 1) w (n - (2 * z + 1)))
      as (bits' & -> & Hok' & Hl' & Hv'); try done; try lia.
    { destruct Hlong; [by left|right; lia]. }
    exists bits'. split_and!; [done|done|congruence|]. rewrite Hv', Hv1, E1, E0. ring.
Qed.
