(* ===== verification/BitVecSerial.v ===== *)
(** * Serialised bit vectors: both encodings decode to the vector that was
    written *)
From S2P Require Import Prelude Status Buffer Float Cbor CborProofs CborValues CborWrap.
From S2P Require Import BitVec BitVecProofs Bloom Rle.

(** ** Raw chunks *)

Lemma le_bytes_length n x : length (le_bytes n x) = n.
Proof. revert x. induction n; simpl; auto. Qed.

Lemma le_bytes_are_bytes n x : Forall is_byte (le_bytes n x).
Proof. revert x. induction n; simpl; constructor; auto using u8_byte. Qed.

Lemma le_value_le_bytes n x : 0 <= x < 2 ^ (8 * Z.of_nat n) -> le_value (le_bytes n x) = x.
Proof.
  revert x. induction n as [|n IH]; intros x Hx; cbn [le_bytes le_value].
  - change (2 ^ (8 * Z.of_nat 0)) with 1 in Hx. lia.
  - rewrite Nat2Z.inj_succ in Hx. replace (8 * Z.succ (Z.of_nat n)) with (8 + 8 * Z.of_nat n) in Hx by lia.
    rewrite Z.pow_add_r in Hx by lia. change (2 ^ 8) with 256 in Hx.
    rewrite Z.shiftr_div_pow2 by lia. unfold u8. change (2 ^ 8) with 256.
    rewrite IH by (split; [apply Z.div_pos|apply Z.div_lt_upper_bound]; lia).
    pose proof (Z.div_mod x 256). lia.
Qed.

Lemma bytes_of_chunks_length l : length (bytes_of_chunks l) = (8 * length l)%nat.
Proof.
  unfold bytes_of_chunks. induction l as [|c l IH]; [done|].
  cbn [map concat]. rewrite length_app, le_bytes_length, IH. cbn [length]. lia.
Qed.

Lemma bytes_of_chunks_bytes l : Forall is_byte (bytes_of_chunks l).
Proof.
  unfold bytes_of_chunks. induction l; [constructor|].
  cbn [map concat]. apply Forall_app_2; [apply le_bytes_are_bytes|done].
Qed.

Lemma words_of_chunks l : chunks_ok l -> words_of_bytes 8 (length l) (bytes_of_chunks l) = l.
Proof.
  unfold bytes_of_chunks. induction 1 as [|c l Hc _ IH]; [done|].
  cbn [map concat length words_of_bytes].
  rewrite take_app_length', drop_app_length' by by rewrite le_bytes_length.
  rewrite le_value_le_bytes by exact Hc. by rewrite IH.
Qed.

(** ** Complement *)

Lemma complemented_0 l : complemented 0 l = l.
Proof. unfold complemented. rewrite <- (map_id l) at 2. apply map_ext. intros. apply Z.lxor_0_r. Qed.

Lemma lxor_ones_lnot c : is_word 64 c -> c .^ CHUNK_MAX = u64 (Z.lnot c).
Proof.
  intros Hc. unfold u64. apply Z.bits_inj'. intros i Hi.
  change CHUNK_MAX with (Z.ones 64). rewrite Z.lxor_spec, Z.testbit_ones_nonneg by lia.
  destruct (Z.ltb_spec i 64).
  - rewrite Z.mod_pow2_bits_low, Z.lnot_spec by lia. by destruct (Z.testbit c i).
  - rewrite Z.mod_pow2_bits_high, (testbit_ge_pow2 c 64) by (apply Hc || lia). done.
Qed.

Lemma complemented_lnot l :
  chunks_ok l -> complemented CHUNK_MAX l = map (fun c => u64 (Z.lnot c)) l.
Proof.
  induction 1 as [|c l Hc _ IH]; [done|]. cbn [complemented map]. fold (complemented CHUNK_MAX l).
  by rewrite IH, lxor_ones_lnot.
Qed.

Lemma complemented_ok k l : k = 0 \/ k = CHUNK_MAX -> chunks_ok l -> chunks_ok (complemented k l).
Proof.
  intros Hk. unfold complemented. induction 1 as [|c l Hc _ IH]; cbn [map]; constructor; [|done].
  apply (lxor_range _ _ 64); [lia|exact Hc|]. destruct Hk as [->| ->]; unfold CHUNK_MAX; pow2s; lia.
Qed.

Lemma complemented_twice k l : complemented k (complemented k l) = l.
Proof.
  unfold complemented. rewrite map_map. rewrite <- (map_id l) at 2. apply map_ext. intros c.
  rewrite Z.lxor_assoc, Z.lxor_nilpotent. apply Z.lxor_0_r.
Qed.

Definition rle_complement (flags : Z) : Z :=
  if negb (flags .& FLAG_RLE_COMPLEMENT =? 0) then CHUNK_MAX else 0.

Lemma rle_complement_cases flags : rle_complement flags = 0 \/ rle_complement flags = CHUNK_MAX.
Proof. unfold rle_complement. case_if; auto. Qed.

(** ** The run-length coder and decoder *)

(** [bs] is a packed code of the set [l]: the bits, then padding. *)
Definition rle_packed (l bs : list Z) : Prop :=
  Forall is_byte bs /\ exists s, rle (chunks_value l) s (le_value bs) /\
    s <= 8 * Z.of_nat (length bs) < s + 8.

Lemma le_value_take n l k :
  Forall is_byte l -> le_value l < 2 ^ k -> 0 <= k <= 8 * Z.of_nat n -> (n <= length l)%nat ->
  le_value (take n l) = le_value l.
Proof.
  intros Hb Hv Hk Hn. rewrite <- (take_drop n l) at 2. rewrite le_value_app.
  rewrite length_take, Nat.min_l by lia.
  pose proof (le_value_bound _ (Forall_take _ n _ Hb)).
  pose proof (le_value_bound _ (Forall_drop _ n _ Hb)) as [Hd _].
  pose proof (Z.pow_le_mono_r 2 k (8 * Z.of_nat n) ltac:(lia) ltac:(lia)).
  rewrite <- (take_drop n l), le_value_app, length_take, Nat.min_l in Hv by lia.
  set (P := 2 ^ (8 * Z.of_nat n)) in *.
  assert (le_value (drop n l) = 0) as -> by nia. lia.
Qed.

Lemma RunLengthEncode_spec bv b flags :
  bv_wf bv -> len bv <= 65535 -> popCount bv <> 0 ->
  tx_wf b -> tx_fits b (Z.to_nat (len bv / 8) + 2) ->
  exists ret b', RunLengthEncode bv b flags = Some (ret, b') /\
    length (tx_mem b') = length (tx_mem b) /\ Forall is_byte (tx_mem b') /\
    (ret = DPS_ERR_OVERFLOW \/
     ret = DPS_OK /\ exists bs rest, tx_mem b' = tx_written b ++ bs ++ rest /\
       tx_pos b' = (tx_pos b + length bs)%nat /\ Z.of_nat (length bs) <= len bv / 8 /\
       rle_packed (complemented (rle_complement flags) (bits bv)) bs).
Proof.
  intros Hwf H16 Hpc Htx Hfit. pose proof Htx as (Hp & Hl32 & Hbytes). unfold tx_fits in Hfit.
  pose proof (bv_len _ Hwf) as Hlen. pose proof (complemented_ok _ _ (rle_complement_cases flags) (bv_chunks _ Hwf)) as Hok.
  assert (len bv / 8 = 8 * Z.of_nat (length (bits bv))) as E8.
  { rewrite Hlen. replace (64 * Z.of_nat (length (bits bv))) with (8 * Z.of_nat (length (bits bv)) * 8) by lia.
    by rewrite Z.div_mul. }
  unfold RunLengthEncode. rewrite (proj2 (Z.eqb_neq _ 0)) by done. fold (rle_complement flags).
  rewrite DPS_TxBufferSpace_spec by done. unfold tx_space.
  rewrite (proj2 (Z.ltb_ge _ _)) by lia.
  set (n := Z.to_nat (len bv / 8)) in *. set (reg := replicate n 0).
  assert (length reg = n) as Ereg by apply length_replicate.
  rewrite mem_write_fits by (rewrite Ereg; lia). cbn [mbind option_bind].
  fold (tx_written b). rewrite Ereg. set (suf := drop (tx_pos b + n) (tx_mem b)).
  assert (length (tx_written b) = tx_pos b) as Epre by (unfold tx_written; rewrite length_take; lia).
  assert (length suf = length (tx_mem b) - (tx_pos b + n))%nat as Esuf by (unfold suf; by rewrite length_drop).
  destruct (encode_chunks_spec (len bv) (tx_written b) reg suf (rle_complement flags) (bits bv) 0 0)
    as (ret & mem & k & Hcall & Hlm & Hmb & Hout); try done; try lia.
  { repeat apply Forall_app_2; [by apply Forall_take| |by apply Forall_drop].
    apply Forall_replicate. unfold is_byte. lia. }
  { unfold reg. rewrite le_value_zeros. done. }
  rewrite Epre in Hcall. rewrite Hcall.
  assert (length mem = length (tx_mem b)) as Hlm'.
  { rewrite Hlm, !length_app, Epre, Esuf, Ereg. lia. }
  cbn [mbind option_bind]. destruct Hout as [->|(-> & Hk & reg' & -> & Henc)]; cbn [is_OK negb].
  { eexists _, _. split; [done|]. split_and!; [done|done|by left]. }
  destruct Henc as (Hlr & Hbr & Hk0 & Hvr & Henc).
  destruct (Henc 0 0 rle_nil) as (s & v & Hrle & Es & Ev).
  unfold reg in Ev. rewrite le_value_zeros in Ev. rewrite Ereg in Hlr.
  rewrite Z.pow_0_r, !Z.mul_1_l, Z.mul_0_r in *.
  rewrite Z.gtb_ltb, (proj2 (Z.ltb_ge _ _)) by lia.
  assert (8 * ((k + 7) / 8) <= k + 7 < 8 * ((k + 7) / 8) + 8) as Hd by (Z.div_mod_to_equations; lia).
  set (m := Z.to_nat ((k + 7) / 8)). assert (m <= n)%nat as Hmn by lia.
  eexists _, _. split; [done|]. split_and!; [done|done|]. right. split; [done|].
  exists (take m reg'), (drop m reg' ++ suf).
  assert (length (take m reg') = m) as Elm by (rewrite length_take; lia).
  cbn [tx_mem tx_pos]. rewrite Elm. split_and!; [|done|lia|].
  - by rewrite (app_assoc (take m reg')), take_drop.
  - split; [by apply Forall_take|]. exists s. rewrite Elm, (le_value_take m reg' k) by (done || lia).
    replace (le_value reg') with v by lia. split; [done|lia].
Qed.

Lemma rle_size_0 M v : rle M 0 v -> M = 0.
Proof.
  intros H. remember 0 as s eqn:E. destruct H as [|g M s v Hg H]; [done|].
  pose proof (rle_facts _ _ _ H). pose proof (run_sz_spec g Hg). lia.
Qed.

Lemma RunLengthDecode_spec l bs :
  chunks_ok l -> 64 * Z.of_nat (length l) <= 65535 -> rle_packed l bs ->
  RunLengthDecode bs (length l) (64 * Z.of_nat (length l)) = Some (DPS_OK, l).
Proof.
  intros Hok H16 (Hb & s & Hrle & Hs). pose proof (rle_facts _ _ _ Hrle) as (_ & Hs0 & _).
  assert (Hz : chunks_value (replicate (length l) 0) = 0).
  { induction (length l) as [|n IH]; [done|]. cbn [replicate chunks_value]. lia. }
  unfold RunLengthDecode. destruct bs as [|b bs].
  - cbn [length] in Hs. replace s with 0 in Hrle by lia. apply rle_size_0 in Hrle. do 2 f_equal.
    apply chunks_value_inj; [apply zeros_ok|done|by rewrite length_replicate|congruence].
  - apply Forall_cons_iff in Hb as [Hb1 Hb].
    destruct (decode_loop_spec _ _ _ Hrle (S (Z.to_nat (64 * Z.of_nat (length l)))) bs
      (replicate (length l) 0) (64 * Z.of_nat (length l)) 0 b 8) as (l' & E & Hok' & Hl' & Hv');
      rewrite ?length_replicate, ?Hz, ?Z.pow_0_r, ?Z.mul_1_l in *; try done; try lia.
    + cbn [length] in Hs. lia.
    + apply zeros_ok.
    + by apply chunks_value_bound.
    + rewrite E. do 2 f_equal. apply chunks_value_inj; done || lia.
Qed.

(** ** The load factor and the encoding it selects *)

Definition vector_load (n l : Z) : Z := (DPS_BitVectorLoadFactor (mkBV n l [])).1.

(** No size of vector makes the encoder take the complement of an empty one. *)
Lemma empty_load_table :
  forallb (fun k => serialize_flags (vector_load 0 (64 * k)) =? FLAG_RLE_ENCODED) (seqZ 1 1023) = true.
Proof. vm_compute. reflexivity. Qed.

Lemma empty_flags k : 1 <= k <= 1023 -> serialize_flags (vector_load 0 (64 * k)) = FLAG_RLE_ENCODED.
Proof.
  intros Hk. pose proof empty_load_table as H. rewrite forallb_forall in H.
  apply Z.eqb_eq, (H k), list_elem_of_In, elem_of_seqZ. lia.
Qed.

Lemma LoadFactor_spec bv :
  bv_wf bv ->
  DPS_BitVectorLoadFactor bv = (vector_load (chunks_count (bits bv)) (len bv),
                                set_popCount bv (chunks_count (bits bv))).
Proof.
  intros Hwf. unfold vector_load, DPS_BitVectorLoadFactor. rewrite DPS_BitVectorPopCount_spec by done.
  pose proof (bv_count_bound _ Hwf). pose proof (bv_small _ Hwf).
  unfold DPS_BitVectorPopCount at 1, UNKNOWN_POPCOUNT. cbn [popCount len].
  rewrite (proj2 (Z.ltb_ge _ 0)) by lia. cbn [popCount len fst]. rewrite u64_small by lia. done.
Qed.

Lemma serialize_flags_cases load :
  serialize_flags load = 1 \/ serialize_flags load = 3 \/ serialize_flags load = 0.
Proof. unfold serialize_flags. repeat case_if; auto. Qed.

(** ** The wire format *)

(** [payload] is a byte string that [flags] says how to read as the set [l]. *)
Definition bv_payload (flags : Z) (l payload : list Z) : Prop :=
  (flags = 0 /\ payload = bytes_of_chunks l) \/
  ((flags = 1 \/ flags = 3) /\ rle_packed (complemented (rle_complement flags) l) payload).

Definition bv_wire (flags l : Z) (payload : list Z) : list Z :=
  cbor_head CBOR_ARRAY 3 ++ cbor_head CBOR_UINT flags ++ cbor_head CBOR_UINT l ++
  cbor_head CBOR_BYTES (Z.of_nat (length payload)) ++ payload.

Lemma decoded_bytes_spec rx h bs tl :
  rx_wf rx -> rx_rest rx = h ++ bs ++ tl ->
  decoded_bytes (rx_skip rx (length (h ++ bs)))
    (if decide (bs = []) then None else Some (rx_pos rx + length h)%nat) (Z.of_nat (length bs)) = Some bs.
Proof.
  intros Hwf E. unfold decoded_bytes. case_decide as H; [by subst|].
  rewrite Nat2Z.id. cbn [rx_mem rx_skip rx_set_pos]. by apply (rx_read_payload _ _ _ tl).
Qed.

Lemma Complement_bits bv :
  chunks_ok (bits bv) ->
  bits (DPS_BitVectorComplement bv) = complemented CHUNK_MAX (bits bv) /\
  len (DPS_BitVectorComplement bv) = len bv.
Proof.
  intros H. unfold DPS_BitVectorComplement. rewrite <- complemented_lnot by done.
  cbn [popCount set_bits]. by destruct (negb (popCount bv =? 0)).
Qed.

(** The decoder on a well-formed array, up to the choice of the encoding. *)
Lemma Deserialize_heads fresh rx flags payload tl :
  rx_wf rx -> 0 <= len fresh < 2 ^ 32 -> 0 <= flags < 4 -> Z.of_nat (length payload) <= len fresh / 8 ->
  rx_rest rx = bv_wire flags (len fresh) payload ++ tl ->
  DPS_BitVectorDeserialize fresh rx =
    let buffer := rx_skip rx (length (bv_wire flags (len fresh) payload)) in
    if negb (flags .& FLAG_RLE_ENCODED =? 0) then
      '(ret, l) ← RunLengthDecode payload (length (bits fresh)) (len fresh);
      let bv := set_bits fresh l in
      Some (ret, if is_OK ret && negb (flags .& FLAG_RLE_COMPLEMENT =? 0)
                 then DPS_BitVectorComplement bv else bv, buffer)
    else if Z.of_nat (length payload) =? len fresh / 8
    then Some (DPS_OK, set_bits fresh (words_of_bytes 8 (length (bits fresh)) payload), buffer)
    else Some (DPS_ERR_INVALID, fresh, buffer).
Proof.
  intros Hrx Hn Hflags Hpl E. unfold bv_wire in *. rewrite <- !app_assoc in E.
  set (h1 := cbor_head CBOR_ARRAY 3) in *. set (h2 := cbor_head CBOR_UINT flags) in *.
  set (h3 := cbor_head CBOR_UINT (len fresh)) in *.
  set (h4 := cbor_head CBOR_BYTES (Z.of_nat (length payload))) in *.
  assert (0 <= len fresh / 8 < 2 ^ 32) as Hn8 by (Z.div_mod_to_equations; lia).
  unfold DPS_BitVectorDeserialize, CBOR_DecodeArray, CBOR_DecodeUint.
  rewrite (DecodeUint_spec rx CBOR_ARRAY 3 0 _) by (major || lia || exact E). fold h1.
  cbn [mbind option_bind is_OK negb]. unfold SIZE_MAX.
  change (is_OK DPS_OK) with true. change (3 >? 18446744073709551615) with false. cbv iota beta.
  change (u64 3) with 3. cbn [mbind option_bind is_OK negb Z.eqb Pos.eqb].
  pose proof (rx_skip_app_wf _ _ _ Hrx E) as W1. apply rx_rest_skip_app in E as E1.
  rewrite (DecodeUint_spec _ CBOR_UINT flags 0 _ W1) by (major || lia || exact E1). fold h2.
  cbn [mbind option_bind is_OK negb].
  pose proof (rx_skip_app_wf _ _ _ W1 E1) as W2. apply rx_rest_skip_app in E1 as E2.
  rewrite (DecodeUint_spec _ CBOR_UINT (len fresh) 0 _ W2) by (major || lia || exact E2). fold h3.
  cbn [mbind option_bind is_OK negb]. rewrite Z.eqb_refl. cbn [negb].
  pose proof (rx_skip_app_wf _ _ _ W2 E2) as W3. apply rx_rest_skip_app in E2 as E3.
  rewrite (CBOR_DecodeBytes_spec _ payload tl W3) by (lia || exact E3). fold h4.
  cbn [mbind option_bind is_OK negb].
  rewrite (decoded_bytes_spec _ h4 payload tl W3 E3), !rx_skip_skip. cbn [mbind option_bind].
  replace (length (h1 ++ h2 ++ h3 ++ h4 ++ payload)) with
    (length h1 + length h2 + length h3 + length (h4 ++ payload))%nat by (rewrite !length_app; lia).
  done.
Qed.

Lemma DPS_BitVectorDeserialize_spec fresh rx flags l payload tl :
  rx_wf rx -> bv_wf fresh -> len fresh <= 65535 -> length l = length (bits fresh) ->
  chunks_ok l -> Z.of_nat (length payload) <= len fresh / 8 -> bv_payload flags l payload ->
  rx_rest rx = bv_wire flags (len fresh) payload ++ tl ->
  exists bv2, DPS_BitVectorDeserialize fresh rx =
      Some (DPS_OK, bv2, rx_skip rx (length (bv_wire flags (len fresh) payload))) /\
    bits bv2 = l /\ len bv2 = len fresh.
Proof.
  intros Hrx Hwf H16 Hl Hok Hpl Hp E. pose proof (bv_len _ Hwf) as Hlen.
  rewrite (Deserialize_heads fresh rx flags payload tl)
    by (unfold bv_payload in Hp; done || lia). cbv zeta.
  destruct Hp as [[-> ->]|[Hf Hr]].
  - change (negb (0 .& FLAG_RLE_ENCODED =? 0)) with false. cbv iota.
    rewrite bytes_of_chunks_length. rewrite (proj2 (Z.eqb_eq _ _)) by (Z.div_mod_to_equations; lia).
    eexists. split; [done|]. cbn [bits set_bits len]. rewrite <- Hl. split; [by apply words_of_chunks|done].
  - assert (negb (flags .& FLAG_RLE_ENCODED =? 0) = true) as -> by (destruct Hf as [->| ->]; done).
    pose proof (complemented_ok _ _ (rle_complement_cases flags) Hok) as Hok'.
    assert (length (complemented (rle_complement flags) l) = length l) as Hcl by apply length_map.
    pose proof (RunLengthDecode_spec _ _ Hok' ltac:(rewrite Hcl; lia) Hr) as HD.
    rewrite Hcl, Hl, <- Hlen in HD. rewrite HD. cbn [mbind option_bind is_OK andb].
    eexists. split; [done|]. destruct Hf as [->| ->].
    + cbn [bits set_bits len]. split; [apply complemented_0|done].
    + change (is_OK DPS_OK && negb (3 .& FLAG_RLE_COMPLEMENT =? 0)) with true. cbv iota.
      destruct (Complement_bits (set_bits fresh (complemented (rle_complement 3) l))) as [-> ->]; [done|].
      cbn [bits set_bits len]. split; [apply (complemented_twice CHUNK_MAX)|done].
Qed.

(** ** Writing *)

Lemma wrapped_in_place mem p hint bs w rest :
  mem = w ++ cbor_head CBOR_BYTES (Z.of_nat hint) ++ bs ++ rest -> length w = p ->
  wrapped (mkTx mem p) hint bs =
    mkTx mem (p + length (cbor_head CBOR_BYTES (Z.of_nat hint)) + length bs).
Proof.
  intros -> <-. unfold wrapped, tx_app. cbn [tx_mem tx_pos]. f_equal.
  - rewrite take_app_length, drop_app_ge, (app_assoc _ bs), drop_app_length' by lia.
    by rewrite !app_assoc.
  - rewrite length_app. lia.
Qed.

Lemma cbor_head_mono maj a b :
  a <= b -> (length (cbor_head maj a) <= length (cbor_head maj b))%nat.
Proof.
  intros H. apply Nat2Z.inj_le. rewrite !cbor_head_sizeof. unfold CBOR_SIZEOF_LEN, UINT8_MAX, UINT16_MAX, UINT32_MAX.
  repeat case_if; bools; lia.
Qed.

Lemma tx_app_split b bs :
  tx_wf b -> tx_fits b (length bs) ->
  exists rest, tx_mem (tx_app b bs) = tx_written b ++ bs ++ rest /\ length (tx_written b) = tx_pos b.
Proof.
  intros [Hp _] Hf. unfold tx_app, tx_written. cbn [tx_mem]. eexists. split; [done|].
  rewrite length_take. lia.
Qed.

Definition wrap_ok (b : DPS_TxBuffer) (res : option (DPS_Status * DPS_TxBuffer * bool))
    (P : list Z -> Prop) (room : Z) (may_overflow : Prop) : Prop :=
  exists ret b', res = Some (ret, b', false) /\ length (tx_mem b') = length (tx_mem b) /\
    (ret = DPS_OK -> tx_wf b') /\
    (ret = DPS_ERR_OVERFLOW /\ may_overflow \/
     ret = DPS_OK /\ exists payload, P payload /\ Z.of_nat (length payload) <= room /\
       tx_written b' = tx_written b ++ cbor_head CBOR_BYTES (Z.of_nat (length payload)) ++ payload).

(** [CBOR_EndWrapBytes] on a payload that is in place behind its head. *)
Lemma EndWrap_in_place mem w hint bs rest :
  mem = w ++ cbor_head CBOR_BYTES (Z.of_nat hint) ++ bs ++ rest ->
  Z.of_nat (length mem) < 2 ^ 32 -> Forall is_byte mem -> (length bs <= hint)%nat ->
  Z.of_nat hint < 2 ^ 32 ->
  exists b', CBOR_EndWrapBytes
      (mkTx mem (length w + length (cbor_head CBOR_BYTES (Z.of_nat hint)) + length bs)) (length w)
      = Some (DPS_OK, b') /\ length (tx_mem b') = length mem /\ tx_wf b' /\
    tx_written b' = w ++ cbor_head CBOR_BYTES (Z.of_nat (length bs)) ++ bs.
Proof.
  intros Em Hl Hb Hbs Hh. set (h0 := cbor_head CBOR_BYTES (Z.of_nat hint)) in *.
  assert (Forall is_byte bs) as Hbb.
  { rewrite Em in Hb. rewrite !Forall_app in Hb. apply Hb. }
  assert (length mem = length w + length h0 + length bs + length rest)%nat as Elm
    by (rewrite Em, !length_app; lia).
  pose proof (cbor_head_mono CBOR_BYTES (Z.of_nat (length bs)) (Z.of_nat hint) ltac:(lia)) as Hm.
  fold h0 in Hm.
  destruct (EndWrap_ok (mkTx mem (length w)) hint bs) as (b' & E & Hw & Hl' & Hwf').
  - unfold tx_wf. cbn [tx_pos tx_mem]. split_and!; [lia|done|done].
  - done.
  - done.
  - unfold tx_fits. cbn [tx_pos tx_mem]. fold h0. lia.
  - unfold tx_fits. cbn [tx_pos tx_mem]. lia.
  - rewrite (wrapped_in_place mem _ hint bs w rest Em eq_refl) in E. cbn [tx_pos] in E.
    exists b'. split; [exact E|]. split; [exact Hl'|]. split; [exact Hwf'|]. rewrite Hw. f_equal.
    unfold tx_written. cbn [tx_pos tx_mem]. rewrite Em. apply take_app_length.
Qed.

Lemma chunks_value_zeros l : Forall (eq 0) l -> chunks_value l = 0.
Proof. induction 1 as [|? ? <- _ IH]; cbn [chunks_value]; lia. Qed.

(** The byte string of the run-length encoding, from the reservation on. *)
Lemma wrap_rle bv b flags resetPos :
  bv_wf bv -> len bv <= 65535 -> tx_wf b -> popCount bv = chunks_count (bits bv) ->
  flags = 1 \/ flags = 3 -> (popCount bv = 0 -> flags = 1) ->
  tx_fits b (length (cbor_head CBOR_BYTES (len bv / 8)) + Z.to_nat (len bv / 8) + 2) ->
  wrap_ok b
    ('(ret, buffer, wrapPos) ← CBOR_StartWrapBytes b (Z.to_nat (len bv / 8));
     if is_OK ret then
       '(ret, buffer) ← RunLengthEncode bv buffer flags;
       if is_OK ret then
         '(ret, buffer) ← CBOR_EndWrapBytes buffer wrapPos; Some (ret, buffer, false)
       else Some (ret, buffer, false)
     else if bool_decide (ret = DPS_ERR_OVERFLOW) then Some (ret, tx_set_pos buffer resetPos, true)
     else Some (ret, buffer, false))
    (fun bs => rle_packed (complemented (rle_complement flags) (bits bv)) bs) (len bv / 8) True.
Proof.
  intros Hwf H16 Htx Hpc Hf H0 Hfit. pose proof (bv_len _ Hwf) as Hlen.
  assert (0 <= len bv / 8 < 2 ^ 32) as H8 by (Z.div_mod_to_equations; lia).
  set (hint := Z.to_nat (len bv / 8)) in *.
  assert (Z.of_nat hint = len bv / 8) as Eh by (unfold hint; lia). rewrite <- Eh in Hfit.
  set (h0 := cbor_head CBOR_BYTES (Z.of_nat hint)) in *. unfold tx_fits in Hfit.
  assert (Forall is_byte h0) as Hh0 by (apply cbor_head_bytes; (major || lia)).
  assert (tx_fits b (length h0)) as Hfit0 by (unfold tx_fits; lia).
  pose proof (tx_app_wf b h0 Htx Hfit0 Hh0) as Htx1.
  rewrite (CBOR_StartWrapBytes_spec b hint) by (done || lia || (unfold tx_fits; fold h0; lia)).
  unfold wrapped. fold h0. rewrite app_nil_r. cbn [mbind option_bind is_OK].
  change (is_OK DPS_OK) with true. cbv iota.
  destruct (tx_app_split b h0 Htx Hfit0) as (rest0 & Em0 & Ew).
  destruct Htx as (Hp & Hl32 & Hbb). pose proof (tx_app_length b h0 Hfit0) as El0.
  destruct (decide (popCount bv = 0)) as [Ez|Ez].
  { unfold RunLengthEncode. rewrite Ez. cbn [Z.eqb mbind option_bind is_OK].
    destruct (EndWrap_in_place (tx_mem (tx_app b h0)) (tx_written b) hint [] rest0)
      as (b' & E & Hl' & Hwf' & Hw'); rewrite ?El0; try done; try (cbn; lia); [apply Htx1|].
    fold h0 in E. rewrite Ew in E. cbn [length] in E. rewrite Nat.add_0_r in E.
    change (mkTx _ _) with (tx_app b h0) in E. rewrite E. cbn [mbind option_bind].
    eexists _, _. split; [done|]. split; [congruence|]. split; [done|]. right. split; [done|].
    exists []. split_and!; [|cbn; lia|exact Hw']. rewrite H0, complemented_0 by done.
    split; [constructor|]. exists 0. cbn [length le_value]. split; [|lia].
    replace (chunks_value (bits bv)) with 0; [constructor|].
    assert (Forall (eq 0) (bits bv)) as Hz by (apply chunks_count_0; [apply Hwf|lia]).
    by rewrite chunks_value_zeros. }
  destruct (RunLengthEncode_spec bv (tx_app b h0) flags) as (ret & b1 & E1 & Hl1 & Hb1 & Hout); try done.
  { unfold tx_fits. rewrite El0, tx_app_pos. fold hint. lia. }
  rewrite E1. cbn [mbind option_bind]. destruct Hout as [->|(-> & bs & rest & Em & Ep & Hbs & Hr)].
  { eexists _, _. split; [done|]. split; [congruence|]. split; [done|]. by left. }
  change (is_OK DPS_OK) with true. cbv iota. rewrite tx_app_written in Em by done.
  rewrite <- app_assoc in Em.
  destruct (EndWrap_in_place (tx_mem b1) (tx_written b) hint bs rest) as (b' & E & Hl' & Hwf' & Hw');
    try done; try lia.
  destruct b1 as [m1 p1]. cbn [tx_mem tx_pos] in *. rewrite tx_app_pos in Ep.
  fold h0 in E. rewrite Ew, <- Ep in E. rewrite E. cbn [mbind option_bind].
  eexists _, _. split; [done|]. split; [congruence|]. split; [done|]. right. split; [done|].
  by exists bs.
Qed.

(** A round writes the flags, the length and the payload, or reports that a
    run-length code is longer than the vector. *)
Lemma SerializeRound_spec bv b flags :
  bv_wf bv -> len bv <= 65535 -> tx_wf b -> popCount bv = chunks_count (bits bv) ->
  flags = 0 \/ flags = 1 \/ flags = 3 -> (popCount bv = 0 -> flags <> 3) ->
  tx_fits b (length (cbor_head CBOR_UINT flags ++ cbor_head CBOR_UINT (len bv) ++
                     cbor_head CBOR_BYTES (len bv / 8)) + Z.to_nat (len bv / 8) + 2) ->
  exists ret b', SerializeRound bv b flags = Some (ret, b', false) /\
    length (tx_mem b') = length (tx_mem b) /\
    (ret = DPS_OK -> tx_wf b') /\
    (ret = DPS_ERR_OVERFLOW /\ flags <> 0 \/
     ret = DPS_OK /\ exists payload, bv_payload flags (bits bv) payload /\
       Z.of_nat (length payload) <= len bv / 8 /\
       tx_written b' = tx_written b ++ cbor_head CBOR_UINT flags ++ cbor_head CBOR_UINT (len bv) ++
         cbor_head CBOR_BYTES (Z.of_nat (length payload)) ++ payload).
Proof.
  intros Hwf H16 Htx Hpc Hf H3 Hfit. pose proof (bv_len _ Hwf) as Hlen.
  assert (0 <= len bv / 8 < 2 ^ 32) as H8 by (Z.div_mod_to_equations; lia).
  set (h2 := cbor_head CBOR_UINT flags) in *. set (h3 := cbor_head CBOR_UINT (len bv)) in *.
  rewrite !length_app in Hfit. unfold tx_fits in Hfit.
  assert (tx_fits b (length h2)) as F2 by (unfold tx_fits; lia).
  assert (tx_wf (tx_app b h2)) as W2 by (apply tx_app_wf; [done|done|apply cbor_head_bytes; (major || lia)]).
  assert (tx_fits (tx_app b h2) (length h3)) as F3 by (apply tx_app_fits; unfold tx_fits; lia || done).
  assert (tx_wf (tx_app (tx_app b h2) h3)) as W3
    by (apply tx_app_wf; [done|done|apply cbor_head_bytes; (major || lia)]).
  unfold SerializeRound, CBOR_EncodeUint.
  rewrite EncodeUint_spec by (done || major || lia). fold h2. rewrite decide_True by done.
  cbn [mbind option_bind is_OK negb]. change (is_OK DPS_OK) with true. cbn [negb].
  rewrite EncodeUint_spec by (done || major || lia). fold h3. rewrite decide_True by done.
  cbn [mbind option_bind]. change (is_OK DPS_OK) with true. cbn [negb].
  set (b3 := tx_app (tx_app b h2) h3) in *.
  assert (tx_written b3 = tx_written b ++ h2 ++ h3) as E3.
  { unfold b3. rewrite !tx_app_written by done. by rewrite <- app_assoc. }
  assert (length (tx_mem b3) = length (tx_mem b) /\
          tx_pos b3 = (tx_pos b + length h2 + length h3)%nat) as [L3 P3].
  { unfold b3. rewrite !tx_app_length by done. split; [done|]. rewrite !tx_app_pos. lia. }
  destruct Hf as [->|Hf].
  - change (negb (0 .& FLAG_RLE_ENCODED =? 0)) with false. cbv iota.
    replace (Z.to_nat (len bv / 8)) with (length (bytes_of_chunks (bits bv)))
      by (rewrite bytes_of_chunks_length; Z.div_mod_to_equations; lia).
    assert (Z.of_nat (length (bytes_of_chunks (bits bv))) = len bv / 8) as Eb
      by (rewrite bytes_of_chunks_length; Z.div_mod_to_equations; lia).
    rewrite (enc_spec_ok _ _ _ (CBOR_EncodeBytes_enc b3 (bytes_of_chunks (bits bv)) W3 ltac:(lia))).
    2: { unfold tx_fits. rewrite length_app, L3, P3, Eb. lia. }
    cbn [mbind option_bind]. eexists _, _. split; [done|].
    rewrite tx_app_length by (unfold tx_fits; rewrite length_app, L3, P3, Eb; lia).
    split; [done|]. split; [intros _; apply tx_app_wf; [done|unfold tx_fits; rewrite length_app, L3, P3, Eb; lia|]|].
    { apply Forall_app_2; [apply cbor_head_bytes; (major || lia)|apply bytes_of_chunks_bytes]. }
    right. split; [done|]. eexists. split_and!; [by left|lia|].
    by rewrite tx_app_written, E3, <- !app_assoc by done.
  - assert (negb (flags .& FLAG_RLE_ENCODED =? 0) = true) as -> by (destruct Hf as [->| ->]; done).
    destruct (wrap_rle bv b3 flags (tx_pos b)) as (ret & b' & -> & Hl' & Hwf' & Hout); try done.
    + intros E. specialize (H3 E). tauto.
    + unfold tx_fits. rewrite L3, P3. lia.
    + eexists _, _. split; [done|]. split; [congruence|]. split; [done|].
      destruct Hout as [[-> _]|(-> & payload & HP & Hpl & Hw)]; [left; split; [done|]|right].
      * destruct Hf; lia.
      * split; [done|]. exists payload. split_and!; [by right|done|].
        by rewrite Hw, E3, <- !app_assoc.
Qed.

(** What [DPS_BitVectorSerialize] does in a buffer of the size that
    [DPS_BitVectorSerializeMaxSize] announces. *)
Lemma DPS_BitVectorSerialize_spec bv b :
  bv_wf bv -> 0 < len bv <= 65535 -> tx_wf b ->
  tx_fits b (Z.to_nat (DPS_BitVectorSerializeMaxSize bv)) ->
  let flags := serialize_flags (vector_load (chunks_count (bits bv)) (len bv)) in
  exists ret b', DPS_BitVectorSerialize bv b =
      Some (ret, set_popCount bv (chunks_count (bits bv)), b') /\
    length (tx_mem b') = length (tx_mem b) /\
    (ret = DPS_OK -> tx_wf b') /\
    (ret = DPS_ERR_OVERFLOW /\ flags <> 0 \/
     ret = DPS_OK /\ exists payload, bv_payload flags (bits bv) payload /\
       Z.of_nat (length payload) <= len bv / 8 /\
       tx_written b' = tx_written b ++ bv_wire flags (len bv) payload).
Proof.
  intros Hwf H16 Htx Hfit flags. pose proof (bv_len _ Hwf) as Hlen.
  assert (0 <= len bv / 8 < 2 ^ 32) as H8 by (Z.div_mod_to_equations; lia).
  unfold tx_fits, DPS_BitVectorSerializeMaxSize, CBOR_SIZEOF, CBOR_SIZEOF_BYTES in Hfit.
  rewrite <- (cbor_head_sizeof CBOR_ARRAY 3), <- (cbor_head_sizeof CBOR_BYTES (len bv / 8)) in Hfit.
  unfold DPS_BitVectorSerialize. rewrite LoadFactor_spec by done. fold flags.
  set (bv' := set_popCount bv (chunks_count (bits bv))).
  assert (bv_wf bv') as Hwf' by (apply set_popCount_wf; [done|by right]).
  set (h1 := cbor_head CBOR_ARRAY 3) in *.
  assert (tx_fits b (length h1)) as F1 by (unfold tx_fits; lia).
  unfold CBOR_EncodeArray. change (u32 3) with 3.
  rewrite EncodeUint_spec by (done || major || lia). fold h1. rewrite decide_True by done.
  cbn [mbind option_bind]. change (is_OK DPS_OK) with true. cbn [negb].
  assert (tx_wf (tx_app b h1)) as W1 by (apply tx_app_wf; [done|done|apply cbor_head_bytes; (major || lia)]).
  pose proof (serialize_flags_cases (vector_load (chunks_count (bits bv)) (len bv))) as Hc. fold flags in Hc.
  assert (length (cbor_head CBOR_UINT flags) = 1%nat) as L2.
  { pose proof (cbor_head_sizeof CBOR_UINT flags) as H. unfold CBOR_SIZEOF_LEN in H.
    rewrite (proj2 (Z.ltb_lt flags 24)) in H by lia. lia. }
  assert (length (cbor_head CBOR_UINT (len bv)) <= 3)%nat as L3.
  { pose proof (cbor_head_sizeof CBOR_UINT (len bv)) as H. unfold CBOR_SIZEOF_LEN, UINT8_MAX, UINT16_MAX in H.
    rewrite (proj2 (Z.leb_le (len bv) 65535)) in H by lia. revert H. repeat case_if; lia. }
  destruct (SerializeRound_spec bv' (tx_app b h1) flags) as (ret & b' & -> & Hl' & Hwf2 & Hout); try done.
  - cbn. lia.
  - tauto.
  - cbn [popCount bv' set_popCount bits]. intros H0. unfold flags. rewrite H0, Hlen.
    rewrite empty_flags by lia. done.
  - unfold tx_fits. rewrite tx_app_length, tx_app_pos, !length_app by done.
    cbn [len bv' set_popCount]. lia.
  - cbn [mbind option_bind]. eexists _, _. split; [done|].
    rewrite tx_app_length in Hl' by done. split; [done|]. split; [done|].
    destruct Hout as [?|(-> & payload & HP & Hpl & Hw)]; [by left|right].
    split; [done|]. exists payload. split_and!; [done|done|].
    rewrite Hw, tx_app_written by done. unfold bv_wire. fold h1. by rewrite <- app_assoc.
Qed.
