(* ===== verification/CountVec.v ===== *)
(** * Count vectors represent multisets of bit vectors

    [cv_repr cv L] says that the counters, the union and the number of entries of
    [cv] are those of the multiset [L] of bit vectors.  Adding and deleting a
    vector follow the multiset, and the two conversions compute its union and its
    intersection. *)
From S2P Require Import Prelude Status Buffer Float Cbor BitVec BitVecProofs.

(** ** One column: the chunks that the vectors have at one index *)

Fixpoint bitcount (col : list Z) (j : Z) : Z :=
  match col with [] => 0 | c :: col => Z.b2z (Z.testbit c j) + bitcount col j end.

Lemma bitcount_range col j : 0 <= bitcount col j <= Z.of_nat (length col).
Proof. induction col as [|c col IH]; cbn [bitcount length]; [lia|]. destruct (Z.testbit c j); simpl; lia. Qed.

Lemma bitcount_perm col col' j : col ≡ₚ col' -> bitcount col j = bitcount col' j.
Proof. induction 1; cbn [bitcount]; lia. Qed.

Lemma squash_perm col col' : col ≡ₚ col' -> squash col = squash col'.
Proof.
  induction 1 as [|x l l' _ IH|x y l|]; simpl; try congruence.
  by rewrite !Z.lor_assoc, (Z.lor_comm y x).
Qed.

Lemma bitcount_0 col j : 0 <= j -> bitcount col j = 0 <-> Z.testbit (squash col) j = false.
Proof.
  intros Hj. induction col as [|c col IH]; cbn [bitcount squash foldr]; [by rewrite Z.bits_0|].
  fold (squash col). rewrite Z.lor_spec. pose proof (bitcount_range col j).
  destruct (Z.testbit c j); simpl; [split; [lia|done]|]. exact IH.
Qed.

Definition meet (col : list Z) : Z := foldr Z.land CHUNK_MAX col.

Lemma meet_test col j :
  0 <= j < 64 -> Z.testbit (meet col) j = (bitcount col j =? Z.of_nat (length col)).
Proof.
  intros Hj. induction col as [|c col IH]; cbn [bitcount meet foldr length].
  - change CHUNK_MAX with (Z.ones 64). rewrite Z.testbit_ones_nonneg by lia.
    by rewrite (proj2 (Z.ltb_lt j 64)) by lia.
  - fold (meet col). rewrite Z.land_spec, IH. pose proof (bitcount_range col j).
    destruct (Z.testbit c j); simpl; [|symmetry; apply Z.eqb_neq; lia].
    destruct (Z.eqb_spec (bitcount col j) (Z.of_nat (length col)));
      symmetry; [apply Z.eqb_eq|apply Z.eqb_neq]; lia.
Qed.

Lemma meet_word col : is_word 64 (meet col).
Proof.
  induction col as [|c col IH]; [unfold is_word, meet, CHUNK_MAX; simpl; pow2s; lia|].
  cbn [meet foldr]. fold (meet col). rewrite Z.land_comm. by apply (land_range _ _ 64).
Qed.

(** The counters and the union chunk of a column. *)
Definition row_ok (count : list Z) (u : option Z) (col : list Z) : Prop :=
  length count = 64%nat /\ (forall j x, count !! j = Some x -> x = bitcount col (Z.of_nat j)) /\
  (forall v, u = Some v -> v = squash col) /\ Forall (is_word 64) col.

(** ** Adding and deleting in one row *)

Lemma imap_keep {A} (f : nat -> A -> A) l : (forall j x, f j x = x) -> imap f l = l.
Proof.
  revert f. induction l as [|x l IH]; intros f H; cbn [imap]; [done|].
  rewrite H, IH; [done|]. intros. apply H.
Qed.

Lemma low_bit c : negb (c .& 1 =? 0) = Z.testbit c 0.
Proof.
  change (c .& 1) with (c .& Z.ones 1). rewrite Z.land_ones by lia. change (2 ^ 1) with 2.
  rewrite Z.bit0_odd, Zmod_odd. by destruct (Z.odd c).
Qed.

Lemma add_counts_spec c count :
  (0 < length count)%nat -> 0 <= c < 2 ^ Z.of_nat (length count) ->
  add_counts c count =
    Some (imap (fun j x => if Z.testbit c (Z.of_nat j) then u16 (x + 1) else x) count).
Proof.
  revert c. induction count as [|x count IH]; intros c Hl Hc; cbn [length] in *; [lia|].
  cbn [add_counts imap]. rewrite low_bit.
  pose proof (word_shiftr1 _ _ Hc) as Hs.
  assert (forall j, Z.testbit c (Z.of_nat (S j)) = Z.testbit (c ≫ 1) (Z.of_nat j)) as Ht.
  { intros j. rewrite Z.shiftr_spec by lia. f_equal. lia. }
  destruct (Z.eqb_spec (c ≫ 1) 0) as [E|E].
  - do 2 f_equal. symmetry. apply imap_keep. intros j y. cbn [compose]. by rewrite Ht, E, Z.bits_0.
  - assert (0 < length count)%nat.
    { destruct count; simpl in *; [|lia]. change (2 ^ Z.of_nat 0) with 1 in Hs. lia. }
    rewrite IH by done. cbn. do 2 f_equal. apply imap_ext. intros j y _. cbn [compose]. by rewrite Ht.
Qed.

Lemma u64_pow2_shiftl k : 0 <= k -> u64 (u64 (2 ^ k) ≪ 1) = u64 (2 ^ (k + 1)).
Proof.
  intros Hk. unfold u64. rewrite Z.shiftl_mul_pow2, Z.mul_mod_idemp_l, <- Z.pow_add_r by lia. done.
Qed.

Lemma u64_pow2 k : 0 <= k < 64 -> u64 (2 ^ k) = 2 ^ k.
Proof. intros. apply u64_small. split; [lia|]. apply Z.pow_lt_mono_r; lia. Qed.

(** A counter that reaches 0 asks for its bit to be cleared. *)
Definition cleared_at (c : Z) (count : list Z) (j : nat) : bool :=
  Z.testbit c (Z.of_nat j) && (default 1 (x ← count !! j; Some (u16 (x - 1))) =? 0).

Lemma del_counts_spec (k : nat) c clear count :
  (0 < length count)%nat -> (k + length count = 64)%nat -> 0 <= c < 2 ^ Z.of_nat (length count) ->
  exists clear', del_counts c (u64 (2 ^ Z.of_nat k)) clear count =
      Some (imap (fun j x => if Z.testbit c (Z.of_nat j) then u16 (x - 1) else x) count, clear') /\
    forall i : nat, Z.testbit clear' (Z.of_nat i) =
      Z.testbit clear (Z.of_nat i) || ((k <=? i)%nat && cleared_at c count (i - k)).
Proof.
  revert k c clear. induction count as [|x count IH]; intros k c clear Hl Hk Hc; cbn [length] in *; [lia|].
  cbn [del_counts imap]. rewrite low_bit. pose proof (word_shiftr1 _ _ Hc) as Hs.
  assert (forall j, Z.testbit c (Z.of_nat (S j)) = Z.testbit (c ≫ 1) (Z.of_nat j)) as Ht.
  { intros j. rewrite Z.shiftr_spec by lia. f_equal. lia. }
  rewrite u64_pow2_shiftl, u64_pow2 by lia.
  set (clear1 := if Z.testbit c 0 then
                   (if u16 (x - 1) =? 0 then clear .| 2 ^ Z.of_nat k else clear) else clear).
  assert (H1 : forall i : nat, Z.testbit clear1 (Z.of_nat i) =
     Z.testbit clear (Z.of_nat i) || ((i =? k)%nat && (Z.testbit c 0 && (u16 (x - 1) =? 0)))).
  { intros i. unfold clear1. destruct (Z.testbit c 0); [destruct (u16 (x - 1) =? 0)|];
      rewrite ?andb_false_r, ?orb_false_r, ?andb_true_r; try done.
    rewrite Z.lor_spec, Z.pow2_bits_eqb by lia. f_equal.
    destruct (Z.eqb_spec (Z.of_nat k) (Z.of_nat i)), (Nat.eqb_spec i k); done || lia. }
  assert (H2 : forall i : nat, (k <=? i)%nat && cleared_at c (x :: count) (i - k) =
     ((i =? k)%nat && (Z.testbit c 0 && (u16 (x - 1) =? 0))) ||
     ((S k <=? i)%nat && cleared_at (c ≫ 1) count (i - S k))).
  { intros i. destruct (Nat.leb_spec k i), (Nat.leb_spec (S k) i), (Nat.eqb_spec i k); try lia; simpl;
      try done.
    - replace (i - k)%nat with (S (i - S k)) by lia. unfold cleared_at. by rewrite Ht.
    - subst. rewrite Nat.sub_diag, orb_false_r. done. }
  replace (if Z.testbit c 0 then (u16 (x - 1), if u16 (x - 1) =? 0 then clear .| 2 ^ Z.of_nat k else clear)
           else (x, clear)) with (if Z.testbit c 0 then u16 (x - 1) else x, clear1)
    by (unfold clear1; by destruct (Z.testbit c 0)). cbv beta iota.
  destruct (Z.eqb_spec (c ≫ 1) 0) as [E|E].
  - exists clear1. split.
    + do 3 f_equal. symmetry. apply imap_keep. intros j y. cbn [compose]. by rewrite Ht, E, Z.bits_0.
    + intros i. rewrite H1, H2, E. unfold cleared_at. by rewrite Z.bits_0, andb_false_r, orb_false_r.
  - assert (0 < length count)%nat.
    { destruct count; simpl in *; [|lia]. change (2 ^ Z.of_nat 0) with 1 in Hs. lia. }
    replace (Z.of_nat k + 1) with (Z.of_nat (S k)) by lia.
    destruct (IH (S k) (c ≫ 1) clear1) as (clear' & -> & H3); [done|lia|done|].
    exists clear'. cbn [mbind option_bind]. split.
    + do 3 f_equal. apply imap_ext. intros j y _. cbn [compose]. by rewrite Ht.
    + intros i. rewrite H3, H1, H2. by rewrite orb_assoc.
Qed.

(** ** Rows *)

Lemma row_count count u col j :
  row_ok count u col -> (j < 64)%nat -> count !! j = Some (bitcount col (Z.of_nat j)).
Proof.
  intros (Hl & Hc & _) Hj. destruct (lookup_lt_is_Some_2 count j) as [x Hx]; [lia|].
  by rewrite Hx, (Hc j x Hx).
Qed.

Lemma row_ok_zero_add count u col : row_ok count u col -> row_ok count u (0 :: col).
Proof.
  intros (Hl & Hx & Hu & Hw). split_and!; [done| |done|].
  - intros j x E. cbn [bitcount]. rewrite Z.bits_0. by apply Hx.
  - constructor; [unfold is_word; pow2s; lia|done].
Qed.

Lemma row_ok_zero_del count u col col' : row_ok count u col -> col ≡ₚ 0 :: col' -> row_ok count u col'.
Proof.
  intros (Hl & Hx & Hu & Hw) Hp. split_and!; [done| | |].
  - intros j x E. rewrite (Hx j x E), (bitcount_perm _ _ _ Hp). cbn [bitcount]. by rewrite Z.bits_0.
  - intros v Ev. by rewrite (Hu v Ev), (squash_perm _ _ Hp).
  - rewrite Hp in Hw. by apply Forall_cons_iff in Hw as [_ ?].
Qed.

Lemma add_chunk_row c count u col :
  is_word 64 c -> row_ok count u col -> Z.of_nat (length col) < CV_MAX ->
  exists count' u', add_chunk c count u = Some (count', u') /\ row_ok count' u' (c :: col) /\
    (is_Some u' <-> is_Some u).
Proof.
  intros Hc (Hl & Hx & Hu & Hw) Hmax. unfold add_chunk. destruct (Z.eqb_spec c 0) as [->|Hne].
  { exists count, u. split; [done|]. split; [by apply row_ok_zero_add|done]. }
  rewrite add_counts_spec by (rewrite Hl; done || lia). cbn [mbind option_bind].
  eexists _, _. split; [done|]. split; [|by destruct u; split; intros [? ?]; eauto].
  split_and!; [by rewrite length_imap| | |by constructor].
  - intros j x. rewrite list_lookup_imap. destruct (count !! j) as [y|] eqn:Ey; [|done].
    cbn. intros [= <-]. rewrite (Hx j y Ey). pose proof (bitcount_range col (Z.of_nat j)).
    unfold CV_MAX, UINT16_MAX in Hmax. destruct (Z.testbit c (Z.of_nat j)); simpl; [|lia].
    rewrite u16_small by lia. lia.
  - intros v. destruct u as [u|]; cbn; [|done]. intros [= <-]. rewrite (Hu u eq_refl), Z.lor_comm. done.
Qed.

Lemma del_chunk_row c count u col col' :
  is_word 64 c -> row_ok count u col -> Z.of_nat (length col) <= CV_MAX -> col ≡ₚ c :: col' ->
  exists count' u', del_chunk c count u = Some (count', u') /\ row_ok count' u' col' /\
    (is_Some u' <-> is_Some u).
Proof.
  intros Hc Hrow Hmax Hp. pose proof Hrow as (Hl & Hx & Hu & Hw).
  assert (Forall (is_word 64) (c :: col')) as Hw' by by rewrite <- Hp.
  apply Forall_cons_iff in Hw' as [_ Hw'].
  assert (forall j, bitcount col j = Z.b2z (Z.testbit c j) + bitcount col' j) as Hb.
  { intros j. by rewrite (bitcount_perm _ _ j Hp). }
  assert (squash col = c .| squash col') as Hs by by rewrite (squash_perm _ _ Hp).
  unfold del_chunk. destruct (Z.eqb_spec c 0) as [->|Hne].
  { exists count, u. split; [done|]. split; [by eapply row_ok_zero_del|done]. }
  destruct (del_counts_spec 0 c 0 count) as (clear & E & Ht); [lia|lia|by rewrite Hl|].
  change (u64 (2 ^ Z.of_nat 0)) with 1 in E. rewrite E. cbn [mbind option_bind].
  eexists _, _. split; [done|]. split; [|by destruct u; split; intros [? ?]; eauto].
  apply (f_equal Z.of_nat) in Hl as HlZ. unfold CV_MAX, UINT16_MAX in Hmax.
  split_and!; [by rewrite length_imap| | |done].
  - intros j x. rewrite list_lookup_imap. destruct (count !! j) as [y|] eqn:Ey; [|done].
    cbn. intros [= <-]. rewrite (Hx j y Ey), Hb. pose proof (bitcount_range col (Z.of_nat j)).
    rewrite Hb in H. pose proof (bitcount_range col' (Z.of_nat j)).
    destruct (Z.testbit c (Z.of_nat j)); simpl in *; [|lia]. rewrite u16_small by lia. lia.
  - intros v. destruct u as [u|]; cbn; [|done]. intros [= <-]. rewrite (Hu u eq_refl), Hs.
    apply Z.bits_inj'. intros i Hi. rewrite Z.lxor_spec, Z.lor_spec.
    rewrite <- (Z2Nat.id i) by lia. set (n := Z.to_nat i). rewrite Ht, Z.bits_0, Nat.sub_0_r. simpl.
    unfold cleared_at. destruct (Z.testbit c (Z.of_nat n)) eqn:Ec; [|simpl; by rewrite xorb_false_r].
    assert (n < 64)%nat as Hn64.
    { destruct (Nat.lt_ge_cases n 64); [done|]. rewrite (testbit_ge_pow2 c 64) in Ec; [done|apply Hc|lia]. }
    rewrite (row_count _ _ _ _ Hrow Hn64), Hb, Ec. cbn [mbind option_bind default orb andb].
    pose proof (bitcount_range col (Z.of_nat n)) as Hr. rewrite Hb, Ec in Hr.
    pose proof (bitcount_range col' (Z.of_nat n)).
    pose proof (bitcount_0 col' (Z.of_nat n) ltac:(lia)) as H0. simpl in *.
    rewrite u16_small by lia. replace (1 + bitcount col' (Z.of_nat n) - 1) with (bitcount col' (Z.of_nat n)) by lia.
    destruct (Z.testbit (squash col') (Z.of_nat n)), (Z.eqb_spec (bitcount col' (Z.of_nat n)) 0);
      simpl; try done; intuition congruence.
Qed.

(** ** All rows *)

(** The chunks of the vectors [L], index by index. *)
Fixpoint columns (n : nat) (L : list (list Z)) : list (list Z) :=
  match n with
  | O => []
  | S n => map (fun l => default 0 (head l)) L :: columns n (map tail L)
  end.

Fixpoint rows_ok (counts : list (list Z)) (us : option (list Z)) (cols : list (list Z)) : Prop :=
  match counts, cols with
  | [], [] => us = None \/ us = Some []
  | count :: counts, col :: cols =>
      match us with
      | None => row_ok count None col /\ rows_ok counts None cols
      | Some (u :: us) => row_ok count (Some u) col /\ rows_ok counts (Some us) cols
      | Some [] => False
      end
  | _, _ => False
  end.

(** The loop over the chunks lifts what its body does on a row. *)
Lemma for_chunks_rows f (P : Z -> list Z -> list Z -> Prop) chunks counts us cols cols' :
  (forall c count u col col', row_ok count u col -> P c col col' ->
     exists count' u', f c count u = Some (count', u') /\ row_ok count' u' col' /\
       (is_Some u' <-> is_Some u)) ->
  rows_ok counts us cols -> Forall3 P chunks cols cols' ->
  exists counts' us', for_chunks f chunks counts us = Some (counts', us') /\
    rows_ok counts' us' cols' /\ (is_Some us' <-> is_Some us).
Proof.
  intros Hf Hr HP. revert counts us Hr.
  induction HP as [|c col col' chunks cols cols' Hc _ IH]; intros counts us Hr.
  { exists counts, us. destruct counts; [|done]. split; [done|]. split; done. }
  destruct counts as [|count counts]; [done|]. cbn [rows_ok for_chunks] in *.
  destruct us as [[|u us]|]; [done| |].
  - destruct Hr as [Hr1 Hr2]. destruct (Hf _ _ _ _ _ Hr1 Hc) as (count' & u' & -> & Hrow & Hu).
    destruct (IH _ _ Hr2) as (counts' & us' & E & Hrows & Hus).
    destruct u' as [u'|]; [|exfalso; destruct (proj2 Hu) as [? [=]]; eauto].
    destruct us' as [us'|]; [|exfalso; destruct (proj2 Hus) as [? [=]]; eauto].
    cbn [mbind option_bind]. rewrite E. cbn [mbind option_bind].
    eexists _, _. split; [done|]. split; [by split|]. split; eauto.
  - destruct Hr as [Hr1 Hr2]. destruct (Hf _ _ _ _ _ Hr1 Hc) as (count' & u' & -> & Hrow & Hu).
    destruct (IH _ _ Hr2) as (counts' & us' & E & Hrows & Hus).
    destruct u' as [u'|]; [exfalso; destruct (proj1 Hu) as [? [=]]; eauto|].
    destruct us' as [us'|]; [exfalso; destruct (proj1 Hus) as [? [=]]; eauto|].
    cbn [mbind option_bind]. rewrite E. cbn [mbind option_bind].
    eexists _, _. split; [done|]. split; [by split|done].
Qed.

Lemma columns_cons n l L :
  length l = n -> Forall3 (fun c col col' => col' = c :: col) l (columns n L) (columns n (l :: L)).
Proof.
  revert l L. induction n as [|n IH]; intros [|c l] L; intros [=]; cbn; constructor; auto.
Qed.

Lemma columns_perm n l L L' :
  length l = n -> L ≡ₚ l :: L' ->
  Forall3 (fun c col col' => col ≡ₚ c :: col') l (columns n L) (columns n L').
Proof.
  revert l L L'. induction n as [|n IH]; intros [|c l] L L'; intros [=] Hp; cbn; constructor.
  - by rewrite Hp.
  - apply IH; [done|]. by rewrite Hp.
Qed.

Lemma columns_length n L : length (columns n L) = n.
Proof. revert L. induction n; intros L; cbn; auto. Qed.

Lemma columns_width n L : Forall (fun col => length col = length L) (columns n L).
Proof.
  revert L. induction n as [|n IH]; intros L; cbn; constructor; [apply length_map|].
  specialize (IH (map tail L)). by rewrite length_map in IH.
Qed.

(** [for_chunks] needs the chunks to be words. *)
Lemma Forall3_word (P : Z -> list Z -> list Z -> Prop) (m : nat) l cols cols' :
  Forall (is_word 64) l -> Forall (fun col => length col = m) cols -> Forall3 P l cols cols' ->
  Forall3 (fun c col col' => is_word 64 c /\ length col = m /\ P c col col') l cols cols'.
Proof.
  intros H Hm HP. induction HP; [constructor|].
  apply Forall_cons_iff in H as [? ?], Hm as [? ?]. constructor; auto.
Qed.

(** ** The invariant *)

Definition vec_ok (n : nat) (l : list Z) : Prop := length l = n /\ chunks_ok l.

(** [cv] stands for the multiset [L] of bit vectors of [n] chunks. *)
Record cv_repr (cv : DPS_CountVector) (n : nat) (L : list (list Z)) : Prop := {
  cv_entries : entries cv = Z.of_nat (length L);
  cv_max : entries cv <= CV_MAX;
  cv_length : cvlen cv = 64 * Z.of_nat n;
  cv_vectors : Forall (vec_ok n) L;
  cv_rows : rows_ok (counts cv) (u ← bvUnion cv; Some (bits u)) (columns n L);
  cv_union : forall u, bvUnion cv = Some u -> len u = 64 * Z.of_nat n /\ popCount u = -1
}.

Lemma rows_ok_bits counts us cols :
  rows_ok counts (Some us) cols -> us = map squash cols /\ length counts = length cols.
Proof.
  revert us cols. induction counts as [|count counts IH]; intros us [|col cols]; cbn [rows_ok]; try done.
  - intros [|[= ->]]; done.
  - destruct us as [|u us]; [done|]. intros [(_ & _ & Hu & _) Hr].
    destruct (IH _ _ Hr) as [-> El]. rewrite (Hu u eq_refl). cbn. auto.
Qed.

Lemma cv_for_chunks_repr f (P : Z -> list Z -> list Z -> Prop) cv bv n L L' :
  (forall c count u col col', row_ok count u col -> is_word 64 c /\ length col = length L /\ P c col col' ->
     exists count' u', f c count u = Some (count', u') /\ row_ok count' u' col' /\
       (is_Some u' <-> is_Some u)) ->
  cv_repr cv n L -> vec_ok n (bits bv) -> Forall3 P (bits bv) (columns n L) (columns n L') ->
  Forall (vec_ok n) L' ->
  exists cv', cv_for_chunks f cv bv = Some cv' /\ entries cv' = entries cv /\
    (is_Some (bvUnion cv') <-> is_Some (bvUnion cv)) /\
    forall e, e = Z.of_nat (length L') -> e <= CV_MAX -> cv_repr (set_entries cv' e) n L'.
Proof.
  intros Hf [He Hmax Hlen Hvec Hrows Hun] [Hbl Hbw] HP HL'. unfold cv_for_chunks.
  destruct (for_chunks_rows f _ _ _ _ _ _ Hf Hrows (Forall3_word _ _ _ _ _ Hbw (columns_width n L) HP))
    as (counts' & us' & -> & Hr & Hus). cbn [mbind option_bind].
  eexists. split; [done|]. split; [done|]. split.
  { cbn [bvUnion]. destruct (bvUnion cv) as [u|]; cbn [mbind option_bind] in *; [|done].
    destruct us' as [us'|]; [by split|]. exfalso. destruct (proj2 Hus) as [? [=]]; eauto. }
  intros e -> Hle.
  constructor; cbn [entries set_entries cvlen counts bvUnion]; try done.
  - destruct (bvUnion cv) as [u|]; cbn [mbind option_bind] in *.
    + destruct us' as [us'|]; [done|]. exfalso. destruct (proj2 Hus) as [? [=]]; eauto.
    + destruct us' as [us'|]; [|done]. exfalso. destruct (proj1 Hus) as [? [=]]; eauto.
  - intros u. destruct (bvUnion cv) as [u0|]; [|done]. destruct us'; [|done]. cbn.
    intros [= <-]. split; [apply (Hun u0 eq_refl)|done].
Qed.

(** A vector whose cached count is 0 is skipped: it has no chunk to add. *)
Lemma Forall3_zeros_rows (P : Z -> list Z -> list Z -> Prop) l counts us cols cols' :
  (forall count u col col', row_ok count u col -> P 0 col col' -> row_ok count u col') ->
  Forall (eq 0) l -> Forall3 P l cols cols' -> rows_ok counts us cols -> rows_ok counts us cols'.
Proof.
  intros Hz Hl HP. revert counts us. induction HP as [|c col col' l cols cols' HP _ IH];
    intros counts us Hr; [done|].
  apply Forall_cons_iff in Hl as [<- Hl]. destruct counts as [|count counts]; [done|]. cbn [rows_ok] in *.
  destruct us as [[|u us]|]; [done| |]; destruct Hr as [Hr1 Hr2]; split; eauto.
Qed.

Lemma DPS_CountVectorAdd_spec cv bv n L :
  cv_repr cv n L -> bv_wf bv -> length (bits bv) = n -> Z.of_nat (length L) < CV_MAX ->
  exists cv', DPS_CountVectorAdd (Some cv) (Some bv) = Some (DPS_OK, Some cv') /\
    cv_repr cv' n (bits bv :: L) /\ (is_Some (bvUnion cv') <-> is_Some (bvUnion cv)).
Proof.
  intros Hcv Hwf Hn HL. pose proof (cv_entries _ _ _ Hcv) as He.
  unfold DPS_CountVectorAdd. rewrite (proj2 (Z.eqb_neq _ _)) by lia.
  pose proof (columns_cons n (bits bv) L Hn) as HC.
  assert (Forall (vec_ok n) (bits bv :: L)) as HV
    by (constructor; [split; [done|apply Hwf]|apply Hcv]).
  destruct (Z.eqb_spec (popCount bv) 0) as [E|E]; cbn [negb mbind option_bind].
  - eexists. split; [done|]. split; [|done]. constructor; cbn [entries cvlen counts bvUnion set_entries length]; try lia; try done.
    + apply Hcv.
    + apply (Forall3_zeros_rows _ _ _ _ _ _ (fun count u col col' Hr Heq =>
        eq_ind_r (row_ok count u) (row_ok_zero_add _ _ _ Hr) Heq) (bv_empty _ Hwf E) HC), Hcv.
    + apply Hcv.
  - destruct (cv_for_chunks_repr add_chunk (fun c col col' => col' = c :: col) cv bv n L (bits bv :: L))
      as (cv' & -> & Ee & Hu & Hr); try done.
    + intros c count u col col' Hr (Hc & Hl & ->). apply add_chunk_row; [done|done|by rewrite Hl].
    + split; [done|apply Hwf].
    + cbn [mbind option_bind]. eexists. split; [done|]. split; [|done]. apply Hr; [cbn [length]; lia|lia].
Qed.

Lemma DPS_CountVectorDel_spec cv bv n L L' :
  cv_repr cv n L -> bv_wf bv -> L ≡ₚ bits bv :: L' ->
  exists cv', DPS_CountVectorDel (Some cv) (Some bv) = Some (DPS_OK, Some cv') /\
    cv_repr cv' n L' /\ (is_Some (bvUnion cv') <-> is_Some (bvUnion cv)).
Proof.
  intros Hcv Hwf Hp. pose proof (cv_entries _ _ _ Hcv) as He. pose proof (cv_max _ _ _ Hcv) as Hm.
  pose proof (Permutation_length Hp) as Hl. cbn [length] in Hl.
  pose proof (cv_vectors _ _ _ Hcv) as HV. rewrite Hp in HV. apply Forall_cons_iff in HV as [[Hn Hbw] HV].
  pose proof (columns_perm n (bits bv) L L' Hn Hp) as HC.
  unfold DPS_CountVectorDel. rewrite (proj2 (Z.eqb_neq _ _)) by lia.
  destruct (Z.eqb_spec (popCount bv) 0) as [E|E]; cbn [negb mbind option_bind].
  - eexists. split; [done|]. split; [|done]. constructor; cbn [entries cvlen counts bvUnion set_entries]; try lia; try done.
    + apply Hcv.
    + apply (Forall3_zeros_rows _ _ _ _ _ _ row_ok_zero_del (bv_empty _ Hwf E) HC), Hcv.
    + apply Hcv.
  - destruct (cv_for_chunks_repr del_chunk (fun c col col' => col ≡ₚ c :: col') cv bv n L L')
      as (cv' & -> & Ee & Hu & Hr); try done.
    + intros c count u col col' Hr (Hc & Hlc & Hpc). apply (del_chunk_row _ _ _ col); try done.
      rewrite Hlc. lia.
    + cbn [mbind option_bind]. eexists. split; [done|]. split; [|done]. apply Hr; lia.
Qed.

(** ** Union and intersection *)

Definition vec_union (n : nat) (L : list (list Z)) : list Z := map squash (columns n L).
Definition vec_meet (n : nat) (L : list (list Z)) : list Z := map meet (columns n L).

Lemma DPS_CountVectorToUnion_spec cv n L u :
  cv_repr cv n L -> bvUnion cv = Some u -> bits u = vec_union n L.
Proof.
  intros Hcv Hu. pose proof (cv_rows _ _ _ Hcv) as Hr. rewrite Hu in Hr.
  by apply rows_ok_bits in Hr as [-> _].
Qed.

Lemma inter_chunk_spec (k : nat) e chunk count :
  (k + length count = 64)%nat ->
  exists r, inter_chunk e count (u64 (2 ^ Z.of_nat k)) chunk = Some r /\ forall i : nat, Z.testbit r (Z.of_nat i) = Z.testbit chunk (Z.of_nat i) ||
      ((k <=? i)%nat && bool_decide (count !! (i - k)%nat = Some e)).
Proof.
  revert k chunk. induction count as [|c count IH]; intros k chunk Hk; cbn [length inter_chunk] in *.
  - replace k with 64%nat by lia. change (u64 (2 ^ Z.of_nat 64)) with 0. cbn [Z.eqb].
    exists chunk. split; [done|]. intros i. by rewrite lookup_nil, andb_false_r, orb_false_r.
  - pose proof (pow2_pos (Z.of_nat k) ltac:(lia)).
    rewrite (proj2 (Z.eqb_neq _ 0)) by (rewrite u64_pow2; lia). rewrite u64_pow2_shiftl by lia.
    replace (Z.of_nat k + 1) with (Z.of_nat (S k)) by lia.
    destruct (IH (S k) (if c =? e then chunk .| u64 (2 ^ Z.of_nat k) else chunk)) as (r & -> & Hr); [lia|].
    exists r. split; [done|]. intros i. rewrite Hr, u64_pow2 by lia.
    assert (Z.testbit (if c =? e then chunk .| 2 ^ Z.of_nat k else chunk) (Z.of_nat i) =
      Z.testbit chunk (Z.of_nat i) || ((i =? k)%nat && (c =? e))) as ->.
    { destruct (c =? e); [|by rewrite andb_false_r, orb_false_r].
      rewrite Z.lor_spec, Z.pow2_bits_eqb, andb_true_r by lia. f_equal.
      destruct (Z.eqb_spec (Z.of_nat k) (Z.of_nat i)), (Nat.eqb_spec i k); done || lia. }
    rewrite <- orb_assoc. f_equal.
    destruct (Nat.eqb_spec i k) as [->|]; [|destruct (Nat.leb_spec k i)].
    + rewrite Nat.sub_diag. rewrite (proj2 (Nat.leb_gt (S k) k)), (proj2 (Nat.leb_le k k)) by lia.
      cbn [andb orb lookup list_lookup]. rewrite orb_false_r.
      destruct (Z.eqb_spec c e); [symmetry; apply bool_decide_eq_true_2|symmetry; apply bool_decide_eq_false_2]; congruence.
    + rewrite (proj2 (Nat.leb_le (S k) i)) by lia. replace (i - k)%nat with (S (i - S k)) by lia. done.
    + rewrite (proj2 (Nat.leb_gt (S k) i)) by lia. done.
Qed.

Lemma inter_chunk_row count u col :
  row_ok count u col ->
  inter_chunk (Z.of_nat (length col)) count 1 0 = Some (meet col).
Proof.
  intros Hrow. pose proof Hrow as (Hl & _ & _ & Hw).
  destruct (inter_chunk_spec 0 (Z.of_nat (length col)) 0 count) as (r & E & Hr); [lia|].
  change (u64 (2 ^ Z.of_nat 0)) with 1 in E. rewrite E. f_equal. apply Z.bits_inj'. intros i Hi.
  rewrite <- (Z2Nat.id i) by lia. set (j := Z.to_nat i). rewrite Hr, Z.bits_0, Nat.sub_0_r. simpl.
  destruct (Nat.lt_ge_cases j 64) as [Hj|Hj].
  - rewrite (row_count _ _ _ _ Hrow Hj), meet_test by lia.
    destruct (Z.eqb_spec (bitcount col (Z.of_nat j)) (Z.of_nat (length col)));
      [apply bool_decide_eq_true_2|apply bool_decide_eq_false_2]; congruence.
  - rewrite (testbit_ge_pow2 (meet col) 64) by (apply meet_word || lia).
    apply bool_decide_eq_false_2. rewrite lookup_ge_None_2 by lia. done.
Qed.

Lemma meet_squash_0 col : col <> [] -> squash col = 0 -> meet col = 0.
Proof.
  intros Hne E. destruct col as [|c col]; [done|]. cbn [squash foldr] in E.
  apply Z.lor_eq_0_iff in E as [-> _]. done.
Qed.

Lemma inter_chunks_spec e counts us cols :
  rows_ok counts us cols -> Forall (fun col => Z.of_nat (length col) = e /\ col <> []) cols ->
  inter_chunks e counts us (length cols) = Some (map meet cols).
Proof.
  revert counts us. induction cols as [|col cols IH]; intros counts us Hr Hc; [done|].
  apply Forall_cons_iff in Hc as [[Hl Hne] Hc].
  destruct counts as [|count counts]; [done|]. cbn [rows_ok length inter_chunks head tail map] in *.
  cbn [mbind option_bind]. destruct us as [[|u us]|]; [done| |]; destruct Hr as [Hr1 Hr2].
  - cbn [mbind option_bind head tail]. rewrite (IH _ _ Hr2 Hc), <- Hl, (inter_chunk_row _ _ _ Hr1).
    case_bool_decide as E; cbn [mbind option_bind]; [|done]. injection E as ->.
    destruct Hr1 as (_ & _ & Hu & _). by rewrite (meet_squash_0 col Hne (eq_sym (Hu 0 eq_refl))).
  - cbn [mbind option_bind head tail]. rewrite bool_decide_eq_false_2 by done.
    by rewrite (IH _ _ Hr2 Hc), <- Hl, (inter_chunk_row _ _ _ Hr1).
Qed.

(** With no entries the result is empty, otherwise it is the intersection. *)
Lemma DPS_CountVectorToIntersection_spec cv n L :
  cv_repr cv n L ->
  DPS_CountVectorToIntersection true cv =
    Some (Some (mkBV (-1) (cvlen cv) (if decide (L = []) then replicate n 0 else vec_meet n L))).
Proof.
  intros Hcv. pose proof (cv_entries _ _ _ Hcv) as He. pose proof (cv_length _ _ _ Hcv) as Hl.
  unfold DPS_CountVectorToIntersection, AllocBV.
  assert ((cvlen cv mod 64 =? 0) = true) as -> by (rewrite Hl, Z.mul_comm, Z.mod_mul; done).
  cbn [c_assert mbind option_bind]. unfold NUM_CHUNKS. cbn [len INVALIDATE_POPCOUNT set_popCount bits].
  change CHUNK_SIZE with 64. assert (Z.to_nat (cvlen cv / 64) = n) as -> by (rewrite Hl, Z.mul_comm, Z.div_mul; lia).
  destruct (decide (L = [])) as [->|Hne]; [by rewrite He|].
  rewrite (proj2 (Z.eqb_neq _ 0)) by (destruct L; [done|cbn [length] in He; lia]).
  pose proof (inter_chunks_spec (entries cv) _ _ _ (cv_rows _ _ _ Hcv)) as E.
  rewrite columns_length in E. rewrite E; [done|].
  eapply Forall_impl; [|apply (columns_width n L)]. intros col Hc. cbn beta in *. split; [lia|].
  intros ->. destruct L; done.
Qed.

(** ** The bits of the union and of the intersection *)

Lemma columns_at n L k :
  (k < n)%nat -> columns n L !! k = Some (map (fun l => chunk_at l k) L).
Proof.
  revert L k. induction n as [|n IH]; intros L k Hk; [lia|]. destruct k as [|k]; cbn [columns lookup list_lookup].
  - f_equal. apply map_ext. intros [|c l]; done.
  - rewrite IH by lia. rewrite map_map. f_equal. apply map_ext. intros [|c l]; done.
Qed.

Lemma squash_test col j : Z.testbit (squash col) j = existsb (fun c => Z.testbit c j) col.
Proof.
  induction col as [|c col IH]; cbn; [apply Z.bits_0|]. by rewrite Z.lor_spec, <- IH.
Qed.

Lemma meet_test_all col j : 0 <= j < 64 -> Z.testbit (meet col) j = forallb (fun c => Z.testbit c j) col.
Proof.
  intros Hj. induction col as [|c col IH]; cbn [meet foldr forallb].
  - unfold CHUNK_MAX. replace (2 ^ 64 - 1) with (Z.ones 64) by done. by apply Z.ones_spec_low.
  - fold (meet col). by rewrite Z.land_spec, <- IH.
Qed.

Lemma existsb_map {A B} (f : A -> B) p l : existsb p (map f l) = existsb (fun x => p (f x)) l.
Proof. induction l; cbn; congruence. Qed.
Lemma forallb_map {A B} (f : A -> B) p l : forallb p (map f l) = forallb (fun x => p (f x)) l.
Proof. induction l; cbn; congruence. Qed.

Lemma chunks_test_columns (g : list Z -> Z) n L i :
  0 <= i < 64 * Z.of_nat n ->
  chunks_test (map g (columns n L)) i =
    Z.testbit (g (map (fun l => chunk_at l (Z.to_nat (i / 64))) L)) (i mod 64).
Proof.
  intros Hi. unfold chunks_test at 1, chunk_at at 1.
  pose proof (Z.div_lt_upper_bound i 64 (Z.of_nat n)). pose proof (Z.div_pos i 64).
  rewrite list_lookup_fmap, columns_at by lia. done.
Qed.

Lemma vec_union_test n L i :
  0 <= i < 64 * Z.of_nat n -> chunks_test (vec_union n L) i = existsb (fun l => chunks_test l i) L.
Proof.
  intros Hi. unfold vec_union. rewrite chunks_test_columns, squash_test, existsb_map by done. done.
Qed.

Lemma vec_meet_test n L i :
  0 <= i < 64 * Z.of_nat n -> chunks_test (vec_meet n L) i = forallb (fun l => chunks_test l i) L.
Proof.
  intros Hi. unfold vec_meet.
  rewrite chunks_test_columns, meet_test_all, forallb_map by (done || (apply Z.mod_pos_bound; lia)). done.
Qed.

Lemma zeros_test n i : chunks_test (replicate n 0) i = false.
Proof.
  unfold chunks_test, chunk_at. destruct (_ !! _) as [c|] eqn:E; cbn; [|apply Z.bits_0].
  apply lookup_replicate in E as [-> _]. apply Z.bits_0.
Qed.
