(* ===== verification/BitVecTheorems.v ===== *)
(** * The correctness theorems of the bit vectors ([src/bitvec.c])

    Bloom filters have no false negatives, the set operations are those of sets
    of bits, fuzzy hashes are monotone, a serialised vector is read back, and a
    count vector is the multiset of the vectors added to it. *)
From S2P Require Import Prelude Status Buffer Float Cbor CborProofs CborWrap.
From S2P Require Import BitVec BitVecProofs Bloom Rle BitVecSerial CountVec.

(** A concrete digest for the witnesses: 32 bytes that depend on the datum. *)
Definition toy_md (data : list Z) : list Z :=
  map (fun i => u8 (foldr Z.add 7 data * (i + 3))) (seqZ 0 32).

Lemma toy_md_bytes d : Forall is_byte (toy_md d).
Proof. apply Forall_map, Forall_forall. intros. apply u8_byte. Qed.

Definition bv64 (l : list Z) : DPS_BitVector := mkBV (-1) (64 * Z.of_nat (length l)) l.

(** ** Bloom filters *)

(** C29: after an insertion into a Bloom filter, the datum and everything that
    tested positive before tests positive (no false negatives), the filter
    stays well formed, and no bit is set but those of the datum's hashes: the
    new filter is the least one that includes the old one and has the datum. *)
Theorem bloom_insert_test mbedtls_md config bv data :
  (forall d, Forall is_byte (mbedtls_md d)) -> 1 <= numHashes config <= MAX_HASHES ->
  bv_wf bv -> 0 < len bv ->
  exists bv', DPS_BitVectorBloomInsert mbedtls_md config bv data = Some bv' /\
    bv_wf bv' /\ len bv' = len bv /\ bv_sub bv bv' /\
    DPS_BitVectorBloomTest mbedtls_md config bv' data = Some true /\
    (forall d, DPS_BitVectorBloomTest mbedtls_md config bv d = Some true ->
               DPS_BitVectorBloomTest mbedtls_md config bv' d = Some true) /\
    (forall bv1, bv_wf bv1 -> len bv1 = len bv -> bv_sub bv bv1 ->
       DPS_BitVectorBloomTest mbedtls_md config bv1 data = Some true -> bv_sub bv' bv1).
Proof.
  intros Hmd Hc Hwf Hp. assert (Hc0 : 0 <= numHashes config <= MAX_HASHES) by lia.
  assert (Htest : forall v d, bv_wf v -> len v = len bv ->
    DPS_BitVectorBloomTest mbedtls_md config v d = Some true <->
    bloom_has mbedtls_md config (bits v) (len bv) d).
  { intros v d Hv Hl. destruct (DPS_BitVectorBloomTest_spec mbedtls_md Hmd config Hc0 v d Hv) as (b & -> & Hb);
      [lia|]. rewrite Hl in Hb. rewrite <- Hb. split; congruence. }
  destruct (DPS_BitVectorBloomInsert_spec mbedtls_md Hmd config Hc0 bv data Hwf Hp) as (bv' & E & _).
  destruct (bloom_insert_has mbedtls_md Hmd config Hc0 bv bv' data Hwf Hp E) as (Hwf' & Hl & Hs & Hh).
  exists bv'. do 4 (split; [done|]). split; [by apply Htest|]. split.
  - intros d Hd. apply Htest in Hd; [|done|done]. apply Htest; [done|done|].
    exact (bloom_has_mono _ _ _ _ _ _ Hp Hs Hd).
  - intros bv1 Hwf1 Hl1 Hs1 Ht. apply Htest in Ht; [|done|done]. exact (bloom_insert_least mbedtls_md Hmd config Hc0 bv bv' bv1 data Hwf Hp E Hwf1 Hl1 Hs1 Ht).
Qed.

Lemma bloom_insert_test_witness :
  exists bv', DPS_BitVectorBloomInsert toy_md config0 (bv64 [5; 0]) [1; 2] = Some bv' /\
    bv_wf bv' /\ len bv' = 128 /\ bv_sub (bv64 [5; 0]) bv' /\
    DPS_BitVectorBloomTest toy_md config0 bv' [1; 2] = Some true /\
    (forall d, DPS_BitVectorBloomTest toy_md config0 (bv64 [5; 0]) d = Some true ->
               DPS_BitVectorBloomTest toy_md config0 bv' d = Some true) /\
    (forall bv1, bv_wf bv1 -> len bv1 = 128 -> bv_sub (bv64 [5; 0]) bv1 ->
       DPS_BitVectorBloomTest toy_md config0 bv1 [1; 2] = Some true -> bv_sub bv' bv1).
Proof.
  apply (bloom_insert_test toy_md config0 (bv64 [5; 0]) [1; 2] toy_md_bytes).
  - vm_compute. intuition congruence.
  - apply (bool_decide_unpack _). vm_compute. done.
  - reflexivity.
Defined.

(** ** Sets of bits *)

Lemma chunks_test_zip (f : Z -> Z -> Z) (g : bool -> bool -> bool) l1 l2 i :
  length l1 = length l2 -> f 0 0 = 0 -> 0 <= i ->
  (forall x y j, 0 <= j -> Z.testbit (f x y) j = g (Z.testbit x j) (Z.testbit y j)) ->
  chunks_test (zip_with f l1 l2) i = g (chunks_test l1 i) (chunks_test l2 i).
Proof.
  intros Hl H0 Hi Hf. unfold chunks_test. rewrite chunk_at_zip by done.
  apply Hf. apply Z.mod_pos_bound. lia.
Qed.

Lemma chunks_sub_test_iff l2 l1 :
  chunks_ok l2 -> length l2 = length l1 ->
  chunks_sub l2 l1 <-> forall i, 0 <= i -> chunks_test l2 i = true -> chunks_test l1 i = true.
Proof.
  intros Hok Hl. split; [|by apply chunks_sub_test].
  intros Hs i Hi. by apply chunks_test_mono.
Qed.

Lemma chunks_test_index l (k : nat) j : 0 <= j < 64 ->
  chunks_test l (64 * Z.of_nat k + j) = Z.testbit (chunk_at l k) j.
Proof.
  intros Hj. unfold chunks_test.
  rewrite (Z.mul_comm 64), Z.div_add_l, Z.div_small, Z.add_0_r, Nat2Z.id by lia.
  by rewrite Z.add_comm, Z.mod_add, Z.mod_small by lia.
Qed.

Lemma chunks_count_test l :
  chunks_ok l -> chunks_count l <> 0 <-> exists i, 0 <= i /\ chunks_test l i = true.
Proof.
  intros Hok. rewrite chunks_count_0 by done. split.
  - intros Hn. apply not_Forall_Exists in Hn; [|apply _].
    apply List.Exists_exists in Hn as (c & Hc & H0). apply list_elem_of_In, list_elem_of_lookup in Hc as [k Hk].
    pose proof (Forall_lookup_1 _ _ _ _ Hok Hk) as [Hc0 Hc64]. cbn in H0.
    assert (0 <= Z.log2 c < 64) by (split; [apply Z.log2_nonneg|apply Z.log2_lt_pow2; lia]).
    exists (64 * Z.of_nat k + Z.log2 c). split; [lia|].
    rewrite chunks_test_index, (chunk_at_Some _ _ _ Hk) by done. apply Z.bit_log2. lia.
  - intros (i & Hi & Ht) Hz. unfold chunks_test, chunk_at in Ht.
    destruct (l !! Z.to_nat (i / 64)) as [c|] eqn:E; cbn in Ht; [|by rewrite Z.bits_0 in Ht].
    pose proof (Forall_lookup_1 _ _ _ _ Hz E) as <-. by rewrite Z.bits_0 in Ht.
Qed.

(** The bits of a vector, as a set. *)
Definition bv_bit (bv : DPS_BitVector) (i : Z) : bool := chunks_test (bits bv) i.

Lemma bv_sub_bits bv2 bv1 :
  bv_wf bv2 -> bv_wf bv1 -> len bv2 = len bv1 ->
  bv_sub bv2 bv1 <-> forall i, 0 <= i -> bv_bit bv2 i = true -> bv_bit bv1 i = true.
Proof.
  intros H2 H1 Hl. apply chunks_sub_test_iff; [apply H2|].
  pose proof (bv_len _ H1). pose proof (bv_len _ H2). lia.
Qed.

(** on well-formed vectors of the same length, whatever counts they have
    cached, [Union] and [Intersection] compute the union and the intersection
    of the sets of bits (with a count that is unknown or right), and [Includes]
    decides whether the second set is a subset of the first, an empty first
    vector including nothing. *)
Theorem set_operations out bv1 bv2 :
  bv_wf out -> bv_wf bv1 -> bv_wf bv2 -> len out = len bv1 -> len bv1 = len bv2 ->
  (exists u, DPS_BitVectorUnion (Some bv1) (Some bv2) = Some (DPS_OK, Some u) /\
     bv_wf u /\ len u = len bv1 /\ forall i, 0 <= i -> bv_bit u i = bv_bit bv1 i || bv_bit bv2 i) /\
  (exists n, DPS_BitVectorIntersection (Some out) (Some bv1) (Some bv2) = Some (DPS_OK, Some n) /\
     bv_wf n /\ len n = len bv1 /\ forall i, 0 <= i -> bv_bit n i = bv_bit bv1 i && bv_bit bv2 i) /\
  (exists b, DPS_BitVectorIncludes (Some bv1) (Some bv2) = Some b /\
     (b = true <-> (forall i, 0 <= i -> bv_bit bv2 i = true -> bv_bit bv1 i = true) /\
                   (exists i, 0 <= i /\ bv_bit bv1 i = true))).
Proof.
  intros Ho H1 H2 Hlo Hl.
  assert (length (bits bv1) = length (bits bv2)) as Hll.
  { pose proof (bv_len _ H1). pose proof (bv_len _ H2). lia. }
  split_and!.
  - destruct (DPS_BitVectorUnion_spec bv1 bv2 H1 H2 Hl) as (u & -> & Hu & Hlu & Hb).
    exists u. split_and!; try done. intros i Hi. unfold bv_bit. rewrite Hb.
    by apply (chunks_test_zip Z.lor orb); [| | |intros; apply Z.lor_spec].
  - destruct (DPS_BitVectorIntersection_spec out bv1 bv2 Ho H1 H2 Hlo) as (n & -> & Hn & Hln & Hb); [lia|].
    exists n. split_and!; [done..|lia|]. intros i Hi. unfold bv_bit. rewrite Hb.
    by apply (chunks_test_zip Z.land andb); [| | |intros; apply Z.land_spec].
  - destruct (DPS_BitVectorIncludes_spec bv1 bv2 H1 H2 Hl) as (b & -> & Hb).
    exists b. split; [done|]. rewrite Hb, bv_sub_bits, chunks_count_test by (done || apply H1). done.
Qed.

Lemma set_operations_witness :
  exists b, DPS_BitVectorIncludes (Some (bv64 [7; 8])) (Some (bv64 [5; 0])) = Some b /\
     (b = true <-> (forall i, 0 <= i -> bv_bit (bv64 [5; 0]) i = true -> bv_bit (bv64 [7; 8]) i = true) /\
                   (exists i, 0 <= i /\ bv_bit (bv64 [7; 8]) i = true)).
Proof.
  apply (set_operations (bv64 [0; 0]) (bv64 [7; 8]) (bv64 [5; 0]));
    first [reflexivity | apply (bool_decide_unpack _); vm_compute; done].
Defined.

(** C30: fuzzy hashing is monotone and keeps non-emptiness: when one vector is
    included in another and is not empty, its 256-bit hash is included in the
    other's, and [Includes] says so.  This is what lets a node compare hashes
    instead of vectors without losing a match. *)
Theorem fuzzy_hash_monotone h1 h2 bv1 bv2 :
  bv_wf h1 -> bv_wf h2 -> len h1 = FH_BITVECTOR_LEN -> len h2 = FH_BITVECTOR_LEN ->
  bv_wf bv1 -> bv_wf bv2 -> len bv1 = len bv2 -> bv_sub bv2 bv1 -> chunks_count (bits bv2) <> 0 ->
  exists h1' h2' v1 v2,
    DPS_BitVectorFuzzyHash (Some h1) (Some bv1) = Some (DPS_OK, Some h1', Some v1) /\
    DPS_BitVectorFuzzyHash (Some h2) (Some bv2) = Some (DPS_OK, Some h2', Some v2) /\
    bv_sub h2' h1' /\
    DPS_BitVectorIncludes (Some h1') (Some h2') = Some true.
Proof.
  intros W1 W2 L1 L2 H1 H2 Hl Hs Hc.
  destruct (DPS_BitVectorFuzzyHash_spec h1 bv1 W1 L1 H1) as (h1' & E1 & W1' & L1' & B1).
  destruct (DPS_BitVectorFuzzyHash_spec h2 bv2 W2 L2 H2) as (h2' & E2 & W2' & L2' & B2).
  assert (bv_sub h2' h1') as Hsub.
  { unfold bv_sub. rewrite B1, B2. apply fuzzy_spec_mono; [apply H2|apply H1|done]. }
  do 4 eexists. split_and!; [exact E1|exact E2|done|].
  destruct (DPS_BitVectorIncludes_spec h1' h2' W1' W2') as (b & -> & Hb); [congruence|].
  f_equal. apply Hb. split; [done|]. rewrite B1. apply fuzzy_spec_nonempty; [apply H1|].
  pose proof (chunks_count_mono _ _ (bv_chunks _ H2) (bv_chunks _ H1) Hs).
  pose proof (chunks_count_nonneg (bits bv2)). lia.
Qed.

Lemma fuzzy_hash_monotone_witness :
  exists h1' h2' v1 v2,
    DPS_BitVectorFuzzyHash (Some (bv64 [0; 0; 0; 0])) (Some (bv64 [7; 8])) = Some (DPS_OK, Some h1', Some v1) /\
    DPS_BitVectorFuzzyHash (Some (bv64 [1; 2; 3; 4])) (Some (bv64 [5; 0])) = Some (DPS_OK, Some h2', Some v2) /\
    bv_sub h2' h1' /\
    DPS_BitVectorIncludes (Some h1') (Some h2') = Some true.
Proof.
  apply (fuzzy_hash_monotone (bv64 [0; 0; 0; 0]) (bv64 [1; 2; 3; 4]) (bv64 [7; 8]) (bv64 [5; 0])).
  1, 2, 5, 6: apply (bool_decide_unpack _); vm_compute; done.
  1, 2, 3: reflexivity.
  - unfold bv_sub, chunks_sub. apply (bool_decide_unpack (Forall2 zsub _ _)). vm_compute. done.
  - vm_compute. done.
Defined.

(** ** Serialisation *)

Lemma serialize_flags_range load : 0 <= serialize_flags load < 4.
Proof. destruct (serialize_flags_cases load) as [->|[->| ->]]; lia. Qed.

Lemma bv_payload_bytes flags l payload : bv_payload flags l payload -> Forall is_byte payload.
Proof. intros [[_ ->]|[_ [? _]]]; [apply bytes_of_chunks_bytes|done]. Qed.

Lemma bv_wire_length flags l payload :
  (length (bv_wire flags l payload) <= 36 + length payload)%nat.
Proof.
  unfold bv_wire. rewrite !length_app.
  assert (forall maj n, (length (cbor_head maj n) <= 9)%nat) as H.
  { intros maj n. pose proof (cbor_head_length maj n). pose proof (Requires_cases n). lia. }
  pose proof (H CBOR_ARRAY 3). pose proof (H CBOR_UINT flags). pose proof (H CBOR_UINT l).
  pose proof (H CBOR_BYTES (Z.of_nat (length payload))). lia.
Qed.

Lemma bv_wire_bytes flags l payload :
  0 <= flags < 4 -> 0 <= l -> Forall is_byte payload -> Forall is_byte (bv_wire flags l payload).
Proof.
  intros. unfold bv_wire.
  repeat (apply Forall_app_2; [apply cbor_head_bytes; [major|lia]|]). done.
Qed.

(** C31: in a buffer of the size that [DPS_BitVectorSerializeMaxSize] announces,
    [DPS_BitVectorSerialize] of any vector of up to 65535 bits either reports
    an overflow, which only the run-length encodings can, or appends a message
    that [DPS_BitVectorDeserialize] reads back into any fresh vector of that
    length as the same set of bits, consuming it exactly; with a load factor
    between 30 and 70 (raw encoding) it always succeeds. *)
Theorem serialize_roundtrip bv fresh b :
  bv_wf bv -> 0 < len bv <= 65535 -> bv_wf fresh -> len fresh = len bv -> tx_wf b ->
  tx_fits b (Z.to_nat (DPS_BitVectorSerializeMaxSize bv)) ->
  exists ret bv' b', DPS_BitVectorSerialize bv b = Some (ret, bv', b') /\ bits bv' = bits bv /\
    (ret = DPS_OK \/
     ret = DPS_ERR_OVERFLOW /\ serialize_flags (DPS_BitVectorLoadFactor bv).1 <> 0) /\
    (ret = DPS_OK -> exists msg bv2 r,
       tx_written b' = tx_written b ++ msg /\
       DPS_BitVectorDeserialize fresh (mkRx msg (length msg) 0) = Some (DPS_OK, bv2, r) /\
       bits bv2 = bits bv /\ len bv2 = len bv /\ rx_rest r = []).
Proof.
  intros Hwf Hl Hfr Hlf Hb Hf.
  destruct (DPS_BitVectorSerialize_spec bv b Hwf Hl Hb Hf) as (ret & b' & -> & Hlen & _ & Hcase).
  do 3 eexists. split; [done|]. split; [done|].
  rewrite LoadFactor_spec by done. cbn [fst].
  destruct Hcase as [[-> Hfl]|(-> & payload & Hp & Hpl & Hw)].
  { split; [by right|done]. }
  split; [by left|]. intros _.
  set (flags := serialize_flags (vector_load (chunks_count (bits bv)) (len bv))) in *.
  assert (Hlen8 : len bv / 8 < 2 ^ 16) by (apply Z.div_lt_upper_bound; lia).
  destruct (DPS_BitVectorDeserialize_spec fresh
      (mkRx (bv_wire flags (len bv) payload) (length (bv_wire flags (len bv) payload)) 0)
      flags (bits bv) payload []) as (bv2 & E & Hb2 & Hl2); try done.
  - split_and!; cbn [rx_mem rx_eod rx_pos]; [lia|lia| |].
    + pose proof (bv_wire_length flags (len bv) payload). lia.
    + apply bv_wire_bytes; [apply serialize_flags_range|lia|by eapply bv_payload_bytes].
  - lia.
  - pose proof (bv_len _ Hwf). pose proof (bv_len _ Hfr). lia.
  - apply Hwf.
  - by rewrite Hlf.
  - by rewrite Hlf, app_nil_r, rx_rest_whole.
  - rewrite Hlf in E. do 3 eexists. split_and!; [exact Hw|exact E|done|congruence|].
    rewrite rx_skip_rest, rx_rest_whole. apply drop_all.
Qed.

Lemma serialize_roundtrip_witness :
  let bv := bv64 [2 ^ 40; 0] in let b := mkTx (replicate 40 0) 3 in
  exists ret bv' b', DPS_BitVectorSerialize bv b = Some (ret, bv', b') /\ bits bv' = bits bv /\
    (ret = DPS_OK \/
     ret = DPS_ERR_OVERFLOW /\ serialize_flags (DPS_BitVectorLoadFactor bv).1 <> 0) /\
    (ret = DPS_OK -> exists msg bv2 r,
       tx_written b' = tx_written b ++ msg /\
       DPS_BitVectorDeserialize (bv64 [0; 0]) (mkRx msg (length msg) 0) = Some (DPS_OK, bv2, r) /\
       bits bv2 = bits bv /\ len bv2 = len bv /\ rx_rest r = []).
Proof.
  intros bv b. apply (serialize_roundtrip bv (bv64 [0; 0]) b).
  1, 3: apply (bool_decide_unpack _); vm_compute; done.
  - vm_compute. intuition congruence.
  - reflexivity.
  - apply (bool_decide_unpack _). vm_compute. done.
  - apply (bool_decide_unpack _). vm_compute. done.
Defined.

(** ** Count vectors *)

(** A history of a count vector, and what it does to the multiset. *)
Inductive cv_op := CvAdd (bv : DPS_BitVector) | CvDel (bv : DPS_BitVector).

Definition cv_apply (cv : DPS_CountVector) (op : cv_op) : option DPS_CountVector :=
  '(ret, cv) ← match op with
               | CvAdd bv => DPS_CountVectorAdd (Some cv) (Some bv)
               | CvDel bv => DPS_CountVectorDel (Some cv) (Some bv)
               end;
  if is_OK ret then cv else None.

Fixpoint cv_run (cv : DPS_CountVector) (ops : list cv_op) : option DPS_CountVector :=
  match ops with [] => Some cv | op :: ops => cv ← cv_apply cv op; cv_run cv ops end.

(** [cv_history n ops L]: the operations are on well-formed vectors of [n] chunks,
    a vector is deleted only when it is there, at most 65535 are there at any
    time, and [L] are those left at the end. *)
Inductive cv_history (n : nat) : list cv_op -> list (list Z) -> list (list Z) -> Prop :=
  | ch_end L : cv_history n [] L L
  | ch_add bv ops L L' :
      bv_wf bv -> length (bits bv) = n -> Z.of_nat (length L) < CV_MAX ->
      cv_history n ops (bits bv :: L) L' -> cv_history n (CvAdd bv :: ops) L L'
  | ch_del bv ops L L1 L' :
      bv_wf bv -> L ≡ₚ bits bv :: L1 ->
      cv_history n ops L1 L' -> cv_history n (CvDel bv :: ops) L L'.

Lemma cv_run_repr n ops L L' cv :
  cv_history n ops L L' -> cv_repr cv n L ->
  exists cv', cv_run cv ops = Some cv' /\ cv_repr cv' n L' /\
    (is_Some (bvUnion cv') <-> is_Some (bvUnion cv)).
Proof.
  intros H. revert cv. induction H as [L|bv ops L L' Hwf Hn Hm _ IH|bv ops L L1 L' Hwf HL _ IH]; intros cv Hr.
  - by exists cv.
  - destruct (DPS_CountVectorAdd_spec cv bv n L Hr Hwf Hn Hm) as (cv1 & E & Hr1 & Hu1).
    destruct (IH cv1 Hr1) as (cv' & E' & Hr' & Hu'). exists cv'. cbn [cv_run]. unfold cv_apply.
    rewrite E. cbn [mbind option_bind].
    change (is_OK DPS_OK) with true. cbn [mbind option_bind]. by rewrite E', <- Hu1.
  - destruct (DPS_CountVectorDel_spec cv bv n L L1 Hr Hwf HL) as (cv1 & E & Hr1 & Hu1).
    destruct (IH cv1 Hr1) as (cv' & E' & Hr' & Hu'). exists cv'. cbn [cv_run]. unfold cv_apply.
    rewrite E. cbn [mbind option_bind].
    change (is_OK DPS_OK) with true. cbn [mbind option_bind]. by rewrite E', <- Hu1.
Qed.

Lemma rows_ok_zeros (us : bool) n :
  rows_ok (replicate n (replicate 64 0)) (if us then Some (replicate n 0) else None) (columns n []).
Proof.
  assert (H : forall u, u = None \/ u = Some 0 -> row_ok (replicate 64 0) u []).
  { intros u Hu. split_and!; [done| |destruct Hu; naive_solver|constructor].
    intros j x Hx. apply lookup_replicate in Hx as [-> _]. done. }
  induction n as [|n IH]; [destruct us; [by right|by left]|].
  cbn [replicate columns map rows_ok]. destruct us; cbn [replicate]; split; auto.
Qed.

Lemma CountVectorAlloc_repr config cv :
  bitLen config mod 64 = 0 -> 0 <= bitLen config ->
  DPS_CountVectorAlloc config true true = Some (Some cv) ->
  cv_repr cv (Z.to_nat (bitLen config / 64)) [] /\ is_Some (bvUnion cv).
Proof.
  intros Hm Hl. unfold DPS_CountVectorAlloc, AllocCV, AllocBV. rewrite Hm. cbn.
  intros [= <-]. cbn. split; [|by eexists].
  constructor; cbn [entries cvlen counts bvUnion length]; try done.
  - pose proof (Z.div_mod (bitLen config) 64). pose proof (Z.div_pos (bitLen config) 64). lia.
  - apply (rows_ok_zeros true).
  - intros u [= <-]. cbn. split; [|done].
    pose proof (Z.div_mod (bitLen config) 64). pose proof (Z.div_pos (bitLen config) 64). lia.
Qed.

(** C22: a count vector allocated empty and put through any sequence of
    additions and of deletions of vectors that are in it, up to 65535 at a
    time, is the multiset of the vectors it holds: no call fails, the union it
    gives has exactly the bits that some of them has, and the intersection
    exactly those that all of them have (and none when it holds no vector). *)
Theorem count_vector_refines config ops L cv :
  bitLen config mod 64 = 0 -> 0 <= bitLen config ->
  DPS_CountVectorAlloc config true true = Some (Some cv) ->
  cv_history (Z.to_nat (bitLen config / 64)) ops [] L ->
  exists cv' u m, cv_run cv ops = Some cv' /\
    entries cv' = Z.of_nat (length L) /\
    DPS_CountVectorToUnion true (Some cv') = Some u /\
    DPS_CountVectorToIntersection true cv' = Some (Some m) /\
    forall i, 0 <= i < bitLen config ->
      bv_bit u i = existsb (fun l => chunks_test l i) L /\
      bv_bit m i = negb (is_nil L) && forallb (fun l => chunks_test l i) L.
Proof.
  intros Hm Hl Ha Hh. destruct (CountVectorAlloc_repr config cv Hm Hl Ha) as [Hr Hu].
  destruct (cv_run_repr _ _ _ _ cv Hh Hr) as (cv' & E & Hr' & Hu'). destruct (proj2 Hu' Hu) as [u Hu2]. clear Hu.
  assert (bitLen config = 64 * Z.of_nat (Z.to_nat (bitLen config / 64))) as Hn.
  { pose proof (Z.div_mod (bitLen config) 64). pose proof (Z.div_pos (bitLen config) 64). lia. }
  exists cv', u. eexists. split_and!; [done|apply Hr'|by cbn; rewrite Hu2| |].
  - by apply DPS_CountVectorToIntersection_spec in Hr'.
  - intros i Hi. unfold bv_bit. rewrite (DPS_CountVectorToUnion_spec _ _ _ _ Hr' Hu2). cbn [bits].
    rewrite vec_union_test by lia. split; [done|]. case_decide as HL.
    + subst L. apply zeros_test.
    + rewrite vec_meet_test by lia. by destruct L.
Qed.

Lemma count_vector_refines_witness :
  let config := mkConfig 128 3 in
  exists cv cv' u m, DPS_CountVectorAlloc config true true = Some (Some cv) /\
    cv_run cv [CvAdd (bv64 [7; 0]); CvAdd (bv64 [5; 8]); CvDel (bv64 [7; 0])] = Some cv' /\
    entries cv' = 1 /\
    DPS_CountVectorToUnion true (Some cv') = Some u /\
    DPS_CountVectorToIntersection true cv' = Some (Some m) /\
    forall i, 0 <= i < 128 ->
      bv_bit u i = existsb (fun l => chunks_test l i) [[5; 8]] /\
      bv_bit m i = true && forallb (fun l => chunks_test l i) [[5; 8]].
Proof.
  intros config. eexists. destruct (count_vector_refines config
      [CvAdd (bv64 [7; 0]); CvAdd (bv64 [5; 8]); CvDel (bv64 [7; 0])] [[5; 8]]
      (mkCV 0 128 (Some (mkBV (-1) 128 [0; 0])) (replicate 2 (replicate 64 0))))
    as (cv' & u & m & H1 & H2 & H3 & H4 & H5).
  - reflexivity.
  - vm_compute. congruence.
  - reflexivity.
  - apply ch_add; [apply (bool_decide_unpack _); vm_compute; done|reflexivity|vm_compute; done|].
    apply ch_add; [apply (bool_decide_unpack _); vm_compute; done|reflexivity|vm_compute; done|].
    apply (ch_del _ _ _ _ [[5; 8]]); [apply (bool_decide_unpack _); vm_compute; done|apply Permutation_swap|].
    apply ch_end.
  - exists cv', u, m. split; [reflexivity|]. do 4 (split; [assumption|]). exact H5.
Defined.

(** ** Defects *)

(** A defect: a vector of at least 128 bits has packets that make
    [DPS_BitVectorDeserialize] leave defined behaviour: a run-length code of
    nine zero bytes fails the assertion that all of it was read, and the code
    [00 00 00 00 00 00 00 80] shifts a 64-bit word by 64 bits. *)
Theorem deserialize_undefined fresh :
  bv_wf fresh -> 128 <= len fresh <= 65535 ->
  Forall (fun payload =>
    let msg := bv_wire FLAG_RLE_ENCODED (len fresh) payload in
    DPS_BitVectorDeserialize fresh (mkRx msg (length msg) 0) = None)
    [replicate 9 0; replicate 7 0 ++ [128]].
Proof.
  intros Hwf Hl.
  assert (H : forall payload, Forall is_byte payload -> (length payload <= 16)%nat ->
    (forall n, 128 <= n <= 65535 -> RunLengthDecode payload (length (bits fresh)) n = None) ->
    let msg := bv_wire FLAG_RLE_ENCODED (len fresh) payload in
    DPS_BitVectorDeserialize fresh (mkRx msg (length msg) 0) = None).
  { intros payload Hb Hlen Hd. cbv zeta. pose proof (bv_wire_length FLAG_RLE_ENCODED (len fresh) payload).
    rewrite (Deserialize_heads fresh _ FLAG_RLE_ENCODED payload []).
    - cbv zeta. change (negb (FLAG_RLE_ENCODED .& FLAG_RLE_ENCODED =? 0)) with true. cbv iota.
      by rewrite Hd by lia.
    - split_and!; cbn [rx_mem rx_eod rx_pos]; [lia|lia|lia|].
      apply bv_wire_bytes; (done || lia).
    - lia.
    - done.
    - pose proof (Z.div_le_mono 128 (len fresh) 8). change (128 / 8) with 16 in *. lia.
    - by rewrite rx_rest_whole, app_nil_r. }
  repeat constructor; apply H; try (repeat constructor; unfold is_byte; lia); try (cbn; lia);
    intros n Hn; unfold RunLengthDecode; cbn [replicate app];
    (destruct (Z.to_nat n) as [|k] eqn:En; [lia|]); reflexivity.
Qed.

Lemma deserialize_undefined_witness :
  let msg p := bv_wire FLAG_RLE_ENCODED 128 p in
  Forall (fun payload =>
    DPS_BitVectorDeserialize (bv64 [0; 0]) (mkRx (msg payload) (length (msg payload)) 0) = None)
    [replicate 9 0; replicate 7 0 ++ [128]].
Proof.
  intros msg. apply (deserialize_undefined (bv64 [0; 0])).
  - apply (bool_decide_unpack _). vm_compute. done.
  - vm_compute. intuition congruence.
Defined.

(** A defect: complementing a vector whose count is not cached, which the
    decoder of the run-length encoding does, gives it a count that is one more
    than its length, and complementing a vector cached as empty leaves the count
    0 although every bit is set; after that [Includes] says no to everything. *)
Theorem complement_count_wrong bv :
  bv_wf bv -> 0 < len bv ->
  (popCount bv = -1 -> DPS_BitVectorPopCount (DPS_BitVectorComplement bv) =
     (len bv + 1, DPS_BitVectorComplement bv)) /\
  (popCount bv = 0 ->
     bits (DPS_BitVectorComplement bv) = replicate (length (bits bv)) CHUNK_MAX /\
     DPS_BitVectorIncludes (Some (DPS_BitVectorComplement bv)) (Some bv) = Some false).
Proof.
  intros Hwf Hl. pose proof (bv_small _ Hwf) as Hs. pose proof (bv_len _ Hwf) as Hn.
  split; intros Hp; unfold DPS_BitVectorComplement; cbn [popCount set_bits len bits]; rewrite Hp.
  - change (negb (-1 =? 0)) with true. cbv iota.
    assert (s32 (u32 (len bv) - -1) = len bv + 1) as ->.
    { rewrite u32_small by lia. rewrite s32_small_nonneg; [lia|].
      pose proof (Z.mod_mul (Z.of_nat (length (bits bv))) 64). lia. }
    unfold DPS_BitVectorPopCount, UNKNOWN_POPCOUNT. cbn [popCount set_popCount].
    rewrite (proj2 (Z.ltb_ge (len bv + 1) 0)) by lia. cbn [popCount set_popCount].
    by rewrite u64_small by lia.
  - change (negb (0 =? 0)) with false. cbv iota. cbn [bits]. split.
    + pose proof (bv_empty bv Hwf Hp) as Hz. rewrite (Forall_zeros_replicate _ Hz) at 1.
      exact (fmap_replicate (fun c => u64 (Z.lnot c)) _ 0).
    + unfold DPS_BitVectorIncludes. cbn [len popCount set_bits]. rewrite Z.eqb_refl, Hp. done.
Qed.

Lemma complement_count_wrong_witness :
  DPS_BitVectorPopCount (DPS_BitVectorComplement (bv64 [3; 4])) =
    (129, DPS_BitVectorComplement (bv64 [3; 4])).
Proof.
  apply (complement_count_wrong (bv64 [3; 4])).
  - apply (bool_decide_unpack _). vm_compute. done.
  - reflexivity.
  - reflexivity.
Defined.
