(* ===== verification/Topics.v ===== *)
(** * Topic strings ([src/topics.c])

    A C string is the list of its characters before the terminating NUL, and a
    pointer into it is an offset; reading before the first character or after
    the NUL is [None].  [DPS_DumpTopics] and [DPS_DumpMatchingTopics] only
    print. *)
From S2P Require Import Prelude Status Buffer Float Cbor BitVec.

Inductive DPS_TopicType := DPS_SubTopic | DPS_PubTopic | DPS_PubNoWild.

Definition is_sub (t : DPS_TopicType) : bool := match t with DPS_SubTopic => true | _ => false end.
Definition is_pub (t : DPS_TopicType) : bool := match t with DPS_PubTopic => true | _ => false end.

Definition DPS_MAX_TOPIC_STRLEN : Z := 2048.
Definition FINAL_WILDC : Z := 35.   (* '#' *)
Definition INFIX_WILDC : Z := 43.   (* '+' *)
Definition WILDCARDS : list Z := [INFIX_WILDC; FINAL_WILDC].
Definition ANY_WILDC (c : Z) : bool := (c =? FINAL_WILDC) || (c =? INFIX_WILDC).

(** ** The string functions of the standard library *)

(** [s\[i\]] *)
Definition cstr_get (s : list Z) (i : nat) : option Z :=
  if decide (i = length s) then Some 0 else s !! i.

(** [s\[i - 1\]], through a pointer to [s\[i\]]. *)
Definition cstr_prev (s : list Z) (i : nat) : option Z :=
  match i with O => None | S j => cstr_get s j end.

(** [strchr(s, c)] is not null: the NUL is part of the string. *)
Definition strchr (s : list Z) (c : Z) : bool := (c =? 0) || existsb (Z.eqb c) s.

Fixpoint strcspn (s reject : list Z) : nat :=
  match s with
  | [] => O
  | c :: s => if existsb (Z.eqb c) reject then O else S (strcspn s reject)
  end.

(** ** Wildcards *)

(** The [do .. while ( *wc)] loop: an error, or the final [wc]. *)
Inductive check_result := CheckReturn (ret : DPS_Status) | CheckEnd (wc : nat).

Fixpoint wildcard_loop (fuel : nat) (topic separators : list Z) (wc : nat) : option check_result :=
  match fuel with
  | O => None
  | S fuel =>
      c0 ← cstr_get topic wc;
      bad ← (if (wc =? 0)%nat then Some false
             else p ← cstr_prev topic wc; Some (negb (strchr separators p)));
      if bad : bool then Some (CheckReturn DPS_ERR_INVALID)
      else
        c1 ← cstr_get topic (wc + 1);
        if c1 =? 0 then Some (CheckReturn (if ANY_WILDC c0 then DPS_OK else DPS_ERR_INVALID))
        else if negb (c0 =? INFIX_WILDC) then Some (CheckReturn DPS_ERR_INVALID)
        else if negb (strchr separators c1) then Some (CheckReturn DPS_ERR_INVALID)
        else
          let wc := (wc + 2)%nat in
          let wc := (wc + strcspn (drop wc topic) WILDCARDS)%nat in
          c ← cstr_get topic wc;
          if c =? 0 then Some (CheckEnd wc) else wildcard_loop fuel topic separators wc
  end.

(** Results: the status and [*wcPos]. *)
Definition CheckWildcarding (topic separators : list Z) (topicType : DPS_TopicType)
  : option (DPS_Status * option nat) :=
  let wc := strcspn topic WILDCARDS in
  let last wc wcPos :=
    p ← cstr_prev topic wc;
    Some (if strchr separators p then DPS_ERR_INVALID else DPS_OK, wcPos) in
  c0 ← cstr_get topic wc;
  if negb (c0 =? 0) then
    if negb (is_sub topicType) then Some (DPS_ERR_INVALID, None)
    else
      c1 ← cstr_get topic (wc + 1);
      if (wc =? 0)%nat && (c0 =? FINAL_WILDC) && negb (c1 =? 0) then Some (DPS_ERR_INVALID, None)
      else
        r ← wildcard_loop (S (length topic)) topic separators wc;
        match r with
        | CheckReturn ret => Some (ret, Some wc)
        | CheckEnd wc' => last wc' (Some wc)
        end
  else last wc None.

(** ** Topics in Bloom filters *)

Section Topics.
Context (mbedtls_md : list Z -> list Z) (config : Configuration).

Let insert := DPS_BitVectorBloomInsert mbedtls_md config.

(** [while ( *tp)].  [segment] is the memory of [tlen + 1] bytes; its first
    [prefix] bytes are the separators so far. *)
Fixpoint topic_loop (fuel : nat) (bf : DPS_BitVector) (topic separators : list Z)
    (topicType : DPS_TopicType) (wc : option nat) (segment : list Z) (prefix tp : nat)
  : option (DPS_Status * DPS_BitVector * list Z * nat) :=
  c ← cstr_get topic tp;
  if c =? 0 then Some (DPS_OK, bf, segment, prefix)
  else match fuel with
  | O => None
  | S fuel =>
      segment ← mem_write segment prefix [c];
      let prefix := S prefix in
      let tp := S tp in
      bf ← (if is_pub topicType then insert bf (take tp topic) else Some bf);
      let len := strcspn (drop tp topic) separators in
      c0 ← cstr_get topic tp;
      after ← (match wc with
               | None => Some true
               | Some wc =>
                   if (wc <? tp)%nat then
                     if negb (c0 =? INFIX_WILDC) then Some true
                     else c1 ← cstr_get topic (tp + 1); Some (c1 =? 0)
                   else Some false
               end);
      if after : bool then
        let sz := (prefix + len)%nat in
        '(ok, segment) ← memcpy_s segment prefix (Z.of_nat (length topic) - Z.of_nat prefix)
                                  (take len (drop tp topic));
        if negb ok then Some (DPS_ERR_RESOURCES, bf, segment, prefix)
        else
          e ← cstr_get topic (tp + len);
          segment ← mem_write segment sz [e];
          let sz := if e =? 0 then sz else S sz in
          data ← mem_read segment 0 sz;
          bf ← insert bf data;
          topic_loop fuel bf topic separators topicType wc segment prefix (tp + len)
      else topic_loop fuel bf topic separators topicType wc segment prefix (tp + len)
  end.

(** [while (prefix >= 0)], for [prefix = n] down to 0. *)
Fixpoint final_loop (bf : DPS_BitVector) (segment : list Z) (n : nat) : option DPS_BitVector :=
  segment ← mem_write segment n [FINAL_WILDC];
  data ← mem_read segment 0 (n + 1);
  bf ← insert bf data;
  match n with
  | O => Some bf
  | S n => final_loop bf segment n
  end.

(** [malloc] is the outcome of the allocation: the (indeterminate) contents of
    the block of [tlen + 1] bytes, or [None]. *)
Definition DPS_AddTopic (malloc : nat -> option (list Z)) (bf : option DPS_BitVector)
    (topic separators : option (list Z)) (topicType : DPS_TopicType)
  : option (DPS_Status * option DPS_BitVector) :=
  match bf, topic, separators with
  | Some bf, Some topic, Some separators =>
      let tlen := strnlen_s topic (DPS_MAX_TOPIC_STRLEN + 1) in
      if tlen >? DPS_MAX_TOPIC_STRLEN then Some (DPS_ERR_INVALID, Some bf)
      else
        c0 ← cstr_get topic 0;
        if strchr separators c0 then Some (DPS_ERR_INVALID, Some bf)
        else
          '(ret, wc) ← CheckWildcarding topic separators topicType;
          if negb (is_OK ret) then Some (ret, Some bf)
          else
            let tp := strcspn topic separators in
            bf ← (match wc with
                  | None => insert bf topic
                  | Some wc => if (wc =? 0)%nat then Some bf else insert bf (take wc topic)
                  end);
            if match wc with None => negb (is_pub topicType) | Some _ => false end
            then Some (DPS_OK, Some bf)
            else match malloc (S (length topic)) with
            | None => Some (DPS_ERR_RESOURCES, Some bf)
            | Some segment =>
                '(ret, bf, segment, prefix) ←
                  topic_loop (length topic) bf topic separators topicType wc segment 0 tp;
                if is_OK ret && is_pub topicType then
                  segment ← mem_write segment prefix [INFIX_WILDC];
                  data ← mem_read segment 0 (prefix + 1);
                  bf ← insert bf data;
                  bf ← final_loop bf segment prefix;
                  Some (ret, Some bf)
                else Some (ret, Some bf)
            end
  | _, _, _ => Some (DPS_ERR_NULL, bf)
  end.

(** [bf] is the vector of the publication. *)
Definition DPS_MatchTopic (malloc : nat -> option (list Z)) (calloc : bool)
    (bf : option DPS_BitVector) (topic separators : option (list Z)) : option bool :=
  tmp ← DPS_BitVectorAlloc config calloc;
  match tmp with
  | None => Some false
  | Some tmp =>
      '(ret, tmp) ← DPS_AddTopic malloc (Some tmp) topic separators DPS_SubTopic;
      if is_OK ret then DPS_BitVectorIncludes bf tmp else Some false
  end.
End Topics.

(** ** Matching strings *)

(** [while ( *pubTopic && *subTopic)]: the value of [*match] at the end, on the
    rests of the two strings.  A step beyond a NUL is [None]. *)
Fixpoint match_loop (separators pubTopic subTopic : list Z) : option bool :=
  match pubTopic, subTopic with
  | [], [] => Some true
  | p :: pubTopic', c :: subTopic' =>
      if ANY_WILDC c then
        let len := strcspn pubTopic separators in
        let pubTopic := drop len pubTopic in
        if negb (len =? 0)%nat && is_nil subTopic' &&
           ((c =? FINAL_WILDC) || ((c =? INFIX_WILDC) && is_nil pubTopic))
        then Some true
        else match pubTopic, subTopic' with
        | p :: pubTopic, c :: subTopic =>
            if p =? c then match_loop separators pubTopic subTopic else Some false
        | [], [] => None
        | _, _ => Some false
        end
      else if p =? c then match_loop separators pubTopic' subTopic' else Some false
  | _, _ => Some false
  end.

(** [match0] is the value of [*match] before the call. *)
Definition DPS_MatchTopicString (pubTopic subTopic separators : option (list Z)) (noWild : bool)
    (match0 : option bool) : option (DPS_Status * option bool) :=
  match pubTopic, subTopic, separators, match0 with
  | Some pubTopic, Some subTopic, Some separators, Some _ =>
      if is_nil pubTopic || is_nil subTopic || is_nil separators
      then Some (DPS_ERR_INVALID, match0)
      else
        '(ret, _) ← CheckWildcarding pubTopic separators DPS_PubTopic;
        if negb (is_OK ret) then Some (ret, match0)
        else
          '(ret, wc) ← CheckWildcarding subTopic separators DPS_SubTopic;
          if negb (is_OK ret) then Some (ret, match0)
          else if noWild && match wc with Some _ => true | None => false end
          then Some (DPS_OK, Some false)
          else m ← match_loop separators pubTopic subTopic; Some (DPS_OK, Some m)
  | _, _, _, _ => Some (DPS_ERR_NULL, match0)
  end.

(** The inner loop of [DPS_MatchTopicList] over the publication's topics.
    Results: [ret], [ok] and whether it is the early return. *)
Fixpoint match_pubs (pubs : list (option (list Z))) (sub separators : option (list Z))
    (noWild : bool) (ret : DPS_Status) (ok : bool) : option (DPS_Status * bool * bool) :=
  match pubs with
  | [] => Some (ret, ok, false)
  | pub :: pubs =>
      '(ret, m) ← DPS_MatchTopicString pub sub separators noWild (Some ok);
      ok ← m;
      if negb (is_OK ret) then Some (ret, ok, true)
      else if ok : bool then Some (ret, ok, false)
      else match_pubs pubs sub separators noWild ret ok
  end.

Fixpoint match_subs (pubs subs : list (option (list Z))) (separators : option (list Z))
    (noWild : bool) (ret : DPS_Status) : option (DPS_Status * option bool) :=
  match subs with
  | [] => Some (ret, Some true)
  | sub :: subs =>
      '(ret, ok, returned) ← match_pubs pubs sub separators noWild ret false;
      if returned : bool then Some (ret, Some true)
      else if negb ok then Some (ret, Some false)
      else match_subs pubs subs separators noWild ret
  end.

Definition DPS_MatchTopicList (pubs subs : option (list (option (list Z))))
    (separators : option (list Z)) (noWild : bool) (match0 : option bool)
  : option (DPS_Status * option bool) :=
  match pubs, subs, separators, match0 with
  | Some pubs, Some subs, Some _, Some _ =>
      match_subs pubs subs separators noWild DPS_ERR_INVALID
  | _, _, _, _ => Some (DPS_ERR_NULL, match0)
  end.
