(* ===== verification/TopicProofs.v ===== *)
(** * Topics: string matching is sound for Bloom-filter matching

    The levels of a topic, the matching relation on them, what
    [DPS_AddTopic] inserts, and the inclusion of the two. *)
From S2P Require Import Prelude Status Buffer Float Cbor BitVec BitVecProofs Bloom Topics.

#[local] Set Warnings "-clear-no-such-hyp".

(** ** Levels *)

Section Levels.
Context (seps : list Z).

Definition is_sep (c : Z) : bool := existsb (Z.eqb c) seps.

(** A string as its first level and the (separator, level) pairs after it. *)
Fixpoint split (l : list Z) : list Z * list (Z * list Z) :=
  match l with
  | [] => ([], [])
  | c :: l => let '(s, r) := split l in
              if is_sep c then ([], (c, s) :: r) else (c :: s, r)
  end.

Definition levels (r : list (Z * list Z)) : list Z := concat (map (fun ps => ps.1 :: ps.2) r).

Lemma split_join l : (split l).1 ++ levels (split l).2 = l.
Proof.
  induction l as [|c l IH]; [done|]. cbn [split]. destruct (split l) as [s r].
  cbn [fst snd] in IH. destruct (is_sep c); cbn; f_equal; exact IH.
Qed.

Lemma strcspn_split l : strcspn l seps = length (split l).1.
Proof.
  induction l as [|c l IH]; [done|]. cbn [strcspn split]. destruct (split l) as [s r].
  fold (is_sep c). destruct (is_sep c); cbn in *; congruence.
Qed.

Lemma split_first_take l : take (strcspn l seps) l = (split l).1.
Proof. rewrite strcspn_split. rewrite <- (split_join l) at 2. apply take_app_length. Qed.

Lemma split_first_drop l : drop (strcspn l seps) l = levels (split l).2.
Proof. rewrite strcspn_split. rewrite <- (split_join l) at 2. apply drop_app_length. Qed.

(** Wildcards are whole levels, and a ['#'] is the last one.  [start] says that
    the string starts at a level. *)
Fixpoint wild_ok (start : bool) (l : list Z) : Prop :=
  match l with
  | [] => True
  | c :: l =>
      (ANY_WILDC c = true ->
         start = true /\ (l = [] \/ c = INFIX_WILDC /\ exists p l', l = p :: l' /\ is_sep p = true)) /\
      wild_ok (is_sep c) l
  end.

Definition no_wild (l : list Z) : Prop := Forall (fun c => ANY_WILDC c = false) l.

(** ** The matching relation

    ['+'] stands for one level, which is not empty when it is the last one;
    ['#'] stands for the rest, which does not start with an empty level. *)
Inductive topic_match : list Z -> list (Z * list Z) -> list Z -> list (Z * list Z) -> Prop :=
| tm_rest s r : s <> [] -> topic_match s r [FINAL_WILDC] []
| tm_last s s' : s = s' \/ s <> [] /\ s' = [INFIX_WILDC] -> topic_match s [] s' []
| tm_level s s' p s1 r s1' r' :
    s = s' \/ s' = [INFIX_WILDC] -> topic_match s1 r s1' r' ->
    topic_match s ((p, s1) :: r) s' ((p, s1') :: r').

Definition topics_match (pub sub : list Z) : Prop :=
  topic_match (split pub).1 (split pub).2 (split sub).1 (split sub).2.

Context (Hseps : no_wild seps).

Lemma sep_not_wild c : is_sep c = true -> ANY_WILDC c = false.
Proof using Hseps.
  unfold is_sep. rewrite existsb_exists. intros (x & Hx & E). apply Z.eqb_eq in E as ->.
  pose proof Hseps as H. unfold no_wild in H. rewrite List.Forall_forall in H. by apply H.
Qed.

Lemma wild_cases c : ANY_WILDC c = true -> c = FINAL_WILDC \/ c = INFIX_WILDC.
Proof. unfold ANY_WILDC. rewrite orb_true_iff, !Z.eqb_eq. done. Qed.

(** The first level of a valid string that starts inside a level has no
    wildcard. *)
Lemma wild_ok_inside l : wild_ok false l -> no_wild (split l).1.
Proof using Hseps.
  induction l as [|c l IH]; [constructor|]. cbn [wild_ok split]. intros [Hc Hl].
  destruct (split l) as [s r]. destruct (is_sep c) eqn:E; [constructor|].
  constructor; [|by apply IH]. destruct (ANY_WILDC c); [|done].
  destruct (Hc eq_refl) as [[=] _].
Qed.

Lemma topic_match_cons c s r s' r' :
  ANY_WILDC c = false -> no_wild s' -> topic_match s r s' r' <-> topic_match (c :: s) r (c :: s') r'.
Proof.
  intros Hc Hs. split.
  - inversion 1 as [? ? ?|? ? [?|[? ->]]|? ? p ? ? ? ? [?| ->] ?]; subst.
    + by apply Forall_cons_iff in Hs as [? _].
    + apply tm_last. by left.
    + by apply Forall_cons_iff in Hs as [? _].
    + apply tm_level; [by left|done].
    + by apply Forall_cons_iff in Hs as [? _].
  - inversion 1 as [? ? ?|? ? [E|[? E]]|? ? p ? ? ? ? [E|E] ?]; subst; try (injection E as ->); try done.
    + apply tm_last. by left.
    + apply tm_level; [by left|done].
Qed.

Lemma split_rest l :
  match drop (strcspn l seps) l with
  | [] => (split l).2 = []
  | p :: l2 => (split l).2 = (p, (split l2).1) :: (split l2).2
  end.
Proof.
  induction l as [|c l IH]; [done|]. cbn [strcspn split]. fold (is_sep c).
  destruct (is_sep c) eqn:E; cbn [drop].
  - by destruct (split l).
  - by destruct (split l).
Qed.

Lemma split_cons_sep c l :
  is_sep c = true -> split (c :: l) = ([], (c, (split l).1) :: (split l).2).
Proof. intros E. cbn [split]. destruct (split l). by rewrite E. Qed.

Lemma split_cons_char c l :
  is_sep c = false -> split (c :: l) = (c :: (split l).1, (split l).2).
Proof. intros E. cbn [split]. destruct (split l). by rewrite E. Qed.

Lemma topics_match_same c pub sub :
  ANY_WILDC c = false -> wild_ok (is_sep c) sub ->
  topics_match (c :: pub) (c :: sub) <-> topics_match pub sub.
Proof using Hseps.
  intros Hc Hs. unfold topics_match. destruct (is_sep c) eqn:E.
  - rewrite !split_cons_sep by done. cbn [fst snd]. split; [by inversion 1|].
    intros H. apply tm_level; [by left|done].
  - rewrite !split_cons_char by done. cbn [fst snd]. symmetry.
    apply topic_match_cons; [done|by apply wild_ok_inside].
Qed.

Lemma topics_match_diff p c pub sub :
  ANY_WILDC c = false -> p <> c -> ~ topics_match (p :: pub) (c :: sub).
Proof.
  intros Hc Hp. unfold topics_match. cbn [split]. destruct (split pub) as [s r], (split sub) as [s' r'].
  destruct (is_sep p) eqn:Ep, (is_sep c) eqn:Ec; cbn [fst snd]; inversion 1; subst; try done.
  all: repeat match goal with H : _ \/ _ |- _ => destruct H end; try congruence; naive_solver.
Qed.

Lemma topics_match_nil sub : topics_match [] sub <-> sub = [].
Proof.
  unfold topics_match. cbn [split fst snd]. destruct sub as [|c sub].
  - split; [done|]. intros _. apply tm_last. by left.
  - split; [|done]. cbn [split]. destruct (split sub) as [s' r'].
    destruct (is_sep c); inversion 1; naive_solver.
Qed.

Lemma topics_match_nil_r p pub : ~ topics_match (p :: pub) [].
Proof.
  unfold topics_match. cbn [split]. destruct (split pub) as [s r].
  destruct (is_sep p); cbn [fst snd]; inversion 1; naive_solver.
Qed.

(** The loop of [DPS_MatchTopicString] decides the relation. *)
Lemma match_loop_spec (n : nat) : forall sub start pub,
  (length sub <= n)%nat -> wild_ok start sub ->
  exists b, match_loop seps pub sub = Some b /\ (b = true <-> topics_match pub sub).
Proof using Hseps.
  induction n as [|n IH]; intros sub start pub Hn Hw.
  { destruct sub; [|simpl in Hn; lia]. destruct pub; eexists; (split; [done|]).
    - rewrite topics_match_nil. done.
    - split; [done|]. intros H. by apply topics_match_nil_r in H. }
  destruct pub as [|p pub], sub as [|c sub]; cbn [match_loop].
  1-3: eexists; (split; [done|]).
  { by rewrite topics_match_nil. }
  { rewrite topics_match_nil. done. }
  { split; [done|]. intros H. by apply topics_match_nil_r in H. }
  cbn [wild_ok length] in *. destruct Hw as [Hc Hw]. destruct (ANY_WILDC c) eqn:Ec.
  2: { destruct (Z.eqb_spec p c) as [->|Hne].
       - destruct (IH sub (is_sep c) pub) as (b & -> & Hb); [lia|done|].
         exists b. split; [done|]. by rewrite topics_match_same.
       - exists false. split; [done|]. split; [done|]. intros H. by apply topics_match_diff in H. }
  destruct (Hc eq_refl) as [-> Hsub].
  assert (is_sep c = false) as Hcs.
  { destruct (is_sep c) eqn:E; [|done]. apply sep_not_wild in E. congruence. }
  pose proof (split_rest (p :: pub)) as Hr. pose proof (strcspn_split (p :: pub)) as Hl.
  pose proof (split_first_drop (p :: pub)) as Hd.
  unfold topics_match at 1. rewrite (split_cons_char c _ Hcs). cbn [fst snd].
  set (s := (split (p :: pub)).1) in *. set (r := (split (p :: pub)).2) in *.
  destruct Hsub as [->|(-> & p' & sub' & -> & Hp')]; cbn [is_nil].
  - cbn [split fst snd]. rewrite andb_true_r, Hl in *.
    destruct s as [|x0 s0] eqn:Es; cbn [length Nat.eqb negb andb].
    { cbn [drop]. exists false. split; [done|]. split; [done|].
      inversion 1; destruct (wild_cases c Ec); naive_solver. }
    destruct (wild_cases c Ec) as [->| ->]; cbn [Z.eqb Pos.eqb orb andb FINAL_WILDC INFIX_WILDC].
    + exists true. split; [done|]. split; [intros _; by apply tm_rest|done].
    + destruct (drop _ _) as [|p2 pub2]; cbn [is_nil].
      * exists true. split; [done|]. rewrite Hr. split; [intros _; apply tm_last; by right|done].
      * exists false. split; [done|]. rewrite Hr. split; [done|inversion 1].
  - rewrite andb_false_r. cbn [andb]. rewrite (split_cons_sep p' sub' Hp'). cbn [fst snd].
    destruct (drop _ _) as [|p2 pub2].
    { exists false. split; [done|]. rewrite Hr. split; [done|inversion 1]. }
    rewrite Hr. destruct (Z.eqb_spec p2 p') as [->|Hne].
    + destruct (IH sub' (is_sep p') pub2) as (b & -> & Hb); [cbn [length] in *; lia|apply Hw|].
      exists b. split; [done|]. rewrite Hb. split; [intros H; apply tm_level; [by right|done]|].
      by inversion 1.
    + exists false. split; [done|]. split; [done|]. inversion 1; congruence.
Qed.
(** ** Wildcard checking *)

Lemma strcspn_wild l :
  exists a b, l = a ++ b /\ no_wild a /\ strcspn l WILDCARDS = length a /\
    match b with [] => True | c :: _ => ANY_WILDC c = true end.
Proof.
  induction l as [|c l (a & b & -> & Ha & E & Hb)].
  { exists [], []. split_and!; try done. constructor. }
  cbn [strcspn]. assert (existsb (Z.eqb c) WILDCARDS = ANY_WILDC c) as ->.
  { unfold ANY_WILDC, WILDCARDS. cbn. by rewrite orb_false_r, orb_comm. }
  destruct (ANY_WILDC c) eqn:Ec.
  - exists [], (c :: a ++ b). split_and!; try done. constructor.
  - exists (c :: a), b. split_and!; [done|by constructor|cbn; congruence|done].
Qed.

Fixpoint last_sep (start : bool) (l : list Z) : bool :=
  match l with [] => start | c :: l => last_sep (is_sep c) l end.

Lemma last_sep_app st l1 l2 : last_sep st (l1 ++ l2) = last_sep (last_sep st l1) l2.
Proof. revert st. induction l1; intros; cbn; auto. Qed.

Lemma wild_ok_skip st a l : no_wild a -> wild_ok st (a ++ l) <-> wild_ok (last_sep st a) l.
Proof.
  intros Ha. revert st. induction Ha as [|x a Hx _ IH]; intros st; [done|].
  cbn [app wild_ok last_sep]. rewrite IH, Hx. naive_solver.
Qed.

Lemma no_wild_ok st a : no_wild a -> wild_ok st a.
Proof. intros Ha. rewrite <- (app_nil_r a), wild_ok_skip by done. done. Qed.

Definition cstr (l : list Z) : Prop := Forall (fun c => 0 < c) l.

Definition next_char (l : list Z) : Z := match l with [] => 0 | c :: _ => c end.

Lemma cstr_get_app pre l : cstr_get (pre ++ l) (length pre) = Some (next_char l).
Proof.
  unfold cstr_get. rewrite length_app. destruct l as [|c l].
  - by rewrite decide_True by (cbn; lia).
  - rewrite decide_False by (cbn; lia). by apply list_lookup_middle.
Qed.

Lemma cstr_get_end l : cstr_get l (length l) = Some 0.
Proof. unfold cstr_get. by rewrite decide_True. Qed.

Lemma strchr_sep c : 0 < c -> strchr seps c = is_sep c.
Proof. intros. unfold strchr. by rewrite (proj2 (Z.eqb_neq c 0)) by lia. Qed.

Lemma cstr_prev_app pre l :
  pre <> [] -> cstr pre -> exists x, cstr_prev (pre ++ l) (length pre) = Some x /\
    strchr seps x = last_sep true pre.
Proof.
  intros Hne Hc. destruct (exists_last Hne) as (pre0 & x & ->).
  rewrite length_app, Nat.add_comm. cbn [length Nat.add cstr_prev].
  rewrite <- app_assoc, cstr_get_app. exists x. split; [done|].
  rewrite last_sep_app. cbn. apply strchr_sep.
  apply Forall_app in Hc as [_ Hc]. by apply Forall_cons_iff in Hc as [? _].
Qed.

Lemma wild_ok_head st c l :
  ANY_WILDC c = true -> wild_ok st (c :: l) <-> st = true /\ wild_ok true (c :: l).
Proof. intros Hc. cbn [wild_ok]. rewrite Hc. naive_solver. Qed.

(** The loop accepts exactly the strings whose remaining wildcards are well
    placed; it ends on the last wildcard or at the end of the string. *)
Lemma wildcard_loop_spec (fuel : nat) : forall pre c rest,
  ANY_WILDC c = true -> cstr (pre ++ c :: rest) -> (length rest < fuel)%nat ->
  exists r, wildcard_loop fuel (pre ++ c :: rest) seps (length pre) = Some r /\
    ((r = CheckReturn DPS_ERR_INVALID /\ ~ wild_ok (last_sep true pre) (c :: rest)) \/
     (r = CheckReturn DPS_OK /\ wild_ok (last_sep true pre) (c :: rest) /\
        last_sep true (pre ++ c :: rest) = false) \/
     (r = CheckEnd (length (pre ++ c :: rest)) /\ wild_ok (last_sep true pre) (c :: rest))).
Proof using Hseps.
  induction fuel as [|fuel IH]; intros pre c rest Hc Hs Hf; [lia|]. cbn [wildcard_loop].
  rewrite cstr_get_app. cbn [mbind option_bind next_char].
  assert (exists bad, (if (length pre =? 0)%nat then Some false
     else p ← cstr_prev (pre ++ c :: rest) (length pre); Some (negb (strchr seps p))) = Some bad /\
     bad = negb (last_sep true pre)) as (bad & -> & ->).
  { destruct pre as [|x pre']; [by exists false|]. cbn [length Nat.eqb].
    destruct (cstr_prev_app (x :: pre') (c :: rest)) as (p & Ep & Hp); [done| |].
    - by apply Forall_app in Hs as [? _].
    - cbn [length] in Ep. rewrite Ep. cbn [mbind option_bind]. rewrite Hp. eauto. }
  cbn [mbind option_bind]. destruct (last_sep true pre) eqn:Epre; cbn [negb].
  2: { eexists. split; [done|]. left. split; [done|]. rewrite wild_ok_head by done. naive_solver. }
  assert (cstr_get (pre ++ c :: rest) (length pre + 1) =
          Some (next_char rest)) as ->.
  { replace (length pre + 1)%nat with (length (pre ++ [c])) by (rewrite length_app; done).
    replace (pre ++ c :: rest) with ((pre ++ [c]) ++ rest) by by rewrite <- app_assoc.
    apply cstr_get_app. }
  cbn [mbind option_bind].
  assert (is_sep c = false) as Hcs.
  { destruct (is_sep c) eqn:E; [|done]. apply sep_not_wild in E. congruence. }
  destruct rest as [|c1 rest]; cbn [next_char].
  { cbn [Z.eqb]. rewrite Hc. eexists. split; [done|]. right. left. split; [done|].
    rewrite last_sep_app. cbn. rewrite Hcs. naive_solver. }
  assert (0 < c1) as Hc1.
  { apply Forall_app in Hs as [_ Hs]. apply Forall_cons_iff in Hs as [_ Hs].
    by apply Forall_cons_iff in Hs as [? _]. }
  rewrite (proj2 (Z.eqb_neq c1 0)) by lia. destruct (Z.eqb_spec c INFIX_WILDC) as [->|Hne]; cbn [negb].
  2: { eexists. split; [done|]. left. split; [done|]. cbn [wild_ok]. rewrite Hc.
       intros [H _]. destruct (H eq_refl) as [_ [?|[? _]]]; done. }
  rewrite strchr_sep by done. destruct (is_sep c1) eqn:E1; cbn [negb].
  2: { eexists. split; [done|]. left. split; [done|]. cbn [wild_ok]. rewrite Hc.
       intros [H _]. destruct (H eq_refl) as [_ [?|[_ (p & l' & [= <- <-] & ?)]]]; congruence. }
  destruct (strcspn_wild rest) as (a & b & -> & Ha & Ea & Hb).
  replace (drop (length pre + 2) (pre ++ INFIX_WILDC :: c1 :: a ++ b)) with (a ++ b)
    by (rewrite drop_app_ge, (Nat.add_comm _ 2), Nat.add_sub by lia; done).
  rewrite Ea. set (pre' := pre ++ INFIX_WILDC :: c1 :: a).
  assert (pre ++ INFIX_WILDC :: c1 :: a ++ b = pre' ++ b) as E by (unfold pre'; by rewrite <- app_assoc).
  replace (length pre + 2 + length a)%nat with (length pre') by (unfold pre'; rewrite length_app; cbn; lia).
  assert (wild_ok true (INFIX_WILDC :: c1 :: a ++ b) <-> wild_ok (last_sep true pre') b) as Hw.
  { unfold pre'. rewrite last_sep_app. cbn [wild_ok last_sep]. rewrite E1.
    rewrite (wild_ok_skip true a b Ha).
    assert (ANY_WILDC c1 = false) as Hc1w by by apply sep_not_wild. rewrite Hc, Hc1w. naive_solver. }
  rewrite E, cstr_get_app. cbn [mbind option_bind]. destruct b as [|c2 b]; cbn [next_char].
  - cbn [Z.eqb]. eexists. split; [done|]. right. right.
    split; [by rewrite app_nil_r|]. by apply Hw.
  - rewrite E in Hs. assert (0 < c2).
    { apply Forall_app in Hs as [_ Hs]. by apply Forall_cons_iff in Hs as [? _]. }
    rewrite (proj2 (Z.eqb_neq c2 0)) by lia.
    destruct (IH pre' c2 b Hb Hs) as (r & -> & Hr); [rewrite !length_cons, length_app in Hf; cbn in Hf; lia|].
    exists r. split; [done|]. rewrite Hw. done.
Qed.
(** A valid topic: it does not end in a separator, and its wildcards are well
    placed, or absent when it is not a subscription's. *)
Definition topic_valid (t : DPS_TopicType) (l : list Z) : Prop :=
  last_sep true l = false /\ (if is_sub t then wild_ok true l else no_wild l).

Definition first_wild (l : list Z) (wc : option nat) : Prop :=
  match wc with
  | None => no_wild l
  | Some k => exists a c b, l = a ++ c :: b /\ length a = k /\ no_wild a /\ ANY_WILDC c = true
  end.

Lemma no_wild_here c a b : ANY_WILDC c = true -> ~ no_wild (a ++ c :: b).
Proof.
  intros Hc H. apply Forall_app in H as [_ H]. apply Forall_cons_iff in H as [H _]. congruence.
Qed.

Lemma CheckWildcarding_last topic wcPos :
  cstr topic -> topic <> [] ->
  (p ← cstr_prev topic (length topic);
   Some (if strchr seps p then DPS_ERR_INVALID else DPS_OK, wcPos)) =
  Some (if last_sep true topic then DPS_ERR_INVALID else DPS_OK, wcPos : option nat).
Proof.
  intros Hc Hne. destruct (cstr_prev_app topic [] Hne Hc) as (x & Ex & <-).
  rewrite app_nil_r in Ex. by rewrite Ex.
Qed.

Lemma CheckWildcarding_spec topic t :
  cstr topic -> topic <> [] ->
  exists ret wc, CheckWildcarding topic seps t = Some (ret, wc) /\
    (ret = DPS_OK \/ ret = DPS_ERR_INVALID) /\ (ret = DPS_OK <-> topic_valid t topic) /\
    (ret = DPS_OK -> first_wild topic wc).
Proof using Hseps.
  intros Hc Hne. unfold CheckWildcarding, topic_valid.
  destruct (strcspn_wild topic) as (a & b & E & Ha & -> & Hb).
  assert (cstr_get topic (length a) = Some (next_char b)) as ->
    by (rewrite E; apply cstr_get_app).
  cbn [mbind option_bind]. destruct b as [|c b]; cbn [next_char].
  { cbn [Z.eqb negb]. rewrite app_nil_r in E. subst a. rewrite CheckWildcarding_last by done.
    eexists _, _. split; [done|]. destruct (last_sep true topic).
    - split_and!; [by right|naive_solver|done].
    - split_and!; [by left| |done]. split; [|done]. intros _. split; [done|].
      destruct (is_sub t); [by apply no_wild_ok|done]. }
  assert (0 < c) as Hc0.
  { rewrite E in Hc. apply Forall_app in Hc as [_ Hc]. by apply Forall_cons_iff in Hc as [? _]. }
  rewrite (proj2 (Z.eqb_neq c 0)) by lia. cbn [negb]. destruct (is_sub t); cbn [negb].
  2: { eexists _, _. split; [done|]. split_and!; [by right| |done]. split; [done|].
       intros [_ H]. rewrite E in H. by apply no_wild_here in H. }
  assert (exists c1, cstr_get topic (length a + 1) = Some c1 /\ (b = [] -> c1 = 0)) as (c1 & -> & Hc1).
  { replace (length a + 1)%nat with (length (a ++ [c])) by (rewrite length_app; done).
    replace topic with ((a ++ [c]) ++ b) by (by rewrite E, <- app_assoc).
    rewrite cstr_get_app. eexists. split; [done|]. by intros ->. }
  cbn [mbind option_bind].
  assert (wild_ok true topic <-> wild_ok (last_sep true a) (c :: b)) as Hw by by rewrite E, wild_ok_skip.
  destruct (_ && _) eqn:Efirst.
  { apply andb_true_iff in Efirst as [Ef Ec1]. apply andb_true_iff in Ef as [_ Ef].
    apply Z.eqb_eq in Ef as ->. apply negb_true_iff, Z.eqb_neq in Ec1.
    eexists _, _. split; [done|]. split_and!; [by right| |done]. split; [done|].
    intros [_ H]. apply Hw in H. cbn [wild_ok] in H. destruct H as [H _].
    destruct (H Hb) as [_ [->|[[=] _]]]. by rewrite Hc1 in Ec1. }
  rewrite E in Hc |- *.
  destruct (wildcard_loop_spec (S (length (a ++ c :: b))) a c b Hb Hc) as (r & -> & Hr);
    [rewrite length_app; cbn; lia|]. cbn [mbind option_bind]. rewrite <- E in *.
  assert (first_wild topic (Some (length a))) as Hfw by by exists a, c, b.
  destruct Hr as [[-> Hr]|[(-> & Hr & Hl)|[-> Hr]]].
  - eexists _, _. split; [done|]. split_and!; [by right| |done]. naive_solver.
  - eexists _, _. split; [done|]. split_and!; [by left| |done]. naive_solver.
  - rewrite CheckWildcarding_last by done. eexists _, _. split; [done|].
    destruct (last_sep true topic); split_and!; try (by left); try (by right); naive_solver.
Qed.
(** [DPS_MatchTopicString] on topics of publications and subscriptions. *)
Lemma DPS_MatchTopicString_spec pub sub noWild m0 :
  cstr pub -> cstr sub -> pub <> [] -> sub <> [] -> seps <> [] ->
  (topic_valid DPS_PubTopic pub /\ topic_valid DPS_SubTopic sub ->
   exists b, DPS_MatchTopicString (Some pub) (Some sub) (Some seps) noWild (Some m0)
       = Some (DPS_OK, Some b) /\
     (b = true <-> topics_match pub sub /\ (noWild = true -> no_wild sub))) /\
  (~ (topic_valid DPS_PubTopic pub /\ topic_valid DPS_SubTopic sub) ->
   DPS_MatchTopicString (Some pub) (Some sub) (Some seps) noWild (Some m0)
     = Some (DPS_ERR_INVALID, Some m0)).
Proof using Hseps.
  intros Hcp Hcs Hp Hs Hsep. unfold DPS_MatchTopicString.
  destruct pub as [|p0 pub']; [done|]. destruct sub as [|s0 sub']; [done|].
  assert (is_nil seps = false) as -> by (clear -Hsep; by destruct seps). cbn [is_nil orb].
  destruct (CheckWildcarding_spec (p0 :: pub') DPS_PubTopic Hcp Hp) as (r1 & wc1 & -> & H1 & V1 & _).
  destruct (CheckWildcarding_spec (s0 :: sub') DPS_SubTopic Hcs Hs) as (r2 & wc2 & E2 & H2 & V2 & W2).
  cbn [mbind option_bind].
  destruct H1 as [->| ->]; cbn [is_OK negb]; (split; [intros [Vp Vs]|intros Hn]).
  4: done. 3: { by apply V1 in Vp. }
  - rewrite E2. cbn [mbind option_bind].
    destruct H2 as [->| ->]; [|by apply V2 in Vs]. cbn [is_OK negb].
    destruct (match_loop_spec (length (s0 :: sub')) (s0 :: sub') true (p0 :: pub')) as (b & Em & Hb);
      [lia|apply Vs|].
    specialize (W2 eq_refl). destruct noWild, wc2 as [k|]; cbn [andb].
    + exists false. split; [done|]. split; [done|]. intros [_ H]. specialize (H eq_refl).
      destruct W2 as (a & c & b' & E & _ & _ & Hc). rewrite E in H. by apply no_wild_here in H.
    + rewrite Em. exists b. split; [done|]. rewrite Hb. naive_solver.
    + rewrite Em. exists b. split; [done|]. rewrite Hb. naive_solver.
    + rewrite Em. exists b. split; [done|]. rewrite Hb. naive_solver.
  - rewrite E2. cbn [mbind option_bind]. destruct H2 as [->| ->]; [|done].
    exfalso. apply Hn. split; [by apply V1|by apply V2].
Qed.

(** ** What [DPS_AddTopic] inserts *)

Definition next_sep (r : list (Z * list Z)) : list Z :=
  match r with [] => [] | (p, _) :: _ => [p] end.

(** The segment that starts at offset [off] with the string [u] goes into the
    filter. *)
Definition segment_used (wc : option nat) (off : nat) (u : list Z) : bool :=
  match wc with
  | None => true
  | Some wc => (wc <? off)%nat && (match u with c :: l => negb (c =? INFIX_WILDC) || is_nil l | [] => true end)
  end.

Fixpoint loop_inserts (pub : bool) (wc : option nat) (d q : list Z) (r : list (Z * list Z))
  : list (list Z) :=
  match r with
  | [] => []
  | (p, s) :: r =>
      (if pub then [d ++ [p]] else []) ++
      (if segment_used wc (S (length d)) (s ++ levels r) then [q ++ [p] ++ s ++ next_sep r] else []) ++
      loop_inserts pub wc (d ++ p :: s) (q ++ [p]) r
  end.

Definition final_inserts (q : list Z) : list (list Z) :=
  (q ++ [INFIX_WILDC]) :: map (fun k => take k q ++ [FINAL_WILDC]) (rev (seq 0 (S (length q)))).

Definition topic_inserts (t : DPS_TopicType) (topic : list Z) (wc : option nat) : list (list Z) :=
  let '(s, r) := split topic in
  (match wc with None => [topic] | Some O => [] | Some k => [take k topic] end) ++
  (match wc with
   | None => if is_pub t then loop_inserts true None s [] r ++ final_inserts (map fst r) else []
   | Some _ => loop_inserts (is_pub t) wc s [] r ++ (if is_pub t then final_inserts (map fst r) else [])
   end).

Definition levels_ok (r : list (Z * list Z)) : Prop :=
  Forall (fun ps => is_sep ps.1 = true /\ Forall (fun c => is_sep c = false) ps.2) r.

Lemma split_levels_ok l :
  Forall (fun c => is_sep c = false) (split l).1 /\ levels_ok (split l).2.
Proof.
  induction l as [|c l [IH1 IH2]]; [split; constructor|]. destruct (is_sep c) eqn:E.
  - rewrite split_cons_sep by done. cbn. split; [constructor|]. by constructor.
  - rewrite split_cons_char by done. cbn. split; [by constructor|done].
Qed.

Lemma strcspn_level s r :
  Forall (fun c => is_sep c = false) s -> levels_ok r -> strcspn (s ++ levels r) seps = length s.
Proof.
  intros Hs Hr. induction Hs as [|c s Hc _ IH]; cbn [app strcspn length].
  - destruct Hr as [|[p s] r [Hp _] _]; [done|]. cbn. fold (is_sep p). cbn in Hp. by rewrite Hp.
  - fold (is_sep c). by rewrite Hc, IH.
Qed.
End Levels.

(** ** [DPS_AddTopic] inserts those strings *)

Section AddTopic.
Context (mbedtls_md : list Z -> list Z) (config : Configuration) (seps : list Z).

Fixpoint insert_all (bf : DPS_BitVector) (xs : list (list Z)) : option DPS_BitVector :=
  match xs with
  | [] => Some bf
  | x :: xs => bf ← DPS_BitVectorBloomInsert mbedtls_md config bf x; insert_all bf xs
  end.

Lemma insert_all_app bf xs ys :
  insert_all bf (xs ++ ys) = (bf ← insert_all bf xs; insert_all bf ys).
Proof.
  revert bf. induction xs as [|x xs IH]; intros bf; cbn [app insert_all]; [done|].
  destruct (DPS_BitVectorBloomInsert _ _ _ _); cbn; auto.
Qed.

(** The loop's buffer: [n] bytes that start with the separators [q]. *)
Definition seg_ok (n : nat) (q segment : list Z) : Prop :=
  length segment = n /\ take (length q) segment = q.

Lemma seg_write n q segment bs :
  seg_ok n q segment -> (length q + length bs <= n)%nat ->
  exists segment', mem_write segment (length q) bs = Some segment' /\ seg_ok n (q ++ bs) segment'.
Proof.
  intros [Hl Ht] Hb. rewrite mem_write_fits by lia. eexists. split; [done|].
  rewrite Ht. unfold seg_ok. rewrite !length_app, length_drop. split.
  - lia.
  - rewrite app_assoc. apply take_app_length'. by rewrite length_app.
Qed.

Lemma seg_keep n q x segment : seg_ok n (q ++ x) segment -> seg_ok n q segment.
Proof.
  intros [Hl Ht]. split; [done|]. apply (f_equal (take (length q))) in Ht.
  rewrite take_take, length_app, Nat.min_l in Ht by lia. by rewrite Ht, take_app_length.
Qed.

Lemma seg_read n q segment : seg_ok n q segment -> mem_read segment 0 (length q) = Some q.
Proof.
  intros [Hl Ht]. rewrite mem_read_fits.
  - by rewrite drop_0, Ht.
  - apply (f_equal length) in Ht. rewrite length_take in Ht. lia.
Qed.

(** The text of a segment, and the character after it, behind the separators. *)
Lemma seg_text n q s r segment dmax :
  seg_ok n q segment -> (length q + length s < n)%nat -> Z.of_nat (length s) <= dmax ->
  cstr (levels r) ->
  exists segment1 segment2,
    memcpy_s segment (length q) dmax s = Some (true, segment1) /\
    mem_write segment1 (length q + length s) [next_char (levels r)] = Some segment2 /\
    seg_ok n q segment2 /\
    mem_read segment2 0 (if next_char (levels r) =? 0 then length q + length s
                         else S (length q + length s)) = Some (q ++ s ++ next_sep r).
Proof.
  intros Hs Hl Hd Hc. unfold memcpy_s. rewrite (proj2 (Z.leb_le _ _)) by lia.
  destruct (seg_write n q segment s Hs) as (s1 & -> & Hs1); [lia|]. cbn [mbind option_bind].
  rewrite <- length_app.
  destruct (seg_write n (q ++ s) s1 [next_char (levels r)] Hs1) as (s2 & E2 & Hs2);
    [rewrite length_app; cbn; lia|].
  exists s1, s2. split; [done|]. split; [done|].
  rewrite <- app_assoc in Hs2. split; [by eapply seg_keep|].
  destruct r as [|[p t] r]; cbn [levels map concat next_sep app fst snd next_char] in *.
  - rewrite app_nil_r. cbn [Z.eqb]. apply (seg_read n). rewrite app_assoc in Hs2. by apply seg_keep in Hs2.
  - apply Forall_cons_iff in Hc as [Hp _]. rewrite (proj2 (Z.eqb_neq p 0)) by lia.
    rewrite <- (seg_read n _ _ Hs2). f_equal. rewrite !length_app. cbn. lia.
Qed.

Lemma cstr_get_at topic a b : topic = a ++ b -> cstr_get topic (length a) = Some (next_char b).
Proof. intros ->. apply cstr_get_app. Qed.

(** The test before a segment goes into the filter. *)
Lemma segment_used_spec topic a u wc tp :
  topic = a ++ u -> cstr u -> tp = length a ->
  (match wc with
   | None => Some true
   | Some wc =>
       if (wc <? tp)%nat then
         if negb (next_char u =? INFIX_WILDC) then Some true
         else c1 ← cstr_get topic (tp + 1); Some (c1 =? 0)
       else Some false
   end) = Some (segment_used wc tp u).
Proof.
  intros Et Hc ->. destruct wc as [wc|]; [|done]. cbn [segment_used].
  destruct (wc <? length a)%nat; cbn [andb]; [|done]. destruct u as [|c u]; [done|]. cbn [next_char].
  destruct (c =? INFIX_WILDC); cbn [negb orb]; [|done].
  replace (length a + 1)%nat with (length (a ++ [c])) by (rewrite length_app; done).
  rewrite (cstr_get_at topic (a ++ [c]) u) by by rewrite <- app_assoc.
  cbn [mbind option_bind]. f_equal. destruct u as [|c1 u]; [done|]. cbn [next_char is_nil].
  apply Forall_cons_iff in Hc as [_ Hc]. apply Forall_cons_iff in Hc as [? _]. apply Z.eqb_neq. lia.
Qed.

Lemma topic_loop_spec t wc topic d q r (fuel : nat) : forall segment,
  topic = d ++ levels r -> cstr topic -> levels_ok seps r -> (length q <= length d)%nat ->
  seg_ok (S (length topic)) q segment -> (length (levels r) <= fuel)%nat ->
  exists segment', seg_ok (S (length topic)) (q ++ map fst r) segment' /\ forall bf,
    topic_loop mbedtls_md config fuel bf topic seps t wc segment (length q) (length d) =
      (bf' ← insert_all bf (loop_inserts (is_pub t) wc d q r);
       Some (DPS_OK, bf', segment', length (q ++ map fst r))).
Proof.
  revert d q fuel. induction r as [|[p s] r IH]; intros d q fuel segment Et Hc Hr Hq Hs Hf.
  { cbn [levels map concat] in Et. rewrite app_nil_r in *. exists segment. split; [done|].
    intros bf. destruct fuel; cbn [topic_loop loop_inserts insert_all mbind option_bind];
      by rewrite Et, cstr_get_end. }
  apply Forall_cons_iff in Hr as [[_ Hsep] Hr]. cbn [fst snd] in *.
  assert (levels ((p, s) :: r) = p :: s ++ levels r) as El by done. rewrite El in *.
  rewrite Et in Hc. assert (0 < p) as Hp.
  { apply Forall_app in Hc as [_ Hc]. by apply Forall_cons_iff in Hc as [? _]. }
  assert (cstr (levels r)) as Hcr.
  { apply Forall_app in Hc as [_ Hc]. apply Forall_cons_iff in Hc as [_ Hc]. by apply Forall_app in Hc as [_ ?]. }
  assert (length topic = length d + 1 + length s + length (levels r))%nat as Ht
    by (rewrite Et, length_app; cbn [length]; rewrite length_app; lia).
  assert (topic = (d ++ [p]) ++ s ++ levels r) as Et1 by by rewrite <- app_assoc.
  assert (topic = ((d ++ [p]) ++ s) ++ levels r) as Et2 by by rewrite <- app_assoc.
  assert (S (length d) = length (d ++ [p])) as Ld by (rewrite length_app; cbn; lia).
  assert (take (S (length d)) topic = d ++ [p]) as Etake by (rewrite Et1, Ld; apply take_app_length).
  assert (drop (S (length d)) topic = s ++ levels r) as Edrop by (rewrite Et1, Ld; apply drop_app_length).
  assert (cstr_get topic (S (length d) + length s) = Some (next_char (levels r))) as Eget
    by (rewrite Et2, Ld, <- length_app; apply cstr_get_app).
  assert (cstr_get topic (S (length d)) = Some (next_char (s ++ levels r))) as Eget0
    by (rewrite Ld; by apply cstr_get_at).
  assert (cstr (s ++ levels r)) as Hcu
    by (rewrite <- Et, Et1 in Hc; by apply Forall_app in Hc as [_ ?]).
  pose proof (segment_used_spec topic (d ++ [p]) (s ++ levels r) wc _ Et1 Hcu Ld) as Hused.
  destruct fuel as [|fuel]; [cbn [length] in Hf; lia|].
  destruct (seg_write (S (length topic)) q segment [p] Hs) as (seg1 & Hw1 & Hs1); [cbn; lia|].
  set (tp := S (length d)) in *.
  assert (length (q ++ [p]) = S (length q)) as Lq by (rewrite length_app; cbn; lia).
  assert ((tp + length s)%nat = length (d ++ p :: s)) as Ltp by (unfold tp; rewrite length_app; cbn; lia).
  assert (topic = (d ++ p :: s) ++ levels r) as Et3 by (rewrite Et, <- app_assoc; done).
  destruct (seg_text _ _ s r seg1 (Z.of_nat (length topic) - Z.of_nat (S (length q))) Hs1)
    as (seg2 & seg3 & Hcpy & Hwr & Hs3 & Hrd); [rewrite Lq; lia|lia|done|].
  cbn [length] in Hf. rewrite length_app in Hf. rewrite <- Et in Hc.
  destruct (IH (d ++ p :: s) (q ++ [p]) fuel
              (if segment_used wc tp (s ++ levels r) then seg3 else seg1) Et3 Hc Hr)
    as (seg' & Hseg' & H'); [rewrite Lq, <- Ltp; unfold tp; lia|by destruct (segment_used _ _ _)|lia|].
  rewrite <- app_assoc in Hseg', H', Hrd. rewrite Lq in *. rewrite <- Ltp in H'.
  exists seg'. split; [done|]. intros bf. cbn [topic_loop].
  rewrite (cstr_get_at topic d (p :: s ++ levels r) Et). cbn [mbind option_bind next_char].
  rewrite (proj2 (Z.eqb_neq p 0)), Hw1 by lia. fold tp. cbn [mbind option_bind loop_inserts].
  rewrite Etake, Edrop, (strcspn_level seps s r Hsep Hr), take_app_length, Eget0. fold tp.
  rewrite !insert_all_app.
  assert ((if is_pub t then DPS_BitVectorBloomInsert mbedtls_md config bf (d ++ [p]) else Some bf) =
          insert_all bf (if is_pub t then [d ++ [p]] else [])) as ->.
  { destruct (is_pub t); cbn [insert_all]; [|done]. by destruct (DPS_BitVectorBloomInsert _ _ _ _). }
  destruct (insert_all bf _) as [bf1|]; [|done]. cbn [mbind option_bind]. rewrite Hused.
  cbn [mbind option_bind]. destruct (segment_used _ _ _); cbn [insert_all app].
  - rewrite Hcpy. cbn [mbind option_bind negb]. rewrite Eget. cbn [mbind option_bind].
    rewrite Hwr. cbn [mbind option_bind]. rewrite Hrd. cbn [mbind option_bind].
    destruct (DPS_BitVectorBloomInsert _ _ _ _) as [bf2|]; [|done]. cbn [mbind option_bind].
    rewrite H'. done.
  - cbn [mbind option_bind]. rewrite H'. done.
Qed.
Lemma final_loop_spec n q k : forall segment,
  seg_ok n (take k q) segment -> (k <= length q)%nat -> (length q < n)%nat -> forall bf,
  final_loop mbedtls_md config bf segment k =
    insert_all bf (map (fun k => take k q ++ [FINAL_WILDC]) (rev (seq 0 (S k)))).
Proof.
  induction k as [|k IH]; intros segment Hs Hk Hn bf; cbn [final_loop].
  all: destruct (seg_write n _ segment [FINAL_WILDC] Hs) as (s1 & Hw & Hs1);
         [rewrite length_take; cbn [length]; lia|].
  all: rewrite length_take, Nat.min_l in Hw by lia; rewrite Hw; cbn [mbind option_bind].
  all: pose proof (seg_read _ _ _ Hs1) as Hr; rewrite length_app, length_take, Nat.min_l in Hr by lia;
       cbn [length] in Hr; rewrite Hr; cbn [mbind option_bind].
  - cbn. by destruct (DPS_BitVectorBloomInsert _ _ _ _).
  - rewrite (seq_S (S k)), rev_app_distr. cbn [rev app map insert_all Nat.add].
    destruct (DPS_BitVectorBloomInsert _ _ _ _) as [bf1|]; [|done]. cbn [mbind option_bind].
    apply IH; [|lia|done]. apply seg_keep in Hs1.
    apply (seg_keep n _ (drop k (take (S k) q))).
    replace (take k q ++ drop k (take (S k) q)) with (take (S k) q); [done|].
    rewrite <- (take_drop k (take (S k) q)) at 1. f_equal. rewrite take_take. f_equal. lia.
Qed.

Context (Hseps : no_wild seps).

Definition malloc_ok (malloc : nat -> option (list Z)) : Prop :=
  forall n, exists m, malloc n = Some m /\ length m = n.

Lemma DPS_AddTopic_spec malloc bf topic t :
  malloc_ok malloc -> cstr topic -> topic <> [] -> Z.of_nat (length topic) <= DPS_MAX_TOPIC_STRLEN ->
  is_sep seps (next_char topic) = false -> topic_valid seps t topic ->
  exists wc, first_wild topic wc /\
    DPS_AddTopic mbedtls_md config malloc (Some bf) (Some topic) (Some seps) t =
      (bf' ← insert_all bf (topic_inserts seps t topic wc); Some (DPS_OK, Some bf')).
Proof using Hseps.
  intros Hm Hc Hne Hlen Hfirst Hv. unfold DPS_AddTopic, strnlen_s.
  rewrite Z.min_l, Z.gtb_ltb, (proj2 (Z.ltb_ge _ _)) by lia.
  assert (cstr_get topic 0 = Some (next_char topic)) as ->
    by exact (cstr_get_at topic [] topic eq_refl).
  cbn [mbind option_bind].
  assert (0 < next_char topic) as Hc0 by (destruct Hc; done).
  rewrite strchr_sep, Hfirst by done.
  destruct (CheckWildcarding_spec seps Hseps topic t Hc Hne) as (ret & wc & -> & _ & Hok & Hwc).
  apply Hok in Hv. subst ret. specialize (Hwc eq_refl). cbn [mbind option_bind is_OK negb].
  exists wc. split; [done|]. unfold topic_inserts.
  pose proof (split_join seps topic) as Ej. pose proof (split_levels_ok seps topic) as [_ Hlv].
  rewrite strcspn_split. destruct (split seps topic) as [s r]. cbn [fst snd] in *.
  assert (length topic = length s + length (levels r))%nat as Hl by (by rewrite <- Ej, length_app).
  assert (length (map fst r) <= length (levels r))%nat as Hlq.
  { clear. induction r as [|[p s] r IH]; [done|]. unfold levels in *. cbn. rewrite length_app. lia. }
  destruct (Hm (S (length topic))) as (m & Em & Hml).
  destruct (topic_loop_spec t wc topic s [] r (length topic) m (eq_sym Ej) Hc Hlv) as (seg' & Hs' & Hloop);
    [cbn; lia|by split|lia|].
  rewrite app_nil_l in *. cbn [length] in Hloop.
  assert (forall bf0 ret0, (if is_pub t then
     segment ← mem_write seg' (length (map fst r)) [INFIX_WILDC];
     data ← mem_read segment 0 (length (map fst r) + 1);
     bf ← DPS_BitVectorBloomInsert mbedtls_md config bf0 data;
     bf ← final_loop mbedtls_md config bf segment (length (map fst r)); Some (ret0, Some bf)
    else Some (ret0, Some bf0)) = (bf' ← insert_all bf0 (if is_pub t then final_inserts (map fst r) else []);
     Some (ret0 : DPS_Status, Some bf'))) as Hfin.
  { intros bf0 ret0. destruct (is_pub t); [|done]. unfold final_inserts.
    destruct (seg_write _ _ _ [INFIX_WILDC] Hs') as (s2 & -> & Hs2); [cbn [length]; lia|].
    cbn [mbind option_bind]. pose proof (seg_read _ _ _ Hs2) as Hr.
    rewrite length_app in Hr. cbn [length] in Hr. rewrite Hr. cbn [mbind option_bind insert_all].
    destruct (DPS_BitVectorBloomInsert _ _ _ _) as [bf1|]; [|done]. cbn [mbind option_bind].
    by rewrite (final_loop_spec (S (length topic)) (map fst r) (length (map fst r)))
      by (rewrite ?take_ge by lia; (by apply seg_keep in Hs2) || lia). }
  rewrite insert_all_app.
  assert ((match wc with None => DPS_BitVectorBloomInsert mbedtls_md config bf topic
           | Some wc => if (wc =? 0)%nat then Some bf
                        else DPS_BitVectorBloomInsert mbedtls_md config bf (take wc topic) end) =
          insert_all bf (match wc with None => [topic] | Some O => [] | Some k => [take k topic] end)) as ->.
  { destruct wc as [[|k]|]; cbn [Nat.eqb insert_all]; [done| |]; by destruct (DPS_BitVectorBloomInsert _ _ _ _). }
  destruct (insert_all bf _) as [bf1|]; [|done]. cbn [mbind option_bind]. rewrite Em.
  assert (is_OK DPS_OK = true) as EOK by done.
  destruct wc as [k|]; [|destruct (is_pub t) eqn:Ept; [|done]]; cbn [negb].
  all: rewrite Hloop, insert_all_app; destruct (insert_all bf1 _) as [bf2|]; [|done];
       cbn [mbind option_bind app length]; rewrite EOK; cbn [andb].
  - apply Hfin.
  - rewrite Hfin. done.
Qed.
End AddTopic.
