(* ===== verification/TopicSound.v ===== *)
(** * A publication's filter includes the filter of every subscription that
    matches it by its topic strings *)
From S2P Require Import Prelude Status Buffer Float Cbor BitVec BitVecProofs Bloom Topics TopicProofs.

#[local] Set Warnings "-clear-no-such-hyp".

Section Inclusion.
Context (seps : list Z).

Lemma final_inserts_infix q : q ++ [INFIX_WILDC] ∈ final_inserts q.
Proof. by left. Qed.

Lemma final_inserts_rest q k : (k <= length q)%nat -> take k q ++ [FINAL_WILDC] ∈ final_inserts q.
Proof.
  intros Hk. right. apply list_elem_of_In, (in_map (fun k => take k q ++ [FINAL_WILDC])).
  rewrite <- in_rev, in_seq. lia.
Qed.

Lemma loop_inserts_level wc d q p s r x :
  x ∈ loop_inserts false wc d q ((p, s) :: r) <->
  (segment_used wc (S (length d)) (s ++ levels r) = true /\ x = q ++ [p] ++ s ++ next_sep r) \/
  x ∈ loop_inserts false wc (d ++ p :: s) (q ++ [p]) r.
Proof.
  cbn [loop_inserts]. rewrite app_nil_l, elem_of_app. destruct (segment_used _ _ _).
  - rewrite list_elem_of_singleton. naive_solver.
  - rewrite elem_of_nil. naive_solver.
Qed.

Lemma loop_inserts_pub d q p s r x :
  x ∈ loop_inserts true None d q ((p, s) :: r) <->
  x = d ++ [p] \/ x = q ++ [p] ++ s ++ next_sep r \/
  x ∈ loop_inserts true None (d ++ p :: s) (q ++ [p]) r.
Proof.
  cbn [loop_inserts segment_used]. rewrite !elem_of_app, !list_elem_of_singleton. done.
Qed.

(** Behind the first wildcard: the subscription inserts segments only. *)
Lemma inserts_after s1 r1 s2 r2 :
  topic_match s1 r1 s2 r2 -> forall d1 d2 q k x, (k <= length d2)%nat ->
  x ∈ loop_inserts false (Some k) d2 q r2 ->
  x ∈ loop_inserts true None d1 q r1 ++ final_inserts (q ++ map fst r1).
Proof.
  induction 1 as [| |s1 s2 p s1' r1 s2' r2 _ Hm IH]; intros d1 d2 q k x Hk; cbn [loop_inserts];
    [by intros ?%elem_of_nil..|].
  change (x ∈ loop_inserts false (Some k) d2 q ((p, s2') :: r2) ->
          x ∈ loop_inserts true None d1 q ((p, s1') :: r1) ++ final_inserts (q ++ map fst ((p, s1') :: r1))).
  rewrite elem_of_app, loop_inserts_pub, loop_inserts_level. cbn [map fst].
  replace (q ++ p :: map fst r1) with ((q ++ [p]) ++ map fst r1) by by rewrite <- app_assoc.
  intros [[Hu ->]|Hx].
  - inversion Hm; subst; cbn [next_sep].
    + right. rewrite app_nil_r, app_assoc.
      replace (q ++ [p]) with (take (length (q ++ [p])) ((q ++ [p]) ++ map fst r1)) at 1
        by apply take_app_length.
      apply final_inserts_rest. rewrite (length_app (q ++ [p])). lia.
    + destruct H as [->|[_ ->]]; [by left; right; left|]. right. cbn [map].
      rewrite !app_nil_r, app_assoc. apply final_inserts_infix.
    + destruct H as [->| ->]; [by left; right; left|]. cbn in Hu.
      rewrite andb_false_r in Hu. done.
  - apply IH with (d1 := d1 ++ p :: s1') in Hx; [|rewrite length_app; lia].
    rewrite elem_of_app in Hx. tauto.
Qed.

Definition starts_wild (s : list Z) : bool :=
  match s with [] => false | c :: _ => ANY_WILDC c end.

Lemma wild_ok_level st s r :
  wild_ok seps st (s ++ levels r) -> starts_wild s = false ->
  Forall (fun c => is_sep seps c = false) s ->
  no_wild s /\ match r with [] => True | (p, s') :: r' => wild_ok seps (is_sep seps p) (s' ++ levels r') end.
Proof.
  revert st. induction s as [|c s IH]; intros st Hw Hc Hs.
  - split; [constructor|]. destruct r as [|[p s'] r]; [done|]. apply Hw.
  - apply Forall_cons_iff in Hs as [Hcs Hs]. destruct Hw as [_ Hw]. rewrite Hcs in Hw.
    assert (starts_wild s = false) as Hc'.
    { destruct s as [|c' s]; [done|]. destruct Hw as [Hw _]. cbn.
      destruct (ANY_WILDC c'); [|done]. by destruct (Hw eq_refl) as [? _]. }
    destruct (IH false Hw Hc' Hs) as [H1 H2]. split; [by constructor|done].
Qed.

Lemma first_wild_here d c l k :
  first_wild (d ++ c :: l) (Some k) -> (length d <= k)%nat -> ANY_WILDC c = true -> k = length d.
Proof.
  intros (a & c' & b & E & Ha & Hna & _) Hk Hc.
  destruct (Nat.lt_ge_cases (length d) k) as [Hlt|]; [exfalso|lia].
  assert ((d ++ c :: l) !! length d = Some c) as Hx by by apply list_lookup_middle.
  rewrite E, lookup_app_l in Hx by lia.
  pose proof (Forall_lookup_1 _ _ _ _ Hna Hx) as Hf. cbn in Hf. congruence.
Qed.

Lemma first_wild_later d s l k :
  first_wild (d ++ s ++ l) (Some k) -> (length d <= k)%nat -> no_wild s -> (length d + length s <= k)%nat.
Proof.
  intros (a & c & b & E & Ha & _ & Hc) Hk Hs.
  destruct (Nat.lt_ge_cases k (length d + length s)) as [Hlt|]; [exfalso|lia].
  assert ((a ++ c :: b) !! k = Some c) as Hx by by apply list_lookup_middle.
  rewrite <- E, lookup_app_r, lookup_app_l in Hx by lia.
  pose proof (Forall_lookup_1 _ _ _ _ Hs Hx) as Hf. cbn in Hf. congruence.
Qed.

(** Up to the first wildcard, at offset [k]: the strings are the same. *)
Lemma inserts_before k : forall r2 s1 r1 s2 d q X,
  topic_match s1 r1 s2 r2 -> first_wild (d ++ s2 ++ levels r2) (Some k) -> (length d <= k)%nat ->
  wild_ok seps true (s2 ++ levels r2) -> Forall (fun c => is_sep seps c = false) s2 ->
  levels_ok seps r2 -> no_wild seps -> (d = [] \/ d ∈ X) ->
  (k = 0%nat \/ take k (d ++ s2 ++ levels r2) ∈ X ++ loop_inserts true None (d ++ s1) q r1) /\
  forall x, x ∈ loop_inserts false (Some k) (d ++ s2) q r2 ->
    x ∈ loop_inserts true None (d ++ s1) q r1 ++ final_inserts (q ++ map fst r1).
Proof.
  intros r2. induction r2 as [|[p s2'] r2 IH]; intros s1 r1 s2 d q X Hm Hf Hk Hw Hs2 Hl Hseps Hd;
    (destruct (starts_wild s2) eqn:Hst;
     [destruct s2 as [|c0 s2]; [done|]; pose proof (first_wild_here _ _ _ _ Hf Hk Hst) as ->;
      split; [rewrite take_app_length; destruct Hd as [->|Hd]; [by left|right; rewrite elem_of_app; by left]|];
      intros x; eapply inserts_after; [exact Hm|rewrite length_app; lia]|]);
    destruct (wild_ok_level _ _ _ Hw Hst Hs2) as [Hno Hw'].
  { cbn [levels map concat] in Hf. rewrite app_nil_r in Hf. exfalso.
    pose proof (first_wild_later d s2 [] k) as H. rewrite app_nil_r in H. specialize (H Hf Hk Hno).
    destruct Hf as (a & c & b & E & <- & _). apply (f_equal length) in E.
    rewrite !length_app in E. cbn in E. lia. }
  assert (levels ((p, s2') :: r2) = p :: s2' ++ levels r2) as El by done.
  apply Forall_cons_iff in Hl as [[Hp Hs2'] Hl]. cbn [fst snd] in *. rewrite Hp in Hw'.
  assert (length d + length s2 + 1 <= k)%nat as Hk'.
  { rewrite El in Hf. replace (d ++ s2 ++ p :: s2' ++ levels r2) with (d ++ (s2 ++ [p]) ++ s2' ++ levels r2) in Hf
      by by rewrite <- !app_assoc.
    pose proof (first_wild_later _ _ _ _ Hf Hk) as H. rewrite length_app in H. cbn in H.
    apply (sep_not_wild seps Hseps) in Hp.
    specialize (H ltac:(apply Forall_app_2; [done|by constructor])). lia. }
  inversion Hm as [| |? ? ? s1' r1' ? ? Hs Hm']; subst.
  assert (s1 = s2) as -> by (destruct Hs as [->| ->]; [done|by apply Forall_cons_iff in Hno as [? _]]).
  assert (d ++ s2 ++ levels ((p, s2') :: r2) = (d ++ s2 ++ [p]) ++ s2' ++ levels r2) as Ed
    by (rewrite El, <- !app_assoc; done).
  rewrite Ed in *.
  destruct (IH s1' r1' s2' (d ++ s2 ++ [p]) (q ++ [p]) (X ++ [d ++ s2 ++ [p]])) as [H1 H2]; try done.
  { rewrite !length_app. cbn. lia. }
  { right. rewrite elem_of_app, list_elem_of_singleton. by right. }
  assert (forall t, (d ++ s2 ++ [p]) ++ t = (d ++ s2) ++ p :: t) as Et by (intros; by rewrite <- !app_assoc).
  split.
  - destruct H1 as [?|H1]; [by left|right]. rewrite (Et s1') in H1. rewrite !elem_of_app, list_elem_of_singleton in H1.
    rewrite elem_of_app, loop_inserts_pub, <- (app_assoc d s2 [p]). tauto.
  - intros x. rewrite loop_inserts_level, elem_of_app, loop_inserts_pub. intros [[Hu _]|Hx].
    + cbn [segment_used] in Hu. apply andb_true_iff in Hu as [Hu _]. apply Nat.ltb_lt in Hu.
      rewrite length_app in Hu. lia.
    + rewrite <- Et in Hx. apply H2 in Hx. rewrite (Et s1'), elem_of_app in Hx. cbn [map fst].
      replace (q ++ p :: map fst r1') with ((q ++ [p]) ++ map fst r1') by by rewrite <- app_assoc. tauto.
Qed.

Lemma topic_match_same s1 r1 s2 r2 :
  topic_match s1 r1 s2 r2 -> no_wild (s2 ++ levels r2) -> s1 = s2 /\ r1 = r2.
Proof.
  induction 1 as [|s s' H|s s' p s1 r1 s1' r1' H _ IH]; intros Hn.
  - by apply Forall_cons_iff in Hn as [? _].
  - destruct H as [->|[_ ->]]; [done|]. by apply Forall_cons_iff in Hn as [? _].
  - apply Forall_app in Hn as [Hn1 Hn2]. cbn in Hn2. apply Forall_cons_iff in Hn2 as [_ Hn2].
    destruct (IH Hn2) as [-> ->]. destruct H as [->| ->]; [done|].
    by apply Forall_cons_iff in Hn1 as [? _].
Qed.

(** The strings a subscription inserts are among those of every publication
    topic that it matches. *)
Lemma inserts_sound pub sub wc :
  no_wild seps -> topics_match seps pub sub -> topic_valid seps DPS_SubTopic sub -> first_wild sub wc ->
  forall x, x ∈ topic_inserts seps DPS_SubTopic sub wc -> x ∈ topic_inserts seps DPS_PubTopic pub None.
Proof.
  intros Hseps Hm [_ Hv] Hf. cbn [is_sub] in Hv. unfold topics_match in Hm. unfold topic_inserts.
  pose proof (split_join seps pub) as Ep. pose proof (split_join seps sub) as Es.
  pose proof (split_levels_ok seps sub) as [Hs2 Hl].
  destruct (split seps pub) as [s1 r1], (split seps sub) as [s2 r2]. cbn [fst snd is_pub] in *.
  intros x. rewrite !elem_of_app, list_elem_of_singleton. destruct wc as [k|].
  - rewrite <- Es in Hf, Hv.
    destruct (inserts_before k r2 s1 r1 s2 [] [] [] Hm Hf) as [H1 H2]; try done; [cbn; lia|by left|].
    cbn [app] in H1, H2. rewrite Es in H1. rewrite app_nil_r. intros [Hx|Hx].
    + destruct k as [|k]; [by apply elem_of_nil in Hx|]. apply list_elem_of_singleton in Hx as ->.
      destruct H1 as [?|H1]; [done|tauto].
    + apply H2 in Hx. rewrite elem_of_app in Hx. tauto.
  - rewrite list_elem_of_singleton, elem_of_nil. intros [->|[]]. left.
    cbn [first_wild] in Hf. rewrite <- Es in Hf. destruct (topic_match_same _ _ _ _ Hm Hf) as [-> ->].
    by rewrite <- Es, <- Ep.
Qed.
End Inclusion.

(** ** Filters *)

Section Filters.
Context (mbedtls_md : list Z -> list Z) (md_bytes : forall d, Forall is_byte (mbedtls_md d)).
Context (config : Configuration) (Hconfig : 1 <= numHashes config <= MAX_HASHES).
Context (seps : list Z) (Hseps : no_wild seps).
Context (malloc : nat -> option (list Z)) (Hmalloc : malloc_ok malloc).

Let hashes_range : 0 <= numHashes config <= MAX_HASHES.
Proof. clear -Hconfig. lia. Qed.

Lemma insert_all_spec xs : forall bf,
  bv_wf bf -> 0 < len bf ->
  exists bf', insert_all mbedtls_md config bf xs = Some bf' /\ bv_wf bf' /\ len bf' = len bf /\
    bv_sub bf bf' /\ (xs = [] -> bf' = bf) /\
    (forall x, x ∈ xs -> bloom_has mbedtls_md config (bits bf') (len bf) x) /\
    (forall bv1, bv_wf bv1 -> len bv1 = len bf -> bv_sub bf bv1 ->
       (forall x, x ∈ xs -> bloom_has mbedtls_md config (bits bv1) (len bf) x) -> bv_sub bf' bv1).
Proof using md_bytes Hconfig.
  induction xs as [|x xs IH]; intros bf Hwf Hl; cbn [insert_all].
  { exists bf. split_and!; try done; [unfold bv_sub; reflexivity|].
    intros x H. by apply elem_of_nil in H. }
  destruct (DPS_BitVectorBloomInsert_spec mbedtls_md md_bytes config hashes_range bf x Hwf Hl)
    as (b1 & E1 & _). rewrite E1. cbn [mbind option_bind].
  destruct (bloom_insert_has mbedtls_md md_bytes config hashes_range bf b1 x Hwf Hl E1)
    as (W1 & L1 & S1 & B1).
  destruct (IH b1 W1 ltac:(lia)) as (b2 & -> & W2 & L2 & S2 & _ & B2 & M2). rewrite L1 in *.
  exists b2. split_and!; try done.
  - unfold bv_sub in *. by etrans.
  - intros y [->|Hy]%elem_of_cons; [|auto]. eapply bloom_has_mono; [done|exact S2|done].
  - intros bv1 Hw1 Hl1 Hs1 Hh1. apply M2; [done|done| |].
    + eapply (bloom_insert_least mbedtls_md md_bytes config hashes_range bf b1); try done.
      apply Hh1. by left.
    + intros y Hy. apply Hh1. by right.
Qed.

(** A topic that [DPS_AddTopic] takes. *)
Definition topic_ok (t : DPS_TopicType) (topic : list Z) : Prop :=
  cstr topic /\ topic <> [] /\ Z.of_nat (length topic) <= DPS_MAX_TOPIC_STRLEN /\
  is_sep seps (next_char topic) = false /\ topic_valid seps t topic.

(** The strings that it inserts. *)
Definition inserted (t : DPS_TopicType) (topic : list Z) (xs : list (list Z)) : Prop :=
  exists wc, first_wild topic wc /\ xs = topic_inserts seps t topic wc.

Lemma AddTopic_filter t topic bf :
  topic_ok t topic -> bv_wf bf -> 0 < len bf ->
  exists bf' xs, DPS_AddTopic mbedtls_md config malloc (Some bf) (Some topic) (Some seps) t
      = Some (DPS_OK, Some bf') /\ inserted t topic xs /\
    insert_all mbedtls_md config bf xs = Some bf'.
Proof using md_bytes Hconfig Hseps Hmalloc.
  intros (Hc & Hne & Hlen & Hfirst & Hv) Hwf Hl.
  destruct (DPS_AddTopic_spec mbedtls_md config seps Hseps malloc bf topic t Hmalloc Hc Hne Hlen Hfirst Hv)
    as (wc & Hw & E).
  destruct (insert_all_spec (topic_inserts seps t topic wc) bf Hwf Hl) as (bf' & E' & _).
  rewrite E' in E. eexists bf', _. split; [exact E|]. split; [by exists wc|done].
Qed.

Lemma first_wild_unique l wc1 wc2 : first_wild l wc1 -> first_wild l wc2 -> wc1 = wc2.
Proof.
  destruct wc1 as [k1|], wc2 as [k2|]; cbn [first_wild].
  - intros (a1 & c1 & b1 & E1 & L1 & N1 & W1) (a2 & c2 & b2 & E2 & L2 & N2 & W2). f_equal.
    pose proof (first_wild_here a1 c1 b1 k2) as H1. pose proof (first_wild_here a2 c2 b2 k1) as H2.
    rewrite <- E1 in H1. rewrite <- E2 in H2.
    destruct (Nat.le_ge_cases k1 k2).
    + rewrite <- L1. symmetry. apply H1; [|lia|done]. by exists a2, c2, b2.
    + rewrite <- L2. apply H2; [|lia|done]. by exists a1, c1, b1.
  - intros (a & c & b & -> & _ & _ & Hc) H. by apply no_wild_here in H.
  - intros H (a & c & b & -> & _ & _ & Hc). by apply no_wild_here in H.
  - done.
Qed.

(** A valid subscription that matches a valid publication topic is a topic that
    [DPS_AddTopic] takes as well. *)
Lemma match_first pub sub :
  topics_match seps pub sub -> sub <> [] -> is_sep seps (next_char pub) = false -> wild_ok seps true sub ->
  is_sep seps (next_char sub) = false.
Proof using Hseps.
  intros Hm Hne Hp Hw. destruct sub as [|c sub]; [done|]. cbn [next_char].
  destruct (is_sep seps c) eqn:E; [|done]. exfalso.
  unfold topics_match in Hm. rewrite (split_cons_sep seps c sub E) in Hm.
  destruct pub as [|p pub]; cbn [next_char] in Hp; [by inversion Hm|].
  rewrite (split_cons_char seps p pub Hp) in Hm. cbn [fst snd] in Hm. clear -Hm.
  inversion Hm as [| |? ? ? ? ? ? ? [E|E]]; done.
Qed.

(** The filter of a matching subscription is inside the publication's. *)
Lemma filter_sound pub sub bf1 sf0 sf1 xs ys bf0 :
  topics_match seps pub sub -> topic_ok DPS_PubTopic pub -> topic_ok DPS_SubTopic sub ->
  bv_wf bf0 -> bv_wf sf0 -> 0 < len bf0 -> len sf0 = len bf0 ->
  inserted DPS_PubTopic pub xs -> insert_all mbedtls_md config bf0 xs = Some bf1 ->
  inserted DPS_SubTopic sub ys -> insert_all mbedtls_md config sf0 ys = Some sf1 ->
  forall bv, bv_wf bv -> len bv = len bf0 -> bv_sub bf1 bv -> bv_sub sf0 bv -> bv_sub sf1 bv.
Proof using md_bytes Hconfig Hseps.
  intros Hm (_ & _ & _ & _ & _ & Vp) (_ & _ & _ & _ & Vs) Wb Ws Hl Hls (wc1 & F1 & ->) E1 (wc2 & F2 & ->) E2 bv Wv Lv Sb Ss.
  destruct (insert_all_spec (topic_inserts seps DPS_PubTopic pub wc1) bf0 Wb Hl) as (b1 & E1' & W1 & L1 & _ & _ & B1 & _).
  rewrite E1 in E1'. injection E1' as <-.
  destruct (insert_all_spec (topic_inserts seps DPS_SubTopic sub wc2) sf0 Ws ltac:(lia))
    as (b2 & E2' & _ & _ & _ & _ & _ & M2).
  rewrite E2 in E2'. injection E2' as <-. apply M2; [done|lia|done|].
  intros x Hx. rewrite Hls. eapply bloom_has_mono; [done|exact Sb|]. apply B1.
  cbn [is_sub] in Vp. assert (wc1 = None) as -> by (by apply (first_wild_unique pub)).
  by eapply inserts_sound.
Qed.
End Filters.
