(* ===== verification/TopicTheorems.v ===== *)
(** * The correctness theorems of topic matching ([src/topics.c])

    Matching topic strings decides the documented relation, and it is sound for
    matching Bloom filters: a publication that matches a subscription by its
    topics has a filter that includes the subscription's, so that no node
    between them drops it. *)
From S2P Require Import Prelude Status Buffer Float Cbor BitVec BitVecProofs Bloom.
From S2P Require Import Topics TopicProofs TopicSound BitVecTheorems.

(** C32: for topic strings that are not empty, [DPS_MatchTopicString] returns
    OK exactly when both topics are well formed for the code (no separator at
    the end, wildcards only as whole levels of a subscription, a final wildcard
    only at its end), and then its result decides the matching relation on levels
    ([topic_match]), restricted to subscriptions without wildcards when the
    caller asks for that; otherwise it reports INVALID and leaves the result.
    The documentation disallows two or more consecutive separators and calls
    "+/#" the most generic subscription; the code rejects neither, so topics with
    empty levels, such as "a//b", and "#" alone are well formed here and matched
    like others. *)
Theorem MatchTopicString_decides seps pub sub noWild m0 :
  no_wild seps -> seps <> [] -> cstr pub -> cstr sub -> pub <> [] -> sub <> [] ->
  (topic_valid seps DPS_PubTopic pub /\ topic_valid seps DPS_SubTopic sub ->
   exists b, DPS_MatchTopicString (Some pub) (Some sub) (Some seps) noWild (Some m0)
       = Some (DPS_OK, Some b) /\
     (b = true <-> topics_match seps pub sub /\ (noWild = true -> no_wild sub))) /\
  (~ (topic_valid seps DPS_PubTopic pub /\ topic_valid seps DPS_SubTopic sub) ->
   DPS_MatchTopicString (Some pub) (Some sub) (Some seps) noWild (Some m0)
     = Some (DPS_ERR_INVALID, Some m0)).
Proof. intros. by apply DPS_MatchTopicString_spec. Qed.

(** "a/b/c" and "a/+/c" with the separator '/'. *)
Definition topic_abc : list Z := [97; 47; 98; 47; 99].
Definition topic_a_c : list Z := [97; 47; 43; 47; 99].

Lemma topic_abc_ok : topic_ok [47] DPS_PubTopic topic_abc.
Proof.
  split_and!; try done; [repeat (constructor; [lia|]); constructor|].
  split; [done|]. repeat (constructor; [done|]). constructor.
Qed.

Lemma topic_a_c_ok : topic_ok [47] DPS_SubTopic topic_a_c.
Proof.
  split_and!; try done; [repeat (constructor; [lia|]); constructor|].
  split; [done|]. cbn. split_and!; try done. intros _. split; [done|]. right. split; [done|].
  by exists 47, [99].
Qed.

Lemma slash_no_wild : no_wild [47].
Proof. repeat constructor. Qed.

(** Consecutive separators: "a//b" is a topic, and matches "a/+/b". *)
Example consecutive_separators : topic_valid [47] DPS_PubTopic [97; 47; 47; 98] /\
  DPS_MatchTopicString (Some [97; 47; 47; 98]) (Some [97; 47; 43; 47; 98]) (Some [47]) false (Some false) = Some (DPS_OK, Some true).
Proof. split; [|by vm_compute]. by split; [|repeat constructor]. Qed.

Lemma MatchTopicString_decides_witness :
  exists b, DPS_MatchTopicString (Some topic_abc) (Some topic_a_c) (Some [47]) false (Some false)
       = Some (DPS_OK, Some b) /\
     (b = true <-> topics_match [47] topic_abc topic_a_c /\ (false = true -> no_wild topic_a_c)).
Proof.
  apply (MatchTopicString_decides [47] topic_abc topic_a_c false false);
    [exact slash_no_wild|done|apply topic_abc_ok|apply topic_a_c_ok|done|done|].
  split; [apply topic_abc_ok|apply topic_a_c_ok].
Defined.

(** ** Lists of topics *)

Section Lists.
Context (seps : list Z) (Hseps : no_wild seps) (Hne : seps <> []).

Definition pub_topic (l : list Z) : Prop := cstr l /\ l <> [] /\ topic_valid seps DPS_PubTopic l.
Definition sub_topic (l : list Z) : Prop := cstr l /\ l <> [] /\ topic_valid seps DPS_SubTopic l.

Definition topic_matches (noWild : bool) (pub sub : list Z) : Prop :=
  topics_match seps pub sub /\ (noWild = true -> no_wild sub).

Lemma match_pubs_spec noWild pubs sub : sub_topic sub -> Forall pub_topic pubs ->
  forall ret, exists ret' b,
    match_pubs (map Some pubs) (Some sub) (Some seps) noWild ret false = Some (ret', b, false) /\
    (pubs <> [] -> ret' = DPS_OK) /\ (b = true <-> Exists (fun pub => topic_matches noWild pub sub) pubs).
Proof using Hseps Hne.
  intros (Hcs & Hns & Hvs) Hp. induction Hp as [|pub pubs (Hcp & Hnp & Hvp) _ IH]; intros ret;
    cbn [map match_pubs].
  { exists ret, false. split_and!; [done|done|]. split; [done|]. inversion 1. }
  destruct (DPS_MatchTopicString_spec seps Hseps pub sub noWild false) as [H _]; [done..|].
  destruct (H (conj Hvp Hvs)) as (b & -> & Hb). cbn [mbind option_bind].
  change (negb (is_OK DPS_OK)) with false. cbv iota. destruct b.
  - exists DPS_OK, true. split_and!; [done|done|]. split; [|done]. intros _. left. by apply Hb.
  - destruct (IH DPS_OK) as (ret' & b & E & Hr & Hb'). rewrite E. exists ret', b. split; [done|].
    split.
    + intros _. destruct pubs as [|]; [cbn in E; congruence|]. by apply Hr.
    + rewrite Hb', Exists_cons. unfold topic_matches in *. intuition discriminate.
Qed.

Lemma MatchTopicList_spec noWild pubs subs m0 :
  Forall pub_topic pubs -> Forall sub_topic subs -> pubs <> [] -> subs <> [] ->
  exists b, DPS_MatchTopicList (Some (map Some pubs)) (Some (map Some subs)) (Some seps) noWild (Some m0)
      = Some (DPS_OK, Some b) /\
    (b = true <-> Forall (fun sub => Exists (fun pub => topic_matches noWild pub sub) pubs) subs).
Proof using Hseps Hne.
  intros Hp Hs Hnp Hns. cbn [DPS_MatchTopicList].
  assert (forall ret, exists ret' b, match_subs (map Some pubs) (map Some subs) (Some seps) noWild ret
      = Some (ret', Some b) /\ (subs <> [] -> ret' = DPS_OK) /\
    (b = true <-> Forall (fun sub => Exists (fun pub => topic_matches noWild pub sub) pubs) subs)) as H.
  { clear Hns. induction Hs as [|sub subs Hsub _ IH]; intros ret; cbn [map match_subs].
    { exists ret, true. split_and!; [done|done|]. split; [constructor|done]. }
    destruct (match_pubs_spec noWild pubs sub Hsub Hp ret) as (r & b & -> & Hr & Hb).
    cbn [mbind option_bind]. rewrite (Hr Hnp). destruct b; cbn [negb].
    - destruct (IH DPS_OK) as (r' & b & E & Hr' & Hb'). rewrite E. exists r', b.
      rewrite Forall_cons_iff, <- Hb, <- Hb'. split_and!; [done| |naive_solver].
      intros _. destruct subs; [cbn in E; congruence|by apply Hr'].
    - exists DPS_OK, false. rewrite Forall_cons_iff, <- Hb. naive_solver. }
  destruct (H DPS_ERR_INVALID) as (r & b & -> & Hr & Hb). exists b. by rewrite (Hr Hns).
Qed.
End Lists.

(** ** From topics to filters *)

Section Filters.
Context (mbedtls_md : list Z -> list Z) (config : Configuration).
Context (malloc : nat -> option (list Z)) (seps : list Z).

(** The loop of [DPS_InitPublication] and [DPS_InitSubscription]. *)
Fixpoint add_topics (t : DPS_TopicType) (bf : DPS_BitVector) (topics : list (list Z))
  : option (DPS_Status * DPS_BitVector) :=
  match topics with
  | [] => Some (DPS_OK, bf)
  | topic :: topics =>
      '(ret, bf) ← DPS_AddTopic mbedtls_md config malloc (Some bf) (Some topic) (Some seps) t;
      bf ← bf;
      if negb (is_OK ret) then Some (ret, bf) else add_topics t bf topics
  end.

Context (md_bytes : forall d, Forall is_byte (mbedtls_md d)).
Context (Hconfig : 1 <= numHashes config <= MAX_HASHES).
Context (Hseps : no_wild seps) (Hmalloc : malloc_ok malloc).

Lemma AddTopic_grows t topic bf :
  topic_ok seps t topic -> bv_wf bf -> 0 < len bf ->
  exists bf' xs, DPS_AddTopic mbedtls_md config malloc (Some bf) (Some topic) (Some seps) t
      = Some (DPS_OK, Some bf') /\ inserted seps t topic xs /\
    insert_all mbedtls_md config bf xs = Some bf' /\ bv_wf bf' /\ len bf' = len bf /\ bv_sub bf bf'.
Proof using md_bytes Hconfig Hseps Hmalloc.
  intros Ht Hwf Hl. destruct (AddTopic_filter mbedtls_md md_bytes config Hconfig seps Hseps malloc Hmalloc t topic bf Ht Hwf Hl)
    as (bf' & xs & E & Hx & Hi).
  destruct (insert_all_spec mbedtls_md md_bytes config Hconfig xs bf Hwf Hl)
    as (bf2 & E2 & Hw & Hll & Hs & _). rewrite Hi in E2. injection E2 as <-.
  by exists bf', xs.
Qed.

Lemma add_topics_grows t topics : Forall (topic_ok seps t) topics -> forall bf,
  bv_wf bf -> 0 < len bf ->
  exists bf', add_topics t bf topics = Some (DPS_OK, bf') /\ bv_wf bf' /\ len bf' = len bf /\
    bv_sub bf bf'.
Proof using md_bytes Hconfig Hseps Hmalloc.
  induction 1 as [|topic topics Ht _ IH]; intros bf Hwf Hl; cbn [add_topics].
  { exists bf. do 3 (split; [done|]). unfold bv_sub. reflexivity. }
  destruct (AddTopic_grows t topic bf Ht Hwf Hl) as (b1 & xs & -> & _ & _ & W1 & L1 & S1).
  cbn [mbind option_bind]. change (negb (is_OK DPS_OK)) with false. cbv iota.
  destruct (IH b1 W1) as (b2 & -> & W2 & L2 & S2); [lia|].
  exists b2. do 2 (split; [done|]). split; [lia|]. unfold bv_sub in *. by etransitivity.
Qed.

(** The strings of every topic of the list are in the filter. *)
Lemma add_topics_has t topics topic : Forall (topic_ok seps t) topics -> In topic topics ->
  forall bf bf', bv_wf bf -> 0 < len bf -> add_topics t bf topics = Some (DPS_OK, bf') ->
  exists b0 b1 xs, bv_wf b0 /\ len b0 = len bf /\ inserted seps t topic xs /\
    insert_all mbedtls_md config b0 xs = Some b1 /\ bv_sub b1 bf'.
Proof using md_bytes Hconfig Hseps Hmalloc.
  induction 1 as [|x topics Ht Hts IH]; intros Hin bf bf' Hwf Hl E; [done|]. cbn [add_topics] in E.
  destruct (AddTopic_grows t x bf Ht Hwf Hl) as (b1 & xs & E1 & Hx & Hi & W1 & L1 & S1).
  rewrite E1 in E. cbn [mbind option_bind] in E. change (negb (is_OK DPS_OK)) with false in E.
  cbv iota in E. destruct Hin as [->|Hin].
  - exists bf, b1, xs. do 4 (split; [done|]).
    destruct (add_topics_grows t topics Hts b1 W1) as (b2 & E2 & _ & _ & S2); [lia|].
    rewrite E in E2. injection E2 as <-. done.
  - destruct (IH Hin b1 bf' W1) as (b2 & b3 & ys & W2 & L2 & ?); [lia|done|].
    exists b2, b3, ys. split; [done|]. split; [lia|done].
Qed.

(** Adding subscription topics that match stays inside the publication's filter. *)
Lemma add_topics_sound pubs subs pf pf1 :
  Forall (topic_ok seps DPS_PubTopic) pubs -> Forall (topic_ok seps DPS_SubTopic) subs ->
  Forall (fun sub => Exists (fun pub => topics_match seps pub sub) pubs) subs ->
  bv_wf pf -> 0 < len pf -> add_topics DPS_PubTopic pf pubs = Some (DPS_OK, pf1) ->
  forall sf sf1, bv_wf sf -> len sf = len pf -> bv_sub sf pf1 ->
  add_topics DPS_SubTopic sf subs = Some (DPS_OK, sf1) -> bv_sub sf1 pf1.
Proof using md_bytes Hconfig Hseps Hmalloc.
  intros Hp Hs Hm Wp Lp Ep. induction Hs as [|sub subs Ht _ IH]; intros sf sf1 Ws Ls Ss E;
    cbn [add_topics] in E; [by injection E as <-|].
  apply Forall_cons_iff in Hm as [(pub & Hin & Hmatch)%List.Exists_exists Hm].
  destruct (AddTopic_grows DPS_SubTopic sub sf Ht Ws) as (s1 & ys & E1 & Hy & Hi & W1 & L1 & _); [lia|].
  rewrite E1 in E. cbn [mbind option_bind] in E. change (negb (is_OK DPS_OK)) with false in E.
  cbv iota in E. apply (IH Hm s1); [done|lia| |done].
  destruct (add_topics_has DPS_PubTopic pubs pub Hp Hin pf pf1 Wp Lp Ep)
    as (b0 & b1 & xs & W0 & L0 & Hx & Hix & Sx).
  destruct (add_topics_grows DPS_PubTopic pubs Hp pf Wp Lp) as (p & Ep' & Wp1 & Lp1 & _).
  rewrite Ep in Ep'. injection Ep' as <-.
  rewrite List.Forall_forall in Hp. specialize (Hp pub Hin).
  exact (filter_sound mbedtls_md md_bytes config Hconfig seps Hseps pub sub b1 sf s1 xs ys b0
           Hmatch Hp Ht W0 Ws ltac:(lia) ltac:(lia) Hx Hix Hy Hi pf1 Wp1 ltac:(lia) Sx Ss).
Qed.

Lemma bloom_has_nonempty l n data :
  chunks_ok l -> 0 < n -> bloom_has mbedtls_md config l n data -> chunks_count l <> 0.
Proof using Hconfig.
  intros Hok Hn Hh. apply chunks_count_test; [done|].
  unfold bloom_has, bloom_positions in Hh. rewrite List.Forall_forall in Hh.
  pose proof (bloom_hashes_length mbedtls_md data) as Hlen.
  destruct (bloom_hashes mbedtls_md data) as [|x hs]; [done|].
  exists (x mod n). split; [by apply Z.mod_pos_bound|]. apply Hh.
  destruct (Z.to_nat (numHashes config)) eqn:E; [lia|]. by left.
Qed.

Lemma add_topics_nonempty pubs pf pf1 :
  Forall (topic_ok seps DPS_PubTopic) pubs -> pubs <> [] -> bv_wf pf -> 0 < len pf ->
  add_topics DPS_PubTopic pf pubs = Some (DPS_OK, pf1) -> chunks_count (bits pf1) <> 0.
Proof using md_bytes Hconfig Hseps Hmalloc.
  intros Hp Hne Wp Lp Ep. destruct pubs as [|pub pubs]; [done|].
  destruct (add_topics_has DPS_PubTopic (pub :: pubs) pub Hp ltac:(by left) pf pf1 Wp Lp Ep)
    as (b0 & b1 & xs & W0 & L0 & (wc & Hw & ->) & Hi & S1).
  destruct (add_topics_grows DPS_PubTopic _ Hp pf Wp Lp) as (p & Ep' & Wp1 & _).
  rewrite Ep in Ep'. injection Ep' as <-.
  apply Forall_cons_iff in Hp as [(_ & _ & _ & _ & _ & Hnw) _]. cbn [is_sub] in Hnw.
  destruct wc as [k|]; [destruct Hw as (a & c & b & -> & _ & _ & Hc); by apply no_wild_here in Hnw|].
  destruct (insert_all_spec mbedtls_md md_bytes config Hconfig
              (topic_inserts seps DPS_PubTopic pub None) b0 W0 ltac:(lia))
    as (b1' & Hi' & W1 & L1 & _ & _ & Hh & _). rewrite Hi in Hi'. injection Hi' as <-.
  assert (chunks_count (bits b1) <> 0).
  { apply (bloom_has_nonempty _ (len b0) pub); [apply W1|lia|]. apply Hh.
    unfold topic_inserts. destruct (split seps pub). by left. }
  pose proof (chunks_count_mono _ _ (bv_chunks _ W1) (bv_chunks _ Wp1) S1).
  pose proof (chunks_count_nonneg (bits b1)). lia.
Qed.
End Filters.

Lemma zeros_sub n l : length l = n -> chunks_sub (replicate n 0) l.
Proof. intros <-. apply chunks_sub_zeros; [by apply Forall_replicate|apply length_replicate]. Qed.

(** A vector as [DPS_BitVectorAlloc] makes it. *)
Definition fresh_bv (n : Z) : DPS_BitVector := mkBV (-1) n (replicate (Z.to_nat (n / 64)) 0).

Lemma fresh_bv_wf n : n mod 64 = 0 -> 0 <= n < 2 ^ 31 -> bv_wf (fresh_bv n).
Proof.
  intros Hm Hn. pose proof (Z.div_mod n 64 ltac:(lia)). pose proof (Z.div_pos n 64 ltac:(lia)).
  constructor; cbn [len bits popCount fresh_bv].
  - rewrite length_replicate. lia.
  - lia.
  - apply zeros_ok.
  - by left.
Qed.

Lemma BitVectorAlloc_fresh config :
  bitLen config mod 64 = 0 -> DPS_BitVectorAlloc config true = Some (Some (fresh_bv (bitLen config))).
Proof. intros Hm. unfold DPS_BitVectorAlloc, AllocBV. by rewrite Hm. Qed.

(** C17: soundness of routing by filters.  [DPS_MatchTopicList] decides whether
    every topic of a subscription is matched by some topic of a publication,
    and when it says yes, the Bloom filter built from the publication's topics
    includes the one built from the subscription's, so [DPS_BitVectorIncludes]
    says yes as well: filtering by Bloom filters has no false negatives, for
    any hash function, separators, number of hashes and filter length. *)
Theorem topic_match_filters mbedtls_md config malloc seps pubs subs m0 :
  (forall d, Forall is_byte (mbedtls_md d)) -> 1 <= numHashes config <= MAX_HASHES ->
  bitLen config mod 64 = 0 -> 0 < bitLen config < 2 ^ 31 ->
  no_wild seps -> seps <> [] -> malloc_ok malloc ->
  Forall (topic_ok seps DPS_PubTopic) pubs -> Forall (topic_ok seps DPS_SubTopic) subs ->
  pubs <> [] -> subs <> [] ->
  exists fresh pf sf b,
    DPS_BitVectorAlloc config true = Some (Some fresh) /\
    add_topics mbedtls_md config malloc seps DPS_PubTopic fresh pubs = Some (DPS_OK, pf) /\
    add_topics mbedtls_md config malloc seps DPS_SubTopic fresh subs = Some (DPS_OK, sf) /\
    DPS_MatchTopicList (Some (map Some pubs)) (Some (map Some subs)) (Some seps) false (Some m0)
        = Some (DPS_OK, Some b) /\
    (b = true <-> Forall (fun sub => Exists (fun pub => topics_match seps pub sub) pubs) subs) /\
    (b = true -> DPS_BitVectorIncludes (Some pf) (Some sf) = Some true).
Proof.
  intros Hmd Hc Hbm Hbl Hw Hne Hma Hp Hs Hnp Hns.
  pose proof (fresh_bv_wf (bitLen config) Hbm ltac:(lia)) as Wf. set (fresh := fresh_bv (bitLen config)) in *.
  assert (0 < len fresh) as Lf by (cbn; lia).
  destruct (add_topics_grows mbedtls_md config malloc seps Hmd Hc Hw Hma DPS_PubTopic pubs Hp fresh Wf Lf)
    as (pf & Ep & Wp & Lp & _).
  destruct (add_topics_grows mbedtls_md config malloc seps Hmd Hc Hw Hma DPS_SubTopic subs Hs fresh Wf Lf)
    as (sf & Es & Ws & Ls & _).
  assert (Hm : forall sub pub, topic_matches seps false pub sub <-> topics_match seps pub sub)
    by (unfold topic_matches; naive_solver).
  destruct (MatchTopicList_spec seps Hw Hne false pubs subs m0) as (b & Em & Hb); [| |done|done|].
  { eapply Forall_impl; [|exact Hp]. by intros l (? & ? & _ & _ & ?). }
  { eapply Forall_impl; [|exact Hs]. by intros l (? & ? & _ & _ & ?). }
  assert (Hb' : b = true <-> Forall (fun sub => Exists (fun pub => topics_match seps pub sub) pubs) subs).
  { rewrite Hb. apply Forall_iff. intros sub. apply Exists_proper; [|done]. intros pub. apply Hm. }
  exists fresh, pf, sf, b. split; [by apply BitVectorAlloc_fresh|]. do 4 (split; [done|]).
  intros Ht%Hb'. destruct (DPS_BitVectorIncludes_spec pf sf Wp Ws ltac:(lia)) as (b' & -> & Hinc).
  f_equal. apply Hinc. split.
  - apply (add_topics_sound mbedtls_md config malloc seps Hmd Hc Hw Hma pubs subs fresh pf Hp Hs Ht Wf Lf Ep
             fresh sf Wf eq_refl); [|done].
    apply zeros_sub. pose proof (bv_len _ Wp). pose proof (bv_len _ Wf).
    cbn [bits fresh fresh_bv] in *. rewrite length_replicate in *. lia.
  - by apply (add_topics_nonempty mbedtls_md config malloc seps Hmd Hc Hw Hma pubs fresh pf).
Qed.

Lemma topic_match_filters_witness :
  let config := mkConfig 256 3 in
  exists fresh pf sf b,
    DPS_BitVectorAlloc config true = Some (Some fresh) /\
    add_topics toy_md config (fun n => Some (replicate n 0)) [47] DPS_PubTopic fresh [topic_abc] = Some (DPS_OK, pf) /\
    add_topics toy_md config (fun n => Some (replicate n 0)) [47] DPS_SubTopic fresh [topic_a_c] = Some (DPS_OK, sf) /\
    DPS_MatchTopicList (Some [Some topic_abc]) (Some [Some topic_a_c]) (Some [47]) false (Some false)
        = Some (DPS_OK, Some b) /\
    (b = true <-> Forall (fun sub => Exists (fun pub => topics_match [47] pub sub) [topic_abc]) [topic_a_c]) /\
    (b = true -> DPS_BitVectorIncludes (Some pf) (Some sf) = Some true).
Proof.
  intros config. apply (topic_match_filters toy_md config (fun n => Some (replicate n 0)) [47]
                          [topic_abc] [topic_a_c] false toy_md_bytes).
  - vm_compute. intuition congruence.
  - reflexivity.
  - vm_compute. intuition congruence.
  - exact slash_no_wild.
  - done.
  - intros n. exists (replicate n 0). split; [done|apply length_replicate].
  - constructor; [apply topic_abc_ok|constructor].
  - constructor; [apply topic_a_c_ok|constructor].
  - done.
  - done.
Defined.
