(* ===== verification/Uuid.v ===== *)
(** * UUIDs ([src/uuid.c], [inc/dps/uuid.h])

    A UUID is its two 64-bit words.  The process-wide [entropy] is the state of
    the generator; the lock around each step is the step itself. *)
From S2P Require Import Prelude Status BitVec.
From stdpp Require Import countable.
#[local] Open Scope Z_scope.
#[local] Set Warnings "-clear-no-such-hyp".

Record DPS_UUID := mkUUID { val64_0 : Z; val64_1 : Z }.

#[export] Instance DPS_UUID_eq_dec : EqDecision DPS_UUID.
Proof. solve_decision. Defined.
#[export] Instance DPS_UUID_countable : Countable DPS_UUID.
Proof.
  apply (inj_countable' (fun u => (val64_0 u, val64_1 u)) (fun p => mkUUID p.1 p.2)).
  by intros [].
Defined.

(** [val]: the 16 bytes, on a little-endian machine. *)
Definition uuid_val (u : DPS_UUID) : list Z := le_bytes 8 (val64_0 u) ++ le_bytes 8 (val64_1 u).

Definition uuid_of_val (bs : list Z) : DPS_UUID :=
  mkUUID (le_value (take 8 bs)) (le_value (take 8 (drop 8 bs))).

Definition uuid_ok (u : DPS_UUID) : Prop := is_word 64 (val64_0 u) /\ is_word 64 (val64_1 u).

#[export] Instance uuid_ok_dec u : Decision (uuid_ok u).
Proof. unfold uuid_ok. apply _. Defined.

(** ** Text *)

(** [hex\[n\]] *)
Definition hex (n : Z) : option Z :=
  [48; 49; 50; 51; 52; 53; 54; 55; 56; 57; 97; 98; 99; 100; 101; 102] !! Z.to_nat n.

(** The loop for [i] down to 1, the characters written to [str]; [src\[i - 1\]] is
    the byte it prints. *)
Fixpoint uuid_text_loop (val : list Z) (i : nat) : option (list Z) :=
  match i with
  | O => Some []
  | S j =>
      b ← val !! j;
      h ← hex (b ≫ 4);
      l ← hex (b .& 0xF);
      rest ← uuid_text_loop val j;
      Some ((if bool_decide (i ∈ [6; 8; 10; 12]%nat) then [45] else []) ++ h :: l :: rest)
  end.

Definition DPS_UUIDToString (uuid : DPS_UUID) : option (list Z) :=
  uuid_text_loop (uuid_val uuid) 16.

(** ** Comparison *)

Definition DPS_UUIDCompare (a b : DPS_UUID) : Z :=
  let al := val64_0 a in let ah := val64_1 a in
  let bl := val64_0 b in let bh := val64_1 b in
  if ah <? bh then -1 else if ah >? bh then 1
  else if al <? bl then -1 else if al >? bl then 1 else 0.

(** ** The generator *)

Record Entropy := mkEntropy { nonce0 : Z; nonce1 : Z; seed0 : Z; seed1 : Z; seed2 : Z; seed3 : Z }.

(** One [fread] of [entropy]: [None] when the file cannot be opened, else the
    bytes that were read.  [reads] are the outcomes of the successive attempts;
    the loop goes on while they leave the first nonce 0. *)
Definition entropy_of_bytes (bs : list Z) : Entropy :=
  let w k n := le_value (take n (drop k bs)) in
  mkEntropy (w 0%nat 8%nat) (w 8%nat 8%nat) (w 16%nat 4%nat) (w 20%nat 4%nat) (w 24%nat 4%nat) (w 28%nat 4%nat).

Fixpoint InitUUID (entropy : Entropy) (reads : list (option (list Z)))
  : option (DPS_Status * Entropy) :=
  if negb (nonce0 entropy =? 0) then Some (DPS_OK, entropy)
  else match reads with
  | [] => None
  | None :: _ => Some (DPS_ERR_READ, entropy)
  | Some bs :: reads =>
      if negb (Nat.eqb (length bs) 32) then Some (DPS_ERR_READ, entropy)
      else InitUUID (entropy_of_bytes bs) reads
  end.

Definition LEPRNG (n : Z) : Z := u32 ((n * 279470273) mod 4294967291).

(** The four assignments that both generators make. *)
Definition next_seeds (e : Entropy) : Entropy :=
  mkEntropy (nonce0 e) (nonce1 e)
    (LEPRNG (seed1 e)) (LEPRNG (seed2 e)) (LEPRNG (seed3 e)) (LEPRNG (seed0 e)).

(** [s\[0\]] and [s\[1\]] are pairs of seeds read as 64-bit words. *)
Definition DPS_GenerateUUID (e : Entropy) : DPS_UUID * Entropy :=
  let e := next_seeds e in
  (mkUUID ((seed1 e ≪ 32 .| seed0 e) .^ nonce0 e) ((seed3 e ≪ 32 .| seed2 e) .^ nonce1 e), e).

Definition DPS_Rand64 (e : Entropy) : Z * Entropy :=
  let e := next_seeds e in (u64 (seed1 e ≪ 32) .| seed0 e, e).

Definition DPS_RandUUIDLess (uuidIn : DPS_UUID) (e : Entropy) : DPS_UUID * Entropy :=
  let '(r, e) := DPS_Rand64 e in
  let l := u64 (val64_0 uuidIn - r) in
  let h := val64_1 uuidIn in
  let h := if l >=? val64_0 uuidIn then u64 (h - 1) else h in
  (mkUUID l h, e).

Definition DPS_Rand (e : Entropy) : Z * Entropy :=
  let '(r, e) := DPS_Rand64 e in (u32 r, e).

(** ** Lemmas *)

(** The order of UUIDs is that of 128-bit integers. *)
Definition uuid_Z (u : DPS_UUID) : Z := val64_1 u * 2 ^ 64 + val64_0 u.

Lemma uuid_Z_inj u v : uuid_ok u -> uuid_ok v -> uuid_Z u = uuid_Z v -> u = v.
Proof.
  destruct u as [a b], v as [c d]. unfold uuid_ok, is_word, uuid_Z; cbn [val64_0 val64_1].
  intros. assert (b = d) by lia. assert (a = c) by lia. congruence.
Qed.

Lemma DPS_UUIDCompare_spec a b :
  uuid_ok a -> uuid_ok b ->
  DPS_UUIDCompare a b = match uuid_Z a ?= uuid_Z b with Lt => -1 | Eq => 0 | Gt => 1 end.
Proof.
  destruct a as [al ah], b as [bl bh]. unfold uuid_ok, is_word, uuid_Z, DPS_UUIDCompare; cbn [val64_0 val64_1].
  rewrite !Z.gtb_ltb. intros.
  destruct (Z.ltb_spec ah bh), (Z.ltb_spec bh ah), (Z.ltb_spec al bl), (Z.ltb_spec bl al);
    destruct (Z.compare_spec (ah * 2 ^ 64 + al) (bh * 2 ^ 64 + bl)); lia.
Qed.

Lemma UUIDCompare_eq a b : DPS_UUIDCompare a b = 0 <-> a = b.
Proof.
  destruct a as [al ah], b as [bl bh]. unfold DPS_UUIDCompare; cbn [val64_0 val64_1].
  rewrite !Z.gtb_ltb.
  destruct (Z.ltb_spec ah bh), (Z.ltb_spec bh ah), (Z.ltb_spec al bl), (Z.ltb_spec bl al);
    (split; [intros; try lia; f_equal; lia | intros [= -> ->]; lia]).
Qed.

(** Strictly before, in the order of [DPS_UUIDCompare]. *)
Definition uuid_lt (a b : DPS_UUID) : Prop :=
  val64_1 a < val64_1 b \/ val64_1 a = val64_1 b /\ val64_0 a < val64_0 b.

#[export] Instance uuid_lt_trans : Transitive uuid_lt.
Proof. intros [] [] []. unfold uuid_lt; cbn. lia. Qed.
#[export] Instance uuid_lt_irrefl : Irreflexive uuid_lt.
Proof. intros []. unfold complement, uuid_lt; cbn. lia. Qed.

Lemma UUIDCompare_lt a b : (DPS_UUIDCompare a b <? 0) = true <-> uuid_lt a b.
Proof.
  unfold DPS_UUIDCompare, uuid_lt. rewrite !Z.gtb_ltb, Z.ltb_lt.
  destruct (Z.ltb_spec (val64_1 a) (val64_1 b)), (Z.ltb_spec (val64_1 b) (val64_1 a)),
    (Z.ltb_spec (val64_0 a) (val64_0 b)), (Z.ltb_spec (val64_0 b) (val64_0 a)); lia.
Qed.

Lemma UUIDCompare_cases a b :
  (DPS_UUIDCompare a b = 0 /\ a = b) \/
  ((DPS_UUIDCompare a b =? 0) = false /\ (DPS_UUIDCompare a b <? 0) = true /\ uuid_lt a b) \/
  ((DPS_UUIDCompare a b =? 0) = false /\ (DPS_UUIDCompare a b <? 0) = false /\ uuid_lt b a).
Proof.
  pose proof (UUIDCompare_eq a b) as He. pose proof (UUIDCompare_lt a b) as Hl.
  assert (DPS_UUIDCompare a b = 0 \/ DPS_UUIDCompare a b <> 0) as [H|H] by lia; [left; by split; [|apply He]|].
  right. apply Z.eqb_neq in H. rewrite H.
  destruct (DPS_UUIDCompare a b <? 0) eqn:E; [left; naive_solver|right]. split_and!; [done|done|].
  unfold DPS_UUIDCompare, uuid_lt in *. rewrite !Z.gtb_ltb in *.
  destruct (Z.ltb_spec (val64_1 a) (val64_1 b)), (Z.ltb_spec (val64_1 b) (val64_1 a)),
    (Z.ltb_spec (val64_0 a) (val64_0 b)), (Z.ltb_spec (val64_0 b) (val64_0 a)); cbn in *; try done; lia.
Qed.

(** *** The generator *)

Lemma LEPRNG_range n : 0 <= LEPRNG n < 4294967291.
Proof.
  unfold LEPRNG. pose proof (Z.mod_pos_bound (n * 279470273) 4294967291).
  rewrite u32_small; [lia|]. pow2s. lia.
Qed.

Lemma DPS_Rand64_range e : is_word 64 (DPS_Rand64 e).1.
Proof.
  unfold DPS_Rand64, next_seeds. cbn [fst seed0 seed1].
  pose proof (LEPRNG_range (seed1 e)). pose proof (LEPRNG_range (seed2 e)).
  assert (0 <= u64 (LEPRNG (seed2 e) ≪ 32) < 2 ^ 64) by (apply Z.mod_pos_bound; lia).
  apply lor_range; [lia|done|]. pow2s. lia.
Qed.

(** The multiplier has an inverse modulo the prime, so the generator permutes
    its nonzero states and never falls back to 0. *)
Lemma LEPRNG_inverse n : 0 <= n < 4294967291 -> (LEPRNG n * 1815976680) mod 4294967291 = n.
Proof.
  intros Hn. unfold LEPRNG. rewrite u32_small.
  - rewrite Z.mul_mod_idemp_l, <- Z.mul_assoc by lia.
    replace (n * (279470273 * 1815976680)) with (n + (n * 118164229) * 4294967291) by lia.
    rewrite Z.mod_add by lia. apply Z.mod_small. lia.
  - pose proof (Z.mod_pos_bound (n * 279470273) 4294967291). pow2s. lia.
Qed.

(** *** Text *)

Lemma hex_inj a b c : hex a = Some c -> hex b = Some c -> 0 <= a -> 0 <= b -> a = b.
Proof.
  unfold hex. intros Ha Hb H1 H2.
  apply (NoDup_lookup _ (Z.to_nat a) (Z.to_nat b) c) in Ha; [lia| |done].
  apply (bool_decide_unpack _). vm_compute. done.
Qed.

Lemma hex_some n : 0 <= n < 16 -> exists c, hex n = Some c.
Proof.
  intros Hn. destruct (lookup_lt_is_Some_2 [48; 49; 50; 51; 52; 53; 54; 55; 56; 57; 97; 98; 99; 100; 101; 102] (Z.to_nat n))
    as [c Hc]; [cbn; lia|]. by exists c.
Qed.

Lemma uuid_text_loop_some val i :
  Forall is_byte val -> (i <= length val)%nat -> exists s, uuid_text_loop val i = Some s.
Proof.
  intros Hb. induction i as [|i IH]; intros Hi; cbn [uuid_text_loop]; [by exists []|].
  destruct (lookup_lt_is_Some_2 val i) as [b E]; [lia|]. rewrite E. cbn [mbind option_bind].
  pose proof (Forall_lookup_1 _ _ _ _ Hb E) as Hbb. unfold is_byte in Hbb.
  destruct (hex_some (b ≫ 4)) as [h ->]; [rewrite Z.shiftr_div_pow2 by lia; pow2s; Z.div_mod_to_equations; lia|].
  destruct (hex_some (b .& 0xF)) as [l ->].
  { change 0xF with (Z.ones 4). rewrite Z.land_ones by lia. apply Z.mod_pos_bound. lia. }
  cbn [mbind option_bind]. destruct IH as [s ->]; [lia|]. eauto.
Qed.

Lemma uuid_text_loop_inj v1 v2 i s :
  Forall is_byte v1 -> Forall is_byte v2 -> uuid_text_loop v1 i = Some s -> uuid_text_loop v2 i = Some s ->
  take i v1 = take i v2.
Proof.
  intros H1 H2. revert s. induction i as [|i IH]; intros s E1 E2; [done|]. cbn [uuid_text_loop] in *.
  destruct (v1 !! i) as [b1|] eqn:L1; [|done]. destruct (v2 !! i) as [b2|] eqn:L2; [|done].
  cbn [mbind option_bind] in *.
  destruct (hex (b1 ≫ 4)) as [h1|] eqn:Eh1; [|done]. destruct (hex (b2 ≫ 4)) as [h2|] eqn:Eh2; [|done].
  destruct (hex (b1 .& 0xF)) as [l1|] eqn:El1; [|done]. destruct (hex (b2 .& 0xF)) as [l2|] eqn:El2; [|done].
  cbn [mbind option_bind] in *.
  destruct (uuid_text_loop v1 i) as [s1|] eqn:T1; [|done]. destruct (uuid_text_loop v2 i) as [s2|] eqn:T2; [|done].
  cbn [mbind option_bind] in *. rewrite <- E1 in E2. injection E2 as E2. apply app_inv_head in E2.
  injection E2 as -> -> ->. rewrite (take_S_r _ _ _ L1), (take_S_r _ _ _ L2), (IH s1) by done.
  pose proof (Forall_lookup_1 _ _ _ _ H1 L1) as Hb1. pose proof (Forall_lookup_1 _ _ _ _ H2 L2) as Hb2.
  unfold is_byte in *. do 2 f_equal.
  rewrite Z.shiftr_div_pow2 in Eh1, Eh2 by lia. change 0xF with (Z.ones 4) in *.
  rewrite Z.land_ones in El1, El2 by lia. change (2 ^ 4) with 16 in *.
  pose proof (hex_inj _ _ _ Eh1 Eh2). pose proof (hex_inj _ _ _ El1 El2).
  pose proof (Z.mod_pos_bound b1 16). pose proof (Z.mod_pos_bound b2 16).
  pose proof (Z.div_pos b1 16). pose proof (Z.div_pos b2 16).
  pose proof (Z.div_mod b1 16). pose proof (Z.div_mod b2 16). lia.
Qed.

(** ** Theorems *)

Lemma le_bytes8_word a b : is_word 64 a -> is_word 64 b -> le_bytes 8 a = le_bytes 8 b -> a = b.
Proof.
  intros Ha Hb E. assert (forall n x, 0 <= x -> le_value (le_bytes n x) = x mod 2 ^ (8 * Z.of_nat n)) as H.
  { induction n as [|n IH]; intros x Hx; cbn [le_bytes le_value]; [by rewrite Z.mod_1_r|].
    assert (0 <= x ≫ 8) by (apply Z.shiftr_nonneg; done). rewrite IH by done.
    rewrite Z.shiftr_div_pow2 by lia. unfold u8.
    replace (8 * Z.of_nat (S n)) with (8 + 8 * Z.of_nat n) by lia.
    rewrite Z.pow_add_r, Z.rem_mul_r by lia. done. }
  unfold is_word in *. apply (f_equal le_value) in E. rewrite !H in E by lia.
  change (8 * Z.of_nat 8) with 64 in E. rewrite !Z.mod_small in E by lia. done.
Qed.

(** [DPS_UUIDToString] is defined on every UUID and two UUIDs with the
    same text are equal. *)
Theorem UUIDToString_injective u :
  uuid_ok u -> exists s, DPS_UUIDToString u = Some s /\
    forall v, uuid_ok v -> DPS_UUIDToString v = Some s -> v = u.
Proof.
  assert (Hb : forall w, Forall is_byte (uuid_val w)).
  { intros w. apply Forall_app_2; cbn; repeat constructor; apply u8_byte. }
  intros Hu. unfold DPS_UUIDToString.
  destruct (uuid_text_loop_some (uuid_val u) 16 (Hb u)) as [s Hs]; [done|].
  exists s. split; [done|]. intros v Hv Es.
  pose proof (uuid_text_loop_inj _ _ 16 s (Hb v) (Hb u) Es Hs) as E.
  rewrite !take_ge in E by done. unfold uuid_val in E. apply app_inj_1 in E as [E0 E1]; [|done].
  destruct u, v, Hu, Hv; cbn [val64_0 val64_1] in *.
  apply le_bytes8_word in E0; [|done|done]. apply le_bytes8_word in E1; [|done|done]. congruence.
Qed.

Lemma UUIDToString_injective_witness :
  exists s, DPS_UUIDToString (mkUUID 1 (2 ^ 63)) = Some s /\
    forall v, uuid_ok v -> DPS_UUIDToString v = Some s -> v = mkUUID 1 (2 ^ 63).
Proof.
  apply UUIDToString_injective. apply (bool_decide_unpack _). vm_compute. done.
Defined.

(** The UUID that [DPS_RandUUIDLess] gives, which a node takes as its new
    mesh identifier, is strictly below its argument in the order of
    [DPS_UUIDCompare] as long as the upper word of the argument is not 0: it is
    the argument less the random 64-bit number, or less [2^64] when that number
    is 0. *)
Theorem RandUUIDLess_less u e :
  uuid_ok u -> 0 < val64_1 u ->
  let r := (DPS_Rand64 e).1 in
  let '(out, e') := DPS_RandUUIDLess u e in
  uuid_ok out /\ e' = (DPS_Rand64 e).2 /\
  uuid_Z out = uuid_Z u - (if r =? 0 then 2 ^ 64 else r) /\
  DPS_UUIDCompare out u = -1.
Proof.
  intros Hu Hh r. pose proof (DPS_Rand64_range e) as Hr. fold r in Hr.
  unfold DPS_RandUUIDLess. subst r. destruct (DPS_Rand64 e) as [r e']. cbn [fst snd] in *.
  destruct u as [lo hi]. destruct Hu as [Hl Hh2]. unfold is_word in *; cbn [val64_0 val64_1] in *.
  assert (uuid_ok (mkUUID (u64 (lo - r)) (if u64 (lo - r) >=? lo then u64 (hi - 1) else hi)) /\
    uuid_Z (mkUUID (u64 (lo - r)) (if u64 (lo - r) >=? lo then u64 (hi - 1) else hi)) =
    uuid_Z (mkUUID lo hi) - (if r =? 0 then 2 ^ 64 else r)) as [Hok HZ].
  { unfold uuid_ok, uuid_Z, is_word; cbn [val64_0 val64_1]. rewrite Z.geb_leb.
    assert (u64 (hi - 1) = hi - 1) as -> by (apply u64_small; lia).
    assert (0 <= u64 (lo - r) < 2 ^ 64) by (apply Z.mod_pos_bound; lia).
    assert (u64 (lo - r) = if r <=? lo then lo - r else lo - r + 2 ^ 64) as E.
    { destruct (Z.leb_spec r lo); [apply u64_small; lia|].
      unfold u64. rewrite <- (Z.mod_small (lo - r + 2 ^ 64) (2 ^ 64)) by lia.
      rewrite <- (Z.mod_add (lo - r) 1 (2 ^ 64)) by lia.
      f_equal; lia. }
    destruct (Z.eqb_spec r 0), (Z.leb_spec r lo), (Z.leb_spec lo (u64 (lo - r))); lia. }
  split; [done|]. split; [done|]. split; [done|].
  rewrite DPS_UUIDCompare_spec; [|done|by split].
  rewrite HZ. destruct (Z.compare_spec (uuid_Z (mkUUID lo hi) - (if r =? 0 then 2 ^ 64 else r)) (uuid_Z (mkUUID lo hi))) as [H|H|H];
    [|done|]; destruct (Z.eqb_spec r 0); lia.
Qed.

Lemma RandUUIDLess_less_witness :
  let e := mkEntropy 1 2 3 4 5 6 in let u := mkUUID 7 8 in
  let r := (DPS_Rand64 e).1 in
  let '(out, e') := DPS_RandUUIDLess u e in
  uuid_ok out /\ e' = (DPS_Rand64 e).2 /\
  uuid_Z out = uuid_Z u - (if r =? 0 then 2 ^ 64 else r) /\
  DPS_UUIDCompare out u = -1.
Proof.
  intros e u. apply (RandUUIDLess_less u e).
  - apply (bool_decide_unpack _). vm_compute. done.
  - reflexivity.
Defined.
