(* ===== verification/Addr.v ===== *)
(** * Node addresses ([src/network.c], [inc/dps/private/dps.h])

    The comparison of addresses, which decides whether two messages came from
    the same node, and the parser of address strings.  Resolving a host
    ([getaddrinfo]) and the printing of addresses are libuv's and the
    platform's and are not modelled. *)
From S2P Require Import Prelude Status Buffer Float Cbor BitVec Bloom Rle BitVecSerial.
#[local] Set Warnings "-clear-no-such-hyp".

(** ** Addresses *)

Inductive DPS_NodeAddressType := DPS_UNKNOWN | DPS_DTLS | DPS_TCP | DPS_UDP | DPS_PIPE.

#[export] Instance DPS_NodeAddressType_eq_dec : EqDecision DPS_NodeAddressType.
Proof. solve_decision. Defined.

Definition type_code (t : DPS_NodeAddressType) : Z :=
  match t with DPS_UNKNOWN => 0 | DPS_DTLS => 1 | DPS_TCP => 2 | DPS_UDP => 3 | DPS_PIPE => 4 end.

Definition AF_INET : Z := 2.
Definition AF_INET6 : Z := 10.

(** A [struct sockaddr_storage] read as [sockaddr_in] or [sockaddr_in6]: the two
    have the port at the same place, so there is one field for it.  Numbers are
    as they are in memory (network byte order, read as little-endian). *)
Record sockaddr := mkSA { sa_family : Z; sin_port : Z; s_addr : Z; sin6_addr : list Z }.

#[export] Instance sockaddr_eq_dec : EqDecision sockaddr.
Proof. solve_decision. Defined.

(** [u.inaddr] is meaningful for the IP transports, [u.path] (the characters
    before the NUL) for pipes. *)
Record DPS_NodeAddress := mkAddr { addr_type : DPS_NodeAddressType; inaddr : sockaddr; path : list Z }.

#[export] Instance DPS_NodeAddress_eq_dec : EqDecision DPS_NodeAddress.
Proof. solve_decision. Defined.

(** Bytes 0 to 11 of [IP4as6]. *)
Definition IP4as6 : list Z := [0; 0; 0; 0; 0; 0; 0; 0; 0; 0; 0xFF; 0xFF].

(** [memcmp] of blocks of the same size, and [strcmp]: the sign of the first
    difference. *)
Fixpoint list_cmp (a b : list Z) : Z :=
  match a, b with
  | [], [] => 0
  | [], _ => -1
  | _, [] => 1
  | x :: a, y :: b => if x <? y then -1 else if x >? y then 1 else list_cmp a b
  end.

(** The [sockaddr_in6] in [tmp] for an address that is not one. *)
Definition ip4_as_6 (s : sockaddr) : sockaddr :=
  mkSA AF_INET6 (sin_port s) 0 (IP4as6 ++ le_bytes 4 (s_addr s)).

Definition DPS_CmpAddr (addr1 addr2 : DPS_NodeAddress) : option Z :=
  let a := inaddr addr1 in
  let b := inaddr addr2 in
  if negb (bool_decide (addr_type addr1 = addr_type addr2)) then
    _ ← c_assert (bool_decide (addr_type addr1 = addr_type addr2));
    Some (if type_code (addr_type addr1) <? type_code (addr_type addr2) then -1 else 1)
  else match addr_type addr1 with
  | DPS_DTLS | DPS_TCP | DPS_UDP =>
      let '(a, b) :=
        if negb (sa_family a =? sa_family b) then
          if sa_family a =? AF_INET6 then (a, ip4_as_6 b) else (ip4_as_6 a, b)
        else (a, b) in
      if (sa_family a =? AF_INET6) && (sa_family b =? AF_INET6) then
        if sin_port a =? sin_port b then Some (list_cmp (sin6_addr a) (sin6_addr b))
        else Some (if sin_port a <? sin_port b then -1 else 1)
      else if (sa_family a =? AF_INET) && (sa_family b =? AF_INET) then
        if sin_port a =? sin_port b then
          if s_addr a =? s_addr b then Some 0
          else Some (if s_addr a <? s_addr b then -1 else 1)
        else Some (if sin_port a <? sin_port b then -1 else 1)
      else Some (-1)
  | DPS_PIPE => Some (list_cmp (path addr1) (path addr2))
  | DPS_UNKNOWN => Some (-1)
  end.

Definition DPS_SameAddr (addr1 addr2 : DPS_NodeAddress) : option bool :=
  r ← DPS_CmpAddr addr1 addr2; Some (r =? 0).

(** [ntohs] on a little-endian machine. *)
Definition ntohs (x : Z) : Z := u16 (x ≪ 8) .| (x ≫ 8).

Definition DPS_NetAddrPort (addr : sockaddr) : Z := ntohs (sin_port addr).

Definition zero_sockaddr : sockaddr := mkSA 0 0 0 (replicate 16 0).

(** [sa] is [None] for the null pointer; only the part that belongs to the family
    is copied. *)
Definition DPS_NetSetAddr (type : DPS_NodeAddressType) (sa : option sockaddr) : DPS_NodeAddress :=
  mkAddr type
    (match sa with
     | Some sa =>
         if sa_family sa =? AF_INET then mkSA AF_INET (sin_port sa) (s_addr sa) (replicate 16 0)
         else if sa_family sa =? AF_INET6 then sa
         else zero_sockaddr
     | None => zero_sockaddr
     end) [].

(** ** Parsing *)

Inductive hostState := BEGIN | IPV4_BEGIN | IPV6_BEGIN | IPV6_END | END.

Inductive split_result := SplitReturn (ret : DPS_Status) | SplitDone (src host : list Z) (dst : nat).

Definition LBRACK : Z := 91.
Definition RBRACK : Z := 93.
Definition COLON : Z := 58.

(** [while ( *src && (dst < end))]: every iteration but the first reads a
    character. *)
Fixpoint host_loop (fuel : nat) (state : hostState) (src host : list Z) (dst : nat)
  : option split_result :=
  match src with
  | [] => Some (SplitDone src host dst)
  | c :: src' =>
      if negb (dst <? length host)%nat then Some (SplitDone src host dst)
      else match fuel with
      | O => None
      | S fuel =>
          match state with
          | BEGIN => if c =? LBRACK then host_loop fuel IPV6_BEGIN src' host dst
                     else host_loop fuel IPV4_BEGIN src host dst
          | IPV6_BEGIN =>
              if c =? RBRACK then host_loop fuel IPV6_END src' host dst
              else host ← mem_write host dst [c]; host_loop fuel IPV6_BEGIN src' host (S dst)
          | IPV6_END =>
              if c =? COLON then host_loop fuel END src' host dst
              else Some (SplitReturn DPS_ERR_INVALID)
          | IPV4_BEGIN =>
              if c =? COLON then host_loop fuel END src' host dst
              else host ← mem_write host dst [c]; host_loop fuel IPV4_BEGIN src' host (S dst)
          | END => Some (SplitDone src host dst)
          end
      end
  end.

Fixpoint service_loop (src service : list Z) (dst : nat) : option (list Z * nat) :=
  match src with
  | [] => Some (service, dst)
  | c :: src =>
      if negb (dst <? length service)%nat then Some (service, dst)
      else service ← mem_write service dst [c]; service_loop src service (S dst)
  end.

(** [host] and [service] are the caller's arrays, [None] for null pointers; their
    lengths are the size arguments. *)
Definition DPS_SplitAddress (addrText : list Z) (host service : option (list Z))
  : option (DPS_Status * option (list Z) * option (list Z)) :=
  match host, service with
  | Some ((_ :: _) as h0), Some ((_ :: _) as s0) =>
      h ← mem_write h0 0 [0];
      s ← mem_write s0 0 [0];
      r ← host_loop (S (length addrText)) BEGIN addrText h 0;
      match r with
      | SplitReturn ret => Some (ret, Some h, Some s)
      | SplitDone src h dst =>
          if (dst =? length h)%nat then Some (DPS_ERR_OVERFLOW, Some h, Some s)
          else
            h ← mem_write h dst [0];
            '(s, dst) ← service_loop src s 0;
            if (dst =? length s)%nat then Some (DPS_ERR_OVERFLOW, Some h, Some s)
            else s ← mem_write s dst [0]; Some (DPS_OK, Some h, Some s)
      end
  | _, _ => Some (DPS_ERR_ARGS, host, service)
  end.

(** ** Comparing addresses *)

Lemma list_cmp_eq a b : list_cmp a b = 0 <-> a = b.
Proof.
  revert b. induction a as [|x a IH]; intros [|y b]; cbn; try done.
  rewrite Z.gtb_ltb. destruct (Z.ltb_spec x y), (Z.ltb_spec y x); rewrite ?IH;
    (split; [intros ?; try done; try lia|intros [= -> ->]; try done; try lia]).
  assert (x = y) by lia. congruence.
Qed.

Lemma le_bytes_inj n x y :
  0 <= x < 2 ^ (8 * Z.of_nat n) -> 0 <= y < 2 ^ (8 * Z.of_nat n) -> le_bytes n x = le_bytes n y -> x = y.
Proof.
  intros Hx Hy E. apply (f_equal le_value) in E. by rewrite !le_value_le_bytes in E.
Qed.

(** What an IP address designates: a port and an IPv6 address, IPv4 addresses
    being mapped into IPv6. *)
Definition endpoint (s : sockaddr) : Z * list Z :=
  (sin_port s, if sa_family s =? AF_INET6 then sin6_addr s else IP4as6 ++ le_bytes 4 (s_addr s)).

Definition is_ip (t : DPS_NodeAddressType) : bool :=
  match t with DPS_DTLS | DPS_TCP | DPS_UDP => true | _ => false end.

Definition ip_ok (a : DPS_NodeAddress) : Prop :=
  is_ip (addr_type a) = true /\ (sa_family (inaddr a) = AF_INET \/ sa_family (inaddr a) = AF_INET6) /\
  0 <= s_addr (inaddr a) < 2 ^ 32.

Lemma cmp_port p q (r : Z) :
  (if p =? q then Some r else Some (if p <? q then -1 else 1)) <> None /\
  ((if p =? q then Some r else Some (if p <? q then -1 else 1)) = Some 0 <-> p = q /\ r = 0).
Proof.
  destruct (Z.eqb_spec p q) as [->|Hne]; [split; [done|]; naive_solver|].
  split; [done|]. destruct (p <? q); naive_solver.
Qed.

Lemma cmp_v4 pa pb ia ib :
  0 <= ia < 2 ^ 32 -> 0 <= ib < 2 ^ 32 ->
  let r := if pa =? pb then if ia =? ib then Some 0 else Some (if ia <? ib then -1 else 1)
           else Some (if pa <? pb then -1 else 1) in
  r <> None /\ (r = Some 0 <-> (pa, IP4as6 ++ le_bytes 4 ia) = (pb, IP4as6 ++ le_bytes 4 ib)).
Proof.
  intros Ha Hb r. subst r. rewrite pair_equal_spec.
  assert (IP4as6 ++ le_bytes 4 ia = IP4as6 ++ le_bytes 4 ib <-> ia = ib) as ->.
  { split; [|by intros ->]. intros E%app_inv_head. by apply le_bytes_inj in E. }
  destruct (Z.eqb_spec pa pb) as [->|].
  - destruct (Z.eqb_spec ia ib) as [->|]; [done|]. split; [done|]. destruct (ia <? ib); naive_solver.
  - split; [done|]. destruct (pa <? pb); naive_solver.
Qed.

Lemma cmp_v6 pa pb va vb :
  let r := if pa =? pb then Some (list_cmp va vb) else Some (if pa <? pb then -1 else 1) in
  r <> None /\ (r = Some 0 <-> (pa, va) = (pb, vb)).
Proof.
  intros r. subst r. destruct (cmp_port pa pb (list_cmp va vb)) as [? ->]. split; [done|].
  by rewrite list_cmp_eq, pair_equal_spec.
Qed.

(** The comparison without the dispatch on the transport. *)
Lemma DPS_CmpAddr_ip a b :
  addr_type a = addr_type b -> ip_ok a -> ip_ok b ->
  DPS_CmpAddr a b <> None /\ (DPS_CmpAddr a b = Some 0 <-> endpoint (inaddr a) = endpoint (inaddr b)).
Proof.
  intros Ht (Hta & Hfa & Ha) (_ & Hfb & Hb). unfold DPS_CmpAddr, endpoint.
  rewrite bool_decide_eq_true_2 by done. cbn [negb].
  destruct (inaddr a) as [fa pa ia va], (inaddr b) as [fb pb ib vb].
  cbn [sa_family sin_port s_addr sin6_addr] in *.
  destruct (addr_type a); try done;
    (destruct Hfa as [-> | ->], Hfb as [-> | ->]; (exact (cmp_v4 pa pb ia ib Ha Hb) || apply cmp_v6)).
Qed.

Lemma SameAddr_ip a b :
  addr_type a = addr_type b -> ip_ok a -> ip_ok b ->
  DPS_SameAddr a b = Some (bool_decide (endpoint (inaddr a) = endpoint (inaddr b))).
Proof.
  intros Ht Ha Hb. destruct (DPS_CmpAddr_ip a b Ht Ha Hb) as [Hn He]. unfold DPS_SameAddr.
  destruct (DPS_CmpAddr a b) as [r|]; [|done]. cbn. f_equal.
  destruct (Z.eqb_spec r 0) as [->|Hr]; symmetry.
  - apply bool_decide_eq_true_2. by apply He.
  - apply bool_decide_eq_false_2. intros E. apply He in E. congruence.
Qed.

(** ** Splitting address strings *)

(** [buf] holds [s] at its start. *)
Definition holds (buf s : list Z) : Prop := take (length s) buf = s.

Lemma mem_write_char buf s c :
  holds buf s -> (length s < length buf)%nat ->
  exists buf', mem_write buf (length s) [c] = Some buf' /\ length buf' = length buf /\ holds buf' (s ++ [c]).
Proof.
  intros Hs Hl. rewrite mem_write_fits by (cbn; lia). eexists. split; [done|]. split.
  - rewrite !length_app, length_take, length_drop. cbn. lia.
  - unfold holds in *. rewrite Hs, length_app. cbn [length].
    rewrite take_app, firstn_all2 by lia.
    replace (length s + 1 - length s)%nat with 1%nat by lia. done.
Qed.

Lemma holds_nil buf : holds buf [].
Proof. done. Qed.

(** One state of the host parser over characters that are not its delimiter. *)
Lemma host_loop_chars st delim rest : 
  (st = IPV4_BEGIN /\ delim = COLON) \/ (st = IPV6_BEGIN /\ delim = RBRACK) ->
  forall h fuel buf s, Forall (fun c => c <> delim) h -> holds buf s ->
  (length s + length h < length buf)%nat -> (length h <= fuel)%nat ->
  exists buf', host_loop fuel st (h ++ rest) buf (length s) =
      host_loop (fuel - length h) st rest buf' (length (s ++ h)) /\
    length buf' = length buf /\ holds buf' (s ++ h).
Proof.
  intros Hst. induction h as [|c h IH]; intros fuel buf s Hh Hs Hl Hf; cbn [length] in *.
  { exists buf. rewrite app_nil_r, Nat.sub_0_r. done. }
  apply Forall_cons_iff in Hh as [Hc Hh]. destruct fuel as [|fuel]; [lia|].
  destruct (mem_write_char buf s c Hs) as (buf1 & E & Hl1 & Hs1); [lia|].
  cbn [app host_loop]. rewrite (proj2 (Nat.ltb_lt _ _)) by lia. cbn [negb].
  destruct (IH fuel buf1 (s ++ [c]) Hh Hs1) as (buf' & E' & Hl' & Hs');
    [rewrite length_app; cbn [length]; lia|lia|].
  rewrite length_app, Nat.add_1_r in E'. rewrite <- app_assoc in E', Hs'. cbn [app] in E', Hs'.
  exists buf'. split; [|split; [lia|done]]. cbn [Nat.sub].
  destruct Hst as [[-> ->]|[-> ->]]; rewrite (proj2 (Z.eqb_neq _ _)) by done; rewrite E;
    cbn [mbind option_bind]; exact E'.
Qed.

Lemma service_loop_chars s : forall buf done,
  holds buf done -> (length done + length s < length buf)%nat ->
  exists buf', service_loop s buf (length done) = Some (buf', length (done ++ s)) /\
    length buf' = length buf /\ holds buf' (done ++ s).
Proof.
  induction s as [|c s IH]; intros buf d Hd Hl; cbn [length] in *.
  { exists buf. by rewrite app_nil_r. }
  destruct (mem_write_char buf d c Hd) as (buf1 & E & Hl1 & Hs1); [lia|].
  destruct (IH buf1 (d ++ [c]) Hs1) as (buf' & E' & Hl' & Hs'); [rewrite length_app; cbn [length]; lia|].
  rewrite length_app, Nat.add_1_r, <- app_assoc in E'. rewrite <- app_assoc in Hs'.
  exists buf'. cbn [service_loop]. rewrite (proj2 (Nat.ltb_lt _ _)) by lia. cbn [negb].
  rewrite E. cbn [mbind option_bind]. split; [exact E'|]. split; [lia|exact Hs'].
Qed.

(** The text of an address, in the formats [DPS_NetAddrText] prints. *)
Definition addr_text (bracket : bool) (host service : list Z) : list Z :=
  (if bracket then [LBRACK] ++ host ++ [RBRACK] else host) ++ [COLON] ++ service.

(** A host that can be written that way: without brackets it has no colon and
    does not start with a bracket, in brackets it has no closing one. *)
Definition host_ok (bracket : bool) (host : list Z) : Prop :=
  if bracket then Forall (fun c => c <> RBRACK) host
  else Forall (fun c => c <> COLON) host /\ head host <> Some LBRACK.

(** Single steps of the host parser. *)
Lemma host_loop_begin fuel c t buf dst :
  (dst < length buf)%nat ->
  host_loop (S fuel) BEGIN (c :: t) buf dst =
    if c =? LBRACK then host_loop fuel IPV6_BEGIN t buf dst else host_loop fuel IPV4_BEGIN (c :: t) buf dst.
Proof. intros Hd. cbn [host_loop]. by rewrite (proj2 (Nat.ltb_lt _ _)). Qed.

Lemma host_loop_delim fuel st c t buf dst :
  (dst < length buf)%nat ->
  (st, c) = (IPV4_BEGIN, COLON) \/ (st, c) = (IPV6_BEGIN, RBRACK) \/ (st, c) = (IPV6_END, COLON) ->
  host_loop (S fuel) st (c :: t) buf dst =
    host_loop fuel (if st is IPV6_BEGIN then IPV6_END else END) t buf dst.
Proof.
  intros Hd Hst. cbn [host_loop]. rewrite (proj2 (Nat.ltb_lt _ _)) by done. cbn [negb].
  destruct Hst as [[= -> ->]|[[= -> ->]|[= -> ->]]]; done.
Qed.

Lemma host_loop_end fuel t buf dst : host_loop (S fuel) END t buf dst = Some (SplitDone t buf dst).
Proof. destruct t; cbn [host_loop]; [done|]. by destruct (negb _). Qed.

Lemma host_loop_text bracket h s buf :
  host_ok bracket h -> (length h < length buf)%nat ->
  exists buf', host_loop (S (length (addr_text bracket h s))) BEGIN (addr_text bracket h s) buf 0 =
      Some (SplitDone s buf' (length h)) /\ length buf' = length buf /\ holds buf' h.
Proof.
  intros Hh Hl. destruct bracket; cbn [host_ok] in Hh.
  - assert (addr_text true h s = LBRACK :: h ++ RBRACK :: COLON :: s) as ->.
    { unfold addr_text. cbn. by rewrite <- app_assoc. }
    set (n := length (LBRACK :: h ++ RBRACK :: COLON :: s)).
    assert (n = length h + S (S (S (length s))))%nat as Hn.
    { unfold n. cbn. rewrite length_app. cbn. lia. }
    destruct (host_loop_chars IPV6_BEGIN RBRACK (RBRACK :: COLON :: s) ltac:(by right) h n buf [] Hh
                (holds_nil buf)) as (buf' & E & Hl' & Hb); [cbn; lia|lia|].
    exists buf'. split; [|done]. rewrite host_loop_begin, Z.eqb_refl by lia. cbn [length] in E. rewrite E.
    replace (n - length h)%nat with (S (S (S (length s)))) by lia. cbn [app].
    rewrite host_loop_delim by (rewrite ?Hl'; auto). rewrite host_loop_delim by (rewrite ?Hl'; auto).
    apply host_loop_end.
  - destruct Hh as [Hh Hne]. assert (addr_text false h s = h ++ COLON :: s) as -> by done.
    set (n := length (h ++ COLON :: s)).
    assert (n = length h + S (length s))%nat as Hn by (unfold n; rewrite length_app; done).
    destruct (host_loop_chars IPV4_BEGIN COLON (COLON :: s) ltac:(by left) h n buf [] Hh
                (holds_nil buf)) as (buf' & E & Hl' & Hb); [cbn; lia|lia|].
    exists buf'. split; [|done]. cbn [length] in E.
    assert (host_loop (S n) BEGIN (h ++ COLON :: s) buf 0 = host_loop n IPV4_BEGIN (h ++ COLON :: s) buf 0) as ->.
    { destruct h as [|x h]; cbn [app]; rewrite host_loop_begin by lia; [done|].
      cbn in Hne. rewrite (proj2 (Z.eqb_neq _ _)) by congruence. done. }
    rewrite E. replace (n - length h)%nat with (S (length s)) by lia. cbn [app].
    rewrite host_loop_delim by (rewrite ?Hl'; auto).
    destruct s; [done|]. cbn [length]. apply host_loop_end.
Qed.

(** *** Any input *)

Lemma mem_write_one buf d c : (d < length buf)%nat ->
  exists buf', mem_write buf d [c] = Some buf' /\ length buf' = length buf.
Proof.
  intros Hd. rewrite mem_write_fits by (cbn; lia). eexists. split; [done|].
  rewrite !length_app, length_take, length_drop. cbn. lia.
Qed.

Lemma host_loop_total fuel : forall st src buf dst,
  (length src + (if st is BEGIN then 1 else 0) <= fuel)%nat -> (dst <= length buf)%nat ->
  (exists ret, host_loop fuel st src buf dst = Some (SplitReturn ret) /\ ret = DPS_ERR_INVALID) \/
  exists src' buf' dst', host_loop fuel st src buf dst = Some (SplitDone src' buf' dst') /\
    length buf' = length buf /\ (dst' <= length buf)%nat.
Proof.
  induction fuel as [|fuel IH]; intros st src buf dst Hf Hd.
  { destruct src as [|c src]; [|cbn in Hf; lia]. right. cbn. eauto 10. }
  cbn [host_loop]. destruct src as [|c src]; [right; eauto 10|]. cbn [length] in Hf.
  destruct (dst <? length buf)%nat eqn:E; cbn [negb]; [|right; eauto 10]. apply Nat.ltb_lt in E.
  destruct (mem_write_one buf dst c E) as (buf1 & Ew & Hl1).
  destruct st; cbn in Hf.
  - destruct (c =? LBRACK); apply IH; cbn; lia.
  - destruct (c =? COLON); [apply IH; cbn; lia|]. rewrite Ew. cbn [mbind option_bind]. rewrite <- Hl1.
    apply IH; cbn; lia.
  - destruct (c =? RBRACK); [apply IH; cbn; lia|]. rewrite Ew. cbn [mbind option_bind]. rewrite <- Hl1.
    apply IH; cbn; lia.
  - destruct (c =? COLON); [apply IH; cbn; lia|]. left. eauto.
  - right. eauto 10.
Qed.

Lemma service_loop_total src : forall buf dst, (dst <= length buf)%nat ->
  exists buf' dst', service_loop src buf dst = Some (buf', dst') /\ length buf' = length buf /\
    (dst' <= length buf)%nat.
Proof.
  induction src as [|c src IH]; intros buf dst Hd; cbn [service_loop]; [eauto|].
  destruct (dst <? length buf)%nat eqn:E; cbn [negb]; [|eauto]. apply Nat.ltb_lt in E.
  destruct (mem_write_one buf dst c E) as (buf1 & Ew & Hl1). rewrite Ew. cbn [mbind option_bind].
  rewrite <- Hl1. apply IH. lia.
Qed.

(** ** Theorems *)

(** C30: on addresses of one IP transport, [DPS_SameAddr] never fails its
    assertion and decides whether they designate the same endpoint, a port and
    an IPv6 address with IPv4 mapped into IPv6; so it is an equivalence
    relation, also between IPv4 and IPv6 forms. *)
Theorem SameAddr_decides t (addrs : list DPS_NodeAddress) :
  Forall (fun a => addr_type a = t /\ ip_ok a) addrs ->
  (forall a b, In a addrs -> In b addrs ->
     DPS_SameAddr a b = Some (bool_decide (endpoint (inaddr a) = endpoint (inaddr b)))) /\
  (forall a, In a addrs -> DPS_SameAddr a a = Some true) /\
  (forall a b c, In a addrs -> In b addrs -> In c addrs ->
     DPS_SameAddr a b = Some true -> DPS_SameAddr b c = Some true ->
     DPS_SameAddr b a = Some true /\ DPS_SameAddr a c = Some true).
Proof.
  intros H. rewrite List.Forall_forall in H.
  assert (Hs : forall a b, In a addrs -> In b addrs ->
     DPS_SameAddr a b = Some (bool_decide (endpoint (inaddr a) = endpoint (inaddr b)))).
  { intros a b Ha Hb. destruct (H a Ha) as [Ta Oa], (H b Hb) as [Tb Ob]. apply SameAddr_ip; [congruence|done|done]. }
  split; [done|]. split.
  - intros a Ha. rewrite Hs by done. by rewrite bool_decide_eq_true_2.
  - intros a b c Ha Hb Hc. rewrite !Hs by done.
    intros [= E1%bool_decide_eq_true] [= E2%bool_decide_eq_true].
    split; rewrite bool_decide_eq_true_2; congruence.
Qed.

(** 127.0.0.1 and ::ffff:127.0.0.1, port 100. *)
Definition example_v4 : DPS_NodeAddress :=
  mkAddr DPS_UDP (mkSA AF_INET 0x6400 0x0100007F (replicate 16 0)) [].
Definition example_v6 : DPS_NodeAddress :=
  mkAddr DPS_UDP (mkSA AF_INET6 0x6400 0 (IP4as6 ++ [127; 0; 0; 1])) [].

Lemma SameAddr_decides_witness :
  DPS_SameAddr example_v4 example_v4 = Some true /\
  (forall a b c, In a [example_v4; example_v6] -> In b [example_v4; example_v6] ->
     In c [example_v4; example_v6] ->
     DPS_SameAddr a b = Some true -> DPS_SameAddr b c = Some true ->
     DPS_SameAddr b a = Some true /\ DPS_SameAddr a c = Some true).
Proof.
  destruct (SameAddr_decides DPS_UDP [example_v4; example_v6]) as (_ & H1 & H2).
  - repeat (constructor; [split; [reflexivity|split; [reflexivity|split; [by (left + right)|vm_compute; intuition congruence]]]|]).
    constructor.
  - split; [apply H1; by left|exact H2].
Defined.

(** whatever the text and the sizes of the two arrays, [DPS_SplitAddress]
    writes inside them only and reports OK, OVERFLOW, INVALID or ARGS; and it
    splits "host:service" and "[host]:service" into the two strings, NUL
    terminated, whenever both fit with their NUL. *)
Theorem SplitAddress_roundtrip bracket h s host service text :
  host_ok bracket h -> (length h < length host)%nat -> (length s < length service)%nat ->
  (exists ret host' service',
     DPS_SplitAddress text (Some host) (Some service) = Some (ret, Some host', Some service') /\
     length host' = length host /\ length service' = length service /\
     (ret = DPS_OK \/ ret = DPS_ERR_OVERFLOW \/ ret = DPS_ERR_INVALID)) /\
  (exists host' service',
     DPS_SplitAddress (addr_text bracket h s) (Some host) (Some service) =
       Some (DPS_OK, Some host', Some service') /\
     holds host' (h ++ [0]) /\ holds service' (s ++ [0])).
Proof.
  intros Hh Hlh Hls. destruct host as [|h0 host]; [cbn in Hlh; lia|].
  destruct service as [|s0 service]; [cbn in Hls; lia|].
  set (H := h0 :: host) in *. set (S0 := s0 :: service) in *. cbn [DPS_SplitAddress].
  destruct (mem_write_one H 0 0) as (hb & Eh & Lh); [cbn; lia|].
  destruct (mem_write_one S0 0 0) as (sb & Es & Ls); [cbn; lia|].
  unfold DPS_SplitAddress. fold H S0. rewrite Eh, Es. cbn [mbind option_bind]. split.
  - destruct (host_loop_total (S (length text)) BEGIN text hb 0) as [(ret & -> & ->)|(src & hb' & d & -> & Ld & Hd)];
      [cbn; lia|cbn; lia| |]; cbn [mbind option_bind].
    { do 3 eexists. split; [done|]. split; [done|]. split; [done|]. auto. }
    destruct (Nat.eqb_spec d (length hb')) as [->|Hne].
    { do 3 eexists. split; [done|]. split; [lia|]. split; [done|]. auto. }
    destruct (mem_write_one hb' d 0) as (hb2 & -> & L2); [lia|]. cbn [mbind option_bind].
    destruct (service_loop_total src sb 0) as (sb' & d2 & -> & L3 & Hd2); [cbn; lia|]. cbn [mbind option_bind].
    destruct (Nat.eqb_spec d2 (length sb')) as [->|Hne2].
    { do 3 eexists. split; [done|]. split; [lia|]. split; [lia|]. auto. }
    destruct (mem_write_one sb' d2 0) as (sb2 & -> & L4); [lia|]. cbn [mbind option_bind].
    do 3 eexists. split; [done|]. split; [lia|]. split; [lia|]. auto.
  - destruct (host_loop_text bracket h s hb Hh) as (hb' & -> & Lh' & Hb'); [lia|]. cbn [mbind option_bind].
    rewrite (proj2 (Nat.eqb_neq (length h) (length hb'))) by lia.
    destruct (mem_write_char hb' h 0 Hb') as (hb2 & -> & L2 & Hb2); [lia|]. cbn [mbind option_bind].
    destruct (service_loop_chars s sb [] (holds_nil sb)) as (sb' & E & L3 & Hs'); [cbn; lia|].
    cbn [length app] in E, Hs'. rewrite E. cbn [mbind option_bind].
    rewrite (proj2 (Nat.eqb_neq (length s) (length sb'))) by lia.
    destruct (mem_write_char sb' s 0 Hs') as (sb2 & -> & L4 & Hs2); [lia|]. cbn [mbind option_bind].
    by exists hb2, sb2.
Qed.

Lemma SplitAddress_roundtrip_witness :
  exists host' service',
     DPS_SplitAddress (addr_text true [58; 58; 49] [50; 51]) (Some (replicate 8 9)) (Some (replicate 3 9)) =
       Some (DPS_OK, Some host', Some service') /\
     holds host' [58; 58; 49; 0] /\ holds service' [50; 51; 0].
Proof.
  apply (SplitAddress_roundtrip true [58; 58; 49] [50; 51] (replicate 8 9) (replicate 3 9) []).
  - repeat (constructor; [done|]). constructor.
  - cbn. lia.
  - cbn. lia.
Defined.
