(* ===== verification/History.v ===== *)
(** * Publication histories ([src/history.c], [src/history.h])

    The records are in a binary search tree by UUID, with parent pointers, and
    in a doubly linked list by expiration, through the same cells.  The heap is
    one map per pointer field and one for the data of a cell; dereferencing a
    null or freed pointer, and an [assert] that fails, are [None].  The list of
    addresses of a record is the list of its elements.  Time ([uv_now]) and the
    outcome of each allocation are arguments; the lock around each operation is
    the operation.  [DumpHistory] only prints. *)
From S2P Require Import Prelude Status Buffer Float Cbor BitVec Uuid Addr.
From stdpp Require Import gmap.
#[local] Open Scope Z_scope.

Abbreviation ptr := positive.

Definition HISTORY_THRESHOLD : Z := 10.
Definition DPS_SECS_TO_MS (t : Z) : Z := u64 (t * 1000).
Definition PUB_HISTORY_LIFETIME : Z := DPS_SECS_TO_MS 10.

(** [DPS_NodeAddressList], without the link. *)
Record NodeAddr := mkNA { na_sn : Z; na_hopCount : Z; na_addr : DPS_NodeAddress }.

(** The fields of [DPS_PubHistory] that are not links. *)
Record PubHistory := mkPH {
  ph_id : DPS_UUID; ph_sn : Z; ph_ackRequested : Z; ph_addrs : list NodeAddr; ph_expiration : Z
}.

Record DPS_History := mkHistory {
  cells : gmap ptr PubHistory;
  lefts : gmap ptr (option ptr);
  rights : gmap ptr (option ptr);
  parents : gmap ptr (option ptr);
  prevs : gmap ptr (option ptr);
  nexts : gmap ptr (option ptr);
  root : option ptr;
  latest : option ptr;
  soonest : option ptr;
  count : Z
}.

(** [m\[p\] = v] where [p] must be allocated. *)
Definition store {V} (m : gmap ptr V) (p : ptr) (v : V) : option (gmap ptr V) :=
  _ ← m !! p; Some (<[p := v]> m).

Definition set_cell (h : DPS_History) (p : ptr) (v : PubHistory) : option DPS_History :=
  m ← store (cells h) p v;
  Some (mkHistory m (lefts h) (rights h) (parents h) (prevs h) (nexts h) (root h) (latest h) (soonest h) (count h)).
Definition set_left (h : DPS_History) (p : ptr) (v : option ptr) : option DPS_History :=
  m ← store (lefts h) p v;
  Some (mkHistory (cells h) m (rights h) (parents h) (prevs h) (nexts h) (root h) (latest h) (soonest h) (count h)).
Definition set_right (h : DPS_History) (p : ptr) (v : option ptr) : option DPS_History :=
  m ← store (rights h) p v;
  Some (mkHistory (cells h) (lefts h) m (parents h) (prevs h) (nexts h) (root h) (latest h) (soonest h) (count h)).
Definition set_parent (h : DPS_History) (p : ptr) (v : option ptr) : option DPS_History :=
  m ← store (parents h) p v;
  Some (mkHistory (cells h) (lefts h) (rights h) m (prevs h) (nexts h) (root h) (latest h) (soonest h) (count h)).
Definition set_prev (h : DPS_History) (p : ptr) (v : option ptr) : option DPS_History :=
  m ← store (prevs h) p v;
  Some (mkHistory (cells h) (lefts h) (rights h) (parents h) m (nexts h) (root h) (latest h) (soonest h) (count h)).
Definition set_next (h : DPS_History) (p : ptr) (v : option ptr) : option DPS_History :=
  m ← store (nexts h) p v;
  Some (mkHistory (cells h) (lefts h) (rights h) (parents h) (prevs h) m (root h) (latest h) (soonest h) (count h)).
Definition set_root (h : DPS_History) (v : option ptr) : DPS_History :=
  mkHistory (cells h) (lefts h) (rights h) (parents h) (prevs h) (nexts h) v (latest h) (soonest h) (count h).
Definition set_latest (h : DPS_History) (v : option ptr) : DPS_History :=
  mkHistory (cells h) (lefts h) (rights h) (parents h) (prevs h) (nexts h) (root h) v (soonest h) (count h).
Definition set_soonest (h : DPS_History) (v : option ptr) : DPS_History :=
  mkHistory (cells h) (lefts h) (rights h) (parents h) (prevs h) (nexts h) (root h) (latest h) v (count h).
Definition set_count (h : DPS_History) (v : Z) : DPS_History :=
  mkHistory (cells h) (lefts h) (rights h) (parents h) (prevs h) (nexts h) (root h) (latest h) (soonest h) v.

(** [calloc(1, sizeof(DPS_PubHistory))] that returned [p], then [phNew->id = pubId]. *)
Definition calloc_cell (h : DPS_History) (p : ptr) (pubId : DPS_UUID) : DPS_History :=
  mkHistory (<[p := mkPH pubId 0 0 [] 0]> (cells h))
    (<[p := None]> (lefts h)) (<[p := None]> (rights h)) (<[p := None]> (parents h))
    (<[p := None]> (prevs h)) (<[p := None]> (nexts h)) (root h) (latest h) (soonest h) (count h).

Definition FreePubHistory (h : DPS_History) (p : ptr) : option DPS_History :=
  _ ← cells h !! p;
  Some (mkHistory (delete p (cells h)) (delete p (lefts h)) (delete p (rights h)) (delete p (parents h))
         (delete p (prevs h)) (delete p (nexts h)) (root h) (latest h) (soonest h) (count h)).

(** Enough for a walk down the tree or along the list. *)
Definition walk_fuel (h : DPS_History) : nat := size (cells h).

(** ** The tree *)

Fixpoint find_loop (fuel : nat) (h : DPS_History) (pubId : DPS_UUID) (curr : option ptr)
  : option (option ptr) :=
  match curr with
  | None => Some None
  | Some p =>
      match fuel with
      | O => None
      | S fuel =>
          d ← cells h !! p;
          let cmp := DPS_UUIDCompare pubId (ph_id d) in
          if cmp =? 0 then Some (Some p)
          else if cmp <? 0 then c ← lefts h !! p; find_loop fuel h pubId c
          else c ← rights h !! p; find_loop fuel h pubId c
      end
  end.

Definition Find (h : DPS_History) (pubId : DPS_UUID) : option (option ptr) :=
  find_loop (walk_fuel h) h pubId (root h).

(** Results: [curr], [parent] and [cmp] after the loop. *)
Fixpoint insert_loop (fuel : nat) (h : DPS_History) (addId : DPS_UUID) (curr parent : option ptr) (cmp : Z)
  : option (option ptr * option ptr * Z) :=
  match curr with
  | None => Some (None, parent, cmp)
  | Some p =>
      match fuel with
      | O => None
      | S fuel =>
          d ← cells h !! p;
          let cmp := DPS_UUIDCompare addId (ph_id d) in
          if cmp =? 0 then Some (Some p, parent, cmp)
          else if cmp <? 0 then c ← lefts h !! p; insert_loop fuel h addId c (Some p) cmp
          else c ← rights h !! p; insert_loop fuel h addId c (Some p) cmp
      end
  end.

Definition Insert (h : DPS_History) (add : ptr) : option (ptr * DPS_History) :=
  d ← cells h !! add;
  '(curr, parent, cmp) ← insert_loop (walk_fuel h) h (ph_id d) (root h) None 0;
  match curr with
  | Some curr => Some (curr, h)
  | None =>
      match parent with
      | Some parent =>
          h ← (if cmp <? 0 then set_left h parent (Some add) else set_right h parent (Some add));
          h ← set_parent h add (Some parent);
          Some (add, h)
      | None => Some (add, set_root h (Some add))
      end
  end.

(** [while (repl->right) repl = repl->right] over one of the two links. *)
Fixpoint last_loop (fuel : nat) (links : gmap ptr (option ptr)) (repl : ptr) : option ptr :=
  c ← links !! repl;
  match c with
  | None => Some repl
  | Some c => match fuel with O => None | S fuel => last_loop fuel links c end
  end.

(** [ph->id.val\[15\] & 1] *)
Definition id_lsb (u : DPS_UUID) : bool := negb (default 0 (uuid_val u !! 15%nat) .& 1 =? 0).

(** The parent pointer of a node that may be null. *)
Definition set_parent_opt (h : DPS_History) (p : option ptr) (v : option ptr) : option DPS_History :=
  match p with Some p => set_parent h p v | None => Some h end.

(** The part after the replacement is known. *)
Definition remove_fixup (h : DPS_History) (ph : ptr) (repl : option ptr) : option DPS_History :=
  up ← parents h !! ph;
  h ← set_parent_opt h repl up;
  match up with
  | Some up =>
      l ← lefts h !! up;
      if bool_decide (l = Some ph) then set_left h up repl else set_right h up repl
  | None => Some (set_root h repl)
  end.

(** The recursive call is on a node with one child at most, so [depth] 2 is
    enough. *)
Fixpoint Remove (depth : nat) (h : DPS_History) (ph : ptr) : option DPS_History :=
  match depth with
  | O => None
  | S depth =>
      l ← lefts h !! ph;
      r ← rights h !! ph;
      match l, r with
      | Some l, Some r =>
          d ← cells h !! ph;
          repl ← (if id_lsb (ph_id d) then last_loop (walk_fuel h) (rights h) l
                  else last_loop (walk_fuel h) (lefts h) r);
          h ← Remove depth h repl;
          l ← lefts h !! ph;
          r ← rights h !! ph;
          h ← set_left h repl l;
          h ← set_right h repl r;
          h ← set_parent_opt h l (Some repl);
          h ← set_parent_opt h r (Some repl);
          remove_fixup h ph (Some repl)
      | _, _ => remove_fixup h ph (match l with Some _ => l | None => r end)
      end
  end.

(** ** The list *)

(** [while (ph->expiration < h->expiration) h = h->prev] *)
Fixpoint back_loop (fuel : nat) (h : DPS_History) (expiration : Z) (q : ptr) : option ptr :=
  d ← cells h !! q;
  if expiration <? ph_expiration d then
    match fuel with
    | O => None
    | S fuel => p ← prevs h !! q; p ← p; back_loop fuel h expiration p
    end
  else Some q.

Definition LinkPub (h : DPS_History) (ph : ptr) : option DPS_History :=
  n ← nexts h !! ph;
  p ← prevs h !! ph;
  _ ← c_assert (bool_decide (n = None) && bool_decide (p = None));
  if count h =? 0 then
    _ ← c_assert (bool_decide (latest h = None));
    Some (set_count (set_soonest (set_latest h (Some ph)) (Some ph)) 1)
  else
    d ← cells h !! ph;
    s ← soonest h;
    ds ← cells h !! s;
    h ← (if ph_expiration d <=? ph_expiration ds then
           h ← set_next h ph (Some s);
           h ← set_prev h s (Some ph);
           Some (set_soonest h (Some ph))
         else
           last ← latest h;
           q ← back_loop (walk_fuel h) h (ph_expiration d) last;
           h ← set_prev h ph (Some q);
           qn ← nexts h !! q;
           h ← set_next h ph qn;
           h ← (match qn with Some qn => set_prev h qn (Some ph) | None => Some h end);
           h ← set_next h q (Some ph);
           Some (if bool_decide (latest h = Some q) then set_latest h (Some ph) else h));
    Some (set_count h (u32 (count h + 1))).

Definition UnlinkPub (h : DPS_History) (ph : ptr) : option DPS_History :=
  p ← prevs h !! ph;
  n ← nexts h !! ph;
  h ← (match p with
       | Some p => set_next h p n
       | None => _ ← c_assert (bool_decide (soonest h = Some ph)); Some (set_soonest h n)
       end);
  h ← (match n with
       | Some n => set_prev h n p
       | None => _ ← c_assert (bool_decide (latest h = Some ph)); Some (set_latest h p)
       end);
  h ← set_next h ph None;
  h ← set_prev h ph None;
  Some (set_count h (u32 (count h - 1))).

(** ** The operations *)

Definition DPS_DeletePubHistory (h : DPS_History) (pubId : DPS_UUID) : option (DPS_Status * DPS_History) :=
  ph ← Find h pubId;
  match ph with
  | None => Some (DPS_ERR_MISSING, h)
  | Some ph =>
      d ← cells h !! ph;
      _ ← c_assert (bool_decide (ph_id d = pubId));
      h ← UnlinkPub h ph;
      h ← Remove 2 h ph;
      h ← FreePubHistory h ph;
      Some (DPS_OK, h)
  end.

Fixpoint freshen_loop (fuel : nat) (h : DPS_History) (now : Z) : option DPS_History :=
  match soonest h with
  | None => Some h
  | Some ph =>
      p ← prevs h !! ph;
      _ ← c_assert (bool_decide (p = None));
      d ← cells h !! ph;
      if now >=? ph_expiration d then
        match fuel with
        | O => None
        | S fuel =>
            h ← UnlinkPub h ph;
            h ← Remove 2 h ph;
            h ← FreePubHistory h ph;
            freshen_loop fuel h now
        end
      else Some h
  end.

Definition DPS_FreshenHistory (h : DPS_History) (now : Z) : option DPS_History :=
  if count h >? HISTORY_THRESHOLD then freshen_loop (walk_fuel h) h now else Some h.

(** The walk along [ph->addrs]: the first element with the address gets the new
    sequence number and hop count; when there is none, a new one is appended if
    [calloc] succeeds. *)
Fixpoint update_addrs (calloc : bool) (addrs : list NodeAddr) (addr : DPS_NodeAddress)
    (sequenceNum hopCount : Z) : option (list NodeAddr) :=
  match addrs with
  | [] =>
      Some (if calloc then [mkNA (Z.max 0 sequenceNum) (Z.min hopCount hopCount) addr] else [])
  | na :: addrs =>
      same ← DPS_SameAddr (na_addr na) addr;
      if same : bool
      then Some (mkNA (Z.max (na_sn na) sequenceNum) (Z.min (na_hopCount na) hopCount) (na_addr na) :: addrs)
      else addrs ← update_addrs calloc addrs addr sequenceNum hopCount; Some (na :: addrs)
  end.

(** [alloc1] is the cell that the first [calloc] returned, or [None]. *)
Definition DPS_UpdatePubHistory (now : Z) (alloc1 : option ptr) (alloc2 : bool) (h : DPS_History)
    (pubId : DPS_UUID) (sequenceNum ackRequested ttl hopCount : Z) (addr : DPS_NodeAddress)
  : option (DPS_Status * DPS_History) :=
  match alloc1 with
  | None => Some (DPS_ERR_RESOURCES, h)
  | Some phNew =>
      let h := calloc_cell h phNew pubId in
      '(ph, h) ← Insert h phNew;
      h ← (if negb (bool_decide (ph = phNew)) then h ← FreePubHistory h phNew; UnlinkPub h ph
           else Some h);
      d ← cells h !! ph;
      addrs ← (if negb (type_code (addr_type addr) =? 0)
               then update_addrs alloc2 (ph_addrs d) addr sequenceNum hopCount
               else Some (ph_addrs d));
      h ← set_cell h ph (mkPH (ph_id d) (Z.max (ph_sn d) sequenceNum) ackRequested addrs
                             (u64 (now + DPS_SECS_TO_MS ttl + PUB_HISTORY_LIFETIME)));
      h ← LinkPub h ph;
      Some (DPS_OK, h)
  end.

Definition DPS_PublicationIsStale (h : DPS_History) (pubId : DPS_UUID) (sequenceNum : Z) : option bool :=
  ph ← Find h pubId;
  match ph with
  | Some ph => d ← cells h !! ph; Some (sequenceNum <=? ph_sn d)
  | None => Some false
  end.

(** [free_list]: the walk from [soonest] that frees every record. *)
Fixpoint free_loop (fuel : nat) (h : DPS_History) (ph : option ptr) : option DPS_History :=
  match ph with
  | None => Some h
  | Some p =>
      match fuel with
      | O => None
      | S fuel => next ← nexts h !! p; h ← FreePubHistory h p; free_loop fuel h next
      end
  end.

Definition DPS_HistoryFree (h : DPS_History) : option DPS_History :=
  h' ← free_loop (walk_fuel h) h (soonest h);
  Some (set_count (set_soonest (set_latest h' None) None) 0).

(** [for (na = ph->addrs->next; ...)]: [hopCount] is that of the first address and
    is not updated. *)
Definition shorter_addr (hopCount : Z) (first : DPS_NodeAddress) (rest : list NodeAddr) : DPS_NodeAddress :=
  foldl (fun addr na => if na_hopCount na <? hopCount then na_addr na else addr) first rest.

(** Results: the status, [*sequenceNum] and [*addr] (a copy for the pointer). *)
Definition DPS_LookupPublisherForAck (h : DPS_History) (pubId : DPS_UUID)
  : option (DPS_Status * Z * option DPS_NodeAddress) :=
  ph ← Find h pubId;
  d ← (match ph with Some ph => d ← cells h !! ph; Some (Some d) | None => Some None end);
  match d with
  | Some (mkPH _ sn ack (na :: addrs) _) =>
      if negb (ack =? 0)
      then Some (DPS_OK, sn, Some (shorter_addr (na_hopCount na) (na_addr na) addrs))
      else Some (DPS_ERR_MISSING, 0, None)
  | _ => Some (DPS_ERR_MISSING, 0, None)
  end.

(** [for (phAddr = ph->addrs; ...)] *)
Fixpoint received_from (addrs : list NodeAddr) (sequenceNum : Z) (destination : DPS_NodeAddress)
  : option bool :=
  match addrs with
  | [] => Some false
  | na :: addrs =>
      same ← (if sequenceNum <=? na_sn na then DPS_SameAddr (na_addr na) destination else Some false);
      if same : bool then Some true else received_from addrs sequenceNum destination
  end.

Definition DPS_PublicationReceivedFrom (h : DPS_History) (pubId : DPS_UUID) (sequenceNum : Z)
    (source destination : DPS_NodeAddress) : option bool :=
  same ← DPS_SameAddr source destination;
  if same : bool then Some true
  else
    ph ← Find h pubId;
    match ph with
    | Some ph => d ← cells h !! ph; received_from (ph_addrs d) sequenceNum destination
    | None => Some false
    end.
