(* ===== verification/HistTree.v ===== *)
(** * Trees of cells with parent pointers

    The shape of the search tree of [src/history.c] in the heap, contexts with a
    hole, and what inserting a leaf and removing a node do to it. *)
From S2P Require Import Prelude Status Buffer Uuid History.
From stdpp Require Import gmap sorting.
#[local] Open Scope Z_scope.

Inductive tree := Leaf | Node (l : tree) (p : ptr) (r : tree).

Fixpoint inorder (t : tree) : list ptr :=
  match t with Leaf => [] | Node l p r => inorder l ++ p :: inorder r end.

Definition tree_ptr (t : tree) : option ptr := match t with Leaf => None | Node _ p _ => Some p end.

(** The links of a heap. *)
Record links := mkLinks { lk_l : gmap ptr (option ptr); lk_r : gmap ptr (option ptr); lk_p : gmap ptr (option ptr) }.

Definition h_links (h : DPS_History) : links := mkLinks (lefts h) (rights h) (parents h).

(** [t] is in the heap under the pointer [tree_ptr t], with parent [par]. *)
Fixpoint tree_rep (k : links) (par : option ptr) (t : tree) : Prop :=
  match t with
  | Leaf => True
  | Node l p r =>
      lk_p k !! p = Some par /\ lk_l k !! p = Some (tree_ptr l) /\ lk_r k !! p = Some (tree_ptr r) /\
      tree_rep k (Some p) l /\ tree_rep k (Some p) r
  end.

(** A tree with a hole: from the hole up to the root. *)
Inductive frame := FrameL (p : ptr) (r : tree) | FrameR (l : tree) (p : ptr).

Fixpoint fill (c : list frame) (t : tree) : tree :=
  match c with
  | [] => t
  | FrameL p r :: c => fill c (Node t p r)
  | FrameR l p :: c => fill c (Node l p t)
  end.

Definition ctx_parent (c : list frame) : option ptr :=
  match c with [] => None | FrameL p _ :: _ | FrameR _ p :: _ => Some p end.

(** [hole] is the pointer in the hole, [top] the pointer to the root. *)
Fixpoint ctx_rep (k : links) (c : list frame) (top hole : option ptr) : Prop :=
  match c with
  | [] => top = hole
  | FrameL p r :: c =>
      lk_p k !! p = Some (ctx_parent c) /\ lk_l k !! p = Some hole /\ lk_r k !! p = Some (tree_ptr r) /\
      tree_rep k (Some p) r /\ ctx_rep k c top (Some p)
  | FrameR l p :: c =>
      lk_p k !! p = Some (ctx_parent c) /\ lk_r k !! p = Some hole /\ lk_l k !! p = Some (tree_ptr l) /\
      tree_rep k (Some p) l /\ ctx_rep k c top (Some p)
  end.

Fixpoint ctx_ptrs (c : list frame) : list ptr :=
  match c with
  | [] => []
  | FrameL p r :: c => p :: inorder r ++ ctx_ptrs c
  | FrameR l p :: c => p :: inorder l ++ ctx_ptrs c
  end.

Lemma fill_rep k c t :
  tree_rep k None (fill c t) -> ctx_rep k c (tree_ptr (fill c t)) (tree_ptr t) /\ tree_rep k (ctx_parent c) t.
Proof.
  revert t. induction c as [|[p r|l p] c IH]; intros t H; cbn [fill] in *; [done| |];
    destruct (IH _ H) as [Hc (H1 & H2 & H3 & H4 & H5)]; cbn; done.
Qed.

Lemma fill_rep_iff k c t top :
  ctx_rep k c top (tree_ptr t) -> tree_rep k (ctx_parent c) t ->
  tree_rep k None (fill c t) /\ top = tree_ptr (fill c t).
Proof.
  revert t. induction c as [|[p r|l p] c IH]; intros t Hc Ht; cbn in *; [done| |];
    destruct Hc as (H1 & H2 & H3 & H4 & H5); by apply IH.
Qed.

Lemma fill_ptrs c t : inorder (fill c t) ≡ₚ ctx_ptrs c ++ inorder t.
Proof.
  revert t. induction c as [|[p r|l p] c IH]; intros t; cbn; [done| |]; rewrite IH; cbn; solve_Permutation.
Qed.

Lemma fill_app c1 c2 t : fill (c1 ++ c2) t = fill c2 (fill c1 t).
Proof. revert t. induction c1 as [|[p r|l p] c1 IH]; intros t; cbn; auto. Qed.

(** The order of the pointers around the hole. *)
Fixpoint ctx_before (c : list frame) : list ptr :=
  match c with [] => [] | FrameL _ _ :: c => ctx_before c | FrameR l p :: c => ctx_before c ++ inorder l ++ [p] end.
Fixpoint ctx_after (c : list frame) : list ptr :=
  match c with [] => [] | FrameL p r :: c => p :: inorder r ++ ctx_after c | FrameR _ _ :: c => ctx_after c end.

Lemma ctx_before_app c1 c2 : ctx_before (c1 ++ c2) = ctx_before c2 ++ ctx_before c1.
Proof.
  induction c1 as [|[p r|l p] c1 IH]; cbn; [by rewrite app_nil_r|exact IH|]. by rewrite IH, <- app_assoc.
Qed.

Lemma ctx_after_app c1 c2 : ctx_after (c1 ++ c2) = ctx_after c1 ++ ctx_after c2.
Proof.
  induction c1 as [|[p r|l p] c1 IH]; cbn; [done| |exact IH]. rewrite IH. by rewrite <- app_assoc.
Qed.

Lemma fill_inorder c t : inorder (fill c t) = ctx_before c ++ inorder t ++ ctx_after c.
Proof.
  revert t. induction c as [|[p r|l p] c IH]; intros t; cbn; [by rewrite app_nil_r| |]; rewrite IH; cbn;
    rewrite <- ?app_assoc; cbn; rewrite <- ?app_assoc; done.
Qed.

Lemma in_tree_ctx t p : p ∈ inorder t -> exists c l r, t = fill c (Node l p r).
Proof.
  induction t as [|l IHl q r IHr]; cbn; [by intros ?%elem_of_nil|].
  intros [H|[->|H]%elem_of_cons]%elem_of_app.
  - destruct (IHl H) as (c & l' & r' & ->). exists (c ++ [FrameL q r]), l', r'. by rewrite fill_app.
  - by exists [], l, r.
  - destruct (IHr H) as (c & l' & r' & ->). exists (c ++ [FrameR l q]), l', r'. by rewrite fill_app.
Qed.

(** ** Changes of the heap outside a tree *)

Definition links_agree (k1 k2 : links) (p : ptr) : Prop :=
  lk_l k1 !! p = lk_l k2 !! p /\ lk_r k1 !! p = lk_r k2 !! p /\ lk_p k1 !! p = lk_p k2 !! p.

Lemma tree_rep_ext k1 k2 par t :
  (forall p, p ∈ inorder t -> links_agree k1 k2 p) -> tree_rep k1 par t -> tree_rep k2 par t.
Proof.
  revert par. induction t as [|l IHl p r IHr]; intros par Ha H; [done|]. cbn in *.
  destruct H as (H1 & H2 & H3 & H4 & H5).
  destruct (Ha p) as (A1 & A2 & A3); [apply elem_of_app; right; by left|].
  rewrite <- A1, <- A2, <- A3. split_and!; try done.
  - apply IHl; [|done]. intros q Hq. apply Ha, elem_of_app. by left.
  - apply IHr; [|done]. intros q Hq. apply Ha, elem_of_app. right. by right.
Qed.

Lemma ctx_rep_ext k1 k2 c top hole :
  (forall p, p ∈ ctx_ptrs c -> links_agree k1 k2 p) -> ctx_rep k1 c top hole -> ctx_rep k2 c top hole.
Proof.
  revert hole. induction c as [|[p r|l p] c IH]; intros hole Ha H; cbn in *; [done| |];
    destruct H as (H1 & H2 & H3 & H4 & H5);
    destruct (Ha p) as (A1 & A2 & A3); [by left| |by left|]; rewrite <- A1, <- A2, <- A3;
    (split_and!; [done|done|done| |]).
  all: try (apply (tree_rep_ext k1); [|done]; intros q Hq; apply Ha; right; apply elem_of_app; by left).
  all: apply IH; [|done]; intros q Hq; apply Ha; right; apply elem_of_app; by right.
Qed.

(** What is in the hole may be replaced by changing the one pointer to it. *)
Definition set_hole (k : links) (c : list frame) (v : option ptr) : links :=
  match c with
  | [] => k
  | FrameL p _ :: _ => mkLinks (<[p := v]> (lk_l k)) (lk_r k) (lk_p k)
  | FrameR _ p :: _ => mkLinks (lk_l k) (<[p := v]> (lk_r k)) (lk_p k)
  end.
Definition set_top (c : list frame) (top v : option ptr) : option ptr :=
  match c with [] => v | _ => top end.

Lemma set_hole_agree k c v p : Some p <> ctx_parent c -> links_agree k (set_hole k c v) p.
Proof.
  intros Hp. destruct c as [|[q r|l q] c]; cbn in *; unfold links_agree; cbn; [done| |];
    rewrite lookup_insert_ne by congruence; done.
Qed.

Lemma ctx_set_hole k c top hole v :
  NoDup (ctx_ptrs c) -> ctx_rep k c top hole -> ctx_rep (set_hole k c v) c (set_top c top v) v.
Proof.
  intros Hnd H. destruct c as [|[p r|l p] c]; cbn in *; [done| |].
  all: destruct H as (H1 & H2 & H3 & H4 & H5); apply NoDup_cons in Hnd as [Hp Hnd].
  all: rewrite lookup_insert_eq; split_and!; [done|done|done| |].
  all: first [apply (tree_rep_ext k)|apply (ctx_rep_ext k)]; [|done].
  all: intros q Hq; unfold links_agree; cbn; rewrite lookup_insert_ne; [done|].
  all: intros ->; apply Hp, elem_of_app; auto.
Qed.

(** ** The search *)

Section search.
Context (h : DPS_History).

Definition key (p : ptr) : DPS_UUID := from_option ph_id (mkUUID 0 0) (cells h !! p).

Definition key_lt (p q : ptr) : Prop := uuid_lt (key p) (key q).

(** The pointers are in order and have cells. *)
Definition ordered (l : list ptr) : Prop := StronglySorted key_lt l.
Definition celled (l : list ptr) : Prop := Forall (fun p => is_Some (cells h !! p)) l.

Lemma cell_key p d : cells h !! p = Some d -> ph_id d = key p.
Proof. unfold key. by intros ->. Qed.

Lemma ordered_app l1 l2 :
  ordered (l1 ++ l2) <-> (forall p q, p ∈ l1 -> q ∈ l2 -> key_lt p q) /\ ordered l1 /\ ordered l2.
Proof. apply StronglySorted_app. Qed.

Lemma ordered_cons p l : ordered (p :: l) <-> (forall q, q ∈ l -> key_lt p q) /\ ordered l.
Proof.
  unfold ordered. split.
  - intros H. apply StronglySorted_inv in H as [H1 H2]. split; [|done]. intros q. by apply Forall_forall.
  - intros [H1 H2]. constructor; [done|]. apply Forall_forall. auto.
Qed.

Lemma ordered_node l p r :
  ordered (l ++ p :: r) <->
  (forall q, q ∈ l -> key_lt q p) /\ (forall q, q ∈ r -> key_lt p q) /\
  (forall q q', q ∈ l -> q' ∈ r -> key_lt q q') /\ ordered l /\ ordered r.
Proof.
  rewrite ordered_app, ordered_cons. split.
  - intros (H1 & H2 & H3 & H4). split_and!; try done; intros q; [|intros q']; intros; apply H1; try done; by constructor.
  - intros (H1 & H2 & H3 & H4 & H5). split_and!; try done. intros q q' Hq [->|Hq']%elem_of_cons; auto.
Qed.

(** Where the walk goes. *)
Lemma ordered_sides l p r u :
  ordered (l ++ p :: r) ->
  (uuid_lt u (key p) -> forall q, q ∈ p :: r -> key q <> u) /\
  (uuid_lt (key p) u -> forall q, q ∈ l ++ [p] -> key q <> u).
Proof.
  intros (H1 & H2 & _)%ordered_node. split.
  - intros Hu q Hq <-. apply (irreflexivity uuid_lt (key q)).
    apply elem_of_cons in Hq as [->|Hq]; [done|]. etransitivity; [exact Hu|]. by apply H2.
  - intros Hu q Hq <-. apply (irreflexivity uuid_lt (key q)).
    apply elem_of_app in Hq as [Hq| ->%list_elem_of_singleton]; [|done]. etransitivity; [|exact Hu]. by apply H1.
Qed.

Lemma find_loop_spec fuel t par u :
  tree_rep (h_links h) par t -> ordered (inorder t) -> celled (inorder t) ->
  (length (inorder t) <= fuel)%nat ->
  exists o, find_loop fuel h u (tree_ptr t) = Some o /\
    match o with
    | Some p => p ∈ inorder t /\ key p = u
    | None => forall q, q ∈ inorder t -> key q <> u
    end.
Proof.
  revert t par. induction fuel as [|fuel IH]; intros [|l p r] par Hr Ho Hc Hf; cbn [tree_ptr find_loop].
  1, 3: exists None; split; [done|]; intros q ?%elem_of_nil; done.
  { cbn in Hf. rewrite length_app in Hf. cbn in Hf. lia. }
  cbn [inorder] in *. cbn in Hr. destruct Hr as (H1 & H2 & H3 & H4 & H5).
  pose proof (ordered_sides _ _ _ u Ho) as [Hlt Hgt].
  apply Forall_app in Hc as [Hcl [[d Hd] Hcr]%Forall_cons_iff].
  apply ordered_node in Ho as (O1 & O2 & O3 & O4 & O5).
  rewrite length_app in Hf. cbn in Hf. rewrite Hd. cbn [mbind option_bind].
  rewrite (cell_key _ _ Hd).
  destruct (UUIDCompare_cases u (key p)) as [[-> ->]|[(-> & -> & Hu)|(-> & -> & Hu)]]; cbn.
  - exists (Some p). split; [done|]. split; [|done]. apply elem_of_app. right. by left.
  - rewrite H2. destruct (IH l (Some p)) as (o & E & Ho); try done; [lia|]. exists o. split; [exact E|].
    destruct o as [q|].
    + split; [|apply Ho]. apply elem_of_app. left. apply Ho.
    + intros q [Hq|Hq]%elem_of_app; [by apply Ho|by apply Hlt].
  - rewrite H3. destruct (IH r (Some p)) as (o & E & Ho); try done; [lia|]. exists o. split; [exact E|].
    destruct o as [q|].
    + split; [|apply Ho]. apply elem_of_app. right. right. apply Ho.
    + intros q [Hq|[->|Hq]%elem_of_cons]%elem_of_app; [apply Hgt; [done|]; apply elem_of_app; by left| |by apply Ho].
      apply Hgt; [done|]. apply elem_of_app. right. by left.
Qed.

(** The walk of [Insert] ends at an equal key, or at the leaf where the key
    belongs. *)
Definition cmp_frame (cmp : Z) (c : list frame) : Prop :=
  match c with [] => True | FrameL _ _ :: _ => (cmp <? 0) = true | FrameR _ _ :: _ => (cmp <? 0) = false end.

Lemma insert_loop_spec fuel t c u cmp :
  tree_rep (h_links h) (ctx_parent c) t -> ordered (inorder t) -> celled (inorder t) ->
  (length (inorder t) <= fuel)%nat -> cmp_frame cmp c ->
  exists o par cmp', insert_loop fuel h u (tree_ptr t) (ctx_parent c) cmp = Some (o, par, cmp') /\
    match o with
    | Some p => p ∈ inorder t /\ key p = u
    | None => exists c', fill c t = fill (c' ++ c) Leaf /\ t = fill c' Leaf /\ par = ctx_parent (c' ++ c) /\
        cmp_frame cmp' (c' ++ c) /\
        (forall q, q ∈ ctx_before c' -> uuid_lt (key q) u) /\ (forall q, q ∈ ctx_after c' -> uuid_lt u (key q))
    end.
Proof.
  revert t c cmp. induction fuel as [|fuel IH]; intros [|l p r] c cmp Hr Ho Hc Hf Hcmp; cbn [tree_ptr insert_loop].
  1, 3: exists None, (ctx_parent c), cmp; split; [done|]; exists []; cbn; split_and!; try done;
      by intros q ?%elem_of_nil.
  { cbn in Hf. rewrite length_app in Hf. cbn in Hf. lia. }
  cbn [inorder] in *. cbn in Hr. destruct Hr as (H1 & H2 & H3 & H4 & H5).
  apply Forall_app in Hc as [Hcl [[d Hd] Hcr]%Forall_cons_iff].
  apply ordered_node in Ho as (O1 & O2 & O3 & O4 & O5).
  rewrite length_app in Hf. cbn in Hf. rewrite Hd. cbn [mbind option_bind].
  rewrite (cell_key _ _ Hd).
  destruct (UUIDCompare_cases u (key p)) as [[-> ->]|[(-> & Ec & Hu)|(-> & Ec & Hu)]].
  - exists (Some p), (ctx_parent c), 0. split; [done|]. split; [|done]. apply elem_of_app. right. by left.
  - rewrite Ec, H2.
    destruct (IH l (FrameL p r :: c) (DPS_UUIDCompare u (key p))) as (o & par & cmp' & E & Hres);
      [done|done|done|lia|done|].
    exists o, par, cmp'. split; [exact E|]. destruct o as [q|].
    { split; [|apply Hres]. apply elem_of_app. left. apply Hres. }
    destruct Hres as (c' & E1 & -> & -> & Hcf & Hb & Ha). exists (c' ++ [FrameL p r]).
    rewrite <- app_assoc, !fill_app, ctx_before_app, ctx_after_app. cbn.
    split_and!; try done. intros q [Hq|[->|Hq]%elem_of_cons]%elem_of_app; [by apply Ha|done|].
    rewrite app_nil_r in Hq. etransitivity; [exact Hu|]. by apply O2.
  - rewrite Ec, H3.
    destruct (IH r (FrameR l p :: c) (DPS_UUIDCompare u (key p))) as (o & par & cmp' & E & Hres);
      [done|done|done|lia|done|].
    exists o, par, cmp'. split; [exact E|]. destruct o as [q|].
    { split; [|apply Hres]. apply elem_of_app. right. right. apply Hres. }
    destruct Hres as (c' & E1 & -> & -> & Hcf & Hb & Ha). exists (c' ++ [FrameR l p]).
    rewrite <- app_assoc, !fill_app, ctx_before_app, ctx_after_app. cbn. rewrite app_nil_r.
    split_and!; try done. intros q [[Hq|Hq%list_elem_of_singleton]%elem_of_app|Hq]%elem_of_app; [|by subst|by apply Hb].
    etransitivity; [|exact Hu]. by apply O1.
Qed.
End search.
