(* ===== verification/HistRemove.v ===== *)
(** * Changing the tree

    What attaching a leaf, [remove_fixup] and [Remove] do to the links; insertion. *)
From S2P Require Import Prelude Status Buffer Uuid History HistTree.
From stdpp Require Import gmap sorting.
#[local] Open Scope Z_scope.
#[local] Set Warnings "-clear-no-such-hyp".

(** A heap with other links and another root. *)
Definition with_tree (h : DPS_History) (k : links) (r : option ptr) : DPS_History :=
  mkHistory (cells h) (lk_l k) (lk_r k) (lk_p k) (prevs h) (nexts h) r (latest h) (soonest h) (count h).

Lemma with_tree_id h : with_tree h (h_links h) (root h) = h.
Proof. by destruct h. Qed.

Definition upd_l (k : links) p v := mkLinks (<[p := v]> (lk_l k)) (lk_r k) (lk_p k).
Definition upd_r (k : links) p v := mkLinks (lk_l k) (<[p := v]> (lk_r k)) (lk_p k).
Definition upd_p (k : links) p v := mkLinks (lk_l k) (lk_r k) (<[p := v]> (lk_p k)).
Definition upd_p_opt (k : links) (p v : option ptr) := match p with Some p => upd_p k p v | None => k end.

Lemma store_some {V} (m : gmap ptr V) p v : is_Some (m !! p) -> store m p v = Some (<[p := v]> m).
Proof. intros [x E]. unfold store. by rewrite E. Qed.

Lemma set_left_tree h k r p v :
  is_Some (lk_l k !! p) -> set_left (with_tree h k r) p v = Some (with_tree h (upd_l k p v) r).
Proof. intros H. unfold set_left. cbn [with_tree lefts]. by rewrite store_some. Qed.
Lemma set_right_tree h k r p v :
  is_Some (lk_r k !! p) -> set_right (with_tree h k r) p v = Some (with_tree h (upd_r k p v) r).
Proof. intros H. unfold set_right. cbn [with_tree rights]. by rewrite store_some. Qed.
Lemma set_parent_tree h k r p v :
  is_Some (lk_p k !! p) -> set_parent (with_tree h k r) p v = Some (with_tree h (upd_p k p v) r).
Proof. intros H. unfold set_parent. cbn [with_tree parents]. by rewrite store_some. Qed.
Lemma set_parent_opt_tree h k r o v :
  (forall x, o = Some x -> is_Some (lk_p k !! x)) ->
  set_parent_opt (with_tree h k r) o v = Some (with_tree h (upd_p_opt k o v) r).
Proof. intros H. destruct o as [x|]; cbn; [|done]. by rewrite set_parent_tree; [|apply H]. Qed.

Lemma tree_ptr_parent k par t x : tree_rep k par t -> tree_ptr t = Some x -> is_Some (lk_p k !! x).
Proof. destruct t as [|l p r]; cbn; [done|]. intros (H & _) [= ->]. eauto. Qed.

(** Nothing that has links loses them. *)
Definition links_keep (k1 k2 : links) : Prop :=
  forall p, (is_Some (lk_l k1 !! p) -> is_Some (lk_l k2 !! p)) /\
            (is_Some (lk_r k1 !! p) -> is_Some (lk_r k2 !! p)) /\
            (is_Some (lk_p k1 !! p) -> is_Some (lk_p k2 !! p)).

#[export] Instance links_keep_refl : Reflexive links_keep.
Proof. by intros k p. Qed.
#[export] Instance links_keep_trans : Transitive links_keep.
Proof. intros k1 k2 k3 H1 H2 p. destruct (H1 p) as (? & ? & ?), (H2 p) as (? & ? & ?). auto. Qed.

Lemma insert_keep {V} (m : gmap ptr V) p v q : is_Some (m !! q) -> is_Some (<[p := v]> m !! q).
Proof. intros H. rewrite lookup_insert_is_Some. destruct (decide (p = q)); auto. Qed.

Lemma upd_keep k p v : links_keep k (upd_l k p v) /\ links_keep k (upd_r k p v) /\ links_keep k (upd_p k p v).
Proof. unfold links_keep, upd_l, upd_r, upd_p. cbn. split_and!; intros q; split_and!; auto using insert_keep. Qed.
Lemma upd_p_opt_keep k p v : links_keep k (upd_p_opt k p v).
Proof. destruct p; cbn; [apply upd_keep|reflexivity]. Qed.
Lemma set_hole_keep k c v : links_keep k (set_hole k c v).
Proof. destruct c as [|[] c]; cbn; [reflexivity| |]; apply (upd_keep k). Qed.

(** A tree under another parent. *)
Lemma reparent k par t v :
  tree_rep k par t -> NoDup (inorder t) -> tree_rep (upd_p_opt k (tree_ptr t) v) v t.
Proof.
  destruct t as [|l p r]; cbn; [done|]. intros (H1 & H2 & H3 & H4 & H5) (Hl & Hlr & Hr)%NoDup_app.
  apply NoDup_cons in Hr as [Hp Hr]. rewrite lookup_insert_eq. split_and!; try done.
  all: apply (tree_rep_ext k); [|done]; intros q Hq; unfold links_agree; cbn; rewrite lookup_insert_ne; [done|].
  - intros ->. apply (Hlr q Hq). by left.
  - by intros ->.
Qed.

Lemma upd_p_opt_agree k o v q : o <> Some q -> links_agree k (upd_p_opt k o v) q.
Proof.
  intros H. destruct o as [p|]; unfold links_agree; cbn; [|done]. rewrite lookup_insert_ne by congruence. done.
Qed.

Lemma tree_ptr_in t p : tree_ptr t = Some p -> p ∈ inorder t.
Proof. destruct t as [|l q r]; cbn; [done|]. intros [= ->]. apply elem_of_app. right. by left. Qed.

Lemma ctx_parent_in c p : ctx_parent c = Some p -> p ∈ ctx_ptrs c.
Proof. destruct c as [|[q r|l q] c]; cbn; [done| |]; intros [= ->]; by left. Qed.

(** The new contents of the hole, and the pointer to it. *)
Lemma plug k c r hole s par :
  ctx_rep k c r hole -> tree_rep k par s -> NoDup (ctx_ptrs c ++ inorder s) ->
  let k' := set_hole (upd_p_opt k (tree_ptr s) (ctx_parent c)) c (tree_ptr s) in
  tree_rep k' None (fill c s) /\ set_top c r (tree_ptr s) = tree_ptr (fill c s) /\ links_keep k k'.
Proof.
  intros Hc Hs (Nc & Ncs & Ns)%NoDup_app k'.
  assert (Hc' : ctx_rep (upd_p_opt k (tree_ptr s) (ctx_parent c)) c r hole).
  { apply (ctx_rep_ext k); [|done]. intros q Hq. apply upd_p_opt_agree. intros E%tree_ptr_in. by apply (Ncs q). }
  apply (ctx_set_hole _ _ _ _ (tree_ptr s)) in Hc'; [|done]. fold k' in Hc'.
  destruct (fill_rep_iff k' c s _ Hc') as [H1 H2].
  - apply (tree_rep_ext (upd_p_opt k (tree_ptr s) (ctx_parent c))).
    + intros q Hq. apply set_hole_agree. intros E. symmetry in E. apply ctx_parent_in in E. by apply (Ncs q).
    + by apply (reparent _ par).
  - split_and!; try done. etransitivity; [apply upd_p_opt_keep|apply set_hole_keep].
Qed.

Lemma remove_fixup_spec h k r c p s par :
  lk_p k !! p = Some (ctx_parent c) -> ctx_rep k c r (Some p) -> tree_rep k par s ->
  NoDup (p :: ctx_ptrs c ++ inorder s) ->
  exists k', remove_fixup (with_tree h k r) p (tree_ptr s) = Some (with_tree h k' (tree_ptr (fill c s))) /\
    tree_rep k' None (fill c s) /\ links_keep k k'.
Proof.
  intros Hp Hc Hs [Np N]%NoDup_cons.
  pose proof (plug k c r (Some p) s par Hc Hs N) as (P1 & P2 & P3). rewrite <- P2.
  eexists. split; [|split; [exact P1|exact P3]].
  unfold remove_fixup. cbn [with_tree parents]. rewrite Hp. cbn [mbind option_bind].
  change (mkHistory _ _ _ _ _ _ _ _ _ _) with (with_tree h k r).
  rewrite set_parent_opt_tree by (intros x; by apply (tree_ptr_parent k par)). cbn [mbind option_bind].
  destruct c as [|[u rt|lt u] c]; cbn [ctx_parent set_top set_hole] in *; [done| |]; cbn in Hc;
    destruct Hc as (H1 & H2 & H3 & H4 & H5); cbn [with_tree lefts].
  - replace (lk_l (upd_p_opt k (tree_ptr s) (Some u)) !! u) with (lk_l k !! u) by by destruct (tree_ptr s).
    rewrite H2. cbn [mbind option_bind]. rewrite bool_decide_true by done.
    change (mkHistory _ _ _ _ _ _ _ _ _ _) with (with_tree h (upd_p_opt k (tree_ptr s) (Some u)) r).
    rewrite set_left_tree; [done|]. destruct (tree_ptr s); cbn; by rewrite H2.
  - replace (lk_l (upd_p_opt k (tree_ptr s) (Some u)) !! u) with (lk_l k !! u) by by destruct (tree_ptr s).
    rewrite H3. cbn [mbind option_bind]. rewrite bool_decide_false.
    2: { intros [= E%tree_ptr_in]. apply Np. cbn. apply elem_of_cons. right.
         apply elem_of_app. left. apply elem_of_app. by left. }
    change (mkHistory _ _ _ _ _ _ _ _ _ _) with (with_tree h (upd_p_opt k (tree_ptr s) (Some u)) r).
    rewrite set_right_tree; [done|]. destruct (tree_ptr s); cbn; by rewrite H2.
Qed.

(** ** Removing a node *)

Section remove.
Context (h : DPS_History).

(** The result of taking [p] out of [t]. *)
Definition removed (k : links) (p : ptr) (t : tree) (res : option DPS_History) : Prop :=
  exists k' t', res = Some (with_tree h k' (tree_ptr t')) /\ tree_rep k' None t' /\ links_keep k k' /\
    exists a b, inorder t = a ++ p :: b /\ inorder t' = a ++ b.

Lemma NoDup_hole c l p r :
  NoDup (inorder (fill c (Node l p r))) ->
  NoDup (p :: ctx_ptrs c ++ inorder l) /\ NoDup (p :: ctx_ptrs c ++ inorder r).
Proof.
  rewrite (fill_ptrs c). cbn. rewrite !NoDup_app, !NoDup_cons, !NoDup_app. intros. split; set_solver.
Qed.

(** A node with one child at most. *)
Lemma Remove_simple depth k c l p r :
  tree_rep k None (fill c (Node l p r)) -> NoDup (inorder (fill c (Node l p r))) -> l = Leaf \/ r = Leaf ->
  exists k', let s := match l with Leaf => r | _ => l end in
    Remove (S depth) (with_tree h k (tree_ptr (fill c (Node l p r)))) p =
      Some (with_tree h k' (tree_ptr (fill c s))) /\
    tree_rep k' None (fill c s) /\ links_keep k k'.
Proof.
  intros Ht Hn Hlr. destruct (NoDup_hole _ _ _ _ Hn) as [N1 N2]. apply fill_rep in Ht as [Hc Ht].
  cbn [tree_rep tree_ptr] in *. destruct Ht as (H1 & H2 & H3 & H4 & H5).
  set (s := match l with Leaf => r | _ => l end).
  destruct (remove_fixup_spec h k (tree_ptr (fill c (Node l p r))) c p s (Some p)) as (k' & E & Hk);
    [done|done|by destruct l|by destruct l|].
  exists k'. cbn zeta. fold s. split; [|exact Hk]. rewrite <- E. cbn [Remove with_tree lefts rights].
  rewrite H2, H3. cbn [mbind option_bind]. destruct Hlr as [-> | ->]; [done|]. by destruct l.
Qed.

(** The replacement: the last node of the left subtree, or the first of the
    right one. *)
Lemma last_right_spec fuel k l p r par :
  tree_rep k par (Node l p r) -> (length (inorder r) <= fuel)%nat ->
  exists d ll q, last_loop fuel (lk_r k) p = Some q /\ Node l p r = fill d (Node ll q Leaf) /\ ctx_after d = [].
Proof.
  revert l p r par. induction fuel as [|fuel IH]; intros l p r par (H1 & H2 & H3 & H4 & H5) Hf; cbn.
  all: rewrite H3; cbn [mbind option_bind]; destruct r as [|rl q rr]; cbn [tree_ptr];
    [exists [], l, p; done|].
  all: cbn in Hf; rewrite length_app in Hf; cbn in Hf; try lia.
  destruct (IH rl q rr (Some p)) as (d & ll & q' & E & Et & Ed); [done|lia|].
  exists (d ++ [FrameR l p]), ll, q'. rewrite fill_app, ctx_after_app, Ed, <- Et. done.
Qed.

Lemma last_left_spec fuel k l p r par :
  tree_rep k par (Node l p r) -> (length (inorder l) <= fuel)%nat ->
  exists d rr q, last_loop fuel (lk_l k) p = Some q /\ Node l p r = fill d (Node Leaf q rr) /\ ctx_before d = [].
Proof.
  revert l p r par. induction fuel as [|fuel IH]; intros l p r par (H1 & H2 & H3 & H4 & H5) Hf; cbn.
  all: rewrite H2; cbn [mbind option_bind]; destruct l as [|ll q lr]; cbn [tree_ptr];
    [exists [], r, p; done|].
  all: cbn in Hf; rewrite length_app in Hf; cbn in Hf; try lia.
  destruct (IH ll q lr (Some p)) as (d & rr & q' & E & Et & Ed); [done|lia|].
  exists (d ++ [FrameL p r]), rr, q'. rewrite fill_app, ctx_before_app, Ed, <- Et. done.
Qed.

(** The stores that put [q] in the place of [p], up to [remove_fixup]. *)
Definition spliced (k : links) (p q : ptr) (l r : tree) : links :=
  upd_p_opt (upd_p_opt (upd_r (upd_l k q (tree_ptr l)) q (tree_ptr r)) (tree_ptr l) (Some q)) (tree_ptr r) (Some q).

Lemma spliced_agree k p q l r x :
  x <> q -> tree_ptr l <> Some x -> tree_ptr r <> Some x -> links_agree k (spliced k p q l r) x.
Proof.
  intros Hx Hl Hr. unfold spliced.
  set (k1 := upd_r _ _ _). set (k2 := upd_p_opt k1 _ _).
  destruct (upd_p_opt_agree k1 (tree_ptr l) (Some q) x Hl) as (A1 & A2 & A3).
  destruct (upd_p_opt_agree k2 (tree_ptr r) (Some q) x Hr) as (B1 & B2 & B3).
  fold k2 in A1, A2, A3. unfold links_agree. rewrite <- B1, <- B2, <- B3, <- A1, <- A2, <- A3.
  cbn. rewrite !lookup_insert_ne by done. done.
Qed.

Lemma upd_p_opt_lr k o v : lk_l (upd_p_opt k o v) = lk_l k /\ lk_r (upd_p_opt k o v) = lk_r k.
Proof. by destruct o. Qed.

Lemma spliced_keep k p q l r : links_keep k (spliced k p q l r).
Proof.
  etransitivity; [|apply upd_p_opt_keep]. etransitivity; [|apply upd_p_opt_keep].
  etransitivity; [|apply upd_keep]. apply upd_keep.
Qed.

(** The two subtrees, under [q]. *)
Lemma spliced_children k p q l r :
  tree_rep k (Some p) l -> tree_rep k (Some p) r -> NoDup (q :: inorder l ++ inorder r) -> is_Some (lk_p k !! q) ->
  exists par, tree_rep (spliced k p q l r) par (Node l q r).
Proof.
  intros Hl Hr [Nq (Nl & Nlr & Nr)%NoDup_app]%NoDup_cons [par Hp]. rewrite not_elem_of_app in Nq.
  unfold spliced. set (k1 := upd_r _ _ _). set (k2 := upd_p_opt k1 _ _). set (k3 := upd_p_opt k2 _ _).
  assert (H1 : forall t, q ∉ inorder t -> tree_rep k (Some p) t -> tree_rep k1 (Some p) t).
  { intros t Ht. apply tree_rep_ext. intros x Hx. unfold links_agree. cbn.
    assert (q <> x) by set_solver. by rewrite !lookup_insert_ne. }
  assert (Hl2 : tree_rep k2 (Some q) l) by (apply (reparent _ (Some p)); [apply H1; tauto|done]).
  assert (Hr2 : tree_rep k2 (Some p) r).
  { apply (tree_rep_ext k1); [|apply H1; tauto]. intros x Hx. apply upd_p_opt_agree.
    intros E%tree_ptr_in. by apply (Nlr x). }
  destruct (spliced_keep k p q l r q) as (_ & _ & K3). destruct K3 as [par' Hpar]; [eauto|].
  exists par'. cbn [tree_rep]. split; [done|]. unfold k3, k2.
  rewrite !(proj1 (upd_p_opt_lr _ _ _)), !(proj2 (upd_p_opt_lr _ _ _)). cbn. rewrite !lookup_insert_eq.
  split; [done|]. split; [done|]. split; [|by apply (reparent _ (Some p))].
  apply (tree_rep_ext k2); [|done]. intros x Hx. apply upd_p_opt_agree. intros E%tree_ptr_in. by apply (Nlr x).
Qed.

Lemma spliced_rep k c p q l r :
  tree_rep k None (fill c (Node l p r)) -> NoDup (q :: inorder (fill c (Node l p r))) -> is_Some (lk_p k !! q) ->
  let k' := spliced k p q l r in
  lk_p k' !! p = Some (ctx_parent c) /\ ctx_rep k' c (tree_ptr (fill c (Node l p r))) (Some p) /\
  (exists par, tree_rep k' par (Node l q r)) /\ NoDup (p :: ctx_ptrs c ++ inorder (Node l q r)).
Proof.
  intros Ht [Nq N]%NoDup_cons Hp k'.
  rewrite (fill_ptrs c) in N, Nq. cbn in N, Nq. rewrite !NoDup_app, NoDup_cons in N.
  apply fill_rep in Ht as [Hc (H1 & H2 & H3 & H4 & H5)].
  assert (Ha : forall x, x ∈ p :: ctx_ptrs c -> links_agree k k' x).
  { intros x Hx. apply spliced_agree; [set_solver| |]; intros E%tree_ptr_in; set_solver. }
  split; [|split; [|split]].
  - destruct (Ha p) as (_ & _ & <-); [by left|done].
  - apply (ctx_rep_ext k); [|done]. intros x Hx. apply Ha. by right.
  - apply spliced_children; [done|done| |done]. rewrite NoDup_cons, NoDup_app. set_solver.
  - cbn. rewrite !NoDup_cons, !NoDup_app, NoDup_cons. set_solver.
Qed.

(** The rest of [Remove] after the recursive call, on a tree without [q]. *)
Definition remove_rest (h : DPS_History) (ph repl : ptr) : option DPS_History :=
  l ← lefts h !! ph;
  r ← rights h !! ph;
  h ← set_left h repl l;
  h ← set_right h repl r;
  h ← set_parent_opt h l (Some repl);
  h ← set_parent_opt h r (Some repl);
  remove_fixup h ph (Some repl).

Lemma remove_rest_spec k c p q l r :
  tree_rep k None (fill c (Node l p r)) -> NoDup (q :: inorder (fill c (Node l p r))) ->
  is_Some (lk_l k !! q) -> is_Some (lk_r k !! q) -> is_Some (lk_p k !! q) ->
  exists k', remove_rest (with_tree h k (tree_ptr (fill c (Node l p r)))) p q =
      Some (with_tree h k' (tree_ptr (fill c (Node l q r)))) /\
    tree_rep k' None (fill c (Node l q r)) /\ links_keep k k'.
Proof.
  intros Ht N Hql Hqr Hqp.
  destruct (spliced_rep k c p q l r Ht N Hqp) as (S1 & S2 & [par S3] & S4).
  destruct (remove_fixup_spec h (spliced k p q l r) (tree_ptr (fill c (Node l p r))) c p (Node l q r) par
              S1 S2 S3 S4) as (k' & E & Hk & K).
  exists k'. split; [|split; [exact Hk|]].
  - rewrite <- E. apply fill_rep in Ht as [_ (H1 & H2 & H3 & H4 & H5)].
    unfold remove_rest. cbn [with_tree lefts rights]. rewrite H2, H3. cbn [mbind option_bind].
    change (mkHistory _ _ _ _ _ _ _ _ _ _) with (with_tree h k (tree_ptr (fill c (Node l p r)))).
    rewrite set_left_tree by done. cbn [mbind option_bind]. rewrite set_right_tree by done. cbn [mbind option_bind].
    set (k1 := upd_r (upd_l k q (tree_ptr l)) q (tree_ptr r)).
    rewrite set_parent_opt_tree by (intros x; by apply (tree_ptr_parent k (Some p))). cbn [mbind option_bind].
    rewrite set_parent_opt_tree; [done|].
    intros x Hx. apply (upd_p_opt_keep k1 (tree_ptr l) (Some q) x). by apply (tree_ptr_parent k (Some p) r).
  - etransitivity; [|exact K]. apply spliced_keep.
Qed.

Lemma NoDup_swap d ql q qr s :
  NoDup (inorder (fill d (Node ql q qr))) -> ql = Leaf \/ qr = Leaf ->
  s = match ql with Leaf => qr | _ => ql end -> NoDup (q :: inorder (fill d s)).
Proof.
  intros H Hl ->. destruct (NoDup_hole _ _ _ _ H) as [H1 H2].
  rewrite (fill_ptrs d). destruct ql; [done|]. by destruct Hl as [| ->].
Qed.

(** The recursive call and what follows it. *)
Lemma Remove_step k c p l r l' r' q d ql qr :
  tree_rep k None (fill c (Node l p r)) -> NoDup (inorder (fill c (Node l p r))) ->
  fill c (Node l p r) = fill d (Node ql q qr) -> q <> p -> ql = Leaf \/ qr = Leaf ->
  fill d (match ql with Leaf => qr | _ => ql end) = fill c (Node l' p r') ->
  exists k', (h1 ← Remove 1 (with_tree h k (tree_ptr (fill c (Node l p r)))) q; remove_rest h1 p q) =
      Some (with_tree h k' (tree_ptr (fill c (Node l' q r')))) /\
    tree_rep k' None (fill c (Node l' q r')) /\ links_keep k k'.
Proof.
  intros Ht Hn Hd Hqp Hleaf Hd'. rewrite Hd in Ht, Hn |- *.
  assert (Hq : is_Some (lk_l k !! q) /\ is_Some (lk_r k !! q) /\ is_Some (lk_p k !! q)).
  { apply fill_rep in Ht as [_ (H1 & H2 & H3 & _)]. eauto. }
  destruct (Remove_simple 0 k d ql q qr Ht Hn Hleaf) as (k1 & E & Ht1 & K1). rewrite Hd' in E, Ht1.
  destruct (K1 q) as (Kl & Kr & Kp).
  destruct (remove_rest_spec k1 c p q l' r') as (k' & E' & Ht' & K'); [done| |tauto|tauto|tauto|].
  - rewrite <- Hd'. by apply (NoDup_swap d ql q qr _ Hn Hleaf).
  - exists k'. rewrite E. cbn [mbind option_bind]. split; [exact E'|]. split; [done|]. by etransitivity.
Qed.

Lemma Remove_unfold h1 p l r d :
  lefts h1 !! p = Some (Some l) -> rights h1 !! p = Some (Some r) -> cells h1 !! p = Some d ->
  Remove 2 h1 p =
    (repl ← (if id_lsb (ph_id d) then last_loop (walk_fuel h1) (rights h1) l
             else last_loop (walk_fuel h1) (lefts h1) r);
     h2 ← Remove 1 h1 repl; remove_rest h2 p repl).
Proof.
  intros Hl Hr Hd. unfold remove_rest. cbn [Remove]. rewrite Hl, Hr. cbn [mbind option_bind]. by rewrite Hd.
Qed.

(** The replacement comes from the left. *)
Lemma Remove_left k c p l r d ql q :
  tree_rep k None (fill c (Node l p r)) -> NoDup (inorder (fill c (Node l p r))) ->
  l = fill d (Node ql q Leaf) -> ctx_after d = [] ->
  removed k p (fill c (Node l p r))
    (h1 ← Remove 1 (with_tree h k (tree_ptr (fill c (Node l p r)))) q; remove_rest h1 p q).
Proof.
  intros Ht Hn Et Ed.
  destruct (Remove_step k c p l r (fill d ql) r q (d ++ FrameL p r :: c) ql Leaf) as (k' & E' & Hk & K).
  - done.
  - done.
  - by rewrite fill_app, <- Et.
  - intros ->. revert Hn. rewrite Et, (fill_ptrs c). cbn. rewrite (fill_ptrs d). cbn.
    rewrite !NoDup_app. set_solver.
  - by right.
  - rewrite fill_app. by destruct ql.
  - exists k', (fill c (Node (fill d ql) q r)). split; [exact E'|]. split; [done|]. split; [done|].
    exists (ctx_before c ++ inorder (fill d ql) ++ [q]), (inorder r ++ ctx_after c).
    rewrite Et, !fill_inorder. cbn [inorder]. rewrite !fill_inorder, Ed. cbn [inorder].
    rewrite !app_nil_r, <- !app_assoc. cbn. rewrite <- ?app_assoc. done.
Qed.

(** The replacement comes from the right. *)
Lemma Remove_right k c p l r d qr q :
  tree_rep k None (fill c (Node l p r)) -> NoDup (inorder (fill c (Node l p r))) ->
  r = fill d (Node Leaf q qr) -> ctx_before d = [] ->
  removed k p (fill c (Node l p r))
    (h1 ← Remove 1 (with_tree h k (tree_ptr (fill c (Node l p r)))) q; remove_rest h1 p q).
Proof.
  intros Ht Hn Et Ed.
  destruct (Remove_step k c p l r l (fill d qr) q (d ++ FrameR l p :: c) Leaf qr) as (k' & E' & Hk & K).
  - done.
  - done.
  - by rewrite fill_app, <- Et.
  - intros ->. revert Hn. rewrite Et, (fill_ptrs c). cbn. rewrite (fill_ptrs d). cbn.
    rewrite !NoDup_app, !NoDup_cons. set_solver.
  - by left.
  - by rewrite fill_app.
  - exists k', (fill c (Node l q (fill d qr))). split; [exact E'|]. split; [done|]. split; [done|].
    exists (ctx_before c ++ inorder l), (q :: inorder (fill d qr) ++ ctx_after c).
    rewrite Et, !fill_inorder. cbn [inorder]. rewrite !fill_inorder, Ed. cbn [inorder app].
    rewrite <- !app_assoc. cbn. rewrite <- ?app_assoc. done.
Qed.

Lemma Remove_one k c p l r :
  tree_rep k None (fill c (Node l p r)) -> NoDup (inorder (fill c (Node l p r))) -> l = Leaf \/ r = Leaf ->
  removed k p (fill c (Node l p r)) (Remove 2 (with_tree h k (tree_ptr (fill c (Node l p r)))) p).
Proof.
  intros Ht Hn Hlr. destruct (Remove_simple 1 k c l p r Ht Hn Hlr) as (k' & E & Hk & K).
  eexists k', _. split; [exact E|]. split; [done|]. split; [done|].
  exists (ctx_before c ++ inorder l), (inorder r ++ ctx_after c). rewrite !fill_inorder. cbn.
  rewrite <- !app_assoc. split; [done|]. destruct Hlr as [-> | ->]; [done|]. destruct l; cbn; [done|].
  by rewrite <- ?app_assoc.
Qed.

(** [Remove] takes the node out of the tree, and only changes the tree. *)
Lemma Remove_spec k t p :
  tree_rep k None t -> NoDup (inorder t) -> p ∈ inorder t -> is_Some (cells h !! p) ->
  (length (inorder t) <= walk_fuel h)%nat ->
  removed k p t (Remove 2 (with_tree h k (tree_ptr t)) p).
Proof.
  intros Ht Hn Hp [dc Hcell] Hf. destruct (in_tree_ctx _ _ Hp) as (c & l & r & ->).
  destruct l as [|ll lp lr]; [by apply Remove_one; auto|].
  destruct r as [|rl rp rr]; [by apply Remove_one; auto|].
  pose proof (fill_rep k c _ Ht) as [_ (H1 & H2 & H3 & H4 & H5)].
  rewrite (fill_ptrs c) in Hf. cbn in Hf. repeat (rewrite length_app in Hf; cbn in Hf).
  rewrite (Remove_unfold _ p lp rp dc) by done. destruct (id_lsb (ph_id dc)).
  - destruct (last_right_spec (walk_fuel h) k ll lp lr (Some p) H4) as (d & ql & q & E & Et & Ed); [lia|].
    change (rights _) with (lk_r k). change (walk_fuel _) with (walk_fuel h). rewrite E.
    by apply (Remove_left k c p _ _ d ql q).
  - destruct (last_left_spec (walk_fuel h) k rl rp rr (Some p) H5) as (d & qr & q & E & Et & Ed); [lia|].
    change (lefts _) with (lk_l k). change (walk_fuel _) with (walk_fuel h). rewrite E.
    by apply (Remove_right k c p _ _ d qr q).
Qed.
End remove.

(** ** Insertion *)

(** The new node takes the place of a leaf. *)
Definition inserted (h : DPS_History) (k : links) (p : ptr) (u : DPS_UUID) (t : tree)
    (res : option (ptr * DPS_History)) : Prop :=
  (exists q, res = Some (q, with_tree h k (tree_ptr t)) /\ q ∈ inorder t /\ key h q = u) \/
  (exists k' t', res = Some (p, with_tree h k' (tree_ptr t')) /\ tree_rep k' None t' /\ links_keep k k' /\
    exists a b, inorder t = a ++ b /\ inorder t' = a ++ p :: b /\
      (forall q, q ∈ a -> uuid_lt (key h q) u) /\ (forall q, q ∈ b -> uuid_lt u (key h q))).

Lemma attach_spec h k r c p cmp :
  ctx_rep k c r None -> NoDup (p :: ctx_ptrs c) ->
  lk_l k !! p = Some None -> lk_r k !! p = Some None -> lk_p k !! p = Some None -> cmp_frame cmp c ->
  exists k',
    match ctx_parent c with
    | Some parent =>
        h ← (if cmp <? 0 then set_left (with_tree h k r) parent (Some p)
             else set_right (with_tree h k r) parent (Some p));
        h ← set_parent h p (Some parent);
        Some (p, h)
    | None => Some (p, set_root (with_tree h k r) (Some p))
    end = Some (p, with_tree h k' (tree_ptr (fill c (Node Leaf p Leaf)))) /\
    tree_rep k' None (fill c (Node Leaf p Leaf)) /\ links_keep k k'.
Proof.
  intros Hc Hn Hl Hr Hp Hcmp.
  pose proof (plug k c r None (Node Leaf p Leaf) None Hc) as P. cbn [tree_ptr upd_p_opt] in P.
  destruct P as (P1 & P2 & P3); [done| |].
  { cbn. apply NoDup_cons in Hn as [H1 H2]. apply NoDup_app. split; [done|]. split; [|apply NoDup_singleton].
    set_solver. }
  eexists. split; [|split; [exact P1|exact P3]]. rewrite <- P2.
  destruct c as [|[u t|t u] c]; cbn [ctx_parent set_top set_hole cmp_frame] in *.
  - unfold set_root, with_tree, upd_p. cbn. by rewrite (insert_id (lk_p k)).
  - rewrite Hcmp. destruct Hc as (H1 & H2 & _). rewrite set_left_tree by done. cbn [mbind option_bind].
    rewrite set_parent_tree by done. done.
  - rewrite Hcmp. destruct Hc as (H1 & H2 & _). rewrite set_right_tree by done. cbn [mbind option_bind].
    rewrite set_parent_tree by done. done.
Qed.

(** [Insert] finds the node with the key of [p] or attaches [p]. *)
Lemma Insert_spec h k t p d :
  tree_rep k None t -> ordered h (inorder t) -> celled h (inorder t) ->
  (length (inorder t) <= walk_fuel h)%nat -> NoDup (p :: inorder t) ->
  cells h !! p = Some d ->
  lk_l k !! p = Some None -> lk_r k !! p = Some None -> lk_p k !! p = Some None ->
  inserted h k p (ph_id d) t (History.Insert (with_tree h k (tree_ptr t)) p).
Proof.
  intros Ht Ho Hc Hf Hn Hd Hl Hr Hp. unfold History.Insert. cbn [with_tree cells]. rewrite Hd. cbn [mbind option_bind].
  change (mkHistory _ _ _ _ _ _ _ _ _ _) with (with_tree h k (tree_ptr t)).
  change (History.root (with_tree h k (tree_ptr t))) with (tree_ptr t).
  change (walk_fuel (with_tree h k (tree_ptr t))) with (walk_fuel h).
  destruct (insert_loop_spec (with_tree h k (tree_ptr t)) (walk_fuel h) t [] (ph_id d) 0)
    as (o & par & cmp & E & Hres); [by destruct k|exact Ho|exact Hc|exact Hf|exact I|].
  cbn [ctx_parent] in E. rewrite E. destruct o as [q|].
  { left. exists q. split; [done|]. exact Hres. }
  right. destruct Hres as (c & _ & -> & -> & Hcf & Hb & Ha). rewrite app_nil_r in *.
  destruct (attach_spec h k (tree_ptr (fill c Leaf)) c p cmp) as (k' & E' & Hk & K); try done.
  { by apply fill_rep in Ht as [? _]. }
  { rewrite (fill_ptrs c) in Hn. cbn in Hn. by rewrite app_nil_r in Hn. }
  exists k', (fill c (Node Leaf p Leaf)). split; [exact E'|]. split; [done|]. split; [done|].
  exists (ctx_before c), (ctx_after c). rewrite !fill_inorder. done.
Qed.
