(* ===== verification/HistList.v ===== *)
(** * The doubly linked list of a history

    [LinkPub] and [UnlinkPub] on the list of records by expiration. *)
From S2P Require Import Prelude Status Buffer BitVec Uuid History HistRemove.
From stdpp Require Import gmap sorting.
#[local] Open Scope Z_scope.
#[local] Set Warnings "-clear-no-such-hyp".

Abbreviation links1 := (gmap ptr (option ptr)).

(** The pointer to the first, or [b] after them. *)
Definition head_ptr (l : list ptr) (b : option ptr) : option ptr :=
  match l with [] => b | q :: _ => Some q end.
(** The pointer to the last, or [a] before them. *)
Definition last_ptr (l : list ptr) (a : option ptr) : option ptr :=
  match last l with None => a | q => q end.

Fixpoint dll (pv nx : links1) (a : option ptr) (l : list ptr) (b : option ptr) : Prop :=
  match l with
  | [] => True
  | p :: l => pv !! p = Some a /\ nx !! p = Some (head_ptr l b) /\ dll pv nx (Some p) l b
  end.

Lemma last_ptr_cons p l a : last_ptr (p :: l) a = last_ptr l (Some p).
Proof.
  unfold last_ptr. rewrite last_cons. by destruct (last l).
Qed.

Lemma last_ptr_app l1 l2 a : last_ptr (l1 ++ l2) a = last_ptr l2 (last_ptr l1 a).
Proof. unfold last_ptr. rewrite last_app. destruct (last l2); [done|]. by destruct (last l1). Qed.

Lemma head_ptr_app l1 l2 b : head_ptr (l1 ++ l2) b = head_ptr l1 (head_ptr l2 b).
Proof. by destruct l1. Qed.

Lemma dll_app pv nx a l1 l2 b :
  dll pv nx a (l1 ++ l2) b <-> dll pv nx a l1 (head_ptr l2 b) /\ dll pv nx (last_ptr l1 a) l2 b.
Proof.
  revert a. induction l1 as [|p l1 IH]; intros a; cbn [app dll]; [by cbn; tauto|].
  rewrite IH, last_ptr_cons, head_ptr_app. tauto.
Qed.

Lemma dll_ext pv nx pv' nx' a l b :
  (forall p, p ∈ l -> pv !! p = pv' !! p /\ nx !! p = nx' !! p) -> dll pv nx a l b -> dll pv' nx' a l b.
Proof.
  revert a. induction l as [|p l IH]; intros a H; cbn; [done|]. intros (H1 & H2 & H3).
  destruct (H p) as [<- <-]; [by left|]. split_and!; try done. apply IH; [|done]. intros q Hq. apply H. by right.
Qed.

(** The first and the last of a segment with another pointer outside. *)
Definition upd_opt (m : links1) (o v : option ptr) : links1 :=
  match o with Some q => <[q := v]> m | None => m end.

Lemma upd_opt_keep m o v q : is_Some (m !! q) -> is_Some (upd_opt m o v !! q).
Proof. destruct o; [apply insert_keep|done]. Qed.

Lemma upd_opt_ne m o v q : o <> Some q -> upd_opt m o v !! q = m !! q.
Proof. destruct o as [p|]; cbn; [|done]. intros. rewrite lookup_insert_ne; [done|congruence]. Qed.

Lemma head_ptr_in l p : head_ptr l None = Some p -> p ∈ l.
Proof. destruct l; cbn; [done|]. intros [= ->]. by left. Qed.
Lemma last_ptr_snoc l p a : last_ptr (l ++ [p]) a = Some p.
Proof. by rewrite last_ptr_app. Qed.
Lemma last_ptr_in l p : last_ptr l None = Some p -> p ∈ l.
Proof.
  destruct l as [|q l _] using rev_ind; [done|]. rewrite last_ptr_snoc. intros [= ->].
  apply elem_of_app. right. by left.
Qed.

Lemma dll_set_first pv nx a a' l b :
  dll pv nx a l b -> NoDup l -> dll (upd_opt pv (head_ptr l None) a') nx a' l b.
Proof.
  destruct l as [|p l]; cbn; [done|]. intros (H1 & H2 & H3) [Np N]%NoDup_cons. rewrite lookup_insert_eq.
  split_and!; try done. apply (dll_ext pv nx); [|done]. intros q Hq.
  rewrite lookup_insert_ne; [done|]. by intros ->.
Qed.

Lemma dll_set_last pv nx a l b b' :
  dll pv nx a l b -> NoDup l -> dll pv (upd_opt nx (last_ptr l None) b') a l b'.
Proof.
  destruct l as [|p l _] using rev_ind; [done|]. rewrite last_ptr_snoc, !dll_app. cbn.
  intros (H1 & H2 & H3 & _) (N1 & N2 & _)%NoDup_app. rewrite lookup_insert_eq. split_and!; try done.
  apply (dll_ext pv nx); [|done]. intros q Hq. rewrite lookup_insert_ne; [done|]. intros ->. apply (N2 q Hq). by left.
Qed.

(** ** The heap with another list *)

Definition with_list (h : DPS_History) (pv nx : links1) (s e : option ptr) (n : Z) : DPS_History :=
  mkHistory (cells h) (lefts h) (rights h) (parents h) pv nx (History.root h) e s n.

Lemma with_list_id h : with_list h (prevs h) (nexts h) (soonest h) (latest h) (count h) = h.
Proof. by destruct h. Qed.

Lemma set_next_list h pv nx s e n p v :
  is_Some (nx !! p) -> set_next (with_list h pv nx s e n) p v = Some (with_list h pv (<[p := v]> nx) s e n).
Proof. intros H. unfold set_next. cbn [with_list nexts]. by rewrite store_some. Qed.
Lemma set_prev_list h pv nx s e n p v :
  is_Some (pv !! p) -> set_prev (with_list h pv nx s e n) p v = Some (with_list h (<[p := v]> pv) nx s e n).
Proof. intros H. unfold set_prev. cbn [with_list prevs]. by rewrite store_some. Qed.

(** The list [l] is in the heap. *)
Definition list_rep (pv nx : links1) (l : list ptr) (s e : option ptr) (n : Z) : Prop :=
  dll pv nx None l None /\ s = head_ptr l None /\ e = last_ptr l None /\ n = Z.of_nat (length l) /\ NoDup l.


(** The segments around [p] without it. *)
Lemma dll_unlink pv nx l1 p l2 :
  dll pv nx None (l1 ++ p :: l2) None -> NoDup (l1 ++ p :: l2) ->
  let pv' := <[p := None]> (upd_opt pv (head_ptr l2 None) (last_ptr l1 None)) in
  let nx' := <[p := None]> (upd_opt nx (last_ptr l1 None) (head_ptr l2 None)) in
  dll pv' nx' None (l1 ++ l2) None.
Proof.
  intros [H1 (Hp & Hx & H2)]%dll_app (N1 & N12 & [Np N2]%NoDup_cons)%NoDup_app pv' nx'.
  cbn [head_ptr] in *. apply dll_app. split.
  - apply (dll_set_last _ _ _ _ _ (head_ptr l2 None)) in H1; [|done]. revert H1. apply dll_ext.
    intros q Hq. pose proof (N12 q Hq). unfold pv', nx'.
    rewrite !lookup_insert_ne by set_solver. rewrite upd_opt_ne; [done|]. intros E%head_ptr_in. set_solver.
  - apply (dll_set_first _ _ _ (last_ptr l1 None)) in H2; [|done]. revert H2. apply dll_ext.
    intros q Hq. unfold pv', nx'. assert (p <> q) by set_solver.
    rewrite !lookup_insert_ne by done. rewrite (upd_opt_ne nx); [done|]. intros E%last_ptr_in.
    apply (N12 q E). by right.
Qed.

Lemma unlink_front h pv nx l1 p v e n :
  (forall q, q ∈ l1 -> is_Some (nx !! q)) ->
  match last_ptr l1 None with
  | Some q => set_next (with_list h pv nx (head_ptr l1 (Some p)) e n) q v
  | None => _ ← c_assert (bool_decide (head_ptr l1 (Some p) = Some p));
            Some (set_soonest (with_list h pv nx (head_ptr l1 (Some p)) e n) v)
  end = Some (with_list h pv (upd_opt nx (last_ptr l1 None) v) (head_ptr l1 v) e n).
Proof.
  intros H. destruct l1 as [|q l1 _] using rev_ind.
  - cbn. by rewrite bool_decide_true.
  - rewrite last_ptr_snoc. rewrite set_next_list by (apply H; set_solver). cbn [upd_opt].
    by rewrite !head_ptr_app.
Qed.

Lemma unlink_back h pv nx l2 p v s n :
  (forall q, q ∈ l2 -> is_Some (pv !! q)) ->
  match head_ptr l2 None with
  | Some q => set_prev (with_list h pv nx s (last_ptr l2 (Some p)) n) q v
  | None => _ ← c_assert (bool_decide (last_ptr l2 (Some p) = Some p));
            Some (set_latest (with_list h pv nx s (last_ptr l2 (Some p)) n) v)
  end = Some (with_list h (upd_opt pv (head_ptr l2 None) v) nx s (last_ptr l2 v) n).
Proof.
  intros H. destruct l2 as [|q l2].
  - cbn. by rewrite bool_decide_true.
  - cbn [head_ptr]. rewrite set_prev_list by (apply H; set_solver). cbn [upd_opt].
    by rewrite !last_ptr_cons.
Qed.

Lemma dll_some pv nx a l b q : dll pv nx a l b -> q ∈ l -> is_Some (pv !! q) /\ is_Some (nx !! q).
Proof.
  revert a. induction l as [|p l IH]; intros a; cbn; [by intros _ ?%elem_of_nil|].
  intros (H1 & H2 & H3) [->|Hq]%elem_of_cons; [eauto|]. by apply (IH _ H3).
Qed.

Lemma UnlinkPub_spec h pv nx l1 p l2 s e n :
  list_rep pv nx (l1 ++ p :: l2) s e n -> n < 2 ^ 32 ->
  exists pv' nx' s' e' n', UnlinkPub (with_list h pv nx s e n) p = Some (with_list h pv' nx' s' e' n') /\
    list_rep pv' nx' (l1 ++ l2) s' e' n' /\ pv' !! p = Some None /\ nx' !! p = Some None.
Proof.
  intros (Hd & -> & -> & -> & Hn) Hlt.
  pose proof (dll_unlink _ _ _ _ _ Hd Hn) as Hd'. cbn zeta in Hd'.
  apply dll_app in Hd as [H1 H2]. cbn [head_ptr dll] in *. destruct H2 as (Hp & Hx & H2).
  eexists _, _, (head_ptr (l1 ++ l2) None), (last_ptr (l1 ++ l2) None), (Z.of_nat (length (l1 ++ l2))).
  split; [|split; [split; [exact Hd'|split; [done|split; [done|split; [done|]]]]|by rewrite !lookup_insert_eq]].
  2: { apply NoDup_app in Hn as (N1 & N12 & [Np N2]%NoDup_cons). apply NoDup_app. set_solver. }
  rewrite !head_ptr_app, !last_ptr_app, last_ptr_cons. cbn [head_ptr].
  unfold UnlinkPub. cbn [with_list prevs nexts]. rewrite Hp, Hx. cbn [mbind option_bind].
  rewrite (unlink_front h pv nx l1 p) by (intros q Hq; by apply (dll_some _ _ _ _ _ _ H1 Hq)). cbn [mbind option_bind].
  rewrite (unlink_back h pv _ l2 p) by (intros q Hq; by apply (dll_some _ _ _ _ _ _ H2 Hq)). cbn [mbind option_bind].
  rewrite set_next_list by (apply upd_opt_keep; eauto). cbn [mbind option_bind].
  rewrite set_prev_list by (apply upd_opt_keep; eauto). cbn [mbind option_bind].
  unfold set_count, with_list. cbn. rewrite !length_app in *. cbn in *. rewrite u32_small by lia. do 2 f_equal. lia.
Qed.

(** ** Linking *)

(** The list is in order of expiration. *)
Definition exp (h : DPS_History) (p : ptr) : Z := from_option ph_expiration 0 (cells h !! p).
Definition by_exp (h : DPS_History) (l : list ptr) : Prop := StronglySorted (fun p q => exp h p <= exp h q) l.

Lemma cell_exp h p d : cells h !! p = Some d -> ph_expiration d = exp h p.
Proof. unfold exp. by intros ->. Qed.

(** Where the walk back ends. *)
Lemma back_loop_spec fuel h l1 q nxt x :
  dll (prevs h) (nexts h) None (l1 ++ [q]) nxt ->
  Forall (fun p => is_Some (cells h !! p)) (l1 ++ [q]) ->
  (exists p, p ∈ l1 ++ [q] /\ exp h p <= x) -> (length l1 <= fuel)%nat ->
  exists a q' b, l1 ++ [q] = a ++ q' :: b /\ back_loop fuel h x q = Some q' /\ exp h q' <= x /\
    Forall (fun p => x < exp h p) b.
Proof.
  revert l1 q nxt. induction fuel as [|fuel IH]; intros l1 q nxt Hd Hc Hex Hf; cbn.
  all: pose proof Hc as [Hc1 [[d Hq] _]%Forall_cons_iff]%Forall_app; rewrite Hq; cbn [mbind option_bind];
    rewrite (cell_exp _ _ _ Hq); destruct (x <? exp h q) eqn:T; bools;
    [|exists l1, q, []; split_and!; [done|done|lia|constructor]].
  all: destruct l1 as [|q0 l1 _] using rev_ind;
    [exfalso; destruct Hex as (p & ->%list_elem_of_singleton & Hp); lia|].
  { rewrite length_app in Hf. cbn in Hf. lia. }
  rewrite length_app in Hf. cbn in Hf.
  apply dll_app in Hd as [Hd1 (Hp & _ & _)]. rewrite last_ptr_snoc in Hp. rewrite Hp. cbn [mbind option_bind].
  destruct (IH l1 q0 (Some q)) as (a & q' & b & E1 & E2 & E3 & E4); [done|done| |lia|].
  { destruct Hex as (p & [Hin| ->%list_elem_of_singleton]%elem_of_app & Hpx); [eauto|lia]. }
  exists a, q', (b ++ [q]). rewrite E1, <- app_assoc. split; [done|]. split; [done|]. split; [done|].
  apply Forall_app. split; [done|]. by repeat constructor.
Qed.

(** The segments with [p] between them. *)
Lemma dll_link pv nx l1 p l2 :
  dll pv nx None (l1 ++ l2) None -> NoDup (l1 ++ p :: l2) ->
  let pv' := upd_opt (<[p := last_ptr l1 None]> pv) (head_ptr l2 None) (Some p) in
  let nx' := upd_opt (<[p := head_ptr l2 None]> nx) (last_ptr l1 None) (Some p) in
  dll pv' nx' None (l1 ++ p :: l2) None.
Proof.
  intros [H1 H2]%dll_app (N1 & N12 & [Np N2]%NoDup_cons)%NoDup_app pv' nx'.
  apply dll_app. cbn [head_ptr dll]. split; [|split; [|split]].
  - apply (dll_set_last _ _ _ _ _ (Some p)) in H1; [|done]. revert H1. apply dll_ext.
    intros q Hq. pose proof (N12 q Hq). unfold pv', nx'. rewrite upd_opt_ne.
    2: { intros E%head_ptr_in. set_solver. }
    assert (p <> q) by set_solver. rewrite lookup_insert_ne by done. split; [done|].
    destruct (last_ptr l1 None) as [x|]; cbn; [|by rewrite lookup_insert_ne].
    rewrite !lookup_insert. destruct (decide (x = q)); [done|]. by rewrite decide_False.
  - unfold pv'. rewrite upd_opt_ne; [by rewrite lookup_insert_eq|]. by intros E%head_ptr_in.
  - unfold nx'. rewrite upd_opt_ne; [by rewrite lookup_insert_eq|]. intros E%last_ptr_in.
    apply (N12 p E). by left.
  - apply (dll_set_first _ _ _ (Some p)) in H2; [|done]. revert H2. apply dll_ext.
    intros q Hq. unfold pv', nx'. assert (p <> q) by set_solver. split.
    + destruct (head_ptr l2 None) as [x|]; cbn; [|by rewrite lookup_insert_ne].
      rewrite !lookup_insert. destruct (decide (x = q)); [done|]. by rewrite decide_False.
    + rewrite upd_opt_ne; [by rewrite lookup_insert_ne|]. intros E%last_ptr_in. apply (N12 q E). by right.
Qed.

Definition linked (h : DPS_History) (p : ptr) (l : list ptr) (res : option DPS_History) : Prop :=
  exists a b pv' nx' s' e' n', l = a ++ b /\ res = Some (with_list h pv' nx' s' e' n') /\
    list_rep pv' nx' (a ++ p :: b) s' e' n' /\
    Forall (fun q => exp h q <= exp h p) a /\ Forall (fun q => exp h p <= exp h q) b.

(** The stores of [LinkPub] in the middle and at the end of the list. *)
Lemma link_after h pv nx a q b p s n :
  dll pv nx None ((a ++ [q]) ++ b) None -> NoDup ((a ++ [q]) ++ p :: b) ->
  pv !! p = Some None -> nx !! p = Some None ->
  let e := last_ptr b (Some q) in
  (h ← set_prev (with_list h pv nx s e n) p (Some q);
   qn ← nexts h !! q;
   h ← set_next h p qn;
   h ← (match qn with Some qn => set_prev h qn (Some p) | None => Some h end);
   h ← set_next h q (Some p);
   Some (if bool_decide (latest h = Some q) then set_latest h (Some p) else h)) =
  Some (with_list h (upd_opt (<[p := Some q]> pv) (head_ptr b None) (Some p))
          (<[q := Some p]> (<[p := head_ptr b None]> nx)) s (last_ptr b (Some p)) n).
Proof.
  intros Hd Hn Hp Hx e. rewrite <- app_assoc in Hd. apply dll_app in Hd as [_ (_ & Hq & Hb)].
  cbn [app head_ptr] in *. rewrite set_prev_list by eauto. cbn [mbind option_bind with_list nexts]. rewrite Hq.
  cbn [mbind option_bind]. change (mkHistory _ _ _ _ _ _ _ _ _ _) with (with_list h (<[p := Some q]> pv) nx s e n).
  rewrite set_next_list by eauto. cbn [mbind option_bind].
  set (h1 := with_list h (upd_opt (<[p := Some q]> pv) (head_ptr b None) (Some p)) (<[p := head_ptr b None]> nx) s e n).
  assert (E : match head_ptr b None with
     | Some qn => set_prev (with_list h (<[p := Some q]> pv) (<[p := head_ptr b None]> nx) s e n) qn (Some p)
     | None => Some (with_list h (<[p := Some q]> pv) (<[p := head_ptr b None]> nx) s e n)
     end = Some h1).
  { destruct b as [|x b]; [done|]. cbn [head_ptr]. rewrite set_prev_list; [done|]. cbn in Hb.
    apply insert_keep. destruct Hb as (-> & _). eauto. }
  rewrite E. cbn [mbind option_bind]. unfold h1. rewrite set_next_list by (apply insert_keep; eauto).
  cbn [mbind option_bind with_list latest]. f_equal. unfold e.
  apply NoDup_app in Hn as (N1 & N2 & [Np N3]%NoDup_cons).
  destruct b as [|x b _] using rev_ind; [by rewrite bool_decide_true|]. rewrite !last_ptr_snoc.
  rewrite bool_decide_false; [done|]. intros [= ->]. apply (N2 q); [set_solver|]. set_solver.
Qed.

Lemma link_list_rep pv nx a p b s e n :
  list_rep pv nx (a ++ b) s e n -> p ∉ a ++ b ->
  list_rep (upd_opt (<[p := last_ptr a None]> pv) (head_ptr b None) (Some p))
    (upd_opt (<[p := head_ptr b None]> nx) (last_ptr a None) (Some p)) (a ++ p :: b)
    (head_ptr a (Some p)) (last_ptr b (Some p)) (n + 1).
Proof.
  intros (Hd & -> & -> & -> & Hn) Hp.
  assert (Hn' : NoDup (a ++ p :: b)).
  { apply NoDup_app in Hn as (N1 & N2 & N3). rewrite elem_of_app in Hp.
    apply NoDup_app. split; [done|]. split; [|apply NoDup_cons; tauto].
    intros x Hx [->|Hxb]%elem_of_cons; [tauto|]. by apply (N2 x). }
  split; [by apply dll_link|]. rewrite head_ptr_app, last_ptr_app, last_ptr_cons. split; [done|]. split; [done|].
  split; [|done]. rewrite !length_app. cbn. lia.
Qed.

Lemma by_exp_app h a b :
  by_exp h (a ++ b) <-> (forall x y, x ∈ a -> y ∈ b -> exp h x <= exp h y) /\ by_exp h a /\ by_exp h b.
Proof. apply StronglySorted_app. Qed.

Lemma by_exp_le h a q x : by_exp h (a ++ [q]) -> exp h q <= x -> Forall (fun y => exp h y <= x) (a ++ [q]).
Proof.
  intros (H & _)%by_exp_app Hx. apply Forall_forall. intros y [Hy| ->%list_elem_of_singleton]%elem_of_app; [|done].
  etransitivity; [apply (H y q); set_solver|done].
Qed.

(** The two ways to link to a list that is not empty. *)
Definition link_front (h : DPS_History) (p s : ptr) : option DPS_History :=
  h ← set_next h p (Some s);
  h ← set_prev h s (Some p);
  Some (set_soonest h (Some p)).

Definition link_back (h : DPS_History) (p q : ptr) : option DPS_History :=
  h ← set_prev h p (Some q);
  qn ← nexts h !! q;
  h ← set_next h p qn;
  h ← (match qn with Some qn => set_prev h qn (Some p) | None => Some h end);
  h ← set_next h q (Some p);
  Some (if bool_decide (latest h = Some q) then set_latest h (Some p) else h).

Lemma LinkPub_nonempty h p s d ds :
  nexts h !! p = Some None -> prevs h !! p = Some None -> (count h =? 0) = false -> soonest h = Some s ->
  cells h !! p = Some d -> cells h !! s = Some ds ->
  LinkPub h p =
    (h ← (if exp h p <=? exp h s then link_front h p s
          else last ← latest h; q ← back_loop (walk_fuel h) h (exp h p) last; link_back h p q);
     Some (set_count h (u32 (count h + 1)))).
Proof.
  intros Hn Hp Hc Hs Hd Hds. unfold LinkPub. rewrite Hn, Hp. cbn [mbind option_bind].
  rewrite (bool_decide_true (@None ptr = None)) by done. cbn [andb c_assert mbind option_bind].
  rewrite Hc, Hd. cbn [mbind option_bind]. rewrite Hs. cbn [mbind option_bind]. rewrite Hds.
  cbn [mbind option_bind]. by rewrite (cell_exp _ _ _ Hd), (cell_exp _ _ _ Hds).
Qed.

(** At the front. *)
Lemma LinkPub_front h pv nx q0 l s e n p d ds :
  list_rep pv nx (q0 :: l) s e n -> by_exp h (q0 :: l) -> p ∉ q0 :: l ->
  pv !! p = Some None -> nx !! p = Some None -> cells h !! p = Some d -> cells h !! q0 = Some ds ->
  exp h p <= exp h q0 -> n + 1 < 2 ^ 32 ->
  linked h p (q0 :: l) (LinkPub (with_list h pv nx s e n) p).
Proof.
  intros HL Ho Hnp Hp Hx Hcell Hds T Hlt. unfold linked.
  pose proof (link_list_rep _ _ [] p (q0 :: l) _ _ _ HL Hnp) as HR. cbn [app] in HR.
  eexists [], (q0 :: l), _, _, _, _, _. split; [done|]. split; [|split; [exact HR|split; [constructor|]]].
  2: { apply (StronglySorted_inv) in Ho as [_ Ho]. constructor; [done|].
       eapply Forall_impl; [exact Ho|]. cbn. lia. }
  destruct HL as (Hd & -> & -> & -> & Hn). destruct Hd as [Hq0 _].
  rewrite (LinkPub_nonempty _ p q0 d ds) by (try done; apply Z.eqb_neq; cbn [with_list count length]; lia).
  change (exp (with_list _ _ _ _ _ _) ?x) with (exp h x). rewrite (proj2 (Z.leb_le _ _)) by done. unfold link_front.
  rewrite set_next_list by eauto. cbn [mbind option_bind].
  rewrite set_prev_list by eauto. cbn [mbind option_bind]. unfold set_count, set_soonest, with_list.
  cbn [cells lefts rights parents prevs nexts History.root latest soonest count head_ptr upd_opt].
  rewrite u32_small by lia. rewrite !last_ptr_cons. change (last_ptr [] None) with (@None ptr).
  rewrite (insert_id pv p None) by done. done.
Qed.

Lemma back_end h pv nx s e n q0 l p :
  list_rep pv nx (q0 :: l) s e n -> Forall (fun p => is_Some (cells h !! p)) (q0 :: l) ->
  exp h q0 < exp h p -> (length (q0 :: l) <= walk_fuel h)%nat ->
  exists a q b last, q0 :: l = (a ++ [q]) ++ b /\ e = Some last /\
    back_loop (walk_fuel h) (with_list h pv nx s e n) (exp h p) last = Some q /\
    exp h q <= exp h p /\ Forall (fun y => exp h p < exp h y) b.
Proof.
  intros (Hd & _ & -> & _) Hc T Hf. destruct (exists_last (l := q0 :: l)) as (l1 & q1 & E); [done|].
  rewrite E in Hd, Hc, Hf |- *. rewrite last_ptr_snoc. rewrite length_app in Hf. cbn in Hf.
  destruct (back_loop_spec (walk_fuel h) (with_list h pv nx s (Some q1) n) l1 q1 None (exp h p))
    as (a & q & b & E1 & E2 & E3 & E4); [exact Hd|exact Hc| |lia|].
  - exists q0. rewrite <- E. split; [by left|]. change (exp h q0 <= exp h p). lia.
  - exists a, q, b, q1. rewrite <- app_assoc. done.
Qed.

(** After the last record that does not expire later. *)
Lemma LinkPub_back h pv nx q0 l s e n p d ds :
  list_rep pv nx (q0 :: l) s e n -> by_exp h (q0 :: l) -> Forall (fun p => is_Some (cells h !! p)) (q0 :: l) ->
  p ∉ q0 :: l -> pv !! p = Some None -> nx !! p = Some None -> cells h !! p = Some d -> cells h !! q0 = Some ds ->
  exp h q0 < exp h p -> (length (q0 :: l) <= walk_fuel h)%nat -> n + 1 < 2 ^ 32 ->
  linked h p (q0 :: l) (LinkPub (with_list h pv nx s e n) p).
Proof.
  intros HL Ho Hc Hnp Hp Hx Hcell Hds T Hf Hlt.
  destruct (back_end _ _ _ _ _ _ _ _ p HL Hc T Hf) as (a & q & b & e1 & E & -> & Eb & Hq & Hb).
  assert (HN : LinkPub (with_list h pv nx s (Some e1) n) p =
    (h ← link_back (with_list h pv nx s (Some e1) n) p q; Some (set_count h (u32 (count h + 1))))).
  { destruct HL as (Hd & Hs & _ & Hn & _).
    rewrite (LinkPub_nonempty _ p q0 d ds) by (try done; apply Z.eqb_neq; cbn [with_list count]; rewrite Hn; cbn [length]; lia).
    change (exp (with_list _ _ _ _ _ _) ?x) with (exp h x). rewrite (proj2 (Z.leb_gt _ _)) by done.
    change (walk_fuel _) with (walk_fuel h). cbn [with_list latest mbind option_bind].
    change (mkHistory _ _ _ _ _ _ _ _ _ _) with (with_list h pv nx s (Some e1) n). by rewrite Eb. }
  rewrite E in HL, Ho, Hnp |- *. rewrite HN. unfold linked.
  pose proof (link_list_rep _ _ (a ++ [q]) p b _ _ _ HL Hnp) as HR.
  eexists (a ++ [q]), b, _, _, _, _, _. split; [done|]. split; [|split; [exact HR|split]].
  2: { apply by_exp_le; [|done]. by apply by_exp_app in Ho as (_ & ? & _). }
  2: { eapply Forall_impl; [exact Hb|]. cbn. lia. }
  destruct HR as (_ & _ & _ & _ & HnR). destruct HL as (Hd & -> & He & -> & Hn).
  rewrite last_ptr_app, last_ptr_snoc in He. rewrite He. unfold link_back.
  pose proof (link_after h pv nx a q b p (head_ptr ((a ++ [q]) ++ b) None)
    (Z.of_nat (length ((a ++ [q]) ++ b))) Hd HnR Hp Hx) as EL. cbn zeta in EL. rewrite EL.
  cbn [mbind option_bind]. unfold set_count, with_list. cbn [count].
  rewrite u32_small by lia. rewrite !last_ptr_snoc, head_ptr_app.
  replace (head_ptr (a ++ [q]) (head_ptr b None)) with (head_ptr (a ++ [q]) (Some p)) by by destruct a. done.
Qed.

(** [LinkPub] puts the record in its place in the list. *)
Lemma LinkPub_spec h pv nx l s e n p :
  list_rep pv nx l s e n -> by_exp h l -> Forall (fun p => is_Some (cells h !! p)) l -> p ∉ l ->
  pv !! p = Some None -> nx !! p = Some None -> is_Some (cells h !! p) ->
  (length l <= walk_fuel h)%nat -> n + 1 < 2 ^ 32 ->
  linked h p l (LinkPub (with_list h pv nx s e n) p).
Proof.
  intros HL Ho Hc Hnp Hp Hx [d Hcell] Hf Hlt. destruct l as [|q0 l].
  - destruct HL as (_ & -> & -> & -> & _). unfold LinkPub, linked. cbn [with_list nexts prevs]. rewrite Hx, Hp.
    eexists [], [], _, _, _, _, 1. split; [done|]. split; [reflexivity|].
    split; [|by repeat constructor].
    split; [|split; [done|split; [done|split; [done|apply NoDup_singleton]]]]. cbn. by rewrite Hp, Hx.
  - pose proof Hc as [[ds Hds] _]%Forall_cons_iff. destruct (Z.le_gt_cases (exp h p) (exp h q0)) as [T|T].
    + by eapply LinkPub_front.
    + by eapply LinkPub_back.
Qed.
