(* ===== verification/HistOps.v ===== *)
(** * The state of a history

    The representation of a set of records by the heap, and the steps that the
    operations share: dropping a record, adding or moving one. *)
From S2P Require Import Prelude Status Buffer BitVec Uuid Addr History HistTree HistRemove HistList.
From stdpp Require Import gmap sorting.
#[local] Open Scope Z_scope.
#[local] Set Warnings "-clear-no-such-hyp".

(** The tree and the list hold the same cells, all there are. *)
Record hist_rep (h : DPS_History) (t : tree) (l : list ptr) : Prop := {
  hr_tree : tree_rep (h_links h) None t;
  hr_root : History.root h = tree_ptr t;
  hr_list : list_rep (prevs h) (nexts h) l (soonest h) (latest h) (count h);
  hr_perm : inorder t ≡ₚ l;
  hr_ord : ordered h (inorder t);
  hr_exp : by_exp h l;
  hr_cells : forall p, is_Some (cells h !! p) <-> p ∈ l
}.

Lemma StronglySorted_ext {A} (R R' : A -> A -> Prop) l :
  (forall x y, x ∈ l -> y ∈ l -> R x y -> R' x y) -> StronglySorted R l -> StronglySorted R' l.
Proof.
  induction l as [|x l IH]; intros H Hs; [constructor|]. apply StronglySorted_inv in Hs as [H1 H2].
  constructor; [apply IH; [|done]; intros; apply H; set_solver|].
  apply Forall_forall. intros y Hy. apply H; [by left|by right|]. by apply (proj1 (Forall_forall _ _) H2).
Qed.

Lemma ordered_ext h h' l : (forall p, p ∈ l -> key h p = key h' p) -> ordered h l -> ordered h' l.
Proof.
  intros H. apply StronglySorted_ext. unfold key_lt. intros x y Hx Hy. by rewrite (H x Hx), (H y Hy).
Qed.

Lemma by_exp_ext h h' l : (forall p, p ∈ l -> exp h p = exp h' p) -> by_exp h l -> by_exp h' l.
Proof. intros H. apply StronglySorted_ext. intros x y Hx Hy. by rewrite (H x Hx), (H y Hy). Qed.

Lemma sorted_drop {A} (R : A -> A -> Prop) a p b : StronglySorted R (a ++ p :: b) -> StronglySorted R (a ++ b).
Proof.
  rewrite !StronglySorted_app. intros (H1 & H2 & H3). apply StronglySorted_inv in H3 as [H3 _].
  split_and!; try done. intros x y Hx Hy. apply H1; set_solver.
Qed.

Lemma NoDup_middle {A} (a : list A) p b : NoDup (a ++ p :: b) -> (p ∉ a ++ b) /\ NoDup (a ++ b).
Proof.
  intros (N1 & N2 & [N3 N4]%NoDup_cons)%NoDup_app. rewrite elem_of_app, NoDup_app. split_and!; try done.
  - intros [H|H]; [|done]. apply (N2 p H). by left.
  - intros x Hx Hb. apply (N2 x Hx). by right.
Qed.

Lemma ordered_inj h l p q : ordered h l -> p ∈ l -> q ∈ l -> key h p = key h q -> p = q.
Proof.
  induction l as [|x l IH]; intros Ho Hp Hq E; [by apply elem_of_nil in Hp|].
  apply ordered_cons in Ho as [H1 H2]. apply elem_of_cons in Hp, Hq.
  destruct Hp as [->|Hp], Hq as [->|Hq]; [done| | |auto]; exfalso.
  - specialize (H1 q Hq). unfold key_lt in H1. rewrite E in H1. by apply (irreflexivity uuid_lt) in H1.
  - specialize (H1 p Hp). unfold key_lt in H1. rewrite E in H1. by apply (irreflexivity uuid_lt) in H1.
Qed.

Section rep.
Context (h : DPS_History) (t : tree) (l : list ptr) (HR : hist_rep h t l).

Lemma hr_NoDup : NoDup l /\ NoDup (inorder t).
Proof.
  destruct (hr_list _ _ _ HR) as (_ & _ & _ & _ & N). split; [done|]. by rewrite (hr_perm _ _ _ HR).
Qed.

Lemma hr_in_tree p : p ∈ inorder t <-> p ∈ l.
Proof. by rewrite (hr_perm _ _ _ HR). Qed.

Lemma hr_celled l' : (forall p, p ∈ l' -> p ∈ l) -> Forall (fun p => is_Some (cells h !! p)) l'.
Proof. intros H. apply Forall_forall. intros p Hp. apply (hr_cells _ _ _ HR). auto. Qed.

Lemma hr_size : size (cells h) = length l.
Proof.
  rewrite <- size_dom. rewrite <- (size_list_to_set (C := gset ptr) l (proj1 hr_NoDup)). f_equal.
  apply leibniz_equiv. intros p. rewrite elem_of_list_to_set, elem_of_dom. apply (hr_cells _ _ _ HR).
Qed.

Lemma hr_fuel : (length (inorder t) <= walk_fuel h)%nat /\ (length l <= walk_fuel h)%nat.
Proof. unfold walk_fuel. rewrite hr_size, (hr_perm _ _ _ HR). done. Qed.

Lemma hr_key_inj p q : p ∈ l -> q ∈ l -> key h p = key h q -> p = q.
Proof. rewrite <- !hr_in_tree. apply ordered_inj, (hr_ord _ _ _ HR). Qed.

(** Taking a record out of the list and out of the tree, and freeing it. *)
Definition drop_cell (h : DPS_History) (p : ptr) : option DPS_History :=
  h ← UnlinkPub h p; h ← Remove 2 h p; FreePubHistory h p.

Lemma drop_cell_spec l1 p l2 :
  l = l1 ++ p :: l2 -> count h < 2 ^ 32 ->
  exists h' t', drop_cell h p = Some h' /\ hist_rep h' t' (l1 ++ l2) /\ cells h' = delete p (cells h).
Proof.
  intros El Hc. pose proof hr_NoDup as [Nl Nt]. pose proof hr_fuel as [Ft Fl].
  pose proof (hr_list _ _ _ HR) as HL. rewrite El in HL.
  destruct (UnlinkPub_spec h _ _ l1 p l2 _ _ _ HL Hc) as (pv & nx & s & e & n & E1 & HL' & _ & _).
  rewrite with_list_id in E1.
  assert (Hp : p ∈ l) by (rewrite El; apply elem_of_app; right; by left).
  pose proof (Remove_spec (with_list h pv nx s e n) (h_links h) t p (hr_tree _ _ _ HR) Nt
    (proj2 (hr_in_tree p) Hp) (proj2 (hr_cells _ _ _ HR p) Hp) Ft) as (k & t' & E2 & Ht & K & a & b & Ea & Eb).
  rewrite <- (hr_root _ _ _ HR) in E2. change (with_tree _ _ (History.root h)) with (with_list h pv nx s e n) in E2.
  destruct (proj2 (hr_cells _ _ _ HR p) Hp) as [d Hd].
  unfold drop_cell. rewrite E1. cbn [mbind option_bind]. rewrite E2. cbn [mbind option_bind].
  unfold FreePubHistory. cbn [with_tree with_list cells]. rewrite Hd. cbn [mbind option_bind].
  eexists _, t'. split; [reflexivity|]. split; [|done].
  assert (Npt : p ∉ inorder t') by (rewrite Eb; rewrite Ea in Nt; by apply (NoDup_middle _ _ _ Nt)).
  assert (Npl : p ∉ l1 ++ l2) by (rewrite El in Nl; by apply (NoDup_middle _ _ _ Nl)).
  constructor; cbn [h_links History.root prevs nexts soonest latest count cells lefts rights parents with_tree with_list].
  - revert Ht. apply tree_rep_ext. intros q Hq. unfold links_agree. cbn.
    by rewrite !lookup_delete_ne by (intros ->; done).
  - done.
  - destruct HL' as (H1 & H2). split; [|done]. revert H1. apply dll_ext. intros q Hq.
    by rewrite !lookup_delete_ne by (intros ->; done).
  - rewrite Eb. apply (Permutation_app_inv _ _ _ _ p). rewrite <- Ea, <- El. apply (hr_perm _ _ _ HR).
  - apply (ordered_ext h); [|rewrite Eb; apply (sorted_drop _ _ p); rewrite <- Ea; apply (hr_ord _ _ _ HR)].
    intros q Hq. unfold key. cbn [cells]. by rewrite lookup_delete_ne by (intros ->; done).
  - apply (by_exp_ext h); [|apply (sorted_drop _ _ p); rewrite <- El; apply (hr_exp _ _ _ HR)].
    intros q Hq. unfold exp. cbn [cells]. by rewrite lookup_delete_ne by (intros ->; done).
  - intros q. destruct (decide (p = q)) as [<-|Hne].
    + rewrite lookup_delete_eq. split; [by intros [? ?]|done].
    + rewrite lookup_delete_ne by done. rewrite (hr_cells _ _ _ HR q), El, !elem_of_app, elem_of_cons. clear -Hne.
      split; [intros [H|[->|H]]; [by left|done|by right]|intros [H|H]; [by left|right; by right]].
Qed.
End rep.

(** ** Adding or moving a record *)

(** The tree, and a list that may lack one of its cells. *)
Record hist_core (h : DPS_History) (t : tree) (l : list ptr) : Prop := {
  hc_tree : tree_rep (h_links h) None t;
  hc_root : History.root h = tree_ptr t;
  hc_list : list_rep (prevs h) (nexts h) l (soonest h) (latest h) (count h);
  hc_ord : ordered h (inorder t);
  hc_exp : by_exp h l
}.

Lemma hist_rep_core h t l :
  hist_rep h t l <-> hist_core h t l /\ inorder t ≡ₚ l /\ (forall p, is_Some (cells h !! p) <-> p ∈ l).
Proof. split; [intros []; split_and!; try done; by constructor|]. intros ([] & ? & ?). by constructor. Qed.

(** What a cell of the tree, or of the list, holds is the same in both heaps. *)
Definition same_tree (h h' : DPS_History) (p : ptr) : Prop :=
  links_agree (h_links h) (h_links h') p /\ ph_id <$> cells h !! p = ph_id <$> cells h' !! p.
Definition same_list (h h' : DPS_History) (p : ptr) : Prop :=
  prevs h !! p = prevs h' !! p /\ nexts h !! p = nexts h' !! p /\
  ph_expiration <$> cells h !! p = ph_expiration <$> cells h' !! p.

Lemma same_key h h' p : same_tree h h' p -> key h p = key h' p.
Proof. intros (_ & E). unfold key. destruct (cells h !! p), (cells h' !! p); cbn in *; congruence. Qed.
Lemma same_exp h h' p : same_list h h' p -> exp h p = exp h' p.
Proof. intros (_ & _ & E). unfold exp. destruct (cells h !! p), (cells h' !! p); cbn in *; congruence. Qed.

Lemma core_ext h h' t l :
  (forall p, p ∈ inorder t -> same_tree h h' p) -> (forall p, p ∈ l -> same_list h h' p) ->
  History.root h = History.root h' -> soonest h = soonest h' -> latest h = latest h' -> count h = count h' ->
  hist_core h t l -> hist_core h' t l.
Proof.
  intros H1 H2 Er Es El Ec [C1 C2 C3 C4 C5]. constructor.
  - revert C1. apply tree_rep_ext. intros p Hp. by apply H1.
  - by rewrite <- Er.
  - rewrite <- Es, <- El, <- Ec. destruct C3 as (D & ?). split; [|done]. revert D. apply dll_ext.
    intros p Hp. destruct (H2 p Hp) as (? & ? & _); auto.
  - revert C4. apply ordered_ext. intros p Hp. by apply same_key, H1.
  - revert C5. apply by_exp_ext. intros p Hp. by apply same_exp, H2.
Qed.

(** The list lacks [p]. *)
Record part_rep (h : DPS_History) (t : tree) (l : list ptr) (p : ptr) : Prop := {
  pr_core : hist_core h t l;
  pr_perm : inorder t ≡ₚ p :: l;
  pr_cells : forall q, is_Some (cells h !! q) <-> q = p \/ q ∈ l;
  pr_prev : prevs h !! p = Some None;
  pr_next : nexts h !! p = Some None
}.

Lemma part_size h t l p : part_rep h t l p -> (p ∉ l) /\ NoDup l /\ (length l < size (cells h))%nat.
Proof.
  intros [C P Hc _ _]. destruct (hc_list _ _ _ C) as (_ & _ & _ & _ & Nl).
  assert (Nt : NoDup (inorder t)).
  { pose proof (hc_ord _ _ _ C) as Ho. clear -Ho. induction (inorder t) as [|x l IH]; [constructor|].
    apply ordered_cons in Ho as [H1 H2]. constructor; [|auto]. intros Hx. specialize (H1 x Hx).
    by apply (irreflexivity uuid_lt) in H1. }
  rewrite P in Nt. apply NoDup_cons in Nt as [Np _]. split_and!; try done.
  replace (size (cells h)) with (length (p :: l)); [cbn; lia|].
  rewrite <- size_dom, <- (size_list_to_set (C := gset ptr) (p :: l)) by by constructor. f_equal.
  apply leibniz_equiv. intros q. rewrite elem_of_list_to_set, elem_of_dom, Hc, elem_of_cons. done.
Qed.

Lemma by_exp_insert h a p b :
  by_exp h (a ++ b) -> Forall (fun q => exp h q <= exp h p) a -> Forall (fun q => exp h p <= exp h q) b ->
  by_exp h (a ++ p :: b).
Proof.
  intros (B1 & B2 & B3)%by_exp_app Ha Hb. apply by_exp_app. split; [|split; [done|by constructor]].
  rewrite Forall_forall in Ha. intros x y Hx [->|Hy]%elem_of_cons; auto.
Qed.

Lemma relink_spec h t l p d :
  part_rep h t l p -> count h + 1 < 2 ^ 32 -> ph_id d = key h p ->
  exists h' l', (h ← set_cell h p d; LinkPub h p) = Some h' /\ hist_rep h' t l' /\
    cells h' = <[p := d]> (cells h) /\ count h' = count h + 1.
Proof.
  intros PR Hlt Hd. destruct (part_size _ _ _ _ PR) as (Np & Nl & Hsz). destruct PR as [C P Hc Hp Hx].
  unfold set_cell. rewrite store_some by (apply Hc; by left). cbn [mbind option_bind].
  set (h1 := mkHistory _ _ _ _ _ _ _ _ _ _).
  assert (C1 : hist_core h1 t l).
  { revert C. apply core_ext; try done.
    - intros q _. split; [done|]. cbn. destruct (decide (p = q)) as [<-|]; [|by rewrite lookup_insert_ne].
      rewrite lookup_insert_eq. destruct (proj2 (Hc p)) as [dp Hdp]; [by left|]. rewrite Hdp. cbn.
      by rewrite Hd, (cell_key _ _ _ Hdp).
    - intros q Hq. split; [done|]. split; [done|]. cbn. rewrite lookup_insert_ne; [done|]. by intros ->. }
  destruct (LinkPub_spec h1 (prevs h) (nexts h) l (soonest h) (latest h) (count h) p)
    as (a & b & pv & nx & s & e & n & El & E & HL & Ha & Hb); try done.
  { apply (hc_list _ _ _ C). }
  { apply (hc_exp _ _ _ C1). } 
  { apply Forall_forall. intros q Hq. cbn. apply insert_keep, Hc. by right. }
  { cbn. rewrite lookup_insert_eq. eauto. }
  { unfold walk_fuel. cbn. rewrite map_size_insert_Some; [lia|]. apply Hc. by left. }
  exists (with_list h1 pv nx s e n), (a ++ p :: b). split; [exact E|].
  split; [|split; [done|]].
  - apply hist_rep_core. split; [|split].
    + destruct C1 as [T1 T2 T3 T4 T5]. constructor; try done. change (by_exp h1 (a ++ p :: b)).
      rewrite El in T5. by apply by_exp_insert.
    + rewrite P, El. apply Permutation_middle.
    + intros q. cbn. rewrite lookup_insert_is_Some, Hc, El, !elem_of_app, elem_of_cons.
      clear. destruct (decide (p = q)) as [->|]; [tauto|]. split; [|tauto].
      intros [H|[_ [H|[H|H]]]]; auto.
  - destruct HL as (_ & _ & _ & -> & _). destruct (hc_list _ _ _ C) as (_ & _ & _ & E4 & _). cbn.
    rewrite E4, El, !length_app. cbn. lia.
Qed.

(** The first part of [DPS_UpdatePubHistory]: the record to write, out of the list. *)
Definition take_record (h : DPS_History) (phNew : ptr) (pubId : DPS_UUID) : option (ptr * DPS_History) :=
  '(ph, h) ← History.Insert (calloc_cell h phNew pubId) phNew;
  h ← (if negb (bool_decide (ph = phNew)) then h ← FreePubHistory h phNew; UnlinkPub h ph else Some h);
  Some (ph, h).

Section take.
Context (h : DPS_History) (t : tree) (l : list ptr) (HR : hist_rep h t l).
Context (p : ptr) (u : DPS_UUID) (Hfresh : cells h !! p = None).

Lemma fresh_not_in : (p ∉ l) /\ (p ∉ inorder t).
Proof.
  rewrite (hr_in_tree h t l HR). cut (p ∉ l); [done|]. intros Hp. apply (hr_cells _ _ _ HR) in Hp as [d Hd]. congruence.
Qed.

Lemma calloc_core : hist_core (calloc_cell h p u) t l.
Proof.
  destruct fresh_not_in as [N1 N2]. apply (core_ext h); try done; [| |by apply hist_rep_core in HR as [? _]].
  all: intros q Hq; assert (p <> q) by (by intros ->); repeat split; cbn; by rewrite lookup_insert_ne.
Qed.

Lemma take_insert :
  let h0 := calloc_cell h p u in
  inserted h0 (h_links h0) p u t (History.Insert h0 p).
Proof.
  intros h0. destruct fresh_not_in as [N1 N2]. destruct (hr_fuel h t l HR) as [F1 F2].
  pose proof calloc_core as C. fold h0 in C.
  pose proof (Insert_spec h0 (h_links h0) t p (mkPH u 0 0 [] 0)) as H.
  replace (with_tree h0 (h_links h0) (tree_ptr t)) with h0 in H.
  2: { rewrite <- (hc_root _ _ _ C). by rewrite with_tree_id. }
  apply H; cbn; try by rewrite lookup_insert_eq.
  - apply (hc_tree _ _ _ C).
  - apply (hc_ord _ _ _ C).
  - apply Forall_forall. intros q Hq. cbn. apply insert_keep, (hr_cells _ _ _ HR), (hr_in_tree h t l HR), Hq.
  - unfold walk_fuel in *. cbn. rewrite map_size_insert_None by done. lia.
  - constructor; [done|]. apply (hr_NoDup h t l HR).
Qed.

(** A new record. *)
Lemma take_new k t' a b :
  let h0 := calloc_cell h p u in let h1 := with_tree h0 k (tree_ptr t') in
  tree_rep k None t' -> inorder t = a ++ b -> inorder t' = a ++ p :: b ->
  (forall q, q ∈ a -> uuid_lt (key h0 q) u) -> (forall q, q ∈ b -> uuid_lt u (key h0 q)) ->
  part_rep h1 t' l p /\ forall q, q ∈ l -> key h q <> u.
Proof.
  intros h0 h1 Ht Ea Eb Ha Hb. destruct fresh_not_in as [N1 N2]. pose proof calloc_core as [C1 C2 C3 C4 C5].
  assert (Kp : key h0 p = u) by (unfold key; cbn; by rewrite lookup_insert_eq).
  assert (Kq : forall q, q ∈ l -> key h0 q = key h q).
  { intros q Hq. unfold key. cbn. rewrite lookup_insert_ne; [done|]. by intros ->. }
  split.
  - constructor.
    + constructor; try done; [by destruct k|]. change (ordered h0 (inorder t')).
      rewrite Eb. fold h0 in C4. rewrite Ea in C4. apply ordered_app in C4 as (O1 & O2 & O3).
      apply ordered_app. split; [|split; [done|apply ordered_cons; split; [|done]]].
      * intros x y Hx [->|Hy]%elem_of_cons; [|auto]. unfold key_lt. rewrite Kp. auto.
      * intros y Hy. unfold key_lt. rewrite Kp. auto.
    + rewrite Eb, <- Permutation_middle, <- Ea. by rewrite (hr_perm _ _ _ HR).
    + intros q. cbn. rewrite lookup_insert_is_Some. rewrite (hr_cells _ _ _ HR).
      destruct (decide (p = q)) as [->|]; [tauto|]. split; [intros [|[]]; auto|].
      intros [->|Hq]; [by left|]. by right.
    + cbn. by rewrite lookup_insert_eq.
    + cbn. by rewrite lookup_insert_eq.
  - intros q Hq. rewrite <- Kq by done. rewrite <- (hr_in_tree h t l HR), Ea, elem_of_app in Hq. intros E.
    destruct Hq as [Hq|Hq]; [apply Ha in Hq|apply Hb in Hq]; rewrite E in Hq; by apply (irreflexivity uuid_lt) in Hq.
Qed.

(** The record is there: the new cell is freed. *)
Lemma free_calloc :
  exists h1, FreePubHistory (calloc_cell h p u) p = Some h1 /\ hist_rep h1 t l /\ cells h1 = cells h /\
    count h1 = count h.
Proof.
  destruct fresh_not_in as [N1 N2]. unfold FreePubHistory. cbn [calloc_cell cells]. rewrite lookup_insert_eq.
  cbn [mbind option_bind]. eexists. split; [reflexivity|]. cbn [cells count]. rewrite delete_insert_id by done.
  split; [|done]. apply hist_rep_core in HR as (C & P & Hc). apply hist_rep_core. split; [|done].
  revert C. apply core_ext; try done.
  - intros q Hq. assert (p <> q) by (by intros ->). repeat split; cbn; by rewrite lookup_delete_ne, lookup_insert_ne.
  - intros q Hq. assert (p <> q) by (by intros ->). repeat split; cbn; by rewrite lookup_delete_ne, lookup_insert_ne.
Qed.
End take.

Lemma unlink_part h t l p :
  hist_rep h t l -> p ∈ l -> count h < 2 ^ 32 ->
  exists h' l', UnlinkPub h p = Some h' /\ part_rep h' t l' p /\ cells h' = cells h /\ l ≡ₚ p :: l'.
Proof.
  intros HR Hp Hc. apply list_elem_of_split in Hp as (l1 & l2 & ->).
  destruct HR as [T1 T2 T3 T4 T5 T6 T7].
  destruct (UnlinkPub_spec h _ _ l1 p l2 _ _ _ T3 Hc) as (pv & nx & s & e & n & E1 & HL' & H1 & H2).
  rewrite with_list_id in E1. exists (with_list h pv nx s e n), (l1 ++ l2). split; [done|].
  split; [|split; [done|by rewrite Permutation_middle]]. constructor; try done.
  - constructor; try done. by apply (sorted_drop _ l1 p l2).
  - rewrite T4. by rewrite Permutation_middle.
  - intros q. cbn. rewrite T7, !elem_of_app, elem_of_cons. tauto.
Qed.

(** The record of [u] is taken out of the list, or a new one is made. *)
Lemma take_record_spec h t l p u :
  hist_rep h t l -> cells h !! p = None -> count h < 2 ^ 32 ->
  exists ph h' t' l', take_record h p u = Some (ph, h') /\ part_rep h' t' l' ph /\ key h' ph = u /\
    ((ph = p /\ cells h' = <[p := mkPH u 0 0 [] 0]> (cells h) /\ (forall q, q ∈ l -> key h q <> u) /\ l' = l) \/
     (cells h' = cells h /\ key h ph = u /\ l ≡ₚ ph :: l')).
Proof.
  intros HR Hf Hc. pose proof (take_insert h t l HR p u Hf) as [(q & E & Hq & Hk)|(k & t' & E & Ht & _ & a & b & E1 & E2 & E3 & E4)];
    unfold take_record; rewrite E; cbn [mbind option_bind].
  - destruct (fresh_not_in h t l HR p Hf) as [N1 N2].
    rewrite bool_decide_false by (by intros ->). cbn [negb].
    rewrite <- (hc_root _ _ _ (calloc_core h t l HR p u Hf)), with_tree_id.
    destruct (free_calloc h t l HR p u Hf) as (h1 & -> & HR1 & Ec1 & En1). cbn [mbind option_bind].
    rewrite (hr_in_tree h t l HR) in Hq.
    destruct (unlink_part h1 t l q HR1 Hq) as (h2 & l' & -> & PR & Ec2 & Pl); [lia|]. cbn [mbind option_bind].
    assert (Hk' : key h q = u).
    { rewrite <- Hk. unfold key. cbn. rewrite lookup_insert_ne; [done|]. by intros ->. }
    exists q, h2, t, l'. split; [done|]. split; [done|]. split.
    + rewrite <- Hk'. unfold key. by rewrite Ec2, Ec1.
    + right. rewrite Ec2. done.
  - rewrite bool_decide_true by done. cbn [negb mbind option_bind].
    destruct (take_new h t l HR p u Hf k t' a b Ht E1 E2 E3 E4) as [PR Hn].
    eexists p, _, t', l. split; [reflexivity|]. split; [done|]. split.
    + unfold key. cbn. by rewrite lookup_insert_eq.
    + left. done.
Qed.
