(* ===== verification/HistTheorems.v ===== *)
(** * Histories refine maps

    The abstract history is a map from UUIDs to records; each operation of
    [src/history.c] is one on the map, errors and failed assertions included. *)
From S2P Require Import Prelude Status Buffer BitVec Uuid Addr History HistTree HistRemove HistList HistOps.
From stdpp Require Import gmap sorting.
#[local] Open Scope Z_scope.
#[local] Set Warnings "-clear-no-such-hyp".

(** ** The specification *)

Abbreviation hist_map := (gmap DPS_UUID PubHistory).

Definition new_record (u : DPS_UUID) : PubHistory := mkPH u 0 0 [] 0.

(** What an update makes of a record. *)
Definition updated (now : Z) (alloc2 : bool) (d : PubHistory) (sequenceNum ackRequested ttl hopCount : Z)
    (addr : DPS_NodeAddress) : option PubHistory :=
  addrs ← (if negb (type_code (addr_type addr) =? 0)
           then update_addrs alloc2 (ph_addrs d) addr sequenceNum hopCount
           else Some (ph_addrs d));
  Some (mkPH (ph_id d) (Z.max (ph_sn d) sequenceNum) ackRequested addrs
          (u64 (now + DPS_SECS_TO_MS ttl + PUB_HISTORY_LIFETIME))).

Inductive hist_op :=
  | OpUpdate (now : Z) (alloc1 : option ptr) (alloc2 : bool) (u : DPS_UUID)
      (sequenceNum ackRequested ttl hopCount : Z) (addr : DPS_NodeAddress)
  | OpDelete (u : DPS_UUID)
  | OpFreshen (now : Z)
  | OpStale (u : DPS_UUID) (sequenceNum : Z)
  | OpLookup (u : DPS_UUID)
  | OpReceived (u : DPS_UUID) (sequenceNum : Z) (source destination : DPS_NodeAddress).

Inductive hist_out :=
  | OutStatus (st : DPS_Status)
  | OutBool (b : bool)
  | OutAck (r : DPS_Status * Z * option DPS_NodeAddress)
  | OutNone.

Definition spec_freshen (A : hist_map) (now : Z) : hist_map :=
  if Z.of_nat (size A) >? HISTORY_THRESHOLD then filter (fun x => now < ph_expiration x.2) A else A.

Definition spec_lookup (d : option PubHistory) : DPS_Status * Z * option DPS_NodeAddress :=
  match d with
  | Some (mkPH _ sn ack (na :: addrs) _) =>
      if negb (ack =? 0)
      then (DPS_OK, sn, Some (shorter_addr (na_hopCount na) (na_addr na) addrs))
      else (DPS_ERR_MISSING, 0, None)
  | _ => (DPS_ERR_MISSING, 0, None)
  end.

Definition spec_step (A : hist_map) (op : hist_op) : option (hist_out * hist_map) :=
  match op with
  | OpUpdate now None alloc2 u sn ack ttl hops addr => Some (OutStatus DPS_ERR_RESOURCES, A)
  | OpUpdate now (Some _) alloc2 u sn ack ttl hops addr =>
      d ← updated now alloc2 (default (new_record u) (A !! u)) sn ack ttl hops addr;
      Some (OutStatus DPS_OK, <[u := d]> A)
  | OpDelete u =>
      Some (match A !! u with
            | Some _ => (OutStatus DPS_OK, delete u A)
            | None => (OutStatus DPS_ERR_MISSING, A)
            end)
  | OpFreshen now => Some (OutNone, spec_freshen A now)
  | OpStale u sn =>
      Some (OutBool (match A !! u with Some d => sn <=? ph_sn d | None => false end), A)
  | OpLookup u => Some (OutAck (spec_lookup (A !! u)), A)
  | OpReceived u sn src dst =>
      same ← DPS_SameAddr src dst;
      b ← (if same : bool then Some true
           else match A !! u with Some d => received_from (ph_addrs d) sn dst | None => Some false end);
      Some (OutBool b, A)
  end.

(** ** The implementation *)

Definition hist_step (h : DPS_History) (op : hist_op) : option (hist_out * DPS_History) :=
  match op with
  | OpUpdate now alloc1 alloc2 u sn ack ttl hops addr =>
      '(st, h) ← DPS_UpdatePubHistory now alloc1 alloc2 h u sn ack ttl hops addr; Some (OutStatus st, h)
  | OpDelete u => '(st, h) ← DPS_DeletePubHistory h u; Some (OutStatus st, h)
  | OpFreshen now => h ← DPS_FreshenHistory h now; Some (OutNone, h)
  | OpStale u sn => b ← DPS_PublicationIsStale h u sn; Some (OutBool b, h)
  | OpLookup u => r ← DPS_LookupPublisherForAck h u; Some (OutAck r, h)
  | OpReceived u sn src dst => b ← DPS_PublicationReceivedFrom h u sn src dst; Some (OutBool b, h)
  end.

(** [calloc] returns a cell that is not in use. *)
Definition fresh_op (h : DPS_History) (op : hist_op) : Prop :=
  match op with OpUpdate _ (Some p) _ _ _ _ _ _ _ => cells h !! p = None | _ => True end.

Definition empty_history : DPS_History := mkHistory ∅ ∅ ∅ ∅ ∅ ∅ None None None 0.

(** ** The relation *)

Definition holds_map (h : DPS_History) (A : hist_map) : Prop :=
  forall u d, A !! u = Some d <-> exists p, cells h !! p = Some d /\ ph_id d = u.

Definition represents (h : DPS_History) (A : hist_map) : Prop :=
  (exists t l, hist_rep h t l) /\ holds_map h A.

Lemma empty_represents : represents empty_history ∅.
Proof.
  split.
  - exists Leaf, []. constructor; try done; try constructor; try done.
    + repeat split. constructor.
    + intros [d Hd]. done.
    + by intros ?%elem_of_nil.
  - intros u d. rewrite lookup_empty. split; [done|]. intros (p & Hp & _). done.
Qed.

Lemma Find_represents h A u :
  represents h A ->
  exists o, Find h u = Some o /\
    match o with
    | Some p => exists d, cells h !! p = Some d /\ ph_id d = u /\ A !! u = Some d
    | None => A !! u = None
    end.
Proof.
  intros [(t & l & HR) HA]. destruct (hr_fuel h t l HR) as [F1 F2]. unfold Find. rewrite (hr_root _ _ _ HR).
  destruct (find_loop_spec h (walk_fuel h) t None u) as (o & E & Ho); [apply HR|apply HR| |done|].
  { apply (hr_celled h t l HR). intros p. by rewrite (hr_in_tree h t l HR). }
  exists o. split; [exact E|]. destruct o as [p|].
  - destruct Ho as [Hp Hk]. rewrite (hr_in_tree h t l HR) in Hp. apply (hr_cells _ _ _ HR) in Hp as [d Hd].
    exists d. rewrite <- (cell_key _ _ _ Hd) in Hk. split_and!; try done. apply HA. eauto.
  - destruct (A !! u) as [d|] eqn:E'; [|done]. apply HA in E' as (p & Hp & Hid). exfalso. apply (Ho p).
    + rewrite (hr_in_tree h t l HR). apply (hr_cells _ _ _ HR). eauto.
    + by rewrite <- (cell_key _ _ _ Hp).
Qed.

(** The map of a heap in which one cell was dropped, or written. *)
Lemma holds_delete h h' t l A p d :
  hist_rep h t l -> holds_map h A -> cells h !! p = Some d -> cells h' = delete p (cells h) ->
  holds_map h' (delete (ph_id d) A).
Proof.
  intros HR HA Hp Ec u d'. rewrite lookup_delete_Some, (HA u d'), Ec. split.
  - intros (Hne & q & Hq & Hid). exists q. rewrite lookup_delete_ne; [done|]. intros ->. congruence.
  - intros (q & (Hne & Hq)%lookup_delete_Some & Hid). split; [|eauto]. intros E. apply Hne.
    apply (hr_key_inj h t l HR); try (apply (hr_cells _ _ _ HR); eauto).
    rewrite <- (cell_key _ _ _ Hp), <- (cell_key _ _ _ Hq). congruence.
Qed.

Lemma holds_insert h h' t l A p d :
  hist_rep h' t l -> holds_map h A -> cells h' = <[p := d]> (cells h) ->
  (forall q d', cells h !! q = Some d' -> ph_id d' = ph_id d -> q = p) ->
  (forall d', cells h !! p = Some d' -> ph_id d' = ph_id d) ->
  holds_map h' (<[ph_id d := d]> A).
Proof.
  intros HR HA Ec Huq Hid u d'. rewrite Ec. rewrite lookup_insert_Some, (HA u d'). setoid_rewrite lookup_insert_Some. split.
  - intros [[<- <-]|(Hne & q & Hq & Hu)]; [by exists p; auto|]. exists q. split; [|done]. right. split; [|done].
    intros ->. specialize (Hid _ Hq). congruence.
  - intros (q & [[<- <-]|[Hne Hq]] & Hu); [by left|]. right. split; [|eauto]. intros E. apply Hne. symmetry.
    apply (Huq q d'); congruence.
Qed.

(** ** Each operation *)

Lemma drop_cell_bind {B} h p (f : DPS_History -> option B) :
  (h ← UnlinkPub h p; h ← Remove 2 h p; h ← FreePubHistory h p; f h) = (h ← drop_cell h p; f h).
Proof.
  unfold drop_cell. destruct (UnlinkPub h p) as [h1|]; [|done]. cbn [mbind option_bind].
  destruct (Remove 2 h1 p) as [h2|]; done.
Qed.

Lemma hist_count h t l : hist_rep h t l -> count h = Z.of_nat (length l).
Proof. intros HR. by destruct (hr_list _ _ _ HR) as (_ & _ & _ & -> & _). Qed.

Lemma delete_step h A u :
  represents h A -> count h < 2 ^ 32 ->
  exists h', DPS_DeletePubHistory h u =
      Some (if A !! u is Some _ then DPS_OK else DPS_ERR_MISSING, h') /\ represents h' (delete u A) /\
    count h' <= count h.
Proof.
  intros HA Hc. destruct (Find_represents h A u HA) as (o & E & Ho). unfold DPS_DeletePubHistory. rewrite E.
  cbn [mbind option_bind]. destruct o as [p|].
  - destruct Ho as (d & Hd & Hid & Hu). rewrite Hd. cbn [mbind option_bind]. rewrite bool_decide_true by done.
    cbn [c_assert mbind option_bind]. destruct HA as [(t & l & HR) HA].
    assert (Hp : p ∈ l) by (apply (hr_cells _ _ _ HR); eauto).
    apply list_elem_of_split in Hp as (l1 & l2 & El).
    destruct (drop_cell_spec h t l HR l1 p l2 El Hc) as (h' & t' & Ed & HR' & Ec).
    rewrite drop_cell_bind, Ed. cbn [mbind option_bind]. exists h'. rewrite Hu.
    split; [done|]. split.
    + split; [by exists t', (l1 ++ l2)|]. rewrite <- Hid. by apply (holds_delete h h' t l A p d).
    + rewrite (hist_count _ _ _ HR), (hist_count _ _ _ HR'), El, !length_app. cbn. lia.
  - exists h. rewrite Ho. split; [done|]. split; [|done]. by rewrite delete_id.
Qed.

Lemma updated_id now alloc2 d0 sn ack ttl hops addr d :
  updated now alloc2 d0 sn ack ttl hops addr = Some d -> ph_id d = ph_id d0.
Proof. unfold updated. destruct (if negb _ then _ else _); cbn; [|done]. by intros [= <-]. Qed.

(** The record that was taken is that of the map, or a new one. *)
Definition taken (h h1 : DPS_History) (l l1 : list ptr) (p ph : ptr) (u : DPS_UUID) : Prop :=
  (ph = p /\ cells h1 = <[p := mkPH u 0 0 [] 0]> (cells h) /\ (forall q, q ∈ l -> key h q <> u) /\ l1 = l) \/
  (cells h1 = cells h /\ key h ph = u /\ l ≡ₚ ph :: l1).

Lemma taken_map h t l h1 l1 p ph u A :
  hist_rep h t l -> holds_map h A -> taken h h1 l l1 p ph u ->
  cells h1 !! ph = Some (default (new_record u) (A !! u)) /\ ph_id (default (new_record u) (A !! u)) = u /\
  (length l1 <= length l)%nat.
Proof.
  intros HR HA [(-> & Ec & Hn & ->)|(Ec & Hk & Pl)]; rewrite Ec.
  - assert (E : A !! u = None).
    { destruct (A !! u) as [d|] eqn:E; [|done]. apply HA in E as (q & Hq & Hid). exfalso. apply (Hn q).
      - apply (hr_cells _ _ _ HR). eauto.
      - by rewrite <- (cell_key _ _ _ Hq). }
    rewrite E, lookup_insert_eq. done.
  - assert (Hin : ph ∈ l) by (rewrite Pl; by left). apply (hr_cells _ _ _ HR) in Hin as [d Hd].
    assert (E : A !! u = Some d) by (apply HA; exists ph; by rewrite (cell_key _ _ _ Hd)).
    rewrite E, Hd, Pl. cbn. split; [done|]. split; [|lia]. by rewrite (cell_key _ _ _ Hd).
Qed.

Lemma taken_insert h t l h1 l1 p ph u A h' t' l' d :
  hist_rep h t l -> holds_map h A -> cells h !! p = None -> taken h h1 l l1 p ph u ->
  hist_rep h' t' l' -> cells h' = <[ph := d]> (cells h1) -> ph_id d = u ->
  holds_map h' (<[u := d]> A).
Proof.
  intros HR HA Hf [(-> & Ec & Hn & ->)|(Ec & Hk & Pl)] HR' Ec' <-; rewrite Ec in Ec'.
  - rewrite insert_insert_eq in Ec'. apply (holds_insert h h' t' l' A p); try done.
    + intros q d' Hq Hid. exfalso. apply (Hn q); [apply (hr_cells _ _ _ HR); eauto|].
      by rewrite <- (cell_key _ _ _ Hq).
    + intros d' Hd'. congruence.
  - apply (holds_insert h h' t' l' A ph); try done.
    + intros q d' Hq Hid. apply (hr_key_inj h t l HR).
      * apply (hr_cells _ _ _ HR). eauto.
      * rewrite Pl. by left.
      * by rewrite <- (cell_key _ _ _ Hq), Hid.
    + intros d' Hd'. by rewrite (cell_key _ _ _ Hd').
Qed.

Lemma update_rest h t l p u alloc2 A now sn ack ttl hops addr :
  hist_rep h t l -> holds_map h A -> cells h !! p = None -> count h + 1 < 2 ^ 32 ->
  let res :=
    ('(ph, h) ← take_record h p u;
     d ← cells h !! ph;
     d ← updated now alloc2 d sn ack ttl hops addr;
     h ← set_cell h ph d;
     h ← LinkPub h ph;
     Some (DPS_OK, h)) in
  match updated now alloc2 (default (new_record u) (A !! u)) sn ack ttl hops addr with
  | Some d => exists h', res = Some (DPS_OK, h') /\ represents h' (<[u := d]> A) /\ count h' <= count h + 1
  | None => res = None
  end.
Proof.
  intros HR HA Hf Hc res.
  destruct (take_record_spec h t l p u HR Hf) as (ph & h1 & t1 & l1 & E & PR & Hk & Hcase); [lia|].
  fold (taken h h1 l l1 p ph u) in Hcase.
  destruct (taken_map h t l h1 l1 p ph u A HR HA Hcase) as (Hd & Hid & Hl).
  unfold res. rewrite E. cbn [mbind option_bind]. rewrite Hd. cbn [mbind option_bind].
  destruct (updated _ _ _ _ _ _ _ _) as [d|] eqn:Eu; [|done]. cbn [mbind option_bind].
  pose proof (updated_id _ _ _ _ _ _ _ _ _ Eu) as Hdid. rewrite Hid in Hdid.
  assert (Ec1 : count h1 = Z.of_nat (length l1)) by (by destruct (hc_list _ _ _ (pr_core _ _ _ _ PR)) as (_ & _ & _ & -> & _)).
  pose proof (hist_count _ _ _ HR) as Ec.
  destruct (relink_spec h1 t1 l1 ph d PR) as (h' & l' & E' & HR' & Ec' & En); [lia|by rewrite Hk|].
  exists h'. split; [|split; [split|lia]].
  - destruct (set_cell h1 ph d) as [h2|]; [|done]. cbn [mbind option_bind] in *. by rewrite E'.
  - by exists t1, l'.
  - by apply (taken_insert h t l h1 l1 p ph u A h' t1 l').
Qed.

Lemma update_unfold h p u alloc2 now sn ack ttl hops addr :
  DPS_UpdatePubHistory now (Some p) alloc2 h u sn ack ttl hops addr =
    ('(ph, h) ← take_record h p u;
     d ← cells h !! ph;
     d ← updated now alloc2 d sn ack ttl hops addr;
     h ← set_cell h ph d;
     h ← LinkPub h ph;
     Some (DPS_OK, h)).
Proof.
  unfold DPS_UpdatePubHistory, take_record, updated. destruct (History.Insert _ _) as [[ph h1]|]; [|done].
  cbn [mbind option_bind]. destruct (if negb (bool_decide _) then _ else _) as [h2|]; [|done].
  cbn [mbind option_bind]. destruct (cells h2 !! ph) as [d|]; [|done]. cbn [mbind option_bind].
  destruct (if negb _ then _ else _) as [addrs|]; done.
Qed.

(** *** Freshening *)

Lemma freshen_loop_spec fuel h t l now A :
  hist_rep h t l -> holds_map h A -> count h < 2 ^ 32 -> (length l <= fuel)%nat ->
  exists h', freshen_loop fuel h now = Some h' /\
    represents h' (filter (fun x => now < ph_expiration x.2) A) /\ count h' <= count h.
Proof.
  revert h t l A. induction fuel as [|fuel IH]; intros h t l A HR HA Hc Hf; cbn [freshen_loop];
    pose proof (hr_list _ _ _ HR) as (Hd & Es & _); rewrite Es; destruct l as [|p l]; cbn [head_ptr].
  1, 3: exists h; split; [done|]; split; [|done]; split; [by exists t, []|]; rewrite map_filter_id; [done|];
    intros u d Hu; apply HA in Hu as (p & Hp & _); exfalso;
    apply (not_elem_of_nil p), (hr_cells _ _ _ HR); eauto.
  { cbn in Hf. lia. }
  cbn [dll] in Hd. destruct Hd as (Hp & _). rewrite Hp. cbn [mbind option_bind].
  rewrite bool_decide_true by done. cbn [c_assert mbind option_bind].
  destruct (proj2 (hr_cells _ _ _ HR p)) as [d Hdc]; [by left|]. rewrite Hdc. cbn [mbind option_bind].
  rewrite Z.geb_leb. destruct (ph_expiration d <=? now) eqn:T; bools.
  - rewrite drop_cell_bind.
    destruct (drop_cell_spec h t (p :: l) HR [] p l eq_refl Hc) as (h1 & t1 & -> & HR1 & Ec1).
    cbn [mbind option_bind]. pose proof (holds_delete _ _ _ _ _ _ _ HR HA Hdc Ec1) as HA1.
    pose proof (hist_count _ _ _ HR) as En. pose proof (hist_count _ _ _ HR1) as En1. cbn [app length] in *.
    destruct (IH h1 t1 l (delete (ph_id d) A) HR1 HA1) as (h' & E & HA' & Hc'); [lia|lia|].
    exists h'. split; [done|]. split; [|lia]. rewrite map_filter_delete in HA'.
    rewrite delete_id in HA'; [done|]. apply map_lookup_filter_None. right. intros d' Hd'.
    apply HA in Hd' as (q & Hq & Hid).
    assert (q = p) as ->.
    { apply (hr_key_inj h t (p :: l) HR); [apply (hr_cells _ _ _ HR); eauto|by left|].
      by rewrite <- (cell_key _ _ _ Hq), <- (cell_key _ _ _ Hdc). }
    cbn. assert (d' = d) as -> by congruence. lia.
  - exists h. split; [done|]. split; [|done]. split; [by exists t, (p :: l)|].
    rewrite map_filter_id; [done|]. intros u d' Hu. cbn. apply HA in Hu as (q & Hq & _).
    assert (Hin : q ∈ p :: l) by (apply (hr_cells _ _ _ HR); eauto).
    rewrite (cell_exp _ _ _ Hdc) in T. rewrite (cell_exp _ _ _ Hq).
    apply elem_of_cons in Hin as [->|Hin]; [lia|].
    pose proof (hr_exp _ _ _ HR) as Ho. apply StronglySorted_inv in Ho as [_ Ho].
    apply (proj1 (Forall_forall _ _) Ho) in Hin. cbn in Hin. lia.
Qed.

Lemma map_size h A : represents h A -> count h = Z.of_nat (size A).
Proof.
  intros [(t & l & HR) HA]. rewrite (hist_count _ _ _ HR). f_equal.
  rewrite <- size_dom, <- (length_fmap (key h) l).
  rewrite <- (size_list_to_set (C := gset DPS_UUID) (key h <$> l)).
  - f_equal. apply leibniz_equiv. intros u. rewrite elem_of_list_to_set, elem_of_dom, list_elem_of_fmap. split.
    + intros (p & -> & Hp). apply (hr_cells _ _ _ HR) in Hp as [d Hd]. exists d. apply HA. exists p.
      by rewrite (cell_key _ _ _ Hd).
    + intros [d Hd]. apply HA in Hd as (p & Hp & <-). exists p. rewrite (cell_key _ _ _ Hp). split; [done|].
      apply (hr_cells _ _ _ HR). eauto.
  - apply NoDup_fmap_2_strong; [|apply (hr_NoDup h t l HR)]. intros p q Hp Hq. by apply (hr_key_inj h t l HR).
Qed.

Lemma freshen_step h A now :
  represents h A -> count h < 2 ^ 32 ->
  exists h', DPS_FreshenHistory h now = Some h' /\ represents h' (spec_freshen A now) /\ count h' <= count h.
Proof.
  intros HA Hc. unfold DPS_FreshenHistory, spec_freshen. rewrite <- (map_size h A HA).
  destruct (count h >? HISTORY_THRESHOLD); [|by exists h].
  destruct HA as [(t & l & HR) HA]. apply (freshen_loop_spec _ h t l); try done. apply (hr_fuel h t l HR).
Qed.

(** ** Refinement *)

(** One step of the implementation against the specification. *)
Definition step_ok (h : DPS_History) (A : hist_map) (op : hist_op) : Prop :=
  match spec_step A op with
  | Some (o, A') => exists h', hist_step h op = Some (o, h') /\ represents h' A' /\ count h' <= count h + 1
  | None => hist_step h op = None
  end.

Lemma hist_step_ok h A op :
  represents h A -> fresh_op h op -> count h + 1 < 2 ^ 32 -> step_ok h A op.
Proof.
  intros HA Hf Hc. unfold step_ok. destruct op as [now alloc1 alloc2 u sn ack ttl hops addr|u|now|u sn|u|u sn src dst];
    cbn [spec_step hist_step fresh_op] in *.
  - destruct alloc1 as [p|]; [|exists h; split; [done|]; split; [done|lia]]. rewrite update_unfold.
    destruct HA as [(t & l & HR) HA].
    pose proof (update_rest h t l p u alloc2 A now sn ack ttl hops addr HR HA Hf Hc) as H. cbn zeta in H.
    destruct (updated _ _ _ _ _ _ _ _) as [d|]; cbn [mbind option_bind]; [|by rewrite H].
    destruct H as (h' & -> & H). by exists h'.
  - destruct (delete_step h A u HA) as (h' & E & HA' & Hc'); [lia|]. rewrite E.
    destruct (A !! u) eqn:Eu; exists h'; (split; [done|]); (split; [|lia]); [done|]. by rewrite delete_id in HA'.
  - destruct (freshen_step h A now HA) as (h' & -> & HA' & Hc'); [lia|]. exists h'. split; [done|]. split; [done|lia].
  - destruct (Find_represents h A u HA) as (o & E & Ho). unfold DPS_PublicationIsStale. rewrite E. exists h.
    split; [|split; [done|lia]]. destruct o as [p|]; cbn; [|by rewrite Ho].
    destruct Ho as (d & -> & _ & ->). done.
  - destruct (Find_represents h A u HA) as (o & E & Ho). unfold DPS_LookupPublisherForAck. rewrite E. exists h.
    split; [|split; [done|lia]]. destruct o as [p|]; cbn; [|by rewrite Ho].
    destruct Ho as (d & -> & _ & ->). cbn. destruct d as [? ? ack [|na addrs] ?]; cbn; [done|]. by destruct (ack =? 0).
  - unfold DPS_PublicationReceivedFrom. destruct (DPS_SameAddr src dst) as [[]|]; cbn [mbind option_bind];
      [exists h; split; [done|]; split; [done|lia]| |done].
    destruct (Find_represents h A u HA) as (o & E & Ho). rewrite E. cbn [mbind option_bind].
    destruct o as [p|]; [|rewrite Ho; exists h; split; [done|]; split; [done|lia]].
    destruct Ho as (d & -> & _ & ->). cbn [mbind option_bind].
    destruct (received_from _ _ _); [|done]. exists h. split; [done|]. split; [done|lia].
Qed.

(** Runs, with what each operation returned. *)
Inductive hist_runs : DPS_History -> list (hist_op * hist_out) -> DPS_History -> Prop :=
  | hist_nil h : hist_runs h [] h
  | hist_cons h op o h1 tr h2 :
      fresh_op h op -> hist_step h op = Some (o, h1) -> hist_runs h1 tr h2 -> hist_runs h ((op, o) :: tr) h2.

Inductive spec_runs : hist_map -> list (hist_op * hist_out) -> hist_map -> Prop :=
  | spec_nil A : spec_runs A [] A
  | spec_cons A op o A1 tr A2 :
      spec_step A op = Some (o, A1) -> spec_runs A1 tr A2 -> spec_runs A ((op, o) :: tr) A2.

Lemma runs_simulate h A tr h' :
  represents h A -> hist_runs h tr h' -> count h + Z.of_nat (length tr) < 2 ^ 32 ->
  exists A', spec_runs A tr A' /\ represents h' A'.
Proof.
  intros HA Hr. revert A HA. induction Hr as [h|h op o h1 tr h2 Hf Hs Hr IH]; intros A HA Hc.
  - exists A. split; [constructor|done].
  - cbn [length] in Hc. pose proof (hist_step_ok h A op HA Hf) as Hok. unfold step_ok in Hok.
    destruct (spec_step A op) as [[o' A1]|] eqn:Es.
    + destruct Hok as (h' & E & HA1 & Hc1); [lia|]. assert (o = o' /\ h1 = h') as [-> ->] by (split; congruence).
      destruct (IH A1 HA1) as (A' & Hsr & HA'); [lia|]. exists A'. split; [|done]. by econstructor.
    + rewrite Hok in Hs; [done|lia].
Qed.

(** Nothing in the trace forgets [u]. *)
Definition keeps (u : DPS_UUID) (op : hist_op) : bool :=
  match op with OpDelete v => negb (bool_decide (v = u)) | OpFreshen _ => false | _ => true end.

Lemma updated_sn now alloc2 d0 sn ack ttl hops addr d :
  updated now alloc2 d0 sn ack ttl hops addr = Some d -> ph_sn d = Z.max (ph_sn d0) sn.
Proof. unfold updated. destruct (if negb _ then _ else _); cbn; [|done]. by intros [= <-]. Qed.

(** What is known of the record of [u] after each step. *)
Lemma step_sn A op o A1 u :
  spec_step A op = Some (o, A1) ->
  match op with
  | OpUpdate _ (Some _) _ v sn _ _ _ _ =>
      if decide (v = u) then exists d, A1 !! u = Some d /\ ph_sn d = Z.max (from_option ph_sn 0 (A !! u)) sn
      else A1 !! u = A !! u
  | OpDelete v => if decide (v = u) then A1 !! u = None else A1 !! u = A !! u
  | OpFreshen now => A1 !! u = A !! u \/ A1 !! u = None
  | _ => A1 = A
  end.
Proof.
  destruct op as [now [p|] alloc2 v sn ack ttl hops addr|v|now|v sn|v|v sn src dst]; cbn; intros Hs;
    try by (injection Hs).
  - destruct (updated _ _ _ _ _ _ _ _) as [d|] eqn:E; [|done]. injection Hs as _ <-. apply updated_sn in E.
    destruct (decide (v = u)) as [->|]; [|by rewrite lookup_insert_ne]. exists d. rewrite lookup_insert_eq.
    split; [done|]. rewrite E. by destruct (A !! u).
  - destruct (A !! v) eqn:E; injection Hs as _ <-; destruct (decide (v = u)) as [->|]; try done.
    + by rewrite lookup_delete_eq.
    + by rewrite lookup_delete_ne.
  - injection Hs as _ <-. unfold spec_freshen. destruct (_ >? _); [|by left]. rewrite map_lookup_filter.
    destruct (A !! u) as [d|]; cbn; [|by left]. case_guard; [by left|by right].
  - destruct (DPS_SameAddr src dst); cbn in Hs; [|done].
    destruct (if _ : bool then _ else _); cbn in Hs; [|done]. by injection Hs.
Qed.

Lemma spec_runs_keep A tr A' u sn :
  spec_runs A tr A' -> forallb (fun x => keeps u x.1) tr = true ->
  (exists d, A !! u = Some d /\ sn <= ph_sn d) -> exists d, A' !! u = Some d /\ sn <= ph_sn d.
Proof.
  intros Hr. induction Hr as [A|A op o A1 tr A2 Hs Hr IH]; intros Hk (d & Hd & Hsn); [eauto|].
  cbn [forallb fst] in Hk. apply andb_true_iff in Hk as [Hk1 Hk2]. apply (IH Hk2).
  apply (step_sn _ _ _ _ u) in Hs.
  destruct op as [now [p|] alloc2 v sn' ack ttl hops addr|v|now|v sn'|v|v sn' src dst]; try (subst; by eauto); [|].
  - destruct (decide (v = u)); [|rewrite Hs; eauto]. destruct Hs as (d' & Hd' & E). rewrite Hd in E. cbn in E.
    exists d'. split; [done|]. lia.
  - cbn in Hk1. apply negb_true_iff in Hk1. apply bool_decide_eq_false in Hk1. rewrite decide_False in Hs by done.
    rewrite Hs. eauto.
Qed.

(** Every update of [u] has a smaller sequence number. *)
Definition before (u : DPS_UUID) (sn : Z) (op : hist_op) : bool :=
  match op with OpUpdate _ _ _ v sn' _ _ _ _ => negb (bool_decide (v = u)) || (sn' <? sn) | _ => true end.

Lemma spec_runs_before A tr A' u sn :
  0 < sn -> spec_runs A tr A' -> forallb (fun x => before u sn x.1) tr = true ->
  (forall d, A !! u = Some d -> ph_sn d < sn) -> forall d, A' !! u = Some d -> ph_sn d < sn.
Proof.
  intros H0 Hr. induction Hr as [A|A op o A1 tr A2 Hs Hr IH]; intros Hk HA; [done|].
  cbn [forallb fst] in Hk. apply andb_true_iff in Hk as [Hk1 Hk2]. apply (IH Hk2).
  apply (step_sn _ _ _ _ u) in Hs.
  destruct op as [now [p|] alloc2 v sn' ack ttl hops addr|v|now|v sn'|v|v sn' src dst]; try (subst; by eauto).
  - destruct (decide (v = u)) as [->|]; [|rewrite Hs; eauto]. destruct Hs as (d' & Hd' & E).
    intros d Hd. assert (d = d') as -> by congruence. cbn in Hk1. rewrite bool_decide_true in Hk1 by done.
    cbn in Hk1. bools. destruct (A !! u) as [d0|] eqn:E0; cbn in E; [|lia]. specialize (HA d0 eq_refl). lia.
  - destruct (decide (v = u)); rewrite Hs; [done|eauto].
  - destruct Hs as [-> | ->]; [eauto|done].
Qed.

Lemma spec_runs_app A tr1 tr2 A' :
  spec_runs A (tr1 ++ tr2) A' -> exists A1, spec_runs A tr1 A1 /\ spec_runs A1 tr2 A'.
Proof.
  revert A. induction tr1 as [|x tr1 IH]; intros A H; cbn in *; [exists A; split; [constructor|done]|].
  inversion H; subst. edestruct IH as (A2 & H1 & H2); [done|]. exists A2. split; [|done]. by econstructor.
Qed.

(** ** Theorems *)

(** C18: the history refines a map from UUIDs to records: on any heap that
    represents a map, each operation returns what the map says (status codes,
    staleness, where an acknowledgement goes), fails an assertion exactly when
    the map operation does, and leaves a heap, with a search tree and a list by
    expiration of the same cells, that represents the new map. *)
Theorem history_refines h A op :
  represents h A -> fresh_op h op -> count h + 1 < 2 ^ 32 ->
  match spec_step A op with
  | Some (o, A') => exists h', hist_step h op = Some (o, h') /\ represents h' A' /\ count h' = Z.of_nat (size A')
  | None => hist_step h op = None
  end.
Proof.
  intros HA Hf Hc. pose proof (hist_step_ok h A op HA Hf Hc) as H. unfold step_ok in H.
  destruct (spec_step A op) as [[o A']|]; [|done]. destruct H as (h' & E & HA' & _). exists h'.
  split; [done|]. split; [done|]. by apply map_size.
Qed.

(** C20: duplicates are suppressed: after a publication was recorded, it and the
    earlier ones of its UUID are stale for as long as the record is not deleted
    and the history not freshened, whatever else happens. *)
Theorem duplicates_suppressed tr1 tr2 h now p alloc2 u sn ack ttl hops addr sn' o :
  hist_runs empty_history
    (tr1 ++ (OpUpdate now (Some p) alloc2 u sn ack ttl hops addr, OutStatus DPS_OK) :: tr2 ++ [(OpStale u sn', o)]) h ->
  Z.of_nat (length tr1 + length tr2) + 2 < 2 ^ 32 -> forallb (fun x => keeps u x.1) tr2 = true -> sn' <= sn ->
  o = OutBool true.
Proof.
  intros Hr Hl Hk Hsn. apply (runs_simulate _ ∅) in Hr as (A & Hr & _); [|exact empty_represents|].
  2: { rewrite length_app. cbn [length]. rewrite length_app. cbn [empty_history count length]. lia. }
  apply spec_runs_app in Hr as (A1 & _ & Hr). inversion Hr as [|? ? ? A2 ? ? Hs Hr2]; subst.
  apply spec_runs_app in Hr2 as (A3 & Hr2 & Hr3).
  apply (step_sn _ _ _ _ u) in Hs. cbn in Hs. rewrite decide_True in Hs by done. destruct Hs as (d & Hd & E).
  destruct (spec_runs_keep _ _ _ u sn Hr2 Hk) as (d' & Hd' & Hsn'); [exists d; split; [done|lia]|].
  inversion Hr3 as [|? ? ? ? ? ? Hs _]; subst. cbn in Hs. rewrite Hd' in Hs. injection Hs as <- _.
  f_equal. apply Z.leb_le. lia.
Qed.

(** C21: new publications are not taken for duplicates: as long as every record
    made for a UUID has a smaller sequence number, the next one is not stale,
    whatever was recorded, deleted and freshened. *)
Theorem new_not_stale tr h u sn o :
  hist_runs empty_history (tr ++ [(OpStale u sn, o)]) h ->
  Z.of_nat (length tr) + 1 < 2 ^ 32 -> 0 < sn -> forallb (fun x => before u sn x.1) tr = true ->
  o = OutBool false.
Proof.
  intros Hr Hl H0 Hk. apply (runs_simulate _ ∅) in Hr as (A & Hr & _); [|exact empty_represents|].
  2: { rewrite length_app. cbn [empty_history count length]. lia. }
  apply spec_runs_app in Hr as (A1 & Hr & Hr1).
  assert (HB : forall d, A1 !! u = Some d -> ph_sn d < sn).
  { apply (spec_runs_before ∅ tr); [done..|]. intros d Hd. by rewrite lookup_empty in Hd. }
  inversion Hr1 as [|? ? ? ? ? ? Hs _]; subst. cbn in Hs. destruct (A1 !! u) as [d|]; injection Hs as <- _; [|done].
  f_equal. apply Z.leb_gt. by apply HB.
Qed.

Lemma free_loop_spec fuel h l a :
  dll (prevs h) (nexts h) a l None -> NoDup l -> celled h l -> (length l <= fuel)%nat ->
  exists h', free_loop fuel h (head_ptr l None) = Some h' /\
    forall p, cells h' !! p = if decide (p ∈ l) then None else cells h !! p.
Proof.
  revert h l a. induction fuel as [|fuel IH]; intros h [|p l] a Hd Hn Hc Hf; cbn [free_loop head_ptr];
    try (exists h; split; [done|]; intros p; by rewrite decide_False by apply not_elem_of_nil).
  { cbn in Hf. lia. }
  cbn [dll] in Hd. destruct Hd as (Hp & Hx & Hd). rewrite Hx. cbn [mbind option_bind].
  apply Forall_cons_iff in Hc as [[d Hdc] Hc]. apply NoDup_cons in Hn as [Np Hn].
  unfold FreePubHistory at 1. rewrite Hdc. cbn [mbind option_bind].
  set (h1 := mkHistory _ _ _ _ _ _ _ _ _ _).
  assert (E1 : forall q, q ∈ l -> p <> q) by (by intros q Hq ->).
  destruct (IH h1 l (Some p)) as (h' & E & Ec); [| |apply Forall_forall; intros q Hq| |].
  - revert Hd. apply dll_ext. intros q Hq. cbn. by rewrite !lookup_delete_ne by auto.
  - done.
  - cbn. rewrite lookup_delete_ne by auto. by apply (proj1 (Forall_forall _ _) Hc).
  - cbn in Hf. lia.
  - exists h'. split; [exact E|]. intros q. rewrite Ec. cbn. destruct (decide (p = q)) as [<-|Hne].
    + rewrite (decide_True (P := p ∈ p :: l)) by (by left). rewrite lookup_delete_eq. by destruct (decide _).
    + rewrite lookup_delete_ne by done. destruct (decide (q ∈ l)) as [Hq|Hq].
      * by rewrite decide_True by (by right).
      * rewrite decide_False; [done|]. intros [->|?]%elem_of_cons; done.
Qed.

(** [DPS_HistoryFree] frees every record exactly once and leaves no cell
    allocated. *)
Theorem HistoryFree_empties h A :
  represents h A ->
  exists h', DPS_HistoryFree h = Some h' /\ cells h' = ∅ /\ soonest h' = None /\ latest h' = None /\ count h' = 0.
Proof.
  intros [(t & l & HR) _]. destruct (hr_list _ _ _ HR) as (Hd & Es & _). unfold DPS_HistoryFree. rewrite Es.
  destruct (free_loop_spec (walk_fuel h) h l None Hd) as (h' & -> & Ec).
  - apply (hr_NoDup h t l HR).
  - by apply (hr_celled h t l HR).
  - apply (hr_fuel h t l HR).
  - eexists. split; [reflexivity|]. cbn. split; [|done]. apply map_eq. intros p. rewrite Ec, lookup_empty.
    destruct (decide (p ∈ l)) as [Hp|Hp]; [done|]. destruct (cells h !! p) as [d|] eqn:E; [|done].
    exfalso. apply Hp, (hr_cells _ _ _ HR). eauto.
Qed.

(** ** Concrete runs *)

#[export] Instance fresh_op_dec h op : Decision (fresh_op h op).
Proof. destruct op as [? [] ? ? ? ? ? ? ?| | | | |]; cbn; apply _. Defined.

Fixpoint hist_exec (h : DPS_History) (ops : list hist_op) : option (list (hist_op * hist_out) * DPS_History) :=
  match ops with
  | [] => Some ([], h)
  | op :: ops =>
      _ ← c_assert (bool_decide (fresh_op h op));
      '(o, h) ← hist_step h op;
      '(tr, h) ← hist_exec h ops;
      Some ((op, o) :: tr, h)
  end.

Lemma hist_exec_runs h ops tr h' : hist_exec h ops = Some (tr, h') -> hist_runs h tr h'.
Proof.
  revert h tr. induction ops as [|op ops IH]; intros h tr; cbn [hist_exec].
  - intros [= <- <-]. constructor.
  - destruct (bool_decide (fresh_op h op)) eqn:Ef; [|done]. apply bool_decide_eq_true in Ef.
    cbn [c_assert mbind option_bind]. destruct (hist_step h op) as [[o h1]|] eqn:Es; [|done].
    cbn [mbind option_bind]. destruct (hist_exec h1 ops) as [[tr1 h2]|] eqn:E; [|done].
    intros [= <- <-]. econstructor; eauto.
Qed.

Definition example_u (n : Z) : DPS_UUID := mkUUID n 7.
Definition example_ops : list hist_op :=
  [OpUpdate 0 (Some 1%positive) true (example_u 5) 3 1 10 2 example_v4;
   OpUpdate 4 (Some 2%positive) true (example_u 2) 1 1 0 1 example_v4;
   OpUpdate 5 (Some 3%positive) true (example_u 9) 1 1 3 1 example_v4;
   OpDelete (example_u 9);
   OpUpdate 6 (Some 3%positive) true (example_u 5) 4 1 0 1 example_v4].

Definition example_history : DPS_History := from_option snd empty_history (hist_exec empty_history example_ops).

Lemma history_refines_witness :
  exists A h', represents example_history A /\
    hist_step example_history (OpDelete (example_u 5)) = Some (OutStatus DPS_OK, h') /\
    represents h' (delete (example_u 5) A).
Proof.
  destruct (runs_simulate empty_history ∅ (from_option fst [] (hist_exec empty_history example_ops)) example_history)
    as (A & _ & HA); [exact empty_represents|apply (hist_exec_runs _ example_ops); vm_compute; reflexivity|vm_compute; reflexivity|].
  pose proof (history_refines example_history A (OpDelete (example_u 5)) HA I) as H.
  assert (Hs : exists d, A !! example_u 5 = Some d).
  { eexists. apply HA. exists 1%positive. split; vm_compute; reflexivity. }
  destruct Hs as [d Hd]. cbn [spec_step] in H. rewrite Hd in H.
  destruct H as (h' & H1 & H2 & _); [vm_compute; reflexivity|]. exists A, h'. split; [exact HA|]. split; [exact H1|exact H2].
Defined.

Lemma duplicates_suppressed_witness :
  exists o h, hist_runs empty_history
    ([] ++ (OpUpdate 0 (Some 1%positive) true (example_u 5) 3 1 10 2 example_v4, OutStatus DPS_OK) ::
     [(OpUpdate 4 (Some 2%positive) true (example_u 5) 1 1 0 1 example_v4, OutStatus DPS_OK)] ++
     [(OpStale (example_u 5) 2, o)]) h /\ o = OutBool true.
Proof.
  eexists (OutBool true), _. match goal with |- ?P /\ _ => assert (H : P) end.
  - apply (hist_exec_runs _ [OpUpdate 0 (Some 1%positive) true (example_u 5) 3 1 10 2 example_v4;
      OpUpdate 4 (Some 2%positive) true (example_u 5) 1 1 0 1 example_v4; OpStale (example_u 5) 2]).
    vm_compute. reflexivity.
  - split; [exact H|]. apply (duplicates_suppressed _ _ _ _ _ _ _ _ _ _ _ _ _ _ H);
      [vm_compute; reflexivity|vm_compute; reflexivity|lia].
Defined.

Lemma new_not_stale_witness :
  exists o h, hist_runs empty_history
    ([(OpUpdate 0 (Some 1%positive) true (example_u 5) 3 1 10 2 example_v4, OutStatus DPS_OK)] ++
     [(OpStale (example_u 5) 4, o)]) h /\ o = OutBool false.
Proof.
  eexists (OutBool false), _. match goal with |- ?P /\ _ => assert (H : P) end.
  - apply (hist_exec_runs _ [OpUpdate 0 (Some 1%positive) true (example_u 5) 3 1 10 2 example_v4;
      OpStale (example_u 5) 4]). vm_compute. reflexivity.
  - split; [exact H|]. apply (new_not_stale _ _ _ _ _ H); [vm_compute; reflexivity|lia|vm_compute; reflexivity].
Defined.

Lemma HistoryFree_empties_witness :
  exists h', DPS_HistoryFree example_history = Some h' /\ cells h' = ∅.
Proof.
  destruct (runs_simulate empty_history ∅ (from_option fst [] (hist_exec empty_history example_ops)) example_history)
    as (A & _ & HA); [exact empty_represents|apply (hist_exec_runs _ example_ops); vm_compute; reflexivity|vm_compute; reflexivity|].
  destruct (HistoryFree_empties example_history A HA) as (h' & H1 & H2 & _). exists h'. split; [exact H1|exact H2].
Defined.
