(* ===== verification/Node.v ===== *)
(** * The node: state and effects ([src/node.h], [src/sub.h], [src/pub.h], [src/dps.c])

    The state of a node, of its remote nodes, subscriptions and publications, and
    the monad in which the operations of [dps.c], [sub.c] and [pub.c] are written.

    Objects live in heaps, one per type, and a linked list of objects is the list
    of their addresses.  A bit vector belongs to one object and is a value.  An
    operation is undefined ([None]) when the code dereferences a null or freed
    pointer, frees twice or fails an [assert].  The node lock is recursive and an
    operation is the region where it is held, so it is not part of the state.

    What the code gets from libuv, the C library and the transports is the
    [Environment]; what it does to them and to the application is the list of
    [Event]s of the node, latest first.  Application callbacks are events: they do
    not call back into the node. *)
From S2P Require Import Prelude Status Buffer Float Cbor BitVec Uuid Addr History.
From stdpp Require Import gmap fin_maps.
#[local] Open Scope Z_scope.

(** ** Data *)

(** [DPS_NetConnection*] is an identifier, [None] for the connection-less transports. *)
Record DPS_NetEndpoint := mkEp { ep_addr : DPS_NodeAddress; ep_cn : option Z }.

Inductive SubsPendingState := SubsNonePending | SubsSendNow | SubsThrottled.

Inductive NodeState :=
  | DPS_NODE_CREATED | DPS_NODE_RUNNING | DPS_NODE_STOPPING | DPS_NODE_STOPPED | DPS_NODE_PAUSED.

Inductive RemoteNodeState :=
  | REMOTE_NEW | REMOTE_ACTIVE | REMOTE_LINKING | REMOTE_UNLINKING | REMOTE_MUTED | REMOTE_UNMUTING.

Inductive OpType := LINK_OP | UNLINK_OP.

#[export] Instance SubsPendingState_eq_dec : EqDecision SubsPendingState.
Proof. solve_decision. Defined.
#[export] Instance NodeState_eq_dec : EqDecision NodeState.
Proof. solve_decision. Defined.
#[export] Instance RemoteNodeState_eq_dec : EqDecision RemoteNodeState.
Proof. solve_decision. Defined.
#[export] Instance OpType_eq_dec : EqDecision OpType.
Proof. solve_decision. Defined.

Definition DPS_MSG_VERSION : Z := 1.
Definition DPS_MSG_TYPE_PUB : Z := 1.
Definition DPS_MSG_TYPE_SUB : Z := 2.
Definition DPS_MSG_TYPE_ACK : Z := 3.
Definition DPS_MSG_TYPE_SAK : Z := 4.

Definition UINT64_MAX : Z := 18446744073709551615.
Definition DPS_MaxMeshId : DPS_UUID := mkUUID UINT64_MAX UINT64_MAX.

(** ** Remote nodes *)

Record Inbound := mkIn {
  in_revision : Z;
  in_meshId : DPS_UUID;
  in_needs : option DPS_BitVector;
  in_interests : option DPS_BitVector
}.

#[export] Instance Inbound_settable : Settable Inbound := fun i =>
  mkIn (in_revision i) (in_meshId i) (in_needs i) (in_interests i).
#[export] Instance set_in_revision : Setter in_revision.
Proof. derive_setter. Defined.
#[export] Instance set_in_meshId : Setter in_meshId.
Proof. derive_setter. Defined.
#[export] Instance set_in_needs : Setter in_needs.
Proof. derive_setter. Defined.
#[export] Instance set_in_interests : Setter in_interests.
Proof. derive_setter. Defined.

Record Outbound := mkOut {
  linkRequested : bool;
  deltaInd : bool;
  sakCounter : Z;
  sendInterests : bool;
  sakPending : bool;
  lastSubMsgType : Z;
  out_revision : Z;
  out_needs : option DPS_BitVector;
  out_interests : option DPS_BitVector;
  out_delta : option DPS_BitVector
}.

#[export] Instance Outbound_settable : Settable Outbound := fun o =>
  mkOut (linkRequested o) (deltaInd o) (sakCounter o) (sendInterests o) (sakPending o) (lastSubMsgType o)
    (out_revision o) (out_needs o) (out_interests o) (out_delta o).
#[export] Instance set_linkRequested : Setter linkRequested.
Proof. derive_setter. Defined.
#[export] Instance set_deltaInd : Setter deltaInd.
Proof. derive_setter. Defined.
#[export] Instance set_sakCounter : Setter sakCounter.
Proof. derive_setter. Defined.
#[export] Instance set_sendInterests : Setter sendInterests.
Proof. derive_setter. Defined.
#[export] Instance set_sakPending : Setter sakPending.
Proof. derive_setter. Defined.
#[export] Instance set_lastSubMsgType : Setter lastSubMsgType.
Proof. derive_setter. Defined.
#[export] Instance set_out_revision : Setter out_revision.
Proof. derive_setter. Defined.
#[export] Instance set_out_needs : Setter out_needs.
Proof. derive_setter. Defined.
#[export] Instance set_out_interests : Setter out_interests.
Proof. derive_setter. Defined.
#[export] Instance set_out_delta : Setter out_delta.
Proof. derive_setter. Defined.

Record RemoteNode := mkRN {
  completion : option ptr;
  r_state : RemoteNodeState;
  inbound : Inbound;
  outbound : Outbound;
  ep : DPS_NetEndpoint
}.

#[export] Instance RemoteNode_settable : Settable RemoteNode := fun r =>
  mkRN (completion r) (r_state r) (inbound r) (outbound r) (ep r).
#[export] Instance set_completion : Setter completion.
Proof. derive_setter. Defined.
#[export] Instance set_r_state : Setter r_state.
Proof. derive_setter. Defined.
#[export] Instance set_inbound : Setter inbound.
Proof. derive_setter. Defined.
#[export] Instance set_outbound : Setter outbound.
Proof. derive_setter. Defined.
#[export] Instance set_ep : Setter ep.
Proof. derive_setter. Defined.

(** A completion callback: the null pointer, one of the application, or
    [OnShutdownUnlinkComplete]. *)
Inductive Callback := CbNull | CbApp (cb : Z) | OnShutdownUnlinkComplete.

Record OnOpCompletion := mkCpn {
  c_op : OpType;
  c_remote : option ptr;
  c_addr : DPS_NodeAddress;
  c_status : DPS_Status;
  c_cb : Callback
}.

#[export] Instance OnOpCompletion_settable : Settable OnOpCompletion := fun c =>
  mkCpn (c_op c) (c_remote c) (c_addr c) (c_status c) (c_cb c).
#[export] Instance set_c_op : Setter c_op.
Proof. derive_setter. Defined.
#[export] Instance set_c_remote : Setter c_remote.
Proof. derive_setter. Defined.
#[export] Instance set_c_addr : Setter c_addr.
Proof. derive_setter. Defined.
#[export] Instance set_c_status : Setter c_status.
Proof. derive_setter. Defined.
#[export] Instance set_c_cb : Setter c_cb.
Proof. derive_setter. Defined.

(** A request queued for the node thread: [LinkExists] for a completion, or
    [node->onShutdownReq]. *)
Inductive NodeRequest := LinkExistsReq (cpn : ptr) | OnShutdownReq.

#[export] Instance NodeRequest_eq_dec : EqDecision NodeRequest.
Proof. solve_decision. Defined.

(** ** Subscriptions *)

Definition SUB_FLAG_WAS_FREED : Z := 0x01.
Definition SUB_FLAG_EXPIRED : Z := 0x02.
Definition SUB_FLAG_SERIALIZE : Z := 0x04.

Record DPS_Subscription := mkSub {
  s_needs : option DPS_BitVector;
  s_bf : option DPS_BitVector;
  s_handler : option Z;
  s_refCount : Z;
  s_flags : Z;
  s_onDestroyed : option Z;
  s_topics : list (list Z)
}.

#[export] Instance DPS_Subscription_settable : Settable DPS_Subscription := fun s =>
  mkSub (s_needs s) (s_bf s) (s_handler s) (s_refCount s) (s_flags s) (s_onDestroyed s) (s_topics s).
#[export] Instance set_s_needs : Setter s_needs.
Proof. derive_setter. Defined.
#[export] Instance set_s_bf : Setter s_bf.
Proof. derive_setter. Defined.
#[export] Instance set_s_handler : Setter s_handler.
Proof. derive_setter. Defined.
#[export] Instance set_s_refCount : Setter s_refCount.
Proof. derive_setter. Defined.
#[export] Instance set_s_flags : Setter s_flags.
Proof. derive_setter. Defined.
#[export] Instance set_s_onDestroyed : Setter s_onDestroyed.
Proof. derive_setter. Defined.
#[export] Instance set_s_topics : Setter s_topics.
Proof. derive_setter. Defined.

(** ** Publications: what their life cycle and their matching use *)

Definition PUB_FLAG_LOCAL : Z := 0x02.
Definition PUB_FLAG_RETAINED : Z := 0x04.
Definition PUB_FLAG_EXPIRED : Z := 0x10.
Definition PUB_FLAG_WAS_FREED : Z := 0x20.
Definition PUB_FLAG_MULTICAST : Z := 0x40.
Definition PUB_FLAG_IS_COPY : Z := 0x80.

(** [COSE_Entity]: an algorithm and the bytes of a key identifier, none for a null pointer. *)
Record COSE_Entity := mkEntity { e_alg : Z; e_kid : list Z }.
Definition COSE_ALG_RESERVED : Z := 0.
Definition no_entity : COSE_Entity := mkEntity COSE_ALG_RESERVED [].

(** [p_topics] is [None] for a null [topics], the two buffers are what was written
    to them, and [p_recipientsCap] is 0 for a null [recipients]. *)
Record DPS_Publication := mkPub {
  p_ackRequested : bool;
  p_handler : option Z;
  p_pubId : DPS_UUID;
  p_recipients : list COSE_Entity;
  p_recipientsCap : Z;
  p_topics : option (list (list Z));
  p_bfBuf : list Z;
  p_topicsBuf : list Z;
  p_sender : COSE_Entity;
  p_senderAddr : DPS_NodeAddress;
  p_ack_sequenceNum : Z;
  p_ack_sender : COSE_Entity;
  p_ack_senderAddr : DPS_NodeAddress;
  p_bf : option DPS_BitVector;
  p_sendQueue : list ptr;
  p_retainedQueue : list ptr;
  p_flags : Z;
  p_refCount : Z;
  p_sequenceNum : Z;
  p_ttl : Z;
  p_onDestroyed : option Z
}.

#[export] Instance DPS_Publication_settable : Settable DPS_Publication := fun p =>
  mkPub (p_ackRequested p) (p_handler p) (p_pubId p) (p_recipients p) (p_recipientsCap p)
    (p_topics p) (p_bfBuf p) (p_topicsBuf p) (p_sender p) (p_senderAddr p) (p_ack_sequenceNum p)
    (p_ack_sender p) (p_ack_senderAddr p) (p_bf p) (p_sendQueue p) (p_retainedQueue p) (p_flags p)
    (p_refCount p) (p_sequenceNum p) (p_ttl p) (p_onDestroyed p).
#[export] Instance set_p_ackRequested : Setter p_ackRequested.
Proof. derive_setter. Defined.
#[export] Instance set_p_handler : Setter p_handler.
Proof. derive_setter. Defined.
#[export] Instance set_p_pubId : Setter p_pubId.
Proof. derive_setter. Defined.
#[export] Instance set_p_recipients : Setter p_recipients.
Proof. derive_setter. Defined.
#[export] Instance set_p_recipientsCap : Setter p_recipientsCap.
Proof. derive_setter. Defined.
#[export] Instance set_p_topics : Setter p_topics.
Proof. derive_setter. Defined.
#[export] Instance set_p_bfBuf : Setter p_bfBuf.
Proof. derive_setter. Defined.
#[export] Instance set_p_topicsBuf : Setter p_topicsBuf.
Proof. derive_setter. Defined.
#[export] Instance set_p_sender : Setter p_sender.
Proof. derive_setter. Defined.
#[export] Instance set_p_senderAddr : Setter p_senderAddr.
Proof. derive_setter. Defined.
#[export] Instance set_p_ack_sequenceNum : Setter p_ack_sequenceNum.
Proof. derive_setter. Defined.
#[export] Instance set_p_ack_sender : Setter p_ack_sender.
Proof. derive_setter. Defined.
#[export] Instance set_p_ack_senderAddr : Setter p_ack_senderAddr.
Proof. derive_setter. Defined.
#[export] Instance set_p_bf : Setter p_bf.
Proof. derive_setter. Defined.
#[export] Instance set_p_sendQueue : Setter p_sendQueue.
Proof. derive_setter. Defined.
#[export] Instance set_p_retainedQueue : Setter p_retainedQueue.
Proof. derive_setter. Defined.
#[export] Instance set_p_flags : Setter p_flags.
Proof. derive_setter. Defined.
#[export] Instance set_p_refCount : Setter p_refCount.
Proof. derive_setter. Defined.
#[export] Instance set_p_sequenceNum : Setter p_sequenceNum.
Proof. derive_setter. Defined.
#[export] Instance set_p_ttl : Setter p_ttl.
Proof. derive_setter. Defined.
#[export] Instance set_p_onDestroyed : Setter p_onDestroyed.
Proof. derive_setter. Defined.

(** [q_rxBuf] is whether the buffers are those of a received message, [q_bufs] what
    is in each of them. *)
Record DPS_PublishRequest := mkReq {
  q_pub : ptr;
  q_completeCB : option Z;
  q_ttl : Z;
  q_expires : Z;
  q_hopCount : Z;
  q_status : DPS_Status;
  q_refCount : Z;
  q_sequenceNum : Z;
  q_rxBuf : bool;
  q_bufs : list (list Z)
}.

#[export] Instance DPS_PublishRequest_settable : Settable DPS_PublishRequest := fun q =>
  mkReq (q_pub q) (q_completeCB q) (q_ttl q) (q_expires q) (q_hopCount q) (q_status q)
    (q_refCount q) (q_sequenceNum q) (q_rxBuf q) (q_bufs q).
#[export] Instance set_q_pub : Setter q_pub.
Proof. derive_setter. Defined.
#[export] Instance set_q_completeCB : Setter q_completeCB.
Proof. derive_setter. Defined.
#[export] Instance set_q_ttl : Setter q_ttl.
Proof. derive_setter. Defined.
#[export] Instance set_q_expires : Setter q_expires.
Proof. derive_setter. Defined.
#[export] Instance set_q_hopCount : Setter q_hopCount.
Proof. derive_setter. Defined.
#[export] Instance set_q_status : Setter q_status.
Proof. derive_setter. Defined.
#[export] Instance set_q_refCount : Setter q_refCount.
Proof. derive_setter. Defined.
#[export] Instance set_q_sequenceNum : Setter q_sequenceNum.
Proof. derive_setter. Defined.
#[export] Instance set_q_rxBuf : Setter q_rxBuf.
Proof. derive_setter. Defined.
#[export] Instance set_q_bufs : Setter q_bufs.
Proof. derive_setter. Defined.

(** [x & flag] *)
Definition has_flag (x flag : Z) : bool := negb (x .& flag =? 0).

(** Who is told that an acknowledgement is complete: nobody, the library's own
    [AckPublicationComplete], which frees the copy of the data, or the application. *)
Inductive AckCallback := AckNone | AckPublicationComplete | AckApp (cb : Z).

(** [a_bufs] is what is in each of the buffers. *)
Record PublicationAck := mkAck {
  a_pub : ptr;
  a_destAddr : DPS_NodeAddress;
  a_sequenceNum : Z;
  a_completeCB : AckCallback;
  a_status : DPS_Status;
  a_bufs : list (list Z)
}.

#[export] Instance PublicationAck_settable : Settable PublicationAck := fun a =>
  mkAck (a_pub a) (a_destAddr a) (a_sequenceNum a) (a_completeCB a) (a_status a) (a_bufs a).
#[export] Instance set_a_pub : Setter a_pub.
Proof. derive_setter. Defined.
#[export] Instance set_a_destAddr : Setter a_destAddr.
Proof. derive_setter. Defined.
#[export] Instance set_a_sequenceNum : Setter a_sequenceNum.
Proof. derive_setter. Defined.
#[export] Instance set_a_completeCB : Setter a_completeCB.
Proof. derive_setter. Defined.
#[export] Instance set_a_status : Setter a_status.
Proof. derive_setter. Defined.
#[export] Instance set_a_bufs : Setter a_bufs.
Proof. derive_setter. Defined.

(** ** What the node does to the outside *)

Inductive Async := subsAsync | pubsAsync | freeAsync | requestAsync | acksAsync | stopAsync.

Inductive Event :=
  | EvNetSend (ep : DPS_NetEndpoint) (bytes : list Z) (ret : DPS_Status)
  | EvOnLink (cb : Z) (addr : DPS_NodeAddress) (status : DPS_Status)
  | EvOnUnlink (cb : Z) (addr : DPS_NodeAddress)
  | EvLinkLoss (cb : Z) (addr : DPS_NodeAddress)
  | EvOnShutdown (cb : Z)
  | EvOnDestroyed (cb : Z)
  | EvPublishComplete (cb : Z) (pub : ptr) (status : DPS_Status)
  | EvIncRef (cn : option Z)
  | EvDecRef (cn : option Z)
  | EvAsyncSend (handle : Async)
  | EvTimerStart (timeout repeat : Z)
  | EvPubsTimer (timeout : Z)
  | EvRxIncRef
  | EvRxDecRef
  | EvMulticastSend (bytes : list Z) (ret : DPS_Status)
  | EvPublication (cb : Z) (sub : ptr) (pub : DPS_Publication) (data : option (list Z))
  | EvAck (cb : Z) (pub : ptr) (state : DPS_Publication) (data : option (list Z))
  | EvAckComplete (cb : Z) (pub : ptr) (bufs : list (list Z)) (status : DPS_Status)
  | EvMulticastStart (receive : bool)
  | EvMulticastStop (receive : bool)
  | EvNetStop
  | EvNodeDestroyed (cb : Z).

(** ** The node *)

Record DPS_Node := mkNode {
  n_remotes : gmap ptr RemoteNode;
  n_remoteNodes : list ptr;
  n_subs : gmap ptr DPS_Subscription;
  n_subscriptions : list ptr;
  n_freeSubs : list ptr;
  n_pubs : gmap ptr DPS_Publication;
  n_publications : list ptr;
  n_freePubs : list ptr;
  n_reqs : gmap ptr DPS_PublishRequest;
  n_cpns : gmap ptr OnOpCompletion;
  n_requestQueue : list NodeRequest;
  n_acks : gmap ptr PublicationAck;
  n_ackQueue : list ptr;
  n_scratch_needs : DPS_BitVector;
  n_scratch_interests : DPS_BitVector;
  n_interests : DPS_CountVector;
  n_needs : DPS_CountVector;
  n_history : DPS_History;
  n_signer : COSE_Entity;
  n_meshId : DPS_UUID;
  n_entropy : Entropy;
  n_addr : DPS_NodeAddress;
  n_separators : list Z;
  n_subsPending : SubsPendingState;
  n_state : NodeState;
  n_onShutdown : option Z;
  n_linkLossCB : option Z;
  n_loop : bool;
  n_netCtx : bool;
  n_mcastSender : bool;
  n_mcastReceiver : bool;
  n_onDestroyed : option Z;
  n_mcastPub : Z;
  n_now : Z;
  n_subsRate : Z;
  n_linkLossTimeout : Z;
  n_allocs : nat;
  n_sends : nat;
  n_events : list Event
}.

#[export] Instance DPS_Node_settable : Settable DPS_Node := fun n =>
  mkNode (n_remotes n) (n_remoteNodes n) (n_subs n) (n_subscriptions n) (n_freeSubs n) (n_pubs n)
    (n_publications n) (n_freePubs n) (n_reqs n) (n_cpns n) (n_requestQueue n) (n_acks n) (n_ackQueue n) (n_scratch_needs n)
    (n_scratch_interests n) (n_interests n) (n_needs n) (n_history n) (n_signer n) (n_meshId n)
    (n_entropy n) (n_addr n) (n_separators n) (n_subsPending n) (n_state n) (n_onShutdown n)
    (n_linkLossCB n) (n_loop n) (n_netCtx n) (n_mcastSender n) (n_mcastReceiver n) (n_onDestroyed n) (n_mcastPub n) (n_now n)
    (n_subsRate n) (n_linkLossTimeout n) (n_allocs n) (n_sends n) (n_events n).
#[export] Instance set_n_remotes : Setter n_remotes.
Proof. derive_setter. Defined.
#[export] Instance set_n_remoteNodes : Setter n_remoteNodes.
Proof. derive_setter. Defined.
#[export] Instance set_n_subs : Setter n_subs.
Proof. derive_setter. Defined.
#[export] Instance set_n_subscriptions : Setter n_subscriptions.
Proof. derive_setter. Defined.
#[export] Instance set_n_freeSubs : Setter n_freeSubs.
Proof. derive_setter. Defined.
#[export] Instance set_n_pubs : Setter n_pubs.
Proof. derive_setter. Defined.
#[export] Instance set_n_publications : Setter n_publications.
Proof. derive_setter. Defined.
#[export] Instance set_n_freePubs : Setter n_freePubs.
Proof. derive_setter. Defined.
#[export] Instance set_n_reqs : Setter n_reqs.
Proof. derive_setter. Defined.
#[export] Instance set_n_cpns : Setter n_cpns.
Proof. derive_setter. Defined.
#[export] Instance set_n_requestQueue : Setter n_requestQueue.
Proof. derive_setter. Defined.
#[export] Instance set_n_acks : Setter n_acks.
Proof. derive_setter. Defined.
#[export] Instance set_n_ackQueue : Setter n_ackQueue.
Proof. derive_setter. Defined.
#[export] Instance set_n_scratch_needs : Setter n_scratch_needs.
Proof. derive_setter. Defined.
#[export] Instance set_n_scratch_interests : Setter n_scratch_interests.
Proof. derive_setter. Defined.
#[export] Instance set_n_interests : Setter n_interests.
Proof. derive_setter. Defined.
#[export] Instance set_n_needs : Setter n_needs.
Proof. derive_setter. Defined.
#[export] Instance set_n_history : Setter n_history.
Proof. derive_setter. Defined.
#[export] Instance set_n_signer : Setter n_signer.
Proof. derive_setter. Defined.
#[export] Instance set_n_meshId : Setter n_meshId.
Proof. derive_setter. Defined.
#[export] Instance set_n_entropy : Setter n_entropy.
Proof. derive_setter. Defined.
#[export] Instance set_n_addr : Setter n_addr.
Proof. derive_setter. Defined.
#[export] Instance set_n_separators : Setter n_separators.
Proof. derive_setter. Defined.
#[export] Instance set_n_subsPending : Setter n_subsPending.
Proof. derive_setter. Defined.
#[export] Instance set_n_state : Setter n_state.
Proof. derive_setter. Defined.
#[export] Instance set_n_onShutdown : Setter n_onShutdown.
Proof. derive_setter. Defined.
#[export] Instance set_n_linkLossCB : Setter n_linkLossCB.
Proof. derive_setter. Defined.
#[export] Instance set_n_loop : Setter n_loop.
Proof. derive_setter. Defined.
#[export] Instance set_n_netCtx : Setter n_netCtx.
Proof. derive_setter. Defined.
#[export] Instance set_n_mcastSender : Setter n_mcastSender.
Proof. derive_setter. Defined.
#[export] Instance set_n_mcastReceiver : Setter n_mcastReceiver.
Proof. derive_setter. Defined.
#[export] Instance set_n_onDestroyed : Setter n_onDestroyed.
Proof. derive_setter. Defined.
#[export] Instance set_n_mcastPub : Setter n_mcastPub.
Proof. derive_setter. Defined.
#[export] Instance set_n_now : Setter n_now.
Proof. derive_setter. Defined.
#[export] Instance set_n_subsRate : Setter n_subsRate.
Proof. derive_setter. Defined.
#[export] Instance set_n_linkLossTimeout : Setter n_linkLossTimeout.
Proof. derive_setter. Defined.
#[export] Instance set_n_allocs : Setter n_allocs.
Proof. derive_setter. Defined.
#[export] Instance set_n_sends : Setter n_sends.
Proof. derive_setter. Defined.
#[export] Instance set_n_events : Setter n_events.
Proof. derive_setter. Defined.

(** ** The environment

    [env_alloc n] is whether the [n]-th allocation succeeds, [env_bytes n size]
    the contents of a block that [malloc] returns, [env_send n] the result of
    the [n]-th [DPS_NetSend], or [env_multicast n] if it is a [DPS_MulticastSend],
    [env_md] SHA-256, [env_transport] the transport that is compiled in,
    [env_loopback] the address that the system gives for sending to this node, and
    [env_random n] the bytes of the random generator. *)
Class Environment := {
  env_config : Configuration;
  env_md : list Z -> list Z;
  env_alloc : nat -> bool;
  env_bytes : nat -> nat -> list Z;
  env_send : nat -> DPS_Status;
  env_transport : DPS_NodeAddressType;
  env_multicast : nat -> DPS_Status;
  env_loopback : DPS_NodeAddress -> DPS_Status * DPS_NodeAddress;
  env_random : nat -> DPS_Status * list Z
}.

(** ** The monad *)

Definition M (A : Type) : Type := DPS_Node -> option (A * DPS_Node).

#[export] Instance M_ret : MRet M := fun A x n => Some (x, n).
#[export] Instance M_bind : MBind M := fun A B f m n => '(x, n) ← m n; f x n.

Definition undefined {A} : M A := fun _ => None.
Definition lift {A} (o : option A) : M A := fun n => x ← o; Some (x, n).
Definition gets {A} (f : DPS_Node -> A) : M A := fun n => Some (f n, n).
Definition modify (f : DPS_Node -> DPS_Node) : M unit := fun n => Some ((), f n).
Definition when (b : bool) (m : M unit) : M unit := if b then m else mret ().
Definition assert (b : bool) : M unit := if b then mret () else undefined.
Definition emit (e : Event) : M unit := modify (fun n => n <| n_events := e :: n_events n |>).

(** The heap of one type of objects: dereference a pointer, change the object,
    free it, and put a new one at a fresh address. *)
Section Heap.
Context {V : Type} (heap : DPS_Node -> gmap ptr V) `{!Setter heap}.

Definition load (p : ptr) : M V := fun n => v ← heap n !! p; Some (v, n).
Definition update (p : ptr) (f : V -> V) : M unit :=
  fun n => v ← heap n !! p; Some ((), set heap (insert p (f v)) n).
Definition free (p : ptr) : M unit :=
  fun n => _ ← heap n !! p; Some ((), set heap (delete p) n).
Definition new (v : V) : M ptr := fun n =>
  let p := fresh (dom (heap n)) in Some (p, set heap (insert p v) n).
End Heap.

Definition upd_inbound (p : ptr) (f : Inbound -> Inbound) : M unit :=
  update n_remotes p (set inbound f).
Definition upd_outbound (p : ptr) (f : Outbound -> Outbound) : M unit :=
  update n_remotes p (set outbound f).

(** A loop over a list of addresses that was read before the loop. *)
Fixpoint for_each {A} (l : list A) (body : A -> M unit) : M unit :=
  match l with [] => mret () | x :: l => _ ← body x; for_each l body end.

Section Env.
Context `{Env : Environment}.

(** Whether the next allocation succeeds. *)
Definition alloc_ok : M bool := fun n =>
  Some (env_alloc (n_allocs n), n <| n_allocs := S (n_allocs n) |>).

(** The next call of [malloc], as a function of the size: the contents of the block. *)
Definition malloc : M (nat -> option (list Z)) := fun n =>
  Some (fun size => if env_alloc (n_allocs n) then Some (env_bytes (n_allocs n) size) else None,
        n <| n_allocs := S (n_allocs n) |>).

Definition BitVectorAlloc : M (option DPS_BitVector) :=
  ok ← alloc_ok; lift (DPS_BitVectorAlloc env_config ok).
Definition BitVectorAllocFH : M (option DPS_BitVector) :=
  ok ← alloc_ok; lift (DPS_BitVectorAllocFH ok).

(** [DPS_NetSend]: the transport takes the bytes or reports an error. *)
Definition DPS_NetSend (e : DPS_NetEndpoint) (bytes : list Z) : M DPS_Status := fun n =>
  let ret := env_send (n_sends n) in
  Some (ret, n <| n_sends := S (n_sends n) |> <| n_events := EvNetSend e bytes ret :: n_events n |>).

End Env.

(** ** Weakest preconditions

    [wp m Q n]: from [n] the operation is defined, and its result and final state
    satisfy [Q].  [wlp m Q n]: the same if it is defined. *)

Definition wp {A} (m : M A) (Q : A -> DPS_Node -> Prop) (n : DPS_Node) : Prop :=
  match m n with Some (x, n') => Q x n' | None => False end.
Definition wlp {A} (m : M A) (Q : A -> DPS_Node -> Prop) (n : DPS_Node) : Prop :=
  match m n with Some (x, n') => Q x n' | None => True end.

Section Wp.
Context {A B : Type}.
Implicit Types (m : M A) (Q : A -> DPS_Node -> Prop).

Lemma wp_ret (x : A) Q n : Q x n -> wp (mret x) Q n.
Proof. done. Qed.
Lemma wlp_ret (x : A) Q n : Q x n -> wlp (mret x) Q n.
Proof. done. Qed.

Lemma wp_bind (f : A -> M B) m R n : wp m (fun x => wp (f x) R) n -> wp (m ≫= f) R n.
Proof. unfold wp, mbind, M_bind. destruct (m n) as [[x n']|]; simpl; done. Qed.
Lemma wlp_bind (f : A -> M B) m R n : wlp m (fun x => wlp (f x) R) n -> wlp (m ≫= f) R n.
Proof. unfold wlp, mbind, M_bind. destruct (m n) as [[x n']|]; simpl; done. Qed.

Lemma wp_mono m Q Q' n : wp m Q n -> (forall x n', Q x n' -> Q' x n') -> wp m Q' n.
Proof. unfold wp. destruct (m n) as [[x n']|]; auto. Qed.
Lemma wlp_mono m Q Q' n : wlp m Q n -> (forall x n', Q x n' -> Q' x n') -> wlp m Q' n.
Proof. unfold wlp. destruct (m n) as [[x n']|]; auto. Qed.

Lemma wp_wlp m Q n : wp m Q n -> wlp m Q n.
Proof. unfold wp, wlp. by destruct (m n) as [[x n']|]. Qed.

Lemma wp_run m Q n : wp m Q n -> exists x n', m n = Some (x, n') /\ Q x n'.
Proof. unfold wp. destruct (m n) as [[x n']|]; [eauto|done]. Qed.

Lemma run_wp m Q n x n' : m n = Some (x, n') -> Q x n' -> wp m Q n.
Proof. unfold wp. by intros ->. Qed.

Lemma wlp_run m Q n x n' : wlp m Q n -> m n = Some (x, n') -> Q x n'.
Proof. unfold wlp. intros H E. by rewrite E in H. Qed.
End Wp.

(** Rules for the operations of the monad. *)
Section Rules.
Context {A : Type}.
Implicit Types (Q : A -> DPS_Node -> Prop) (n : DPS_Node).

Lemma wp_gets (f : DPS_Node -> A) Q n : Q (f n) n -> wp (gets f) Q n.
Proof. done. Qed.
Lemma wp_lift (o : option A) x Q n : o = Some x -> Q x n -> wp (lift o) Q n.
Proof. by intros ->. Qed.
Lemma wp_modify f (Q : unit -> DPS_Node -> Prop) n : Q () (f n) -> wp (modify f) Q n.
Proof. done. Qed.
Lemma wp_emit e (Q : unit -> DPS_Node -> Prop) n :
  Q () (n <| n_events := e :: n_events n |>) -> wp (emit e) Q n.
Proof. done. Qed.
Lemma wp_assert b (Q : unit -> DPS_Node -> Prop) n : b = true -> Q () n -> wp (assert b) Q n.
Proof. by intros ->. Qed.
Lemma wp_when b m (Q : unit -> DPS_Node -> Prop) n :
  (b = true -> wp m Q n) -> (b = false -> Q () n) -> wp (when b m) Q n.
Proof. destruct b; [auto|]. intros _ H. by apply H. Qed.
End Rules.

Section HeapRules.
Context {V : Type} (heap : DPS_Node -> gmap ptr V) `{!Setter heap}.

Lemma wp_load p v (Q : V -> DPS_Node -> Prop) n :
  heap n !! p = Some v -> Q v n -> wp (load heap p) Q n.
Proof. unfold wp, load. by intros ->. Qed.
Lemma wp_update p f v (Q : unit -> DPS_Node -> Prop) n :
  heap n !! p = Some v -> Q () (set heap (insert p (f v)) n) -> wp (update heap p f) Q n.
Proof. unfold wp, update. by intros ->. Qed.
Lemma wp_free p v (Q : unit -> DPS_Node -> Prop) n :
  heap n !! p = Some v -> Q () (set heap (delete p) n) -> wp (free heap p) Q n.
Proof. unfold wp, free. by intros ->. Qed.
Lemma wp_new v (Q : ptr -> DPS_Node -> Prop) n :
  (forall p, heap n !! p = None -> Q p (set heap (insert p v) n)) -> wp (new heap v) Q n.
Proof. intros H. apply H, not_elem_of_dom, is_fresh. Qed.
End HeapRules.

Lemma wp_upd_outbound p f r (Q : unit -> DPS_Node -> Prop) n :
  n_remotes n !! p = Some r ->
  Q () (set n_remotes (insert p (set outbound f r)) n) -> wp (upd_outbound p f) Q n.
Proof. apply wp_update. Qed.
Lemma wp_upd_inbound p f r (Q : unit -> DPS_Node -> Prop) n :
  n_remotes n !! p = Some r ->
  Q () (set n_remotes (insert p (set inbound f r)) n) -> wp (upd_inbound p f) Q n.
Proof. apply wp_update. Qed.

(** Compute the fields of updated records. *)
Ltac fields_of t :=
  eval cbn [set in_revision in_meshId in_needs in_interests linkRequested deltaInd sakCounter
       sendInterests sakPending lastSubMsgType out_revision out_needs out_interests out_delta
       completion r_state inbound outbound ep c_op c_remote c_addr c_status c_cb s_needs s_bf
       s_handler s_refCount s_flags s_onDestroyed s_topics p_pubId p_bf p_sendQueue p_retainedQueue
       p_flags p_refCount p_sequenceNum p_ttl p_onDestroyed q_pub q_completeCB q_ttl q_expires
       q_status q_refCount q_sequenceNum n_remotes n_remoteNodes n_subs n_subscriptions n_freeSubs
       n_pubs n_publications n_freePubs n_reqs n_cpns n_requestQueue n_interests n_needs n_meshId
       n_entropy n_addr n_separators n_subsPending n_state n_onShutdown n_linkLossCB n_netCtx
       n_mcastSender n_subsRate n_linkLossTimeout n_allocs n_sends n_events set_in_revision
       set_in_meshId set_in_needs set_in_interests set_linkRequested set_deltaInd set_sakCounter
       set_sendInterests set_sakPending set_lastSubMsgType set_out_revision set_out_needs
       set_out_interests set_out_delta set_completion set_r_state set_inbound set_outbound set_ep
       set_c_op set_c_remote set_c_addr set_c_status set_c_cb set_s_needs set_s_bf set_s_handler
       set_s_refCount set_s_flags set_s_onDestroyed set_s_topics set_p_pubId set_p_bf
       set_p_sendQueue set_p_retainedQueue set_p_flags set_p_refCount set_p_sequenceNum set_p_ttl
       set_p_onDestroyed set_q_pub set_q_completeCB set_q_ttl set_q_expires set_q_status
       set_q_refCount set_q_sequenceNum set_n_remotes set_n_remoteNodes set_n_subs
       set_n_subscriptions set_n_freeSubs set_n_pubs set_n_publications set_n_freePubs set_n_reqs
       set_n_cpns set_n_requestQueue set_n_interests set_n_needs set_n_meshId set_n_entropy
       set_n_addr set_n_separators set_n_subsPending set_n_state set_n_onShutdown set_n_linkLossCB
       set_n_netCtx set_n_mcastSender set_n_subsRate set_n_linkLossTimeout set_n_allocs set_n_sends
       set_n_events
       p_ackRequested p_handler p_recipients p_recipientsCap p_topics p_bfBuf p_topicsBuf
       p_sender p_senderAddr p_ack_sequenceNum p_ack_sender p_ack_senderAddr q_hopCount q_rxBuf
       q_bufs n_scratch_needs n_scratch_interests n_history n_signer n_mcastPub n_now n_loop
       set_p_ackRequested set_p_handler set_p_recipients set_p_recipientsCap set_p_topics
       set_p_bfBuf set_p_topicsBuf set_p_sender set_p_senderAddr set_p_ack_sequenceNum
       set_p_ack_sender set_p_ack_senderAddr set_q_hopCount set_q_rxBuf set_q_bufs
       set_n_scratch_needs set_n_scratch_interests set_n_history set_n_signer set_n_mcastPub
       set_n_now set_n_loop] in t.
Ltac fields := match goal with |- ?G => let G' := fields_of G in change G' end.
Ltac fields_in H := let T := type of H in let T' := fields_of T in change T' in H.

(** Run an operation as far as it only uses the rules above; the goals that are
    left are about the state. *)
Ltac wp_step :=
  match goal with
  | |- wp (_ ≫= _) _ _ => apply wp_bind
  | |- wp (mret _) _ _ => apply wp_ret
  | |- wp (gets _) _ _ => apply wp_gets
  | |- wp (modify _) _ _ => apply wp_modify
  | |- wp (emit _) _ _ => apply wp_emit
  end.
Ltac wp_go := cbv beta iota; repeat (wp_step; cbv beta iota).
(** Go on after a status that is OK. *)
Ltac ok := change (is_OK DPS_OK) with true; cbn [negb]; wp_go.
