(* ===== verification/Remote.v ===== *)
(** * Remote nodes ([src/dps.c])

    The list of remote nodes, their interests in both directions, the mesh
    identifier, and the deletion of a remote with the completion of its pending
    operation. *)
From S2P Require Import Prelude Status Buffer Float Cbor BitVec Uuid Addr History Node.
From stdpp Require Import gmap.
#[local] Open Scope Z_scope.

Section Remote.
Context `{Env : Environment}.

(** ** Counting interests and needs *)

Section Count.
Context (cv : DPS_Node -> DPS_CountVector) `{!Setter cv}.

(** [DPS_CountVectorAdd(node->cv, bv)] and [DPS_CountVectorDel(node->cv, bv)] *)
Definition count_add (bv : option DPS_BitVector) : M DPS_Status := fun n =>
  '(ret, v) ← DPS_CountVectorAdd (Some (cv n)) bv; v ← v; Some (ret, n <| cv := v |>).
Definition count_del (bv : option DPS_BitVector) : M DPS_Status := fun n =>
  '(ret, v) ← DPS_CountVectorDel (Some (cv n)) bv; v ← v; Some (ret, n <| cv := v |>).
End Count.

(** [DPS_CountVectorToUnion(node->interests)] *)
Definition interests_union : M (option DPS_BitVector) :=
  ok ← alloc_ok; cv ← gets n_interests; mret (DPS_CountVectorToUnion ok (Some cv)).
(** [DPS_CountVectorToIntersection(node->needs)] *)
Definition needs_intersection : M (option DPS_BitVector) :=
  ok ← alloc_ok; cv ← gets n_needs; lift (DPS_CountVectorToIntersection ok cv).

(** ** Completion of an operation whose remote is gone *)

Definition OnShutdown : M unit :=
  cb ← gets n_onShutdown;
  remotes ← gets n_remoteNodes;
  match cb, remotes with
  | Some cb, [] => _ ← modify (fun n => n <| n_onShutdown := None |>); emit (EvOnShutdown cb)
  | _, _ => mret ()
  end.

(** [completion->on.link(..)] or [completion->on.unlink(..)] *)
Definition call_completion (c : OnOpCompletion) (status : DPS_Status) : M unit :=
  match c_cb c with
  | CbNull => undefined
  | CbApp cb =>
      emit (match c_op c with
            | LINK_OP => EvOnLink cb (c_addr c) status
            | UNLINK_OP => EvOnUnlink cb (c_addr c)
            end)
  | OnShutdownUnlinkComplete => OnShutdown
  end.

(** [DPS_QueueRemove(&req->queue)]: an item that is not queued is its own queue. *)
Definition DPS_NodeRequestCancel (req : NodeRequest) : M unit :=
  modify (fun n => n <| n_requestQueue := filter (fun q => q <> req) (n_requestQueue n) |>).

(** From [DPS_NodeRequestCancel] to [free(completion)]. *)
Definition finish_completion (cpn : ptr) (status : DPS_Status) : M unit :=
  _ ← DPS_NodeRequestCancel (LinkExistsReq cpn);
  c ← load n_cpns cpn;
  _ ← call_completion c status;
  free n_cpns cpn.

(** [RemoteCompletion] for a completion whose [remote] is null. *)
Definition RemoteCompletion_no_remote (cpn : ptr) : M unit :=
  c ← load n_cpns cpn;
  _ ← finish_completion cpn (c_status c);
  shutdown ← gets n_onShutdown;
  when (bool_decide (is_Some shutdown)) OnShutdown.

(** ** The list of remotes and their interests *)

Definition IsValidRemoteNode (remote : ptr) : M bool :=
  l ← gets n_remoteNodes; mret (existsb (Pos.eqb remote) l).

Definition FreeOutboundInterests (remote : ptr) : M unit :=
  upd_outbound remote (fun o => o <| out_interests := None |> <| out_needs := None |>).

Definition DPS_ClearOutboundInterests (remote : ptr) : M DPS_Status :=
  r ← load n_remotes remote;
  interests ← (match out_interests (outbound r) with
               | Some bv => mret (Some (DPS_BitVectorClear bv))
               | None => BitVectorAlloc
               end);
  needs ← (match out_needs (outbound r) with
           | Some bv => mret (Some (DPS_BitVectorClear bv))
           | None => BitVectorAllocFH
           end);
  _ ← upd_outbound remote (fun o =>
        o <| out_interests := interests |> <| out_needs := needs |> <| deltaInd := false |>);
  match interests, needs with
  | Some _, Some _ => mret DPS_OK
  | _, _ => _ ← FreeOutboundInterests remote; mret DPS_ERR_RESOURCES
  end.

Definition DPS_ClearInboundInterests (remote : ptr) : M unit :=
  r ← load n_remotes remote;
  _ ← (match in_interests (inbound r) with
       | Some bv =>
           ret ← count_del n_interests (Some bv);
           _ ← assert (is_OK ret);
           upd_inbound remote (fun i => i <| in_interests := None |>)
       | None => mret ()
       end);
  match in_needs (inbound r) with
  | Some bv =>
      ret ← count_del n_needs (Some bv);
      _ ← assert (is_OK ret);
      upd_inbound remote (fun i => i <| in_needs := None |>)
  | None => mret ()
  end.

Definition InsertRemoteNode (remote : ptr) : M unit :=
  modify (fun n => n <| n_remoteNodes := remote :: n_remoteNodes n |>).

(** The walk to the predecessor fails its [assert] when [p] is not in the list. *)
Fixpoint unlink_ptr (l : list ptr) (p : ptr) : option (list ptr) :=
  match l with
  | [] => None
  | x :: l => if (x =? p)%positive then Some l else l ← unlink_ptr l p; Some (x :: l)
  end.

Definition RemoveRemoteNode (remote : ptr) : M unit := fun n =>
  l ← unlink_ptr (n_remoteNodes n) remote; Some ((), n <| n_remoteNodes := l |>).

Definition DPS_DeleteRemoteNode (remote : ptr) : M unit :=
  valid ← IsValidRemoteNode remote;
  if negb valid then mret () else
  _ ← RemoveRemoteNode remote;
  _ ← DPS_ClearInboundInterests remote;
  _ ← FreeOutboundInterests remote;
  _ ← upd_outbound remote (fun o => o <| out_delta := None |>);
  r ← load n_remotes remote;
  linkLoss ← gets n_linkLossCB;
  _ ← (match completion r with
       | Some cpn =>
           _ ← update n_cpns cpn (fun c => c <| c_remote := None |> <| c_status := DPS_ERR_MISSING |>);
           RemoteCompletion_no_remote cpn
       | None =>
           match linkLoss with
           | Some cb => when (linkRequested (outbound r)) (emit (EvLinkLoss cb (ep_addr (ep r))))
           | None => mret ()
           end
       end);
  _ ← emit (EvDecRef (ep_cn (ep r)));
  free n_remotes remote.

(** ** The mesh identifier *)

(** The loop of [DPS_MinMeshId]. *)
Fixpoint min_mesh_loop (excluded : option ptr) (l : list ptr) (min : DPS_UUID) : M DPS_UUID :=
  match l with
  | [] => mret min
  | p :: l =>
      r ← load n_remotes p;
      if bool_decide (Some p = excluded)
         || negb (bool_decide (r_state r = REMOTE_ACTIVE) || bool_decide (r_state r = REMOTE_LINKING))
      then min_mesh_loop excluded l min
      else min_mesh_loop excluded l
             (if DPS_UUIDCompare (in_meshId (inbound r)) min <? 0 then in_meshId (inbound r) else min)
  end.

Definition DPS_MinMeshId (excluded : option ptr) : M DPS_UUID :=
  l ← gets n_remoteNodes; min ← gets n_meshId; min_mesh_loop excluded l min.

(** ** Outbound interests *)

(** [newInterests] and [newNeeds], and the first error of the count vectors. *)
Definition new_outbound_vectors (r : RemoteNode)
  : M (DPS_Status * option DPS_BitVector * option DPS_BitVector) :=
  match in_interests (inbound r) with
  | Some bv =>
      ret ← count_del n_interests (Some bv);
      if negb (is_OK ret) then mret (ret, None, None) else
      newInterests ← interests_union;
      ret ← count_add n_interests (Some bv);
      if negb (is_OK ret) then mret (ret, newInterests, None) else
      ret ← count_del n_needs (in_needs (inbound r));
      if negb (is_OK ret) then mret (ret, newInterests, None) else
      newNeeds ← needs_intersection;
      ret ← count_add n_needs (in_needs (inbound r));
      mret (ret, newInterests, newNeeds)
  | None =>
      _ ← assert (negb (bool_decide (is_Some (in_needs (inbound r)))));
      newInterests ← interests_union;
      newNeeds ← needs_intersection;
      mret (DPS_OK, newInterests, newNeeds)
  end.

(** The status, and [*changes]. *)
Definition DPS_UpdateOutboundInterests (destNode : ptr) : M (DPS_Status * bool) :=
  r ← load n_remotes destNode;
  if bool_decide (r_state r = REMOTE_UNLINKING) then
    _ ← FreeOutboundInterests destNode;
    _ ← upd_outbound destNode (fun o => o <| out_revision := u32 (out_revision o + 1) |>);
    mret (DPS_OK, true)
  else
  '(ret, newInterests, newNeeds) ← new_outbound_vectors r;
  if negb (is_OK ret) then mret (ret, false) else
  match newInterests, newNeeds with
  | Some newInterests, Some newNeeds =>
      '(ret, newInterests, changes) ←
        (match out_interests (outbound r) with
         | Some old =>
             delta ← (match out_delta (outbound r) with
                      | Some delta => mret (Some delta)
                      | None => BitVectorAlloc
                      end);
             match delta with
             | None => mret (DPS_ERR_RESOURCES, newInterests, false)
             | Some delta =>
                 '(_, delta, _, new, same) ←
                   lift (DPS_BitVectorXor (Some delta) (Some old) (Some newInterests) (Some false));
                 let same := default false same in
                 _ ← when same
                       (assert (DPS_BitVectorEquals (out_needs (outbound r)) (Some newNeeds)));
                 _ ← upd_outbound destNode (fun o => o <| out_delta := delta |> <| deltaInd := true |>);
                 mret (DPS_OK, default newInterests new, negb same)
             end
         | None =>
             _ ← upd_outbound destNode (fun o => o <| deltaInd := false |>);
             mret (DPS_OK, newInterests, true)
         end);
      if negb (is_OK ret) then mret (ret, false) else
      _ ← upd_outbound destNode (fun o =>
            o <| out_interests := Some newInterests |> <| out_needs := Some newNeeds |>);
      _ ← when changes
            (upd_outbound destNode (fun o => o <| out_revision := u32 (out_revision o + 1) |>));
      mret (DPS_OK, changes)
  | _, _ => mret (DPS_ERR_RESOURCES, false)
  end.

Definition DPS_MuteRemoteNode (remote : ptr) (newState : RemoteNodeState) : M DPS_Status :=
  r ← load n_remotes remote;
  if bool_decide (r_state r = REMOTE_MUTED) || bool_decide (r_state r = REMOTE_UNLINKING)
  then mret DPS_OK
  else
    _ ← update n_remotes remote (fun r => r <| r_state := newState |>);
    _ ← FreeOutboundInterests remote;
    _ ← upd_outbound remote (fun o => o <| sendInterests := false |>);
    _ ← RemoveRemoteNode remote;
    _ ← InsertRemoteNode remote;
    mret DPS_OK.

(** ** Lookup, creation, failed sends *)

Fixpoint lookup_loop (addr : DPS_NodeAddress) (l : list ptr) : M (option ptr) :=
  match l with
  | [] => mret None
  | p :: l =>
      r ← load n_remotes p;
      same ← lift (DPS_SameAddr (ep_addr (ep r)) addr);
      if same : bool then mret (Some p) else lookup_loop addr l
  end.

Definition DPS_LookupRemoteNode (addr : option DPS_NodeAddress) : M (option ptr) :=
  match addr with
  | None => mret None
  | Some addr => l ← gets n_remoteNodes; lookup_loop addr l
  end.

Definition zero_sock_addr : DPS_NodeAddress := mkAddr DPS_UNKNOWN zero_sockaddr [].

Definition AllocCompletion (remote : option ptr) (op : OpType) (cb : Callback) : M (option ptr) :=
  ok ← alloc_ok;
  if ok : bool then p ← new n_cpns (mkCpn op remote zero_sock_addr DPS_OK cb); mret (Some p)
  else mret None.

(** [calloc(1, sizeof(RemoteNode))] and the assignments that follow. *)
Definition new_remote (addr : DPS_NodeAddress) (cn : option Z) : RemoteNode :=
  mkRN None REMOTE_NEW (mkIn 0 DPS_MaxMeshId None None)
    (mkOut false false 0 false false 0 0 None None None) (mkEp addr cn).

(** The status and [*remoteOut]. *)
Definition DPS_AddRemoteNode (addr : DPS_NodeAddress) (cn : option Z) : M (DPS_Status * option ptr) :=
  remote ← DPS_LookupRemoteNode (Some addr);
  match remote with
  | Some p =>
      r ← load n_remotes p;
      _ ← (match ep_cn (ep r) with
           | None =>
               _ ← emit (EvIncRef cn);
               update n_remotes p (fun r => r <| ep := mkEp (ep_addr (ep r)) cn |>)
           | Some _ => mret ()
           end);
      mret (DPS_ERR_EXISTS, Some p)
  | None =>
      _ ← assert (negb (bool_decide (addr_type addr = DPS_UNKNOWN)));
      ok ← alloc_ok;
      if ok : bool then
        p ← new n_remotes (new_remote addr cn);
        _ ← emit (EvIncRef cn);
        _ ← InsertRemoteNode p;
        mret (DPS_OK, Some p)
      else mret (DPS_ERR_RESOURCES, None)
  end.

Definition DPS_SendComplete (addr : option DPS_NodeAddress) (status : DPS_Status) : M unit :=
  match addr with
  | Some addr =>
      if is_OK status then mret () else
      remote ← DPS_LookupRemoteNode (Some addr);
      match remote with Some p => DPS_DeleteRemoteNode p | None => mret () end
  | None => mret ()
  end.

(** ** When the subscriptions are sent *)

Definition DPS_UpdateSubs (pending : SubsPendingState) : M unit :=
  state ← gets n_state;
  if bool_decide (state = DPS_NODE_RUNNING) then
    subsPending ← gets n_subsPending;
    _ ← modify (fun n => n <| n_subsPending :=
          if negb (bool_decide (subsPending = SubsSendNow)) && bool_decide (pending = SubsThrottled)
          then SubsThrottled else SubsSendNow |>);
    emit (EvAsyncSend subsAsync)
  else mret ().

Definition DPS_OnSendComplete (addr : option DPS_NodeAddress) (status : DPS_Status) : M unit :=
  DPS_SendComplete addr status.

Definition DPS_OnSendSubscriptionComplete (addr : option DPS_NodeAddress) (status : DPS_Status) : M unit :=
  match addr with
  | Some addr =>
      remote ← DPS_LookupRemoteNode (Some addr);
      match remote with
      | Some p =>
          if is_OK status then
            state ← gets n_state;
            r ← load n_remotes p;
            when (bool_decide (state = DPS_NODE_RUNNING) && sakPending (outbound r))
              (DPS_UpdateSubs SubsThrottled)
          else DPS_DeleteRemoteNode p
      | None => mret ()
      end
  | None => mret ()
  end.

End Remote.
