(* ===== verification/RemoteProofs.v ===== *)
(** * The invariant of a node ([src/dps.c])

    What holds between two operations: the heaps and the lists agree, the vectors
    have the configured lengths, and the two count vectors of the node are the
    multisets of the vectors of its subscriptions and of its remotes.  The
    operations of [Remote] keep it, and none of their assertions on counting can
    fail. *)
From S2P Require Import Prelude Status Buffer Float Cbor BitVec BitVecProofs CountVec Uuid Addr History Node Remote.
From stdpp Require Import gmap.
#[local] Open Scope Z_scope.
#[local] Set Warnings "-clear-no-such-hyp".

(** ** Vectors *)

Definition vec_wf (k : nat) (bv : DPS_BitVector) : Prop := bv_wf bv /\ length (bits bv) = k.

#[export] Instance vec_wf_dec k bv : Decision (vec_wf k bv).
Proof. unfold vec_wf. apply _. Defined.

Lemma vec_wf_len k bv : vec_wf k bv -> len bv = 64 * Z.of_nat k.
Proof. intros [Hwf <-]. apply Hwf. Qed.

Definition FH_CHUNKS : nat := 4.

(** A pair of vectors that are both there or both absent. *)
Definition pair_ok (k1 k2 : nat) (v1 v2 : option DPS_BitVector) : Prop :=
  match v1, v2 with
  | Some v1, Some v2 => vec_wf k1 v1 /\ vec_wf k2 v2
  | None, None => True
  | _, _ => False
  end.

#[export] Instance pair_ok_dec k1 k2 v1 v2 : Decision (pair_ok k1 k2 v1 v2).
Proof. destruct v1, v2; unfold pair_ok; apply _. Defined.

(** A vector that was received: after [DPS_BitVectorComplement] the count that it
    caches may be wrong, but not a wrong 0. *)
Definition vec_ok (k : nat) (bv : DPS_BitVector) : Prop :=
  vec_wf k (INVALIDATE_POPCOUNT bv) /\ (popCount bv = 0 -> Forall (eq 0) (bits bv)).

#[export] Instance vec_ok_dec k bv : Decision (vec_ok k bv).
Proof. unfold vec_ok. apply _. Defined.

Lemma vec_ok_cases k bv :
  vec_ok k bv <-> vec_wf k bv \/ popCount bv <> 0 /\ vec_wf k (INVALIDATE_POPCOUNT bv).
Proof.
  split.
  - intros [[[W1 W2 W3 W4] K] H0]. destruct (decide (popCount bv = 0)) as [E|E]; [left|by right].
    split; [|done]. constructor; try done. right. rewrite E. symmetry. apply chunks_count_0; [done|auto].
  - intros [[W K]|[Hn W]]; (split; [|]); [|by intros; apply (bv_empty _ W)|done|done].
    split; [|done]. apply set_popCount_wf; [done|by left].
Qed.
Lemma vec_wf_ok k bv : vec_wf k bv -> vec_ok k bv.
Proof. intros. apply vec_ok_cases. by left. Qed.

Lemma vec_ok_len k bv : vec_ok k bv -> len bv = 64 * Z.of_nat k.
Proof. by intros [H%vec_wf_len _]. Qed.
Lemma vec_ok_length k bv : vec_ok k bv -> length (bits bv) = k.
Proof. by intros [[_ H] _]. Qed.
Lemma vec_ok_chunks k bv : vec_ok k bv -> chunks_ok (bits bv).
Proof. by intros [[[_ _ H _] _] _]. Qed.

Definition held_ok (k1 k2 : nat) (v1 v2 : option DPS_BitVector) : Prop :=
  match v1, v2 with
  | Some v1, Some v2 => vec_ok k1 v1 /\ vec_ok k2 v2
  | None, None => True
  | _, _ => False
  end.

#[export] Instance held_ok_dec k1 k2 v1 v2 : Decision (held_ok k1 k2 v1 v2).
Proof. destruct v1, v2; unfold held_ok; apply _. Defined.

Lemma lxor_zeros l1 l2 : Forall (eq 0) l1 -> length l1 = length l2 -> zip_with Z.lxor l1 l2 = l2.
Proof.
  intros H. revert l2. induction H as [|x l1 <- _ IH]; intros [|y l2]; try done. intros [= Hl].
  cbn. by rewrite IH, Z.lxor_0_l.
Qed.

Lemma zip_lxor_comm l1 l2 : zip_with Z.lxor l1 l2 = zip_with Z.lxor l2 l1.
Proof. revert l2. induction l1 as [|x l1 IH]; intros [|y l2]; cbn; [done..|]. by rewrite IH, Z.lxor_comm. Qed.

Lemma zip_lxor_twice l1 l2 : length l1 = length l2 -> zip_with Z.lxor (zip_with Z.lxor l1 l2) l1 = l2.
Proof.
  revert l2. induction l1 as [|x l1 IH]; intros [|y l2]; try done. intros [= Hl]. cbn.
  by rewrite IH, (Z.lxor_comm x y), Z.lxor_assoc, Z.lxor_nilpotent, Z.lxor_0_r.
Qed.

Lemma zip_lxor_zero l1 l2 :
  length l1 = length l2 -> Forall (eq 0) (zip_with Z.lxor l1 l2) <-> l1 = l2.
Proof.
  revert l2. induction l1 as [|x l1 IH]; intros [|y l2]; try done. intros [= Hl]. cbn.
  rewrite Forall_cons_iff, IH by done. split.
  - intros [H ->]. f_equal. by apply Z.lxor_eq.
  - intros [= -> ->]. by rewrite Z.lxor_nilpotent.
Qed.

Lemma DPS_BitVectorDup_spec dst src : len dst = len src -> DPS_BitVectorDup dst src = Some src.
Proof. intros E. unfold DPS_BitVectorDup. rewrite E, Z.eqb_refl. by destruct src. Qed.

Lemma counted_wf k bv : vec_wf k bv -> vec_wf k (set_popCount bv (chunks_count (bits bv))).
Proof. intros [H E]. split; [apply set_popCount_wf; auto|done]. Qed.

Lemma zeros_eq_count l1 l2 :
  chunks_ok l1 -> chunks_ok l2 -> length l1 = length l2 -> Forall (eq 0) l1 ->
  (if chunks_count l2 =? 0 then Some true else Some false) = Some (bool_decide (l1 = l2)).
Proof.
  intros H1 H2 Hl Z1. pose proof (chunks_count_0 l2 H2) as H0.
  destruct (Z.eqb_spec (chunks_count l2) 0) as [E|E]; f_equal; symmetry.
  - apply bool_decide_eq_true_2. apply H0 in E.
    by rewrite (Forall_zeros_replicate _ Z1), (Forall_zeros_replicate _ E), Hl.
  - apply bool_decide_eq_false_2. intros <-. by apply E, H0.
Qed.

(** [DPS_BitVectorXor]: the symmetric difference, and whether there is none. *)
Lemma DPS_BitVectorXor_spec k out bv1 bv2 :
  vec_wf k out -> vec_wf k bv1 -> vec_wf k bv2 ->
  exists out' v1 v2,
    DPS_BitVectorXor (Some out) (Some bv1) (Some bv2) (Some false) =
      Some (DPS_OK, Some out', Some v1, Some v2, Some (bool_decide (bits bv1 = bits bv2))) /\
    vec_wf k out' /\ bits out' = zip_with Z.lxor (bits bv1) (bits bv2) /\
    vec_wf k v1 /\ bits v1 = bits bv1 /\ vec_wf k v2 /\ bits v2 = bits bv2.
Proof.
  intros Ho H1 H2. pose proof (vec_wf_len _ _ Ho) as Lo. pose proof (vec_wf_len _ _ H1) as L1.
  pose proof (vec_wf_len _ _ H2) as L2. pose proof (counted_wf _ _ H1). pose proof (counted_wf _ _ H2).
  pose proof Ho as [Wo Ko]. pose proof H1 as [W1 K1]. pose proof H2 as [W2 K2].
  assert (length (bits bv1) = length (bits bv2)) as Hl by congruence.
  pose proof (bv_chunks _ W1) as C1. pose proof (bv_chunks _ W2) as C2.
  unfold DPS_BitVectorXor. rewrite Lo, L1, L2, Z.eqb_refl. cbn [c_assert andb mbind option_bind].
  rewrite !DPS_BitVectorPopCount_spec by done.
  destruct (Z.eqb_spec (popCount bv1) 0) as [E1|E1].
  { pose proof (bv_empty _ W1 E1) as Z1. rewrite DPS_BitVectorDup_spec by (cbn; congruence).
    cbn [mbind option_bind]. rewrite (zeros_eq_count _ _ C1 C2) by done.
    do 3 eexists. split; [done|]. split; [done|]. cbn [bits set_popCount]. by rewrite lxor_zeros. }
  destruct (Z.eqb_spec (popCount bv2) 0) as [E2|E2].
  { pose proof (bv_empty _ W2 E2) as Z2. rewrite DPS_BitVectorDup_spec by (cbn; congruence).
    cbn [mbind option_bind]. rewrite (zeros_eq_count _ _ C2 C1), (bool_decide_ext _ (bits bv1 = bits bv2)) by done.
    do 3 eexists. split; [done|]. split; [done|]. cbn [bits set_popCount]. by rewrite zip_lxor_comm, lxor_zeros. }
  set (l := zip_with Z.lxor (bits bv1) (bits bv2)).
  assert (negb (existsb (fun c => negb (c =? 0)) l) = bool_decide (bits bv1 = bits bv2)) as ->.
  { pose proof (existsb_nz l) as H3. unfold l in H3 at 2. rewrite zip_lxor_zero in H3 by done.
    symmetry. destruct (existsb _ l).
    - apply bool_decide_eq_false_2. by intros E%H3.
    - by apply bool_decide_eq_true_2, H3. }
  do 3 eexists. split; [done|]. split; [|by auto].
  split; [|cbn; unfold l; rewrite length_zip_with; lia]. destruct Wo as [Wl Ws _ _].
  constructor; cbn; [rewrite Lo; unfold l; rewrite length_zip_with; lia|done| |by left].
  apply zip_with_ok; [|done..]. intros. by apply (lxor_range _ _ 64).
Qed.

(** The same on received vectors, when the caller does not ask whether they are
    equal. *)
Lemma DPS_BitVectorXor_delta k bv1 bv2 :
  vec_ok k bv1 -> vec_ok k bv2 ->
  exists out' v1 v2,
    DPS_BitVectorXor (Some bv1) (Some bv1) (Some bv2) None = Some (DPS_OK, Some out', v1, v2, None) /\
    vec_ok k out' /\ bits out' = zip_with Z.lxor (bits bv1) (bits bv2).
Proof.
  intros H1 H2. pose proof (vec_ok_len _ _ H1) as L1. pose proof (vec_ok_len _ _ H2) as L2.
  pose proof (vec_ok_length _ _ H1) as K1. pose proof (vec_ok_length _ _ H2) as K2.
  pose proof H1 as [_ Z1]. pose proof H2 as [_ Z2].
  assert (length (bits bv1) = length (bits bv2)) as Hl by congruence.
  unfold DPS_BitVectorXor. rewrite L1, L2, Z.eqb_refl. cbn [c_assert andb mbind option_bind].
  destruct (Z.eqb_spec (popCount bv1) 0) as [E1|E1].
  { rewrite DPS_BitVectorDup_spec by congruence. cbn [mbind option_bind]. do 3 eexists. split; [done|].
    split; [done|]. by rewrite lxor_zeros by auto. }
  destruct (Z.eqb_spec (popCount bv2) 0) as [E2|E2].
  { rewrite DPS_BitVectorDup_spec by congruence. cbn [mbind option_bind]. do 3 eexists. split; [done|].
    split; [done|]. by rewrite zip_lxor_comm, lxor_zeros by (done || auto). }
  do 3 eexists. split; [done|]. split; [|done]. apply vec_wf_ok.
  pose proof (vec_ok_chunks _ _ H1). pose proof (vec_ok_chunks _ _ H2). destruct H1 as [[[_ W _ _] _] _].
  split; [|cbn; rewrite length_zip_with; lia].
  constructor; cbn in *; [rewrite L1, length_zip_with; lia|done| |by left].
  apply zip_with_ok; [|done..].
  intros. by apply (lxor_range _ _ 64).
Qed.

Lemma DPS_BitVectorIsClear_spec k bv :
  vec_wf k bv ->
  exists bv', DPS_BitVectorIsClear bv = (bool_decide (Forall (eq 0) (bits bv)), bv') /\
    vec_wf k bv' /\ bits bv' = bits bv.
Proof.
  intros [W K]. unfold DPS_BitVectorIsClear, UNKNOWN_POPCOUNT.
  pose proof (existsb_nz (bits bv)) as Hnz. pose proof (chunks_count_0 _ (bv_chunks _ W)) as H0.
  destruct (Z.ltb_spec (popCount bv) 0).
  - destruct (existsb _ (bits bv)).
    + exists bv. rewrite bool_decide_eq_false_2; [done|]. by intros E%Hnz.
    + assert (Forall (eq 0) (bits bv)) as Hz by by apply Hnz.
      exists (set_popCount bv 0). rewrite bool_decide_eq_true_2 by done. split; [done|].
      split; [|done]. split; [|done]. apply set_popCount_wf; [done|]. right. symmetry. by apply H0.
  - exists bv. split; [|done]. f_equal. destruct (bv_count _ W) as [E|E]; [lia|].
    destruct (Z.eqb_spec (popCount bv) 0) as [Ez|Ez]; symmetry;
      [apply bool_decide_eq_true_2|apply bool_decide_eq_false_2]; rewrite <- H0; congruence.
Qed.

Lemma DPS_BitVectorIsClear_received k bv :
  vec_ok k bv ->
  exists b bv', DPS_BitVectorIsClear bv = (b, bv') /\ vec_ok k bv' /\ bits bv' = bits bv /\
    (b = true -> Forall (eq 0) (bits bv)).
Proof.
  intros H. pose proof H as [_ H0]. pose proof (proj1 (vec_ok_cases _ _) H) as [W|[Hn W]].
  - destruct (DPS_BitVectorIsClear_spec k bv W) as (bv' & -> & W' & Eb). do 2 eexists. split; [done|].
    split; [by apply vec_wf_ok|]. split; [done|]. by intros ?%bool_decide_eq_true.
  - unfold DPS_BitVectorIsClear, UNKNOWN_POPCOUNT. destruct (Z.ltb_spec (popCount bv) 0).
    + pose proof (existsb_nz (bits bv)) as Hnz. destruct (existsb _ _); do 2 eexists; (split; [done|]); [done|].
      assert (Forall (eq 0) (bits bv)) as Hz by by apply Hnz. split; [|done]. by split.
    + rewrite (proj2 (Z.eqb_neq _ _)) by done. do 2 eexists. split; [done|]. done.
Qed.

(** ** Count vectors, up to the order of their multiset *)

Definition counts (cv : DPS_CountVector) (k : nat) (L : list (list Z)) : Prop :=
  exists L', L' ≡ₚ L /\ cv_repr cv k L'.

#[export] Instance counts_proper cv k : Proper ((≡ₚ) ==> iff) (counts cv k).
Proof. intros L1 L2 E. unfold counts. by setoid_rewrite E. Qed.

Lemma counts_length cv k L : counts cv k L -> entries cv = Z.of_nat (length L).
Proof. intros (L' & <- & H). apply H. Qed.

(** The cached count only matters when it is 0. *)
Lemma CountVector_popCount cv bv :
  popCount bv <> 0 ->
  DPS_CountVectorAdd (Some cv) (Some bv) = DPS_CountVectorAdd (Some cv) (Some (INVALIDATE_POPCOUNT bv)) /\
  DPS_CountVectorDel (Some cv) (Some bv) = DPS_CountVectorDel (Some cv) (Some (INVALIDATE_POPCOUNT bv)).
Proof.
  intros Hn. unfold DPS_CountVectorAdd, DPS_CountVectorDel. by rewrite (proj2 (Z.eqb_neq _ _) Hn).
Qed.

Lemma counts_add cv k bv L :
  counts cv k L -> vec_ok k bv -> Z.of_nat (length L) < CV_MAX ->
  exists cv', DPS_CountVectorAdd (Some cv) (Some bv) = Some (DPS_OK, Some cv') /\
    counts cv' k (bits bv :: L) /\ (is_Some (bvUnion cv') <-> is_Some (bvUnion cv)).
Proof.
  intros (L' & E & H) Hok Hl. rewrite <- E in Hl.
  assert (forall w, vec_wf k w -> exists cv', DPS_CountVectorAdd (Some cv) (Some w) = Some (DPS_OK, Some cv') /\
    counts cv' k (bits w :: L) /\ (is_Some (bvUnion cv') <-> is_Some (bvUnion cv))) as Hw.
  { intros w [Hwf Hk]. destruct (DPS_CountVectorAdd_spec cv w k L') as (cv' & -> & H' & Hu); [done..|].
    exists cv'. split; [done|]. split; [|done]. exists (bits w :: L'). split; [by constructor|done]. }
  apply vec_ok_cases in Hok as [W|[Hn W]]; [by apply Hw|].
  rewrite (proj1 (CountVector_popCount cv bv Hn)). exact (Hw _ W).
Qed.

Lemma counts_del cv k bv L :
  counts cv k (bits bv :: L) -> vec_ok k bv ->
  exists cv', DPS_CountVectorDel (Some cv) (Some bv) = Some (DPS_OK, Some cv') /\
    counts cv' k L /\ (is_Some (bvUnion cv') <-> is_Some (bvUnion cv)).
Proof.
  intros (L' & E & H) Hok.
  assert (forall w, vec_wf k w -> bits w = bits bv -> exists cv', DPS_CountVectorDel (Some cv) (Some w) = Some (DPS_OK, Some cv') /\
    counts cv' k L /\ (is_Some (bvUnion cv') <-> is_Some (bvUnion cv))) as Hw.
  { intros w [Hwf Hk] Eb. rewrite <- Eb in E.
    destruct (DPS_CountVectorDel_spec cv w k L' L) as (cv' & -> & H' & Hu); [done..|].
    exists cv'. split; [done|]. split; [|done]. by exists L. }
  apply vec_ok_cases in Hok as [W|[Hn W]]; [by apply Hw|].
  rewrite (proj2 (CountVector_popCount cv bv Hn)). exact (Hw _ W eq_refl).
Qed.

(** ** The vectors of a list of objects *)

Lemma filter_ne_id (l : list ptr) p : (p ∉ l) -> filter (fun q => q <> p) l = l.
Proof.
  induction l as [|q l IH]; [done|]. intros Hp. rewrite filter_cons, decide_True.
  - rewrite IH; [done|]. intros H. apply Hp. by right.
  - intros ->. apply Hp. by left.
Qed.

Section Vectors.
Context {V : Type} (f : V -> option DPS_BitVector).

Definition vectors_at (m : gmap ptr V) (p : ptr) : option (list Z) :=
  v ← m !! p; bv ← f v; Some (bits bv).
Definition vectors (m : gmap ptr V) (l : list ptr) : list (list Z) := omap (vectors_at m) l.

Lemma vectors_ext m m' l :
  (forall p, p ∈ l -> m !! p = m' !! p) -> vectors m l = vectors m' l.
Proof.
  intros H. unfold vectors. apply list_omap_ext, Forall_Forall2_diag, Forall_forall. intros p Hp.
  unfold vectors_at. by rewrite (H p Hp).
Qed.

(** The vectors of the objects but one. *)
Definition others (m : gmap ptr V) (l : list ptr) (p : ptr) : list (list Z) :=
  vectors m (filter (fun q => q <> p) l).

Lemma vectors_split m l p :
  NoDup l -> p ∈ l -> vectors m l ≡ₚ option_list (vectors_at m p) ++ others m l p.
Proof.
  intros Hn Hp. induction Hn as [|q l Hq Hn IH]; [by apply not_elem_of_nil in Hp|].
  unfold others, vectors. rewrite filter_cons. cbn [omap list_omap]. case_decide as Hd.
  - apply elem_of_cons in Hp as [->|Hp]; [done|]. cbn [omap list_omap].
    destruct (vectors_at m q); fold (vectors m l) (vectors m (filter (fun q => q <> p) l)); rewrite (IH Hp).
    + by rewrite Permutation_middle.
    + done.
  - assert (q = p) as -> by (destruct (decide (q = p)); [done|by destruct Hd]).
    rewrite filter_ne_id by done. by destruct (vectors_at m p).
Qed.

Lemma vectors_cons m p l : vectors m (p :: l) = option_list (vectors_at m p) ++ vectors m l.
Proof. unfold vectors. cbn. by destruct (vectors_at m p). Qed.

Lemma others_insert m l p v : others (<[p := v]> m) l p = others m l p.
Proof.
  apply vectors_ext. intros q [Hq _]%list_elem_of_filter. rewrite lookup_insert_ne; [done|]. by intros ->.
Qed.

Lemma vectors_at_insert m p v : vectors_at (<[p := v]> m) p = bits <$> f v.
Proof. unfold vectors_at. rewrite lookup_insert_eq. cbn. by destruct (f v). Qed.

Lemma vectors_at_Some m p v : m !! p = Some v -> vectors_at m p = bits <$> f v.
Proof. unfold vectors_at. intros ->. cbn. by destruct (f v). Qed.

(** Changing one object exchanges its vector. *)
Lemma vectors_update m l p v :
  NoDup l -> p ∈ l -> m !! p = Some v ->
  vectors m l ≡ₚ option_list (bits <$> f v) ++ others m l p /\
  forall v', vectors (<[p := v']> m) l ≡ₚ option_list (bits <$> f v') ++ others m l p.
Proof.
  intros Hn Hp E. split.
  - by rewrite (vectors_split m l p), (vectors_at_Some m p v).
  - intros v'. by rewrite (vectors_split _ l p), vectors_at_insert, others_insert.
Qed.

(** A change that keeps the vector keeps the vectors. *)
Lemma vectors_same m l p v v' :
  m !! p = Some v -> f v' = f v -> vectors (<[p := v']> m) l = vectors m l.
Proof.
  intros E Ev. unfold vectors. apply list_omap_ext, Forall_Forall2_diag, Forall_forall. intros q _.
  destruct (decide (q = p)) as [->|Hne].
  - by rewrite vectors_at_insert, (vectors_at_Some m p v), Ev.
  - unfold vectors_at. by rewrite lookup_insert_ne.
Qed.

Lemma vectors_fresh m l p v : (p ∉ l) -> vectors (<[p := v]> m) l = vectors m l.
Proof. intros Hp. apply vectors_ext. intros q Hq. by rewrite lookup_insert_ne by (intros ->; done). Qed.

Lemma vectors_delete m l p : (p ∉ l) -> vectors (delete p m) l = vectors m l.
Proof. intros Hp. apply vectors_ext. intros q Hq. by rewrite lookup_delete_ne by (intros ->; done). Qed.
End Vectors.

(** ** The list of remotes *)

Lemma existsb_elem (l : list ptr) p : existsb (Pos.eqb p) l = bool_decide (p ∈ l).
Proof.
  induction l as [|q l IH]; [done|]. cbn. rewrite IH. destruct (Pos.eqb_spec p q) as [->|Hne]; cbn.
  - symmetry. apply bool_decide_eq_true_2. by left.
  - apply bool_decide_ext. rewrite elem_of_cons. tauto.
Qed.

Lemma unlink_ptr_spec l p :
  NoDup l -> p ∈ l -> unlink_ptr l p = Some (filter (fun q => q <> p) l).
Proof.
  induction 1 as [|q l Hq Hn IH]; [by intros ?%not_elem_of_nil|]. intros Hp. cbn [unlink_ptr]. rewrite filter_cons.
  destruct (Pos.eqb_spec q p) as [->|Hne].
  - rewrite decide_False by tauto. by rewrite filter_ne_id.
  - rewrite decide_True by done. apply elem_of_cons in Hp as [->|Hp]; [done|]. by rewrite IH.
Qed.

Lemma filter_ne_Permutation (l : list ptr) p :
  NoDup l -> p ∈ l -> l ≡ₚ p :: filter (fun q => q <> p) l.
Proof.
  induction 1 as [|q l Hq Hn IH]; [by intros ?%not_elem_of_nil|]. intros Hp. rewrite filter_cons.
  case_decide as Hd.
  - apply elem_of_cons in Hp as [->|Hp]; [done|]. rewrite (IH Hp) at 1. apply perm_swap.
  - assert (q = p) as -> by (destruct (decide (q = p)); [done|by destruct Hd]). by rewrite filter_ne_id.
Qed.

(** ** The invariant *)

Section Inv.
Context `{Env : Environment} (nI : nat).

Definition uint32 (n : Z) : Prop := 0 <= n < 2 ^ 32.

Lemma u32_uint32 n : uint32 (u32 n).
Proof. unfold uint32, u32. by apply Z.mod_pos_bound. Qed.

Definition addr_ok (a : DPS_NodeAddress) : Prop := addr_type a = env_transport /\ ip_ok a.

Record remote_ok (r : RemoteNode) : Prop := {
  ro_inbound : held_ok nI FH_CHUNKS (in_interests (inbound r)) (in_needs (inbound r));
  ro_outbound : pair_ok nI FH_CHUNKS (out_interests (outbound r)) (out_needs (outbound r));
  ro_delta : forall d, out_delta (outbound r) = Some d -> vec_wf nI d;
  ro_addr : addr_ok (ep_addr (ep r));
  ro_words : uint32 (out_revision (outbound r)) /\ uint32 (in_revision (inbound r)) /\ uuid_ok (in_meshId (inbound r))
}.

(** A subscription of the list is not freed and has its two vectors. *)
Definition sub_ok (s : DPS_Subscription) : Prop :=
  has_flag (s_flags s) SUB_FLAG_WAS_FREED = false /\
  exists bf nd, s_bf s = Some bf /\ s_needs s = Some nd /\ vec_wf nI bf /\ vec_wf FH_CHUNKS nd.

Definition remote_interests (r : RemoteNode) : option DPS_BitVector := in_interests (inbound r).
Definition remote_needs (r : RemoteNode) : option DPS_BitVector := in_needs (inbound r).

(** What is counted: the vectors of the subscriptions and of the remotes. *)
Definition int_list (n : DPS_Node) : list (list Z) :=
  vectors s_bf (n_subs n) (n_subscriptions n) ++ vectors remote_interests (n_remotes n) (n_remoteNodes n).
Definition need_list (n : DPS_Node) : list (list Z) :=
  vectors s_needs (n_subs n) (n_subscriptions n) ++ vectors remote_needs (n_remotes n) (n_remoteNodes n).

Definition counted (n : DPS_Node) (LI LN : list (list Z)) : Prop :=
  counts (n_interests n) nI LI /\ is_Some (bvUnion (n_interests n)) /\ counts (n_needs n) FH_CHUNKS LN.

(** The completion of a remote is allocated, points back and has a callback. *)
Definition completions_ok (n : DPS_Node) : Prop :=
  forall p r c, n_remotes n !! p = Some r -> completion r = Some c ->
  exists k, n_cpns n !! c = Some k /\ c_remote k = Some p /\ c_cb k <> CbNull.

Record node_inv (n : DPS_Node) : Prop := {
  ni_nodup : NoDup (n_remoteNodes n);
  ni_remotes : forall p, is_Some (n_remotes n !! p) <-> p ∈ n_remoteNodes n;
  ni_remote : forall p r, n_remotes n !! p = Some r -> remote_ok r;
  ni_subs_nodup : NoDup (n_subscriptions n);
  ni_subs : forall p, p ∈ n_subscriptions n -> exists s, n_subs n !! p = Some s /\ sub_ok s;
  ni_counted : counted n (int_list n) (need_list n);
  ni_completions : completions_ok n
}.

(** What the operations on remotes leave alone. *)
Record keeps (n n' : DPS_Node) : Prop := {
  k_subs : n_subs n' = n_subs n;
  k_subscriptions : n_subscriptions n' = n_subscriptions n;
  k_state : n_state n' = n_state n;
  k_netCtx : n_netCtx n' = n_netCtx n;
  k_addr : n_addr n' = n_addr n;
  k_meshId : n_meshId n' = n_meshId n
}.

#[export] Instance keeps_refl : Reflexive keeps.
Proof. by intros n. Qed.
#[export] Instance keeps_trans : Transitive keeps.
Proof. intros n1 n2 n3 [] []. split; congruence. Qed.

(** What a remote adds to the multisets. *)
Definition contrib (v : option DPS_BitVector) : list (list Z) := option_list (bits <$> v).

Lemma counted_perm n LI LN LI' LN' :
  counted n LI LN -> LI ≡ₚ LI' -> LN ≡ₚ LN' -> counted n LI' LN'.
Proof. intros (H1 & H2 & H3) E1 E2. split; [by rewrite <- E1|]. split; [done|]. by rewrite <- E2. Qed.

Lemma node_inv_elem n p r : node_inv n -> n_remotes n !! p = Some r -> p ∈ n_remoteNodes n.
Proof. intros H E. apply (ni_remotes _ H). by eexists. Qed.

Lemma int_list_split n p r :
  node_inv n -> n_remotes n !! p = Some r ->
  int_list n ≡ₚ contrib (remote_interests r) ++
    vectors s_bf (n_subs n) (n_subscriptions n) ++ others remote_interests (n_remotes n) (n_remoteNodes n) p.
Proof.
  intros H E. unfold int_list.
  destruct (vectors_update remote_interests (n_remotes n) (n_remoteNodes n) p r) as [-> _];
    [apply H|by eapply node_inv_elem|done|]. by rewrite Permutation_app_swap_app.
Qed.

Lemma need_list_split n p r :
  node_inv n -> n_remotes n !! p = Some r ->
  need_list n ≡ₚ contrib (remote_needs r) ++
    vectors s_needs (n_subs n) (n_subscriptions n) ++ others remote_needs (n_remotes n) (n_remoteNodes n) p.
Proof.
  intros H E. unfold need_list.
  destruct (vectors_update remote_needs (n_remotes n) (n_remoteNodes n) p r) as [-> _];
    [apply H|by eapply node_inv_elem|done|]. by rewrite Permutation_app_swap_app.
Qed.

(** The multisets without one remote. *)
Definition rest_interests (n : DPS_Node) (p : ptr) : list (list Z) :=
  vectors s_bf (n_subs n) (n_subscriptions n) ++ others remote_interests (n_remotes n) (n_remoteNodes n) p.
Definition rest_needs (n : DPS_Node) (p : ptr) : list (list Z) :=
  vectors s_needs (n_subs n) (n_subscriptions n) ++ others remote_needs (n_remotes n) (n_remoteNodes n) p.

Lemma counted_split n p r :
  node_inv n -> n_remotes n !! p = Some r ->
  counted n (contrib (remote_interests r) ++ rest_interests n p) (contrib (remote_needs r) ++ rest_needs n p).
Proof.
  intros H E. eapply counted_perm; [apply H|by apply int_list_split|by apply need_list_split].
Qed.

(** Changing one remote, and with it the counters, keeps the invariant. *)
Lemma node_inv_update n n' p r r' :
  node_inv n -> n_remotes n !! p = Some r -> remote_ok r' ->
  n_remotes n' = <[p := r']> (n_remotes n) -> n_remoteNodes n' ≡ₚ n_remoteNodes n -> keeps n n' ->
  counted n' (contrib (remote_interests r') ++ rest_interests n p)
             (contrib (remote_needs r') ++ rest_needs n p) ->
  completions_ok n' -> node_inv n'.
Proof.
  intros H E Hr Em El K Hc Hk. pose proof (node_inv_elem _ _ _ H E) as Hp.
  destruct K as [K1 K2 _ _ _ _]. constructor.
  - rewrite El. apply H.
  - intros q. rewrite Em, El, <- (ni_remotes _ H). destruct (decide (q = p)) as [->|Hne].
    + rewrite lookup_insert_eq, E. split; eauto.
    + by rewrite lookup_insert_ne.
  - intros q rq. rewrite Em. destruct (decide (q = p)) as [->|Hne].
    + rewrite lookup_insert_eq. by intros [= <-].
    + rewrite lookup_insert_ne by done. apply H.
  - rewrite K2. apply H.
  - rewrite K1, K2. apply H.
  - eapply counted_perm; [exact Hc| |]; symmetry.
    + unfold int_list, rest_interests. rewrite K1, K2, Em.
      rewrite (Permutation_app_swap_app (contrib _)). apply Permutation_app_head.
      unfold vectors at 1. rewrite El. by apply (vectors_update remote_interests _ _ _ _ (ni_nodup _ H) Hp E).
    + unfold need_list, rest_needs. rewrite K1, K2, Em.
      rewrite (Permutation_app_swap_app (contrib _)). apply Permutation_app_head.
      unfold vectors at 1. rewrite El. by apply (vectors_update remote_needs _ _ _ _ (ni_nodup _ H) Hp E).
  - done.
Qed.

(** The invariant is about these fields only. *)
Lemma node_inv_same n n' :
  node_inv n -> n_remotes n' = n_remotes n -> n_remoteNodes n' = n_remoteNodes n ->
  n_subs n' = n_subs n -> n_subscriptions n' = n_subscriptions n -> n_cpns n' = n_cpns n ->
  n_interests n' = n_interests n -> n_needs n' = n_needs n -> node_inv n'.
Proof.
  intros [] E1 E2 E3 E4 E5 E6 E7.
  constructor; unfold completions_ok, counted, int_list, need_list in *;
    rewrite ?E1, ?E2, ?E3, ?E4, ?E5, ?E6, ?E7; done.
Qed.

Lemma completions_update n n' p r r' :
  completions_ok n -> n_remotes n !! p = Some r -> completion r' = completion r ->
  n_remotes n' = <[p := r']> (n_remotes n) -> n_cpns n' = n_cpns n -> completions_ok n'.
Proof.
  intros H E Ec Em Ek q rq c. rewrite Em, Ek. destruct (decide (q = p)) as [->|Hne].
  - rewrite lookup_insert_eq. intros [= <-]. rewrite Ec. by apply H.
  - rewrite lookup_insert_ne by done. apply H.
Qed.

(** Changing the fields of a remote that are not counted. *)
Lemma node_inv_fields n p r r' :
  node_inv n -> n_remotes n !! p = Some r -> remote_ok r' ->
  inbound r' = inbound r -> completion r' = completion r ->
  node_inv (n <| n_remotes := <[p := r']> (n_remotes n) |>).
Proof.
  intros H E Hr Ei Ec. eapply (node_inv_update n _ p r r'); try done.
  - unfold remote_interests, remote_needs. rewrite Ei.
    destruct (counted_split n p r H E) as (H1 & H2 & H3). split; [exact H1|]. split; [exact H2|exact H3].
  - eapply (completions_update n); try done. apply H.
Qed.

(** ** Clearing the interests of a remote *)

Definition cleared (r : RemoteNode) : RemoteNode :=
  r <| inbound := (inbound r) <| in_interests := None |> <| in_needs := None |> |>.

Lemma wp_count_del_interests bv c (Q : DPS_Status -> DPS_Node -> Prop) n :
  DPS_CountVectorDel (Some (n_interests n)) bv = Some (DPS_OK, Some c) ->
  Q DPS_OK (n <| n_interests := c |>) -> wp (count_del n_interests bv) Q n.
Proof. unfold wp, count_del. by intros ->. Qed.
Lemma wp_count_del_needs bv c (Q : DPS_Status -> DPS_Node -> Prop) n :
  DPS_CountVectorDel (Some (n_needs n)) bv = Some (DPS_OK, Some c) ->
  Q DPS_OK (n <| n_needs := c |>) -> wp (count_del n_needs bv) Q n.
Proof. unfold wp, count_del. by intros ->. Qed.
Lemma wp_count_add_interests bv c (Q : DPS_Status -> DPS_Node -> Prop) n :
  DPS_CountVectorAdd (Some (n_interests n)) bv = Some (DPS_OK, Some c) ->
  Q DPS_OK (n <| n_interests := c |>) -> wp (count_add n_interests bv) Q n.
Proof. unfold wp, count_add. by intros ->. Qed.
Lemma wp_count_add_needs bv c (Q : DPS_Status -> DPS_Node -> Prop) n :
  DPS_CountVectorAdd (Some (n_needs n)) bv = Some (DPS_OK, Some c) ->
  Q DPS_OK (n <| n_needs := c |>) -> wp (count_add n_needs bv) Q n.
Proof. unfold wp, count_add. by intros ->. Qed.

(** Neither assertion on the counts fails. *)
Lemma clear_inbound_wp n p r LI LN Q :
  n_remotes n !! p = Some r -> held_ok nI FH_CHUNKS (remote_interests r) (remote_needs r) ->
  counted n (contrib (remote_interests r) ++ LI) (contrib (remote_needs r) ++ LN) ->
  (forall cI cN,
    let n' := n <| n_interests := cI |> <| n_needs := cN |>
                <| n_remotes := <[p := cleared r]> (n_remotes n) |> in
    counted n' LI LN -> Q () n') ->
  wp (DPS_ClearInboundInterests p) Q n.
Proof.
  intros E Hok (HI & Hu & HN) HQ. unfold DPS_ClearInboundInterests.
  wp_go. eapply wp_load; [exact E|]. wp_go. unfold remote_interests, remote_needs, contrib in *.
  destruct (in_interests (inbound r)) as [bi|] eqn:Ei, (in_needs (inbound r)) as [bn|] eqn:En; try done.
  - destruct Hok as [Wi Wn]. cbn [fmap option_fmap option_map option_list app] in HI, HN.
    destruct (counts_del _ _ _ _ HI Wi) as (cI & EI & HI' & UI).
    destruct (counts_del _ _ _ _ HN Wn) as (cN & EN & HN' & _).
    wp_go. eapply wp_count_del_interests; [exact EI|]. wp_go. apply wp_assert; [done|].
    eapply wp_upd_inbound; [exact E|]. wp_go.
    eapply wp_count_del_needs; [exact EN|]. wp_go. apply wp_assert; [done|].
    eapply wp_upd_inbound; [apply lookup_insert_eq|].
    match goal with |- Q _ ?n' => replace n' with (n <| n_interests := cI |> <| n_needs := cN |>
      <| n_remotes := <[p := cleared r]> (n_remotes n) |>) end.
    + apply HQ. split; [exact HI'|]. split; [by apply UI|exact HN'].
    + unfold set, set_n_remotes, set_n_needs, set_n_interests. cbn. rewrite insert_insert_eq. by destruct r.
  - cbn in HI, HN. wp_go. specialize (HQ (n_interests n) (n_needs n)). fields_in HQ.
    rewrite insert_id in HQ; [by destruct n; apply HQ|]. destruct r as [c st [rev m nd it] out e]. fields. cbn in *. by subst.
Qed.

(** ** Deleting a remote *)

(** Only the request queue, the shutdown callback and the events differ. *)
Definition quiet (n n' : DPS_Node) : Prop :=
  n' = n <| n_requestQueue := n_requestQueue n' |> <| n_onShutdown := n_onShutdown n' |>
         <| n_events := n_events n' |>.

Lemma quiet_refl n : quiet n n.
Proof. unfold quiet. by destruct n. Qed.
Lemma quiet_trans n1 n2 n3 : quiet n1 n2 -> quiet n2 n3 -> quiet n1 n3.
Proof. unfold quiet. intros E1 E2. rewrite E2, E1. reflexivity. Qed.

Lemma quiet_cpns f n n' : quiet (set n_cpns f n) n' -> quiet (n <| n_cpns := n_cpns n' |>) n'.
Proof.
  unfold quiet. intros H. assert (n_cpns n' = f (n_cpns n)) as -> by by rewrite H. exact H.
Qed.

Lemma wp_OnShutdown (Q : unit -> DPS_Node -> Prop) n :
  (forall n', quiet n n' -> Q () n') -> wp OnShutdown Q n.
Proof.
  intros HQ. unfold OnShutdown. wp_go.
  destruct (n_onShutdown n), (n_remoteNodes n); wp_go; apply HQ; by destruct n.
Qed.

Lemma wp_RemoteCompletion_no_remote c k (Q : unit -> DPS_Node -> Prop) n :
  n_cpns n !! c = Some k -> c_cb k <> CbNull ->
  (forall n', quiet (n <| n_cpns := delete c (n_cpns n) |>) n' -> Q () n') ->
  wp (RemoteCompletion_no_remote c) Q n.
Proof.
  intros E Hcb HQ. unfold RemoteCompletion_no_remote, finish_completion, DPS_NodeRequestCancel.
  wp_go. eapply wp_load; [exact E|]. wp_go. eapply wp_load; [exact E|]. wp_go.
  assert (forall n', quiet n n' ->
    wp (free n_cpns c) (fun _ => wp (gets n_onShutdown ≫= fun s => when (bool_decide (is_Some s)) OnShutdown) Q) n')
    as Hrest.
  { intros n' Hn'. eapply wp_free; [by rewrite Hn'; exact E|]. wp_go.
    assert (quiet (n <| n_cpns := delete c (n_cpns n) |>) (set n_cpns (delete c) n')) as Hq.
    { unfold quiet. rewrite Hn'. reflexivity. }
    apply wp_when; [intros _; apply wp_OnShutdown; intros n'' Hn''|]; intros; apply HQ; [|done].
    by eapply quiet_trans. }
  unfold call_completion. destruct (c_cb k) as [|cb|]; [done| |].
  - wp_go. apply Hrest. reflexivity.
  - apply wp_OnShutdown. intros n' Hn'. apply Hrest. eapply quiet_trans; [|exact Hn']. reflexivity.
Qed.

(** Removing a remote, its contribution and its completion keeps the invariant. *)
Lemma node_inv_delete n n' p :
  node_inv n -> n_remotes n' = delete p (n_remotes n) ->
  n_remoteNodes n' = filter (fun q => q <> p) (n_remoteNodes n) -> keeps n n' ->
  counted n' (rest_interests n p) (rest_needs n p) -> completions_ok n' -> node_inv n'.
Proof.
  intros H Em El [K1 K2 _ _ _ _] Hc Hk.
  assert (p ∉ filter (fun q => q <> p) (n_remoteNodes n)) as Hp by by intros [? _]%list_elem_of_filter.
  constructor; try done.
  - rewrite El. apply NoDup_filter, H.
  - intros q. rewrite Em, El, list_elem_of_filter, <- (ni_remotes _ H).
    destruct (decide (q = p)) as [->|Hne].
    + rewrite lookup_delete_eq. split; [by intros [? ?]|by intros [? _]].
    + rewrite lookup_delete_ne by done. tauto.
  - intros q rq. rewrite Em. intros [_ E]%lookup_delete_Some. by apply (ni_remote _ H q).
  - rewrite K2. apply H.
  - rewrite K1, K2. apply H.
  - unfold int_list, need_list. rewrite K1, K2, Em, El, !vectors_delete by done. exact Hc.
Qed.

Lemma wp_RemoveRemoteNode n p (Q : unit -> DPS_Node -> Prop) :
  NoDup (n_remoteNodes n) -> p ∈ n_remoteNodes n ->
  Q () (n <| n_remoteNodes := filter (fun q => q <> p) (n_remoteNodes n) |>) ->
  wp (RemoveRemoteNode p) Q n.
Proof. intros Hn Hp HQ. unfold wp, RemoveRemoteNode. by rewrite unlink_ptr_spec. Qed.

(** After the last step, whatever the completion did. *)
Lemma wp_delete_end n n1 n2 p cn (Q : unit -> DPS_Node -> Prop) :
  node_inv n -> p ∈ n_remoteNodes n ->
  is_Some (n_remotes n1 !! p) -> delete p (n_remotes n1) = delete p (n_remotes n) ->
  n_remoteNodes n1 = filter (fun q => q <> p) (n_remoteNodes n) -> keeps n n1 ->
  counted n1 (rest_interests n p) (rest_needs n p) ->
  quiet (n1 <| n_cpns := n_cpns n2 |>) n2 ->
  (forall q r c, q <> p -> n_remotes n !! q = Some r -> completion r = Some c ->
     exists k, n_cpns n2 !! c = Some k /\ c_remote k = Some q /\ c_cb k <> CbNull) ->
  (forall n', node_inv n' -> keeps n n' -> n_remotes n' = delete p (n_remotes n) ->
     n_remoteNodes n' = filter (fun q => q <> p) (n_remoteNodes n) -> Q () n') ->
  wp (_ ← emit (EvDecRef cn); free n_remotes p) Q n2.
Proof.
  intros H Hp [r1 E1] Em El K Hc Hq Hk HQ. wp_go.
  assert (n_remotes n2 = n_remotes n1) as E2 by by rewrite Hq.
  assert (n_remoteNodes n2 = n_remoteNodes n1) as E3 by by rewrite Hq.
  eapply wp_free; [fields; by rewrite E2|].
  assert (keeps n (set n_remotes (delete p) (n2 <| n_events := EvDecRef cn :: n_events n2 |>))) as K2.
  { destruct K. rewrite Hq. by constructor. }
  apply HQ; fields; rewrite ?E2, ?E3; try done.
  eapply (node_inv_delete n _ p H); fields; rewrite ?E2, ?E3; try done.
  - destruct Hc as (H1 & H2 & H3). unfold counted. rewrite Hq. done.
  - intros q rq c. fields. rewrite E2, Em. intros [Hne E]%lookup_delete_Some. by apply Hk.
Qed.

Lemma wp_DeleteRemoteNode n p (Q : unit -> DPS_Node -> Prop) :
  node_inv n ->
  (forall n', node_inv n' -> keeps n n' -> n_remotes n' = delete p (n_remotes n) ->
     n_remoteNodes n' = filter (fun q => q <> p) (n_remoteNodes n) -> Q () n') ->
  wp (DPS_DeleteRemoteNode p) Q n.
Proof.
  intros H HQ. unfold DPS_DeleteRemoteNode, IsValidRemoteNode. wp_go. rewrite existsb_elem.
  case_bool_decide as Hp; cbn [negb]; wp_go.
  2: { apply HQ; [done|done| |by rewrite filter_ne_id].
       rewrite delete_id; [done|]. apply eq_None_not_Some. by rewrite (ni_remotes _ H). }
  apply (ni_remotes _ H) in Hp as Hr. destruct Hr as [r E].
  pose proof (counted_split _ _ _ H E) as Hc. pose proof (ro_inbound _ (ni_remote _ H _ _ E)) as Hi.
  apply wp_RemoveRemoteNode; [apply H|done|]. wp_go.
  eapply clear_inbound_wp; [exact E|exact Hi|exact Hc|]. intros cI cN. cbv zeta. intros Hc1.
  wp_go. unfold FreeOutboundInterests. eapply wp_upd_outbound; [apply lookup_insert_eq|].
  wp_go. eapply wp_upd_outbound; [apply lookup_insert_eq|]. wp_go.
  eapply wp_load; [apply lookup_insert_eq|]. wp_go. fields.
  match goal with |- wp _ _ ?n0 => set (n1 := n0) end.
  assert (forall n2, quiet (n1 <| n_cpns := n_cpns n2 |>) n2 ->
     (forall q r c, q <> p -> n_remotes n !! q = Some r -> completion r = Some c ->
        exists k, n_cpns n2 !! c = Some k /\ c_remote k = Some q /\ c_cb k <> CbNull) ->
     wp (_ ← emit (EvDecRef (ep_cn (ep (cleared r)))); free n_remotes p) Q n2) as Hend.
  { intros n2 Hq Hk. eapply (wp_delete_end n n1 n2); try done.
    - unfold n1. fields. rewrite lookup_insert_eq. by eexists.
    - unfold n1. fields. by rewrite !delete_insert_eq. }
  assert (n_cpns n1 = n_cpns n) as Ec by done. clearbody n1.
  assert (forall q r c, n_remotes n !! q = Some r -> completion r = Some c ->
     exists k, n_cpns n1 !! c = Some k /\ c_remote k = Some q /\ c_cb k <> CbNull) as Hk by (rewrite Ec; apply H).
  change (completion (cleared r)) with (completion r). destruct (completion r) as [c|] eqn:Er.
  - destruct (Hk p r c E Er) as (k & Ek & Hkr & Hkcb). wp_go. eapply wp_update; [exact Ek|].
    eapply wp_RemoteCompletion_no_remote; [apply lookup_insert_eq|done|]. fields.
    rewrite delete_insert_eq. intros n2 Hq. apply Hend; [exact (quiet_cpns (fun _ => delete c (n_cpns n1)) n1 n2 Hq)|].
    intros q rq c' Hne Eq Ecq. destruct (Hk q rq c' Eq Ecq) as (k' & Ek' & Hk'r & Hk'cb).
    exists k'. split; [|done]. rewrite Hq. fields. rewrite lookup_delete_ne; [done|]. intros <-. congruence.
  - assert (quiet (n1 <| n_cpns := n_cpns n1 |>) n1) as Hq1 by by destruct n1.
    destruct (n_linkLossCB n); [apply wp_when|]; intros; wp_go; apply Hend; eauto; reflexivity.
Qed.

(** ** The union and the intersection of what is counted *)

Definition vec_needs (k : nat) (L : list (list Z)) : list Z :=
  if decide (L = []) then replicate k 0 else vec_meet k L.

Lemma columns_perm_map (g : list Z -> Z) k L L' :
  (forall col col', col ≡ₚ col' -> g col = g col') -> L ≡ₚ L' -> map g (columns k L) = map g (columns k L').
Proof.
  intros Hg. revert L L'. induction k as [|k IH]; intros L L' E; [done|]. cbn. f_equal.
  - apply Hg. by rewrite E.
  - apply IH. by rewrite E.
Qed.

Lemma meet_perm col col' : col ≡ₚ col' -> CountVec.meet col = CountVec.meet col'.
Proof.
  unfold CountVec.meet. induction 1 as [|x l l' _ IH|x y l|]; simpl; try congruence.
  by rewrite !Z.land_assoc, (Z.land_comm y x).
Qed.

Lemma vec_union_perm k L L' : L ≡ₚ L' -> vec_union k L = vec_union k L'.
Proof. apply columns_perm_map, squash_perm. Qed.

Lemma vec_needs_perm k L L' : L ≡ₚ L' -> vec_needs k L = vec_needs k L'.
Proof.
  intros E. unfold vec_needs. destruct (decide (L = [])) as [->|Hne].
  - apply Permutation_nil_l in E. by subst.
  - rewrite decide_False.
    + apply columns_perm_map; [apply meet_perm|done].
    + intros ->. apply Hne. by apply Permutation_nil_r in E.
Qed.

Lemma length_columns k L : length (columns k L) = k.
Proof. revert L. induction k; intros; cbn; auto. Qed.

Lemma columns_ok k L : Forall chunks_ok L -> Forall chunks_ok (columns k L).
Proof.
  revert L. induction k as [|k IH]; intros L H; cbn; constructor.
  - apply Forall_map. eapply Forall_impl; [exact H|]. intros [|c l]; cbn; [unfold is_word; pow2s; lia|].
    by intros [? _]%Forall_cons_iff.
  - apply IH, Forall_map. eapply Forall_impl; [exact H|]. intros [|c l]; cbn; [done|].
    by intros [_ ?]%Forall_cons_iff.
Qed.

Lemma vec_union_ok k L : Forall chunks_ok L -> chunks_ok (vec_union k L).
Proof.
  intros H%(columns_ok k). apply Forall_map. eapply Forall_impl; [exact H|]. apply squash_word.
Qed.

Lemma vec_needs_ok k L : chunks_ok (vec_needs k L).
Proof.
  unfold vec_needs. case_decide; [apply zeros_ok|]. apply Forall_map, Forall_forall. intros. apply meet_word.
Qed.

Lemma counts_vectors cv k L : counts cv k L -> Forall chunks_ok L.
Proof.
  intros (L' & <- & H). eapply Forall_impl; [apply H|]. by intros l [_ ?].
Qed.

Lemma counts_union cv k L u :
  64 * Z.of_nat k < 2 ^ 31 -> counts cv k L -> bvUnion cv = Some u ->
  vec_wf k u /\ bits u = vec_union k L.
Proof.
  intros Hk Hc Hu. pose proof (counts_vectors _ _ _ Hc) as Hok. destruct Hc as (L' & E & H).
  pose proof (DPS_CountVectorToUnion_spec _ _ _ _ H Hu) as Hb. rewrite (vec_union_perm _ _ _ E) in Hb.
  destruct (cv_union _ _ _ H u Hu) as [Hl Hp]. split; [|done].
  assert (length (bits u) = k) as Hlen by (rewrite Hb; unfold vec_union; by rewrite length_map, length_columns).
  split; [|done]. constructor; [by rewrite Hlen|lia| |by left]. rewrite Hb. by apply vec_union_ok.
Qed.

Lemma counts_needs cv k L ok :
  64 * Z.of_nat k < 2 ^ 31 -> counts cv k L ->
  exists o, DPS_CountVectorToIntersection ok cv = Some o /\
    forall bv, o = Some bv -> vec_wf k bv /\ bits bv = vec_needs k L.
Proof.
  intros Hk (L' & E & H). destruct ok.
  - rewrite (DPS_CountVectorToIntersection_spec _ _ _ H). eexists. split; [done|]. intros bv [= <-].
    cbn [bits]. change (if decide (L' = []) then _ else _) with (vec_needs k L').
    rewrite (vec_needs_perm _ _ _ E). split; [|done].
    assert (length (vec_needs k L) = k) as Hlen.
    { unfold vec_needs. case_decide; [apply length_replicate|]. unfold vec_meet. by rewrite length_map, length_columns. }
    split; [|done]. pose proof (cv_length _ _ _ H).
    constructor; cbn; [by rewrite Hlen|lia|apply vec_needs_ok|by left].
  - unfold DPS_CountVectorToIntersection, AllocBV. rewrite (cv_length _ _ _ H).
    rewrite (Z.mul_comm 64), Z.mod_mul by done. cbn. by exists None.
Qed.

(** ** Outbound interests *)

Context (Hsize : bitLen env_config = 64 * Z.of_nat nI) (Hsmall : 64 * Z.of_nat nI < 2 ^ 31).

Lemma wp_alloc_ok (Q : bool -> DPS_Node -> Prop) n :
  (forall ok, Q ok (n <| n_allocs := S (n_allocs n) |>)) -> wp alloc_ok Q n.
Proof. intros H. apply H. Qed.

Lemma wp_BitVectorAlloc (Q : option DPS_BitVector -> DPS_Node -> Prop) n :
  (forall o, (forall bv, o = Some bv -> vec_wf nI bv) -> Q o (n <| n_allocs := S (n_allocs n) |>)) ->
  wp BitVectorAlloc Q n.
Proof.
  intros H. unfold BitVectorAlloc. wp_go. apply wp_alloc_ok. intros ok. 
  unfold DPS_BitVectorAlloc, AllocBV. rewrite Hsize, (Z.mul_comm 64), Z.mod_mul by done.
  eapply wp_lift; [reflexivity|]. apply H. intros bv. destruct ok; [|done]. intros [= <-].
  unfold INVALIDATE_POPCOUNT, set_popCount. cbn [len bits]. rewrite Z.div_mul, Nat2Z.id by done.
  split; [|apply length_replicate]. constructor; cbn; [rewrite length_replicate; lia|lia|apply zeros_ok|by left].
Qed.

(** Only the counters (up to what they represent) and the allocations differ. *)
Definition recounted (n n' : DPS_Node) : Prop :=
  n' = n <| n_interests := n_interests n' |> <| n_needs := n_needs n' |> <| n_allocs := n_allocs n' |>.

(** What [counted] allows to conclude on the interests alone, or the needs alone. *)
Lemma counted_interests n c LI LN LI' :
  counted n LI LN -> counts c nI LI' -> (is_Some (bvUnion c) <-> is_Some (bvUnion (n_interests n))) ->
  counted (n <| n_interests := c |>) LI' LN.
Proof. intros (H1 & H2 & H3) Hc Hu. split; [exact Hc|]. split; [by apply Hu|exact H3]. Qed.
Lemma counted_needs n c LI LN LN' :
  counted n LI LN -> counts c FH_CHUNKS LN' -> counted (n <| n_needs := c |>) LI LN'.
Proof. intros (H1 & H2 & H3) Hc. by split. Qed.
Lemma counted_allocs n a LI LN : counted n LI LN -> counted (n <| n_allocs := a |>) LI LN.
Proof. done. Qed.

Lemma wp_interests_union n LI LN (Q : option DPS_BitVector -> DPS_Node -> Prop) :
  counted n LI LN ->
  (forall o, (forall bv, o = Some bv -> vec_wf nI bv /\ bits bv = vec_union nI LI) ->
     Q o (n <| n_allocs := S (n_allocs n) |>)) ->
  wp interests_union Q n.
Proof.
  intros (H1 & [u Hu] & _) HQ. unfold interests_union. wp_go. apply wp_alloc_ok. intros ok. wp_go.
  apply HQ. intros bv. fields. cbn. rewrite Hu. cbn. unfold DPS_BitVectorClone. destruct ok; [|done].
  intros [= <-]. by eapply counts_union.
Qed.

Lemma wp_needs_intersection n LI LN (Q : option DPS_BitVector -> DPS_Node -> Prop) :
  counted n LI LN ->
  (forall o, (forall bv, o = Some bv -> vec_wf FH_CHUNKS bv /\ bits bv = vec_needs FH_CHUNKS LN) ->
     Q o (n <| n_allocs := S (n_allocs n) |>)) ->
  wp needs_intersection Q n.
Proof.
  intros (_ & _ & H) HQ. unfold needs_intersection. wp_go. apply wp_alloc_ok. intros ok. wp_go.
  fields. destruct (counts_needs _ FH_CHUNKS _ ok ltac:(done) H) as (o & E & Ho). eapply wp_lift; [exact E|].
  by apply HQ.
Qed.

Lemma wp_new_outbound_vectors n r LI LN (Q : _ -> DPS_Node -> Prop) :
  held_ok nI FH_CHUNKS (remote_interests r) (remote_needs r) ->
  counted n (contrib (remote_interests r) ++ LI) (contrib (remote_needs r) ++ LN) ->
  Z.of_nat (length LI) < CV_MAX -> Z.of_nat (length LN) < CV_MAX ->
  (forall i d n', recounted n n' ->
     counted n' (contrib (remote_interests r) ++ LI) (contrib (remote_needs r) ++ LN) ->
     (forall bv, i = Some bv -> vec_wf nI bv /\ bits bv = vec_union nI LI) ->
     (forall bv, d = Some bv -> vec_wf FH_CHUNKS bv /\ bits bv = vec_needs FH_CHUNKS LN) ->
     Q (DPS_OK, i, d) n') ->
  wp (new_outbound_vectors r) Q n.
Proof.
  intros Hok Hc HlI HlN HQ. unfold new_outbound_vectors, remote_interests, remote_needs, contrib in *.
  destruct (in_interests (inbound r)) as [bi|] eqn:Ei, (in_needs (inbound r)) as [bn|] eqn:En; try done.
  - destruct Hok as [Wi Wn]. cbn [fmap option_fmap option_map option_list app] in Hc, HQ.
    pose proof Hc as (HI & _ & HN).
    destruct (counts_del _ _ _ _ HI Wi) as (c1 & E1 & H1 & U1). wp_go.
    eapply wp_count_del_interests; [exact E1|]. ok.
    pose proof (counted_interests _ _ _ _ _ Hc H1 U1) as Hc1.
    apply (wp_interests_union _ _ _ _ Hc1). intros i Hi. wp_go.
    destruct (counts_add _ _ _ _ H1 Wi HlI) as (c2 & E2 & H2 & U2).
    eapply wp_count_add_interests; [exact E2|]. ok.
    destruct (counts_del _ _ _ _ HN Wn) as (c3 & E3 & H3 & _).
    eapply wp_count_del_needs; [exact E3|]. ok.
    match goal with |- wp needs_intersection _ ?n3 => assert (counted n3 (bits bi :: LI) LN) as Hc3 end.
    { split; [exact H2|]. split; [by apply U2, U1, Hc|exact H3]. }
    apply (wp_needs_intersection _ _ _ _ Hc3). intros d Hd. wp_go.
    destruct (counts_add _ _ _ _ H3 Wn HlN) as (c4 & E4 & H4 & _).
    eapply wp_count_add_needs; [exact E4|]. wp_go.
    apply HQ; [reflexivity| |done|done]. split; [exact H2|]. split; [by apply U2, U1, Hc|exact H4].
  - wp_go. apply wp_assert; [done|]. wp_go. cbn [fmap option_fmap option_map option_list app] in Hc, HQ.
    apply (wp_interests_union _ _ _ _ Hc). intros i Hi. wp_go.
    eapply wp_needs_intersection; [apply counted_allocs, Hc|]. intros d Hd. wp_go.
    apply HQ; [by destruct n|by apply counted_allocs, counted_allocs|done|done].
Qed.

Lemma DPS_BitVectorEquals_true k b1 b2 :
  vec_wf k b1 -> vec_wf k b2 -> bits b1 = bits b2 -> DPS_BitVectorEquals (Some b1) (Some b2) = true.
Proof.
  intros H1 H2 E. unfold DPS_BitVectorEquals. rewrite (vec_wf_len _ _ H1), (vec_wf_len _ _ H2), Z.eqb_refl, E.
  cbn [negb]. clear. induction (bits b2) as [|c l IH]; [done|]. cbn. by rewrite Z.eqb_refl.
Qed.

(** The outbound interests and needs of a remote, and how they are announced. *)
Record updated (r r' : RemoteNode) (newI newN : list Z) (changes : bool) : Prop := {
  up_only : r' = r <| outbound := outbound r' |>;
  up_vectors : exists i d, out_interests (outbound r') = Some i /\ out_needs (outbound r') = Some d /\
    vec_wf nI i /\ bits i = newI /\ vec_wf FH_CHUNKS d /\ bits d = newN;
  up_delta : forall old, out_interests (outbound r) = Some old ->
    exists dl, out_delta (outbound r') = Some dl /\ vec_wf nI dl /\
      bits dl = zip_with Z.lxor (bits old) newI /\ deltaInd (outbound r') = true /\
      changes = negb (bool_decide (bits old = newI));
  up_full : out_interests (outbound r) = None ->
    deltaInd (outbound r') = false /\ changes = true /\ out_delta (outbound r') = out_delta (outbound r);
  up_revision : out_revision (outbound r') =
    if changes then u32 (out_revision (outbound r) + 1) else out_revision (outbound r)
}.

(** The assertion on the needs: equal interests come with equal needs. *)
Definition needs_follow (r : RemoteNode) (newI newN : list Z) : Prop :=
  forall i d, out_interests (outbound r) = Some i -> out_needs (outbound r) = Some d ->
  bits i = newI -> bits d = newN.

Lemma wp_when_assert b c (Q : unit -> DPS_Node -> Prop) n :
  (b = true -> c = true) -> Q () n -> wp (when b (assert c)) Q n.
Proof. destruct b; cbn; [|done]. intros -> HQ; [|done]. exact HQ. Qed.

Lemma set_remotes_twice n p (r1 r2 : RemoteNode) :
  set n_remotes (insert p r1) (set n_remotes (insert p r2) n) = set n_remotes (insert p r1) n.
Proof. unfold set, set_n_remotes. cbn. by rewrite insert_insert_eq. Qed.

Lemma recounted_inv n n' :
  node_inv n -> recounted n n' -> counted n' (int_list n) (need_list n) -> node_inv n' /\ keeps n n'.
Proof.
  intros H Hq Hc. split.
  - destruct H. constructor; try done; by rewrite Hq.
  - rewrite Hq. by constructor.
Qed.

(** Storing a remote whose counted fields did not change. *)
Lemma outbound_finish n n' p r r' :
  node_inv n -> recounted n n' -> counted n' (int_list n) (need_list n) ->
  n_remotes n !! p = Some r -> remote_ok r' -> r' = r <| outbound := outbound r' |> ->
  let n'' := set n_remotes (insert p r') n' in
  node_inv n'' /\ keeps n n'' /\ n_remoteNodes n'' = n_remoteNodes n /\
  n_remotes n'' = <[p := r']> (n_remotes n).
Proof.
  intros H Hq Hc E Hr Er. destruct (recounted_inv _ _ H Hq Hc) as [H' K]. cbv zeta.
  assert (n_remotes n' = n_remotes n) as Em by by rewrite Hq.
  split; [|split; [|split]].
  - apply (node_inv_fields n' p r r'); [done|by rewrite Em|done|by rewrite Er|by rewrite Er].
  - etrans; [exact K|by constructor].
  - by rewrite Hq.
  - fields. by rewrite Em.
Qed.

Lemma wp_UpdateOutboundInterests n p r (Q : DPS_Status * bool -> DPS_Node -> Prop) :
  node_inv n -> n_remotes n !! p = Some r -> r_state r <> REMOTE_UNLINKING ->
  Z.of_nat (length (rest_interests n p)) < CV_MAX -> Z.of_nat (length (rest_needs n p)) < CV_MAX ->
  let newI := vec_union nI (rest_interests n p) in
  let newN := vec_needs FH_CHUNKS (rest_needs n p) in
  needs_follow r newI newN ->
  (forall n' r' ret changes, node_inv n' -> keeps n n' -> n_remoteNodes n' = n_remoteNodes n ->
     n_remotes n' = <[p := r']> (n_remotes n) ->
     (ret = DPS_ERR_RESOURCES /\ changes = false /\ r' = r \/
      ret = DPS_OK /\ updated r r' newI newN changes) -> Q (ret, changes) n') ->
  wp (DPS_UpdateOutboundInterests p) Q n.
Proof.
  intros H E Hst HlI HlN newI newN Hnf HQ. unfold DPS_UpdateOutboundInterests.
  wp_go. eapply wp_load; [exact E|]. rewrite bool_decide_eq_false_2 by done. wp_go.
  pose proof (ni_remote _ H _ _ E) as Hr. pose proof (counted_split _ _ _ H E) as Hc.
  apply (wp_new_outbound_vectors _ _ _ _ _ (ro_inbound _ Hr) Hc HlI HlN). intros i d n1 Hq Hc1 Hi Hd. ok.
  fold newI in Hi. fold newN in Hd.
  assert (counted n1 (int_list n) (need_list n)) as Hc1'.
  { eapply counted_perm; [exact Hc1| |]; symmetry; [by apply int_list_split|by apply need_list_split]. }
  clear Hc Hc1.
  assert (forall n2, recounted n n2 -> counted n2 (int_list n) (need_list n) -> Q (DPS_ERR_RESOURCES, false) n2) as Hfail.
  { intros n2 Hq2 Hc2. destruct (recounted_inv _ _ H Hq2 Hc2) as [H2 K2].
    eapply HQ; [exact H2|exact K2|by rewrite Hq2| |by left].
    rewrite insert_id by exact E. by rewrite Hq2. }
  assert (forall n2 r' changes, recounted n n2 -> counted n2 (int_list n) (need_list n) -> updated r r' newI newN changes ->
     Q (DPS_OK, changes) (set n_remotes (insert p r') n2)) as Hdone.
  { intros n2 r' changes Hq2 Hc2 Hup. edestruct (outbound_finish n n2 p r r') as (H2 & K2 & El & Em); try done.
    - destruct Hup as [Eo (i' & d' & Ei & Ed & Wi & Bi & Wd & Bd) Hdl Hfull Hrev]. destruct Hr as [R1 R2 R3 R4 R5]. constructor.
      + by rewrite Eo.
      + by rewrite Ei, Ed.
      + intros dl Edl. destruct (out_interests (outbound r)) as [old|] eqn:Eold.
        * destruct (Hdl old eq_refl) as (dl' & ? & ? & _). congruence.
        * destruct (Hfull eq_refl) as (_ & _ & E3). apply R3. congruence.
      + by rewrite Eo.
      + rewrite Eo. cbn. rewrite Hrev. split; [|apply R5]. destruct changes; [apply u32_uint32|apply R5].
    - apply Hup.
    - eapply HQ; [exact H2|exact K2|exact El|exact Em|by right]. }
  assert (n_remotes n1 !! p = Some r) as E1 by by rewrite Hq.
  destruct i as [i|]; [|wp_go; by apply Hfail]. destruct d as [d|]; [|wp_go; by apply Hfail].
  destruct (Hi i eq_refl) as [Wi Bi], (Hd d eq_refl) as [Wd Bd]. wp_go.
  destruct (out_interests (outbound r)) as [old|] eqn:Eold.
  - pose proof (ro_outbound _ Hr) as Ho. rewrite Eold in Ho.
    destruct (out_needs (outbound r)) as [oldn|] eqn:Eoldn; [|done]. destruct Ho as [Wo Won].
    wp_go. match goal with |- wp _ ?K _ =>
      assert (forall n2 dl, recounted n n2 -> counted n2 (int_list n) (need_list n) -> vec_wf nI dl ->
                K (Some dl) n2) as Hdelta end.
    { intros n2 dl Hq2 Hc2 Wdl. cbv beta.
      destruct (DPS_BitVectorXor_spec nI dl old i Wdl Wo Wi) as (dl' & v1 & v2 & Ex & Wdl' & Bdl & _ & _ & W2 & B2).
      wp_go. eapply wp_lift; [exact Ex|]. cbn [default id]. wp_go. rewrite Bi in *.
      assert (n_remotes n2 !! p = Some r) as E2 by by rewrite Hq2.
      apply wp_when_assert.
      { intros Hs%bool_decide_eq_true. eapply DPS_BitVectorEquals_true; [exact Won|exact Wd|].
        rewrite Bd. by apply (Hnf old oldn). }
      wp_go. eapply wp_upd_outbound; [exact E2|]. wp_go. ok.
      eapply wp_upd_outbound; [apply lookup_insert_eq|]. rewrite set_remotes_twice. wp_go.
      assert (forall o, out_interests o = Some v2 -> out_needs o = Some d -> out_delta o = Some dl' ->
                deltaInd o = true -> out_revision o = (if negb (bool_decide (bits old = newI))
                  then u32 (out_revision (outbound r) + 1) else out_revision (outbound r)) ->
                updated r (r <| outbound := o |>) newI newN (negb (bool_decide (bits old = newI)))) as Hup.
      { intros o H1 H2 H3 H4 H5. constructor; fields; try done.
        - exists v2, d. by split_and!.
        - intros old'. rewrite Eold. intros [= <-]. exists dl'. by split_and!.
        - congruence. }
      apply wp_when; intros Hch; wp_go.
      - eapply wp_upd_outbound; [apply lookup_insert_eq|]. rewrite set_remotes_twice. wp_go.
        apply Hdone; [done..|]. rewrite Hch in *.
        match goal with |- updated _ ?x _ _ _ => by apply (Hup (outbound x)) end.
      - apply Hdone; [done..|]. rewrite Hch in *.
        match goal with |- updated _ ?x _ _ _ => by apply (Hup (outbound x)) end. }
    destruct (out_delta (outbound r)) as [dl|] eqn:Edl.
    { apply wp_ret, Hdelta; [done..|]. by apply (ro_delta _ Hr). }
    apply wp_BitVectorAlloc. intros [dl|] Hdl.
    + apply Hdelta; [by rewrite Hq|done|auto].
    + wp_go. change (is_OK DPS_ERR_RESOURCES) with false. cbn [negb]. wp_go. by apply Hfail; [rewrite Hq|].
  - wp_go. eapply wp_upd_outbound; [exact E1|]. wp_go. ok. eapply wp_upd_outbound; [apply lookup_insert_eq|].
    rewrite set_remotes_twice. wp_go. cbn [when]. eapply wp_upd_outbound; [apply lookup_insert_eq|].
    rewrite set_remotes_twice. wp_go. apply Hdone; [done..|]. constructor; fields; try done; eauto 10; congruence.
Qed.

(** ** Lookup, creation, muting *)

Lemma wp_lookup_loop n addr l (Q : option ptr -> DPS_Node -> Prop) :
  node_inv n -> addr_ok addr -> (forall q, q ∈ l -> q ∈ n_remoteNodes n) ->
  (forall o, (forall p, o = Some p -> p ∈ l /\ exists r, n_remotes n !! p = Some r /\
                DPS_SameAddr (ep_addr (ep r)) addr = Some true) ->
     (o = None -> forall p r, p ∈ l -> n_remotes n !! p = Some r ->
        DPS_SameAddr (ep_addr (ep r)) addr = Some false) -> Q o n) ->
  wp (lookup_loop addr l) Q n.
Proof.
  intros H Ha. induction l as [|p l IH]; intros Hl HQ; cbn [lookup_loop].
  - wp_go. apply HQ; [done|]. by intros _ p r ?%not_elem_of_nil.
  - destruct (proj2 (ni_remotes _ H p)) as [r E]; [apply Hl; by left|].
    wp_go. eapply wp_load; [exact E|]. wp_go.
    pose proof (ro_addr _ (ni_remote _ H _ _ E)) as Hra.
    destruct Ha as [Ta Oa], Hra as [Tr Or].
    pose proof (SameAddr_ip (ep_addr (ep r)) addr ltac:(congruence) Or Oa) as Es.
    eapply wp_lift; [exact Es|]. case_bool_decide as Heq.
    + wp_go. apply HQ; [|done]. intros q [= <-]. split; [by left|]. by eexists.
    + apply IH; [intros q Hq; apply Hl; by right|]. intros o H1 H2. apply HQ.
      * intros q Eq. destruct (H1 q Eq) as (? & ?). split; [by right|done].
      * intros Eo q rq [->|Hq]%elem_of_cons Eq; [|by eapply H2].
        rewrite E in Eq. injection Eq as <-. exact Es.
Qed.

Lemma wp_LookupRemoteNode n addr (Q : option ptr -> DPS_Node -> Prop) :
  node_inv n -> addr_ok addr ->
  (forall o, (forall p, o = Some p -> exists r, n_remotes n !! p = Some r /\
                DPS_SameAddr (ep_addr (ep r)) addr = Some true) ->
     (o = None -> forall p r, n_remotes n !! p = Some r ->
        DPS_SameAddr (ep_addr (ep r)) addr = Some false) -> Q o n) ->
  wp (DPS_LookupRemoteNode (Some addr)) Q n.
Proof.
  intros H Ha HQ. unfold DPS_LookupRemoteNode. wp_go. apply wp_lookup_loop; [done..|].
  intros o H1 H2. apply HQ.
  - intros p Ep. by destruct (H1 p Ep).
  - intros Eo p r E. eapply H2; [done| |done]. by eapply node_inv_elem.
Qed.

Lemma wp_MuteRemoteNode n p r st (Q : DPS_Status -> DPS_Node -> Prop) :
  node_inv n -> n_remotes n !! p = Some r ->
  (forall n' r', node_inv n' -> keeps n n' -> n_remoteNodes n' ≡ₚ n_remoteNodes n ->
     n_remotes n' = <[p := r']> (n_remotes n) ->
     inbound r' = inbound r -> completion r' = completion r -> ep r' = ep r ->
     (r_state r = REMOTE_MUTED \/ r_state r = REMOTE_UNLINKING -> r' = r) ->
     (r_state r <> REMOTE_MUTED -> r_state r <> REMOTE_UNLINKING ->
        r_state r' = st /\ out_interests (outbound r') = None /\ sendInterests (outbound r') = false) ->
     Q DPS_OK n') ->
  wp (DPS_MuteRemoteNode p st) Q n.
Proof.
  intros H E HQ. unfold DPS_MuteRemoteNode. wp_go. eapply wp_load; [exact E|].
  case_bool_decide as H1; [|case_bool_decide as H2]; cbn [orb]; wp_go.
  1-2: eapply (HQ n r); try done; by rewrite insert_id.
  eapply wp_update; [exact E|]. wp_go. unfold FreeOutboundInterests.
  eapply wp_upd_outbound; [apply lookup_insert_eq|]. rewrite set_remotes_twice. wp_go.
  eapply wp_upd_outbound; [apply lookup_insert_eq|]. rewrite set_remotes_twice. wp_go.
  match goal with |- wp _ _ (set n_remotes (insert p ?x) n) => set (r' := x) end.
  pose proof (node_inv_elem _ _ _ H E) as Hp.
  apply wp_RemoveRemoteNode; [apply H|done|]. wp_go. unfold InsertRemoteNode. wp_go.
  match goal with |- Q _ ?m => set (n' := m) end.
  assert (n_remoteNodes n' ≡ₚ n_remoteNodes n) as El.
  { unfold n'. fields. symmetry. apply filter_ne_Permutation; [apply H|done]. }
  pose proof (ni_remote _ H _ _ E) as [R1 R2 R3 R4 R5].
  apply (HQ n' r'); [|by constructor|exact El|reflexivity..|by intros [?|?]|done].
  eapply (node_inv_update n n' p r r'); [done|exact E|by constructor|reflexivity|exact El|by constructor| |].
  - apply (counted_split n p r H E).
  - apply (completions_update n n' p r r' (ni_completions _ H) E); reflexivity.
Qed.

Lemma node_inv_insert n n' p r :
  node_inv n -> n_remotes n !! p = None -> n_remotes n' = <[p := r]> (n_remotes n) ->
  n_remoteNodes n' = p :: n_remoteNodes n -> keeps n n' -> remote_ok r -> completion r = None ->
  remote_interests r = None -> remote_needs r = None ->
  n_interests n' = n_interests n -> n_needs n' = n_needs n -> n_cpns n' = n_cpns n -> node_inv n'.
Proof.
  intros H E Em El [K1 K2 _ _ _ _] Hr Hc Hi Hd EI EN EC.
  assert (p ∉ n_remoteNodes n) as Hp by (rewrite <- (ni_remotes _ H), E; by intros [? ?]).
  constructor.
  - rewrite El. by constructor; [|apply H].
  - intros q. rewrite Em, El, elem_of_cons. destruct (decide (q = p)) as [->|Hne].
    + rewrite lookup_insert_eq. split; eauto.
    + rewrite lookup_insert_ne by done. rewrite (ni_remotes _ H). split; [by right|by intros [?|?]].
  - intros q rq. rewrite Em. destruct (decide (q = p)) as [->|Hne].
    + rewrite lookup_insert_eq. by intros [= <-].
    + rewrite lookup_insert_ne by done. apply H.
  - rewrite K2. apply H.
  - rewrite K1, K2. apply H.
  - unfold int_list, need_list. rewrite K1, K2, Em, El, !vectors_cons, !vectors_at_insert, Hi, Hd, !vectors_fresh by done.
    destruct (ni_counted _ H) as (H1 & H2 & H3). unfold counted. rewrite EI, EN. done.
  - intros q rq c. rewrite Em, EC. destruct (decide (q = p)) as [->|Hne].
    + rewrite lookup_insert_eq. intros [= <-]. congruence.
    + rewrite lookup_insert_ne by done. apply H.
Qed.

Lemma new_remote_ok addr cn : addr_ok addr -> remote_ok (new_remote addr cn).
Proof. intros Ha. by constructor. Qed.

Lemma wp_AddRemoteNode n addr cn (Q : DPS_Status * option ptr -> DPS_Node -> Prop) :
  node_inv n -> addr_ok addr ->
  (forall p r n', node_inv n' -> keeps n n' -> n_remoteNodes n' = n_remoteNodes n ->
     n_remotes n !! p = Some r -> DPS_SameAddr (ep_addr (ep r)) addr = Some true ->
     n_remotes n' = <[p := r <| ep := mkEp (ep_addr (ep r)) (ep_cn (ep r) ∪ cn) |>]> (n_remotes n) ->
     Q (DPS_ERR_EXISTS, Some p) n') ->
  ((forall p r, n_remotes n !! p = Some r -> DPS_SameAddr (ep_addr (ep r)) addr = Some false) ->
   forall p n', node_inv n' -> keeps n n' -> n_remotes n !! p = None ->
     n_remoteNodes n' = p :: n_remoteNodes n ->
     n_remotes n' = <[p := new_remote addr cn]> (n_remotes n) -> Q (DPS_OK, Some p) n') ->
  ((forall p r, n_remotes n !! p = Some r -> DPS_SameAddr (ep_addr (ep r)) addr = Some false) ->
   forall n', node_inv n' -> keeps n n' -> n_remoteNodes n' = n_remoteNodes n -> n_remotes n' = n_remotes n ->
     Q (DPS_ERR_RESOURCES, None) n') ->
  wp (DPS_AddRemoteNode addr cn) Q n.
Proof.
  intros H Ha Hex Hok Hres. unfold DPS_AddRemoteNode. wp_go. apply wp_LookupRemoteNode; [done..|].
  intros [p|] Hsome Hnone; wp_go.
  - destruct (Hsome p eq_refl) as (r & E & Es). eapply wp_load; [exact E|].
    pose proof (ni_remote _ H _ _ E) as [R1 R2 R3 R4 R5].
    destruct (ep_cn (ep r)) as [c|] eqn:Ec; wp_go.
    + apply (Hex p r n); try done. rewrite Ec. symmetry. rewrite insert_id; [done|].
      rewrite E. f_equal. destruct r as [? ? ? ? [? ?]], cn; cbn in *; by subst.
    + eapply wp_update; [exact E|]. wp_go. eapply (Hex p r); try done.
      * apply (node_inv_fields (n <| n_events := _ |>) p r); try done. by apply (node_inv_same n).
      * fields. by rewrite Ec, (left_id_L None _).
  - apply wp_assert.
    { apply negb_true_iff, bool_decide_eq_false_2. destruct Ha as [_ [Hip _]]. by intros E; rewrite E in Hip. }
    wp_go. apply wp_alloc_ok. intros [|]; wp_go.
    + apply wp_new. intros p Ep. fields_in Ep. wp_go. unfold InsertRemoteNode. wp_go.
      eapply (Hok ltac:(by apply Hnone) p); try done.
      eapply (node_inv_insert n _ p (new_remote addr cn)); done.
    + apply (Hres ltac:(by apply Hnone)); try done. by apply (node_inv_same n).
Qed.

End Inv.
