(* ===== verification/Sub.v ===== *)
(** * Subscriptions ([src/sub.c])

    The subscriptions of the node, the interests that a remote sends, and the
    detection of loops in the mesh. *)
From S2P Require Import Prelude Status Buffer Float Cbor BitVec Topics Uuid Addr History Node Remote.
From stdpp Require Import gmap.
#[local] Open Scope Z_scope.

Section Sub.
Context `{Env : Environment}.

(** ** The application's subscriptions *)

Definition IsValidSub (sub : option ptr) : M bool :=
  match sub with
  | None => mret false
  | Some p =>
      loop ← gets n_loop;
      if negb loop then mret false
      else l ← gets n_subscriptions; mret (existsb (Pos.eqb p) l)
  end.

Definition DPS_SubscriptionGetNumTopics (sub : option ptr) : M Z :=
  valid ← IsValidSub sub;
  match sub with
  | Some p => if valid : bool then s ← load n_subs p; mret (Z.of_nat (length (s_topics s))) else mret 0
  | None => mret 0
  end.

Definition DPS_SubscriptionGetTopic (sub : option ptr) (index : nat) : M (option (list Z)) :=
  valid ← IsValidSub sub;
  match sub with
  | Some p => if valid : bool then s ← load n_subs p; mret (s_topics s !! index) else mret None
  | None => mret None
  end.

(** [flags |= flag] or [flags &= ~flag] of a [uint8_t]. *)
Definition set_flag (flags flag : Z) (on : bool) : Z :=
  if on then flags .| flag else flags .& u8 (Z.lnot flag).

Definition DPS_SubscribeExpired (sub : option ptr) (enable : bool) : M DPS_Status :=
  match sub with
  | None => mret DPS_ERR_ARGS
  | Some p =>
      _ ← update n_subs p (fun s => s <| s_flags := set_flag (s_flags s) SUB_FLAG_EXPIRED enable |>);
      mret DPS_OK
  end.

Definition DPS_SubscriptionSetSerialize (sub : option ptr) (serialize : bool) : M DPS_Status :=
  match sub with
  | None => mret DPS_ERR_NULL
  | Some p =>
      _ ← update n_subs p (fun s => s <| s_flags := set_flag (s_flags s) SUB_FLAG_SERIALIZE serialize |>);
      mret DPS_OK
  end.

(** The object goes back to the allocator; the result, the next one in the list
    of freed subscriptions, is the tail of that list. *)
Definition DPS_FreeSubscription (sub : ptr) : M unit :=
  s ← load n_subs sub;
  _ ← assert (has_flag (s_flags s) SUB_FLAG_WAS_FREED && (s_refCount s =? 0));
  _ ← (match s_onDestroyed s with Some cb => emit (EvOnDestroyed cb) | None => mret () end);
  free n_subs sub.

Definition FreeSubscription (sub : ptr) : M unit :=
  s ← load n_subs sub;
  _ ← when (negb (has_flag (s_flags s) SUB_FLAG_WAS_FREED))
        (l ← gets n_subscriptions;
         _ ← (match unlink_ptr l sub with
              | Some l =>
                  _ ← modify (fun n => n <| n_subscriptions := l |>);
                  ret ← count_del n_interests (s_bf s);
                  _ ← assert (is_OK ret);
                  ret ← count_del n_needs (s_needs s);
                  assert (is_OK ret)
              | None => mret ()
              end);
         _ ← modify (fun n => n <| n_freeSubs := sub :: n_freeSubs n |>);
         update n_subs sub (fun s => s <| s_flags := SUB_FLAG_WAS_FREED |>));
  s ← load n_subs sub;
  when (s_refCount s =? 0) (emit (EvAsyncSend freeAsync)).

Definition DPS_SubscriptionIncRef (sub : ptr) : M unit :=
  update n_subs sub (fun s => s <| s_refCount := u32 (s_refCount s + 1) |>).

Definition DPS_SubscriptionDecRef (sub : ptr) : M unit :=
  s ← load n_subs sub;
  _ ← assert (negb (s_refCount s =? 0));
  _ ← update n_subs sub (fun s => s <| s_refCount := u32 (s_refCount s - 1) |>);
  when ((u32 (s_refCount s - 1) =? 0) && has_flag (s_flags s) SUB_FLAG_WAS_FREED) (FreeSubscription sub).

(** [while (node->subscriptions)]: each round removes the head of the list, and
    the assignment stores the tail that is already there. *)
Fixpoint free_subscriptions (l : list ptr) : M unit :=
  match l with
  | [] => mret ()
  | sub :: l =>
      _ ← FreeSubscription sub;
      _ ← modify (fun n => n <| n_subscriptions := l |>);
      free_subscriptions l
  end.
Definition DPS_FreeSubscriptions : M unit := l ← gets n_subscriptions; free_subscriptions l.

(** The loop over the topics: [strndup] copies at most [DPS_MAX_TOPIC_STRLEN]
    characters; when it fails, [FreeSubscription] dereferences the null
    [sub->node]. *)
Fixpoint copy_topics (topics : list (list Z)) : M (list (list Z)) :=
  match topics with
  | [] => mret []
  | t :: topics =>
      ok ← alloc_ok;
      _ ← assert ok;
      ts ← copy_topics topics;
      mret (take (Z.to_nat DPS_MAX_TOPIC_STRLEN) t :: ts)
  end.

(** The result of [calloc] is not tested before it is used. *)
Definition DPS_CreateSubscription (topics : list (list Z)) : M (option ptr) :=
  match topics with
  | [] => mret None
  | _ =>
      ok ← alloc_ok;
      _ ← assert ok;
      ts ← copy_topics topics;
      p ← new n_subs (mkSub None None None 0 SUB_FLAG_SERIALIZE None ts);
      mret (Some p)
  end.

Definition DPS_DestroySubscription (sub : option ptr) (cb : option Z) : M DPS_Status :=
  valid ← IsValidSub sub;
  match sub with
  | Some p =>
      if negb valid then mret DPS_ERR_MISSING
      else
        _ ← update n_subs p (fun s => s <| s_onDestroyed := cb |>);
        _ ← FreeSubscription p;
        _ ← DPS_UpdateSubs SubsSendNow;
        mret DPS_OK
  | None => mret DPS_ERR_MISSING
  end.

(** The loop over the topics of [DPS_Subscribe]. *)
Fixpoint add_topics (bf : DPS_BitVector) (topics : list (list Z)) (separators : list Z)
  : M (DPS_Status * DPS_BitVector) :=
  match topics with
  | [] => mret (DPS_OK, bf)
  | t :: topics =>
      m ← malloc;
      '(ret, bf') ← lift (DPS_AddTopic env_md env_config m (Some bf) (Some t)
                           (Some separators) DPS_SubTopic);
      bf ← lift bf';
      if is_OK ret then add_topics bf topics separators else mret (ret, bf)
  end.

(** A subscription that is already in the list would make the list cyclic. *)
Definition DPS_Subscribe (sub : option ptr) (handler : Z) : M DPS_Status :=
  match sub with
  | None => mret DPS_ERR_NULL
  | Some p =>
      loop ← gets n_loop;
      if negb loop then mret DPS_ERR_NOT_STARTED else
      bf ← BitVectorAlloc;
      needs ← BitVectorAllocFH;
      _ ← update n_subs p (fun s =>
            s <| s_handler := Some handler |> <| s_bf := bf |> <| s_needs := needs |>);
      match bf, needs with
      | Some bf, Some needs =>
          s ← load n_subs p;
          separators ← gets n_separators;
          '(ret, bf) ← add_topics bf (s_topics s) separators;
          _ ← update n_subs p (fun s => s <| s_bf := Some bf |>);
          if negb (is_OK ret) then mret ret else
          '(_, needs, bf) ← lift (DPS_BitVectorFuzzyHash (Some needs) (Some bf));
          _ ← update n_subs p (fun s => s <| s_bf := bf |> <| s_needs := needs |>);
          l ← gets n_subscriptions;
          _ ← assert (negb (bool_decide (p ∈ l)));
          _ ← modify (fun n => n <| n_subscriptions := p :: n_subscriptions n |>);
          ret ← count_add n_interests bf;
          ret ← (if is_OK ret then count_add n_needs needs else mret ret);
          _ ← when (is_OK ret) (DPS_UpdateSubs SubsSendNow);
          mret ret
      | _, _ => mret DPS_ERR_RESOURCES
      end
  end.

(** ** The interests of a remote *)

(** The vectors are those that were decoded; afterwards they belong to the remote
    or are freed. *)
Definition UpdateInboundInterests (remote : ptr) (interests needs : DPS_BitVector) (isDelta : bool)
  : M DPS_Status :=
  r ← load n_remotes remote;
  interests ←
    (match in_interests (inbound r) with
     | Some old =>
         interests ←
           (if isDelta then
              '(_, out, _, _, _) ← lift (DPS_BitVectorXor (Some interests) (Some interests) (Some old) None);
              lift out
            else mret interests);
         _ ← DPS_ClearInboundInterests remote;
         mret interests
     | None => mret interests
     end);
  let '(clear, interests) := DPS_BitVectorIsClear interests in
  if clear then mret DPS_OK
  else
    _ ← count_add n_interests (Some interests);
    _ ← count_add n_needs (Some needs);
    _ ← upd_inbound remote (fun i => i <| in_interests := Some interests |> <| in_needs := Some needs |>);
    mret DPS_OK.

(** ** Loops *)

Definition MeshHasLoop (src : ptr) (meshId : DPS_UUID) : M bool :=
  r ← load n_remotes src;
  if DPS_UUIDCompare (in_meshId (inbound r)) meshId =? 0 then mret false
  else min ← DPS_MinMeshId (Some src); mret (DPS_UUIDCompare meshId min =? 0).

End Sub.
