(* ===== verification/SubProofs.v ===== *)
(** * Subscriptions keep the invariant of the node ([src/sub.c])

    The interests received from a remote, and the subscriptions of the
    application. *)
From S2P Require Import Prelude Status Buffer Float Cbor BitVec BitVecProofs CountVec Bloom Topics TopicProofs.
From S2P Require Import TopicSound TopicTheorems Uuid Addr History Node Remote RemoteProofs Sub.
From stdpp Require Import gmap.
#[local] Open Scope Z_scope.

Section Inv.
Context `{Env : Environment} (nI : nat).
Context (Hsize : bitLen env_config = 64 * Z.of_nat nI) (Hsmall : 64 * Z.of_nat nI < 2 ^ 31).

(** ** Inbound interests *)

(** A missing vector is an empty one. *)
Definition vec_bits (k : nat) (v : option DPS_BitVector) : list Z :=
  match v with Some bv => bits bv | None => replicate k 0 end.

(** What a remote announces, after its interests or the change of them. *)
Definition received (r : RemoteNode) (interests : DPS_BitVector) (isDelta : bool) : list Z :=
  if isDelta then zip_with Z.lxor (bits interests) (vec_bits nI (remote_interests r)) else bits interests.

Lemma zip_lxor_zeros_r l : zip_with Z.lxor l (replicate (length l) 0) = l.
Proof. induction l as [|x l IH]; [done|]. cbn. by rewrite IH, Z.lxor_0_r. Qed.

Record accepted (r r' : RemoteNode) (newI : list Z) (needs : DPS_BitVector) : Prop := {
  ac_only : r' = r <| inbound := (inbound r) <| in_interests := remote_interests r' |>
                                             <| in_needs := remote_needs r' |> |>;
  ac_interests : vec_bits nI (remote_interests r') = newI;
  ac_pair : held_ok nI FH_CHUNKS (remote_interests r') (remote_needs r');
  ac_needs : remote_needs r' = Some needs \/ remote_needs r' = None /\ Forall (eq 0) newI
}.

(** The state after [DPS_ClearInboundInterests]. *)
Definition inbound_cleared (n m : DPS_Node) (p : ptr) (r : RemoteNode) : Prop :=
  m = n <| n_interests := n_interests m |> <| n_needs := n_needs m |>
        <| n_remotes := <[p := cleared r]> (n_remotes n) |> /\
  counted nI m (rest_interests n p) (rest_needs n p).

Lemma inbound_store n m p r i d :
  node_inv nI n -> n_remotes n !! p = Some r -> inbound_cleared n m p r -> held_ok nI FH_CHUNKS i d ->
  forall cI cN, let r' := r <| inbound := (inbound r) <| in_interests := i |> <| in_needs := d |> |> in
  let n' := m <| n_interests := cI |> <| n_needs := cN |> <| n_remotes := <[p := r']> (n_remotes n) |> in
  counted nI n' (contrib i ++ rest_interests n p) (contrib d ++ rest_needs n p) ->
  node_inv nI n' /\ keeps n n' /\ n_remoteNodes n' = n_remoteNodes n.
Proof.
  intros H E [Hm _] Hok cI cN r' n' Hc. pose proof (ni_remote _ _ H _ _ E) as [R1 R2 R3 R4 R5].
  assert (n_remoteNodes n' = n_remoteNodes n) as El by (unfold n'; by rewrite Hm).
  assert (keeps n n') as K by (unfold n'; rewrite Hm; by constructor).
  split; [|done]. apply (node_inv_update nI n n' p r r'); try done.
  - by rewrite El.
  - apply (completions_update n n' p r r' (ni_completions _ _ H) E); [done|done|]. unfold n'. by rewrite Hm.
Qed.

Lemma accepted_intro r iv needs newI (b : bool) :
  bits iv = newI -> length newI = nI -> vec_ok nI iv -> vec_ok FH_CHUNKS needs ->
  (b = true -> Forall (eq 0) newI) ->
  accepted r (r <| inbound := (inbound r) <| in_interests := if b then None else Some iv |>
                                          <| in_needs := if b then None else Some needs |> |>) newI needs.
Proof.
  intros Eb El Wi Wn Hb. destruct b.
  - constructor; unfold remote_interests, remote_needs; fields; cbn; try done; [|by right; auto].
    symmetry. rewrite <- El. by apply Forall_zeros_replicate, Hb.
  - constructor; unfold remote_interests, remote_needs; fields; cbn; try done. by left.
Qed.

(** From the test of emptiness to the end. *)
Lemma wp_inbound_end n m p r iv needs newI (Q : DPS_Status -> DPS_Node -> Prop) :
  node_inv nI n -> n_remotes n !! p = Some r -> inbound_cleared n m p r ->
  vec_ok nI iv -> vec_ok FH_CHUNKS needs -> bits iv = newI ->
  Z.of_nat (length (rest_interests n p)) < CV_MAX -> Z.of_nat (length (rest_needs n p)) < CV_MAX ->
  (forall n' r', node_inv nI n' -> keeps n n' -> n_remoteNodes n' = n_remoteNodes n ->
     n_remotes n' = <[p := r']> (n_remotes n) -> accepted r r' newI needs -> Q DPS_OK n') ->
  wp (let '(clear, interests) := DPS_BitVectorIsClear iv in
      if clear then mret DPS_OK
      else
        _ ← count_add n_interests (Some interests);
        _ ← count_add n_needs (Some needs);
        _ ← upd_inbound p (fun i => i <| in_interests := Some interests |> <| in_needs := Some needs |>);
        mret DPS_OK) Q m.
Proof.
  intros H E Hm Wi Wn Eb HlI HlN HQ. pose proof Hm as [Em Hc].
  destruct (DPS_BitVectorIsClear_received nI iv Wi) as (b & iv' & -> & Wi' & Eb' & Hb). rewrite Eb in *.
  assert (length newI = nI) as Hl by (rewrite <- Eb; by apply vec_ok_length).
  pose proof (accepted_intro r iv' needs newI b Eb' Hl Wi' Wn Hb) as Hacc.
  destruct b.
  - wp_go. destruct (inbound_store n m p r None None H E Hm I (n_interests m) (n_needs m)) as (H' & K & El).
    { exact Hc. }
    assert (m = m <| n_interests := n_interests m |> <| n_needs := n_needs m |>
                  <| n_remotes := <[p := cleared r]> (n_remotes n) |>) as Em' by (rewrite Em; reflexivity).
    eapply HQ; [rewrite Em'; exact H'|rewrite Em'; exact K|by rewrite Em'|rewrite Em'; reflexivity|exact Hacc].
  - destruct Hc as (HI & Hu & HN).
    destruct (counts_add _ _ _ _ HI Wi' HlI) as (cI & EI & HI' & UI).
    destruct (counts_add _ _ _ _ HN Wn HlN) as (cN & EN & HN' & _).
    wp_go. eapply wp_count_add_interests; [exact EI|]. wp_go. eapply wp_count_add_needs; [exact EN|]. wp_go.
    eapply wp_upd_inbound; [fields; rewrite Em; apply lookup_insert_eq|]. wp_go.
    destruct (inbound_store n m p r (Some iv') (Some needs) H E Hm (conj Wi' Wn) cI cN) as (H' & K & El).
    { split; [exact HI'|]. split; [by apply UI|exact HN']. }
    match goal with |- Q _ ?x => assert (x = m <| n_interests := cI |> <| n_needs := cN |>
      <| n_remotes := <[p := r <| inbound := (inbound r) <| in_interests := Some iv' |>
                                <| in_needs := Some needs |> |>]> (n_remotes n) |>) as -> end.
    { unfold set, set_n_remotes, set_n_interests, set_n_needs. fields. rewrite Em. cbn.
      by rewrite insert_insert_eq. }
    eapply HQ; [exact H'|exact K|exact El|reflexivity|exact Hacc].
Qed.

Lemma wp_UpdateInboundInterests n p r interests needs isDelta (Q : DPS_Status -> DPS_Node -> Prop) :
  node_inv nI n -> n_remotes n !! p = Some r ->
  vec_ok nI interests -> vec_ok FH_CHUNKS needs ->
  Z.of_nat (length (rest_interests n p)) < CV_MAX -> Z.of_nat (length (rest_needs n p)) < CV_MAX ->
  (forall n' r', node_inv nI n' -> keeps n n' -> n_remoteNodes n' = n_remoteNodes n ->
     n_remotes n' = <[p := r']> (n_remotes n) -> accepted r r' (received r interests isDelta) needs ->
     Q DPS_OK n') ->
  wp (UpdateInboundInterests p interests needs isDelta) Q n.
Proof.
  intros H E Wi Wn HlI HlN HQ. unfold UpdateInboundInterests. wp_go. eapply wp_load; [exact E|]. wp_go.
  pose proof (ni_remote _ _ H _ _ E) as [R1 R2 R3 R4 R5].
  pose proof (counted_split _ _ _ _ H E) as Hc.   destruct (in_interests (inbound r)) as [old|] eqn:Eold.
  - destruct (in_needs (inbound r)) as [oldn|] eqn:Eoldn; [|done]. destruct R1 as [Wo Won].
    assert (forall iv, vec_ok nI iv -> bits iv = received r interests isDelta -> forall K,
      (forall m, inbound_cleared n m p r -> K iv m) ->
      wp (DPS_ClearInboundInterests p) (fun _ => wp (mret iv) K) n) as Hclear.
    { intros iv Wiv Biv K HK. eapply clear_inbound_wp; [exact E| |exact Hc|].
      - unfold remote_interests, remote_needs. by rewrite Eold, Eoldn.
      - intros cI cN n' Hn'. wp_go. apply HK. split; [reflexivity|exact Hn']. }
    destruct isDelta.
    + destruct (DPS_BitVectorXor_delta nI interests old Wi Wo) as (iv & v1 & v2 & Ex & Wiv & Biv).
      assert (bits iv = received r interests true) as Biv'.
      { unfold received, remote_interests. by rewrite Eold. }
      wp_go. eapply wp_lift; [exact Ex|]. wp_go. eapply wp_lift; [done|]. wp_go. apply Hclear; [done..|].
      intros m Hm. by apply (wp_inbound_end n m p r iv needs _ _ H E Hm Wiv Wn Biv').
    + wp_go. apply Hclear; [done..|]. intros m Hm.
      by apply (wp_inbound_end n m p r interests needs _ _ H E Hm Wi Wn eq_refl).
  - destruct (in_needs (inbound r)) as [oldn|] eqn:Eoldn; [done|]. wp_go.
    assert (contrib (remote_interests r) = [] /\ contrib (remote_needs r) = []) as [Ei Ed].
    { unfold remote_interests, remote_needs. by rewrite Eold, Eoldn. }
    rewrite Ei, Ed in Hc.
    apply (wp_inbound_end n n p r interests needs (received r interests isDelta)); try done.
    + split; [|exact Hc]. rewrite insert_id; [by destruct n|]. rewrite E. f_equal.
      destruct r as [? ? [? ? ? ?] ? ?]. cbn in *. by subst.
    + unfold received, remote_interests. rewrite Eold. destruct isDelta; [|done]. rewrite <- (vec_ok_length _ _ Wi).
      by rewrite zip_lxor_zeros_r.
Qed.

(** ** Adding and removing a subscription *)

(** What the operations on subscriptions leave alone. *)
Record same_remotes (n n' : DPS_Node) : Prop := {
  sr_remotes : n_remotes n' = n_remotes n;
  sr_list : n_remoteNodes n' = n_remoteNodes n;
  sr_cpns : n_cpns n' = n_cpns n
}.

Lemma node_inv_subscribe n n' p s :
  node_inv nI n -> (p ∉ n_subscriptions n) -> sub_ok nI s ->
  n_subs n' = <[p := s]> (n_subs n) -> n_subscriptions n' = p :: n_subscriptions n -> same_remotes n n' ->
  counted nI n' (contrib (s_bf s) ++ int_list n) (contrib (s_needs s) ++ need_list n) -> node_inv nI n'.
Proof.
  intros H Hp Hs Em El [E1 E2 E3] Hc. constructor; rewrite ?E1, ?E2, ?El; try apply H.
  - constructor; [done|apply H].
  - intros q Hq. rewrite Em. destruct (decide (q = p)) as [->|Hne].
    + rewrite lookup_insert_eq. eauto.
    + rewrite lookup_insert_ne by done. apply elem_of_cons in Hq as [?|Hq]; [done|]. by apply (ni_subs _ _ H).
  - unfold int_list, need_list in *. rewrite Em, El, E1, E2, !vectors_cons, !vectors_at_insert, !vectors_fresh by done.
    unfold contrib in Hc. by rewrite <- !app_assoc.
  - intros q rq c. rewrite E1, E3. apply H.
Qed.

(** The multisets without one subscription. *)
Definition without_interests (n : DPS_Node) (p : ptr) : list (list Z) :=
  others s_bf (n_subs n) (n_subscriptions n) p ++ vectors remote_interests (n_remotes n) (n_remoteNodes n).
Definition without_needs (n : DPS_Node) (p : ptr) : list (list Z) :=
  others s_needs (n_subs n) (n_subscriptions n) p ++ vectors remote_needs (n_remotes n) (n_remoteNodes n).

Lemma counted_without n p s :
  node_inv nI n -> p ∈ n_subscriptions n -> n_subs n !! p = Some s ->
  counted nI n (contrib (s_bf s) ++ without_interests n p) (contrib (s_needs s) ++ without_needs n p).
Proof.
  intros H Hp E. eapply counted_perm; [apply H| |]; unfold int_list, need_list, without_interests, without_needs;
    rewrite app_assoc; apply Permutation_app_tail.
  - by apply vectors_update; [apply H| |].
  - by apply vectors_update; [apply H| |].
Qed.

Lemma node_inv_unsubscribe n n' p s :
  node_inv nI n -> p ∈ n_subscriptions n -> n_subs n' = <[p := s]> (n_subs n) ->
  n_subscriptions n' = filter (fun q => q <> p) (n_subscriptions n) -> same_remotes n n' ->
  counted nI n' (without_interests n p) (without_needs n p) -> node_inv nI n'.
Proof.
  intros H Hp Em El [E1 E2 E3] Hc. constructor; rewrite ?E1, ?E2, ?El; try apply H.
  - apply NoDup_filter, H.
  - intros q [Hne Hq]%list_elem_of_filter. rewrite Em, lookup_insert_ne by done. by apply (ni_subs _ _ H).
  - unfold int_list, need_list. rewrite Em, El, E1, E2.
    rewrite !vectors_fresh by by intros [? _]%list_elem_of_filter. exact Hc.
  - intros q rq c. rewrite E1, E3. apply H.
Qed.

(** Changing fields of a subscription that are not counted. *)
Lemma node_inv_sub_fields n n' p s s' :
  node_inv nI n -> n_subs n !! p = Some s -> n_subs n' = <[p := s']> (n_subs n) ->
  n_subscriptions n' = n_subscriptions n -> same_remotes n n' ->
  (p ∈ n_subscriptions n -> s_bf s' = s_bf s /\ s_needs s' = s_needs s /\ s_flags s' = s_flags s) ->
  n_interests n' = n_interests n -> n_needs n' = n_needs n -> node_inv nI n'.
Proof.
  intros H E Em El [E1 E2 E3] Hs EI EN.
  constructor; rewrite ?E1, ?E2, ?El; try apply H.
  - intros q Hq. rewrite Em. destruct (decide (q = p)) as [->|Hne].
    + rewrite lookup_insert_eq. exists s'. split; [done|]. destruct (Hs Hq) as (E4 & E5 & E6).
      destruct (ni_subs _ _ H p Hq) as (s0 & Es0 & Hok). rewrite E in Es0. injection Es0 as <-.
      unfold sub_ok in *. by rewrite E4, E5, E6.
    + rewrite lookup_insert_ne by done. by apply (ni_subs _ _ H).
  - unfold counted, int_list, need_list. rewrite Em, El, E1, E2, EI, EN.
    destruct (decide (p ∈ n_subscriptions n)) as [Hp|Hp].
    + destruct (Hs Hp) as (E4 & E5 & _). rewrite !(vectors_same _ _ _ _ s) by done. apply H.
    + rewrite !vectors_fresh by done. apply H.
  - intros q rq c. rewrite E1, E3. apply H.
Qed.

Lemma wp_UpdateSubs pending (Q : unit -> DPS_Node -> Prop) n :
  (forall n', (exists st ev, n' = n <| n_subsPending := st |> <| n_events := ev |>) -> Q () n') ->
  wp (DPS_UpdateSubs pending) Q n.
Proof.
  intros HQ. unfold DPS_UpdateSubs. wp_go. case_bool_decide; wp_go; apply HQ.
  - do 2 eexists. reflexivity.
  - exists (n_subsPending n), (n_events n). by destruct n.
Qed.

(** Neither assertion on the counts fails. *)
Lemma wp_FreeSubscription n p s (Q : unit -> DPS_Node -> Prop) :
  node_inv nI n -> p ∈ n_subscriptions n -> n_subs n !! p = Some s ->
  (forall n', node_inv nI n' -> same_remotes n n' -> n_loop n' = n_loop n ->
     n_subscriptions n' = filter (fun q => q <> p) (n_subscriptions n) -> n_freeSubs n' = p :: n_freeSubs n ->
     n_subs n' = <[p := s <| s_flags := SUB_FLAG_WAS_FREED |>]> (n_subs n) -> Q () n') ->
  wp (FreeSubscription p) Q n.
Proof.
  intros H Hp E HQ. pose proof (counted_without n p s H Hp E) as (HI & Hu & HN).
  destruct (ni_subs _ _ H p Hp) as (s0 & Es0 & Hfl & bf & nd & Ebf & End & Wb & Wn).
  rewrite E in Es0. injection Es0 as <-. rewrite Ebf, End in *. cbn in HI, HN.
  destruct (counts_del _ _ _ _ HI (vec_wf_ok _ _ Wb)) as (cI & EI & HI' & UI).
  destruct (counts_del _ _ _ _ HN (vec_wf_ok _ _ Wn)) as (cN & EN & HN' & _).
  unfold FreeSubscription. wp_go. eapply wp_load; [exact E|]. rewrite Hfl. cbn [when negb]. wp_go.
  rewrite (unlink_ptr_spec _ _ (ni_subs_nodup _ _ H) Hp), Ebf, End. wp_go.
  eapply wp_count_del_interests; [exact EI|]. wp_go. apply wp_assert; [done|]. wp_go.
  eapply wp_count_del_needs; [exact EN|]. wp_go. apply wp_assert; [done|]. wp_go.
  eapply wp_update; [exact E|]. wp_go. eapply wp_load; [apply lookup_insert_eq|].
  match goal with |- wp _ _ (set n_subs (insert p ?x) ?m) => set (n1 := set n_subs (insert p x) m);
    assert (node_inv nI n1) as H1 end.
  { eapply (node_inv_unsubscribe n n1 p); [done|exact Hp|reflexivity|reflexivity|by constructor|].
    split; [exact HI'|]. split; [by apply UI|exact HN']. }
  apply wp_when; intros _; wp_go; (apply HQ; [|by constructor|done|done|done|done]); [|done].
  by apply (node_inv_same nI n1).
Qed.

Lemma wp_DestroySubscription n p cb (Q : DPS_Status -> DPS_Node -> Prop) :
  node_inv nI n -> n_loop n = true -> p ∈ n_subscriptions n ->
  (forall n', node_inv nI n' -> same_remotes n n' ->
     n_subscriptions n' = filter (fun q => q <> p) (n_subscriptions n) -> Q DPS_OK n') ->
  wp (DPS_DestroySubscription (Some p) cb) Q n.
Proof.
  intros H Hloop Hp HQ. unfold DPS_DestroySubscription, IsValidSub. wp_go. rewrite Hloop. cbn [negb]. wp_go.
  rewrite existsb_elem, bool_decide_eq_true_2 by done. cbn [negb].
  destruct (ni_subs _ _ H p Hp) as (s & E & Hs). wp_go. eapply wp_update; [exact E|]. wp_go.
  eapply wp_FreeSubscription; [|exact Hp|apply lookup_insert_eq|].
  { by eapply (node_inv_sub_fields n _ p s). }
  intros n1 H1 [E1 E2 E3] _ El _ _. wp_go. apply wp_UpdateSubs. intros n2 (st & ev & ->). wp_go.
  apply HQ; [by apply (node_inv_same nI n1)|by constructor|done].
Qed.

(** ** Subscribing *)

Context (Hpos : (0 < nI)%nat) (Hmd : forall d, Forall is_byte (env_md d)).
Context (Hhashes : 1 <= numHashes env_config <= MAX_HASHES).

Lemma insert_wf_vec bf bf' : vec_wf nI bf -> bv_wf bf' -> len bf' = len bf -> vec_wf nI bf'.
Proof.
  intros Hb Hw El. split; [done|]. pose proof (bv_len _ Hw). pose proof (vec_wf_len _ _ Hb). lia.
Qed.

Lemma wp_malloc (Q : (nat -> option (list Z)) -> DPS_Node -> Prop) n :
  Q (fun size => if env_alloc (n_allocs n) then Some (env_bytes (n_allocs n) size) else None)
    (n <| n_allocs := S (n_allocs n) |>) -> wp malloc Q n.
Proof. done. Qed.

(** The filter that the topics make, whatever the blocks that [malloc] returns. *)
Lemma wp_add_topics seps m0 topics : no_wild seps -> Forall (topic_ok seps DPS_SubTopic) topics ->
  (forall k, env_alloc k = true) -> (forall k size, length (env_bytes k size) = size) -> malloc_ok m0 ->
  forall bf (Q : DPS_Status * DPS_BitVector -> DPS_Node -> Prop) n,
  vec_wf nI bf ->
  (forall bf' k, TopicTheorems.add_topics env_md env_config m0 seps DPS_SubTopic bf topics = Some (DPS_OK, bf') ->
     vec_wf nI bf' -> Q (DPS_OK, bf') (n <| n_allocs := k |>)) ->
  wp (add_topics bf topics seps) Q n.
Proof.
  intros Hs Ht Hall Hlen Hm0. induction Ht as [|t topics Htok _ IH]; intros bf Q n Hb HQ; cbn [add_topics].
  { wp_go. replace n with (n <| n_allocs := n_allocs n |>) by by destruct n. by apply HQ. }
  wp_go. apply wp_malloc.
  assert (forall m, malloc_ok m -> exists bf1,
    DPS_AddTopic env_md env_config m (Some bf) (Some t) (Some seps) DPS_SubTopic = Some (DPS_OK, Some bf1) /\
    vec_wf nI bf1) as Hadd.
  { intros m Hm. destruct (AddTopic_grows env_md env_config m seps Hmd Hhashes Hs Hm DPS_SubTopic t bf Htok)
      as (bf1 & xs & E & _ & _ & W & L & _); [apply Hb|rewrite (vec_wf_len _ _ Hb); lia|].
    exists bf1. split; [exact E|]. by eapply insert_wf_vec. }
  set (m := fun size : nat => if env_alloc (n_allocs n) then Some (env_bytes (n_allocs n) size) else None).
  assert (malloc_ok m) as Hm.
  { intros k. unfold m. rewrite Hall. eauto. }
  destruct (Hadd m Hm) as (bf1 & E & W). destruct (Hadd m0 Hm0) as (bf2 & E0 & _).
  assert (bf2 = bf1) as ->.
  { destruct Htok as (T1 & T2 & T3 & T4 & T5).
    destruct (DPS_AddTopic_spec env_md env_config seps Hs m bf t DPS_SubTopic Hm T1 T2 T3 T4 T5) as (w1 & F1 & E1).
    destruct (DPS_AddTopic_spec env_md env_config seps Hs m0 bf t DPS_SubTopic Hm0 T1 T2 T3 T4 T5) as (w2 & F2 & E2).
    rewrite (first_wild_unique _ _ _ F2 F1), <- E1, E in E2. congruence. }
  wp_go. eapply wp_lift; [exact E|]. wp_go. eapply wp_lift; [done|].
  change (is_OK DPS_OK) with true. cbv iota.
  apply IH; [done|]. intros bf' k Ebf' Wbf'. apply HQ; [|done].
  cbn [TopicTheorems.add_topics]. rewrite E0. exact Ebf'.
Qed.

(** A vector of the environment's allocations. *)
Lemma wp_BitVectorAlloc_fresh (Q : option DPS_BitVector -> DPS_Node -> Prop) n :
  env_alloc (n_allocs n) = true ->
  Q (Some (fresh_bv (bitLen env_config))) (n <| n_allocs := S (n_allocs n) |>) -> wp BitVectorAlloc Q n.
Proof.
  intros Ha HQ. unfold BitVectorAlloc. wp_go. unfold wp at 1, alloc_ok. rewrite Ha.
  eapply wp_lift; [|exact HQ]. apply BitVectorAlloc_fresh. by rewrite Hsize, (Z.mul_comm 64), Z.mod_mul.
Qed.
Lemma wp_BitVectorAllocFH (Q : option DPS_BitVector -> DPS_Node -> Prop) n :
  env_alloc (n_allocs n) = true ->
  (forall bv, vec_wf FH_CHUNKS bv -> Q (Some bv) (n <| n_allocs := S (n_allocs n) |>)) -> wp BitVectorAllocFH Q n.
Proof.
  intros Ha HQ. unfold BitVectorAllocFH. wp_go. unfold wp at 1, alloc_ok. rewrite Ha.
  eapply wp_lift; [reflexivity|]. apply HQ. split; [by apply (fresh_bv_wf 256)|done].
Qed.

Lemma fresh_vec : vec_wf nI (fresh_bv (bitLen env_config)).
Proof.
  unfold fresh_bv. split; [apply fresh_bv_wf|]; rewrite Hsize; [by rewrite (Z.mul_comm 64), Z.mod_mul|lia|].
  cbn [bits]. by rewrite (Z.mul_comm 64), Z.div_mul, Nat2Z.id, length_replicate by done.
Qed.

(** A new subscription: its filter is the one of its topics and its needs are the
    hash of that filter. *)
Lemma wp_Subscribe n p s m0 handler (Q : DPS_Status -> DPS_Node -> Prop) :
  node_inv nI n -> n_loop n = true -> n_subs n !! p = Some s -> (p ∉ n_subscriptions n) ->
  has_flag (s_flags s) SUB_FLAG_WAS_FREED = false ->
  no_wild (n_separators n) -> Forall (topic_ok (n_separators n) DPS_SubTopic) (s_topics s) ->
  (forall k, env_alloc k = true) -> (forall k size, length (env_bytes k size) = size) -> malloc_ok m0 ->
  Z.of_nat (length (int_list n)) < CV_MAX -> Z.of_nat (length (need_list n)) < CV_MAX ->
  (forall n' s' bf sf nd, node_inv nI n' -> same_remotes n n' -> n_loop n' = n_loop n ->
     n_subscriptions n' = p :: n_subscriptions n -> n_subs n' = <[p := s']> (n_subs n) ->
     TopicTheorems.add_topics env_md env_config m0 (n_separators n) DPS_SubTopic
       (fresh_bv (bitLen env_config)) (s_topics s) = Some (DPS_OK, sf) ->
     s_bf s' = Some bf -> bits bf = bits sf -> s_needs s' = Some nd -> bits nd = fuzzy_spec (bits sf) ->
     s_handler s' = Some handler -> Q DPS_OK n') ->
  wp (DPS_Subscribe (Some p) handler) Q n.
Proof.
  intros H Hloop E Hp Hfl Hs Ht Hall Hlen Hm0 HlI HlN HQ. unfold DPS_Subscribe. wp_go. rewrite Hloop. cbn [negb].
  wp_go. apply wp_BitVectorAlloc_fresh; [done|]. wp_go. apply wp_BitVectorAllocFH; [done|]. intros nd0 Wnd0. wp_go.
  eapply wp_update; [exact E|]. wp_go. eapply wp_load; [apply lookup_insert_eq|]. wp_go. fields.
  eapply (wp_add_topics _ m0); [done|exact Ht|done|done|done|apply fresh_vec|]. intros sf k Esf Wsf. wp_go.
  eapply wp_update; [apply lookup_insert_eq|]. ok.
  destruct (DPS_BitVectorFuzzyHash_spec nd0 sf) as (nd & Ef & Wnd & Lnd & Bnd);
    [apply Wnd0|by rewrite (vec_wf_len _ _ Wnd0)|apply Wsf|].
  eapply wp_lift; [exact Ef|]. wp_go. eapply wp_update; [apply lookup_insert_eq|]. wp_go. fields.
  apply wp_assert; [by rewrite bool_decide_eq_false_2|]. wp_go.
  pose proof (counted_wf _ _ Wsf) as Wbf. set (bf := set_popCount sf _) in *.
  assert (vec_wf FH_CHUNKS nd) as Wnd'.
  { split; [done|]. pose proof (bv_len _ Wnd). change FH_BITVECTOR_LEN with 256 in Lnd. unfold FH_CHUNKS. lia. }
  destruct (ni_counted _ _ H) as (HI & Hu & HN).
  destruct (counts_add _ _ _ _ HI (vec_wf_ok _ _ Wbf) HlI) as (cI & EI & HI' & UI).
  destruct (counts_add _ _ _ _ HN (vec_wf_ok _ _ Wnd') HlN) as (cN & EN & HN' & _).
  eapply wp_count_add_interests; [exact EI|]. ok. eapply wp_count_add_needs; [exact EN|]. wp_go. cbn [when].
  apply wp_UpdateSubs. intros n' (st & ev & ->). wp_go.
  match goal with |- Q _ ?x => set (n' := x) end.
  set (s' := s <| s_handler := Some handler |> <| s_bf := Some bf |> <| s_needs := Some nd |>).
  assert (n_subs n' = <[p := s']> (n_subs n)) as Em.
  { unfold n'. fields. by rewrite !insert_insert_eq. }
  apply (HQ n' s' bf sf nd); try done.
  apply (node_inv_subscribe n n' p s'); try done.
  - split; [exact Hfl|]. by exists bf, nd.
  - split; [exact HI'|]. split; [by apply UI|exact HN'].
Qed.
End Inv.
