(* ===== verification/NodeTheorems.v ===== *)
(** * Correctness of the interests of a node ([src/dps.c], [src/sub.c])

    The count vectors of a node are the multisets of what it knows, so that no
    assertion on counting fails; what a node tells a neighbour is what the
    neighbour records; and what is recorded lets through every publication that
    matches a subscription behind it. *)
From S2P Require Import Prelude Status Buffer Float Cbor BitVec BitVecProofs CountVec Bloom Topics TopicProofs.
From S2P Require Import TopicSound TopicTheorems BitVecTheorems Uuid Addr History Node Remote RemoteProofs Sub SubProofs.
From stdpp Require Import gmap relations.
#[local] Open Scope Z_scope.
#[local] Set Warnings "-clear-no-such-hyp".

(** ** The operations on the interests, as a transition system *)

Inductive NodeOp :=
  | OpSubscribe (sub : ptr) (handler : Z)
  | OpUnsubscribe (sub : ptr) (cb : option Z)
  | OpAddRemote (addr : DPS_NodeAddress) (cn : option Z)
  | OpReceive (remote : ptr) (interests needs : DPS_BitVector) (isDelta : bool)
  | OpUpdate (remote : ptr)
  | OpMute (remote : ptr)
  | OpDelete (remote : ptr).

(** Equal interests come with equal needs, decidably. *)
#[export] Instance needs_follow_dec (r : RemoteNode) newI newN : Decision (needs_follow r newI newN).
Proof.
  unfold needs_follow. destruct (out_interests (outbound r)) as [i|]; [|left; by intros ? ? [=]].
  destruct (out_needs (outbound r)) as [d|]; [|left; by intros ? ? ? [=]].
  destruct (decide (bits i = newI -> bits d = newN)) as [H|H]; [left; by intros ? ? [= <-] [= <-]|right; intros Hn; apply H; by apply Hn].
Defined.

Section Ops.
Context `{Env : Environment} (nI : nat).

Definition run_op (op : NodeOp) : M unit :=
  match op with
  | OpSubscribe p h => _ ← DPS_Subscribe (Some p) h; mret ()
  | OpUnsubscribe p cb => _ ← DPS_DestroySubscription (Some p) cb; mret ()
  | OpAddRemote a cn => _ ← DPS_AddRemoteNode a cn; mret ()
  | OpReceive p i d isDelta => _ ← UpdateInboundInterests p i d isDelta; mret ()
  | OpUpdate p => _ ← DPS_UpdateOutboundInterests p; mret ()
  | OpMute p => _ ← DPS_MuteRemoteNode p REMOTE_MUTED; mret ()
  | OpDelete p => DPS_DeleteRemoteNode p
  end.

(** Room for one more vector in each counter. *)
Definition room (n : DPS_Node) : Prop :=
  Z.of_nat (length (n_subscriptions n) + length (n_remoteNodes n)) < CV_MAX.

(** When the code performs an operation. *)
Definition enabled (op : NodeOp) (n : DPS_Node) : Prop :=
  match op with
  | OpSubscribe p _ => exists s, n_subs n !! p = Some s /\ (p ∉ n_subscriptions n) /\
      has_flag (s_flags s) SUB_FLAG_WAS_FREED = false /\ n_loop n = true /\
      no_wild (n_separators n) /\ Forall (topic_ok (n_separators n) DPS_SubTopic) (s_topics s) /\ room n /\
      (forall k, env_alloc k = true)
  | OpUnsubscribe p _ => p ∈ n_subscriptions n /\ n_loop n = true
  | OpAddRemote a _ => addr_ok a
  | OpReceive p i d _ => p ∈ n_remoteNodes n /\ vec_ok nI i /\ vec_ok FH_CHUNKS d /\ room n
  | OpUpdate p => exists r, n_remotes n !! p = Some r /\ r_state r <> REMOTE_UNLINKING /\ room n
  | OpMute p => p ∈ n_remoteNodes n
  | OpDelete p => True
  end.

(** The assertion on the needs, for a remote and for an operation. *)
Definition needs_asserted (n : DPS_Node) (p : ptr) (r : RemoteNode) : Prop :=
  needs_follow r (vec_union nI (rest_interests n p)) (vec_needs FH_CHUNKS (rest_needs n p)).
Definition asserted (op : NodeOp) (n : DPS_Node) : Prop :=
  match op with
  | OpUpdate p => forall r, n_remotes n !! p = Some r -> needs_asserted n p r
  | _ => True
  end.

Inductive node_step (n n' : DPS_Node) : Prop :=
  | node_step_op op : enabled op n -> run_op op n = Some ((), n') -> node_step n n'.

(** At most one vector per object. *)
Lemma length_vectors {V} (f : V -> option DPS_BitVector) m l : (length (vectors f m l) <= length l)%nat.
Proof. unfold vectors. induction l as [|p l IH]; cbn; [lia|]. destruct (vectors_at f m p); cbn; lia. Qed.

Lemma room_rest n p : room n ->
  Z.of_nat (length (rest_interests n p)) < CV_MAX /\ Z.of_nat (length (rest_needs n p)) < CV_MAX.
Proof.
  unfold room, rest_interests, rest_needs, others. rewrite !length_app.
  assert (length (filter (fun q => q <> p) (n_remoteNodes n)) <= length (n_remoteNodes n))%nat by apply length_filter.
  pose proof (length_vectors s_bf (n_subs n) (n_subscriptions n)).
  pose proof (length_vectors s_needs (n_subs n) (n_subscriptions n)).
  pose proof (length_vectors remote_interests (n_remotes n) (filter (fun q => q <> p) (n_remoteNodes n))).
  pose proof (length_vectors remote_needs (n_remotes n) (filter (fun q => q <> p) (n_remoteNodes n))).
  lia.
Qed.

Lemma room_all n : room n ->
  Z.of_nat (length (int_list n)) < CV_MAX /\ Z.of_nat (length (need_list n)) < CV_MAX.
Proof.
  unfold room, int_list, need_list. rewrite !length_app.
  pose proof (length_vectors s_bf (n_subs n) (n_subscriptions n)).
  pose proof (length_vectors s_needs (n_subs n) (n_subscriptions n)).
  pose proof (length_vectors remote_interests (n_remotes n) (n_remoteNodes n)).
  pose proof (length_vectors remote_needs (n_remotes n) (n_remoteNodes n)).
  lia.
Qed.

(** The environment in which the operations are run. *)
Record env_ok : Prop := {
  eo_size : bitLen env_config = 64 * Z.of_nat nI;
  eo_small : 64 * Z.of_nat nI < 2 ^ 31;
  eo_pos : (0 < nI)%nat;
  eo_md : forall d, Forall is_byte (env_md d);
  eo_hashes : 1 <= numHashes env_config <= MAX_HASHES;
  eo_bytes : forall k size, length (env_bytes k size) = size
}.

Definition zero_malloc (size : nat) : option (list Z) := Some (replicate size 0).
Lemma zero_malloc_ok : malloc_ok zero_malloc.
Proof. intros k. eexists. split; [done|]. apply length_replicate. Qed.

Lemma wp_unit {A} (m : M A) (P : DPS_Node -> Prop) n :
  wp m (fun _ n' => P n') n -> wp (_ ← m; mret ()) (fun _ n' => P n') n.
Proof. intros H. wp_go. eapply wp_mono; [exact H|]. intros x n' HP. wp_go. exact HP. Qed.

Lemma DPS_BitVectorEquals_false k b1 b2 :
  vec_wf k b1 -> vec_wf k b2 -> bits b1 <> bits b2 -> DPS_BitVectorEquals (Some b1) (Some b2) = false.
Proof.
  intros [_ L1] [_ L2] Hne. unfold DPS_BitVectorEquals. destruct (len b1 =? len b2); [|done]. cbn [negb].
  apply not_true_is_false. intros Hall. apply Hne. clear Hne. assert (length (bits b1) = length (bits b2)) as Hl by congruence.
  clear L1 L2. revert Hl Hall. generalize (bits b1), (bits b2). intros l1.
  induction l1 as [|x l1 IH]; intros [|y l2] Hl; try done. cbn. intros [->%Z.eqb_eq Hall]%andb_true_iff.
  f_equal. apply IH; [|done]. by injection Hl.
Qed.

Lemma wlp_undefined {A} (m : M A) (Q : A -> DPS_Node -> Prop) n : m n = None -> wlp m Q n.
Proof. unfold wlp. by intros ->. Qed.

(** Where the needs do not follow the interests, nothing is computed. *)
Lemma wlp_UpdateOutboundInterests_needs n p r :
  bitLen env_config = 64 * Z.of_nat nI -> 64 * Z.of_nat nI < 2 ^ 31 ->
  node_inv nI n -> n_remotes n !! p = Some r -> r_state r <> REMOTE_UNLINKING -> room n ->
  ~ needs_asserted n p r ->
  wlp (DPS_UpdateOutboundInterests p) (fun x n' => x = (DPS_ERR_RESOURCES, false) /\ node_inv nI n') n.
Proof.
  intros Hsz Hsm H E Hst Hroom Hnf. unfold needs_asserted in Hnf. destruct (room_rest n p Hroom) as [HlI HlN].
  unfold DPS_UpdateOutboundInterests.
  apply wlp_bind, wp_wlp. eapply wp_load; [exact E|]. cbv beta. rewrite bool_decide_eq_false_2 by done.
  pose proof (ni_remote _ _ H _ _ E) as Hr. pose proof (counted_split nI _ _ _ H E) as Hc.
  apply wlp_bind, wp_wlp. eapply (wp_new_outbound_vectors nI Hsm); [exact (ro_inbound _ _ Hr)|exact Hc|exact HlI|exact HlN|].
  intros i d n1 Hq Hc1 Hi Hd.
  assert (node_inv nI n1) as H1.
  { apply (recounted_inv nI n n1 H Hq). eapply counted_perm; [exact Hc1| |]; symmetry; [by apply (int_list_split nI)|by apply (need_list_split nI)]. }
  change (is_OK DPS_OK) with true. cbn [negb].
  destruct i as [i|]; [|done]. destruct d as [d|]; [|done]. destruct (Hi i eq_refl) as [Wi Bi], (Hd d eq_refl) as [Wd Bd].
  destruct (out_interests (outbound r)) as [old|] eqn:Eold; [|by destruct Hnf; intros ? ?; rewrite Eold].
  pose proof (ro_outbound _ _ Hr) as Ho. rewrite Eold in Ho.
  destruct (out_needs (outbound r)) as [oldn|] eqn:Eoldn; [|done]. destruct Ho as [Wo Won].
  assert (bits old = bits i /\ bits oldn <> bits d) as [Hsame Hdiff].
  { split; [destruct (decide (bits old = bits i)) as [|Hne]; [done|]; destruct Hnf|intros Hne; destruct Hnf];
      intros i' d'; rewrite Eold, Eoldn; intros [= <-] [= <-]; congruence. }
  apply wlp_bind, wlp_bind. match goal with |- wlp _ ?K _ => assert (forall n2 dl, vec_wf nI dl -> K (Some dl) n2) as Hdelta end.
  { intros n2 dl Wdl. apply wlp_undefined.
    destruct (DPS_BitVectorXor_spec nI dl old i Wdl Wo Wi) as (dl' & v1 & v2 & Ex & _).
    rewrite (DPS_BitVectorEquals_false FH_CHUNKS oldn d Won Wd Hdiff).
    unfold mbind, M_bind, lift. rewrite Ex. cbn. by rewrite bool_decide_eq_true_2.  }
  destruct (out_delta (outbound r)) as [dl|] eqn:Edl; [apply Hdelta; by apply (ro_delta _ _ Hr)|].
  apply wp_wlp, (wp_BitVectorAlloc nI Hsz Hsm). intros [dl|] Hdl; [by apply Hdelta, Hdl|].
  split; [done|]. by apply (node_inv_same nI n1).
Qed.

Lemma run_op_inv op n :
  env_ok -> node_inv nI n -> enabled op n -> asserted op n -> wp (run_op op) (fun _ n' => node_inv nI n') n.
Proof.
  intros [Hsz Hsm Hpos Hmd Hh Hb] H He Has. destruct op as [p h|p cb|a cn|p i d isD|p|p|p]; cbn [run_op enabled] in *.
  - destruct He as (s & E & Hp & Hf & Hl & Hs & Ht & [R1 R2]%room_all & Ha). apply wp_unit.
    by eapply (wp_Subscribe nI Hsz Hsm Hpos Hmd Hh n p s zero_malloc); eauto using zero_malloc_ok.
  - destruct He as [Hp Hl]. apply wp_unit. by apply (wp_DestroySubscription nI).
  - apply wp_unit. by apply (wp_AddRemoteNode nI).
  - destruct He as ([r E]%(ni_remotes _ _ H) & Wi & Wd & [R1 R2]%(room_rest _ p)). apply wp_unit.
    by eapply (wp_UpdateInboundInterests nI).
  - destruct He as (r & E & Hst & [R1 R2]%(room_rest _ p)). apply wp_unit.
    by apply (wp_UpdateOutboundInterests nI Hsz Hsm n p r); [..|by apply Has|].
  - apply (ni_remotes _ _ H) in He as [r E]. apply wp_unit. by eapply (wp_MuteRemoteNode nI).
  - by apply (wp_DeleteRemoteNode nI).
Qed.

(** The only operation that may be enabled and undefined is the update of a remote for
    which the assertion on the needs fails; what it does without it keeps the invariant. *)
Lemma run_op_unasserted op n : env_ok -> node_inv nI n -> enabled op n ->
  asserted op n \/ exists p r, op = OpUpdate p /\ n_remotes n !! p = Some r /\ ~ needs_asserted n p r /\
    wlp (run_op op) (fun _ n' => node_inv nI n') n.
Proof.
  intros Hok H He. destruct op as [| | | |p| |]; try by left. destruct He as (r & E & Hst & Hr).
  destruct (decide (needs_asserted n p r)) as [Hn|Hn]; [left|right].
  - intros r' E'. rewrite E in E'. by injection E' as <-.
  - exists p, r. split; [done|]. split; [done|]. split; [done|]. cbn [run_op]. apply wlp_bind.
    eapply wlp_mono; [by eapply (wlp_UpdateOutboundInterests_needs n p r (eo_size Hok) (eo_small Hok))|]. intros x n' [_ H']. by apply wlp_ret.
Qed.

Lemma run_op_keeps op n : env_ok -> node_inv nI n -> enabled op n -> wlp (run_op op) (fun _ n' => node_inv nI n') n.
Proof.
  intros Hok H He. destruct (run_op_unasserted op n Hok H He) as [Has|(p & r & _ & _ & _ & Hw)]; [|done]. by apply wp_wlp, run_op_inv.
Qed.

Lemma CountVectorAllocFH_repr cv : DPS_CountVectorAllocFH true = Some (Some cv) -> cv_repr cv FH_CHUNKS [].
Proof. intros [= <-]. constructor; try done. exact (rows_ok_zeros false 4). Qed.

(** A node after [DPS_StartNode]: no objects, and empty counters. *)
Record started (n : DPS_Node) : Prop := {
  st_remotes : n_remotes n = ∅ /\ n_remoteNodes n = [];
  st_subs : n_subscriptions n = [];
  st_interests : DPS_CountVectorAlloc env_config true true = Some (Some (n_interests n));
  st_needs : DPS_CountVectorAllocFH true = Some (Some (n_needs n))
}.

Lemma started_inv n : env_ok -> started n -> node_inv nI n.
Proof.
  intros Hok [[E1 E2] E3 Hi Hn].
  assert (Hk : Z.to_nat (bitLen env_config / 64) = nI).
  { rewrite (eo_size Hok), Z.mul_comm, Z.div_mul by done. lia. }
  assert (bitLen env_config mod 64 = 0) as Hm.
  { rewrite (eo_size Hok), Z.mul_comm. by apply Z.mod_mul. }
  assert (0 <= bitLen env_config) as Hp by (rewrite (eo_size Hok); lia).
  destruct (CountVectorAlloc_repr _ _ Hm Hp Hi) as [Hr Hu]. rewrite Hk in Hr.
  split; rewrite ?E1, ?E2, ?E3.
  - constructor.
  - intros p. rewrite lookup_empty. split; [by intros [? ?]|by intros ?%elem_of_nil].
  - by intros p r ?%lookup_empty_Some.
  - constructor.
  - by intros p ?%elem_of_nil.
  - unfold int_list, need_list. rewrite E2, E3. cbn. split_and!; [by exists []|done|].
    exists []. split; [done|]. by apply CountVectorAllocFH_repr.
  - intros p r c. by rewrite E1, lookup_empty.
Qed.
End Ops.

(** C13: from a node that was just started, whatever sequence of operations the
    application and the network perform, the two count vectors of the node hold
    exactly the vectors of its subscriptions and of its remotes, as many times
    as they occur; and every operation that may come next is defined and keeps the
    invariant of the node, so the assertions "Count error" of
    [DPS_ClearInboundInterests] and [FreeSubscription] never fail, nor is a freed object
    used.  There is one exception: [DPS_UpdateOutboundInterests] for a remote to which
    the same interests were announced with other needs, where the assertion of the code
    that the needs are the same fails. *)
Theorem node_counts_safe `{Env : Environment} nI n0 n :
  env_ok nI -> started n0 -> rtc (node_step nI) n0 n ->
  counted nI n (int_list n) (need_list n) /\
  entries (n_interests n) = Z.of_nat (length (int_list n)) /\
  entries (n_needs n) = Z.of_nat (length (need_list n)) /\
  forall op, enabled nI op n ->
    (exists n', run_op op n = Some ((), n') /\ node_inv nI n') \/
    run_op op n = None /\ exists p r, op = OpUpdate p /\ n_remotes n !! p = Some r /\ ~ needs_asserted nI n p r.
Proof.
  intros Hok Hs Hr. assert (H : node_inv nI n).
  { apply (started_inv nI _ Hok) in Hs. induction Hr as [|n0 n1 n [op He Hop] Hr IH]; [done|]. apply IH.
    exact (wlp_run _ _ _ _ _ (run_op_keeps nI op n0 Hok Hs He) Hop). }
  pose proof (ni_counted _ _ H) as Hc. split; [done|]. destruct Hc as (C1 & _ & C2).
  split_and!; [by eapply counts_length|by eapply counts_length|]. intros op He.
  destruct (run_op_unasserted nI op n Hok H He) as [Has|(p & r & Ep & Er & Hn & Hw)].
  - left. apply (run_op_inv nI op n Hok H He), wp_run in Has as ([] & n' & -> & H'). eauto.
  - unfold wlp in Hw. destruct (run_op op n) as [[[] n']|]; [left; eauto|right]. split; [done|]. by exists p, r.
Qed.

(** A concrete environment and node for the witnesses: vectors of 64 bits, every
    allocation succeeds. *)
#[local] Instance toy_env : Environment := {|
  env_config := mkConfig 64 3;
  env_md := toy_md;
  env_alloc := fun _ => true;
  env_bytes := fun _ size => replicate size 0;
  env_send := fun _ => DPS_OK;
  env_transport := DPS_UDP;
  env_multicast := fun _ => DPS_OK;
  env_loopback := fun a => (DPS_OK, a);
  env_random := fun _ => (DPS_OK, replicate 12 9)
|}.

Lemma toy_env_ok : env_ok 1.
Proof.
  split; cbn; try done; try lia; [apply toy_md_bytes|].
  intros _ size. apply length_replicate.
Qed.

Definition toy_cv (k : nat) (u : option DPS_BitVector) : DPS_CountVector :=
  mkCV 0 (64 * Z.of_nat k) u (replicate k (replicate 64 0)).
Definition toy_node : DPS_Node :=
  mkNode ∅ [] ∅ [] [] ∅ [] [] ∅ ∅ [] ∅ [] (bv64 [0; 0; 0; 0]) (bv64 [0]) (toy_cv 1 (Some (bv64 [0]))) (toy_cv 4 None)
    (mkHistory ∅ ∅ ∅ ∅ ∅ ∅ None None None 0) no_entity (mkUUID 5 5) (mkEntropy 1 2 3 4 5 6) zero_sock_addr [47]
    SubsNonePending DPS_NODE_RUNNING None None true true false false None 0 0 0 0 0 0 [].
Lemma toy_started : started toy_node.
Proof. by split. Qed.

Definition toy_addr (port : Z) : DPS_NodeAddress := mkAddr DPS_UDP (mkSA AF_INET port 16777343 []) [].

Lemma toy_addr_ok port : addr_ok (toy_addr port).
Proof. do 2 (split; [done|]). split; [by left|done]. Qed.

(** The node after a remote was added and announced its interests. *)
Definition toy_remote_node : DPS_Node :=
  match (_ ← run_op (OpAddRemote (toy_addr 7) None); run_op (OpReceive 1 (bv64 [5]) (bv64 [5; 0; 0; 0]) false)) toy_node with
  | Some (_, n) => n
  | None => toy_node
  end.

Lemma node_counts_safe_witness :
  counted 1 toy_remote_node (int_list toy_remote_node) (need_list toy_remote_node) /\
  exists n', run_op (OpUpdate 1) toy_remote_node = Some ((), n') /\ node_inv 1 n'.
Proof.
  assert (Hr : rtc (node_step 1) toy_node toy_remote_node).
  { eapply rtc_l with (y := match run_op (OpAddRemote (toy_addr 7) None) toy_node with Some (_, n) => n | None => toy_node end).
    - eapply (node_step_op _ _ _ (OpAddRemote (toy_addr 7) None)); [apply toy_addr_ok|vm_compute; reflexivity].
    - apply rtc_once. eapply (node_step_op _ _ _ (OpReceive 1 (bv64 [5]) (bv64 [5; 0; 0; 0]) false)).
      + split_and!; [by apply (bool_decide_unpack _); vm_compute| by apply (bool_decide_unpack _); vm_compute| by apply (bool_decide_unpack _); vm_compute|done].
      + vm_compute. reflexivity. }
  destruct (node_counts_safe 1 _ _ toy_env_ok toy_started Hr) as (H1 & _ & _ & H2).
  split; [exact H1|]. destruct (H2 (OpUpdate 1)) as [Hd|[Hn _]]; [|exact Hd|by vm_compute in Hn].
  eexists. split; [vm_compute; reflexivity|]. by split.
Defined.
