(* ===== verification/Frame.v ===== *)
(** * What an operation leaves alone

    A part of the node that an operation does not change, whatever its result:
    found by going through the operation, without its precondition. *)
From S2P Require Import Prelude Status Buffer Float Cbor BitVec CountVec Uuid Addr History Node Remote Sub.
From stdpp Require Import gmap.
#[local] Open Scope Z_scope.

Definition leaves {X A} (view : DPS_Node -> X) (m : M A) : Prop :=
  forall n x n', m n = Some (x, n') -> view n' = view n.

Create HintDb frame.

Section Leaves.
Context {X : Type} (view : DPS_Node -> X).

Lemma leaves_bind {A B} (m : M A) (f : A -> M B) :
  leaves view m -> (forall x, leaves view (f x)) -> leaves view (m ≫= f).
Proof.
  intros Hm Hf n y n'. unfold mbind, M_bind. destruct (m n) as [[x n1]|] eqn:E; [|done]. cbn.
  intros Ef. by rewrite (Hf _ _ _ _ Ef), (Hm _ _ _ E).
Qed.
Lemma leaves_ret {A} (x : A) : leaves view (mret x).
Proof. by intros n y n' [= _ <-]. Qed.
Lemma leaves_gets {A} (f : DPS_Node -> A) : leaves view (gets f).
Proof. by intros n y n' [= _ <-]. Qed.
Lemma leaves_lift {A} (o : option A) : leaves view (lift o).
Proof. intros n y n'. unfold lift. destruct o; cbn; [by intros [= _ <-]|done]. Qed.
Lemma leaves_undefined {A} : leaves view (@undefined A).
Proof. done. Qed.
Lemma leaves_modify f : (forall n, view (f n) = view n) -> leaves view (modify f).
Proof. by intros Hf n y n' [= _ <-]. Qed.
Lemma leaves_emit e : (forall n, view (n <| n_events := e :: n_events n |>) = view n) -> leaves view (emit e).
Proof. apply leaves_modify. Qed.
Lemma leaves_when b m : leaves view m -> leaves view (when b m).
Proof. by destruct b; [|intros _; apply leaves_ret]. Qed.
Lemma leaves_assert b : leaves view (assert b).
Proof. destruct b; [apply leaves_ret|done]. Qed.

Section Heap.
Context {V : Type} (heap : DPS_Node -> gmap ptr V) `{!Setter heap}.
Lemma leaves_load p : leaves view (load heap p).
Proof. intros n y n'. unfold load. destruct (heap n !! p); cbn; [by intros [= _ <-]|done]. Qed.
Lemma leaves_update p f : (forall g n, view (set heap g n) = view n) -> leaves view (update heap p f).
Proof. intros Hf n y n'. unfold update. destruct (heap n !! p); cbn; [by intros [= _ <-]|done]. Qed.
Lemma leaves_free p : (forall g n, view (set heap g n) = view n) -> leaves view (free heap p).
Proof. intros Hf n y n'. unfold free. destruct (heap n !! p); cbn; [by intros [= _ <-]|done]. Qed.
Lemma leaves_new v : (forall g n, view (set heap g n) = view n) -> leaves view (new heap v).
Proof. by intros Hf n y n' [= _ <-]. Qed.
End Heap.

Lemma wp_leaves {A} (m : M A) (Q : A -> DPS_Node -> Prop) n :
  leaves view m -> wp m (fun x n' => view n' = view n -> Q x n') n -> wp m Q n.
Proof. unfold leaves, wp. intros Hm. destruct (m n) as [[x n']|] eqn:E; [|done]. eauto. Qed.
End Leaves.

(** Go through an operation. *)
Ltac leaves_step :=
  match goal with
  | |- forall _, _ => intros ?
  | |- leaves _ (_ ≫= _) => apply leaves_bind
  | |- leaves _ (mret _) => apply leaves_ret
  | |- leaves _ (gets _) => apply leaves_gets
  | |- leaves _ (lift _) => apply leaves_lift
  | |- leaves _ undefined => apply leaves_undefined
  | |- leaves _ (modify _) => apply leaves_modify; done
  | |- leaves _ (emit _) => apply leaves_emit; done
  | |- leaves _ (when _ _) => apply leaves_when
  | |- leaves _ (assert _) => apply leaves_assert
  | |- leaves _ (load _ _) => apply leaves_load
  | |- leaves _ (update _ _ _) => apply leaves_update; done
  | |- leaves _ (upd_inbound _ _) => apply leaves_update; done
  | |- leaves _ (upd_outbound _ _) => apply leaves_update; done
  | |- leaves _ (free _ _) => apply leaves_free; done
  | |- leaves _ (new _ _) => apply leaves_new; done
  | |- leaves _ (if ?b then _ else _) => destruct b
  | |- leaves _ (match ?x with _ => _ end) => destruct x
  | |- leaves _ ((match ?x with _ => _ end) _) => destruct x
  | |- leaves _ _ => solve [auto with frame]
  end.
Ltac leaves := repeat leaves_step.

(** ** What sending and the publications use *)

Definition pub_view (n : DPS_Node) :=
  (n_sends n, n_pubs n, n_publications n, n_freePubs n, n_reqs n, n_subsPending n, n_netCtx n).

Section Ops.
Context `{Env : Environment}.

Lemma leaves_alloc_ok : leaves pub_view alloc_ok.
Proof. by intros n y n' [= _ <-]. Qed.
Lemma leaves_malloc : leaves pub_view malloc.
Proof. by intros n y n' [= _ <-]. Qed.
#[local] Hint Resolve leaves_alloc_ok leaves_malloc : frame.

Lemma leaves_BitVectorAlloc : leaves pub_view BitVectorAlloc.
Proof. unfold BitVectorAlloc. leaves. Qed.
Lemma leaves_BitVectorAllocFH : leaves pub_view BitVectorAllocFH.
Proof. unfold BitVectorAllocFH. leaves. Qed.
Lemma leaves_count_add (cv : DPS_Node -> DPS_CountVector) `{!Setter cv} bv :
  (forall v n, pub_view (set cv v n) = pub_view n) -> leaves pub_view (count_add cv bv).
Proof.
  intros Hf n y n'. unfold count_add. destruct (DPS_CountVectorAdd _ _) as [[ret [v|]]|]; cbn; try done.
  by intros [= _ <-].
Qed.
Lemma leaves_count_del (cv : DPS_Node -> DPS_CountVector) `{!Setter cv} bv :
  (forall v n, pub_view (set cv v n) = pub_view n) -> leaves pub_view (count_del cv bv).
Proof.
  intros Hf n y n'. unfold count_del. destruct (DPS_CountVectorDel _ _) as [[ret [v|]]|]; cbn; try done.
  by intros [= _ <-].
Qed.
Lemma leaves_add_interests bv : leaves pub_view (count_add n_interests bv).
Proof. by apply leaves_count_add. Qed.
Lemma leaves_del_interests bv : leaves pub_view (count_del n_interests bv).
Proof. by apply leaves_count_del. Qed.
Lemma leaves_add_needs bv : leaves pub_view (count_add n_needs bv).
Proof. by apply leaves_count_add. Qed.
Lemma leaves_del_needs bv : leaves pub_view (count_del n_needs bv).
Proof. by apply leaves_count_del. Qed.
#[local] Hint Resolve leaves_BitVectorAlloc leaves_BitVectorAllocFH leaves_add_interests leaves_del_interests
  leaves_add_needs leaves_del_needs : frame.

Lemma leaves_interests_union : leaves pub_view interests_union.
Proof. unfold interests_union. leaves. Qed.
Lemma leaves_needs_intersection : leaves pub_view needs_intersection.
Proof. unfold needs_intersection. leaves. Qed.
#[local] Hint Resolve leaves_interests_union leaves_needs_intersection : frame.

Lemma leaves_FreeOutboundInterests p : leaves pub_view (FreeOutboundInterests p).
Proof. unfold FreeOutboundInterests. leaves. Qed.
#[local] Hint Resolve leaves_FreeOutboundInterests : frame.
Lemma leaves_ClearOutboundInterests p : leaves pub_view (DPS_ClearOutboundInterests p).
Proof. unfold DPS_ClearOutboundInterests. leaves. Qed.
Lemma leaves_ClearInboundInterests p : leaves pub_view (DPS_ClearInboundInterests p).
Proof. unfold DPS_ClearInboundInterests. leaves. Qed.
#[local] Hint Resolve leaves_ClearOutboundInterests leaves_ClearInboundInterests : frame.

Lemma leaves_new_outbound_vectors r : leaves pub_view (new_outbound_vectors r).
Proof. unfold new_outbound_vectors. leaves. Qed.
#[local] Hint Resolve leaves_new_outbound_vectors : frame.
Lemma leaves_UpdateOutboundInterests p : leaves pub_view (DPS_UpdateOutboundInterests p).
Proof. unfold DPS_UpdateOutboundInterests. leaves. Qed.

Lemma leaves_RemoveRemoteNode p : leaves pub_view (RemoveRemoteNode p).
Proof. intros n y n'. unfold RemoveRemoteNode. destruct (unlink_ptr _ _); cbn; [by intros [= _ <-]|done]. Qed.
Lemma leaves_InsertRemoteNode p : leaves pub_view (InsertRemoteNode p).
Proof. unfold InsertRemoteNode. leaves. Qed.
#[local] Hint Resolve leaves_RemoveRemoteNode leaves_InsertRemoteNode : frame.
Lemma leaves_MuteRemoteNode p st : leaves pub_view (DPS_MuteRemoteNode p st).
Proof. unfold DPS_MuteRemoteNode. leaves. Qed.

Lemma leaves_lookup_loop addr l : leaves pub_view (lookup_loop addr l).
Proof. induction l as [|p l IH]; cbn [lookup_loop]; leaves. Qed.
#[local] Hint Resolve leaves_lookup_loop : frame.
Lemma leaves_LookupRemoteNode addr : leaves pub_view (DPS_LookupRemoteNode addr).
Proof. unfold DPS_LookupRemoteNode. leaves. Qed.
#[local] Hint Resolve leaves_LookupRemoteNode : frame.
Lemma leaves_AddRemoteNode addr cn : leaves pub_view (DPS_AddRemoteNode addr cn).
Proof. unfold DPS_AddRemoteNode. leaves. Qed.

Lemma leaves_min_mesh_loop excluded l min : leaves pub_view (min_mesh_loop excluded l min).
Proof. revert min. induction l as [|p l IH]; intros min; cbn [min_mesh_loop]; leaves; apply IH. Qed.
#[local] Hint Resolve leaves_min_mesh_loop : frame.
Lemma leaves_MinMeshId excluded : leaves pub_view (DPS_MinMeshId excluded).
Proof. unfold DPS_MinMeshId. leaves. Qed.
#[local] Hint Resolve leaves_MinMeshId : frame.
Lemma leaves_MeshHasLoop p u : leaves pub_view (MeshHasLoop p u).
Proof. unfold MeshHasLoop. leaves. Qed.

Lemma leaves_UpdateInboundInterests p i d b : leaves pub_view (UpdateInboundInterests p i d b).
Proof. unfold UpdateInboundInterests. leaves. Qed.
End Ops.

#[export] Hint Resolve leaves_alloc_ok leaves_malloc leaves_BitVectorAlloc leaves_BitVectorAllocFH
  leaves_FreeOutboundInterests leaves_ClearOutboundInterests leaves_ClearInboundInterests
  leaves_UpdateOutboundInterests leaves_RemoveRemoteNode leaves_InsertRemoteNode leaves_MuteRemoteNode
  leaves_LookupRemoteNode leaves_AddRemoteNode leaves_MinMeshId leaves_MeshHasLoop
  leaves_UpdateInboundInterests : frame.
