(* ===== verification/SubMsg.v ===== *)
(** * Subscription messages: sending ([src/sub.c])

    A SUB carries the interests of the node to a remote, a SAK acknowledges one
    and may carry interests back.  Both are an array of five items: the version,
    the type, the unprotected map and two empty maps. *)
From S2P Require Import Prelude Status Buffer Float Cbor BitVec Uuid Addr History Node Remote.
From stdpp Require Import gmap.
#[local] Open Scope Z_scope.

Definition DPS_CBOR_KEY_PORT : Z := 1.
Definition DPS_CBOR_KEY_SEQ_NUM : Z := 4.
Definition DPS_CBOR_KEY_SUB_FLAGS : Z := 7.
Definition DPS_CBOR_KEY_MESH_ID : Z := 8.
Definition DPS_CBOR_KEY_NEEDS : Z := 9.
Definition DPS_CBOR_KEY_INTERESTS : Z := 10.
Definition DPS_CBOR_KEY_ACK_SEQ_NUM : Z := 13.
Definition DPS_CBOR_KEY_PATH : Z := 14.

Definition DPS_SUB_FLAG_DELTA_IND : Z := 0x01.
Definition DPS_SUB_FLAG_SAK_REQ : Z := 0x02.
Definition DPS_SUB_FLAG_UNLINK_IND : Z := 0x04.
Definition DPS_SUB_FLAG_MUTE_IND : Z := 0x08.
Definition DPS_SUB_FLAG_UNMUTE_REQ : Z := 0x10.

(** ** The length announced *)

(** The port, or the path; [None] for the other types of addresses. *)
Definition listen_len (addr : DPS_NodeAddress) : option Z :=
  match addr_type addr with
  | DPS_DTLS | DPS_TCP | DPS_UDP => Some (CBOR_SIZEOF 2)
  | DPS_PIPE => Some (_CBOR_SizeOfString (Some (path addr)))
  | DPS_UNKNOWN => None
  end.

(** The array, the version and the type; the map with its flags, sequence
    numbers, mesh identifier and address; the vectors; the empty maps. *)
Definition message_len (numMapEntries seqNums listen vectors : Z) : Z :=
  CBOR_SIZEOF_LEN 5 + CBOR_SIZEOF 1 + CBOR_SIZEOF 1
  + (CBOR_SIZEOF_LEN numMapEntries + numMapEntries * CBOR_SIZEOF 1
     + CBOR_SIZEOF 1 + seqNums * CBOR_SIZEOF 4 + CBOR_SIZEOF_BYTES 16)
  + listen + vectors + (CBOR_SIZEOF_LEN 0 + CBOR_SIZEOF_LEN 0).

Definition vectors_len (interests : option DPS_BitVector) : Z :=
  match interests with
  | Some bv => DPS_BitVectorSerializeMaxSize bv + DPS_BitVectorSerializeFHSize
  | None => 0
  end.

(** ** The encoding *)

(** [if (ret == DPS_OK) { ret = encode(&buf, ..); }] *)
Definition on_ok (encode : DPS_TxBuffer -> option (DPS_Status * DPS_TxBuffer))
    (p : DPS_Status * DPS_TxBuffer) : option (DPS_Status * DPS_TxBuffer) :=
  if is_OK p.1 then encode p.2 else Some p.

(** [CBOR_EncodeUint8], [CBOR_EncodeUint16] and [CBOR_EncodeUint32] of a key and
    its value. *)
Definition encode_key (key : Z) (p : DPS_Status * DPS_TxBuffer) :=
  on_ok (fun b => CBOR_EncodeUint b key) p.
Definition encode_uint (key n : Z) (p : DPS_Status * DPS_TxBuffer) :=
  p ← encode_key key p; on_ok (fun b => CBOR_EncodeUint b n) p.

Definition encode_port (addr : DPS_NodeAddress) (p : DPS_Status * DPS_TxBuffer) :=
  match addr_type addr with
  | DPS_DTLS | DPS_TCP | DPS_UDP => encode_uint DPS_CBOR_KEY_PORT (DPS_NetAddrPort (inaddr addr)) p
  | _ => Some p
  end.

Definition encode_path (addr : DPS_NodeAddress) (p : DPS_Status * DPS_TxBuffer) :=
  match addr_type addr with
  | DPS_PIPE =>
      p ← encode_key DPS_CBOR_KEY_PATH p; on_ok (fun b => CBOR_EncodeString b (Some (path addr))) p
  | _ => Some p
  end.

(** [outbound.needs], and [interests] with the count that the encoder caches in it. *)
Definition encode_vectors (needs : option DPS_BitVector) (interests : DPS_BitVector)
    (p : DPS_Status * DPS_TxBuffer) : option (DPS_Status * DPS_TxBuffer * DPS_BitVector) :=
  p ← encode_key DPS_CBOR_KEY_NEEDS p;
  p ← on_ok (fun b => needs ← needs; DPS_BitVectorSerializeFH needs b) p;
  p ← encode_key DPS_CBOR_KEY_INTERESTS p;
  if is_OK p.1 then
    '(ret, interests, b) ← DPS_BitVectorSerialize interests p.2; Some (ret, b, interests)
  else Some (p, interests).

(** From [CBOR_EncodeArray] to the last empty map.  [interests] is [None] when the
    message has none, [ack] the revision that a SAK acknowledges. *)
Definition encode_message (msgType numMapEntries : Z) (addr : DPS_NodeAddress) (revision flags : Z)
    (meshId : DPS_UUID) (needs interests : option DPS_BitVector) (ack : option Z)
    (p : DPS_Status * DPS_TxBuffer) : option (DPS_Status * DPS_TxBuffer * option DPS_BitVector) :=
  p ← on_ok (fun b => CBOR_EncodeArray b 5) p;
  p ← on_ok (fun b => CBOR_EncodeUint b DPS_MSG_VERSION) p;
  p ← on_ok (fun b => CBOR_EncodeUint b msgType) p;
  p ← on_ok (fun b => CBOR_EncodeMap b numMapEntries) p;
  p ← encode_port addr p;
  p ← encode_uint DPS_CBOR_KEY_SEQ_NUM revision p;
  p ← encode_uint DPS_CBOR_KEY_SUB_FLAGS flags p;
  p ← encode_key DPS_CBOR_KEY_MESH_ID p;
  p ← on_ok (fun b => CBOR_EncodeUUID b (uuid_val meshId)) p;
  '(p, interests) ←
    (match interests with
     | Some bv => '(p, bv) ← encode_vectors needs bv p; Some (p, Some bv)
     | None => Some (p, None)
     end);
  p ← (match ack with Some n => encode_uint DPS_CBOR_KEY_ACK_SEQ_NUM n p | None => Some p end);
  p ← encode_path addr p;
  p ← on_ok (fun b => CBOR_EncodeMap b 0) p;
  p ← on_ok (fun b => CBOR_EncodeMap b 0) p;
  Some (p, interests).

Section Send.
Context `{Env : Environment}.

(** [deltaInd ? delta : interests]; a null pointer is dereferenced. *)
Definition announced (o : Outbound) : option DPS_BitVector :=
  if deltaInd o then out_delta o else out_interests o.
Definition set_announced (bv : DPS_BitVector) (o : Outbound) : Outbound :=
  if deltaInd o then o <| out_delta := Some bv |> else o <| out_interests := Some bv |>.

(** [DPS_TxBufferInit] and the encoding of a message to a remote: the status and
    the bytes written. *)
Definition build_message (remote : ptr) (msgType numMapEntries flags listen : Z)
    (withInterests : bool) (ack : option Z) : M (DPS_Status * list Z) :=
  r ← load n_remotes remote;
  addr ← gets n_addr;
  interests ← (if withInterests then bv ← lift (announced (outbound r)); mret (Some bv) else mret None);
  let len := Z.to_nat (message_len numMapEntries (match ack with Some _ => 2 | None => 1 end)
                         listen (vectors_len interests)) in
  m ← malloc;
  meshId ← DPS_MinMeshId (Some remote);
  '(ret, buf, interests) ← lift (encode_message msgType numMapEntries addr (out_revision (outbound r))
      flags meshId (out_needs (outbound r)) interests ack (DPS_TxBufferInit None (m len) len));
  _ ← (match interests with
       | Some bv => upd_outbound remote (set_announced bv)
       | None => mret ()
       end);
  mret (ret, tx_written buf).

(** [flags] of a SUB, and of a SAK that asks for one or not; [r] is the remote at
    the beginning. *)
Definition sub_flags (r : RemoteNode) : Z :=
  if bool_decide (r_state r = REMOTE_UNLINKING) then DPS_SUB_FLAG_SAK_REQ .| DPS_SUB_FLAG_UNLINK_IND
  else DPS_SUB_FLAG_SAK_REQ
       .| (if deltaInd (outbound r) then DPS_SUB_FLAG_DELTA_IND else 0)
       .| (if bool_decide (r_state r = REMOTE_UNMUTING) then DPS_SUB_FLAG_UNMUTE_REQ else 0).
Definition sak_flags (r : RemoteNode) (sakReq : bool) : Z :=
  (if deltaInd (outbound r) then DPS_SUB_FLAG_DELTA_IND else 0)
  .| (if bool_decide (r_state r = REMOTE_UNLINKING) then DPS_SUB_FLAG_UNLINK_IND else 0)
  .| (if bool_decide (r_state r = REMOTE_MUTED) then DPS_SUB_FLAG_MUTE_IND else 0)
  .| (if sakReq then DPS_SUB_FLAG_SAK_REQ else 0).

(** A SAK is now awaited. *)
Definition await_sak (msgType : Z) (o : Outbound) : Outbound :=
  (if sakPending o then o else o <| sakPending := true |> <| sakCounter := 0 |>)
    <| lastSubMsgType := msgType |>.

Definition DPS_SendSubscription (remote : ptr) : M DPS_Status :=
  r ← load n_remotes remote;
  let unlinking := bool_decide (r_state r = REMOTE_UNLINKING) in
  _ ← assert (negb (bool_decide (r_state r = REMOTE_MUTED)));
  netCtx ← gets n_netCtx;
  if negb netCtx then mret DPS_ERR_NETWORK else
  addr ← gets n_addr;
  match listen_len addr with
  | None => mret DPS_ERR_INVALID
  | Some listen =>
      '(ret, bytes) ← build_message remote DPS_MSG_TYPE_SUB (if unlinking then 4 else 6) (sub_flags r)
                        listen (negb unlinking) None;
      if negb (is_OK ret) then mret ret else
      ret ← DPS_NetSend (ep r) bytes;
      if is_OK ret then
        _ ← upd_outbound remote (await_sak DPS_MSG_TYPE_SUB); mret ret
      else
        _ ← upd_outbound remote (fun o => o <| sakPending := false |> <| lastSubMsgType := 0 |>);
        _ ← DPS_SendComplete (Some (ep_addr (ep r))) ret;
        mret ret
  end.

Definition DPS_SendSubscriptionAck (remote : ptr) (collision : bool) : M DPS_Status :=
  netCtx ← gets n_netCtx;
  if negb netCtx then mret DPS_ERR_NETWORK else
  r ← load n_remotes remote;
  _ ← when (bool_decide (r_state r = REMOTE_UNMUTING))
        (_ ← update n_remotes remote (fun r => r <| r_state := REMOTE_ACTIVE |>);
         upd_outbound remote (fun o => o <| sendInterests := true |>));
  r' ← load n_remotes remote;
  let sakReq := negb collision && sendInterests (outbound r') in
  addr ← gets n_addr;
  match listen_len addr with
  | None => mret DPS_ERR_INVALID
  | Some listen =>
      '(ret, bytes) ← build_message remote DPS_MSG_TYPE_SAK (if sakReq then 7 else 5) (sak_flags r sakReq)
                        listen sakReq (Some (in_revision (inbound r)));
      if negb (is_OK ret) then mret ret else
      ret ← DPS_NetSend (ep r) bytes;
      if is_OK ret then
        _ ← upd_outbound remote (fun o =>
              if sakReq then await_sak DPS_MSG_TYPE_SAK o
              else o <| lastSubMsgType := 0 |> <| sakPending := false |>);
        mret ret
      else
        _ ← upd_outbound remote (fun o => o <| sakPending := false |>);
        _ ← DPS_SendComplete (Some (ep_addr (ep r))) ret;
        mret ret
  end.

End Send.
