(* ===== verification/SubMsgProofs.v ===== *)
(** * What a subscription message contains ([src/sub.c])

    The bytes of a SUB or a SAK are a CBOR array whose third item is a map with
    ascending keys, and always fit in the buffer whose size the code computes. *)
From S2P Require Import Prelude Status Buffer Float Cbor CborProofs CborValues CborMap.
From S2P Require Import BitVec BitVecProofs BitVecSerial CountVec Uuid Addr History Node Remote RemoteProofs SubMsg.
From stdpp Require Import gmap.
#[local] Open Scope Z_scope.
#[local] Set Warnings "-clear-no-such-hyp".

(** ** The entries of the map *)

Definition port_entries (addr : DPS_NodeAddress) : list (Z * cbor) :=
  match addr_type addr with
  | DPS_DTLS | DPS_TCP | DPS_UDP => [(DPS_CBOR_KEY_PORT, CInt (DPS_NetAddrPort (inaddr addr)))]
  | _ => []
  end.
Definition path_entries (addr : DPS_NodeAddress) : list (Z * cbor) :=
  match addr_type addr with
  | DPS_PIPE => [(DPS_CBOR_KEY_PATH, CString (path addr))]
  | _ => []
  end.

(** The vectors as they are on the wire: the needs in full, the interests after
    the flags of their encoding. *)
Record wire_vectors := mkWV { wv_needs : list Z; wv_flags : Z; wv_len : Z; wv_payload : list Z }.

Definition vector_entries (v : option wire_vectors) : list (Z * cbor) :=
  match v with
  | Some v =>
      [(DPS_CBOR_KEY_NEEDS, CBytes (bytes_of_chunks (wv_needs v)));
       (DPS_CBOR_KEY_INTERESTS, CArray [CInt (wv_flags v); CInt (wv_len v); CBytes (wv_payload v)])]
  | None => []
  end.

Definition message_entries (addr : DPS_NodeAddress) (revision flags : Z) (meshId : DPS_UUID)
    (v : option wire_vectors) (ack : option Z) : list (Z * cbor) :=
  port_entries addr
  ++ [(DPS_CBOR_KEY_SEQ_NUM, CInt revision); (DPS_CBOR_KEY_SUB_FLAGS, CInt flags);
      (DPS_CBOR_KEY_MESH_ID, CBytes (uuid_val meshId))]
  ++ vector_entries v
  ++ (match ack with Some n => [(DPS_CBOR_KEY_ACK_SEQ_NUM, CInt n)] | None => [] end)
  ++ path_entries addr.

Definition message_wire (msgType : Z) (es : list (Z * cbor)) : list Z :=
  cbor_head CBOR_ARRAY 5 ++ cbor_head CBOR_UINT DPS_MSG_VERSION ++ cbor_head CBOR_UINT msgType
  ++ cbor_head CBOR_MAP (Z.of_nat (length es)) ++ ewire es
  ++ cbor_head CBOR_MAP 0 ++ cbor_head CBOR_MAP 0.

(** ** The writer *)

(** Everything went well, and [w] was written to a buffer of [L] bytes. *)
Record wrote (L : nat) (w : list Z) (p : DPS_Status * DPS_TxBuffer) : Prop := {
  wr_ok : p.1 = DPS_OK;
  wr_wf : tx_wf p.2;
  wr_length : length (tx_mem p.2) = L;
  wr_written : tx_written p.2 = w
}.

Lemma wrote_pos L w p : wrote L w p -> tx_pos p.2 = length w.
Proof.
  intros [_ [H _] _ <-]. unfold tx_written. rewrite length_take. lia.
Qed.

Lemma wrote_fits L w p k : wrote L w p -> (length w + k <= L)%nat -> tx_fits p.2 k.
Proof. intros H. pose proof (wrote_pos _ _ _ H). destruct H. unfold tx_fits. lia. Qed.

(** One step of the chain: an encoder that appends [bs]. *)
Lemma wrote_bind {X} L w p bs f (k : DPS_Status * DPS_TxBuffer -> option X) (Q : X -> Prop) :
  wrote L w p -> (forall b, tx_wf b -> enc_spec b bs (f b)) -> Forall is_byte bs ->
  (length w + length bs <= L)%nat ->
  (forall p', wrote L (w ++ bs) p' -> exists x, k p' = Some x /\ Q x) ->
  exists x, (p ← on_ok f p; k p) = Some x /\ Q x.
Proof.
  intros H Hf Hb Hl Hk. pose proof (wrote_fits _ _ _ _ H Hl) as Hfit. destruct H as [H1 H2 H3 H4].
  unfold on_ok. rewrite H1. change (is_OK DPS_OK) with true. cbv iota.
  rewrite (enc_spec_ok _ _ _ (Hf _ H2) Hfit). cbn [mbind option_bind]. apply Hk. split; cbn.
  - done.
  - by apply tx_app_wf.
  - pose proof (tx_app_length p.2 bs Hfit) as E. cbn in *. congruence.
  - pose proof (tx_app_written p.2 bs H2) as E. cbn in *. congruence.
Qed.

Lemma head_len8 maj n : 0 <= n < 256 -> (length (cbor_head maj n) <= 2)%nat.
Proof.
  intros Hn. pose proof (cbor_head_sizeof maj n) as H.
  unfold CBOR_SIZEOF_LEN, UINT8_MAX in H. revert H. repeat case_if; bools; lia.
Qed.
Lemma head_len16 maj n : 0 <= n < 65536 -> (length (cbor_head maj n) <= 3)%nat.
Proof.
  intros Hn. pose proof (cbor_head_sizeof maj n) as H.
  unfold CBOR_SIZEOF_LEN, UINT8_MAX, UINT16_MAX in H. revert H. repeat case_if; bools; lia.
Qed.
Lemma head_len32 maj n : 0 <= n < 2 ^ 32 -> (length (cbor_head maj n) <= 5)%nat.
Proof.
  intros Hn. pose proof (cbor_head_sizeof maj n) as H.
  unfold CBOR_SIZEOF_LEN, UINT8_MAX, UINT16_MAX, UINT32_MAX in H. revert H. repeat case_if; bools; lia.
Qed.
Lemma head_len1 maj n : 0 <= n < 24 -> length (cbor_head maj n) = 1%nat.
Proof.
  intros Hn. pose proof (cbor_head_sizeof maj n) as H. unfold CBOR_SIZEOF_LEN in H.
  rewrite (proj2 (Z.ltb_lt n 24)) in H by lia. lia.
Qed.

Lemma cbor_int_pos n : 0 <= n -> cbor_int n = cbor_head CBOR_UINT n.
Proof. intros H. unfold cbor_int. by rewrite (proj2 (Z.geb_le n 0)). Qed.

Section Steps.
Context {X : Type} (L : nat) (Q : X -> Prop).
Implicit Types (k : DPS_Status * DPS_TxBuffer -> option X).

(** A head: an unsigned integer, an array or a map. *)
Lemma wrote_head w p maj n k :
  wrote L w p -> is_major maj -> 0 <= n < 2 ^ 32 -> (length w + length (cbor_head maj n) <= L)%nat ->
  (forall p', wrote L (w ++ cbor_head maj n) p' -> exists x, k p' = Some x /\ Q x) ->
  exists x, (p ← on_ok (fun b => EncodeUint b n maj) p; k p) = Some x /\ Q x.
Proof.
  intros H Hm Hn Hl Hk. eapply wrote_bind; [exact H| | |exact Hl|exact Hk].
  - intros b Hb. apply EncodeUint_enc; [done|done|lia].
  - apply cbor_head_bytes; [done|lia].
Qed.

Lemma wrote_key w p key k :
  wrote L w p -> 0 <= key < 24 -> (length w + 1 <= L)%nat ->
  (forall p', wrote L (w ++ cbor_int key) p' -> exists x, k p' = Some x /\ Q x) ->
  exists x, (p ← encode_key key p; k p) = Some x /\ Q x.
Proof.
  intros H Hk Hl Hc. rewrite cbor_int_pos in Hc by lia.
  eapply (wrote_head w p CBOR_UINT key k); [done|major|lia|rewrite head_len1 by lia; lia|done].
Qed.

Lemma wrote_uint w p key n k :
  wrote L w p -> 0 <= key < 24 -> 0 <= n < 2 ^ 32 ->
  (length w + 1 + length (cbor_head CBOR_UINT n) <= L)%nat ->
  (forall p', wrote L (w ++ ewire [(key, CInt n)]) p' -> exists x, k p' = Some x /\ Q x) ->
  exists x, (p ← encode_uint key n p; k p) = Some x /\ Q x.
Proof.
  intros H Hk Hn Hl Hc. unfold encode_uint.
  assert (length (cbor_int key) = 1%nat) as Hk1 by (rewrite cbor_int_pos, head_len1 by lia; done).
  destruct (wrote_key w p key (fun p' => p'' ← on_ok (fun b => CBOR_EncodeUint b n) p'; k p'') H Hk)
    as (x & E & HQ); [lia| |exists x; split; [|done]].
  - intros p' H'. eapply (wrote_head _ p' CBOR_UINT n); [done|major|lia|rewrite length_app; lia|].
    intros p'' H''. apply Hc. unfold ewire. cbn [flat_map fst snd wire].
    by rewrite app_nil_r, (cbor_int_pos n), app_assoc by lia.
  - rewrite <- E. unfold encode_key. by destruct (on_ok _ p).
Qed.
End Steps.

(** ** The listening address *)

Definition sendable (addr : DPS_NodeAddress) : Prop :=
  match addr_type addr with
  | DPS_DTLS | DPS_TCP | DPS_UDP => 0 <= sin_port (inaddr addr) < 65536
  | DPS_PIPE => (length (path addr) < 108)%nat /\ Forall is_byte (path addr)
  | DPS_UNKNOWN => False
  end.

#[export] Instance sendable_dec addr : Decision (sendable addr).
Proof. unfold sendable. destruct (addr_type addr); apply _. Defined.

Lemma ntohs_range x : 0 <= x < 65536 -> 0 <= ntohs x < 65536.
Proof.
  intros H. unfold ntohs. apply (lor_range _ _ 16); [lia| |].
  - unfold u16. apply Z.mod_pos_bound. lia.
  - rewrite Z.shiftr_div_pow2 by lia. split; [apply Z.div_pos; lia|apply Z.div_lt_upper_bound; lia].
Qed.

Lemma ewire_app es1 es2 : ewire (es1 ++ es2) = ewire es1 ++ ewire es2.
Proof. apply flat_map_app. Qed.

Lemma ewire_one key v : ewire [(key, v)] = cbor_int key ++ wire v.
Proof. cbn. by rewrite app_nil_r. Qed.

Lemma length_key key : 0 <= key < 24 -> length (cbor_int key) = 1%nat.
Proof. intros H. rewrite cbor_int_pos by lia. by apply head_len1. Qed.

Lemma length_uint_entry key n :
  0 <= key < 24 -> 0 <= n -> length (ewire [(key, CInt n)]) = S (length (cbor_head CBOR_UINT n)).
Proof. intros. rewrite ewire_one. cbn [wire]. by rewrite length_app, length_key, (cbor_int_pos n). Qed.

Section Address.
Context (addr : DPS_NodeAddress) (listen : Z).
Context (Hs : sendable addr) (Hl : listen_len addr = Some listen).

(** The bytes of the address are within what was announced for them. *)
Lemma address_length :
  Z.of_nat (length (ewire (port_entries addr)) + length (ewire (path_entries addr))) <= 1 + listen /\
  length (port_entries addr ++ path_entries addr) = 1%nat.
Proof using Hs Hl.
  assert (Hp : 0 <= sin_port (inaddr addr) < 65536 ->
    (length (ewire [(DPS_CBOR_KEY_PORT, CInt (DPS_NetAddrPort (inaddr addr)))]) <= 4)%nat).
  { intros H%ntohs_range. rewrite length_uint_entry by (unfold DPS_CBOR_KEY_PORT, DPS_NetAddrPort; lia).
    pose proof (head_len16 CBOR_UINT _ H). unfold DPS_NetAddrPort. lia. }
  unfold sendable, listen_len, port_entries, path_entries in *.
  destruct (addr_type addr); [done| | | |]; injection Hl as <-;
    try (specialize (Hp Hs); split; [|done]; unfold CBOR_SIZEOF; cbn [length ewire flat_map] in *; lia).
  split; [|done]. destruct Hs as [Hn _]. rewrite ewire_one. cbn [wire]. rewrite !length_app.
  rewrite length_key by (unfold DPS_CBOR_KEY_PATH; lia).
  unfold _CBOR_SizeOfString, strnlen_s, CBOR_MAX_STRING_LEN. rewrite Z.min_l by lia.
  rewrite <- (cbor_head_sizeof CBOR_STRING). cbn [ewire flat_map length]. lia.
Qed.

Context {X : Type} (L : nat) (Q : X -> Prop).
Implicit Types (k : DPS_Status * DPS_TxBuffer -> option X).

Lemma wrote_port w p k :
  wrote L w p -> (length w + length (ewire (port_entries addr)) <= L)%nat ->
  (forall p', wrote L (w ++ ewire (port_entries addr)) p' -> exists x, k p' = Some x /\ Q x) ->
  exists x, (p ← encode_port addr p; k p) = Some x /\ Q x.
Proof using Hs.
  unfold sendable, encode_port, port_entries in *. intros H Hfit Hk.
  destruct (addr_type addr); [done| | | |by apply Hk; rewrite app_nil_r].
  all: apply ntohs_range in Hs; revert Hfit Hk; change (ntohs _) with (DPS_NetAddrPort (inaddr addr)) in Hs;
    rewrite length_uint_entry by (unfold DPS_CBOR_KEY_PORT; lia); intros;
    eapply wrote_uint; eauto; unfold DPS_CBOR_KEY_PORT; lia.
Qed.

Lemma wrote_path w p k :
  wrote L w p -> (length w + length (ewire (path_entries addr)) <= L)%nat ->
  (forall p', wrote L (w ++ ewire (path_entries addr)) p' -> exists x, k p' = Some x /\ Q x) ->
  exists x, (p ← encode_path addr p; k p) = Some x /\ Q x.
Proof using Hs.
  unfold sendable, encode_path, path_entries in *. intros H Hfit Hk.
  destruct (addr_type addr); [done|by apply Hk; rewrite app_nil_r..|].
  rewrite ewire_one in *. cbn [wire] in *. rewrite !length_app in Hfit.
  rewrite length_key in Hfit by (unfold DPS_CBOR_KEY_PATH; lia).
  destruct (wrote_key L Q w p DPS_CBOR_KEY_PATH
    (fun p' => p'' ← on_ok (fun b => CBOR_EncodeString b (Some (path addr))) p'; k p'') H)
    as (x & E & HQ); [unfold DPS_CBOR_KEY_PATH; lia|lia| |exists x; split; [|done]].
  - intros p' H'. destruct Hs as [Hn Hb]. eapply wrote_bind; [exact H'| | | |].
    + intros b Hb'. apply CBOR_EncodeString_enc; [done|unfold CBOR_MAX_STRING_LEN; lia].
    + apply Forall_app_2; [apply cbor_head_bytes; [major|lia]|done].
    + rewrite !length_app, length_key by (unfold DPS_CBOR_KEY_PATH; lia). lia.
    + intros p'' H''. apply Hk. by rewrite <- !app_assoc in H''.
  - rewrite <- E. unfold encode_key. by destruct (on_ok _ p).
Qed.
End Address.

(** ** The vectors *)

Lemma SerializeFH_enc b bv :
  tx_wf b -> vec_wf FH_CHUNKS bv -> enc_spec b (wire (CBytes (bytes_of_chunks (bits bv)))) (DPS_BitVectorSerializeFH bv b).
Proof.
  intros Hb [Hwf Hk]. pose proof (bv_len _ Hwf) as Hl. rewrite Hk in Hl.
  unfold DPS_BitVectorSerializeFH. rewrite Hl. change (64 * Z.of_nat FH_CHUNKS =? FH_BITVECTOR_LEN) with true.
  cbn [c_assert mbind option_bind wire].
  replace (Z.to_nat (64 * Z.of_nat FH_CHUNKS / 8)) with (length (bytes_of_chunks (bits bv)))
    by (rewrite bytes_of_chunks_length, Hk; reflexivity).
  apply CBOR_EncodeBytes_enc; [done|]. rewrite bytes_of_chunks_length, Hk. done.
Qed.

Lemma wire_needs_length l : length l = FH_CHUNKS -> length (wire (CBytes (bytes_of_chunks l))) = 34%nat.
Proof.
  intros H. cbn [wire]. rewrite length_app, bytes_of_chunks_length, H. reflexivity.
Qed.

(** What [DPS_BitVectorSerialize] may write for a vector. *)
Record on_wire (nd iv : DPS_BitVector) (v : wire_vectors) : Prop := {
  ow_needs : wv_needs v = bits nd;
  ow_len : wv_len v = len iv;
  ow_flags : 0 <= wv_flags v < 4;
  ow_payload : bv_payload (wv_flags v) (bits iv) (wv_payload v);
  ow_length : Z.of_nat (length (wv_payload v)) <= len iv / 8
}.

Lemma ewire_vectors v :
  0 <= wv_flags v -> 0 <= wv_len v ->
  ewire (vector_entries (Some v)) =
    cbor_int DPS_CBOR_KEY_NEEDS ++ wire (CBytes (bytes_of_chunks (wv_needs v)))
    ++ cbor_int DPS_CBOR_KEY_INTERESTS ++ bv_wire (wv_flags v) (wv_len v) (wv_payload v).
Proof.
  intros Hf Hl. cbn [ewire vector_entries flat_map fst snd]. unfold bv_wire. cbn [wire flat_map length].
  rewrite (cbor_int_pos (wv_flags v)), (cbor_int_pos (wv_len v)) by done.
  by rewrite !app_nil_r, <- !app_assoc.
Qed.

Lemma bv_wire_bound flags bv payload :
  0 <= flags < 4 -> 0 <= len bv <= 65535 -> Z.of_nat (length payload) <= len bv / 8 ->
  Z.of_nat (length (bv_wire flags (len bv) payload)) <= DPS_BitVectorSerializeMaxSize bv.
Proof.
  intros Hf Hl Hp. unfold bv_wire. rewrite !length_app.
  pose proof (head_len1 CBOR_ARRAY 3 ltac:(lia)). pose proof (head_len1 CBOR_UINT flags ltac:(lia)).
  pose proof (head_len16 CBOR_UINT (len bv) ltac:(lia)).
  pose proof (cbor_head_mono CBOR_BYTES _ _ Hp). pose proof (cbor_head_sizeof CBOR_BYTES (len bv / 8)).
  unfold DPS_BitVectorSerializeMaxSize, CBOR_SIZEOF, CBOR_SIZEOF_BYTES.
  change (CBOR_SIZEOF_LEN 3) with 1. lia.
Qed.

Lemma MaxSize_nonneg bv : 0 <= len bv -> 0 <= DPS_BitVectorSerializeMaxSize bv.
Proof.
  intros H. unfold DPS_BitVectorSerializeMaxSize, CBOR_SIZEOF, CBOR_SIZEOF_BYTES.
  rewrite <- (cbor_head_sizeof CBOR_ARRAY 3), <- (cbor_head_sizeof CBOR_BYTES (len bv / 8)).
  pose proof (Z.div_pos (len bv) 8). lia.
Qed.

Lemma on_wire_length nd iv v :
  on_wire nd iv v -> length (bits nd) = FH_CHUNKS -> 0 <= len iv <= 65535 ->
  Z.of_nat (length (ewire (vector_entries (Some v)))) <= 2 + vectors_len (Some iv).
Proof.
  intros [En El Hf Hp Hpl] Hk Hl. rewrite ewire_vectors by lia. rewrite !length_app, En, El.
  rewrite wire_needs_length, !length_key by (done || unfold DPS_CBOR_KEY_NEEDS, DPS_CBOR_KEY_INTERESTS; lia).
  pose proof (bv_wire_bound _ _ _ Hf Hl Hpl). unfold vectors_len.
  change DPS_BitVectorSerializeFHSize with 34. lia.
Qed.

Definition recounted_vec (bv : DPS_BitVector) : DPS_BitVector := set_popCount bv (chunks_count (bits bv)).

(** Its run-length code is longer than the vector, although the buffer has the size that
    [DPS_BitVectorSerializeMaxSize] asks for. *)
Definition overlong (bv : DPS_BitVector) : Prop :=
  exists b bv' b', tx_wf b /\ tx_fits b (Z.to_nat (DPS_BitVectorSerializeMaxSize bv)) /\
    DPS_BitVectorSerialize bv b = Some (DPS_ERR_OVERFLOW, bv', b').

Section WroteVectors.
Context {X : Type} (L nI : nat) (Q : X -> Prop).

Lemma wrote_vectors w p nd iv (k : DPS_Status * DPS_TxBuffer * DPS_BitVector -> option X) :
  wrote L w p -> vec_wf nI iv -> vec_wf FH_CHUNKS nd -> (0 < nI)%nat -> 64 * Z.of_nat nI <= 65535 ->
  (Z.of_nat (length w) + 2 + vectors_len (Some iv) <= Z.of_nat L) ->
  (forall v p', on_wire nd iv v -> wrote L (w ++ ewire (vector_entries (Some v))) p' ->
     exists x, k (p', recounted_vec iv) = Some x /\ Q x) ->
  (overlong iv -> forall b, exists x, k (DPS_ERR_OVERFLOW, b, recounted_vec iv) = Some x /\ Q x) ->
  exists x, (pv ← encode_vectors (Some nd) iv p; k pv) = Some x /\ Q x.
Proof.
  intros H Wi Wn Hn Hs Hfit Hk Hov. unfold encode_vectors. pose proof Wn as [_ Hnk].
  pose proof (vec_wf_len _ _ Wi) as Hl. unfold vectors_len in Hfit. change DPS_BitVectorSerializeFHSize with 34 in Hfit.
  pose proof (MaxSize_nonneg iv ltac:(lia)) as Hms.
  set (k2 := fun p : DPS_Status * DPS_TxBuffer =>
     pv ← (if is_OK p.1 then '(ret, interests, b) ← DPS_BitVectorSerialize iv p.2; Some (ret, b, interests)
           else Some (p, iv)); k pv).
  destruct (wrote_key L Q w p DPS_CBOR_KEY_NEEDS (fun p =>
     p ← on_ok (fun b => DPS_BitVectorSerializeFH nd b) p; p ← encode_key DPS_CBOR_KEY_INTERESTS p; k2 p) H)
    as (x & E & HQ); [unfold DPS_CBOR_KEY_NEEDS; lia|lia| |exists x; split; [|exact HQ]].
  - intros p1 H1. eapply wrote_bind; [exact H1| | | |].
    + intros b Hb. by apply SerializeFH_enc.
    + cbn [wire]. apply Forall_app_2; [apply cbor_head_bytes; [major|lia]|apply bytes_of_chunks_bytes].
    + rewrite wire_needs_length, length_app, length_key by (done || unfold DPS_CBOR_KEY_NEEDS; lia). lia.
    + intros p2 H2. eapply wrote_key; [exact H2|unfold DPS_CBOR_KEY_INTERESTS; lia| |].
      { rewrite !length_app, wire_needs_length, length_key by (done || unfold DPS_CBOR_KEY_NEEDS; lia). lia. }
      intros p3 H3. unfold k2. rewrite (wr_ok _ _ _ H3). change (is_OK DPS_OK) with true. cbv iota.
      assert (tx_fits p3.2 (Z.to_nat (DPS_BitVectorSerializeMaxSize iv))) as F3.
      { eapply wrote_fits; [exact H3|]. rewrite !length_app, wire_needs_length, !length_key
          by (done || unfold DPS_CBOR_KEY_NEEDS, DPS_CBOR_KEY_INTERESTS; lia). lia. }
      destruct (DPS_BitVectorSerialize_spec iv p3.2 ltac:(apply Wi) ltac:(lia) (wr_wf _ _ _ H3) F3)
        as (ret & b' & Es & Hlen & Hwf & [[-> _]|(-> & payload & HP & Hpl & Hw)]); rewrite Es;
        cbn [mbind option_bind].
      { apply Hov. exists p3.2, (recounted_vec iv), b'. split; [apply (wr_wf _ _ _ H3)|]. by split. }
      set (fl := serialize_flags _) in *.
      assert (0 <= fl < 4) as Hfl
        by (destruct (serialize_flags_cases (vector_load (chunks_count (bits iv)) (len iv))) as [E|[E|E]];
            fold fl in E; lia).
      apply (Hk (mkWV (bits nd) fl (len iv) payload) (DPS_OK, b')); [by constructor|].
      constructor; cbn [fst snd]; [done|by apply Hwf|rewrite Hlen; apply H3|].
      rewrite Hw, (wr_written _ _ _ H3), ewire_vectors by (cbn; lia). by rewrite <- !app_assoc.
  - rewrite <- E. unfold encode_key. destruct (on_ok _ p) as [p1|]; [|done]. cbn [mbind option_bind].
    destruct (on_ok _ p1) as [p2|]; [|done]. cbn [mbind option_bind]. by destruct (on_ok _ p2).
Qed.
End WroteVectors.

(** ** The message *)

Lemma uuid_val_wire u : wire (CBytes (uuid_val u)) = cbor_head CBOR_BYTES 16 ++ uuid_val u.
Proof. cbn [wire]. unfold uuid_val. by rewrite length_app, !le_bytes_length. Qed.

Lemma EncodeUUID_enc b u : tx_wf b -> enc_spec b (wire (CBytes (uuid_val u))) (CBOR_EncodeUUID b (uuid_val u)).
Proof.
  intros Hb. assert (length (uuid_val u) = 16%nat) as E by (unfold uuid_val; by rewrite length_app, !le_bytes_length).
  cbn [wire]. unfold CBOR_EncodeUUID. rewrite <- E. apply CBOR_EncodeBytes_enc; [done|rewrite E; done].
Qed.

Lemma uuid_val_bytes u : Forall is_byte (uuid_val u).
Proof. apply Forall_app_2; apply le_bytes_are_bytes. Qed.

Definition ack_len (ack : option Z) : Z := match ack with Some _ => 2 | None => 1 end.
Definition entries_count (interests : option DPS_BitVector) (ack : option Z) : Z :=
  4 + (match interests with Some _ => 2 | None => 0 end) + (ack_len ack - 1).

Section Message.
Context (nI : nat) (HnI : (0 < nI)%nat) (Hsmall : 64 * Z.of_nat nI <= 65535).
Context (addr : DPS_NodeAddress) (listen : Z) (Hs : sendable addr) (Hl : listen_len addr = Some listen).
Context (msgType revision flags : Z) (meshId : DPS_UUID) (nd : DPS_BitVector)
  (interests : option DPS_BitVector) (ack : option Z).
Context (Htype : 0 <= msgType < 24) (Hrev : uint32 revision) (Hflags : 0 <= flags < 24).
Context (Hnd : vec_wf FH_CHUNKS nd) (Hiv : forall iv, interests = Some iv -> vec_wf nI iv).
Context (Hack : forall n, ack = Some n -> uint32 n).

Definition vectors_on_wire (v : option wire_vectors) : Prop :=
  match interests, v with
  | Some iv, Some v => on_wire nd iv v
  | None, None => True
  | _, _ => False
  end.

(** Everything that may be written is within the announced length. *)
Lemma message_length v :
  vectors_on_wire v ->
  Z.of_nat (length (message_entries addr revision flags meshId v ack)) = entries_count interests ack /\
  Z.of_nat (length (ewire (message_entries addr revision flags meshId v ack))) + 7 <=
    message_len (entries_count interests ack) (ack_len ack) listen (vectors_len interests).
Proof using All.
  intros Hv. destruct (address_length addr listen Hs Hl) as [Ha Hc].
  assert (Z.of_nat (length (vector_entries v)) = (match interests with Some _ => 2 | None => 0 end) /\
          Z.of_nat (length (ewire (vector_entries v))) <= match interests with Some iv => 2 + vectors_len interests | None => 0 end) as [V1 V2].
  { unfold vectors_on_wire in Hv. destruct interests as [iv|], v as [v|]; try done. split; [done|].
    pose proof (vec_wf_len _ _ (Hiv iv eq_refl)). apply (on_wire_length nd iv v Hv); [apply Hnd|lia]. }
  assert (Z.of_nat (length (ewire (match ack with Some n => [(DPS_CBOR_KEY_ACK_SEQ_NUM, CInt n)] | None => [] end)))
          <= 6 * (ack_len ack - 1)) as A.
  { unfold ack_len. destruct ack as [n|]; [|done]. pose proof (Hack n eq_refl) as Hn.
    rewrite length_uint_entry by (unfold DPS_CBOR_KEY_ACK_SEQ_NUM, uint32 in *; lia).
    pose proof (head_len32 CBOR_UINT n Hn). lia. }
  unfold message_entries. rewrite !ewire_app, !length_app. rewrite length_app in Hc.
  assert (length (ewire [(DPS_CBOR_KEY_SEQ_NUM, CInt revision); (DPS_CBOR_KEY_SUB_FLAGS, CInt flags);
                         (DPS_CBOR_KEY_MESH_ID, CBytes (uuid_val meshId))]) <= 26)%nat as B.
  { change [?a; ?b; ?c] with ([a] ++ [b] ++ [c]). rewrite !ewire_app, !length_app.
    rewrite !length_uint_entry by (unfold DPS_CBOR_KEY_SEQ_NUM, DPS_CBOR_KEY_SUB_FLAGS, uint32 in *; lia).
    rewrite ewire_one, uuid_val_wire, !length_app, length_key by (unfold DPS_CBOR_KEY_MESH_ID; lia).
    unfold uuid_val. rewrite length_app, !le_bytes_length. change (length (cbor_head CBOR_BYTES 16)) with 1%nat.
    pose proof (head_len32 CBOR_UINT revision Hrev). pose proof (head_len1 CBOR_UINT flags Hflags). lia. }
  unfold entries_count, message_len, CBOR_SIZEOF, CBOR_SIZEOF_BYTES.
  assert (0 <= ack_len ack - 1) by (unfold ack_len; destruct ack; lia).
  assert (0 <= vectors_len interests).
  { destruct interests as [iv|]; [|done]. pose proof (vec_wf_len _ _ (Hiv iv eq_refl)).
    pose proof (MaxSize_nonneg iv). unfold vectors_len. change DPS_BitVectorSerializeFHSize with 34. lia. }
  split; [cbn [length]; destruct ack; unfold ack_len in *; cbn [length] in *; lia|].
  change (CBOR_SIZEOF_LEN 5) with 1. change (CBOR_SIZEOF_LEN 0) with 1. change (CBOR_SIZEOF_LEN 16) with 1.
  assert (forall n, 1 <= CBOR_SIZEOF_LEN n) as Hz by (intros n; unfold CBOR_SIZEOF_LEN; repeat case_if; lia).
  pose proof (Hz (4 + match interests with Some _ => 2 | None => 0 end + (ack_len ack - 1))).
  destruct interests; lia.
Qed.

(** The tail of the message, from the acknowledged revision on. *)
Lemma wrote_tail {X} L w p (k : DPS_Status * DPS_TxBuffer -> option X) (Q : X -> Prop) :
  wrote L w p ->
  let es := (match ack with Some n => [(DPS_CBOR_KEY_ACK_SEQ_NUM, CInt n)] | None => [] end) ++ path_entries addr in
  (length w + length (ewire es) + 2 <= L)%nat ->
  (forall p', wrote L (w ++ ewire es ++ cbor_head CBOR_MAP 0 ++ cbor_head CBOR_MAP 0) p' ->
     exists x, k p' = Some x /\ Q x) ->
  exists x, (p ← (match ack with Some n => encode_uint DPS_CBOR_KEY_ACK_SEQ_NUM n p | None => Some p end);
             p ← encode_path addr p;
             p ← on_ok (fun b => CBOR_EncodeMap b 0) p;
             p ← on_ok (fun b => CBOR_EncodeMap b 0) p; k p) = Some x /\ Q x.
Proof using All.
  intros H es Hfit Hk. unfold es in *. rewrite ewire_app, length_app in Hfit. rewrite ewire_app in Hk.
  set (ea := ewire (match ack with Some n => _ | None => [] end)) in *.
  assert (forall p', wrote L (w ++ ea) p' -> exists x, (p ← encode_path addr p';
    p ← on_ok (fun b => CBOR_EncodeMap b 0) p; p ← on_ok (fun b => CBOR_EncodeMap b 0) p; k p) = Some x /\ Q x) as Htail.
  { intros p1 H1. eapply wrote_path; [exact Hs|exact H1|rewrite length_app; lia|]. intros p2 H2.
    eapply (wrote_head L Q _ _ CBOR_MAP 0); [exact H2|major|lia|rewrite !length_app; change (length (cbor_head CBOR_MAP 0)) with 1%nat; lia|].
    intros p3 H3. eapply (wrote_head L Q _ _ CBOR_MAP 0); [exact H3|major|lia|rewrite !length_app; change (length (cbor_head CBOR_MAP 0)) with 1%nat; lia|].
    intros p4 H4. apply Hk. rewrite <- !app_assoc in *. exact H4. }
  destruct ack as [n|].
  - eapply wrote_uint; [exact H|unfold DPS_CBOR_KEY_ACK_SEQ_NUM; lia|by apply Hack| |exact Htail].
    unfold ea in Hfit. pose proof (Hack n eq_refl) as Hn. unfold uint32 in Hn.
    rewrite length_uint_entry in Hfit by (unfold DPS_CBOR_KEY_ACK_SEQ_NUM; lia). lia.
  - apply Htail. unfold ea. cbn. by rewrite app_nil_r.
Qed.

(** What the caller of the encoder gets: the whole message, or an overflow when
    the interests do not compress. *)
Definition encoded (x : DPS_Status * DPS_TxBuffer * option DPS_BitVector) : Prop :=
  x.2 = recounted_vec <$> interests /\
  (x.1.1 = DPS_ERR_OVERFLOW /\ (exists iv, interests = Some iv /\ overlong iv) \/
   x.1.1 = DPS_OK /\ tx_wf x.1.2 /\ exists v, vectors_on_wire v /\
     tx_written x.1.2 = message_wire msgType (message_entries addr revision flags meshId v ack)).

(** The head of the message: everything before the vectors. *)
Definition head_wire : list Z :=
  cbor_head CBOR_ARRAY 5 ++ cbor_head CBOR_UINT DPS_MSG_VERSION ++ cbor_head CBOR_UINT msgType
  ++ cbor_head CBOR_MAP (entries_count interests ack)
  ++ ewire (port_entries addr ++ [(DPS_CBOR_KEY_SEQ_NUM, CInt revision); (DPS_CBOR_KEY_SUB_FLAGS, CInt flags);
             (DPS_CBOR_KEY_MESH_ID, CBytes (uuid_val meshId))]).

Lemma head_wire_length :
  Z.of_nat (length head_wire) <= 29 + 1 + Z.of_nat (length (ewire (port_entries addr))).
Proof using All.
  unfold head_wire. rewrite ewire_app, !length_app.
  change (ewire [?a; ?b; ?c]) with (ewire ([a] ++ [b] ++ [c])). rewrite !ewire_app, !length_app.
  rewrite !length_uint_entry by (unfold DPS_CBOR_KEY_SEQ_NUM, DPS_CBOR_KEY_SUB_FLAGS, uint32 in *; lia).
  rewrite ewire_one, uuid_val_wire, !length_app, length_key by (unfold DPS_CBOR_KEY_MESH_ID; lia).
  unfold uuid_val. rewrite length_app, !le_bytes_length. change (length (cbor_head CBOR_BYTES 16)) with 1%nat.
  pose proof (head_len32 CBOR_UINT revision Hrev). pose proof (head_len1 CBOR_UINT flags Hflags).
  pose proof (head_len1 CBOR_UINT msgType Htype).
  change (length (cbor_head CBOR_ARRAY 5)) with 1%nat. change (length (cbor_head CBOR_UINT DPS_MSG_VERSION)) with 1%nat.
  assert (length (cbor_head CBOR_MAP (entries_count interests ack)) = 1%nat) as ->.
  { apply head_len1. unfold entries_count, ack_len. destruct interests, ack; lia. }
  lia.
Qed.

(** [head_wire], piece by piece. *)
Lemma head_wire_pieces :
  head_wire = ((((((((cbor_head CBOR_ARRAY 5 ++ cbor_head CBOR_UINT DPS_MSG_VERSION) ++ cbor_head CBOR_UINT msgType)
    ++ cbor_head CBOR_MAP (entries_count interests ack)) ++ ewire (port_entries addr))
    ++ ewire [(DPS_CBOR_KEY_SEQ_NUM, CInt revision)]) ++ ewire [(DPS_CBOR_KEY_SUB_FLAGS, CInt flags)])
    ++ cbor_int DPS_CBOR_KEY_MESH_ID) ++ wire (CBytes (uuid_val meshId))).
Proof using All.
  unfold head_wire. rewrite ewire_app. change (ewire [?a; ?b; ?c]) with (ewire ([a] ++ [b] ++ [c])).
  rewrite !ewire_app, (ewire_one DPS_CBOR_KEY_MESH_ID). by rewrite <- !app_assoc.
Qed.

(** From the array to the mesh identifier. *)
Lemma wrote_header {X} L p (k : DPS_Status * DPS_TxBuffer -> option X) (Q : X -> Prop) :
  wrote L [] p -> (length head_wire <= L)%nat ->
  (forall p', wrote L head_wire p' -> exists x, k p' = Some x /\ Q x) ->
  exists x, (p ← on_ok (fun b => CBOR_EncodeArray b 5) p;
    p ← on_ok (fun b => CBOR_EncodeUint b DPS_MSG_VERSION) p;
    p ← on_ok (fun b => CBOR_EncodeUint b msgType) p;
    p ← on_ok (fun b => CBOR_EncodeMap b (entries_count interests ack)) p;
    p ← encode_port addr p;
    p ← encode_uint DPS_CBOR_KEY_SEQ_NUM revision p;
    p ← encode_uint DPS_CBOR_KEY_SUB_FLAGS flags p;
    p ← encode_key DPS_CBOR_KEY_MESH_ID p;
    p ← on_ok (fun b => CBOR_EncodeUUID b (uuid_val meshId)) p; k p) = Some x /\ Q x.
Proof using All.
  intros H0 HL Hk. rewrite head_wire_pieces in HL, Hk. rewrite !length_app in HL.
  assert (0 < entries_count interests ack < 24) as Hc
    by (unfold entries_count, ack_len; destruct interests, ack; lia).
  assert (length (cbor_int DPS_CBOR_KEY_MESH_ID) = 1)%nat as Hm by reflexivity.
  assert (length (ewire [(DPS_CBOR_KEY_SEQ_NUM, CInt revision)]) = S (length (cbor_head CBOR_UINT revision))) as Hr
    by (apply length_uint_entry; unfold DPS_CBOR_KEY_SEQ_NUM, uint32 in *; lia).
  assert (length (ewire [(DPS_CBOR_KEY_SUB_FLAGS, CInt flags)]) = S (length (cbor_head CBOR_UINT flags))) as Hf
    by (apply length_uint_entry; unfold DPS_CBOR_KEY_SUB_FLAGS, uint32 in *; lia).
  assert (u32 (entries_count interests ack) = entries_count interests ack) as Hu by (apply u32_small; lia).
  unfold CBOR_EncodeMap at 1. rewrite Hu.
  eapply (wrote_head L Q _ _ CBOR_ARRAY 5); [exact H0|major|lia|change (0 + length (cbor_head CBOR_ARRAY 5) <= L)%nat; lia|cbn [app]]. intros p1 H1.
  eapply (wrote_head L Q _ _ CBOR_UINT DPS_MSG_VERSION); [exact H1|major|unfold DPS_MSG_VERSION; lia|lia|]. intros p2 H2.
  eapply (wrote_head L Q _ _ CBOR_UINT msgType); [exact H2|major|lia|rewrite !length_app; lia|]. intros p3 H3.
  eapply (wrote_head L Q _ _ CBOR_MAP); [exact H3|major|lia|rewrite !length_app; lia|]. intros p4 H4.
  eapply wrote_port; [exact Hs|exact H4|rewrite !length_app; lia|]. intros p5 H5.
  eapply wrote_uint; [exact H5|unfold DPS_CBOR_KEY_SEQ_NUM; lia|exact Hrev|rewrite !length_app; lia|]. intros p6 H6.
  eapply wrote_uint; [exact H6|unfold DPS_CBOR_KEY_SUB_FLAGS; lia|lia|rewrite !length_app; lia|]. intros p7 H7.
  eapply wrote_key; [exact H7|unfold DPS_CBOR_KEY_MESH_ID; lia|rewrite !length_app; lia|]. intros p8 H8.
  eapply wrote_bind; [exact H8|intros b Hb; by apply EncodeUUID_enc| |rewrite !length_app; lia|exact Hk].
  rewrite uuid_val_wire. apply Forall_app_2; [apply cbor_head_bytes; [major|lia]|apply uuid_val_bytes].
Qed.

Lemma head_lengths :
  length (cbor_head CBOR_ARRAY 5) = 1%nat /\ length (cbor_head CBOR_UINT DPS_MSG_VERSION) = 1%nat /\
  length (cbor_head CBOR_UINT msgType) = 1%nat /\ length (cbor_head CBOR_MAP (entries_count interests ack)) = 1%nat.
Proof using All.
  split_and!; [done|done|by apply head_len1|]. apply head_len1.
  unfold entries_count, ack_len. destruct interests, ack; lia.
Qed.

Lemma encode_message_spec p :
  wrote (Z.to_nat (message_len (entries_count interests ack) (ack_len ack) listen (vectors_len interests))) [] p ->
  exists x, encode_message msgType (entries_count interests ack) addr revision flags meshId (Some nd) interests ack p
    = Some x /\ encoded x.
Proof using All.
  set (L := Z.to_nat _). intros H0. unfold encode_message.
  destruct (address_length addr listen Hs Hl) as [Ha _]. pose proof head_wire_length as Hhl.
  assert (0 <= vectors_len interests) as Hvl.
  { destruct interests as [iv|]; [|done]. pose proof (vec_wf_len _ _ (Hiv iv eq_refl)).
    pose proof (MaxSize_nonneg iv). unfold vectors_len. change DPS_BitVectorSerializeFHSize with 34. lia. }
  assert (40 + listen + vectors_len interests + (match interests with Some _ => 4 | None => 0 end) <= Z.of_nat L) as HL.
  { unfold L, message_len, entries_count, ack_len, CBOR_SIZEOF, CBOR_SIZEOF_BYTES.
    change (CBOR_SIZEOF_LEN 5) with 1. change (CBOR_SIZEOF_LEN 0) with 1. change (CBOR_SIZEOF_LEN 16) with 1.
    assert (forall n, 1 <= CBOR_SIZEOF_LEN n) as Hz by (intros n; unfold CBOR_SIZEOF_LEN; repeat case_if; lia).
    match goal with |- context [CBOR_SIZEOF_LEN ?n] => pose proof (Hz n) end. destruct interests, ack; lia. }
  apply (wrote_header L); [exact H0|destruct interests; lia|]. intros p1 H1.
  assert (forall v w q iv', vectors_on_wire v -> w = head_wire ++ ewire (vector_entries v) -> wrote L w q ->
    iv' = recounted_vec <$> interests ->
    exists x, (p ← (match ack with Some n => encode_uint DPS_CBOR_KEY_ACK_SEQ_NUM n q | None => Some q end);
             p ← encode_path addr p;
             p ← on_ok (fun b => CBOR_EncodeMap b 0) p;
             p ← on_ok (fun b => CBOR_EncodeMap b 0) p; Some (p, iv')) = Some x /\ encoded x) as Htail.
  { intros v w q iv' Hv -> Hq ->. destruct (message_length v Hv) as [Hn Hlen].
    unfold message_entries in Hlen. rewrite (app_assoc (port_entries addr)), !ewire_app, !length_app in Hlen.
    unfold head_wire in Hq |- *. rewrite ewire_app in Hq.
    eapply wrote_tail; [exact Hq| |].
    - pose proof head_lengths as (E1 & E2 & E3 & E4). unfold L. rewrite !ewire_app, !length_app. lia.
    - intros p' H'. eexists. split; [done|]. split; [done|]. right. split; [apply H'|]. split; [apply H'|].
      exists v. split; [done|]. cbn [fst]. rewrite (wr_written _ _ _ H'). unfold message_wire. rewrite Hn.
      unfold message_entries. rewrite !ewire_app. by rewrite <- !app_assoc. }
  destruct interests as [iv|] eqn:Ei.
  - destruct (wrote_vectors L nI encoded head_wire p1 nd iv (fun pv =>
        '(p, interests) ← (let '(p, bv) := pv in Some (p, Some bv));
        p ← (match ack with Some n => encode_uint DPS_CBOR_KEY_ACK_SEQ_NUM n p | None => Some p end);
        p ← encode_path addr p;
        p ← on_ok (fun b => CBOR_EncodeMap b 0) p;
        p ← on_ok (fun b => CBOR_EncodeMap b 0) p; Some (p, interests))) as (x & E & HQ); try done.
    + by apply Hiv.
    + lia.
    + intros v p2 Hv H2. eapply (Htail (Some v)); [|reflexivity|exact H2|done]. unfold vectors_on_wire. by rewrite Ei.
    + intros Hov b. exists (DPS_ERR_OVERFLOW, b, Some (recounted_vec iv)). split.
      * unfold encode_path. by destruct ack, (addr_type addr).
      * split; [by rewrite Ei|]. left. split; [done|]. rewrite Ei. by exists iv.
    + exists x. split; [|exact HQ]. rewrite <- E. by destruct (encode_vectors _ _ _) as [[]|].
  - apply (Htail None head_wire p1 None); [|by cbn; rewrite app_nil_r|done|done]. unfold vectors_on_wire. by rewrite Ei.
Qed.
End Message.
