(* ===== verification/SendProofs.v ===== *)
(** * Sending subscriptions ([src/sub.c], [src/dps.c])

    What [DPS_MinMeshId] computes, and what [DPS_SendSubscription] and
    [DPS_SendSubscriptionAck] hand to the transport and leave in the node. *)
From S2P Require Import Prelude Status Buffer Float Cbor CborProofs CborMap BitVec BitVecProofs BitVecSerial CountVec.
From S2P Require Import Uuid Addr History Node Remote RemoteProofs SubMsg SubMsgProofs.
From stdpp Require Import gmap.
#[local] Open Scope Z_scope.
#[local] Set Warnings "-clear-no-such-hyp".

(** ** The minimum of the mesh identifiers *)

Definition uuid_le (a b : DPS_UUID) : Prop := DPS_UUIDCompare a b <= 0.

#[export] Instance uuid_le_dec a b : Decision (uuid_le a b).
Proof. unfold uuid_le. apply _. Defined.

Ltac uuid_cases :=
  unfold uuid_le, DPS_UUIDCompare in *; rewrite ?Z.gtb_ltb in *;
  repeat match goal with
    | H : context [if ?a <? ?b then _ else _] |- _ => destruct (Z.ltb_spec a b)
    | |- context [if ?a <? ?b then _ else _] => destruct (Z.ltb_spec a b)
    end; try lia.

Lemma uuid_le_refl a : uuid_le a a.
Proof. uuid_cases. Qed.
Lemma uuid_le_trans a b c : uuid_le a b -> uuid_le b c -> uuid_le a c.
Proof. uuid_cases. Qed.
Lemma uuid_le_antisym a b : uuid_le a b -> uuid_le b a -> a = b.
Proof. destruct a, b. uuid_cases. intros _ _. cbn in *. f_equal; lia. Qed.
Lemma uuid_lt_le a b : DPS_UUIDCompare a b < 0 -> uuid_le a b.
Proof. unfold uuid_le. lia. Qed.
Lemma uuid_nlt_le a b : ~ DPS_UUIDCompare a b < 0 -> uuid_le b a.
Proof. uuid_cases. Qed.

Section Mesh.
Context `{Env : Environment}.

(** The remotes whose identifier counts. *)
Definition in_mesh (n : DPS_Node) (excluded : option ptr) (l : list ptr) (m : DPS_UUID) : Prop :=
  exists q r, q ∈ l /\ n_remotes n !! q = Some r /\ Some q <> excluded /\
    (r_state r = REMOTE_ACTIVE \/ r_state r = REMOTE_LINKING) /\ m = in_meshId (inbound r).

(** [m] is the least of [min] and of the identifiers of the remotes of [l]. *)
Definition least_mesh (n : DPS_Node) (excluded : option ptr) (l : list ptr) (min m : DPS_UUID) : Prop :=
  (m = min \/ in_mesh n excluded l m) /\ uuid_le m min /\ forall m', in_mesh n excluded l m' -> uuid_le m m'.

Lemma least_mesh_unique n excluded l min m1 m2 :
  least_mesh n excluded l min m1 -> least_mesh n excluded l min m2 -> m1 = m2.
Proof. intros ([->|I1] & L1 & A1) ([->|I2] & L2 & A2); apply uuid_le_antisym; auto. Qed.

Lemma in_mesh_cons n excluded p l m :
  in_mesh n excluded (p :: l) m <-> in_mesh n excluded [p] m \/ in_mesh n excluded l m.
Proof.
  unfold in_mesh. split.
  - intros (q & r & Hq & H). apply elem_of_cons in Hq as [Hq|Hq]; [left|right]; exists q, r; (split; [|done]).
    + by rewrite Hq; left.
    + done.
  - intros [(q & r & Hq & H)|(q & r & Hq & H)]; exists q, r; (split; [|done]).
    + apply list_elem_of_singleton in Hq as ->. by left.
    + by right.
Qed.

Lemma wp_min_mesh_loop n excluded l min (Q : DPS_UUID -> DPS_Node -> Prop) :
  (forall p, p ∈ l -> is_Some (n_remotes n !! p)) ->
  (forall m, least_mesh n excluded l min m -> Q m n) -> wp (min_mesh_loop excluded l min) Q n.
Proof.
  revert min. induction l as [|p l IH]; intros min Hl HQ; cbn [min_mesh_loop].
  { wp_go. apply HQ. split; [by left|]. split; [apply uuid_le_refl|]. by intros m (? & ? & ?%elem_of_nil & _). }
  destruct (Hl p (list_elem_of_here p l)) as [r E]. wp_go. eapply wp_load; [exact E|].
  assert (forall q, q ∈ l -> is_Some (n_remotes n !! q)) as Hl' by (intros q Hq; apply Hl; by right).
  assert (forall m0, in_mesh n excluded [p] m0 -> m0 = in_meshId (inbound r) /\ Some p <> excluded /\
    (r_state r = REMOTE_ACTIVE \/ r_state r = REMOTE_LINKING)) as Hone.
  { intros m0 (q & r' & Hq & E' & H). apply list_elem_of_singleton in Hq as ->.
    rewrite E in E'. injection E' as <-. naive_solver. }
  destruct (bool_decide (Some p = excluded) || _) eqn:Ec.
  - apply IH; [done|]. intros m (Hin & Hle & Hall). apply HQ. split; [|split; [done|]].
    + destruct Hin; [by left|right]. apply in_mesh_cons. by right.
    + intros m' [H1|H1]%in_mesh_cons; [|auto]. apply Hone in H1 as (_ & Hne & Hst).
      apply orb_true_iff in Ec as [Ec|Ec]; [by apply bool_decide_eq_true in Ec|].
      apply negb_true_iff, orb_false_iff in Ec as [E1 E2]. apply bool_decide_eq_false in E1, E2. naive_solver.
  - apply orb_false_iff in Ec as [E1 E2]. apply bool_decide_eq_false in E1.
    apply negb_false_iff, orb_true_iff in E2. rewrite !bool_decide_eq_true in E2.
    assert (in_mesh n excluded [p] (in_meshId (inbound r))) as Hp
      by (exists p, r; split_and!; [by left|done|done|done|done]).
    apply IH; [done|]. intros m (Hin & Hle & Hall). apply HQ.
    assert (uuid_le m min /\ uuid_le m (in_meshId (inbound r))) as [Hm1 Hm2].
    { destruct (Z.ltb_spec (DPS_UUIDCompare (in_meshId (inbound r)) min) 0) as [Hlt|Hge].
      - split; [|done]. by eapply uuid_le_trans, uuid_lt_le.
      - split; [done|]. eapply uuid_le_trans; [exact Hle|]. apply uuid_nlt_le. lia. }
    split; [|split; [done|]].
    + destruct Hin as [->|Hin]; [|right; apply in_mesh_cons; by right].
      destruct (_ <? 0); [right; apply in_mesh_cons; by left|by left].
    + intros m' [H1|H1]%in_mesh_cons; [|auto]. by apply Hone in H1 as (-> & _).
Qed.

Lemma least_mesh_ok n nI excluded min m :
  node_inv nI n -> uuid_ok min -> least_mesh n excluded (n_remoteNodes n) min m -> uuid_ok m.
Proof.
  intros H Hm ([->|(q & r & _ & E & _ & _ & ->)] & _); [done|]. apply (ni_remote _ _ H _ _ E).
Qed.

Lemma wp_MinMeshId nI n excluded (Q : DPS_UUID -> DPS_Node -> Prop) :
  node_inv nI n -> (forall m, least_mesh n excluded (n_remoteNodes n) (n_meshId n) m -> Q m n) ->
  wp (DPS_MinMeshId excluded) Q n.
Proof.
  intros H HQ. unfold DPS_MinMeshId. wp_go. apply wp_min_mesh_loop; [|done].
  intros p. by apply (ni_remotes _ _ H).
Qed.
End Mesh.

(** ** Building a message *)

Section Send.
Context `{Env : Environment} (nI : nat).
Context (HnI : (0 < nI)%nat) (Hsmall : 64 * Z.of_nat nI <= 65535).
Context (Hbytes : forall k size, length (env_bytes k size) = size /\ Forall is_byte (env_bytes k size)).

(** What the node says of itself in every message. *)
Record sending_ok (n : DPS_Node) : Prop := {
  so_addr : sendable (n_addr n);
  so_mesh : uuid_ok (n_meshId n)
}.

(** The outbound state with the count cached in the vector that was sent. *)
Definition recache (o : Outbound) : Outbound :=
  match announced o with Some bv => set_announced (recounted_vec bv) o | None => o end.

Lemma announced_wf r bv : remote_ok nI r -> announced (outbound r) = Some bv -> vec_wf nI bv.
Proof.
  intros [_ Ho Hd _ _]. unfold announced. destruct (deltaInd (outbound r)); [by apply Hd|].
  intros E. rewrite E in Ho. by destruct (out_needs (outbound r)), Ho.
Qed.

Lemma recache_ok r : remote_ok nI r -> remote_ok nI (r <| outbound := recache (outbound r) |>).
Proof.
  intros Hr. unfold recache. destruct (announced (outbound r)) as [bv|] eqn:Ea; [|by destruct r].
  pose proof (counted_wf _ _ (announced_wf r bv Hr Ea)) as W. destruct Hr as [R1 R2 R3 R4 R5].
  unfold announced, set_announced in *. destruct (deltaInd (outbound r)); constructor; cbn in *; try done.
  - intros d [= <-]. exact W.
  - rewrite Ea in R2. destruct (out_needs (outbound r)); [|done]. split; [exact W|apply R2].
Qed.

Definition zero_needs : DPS_BitVector := mkBV 0 256 [0; 0; 0; 0].

(** [v] is what is written of the vectors that [o] announces. *)
Definition announces (o : Outbound) (withInterests : bool) (v : option wire_vectors) : Prop :=
  if withInterests then
    exists nd iv w, out_needs o = Some nd /\ announced o = Some iv /\ v = Some w /\ on_wire nd iv w
  else v = None.

Lemma encode_message_fail msgType num addr rev flags mesh needs interests ack b :
  encode_message msgType num addr rev flags mesh needs interests ack (DPS_ERR_RESOURCES, b) =
    Some (DPS_ERR_RESOURCES, b, interests).
Proof.
  unfold encode_message, encode_port, encode_path, encode_uint, encode_key.
  by destruct (addr_type addr), interests, ack.
Qed.

Lemma encode_message_needs msgType num addr rev flags mesh needs needs' ack p :
  encode_message msgType num addr rev flags mesh needs None ack p =
  encode_message msgType num addr rev flags mesh needs' None ack p.
Proof. reflexivity. Qed.

Lemma set_announced_id o bv : announced o = Some bv -> set_announced bv o = o.
Proof. unfold announced, set_announced. destruct o, deltaInd; cbn; by intros ->. Qed.

(** The buffer that [DPS_TxBufferInit] allocates. *)
Lemma tx_init_wrote k len :
  0 < len < 2 ^ 32 -> env_alloc k = true ->
  wrote (Z.to_nat len) [] (DPS_TxBufferInit None (Some (env_bytes k (Z.to_nat len))) (Z.to_nat len)).
Proof.
  intros Hl Ha. destruct (Hbytes k (Z.to_nat len)) as [H1 H2]. unfold DPS_TxBufferInit.
  rewrite decide_False by lia. rewrite take_ge by lia.
  constructor; cbn [fst snd tx_mem]; [done| |done|done]. split_and!; cbn; [lia|lia|done].
Qed.

Lemma message_len_pos num seqs listen interests :
  0 <= num < 24 -> 1 <= seqs <= 2 -> -1 <= listen < 2 ^ 16 ->
  (forall bv, interests = Some bv -> 0 <= len bv <= 65535) ->
  0 < message_len num seqs listen (vectors_len interests) < 2 ^ 32.
Proof.
  intros Hn Hq Hl Hi. unfold message_len, CBOR_SIZEOF, CBOR_SIZEOF_BYTES.
  change (CBOR_SIZEOF_LEN 5) with 1. change (CBOR_SIZEOF_LEN 0) with 1. change (CBOR_SIZEOF_LEN 16) with 1.
  assert (forall n, 1 <= CBOR_SIZEOF_LEN n <= 9) as Hz by (intros m; unfold CBOR_SIZEOF_LEN; repeat case_if; lia).
  pose proof (Hz num). assert (0 <= vectors_len interests < 2 ^ 20) as Hv.
  { destruct interests as [bv|]; [|done]. specialize (Hi bv eq_refl). pose proof (MaxSize_nonneg bv).
    unfold vectors_len. change DPS_BitVectorSerializeFHSize with 34.
    unfold DPS_BitVectorSerializeMaxSize, CBOR_SIZEOF, CBOR_SIZEOF_BYTES in *. pose proof (Hz 3).
    pose proof (Hz (len bv / 8)). assert (len bv / 8 < 2 ^ 16) by (apply Z.div_lt_upper_bound; lia). lia. }
  lia.
Qed.

Lemma listen_range addr listen : sendable addr -> listen_len addr = Some listen -> -1 <= listen < 2 ^ 16.
Proof.
  unfold sendable, listen_len. destruct (addr_type addr); try done; intros Hs [= <-]; try done.
  destruct Hs as [Hs _]. unfold _CBOR_SizeOfString, strnlen_s, CBOR_MAX_STRING_LEN. rewrite Z.min_l by lia.
  unfold CBOR_SIZEOF_LEN. repeat case_if; lia.
Qed.

Lemma wp_malloc_any (Q : (nat -> option (list Z)) -> DPS_Node -> Prop) n :
  Q (fun size => if env_alloc (n_allocs n) then Some (env_bytes (n_allocs n) size) else None)
    (n <| n_allocs := S (n_allocs n) |>) -> wp malloc Q n.
Proof. done. Qed.

Definition count_of (interests : option DPS_BitVector) (ack : option Z) : Z :=
  4 + (match interests with Some _ => 2 | None => 0 end) + (match ack with Some _ => 1 | None => 0 end).

Lemma entries_count_of interests ack : count_of interests ack = entries_count interests ack.
Proof. unfold count_of, entries_count, ack_len. destruct ack; lia. Qed.

(** The needs that the encoder uses, if it uses them. *)
Lemma needs_for r interests :
  remote_ok nI r -> (interests <> None -> is_Some (out_needs (outbound r))) ->
  exists nd, vec_wf FH_CHUNKS nd /\ (interests <> None -> out_needs (outbound r) = Some nd) /\
    forall msgType num addr rev flags mesh ack p,
      encode_message msgType num addr rev flags mesh (out_needs (outbound r)) interests ack p =
      encode_message msgType num addr rev flags mesh (Some nd) interests ack p.
Proof.
  intros [_ Ho _ _ _] Hnd. destruct interests as [iv|].
  - destruct Hnd as [nd End]; [done|]. exists nd. rewrite End in *.
    destruct (out_interests (outbound r)); [|done]. split; [apply Ho|done].
  - exists zero_needs. split; [by apply (bool_decide_unpack _); vm_compute|done].
Qed.

(** Why a message is not built. *)
Definition unbuilt (o : Outbound) (withInterests : bool) (ret : DPS_Status) : Prop :=
  ret = DPS_ERR_RESOURCES /\ (exists k, env_alloc k = false) \/
  ret = DPS_ERR_OVERFLOW /\ withInterests = true /\ exists iv, announced o = Some iv /\ overlong iv.

(** From [malloc] on: [r1] is the remote after the counts were cached. *)
Lemma wp_build_tail n p r msgType flags listen interests ack (Q : DPS_Status * list Z -> DPS_Node -> Prop) :
  node_inv nI n -> n_remotes n !! p = Some r -> sending_ok n -> listen_len (n_addr n) = Some listen ->
  0 <= msgType < 24 -> 0 <= flags < 24 -> (forall k, ack = Some k -> uint32 k) ->
  (forall iv, interests = Some iv -> announced (outbound r) = Some iv) ->
  (interests <> None -> is_Some (out_needs (outbound r))) ->
  let cached := match interests with
                | Some iv => r <| outbound := set_announced (recounted_vec iv) (outbound r) |>
                | None => r
                end in
  (forall ret bytes k r1, (r1 = r \/ r1 = cached) -> unbuilt (outbound r) (bool_decide (is_Some interests)) ret ->
     Q (ret, bytes) (n <| n_remotes := <[p := r1]> (n_remotes n) |> <| n_allocs := k |>)) ->
  (forall mesh v k nd, least_mesh n (Some p) (n_remoteNodes n) (n_meshId n) mesh -> vectors_on_wire nd interests v ->
     (interests <> None -> out_needs (outbound r) = Some nd) ->
     Q (DPS_OK, message_wire msgType (message_entries (n_addr n) (out_revision (outbound r)) flags mesh v ack))
       (n <| n_remotes := <[p := cached]> (n_remotes n) |> <| n_allocs := k |>)) ->
  wp (m ← malloc;
      meshId ← DPS_MinMeshId (Some p);
      '(ret, buf, interests) ← lift (
        let len := Z.to_nat (message_len (count_of interests ack) (match ack with Some _ => 2 | None => 1 end)
                               listen (vectors_len interests)) in
        encode_message msgType (count_of interests ack) (n_addr n) (out_revision (outbound r))
          flags meshId (out_needs (outbound r)) interests ack (DPS_TxBufferInit None (m len) len));
      _ ← (match interests with
           | Some bv => upd_outbound p (set_announced bv)
           | None => mret ()
           end);
      mret (ret, tx_written buf)) Q n.
Proof.
  intros H E [Hs Hm] Hl Ht Hf Hack Hiv Hnd cached Hfail Hok. pose proof (ni_remote _ _ H _ _ E) as Hr.
  wp_go. apply wp_malloc_any. wp_go.
  set (n1 := n <| n_allocs := S (n_allocs n) |>). apply (wp_MinMeshId nI); [by apply (node_inv_same nI n)|].
  intros mesh Hmesh. wp_go.
  assert (Hset : forall i' (K : unit -> DPS_Node -> Prop) r1,
    (i' = None /\ r1 = r \/ exists bv, i' = Some bv /\ r1 = r <| outbound := set_announced bv (outbound r) |>) ->
    K () (n <| n_remotes := <[p := r1]> (n_remotes n) |> <| n_allocs := S (n_allocs n) |>) ->
    wp (match i' with Some bv => upd_outbound p (set_announced bv) | None => mret () end) K n1).
  { intros i' K r1 [[-> ->]|(bv & -> & ->)] HK.
    - wp_go. rewrite insert_id in HK by done. by destruct n.
    - eapply wp_upd_outbound; [exact E|]. exact HK. }
  assert (Hwf : forall iv, interests = Some iv -> vec_wf nI iv) by (intros iv Ei; by eapply announced_wf, Hiv).
  assert (Hlen : 0 < message_len (entries_count interests ack) (ack_len ack) listen (vectors_len interests) < 2 ^ 32).
  { apply message_len_pos.
    - unfold entries_count, ack_len. destruct interests, ack; lia.
    - unfold ack_len. destruct ack; lia.
    - by eapply listen_range.
    - intros bv Eb. pose proof (vec_wf_len _ _ (Hwf bv Eb)). lia. }
  rewrite entries_count_of. change (match ack with Some _ => 2 | None => 1 end) with (ack_len ack).
  destruct (env_alloc (n_allocs n)) eqn:Ea.
  - destruct (needs_for r interests Hr Hnd) as (nd & Wnd & Eneeds & Hsame).
    destruct (encode_message_spec nI HnI Hsmall (n_addr n) listen Hs Hl msgType (out_revision (outbound r)) flags
      mesh nd interests ack Ht (proj1 (ro_words _ _ Hr)) Hf Wnd Hwf Hack _ (tx_init_wrote _ _ Hlen Ea))
      as ([[ret buf] i'] & Ex & Hi' & Hcase).
    eapply wp_lift; [by rewrite Hsame|]. wp_go. cbn [fst snd] in Hi', Hcase. apply (Hset i' _ cached).
    { rewrite Hi'. unfold cached. destruct interests as [iv|]; [right|by left]. by exists (recounted_vec iv). }
    wp_go. destruct Hcase as [(-> & iv & Eiv & Hov)|(-> & _ & v & Hv & ->)].
    + apply Hfail; [by right|]. right. split; [done|]. rewrite Eiv. split; [done|]. exists iv. split; [by apply Hiv|done].
    + by eapply Hok.
  - eapply wp_lift; [unfold DPS_TxBufferInit; rewrite decide_False; [apply encode_message_fail|]|].
    { lia. }
    wp_go. apply (Hset interests _ r).
    { destruct interests as [iv|]; [right|by left]. exists iv. split; [done|].
      rewrite (set_announced_id _ _ (Hiv iv eq_refl)). by destruct r. }
    wp_go. apply Hfail; [by left|]. left. split; [done|by eexists].
Qed.

Lemma wp_build_message n p r msgType flags listen (withI : bool) ack num
    (Q : DPS_Status * list Z -> DPS_Node -> Prop) :
  node_inv nI n -> n_remotes n !! p = Some r -> sending_ok n -> listen_len (n_addr n) = Some listen ->
  0 <= msgType < 24 -> 0 <= flags < 24 -> (forall k, ack = Some k -> uint32 k) ->
  (withI = true -> is_Some (announced (outbound r)) /\ is_Some (out_needs (outbound r))) ->
  num = 4 + (if withI then 2 else 0) + (match ack with Some _ => 1 | None => 0 end) ->
  let r' := if withI then r <| outbound := recache (outbound r) |> else r in
  (forall ret bytes k r1, (r1 = r \/ r1 = r') -> unbuilt (outbound r) withI ret ->
     Q (ret, bytes) (n <| n_remotes := <[p := r1]> (n_remotes n) |> <| n_allocs := k |>)) ->
  (forall mesh v k, least_mesh n (Some p) (n_remoteNodes n) (n_meshId n) mesh -> announces (outbound r) withI v ->
     Q (DPS_OK, message_wire msgType (message_entries (n_addr n) (out_revision (outbound r)) flags mesh v ack))
       (n <| n_remotes := <[p := r']> (n_remotes n) |> <| n_allocs := k |>)) ->
  wp (build_message p msgType num flags listen withI ack) Q n.
Proof.
  intros H E Hs Hl Ht Hf Hack Hi -> r' Hfail Hok. unfold build_message. wp_go. eapply wp_load; [exact E|]. wp_go.
  destruct withI.
  - destruct (Hi eq_refl) as [[iv Ea] Hnd]. wp_go. eapply wp_lift; [exact Ea|]. wp_go.
    apply (wp_build_tail n p r msgType flags listen (Some iv) ack); try done.
    + by intros iv' [= <-].
    + intros ret bytes k r1 Hr1 Hret. apply Hfail; [|exact Hret]. unfold r', recache. by rewrite Ea.
    + intros mesh v k nd Hm Hv Hnd'. unfold vectors_on_wire in Hv. destruct v as [v|]; [|done].
      specialize (Hok mesh (Some v) k). unfold r', recache in Hok. rewrite Ea in Hok.
      apply Hok; [done|]. exists nd, iv, v. split_and!; try done. by apply Hnd'.
  - wp_go. apply (wp_build_tail n p r msgType flags listen None ack); try done.
    intros mesh v k nd Hm Hv _. unfold vectors_on_wire in Hv. destruct v as [v|]; [done|]. by apply Hok.
Qed.

(** ** Sending *)

Lemma wp_SendComplete n addr st (Q : unit -> DPS_Node -> Prop) :
  node_inv nI n -> addr_ok addr -> is_OK st = false ->
  ((forall q rq, n_remotes n !! q = Some rq -> DPS_SameAddr (ep_addr (ep rq)) addr = Some false) -> Q () n) ->
  (forall q rq n', n_remotes n !! q = Some rq -> DPS_SameAddr (ep_addr (ep rq)) addr = Some true ->
     node_inv nI n' -> keeps n n' -> n_remotes n' = delete q (n_remotes n) ->
     n_remoteNodes n' = filter (fun x => x <> q) (n_remoteNodes n) -> Q () n') ->
  wp (DPS_SendComplete (Some addr) st) Q n.
Proof.
  intros H Ha Hst Hnone Hdel. unfold DPS_SendComplete. rewrite Hst. wp_go.
  apply (wp_LookupRemoteNode nI); [done|done|]. intros [q|] Hs Hn; wp_go.
  - destruct (Hs q eq_refl) as (rq & Eq & Esame). apply (wp_DeleteRemoteNode nI); [done|]. intros n' H' K Em El.
    by eapply Hdel.
  - apply Hnone. by apply Hn.
Qed.

Lemma wp_NetSend e bytes (Q : DPS_Status -> DPS_Node -> Prop) n :
  Q (env_send (n_sends n)) (n <| n_sends := S (n_sends n) |>
     <| n_events := EvNetSend e bytes (env_send (n_sends n)) :: n_events n |>) -> wp (DPS_NetSend e bytes) Q n.
Proof. done. Qed.

(** A change of the outbound state of one remote that keeps its vectors. *)
Lemma node_inv_outbound n p r o :
  node_inv nI n -> n_remotes n !! p = Some r -> remote_ok nI (r <| outbound := o |>) ->
  node_inv nI (n <| n_remotes := <[p := r <| outbound := o |>]> (n_remotes n) |>).
Proof. intros H E Hr. by apply (node_inv_fields nI n p r). Qed.

(** Why nothing is sent, apart from the transport. *)
Definition unsendable (n : DPS_Node) (r : RemoteNode) : Prop :=
  n_netCtx n = false \/ listen_len (n_addr n) = None \/ (exists k, env_alloc k = false) \/
  exists iv, announced (outbound r) = Some iv /\ overlong iv.

Lemma unbuilt_unsendable n r withI ret : unbuilt (outbound r) withI ret -> is_OK ret = false /\ unsendable n r.
Proof. unfold unsendable. intros [[-> H]|(-> & _ & H)]; (split; [done|]); eauto. Qed.

(** Nothing was sent to [p]; its remote is unchanged up to cached counts, or a
    remote with its address was deleted because the transport failed. *)
Record send_failed (n : DPS_Node) (p : ptr) (r : RemoteNode) (n' : DPS_Node) : Prop := {
  sf_inv : node_inv nI n';
  sf_keeps : keeps n n';
  sf_remotes : exists r1, inbound r1 = inbound r /\ ep r1 = ep r /\ completion r1 = completion r /\
    (n_remotes n' = <[p := r1]> (n_remotes n) /\ n_remoteNodes n' = n_remoteNodes n /\
       n_events n' = n_events n /\ unsendable n r \/
     is_OK (env_send (n_sends n)) = false /\
     exists q rq, n_remotes n !! q = Some rq /\ DPS_SameAddr (ep_addr (ep rq)) (ep_addr (ep r)) = Some true /\
       n_remotes n' = delete q (<[p := r1]> (n_remotes n)) /\
       n_remoteNodes n' = filter (fun x => x <> q) (n_remoteNodes n))
}.

(** A message was handed to the transport, and [r'] is what is left of the remote. *)
Record sent (n : DPS_Node) (p : ptr) (r : RemoteNode) (msgType flags : Z) (withI : bool) (ack : option Z)
    (r' : RemoteNode) (n' : DPS_Node) : Prop := {
  sn_inv : node_inv nI n';
  sn_keeps : keeps n n';
  sn_list : n_remoteNodes n' = n_remoteNodes n;
  sn_remotes : n_remotes n' = <[p := r']> (n_remotes n);
  sn_message : exists mesh v, least_mesh n (Some p) (n_remoteNodes n) (n_meshId n) mesh /\
    announces (outbound r) withI v /\
    n_events n' = EvNetSend (ep r) (message_wire msgType
      (message_entries (n_addr n) (out_revision (outbound r)) flags mesh v ack)) DPS_OK :: n_events n
}.

Lemma SameAddr_refl a : addr_ok a -> DPS_SameAddr a a = Some true.
Proof. intros [_ Ha]. rewrite SameAddr_ip by done. by rewrite bool_decide_eq_true_2. Qed.

(** Whatever happened to the buffer. *)
Lemma send_failed_unsent n p r r1 k : unsendable n r ->
  node_inv nI n -> n_remotes n !! p = Some r -> r1 = r <| outbound := outbound r1 |> -> remote_ok nI r1 ->
  send_failed n p r (n <| n_remotes := <[p := r1]> (n_remotes n) |> <| n_allocs := k |>).
Proof.
  intros Hu H E E1 H1. pose proof (node_inv_outbound n p r (outbound r1) H E) as Hi. rewrite <- E1 in Hi.
  split.
  - by apply (node_inv_same nI (n <| n_remotes := <[p := r1]> (n_remotes n) |>)); [apply Hi|..].
  - by constructor.
  - exists r1. rewrite E1. split_and!; [done..|]. left. by rewrite <- E1.
Qed.

(** The send failed: the remote of that address is deleted. *)
Lemma wp_send_fails n n1 p r r1 ret (Q : unit -> DPS_Node -> Prop) :
  node_inv nI n -> n_remotes n !! p = Some r -> r1 = r <| outbound := outbound r1 |> -> remote_ok nI r1 ->
  n1 = n <| n_remotes := n_remotes n1 |> <| n_allocs := n_allocs n1 |> <| n_sends := n_sends n1 |>
         <| n_events := n_events n1 |> ->
  n_remotes n1 = <[p := r1]> (n_remotes n) -> is_OK ret = false -> ret = env_send (n_sends n) ->
  (forall n', send_failed n p r n' -> Q () n') ->
  wp (DPS_SendComplete (Some (ep_addr (ep r))) ret) Q n1.
Proof.
  intros H E E1 H1 En1 Em Hret Esend HQ. pose proof (node_inv_outbound n p r (outbound r1) H E) as Hi.
  rewrite <- E1 in Hi. specialize (Hi H1).
  assert (node_inv nI n1) as Hn1.
  { apply (node_inv_same nI (n <| n_remotes := <[p := r1]> (n_remotes n) |>)); try done; by rewrite En1. }
  pose proof (ro_addr _ _ (ni_remote _ _ H _ _ E)) as Ha.
  apply wp_SendComplete; [done|done|done| |].
  - intros Hnone. exfalso. assert (n_remotes n1 !! p = Some r1) as Ep by (rewrite Em; apply lookup_insert_eq).
    specialize (Hnone _ _ Ep). rewrite E1 in Hnone. cbn in Hnone. rewrite SameAddr_refl in Hnone by done. done.
  - intros q rq n' Eq Esame H' [K1 K2 K3 K4 K5 K6] Em' El'. apply HQ. split; [done| |].
    + constructor; [rewrite K1|rewrite K2|rewrite K3|rewrite K4|rewrite K5|rewrite K6]; by rewrite En1.
    + exists r1. rewrite E1. split_and!; [done..|]. rewrite <- E1. right. rewrite Em in Eq, Em'.
      assert (n_remoteNodes n1 = n_remoteNodes n) as El by by rewrite En1. rewrite El in El'.
      split; [by rewrite <- Esend|]. destruct (decide (q = p)) as [->|Hne].
      * exists p, r. split_and!; try done. by apply SameAddr_refl.
      * exists q, rq. by rewrite lookup_insert_ne in Eq.
Qed.

Lemma sub_flags_range r : 0 <= sub_flags r < 24.
Proof. unfold sub_flags. by repeat case_match. Qed.
Lemma sak_flags_range r b : 0 <= sak_flags r b < 24.
Proof. unfold sak_flags. by repeat case_match. Qed.

Lemma env_send_case st : st = DPS_OK \/ is_OK st = false.
Proof. destruct st; auto. Qed.

Lemma set_outbound_ok n p r o :
  node_inv nI n -> n_remotes n !! p = Some r -> remote_ok nI (r <| outbound := o |>) ->
  forall n', n' = n <| n_remotes := <[p := r <| outbound := o |>]> (n_remotes n) |> <| n_allocs := n_allocs n' |>
                   <| n_sends := n_sends n' |> <| n_events := n_events n' |> ->
  node_inv nI n' /\ keeps n n'.
Proof.
  intros H E Hr n' En'. split; [|rewrite En'; by constructor].
  pose proof (node_inv_outbound n p r o H E Hr) as Hi.
  by apply (node_inv_same nI (n <| n_remotes := <[p := r <| outbound := o |>]> (n_remotes n) |>)); [apply Hi|rewrite En'..].
Qed.

Lemma await_sak_ok r t : remote_ok nI r -> remote_ok nI (r <| outbound := await_sak t (outbound r) |>).
Proof. intros [R1 R2 R3 R4 R5]. unfold await_sak. destruct (sakPending (outbound r)); by constructor. Qed.

(** The interests of a SUB: those that [DPS_UpdateOutboundInterests] left. *)
Definition ready (r : RemoteNode) : Prop :=
  is_Some (announced (outbound r)) /\ is_Some (out_needs (outbound r)).

(** From [DPS_NetSend] on: [f] and [g] change the outbound state when the transport
    takes the message, or does not. *)
Lemma wp_hand_over n p r o bytes k (f g : Outbound -> Outbound) (Q : DPS_Status -> DPS_Node -> Prop) :
  node_inv nI n -> n_remotes n !! p = Some r ->
  (forall h, h = f \/ h = g -> remote_ok nI (r <| outbound := h o |>)) ->
  (forall ret n', is_OK ret = false -> send_failed n p r n' -> Q ret n') ->
  (forall n', node_inv nI n' -> keeps n n' -> n_remoteNodes n' = n_remoteNodes n ->
     n_remotes n' = <[p := r <| outbound := f o |>]> (n_remotes n) ->
     n_events n' = EvNetSend (ep r) bytes DPS_OK :: n_events n -> Q DPS_OK n') ->
  wp (ret ← DPS_NetSend (ep r) bytes;
      if is_OK ret then _ ← upd_outbound p f; mret ret
      else
        _ ← upd_outbound p g;
        _ ← DPS_SendComplete (Some (ep_addr (ep r))) ret;
        mret ret) Q (n <| n_remotes := <[p := r <| outbound := o |>]> (n_remotes n) |> <| n_allocs := k |>).
Proof.
  intros H E Ho Hfail Hok. wp_go. apply wp_NetSend. change (n_sends (set _ _ _)) with (n_sends n).
  destruct (env_send_case (env_send (n_sends n))) as [Es|Es]; rewrite Es.
  - ok. eapply wp_upd_outbound; [apply lookup_insert_eq|]. wp_go.
    match goal with |- Q _ ?x => set (n' := x) end.
    assert (n_remotes n' = <[p := r <| outbound := f o |>]> (n_remotes n)) as Em
      by exact (insert_insert_eq (n_remotes n) p _ _).
    destruct (set_outbound_ok n p r (f o) H E (Ho f (or_introl eq_refl)) n') as [H' K'].
    { unfold n', set, set_n_remotes, set_n_allocs. cbn. by rewrite insert_insert_eq. }
    by apply (Hok n').
  - wp_go. eapply wp_upd_outbound; [apply lookup_insert_eq|]. wp_go.
    match goal with |- wp _ _ ?x => set (n1 := x) end.
    apply (wp_send_fails n n1 p r (r <| outbound := g o |>)); [exact H|exact E|reflexivity|by auto|reflexivity| |exact Es|reflexivity|].
    + exact (insert_insert_eq (n_remotes n) p _ _).
    + intros n' Hn'. wp_go. by apply Hfail.
Qed.

Lemma ready_wf r : remote_ok nI r -> ready r -> announced (recache (outbound r)) <> None.
Proof.
  intros Hr [[iv Ea] _]. unfold recache. rewrite Ea. unfold announced, set_announced.
  by destruct (deltaInd (outbound r)) eqn:Ed; cbn; rewrite Ed.
Qed.

Lemma recached_ok r (withI : bool) :
  remote_ok nI r -> remote_ok nI (r <| outbound := if withI then recache (outbound r) else outbound r |>).
Proof. intros Hr. destruct withI; [by apply recache_ok|]. by destruct r. Qed.

(** Both messages, from [DPS_TxBufferInit] to the end; [e] is the destination. *)
Lemma wp_send_message n p r msgType num flags listen (withI : bool) ack (f g : Outbound -> Outbound) e
    (Q : DPS_Status -> DPS_Node -> Prop) :
  node_inv nI n -> n_remotes n !! p = Some r -> sending_ok n -> listen_len (n_addr n) = Some listen ->
  0 <= msgType < 24 -> 0 <= flags < 24 -> (forall k, ack = Some k -> uint32 k) -> (withI = true -> ready r) ->
  num = 4 + (if withI then 2 else 0) + (match ack with Some _ => 1 | None => 0 end) -> e = ep r ->
  let o := if withI then recache (outbound r) else outbound r in
  (forall h o, h = f \/ h = g -> remote_ok nI (r <| outbound := o |>) -> remote_ok nI (r <| outbound := h o |>)) ->
  (forall ret n', is_OK ret = false -> send_failed n p r n' -> Q ret n') ->
  (forall n', sent n p r msgType flags withI ack (r <| outbound := f o |>) n' -> Q DPS_OK n') ->
  wp ('(ret, bytes) ← build_message p msgType num flags listen withI ack;
      if negb (is_OK ret) then mret ret else
      ret ← DPS_NetSend e bytes;
      if is_OK ret then _ ← upd_outbound p f; mret ret
      else
        _ ← upd_outbound p g;
        _ ← DPS_SendComplete (Some (ep_addr e)) ret;
        mret ret) Q n.
Proof.
  intros H E Hs El Ht Hf Hack Hready Hnum -> o Hfg Hfail Hok. wp_go.
  pose proof (ni_remote _ _ H _ _ E) as Hr. pose proof (recached_ok r withI Hr) as Ho. fold o in Ho.
  apply (wp_build_message n p r); [exact H|exact E|exact Hs|exact El|exact Ht|exact Hf|exact Hack|exact Hready|exact Hnum| |].
  - intros ret bytes k r1 Hr1 Hret. destruct (unbuilt_unsendable n r _ _ Hret) as [Er Hu]. rewrite Er. wp_go.
    apply Hfail; [done|]. apply send_failed_unsent; [done|done|done| |].
    + destruct Hr1 as [->| ->]; [by destruct r|]. destruct withI; by destruct r.
    + destruct Hr1 as [->| ->]; [done|]. unfold o in Ho. destruct withI; [done|by destruct r].
  - intros mesh v k Hm Hv. ok.
    replace (if withI then r <| outbound := recache (outbound r) |> else r) with (r <| outbound := o |>)
      by (unfold o; destruct withI; by destruct r).
    apply (wp_hand_over n p r o); [exact H|exact E| |exact Hfail|].
    + intros h Hh. by apply Hfg.
    + intros n' H' K El' Em Ev. apply Hok. split; try done. by exists mesh, v.
Qed.

Lemma outbound_flags_ok r o a b :
  remote_ok nI (r <| outbound := o |>) ->
  remote_ok nI (r <| outbound := (o <| sakPending := a |> <| lastSubMsgType := b |>) |>).
Proof. intros [R1 R2 R3 R4 R5]. by constructor. Qed.
Lemma sakPending_ok r o a :
  remote_ok nI (r <| outbound := o |>) -> remote_ok nI (r <| outbound := (o <| sakPending := a |>) |>).
Proof. intros [R1 R2 R3 R4 R5]. by constructor. Qed.

Lemma wp_SendSubscription n p r (Q : DPS_Status -> DPS_Node -> Prop) :
  node_inv nI n -> n_remotes n !! p = Some r -> sending_ok n -> r_state r <> REMOTE_MUTED ->
  let withI := negb (bool_decide (r_state r = REMOTE_UNLINKING)) in
  (withI = true -> ready r) ->
  let o := if withI then recache (outbound r) else outbound r in
  (forall ret n', is_OK ret = false -> send_failed n p r n' -> Q ret n') ->
  (forall n', sent n p r DPS_MSG_TYPE_SUB (sub_flags r) withI None
                (r <| outbound := await_sak DPS_MSG_TYPE_SUB o |>) n' -> Q DPS_OK n') ->
  wp (DPS_SendSubscription p) Q n.
Proof.
  intros H E Hs Hmuted withI Hready o Hfail Hok. unfold DPS_SendSubscription. wp_go.
  eapply wp_load; [exact E|]. wp_go. apply wp_assert; [by rewrite bool_decide_eq_false_2|]. wp_go.
  assert (unsendable n r -> send_failed n p r n) as Hself.
  { intros Hu. split; [done|by constructor|]. exists r. split_and!; try done. left. by rewrite insert_id. }
  destruct (n_netCtx n) eqn:Ec; [|apply Hfail; [done|]; apply Hself; by left]. cbn [negb]. wp_go.
  destruct (listen_len (n_addr n)) as [listen|] eqn:El; [|apply Hfail; [done|]; apply Hself; by right; left].
  apply (wp_send_message n p r); [exact H|exact E|exact Hs|exact El|done|apply sub_flags_range|done|exact Hready| |done| |exact Hfail|exact Hok].
  - unfold withI. by destruct (bool_decide _).
  - intros h o' [->| ->] Ho; [exact (await_sak_ok (r <| outbound := o' |>) _ Ho)|by apply outbound_flags_ok].
Qed.

(** [DPS_SendSubscriptionAck] unmutes a remote that waits for it. *)
Definition unmuted (r : RemoteNode) : RemoteNode :=
  if bool_decide (r_state r = REMOTE_UNMUTING)
  then r <| r_state := REMOTE_ACTIVE |> <| outbound := ((outbound r) <| sendInterests := true |>) |> else r.

Lemma unmuted_ok r : remote_ok nI r -> remote_ok nI (unmuted r).
Proof. intros [R1 R2 R3 R4 R5]. unfold unmuted. destruct (bool_decide _); by constructor. Qed.

Lemma unmuted_inbound r : inbound (unmuted r) = inbound r /\ completion (unmuted r) = completion r /\ ep (unmuted r) = ep r.
Proof. unfold unmuted. by destruct (bool_decide _). Qed.

Lemma wp_unmuting n p r (Q : unit -> DPS_Node -> Prop) :
  n_remotes n !! p = Some r -> Q () (n <| n_remotes := <[p := unmuted r]> (n_remotes n) |>) ->
  wp (when (bool_decide (r_state r = REMOTE_UNMUTING))
        (_ ← update n_remotes p (fun r => r <| r_state := REMOTE_ACTIVE |>);
         upd_outbound p (fun o => o <| sendInterests := true |>))) Q n.
Proof.
  intros E. unfold unmuted. destruct (bool_decide (r_state r = REMOTE_UNMUTING)); intros HQ; cbn [when].
  - wp_go. eapply wp_update; [exact E|]. wp_go. eapply wp_upd_outbound; [apply lookup_insert_eq|].
    match goal with |- Q _ ?x => replace x with (n <| n_remotes := <[p := r <| r_state := REMOTE_ACTIVE |>
      <| outbound := ((outbound r) <| sendInterests := true |>) |>]> (n_remotes n) |>); [exact HQ|] end.
    unfold set, set_n_remotes. cbn. by rewrite insert_insert_eq.
  - wp_go. rewrite insert_id in HQ by done. by destruct n.
Qed.

Lemma sak_flags_unmuted r b : sak_flags (unmuted r) b = sak_flags r b.
Proof. unfold unmuted, sak_flags. destruct (bool_decide_reflect (r_state r = REMOTE_UNMUTING)) as [E|]; [by rewrite E|done]. Qed.

Lemma wp_SendSubscriptionAck n p r collision (Q : DPS_Status -> DPS_Node -> Prop) :
  node_inv nI n -> n_remotes n !! p = Some r -> sending_ok n ->
  let n1 := n <| n_remotes := <[p := unmuted r]> (n_remotes n) |> in
  let sakReq := negb collision && sendInterests (outbound (unmuted r)) in
  (sakReq = true -> ready (unmuted r)) ->
  let o := if sakReq then recache (outbound (unmuted r)) else outbound (unmuted r) in
  let o' := if sakReq then await_sak DPS_MSG_TYPE_SAK o else o <| lastSubMsgType := 0 |> <| sakPending := false |> in
  (forall ret n', is_OK ret = false -> send_failed n1 p (unmuted r) n' -> Q ret n') ->
  (n_netCtx n = false -> Q DPS_ERR_NETWORK n) ->
  (forall n', sent n1 p (unmuted r) DPS_MSG_TYPE_SAK (sak_flags r sakReq) sakReq
                (Some (in_revision (inbound r))) ((unmuted r) <| outbound := o' |>) n' -> Q DPS_OK n') ->
  wp (DPS_SendSubscriptionAck p collision) Q n.
Proof.
  intros H E Hs n1 sakReq Hready o o' Hfail Hnet Hok. unfold DPS_SendSubscriptionAck. wp_go.
  destruct (n_netCtx n) eqn:Ec; [|by apply Hnet]. cbn [negb]. wp_go. eapply wp_load; [exact E|]. wp_go.
  pose proof (ni_remote _ _ H _ _ E) as Hr. pose proof (unmuted_ok r Hr) as Hu.
  destruct (unmuted_inbound r) as (Ei & Ecp & Eep).
  assert (node_inv nI n1) as H1 by by apply (node_inv_fields nI n p r).
  assert (n_remotes n1 !! p = Some (unmuted r)) as E1 by apply lookup_insert_eq.
  apply (wp_unmuting n p r _ E). fold n1. wp_go. eapply wp_load; [exact E1|]. wp_go. fold sakReq.
  change (n_addr n1) with (n_addr n). destruct (listen_len (n_addr n)) as [listen|] eqn:El; [|].
  2: { apply Hfail; [done|]. split; [done|by constructor|]. exists (unmuted r). split_and!; try done. left. rewrite insert_id by done.
       split_and!; try done. by right; left. }
  apply (wp_send_message n1 p (unmuted r)); [exact H1|exact E1|by destruct Hs|exact El|done|apply sak_flags_range
    | |exact Hready|by destruct sakReq|by rewrite Eep| |exact Hfail|].
  - intros k [= <-]. apply (ro_words _ _ Hr).
  - intros h x [->| ->] Hx; [|by apply sakPending_ok].
    destruct sakReq; [exact (await_sak_ok ((unmuted r) <| outbound := x |>) _ Hx)|].
    destruct Hx as [R1 R2 R3 R4 R5]. by constructor.
  - intros n' Hn'. apply Hok. unfold o', o in *. by destruct sakReq.
Qed.
End Send.
