(* ===== verification/Pub.v ===== *)
(** * Publications: their life cycle ([src/pub.c], [src/dps.c])

    A publication is in the list of its node until it is freed, then in the list
    of freed ones until nothing references it; its requests are queued to be sent
    or retained, and complete once.  What is serialized and encrypted is not
    here. *)
From S2P Require Import Prelude Status Buffer Float Cbor BitVec Uuid Addr History Node Remote.
From stdpp Require Import gmap.
#[local] Open Scope Z_scope.

Section Pub.
Context `{Env : Environment}.

(** ** Requests *)

Definition DPS_DestroyPublishRequest (req : option ptr) : M unit :=
  match req with
  | Some req => q ← load n_reqs req; _ ← when (q_rxBuf q) (emit EvRxDecRef); free n_reqs req
  | None => mret ()
  end.

Definition DPS_PublishCompletion (req : ptr) : M unit :=
  q ← load n_reqs req;
  if q_refCount q =? 0 then
    _ ← (match q_completeCB q with
         | Some cb =>
             let status := if bool_decide (q_status q = DPS_ERR_NO_ROUTE) then DPS_OK else q_status q in
             _ ← update n_reqs req (fun q => q <| q_status := status |>);
             emit (EvPublishComplete cb (q_pub q) status)
         | None => mret ()
         end);
    DPS_DestroyPublishRequest (Some req)
  else mret ().

(** [assert(req->refCount > 0); --req->refCount;] *)
Definition drop_request_ref (req : ptr) : M unit :=
  q ← load n_reqs req;
  _ ← assert (0 <? q_refCount q);
  update n_reqs req (fun q => q <| q_refCount := q_refCount q - 1 |>).

Definition PublishCompletion (req : option ptr) : M unit :=
  match req with
  | Some req => _ ← drop_request_ref req; DPS_PublishCompletion req
  | None => mret ()
  end.

(** [while (!DPS_QueueEmpty(&pub->queue))]: every request of the queue fails. *)
Fixpoint flush_queue (set_queue : list ptr -> DPS_Publication -> DPS_Publication) (pub : ptr) (queue : list ptr)
  : M unit :=
  match queue with
  | [] => mret ()
  | req :: queue =>
      _ ← update n_pubs pub (set_queue queue);
      _ ← drop_request_ref req;
      _ ← update n_reqs req (fun q => q <| q_status := DPS_ERR_WRITE |>);
      _ ← DPS_PublishCompletion req;
      flush_queue set_queue pub queue
  end.

(** ** Freeing *)

(** The result, the next one in the list of freed publications, is the tail of that list. *)
Definition DPS_FreePublication (pub : ptr) : M unit :=
  p ← load n_pubs pub;
  _ ← assert (has_flag (p_flags p) PUB_FLAG_WAS_FREED && (p_refCount p =? 0));
  _ ← (match p_onDestroyed p with Some cb => emit (EvOnDestroyed cb) | None => mret () end);
  free n_pubs pub.

Definition FreeCopy (copy : option ptr) : M unit :=
  match copy with
  | None => mret ()
  | Some copy =>
      p ← load n_pubs copy;
      _ ← when (negb (has_flag (p_flags p) PUB_FLAG_WAS_FREED))
            (_ ← modify (fun n => n <| n_freePubs := copy :: n_freePubs n |>);
             update n_pubs copy (fun p => p <| p_flags := p_flags p .| PUB_FLAG_WAS_FREED |>));
      when (p_refCount p =? 0) (emit (EvAsyncSend freeAsync))
  end.

(** The result is [next], for the only caller that uses it, which frees the head
    of the list: whether the publication was a copy, and [next] is null. *)
Definition FreePublication (pub : ptr) : M bool :=
  p ← load n_pubs pub;
  if has_flag (p_flags p) PUB_FLAG_IS_COPY then _ ← FreeCopy (Some pub); mret true
  else
    _ ← when (negb (has_flag (p_flags p) PUB_FLAG_WAS_FREED))
          (_ ← modify (fun n => n <| n_publications := default (n_publications n) (unlink_ptr (n_publications n) pub) |>);
           _ ← modify (fun n => n <| n_freePubs := pub :: n_freePubs n |>);
           update n_pubs pub (fun p => p <| p_flags := PUB_FLAG_WAS_FREED |>));
    _ ← when (p_refCount p =? 0)
          (_ ← flush_queue (fun l p => p <| p_sendQueue := l |>) pub (p_sendQueue p);
           _ ← flush_queue (fun l p => p <| p_retainedQueue := l |>) pub (p_retainedQueue p);
           emit (EvAsyncSend freeAsync));
    mret false.

Definition DPS_PublicationIncRef (pub : ptr) : M unit :=
  update n_pubs pub (fun p => p <| p_refCount := u32 (p_refCount p + 1) |>).

Definition DPS_PublicationDecRef (pub : ptr) : M unit :=
  p ← load n_pubs pub;
  _ ← assert (negb (p_refCount p =? 0));
  _ ← update n_pubs pub (fun p => p <| p_refCount := u32 (p_refCount p - 1) |>);
  when ((u32 (p_refCount p - 1) =? 0) && has_flag (p_flags p) PUB_FLAG_WAS_FREED)
    (_ ← FreePublication pub; mret ()).

(** [while (node->publications)] *)
Fixpoint free_publications (l : list ptr) : M unit :=
  match l with
  | [] => mret ()
  | pub :: l =>
      copy ← FreePublication pub;
      _ ← modify (fun n => n <| n_publications := if copy : bool then [] else l |>);
      if copy : bool then mret () else free_publications l
  end.
Definition DPS_FreePublications : M unit := l ← gets n_publications; free_publications l.

Definition IsValidPub (pub : option ptr) : M bool :=
  match pub with
  | None => mret false
  | Some p =>
      loop ← gets n_loop;
      if negb loop then mret false
      else l ← gets n_publications; mret (existsb (Pos.eqb p) l)
  end.

Definition DPS_ExpirePub (pub : ptr) : M unit :=
  p ← load n_pubs pub;
  if has_flag (p_flags p) PUB_FLAG_LOCAL
  then update n_pubs pub (fun p => p <| p_flags := p_flags p .| PUB_FLAG_EXPIRED |>)
  else _ ← FreePublication pub; mret ().

Definition DPS_DestroyPublication (pub : option ptr) (cb : option Z) : M DPS_Status :=
  match pub with
  | None => mret DPS_ERR_NULL
  | Some p =>
      _ ← update n_pubs p (fun p => p <| p_onDestroyed := cb |>);
      valid ← IsValidPub pub;
      pb ← load n_pubs p;
      if (valid : bool) && negb (has_flag (p_flags pb) PUB_FLAG_LOCAL) then mret DPS_ERR_MISSING
      else _ ← FreePublication p; mret DPS_OK
  end.

(** ** Lookup and accessors *)

Fixpoint find_pub (matches : DPS_Publication -> bool) (l : list ptr) : M (option ptr) :=
  match l with
  | [] => mret None
  | p :: l => pub ← load n_pubs p; if matches pub then mret (Some p) else find_pub matches l
  end.

Definition LookupRetained (pubId : DPS_UUID) : M (option ptr) :=
  l ← gets n_publications;
  find_pub (fun pub => has_flag (p_flags pub) PUB_FLAG_RETAINED && (DPS_UUIDCompare (p_pubId pub) pubId =? 0)) l.
Definition LookupPublication (pubId : DPS_UUID) : M (option ptr) :=
  l ← gets n_publications;
  find_pub (fun pub => negb (has_flag (p_flags pub) PUB_FLAG_LOCAL) && (DPS_UUIDCompare (p_pubId pub) pubId =? 0)) l.

(** [IsValidPub(pub) || (pub && (pub->flags & PUB_FLAG_IS_COPY)) ? field : null] *)
Definition pub_field {A} (pub : option ptr) (field : DPS_Publication -> A) (null : A) : M A :=
  valid ← IsValidPub pub;
  match pub with
  | None => mret null
  | Some p =>
      pb ← load n_pubs p;
      mret (if (valid : bool) || has_flag (p_flags pb) PUB_FLAG_IS_COPY then field pb else null)
  end.
Definition DPS_PublicationGetUUID (pub : option ptr) : M (option DPS_UUID) :=
  pub_field pub (fun p => Some (p_pubId p)) None.
Definition DPS_PublicationGetSequenceNum (pub : option ptr) : M Z := pub_field pub p_sequenceNum 0.
Definition DPS_PublicationGetTTL (pub : option ptr) : M Z := pub_field pub p_ttl 0.
Definition DPS_PublicationGetNumTopics (pub : option ptr) : M nat :=
  pub_field pub (fun p => length (default [] (p_topics p))) 0%nat.
Definition DPS_PublicationGetTopic (pub : option ptr) (index : nat) : M (option (list Z)) :=
  pub_field pub (fun p => default [] (p_topics p) !! index) None.
Definition DPS_PublicationGetSenderKeyId (pub : option ptr) : M (option (list Z)) :=
  pub_field pub (fun p => if e_alg (p_sender p) =? COSE_ALG_RESERVED then None else Some (e_kid (p_sender p))) None.
Definition DPS_PublicationGetSenderAddress (pub : option ptr) : M (option DPS_NodeAddress) :=
  pub_field pub (fun p => Some (p_senderAddr p)) None.
Definition DPS_AckGetSequenceNum (pub : option ptr) : M Z := pub_field pub p_ack_sequenceNum 0.
Definition DPS_AckGetSenderKeyId (pub : option ptr) : M (option (list Z)) :=
  pub_field pub (fun p => if e_alg (p_ack_sender p) =? COSE_ALG_RESERVED then None else Some (e_kid (p_ack_sender p))) None.
Definition DPS_AckGetSenderAddress (pub : option ptr) : M (option DPS_NodeAddress) :=
  pub_field pub (fun p => Some (p_ack_senderAddr p)) None.
Definition DPS_PublicationIsAckRequested (pub : option ptr) : M bool := pub_field pub p_ackRequested false.

(** ** Completed sends *)

Definition SendComplete (req : ptr) (addr : option DPS_NodeAddress) (status : DPS_Status) : M unit :=
  _ ← drop_request_ref req;
  _ ← update n_reqs req (fun q => if is_OK (q_status q) then q else q <| q_status := status |>);
  DPS_SendComplete addr status.

Definition OnNetSendComplete (req : ptr) (addr : option DPS_NodeAddress) (status : DPS_Status) : M unit :=
  q ← load n_reqs req;
  _ ← SendComplete req addr status;
  _ ← DPS_PublishCompletion req;
  DPS_PublicationDecRef (q_pub q).

Definition OnMulticastSendComplete (req : ptr) (status : DPS_Status) : M unit :=
  q ← load n_reqs req;
  _ ← SendComplete req None status;
  _ ← DPS_PublishCompletion req;
  DPS_PublicationDecRef (q_pub q).

(** ** Background tasks *)

(** One round of the loop of [DPS_UpdatePubs]; the result is whether there is
    something to send. *)
Definition update_pub (pub : ptr) : M bool :=
  p ← load n_pubs pub;
  match p_sendQueue p, p_retainedQueue p with
  | _ :: _, _ => mret true
  | [], [] => _ ← DPS_ExpirePub pub; mret false
  | [], req :: retained =>
      remotes ← gets n_remoteNodes;
      mcast ← gets n_mcastSender;
      if negb (bool_decide (remotes = [])) || mcast then
        _ ← update n_pubs pub (fun p => p <| p_retainedQueue := retained |> <| p_sendQueue := p_sendQueue p ++ [req] |>);
        mret true
      else mret false
  end.

(** [pub->next] is read before the round, which may free [pub] but no other. *)
Fixpoint update_pubs (l : list ptr) (count : Z) : M Z :=
  match l with
  | [] => mret count
  | pub :: l => send ← update_pub pub; update_pubs l (if send : bool then count + 1 else count)
  end.

Definition DPS_UpdatePubs : M unit :=
  state ← gets n_state;
  if negb (bool_decide (state = DPS_NODE_RUNNING)) then mret ()
  else
    l ← gets n_publications;
    count ← update_pubs l 0;
    when (negb (count =? 0)) (emit (EvAsyncSend pubsAsync)).

(** A loop of [FreeTask]: the objects without references leave the list. *)
Fixpoint free_unreferenced {V} (heap : DPS_Node -> gmap ptr V) (refCount : V -> Z) (free : ptr -> M unit)
    (l : list ptr) : M (list ptr) :=
  match l with
  | [] => mret []
  | x :: l =>
      v ← load heap x;
      if refCount v =? 0 then _ ← free x; free_unreferenced heap refCount free l
      else l ← free_unreferenced heap refCount free l; mret (x :: l)
  end.
End Pub.
