(* ===== verification/PubProofs.v ===== *)
(** * The life cycle of publications ([src/pub.c], [src/dps.c])

    The scan of the publications uses no freed one, and leaves everything but
    the publications alone. *)
From S2P Require Import Prelude Status Buffer Float Cbor BitVec CountVec Uuid Addr History Node Remote RemoteProofs Pub.
From stdpp Require Import gmap.
#[local] Open Scope Z_scope.
#[local] Set Warnings "-clear-no-such-hyp".

(** Only the publications and the events differ. *)
Definition pub_frame (n n' : DPS_Node) : Prop :=
  n' = n <| n_pubs := n_pubs n' |> <| n_publications := n_publications n' |> <| n_freePubs := n_freePubs n' |>
         <| n_events := n_events n' |>.

#[export] Instance pub_frame_refl : Reflexive pub_frame.
Proof. intros n. unfold pub_frame. by destruct n. Qed.
#[export] Instance pub_frame_trans : Transitive pub_frame.
Proof. intros n1 n2 n3 H1 H2. unfold pub_frame in *. rewrite H2, H1. by destruct n1, n2, n3. Qed.

Lemma node_inv_pub_frame `{Env : Environment} nI n n' : node_inv nI n -> pub_frame n n' -> node_inv nI n' /\ keeps n n'.
Proof.
  intros H E. unfold pub_frame in E. split; [|rewrite E; by constructor].
  apply (node_inv_same nI n); try done; by rewrite E.
Qed.

(** The publications of the list are allocated. *)
Definition pubs_alive (n : DPS_Node) : Prop := Forall (fun p => is_Some (n_pubs n !! p)) (n_publications n).

#[export] Instance pubs_alive_dec n : Decision (pubs_alive n).
Proof. unfold pubs_alive. apply _. Defined.

(** Publications are only removed from the list, and none is deallocated. *)
Record pubs_kept (n n' : DPS_Node) : Prop := {
  pk_frame : pub_frame n n';
  pk_heap : forall p, is_Some (n_pubs n !! p) -> is_Some (n_pubs n' !! p);
  pk_list : incl (n_publications n') (n_publications n)
}.

#[export] Instance pubs_kept_refl : Reflexive pubs_kept.
Proof. intros n. split; [done|auto|by intros ?]. Qed.
#[export] Instance pubs_kept_trans : Transitive pubs_kept.
Proof.
  intros n1 n2 n3 [F1 H1 L1] [F2 H2 L2]. split; [by etrans|auto|]. by eapply List.incl_tran.
Qed.

Lemma pubs_kept_alive n n' : pubs_alive n -> pubs_kept n n' -> pubs_alive n'.
Proof.
  unfold pubs_alive. rewrite !List.Forall_forall. intros H K p Hp. apply (pk_heap _ _ K), H, (pk_list _ _ K), Hp.
Qed.

Lemma unlink_ptr_incl l p l' : unlink_ptr l p = Some l' -> incl l' l.
Proof.
  revert l'. induction l as [|x l IH]; intros l'; cbn; [done|]. case_match; [intros [= <-]; by right|].
  destruct (unlink_ptr l p) as [l2|]; [|done]. intros [= <-]. apply List.incl_cons; [by left|].
  apply List.incl_tl, IH. done.
Qed.

Section Pub.
Context `{Env : Environment}.

(** A change of one publication. *)
Lemma wp_update_pub_fields p pub f (Q : unit -> DPS_Node -> Prop) n :
  n_pubs n !! p = Some pub -> (forall n', pubs_kept n n' -> n_pubs n' = <[p := f pub]> (n_pubs n) ->
    n_publications n' = n_publications n -> Q () n') ->
  wp (update n_pubs p f) Q n.
Proof.
  intros E HQ. eapply wp_update; [exact E|]. apply HQ; [|done|done]. split; [by destruct n| |by intros ?].
  intros q Hq. destruct (decide (q = p)) as [->|Hne]; cbn.
  - rewrite lookup_insert_eq. eauto.
  - by rewrite lookup_insert_ne.
Qed.

Lemma wp_FreeCopy p pub (Q : unit -> DPS_Node -> Prop) n :
  n_pubs n !! p = Some pub -> (forall n', pubs_kept n n' -> Q () n') -> wp (FreeCopy (Some p)) Q n.
Proof.
  intros E HQ. unfold FreeCopy. wp_go. eapply wp_load; [exact E|]. wp_go.
  assert (forall n', pubs_kept n n' -> wp (when (p_refCount pub =? 0) (emit (EvAsyncSend freeAsync))) Q n') as Hend.
  { intros n' K. apply wp_when; intros _; [wp_go|]; apply HQ; [|done]. etrans; [exact K|]. split; [by destruct n'|done|by intros ?]. }
  apply wp_when; intros _; [|wp_go; by apply Hend]. wp_go.
  eapply wp_update_pub_fields; [exact E|]. intros n' K _ _. wp_go. apply Hend. etrans; [|exact K].
  split; [by destruct n|done|by intros ?].
Qed.

(** A publication without requests. *)
Lemma wp_FreePublication_idle p pub (Q : bool -> DPS_Node -> Prop) n :
  n_pubs n !! p = Some pub -> p_sendQueue pub = [] -> p_retainedQueue pub = [] ->
  (forall b n', pubs_kept n n' -> Q b n') -> wp (FreePublication p) Q n.
Proof.
  intros E Es Er HQ. unfold FreePublication. wp_go. eapply wp_load; [exact E|]. wp_go.
  destruct (has_flag (p_flags pub) PUB_FLAG_IS_COPY).
  { wp_go. eapply wp_FreeCopy; [exact E|]. intros n' K. wp_go. by apply HQ. }
  assert (forall n', pubs_kept n n' -> wp (
     when (p_refCount pub =? 0)
       (_ ← flush_queue (fun l p => p <| p_sendQueue := l |>) p (p_sendQueue pub);
        _ ← flush_queue (fun l p => p <| p_retainedQueue := l |>) p (p_retainedQueue pub);
        emit (EvAsyncSend freeAsync))) (fun _ => wp (mret false) Q) n') as Hend.
  { intros n' K. rewrite Es, Er. apply wp_when; intros _; cbn [flush_queue]; wp_go; apply HQ; [|done].
    etrans; [exact K|]. split; [by destruct n'|done|by intros ?]. }
  wp_go. apply wp_when; intros _; [|wp_go; by apply Hend]. wp_go.
  eapply wp_update_pub_fields; [exact E|]. intros n' K _ _. wp_go. apply Hend. etrans; [|exact K].
  split; [by destruct n|done|]. cbn. destruct (unlink_ptr _ _) as [l|] eqn:El; [|by intros ?]. by eapply unlink_ptr_incl.
Qed.

Lemma wp_update_pub p (Q : bool -> DPS_Node -> Prop) n :
  is_Some (n_pubs n !! p) -> (forall b n', pubs_kept n n' -> Q b n') -> wp (update_pub p) Q n.
Proof.
  intros [pub E] HQ. unfold update_pub. wp_go. eapply wp_load; [exact E|]. wp_go.
  destruct (p_sendQueue pub) as [|s send] eqn:Es; [|wp_go; by apply HQ].
  destruct (p_retainedQueue pub) as [|req retained] eqn:Er.
  - wp_go. unfold DPS_ExpirePub. wp_go. eapply wp_load; [exact E|]. wp_go. destruct (has_flag _ _).
    + eapply wp_update_pub_fields; [exact E|]. intros n' K _ _. wp_go. by apply HQ.
    + wp_go. eapply wp_FreePublication_idle; [exact E|done|done|]. intros b n' K. wp_go. by apply HQ.
  - wp_go. destruct (_ || _); [|wp_go; by apply HQ]. wp_go. eapply wp_update_pub_fields; [exact E|].
    intros n' K _ _. wp_go. by apply HQ.
Qed.

Lemma wp_update_pubs l c (Q : Z -> DPS_Node -> Prop) n :
  Forall (fun p => is_Some (n_pubs n !! p)) l -> (forall c n', pubs_kept n n' -> Q c n') ->
  wp (update_pubs l c) Q n.
Proof.
  revert c n. induction l as [|p l IH]; intros c n Hl HQ; cbn [update_pubs]; wp_go; [by apply HQ|].
  apply Forall_cons_iff in Hl as [Hp Hl]. apply wp_update_pub; [done|]. intros b n' K. apply IH.
  - eapply Forall_impl; [exact Hl|]. intros q. apply (pk_heap _ _ K).
  - intros c' n2 K2. apply HQ. by etrans.
Qed.

(** The scan is defined, whatever the state of the publications. *)
Lemma wp_UpdatePubs (Q : unit -> DPS_Node -> Prop) n :
  pubs_alive n -> (forall n', pubs_kept n n' -> Q () n') -> wp DPS_UpdatePubs Q n.
Proof.
  intros H HQ. unfold DPS_UpdatePubs. wp_go. destruct (negb _); [wp_go; by apply HQ|]. wp_go.
  apply wp_update_pubs; [done|]. intros c n' K. apply wp_when; intros _; [wp_go|by apply HQ].
  apply HQ. etrans; [exact K|]. split; [by destruct n'|done|by intros ?].
Qed.
End Pub.
