(* ===== verification/Link.v ===== *)
(** * Links ([src/dps.c])

    Linking to a remote and unlinking from it, the completion of both, shutting
    the node down, and the timer that sends the subscriptions, repeats them and
    gives up a remote that does not answer. *)
From S2P Require Import Prelude Status Buffer Float Cbor BitVec Uuid Addr History Node Remote Sub SubMsg Pub.
From stdpp Require Import gmap.
#[local] Open Scope Z_scope.

Definition DPS_SAK_RETRY_THRESHOLD : Z := 2.
Definition DPS_SAK_RETRY_LIMIT : Z := 3.

Section Link.
Context `{Env : Environment}.

(** ** Requests of the node *)

(** [uv_async_send] succeeds on an initialised handle. *)
Definition DPS_NodeRequestSchedule (req : option NodeRequest) : M DPS_Status :=
  match req with
  | None => mret DPS_ERR_ARGS
  | Some req =>
      _ ← modify (fun n => n <| n_requestQueue := n_requestQueue n ++ [req] |>);
      _ ← emit (EvAsyncSend requestAsync);
      mret DPS_OK
  end.

(** ** Unlinking and completion *)

Definition Unlink (remote : ptr) (cb : Callback) : M DPS_Status :=
  r ← load n_remotes remote;
  match completion r with
  | Some _ => mret DPS_ERR_BUSY
  | None =>
      _ ← upd_outbound remote (fun o => o <| linkRequested := false |>);
      cpn ← AllocCompletion (Some remote) UNLINK_OP cb;
      _ ← update n_remotes remote (fun r => r <| completion := cpn |>);
      match cpn with
      | None => mret DPS_ERR_RESOURCES
      | Some cpn =>
          _ ← update n_cpns cpn (fun c => c <| c_addr := ep_addr (ep r) |>);
          _ ← (if sakPending (outbound r) then mret ()
               else
                 _ ← update n_remotes remote (fun r => r <| r_state := REMOTE_UNLINKING |>);
                 DPS_UpdateSubs SubsSendNow);
          mret DPS_OK
      end
  end.

(** What the completion does to its remote first: [None] when an unlink that was
    deferred is only now sent, or the status to complete with. *)
Definition completion_state (c : OnOpCompletion) (remote : ptr) : M (option DPS_Status) :=
  r ← load n_remotes remote;
  match c_op c with
  | LINK_OP =>
      _ ← when (bool_decide (r_state r = REMOTE_LINKING))
            (update n_remotes remote (fun r => r <| r_state := REMOTE_ACTIVE |>));
      mret (Some (c_status c))
  | UNLINK_OP =>
      if bool_decide (r_state r = REMOTE_UNLINKING) then mret (Some DPS_ERR_MISSING)
      else
        _ ← update n_remotes remote (fun r => r <| r_state := REMOTE_UNLINKING |>);
        _ ← DPS_UpdateOutboundInterests remote;
        ret ← DPS_SendSubscription remote;
        mret (if is_OK ret then None else Some DPS_ERR_MISSING)
  end.

(** While the node shuts down. *)
Definition completion_shutdown (op : OpType) (remote : ptr) : M unit :=
  shutdown ← gets n_onShutdown;
  when (bool_decide (is_Some shutdown))
    (match op with
     | UNLINK_OP => OnShutdown
     | LINK_OP =>
         status ← Unlink remote OnShutdownUnlinkComplete;
         _ ← assert (negb (bool_decide (status = DPS_ERR_BUSY)));
         if is_OK status then mret ()
         else _ ← DPS_DeleteRemoteNode remote; OnShutdown
     end).

Definition RemoteCompletion (cpn : ptr) : M unit :=
  c ← load n_cpns cpn;
  match c_remote c with
  | None => RemoteCompletion_no_remote cpn
  | Some remote =>
      status ← completion_state c remote;
      match status with
      | None => mret ()
      | Some status =>
          r ← load n_remotes remote;
          _ ← assert (bool_decide (completion r = Some cpn));
          _ ← update n_remotes remote (fun r => r <| completion := None |>);
          _ ← when (negb (is_OK status) && negb (bool_decide (status = DPS_ERR_EXISTS)))
                (DPS_DeleteRemoteNode remote);
          _ ← finish_completion cpn status;
          completion_shutdown (c_op c) remote
      end
  end.

Definition DPS_RemoteCompletion (cpn : ptr) (status : DPS_Status) : M unit :=
  _ ← update n_cpns cpn (fun c => c <| c_status := status |>);
  RemoteCompletion cpn.

(** ** Linking *)

(** The callback of a request: [completion->remote] is dereferenced. *)
Definition LinkExists (cpn : ptr) : M unit :=
  c ← load n_cpns cpn;
  remote ← lift (c_remote c);
  r ← load n_remotes remote;
  _ ← when (negb (linkRequested (outbound r))) (upd_outbound remote (fun o => o <| linkRequested := true |>));
  DPS_RemoteCompletion cpn (if linkRequested (outbound r) then DPS_ERR_EXISTS else DPS_OK).

(** [RunRequestsTask]: as long as the queue is not empty; the callbacks push
    nothing.  The shutdown request is [OnShutdownRequest]. *)
Definition run_request (req : NodeRequest) : M unit :=
  match req with LinkExistsReq cpn => LinkExists cpn | OnShutdownReq => OnShutdown end.
Fixpoint RunRequestsTask (fuel : nat) : M unit :=
  queue ← gets n_requestQueue;
  match queue, fuel with
  | [], _ => mret ()
  | _, O => undefined
  | req :: queue, S fuel =>
      _ ← modify (fun n => n <| n_requestQueue := queue |>);
      _ ← run_request req;
      RunRequestsTask fuel
  end.

(** [completion->remote = remote; remote->completion = completion;] *)
Definition link_completion (remote cpn : ptr) (ret : DPS_Status) : M DPS_Status :=
  _ ← when (is_OK ret)
        (r ← load n_remotes remote;
         _ ← assert (negb (bool_decide (is_Some (completion r))));
         _ ← update n_cpns cpn (fun c => c <| c_remote := Some remote |>);
         update n_remotes remote (fun r => r <| completion := Some cpn |>));
  mret ret.

Definition Link (addr : DPS_NodeAddress) (cpn : ptr) : M DPS_Status :=
  _ ← update n_cpns cpn (fun c => c <| c_addr := addr |>);
  '(ret, remote) ← DPS_AddRemoteNode addr None;
  match ret, remote with
  | DPS_OK, Some p =>
      _ ← update n_remotes p (fun r => r <| r_state := REMOTE_LINKING |>);
      _ ← upd_outbound p (fun o => o <| linkRequested := true |>);
      _ ← DPS_UpdateSubs SubsSendNow;
      link_completion p cpn DPS_OK
  | DPS_ERR_EXISTS, Some p =>
      r ← load n_remotes p;
      if bool_decide (is_Some (completion r)) then mret DPS_ERR_BUSY
      else ret ← DPS_NodeRequestSchedule (Some (LinkExistsReq cpn)); link_completion p cpn ret
  | _, _ => mret ret
  end.

(** The address is [None] when it was not resolved. *)
Definition OnResolve (addr : option DPS_NodeAddress) (cpn : ptr) : M unit :=
  ret ← (match addr with Some addr => Link addr cpn | None => mret DPS_ERR_UNRESOLVED end);
  if is_OK ret then mret () else DPS_RemoteCompletion cpn ret.

Definition DPS_LinkRemoteAddr (addr : option DPS_NodeAddress) (cb : Callback) : M DPS_Status :=
  match addr with
  | None => mret DPS_ERR_NULL
  | Some addr =>
      cpn ← AllocCompletion None LINK_OP cb;
      match cpn with
      | None => mret DPS_ERR_RESOURCES
      | Some cpn =>
          ret ← Link addr cpn;
          _ ← when (negb (is_OK ret)) (free n_cpns cpn);
          mret ret
      end
  end.

Definition DPS_Unlink (addr : option DPS_NodeAddress) (cb : Callback) : M DPS_Status :=
  match addr, cb with
  | None, _ | _, CbNull => mret DPS_ERR_NULL
  | Some addr, cb =>
      remote ← DPS_LookupRemoteNode (Some addr);
      match remote with
      | None => mret DPS_ERR_MISSING
      | Some p =>
          ret ← Unlink p cb;
          _ ← when (negb (is_OK ret) && negb (bool_decide (ret = DPS_ERR_BUSY))) (DPS_DeleteRemoteNode p);
          mret ret
      end
  end.

(** ** Shutting down *)

(** A round of the loop; the result is [ret] after it. *)
Definition shutdown_remote (remote : ptr) : M DPS_Status :=
  ret ← Unlink remote OnShutdownUnlinkComplete;
  let ret := if bool_decide (ret = DPS_ERR_BUSY) then DPS_OK else ret in
  _ ← when (negb (is_OK ret)) (DPS_DeleteRemoteNode remote);
  mret ret.

(** [remote->next] is read before the round, which deletes no other remote. *)
Fixpoint shutdown_remotes (l : list ptr) (ret : DPS_Status) : M DPS_Status :=
  match l with
  | [] => mret ret
  | remote :: l => ret ← shutdown_remote remote; shutdown_remotes l ret
  end.

Definition DPS_ShutdownNode (cb : option Z) : M DPS_Status :=
  match cb with
  | None => mret DPS_ERR_NULL
  | Some _ =>
      state ← gets n_state;
      shutdown ← gets n_onShutdown;
      if negb (bool_decide (state = DPS_NODE_RUNNING)) || bool_decide (is_Some shutdown) then mret DPS_ERR_INVALID
      else
        _ ← modify (fun n => n <| n_onShutdown := cb |>);
        l ← gets n_remoteNodes;
        ret ← shutdown_remotes l DPS_OK;
        l ← gets n_remoteNodes;
        match l with
        | [] => DPS_NodeRequestSchedule (Some OnShutdownReq)
        | _ => mret ret
        end
  end.

(** ** Muted remotes *)

Definition DPS_UnmuteRemoteNode (remote : ptr) : M DPS_Status :=
  r ← load n_remotes remote;
  if bool_decide (r_state r = REMOTE_MUTED) || bool_decide (r_state r = REMOTE_UNMUTING) then
    _ ← update n_remotes remote (fun r => r <| r_state := REMOTE_UNMUTING |>);
    _ ← upd_outbound remote (fun o => o <| sakCounter := 0 |>);
    min ← DPS_MinMeshId None;
    e ← gets n_entropy;
    let '(meshId, e) := DPS_RandUUIDLess min e in
    _ ← modify (fun n => n <| n_meshId := meshId |> <| n_entropy := e |>);
    _ ← DPS_ClearOutboundInterests remote;
    '(ret, _) ← DPS_UpdateOutboundInterests remote;
    if is_OK ret then DPS_SendSubscription remote else mret ret
  else mret DPS_OK.

(** The loop: what [altRoute] is when it ends, or [None] when it returns. *)
Fixpoint find_route (oldRoute : ptr) (oldMesh : DPS_UUID) (altRoute : option ptr) (l : list ptr)
  : M (option (option ptr)) :=
  match l with
  | [] => mret (Some altRoute)
  | p :: l =>
      if (p =? oldRoute)%positive then find_route oldRoute oldMesh altRoute l else
      r ← load n_remotes p;
      let same := DPS_UUIDCompare (in_meshId (inbound r)) oldMesh =? 0 in
      if same && (bool_decide (r_state r = REMOTE_ACTIVE) || bool_decide (r_state r = REMOTE_UNMUTING))
      then mret None
      else if same && bool_decide (r_state r = REMOTE_MUTED) then mret (Some (Some p))
      else find_route oldRoute oldMesh
             (match altRoute with
              | None => if bool_decide (r_state r = REMOTE_MUTED) then Some p else None
              | Some _ => altRoute
              end) l
  end.

Definition FindAlternativeRoute (oldRoute : ptr) : M unit :=
  old ← load n_remotes oldRoute;
  l ← gets n_remoteNodes;
  altRoute ← find_route oldRoute (in_meshId (inbound old)) None l;
  match altRoute with
  | Some (Some p) => _ ← DPS_UnmuteRemoteNode p; mret ()
  | _ => mret ()
  end.

(** ** The timer of the subscriptions *)

(** [p->next] *)
Fixpoint next_of (p : ptr) (l : list ptr) : option ptr :=
  match l with
  | [] => None
  | x :: l => if (x =? p)%positive then head l else next_of p l
  end.

(** The rest of a round after [ret] is known; the result is [reschedule]. *)
Definition send_subs_end (remote : ptr) (ret : DPS_Status) (reschedule : bool) : M bool :=
  _ ← when (negb (is_OK ret)) (DPS_DeleteRemoteNode remote); mret reschedule.

(** A round for a remote that did not acknowledge the last message. *)
Definition send_subs_pending (remote : ptr) (reschedule : bool) : M bool :=
  pending ← gets n_subsPending;
  if bool_decide (pending = SubsSendNow) then mret true else
  _ ← upd_outbound remote (fun o => o <| sakCounter := u8 (sakCounter o + 1) |>);
  r ← load n_remotes remote;
  if sakCounter (outbound r) <? DPS_SAK_RETRY_THRESHOLD then mret true
  else if DPS_SAK_RETRY_THRESHOLD + DPS_SAK_RETRY_LIMIT <=? sakCounter (outbound r) then
    _ ← when (bool_decide (r_state r = REMOTE_ACTIVE)) (FindAlternativeRoute remote);
    _ ← DPS_DeleteRemoteNode remote;
    mret reschedule
  else
    ret ← (if lastSubMsgType (outbound r) =? DPS_MSG_TYPE_SUB then DPS_SendSubscription remote
           else DPS_SendSubscriptionAck remote false);
    send_subs_end remote ret (is_OK ret || reschedule).

(** A round for a remote that owes no acknowledgement. *)
Definition send_subs_update (remote : ptr) (reschedule : bool) : M bool :=
  r ← load n_remotes remote;
  if bool_decide (r_state r = REMOTE_MUTED) then mret reschedule else
  '(ret, changes) ← DPS_UpdateOutboundInterests remote;
  if negb (is_OK ret) then send_subs_end remote ret reschedule else
  pending ← gets n_subsPending;
  if changes || bool_decide (pending = SubsNonePending) then
    ret ← DPS_SendSubscription remote;
    send_subs_end remote ret (is_OK ret || reschedule)
  else mret reschedule.

(** [remoteNext] is read before the round; it is dereferenced in the next one even
    if it was freed meanwhile. *)
Fixpoint send_subs_loop (fuel : nat) (remote : option ptr) (reschedule : bool) : M bool :=
  match remote, fuel with
  | None, _ => mret reschedule
  | Some _, O => undefined
  | Some p, S fuel =>
      r ← load n_remotes p;
      l ← gets n_remoteNodes;
      reschedule ← (if sakPending (outbound r) then send_subs_pending p reschedule
                    else send_subs_update p reschedule);
      send_subs_loop fuel (next_of p l) reschedule
  end.

Definition SendSubsTimer (fuel : nat) : M unit :=
  l ← gets n_remoteNodes;
  reschedule ← send_subs_loop fuel (head l) false;
  if reschedule : bool then
    _ ← modify (fun n => n <| n_subsPending := SubsThrottled |>);
    rate ← gets n_subsRate;
    timeout ← gets n_linkLossTimeout;
    emit (EvTimerStart rate timeout)
  else modify (fun n => n <| n_subsPending := SubsNonePending |>).

Definition SendSubsTask (fuel : nat) : M unit :=
  state ← gets n_state;
  if bool_decide (state = DPS_NODE_RUNNING) then
    pending ← gets n_subsPending;
    if bool_decide (pending = SubsSendNow) then SendSubsTimer fuel
    else
      rate ← gets n_subsRate;
      timeout ← gets n_linkLossTimeout;
      emit (EvTimerStart rate timeout)
  else mret ().

(** ** Freeing what nothing references *)

Definition FreeTask : M unit :=
  subs ← gets n_freeSubs;
  subs ← free_unreferenced n_subs s_refCount DPS_FreeSubscription subs;
  _ ← modify (fun n => n <| n_freeSubs := subs |>);
  pubs ← gets n_freePubs;
  pubs ← free_unreferenced n_pubs p_refCount DPS_FreePublication pubs;
  modify (fun n => n <| n_freePubs := pubs |>).

Definition DPS_SetNodeSubscriptionUpdateDelay (subsRateMsecs : Z) : M unit :=
  modify (fun n => n <| n_subsRate := subsRateMsecs |>).
Definition DPS_SetNodeLinkLossTimeout (linkLossMsecs : Z) : M unit :=
  modify (fun n => n <| n_linkLossTimeout := linkLossMsecs |>).
Definition DPS_SetLinkLossCallback (callback : option Z) : M DPS_Status :=
  _ ← modify (fun n => n <| n_linkLossCB := callback |>); mret DPS_OK.
End Link.
