(* ===== verification/SubDecode.v ===== *)
(** * Subscription messages: receiving ([src/sub.c], [src/dps.c])

    The parser of the unprotected map of a SUB or a SAK, and what the node does
    with the fields. *)
From S2P Require Import Prelude Status Buffer Float Cbor BitVec Uuid Addr History Node Remote Sub SubMsg Pub Link.
From stdpp Require Import gmap.
#[local] Open Scope Z_scope.

(** ** The endpoint of the sender *)

Definition DPS_NODE_ADDRESS_PATH_MAX : Z := 108.

(** The characters of a [char] array. *)
Fixpoint until_nul (l : list Z) : list Z :=
  match l with [] => [] | c :: l => if c =? 0 then [] else c :: until_nul l end.

Section Endpoint.
Context `{Env : Environment}.

(** The type of an address is UDP when the packet was multicast. *)
Definition DPS_EndpointSetPort (e : DPS_NetEndpoint) (port : Z) : option DPS_NetEndpoint :=
  let a := ep_addr e in
  let set_port (t : DPS_NodeAddressType) :=
    match ep_cn e with
    | None => mkEp (mkAddr t (mkSA (sa_family (inaddr a)) (ntohs port) (s_addr (inaddr a)) (sin6_addr (inaddr a)))
                          (path a)) None
    | Some cn => mkEp (mkAddr t (inaddr a) (path a)) (Some cn)
    end in
  match addr_type a with
  | DPS_UDP => Some (set_port (match env_transport with
                               | DPS_DTLS => DPS_DTLS | DPS_TCP => DPS_TCP | _ => DPS_UDP end))
  | DPS_DTLS => Some (set_port DPS_DTLS)
  | DPS_TCP => Some (set_port DPS_TCP)
  | _ => _ ← c_assert (bool_decide (is_Some (ep_cn e))); Some e
  end.

Definition DPS_EndpointSetPath (e : DPS_NetEndpoint) (bytes : list Z) : option DPS_NetEndpoint :=
  let a := ep_addr e in
  match addr_type a with
  | DPS_UDP | DPS_PIPE =>
      _ ← c_assert (Z.of_nat (length bytes) <? DPS_NODE_ADDRESS_PATH_MAX);
      Some (mkEp (mkAddr DPS_PIPE (inaddr a) (until_nul bytes)) (ep_cn e))
  | _ => Some e
  end.
End Endpoint.

(** ** Parsing *)

(** The local variables of [DecodeSubscription] that the map fills; [sf_ack] is
    [*sakSeqNum]. *)
Record SubFields := mkSF {
  sf_port : Z;
  sf_revision : Z;
  sf_flags : Z;
  sf_meshId : option DPS_UUID;
  sf_needs : option DPS_BitVector;
  sf_interests : option DPS_BitVector;
  sf_ack : Z;
  sf_path : option nat;
  sf_pathLen : Z;
  sf_keysMask : Z
}.

#[export] Instance SubFields_settable : Settable SubFields := fun f =>
  mkSF (sf_port f) (sf_revision f) (sf_flags f) (sf_meshId f) (sf_needs f) (sf_interests f) (sf_ack f)
    (sf_path f) (sf_pathLen f) (sf_keysMask f).
#[export] Instance set_sf_port : Setter sf_port.
Proof. derive_setter. Defined.
#[export] Instance set_sf_revision : Setter sf_revision.
Proof. derive_setter. Defined.
#[export] Instance set_sf_flags : Setter sf_flags.
Proof. derive_setter. Defined.
#[export] Instance set_sf_meshId : Setter sf_meshId.
Proof. derive_setter. Defined.
#[export] Instance set_sf_needs : Setter sf_needs.
Proof. derive_setter. Defined.
#[export] Instance set_sf_interests : Setter sf_interests.
Proof. derive_setter. Defined.
#[export] Instance set_sf_ack : Setter sf_ack.
Proof. derive_setter. Defined.
#[export] Instance set_sf_path : Setter sf_path.
Proof. derive_setter. Defined.
#[export] Instance set_sf_pathLen : Setter sf_pathLen.
Proof. derive_setter. Defined.
#[export] Instance set_sf_keysMask : Setter sf_keysMask.
Proof. derive_setter. Defined.

Definition no_fields : SubFields := mkSF 0 0 0 None None None 0 None 0 0.

Definition ReqKeys : list Z := [DPS_CBOR_KEY_SEQ_NUM; DPS_CBOR_KEY_SUB_FLAGS; DPS_CBOR_KEY_MESH_ID].
Definition OptKeys : list Z :=
  [DPS_CBOR_KEY_PORT; DPS_CBOR_KEY_NEEDS; DPS_CBOR_KEY_INTERESTS; DPS_CBOR_KEY_ACK_SEQ_NUM; DPS_CBOR_KEY_PATH].
Definition OptKeysMask : Z := 1 ≪ DPS_CBOR_KEY_NEEDS .| 1 ≪ DPS_CBOR_KEY_INTERESTS.

Definition mask_key (key : Z) (f : SubFields) : SubFields :=
  f <| sf_keysMask := u16 (sf_keysMask f .| 1 ≪ key) |>.

Section Decode.
Context `{Env : Environment}.

(** [case DPS_CBOR_KEY_INTERESTS] *)
Definition decode_interests (f : SubFields) (b : DPS_RxBuffer) : M (DPS_Status * SubFields * DPS_RxBuffer) :=
  match sf_interests f with
  | Some _ => mret (DPS_ERR_INVALID, f, b)
  | None =>
      bv ← BitVectorAlloc;
      match bv with
      | Some bv =>
          '(ret, bv, b) ← lift (DPS_BitVectorDeserialize bv b);
          mret (ret, f <| sf_interests := Some bv |>, b)
      | None => mret (DPS_ERR_RESOURCES, f, b)
      end
  end.

(** [case DPS_CBOR_KEY_NEEDS] *)
Definition decode_needs (f : SubFields) (b : DPS_RxBuffer) : M (DPS_Status * SubFields * DPS_RxBuffer) :=
  match sf_needs f with
  | Some _ => mret (DPS_ERR_INVALID, f, b)
  | None =>
      bv ← BitVectorAllocFH;
      match bv with
      | Some bv =>
          '(ret, bv, b) ← lift (DPS_BitVectorDeserializeFH bv b);
          mret (ret, f <| sf_needs := Some bv |>, b)
      | None => mret (DPS_ERR_RESOURCES, f, b)
      end
  end.

(** The [switch (key)]; [sak] is whether [sakSeqNum] is not null. *)
Definition decode_value (sak : bool) (key : Z) (f : SubFields) (b : DPS_RxBuffer)
  : M (DPS_Status * SubFields * DPS_RxBuffer) :=
  if key =? DPS_CBOR_KEY_PORT then
    '(ret, port, b) ← lift (CBOR_DecodeUint16 b (sf_port f)); mret (ret, f <| sf_port := port |>, b)
  else if key =? DPS_CBOR_KEY_SEQ_NUM then
    '(ret, n, b) ← lift (CBOR_DecodeUint32 b (sf_revision f)); mret (ret, f <| sf_revision := n |>, b)
  else if key =? DPS_CBOR_KEY_SUB_FLAGS then
    '(ret, n, b) ← lift (CBOR_DecodeUint8 b (sf_flags f)); mret (ret, f <| sf_flags := n |>, b)
  else if key =? DPS_CBOR_KEY_MESH_ID then
    let f := mask_key key f in
    '(ret, val, b) ← lift (CBOR_DecodeUUID b []);
    mret (ret, if is_OK ret then f <| sf_meshId := Some (uuid_of_val val) |> else f, b)
  else if key =? DPS_CBOR_KEY_INTERESTS then decode_interests (mask_key key f) b
  else if key =? DPS_CBOR_KEY_ACK_SEQ_NUM then
    if sak then
      '(ret, n, b) ← lift (CBOR_DecodeUint32 b (sf_ack f)); mret (ret, f <| sf_ack := n |>, b)
    else '(ret, _, _, b) ← lift (CBOR_Skip (skip_fuel b) b None None); mret (ret, f, b)
  else if key =? DPS_CBOR_KEY_NEEDS then decode_needs (mask_key key f) b
  else if key =? DPS_CBOR_KEY_PATH then
    '(ret, path, pathLen, b) ← lift (CBOR_DecodeString b (sf_path f) (sf_pathLen f));
    let ret := if is_OK ret && (DPS_NODE_ADDRESS_PATH_MAX <=? pathLen) then DPS_ERR_INVALID else ret in
    mret (ret, f <| sf_path := path |> <| sf_pathLen := pathLen |>, b)
  else mret (DPS_OK, f, b).

(** The [while] loop: every round reads at least a byte, so [skip_fuel] of the
    buffer is enough fuel. *)
Fixpoint parse_loop (fuel : nat) (sak : bool) (m : CBOR_MapState) (f : SubFields) : M (DPS_Status * SubFields) :=
  '(done, m) ← lift (DPS_ParseMapDone m);
  if done : bool then mret (DPS_OK, f) else
  match fuel with
  | O => undefined
  | S fuel =>
      '(ret, m, key) ← lift (DPS_ParseMapNext m 0);
      if negb (is_OK ret) then mret (if bool_decide (ret = DPS_ERR_MISSING) then DPS_ERR_INVALID else ret, f)
      else
        '(ret, f, b) ← decode_value sak key f (ms_buffer m);
        if negb (is_OK ret) then mret (ret, f) else parse_loop fuel sak (ms_set_buffer m b) f
  end.

(** From [DPS_ParseMapInit] to the endpoint; [f] holds [*sakSeqNum] at first. *)
Definition parse_fields (sak : bool) (e : DPS_NetEndpoint) (b : DPS_RxBuffer) (f : SubFields)
  : M (DPS_Status * SubFields * DPS_NetEndpoint) :=
  '(ret, m) ← lift (DPS_ParseMapInit b ReqKeys OptKeys 0);
  if negb (is_OK ret) then mret (ret, f, e) else
  '(ret, f) ← parse_loop (skip_fuel b) sak m f;
  if negb (is_OK ret) then mret (ret, f, e)
  else if Bool.eqb (sf_port f =? 0) (negb (bool_decide (is_Some (sf_path f)))) then mret (DPS_ERR_INVALID, f, e)
  else if negb (sf_port f =? 0) then
    e ← lift (DPS_EndpointSetPort e (sf_port f)); mret (DPS_OK, f, e)
  else
    bytes ← lift (decoded_bytes b (sf_path f) (sf_pathLen f));
    e ← lift (DPS_EndpointSetPath e bytes); mret (DPS_OK, f, e).

(** ** Handling *)

Definition UnlinkRemote (addr : DPS_NodeAddress) (revision : Z) : M DPS_Status :=
  remote ← DPS_LookupRemoteNode (Some addr);
  match remote with
  | Some p =>
      _ ← upd_outbound p (fun o => o <| sendInterests := false |>);
      _ ← upd_inbound p (fun i => i <| in_revision := revision |>);
      _ ← DPS_SendSubscriptionAck p false;
      _ ← upd_outbound p (fun o => o <| linkRequested := false |>);
      _ ← DPS_DeleteRemoteNode p;
      _ ← DPS_UpdateSubs SubsSendNow;
      mret DPS_OK
  | None => mret DPS_ERR_MISSING
  end.

(** [DiscardAndExit] for a remote that is not null. *)
Definition discard_message (remote : ptr) (ret : DPS_Status) : M DPS_Status :=
  r ← load n_remotes remote;
  _ ← when (bool_decide (r_state r = REMOTE_NEW)) (DPS_DeleteRemoteNode remote);
  mret ret.

(** The remote of the sender and [collision]; the status is the result if there is
    no remote. *)
Definition find_sender (sak : bool) (f : SubFields) (e : DPS_NetEndpoint) : M (DPS_Status * option ptr * bool) :=
  if sak then
    remote ← DPS_LookupRemoteNode (Some (ep_addr e));
    mret (if bool_decide (is_Some remote) then DPS_OK else DPS_ERR_MISSING, remote, false)
  else if has_flag (sf_flags f) DPS_SUB_FLAG_UNLINK_IND then
    ret ← UnlinkRemote (ep_addr e) (sf_revision f); mret (ret, None, false)
  else
    '(ret, remote) ← DPS_AddRemoteNode (ep_addr e) (ep_cn e);
    if bool_decide (ret = DPS_ERR_EXISTS) then
      p ← lift remote;
      r ← load n_remotes p;
      mret (DPS_OK, remote, sakPending (outbound r))
    else
      p ← lift remote;
      ret ← DPS_ClearOutboundInterests p;
      mret (ret, remote, false).

(** Muting and unmuting. *)
Definition check_loop (sak : bool) (f : SubFields) (remote : ptr) (meshId : DPS_UUID) : M DPS_Status :=
  r ← load n_remotes remote;
  if has_flag (sf_flags f) DPS_SUB_FLAG_UNMUTE_REQ then
    if sak then mret DPS_ERR_INVALID else DPS_UnmuteRemoteNode remote
  else if bool_decide (r_state r = REMOTE_MUTED) || bool_decide (r_state r = REMOTE_UNMUTING) then mret DPS_OK
  else
    loop ← (if has_flag (sf_flags f) DPS_SUB_FLAG_MUTE_IND then mret true else MeshHasLoop remote meshId);
    if loop : bool then DPS_MuteRemoteNode remote REMOTE_MUTED else mret DPS_OK.

(** The interests of a message that asks for a SAK; after [UpdateInboundInterests]
    the vectors are the remote's or freed, and [DiscardAndExit] frees them again. *)
Definition take_interests (remote : ptr) (f : SubFields) (isDuplicate : bool) : M unit :=
  if isDuplicate then mret ()
  else
    interests ← lift (sf_interests f);
    needs ← lift (sf_needs f);
    _ ← UpdateInboundInterests remote interests needs (has_flag (sf_flags f) DPS_SUB_FLAG_DELTA_IND);
    DPS_UpdatePubs.

Definition first_interests (remote : ptr) (isDuplicate : bool) : M unit :=
  r ← load n_remotes remote;
  when (bool_decide (r_state r = REMOTE_NEW))
    (_ ← assert (negb isDuplicate);
     '(ret, changes) ← DPS_UpdateOutboundInterests remote;
     _ ← upd_outbound remote (fun o => o <| sendInterests := changes |>);
     assert (is_OK ret)).

(** From [remote->inbound.meshId = meshId] on. *)
Definition message_done (remote : ptr) (meshId : DPS_UUID) (ret : DPS_Status) : M DPS_Status :=
  _ ← upd_inbound remote (fun i => i <| in_meshId := meshId |>);
  r ← load n_remotes remote;
  _ ← when (bool_decide (r_state r = REMOTE_NEW))
        (update n_remotes remote (fun r => r <| r_state := REMOTE_ACTIVE |>));
  mret ret.

Definition process_message (sak : bool) (f : SubFields) (remote : ptr) (collision : bool) : M DPS_Status :=
  r ← load n_remotes remote;
  if sf_revision f <? in_revision (inbound r) then discard_message remote DPS_ERR_STALE else
  let isDuplicate := in_revision (inbound r) =? sf_revision f in
  _ ← upd_inbound remote (fun i => i <| in_revision := sf_revision f |>);
  meshId ← lift (sf_meshId f);
  ret ← check_loop sak f remote meshId;
  if negb (is_OK ret) then discard_message remote ret
  else if has_flag (sf_flags f) DPS_SUB_FLAG_SAK_REQ then
    if negb (sf_keysMask f .& OptKeysMask =? OptKeysMask) then discard_message remote DPS_ERR_INVALID
    else
      _ ← take_interests remote f isDuplicate;
      _ ← first_interests remote isDuplicate;
      ret ← DPS_SendSubscriptionAck remote collision;
      message_done remote meshId ret
  else if negb sak then discard_message remote DPS_ERR_INVALID
  else
    _ ← upd_outbound remote (fun o => o <| lastSubMsgType := 0 |>);
    message_done remote meshId DPS_OK.

(** The status, the endpoint with the address the sender listens on, and
    [*sakSeqNum], [None] for a SUB. *)
Definition DecodeSubscription (e : DPS_NetEndpoint) (b : DPS_RxBuffer) (sakSeqNum : option Z)
  : M (DPS_Status * DPS_NetEndpoint * option Z) :=
  let sak := bool_decide (is_Some sakSeqNum) in
  '(ret, f, e) ← parse_fields sak e b (no_fields <| sf_ack := default 0 sakSeqNum |>);
  ret ← (if negb (is_OK ret) then mret ret else
         '(ret, remote, collision) ← find_sender sak f e;
         match remote with
         | None => mret ret
         | Some p => if is_OK ret then process_message sak f p collision else discard_message p ret
         end);
  mret (ret, e, if sak then Some (sf_ack f) else None).

Definition DPS_DecodeSubscription (e : DPS_NetEndpoint) (b : DPS_RxBuffer) : M DPS_Status :=
  '(ret, e, _) ← DecodeSubscription e b None;
  _ ← when (is_OK ret) (DPS_UpdateSubs SubsThrottled);
  remote ← DPS_LookupRemoteNode (Some (ep_addr e));
  _ ← (match remote with
       | Some p =>
           r ← load n_remotes p;
           match completion r with
           | Some cpn => when (negb (sakPending (outbound r))) (DPS_RemoteCompletion cpn DPS_OK)
           | None => mret ()
           end
       | None => mret ()
       end);
  mret ret.

(** What [DPS_DecodeSubscriptionAck] does when the acknowledged revision is right. *)
Definition acknowledge (remote : ptr) : M unit :=
  _ ← upd_outbound remote (fun o => o <| sendInterests := false |> <| sakPending := false |>);
  r ← load n_remotes remote;
  _ ← when (bool_decide (r_state r = REMOTE_UNMUTING))
        (update n_remotes remote (fun r => r <| r_state := REMOTE_ACTIVE |>));
  match completion r with Some cpn => DPS_RemoteCompletion cpn DPS_OK | None => mret () end.

Definition DPS_DecodeSubscriptionAck (e : DPS_NetEndpoint) (b : DPS_RxBuffer) : M DPS_Status :=
  '(ret, e, ack) ← DecodeSubscription e b (Some 0);
  if negb (is_OK ret) then mret ret else
  remote ← DPS_LookupRemoteNode (Some (ep_addr e));
  match remote with
  | Some p =>
      r ← load n_remotes p;
      if out_revision (outbound r) =? default 0 ack then _ ← acknowledge p; mret DPS_OK
      else mret DPS_ERR_STALE
  | None => mret DPS_ERR_MISSING
  end.
End Decode.

(** ** Requests *)

Section Receive.
Context `{Env : Environment}.

(** The handlers of publications and of their acknowledgements. *)
Context (DPS_DecodePublication : DPS_NetEndpoint -> DPS_RxBuffer -> bool -> M DPS_Status).
Context (DPS_DecodeAcknowledgement : DPS_NetEndpoint -> DPS_RxBuffer -> M DPS_Status).

(** The [switch (msgType)]. *)
Definition dispatch (msgType : Z) (e : DPS_NetEndpoint) (b : DPS_RxBuffer) (multicast : bool) : M DPS_Status :=
  if msgType =? DPS_MSG_TYPE_SUB then DPS_DecodeSubscription e b
  else if msgType =? DPS_MSG_TYPE_PUB then DPS_DecodePublication e b multicast
  else if msgType =? DPS_MSG_TYPE_ACK then DPS_DecodeAcknowledgement e b
  else if msgType =? DPS_MSG_TYPE_SAK then DPS_DecodeSubscriptionAck e b
  else mret DPS_ERR_INVALID.

Definition DecodeRequest (e : DPS_NetEndpoint) (b : DPS_RxBuffer) (multicast : bool) : M DPS_Status :=
  state ← gets n_state;
  if bool_decide (state = DPS_NODE_PAUSED) then mret DPS_OK else
  '(ret, len, b) ← lift (CBOR_DecodeArray b 0);
  if negb (is_OK ret) || negb (len =? 5) then mret ret else
  '(ret, msgVersion, b) ← lift (CBOR_DecodeUint8 b 0);
  if negb (is_OK ret) then mret ret
  else if negb (msgVersion =? DPS_MSG_VERSION) then mret DPS_ERR_NOT_IMPLEMENTED else
  '(ret, msgType, b) ← lift (CBOR_DecodeUint8 b 0);
  if negb (is_OK ret) then mret ret else
  ret ← dispatch msgType e b multicast;
  mret (if bool_decide (ret = DPS_ERR_STALE) then DPS_OK else ret).

Definition OnNetReceive (e : DPS_NetEndpoint) (status : DPS_Status) (b : DPS_RxBuffer) : M DPS_Status :=
  state ← gets n_state;
  if negb (bool_decide (state = DPS_NODE_RUNNING)) then mret DPS_ERR_FAILURE
  else if negb (is_OK status) then
    remote ← DPS_LookupRemoteNode (Some (ep_addr e));
    _ ← (match remote with Some p => DPS_DeleteRemoteNode p | None => mret () end);
    mret status
  else DecodeRequest e b false.
End Receive.
