(* ===== verification/Coap.v ===== *)
(** * Envelopes of multicast messages ([src/coap.c], [src/coap.h], [src/dps.c])

    A publication that is sent to the multicast group travels in a CoAP message:
    [CoAP_Wrap] composes the header in front of the buffers of the publication,
    and [OnMulticastReceive] takes it off again before the request is decoded.
    The counter of message ids is an argument and a result; so is the outcome of
    each allocation. *)
From S2P Require Import Prelude Status Buffer Cbor CborProofs CborValues BitVecProofs Addr Node NodeTheorems SubDecode.
#[local] Open Scope Z_scope.

Definition COAP_VERSION : Z := 1.
Definition COAP_TYPE_NON_CONFIRMABLE : Z := 1.
Definition COAP_CODE (class_bits detail_bits : Z) : Z := (class_bits ≪ 5) .| (detail_bits .& 0x1F).
Definition COAP_REQUEST : Z := 0.
Definition COAP_PUT : Z := 3.
Definition COAP_OPT_URI_PATH : Z := 11.
Definition COAP_OPT_CONTENT_FORMAT : Z := 12.
Definition COAP_END_OF_OPTS : Z := 0xFF.
Definition COAP_FORMAT_APPLICATION_CBOR : Z := 60.

(** [opt_val] is the bytes the pointer designates, [None] for the null pointer. *)
Record CoAP_Option := mkOpt { opt_id : Z; opt_len : Z; opt_val : option (list Z) }.

(** [coap_opts] is the array that was allocated, [None] for the null pointer. *)
Record CoAP_Parsed := mkCoap {
  coap_version : Z; coap_type : Z; coap_code : Z; coap_msgId : Z;
  coap_opts : option (list CoAP_Option); coap_numOpts : Z;
  coap_token : list Z; coap_tokenLen : Z
}.

#[export] Instance eta_option : Settable CoAP_Option :=
  fun o => mkOpt (opt_id o) (opt_len o) (opt_val o).
#[export] Instance eta_coap : Settable CoAP_Parsed :=
  fun c => mkCoap (coap_version c) (coap_type c) (coap_code c) (coap_msgId c) (coap_opts c)
    (coap_numOpts c) (coap_token c) (coap_tokenLen c).
#[export] Instance set_opt_id : Setter opt_id := ltac:(derive_setter).
#[export] Instance set_opt_len : Setter opt_len := ltac:(derive_setter).
#[export] Instance set_opt_val : Setter opt_val := ltac:(derive_setter).
#[export] Instance set_coap_version : Setter coap_version := ltac:(derive_setter).
#[export] Instance set_coap_type : Setter coap_type := ltac:(derive_setter).
#[export] Instance set_coap_code : Setter coap_code := ltac:(derive_setter).
#[export] Instance set_coap_msgId : Setter coap_msgId := ltac:(derive_setter).
#[export] Instance set_coap_opts : Setter coap_opts := ltac:(derive_setter).
#[export] Instance set_coap_numOpts : Setter coap_numOpts := ltac:(derive_setter).
#[export] Instance set_coap_token : Setter coap_token := ltac:(derive_setter).
#[export] Instance set_coap_tokenLen : Setter coap_tokenLen := ltac:(derive_setter).

(** After [memset(&coap, 0, sizeof(coap))]. *)
Definition coap_zero : CoAP_Parsed := mkCoap 0 0 0 0 None 0 (replicate 8 0) 0.

(** ** Parsing *)

(** The two fields of an option head use the same three encodings: below 13 the
    value itself, 13 and one byte, 14 and two bytes.  [least] is what the code
    wants to see in the buffer before it reads one byte.  [None] in the result is
    the return of -1. *)
Definition parse_nibble (b : DPS_RxBuffer) (flag : Z) (checked : bool)
  : option (option Z * DPS_RxBuffer) :=
  if flag <? 13 then Some (Some flag, b)
  else if flag =? 13 then
    if negb checked && (DPS_RxBufferAvail b <? 1) then Some (None, b) else
    x ← rx_peek b 0;
    Some (Some (13 + x), rx_skip b 1)
  else
    if DPS_RxBufferAvail b <? 2 then Some (None, b) else
    x ← rx_peek b 0;
    y ← rx_peek b 1;
    Some (Some (269 + (x ≪ 8) + y), rx_skip b 2).

(** [opt] is the object at the pointer argument, [None] if there is none, in which
    case writing to it is undefined. *)
Definition ParseOpt (b : DPS_RxBuffer) (prevOpt : Z) (opt : option CoAP_Option)
  : option (Z * option CoAP_Option * DPS_RxBuffer) :=
  head ← rx_peek b 0;
  let lFlag := head .& 0xF in
  let dFlag := head ≫ 4 in
  if DPS_RxBufferAvail b <? 2 then Some (-1, opt, b)
  else if (dFlag =? 0xF) || (lFlag =? 0xF) then Some (0, opt, b) else
  '(delta, b1) ← parse_nibble (rx_skip b 1) dFlag true;
  match delta with
  | None => Some (-1, opt, b1)
  | Some delta =>
      opt ← opt;
      let opt := opt <| opt_id := u8 (prevOpt + delta) |> in
      '(len, b2) ← parse_nibble b1 lFlag false;
      match len with
      | None => Some (-1, Some opt, b2)
      | Some len =>
          let opt := opt <| opt_len := len |> in
          if DPS_RxBufferAvail b2 <? len then Some (-1, Some opt, b2) else
          val ← mem_read (rx_mem b2) (rx_pos b2) (Z.to_nat len);
          let opt := opt <| opt_val := Some val |> in
          Some (s32 (len + Z.of_nat (rx_pos b2 - rx_pos b)), Some opt, rx_skip b2 (Z.to_nat len))
      end
  end.

(** The loop that counts the options: the status, the buffer and the number. *)
Fixpoint count_opts (fuel : nat) (b : DPS_RxBuffer) (numOpts : Z)
  : option (DPS_Status * DPS_RxBuffer * Z) :=
  match fuel with
  | O => None
  | S fuel =>
      if DPS_RxBufferAvail b =? 0 then Some (DPS_OK, b, numOpts) else
      '(optSize, _, b) ← ParseOpt b 0 (Some (mkOpt 0 0 None));
      if optSize =? 0 then Some (DPS_OK, b, numOpts)
      else if optSize <? 0 then Some (DPS_ERR_INVALID, b, numOpts)
      else count_opts fuel b (u16 (numOpts + 1))
  end.

(** The loop that parses them into the array; writing past its end is undefined. *)
Fixpoint parse_opts (fuel : nat) (b : DPS_RxBuffer) (prevOptId : Z) (opts : list CoAP_Option) (numOpts : Z)
  : option (DPS_Status * DPS_RxBuffer * list CoAP_Option * Z) :=
  match fuel with
  | O => None
  | S fuel =>
      if DPS_RxBufferAvail b =? 0 then Some (DPS_OK, b, opts, numOpts) else
      let i := Z.to_nat numOpts in
      '(optSize, opt, b) ← ParseOpt b prevOptId (opts !! i);
      if optSize =? 0 then Some (DPS_OK, b, opts, numOpts)
      else if optSize <? 0 then Some (DPS_ERR_INVALID, b, opts, numOpts)
      else
        opt ← opt;
        parse_opts fuel b (opt_id opt) (<[i := opt]> opts) (u16 (numOpts + 1))
  end.

Definition parse_options (b : DPS_RxBuffer) (coap : CoAP_Parsed) (alloc : bool)
  : option (DPS_Status * DPS_RxBuffer * CoAP_Parsed) :=
  '(ret, b, n) ← count_opts (skip_fuel b) b 0;
  let coap := coap <| coap_numOpts := n |> in
  if negb (is_OK ret) then Some (ret, b, coap) else
  let opts := if alloc then Some (replicate (Z.to_nat n) (mkOpt 0 0 None)) else None in
  '(ret, b, array, n) ← parse_opts (skip_fuel b) b 0 (default [] opts) 0;
  let coap := coap <| coap_opts := (_ ← opts; Some array) |> <| coap_numOpts := n |> in
  if negb (is_OK ret) then Some (ret, b, coap)
  else if DPS_RxBufferAvail b =? 0 then Some (DPS_OK, b, coap)
  else if DPS_RxBufferAvail b <? 2 then Some (DPS_ERR_EOD, b, coap) else
  marker ← rx_peek b 0;
  if negb (marker =? COAP_END_OF_OPTS) then Some (DPS_ERR_EOD, b, coap)
  else Some (DPS_OK, rx_skip b 1, coap).

Definition CoAP_Parse (b : DPS_RxBuffer) (coap : CoAP_Parsed) (alloc : bool)
  : option (DPS_Status * DPS_RxBuffer * CoAP_Parsed) :=
  if DPS_RxBufferAvail b <? 5 then Some (DPS_ERR_RESOURCES, b, coap) else
  x0 ← rx_peek b 0;
  x1 ← rx_peek b 1;
  x2 ← rx_peek b 2;
  x3 ← rx_peek b 3;
  let coap := coap <| coap_version := x0 ≫ 6 |> <| coap_type := (x0 ≫ 4) .& 0x3 |>
                   <| coap_tokenLen := x0 .& 0xF |> <| coap_code := x1 |>
                   <| coap_msgId := s16 ((x2 ≪ 8) .| x3) |> in
  let b := rx_skip b 4 in
  if DPS_RxBufferAvail b <? coap_tokenLen coap then Some (DPS_ERR_INVALID, b, coap)
  else if coap_tokenLen coap =? 0 then parse_options b coap alloc
  else
    src ← mem_read (rx_mem b) (rx_pos b) (Z.to_nat (coap_tokenLen coap));
    '(ok, token) ← memcpy_s (coap_token coap) 0 8 src;
    let coap := coap <| coap_token := token |> in
    if negb ok then Some (DPS_ERR_INVALID, b, coap)
    else parse_options (rx_skip b (Z.to_nat (coap_tokenLen coap))) coap alloc.

(** ** Composing *)

(** The loop that adds up the lengths of the options; [None] is the return of
    [DPS_ERR_ARGS]. *)
Fixpoint options_size (opts : list CoAP_Option) (optIdLast optLen : Z) : option Z :=
  match opts with
  | [] => Some optLen
  | o :: opts =>
      let delta := u16 (opt_id o - optIdLast) in
      let len := opt_len o in
      if opt_id o <? optIdLast then None else
      let extra (x : Z) := if 13 <? x then if 269 <? x then 2 else 1 else 0 in
      options_size opts (u8 (optIdLast + delta)) (u64 (optLen + (len + 1 + extra delta + extra len)))
  end.

(** One of the three encodings: what goes to the head, the bytes that follow, and
    what is left in the variable. *)
Definition option_nibble (x : Z) : Z * list Z * Z :=
  if x <? 13 then (x, [], x)
  else if x <? 269 then (13, [u8 (x - 13)], x - 13)
  else (14, [u8 ((x - 269) ≫ 8); u8 ((x - 269) .& 0xFF)], x - 269).

(** The loop that writes the options. *)
Fixpoint write_options (opts : list CoAP_Option) (optIdLast : Z) (buf : DPS_TxBuffer)
  : option (DPS_Status * DPS_TxBuffer) :=
  match opts with
  | [] => Some (DPS_OK, buf)
  | o :: opts =>
      let '(d, dbytes, delta) := option_nibble (u16 (opt_id o - optIdLast)) in
      let '(l, lbytes, _) := option_nibble (opt_len o) in
      buf ← tx_put buf (u8 (d ≪ 4) .| l :: dbytes ++ lbytes);
      match opt_val o with
      | Some val =>
          if opt_len o =? 0 then write_options opts (u8 (optIdLast + delta)) buf else
          src ← mem_read val 0 (Z.to_nat (opt_len o));
          '(ok, mem) ← memcpy_s (tx_mem buf) (tx_pos buf) (DPS_TxBufferSpace buf) src;
          if negb (ok : bool) then Some (DPS_ERR_RESOURCES, mkTx mem (tx_pos buf))
          else write_options opts (u8 (optIdLast + delta)) (mkTx mem (tx_pos buf + length src))
      | None => write_options opts (u8 (optIdLast + delta)) buf
      end
  end.

(** The token is always empty.  [alloc] is the block that malloc gives; the result
    has the next value of the counter [msgId]. *)
Definition CoAP_Compose (msgId code : Z) (opts : list CoAP_Option) (payloadLen : Z) (alloc : option (list Z))
  : option (DPS_Status * Z * DPS_TxBuffer) :=
  match options_size opts 0 0 with
  | None => Some (DPS_ERR_ARGS, msgId, mkTx [] 0)
  | Some optLen =>
      let optLen := if 0 <? payloadLen then u64 (optLen + 1) else optLen in
      let tokenLen := 0 in
      let '(ret, buf) := DPS_TxBufferInit None alloc (Z.to_nat (u64 (6 + tokenLen + optLen + 1))) in
      if negb (is_OK ret) then Some (ret, msgId, buf) else
      buf ← tx_put buf [(COAP_VERSION ≪ 6) .| (COAP_TYPE_NON_CONFIRMABLE ≪ 4) .| tokenLen; code;
                        msgId ≫ 8; msgId .& 0xFF];
      let msgId := u16 (msgId + 1) in
      '(ret, buf) ← write_options opts 0 buf;
      if negb (is_OK ret) then Some (ret, msgId, buf) else
      buf ← (if 0 <? payloadLen then tx_put buf [COAP_END_OF_OPTS] else Some buf);
      Some (DPS_OK, msgId, buf)
  end.

(** ["dps/pub"], with the null character that [sizeof] counts. *)
Definition DPS_PublicationURI : list Z := [100; 112; 115; 47; 112; 117; 98; 0].
Definition DPS_ContentFormat : Z := COAP_FORMAT_APPLICATION_CBOR.

Definition wrap_options : list CoAP_Option :=
  [mkOpt COAP_OPT_URI_PATH (Z.of_nat (length DPS_PublicationURI)) (Some DPS_PublicationURI);
   mkOpt COAP_OPT_CONTENT_FORMAT 1 (Some [DPS_ContentFormat])].

(** [bufs\[0\]] is filled in; the others are the message. *)
Definition CoAP_Wrap (msgId : Z) (bufs : list (list Z)) (alloc : option (list Z))
  : option (DPS_Status * Z * list (list Z)) :=
  let len := fold_left (fun acc buf => u64 (acc + Z.of_nat (length buf))) (tail bufs) 0 in
  '(ret, msgId, coap) ← CoAP_Compose msgId (COAP_CODE COAP_REQUEST COAP_PUT) wrap_options len alloc;
  Some (ret, msgId,
    if is_OK ret then take (Z.to_nat (DPS_TxBufferUsed coap)) (tx_mem coap) :: tail bufs else bufs).

(** ** Receiving *)

Section Multicast.
Context `{Env : Environment}.
Context (DPS_DecodePublication : DPS_NetEndpoint -> DPS_RxBuffer -> bool -> M DPS_Status).
Context (DPS_DecodeAcknowledgement : DPS_NetEndpoint -> DPS_RxBuffer -> M DPS_Status).

(** The status of the transport is not looked at; [alloc] is the outcome of the
    allocation of the options. *)
Definition OnMulticastReceive (e : DPS_NetEndpoint) (status : DPS_Status) (b : DPS_RxBuffer) (alloc : bool)
  : M DPS_Status :=
  state ← gets n_state;
  if negb (bool_decide (state = DPS_NODE_RUNNING)) then mret DPS_ERR_FAILURE else
  '(ret, b, coap) ← lift (CoAP_Parse b coap_zero alloc);
  if negb (is_OK ret) then mret ret
  else if negb (coap_type coap =? COAP_TYPE_NON_CONFIRMABLE) then mret DPS_ERR_INVALID
  else DecodeRequest DPS_DecodePublication DPS_DecodeAcknowledgement e b true.
End Multicast.

(** ** Parsing stays in the buffer *)

Lemma parse_nibble_safe b f checked :
  rx_wf b -> 0 <= f < 15 -> (checked = true -> 1 <= DPS_RxBufferAvail b) ->
  exists r b', parse_nibble b f checked = Some (r, b') /\ rx_adv b b' /\
    (rx_pos b' <= rx_pos b + 2)%nat /\ forall x, r = Some x -> 0 <= x < 269 + 65536.
Proof.
  intros Hwf Hf Hck. unfold parse_nibble. destruct (Z.ltb_spec f 13).
  { do 2 eexists. split_and!; [done|auto with dps|simpl; lia|]. intros x [= <-]. lia. }
  destruct (f =? 13).
  - destruct (Z.ltb_spec (DPS_RxBufferAvail b) 1) as [Hl|Hl].
    { destruct checked; [specialize (Hck eq_refl); lia|]. simpl.
      do 2 eexists. split_and!; [done|auto with dps|simpl; lia|done]. }
    rewrite andb_false_r. destruct (rx_peek_avail b 0) as (x & -> & _ & Hx); [done|lia|]. simpl.
    do 2 eexists. split_and!; [done|auto with dps|simpl; lia|]. intros y [= <-]. unfold is_byte in Hx. lia.
  - destruct (Z.ltb_spec (DPS_RxBufferAvail b) 2).
    { do 2 eexists. split_and!; [done|auto with dps|simpl; lia|done]. }
    destruct (rx_peek_avail b 0) as (x & -> & _ & Hx); [done|lia|].
    destruct (rx_peek_avail b 1) as (y & -> & _ & Hy); [done|lia|]. simpl.
    do 2 eexists. split_and!; [done|auto with dps|simpl; lia|]. intros z [= <-].
    rewrite Z.shiftl_mul_pow2 by lia. unfold is_byte in *. lia.
Qed.

(** [b] is at the end of the options: whatever the previous option and the object,
    there is nothing to parse. *)
Definition at_end (b : DPS_RxBuffer) : Prop :=
  forall prev opt, ParseOpt b prev opt = Some (0, opt, b).

Lemma head_nibbles x : is_byte x -> 0 <= x ≫ 4 < 16 /\ 0 <= x .& 0xF < 16.
Proof.
  intros Hx. split.
  - rewrite Z.shiftr_div_pow2 by lia. unfold is_byte in Hx. split; [apply Z.div_pos; lia|].
    apply Z.div_lt_upper_bound; lia.
  - change 0xF with (Z.ones 4). rewrite Z.land_ones by lia. by apply Z.mod_pos_bound.
Qed.

Lemma ParseOpt_safe b prev o :
  rx_wf b -> 0 < DPS_RxBufferAvail b ->
  exists rc o' b', ParseOpt b prev (Some o) = Some (rc, o', b') /\ rx_adv b b' /\
    ((rc = 0 /\ b' = b /\ at_end b) \/ rc < 0 \/ (0 < rc /\ (rx_pos b < rx_pos b')%nat)).
Proof.
  intros Hwf Ha. destruct (rx_peek_avail b 0) as (x & Ex & _ & Hx); [done|lia|].
  destruct (head_nibbles x Hx) as [Hd Hl]. unfold at_end, ParseOpt. rewrite Ex. cbn [mbind option_bind].
  destruct (Z.ltb_spec (DPS_RxBufferAvail b) 2) as [H2|H2].
  { do 3 eexists. split_and!; [done|auto with dps|]. right. left. lia. }
  destruct ((x ≫ 4 =? 0xF) || (x .& 0xF =? 0xF)) eqn:EF.
  { do 3 eexists. split_and!; [done|auto with dps|]. left. done. }
  apply orb_false_iff in EF as [E1 E2]. apply Z.eqb_neq in E1, E2.
  assert (rx_wf (rx_skip b 1)) as Hwf1 by (apply rx_skip_wf; [done|lia]).
  assert (rx_adv b (rx_skip b 1)) as A0 by (apply rx_skip_adv; [done|lia]).
  destruct (parse_nibble_safe (rx_skip b 1) (x ≫ 4) true) as (r & b1 & -> & A1 & P1 & R1);
    [done|lia|intros _; rewrite rx_skip_avail by (done || lia); lia|].
  cbn [mbind option_bind]. destruct r as [d|].
  2: { do 3 eexists. split_and!; [done|by etrans|]. right. left. lia. }
  assert (rx_wf b1) as Hwf2 by eauto with dps.
  destruct (parse_nibble_safe b1 (x .& 0xF) false) as (r & b2 & -> & A2 & P2 & R2); [done|lia|done|].
  cbn [mbind option_bind]. destruct r as [l|].
  2: { do 3 eexists. split_and!; [done|by do 2 (etrans; [eassumption|])|]. right. left. lia. }
  assert (rx_wf b2) as Hwf3 by eauto with dps. specialize (R2 l eq_refl).
  destruct (Z.ltb_spec (DPS_RxBufferAvail b2) l).
  { do 3 eexists. split_and!; [done|by do 2 (etrans; [eassumption|])|]. right. left. lia. }
  assert (rx_adv b2 (rx_skip b2 (Z.to_nat l))) as A3 by (apply rx_skip_adv; [done|lia]).
  assert (rx_adv b1 (rx_skip b2 (Z.to_nat l))) as A4 by by etrans.
  destruct (rx_skip_wf b2 (Z.to_nat l)) as (Hp & _); [done|lia|]. simpl in Hp, P1.
  rewrite mem_read_fits by (change (rx_mem (rx_skip b2 _)) with (rx_mem b2) in Hp; lia). cbn [mbind option_bind].
  assert (rx_adv b (rx_skip b2 (Z.to_nat l))) as A5 by (by do 2 (etrans; [eassumption|])).
  destruct A1 as (_ & _ & A1), A2 as (_ & _ & A2). simpl in A1.
  do 3 eexists. split_and!; [done|done|]. right. right.
  split; [|simpl; lia]. rewrite s32_small_nonneg by lia. lia.
Qed.

Lemma count_opts_safe fuel : forall b n,
  rx_wf b -> (Z.to_nat (DPS_RxBufferAvail b) < fuel)%nat ->
  exists ret b' n', count_opts fuel b n = Some (ret, b', n') /\ rx_adv b b' /\
    (ret = DPS_ERR_INVALID \/ ret = DPS_OK /\ (DPS_RxBufferAvail b' = 0 \/ at_end b')).
Proof.
  induction fuel as [|fuel IH]; intros b n Hwf Hf; [lia|]. simpl.
  destruct (Z.eqb_spec (DPS_RxBufferAvail b) 0) as [E|E].
  { do 3 eexists. split_and!; [done|auto with dps|auto]. }
  pose proof (rx_avail_nonneg b Hwf).
  destruct (ParseOpt_safe b 0 (mkOpt 0 0 None)) as (rc & o & b1 & -> & A & C); [done|lia|].
  cbn [mbind option_bind]. destruct C as [(-> & -> & He)|[Hn|[Hp Hpos]]].
  - do 3 eexists. split_and!; [done|done|auto].
  - rewrite (proj2 (Z.eqb_neq rc 0)), (proj2 (Z.ltb_lt rc 0)) by lia.
    do 3 eexists. split_and!; [done|done|auto].
  - rewrite (proj2 (Z.eqb_neq rc 0)), (proj2 (Z.ltb_ge rc 0)) by lia.
    destruct (IH b1 (u16 (n + 1))) as (ret & b' & n' & -> & A' & C); [eauto with dps| |].
    { rewrite (rx_adv_avail _ _ Hwf A). lia. }
    do 3 eexists. split_and!; [done|by etrans|done].
Qed.

(** The second loop finds the end at once: the first one has moved the position there. *)
Lemma parse_opts_ends b prev opts :
  DPS_RxBufferAvail b = 0 \/ at_end b -> parse_opts (skip_fuel b) b prev opts 0 = Some (DPS_OK, b, opts, 0).
Proof.
  intros C. unfold skip_fuel. simpl. destruct (Z.eqb_spec (DPS_RxBufferAvail b) 0); [done|].
  destruct C as [C|C]; [done|]. by rewrite C.
Qed.

Lemma parse_options_safe b c alloc :
  rx_wf b ->
  exists ret b' c', parse_options b c alloc = Some (ret, b', c') /\ rx_adv b b' /\
    coap_tokenLen c' = coap_tokenLen c /\ (ret = DPS_OK -> coap_numOpts c' = 0).
Proof.
  intros Hwf. unfold parse_options.
  destruct (count_opts_safe (skip_fuel b) b 0) as (ret & b1 & n & -> & A & C); [done|unfold skip_fuel; lia|].
  cbn [mbind option_bind]. destruct C as [->|[-> C]].
  { do 3 eexists. split_and!; done. }
  simpl negb. cbv iota zeta. rewrite parse_opts_ends by done. cbn [mbind option_bind].
  assert (rx_wf b1) as Hwf1 by eauto with dps. simpl negb. cbv iota.
  destruct (Z.eqb_spec (DPS_RxBufferAvail b1) 0); [do 3 eexists; split_and!; done|].
  destruct (Z.ltb_spec (DPS_RxBufferAvail b1) 2); [do 3 eexists; split_and!; done|].
  destruct (rx_peek_avail b1 0) as (x & -> & _ & _); [done|lia|]. cbn [mbind option_bind].
  destruct (negb (x =? COAP_END_OF_OPTS)); do 3 eexists; split_and!; try done.
  etrans; [done|]. apply rx_skip_adv; [done|lia].
Qed.

(** C39 [CoAP_Parse] is defined on every buffer, whether or not malloc succeeds: its loops end, it reads only
    what was received, and the options it hands over are always none: the loop that
    counts them leaves the position behind them, and the loop that should parse them
    into the array finds nothing. *)
Theorem CoAP_Parse_safe b alloc :
  rx_wf b ->
  exists ret b' c, CoAP_Parse b coap_zero alloc = Some (ret, b', c) /\ rx_adv b b' /\
    (ret = DPS_OK -> coap_numOpts c = 0 /\ coap_tokenLen c <= 8).
Proof.
  intros Hwf. unfold CoAP_Parse.
  destruct (Z.ltb_spec (DPS_RxBufferAvail b) 5); [do 3 eexists; split_and!; auto with dps; done|].
  destruct (rx_peek_avail b 0) as (x0 & -> & _ & Hx); [done|lia|].
  destruct (rx_peek_avail b 1) as (x1 & -> & _ & _); [done|lia|].
  destruct (rx_peek_avail b 2) as (x2 & -> & _ & _); [done|lia|].
  destruct (rx_peek_avail b 3) as (x3 & -> & _ & _); [done|lia|].
  cbn [mbind option_bind]. cbv zeta.
  match goal with |- context [DPS_RxBufferAvail _ <? coap_tokenLen ?c] => set (c0 := c) end.
  assert (0 <= coap_tokenLen c0 < 16) as Ht by apply (head_nibbles _ Hx).
  assert (coap_token c0 = replicate 8 0) as Etok by done. clearbody c0.
  assert (rx_wf (rx_skip b 4)) as Hwf4 by (apply rx_skip_wf; [done|lia]).
  assert (rx_adv b (rx_skip b 4)) as A4 by (apply rx_skip_adv; [done|lia]).
  destruct (Z.ltb_spec (DPS_RxBufferAvail (rx_skip b 4)) (coap_tokenLen c0)).
  { do 3 eexists; split_and!; [done|done|done]. }
  destruct (Z.eqb_spec (coap_tokenLen c0) 0) as [E0|E0].
  { destruct (parse_options_safe (rx_skip b 4) c0 alloc) as (ret & b' & c' & -> & A & Et & N); [done|].
    do 3 eexists; split_and!; [done|by etrans|]. rewrite Et. intros; split; [auto|lia]. }
  destruct (rx_skip_wf (rx_skip b 4) (Z.to_nat (coap_tokenLen c0))) as (Hp & _); [done|lia|]. simpl in Hp.
  rewrite mem_read_fits by (simpl; lia). cbn [mbind option_bind]. rewrite Etok.
  match goal with |- context [memcpy_s _ _ _ ?s] => set (src := s) end.
  assert (length src = Z.to_nat (coap_tokenLen c0)) as Hl.
  { subst src. rewrite length_take, length_drop. simpl. lia. }
  destruct (Z.le_gt_cases (coap_tokenLen c0) 8).
  2: { rewrite memcpy_s_overflow by (rewrite ?length_replicate; lia). do 3 eexists; split_and!; [done|done|done]. }
  rewrite memcpy_s_fits by (rewrite ?length_replicate; lia). cbn [mbind option_bind negb].
  match goal with |- context [parse_options ?m ?c alloc] =>
    change m with (rx_skip (rx_skip b 4) (Z.to_nat (coap_tokenLen c0)));
    destruct (parse_options_safe (rx_skip (rx_skip b 4) (Z.to_nat (coap_tokenLen c0))) c alloc) as (ret & b' & c' & -> & A & Et & N) end.
  { apply rx_skip_wf; [done|lia]. }
  do 3 eexists; split_and!; [done| |].
  - etrans; [apply A4|]. etrans; [|apply A]. apply rx_skip_adv; [done|lia].
  - change (coap_tokenLen c' = coap_tokenLen c0) in Et. intros; split; [auto|lia].
Qed.

(** ** What is composed is parsed *)

(** The bytes of an option: the difference [d] of its id and its value. *)
Definition opt_wire (w : Z * list Z) : list Z :=
  let '(d, dbytes, _) := option_nibble w.1 in
  let '(l, lbytes, _) := option_nibble (Z.of_nat (length w.2)) in
  (u8 (d ≪ 4) .| l :: dbytes ++ lbytes) ++ w.2.

Definition wire_ok (w : Z * list Z) : Prop :=
  0 <= w.1 < 2 ^ 16 /\ Z.of_nat (length w.2) < 269 + 2 ^ 16 /\ Forall is_byte w.2.

Lemma parse_nibble_reads b x f bs rest tl checked :
  rx_wf b -> 0 <= x < 269 + 2 ^ 16 -> option_nibble x = (f, bs, rest) -> rx_rest b = bs ++ tl ->
  parse_nibble b f checked = Some (Some x, rx_skip b (length bs)).
Proof.
  intros Hwf Hx E R. pose proof (rx_avail_app _ _ _ Hwf R) as Ha.
  unfold option_nibble in E. unfold parse_nibble.
  destruct (Z.ltb_spec x 13); [|destruct (Z.ltb_spec x 269)]; injection E as <- <- <-; simpl in Ha.
  - rewrite (proj2 (Z.ltb_lt x 13)) by lia. unfold rx_skip, rx_set_pos. simpl.
    rewrite Nat.add_0_r. by destruct b.
  - change (13 <? 13) with false. change (13 =? 13) with true. cbv iota.
    rewrite (proj2 (Z.ltb_ge _ 1)) by lia. rewrite andb_false_r.
    rewrite (rx_peek_rest b 0 (u8 (x - 13))) by by rewrite R. cbn [mbind option_bind].
    rewrite u8_small by lia. simpl. do 3 f_equal. lia.
  - change (14 <? 13) with false. change (14 =? 13) with false. cbv iota.
    rewrite (proj2 (Z.ltb_ge _ 2)) by lia.
    erewrite (rx_peek_rest b 0) by by rewrite R. erewrite (rx_peek_rest b 1) by by rewrite R.
    cbn [mbind option_bind]. do 3 f_equal. change 0xFF with (Z.ones 8).
    rewrite Z.land_ones, Z.shiftl_mul_pow2, Z.shiftr_div_pow2 by lia. solve_words.
Qed.

Lemma nibble_range x f bs rest :
  0 <= x -> option_nibble x = (f, bs, rest) -> 0 <= f < 15 /\ Forall is_byte bs /\ (length bs <= 2)%nat.
Proof.
  intros Hx. unfold option_nibble. destruct (Z.ltb_spec x 13); [|destruct (x <? 269)]; intros [= <- <- <-].
  all: split_and!; [lia|lia|repeat constructor; apply u8_byte|simpl; lia].
Qed.

Lemma head_byte d l :
  0 <= d < 15 -> 0 <= l < 15 ->
  let h := u8 (d ≪ 4) .| l in is_byte h /\ h ≫ 4 = d /\ h .& 0xF = l.
Proof.
  intros Hd Hl. rewrite u8_small by (rewrite Z.shiftl_mul_pow2; lia). cbv zeta.
  rewrite lor_shiftl_add by lia. change 0xF with (Z.ones 4).
  rewrite Z.land_ones, Z.shiftr_div_pow2 by lia. unfold is_byte. solve_words.
Qed.

Lemma ParseOpt_reads b prev o w tl :
  rx_wf b -> wire_ok w -> tl <> [] -> rx_rest b = opt_wire w ++ tl ->
  exists rc, 0 < rc /\
    ParseOpt b prev (Some o) =
      Some (rc, Some (mkOpt (u8 (prev + w.1)) (Z.of_nat (length w.2)) (Some w.2)), rx_skip b (length (opt_wire w))).
Proof.
  intros Hwf (Hd & Hl & Hv) Htl R. unfold opt_wire in *.
  destruct (option_nibble w.1) as [[d db] dr] eqn:ED.
  destruct (option_nibble (Z.of_nat (length w.2))) as [[l lb] lr] eqn:EL.
  destruct (nibble_range w.1 _ _ _ ltac:(lia) ED) as (Rd & Bd & Ld).
  destruct (nibble_range (Z.of_nat (length w.2)) _ _ _ ltac:(lia) EL) as (Rl & Bl & Ll).
  destruct (head_byte d l Rd Rl) as (Hh & Eh & El). set (h := u8 (d ≪ 4) .| l) in *.
  cbn [app] in R. rewrite <- app_assoc, <- app_assoc in R.
  pose proof (rx_avail_app b [h] _ Hwf R) as Ha. rewrite !length_app in Ha. simpl length in Ha.
  assert (0 < length tl)%nat by (destruct tl; simpl; [done|lia]).
  unfold ParseOpt. erewrite (rx_peek_rest b 0) by by rewrite R. cbn [mbind option_bind]. rewrite Eh, El.
  rewrite (proj2 (Z.ltb_ge _ 2)), (proj2 (Z.eqb_neq d 0xF)), (proj2 (Z.eqb_neq l 0xF)) by lia. cbn [orb].
  assert (rx_rest (rx_skip b 1) = db ++ lb ++ w.2 ++ tl) as R1 by by rewrite rx_skip_rest, R.
  assert (rx_wf (rx_skip b 1)) as W1 by (apply rx_skip_wf; [done|lia]).
  erewrite parse_nibble_reads; [|done| |done|done]; [|lia]. cbn [mbind option_bind].
  assert (rx_rest (rx_skip (rx_skip b 1) (length db)) = lb ++ w.2 ++ tl) as R2
    by by rewrite rx_skip_rest, R1, drop_app_length.
  assert (rx_wf (rx_skip (rx_skip b 1) (length db))) as W2 by by eapply rx_skip_app_wf.
  erewrite parse_nibble_reads; [|done| |done|done]; [|lia]. cbn [mbind option_bind].
  set (b3 := rx_skip (rx_skip (rx_skip b 1) (length db)) (length lb)).
  assert (rx_rest b3 = w.2 ++ tl) as R3 by (subst b3; by rewrite rx_skip_rest, R2, drop_app_length).
  assert (rx_wf b3) as W3 by by eapply rx_skip_app_wf.
  pose proof (rx_avail_app _ _ _ W3 R3) as Ha3. rewrite (proj2 (Z.ltb_ge _ _)) by lia.
  rewrite Nat2Z.id. pose proof (rx_read_payload b3 [] w.2 tl W3 R3) as Er.
  simpl in Er. rewrite Nat.add_0_r in Er. change (mem_read (rx_mem b3) (rx_pos b3) (length w.2) = Some w.2) in Er.
  rewrite Er. cbn [mbind option_bind]. eexists. split; [|].
  2: { subst b3. rewrite !rx_skip_skip. repeat f_equal. rewrite length_app. cbn [length]. rewrite length_app. lia. }
  subst b3. cbn [rx_pos rx_skip rx_set_pos]. rewrite s32_small_nonneg by lia. lia.
Qed.

Lemma opt_wire_length w : (1 <= length (opt_wire w))%nat.
Proof.
  unfold opt_wire. destruct (option_nibble w.1) as [[? ?] ?], (option_nibble _) as [[? ?] ?]. simpl. lia.
Qed.

(** At the marker of the end of the options. *)
Lemma at_end_marker b x tl : rx_wf b -> rx_rest b = COAP_END_OF_OPTS :: x :: tl -> at_end b.
Proof.
  intros Hwf R prev o. unfold ParseOpt. erewrite (rx_peek_rest b 0) by by rewrite R. cbn [mbind option_bind].
  rewrite (rx_avail_app b [_; _] tl Hwf R). simpl length.
  rewrite (proj2 (Z.ltb_ge _ 2)) by lia. done.
Qed.

Lemma count_opts_reads ws x tl : forall fuel b n,
  rx_wf b -> Forall wire_ok ws -> rx_rest b = (ws ≫= opt_wire) ++ COAP_END_OF_OPTS :: x :: tl ->
  (length ws < fuel)%nat ->
  exists n', count_opts fuel b n = Some (DPS_OK, rx_skip b (length (ws ≫= opt_wire)), n').
Proof.
  induction ws as [|w ws IH]; intros fuel b n Hwf Hws R Hf; (destruct fuel as [|fuel]; [simpl in Hf; lia|]); simpl.
  - pose proof (rx_avail_app b [_; _] tl Hwf R) as Ha. simpl in Ha. rewrite (proj2 (Z.eqb_neq _ 0)) by lia.
    rewrite (at_end_marker b x tl Hwf R). simpl. unfold rx_skip, rx_set_pos. rewrite Nat.add_0_r.
    destruct b. eauto.
  - inversion_clear Hws as [|? ? Hw Hws']. cbn [mbind list_bind] in R. rewrite <- app_assoc in R.
    pose proof (rx_avail_app b _ _ Hwf R) as Ha. pose proof (opt_wire_length w).
    rewrite (proj2 (Z.eqb_neq _ 0)) by lia.
    destruct (ParseOpt_reads b 0 (mkOpt 0 0 None) w _ Hwf Hw (not_eq_sym (app_cons_not_nil _ _ _)) R) as (rc & Hrc & ->).
    cbn [mbind option_bind]. rewrite (proj2 (Z.eqb_neq rc 0)), (proj2 (Z.ltb_ge rc 0)) by lia.
    destruct (IH fuel (rx_skip b (length (opt_wire w))) (u16 (n + 1))) as (n' & E);
      [by eapply rx_skip_app_wf|done|by rewrite rx_skip_rest, R, drop_app_length|simpl in Hf; lia|].
    exists n'. rewrite E, rx_skip_skip, length_app. done.
Qed.

(** The four bytes of the header. *)
Definition header_wire (msgId code : Z) : list Z := [0x50; code; msgId ≫ 8; msgId .& 0xFF].

Lemma CoAP_Parse_reads b msgId code ws x tl alloc :
  rx_wf b -> Forall wire_ok ws ->
  rx_rest b = header_wire msgId code ++ (ws ≫= opt_wire) ++ COAP_END_OF_OPTS :: x :: tl ->
  exists b' c, CoAP_Parse b coap_zero alloc = Some (DPS_OK, b', c) /\ rx_wf b' /\ rx_rest b' = x :: tl /\
    coap_type c = COAP_TYPE_NON_CONFIRMABLE /\ coap_code c = code.
Proof.
  intros Hwf Hws R. pose proof (rx_avail_app b _ _ Hwf R) as Ha. rewrite length_app in Ha. simpl in Ha.
  unfold CoAP_Parse. rewrite (proj2 (Z.ltb_ge _ 5)) by lia.
  erewrite (rx_peek_rest b 0), (rx_peek_rest b 1), (rx_peek_rest b 2), (rx_peek_rest b 3) by by rewrite R.
  cbn [mbind option_bind]. cbv zeta.
  match goal with |- context [DPS_RxBufferAvail _ <? coap_tokenLen ?c] => set (c0 := c) end.
  assert (rx_wf (rx_skip b 4)) as W4 by (apply rx_skip_wf; [done|lia]).
  rewrite (proj2 (Z.ltb_ge _ (coap_tokenLen c0))) by (change (coap_tokenLen c0) with 0; apply rx_avail_nonneg, W4).
  change (coap_tokenLen c0 =? 0) with true. cbv iota.
  assert (rx_rest (rx_skip b 4) = (ws ≫= opt_wire) ++ COAP_END_OF_OPTS :: x :: tl) as R4
    by by rewrite rx_skip_rest, R.
  set (b4 := rx_skip b 4) in *. pose proof (rx_avail_app b4 _ _ W4 R4) as Ha4. simpl length in Ha4.
  assert (length ws <= length (ws ≫= opt_wire))%nat as Hlen.
  { clear. induction ws as [|w ws IH]; [done|]. cbn [mbind list_bind]. rewrite length_app.
    pose proof (opt_wire_length w). change (length (w :: ws)) with (S (length ws)). lia. }
  unfold parse_options.
  destruct (count_opts_reads ws x tl (skip_fuel b4) b4 0 W4 Hws R4) as (n & ->); [unfold skip_fuel; lia|].
  cbn [mbind option_bind is_OK negb]. set (b5 := rx_skip b4 (length (ws ≫= opt_wire))).
  assert (rx_wf b5) as W5 by by eapply rx_skip_app_wf.
  assert (rx_rest b5 = COAP_END_OF_OPTS :: x :: tl) as R5 by (subst b5; by rewrite rx_skip_rest, R4, drop_app_length).
  rewrite parse_opts_ends by (right; by eapply at_end_marker). cbn [mbind option_bind is_OK negb].
  pose proof (rx_avail_app b5 [_; _] tl W5 R5) as Ha5. simpl length in Ha5.
  rewrite (proj2 (Z.eqb_neq _ 0)), (proj2 (Z.ltb_ge _ 2)) by lia.
  erewrite (rx_peek_rest b5 0) by by rewrite R5. cbn [mbind option_bind].
  change (negb (COAP_END_OF_OPTS =? COAP_END_OF_OPTS)) with false. cbv iota.
  do 2 eexists. split_and!; [done|apply rx_skip_wf; [done|lia]|by rewrite rx_skip_rest, R5|done|done].
Qed.

(** An option as the callers give it. *)
Definition opt_ok (o : CoAP_Option) : Prop :=
  is_byte (opt_id o) /\ 0 <= opt_len o < 269 + 2 ^ 16 /\
  match opt_val o with Some v => Forall is_byte v | None => opt_len o = 0 end.

#[export] Instance opt_ok_dec o : Decision (opt_ok o).
Proof. unfold opt_ok. destruct (opt_val o); apply _. Defined.

Lemma tx_put_inv b bs b' : tx_put b bs = Some b' -> tx_fits b (length bs) /\ b' = tx_app b bs.
Proof.
  unfold tx_put, mem_write, tx_fits. case_decide; [|done]. cbn [mbind option_bind]. by intros [= <-].
Qed.

Lemma memcpy_s_inv b dmax src m :
  memcpy_s (tx_mem b) (tx_pos b) dmax src = Some (true, m) ->
  tx_fits b (length src) /\ mkTx m (tx_pos b + length src) = tx_app b src.
Proof.
  unfold memcpy_s. destruct (_ <=? _); destruct (mem_write _ _ _) eqn:E; try done.
  intros [= <-]. apply (tx_put_inv b src). unfold tx_put. by rewrite E.
Qed.

Lemma opt_wire_split d val f db r l lb r' :
  option_nibble d = (f, db, r) -> option_nibble (Z.of_nat (length val)) = (l, lb, r') ->
  opt_wire (d, val) = (u8 (f ≪ 4) .| l :: db ++ lb) ++ val.
Proof. intros E1 E2. unfold opt_wire. cbn [fst snd]. by rewrite E1, E2. Qed.

Lemma opt_wire_bytes w : wire_ok w -> Forall is_byte (opt_wire w).
Proof.
  intros (Hd & Hl & Hv). unfold opt_wire. destruct (option_nibble w.1) as [[d db] dr] eqn:ED.
  destruct (option_nibble (Z.of_nat (length w.2))) as [[l lb] lr] eqn:EL.
  destruct (nibble_range w.1 _ _ _ ltac:(lia) ED) as (Rd & Bd & _).
  destruct (nibble_range (Z.of_nat (length w.2)) _ _ _ ltac:(lia) EL) as (Rl & Bl & _).
  apply Forall_app_2; [|done]. constructor; [by apply head_byte|]. by apply Forall_app_2.
Qed.

(** The value of an option, and the rest of the loop. *)
Lemma write_value o opts last b buf' :
  tx_wf b -> 0 <= opt_len o < 269 + 2 ^ 16 ->
  match opt_val o with Some v => Forall is_byte v | None => opt_len o = 0 end ->
  match opt_val o with
  | Some val =>
      if opt_len o =? 0 then write_options opts last b else
      src ← mem_read val 0 (Z.to_nat (opt_len o));
      '(ok, mem) ← memcpy_s (tx_mem b) (tx_pos b) (DPS_TxBufferSpace b) src;
      if negb (ok : bool) then Some (DPS_ERR_RESOURCES, mkTx mem (tx_pos b))
      else write_options opts last (mkTx mem (tx_pos b + length src))
  | None => write_options opts last b
  end = Some (DPS_OK, buf') ->
  exists val last', Z.of_nat (length val) = opt_len o /\ Forall is_byte val /\
    tx_fits b (length val) /\ write_options opts last' (tx_app b val) = Some (DPS_OK, buf').
Proof.
  intros W Hlen Hval E.
  assert (opt_len o = 0 -> write_options opts last b = Some (DPS_OK, buf') ->
    exists val last', Z.of_nat (length val) = opt_len o /\ Forall is_byte val /\
    tx_fits b (length val) /\ write_options opts last' (tx_app b val) = Some (DPS_OK, buf')) as Hnone.
  { intros E0 Ew. exists [], last. rewrite tx_app_nil by done. split_and!; [simpl; lia|constructor| |done].
    destruct W. unfold tx_fits. simpl. lia. }
  destruct (opt_val o) as [v|]; [|auto]. destruct (Z.eqb_spec (opt_len o) 0); [auto|].
  unfold mem_read in E. case_decide as Hr; [|done]. cbn [mbind option_bind] in E.
  destruct (memcpy_s _ _ _ _) as [[[] m]|] eqn:EM; [|done|done]. cbn [mbind option_bind negb] in E.
  destruct (memcpy_s_inv _ _ _ _ EM) as [F Em]. rewrite Em in E.
  exists (take (Z.to_nat (opt_len o)) v), last. split_and!; [|by apply Forall_take|done|done].
  rewrite length_take. lia.
Qed.

(** What the loop writes, if it ends well, is a sequence of options. *)
Lemma write_options_wire opts : forall last buf buf',
  tx_wf buf -> Forall opt_ok opts -> write_options opts last buf = Some (DPS_OK, buf') ->
  exists ws, Forall wire_ok ws /\ tx_fits buf (length (ws ≫= opt_wire)) /\ buf' = tx_app buf (ws ≫= opt_wire).
Proof.
  induction opts as [|o opts IH]; intros last buf buf' Hwf Ho E.
  { injection E as <-. exists []. split_and!; [constructor| |by rewrite tx_app_nil].
    destruct Hwf. unfold tx_fits. simpl. lia. }
  inversion_clear Ho as [|? ? (Hid & Hlen & Hval) Ho']. cbn [write_options] in E.
  destruct (option_nibble (u16 (opt_id o - last))) as [[d db] dr] eqn:ED.
  destruct (option_nibble (opt_len o)) as [[lf lb] lr] eqn:EL.
  destruct (tx_put buf _) as [b1|] eqn:E1; [|done]. cbn [mbind option_bind] in E.
  assert (0 <= u16 (opt_id o - last) < 2 ^ 16) as Hd by by apply Z.mod_pos_bound.
  apply tx_put_inv in E1 as [F1 ->]. 
  destruct (nibble_range _ _ _ _ (proj1 Hd) ED) as (Rd & Bd & _).
  destruct (nibble_range _ _ _ _ (proj1 Hlen) EL) as (Rl & Bl & _).
  set (hd := u8 (d ≪ 4) .| lf :: db ++ lb) in *.
  assert (Forall is_byte hd) as Hhd by (constructor; [by apply head_byte|by apply Forall_app_2]).
  assert (tx_wf (tx_app buf hd)) as W1 by auto with dps.
  destruct (write_value o opts _ _ _ W1 Hlen Hval E) as (val & last' & Hvl & Hvb & F2 & E').
  destruct (IH _ _ _ (tx_app_wf _ _ W1 F2 Hvb) Ho' E') as (ws & Hws & F3 & ->).
  assert (opt_wire (u16 (opt_id o - last), val) = hd ++ val) as Ew.
  { rewrite <- Hvl in EL. exact (opt_wire_split _ _ _ _ _ _ _ _ ED EL). }
  exists ((u16 (opt_id o - last), val) :: ws). cbn [mbind list_bind]. rewrite Ew. split_and!.
  - constructor; [|done]. unfold wire_ok. cbn [fst snd]. split_and!; [lia|lia|lia|done].
  - rewrite !tx_app_fits in F3 by done. rewrite !length_app. by rewrite <- Nat.add_assoc.
  - rewrite <- app_assoc, !tx_app_app; auto with dps.
Qed.

Lemma header_bytes msgId code : is_word 16 msgId -> is_byte code -> Forall is_byte (header_wire msgId code).
Proof.
  intros [Hl Hh] Hc. unfold header_wire. change 0xFF with (Z.ones 8).
  rewrite Z.land_ones, Z.shiftr_div_pow2 by lia.
  do 3 (constructor; [first [done|unfold is_byte; solve_words]|]). constructor; [|done]. by apply Z.mod_pos_bound.
Qed.

(** Whatever options are composed, the parser finds the payload behind them. *)
Lemma composed_is_parsed msgId code opts payload mem msgId' buf alloc :
  is_word 16 msgId -> is_byte code -> Forall opt_ok opts -> Forall is_byte payload -> payload <> [] ->
  Forall is_byte mem -> Z.of_nat (length mem) + Z.of_nat (length payload) < 2 ^ 32 ->
  CoAP_Compose msgId code opts (Z.of_nat (length payload)) (Some mem) = Some (DPS_OK, msgId', buf) ->
  let message := tx_written buf ++ payload in
  exists b c, CoAP_Parse (mkRx message (length message) 0) coap_zero alloc = Some (DPS_OK, b, c) /\
    rx_wf b /\ rx_rest b = payload /\
    coap_type c = COAP_TYPE_NON_CONFIRMABLE /\ coap_code c = code /\ msgId' = u16 (msgId + 1).
Proof.
  intros Hid Hc Ho Hp Hne Hm Hl E. unfold CoAP_Compose in E.
  destruct (options_size opts 0 0) as [size|]; [|done]. cbv zeta in E.
  assert ((0 <? Z.of_nat (length payload)) = true) as Hpos by (apply Z.ltb_lt; destruct payload; simpl; [done|lia]).
  rewrite Hpos in E. unfold DPS_TxBufferInit in E. case_decide.
  { done. }
  set (b0 := mkTx (take _ mem) 0) in E. cbn [is_OK negb] in E.
  assert (tx_wf b0) as W0.
  { split_and!; simpl; [lia|rewrite length_take; lia|by apply Forall_take]. }
  set (hd := [_; code; _; _]) in E. change hd with (header_wire msgId code) in E. clear hd.
  destruct (tx_put b0 _) as [b1|] eqn:E1; [|done]. cbn [mbind option_bind] in E.
  apply tx_put_inv in E1 as [F1 ->].
  assert (Forall is_byte (header_wire msgId code)) as Hh by by apply header_bytes.
  destruct (write_options opts 0 _) as [[ret b2]|] eqn:E2; [|done]. cbn [mbind option_bind] in E.
  destruct ret; try done. cbn [is_OK negb] in E.
  assert (tx_wf (tx_app b0 (header_wire msgId code))) as W1 by auto with dps.
  apply write_options_wire in E2 as (ws & Hws & F2 & ->); [|done|done].
  destruct (tx_put _ [COAP_END_OF_OPTS]) as [b3|] eqn:E3; [|done]. cbn [mbind option_bind] in E.
  apply tx_put_inv in E3 as [F3 ->]. injection E as <- <-.
  assert (Forall is_byte (ws ≫= opt_wire)) as Hwb.
  { clear -Hws. induction Hws; [constructor|]. cbn [mbind list_bind]. apply Forall_app_2; [by apply opt_wire_bytes|done]. }
  assert (tx_wf (tx_app (tx_app b0 (header_wire msgId code)) (ws ≫= opt_wire))) as W2 by auto with dps.
  intros message. assert (message = header_wire msgId code ++ (ws ≫= opt_wire) ++ COAP_END_OF_OPTS :: payload) as Em.
  { subst message. rewrite !tx_app_written by done. unfold tx_written at 1. cbn [tx_pos b0 take app].
    by rewrite <- !app_assoc. }
  assert (Z.of_nat (length message) < 2 ^ 32) as Hml.
  { unfold message. rewrite length_app. unfold tx_written. rewrite length_take, tx_app_length, !tx_app_length by done.
    subst b0. cbn [tx_mem]. rewrite length_take. lia. }
  destruct payload as [|x tl]; [done|].
  destruct (CoAP_Parse_reads (mkRx message (length message) 0) msgId code ws x tl alloc) as (b & c & -> & W & R & T & C).
  - split_and!; [simpl; lia|simpl; lia|done|]. cbn [rx_mem]. rewrite Em.
    apply Forall_app_2; [done|]. apply Forall_app_2; [done|]. constructor; [done|done].
  - done.
  - by rewrite rx_rest_whole, Em.
  - eauto 10.
Qed.

(** ** The envelope of a publication *)

Lemma payload_length (bufs : list (list Z)) : forall acc,
  0 <= acc -> acc + Z.of_nat (length (concat bufs)) < 2 ^ 64 ->
  fold_left (fun acc buf => u64 (acc + Z.of_nat (length buf))) bufs acc = acc + Z.of_nat (length (concat bufs)).
Proof.
  induction bufs as [|buf bufs IH]; intros acc Ha Hl; simpl in *; [lia|].
  rewrite length_app in *. rewrite u64_small by lia. rewrite IH by lia. lia.
Qed.

Lemma wrap_composes msgId mem len :
  0 < len -> (19 <= length mem)%nat ->
  exists buf, CoAP_Compose msgId (COAP_CODE COAP_REQUEST COAP_PUT) wrap_options len (Some mem) =
    Some (DPS_OK, u16 (msgId + 1), buf) /\ tx_pos buf = 16%nat /\ length (tx_mem buf) = 19%nat.
Proof.
  intros Hlen Hm. unfold CoAP_Compose. rewrite (proj2 (Z.ltb_lt 0 len) Hlen).
  assert (options_size wrap_options 0 0 = Some 11) as -> by done. cbv zeta.
  change (Z.to_nat (u64 (6 + 0 + u64 (11 + 1) + 1))) with 19%nat.
  unfold DPS_TxBufferInit. rewrite decide_False by done.
  assert (length (take 19 mem) = 19%nat) as Hl by (rewrite length_take; lia).
  destruct (take 19 mem) as [|m0 m] in *; [done|]. do 18 (destruct m as [|? m]; [done|]). destruct m; [|done].
  generalize (msgId ≫ 8), (msgId .& 0xFF), (u16 (msgId + 1)). intros h1 h2 next.
  eexists. split; [vm_compute; reflexivity|]. done.
Qed.

Lemma gets_bind {A B} (f : DPS_Node -> A) (k : A -> M B) n : (x ← gets f; k x) n = k (f n) n.
Proof. done. Qed.
Lemma lift_bind {A B} (x : A) (k : A -> M B) n : (y ← lift (Some x); k y) n = k x n.
Proof. done. Qed.

Section envelope.
Context `{Env : Environment}.
Context (hp : DPS_NetEndpoint -> DPS_RxBuffer -> bool -> M DPS_Status).
Context (ha : DPS_NetEndpoint -> DPS_RxBuffer -> M DPS_Status).

(** C11 A message for the multicast group goes through its envelope: [CoAP_Wrap] fills in
    the first buffer and leaves the message, and a running node that receives the
    buffers decodes exactly the bytes of the message, as a multicast one, whatever
    malloc does and whatever the transport reports. *)
Theorem multicast_enveloped msgId spare message mem e status alloc n :
  is_word 16 msgId -> Forall (Forall is_byte) message -> concat message <> [] ->
  (19 <= length mem)%nat -> Forall is_byte mem ->
  Z.of_nat (length mem) + Z.of_nat (length (concat message)) < 2 ^ 32 ->
  n_state n = DPS_NODE_RUNNING ->
  exists envelope b,
    CoAP_Wrap msgId (spare :: message) (Some mem) = Some (DPS_OK, u16 (msgId + 1), envelope :: message) /\
    length envelope = 16%nat /\
    rx_wf b /\ rx_rest b = concat message /\
    let bytes := concat (envelope :: message) in
    OnMulticastReceive hp ha e status (mkRx bytes (length bytes) 0) alloc n = DecodeRequest hp ha e b true n.
Proof.
  intros Hid Hmsg Hne Hm Hmem Hl Hrun.
  assert (0 < Z.of_nat (length (concat message))) as Hpos by (destruct (concat message); simpl; [done|lia]).
  destruct (wrap_composes msgId mem _ Hpos Hm) as (buf & E & Ep & El).
  destruct (composed_is_parsed msgId (COAP_CODE COAP_REQUEST COAP_PUT) wrap_options _ mem _ buf alloc Hid ltac:(done)
    ltac:(by apply (bool_decide_unpack _)) ltac:(by apply Forall_concat) Hne Hmem Hl E)
    as (b & c & Eb & W & R & T & _ & _).
  exists (tx_written buf), b. split_and!; [| |done|done|].
  - unfold CoAP_Wrap. cbn [tail]. rewrite payload_length by lia. rewrite Z.add_0_l, E. cbn [mbind option_bind is_OK].
    unfold DPS_TxBufferUsed, tx_written. by rewrite Ep.
  - unfold tx_written. rewrite length_take. lia.
  - intros bytes. unfold OnMulticastReceive. rewrite gets_bind, Hrun. cbn [bool_decide negb].
    change (negb (bool_decide _)) with false. cbv iota.
    subst bytes. cbn [concat]. rewrite Eb, lift_bind. cbn [is_OK negb]. by rewrite T.
Qed.
End envelope.

(** ** On concrete inputs *)

Lemma multicast_enveloped_witness :
  let mem := replicate 19 0 in
  exists envelope b,
    CoAP_Wrap 7 [[]; [0x85; 1]; [2; 0xA0; 0xA0; 0xA0]] (Some mem) = Some (DPS_OK, u16 (7 + 1), envelope :: [[0x85; 1]; [2; 0xA0; 0xA0; 0xA0]]) /\
    length envelope = 16%nat /\
    rx_wf b /\ rx_rest b = [0x85; 1; 2; 0xA0; 0xA0; 0xA0] /\
    let bytes := concat (envelope :: [[0x85; 1]; [2; 0xA0; 0xA0; 0xA0]]) in
    @OnMulticastReceive toy_env (fun _ _ _ => mret DPS_OK) (fun _ _ => mret DPS_OK) (mkEp (toy_addr 5) None) DPS_OK
      (mkRx bytes (length bytes) 0) false toy_node =
    @DecodeRequest toy_env (fun _ _ _ => mret DPS_OK) (fun _ _ => mret DPS_OK) (mkEp (toy_addr 5) None) b true toy_node.
Proof.
  intros mem. apply (@multicast_enveloped toy_env); try (vm_compute; reflexivity); try done.
  all: apply (bool_decide_unpack _); vm_compute; done.
Defined.

Lemma CoAP_Parse_safe_witness :
  let b := mkRx [0x50; 3; 0; 7; 0xB1; 97; 0x11; 60; 0xFF; 0x85] 10 0 in
  exists ret b' c, CoAP_Parse b coap_zero true = Some (ret, b', c) /\ rx_adv b b' /\
    (ret = DPS_OK -> coap_numOpts c = 0 /\ coap_tokenLen c <= 8).
Proof. intros b. apply CoAP_Parse_safe. apply (bool_decide_unpack _); vm_compute; done. Defined.

(** Four empty options whose ids are 13 apart take two bytes each, but one byte is
    counted: the last one is written behind the end of the block. *)
Example compose_overflows :
  let opts := [mkOpt 13 0 None; mkOpt 26 0 None; mkOpt 39 0 None; mkOpt 52 0 None] in
  options_size opts 0 0 = Some 4 /\ CoAP_Compose 7 3 opts 0 (Some (replicate 11 0)) = None.
Proof. vm_compute. done. Qed.

(** The difference is reduced by the encoding before it is added up, so that the
    option after one that is 13 or more apart is given another id. *)
Example compose_changes_ids :
  let opts := [mkOpt 11 0 None; mkOpt 40 0 None; mkOpt 41 1 (Some [5])] in
  let wire := [0x50; 3; 0; 7; 0xB0; 0xD0; 16; 0xD1; 1; 5; 0xFF] in
  CoAP_Compose 7 3 opts 1 (Some (replicate 13 0)) = Some (DPS_OK, 8, mkTx (wire ++ [0; 0]) 11) /\
  parse_opts 4 (mkRx (wire ++ [1]) 12 4) 0 (replicate 3 (mkOpt 0 0 None)) 0 =
    Some (DPS_OK, mkRx (wire ++ [1]) 12 10,
          [mkOpt 11 0 (Some []); mkOpt 40 0 (Some []); mkOpt 54 1 (Some [5])], 3).
Proof. vm_compute. done. Qed.
