(* ===== verification/Queue.v ===== *)
(** * Linked queues ([src/queue.c], [src/queue.h])

    A queue is a circular doubly linked list through a link that every item has at
    its beginning, the queue itself included.  The heap is a map from the addresses of
    the links to their two pointers.  The operations of [queue.c] are shown to
    implement the list of the items, and what taking an item out twice does is
    computed, since the requests of a node are taken out twice ([dps.c]:
    [RunRequestsTask], then [DPS_NodeRequestCancel]). *)
From S2P Require Import Prelude.
From stdpp Require Import gmap.
#[local] Open Scope Z_scope.

(** The address of a link. *)
Abbreviation link := positive.

Record DPS_Queue := mkQueue { q_prev : link; q_next : link }.

Abbreviation links := (gmap link DPS_Queue).

(** [q->next = v] and [q->prev = v]; undefined if there is no link. *)
Definition set_next (h : links) (q v : link) : option links :=
  l ← h !! q; Some (<[q := mkQueue (q_prev l) v]> h).
Definition set_prev (h : links) (q v : link) : option links :=
  l ← h !! q; Some (<[q := mkQueue v (q_next l)]> h).

Definition DPS_QueueInit (h : links) (queue : link) : links := <[queue := mkQueue queue queue]> h.

Definition DPS_QueueEmpty (h : links) (queue : link) : option bool :=
  l ← h !! queue; Some (bool_decide (queue = q_next l)).

Definition DPS_QueueFront (h : links) (queue : link) : option link := l ← h !! queue; Some (q_next l).
Definition DPS_QueueBack (h : links) (queue : link) : option link := l ← h !! queue; Some (q_prev l).

Definition DPS_QueuePushBack (h : links) (queue item : link) : option links :=
  h ← set_next h item queue;
  q ← h !! queue;
  h ← set_prev h item (q_prev q);
  i ← h !! item;
  h ← set_next h (q_prev i) item;
  set_prev h queue item.

Definition DPS_QueueRemove (h : links) (item : link) : option links :=
  i ← h !! item;
  h ← set_next h (q_prev i) (q_next i);
  i ← h !! item;
  set_prev h (q_next i) (q_prev i).

(** ** Requests of a node ([dps.c])

    The item of a request is the beginning of the request; the lock and waking the
    task are left out, [sent] is the outcome of [uv_async_send]. *)

Definition DPS_NodeRequestInit (h : links) (req : link) : links := DPS_QueueInit h req.

(** The result is true for [DPS_OK]; on failure the request is taken out and freed. *)
Definition DPS_NodeRequestSchedule (h : links) (requestQueue req : link) (sent : bool)
  : option (bool * links) :=
  h ← DPS_QueuePushBack h requestQueue req;
  if sent then Some (true, h)
  else h ← DPS_QueueRemove h req; Some (false, delete req h).

Definition DPS_NodeRequestCancel (h : links) (req : option link) : option links :=
  match req with Some req => DPS_QueueRemove h req | None => Some h end.

(** ** A queue and the list of its items *)

Definition next (h : links) (a : link) : option link := q_next <$> h !! a.
Definition prev (h : links) (a : link) : option link := q_prev <$> h !! a.

(** From [a] on, the links lead through [l] and back. *)
Fixpoint seg (h : links) (a : link) (l : list link) : Prop :=
  match l with
  | [] => True
  | b :: l => next h a = Some b /\ prev h b = Some a /\ seg h b l
  end.

Definition is_queue (h : links) (q : link) (items : list link) : Prop :=
  NoDup (q :: items) /\ seg h q (items ++ [q]).

#[export] Instance seg_dec h a l : Decision (seg h a l).
Proof. revert a. induction l; simpl; apply _. Defined.
#[export] Instance is_queue_dec h q items : Decision (is_queue h q items).
Proof. unfold is_queue. apply _. Defined.

(** The heap is the same but for the links of [l]. *)
Definition same_but (l : list link) (h h' : links) : Prop := forall a, a ∉ l -> h' !! a = h !! a.

Lemma last_cons' (l : list link) a b : List.last (b :: l) a = List.last l b.
Proof. simpl. destruct l as [|c l]; [done|]. revert c. induction l as [|d l IH]; intros c; [done|]. exact (IH d). Qed.

Lemma seg_app h a l1 l2 : seg h a (l1 ++ l2) <-> seg h a l1 /\ seg h (List.last l1 a) l2.
Proof.
  revert a. induction l1 as [|b l1 IH]; intros a; [simpl; tauto|].
  rewrite last_cons'. simpl. rewrite IH. tauto.
Qed.

Lemma last_in (l : list link) a : List.last l a ∈ a :: l.
Proof.
  revert a. induction l as [|b l IH]; intros a; [apply elem_of_cons; auto|].
  rewrite last_cons', elem_of_cons. right. apply IH.
Qed.

(** Segments depend on the pointers that they follow only. *)
Lemma seg_frame h h' a l :
  (forall b, b ∈ removelast (a :: l) -> next h' b = next h b) ->
  (forall b, b ∈ l -> prev h' b = prev h b) -> seg h a l -> seg h' a l.
Proof.
  revert a. induction l as [|b l IH]; intros a Hn Hp; [done|].
  change (removelast (a :: b :: l)) with (a :: removelast (b :: l)) in Hn.
  intros (E1 & E2 & Hs). split_and!.
  - rewrite Hn; [done|set_solver].
  - rewrite Hp; [done|set_solver].
  - apply IH; [|set_solver|done]. set_solver.
Qed.

(** The last link of a list without duplicates is not among those before it. *)
Lemma last_not_before (l : list link) a : NoDup (a :: l) -> List.last l a ∉ removelast (a :: l).
Proof.
  revert a. induction l as [|b l IH]; intros a Hd; [by intros ?%elem_of_nil|].
  change (removelast (a :: b :: l)) with (a :: removelast (b :: l)).
  inversion_clear Hd as [|? ? Ha Hd']. specialize (IH b Hd').
  rewrite last_cons', elem_of_cons. intros [E|E]; [|done].
  apply Ha. rewrite <- E. apply last_in.
Qed.

Lemma removelast_sub (l : list link) b : b ∈ removelast l -> b ∈ l.
Proof.
  induction l as [|a l IH]; [done|]. destruct l as [|c l]; [simpl; set_solver|].
  change (removelast (a :: c :: l)) with (a :: removelast (c :: l)). set_solver.
Qed.

Lemma set_next_ok h q v l : h !! q = Some l -> set_next h q v = Some (<[q := mkQueue (q_prev l) v]> h).
Proof. intros E. unfold set_next. by rewrite E. Qed.
Lemma set_prev_ok h q v l : h !! q = Some l -> set_prev h q v = Some (<[q := mkQueue v (q_next l)]> h).
Proof. intros E. unfold set_prev. by rewrite E. Qed.

(** What the two assignments do to the pointers. *)
Lemma set_next_pointers h q v h' :
  set_next h q v = Some h' ->
  (forall a, prev h' a = prev h a) /\ next h' q = Some v /\ (forall a, a <> q -> next h' a = next h a).
Proof.
  unfold set_next, prev, next. destruct (h !! q) as [l|] eqn:E; [|done]. intros [= <-]. split_and!.
  - intros a. destruct (decide (a = q)) as [->|]; [by rewrite lookup_insert_eq, E|by rewrite lookup_insert_ne].
  - by rewrite lookup_insert_eq.
  - intros a Ha. by rewrite lookup_insert_ne.
Qed.
Lemma set_prev_pointers h q v h' :
  set_prev h q v = Some h' ->
  (forall a, next h' a = next h a) /\ prev h' q = Some v /\ (forall a, a <> q -> prev h' a = prev h a).
Proof.
  unfold set_prev, prev, next. destruct (h !! q) as [l|] eqn:E; [|done]. intros [= <-]. split_and!.
  - intros a. destruct (decide (a = q)) as [->|]; [by rewrite lookup_insert_eq, E|by rewrite lookup_insert_ne].
  - by rewrite lookup_insert_eq.
  - intros a Ha. by rewrite lookup_insert_ne.
Qed.
Lemma set_next_total h q v : is_Some (h !! q) -> exists h', set_next h q v = Some h' /\ same_but [q] h h'.
Proof.
  intros [l E]. unfold set_next. rewrite E. eexists. split; [done|].
  intros a Ha. rewrite lookup_insert_ne; [done|set_solver].
Qed.
Lemma set_prev_total h q v : is_Some (h !! q) -> exists h', set_prev h q v = Some h' /\ same_but [q] h h'.
Proof.
  intros [l E]. unfold set_prev. rewrite E. eexists. split; [done|].
  intros a Ha. rewrite lookup_insert_ne; [done|set_solver].
Qed.

Lemma set_next_dom h q v h' : set_next h q v = Some h' -> forall a, is_Some (h !! a) -> is_Some (h' !! a).
Proof. unfold set_next. destruct (h !! q); [|done]. intros [= <-] a Ha. apply lookup_insert_is_Some'. auto. Qed.
Lemma set_prev_dom h q v h' : set_prev h q v = Some h' -> forall a, is_Some (h !! a) -> is_Some (h' !! a).
Proof. unfold set_prev. destruct (h !! q); [|done]. intros [= <-] a Ha. apply lookup_insert_is_Some'. auto. Qed.

Lemma set_next_same h q v : next h q = Some v -> set_next h q v = Some h.
Proof.
  unfold next, set_next. destruct (h !! q) as [[p n]|] eqn:E; [|done]. intros [= <-]. simpl. by rewrite insert_id.
Qed.
Lemma set_prev_same h q v : prev h q = Some v -> set_prev h q v = Some h.
Proof.
  unfold prev, set_prev. destruct (h !! q) as [[p n]|] eqn:E; [|done]. intros [= <-]. simpl. by rewrite insert_id.
Qed.

Lemma link_of h a p n : prev h a = Some p -> next h a = Some n -> h !! a = Some (mkQueue p n).
Proof. unfold prev, next. destruct (h !! a) as [[]|]; [|done]. simpl. congruence. Qed.
Lemma next_some h a n : next h a = Some n -> is_Some (h !! a).
Proof. unfold next. destruct (h !! a); [eauto|done]. Qed.
Lemma prev_some h a p : prev h a = Some p -> is_Some (h !! a).
Proof. unfold prev. destruct (h !! a); [eauto|done]. Qed.

Lemma remove_pointers h x p n :
  prev h x = Some p -> next h x = Some n -> p <> x -> is_Some (h !! p) -> is_Some (h !! n) ->
  exists h', DPS_QueueRemove h x = Some h' /\ next h' p = Some n /\ prev h' n = Some p /\
    (forall a, a <> p -> next h' a = next h a) /\ (forall a, a <> n -> prev h' a = prev h a) /\
    same_but [p; n] h h'.
Proof.
  intros Hp Hn Hpx Dp Dn. unfold DPS_QueueRemove. rewrite (link_of _ _ _ _ Hp Hn). cbn [mbind option_bind q_prev q_next].
  destruct (set_next_total h p n Dp) as (h1 & E1 & S1). rewrite E1. cbn [mbind option_bind].
  rewrite S1, (link_of _ _ _ _ Hp Hn) by set_solver. cbn [mbind option_bind q_prev q_next].
  destruct (set_prev_total h1 n p (set_next_dom _ _ _ _ E1 _ Dn)) as (h2 & E2 & S2). rewrite E2.
  destruct (set_next_pointers _ _ _ _ E1) as (P1 & N1 & N1'), (set_prev_pointers _ _ _ _ E2) as (N2 & P2 & P2').
  exists h2. split_and!; [done|by rewrite N2|done|intros; rewrite N2; auto|intros; rewrite P2'; auto|].
  intros a Ha. rewrite S2, S1; set_solver.
Qed.

Lemma push_pointers h q x p :
  prev h q = Some p -> is_Some (h !! x) -> is_Some (h !! p) -> x <> q -> p <> x ->
  exists h', DPS_QueuePushBack h q x = Some h' /\
    next h' x = Some q /\ prev h' x = Some p /\ next h' p = Some x /\ prev h' q = Some x /\
    (forall a, a <> x -> a <> p -> next h' a = next h a) /\ (forall a, a <> x -> a <> q -> prev h' a = prev h a) /\
    same_but [x; p; q] h h'.
Proof.
  intros Hp Dx Dp Hxq Hpx. unfold DPS_QueuePushBack.
  destruct (set_next_total h x q Dx) as (h1 & E1 & S1). rewrite E1. cbn [mbind option_bind].
  rewrite S1 by set_solver. unfold prev in Hp. destruct (h !! q) as [lq|] eqn:Eq; [|done]. injection Hp as Hp.
  cbn [mbind option_bind]. rewrite Hp.
  destruct (set_prev_total h1 x p (set_next_dom _ _ _ _ E1 _ Dx)) as (h2 & E2 & S2). rewrite E2. cbn [mbind option_bind].
  destruct (set_next_pointers _ _ _ _ E1) as (P1 & N1 & N1'), (set_prev_pointers _ _ _ _ E2) as (N2 & P2 & P2').
  rewrite (link_of h2 x p q) by congruence. cbn [mbind option_bind q_prev].
  destruct (set_next_total h2 p x) as (h3 & E3 & S3).
  { eapply set_prev_dom, set_next_dom; eauto. }
  rewrite E3. cbn [mbind option_bind]. destruct (set_prev_total h3 q x) as (h4 & E4 & S4).
  { eapply set_next_dom, set_prev_dom, set_next_dom; eauto. }
  destruct (set_next_pointers _ _ _ _ E3) as (P3 & N3 & N3'), (set_prev_pointers _ _ _ _ E4) as (N4 & P4 & P4').
  exists h4. split_and!; [done| | | |done| | |].
  - rewrite N4, N3', N2 by done. done.
  - rewrite P4', P3 by done. done.
  - by rewrite N4.
  - intros. rewrite N4, N3', N2, N1' by done. done.
  - intros. rewrite P4', P3, P2', P1 by done. done.
  - intros a Ha. rewrite S4, S3, S2, S1; set_solver.
Qed.

(** ** The operations on the list of the items *)

Lemma queue_parts h q items :
  is_queue h q items ->
  NoDup (q :: items) /\ seg h q items /\
  next h (List.last items q) = Some q /\ prev h q = Some (List.last items q).
Proof.
  intros [Hd Hs]. apply seg_app in Hs as [Hs Hl]. simpl in Hl. tauto.
Qed.

Lemma seg_dom h a l b : seg h a l -> b ∈ l -> is_Some (h !! b).
Proof.
  revert a. induction l as [|c l IH]; intros a; [by intros _ ?%elem_of_nil|].
  intros (_ & Hp & Hs) [->|Hb]%elem_of_cons; [by eapply prev_some|eauto].
Qed.

Lemma queue_dom h q items a : is_queue h q items -> a ∈ q :: items -> is_Some (h !! a).
Proof.
  intros (_ & Hs & _ & Hp)%queue_parts [->|Ha]%elem_of_cons; [by eapply prev_some|by eapply seg_dom].
Qed.

Lemma push_back h q items x :
  is_queue h q items -> x ∉ q :: items -> is_Some (h !! x) ->
  exists h', DPS_QueuePushBack h q x = Some h' /\ is_queue h' q (items ++ [x]) /\
    same_but (x :: q :: items) h h'.
Proof.
  intros Hq Hx Dx. pose proof (queue_parts _ _ _ Hq) as (Hd & Hs & Hn & Hp).
  set (p := List.last items q) in *. assert (p ∈ q :: items) as Hpin by apply last_in.
  assert (p <> x) as Hpx by (intros ->; done).
  assert (x <> q) as Hxq by (intros ->; apply Hx, elem_of_cons; auto).
  destruct (push_pointers h q x p Hp Dx (queue_dom _ _ _ _ Hq Hpin) Hxq Hpx)
    as (h' & E & Nx & Px & Np & Pq & Ns & Ps & Sb).
  exists h'. split_and!; [done| |].
  - split.
    + rewrite app_comm_cons. apply NoDup_app. split_and!; [done| |apply NoDup_singleton].
      intros a Ha ->%list_elem_of_singleton. done.
    + rewrite <- app_assoc. apply seg_app. split; [|fold p; simpl; auto].
      apply (seg_frame h); [| |done].
      * intros b Hb. apply Ns; [intros ->; by apply Hx, removelast_sub|].
        intros ->. by apply (last_not_before items q Hd).
      * intros b Hb. inversion_clear Hd. apply Ps; [intros ->; by apply Hx, elem_of_cons; right|by intros ->].
  - intros a Ha. apply Sb. rewrite !elem_of_cons in *. intros [->|[->|[->|?%elem_of_nil]]]; [tauto|tauto|tauto|done].
Qed.

Lemma remove_item h q l1 x l2 :
  is_queue h q (l1 ++ x :: l2) ->
  exists h', DPS_QueueRemove h x = Some h' /\ is_queue h' q (l1 ++ l2) /\
    h' !! x = h !! x /\ same_but (q :: l1 ++ l2) h h'.
Proof.
  intros Hq. pose proof Hq as [Hd Hs]. set (p := List.last l1 q).
  destruct (l2 ++ [q]) as [|n l3] eqn:El; [by apply app_nil in El as []|].
  rewrite <- app_assoc in Hs. cbn [app] in Hs. rewrite El in Hs.
  apply seg_app in Hs as (Hs1 & Np & Px & Nx & Pn & Hs3). fold p in Np, Px.
  assert (p ∈ q :: l1) as Hpin by apply last_in.
  assert (n ∈ q :: l2) as Hnin.
  { assert (n ∈ l2 ++ [q]) as Hn by (rewrite El; apply elem_of_cons; auto).
    rewrite elem_of_app, list_elem_of_singleton in Hn. rewrite elem_of_cons. tauto. }
  assert (NoDup (q :: l1) /\ NoDup (l2 ++ [q]) /\ x ∉ q :: l1 /\ x ∉ q :: l2 /\
    (forall a, a ∈ q :: l1 -> a ∉ l2) /\ NoDup (q :: l1 ++ l2)) as (D1 & D2 & Hx1 & Hx2 & Dj & D3).
  { rewrite app_comm_cons in Hd. apply NoDup_app in Hd as (D1 & Dj & D2). inversion_clear D2 as [|? ? Hx D2'].
    assert (forall a, a ∈ q :: l1 -> a ∉ l2) as Dj' by (intros a Ha Ha'; eapply Dj; [done|by right]).
    assert (x ∉ q :: l1) by (intros Ha; eapply Dj; [done|by left]).
    assert (q ∉ l2) by (apply Dj'; by left). split_and!; [done| |done| |done|].
    - apply NoDup_app. split_and!; [done| |apply NoDup_singleton]. by intros a Ha ->%list_elem_of_singleton.
    - intros [->|Ha]%elem_of_cons; [|done]. by apply H, elem_of_cons; left.
    - rewrite app_comm_cons. apply NoDup_app. split_and!; done. }
  assert (p <> x) as Hpx by (intros ->; done).
  assert (n <> x) as Hnx by (intros ->; done).
  destruct (remove_pointers h x p n Px Nx Hpx) as (h' & E & Np' & Pn' & Ns & Ps & Sb).
  { apply (queue_dom _ _ _ _ Hq). rewrite elem_of_cons, elem_of_app in *. tauto. }
  { by eapply prev_some. }
  exists h'. split_and!; [done| | |].
  - split; [done|]. rewrite <- app_assoc, El. apply seg_app. split; [|fold p; cbn [seg]; split_and!; [done|done|]].
    + apply (seg_frame h); [| |done].
      * intros b Hb. apply Ns. intros ->. by apply (last_not_before l1 q D1).
      * intros b Hb. apply Ps. intros ->. inversion_clear D1. apply elem_of_cons in Hnin as [->|Hn]; [done|].
        by apply (Dj n); [right|].
    + rewrite El in D2. inversion_clear D2 as [|? ? Hn D2']. apply (seg_frame h); [| |done].
      * intros b Hb. apply Ns. intros ->. rewrite <- El, removelast_last in Hb. by apply (Dj p).
      * intros b Hb. apply Ps. by intros ->.
  - apply Sb. rewrite !elem_of_cons. intros [->|[->|?%elem_of_nil]]; done.
  - intros a Ha. apply Sb. rewrite !elem_of_cons, elem_of_app in *. intros [->|[->|?%elem_of_nil]]; [tauto|tauto|done].
Qed.

Lemma same_but_queue l h h' q items :
  same_but l h h' -> (forall a, a ∈ q :: items -> a ∉ l) -> is_queue h q items -> is_queue h' q items.
Proof.
  intros Hb Hl [Hd Hs]. split; [done|].
  assert (forall a, a ∈ q :: items -> h' !! a = h !! a) as E by (intros; apply Hb; auto).
  apply (seg_frame h); [| |done]; intros b Hin; unfold next, prev; rewrite E; try done.
  - assert (forall (a : link) l, removelast (a :: l ++ [q]) = a :: l) as Er.
    { intros a l'. by rewrite app_comm_cons, removelast_last. }
    by rewrite Er in Hin.
  - rewrite elem_of_app, list_elem_of_singleton in Hin. rewrite elem_of_cons. tauto.
Qed.

(** C19 The operations of [queue.c] implement a list: a queue is empty when its list is,
    its front and back are the first and the last item (itself if there is none),
    pushing adds at the end, removing takes an item out wherever it is, and nothing
    outside the queue is touched.  A request is scheduled at the end of the list, or,
    if the loop cannot be woken, the list is as before. *)
Theorem queue_refines h q items :
  is_queue h q items ->
  DPS_QueueEmpty h q = Some (bool_decide (items = [])) /\
  DPS_QueueFront h q = Some (hd q items) /\ DPS_QueueBack h q = Some (List.last items q) /\
  (forall x, x ∉ q :: items -> is_Some (h !! x) ->
    exists h', DPS_QueuePushBack h q x = Some h' /\ is_queue h' q (items ++ [x]) /\
      same_but (x :: q :: items) h h') /\
  (forall l1 x l2, items = l1 ++ x :: l2 ->
    exists h', DPS_QueueRemove h x = Some h' /\ is_queue h' q (l1 ++ l2) /\
      same_but (q :: l1 ++ l2) h h') /\
  (forall x sent, x ∉ q :: items ->
    exists h', DPS_NodeRequestSchedule (DPS_NodeRequestInit h x) q x sent = Some (sent, h') /\
      is_queue h' q (if sent then items ++ [x] else items)).
Proof.
  intros Hq. pose proof (queue_parts _ _ _ Hq) as (Hd & Hs & Hn & Hp).
  assert (next h q = Some (hd q items)) as Hf by (destruct items; simpl in *; tauto).
  split_and!.
  - unfold DPS_QueueEmpty, next in *. destruct (h !! q) as [l|]; [|done]. injection Hf as Hf. cbn [mbind option_bind].
    rewrite Hf. f_equal. apply bool_decide_ext. destruct items as [|a items]; simpl; [done|].
    split; [intros ->; apply NoDup_cons in Hd as [Hd _]; by destruct Hd; left|done].
  - unfold DPS_QueueFront, next in *. destruct (h !! q) as [l|]; [|done]. injection Hf as Hf. cbn [mbind option_bind]. by rewrite Hf.
  - unfold DPS_QueueBack, prev in *. destruct (h !! q) as [l|]; [|done]. injection Hp as Hp. cbn [mbind option_bind]. by rewrite Hp.
  - intros x Hx Dx. by apply push_back.
  - intros l1 x l2 ->. destruct (remove_item _ _ _ _ _ Hq) as (h' & E & Q & _ & S). eauto.
  - intros x sent Hx. unfold DPS_NodeRequestSchedule, DPS_NodeRequestInit, DPS_QueueInit.
    assert (is_queue (<[x := mkQueue x x]> h) q items) as Hq'.
    { apply (same_but_queue [x] h); [|set_solver|done]. intros a Ha. rewrite lookup_insert_ne; [done|set_solver]. }
    destruct (push_back _ _ _ x Hq' Hx) as (h1 & -> & Q1 & _); [rewrite lookup_insert_eq; eauto|].
    cbn [mbind option_bind]. destruct sent; [eauto|].
    destruct (remove_item h1 q items x []) as (h2 & -> & Q2 & _ & _); [done|]. cbn [mbind option_bind].
    eexists. split; [done|]. rewrite app_nil_r in Q2. apply (same_but_queue [x] h2); [|set_solver|done].
    intros a Ha. rewrite lookup_delete_ne; [done|set_solver].
Qed.

Lemma queue_refines_witness :
  let h := DPS_QueueInit (DPS_QueueInit ∅ 1%positive) 2%positive in
  is_queue h 1%positive [] /\ DPS_QueueEmpty h 1%positive = Some true.
Proof.
  intros h. assert (is_queue h 1%positive []) as Hq by (apply (bool_decide_unpack _); vm_compute; done).
  split; [done|]. apply (queue_refines h 1%positive [] Hq).
Defined.

(** Taking out an item that was taken out before does what taking out the item that now
    has its place does. *)
Lemma removes_alike h x y p n :
  h !! x = Some (mkQueue p n) -> h !! y = Some (mkQueue p n) -> p <> x -> p <> y ->
  DPS_QueueRemove h x = DPS_QueueRemove h y.
Proof.
  intros Ex Ey Hx Hy. unfold DPS_QueueRemove. rewrite Ex, Ey. cbn [mbind option_bind q_prev q_next].
  unfold set_next. destruct (h !! p) as [l|]; [|done]. cbn [mbind option_bind].
  by rewrite !lookup_insert_ne, Ex, Ey by done.
Qed.

(** [p] and [z] are linked to each other, and nothing else is changed. *)
Record relinked (h h' : links) (p z : link) : Prop := {
  rl_next : next h' p = Some z;
  rl_prev : prev h' z = Some p;
  rl_other_next : forall a, a <> p -> next h' a = next h a;
  rl_other_prev : forall a, a <> z -> prev h' a = prev h a
}.

(** The links of the first of the items after [l1]. *)
Lemma queue_next h q l1 l2 : is_queue h q (l1 ++ l2) ->
  next h (List.last l1 q) = Some (List.hd q l2) /\ prev h (List.hd q l2) = Some (List.last l1 q).
Proof. intros [_ Hs]. rewrite <- app_assoc in Hs. apply seg_app in Hs as [_ Hs]. destruct l2; cbn in *; tauto. Qed.

Lemma remove_relinks h x p z : prev h x = Some p -> next h x = Some z -> p <> x -> is_Some (h !! p) -> is_Some (h !! z) ->
  exists h', DPS_QueueRemove h x = Some h' /\ relinked h h' p z.
Proof.
  intros Hp Hn Hpx Dp Dz. destruct (remove_pointers h x p z Hp Hn Hpx Dp Dz) as (h' & E & N & P & Ns & Ps & _).
  exists h'. split; [done|]. by split.
Qed.

Lemma remove_linked h x p z : prev h x = Some p -> next h x = Some z -> next h p = Some z -> prev h z = Some p ->
  DPS_QueueRemove h x = Some h.
Proof.
  intros Hp Hn Nq Pq. unfold DPS_QueueRemove. rewrite (link_of _ _ _ _ Hp Hn). cbn [mbind option_bind q_prev q_next].
  rewrite set_next_same by done. cbn [mbind option_bind]. rewrite (link_of _ _ _ _ Hp Hn). cbn [mbind option_bind q_prev q_next].
  by rewrite set_prev_same.
Qed.

(** Who is scheduled between the two times, after the last item, is lost. *)
Lemma cancelled_loses h1 q items x y : is_queue h1 q items -> x ∉ q :: items -> y ∉ q :: items -> y <> x ->
  h1 !! x = Some (mkQueue (List.last items q) q) ->
  exists h2 h3, DPS_NodeRequestSchedule (DPS_NodeRequestInit h1 y) q y true = Some (true, h2) /\ is_queue h2 q (items ++ [y]) /\
    DPS_NodeRequestCancel h2 (Some x) = Some h3 /\ is_queue h3 q items.
Proof.
  intros Q1 Hx Hy Hyx Lx. set (p := List.last items q) in *. assert (p ∈ q :: items) as Hpin by apply last_in.
  set (h1' := DPS_NodeRequestInit h1 y).
  assert (same_but [y] h1 h1') as S1'.
  { intros a Ha. unfold h1', DPS_NodeRequestInit, DPS_QueueInit. rewrite lookup_insert_ne; [done|]. intros ->. apply Ha. by left. }
  assert (is_queue h1' q items) as Q1'.
  { apply (same_but_queue [y] h1); [done| |done]. intros a Ha ->%list_elem_of_singleton. done. }
  destruct (push_back h1' q items y Q1' Hy) as (h2 & E2 & Q2 & S2).
  { unfold h1', DPS_NodeRequestInit, DPS_QueueInit. rewrite lookup_insert_eq. eauto. }
  destruct (remove_item h2 q items y [] Q2) as (h3 & E3 & Q3 & _ & _). rewrite app_nil_r in Q3.
  exists h2, h3. split_and!; [unfold DPS_NodeRequestSchedule; fold h1'; by rewrite E2|done| |done].
  cbn [DPS_NodeRequestCancel]. rewrite (removes_alike h2 x y p q); [done| | | |].
  - rewrite S2, S1'; [done|by intros ->%list_elem_of_singleton|].
    rewrite elem_of_cons. intros [->|?]; done.
  - destruct Q2 as [_ Hs2]. rewrite <- app_assoc in Hs2. apply seg_app in Hs2 as (_ & _ & Py & Ny & _).
    by apply link_of.
  - by intros ->.
  - by intros ->.
Qed.

(** C40 [RunRequestsTask] takes a request [x] out of the queue, and its completion takes
    it out again with [DPS_NodeRequestCancel].  Whatever happened in between, the second
    time links the two neighbours [p] and [z] that [x] had to each other.  So it changes
    nothing if they are still linked to each other, at once for instance.  If [x] was
    the last of the queue and another request was scheduled in between, that request is
    lost; and if the request behind [x] was taken out in between, it is put back behind
    [p], in the direction in which the queue is emptied. *)
Theorem cancelled_twice h q l1 x l2 :
  let p := List.last l1 q in let z := List.hd q l2 in
  is_queue h q (l1 ++ x :: l2) ->
  exists h1, DPS_QueueRemove h x = Some h1 /\ is_queue h1 q (l1 ++ l2) /\
    DPS_NodeRequestCancel h1 (Some x) = Some h1 /\
    (forall h2, h2 !! x = h1 !! x -> is_Some (h2 !! p) -> is_Some (h2 !! z) ->
       exists h3, DPS_NodeRequestCancel h2 (Some x) = Some h3 /\ relinked h2 h3 p z /\
         (next h2 p = Some z -> prev h2 z = Some p -> h3 = h2)) /\
    (l2 = [] -> forall y, y ∉ q :: l1 ++ [x] -> exists h2 h3,
       DPS_NodeRequestSchedule (DPS_NodeRequestInit h1 y) q y true = Some (true, h2) /\ is_queue h2 q (l1 ++ [y]) /\
       DPS_NodeRequestCancel h2 (Some x) = Some h3 /\ is_queue h3 q l1) /\
    (forall l2', l2 = z :: l2' -> exists h2 h3,
       DPS_QueueRemove h1 z = Some h2 /\ is_queue h2 q (l1 ++ l2') /\
       DPS_NodeRequestCancel h2 (Some x) = Some h3 /\ next h3 p = Some z /\ next h3 z = Some (List.hd q l2')).
Proof.
  intros p z Hq. destruct (remove_item h q l1 x l2 Hq) as (h1 & E1 & Q1 & Ex & S1).
  assert (prev h x = Some p /\ next h x = Some z) as [Px Nx].
  { pose proof (queue_next h q l1 (x :: l2) Hq) as [_ P]. split; [exact P|].
    destruct Hq as [_ Hs]. rewrite <- app_assoc in Hs. apply seg_app in Hs as [_ Hs]. cbn in Hs. unfold z. destruct l2; cbn in *; tauto. }
  assert (x ∉ q :: l1 ++ l2) as Hx.
  { destruct Hq as [Hd _]. rewrite app_comm_cons in Hd. apply NoDup_app in Hd as (_ & Hj & Hd). apply NoDup_cons in Hd as [Hd _].
    rewrite app_comm_cons, elem_of_app. intros [Hi|Hi]; [|done]. eapply Hj; [done|by left]. }
  assert (p ∈ q :: l1 ++ l2) as Hp.
  { pose proof (last_in l1 q) as Hp. fold p in Hp. rewrite app_comm_cons, elem_of_app. by left. }
  assert (p <> x) as Hpx by (intros Eq; by rewrite Eq in Hp).
  assert (forall h2, h2 !! x = h1 !! x -> prev h2 x = Some p /\ next h2 x = Some z) as Hlink.
  { intros h2 E. unfold prev, next. rewrite E, Ex. by split. }
  destruct (queue_next h1 q l1 l2 Q1) as [N1 P1]. fold p z in N1, P1.
  assert (forall h2, h2 !! x = h1 !! x -> is_Some (h2 !! p) -> is_Some (h2 !! z) ->
       exists h3, DPS_NodeRequestCancel h2 (Some x) = Some h3 /\ relinked h2 h3 p z /\
         (next h2 p = Some z -> prev h2 z = Some p -> h3 = h2)) as Hcancel.
  { intros h2 E Dp Dz. destruct (Hlink h2 E) as [P2 N2]. destruct (remove_relinks h2 x p z P2 N2 Hpx Dp Dz) as (h3 & E3 & R).
    exists h3. split; [done|]. split; [done|]. intros Np Pz. rewrite (remove_linked h2 x p z) in E3 by done. congruence. }
  exists h1. split; [done|]. split; [done|]. split; [by apply (remove_linked h1 x p z); [apply Hlink..| |]|]. split; [exact Hcancel|]. split.
  - intros -> y Hy. rewrite app_nil_r in *. rewrite !elem_of_cons, !elem_of_app, list_elem_of_singleton in Hy.
    apply cancelled_loses; [done|done|rewrite elem_of_cons; tauto|tauto|]. destruct (Hlink h1 eq_refl). by apply link_of.
  - intros l2' El. rewrite El in Q1. destruct (remove_item h1 q l1 z l2' Q1) as (h2 & E2 & Q2 & Ez & S2).
    pose proof Q1 as [_ Hs]. rewrite <- app_assoc in Hs. apply seg_app in Hs as [_ Hs]. cbn in Hs.
    assert (next h1 z = Some (List.hd q l2')) as Nz by (destruct l2'; cbn in *; tauto).
    assert (h2 !! x = h1 !! x) as E2x.
    { apply S2. intros Hi. apply Hx. rewrite El, !elem_of_cons, !elem_of_app, elem_of_cons in *. tauto. }
    destruct (Hcancel h2 E2x) as (h3 & E3 & R & _).
    { apply (queue_dom _ _ _ _ Q2). pose proof (last_in l1 q) as Hpi. fold p in Hpi. rewrite app_comm_cons, elem_of_app. by left. }
    { rewrite Ez. by eapply prev_some. }
    exists h2, h3. split_and!; [done|done|done|apply R|]. rewrite (rl_other_next _ _ _ _ R).
    + unfold next in *. by rewrite Ez.
    + intros Ezp. destruct Q1 as [Hd _]. rewrite app_comm_cons in Hd. apply NoDup_app in Hd as (_ & Hj & _).
      apply (Hj z); [|by left]. rewrite Ezp. apply last_in.
Qed.

(** [x] and [z] behind it are taken out and [x] is cancelled: the queue starts with [z]. *)
Lemma cancelled_twice_witness :
  let q := 1%positive in let x := 2%positive in let z := 3%positive in
  let h0 := default ∅ (snd <$> DPS_NodeRequestSchedule (DPS_NodeRequestInit (DPS_QueueInit ∅ q) x) q x true) in
  let h := default ∅ (snd <$> DPS_NodeRequestSchedule (DPS_NodeRequestInit h0 z) q z true) in
  exists h1 h2 h3, DPS_QueueRemove h x = Some h1 /\ DPS_QueueRemove h1 z = Some h2 /\ is_queue h2 q [] /\
    DPS_NodeRequestCancel h2 (Some x) = Some h3 /\ next h3 q = Some z.
Proof.
  intros q x z h0 h. destruct (cancelled_twice h q [] x [z]) as (h1 & E1 & _ & _ & _ & _ & Hz);
    [apply (bool_decide_unpack _); vm_compute; done|].
  destruct (Hz [] eq_refl) as (h2 & h3 & E2 & Q2 & E3 & N3 & _). by exists h1, h2, h3.
Defined.
