(* ===== verification/Tls.v ===== *)
(** * Cryptography ([src/gcm.c], [src/ec.c], [src/hkdf.c], [src/keywrap.c], [src/mbedtls.c])

    What these files make of Mbed TLS, whose operations are the class [Mbedtls].  An
    array on the stack is a list of cells, [None] for a byte without a value: reading
    one is undefined.  The encryption works in place on a list of buffers, each the
    bytes from [base] to [txPos], through positions in them. *)
From S2P Require Import Prelude Status Buffer.
#[local] Open Scope Z_scope.

Definition AES_256_KEY_LEN : nat := 32.
Definition AES_256_KEY_WRAP_LEN : nat := 40.
Definition AES_GCM_NONCE_LEN : nat := 12.
Definition EC_MAX_COORD_LEN : nat := 66.
Definition RSIZE_MAX_STR : Z := 4096.
Definition GCM_M : nat := 16.

Definition DPS_EC_CURVE_RESERVED : Z := 0.
Definition DPS_EC_CURVE_P384 : Z := 2.
Definition DPS_EC_CURVE_P521 : Z := 3.

(** ** Cells *)

Definition blank (n : nat) : list (option Z) := replicate n None.
Definition zeroed (n : nat) : list (option Z) := replicate n (Some 0).
(** The first [n] bytes. *)
Definition cells_read (n : nat) (cs : list (option Z)) : option (list Z) :=
  if decide (n <= length cs)%nat then mapM id (take n cs) else None.
(** Bytes stored from the start. *)
Definition cells_write (cs : list (option Z)) (bs : list Z) : option (list (option Z)) :=
  if decide (length bs <= length cs)%nat then Some (map Some bs ++ drop (length bs) cs) else None.

(** ** Mbed TLS

    An operation that reports an error is [None].  [gcm_ctx] is a context of the
    streaming interface to AES-256-GCM after [mbedtls_gcm_setkey] and
    [mbedtls_gcm_starts]; [mpi] is a big integer. *)
Inductive ecp_group_id := SECP384R1 | SECP521R1 | OTHER_GROUP (id : Z).
Inductive md_type := MD_SHA384 | MD_SHA512.

Class Mbedtls := {
  gcm_ctx : Type;
  (* key, nonce, additional data *)
  gcm_starts : list Z -> list Z -> list Z -> option gcm_ctx;
  gcm_update : gcm_ctx -> list Z -> option (list Z * gcm_ctx);
  gcm_finish : gcm_ctx -> option (list Z);
  (* key, nonce, additional data, cipher text, tag *)
  gcm_auth_decrypt : list Z -> list Z -> list Z -> list Z -> list Z -> option (list Z);
  (* the key that encrypts, then the key or the bytes of the wrapped key *)
  nist_kw_wrap : list Z -> list Z -> option (list Z);
  nist_kw_unwrap : list Z -> list Z -> option (list Z);
  (* secret, info *)
  hkdf_sha256 : list Z -> list Z -> option (list Z);
  (* the bytes of each [mbedtls_md_update] *)
  md_digest : md_type -> list (list Z) -> option (list Z);
  mpi : Type;
  mpi_read_binary : list Z -> mpi;
  mpi_write_binary : mpi -> nat -> option (list Z);
  ecdsa_sign_det : ecp_group_id -> mpi -> list Z -> md_type -> option (mpi * mpi);
  ecdsa_verify : ecp_group_id -> list Z -> mpi * mpi -> mpi * mpi -> bool;
  ecdh_compute_shared : ecp_group_id -> mpi * mpi -> mpi -> option mpi;
  (* a key pair from the [n]-th state of the generator: X, Y, d *)
  ecp_gen_key : ecp_group_id -> nat -> option (mpi * mpi * mpi);
  ctr_drbg_random : nat -> nat -> option (list Z);
  (* the group of an ECDSA key, the bits of its coordinates, and the public or the private key *)
  x509_crt_parse : list Z -> option (ecp_group_id * Z * (mpi * mpi));
  pk_parse_key : list Z -> option (list Z) -> option (ecp_group_id * Z * mpi);
  (* the common name in a certificate, if it has one *)
  x509_common_name : list Z -> option (option (list Z))
}.

(** ** AES-GCM over a list of buffers *)

Section Gcm.
Context `{Tls : Mbedtls}.

(** Up to sixteen bytes from [off] in the first buffer on, [len] of which are there. *)
Fixpoint BorrowBytes (bufs : list (list Z)) (off len : nat) : list Z :=
  match bufs with
  | [] => []
  | b :: bufs =>
      let n := Nat.min (16 - len) (length b - off) in
      take n (drop off b) ++ (if decide (len + n = 16)%nat then [] else BorrowBytes bufs 0 (len + n))
  end.

(** The bytes [src] put back from [off] on: the buffers, how many of them were passed,
    and the position in the next one. *)
Fixpoint ReturnBytes (bufs : list (list Z)) (off : nat) (src : list Z) : list (list Z) * nat * nat :=
  match bufs with
  | [] => ([], 0%nat, off)
  | b :: rest =>
      let n := Nat.min (length src) (length b - off) in
      let b' := take off b ++ take n src ++ drop (off + n) b in
      if decide (off + n < length b)%nat then (b' :: rest, 0%nat, (off + n)%nat)
      else if bool_decide (drop n src = []) then (b' :: rest, 1%nat, 0%nat)
      else let '(rest', k, off') := ReturnBytes rest 0 (drop n src) in (b' :: rest', S k, off')
  end.

(** The loop over the buffers: [before] is what was passed.  Each round passes a
    buffer or sixteen bytes. *)
Fixpoint encrypt_bufs (fuel : nat) (ctx : gcm_ctx) (before bufs : list (list Z)) (pos : nat)
  : option (option (gcm_ctx * list (list Z))) :=
  match bufs with
  | [] => Some (Some (ctx, before))
  | b :: rest =>
      match fuel with
      | O => None
      | S fuel =>
          let len := ((length b - pos) / 16 * 16)%nat in
          match gcm_update ctx (take len (drop pos b)) with
          | None => Some None
          | Some (out, ctx) =>
              b ← mem_write b pos out;
              let pos := (pos + len)%nat in
              if decide (pos < length b)%nat then
                match gcm_update ctx (BorrowBytes (b :: rest) pos 0) with
                | None => Some None
                | Some (tmp, ctx) =>
                    let '(bufs, k, pos) := ReturnBytes (b :: rest) pos tmp in
                    encrypt_bufs fuel ctx (before ++ take k bufs) (drop k bufs) pos
                end
              else encrypt_bufs fuel ctx (before ++ [b]) rest 0
          end
      end
  end.

(** As many rounds as buffers and blocks. *)
Definition gcm_fuel (bufs : list (list Z)) : nat := (length bufs + length (concat bufs))%nat.

(** The encrypted buffers and the buffer with the tag. *)
Definition Encrypt_GCM (key nonce : list Z) (bufs : list (list Z)) (tag : DPS_TxBuffer) (aad : list Z)
  : option (DPS_Status * list (list Z) * DPS_TxBuffer) :=
  if DPS_TxBufferSpace tag <? Z.of_nat GCM_M then Some (DPS_ERR_OVERFLOW, bufs, tag) else
  match gcm_starts key nonce aad with
  | None => Some (DPS_ERR_INVALID, bufs, tag)
  | Some ctx =>
      r ← encrypt_bufs (gcm_fuel bufs) ctx [] bufs 0;
      match r with
      | None => Some (DPS_ERR_INVALID, bufs, tag)
      | Some (ctx, bufs) =>
          match gcm_finish ctx with
          | None => Some (DPS_ERR_INVALID, bufs, tag)
          | Some t => tag ← tx_put tag t; Some (DPS_OK, bufs, tag)
          end
      end
  end.

(** [ptLen = ctLen - M] wraps around on a text that is too short, and is then more than
    any buffer holds. *)
Definition Decrypt_GCM (key nonce cipherText aad : list Z) (plainText : DPS_TxBuffer)
  : option (DPS_Status * DPS_TxBuffer) :=
  let ptLen := u64 (Z.of_nat (length cipherText) - Z.of_nat GCM_M) in
  if DPS_TxBufferSpace plainText <? ptLen then Some (DPS_ERR_OVERFLOW, plainText) else
  let n := (length cipherText - GCM_M)%nat in
  match gcm_auth_decrypt key nonce aad (take n cipherText) (drop n cipherText) with
  | None => Some (DPS_ERR_INVALID, plainText)
  | Some p => mem ← mem_write (tx_mem plainText) 0 p; Some (DPS_OK, mkTx mem (tx_pos plainText + n))
  end.

(** ** Key wrapping and derivation *)

Definition KeyWrap (cek kek : list Z) : DPS_Status * list Z :=
  match nist_kw_wrap kek cek with
  | Some w => if decide (length w = AES_256_KEY_WRAP_LEN) then (DPS_OK, w) else (DPS_ERR_INVALID, [])
  | None => (DPS_ERR_INVALID, [])
  end.

Definition KeyUnwrap (cipherText kek : list Z) : DPS_Status * list Z :=
  match nist_kw_unwrap kek cipherText with
  | Some k => if decide (length k = AES_256_KEY_LEN) then (DPS_OK, k) else (DPS_ERR_INVALID, [])
  | None => (DPS_ERR_INVALID, [])
  end.

Definition HKDF_SHA256 (secret context : list Z) : DPS_Status * list Z :=
  match hkdf_sha256 secret context with Some k => (DPS_OK, k) | None => (DPS_ERR_INVALID, []) end.

(** ** Elliptic curves *)

Definition CoordinateSize_EC (curve : Z) : nat :=
  if curve =? DPS_EC_CURVE_P521 then 66 else if curve =? DPS_EC_CURVE_P384 then 48 else 0.

Definition TLSGetCurveParams (curve : Z) : option (ecp_group_id * nat) :=
  if curve =? DPS_EC_CURVE_P521 then Some (SECP521R1, CoordinateSize_EC curve)
  else if curve =? DPS_EC_CURVE_P384 then Some (SECP384R1, CoordinateSize_EC curve)
  else None.

(** The curve and the size of its coordinates. *)
Definition GetGroupParams (id : ecp_group_id) (nbits : Z) : option (Z * nat) :=
  match id with
  | SECP521R1 => Some (DPS_EC_CURVE_P521, Z.to_nat ((nbits + 7) / 8))
  | SECP384R1 => Some (DPS_EC_CURVE_P384, Z.to_nat ((nbits + 7) / 8))
  | OTHER_GROUP _ => None
  end.

Definition GetHashFunction (curve : Z) : option md_type :=
  if curve =? DPS_EC_CURVE_P521 then Some MD_SHA512
  else if curve =? DPS_EC_CURVE_P384 then Some MD_SHA384
  else None.

(** [SetKeypair] for a public key. *)
Definition SetPublic (len : nat) (x y : list Z) : mpi * mpi :=
  (mpi_read_binary (take len x), mpi_read_binary (take len y)).

(** An exit before [mbedtls_md_init] frees a context that has no value: undefined. *)
Definition Verify_ECDSA (curve : Z) (x y : list (option Z)) (bufs : list (list Z)) (sig : list Z)
  : option DPS_Status :=
  '(id, len) ← TLSGetCurveParams curve;
  x ← cells_read len x;
  y ← cells_read len y;
  if decide (length sig < len * 2)%nat then None else
  hash ← GetHashFunction curve;
  Some (match md_digest hash bufs with
        | None => DPS_ERR_INVALID
        | Some digest =>
            let r := mpi_read_binary (take len sig) in
            let s := mpi_read_binary (take len (drop len sig)) in
            if ecdsa_verify id digest (SetPublic len x y) (r, s) then DPS_OK else DPS_ERR_INVALID
        end).

(** The signature, which goes to a buffer with this much space. *)
Definition Sign_ECDSA (curve : Z) (d : list (option Z)) (bufs : list (list Z)) (space : Z)
  : option (DPS_Status * list Z) :=
  '(id, len) ← TLSGetCurveParams curve;
  d ← cells_read len d;
  if space <? Z.of_nat len * 2 then None else
  hash ← GetHashFunction curve;
  Some (match md_digest hash bufs with
        | None => (DPS_ERR_INVALID, [])
        | Some digest =>
            match ecdsa_sign_det id (mpi_read_binary d) digest hash with
            | None => (DPS_ERR_INVALID, [])
            | Some (r, s) =>
                match mpi_write_binary r len with
                | None => (DPS_ERR_INVALID, [])
                | Some r => match mpi_write_binary s len with
                            | None => (DPS_ERR_INVALID, r)
                            | Some s => (DPS_OK, r ++ s)
                            end
                end
            end
        end).

Definition ECDH (curve : Z) (x y d : list (option Z)) : option (DPS_Status * list Z) :=
  match TLSGetCurveParams curve with
  | None => Some (DPS_ERR_INVALID, [])
  | Some (id, len) =>
      x ← cells_read len x;
      y ← cells_read len y;
      d ← cells_read len d;
      Some (match ecdh_compute_shared id (SetPublic len x y) (mpi_read_binary d) with
            | None => (DPS_ERR_INVALID, [])
            | Some sec => match mpi_write_binary sec len with
                          | None => (DPS_ERR_INVALID, [])
                          | Some secret => (DPS_OK, secret)
                          end
            end)
  end.

(** The length of a string that fits, with its terminator, in [RSIZE_MAX_STR] bytes. *)
Definition str_fits (s : list Z) : bool := Z.of_nat (length s) <? RSIZE_MAX_STR.

(** What is written to the curve and to the coordinates of the key. *)
Definition ParseCertificate_ECDSA (cert : list Z) (curve : option Z) (x y : list (option Z))
  : option (DPS_Status * option Z * list (option Z) * list (option Z)) :=
  if negb (str_fits cert) then Some (DPS_ERR_ARGS, curve, x, y) else
  match x509_crt_parse cert with
  | None => Some (DPS_ERR_INVALID, curve, x, y)
  | Some (id, nbits, (qx, qy)) =>
      match GetGroupParams id nbits with
      | None => Some (DPS_ERR_INVALID, curve, x, y)
      | Some (curve, len) =>
          match mpi_write_binary qx len with
          | None => Some (DPS_ERR_INVALID, Some curve, x, y)
          | Some bx =>
              x ← cells_write x bx;
              match mpi_write_binary qy len with
              | None => Some (DPS_ERR_INVALID, Some curve, x, y)
              | Some by' => y ← cells_write y by'; Some (DPS_OK, Some curve, x, y)
              end
          end
      end
  end.

(** A null password has no length: [strnlen_s] gives 0 for it. *)
Definition ParsePrivateKey_ECDSA (privateKey : list Z) (password : option (list Z)) (curve : option Z)
    (d : list (option Z)) : option (DPS_Status * option Z * list (option Z)) :=
  if negb (str_fits privateKey) || negb (str_fits (default [] password)) then Some (DPS_ERR_ARGS, curve, d) else
  match pk_parse_key privateKey password with
  | None => Some (DPS_ERR_INVALID, curve, d)
  | Some (id, nbits, k) =>
      match GetGroupParams id nbits with
      | None => Some (DPS_ERR_INVALID, curve, d)
      | Some (curve, len) =>
          match mpi_write_binary k len with
          | None => Some (DPS_ERR_INVALID, Some curve, d)
          | Some bd => d ← cells_write d bd; Some (DPS_OK, Some curve, d)
          end
      end
  end.

(** ** Random keys, from the [n]-th state of the generator *)

Definition DPS_RandomBytes (n len : nat) : DPS_Status * list Z :=
  match ctr_drbg_random n len with Some l => (DPS_OK, l) | None => (DPS_ERR_FAILURE, []) end.

Definition DPS_EphemeralKey (n : nat) (curve : Z) : DPS_Status * (list Z * list Z * list Z) :=
  match TLSGetCurveParams curve with
  | None => (DPS_ERR_FAILURE, ([], [], []))
  | Some (id, len) =>
      match ecp_gen_key id n with
      | None => (DPS_ERR_FAILURE, ([], [], []))
      | Some (qx, qy, k) =>
          match mpi_write_binary qx len, mpi_write_binary qy len, mpi_write_binary k len with
          | Some x, Some y, Some d => (DPS_OK, (x, y, d))
          | _, _, _ => (DPS_ERR_FAILURE, ([], [], []))
          end
      end
  end.

Definition DPS_CertificateCN (cert : list Z) (ok : bool) : option (list Z) :=
  if negb (str_fits cert) then None else
  match x509_common_name cert with
  | Some (Some name) => if ok then Some name else None
  | _ => None
  end.
End Gcm.
