(* ===== verification/Keys.v ===== *)
(** * Key stores ([src/keystore.c])

    A handler of the application answers a request: it calls [DPS_SetKey] with keys, as
    often as it likes, sees the result of each call, and returns a status.  That is the
    type [KeyRequest]; [run_request] gives the calls to the [setKey] of who asks.  The
    key store that comes with the library, in memory, is below. *)
From S2P Require Import Prelude Status Buffer Node SubDecode Tls.
From stdpp Require Import gmap.
#[local] Open Scope Z_scope.

(** ** Keys *)

(** [DPS_Key], a tagged union of pointers: [None] is the null pointer. *)
Inductive DPS_Key :=
  | KeySymmetric (key : option (list Z))
  | KeyEC (curve : Z) (x y d : option (list Z))
  | KeyCert (cert privateKey password : option (list Z))
  | KeyUnknown (type : Z).

(** ** Requests *)

Inductive KeyRequest :=
  | Answer (ret : DPS_Status)
  | SetKeyThen (key : DPS_Key) (next : DPS_Status -> KeyRequest).

(** [DPS_SetKey] calls the [setKey] of the request. *)
Definition DPS_SetKey (key : DPS_Key) : KeyRequest := SetKeyThen key Answer.

Fixpoint run_request {S} (setKey : DPS_Key -> S -> option (DPS_Status * S)) (r : KeyRequest) (s : S)
  : option (DPS_Status * S) :=
  match r with
  | Answer ret => Some (ret, s)
  | SetKeyThen key next => '(ret, s) ← setKey key s; run_request setKey (next ret) s
  end.

(** The handlers that the library calls, [None] for a null pointer.  The handler of
    ephemeral keys has the state of its generator. *)
Class KeyStore := {
  keyHandler : option (list Z -> KeyRequest);
  ephemeralKeyHandler : option (nat -> DPS_Key -> KeyRequest)
}.

(** The condition on the handlers of a key store: whether each of [keyAndIdHandler],
    [keyHandler], [ephemeralKeyHandler] and [caHandler] is there. *)
Definition DPS_CreateKeyStore (keyAndId key ephemeral ca : bool) : bool :=
  negb ((keyAndId && negb key) || (key && negb (keyAndId || ephemeral || ca))
        || (ephemeral && negb key) || (ca && negb key)).

(** ** The key store in memory *)

Record DPS_MemoryKeyStore := mkMks {
  mks_entries : list (list Z * DPS_Key);
  mks_entriesCap : nat;
  mks_networkId : list Z;
  mks_networkKey : option (list Z);
  mks_ca : option (list Z)
}.

Definition SameKeyId (a b : list Z) : bool := bool_decide (a = b).

Fixpoint MemoryKeyStoreLookup (entries : list (list Z * DPS_Key)) (keyId : list Z) : option nat :=
  match entries with
  | [] => None
  | (id, _) :: entries => if SameKeyId id keyId then Some O else S <$> MemoryKeyStoreLookup entries keyId
  end.

Definition MemoryKeyStoreKeyHandler (mks : DPS_MemoryKeyStore) (keyId : list Z) : KeyRequest :=
  match MemoryKeyStoreLookup (mks_entries mks) keyId ≫= (fun i => mks_entries mks !! i) with
  | Some (_, key) => DPS_SetKey key
  | None => if SameKeyId (mks_networkId mks) keyId then DPS_SetKey (KeySymmetric (mks_networkKey mks))
            else Answer DPS_ERR_MISSING
  end.

Definition MemoryKeyStoreEphemeralKeyHandler `{Tls : Mbedtls} (n : nat) (key : DPS_Key) : KeyRequest :=
  match key with
  | KeySymmetric _ =>
      let '(ret, k) := DPS_RandomBytes n AES_256_KEY_LEN in
      if is_OK ret then DPS_SetKey (KeySymmetric (Some k)) else Answer ret
  | KeyEC curve _ _ _ =>
      let '(ret, (x, y, d)) := DPS_EphemeralKey n curve in
      if is_OK ret then DPS_SetKey (KeyEC curve (Some x) (Some y) (Some d)) else Answer ret
  | _ => Answer DPS_ERR_NOT_IMPLEMENTED
  end.

(** What [keyAndIdHandler] gives to [DPS_SetKeyAndId], and what [caHandler] gives to
    [DPS_SetCA]. *)
Definition MemoryKeyStoreKeyAndIdHandler (mks : DPS_MemoryKeyStore) : option (list Z * list Z) :=
  match mks_networkId mks, mks_networkKey mks with
  | [], _ | _, None => None
  | id, Some key => Some (key, id)
  end.
Definition MemoryKeyStoreCAHandler (mks : DPS_MemoryKeyStore) : option (list Z) := mks_ca mks.

(** [DPS_MemoryKeyStoreHandle] *)
Definition memory_key_store `{Tls : Mbedtls} (mks : DPS_MemoryKeyStore) : KeyStore := {|
  keyHandler := Some (MemoryKeyStoreKeyHandler mks);
  ephemeralKeyHandler := Some MemoryKeyStoreEphemeralKeyHandler
|}.

Section Memory.
Context `{Env : Environment} `{Tls : Mbedtls}.

(** The second allocation is that of the generator. *)
Definition DPS_CreateMemoryKeyStore : M (option DPS_MemoryKeyStore) :=
  ok ← alloc_ok;
  if negb ok then mret None else
  ok ← alloc_ok;
  mret (if ok : bool then Some (mkMks [] 0 [] None None) else None).

(** [DPS_CopyKeyId] allocates unless the identifier is empty. *)
Definition DPS_CopyKeyId (kid : list Z) : M bool := match kid with [] => mret true | _ => alloc_ok end.

Definition MemoryKeyStoreGrow (mks : DPS_MemoryKeyStore) : M (DPS_Status * DPS_MemoryKeyStore) :=
  if decide (length (mks_entries mks) = mks_entriesCap mks) then
    ok ← alloc_ok;
    mret (if ok : bool then
            (DPS_OK, mkMks (mks_entries mks) (if decide (mks_entriesCap mks = 0%nat) then 1 else mks_entriesCap mks * 2)
                       (mks_networkId mks) (mks_networkKey mks) (mks_ca mks))
          else (DPS_ERR_RESOURCES, mks))
  else mret (DPS_OK, mks).

(** [malloc] of the key and its copy. *)
Definition copy_key (key : option (list Z)) : M (option (list Z)) :=
  match key with
  | None => undefined
  | Some k => ok ← alloc_ok; mret (if ok : bool then Some k else None)
  end.

(** The key of an entry; a null [key] removes it. *)
Definition MemoryKeyStoreSetKey (old : DPS_Key) (key : option DPS_Key) : M (DPS_Status * DPS_Key) :=
  match old, key with
  | KeySymmetric _, None => mret (DPS_OK, KeySymmetric None)
  | KeySymmetric _, Some (KeySymmetric k) =>
      k ← copy_key k;
      mret (match k with Some k => (DPS_OK, KeySymmetric (Some k)) | None => (DPS_ERR_RESOURCES, old) end)
  | _, _ => mret (DPS_ERR_ARGS, old)
  end.

(** [strndup] *)
Definition dup_str (s : option (list Z)) : M (bool * option (list Z)) :=
  match s with
  | None => mret (true, None)
  | Some s => ok ← alloc_ok; mret (ok, if ok : bool then Some (take (Z.to_nat RSIZE_MAX_STR) s) else None)
  end.

(** The union of the entry is taken for a certificate before its strings are freed: the
    length of a symmetric key is then the address of the private key. *)
Definition MemoryKeyStoreSetCertificate (old : DPS_Key) (cert : list Z) (key password : option (list Z))
  : M (DPS_Status * DPS_Key) :=
  '(ok, cert) ← dup_str (Some cert);
  if negb ok then mret (DPS_ERR_RESOURCES, old) else
  '(ok, key) ← dup_str key;
  if negb ok then mret (DPS_ERR_RESOURCES, old) else
  '(ok, password) ← dup_str password;
  if negb ok then mret (DPS_ERR_RESOURCES, old) else
  _ ← assert (match old with KeySymmetric (Some (_ :: _)) => false | _ => true end);
  mret (DPS_OK, KeyCert cert key password).

Definition DPS_SetNetworkKey (mks : DPS_MemoryKeyStore) (keyId : list Z) (key : option DPS_Key)
  : M (DPS_Status * DPS_MemoryKeyStore) :=
  match keyId, key with
  | [], _ => mret (DPS_ERR_INVALID, mks)
  | _, None =>
      ok ← DPS_CopyKeyId keyId;
      mret (if ok : bool then (DPS_OK, mkMks (mks_entries mks) (mks_entriesCap mks) keyId None (mks_ca mks))
            else (DPS_ERR_RESOURCES, mks))
  | _, Some (KeySymmetric k) =>
      ok ← DPS_CopyKeyId keyId;
      if negb ok then mret (DPS_ERR_RESOURCES, mks) else
      k ← copy_key k;
      mret (match k with
            | Some k => (DPS_OK, mkMks (mks_entries mks) (mks_entriesCap mks) keyId (Some k) (mks_ca mks))
            | None => (DPS_ERR_RESOURCES, mks)
            end)
  | _, Some _ => mret (DPS_ERR_INVALID, mks)
  end.

Definition set_entries (mks : DPS_MemoryKeyStore) (l : list (list Z * DPS_Key)) : DPS_MemoryKeyStore :=
  mkMks l (mks_entriesCap mks) (mks_networkId mks) (mks_networkKey mks) (mks_ca mks).

(** Behind the entries that are counted, the array is zero: a symmetric key with null
    pointers. *)
Definition DPS_SetContentKey (mks : DPS_MemoryKeyStore) (keyId : list Z) (key : option DPS_Key)
  : M (DPS_Status * DPS_MemoryKeyStore) :=
  match MemoryKeyStoreLookup (mks_entries mks) keyId ≫= (fun i => x ← mks_entries mks !! i; Some (i, x)) with
  | Some (i, (id, old)) =>
      '(ret, k) ← MemoryKeyStoreSetKey old key;
      mret (if is_OK ret then (DPS_OK, set_entries mks (<[i := (id, k)]> (mks_entries mks)))
            else (DPS_ERR_RESOURCES, mks))
  | None =>
      if negb (bool_decide (is_Some key)) then mret (DPS_OK, mks) else
      '(ret, mks) ← MemoryKeyStoreGrow mks;
      if negb (is_OK ret) then mret (DPS_ERR_RESOURCES, mks) else
      ok ← DPS_CopyKeyId keyId;
      if negb ok then mret (DPS_ERR_RESOURCES, mks) else
      '(ret, k) ← MemoryKeyStoreSetKey (KeySymmetric None) key;
      mret (if is_OK ret then (DPS_OK, set_entries mks (mks_entries mks ++ [(keyId, k)]))
            else (DPS_ERR_RESOURCES, mks))
  end.

Definition DPS_SetTrustedCA (mks : DPS_MemoryKeyStore) (ca : list Z) : M (DPS_Status * DPS_MemoryKeyStore) :=
  '(ok, ca) ← dup_str (Some ca);
  mret (if ok : bool then
          (DPS_OK, mkMks (mks_entries mks) (mks_entriesCap mks) (mks_networkId mks) (mks_networkKey mks) ca)
        else (DPS_ERR_RESOURCES, mks)).

(** Every error is reported as [DPS_ERR_RESOURCES]. *)
Definition DPS_SetCertificate (mks : DPS_MemoryKeyStore) (cert : option (list Z)) (key password : option (list Z))
  : M (DPS_Status * DPS_MemoryKeyStore) :=
  match cert with
  | None => mret (DPS_ERR_ARGS, mks)
  | Some cert =>
      ok ← alloc_ok;
      match DPS_CertificateCN cert ok with
      | None => mret (DPS_ERR_RESOURCES, mks)
      | Some cn =>
          let keyId := until_nul cn in
          if negb (str_fits keyId) then mret (DPS_ERR_RESOURCES, mks) else
          match MemoryKeyStoreLookup (mks_entries mks) keyId ≫= (fun i => x ← mks_entries mks !! i; Some (i, x)) with
          | Some (i, (id, old)) =>
              '(ret, k) ← MemoryKeyStoreSetCertificate old cert key password;
              mret (if is_OK ret then (DPS_OK, set_entries mks (<[i := (id, k)]> (mks_entries mks)))
                    else (DPS_ERR_RESOURCES, mks))
          | None =>
              '(ret, mks) ← MemoryKeyStoreGrow mks;
              if negb (is_OK ret) then mret (DPS_ERR_RESOURCES, mks) else
              '(ret, k) ← MemoryKeyStoreSetCertificate (KeySymmetric None) cert key password;
              mret (if is_OK ret then (DPS_OK, set_entries mks (mks_entries mks ++ [(keyId, k)]))
                    else (DPS_ERR_RESOURCES, mks))
          end
      end
  end.
End Memory.
