(* ===== verification/TlsLaws.v ===== *)
(** * What is relied on of Mbed TLS

    The documented behaviour of the operations of [Mbedtls] as the class [MbedtlsOk],
    and a toy library that has it, for the concrete examples; then the encryption of a list of buffers: [Encrypt_GCM]
    feeds them to AES-GCM in blocks of sixteen bytes, borrowing from the next buffers
    for a block that spans them.  It ends, and what it leaves in the buffers is the
    cipher text of their concatenation. *)
From S2P Require Import Prelude Status Buffer Tls.
#[local] Open Scope Z_scope.
#[local] Set Warnings "-clear-no-such-hyp".

(** The size of the coordinates of a group. *)
Definition group_size (id : ecp_group_id) : nat :=
  match id with SECP521R1 => 66 | SECP384R1 => 48 | OTHER_GROUP _ => 0 end.

(** [aes_gcm] is the cipher text and the tag of a message at once; [gcm_fed] says what
    a context was fed.  [ec_pair] is the relation of a public and a private key. *)
Class MbedtlsOk (Tls : Mbedtls) := {
  aes_gcm : list Z -> list Z -> list Z -> list Z -> list Z * list Z;
  gcm_fed : list Z -> list Z -> list Z -> list Z -> gcm_ctx -> Prop;
  aes_gcm_length k n a p : length (aes_gcm k n a p).1 = length p /\ length (aes_gcm k n a p).2 = GCM_M;
  aes_gcm_bytes k n a p : Forall is_byte k -> Forall is_byte p ->
    Forall is_byte (aes_gcm k n a p).1 /\ Forall is_byte (aes_gcm k n a p).2;
  gcm_starts_ok k n a : length k = AES_256_KEY_LEN -> length n = AES_GCM_NONCE_LEN ->
    exists ctx, gcm_starts k n a = Some ctx /\ gcm_fed k n a [] ctx;
  (* the length of every call but the last must be a multiple of 16; no bytes are no call *)
  gcm_update_ok k n a fed ctx p : gcm_fed k n a fed ctx -> (length fed mod 16 = 0)%nat \/ p = [] ->
    exists c ctx', gcm_update ctx p = Some (c, ctx') /\ gcm_fed k n a (fed ++ p) ctx' /\
      (aes_gcm k n a (fed ++ p)).1 = (aes_gcm k n a fed).1 ++ c;
  gcm_finish_ok k n a fed ctx : gcm_fed k n a fed ctx -> gcm_finish ctx = Some (aes_gcm k n a fed).2;
  gcm_auth_decrypt_ok k n a c t p : length k = AES_256_KEY_LEN -> length n = AES_GCM_NONCE_LEN ->
    gcm_auth_decrypt k n a c t = Some p <-> aes_gcm k n a p = (c, t);
  kw_wrap_ok kek k : length kek = AES_256_KEY_LEN -> length k = AES_256_KEY_LEN ->
    Forall is_byte kek -> Forall is_byte k ->
    exists w, nist_kw_wrap kek k = Some w /\ length w = AES_256_KEY_WRAP_LEN /\ Forall is_byte w /\
      nist_kw_unwrap kek w = Some k;
  hkdf_ok s c : Forall is_byte s -> exists k, hkdf_sha256 s c = Some k /\ length k = AES_256_KEY_LEN /\ Forall is_byte k;
  md_ok h l : exists d, md_digest h l = Some d /\ md_digest h [concat l] = Some d;
  mpi_ok m len b : mpi_write_binary m len = Some b ->
    length b = len /\ Forall is_byte b /\ mpi_read_binary b = m;
  ec_pair : ecp_group_id -> mpi * mpi -> mpi -> Prop;
  ecdsa_ok id Q d h digest : ec_pair id Q d -> exists r s,
    ecdsa_sign_det id d digest h = Some (r, s) /\ is_Some (mpi_write_binary r (group_size id)) /\
    is_Some (mpi_write_binary s (group_size id)) /\ ecdsa_verify id digest Q (r, s) = true;
  ecdh_ok id Q d Q' d' : ec_pair id Q d -> ec_pair id Q' d' ->
    exists z, ecdh_compute_shared id Q d' = Some z /\ ecdh_compute_shared id Q' d = Some z /\
      is_Some (mpi_write_binary z (group_size id))
}.

(** ** A toy library *)

Definition toy_xor (k : list Z) (p : list Z) : list Z := map (fun x => x .^ hd 0 k) p.
Definition toy_sum (l : list Z) : Z := u8 (foldr Z.add 0 l).
Definition toy_tag (k n a p : list Z) : list Z := replicate 16 (toy_sum (k ++ n ++ a ++ p)).
Definition toy_lxor (x y : list Z) : list Z := zip_with Z.lxor x y.

#[export] Instance toy_tls : Mbedtls := {|
  gcm_ctx := list Z * list Z * list Z * list Z;
  gcm_starts := fun k n a => Some (k, n, a, []);
  gcm_update := fun '(k, n, a, fed) p => Some (toy_xor k p, (k, n, a, fed ++ p));
  gcm_finish := fun '(k, n, a, fed) => Some (toy_tag k n a fed);
  gcm_auth_decrypt := fun k n a c t =>
    if bool_decide (toy_tag k n a (toy_xor k c) = t) then Some (toy_xor k c) else None;
  nist_kw_wrap := fun kek k => Some (toy_xor kek k ++ replicate 8 0);
  nist_kw_unwrap := fun kek w => Some (toy_xor kek (take 32 w));
  hkdf_sha256 := fun s c => Some (take 32 (s ++ replicate 32 0));
  md_digest := fun h l => Some (concat l);
  mpi := list Z;
  mpi_read_binary := id;
  mpi_write_binary := fun m len => if decide (length m = len /\ Forall is_byte m) then Some m else None;
  ecdsa_sign_det := fun id d digest h =>
    let r := replicate (group_size id) (toy_sum (digest ++ d)) in Some (r, r);
  ecdsa_verify := fun id digest Q rs =>
    bool_decide (rs = (replicate (group_size id) (toy_sum (digest ++ Q.1)), replicate (group_size id) (toy_sum (digest ++ Q.1))));
  ecdh_compute_shared := fun id Q d => Some (toy_lxor Q.1 d);
  ecp_gen_key := fun id n => let d := replicate (group_size id) (u8 (Z.of_nat n)) in Some (d, d, d);
  ctr_drbg_random := fun n len => Some (replicate len (u8 (Z.of_nat n)));
  x509_crt_parse := fun _ => None;
  pk_parse_key := fun _ _ => None;
  x509_common_name := fun c => Some (Some c)
|}.

Lemma is_byte_lxor x y : is_byte x -> is_byte y -> is_byte (x .^ y).
Proof. unfold is_byte. intros. apply (lxor_range x y 8); lia. Qed.
Lemma toy_xor_bytes k p : Forall is_byte k -> Forall is_byte p -> Forall is_byte (toy_xor k p).
Proof.
  intros Hk Hp. assert (is_byte (hd 0 k)) as Hh by (destruct Hk; [done|by cbn]).
  unfold toy_xor. apply List.Forall_map. eapply List.Forall_impl; [|exact Hp]. intros x Hx. by apply is_byte_lxor.
Qed.
Lemma toy_xor_xor k p : toy_xor k (toy_xor k p) = p.
Proof.
  unfold toy_xor. rewrite map_map. rewrite <- (map_id p) at 2. apply map_ext. intros x.
  by rewrite Z.lxor_assoc, Z.lxor_nilpotent, Z.lxor_0_r.
Qed.
Lemma toy_sum_byte l : is_byte (toy_sum l).
Proof. unfold toy_sum, is_byte, u8. apply Z.mod_pos_bound. lia. Qed.
Lemma toy_lxor_comm x y : toy_lxor x y = toy_lxor y x.
Proof. revert y. induction x as [|a x IH]; intros [|b y]; cbn; [done..|]. by rewrite Z.lxor_comm, <- IH. Qed.
Lemma toy_xor_length k p : length (toy_xor k p) = length p.
Proof. apply length_map. Qed.
Lemma toy_xor_app k p q : toy_xor k (p ++ q) = toy_xor k p ++ toy_xor k q.
Proof. apply map_app. Qed.
Lemma toy_lxor_range x y n : length x = n -> length y = n -> Forall is_byte x -> Forall is_byte y ->
  length (toy_lxor x y) = n /\ Forall is_byte (toy_lxor x y).
Proof.
  revert y n. induction x as [|a x IH]; intros [|b y] n Hx Hy Bx By; cbn in *; try lia; [done|].
  apply List.Forall_cons_iff in Bx as [Ba Bx], By as [Bb By]. destruct n as [|n]; [lia|].
  destruct (IH y n) as [HL HB]; try lia; try done. unfold toy_lxor in *. split; [lia|]. constructor; [by apply is_byte_lxor|done].
Qed.

#[export] Instance toy_tls_ok : MbedtlsOk toy_tls.
Proof.
  refine {|
    aes_gcm := fun k' n' a' p' => (toy_xor k' p', toy_tag k' n' a' p');
    gcm_fed := fun k n a fed ctx => ctx = (k, n, a, fed);
    ec_pair := fun id Q d => Q.1 = d /\ length d = group_size id /\ Forall is_byte d
  |}.
  - intros. split; [apply toy_xor_length|apply length_replicate].
  - intros. split; [by apply toy_xor_bytes|]. apply Forall_replicate, toy_sum_byte.
  - intros. by eexists.
  - intros k n a fed ctx p -> _. cbn. do 2 eexists. split; [done|]. split; [done|]. apply toy_xor_app.
  - by intros k n a fed ctx ->.
  - intros k n a c t p _ _. cbn. case_bool_decide as E; split; intros H.
    + injection H as <-. by rewrite toy_xor_xor, E.
    + injection H as <- <-. by rewrite toy_xor_xor.
    + done.
    + injection H as <- <-. by rewrite toy_xor_xor in E.
  - intros kek k Hkek Hk Bkek Bk. cbn. eexists. split; [done|]. split; [by rewrite length_app, toy_xor_length, Hk|].
    split; [apply Forall_app_2; [by apply toy_xor_bytes|by apply (bool_decide_unpack _); vm_compute]|].
    f_equal. rewrite take_app_length' by (by rewrite toy_xor_length). apply toy_xor_xor.
  - intros s c Hs. cbn. eexists. split; [done|]. split.
    + change (length (take 32 (s ++ replicate 32 0)) = 32%nat). rewrite length_take, length_app, length_replicate. lia.
    + change (Forall is_byte (take 32 (s ++ replicate 32 0))). apply Forall_take. apply Forall_app_2; [done|by apply (bool_decide_unpack _); vm_compute].
  - intros h l. exists (concat l). split; [done|]. cbn. by rewrite app_nil_r.
  - intros m len b. cbn. case_decide as H; [|done]. intros [= <-]. by destruct H.
  - intros id [qx qy] d h digest (HQ & HL & HB). cbn in HQ. subst qx. cbn. set (r := replicate _ _).
    assert (length r = group_size id /\ Forall is_byte r) as Hr.
    { split; [apply length_replicate|]. apply Forall_replicate, toy_sum_byte. }
    exists r, r. rewrite decide_True by done. split_and!; [done..|]. by apply bool_decide_eq_true.
  - intros id [qx qy] d [qx' qy'] d' (HQ & HL & HB) (HQ' & HL' & HB'). cbn in HQ, HQ'. subst qx qx'. cbn. exists (toy_lxor d d').
    split; [done|]. split; [by rewrite toy_lxor_comm|]. rewrite decide_True by (by apply toy_lxor_range). done.
Defined.

Lemma drop_concat_cons (b : list Z) rest off : (off <= length b)%nat -> drop off (concat (b :: rest)) = drop off b ++ concat rest.
Proof. intros H. cbn [concat]. by rewrite drop_app_le. Qed.
Lemma take_concat_cons (b : list Z) rest off : (off <= length b)%nat -> take off (concat (b :: rest)) = take off b.
Proof. intros H. cbn [concat]. by rewrite take_app_le. Qed.

(** ** Borrowing and returning *)

Lemma BorrowBytes_take bufs : forall off len,
  (off <= length (hd [] bufs))%nat -> (len <= 16)%nat ->
  BorrowBytes bufs off len = take (16 - len) (drop off (concat bufs)).
Proof.
  induction bufs as [|b rest IH]; intros off len Hoff Hlen; cbn [BorrowBytes].
  { cbn [concat]. by rewrite drop_nil, take_nil. }
  cbn [hd] in Hoff. rewrite drop_concat_cons by done. remember (Nat.min _ _) as n eqn:Hn. case_decide as E.
  - rewrite app_nil_r, take_app_le by (rewrite length_drop; lia). f_equal. lia.
  - assert (n = length b - off)%nat as -> by lia.
    rewrite IH by (cbn; lia). rewrite drop_0, take_app, length_drop.
    rewrite (take_ge (drop off b) (length b - off)), (take_ge (drop off b)) by (rewrite length_drop; lia).
    do 2 f_equal. lia.
Qed.

(** The bytes [src] over those from [off] on: the position after them is [off'] in the
    buffers but the first [k]. *)
Record returned (bufs : list (list Z)) (off : nat) (src : list Z) (bufs' : list (list Z)) (k off' : nat) : Prop := {
  rt_fits : (off + length src <= length (concat bufs))%nat;
  rt_concat : concat bufs' = take off (concat bufs) ++ src ++ drop (off + length src) (concat bufs);
  rt_lengths : map length bufs' = map length bufs;
  rt_count : (k <= length bufs)%nat;
  rt_off : (off' <= length (hd [] (drop k bufs')))%nat;
  rt_pos : (length (concat (take k bufs')) + off' = off + length src)%nat
}.

Lemma ReturnBytes_ok bufs : forall off src,
  (off <= length (hd [] bufs))%nat -> (off + length src <= length (concat bufs))%nat -> src <> [] ->
  exists bufs' k off', ReturnBytes bufs off src = (bufs', k, off') /\ returned bufs off src bufs' k off'.
Proof.
  induction bufs as [|b rest IH]; intros off src Hoff Hsrc Hne; cbn [ReturnBytes].
  { destruct src; [done|cbn in Hsrc; lia]. }
  cbn [hd] in Hoff. remember (Nat.min _ _) as n eqn:Hn.
  assert (forall m, (m <= length b - off)%nat -> (m <= length src)%nat ->
          length (take off b ++ take m src ++ drop (off + m) b) = length b) as HL.
  { intros m Hm Hm'. rewrite !length_app, !length_take, length_drop. lia. }
  cbn [concat] in Hsrc. rewrite length_app in Hsrc. case_decide as E.
  - assert (n = length src) as En by lia. do 3 eexists. split; [done|]. split.
    + cbn [concat]. rewrite length_app. lia.
    + cbn [concat]. rewrite En, take_app_le, drop_app_le, (take_ge src) by lia. by rewrite <- !app_assoc.
    + cbn [map]. by rewrite HL by lia.
    + cbn. lia.
    + cbn [drop hd]. rewrite HL by lia. lia.
    + cbn. lia.
  - assert (n = length b - off)%nat as En by lia. assert (off + n = length b)%nat as Eo by lia.
    destruct (bool_decide_reflect (drop n src = [])) as [Ed|Ed].
    + assert (n = length src) as En'.
      { apply (f_equal length) in Ed. rewrite length_drop in Ed. cbn in Ed. lia. }
      do 3 eexists. split; [done|]. split.
      * cbn [concat]. rewrite length_app. lia.
      * cbn [concat]. rewrite En', take_app_le, drop_app_le, (take_ge src) by lia. by rewrite <- !app_assoc.
      * cbn [map]. by rewrite HL by lia.
      * cbn. lia.
      * lia.
      * cbn [take concat]. rewrite app_nil_r, HL by lia. lia.
    + assert (length (drop n src) = length src - n)%nat as Ld by apply length_drop.
      destruct (IH 0%nat (drop n src)) as (bufs' & k & off' & -> & R); [lia|lia|done|].
      destruct R as [_ R1 R2 R3 R4 R5]. do 3 eexists. split; [done|]. split.
      * cbn [concat]. rewrite length_app. lia.
      * cbn [concat]. rewrite R1, Ld, take_0, Eo, drop_ge, app_nil_r, take_app_le, drop_app_ge by lia. cbn [app].
        rewrite <- app_assoc. f_equal. rewrite (app_assoc (take n src)), take_drop. do 2 f_equal. lia.
      * cbn [map]. by rewrite HL, R2 by lia.
      * cbn. lia.
      * by cbn [drop].
      * cbn [take concat]. rewrite length_app, HL by lia. lia.
Qed.

Lemma returned_split bufs off src bufs' k off' : returned bufs off src bufs' k off' ->
  concat (take k bufs') ++ take off' (concat (drop k bufs')) = take off (concat bufs) ++ src /\
  drop off' (concat (drop k bufs')) = drop (off + length src) (concat bufs).
Proof.
  intros [R0 R1 _ _ _ R5]. rewrite <- (take_drop k bufs'), concat_app in R1.
  assert (length (take off (concat bufs) ++ src) = length (concat (take k bufs')) + off')%nat as HL
    by (rewrite length_app, length_take; lia).
  rewrite app_assoc in R1. split.
  - apply (f_equal (take (length (concat (take k bufs')) + off'))) in R1.
    rewrite take_app_add, (take_app_length' (_ ++ src)) in R1 by done. done.
  - apply (f_equal (drop (length (concat (take k bufs')) + off'))) in R1.
    rewrite drop_app_add, (drop_app_length' (_ ++ src)) in R1 by done. done.
Qed.

(** ** The loop *)

Section Gcm.
Context `{Tls : Mbedtls} `{Laws : !MbedtlsOk Tls}.
Variables (key nonce aad : list Z).

(** What the loop makes of the buffers from [pos] on, after it was fed [fed]. *)
Definition encrypted (fed : list Z) (bufs : list (list Z)) (pos : nat) (bufs' : list (list Z)) : Prop :=
  map length bufs' = map length bufs /\
  exists c, concat bufs' = take pos (concat bufs) ++ c /\
    (aes_gcm key nonce aad (fed ++ drop pos (concat bufs))).1 = (aes_gcm key nonce aad fed).1 ++ c.

Definition encrypts fuel fed bufs pos : Prop := forall ctx before,
  gcm_fed key nonce aad fed ctx -> exists ctx' bufs',
    encrypt_bufs fuel ctx before bufs pos = Some (Some (ctx', before ++ bufs')) /\
    gcm_fed key nonce aad (fed ++ drop pos (concat bufs)) ctx' /\ encrypted fed bufs pos bufs'.

(** The blocks of one buffer. *)
Definition blocks (b : list Z) (pos : nat) : nat := ((length b - pos) / 16 * 16)%nat.
Lemma blocks_le b pos : (pos <= length b -> pos + blocks b pos <= length b)%nat.
Proof. unfold blocks. pose proof (Nat.Div0.mul_div_le (length b - pos) 16). lia. Qed.
Lemma blocks_mod b pos : (blocks b pos mod 16 = 0)%nat.
Proof. unfold blocks. apply Nat.Div0.mod_mul. Qed.

(** Bytes in the place of others, which the loop goes on behind. *)
Lemma encrypted_step fed b rest pos out len bufs' :
  (pos + len <= length b)%nat -> length out = len ->
  (aes_gcm key nonce aad (fed ++ take len (drop pos b))).1 = (aes_gcm key nonce aad fed).1 ++ out ->
  encrypted (fed ++ take len (drop pos b)) ((take pos b ++ out ++ drop (pos + len) b) :: rest) (pos + len) bufs' ->
  encrypted fed (b :: rest) pos bufs'.
Proof.
  intros Hlen Hout Hc [HL (c & Hb & Hc')]. split.
  { rewrite HL. cbn [map]. f_equal. rewrite !length_app, length_take, length_drop. lia. }
  assert (length (take pos b ++ out) = pos + len)%nat as Hp by (rewrite length_app, length_take; lia).
  exists (out ++ c). rewrite Hb, take_concat_cons, (take_concat_cons b) by (rewrite ?length_app, ?length_take, ?length_drop; lia).
  rewrite (app_assoc (take pos b)), take_app_le, take_ge by lia. split; [by rewrite <- app_assoc|].
  rewrite (app_assoc (_.1)), <- Hc, <- Hc'. do 2 f_equal. rewrite <- app_assoc. f_equal.
  rewrite !drop_concat_cons by (rewrite ?length_app, ?length_take, ?length_drop; lia).
  rewrite (app_assoc (take pos b)), drop_app_ge, Hp, Nat.sub_diag, drop_0 by lia.
  by rewrite app_assoc, <- (drop_drop b len pos), take_drop.
Qed.

Lemma aes_gcm_added fed p c : (aes_gcm key nonce aad (fed ++ p)).1 = (aes_gcm key nonce aad fed).1 ++ c -> length c = length p.
Proof.
  intros E. apply (f_equal length) in E. rewrite length_app, !(proj1 (aes_gcm_length _ _ _ _)), length_app in E. lia.
Qed.

(** After the last block of a buffer. *)
Lemma encrypts_next fuel fed b rest : encrypts fuel fed rest 0 ->
  forall ctx before, gcm_fed key nonce aad fed ctx -> exists ctx' bufs',
    encrypt_bufs fuel ctx (before ++ [b]) rest 0 = Some (Some (ctx', before ++ bufs')) /\
    gcm_fed key nonce aad (fed ++ concat rest) ctx' /\ encrypted fed (b :: rest) (length b) bufs'.
Proof.
  intros H ctx before Hctx. destruct (H ctx (before ++ [b]) Hctx) as (ctx' & bufs' & E & Hf & HL & c & Hb & Hc).
  rewrite drop_0 in *. exists ctx', (b :: bufs'). rewrite E, <- app_assoc. split; [done|]. split; [done|]. split.
  { cbn [map]. by rewrite HL. }
  exists c. rewrite drop_concat_cons, take_concat_cons, drop_ge, take_ge by lia. cbn [concat]. rewrite Hb. by split.
Qed.

(** After a block that was borrowed. *)
Lemma encrypts_borrowed fuel fed bufs pos blk out bufs1 k pos1 :
  returned bufs pos out bufs1 k pos1 -> drop pos (concat bufs) = blk ++ drop (pos + length out) (concat bufs) ->
  (aes_gcm key nonce aad (fed ++ blk)).1 = (aes_gcm key nonce aad fed).1 ++ out ->
  encrypts fuel (fed ++ blk) (drop k bufs1) pos1 ->
  forall ctx before, gcm_fed key nonce aad (fed ++ blk) ctx -> exists ctx' bufs',
    encrypt_bufs fuel ctx (before ++ take k bufs1) (drop k bufs1) pos1 = Some (Some (ctx', before ++ bufs')) /\
    gcm_fed key nonce aad (fed ++ drop pos (concat bufs)) ctx' /\ encrypted fed bufs pos bufs'.
Proof.
  intros R Hblk Hout H ctx before Hctx. pose proof (returned_split _ _ _ _ _ _ R) as [R1 R2].
  destruct (H ctx (before ++ take k bufs1) Hctx) as (ctx' & bufs' & E & Hf & HL & c & Hb & Hc).
  rewrite R2, <- app_assoc, <- Hblk in Hf, Hc. exists ctx', (take k bufs1 ++ bufs'). rewrite E, <- app_assoc.
  split; [done|]. split; [done|]. split.
  - rewrite map_app, HL, <- map_app, take_drop. apply R.
  - exists (out ++ c). rewrite concat_app, Hb, app_assoc, R1, <- app_assoc. split; [done|]. by rewrite Hc, Hout, app_assoc.
Qed.

Lemma mod_16_add m n : (m mod 16 = 0 -> n mod 16 = 0 -> (m + n) mod 16 = 0)%nat.
Proof. intros Hm Hn. by rewrite Nat.Div0.add_mod, Hm, Hn. Qed.

(** The rest of a round that borrows. *)
Lemma encrypts_borrow fuel fed bufs pos ctx before :
  (forall fed bufs pos, (pos <= length (hd [] bufs))%nat ->
     (length fed mod 16 = 0)%nat \/ drop pos (concat bufs) = [] ->
     (length bufs + length (drop pos (concat bufs)) <= fuel)%nat -> encrypts fuel fed bufs pos) ->
  (pos < length (hd [] bufs))%nat -> (length fed mod 16 = 0)%nat ->
  (length bufs + length (drop pos (concat bufs)) <= S fuel)%nat -> gcm_fed key nonce aad fed ctx ->
  exists ctx' bufs',
    (match gcm_update ctx (BorrowBytes bufs pos 0) with
     | None => Some None
     | Some (tmp, ctx) => let '(bufs, k, pos) := ReturnBytes bufs pos tmp in
                          encrypt_bufs fuel ctx (before ++ take k bufs) (drop k bufs) pos
     end) = Some (Some (ctx', before ++ bufs')) /\
    gcm_fed key nonce aad (fed ++ drop pos (concat bufs)) ctx' /\ encrypted fed bufs pos bufs'.
Proof.
  intros IH Hpos Hmod Hfuel Hctx. rewrite BorrowBytes_take by lia.
  change (16 - 0)%nat with 16%nat. set (blk := take 16 (drop pos (concat bufs))).
  assert (0 < length (drop pos (concat bufs)))%nat as Hne.
  { destruct bufs as [|b rest]; cbn in Hpos; [lia|]. rewrite length_drop. cbn. rewrite length_app. lia. }
  destruct (gcm_update_ok key nonce aad fed ctx blk) as (out & ctx1 & -> & Hfed & Hc); [done|by left|].
  pose proof (aes_gcm_added _ _ _ Hc) as Lo. assert (length blk <= 16)%nat by (unfold blk; rewrite length_take; lia).
  assert (length out = Nat.min 16 (length (drop pos (concat bufs)))) as Lm by (rewrite Lo; unfold blk; by rewrite length_take).
  rewrite length_drop in Hne, Lm.
  destruct (ReturnBytes_ok bufs pos out) as (bufs1 & k & pos1 & -> & R); [lia|lia|intros E; apply (f_equal length) in E; rewrite Lm in E; cbn [length] in E; lia|].
  assert (drop pos (concat bufs) = blk ++ drop (pos + length out) (concat bufs)) as Hblk.
  { rewrite <- (take_drop 16 (drop pos (concat bufs))) at 1. fold blk. f_equal. rewrite drop_drop.
    destruct (decide (length out = 16)%nat) as [->|]; [done|]. by rewrite !drop_ge by lia. }
  eapply encrypts_borrowed; [exact R|exact Hblk|exact Hc| |done].
  pose proof (returned_split _ _ _ _ _ _ R) as [_ R2]. apply IH; [apply R| |].
  - rewrite R2. destruct (decide (length out = 16)%nat) as [E|E]; [left|right; apply drop_ge; lia].
    rewrite length_app, <- Lo, E. by apply mod_16_add.
  - rewrite R2, !length_drop in *. destruct R as [_ _ RL _ _ _].
    apply (f_equal length) in RL. rewrite !length_map in RL. lia.
Qed.

Lemma encrypt_bufs_ok fuel : forall fed bufs pos,
  (pos <= length (hd [] bufs))%nat -> (length fed mod 16 = 0)%nat \/ drop pos (concat bufs) = [] ->
  (length bufs + length (drop pos (concat bufs)) <= fuel)%nat -> encrypts fuel fed bufs pos.
Proof.
  induction fuel as [|fuel IH]; intros fed [|b rest] pos Hpos Hmod Hfuel ctx before Hctx;
    [|cbn in Hfuel; lia| |].
  1,2: exists ctx, []; cbn [encrypt_bufs concat]; rewrite drop_nil, !app_nil_r;
    (split; [done|]; split; [done|]; split; [done|]; exists []; cbn [concat]; rewrite take_nil, drop_nil, !app_nil_r; done).
  cbn [hd] in Hpos. rewrite drop_concat_cons in Hmod, Hfuel by done. cbn [encrypt_bufs].
  fold (blocks b pos). pose proof (blocks_le b pos Hpos) as Hle. set (len := blocks b pos) in *.
  set (p := take len (drop pos b)). assert (length p = len) as Lp by (unfold p; rewrite length_take, length_drop; lia).
  destruct (gcm_update_ok key nonce aad fed ctx p) as (out & ctx1 & -> & Hfed & Hc); [done| |].
  { destruct Hmod as [|[H _]%app_eq_nil]; [by left|right; unfold p; by rewrite H, take_nil]. }
  pose proof (aes_gcm_added _ _ _ Hc) as Lo. rewrite Lp in Lo. rewrite mem_write_fits, Lo by lia. cbn [mbind option_bind].
  set (b1 := take pos b ++ out ++ drop (pos + len) b).
  assert (length b1 = length b) as Lb by (unfold b1; rewrite !length_app, length_take, length_drop; lia).
  assert (drop (pos + len) (concat (b1 :: rest)) = drop (pos + len) (concat (b :: rest))) as Hd.
  { rewrite !drop_concat_cons by lia. f_equal. unfold b1. rewrite app_assoc. apply drop_app_length'.
    rewrite length_app, length_take. lia. }
  assert (drop pos (concat (b :: rest)) = p ++ drop (pos + len) (concat (b :: rest))) as Hp.
  { rewrite !drop_concat_cons, app_assoc by lia. f_equal. unfold p. by rewrite <- (drop_drop b len pos), take_drop. }
  rewrite Hp, app_assoc. rewrite <- drop_concat_cons, Hp, length_app in Hfuel by done. cbn [length] in Hfuel.
  match goal with |- ex (fun ctx' => ex (fun bufs' => ?r = _ /\ _)) => enough (exists ctx' bufs', r = Some (Some (ctx', before ++ bufs')) /\
    gcm_fed key nonce aad ((fed ++ p) ++ drop (pos + len) (concat (b1 :: rest))) ctx' /\
    encrypted (fed ++ p) (b1 :: rest) (pos + len) bufs') as (ctx' & bufs' & E & Hf & He) end.
  { exists ctx', bufs'. rewrite <- Hd. split; [exact E|]. split; [done|]. by eapply encrypted_step. }
  case_decide as Hlt.
  - apply encrypts_borrow; [done|done| |rewrite Hd; cbn [length]; lia|done].
    rewrite length_app, Lp. apply mod_16_add; [|apply blocks_mod].
    destruct Hmod as [|[H _]%app_eq_nil]; [done|]. apply (f_equal length) in H. rewrite length_drop in H. cbn in H. lia.
  - assert (pos + len = length b1)%nat as E by lia. rewrite E, drop_concat_cons, drop_all by lia.
    rewrite drop_concat_cons, drop_ge in Hfuel by lia. cbn [app] in *. apply encrypts_next; [|done].
    apply IH; [lia| |rewrite drop_0; lia].
    rewrite drop_0. destruct Hmod as [H|[_ H]%app_eq_nil]; [left|by right].
    rewrite length_app, Lp. apply mod_16_add; [done|apply blocks_mod].
Qed.

(** ** Encrypting and decrypting *)

Lemma Encrypt_GCM_ok bufs tag :
  length key = AES_256_KEY_LEN -> length nonce = AES_GCM_NONCE_LEN -> tx_wf tag -> tx_fits tag GCM_M ->
  exists bufs', Encrypt_GCM key nonce bufs tag aad =
      Some (DPS_OK, bufs', tx_app tag (aes_gcm key nonce aad (concat bufs)).2) /\
    map length bufs' = map length bufs /\ concat bufs' = (aes_gcm key nonce aad (concat bufs)).1.
Proof.
  intros Hk Hn Htag Hfits. unfold Encrypt_GCM. rewrite DPS_TxBufferSpace_spec by done.
  rewrite (proj2 (Z.ltb_ge _ _)) by (unfold tx_fits, tx_space, GCM_M in *; lia).
  destruct (gcm_starts_ok key nonce aad Hk Hn) as (ctx & -> & Hctx).
  destruct (encrypt_bufs_ok (gcm_fuel bufs) [] bufs 0) with (ctx := ctx) (before := @nil (list Z))
    as (ctx' & bufs' & -> & Hf & HL & c & Hb & Hc); [lia|by left|rewrite drop_0; unfold gcm_fuel; lia|done|].
  rewrite drop_0 in Hf, Hc. cbn [mbind option_bind app]. rewrite (gcm_finish_ok _ _ _ _ _ Hf). cbn [app].
  rewrite tx_put_fits by (by rewrite (proj2 (aes_gcm_length _ _ _ _))). cbn [mbind option_bind].
  exists bufs'. split; [done|]. split; [done|]. cbn [app] in Hc.
  assert (length (aes_gcm key nonce aad []).1 = 0%nat) as H0 by apply aes_gcm_length.
  apply nil_length_inv in H0. by rewrite Hc, H0, Hb, take_0.
Qed.

Lemma Decrypt_GCM_ok p plainText :
  length key = AES_256_KEY_LEN -> length nonce = AES_GCM_NONCE_LEN ->
  tx_wf plainText -> tx_pos plainText = 0%nat -> length (tx_mem plainText) = length p ->
  Decrypt_GCM key nonce ((aes_gcm key nonce aad p).1 ++ (aes_gcm key nonce aad p).2) aad plainText =
    Some (DPS_OK, mkTx p (length p)).
Proof.
  intros Hk Hn Hw H0 HL. destruct (aes_gcm_length key nonce aad p) as [L1 L2]. unfold Decrypt_GCM.
  rewrite length_app, L1, L2, DPS_TxBufferSpace_spec by done. unfold tx_space. rewrite H0, HL.
  pose proof (proj1 (proj2 Hw)) as Hs. rewrite HL in Hs.
  rewrite u64_small, (proj2 (Z.ltb_ge _ _)) by (unfold GCM_M; lia).
  replace (length p + GCM_M - GCM_M)%nat with (length p) by lia.
  rewrite take_app_length', drop_app_length' by done.
  rewrite (proj2 (gcm_auth_decrypt_ok _ _ _ _ _ _ Hk Hn) (surjective_pairing _)).
  rewrite mem_write_fits by lia. cbn [mbind option_bind take]. rewrite drop_ge by lia.
  by rewrite app_nil_r.
Qed.
End Gcm.
