(* ===== verification/Cose.v ===== *)
(** * COSE ([src/cose.c])

    Messages that are encrypted or signed for the keys of the application (RFC 8152).
    A function that leaves through [goto Exit] is in the monad of the operations with a
    status for the early exit, [M (DPS_Status + A)]; what it has written then is freed by
    the function or by its caller, and only the status counts.  Pointers into the
    message are the bytes they point to. *)
From S2P Require Import Prelude Status Buffer Cbor BitVec Addr Node SubMsg SubDecode Tls Keys.
From stdpp Require Import gmap.
#[local] Open Scope Z_scope.

Definition DPS_BUFS_MAX : nat := 16.

Definition COSE_TAG_ENCRYPT0 : Z := 16.
Definition COSE_TAG_SIGN1 : Z := 18.
Definition COSE_TAG_ENCRYPT : Z := 96.

Definition COSE_ALG_A256GCM : Z := 3.
Definition COSE_ALG_A256KW : Z := -5.
Definition COSE_ALG_DIRECT : Z := -6.
Definition COSE_ALG_ECDH_ES_A256KW : Z := -31.
Definition COSE_ALG_ES384 : Z := -35.
Definition COSE_ALG_ES512 : Z := -36.
Definition COSE_NONCE_LEN : nat := 12.

Definition COSE_HDR_ALG : Z := 1.
Definition COSE_HDR_KID : Z := 4.
Definition COSE_HDR_IV : Z := 5.
Definition COSE_HDR_COUNTER_SIGNATURE : Z := 7.
Definition COSE_HDR_EPHEMERAL_KEY : Z := -1.

Definition COSE_KEY_KTY : Z := 1.
Definition COSE_KEY_KTY_EC : Z := 2.
Definition COSE_EC_KEY_CRV : Z := -1.
Definition COSE_EC_KEY_X : Z := -2.
Definition COSE_EC_KEY_Y : Z := -3.

(** The characters of the strings of the structures that are signed and encrypted. *)
Definition ENCRYPT0 : list Z := [69; 110; 99; 114; 121; 112; 116; 48].
Definition ENCRYPT : list Z := [69; 110; 99; 114; 121; 112; 116].
Definition SIGNATURE1 : list Z := [83; 105; 103; 110; 97; 116; 117; 114; 101; 49].
Definition COUNTER_SIGNATURE : list Z :=
  [67; 111; 117; 110; 116; 101; 114; 83; 105; 103; 110; 97; 116; 117; 114; 101].

(** ** Sizes *)

Definition A256KW_LEN : Z := 40.
Definition SIZEOF_PROTECTED_MAP : Z := CBOR_SIZEOF_BYTES (CBOR_SIZEOF_LEN 1 + CBOR_SIZEOF 1 + CBOR_SIZEOF 1).
Definition SIZEOF_SIGNATURE : Z := 132.
Definition SIZEOF_COUNTER_SIGNATURE (kidLen : Z) : Z :=
  CBOR_SIZEOF_LEN 3 + SIZEOF_PROTECTED_MAP + CBOR_SIZEOF_LEN 1 + CBOR_SIZEOF 1 + CBOR_SIZEOF_BYTES kidLen
  + CBOR_SIZEOF_BYTES SIZEOF_SIGNATURE.
Definition SIZEOF_EPHEMERAL_KEY : Z :=
  CBOR_SIZEOF_LEN 4 + (CBOR_SIZEOF 1 + CBOR_SIZEOF 1) + (CBOR_SIZEOF 1 + CBOR_SIZEOF 1)
  + (CBOR_SIZEOF 1 + CBOR_SIZEOF_BYTES (Z.of_nat EC_MAX_COORD_LEN))
  + (CBOR_SIZEOF 1 + CBOR_SIZEOF_BYTES (Z.of_nat EC_MAX_COORD_LEN)).
Definition SIZEOF_RECIPIENT (kidLen : Z) : Z :=
  CBOR_SIZEOF_LEN 3 + SIZEOF_PROTECTED_MAP + CBOR_SIZEOF_LEN 2 + (CBOR_SIZEOF 1 + CBOR_SIZEOF 1)
  + (CBOR_SIZEOF 1 + SIZEOF_EPHEMERAL_KEY) + (CBOR_SIZEOF 1 + CBOR_SIZEOF_BYTES kidLen)
  + CBOR_SIZEOF_BYTES A256KW_LEN.
Definition SIZEOF_PARTY_INFO : Z := CBOR_SIZEOF_LEN 3 + 1 + 1 + 1.
Definition CBOR_SIZEOF_STATIC_STRING (s : list Z) : Z := Z.of_nat (length s) + CBOR_SIZEOF_LEN (Z.of_nat (length s)).

(** ** Keys and signatures *)

(** [COSE_Key]: no code reads another member of the union than the one it has written. *)
Inductive COSE_KeyType := COSE_KEY_SYMMETRIC | COSE_KEY_EC.
#[export] Instance COSE_KeyType_eq_dec : EqDecision COSE_KeyType.
Proof. solve_decision. Defined.

Record COSE_Key := mkCKey {
  ck_type : COSE_KeyType;
  ck_key : list (option Z);
  ck_curve : option Z;
  ck_x : list (option Z);
  ck_y : list (option Z);
  ck_d : list (option Z)
}.

(** A key on the stack of which only the type was set, and one that was cleared. *)
Definition blank_key (type : COSE_KeyType) : COSE_Key :=
  mkCKey type (blank AES_256_KEY_LEN) None (blank EC_MAX_COORD_LEN) (blank EC_MAX_COORD_LEN) (blank EC_MAX_COORD_LEN).
Definition zero_key : COSE_Key :=
  mkCKey COSE_KEY_SYMMETRIC (zeroed AES_256_KEY_LEN) (Some 0)
    (zeroed EC_MAX_COORD_LEN) (zeroed EC_MAX_COORD_LEN) (zeroed EC_MAX_COORD_LEN).

Record Signature := mkSig { sg_alg : Z; sg_kid : list Z; sg_sig : list Z }.

(** [M] of the method: the length of the tag, and the length of the nonce. *)
Definition SetCryptoParams (alg : Z) : option (Z * nat) :=
  if alg =? COSE_ALG_A256GCM then Some (128 / 8, AES_GCM_NONCE_LEN) else None.

(** ** Encoding *)

Definition encode_int8 (n : Z) (p : DPS_Status * DPS_TxBuffer) := on_ok (fun b => CBOR_EncodeInt b n) p.
Definition encode_bytes (bs : list Z) (p : DPS_Status * DPS_TxBuffer) :=
  on_ok (fun b => CBOR_EncodeBytes b (Some bs) (length bs)) p.

Definition EncodeProtectedMap (alg : Z) (p : DPS_Status * DPS_TxBuffer) : option (DPS_Status * DPS_TxBuffer) :=
  on_ok (fun b =>
    '(ret, b, wrapPtr) ← CBOR_StartWrapBytes b 3;
    p ← on_ok (fun b => CBOR_EncodeMap b 1) (ret, b);
    p ← encode_int8 COSE_HDR_ALG p;
    p ← encode_int8 alg p;
    on_ok (fun b => CBOR_EndWrapBytes b wrapPtr) p) p.

(** The map up to the bytes of the counter signature; [sub] is the unprotected map of
    that signature, which has no signature itself. *)
Definition encode_partial_map (sub : list Z -> DPS_Status * DPS_TxBuffer -> option (DPS_Status * DPS_TxBuffer))
    (kid nonce : list Z) (sig : option Signature) (p : DPS_Status * DPS_TxBuffer) : option (DPS_Status * DPS_TxBuffer) :=
  let n := (if is_nil kid then 0 else 1) + (if is_nil nonce then 0 else 1) + (match sig with Some _ => 1 | None => 0 end) in
  p ← on_ok (fun b => CBOR_EncodeMap b n) p;
  p ← (if is_nil kid then Some p else p ← encode_int8 COSE_HDR_KID p; encode_bytes kid p);
  p ← (if is_nil nonce then Some p else p ← encode_int8 COSE_HDR_IV p; encode_bytes nonce p);
  match sig with
  | None => Some p
  | Some sig =>
      p ← encode_int8 COSE_HDR_COUNTER_SIGNATURE p;
      p ← on_ok (fun b => CBOR_EncodeArray b 3) p;
      p ← EncodeProtectedMap (sg_alg sig) p;
      on_ok (fun b => sub (sg_kid sig) (DPS_OK, b)) p
  end.
Definition EncodePartialUnprotectedMap (kid nonce : list Z) (sig : option Signature) (p : DPS_Status * DPS_TxBuffer)
  : option (DPS_Status * DPS_TxBuffer) :=
  encode_partial_map (fun kid => encode_partial_map (fun _ p => Some p) kid [] None) kid nonce sig p.

Definition EncodeUnprotectedMap (kid nonce : list Z) (sig : option Signature) (p : DPS_Status * DPS_TxBuffer)
  : option (DPS_Status * DPS_TxBuffer) :=
  p ← EncodePartialUnprotectedMap kid nonce sig p;
  match sig with Some sig => encode_bytes (sg_sig sig) p | None => Some p end.

(** The ephemeral key of a recipient. *)
Definition encode_ephemeral (key : COSE_Key) (p : DPS_Status * DPS_TxBuffer) : option (DPS_Status * DPS_TxBuffer) :=
  if negb (bool_decide (ck_type key = COSE_KEY_EC)) then Some (DPS_ERR_INVALID, p.2) else
  curve ← ck_curve key;
  let len := CoordinateSize_EC curve in
  x ← cells_read len (ck_x key);
  y ← cells_read len (ck_y key);
  p ← encode_int8 COSE_HDR_EPHEMERAL_KEY p;
  p ← on_ok (fun b => CBOR_EncodeMap b 4) p;
  p ← encode_int8 COSE_KEY_KTY p;
  p ← encode_int8 COSE_KEY_KTY_EC p;
  p ← encode_int8 COSE_EC_KEY_CRV p;
  p ← encode_int8 curve p;
  p ← encode_int8 COSE_EC_KEY_X p;
  p ← encode_bytes x p;
  p ← encode_int8 COSE_EC_KEY_Y p;
  encode_bytes y p.

Definition EncodeRecipient (alg : Z) (kid : list Z) (key : option COSE_Key) (content : list Z)
    (p : DPS_Status * DPS_TxBuffer) : option (DPS_Status * DPS_TxBuffer) :=
  let symmetric := (alg =? COSE_ALG_A256KW) || (alg =? COSE_ALG_DIRECT) in
  p ← on_ok (fun b => CBOR_EncodeArray b 3) p;
  p ← on_ok (fun b =>
        if symmetric then CBOR_EncodeBytes b None 0
        else if alg =? COSE_ALG_ECDH_ES_A256KW then EncodeProtectedMap alg (DPS_OK, b)
        else Some (DPS_ERR_NOT_IMPLEMENTED, b)) p;
  p ← on_ok (fun b => CBOR_EncodeMap b 2) p;
  p ← on_ok (fun b =>
        if symmetric then p ← encode_int8 COSE_HDR_ALG (DPS_OK, b); encode_int8 alg p
        else match key with Some key => encode_ephemeral key (DPS_OK, b) | None => Some (DPS_ERR_INVALID, b) end) p;
  p ← encode_int8 COSE_HDR_KID p;
  p ← encode_bytes kid p;
  encode_bytes content p.

Section Cose.
Context `{Env : Environment} `{Tls : Mbedtls} `{Keys : KeyStore}.

(** [DPS_TxBufferInit(&buf, NULL, len)] *)
Definition tx_new (len : Z) : M (DPS_Status * DPS_TxBuffer) :=
  m ← malloc; mret (DPS_TxBufferInit None (m (Z.to_nat len)) (Z.to_nat len)).

(** *** The structures that are signed, encrypted, and derived from *)

Definition EncodePartialSig (tag alg sigAlg : Z) (aad : list Z) (payloadLen : Z) : M (DPS_Status * DPS_TxBuffer) :=
  if (tag =? COSE_TAG_ENCRYPT0) || (tag =? COSE_TAG_ENCRYPT) || (tag =? COSE_TAG_SIGN1) then
    let sign1 := tag =? COSE_TAG_SIGN1 in
    let arrayLen := if sign1 then 4 else 5 in
    let context := if sign1 then SIGNATURE1 else COUNTER_SIGNATURE in
    '(ret, b) ← tx_new (CBOR_SIZEOF_LEN arrayLen + CBOR_SIZEOF_STATIC_STRING context + SIZEOF_PROTECTED_MAP
                         + SIZEOF_PROTECTED_MAP + CBOR_SIZEOF_BYTES (Z.of_nat (length aad)) + CBOR_SIZEOF_BYTES payloadLen);
    lift (p ← on_ok (fun b => CBOR_EncodeArray b arrayLen) (ret, b);
          p ← on_ok (fun b => CBOR_EncodeString b (Some context)) p;
          p ← EncodeProtectedMap alg p;
          p ← (if sign1 then Some p else EncodeProtectedMap sigAlg p);
          p ← encode_bytes aad p;
          on_ok (fun b => CBOR_EncodeLength b payloadLen CBOR_BYTES) p)
  else mret (DPS_ERR_INVALID, mkTx [] 0).

Definition EncodeAAD (tag alg : Z) (aad : list Z) : M (DPS_Status * DPS_TxBuffer) :=
  if (tag =? COSE_TAG_ENCRYPT0) || (tag =? COSE_TAG_ENCRYPT) then
    let context := if tag =? COSE_TAG_ENCRYPT0 then ENCRYPT0 else ENCRYPT in
    '(ret, b) ← tx_new (CBOR_SIZEOF_LEN 3 + SIZEOF_PROTECTED_MAP + CBOR_SIZEOF_BYTES (Z.of_nat (length aad))
                         + CBOR_SIZEOF_STATIC_STRING context);
    lift (p ← on_ok (fun b => CBOR_EncodeArray b 3) (ret, b);
          p ← on_ok (fun b => CBOR_EncodeString b (Some context)) p;
          p ← EncodeProtectedMap alg p;
          encode_bytes aad p)
  else mret (DPS_ERR_INVALID, mkTx [] 0).

Definition EncodePartyInfo (p : DPS_Status * DPS_TxBuffer) : option (DPS_Status * DPS_TxBuffer) :=
  p ← on_ok (fun b => CBOR_EncodeArray b 3) p;
  p ← on_ok CBOR_EncodeNull p;
  p ← on_ok CBOR_EncodeNull p;
  on_ok CBOR_EncodeNull p.

Definition EncodeKDFContext (alg keyLen recipientAlg : Z) : M (DPS_Status * DPS_TxBuffer) :=
  '(ret, b) ← tx_new (CBOR_SIZEOF_LEN 4 + CBOR_SIZEOF 1 + SIZEOF_PARTY_INFO + SIZEOF_PARTY_INFO
                       + CBOR_SIZEOF_LEN 2 + CBOR_SIZEOF 2 + SIZEOF_PROTECTED_MAP);
  lift (p ← on_ok (fun b => CBOR_EncodeArray b 4) (ret, b);
        p ← encode_int8 alg p;
        p ← EncodePartyInfo p;
        p ← EncodePartyInfo p;
        p ← on_ok (fun b => CBOR_EncodeArray b 2) p;
        p ← on_ok (fun b => CBOR_EncodeUint b (keyLen * 8)) p;
        EncodeProtectedMap recipientAlg p).

(** ** Keys from the key store *)

(** A coordinate of a key that the handler gives, none for a null pointer. *)
Definition copy_coord (len : nat) (src : option (list Z)) : option (list (option Z)) :=
  match src with
  | None => Some (zeroed EC_MAX_COORD_LEN)
  | Some src => bs ← mem_read src 0 len; cells_write (zeroed EC_MAX_COORD_LEN) bs
  end.

Definition SetKey (key : DPS_Key) (ckey : COSE_Key) : option (DPS_Status * COSE_Key) :=
  match key with
  | KeySymmetric k =>
      if negb (bool_decide (ck_type ckey = COSE_KEY_SYMMETRIC)) then Some (DPS_ERR_MISSING, ckey) else
      match k with
      | Some k =>
          if decide (length k = AES_256_KEY_LEN) then
            Some (DPS_OK, mkCKey (ck_type ckey) (map Some k) (ck_curve ckey) (ck_x ckey) (ck_y ckey) (ck_d ckey))
          else Some (DPS_ERR_MISSING, ckey)
      | None => Some (DPS_ERR_MISSING, ckey)
      end
  | KeyEC curve x y d =>
      if negb (bool_decide (ck_type ckey = COSE_KEY_EC)) then Some (DPS_ERR_MISSING, ckey) else
      if (curve =? DPS_EC_CURVE_P384) || (curve =? DPS_EC_CURVE_P521) then
        let len := if curve =? DPS_EC_CURVE_P384 then 48%nat else 66%nat in
        x ← copy_coord len x;
        y ← copy_coord len y;
        d ← copy_coord len d;
        Some (DPS_OK, mkCKey (ck_type ckey) (ck_key ckey) (Some curve) x y d)
      else Some (DPS_ERR_MISSING, ckey)
  | KeyCert cert privateKey password =>
      if negb (bool_decide (ck_type ckey = COSE_KEY_EC)) then Some (DPS_ERR_MISSING, ckey) else
      if bool_decide (is_Some password) && negb (bool_decide (is_Some privateKey)) then Some (DPS_ERR_MISSING, ckey) else
      '(ret, curve, d) ← (match privateKey with
                          | Some pk => ParsePrivateKey_ECDSA pk password (ck_curve ckey) (ck_d ckey)
                          | None => Some (DPS_OK, ck_curve ckey, ck_d ckey)
                          end);
      let ckey := mkCKey (ck_type ckey) (ck_key ckey) curve (ck_x ckey) (ck_y ckey) d in
      if negb (is_OK ret) then Some (ret, ckey) else
      match cert with
      | Some cert =>
          '(ret, curve, x, y) ← ParseCertificate_ECDSA cert curve (ck_x ckey) (ck_y ckey);
          Some (ret, mkCKey (ck_type ckey) (ck_key ckey) curve x y d)
      | None => Some (DPS_OK, ckey)
      end
  | KeyUnknown _ => Some (DPS_ERR_MISSING, ckey)
  end.

Definition GetKey (kid : list Z) (key : COSE_Key) : M (DPS_Status * COSE_Key) :=
  match keyHandler with
  | None => mret (DPS_ERR_MISSING, key)
  | Some handler => lift (run_request SetKey (handler kid) key)
  end.

(** The state of the generator is the number of things that were asked of the
    environment before. *)
Definition GetEphemeralKey (key : COSE_Key) : M (DPS_Status * COSE_Key) :=
  match ephemeralKeyHandler with
  | None => mret (DPS_ERR_MISSING, key)
  | Some handler =>
      k ← (match ck_type key with
           | COSE_KEY_SYMMETRIC => mret (KeySymmetric None)
           | COSE_KEY_EC => curve ← lift (ck_curve key); mret (KeyEC curve None None None)
           end);
      t ← gets n_allocs;
      _ ← modify (fun n => n <| n_allocs := S (n_allocs n) |>);
      lift (run_request SetKey (handler t k) key)
  end.

Definition GetSignatureKey (sig : Signature) (key : COSE_Key) : M (DPS_Status * COSE_Key) :=
  match keyHandler with
  | None => mret (DPS_ERR_MISSING, key)
  | Some handler =>
      if (sg_alg sig =? COSE_ALG_ES384) || (sg_alg sig =? COSE_ALG_ES512) then
        let curve := if sg_alg sig =? COSE_ALG_ES384 then DPS_EC_CURVE_P384 else DPS_EC_CURVE_P521 in
        let key := mkCKey COSE_KEY_EC (ck_key key) (ck_curve key) (ck_x key) (ck_y key) (ck_d key) in
        '(ret, key) ← lift (run_request SetKey (handler (sg_kid sig)) key);
        if negb (is_OK ret) then mret (ret, key) else
        c ← lift (ck_curve key);
        mret (if c =? curve then DPS_OK else DPS_ERR_INVALID, key)
      else mret (DPS_ERR_NOT_IMPLEMENTED, key)
  end.

(** ** Leaving early *)

(** [if (ret != DPS_OK) { goto Exit; }] *)
Definition exit {A} (ret : DPS_Status) : M (DPS_Status + A) := mret (inl ret).
Definition try {A B} (m : M (DPS_Status + A)) (f : A -> M (DPS_Status + B)) : M (DPS_Status + B) :=
  r ← m; match r with inl ret => exit ret | inr x => f x end.
Definition or_exit {A} (m : M (DPS_Status * A)) : M (DPS_Status + A) :=
  '(ret, x) ← m; if is_OK ret then mret (inr x) else exit ret.
#[local] Notation "x ←? m ; k" := (try m (fun x => k))
  (at level 20, m at level 100, k at level 200, only parsing).
#[local] Notation "' x ←? m ; k" := (try m (fun x => k))
  (at level 20, x pattern, m at level 100, k at level 200, only parsing).

(** ** Encrypting *)

(** The header up to the length of the content, and, for a signer, its key and the
    place of the signature that is written later. *)
Definition encrypt_header (tag alg : Z) (nonce : list Z) (signer : option COSE_Entity) (contentLen : Z)
  : M (DPS_Status + DPS_TxBuffer * option (Signature * COSE_Key * nat)) :=
  b ←? or_exit (tx_new (CBOR_SIZEOF 1 + CBOR_SIZEOF_LEN 4 + SIZEOF_PROTECTED_MAP + CBOR_SIZEOF_LEN 2
         + (CBOR_SIZEOF 1 + CBOR_SIZEOF_BYTES (Z.of_nat AES_GCM_NONCE_LEN)) + CBOR_SIZEOF_LEN contentLen
         + (match signer with
            | Some s => CBOR_SIZEOF 1 + SIZEOF_COUNTER_SIGNATURE (Z.of_nat (length (e_kid s)))
            | None => 0
            end)));
  b ←? or_exit (lift (CBOR_EncodeTag b tag));
  b ←? or_exit (lift (CBOR_EncodeArray b (if tag =? COSE_TAG_ENCRYPT then 4 else 3)));
  b ←? or_exit (lift (EncodeProtectedMap alg (DPS_OK, b)));
  '(b, sig) ←? (match signer with
    | Some s =>
        let sig := mkSig (e_alg s) (e_kid s) [] in
        k ←? or_exit (GetSignatureKey sig (blank_key COSE_KEY_EC));
        curve ← lift (ck_curve k);
        let sigLen := (CoordinateSize_EC curve * 2)%nat in
        b ←? or_exit (lift (EncodePartialUnprotectedMap [] nonce (Some sig) (DPS_OK, b)));
        '(ret, b, pos) ← lift (CBOR_ReserveBytes b sigLen None);
        if negb (is_OK ret) then exit ret else
        pos ← lift pos;
        mret (inr (b, Some (sig, k, pos)))
    | None =>
        b ←? or_exit (lift (EncodeUnprotectedMap [] nonce None (DPS_OK, b)));
        mret (inr (b, None))
    end);
  b ←? or_exit (lift (CBOR_EncodeLength b contentLen CBOR_BYTES));
  mret (inr (b, sig)).

(** The content encryption key: that of the only recipient, or a new one. *)
Definition content_key (alg : Z) (recipient : list COSE_Entity) : M (DPS_Status + COSE_Key) :=
  if (alg =? COSE_ALG_RESERVED) || (alg =? COSE_ALG_DIRECT) then
    match recipient with
    | [r] => or_exit (GetKey (e_kid r) (blank_key COSE_KEY_SYMMETRIC))
    | _ => exit DPS_ERR_ARGS
    end
  else if (alg =? COSE_ALG_A256KW) || (alg =? COSE_ALG_ECDH_ES_A256KW) then
    or_exit (GetEphemeralKey (blank_key COSE_KEY_SYMMETRIC))
  else exit DPS_ERR_NOT_IMPLEMENTED.

(** The signature over the encrypted content, stored at its place in the header: the
    array [dataBuf] has room for [2 + DPS_BUFS_MAX] buffers. *)
Definition sign_content (tag alg contentLen : Z) (payload : list (list Z)) (footer : DPS_TxBuffer)
    (header : DPS_TxBuffer) (sig : Signature) (k : COSE_Key) (pos : nat) : M (DPS_Status + DPS_TxBuffer) :=
  toBeSigned ←? or_exit (EncodePartialSig tag alg (sg_alg sig) [] contentLen);
  _ ← assert (bool_decide (length payload + 2 <= 2 + DPS_BUFS_MAX)%nat);
  curve ← lift (ck_curve k);
  let sigLen := (CoordinateSize_EC curve * 2)%nat in
  bytes ←? or_exit (lift (Sign_ECDSA curve (ck_d k) (tx_written toBeSigned :: payload ++ [tx_written footer])
                            (Z.of_nat sigLen)));
  _ ← assert (bool_decide (length bytes = sigLen));
  mem ← lift (mem_write (tx_mem header) pos bytes);
  mret (inr (mkTx mem (tx_pos header))).

(** The key encryption key between a static and an ephemeral key. *)
Definition derive_kek (curve : Z) (x y d : list (option Z)) (alg : Z) : M (DPS_Status + list Z) :=
  secret ←? or_exit (lift (ECDH curve x y d));
  context ←? or_exit (EncodeKDFContext COSE_ALG_A256KW (Z.of_nat AES_256_KEY_LEN) alg);
  or_exit (mret (HKDF_SHA256 secret (tx_written context))).

(** One recipient: the footer and the ephemeral key that the next one may use. *)
Definition encrypt_recipient (cek : list Z) (r : COSE_Entity) (footer : DPS_TxBuffer) (ephemeralKey : COSE_Key)
  : M (DPS_Status + DPS_TxBuffer * COSE_Key) :=
  let encode key content :=
    footer ←? or_exit (lift (EncodeRecipient (e_alg r) (e_kid r) key content (DPS_OK, footer)));
    mret (inr (footer, default ephemeralKey key)) in
  if e_alg r =? COSE_ALG_DIRECT then encode None []
  else if e_alg r =? COSE_ALG_A256KW then
    k ←? or_exit (GetKey (e_kid r) (blank_key COSE_KEY_SYMMETRIC));
    kek ← lift (cells_read AES_256_KEY_LEN (ck_key k));
    kw ←? or_exit (mret (KeyWrap cek kek));
    encode None kw
  else if e_alg r =? COSE_ALG_ECDH_ES_A256KW then
    staticKey ←? or_exit (GetKey (e_kid r) (blank_key COSE_KEY_EC));
    curve ← lift (ck_curve staticKey);
    ec ← lift (ck_curve ephemeralKey);
    ephemeralKey ←? (if ec =? curve then mret (inr ephemeralKey)
      else or_exit (GetEphemeralKey (mkCKey COSE_KEY_EC (ck_key ephemeralKey) (Some curve)
                                       (ck_x ephemeralKey) (ck_y ephemeralKey) (ck_d ephemeralKey))));
    kek ←? derive_kek curve (ck_x staticKey) (ck_y staticKey) (ck_d ephemeralKey) (e_alg r);
    kw ←? or_exit (mret (KeyWrap cek kek));
    encode (Some ephemeralKey) kw
  else mret (inr (footer, ephemeralKey)).

Fixpoint encrypt_recipients (cek : list Z) (recipient : list COSE_Entity) (footer : DPS_TxBuffer) (ephemeralKey : COSE_Key)
  : M (DPS_Status + DPS_TxBuffer) :=
  match recipient with
  | [] => mret (inr footer)
  | r :: recipient =>
      '(footer, ephemeralKey) ←? encrypt_recipient cek r footer ephemeralKey;
      encrypt_recipients cek recipient footer ephemeralKey
  end.

Definition lengths (l : list (list Z)) : Z := foldr Z.add 0 (map (fun d => Z.of_nat (length d)) l).

Definition footer_len (tag : Z) (recipient : list COSE_Entity) : Z :=
  128 / 8 + (if tag =? COSE_TAG_ENCRYPT then
               CBOR_SIZEOF_LEN (Z.of_nat (length recipient))
               + foldr Z.add 0 (map (fun r => SIZEOF_RECIPIENT (Z.of_nat (length (e_kid r)))) recipient)
             else 0).

Definition encrypt_message (alg : Z) (nonce : list Z) (signer : option COSE_Entity) (recipient : list COSE_Entity)
    (aad : list Z) (payload : list (list Z)) : M (DPS_Status + list Z * list (list Z) * list Z) :=
  match recipient with
  | [] => exit DPS_ERR_ARGS
  | r0 :: rest =>
      if is_nil payload then exit DPS_ERR_ARGS
      else if negb (forallb (fun r => e_alg r =? e_alg r0) recipient) then exit DPS_ERR_ARGS else
      let tag := if is_nil rest && (e_alg r0 =? COSE_ALG_RESERVED) then COSE_TAG_ENCRYPT0 else COSE_TAG_ENCRYPT in
      match SetCryptoParams alg with
      | None => exit DPS_ERR_NOT_IMPLEMENTED
      | Some (tagLen, _) =>
          let contentLen := lengths payload + tagLen in
          '(header, sig) ←? encrypt_header tag alg nonce signer contentLen;
          AAD ←? or_exit (EncodeAAD tag alg aad);
          cek ←? content_key (e_alg r0) recipient;
          footer ←? or_exit (tx_new (footer_len tag recipient));
          key ← lift (cells_read AES_256_KEY_LEN (ck_key cek));
          '(payload, footer) ←? or_exit
             ('(ret, payload, footer) ← lift (Encrypt_GCM key nonce payload footer (tx_written AAD));
              mret (ret, (payload, footer)));
          header ←? (match sig with
                     | Some (sig, k, pos) => sign_content tag alg contentLen payload footer header sig k pos
                     | None => mret (inr header)
                     end);
          footer ←? (if tag =? COSE_TAG_ENCRYPT then
                       footer ←? or_exit (lift (CBOR_EncodeArray footer (Z.of_nat (length recipient))));
                       encrypt_recipients key recipient footer zero_key
                     else mret (inr footer));
          mret (inr (tx_written header, payload, tx_written footer))
      end
  end.

(** The header, the encrypted buffers and the footer.  The buffers are encrypted in
    place: after a failure they may be partly encrypted, and of the result only the
    status is used. *)
Definition COSE_Encrypt (alg : Z) (nonce : list Z) (signer : option COSE_Entity) (recipient : list COSE_Entity)
    (aad : list Z) (payload : list (list Z)) : M (DPS_Status * list Z * list (list Z) * list Z) :=
  r ← encrypt_message alg nonce signer recipient aad payload;
  mret (match r with
        | inl ret => (ret, [], payload, [])
        | inr (header, payload, footer) => (DPS_OK, header, payload, footer)
        end).

(** ** Signing *)

(** The array [dataBuf] has room for [1 + DPS_BUFS_MAX] buffers. *)
Definition sign_message (signer : COSE_Entity) (aad : list Z) (payload : list (list Z))
  : M (DPS_Status + list Z * list Z) :=
  if is_nil payload then exit DPS_ERR_ARGS else
  sigBuf ←? or_exit (tx_new SIZEOF_SIGNATURE);
  let payloadLen := lengths payload in
  toBeSigned ←? or_exit (EncodePartialSig COSE_TAG_SIGN1 (e_alg signer) COSE_ALG_RESERVED aad payloadLen);
  k ←? or_exit (GetSignatureKey (mkSig (e_alg signer) (e_kid signer) []) (blank_key COSE_KEY_EC));
  _ ← assert (bool_decide (length payload + 1 <= 1 + DPS_BUFS_MAX)%nat);
  curve ← lift (ck_curve k);
  sig ←? or_exit (lift (Sign_ECDSA curve (ck_d k) (tx_written toBeSigned :: payload) (DPS_TxBufferSpace sigBuf)));
  b ←? or_exit (tx_new (CBOR_SIZEOF 1 + CBOR_SIZEOF_LEN 4 + SIZEOF_PROTECTED_MAP + CBOR_SIZEOF_LEN 1
         + (CBOR_SIZEOF 1 + SIZEOF_COUNTER_SIGNATURE (Z.of_nat (length (e_kid signer)))) + CBOR_SIZEOF_LEN payloadLen));
  b ←? or_exit (lift (CBOR_EncodeTag b COSE_TAG_SIGN1));
  b ←? or_exit (lift (CBOR_EncodeArray b 4));
  b ←? or_exit (lift (EncodeProtectedMap (e_alg signer) (DPS_OK, b)));
  b ←? or_exit (lift (EncodeUnprotectedMap (e_kid signer) [] None (DPS_OK, b)));
  b ←? or_exit (lift (CBOR_EncodeLength b payloadLen CBOR_BYTES));
  footer ←? or_exit (tx_new (CBOR_SIZEOF_BYTES SIZEOF_SIGNATURE));
  footer ←? or_exit (lift (encode_bytes sig (DPS_OK, footer)));
  mret (inr (tx_written b, tx_written footer)).

(** The header and the footer. *)
Definition COSE_Sign (signer : COSE_Entity) (aad : list Z) (payload : list (list Z)) : M (DPS_Status * list Z * list Z) :=
  r ← sign_message signer aad payload;
  mret (match r with inl ret => (ret, [], []) | inr (header, footer) => (DPS_OK, header, footer) end).

(** ** Decoding *)

Definition decode_with {A} (o : option (DPS_Status * A * DPS_RxBuffer)) : M (DPS_Status + A * DPS_RxBuffer) :=
  '(ret, x, b) ← lift o; if is_OK ret then mret (inr (x, b)) else exit ret.
Definition decode_bytes (b : DPS_RxBuffer) : M (DPS_Status + list Z * DPS_RxBuffer) :=
  '(ret, str, sz, b) ← lift (CBOR_DecodeBytes b);
  if negb (is_OK ret) then exit ret else
  bytes ← lift (decoded_bytes b str sz); mret (inr (bytes, b)).

(** [memcpy_s] to an array of an empty string has a null source, which is an error, as
    is a string that does not fit. *)
Definition store_cells (cs : list (option Z)) (bs : list Z) : M (DPS_Status + list (option Z)) :=
  if is_nil bs then exit DPS_ERR_INVALID else
  match cells_write cs bs with Some cs => mret (inr cs) | None => exit DPS_ERR_INVALID end.

Definition DecodeProtectedMap (b : DPS_RxBuffer) : M (DPS_Status + Z * DPS_RxBuffer) :=
  '(map, b) ←? decode_bytes b;
  if is_nil map then mret (inr (COSE_ALG_RESERVED, b)) else
  '(size, mapBuf) ←? decode_with (CBOR_DecodeMap (DPS_RxBufferInit map (length map)).2 0);
  if negb (size =? 1) then exit DPS_ERR_INVALID else
  '(key, mapBuf) ←? decode_with (CBOR_DecodeInt mapBuf 0);
  if negb (key =? COSE_HDR_ALG) then exit DPS_ERR_INVALID else
  '(alg, _) ←? decode_with (CBOR_DecodeInt8 mapBuf COSE_ALG_RESERVED);
  mret (inr (alg, b)).

(** *** Keys *)

Definition decode_coord (csz : nat) (cs : list (option Z)) (b : DPS_RxBuffer) : M (DPS_Status + list (option Z) * DPS_RxBuffer) :=
  '(bytes, b) ←? decode_bytes b;
  if negb (bool_decide (length bytes = csz)) then exit DPS_ERR_INVALID else
  cs ←? store_cells cs bytes;
  mret (inr (cs, b)).

(** The [switch (mapKey)] for an elliptic curve: the key and the size of its
    coordinates. *)
Definition decode_key_entry (mapKey : Z) (csz : nat) (key : COSE_Key) (b : DPS_RxBuffer)
  : M (DPS_Status + COSE_Key * nat * DPS_RxBuffer) :=
  if mapKey =? COSE_EC_KEY_CRV then
    '(ret, maj, _) ← lift (CBOR_Peek b (Some 0) None);
    if negb (is_OK ret) then exit ret
    else if default 0 maj =? CBOR_STRING then exit DPS_ERR_NOT_IMPLEMENTED else
    '(crv, b) ←? decode_with (CBOR_DecodeInt8 b 0);
    if (crv <? DPS_EC_CURVE_P384) || (DPS_EC_CURVE_P521 <? crv) then exit DPS_ERR_NOT_IMPLEMENTED else
    mret (inr (mkCKey COSE_KEY_EC (ck_key key) (Some crv) (ck_x key) (ck_y key) (ck_d key), CoordinateSize_EC crv, b))
  else if mapKey =? COSE_EC_KEY_X then
    '(x, b) ←? decode_coord csz (ck_x key) b;
    mret (inr (mkCKey COSE_KEY_EC (ck_key key) (ck_curve key) x (ck_y key) (ck_d key), csz, b))
  else if mapKey =? COSE_EC_KEY_Y then
    '(ret, maj, _) ← lift (CBOR_Peek b (Some 0) None);
    if negb (is_OK ret) then exit ret
    else if negb (default 0 maj =? CBOR_BYTES) then exit DPS_ERR_NOT_IMPLEMENTED else
    '(y, b) ←? decode_coord csz (ck_y key) b;
    mret (inr (mkCKey COSE_KEY_EC (ck_key key) (ck_curve key) (ck_x key) y (ck_d key), csz, b))
  else exit DPS_ERR_INVALID.

(** [while (--size)], where every round reads at least a byte. *)
Fixpoint decode_key_entries (fuel : nat) (size kty : Z) (csz : nat) (key : COSE_Key) (b : DPS_RxBuffer)
  : M (DPS_Status + COSE_Key * DPS_RxBuffer) :=
  if size - 1 =? 0 then mret (inr (key, b)) else
  match fuel with
  | O => undefined
  | S fuel =>
      '(mapKey, b) ←? decode_with (CBOR_DecodeInt8 b 0);
      if negb (kty =? COSE_KEY_KTY_EC) then exit DPS_ERR_INVALID else
      '(key, csz, b) ←? decode_key_entry mapKey csz key b;
      decode_key_entries fuel (size - 1) kty csz key b
  end.

Definition DecodeKey (key : COSE_Key) (b : DPS_RxBuffer) : M (DPS_Status + COSE_Key * DPS_RxBuffer) :=
  '(size, b) ←? decode_with (CBOR_DecodeMap b 0);
  if size <? 1 then exit DPS_ERR_INVALID else
  '(mapKey, b) ←? decode_with (CBOR_DecodeInt8 b 0);
  if negb (mapKey =? COSE_KEY_KTY) then exit DPS_ERR_INVALID else
  '(kty, b) ←? decode_with (CBOR_DecodeInt8 b 0);
  decode_key_entries (skip_fuel b) size kty 0 key b.

(** *** The unprotected map

    What the pointers point to, [None] for a null pointer; the identifier of a key may
    have no value. *)
Record Unprotected := mkUnprot {
  um_alg : option Z;
  um_kid : option (option (list Z));
  um_nonce : option (list (option Z));
  um_sig : option Signature;
  um_key : option COSE_Key
}.

Definition decode_entry (sub : Unprotected -> DPS_RxBuffer -> M (DPS_Status + Unprotected * DPS_RxBuffer))
    (mapKey : Z) (u : Unprotected) (b : DPS_RxBuffer) : M (DPS_Status + Unprotected * DPS_RxBuffer) :=
  if mapKey =? COSE_HDR_ALG then
    match um_alg u with
    | None => exit DPS_ERR_INVALID
    | Some alg => '(alg, b) ←? decode_with (CBOR_DecodeInt8 b alg);
                  mret (inr (mkUnprot (Some alg) (um_kid u) (um_nonce u) (um_sig u) (um_key u), b))
    end
  else if mapKey =? COSE_HDR_KID then
    match um_kid u with
    | None => exit DPS_ERR_INVALID
    | Some _ => '(kid, b) ←? decode_bytes b;
                mret (inr (mkUnprot (um_alg u) (Some (Some kid)) (um_nonce u) (um_sig u) (um_key u), b))
    end
  else if mapKey =? COSE_HDR_IV then
    match um_nonce u with
    | None => exit DPS_ERR_INVALID
    | Some nonce => '(data, b) ←? decode_bytes b;
                    nonce ←? store_cells nonce data;
                    mret (inr (mkUnprot (um_alg u) (um_kid u) (Some nonce) (um_sig u) (um_key u), b))
    end
  else if mapKey =? COSE_HDR_COUNTER_SIGNATURE then
    match um_sig u with
    | None => exit DPS_ERR_INVALID
    | Some sig =>
        '(sz, b) ←? decode_with (CBOR_DecodeArray b 0);
        if negb (sz =? 3) then exit DPS_ERR_INVALID else
        r ← DecodeProtectedMap b;
        match r with
        | inl _ => exit DPS_ERR_INVALID
        | inr (alg, b) =>
            if alg =? COSE_ALG_RESERVED then exit DPS_ERR_INVALID else
            '(v, b) ←? sub (mkUnprot None (Some (Some (sg_kid sig))) None None None) b;
            '(bytes, b) ←? decode_bytes b;
            kid ← lift (um_kid v ≫= id);
            mret (inr (mkUnprot (um_alg u) (um_kid u) (um_nonce u) (Some (mkSig alg kid bytes)) (um_key u), b))
        end
    end
  else if mapKey =? COSE_HDR_EPHEMERAL_KEY then
    match um_key u with
    | None => exit DPS_ERR_INVALID
    | Some key => '(key, b) ←? DecodeKey key b;
                  mret (inr (mkUnprot (um_alg u) (um_kid u) (um_nonce u) (um_sig u) (Some key), b))
    end
  else exit DPS_ERR_INVALID.

(** [while (size--)], where every round reads at least a byte. *)
Fixpoint decode_entries (sub : Unprotected -> DPS_RxBuffer -> M (DPS_Status + Unprotected * DPS_RxBuffer))
    (fuel : nat) (size : Z) (u : Unprotected) (b : DPS_RxBuffer) : M (DPS_Status + Unprotected * DPS_RxBuffer) :=
  if size =? 0 then mret (inr (u, b)) else
  match fuel with
  | O => undefined
  | S fuel =>
      '(mapKey, b) ←? decode_with (CBOR_DecodeInt8 b 0);
      '(u, b) ←? decode_entry sub mapKey u b;
      decode_entries sub fuel (size - 1) u b
  end.
Definition decode_map (sub : Unprotected -> DPS_RxBuffer -> M (DPS_Status + Unprotected * DPS_RxBuffer))
    (u : Unprotected) (b : DPS_RxBuffer) : M (DPS_Status + Unprotected * DPS_RxBuffer) :=
  '(size, b) ←? decode_with (CBOR_DecodeMap b 0);
  decode_entries sub (skip_fuel b) size u b.
(** The map of a counter signature has a null [sig], and no such entry inside. *)
Definition DecodeUnprotectedMap (u : Unprotected) (b : DPS_RxBuffer) : M (DPS_Status + Unprotected * DPS_RxBuffer) :=
  decode_map (decode_map (fun _ _ => undefined)) u b.

(** *** Recipients *)

(** A [COSE_Entity] on the stack of the caller. *)
Record Recipient := mkRcpt { rc_alg : option Z; rc_kid : option (list Z) }.
Definition blank_recipient : Recipient := mkRcpt None None.

Definition DecodeRecipient (r : Recipient) (key : COSE_Key) (b : DPS_RxBuffer)
  : M (DPS_Status + Recipient * COSE_Key * list Z * DPS_RxBuffer) :=
  '(size, b) ←? decode_with (CBOR_DecodeArray b 0);
  if negb (size =? 3) then exit DPS_ERR_INVALID else
  '(alg, b) ←? DecodeProtectedMap b;
  '(u, b) ←? DecodeUnprotectedMap (mkUnprot (Some alg) (Some (rc_kid r)) None None (Some key)) b;
  '(content, b) ←? decode_bytes b;
  mret (inr (mkRcpt (um_alg u) (default None (um_kid u)), default key (um_key u), content, b)).

(** ** Verifying *)

(** The status, and the signer when the signature is right. *)
Definition VerifySignature (tag alg : Z) (sig : Signature) (aad content : list Z) : M (DPS_Status + COSE_Entity) :=
  toBeSigned ←? or_exit (EncodePartialSig tag alg (sg_alg sig) aad (Z.of_nat (length content)));
  k ←? or_exit (GetSignatureKey sig zero_key);
  curve ← lift (ck_curve k);
  ret ← lift (Verify_ECDSA curve (ck_x k) (ck_y k) [tx_written toBeSigned; content] (sg_sig sig));
  if is_OK ret then mret (inr (mkEntity (sg_alg sig) (sg_kid sig))) else exit ret.

(** A failure leaves the signer cleared and is otherwise ignored. *)
Definition verified (r : DPS_Status + COSE_Entity) : COSE_Entity := match r with inl _ => no_entity | inr e => e end.

(** An empty signature is an error that the status of the verification overwrites. *)
Definition verify_message (aad cipherText : list Z) : M (DPS_Status + COSE_Entity * list Z) :=
  '(ret, tag, b) ← lift (CBOR_DecodeTag (DPS_RxBufferInit cipherText (length cipherText)).2 0);
  if negb (is_OK ret && (tag =? COSE_TAG_SIGN1)) then exit DPS_ERR_NOT_COSE else
  '(sz, b) ←? decode_with (CBOR_DecodeArray b 0);
  if negb (sz =? 4) then exit DPS_ERR_INVALID else
  '(alg, b) ←? DecodeProtectedMap b;
  '(u, b) ←? DecodeUnprotectedMap (mkUnprot None (Some (Some [])) None None None) b;
  kid ← lift (um_kid u ≫= id);
  '(content, b) ←? decode_bytes b;
  '(bytes, b) ←? decode_bytes b;
  r ← VerifySignature tag alg (mkSig alg kid bytes) aad content;
  mret (inr (verified r, content)).

(** The signer, and the content that was signed. *)
Definition COSE_Verify (aad cipherText : list Z) : M (DPS_Status * COSE_Entity * list Z) :=
  r ← verify_message aad cipherText;
  mret (match r with inl ret => (ret, no_entity, []) | inr (e, content) => (DPS_OK, e, content) end).

(** ** Decrypting *)

(** What is before the recipients: tag, algorithm, nonce, signature and content. *)
Definition decrypt_front (cipherText : list Z) : M (DPS_Status + Z * Z * list (option Z) * Signature * list Z * DPS_RxBuffer) :=
  '(ret, tag, b) ← lift (CBOR_DecodeTag (DPS_RxBufferInit cipherText (length cipherText)).2 0);
  if negb (is_OK ret && ((tag =? COSE_TAG_ENCRYPT0) || (tag =? COSE_TAG_ENCRYPT))) then exit DPS_ERR_NOT_COSE else
  '(sz, b) ←? decode_with (CBOR_DecodeArray b 0);
  if negb (sz =? (if tag =? COSE_TAG_ENCRYPT0 then 3 else 4)) then exit DPS_ERR_INVALID else
  r ← DecodeProtectedMap b;
  match r with
  | inl _ => exit DPS_ERR_INVALID
  | inr (alg, b) =>
      if alg =? COSE_ALG_RESERVED then exit DPS_ERR_INVALID else
      match SetCryptoParams alg with
      | None => exit DPS_ERR_NOT_IMPLEMENTED
      | Some _ =>
          '(u, b) ←? DecodeUnprotectedMap (mkUnprot None None (Some (blank COSE_NONCE_LEN)) (Some (mkSig 0 [] [])) None) b;
          '(content, b) ←? decode_bytes b;
          mret (inr (tag, alg, default [] (um_nonce u), default (mkSig 0 [] []) (um_sig u), content, b))
      end
  end.

(** The key of a recipient, whose identifier only the handler looks at. *)
Definition GetKeyOf (r : Recipient) (key : COSE_Key) : M (DPS_Status * COSE_Key) :=
  match keyHandler with
  | None => mret (DPS_ERR_MISSING, key)
  | Some _ => kid ← lift (rc_kid r); GetKey kid key
  end.

(** The content encryption key of a recipient. *)
Definition recipient_key (r : Recipient) (ephemeralKey : COSE_Key) (kw : list Z) : M (DPS_Status + list (option Z)) :=
  alg ← lift (rc_alg r);
  if (alg =? COSE_ALG_RESERVED) || (alg =? COSE_ALG_DIRECT) then
    cek ←? or_exit (GetKeyOf r (blank_key COSE_KEY_SYMMETRIC));
    mret (inr (ck_key cek))
  else if alg =? COSE_ALG_A256KW then
    k ←? or_exit (GetKeyOf r (blank_key COSE_KEY_SYMMETRIC));
    if negb (bool_decide (length kw = AES_256_KEY_WRAP_LEN)) then exit DPS_ERR_INVALID else
    kek ← lift (cells_read AES_256_KEY_LEN (ck_key k));
    cek ←? or_exit (mret (KeyUnwrap kw kek));
    mret (inr (map Some cek))
  else if alg =? COSE_ALG_ECDH_ES_A256KW then
    if negb (bool_decide (length kw = AES_256_KEY_WRAP_LEN)) then exit DPS_ERR_INVALID else
    staticKey ←? or_exit (GetKeyOf r (blank_key COSE_KEY_EC));
    curve ← lift (ck_curve ephemeralKey);
    kek ←? derive_kek curve (ck_x ephemeralKey) (ck_y ephemeralKey) (ck_d staticKey) alg;
    cek ←? or_exit (mret (KeyUnwrap kw kek));
    mret (inr (map Some cek))
  else exit DPS_ERR_NOT_IMPLEMENTED.

(** [DPS_TxBufferInit(plainText, plainText->base, contentLen - M)]: no allocation gives
    the number of bytes that a negative difference wraps around to. *)
Definition plain_buffer (plainText : DPS_TxBuffer) (contentLen : nat) : M (DPS_Status * DPS_TxBuffer) :=
  if decide (contentLen < GCM_M)%nat then
    mret (DPS_ERR_RESOURCES, plainText)
  else if is_nil (tx_mem plainText) then tx_new (Z.of_nat (contentLen - GCM_M))
  else mret (DPS_OK, mkTx (take (contentLen - GCM_M) (tx_mem plainText)) 0).

(** The loop over the recipients, until one of them can decrypt the content. *)
Fixpoint decrypt_recipients (fuel : nat) (sz tag : Z) (nonce : list (option Z)) (content AAD : list Z) (b : DPS_RxBuffer)
    (r : Recipient) (ephemeralKey : COSE_Key) (ret : DPS_Status) (plainText : DPS_TxBuffer)
  : M (DPS_Status * Recipient * DPS_TxBuffer) :=
  if sz =? 0 then mret (ret, r, plainText) else
  match fuel with
  | O => undefined
  | S fuel =>
      d ← (if tag =? COSE_TAG_ENCRYPT then DecodeRecipient r ephemeralKey b
           else mret (inr (r, ephemeralKey, [], b)));
      match d with
      | inl ret => mret (ret, r, plainText)
      | inr (r, ephemeralKey, kw, b) =>
          cek ← recipient_key r ephemeralKey kw;
          match cek with
          | inl ret => decrypt_recipients fuel (sz - 1) tag nonce content AAD b r ephemeralKey ret plainText
          | inr cek =>
              '(ret, plainText) ← plain_buffer plainText (length content);
              if negb (is_OK ret) then mret (ret, r, plainText) else
              key ← lift (cells_read AES_256_KEY_LEN cek);
              iv ← lift (cells_read COSE_NONCE_LEN nonce);
              '(ret, plainText) ← lift (Decrypt_GCM key iv content AAD plainText);
              if is_OK ret then mret (ret, r, plainText)
              else decrypt_recipients fuel (sz - 1) tag nonce content AAD b r ephemeralKey ret plainText
          end
      end
  end.

Definition decrypt_content (tag alg : Z) (nonce : list (option Z)) (aad content : list Z) (b : DPS_RxBuffer) (r : Recipient)
  : M (DPS_Status * Recipient * list Z) :=
  '(ret, AAD) ← EncodeAAD tag alg aad;
  if negb (is_OK ret) then mret (ret, r, []) else
  '(ret, sz, r, b) ← (if tag =? COSE_TAG_ENCRYPT0 then mret (DPS_OK, 1, mkRcpt (Some COSE_ALG_RESERVED) (rc_kid r), b)
                      else '(ret, sz, b) ← lift (CBOR_DecodeArray b 0); mret (ret, sz, r, b));
  if negb (is_OK ret) then mret (ret, r, []) else
  '(ret, r, plainText) ← decrypt_recipients (skip_fuel b) sz tag nonce content (tx_written AAD) b r
      (blank_key COSE_KEY_EC) DPS_OK (mkTx [] 0);
  mret (ret, r, if is_OK ret then tx_written plainText else []).

(** The recipient whose key it was, the signer when its signature is right, and the
    plain text; [r] is what the recipient holds before. *)
Definition COSE_Decrypt (r : Recipient) (aad cipherText : list Z) : M (DPS_Status * Recipient * COSE_Entity * list Z) :=
  d ← decrypt_front cipherText;
  match d with
  | inl ret => mret (ret, r, no_entity, [])
  | inr (tag, alg, nonce, sig, content, b) =>
      signer ← (if is_nil (sg_sig sig) then mret no_entity
                else v ← VerifySignature tag alg sig [] content; mret (verified v));
      '(ret, r, plainText) ← decrypt_content tag alg nonce aad content b r;
      mret (ret, r, signer, plainText)
  end.
End Cose.

(** What the messages of a node need: Mbed TLS and the key store of the node. *)
Class Cose := { cose_tls : Mbedtls; cose_keys : KeyStore }.
#[export] Existing Instances cose_tls cose_keys.
