(* ===== verification/PubMsg.v ===== *)
(** * Publications: creating and publishing ([src/pub.c], [src/dps.c])

    The topics of a publication, its copies, the nonces, and the message as
    [DPS_SerializePub] builds it: one list of bytes for each buffer of the request. *)
From S2P Require Import Prelude Status Buffer Float Cbor BitVec Topics Uuid Addr History Node Remote Sub SubMsg Pub Tls Keys Cose.
From stdpp Require Import gmap.
#[local] Open Scope Z_scope.

Definition NUM_INTERNAL_PUB_BUFS : nat := 4.
Definition DPS_MCAST_PUB_ENABLE_SEND : Z := 1.
Definition CBOR_SIZEOF_BOOLEAN : Z := 1.

Definition DPS_CBOR_KEY_TTL : Z := 2.
Definition DPS_CBOR_KEY_PUB_ID : Z := 3.
Definition DPS_CBOR_KEY_ACK_REQ : Z := 5.
Definition DPS_CBOR_KEY_BLOOM_FILTER : Z := 6.
Definition DPS_CBOR_KEY_TOPICS : Z := 11.
Definition DPS_CBOR_KEY_DATA : Z := 12.
Definition DPS_CBOR_KEY_HOP_COUNT : Z := 15.

(** ** Nonces *)

(** The eight bytes of the identifier that are used; one bit tells publications from
    acknowledgements. *)
Definition nonce_id (uuid : DPS_UUID) (msgType : Z) : list Z :=
  match take (COSE_NONCE_LEN - 4) (uuid_val uuid) with
  | b :: l => (if msgType =? DPS_MSG_TYPE_PUB then b .& 0x7F else b .| 0x80) :: l
  | [] => []
  end.

Definition DPS_MakeNonce `{Env : Environment} (uuid : DPS_UUID) (seqNum msgType alg : Z) : M (DPS_Status * list Z) :=
  if (alg =? COSE_ALG_RESERVED) || (alg =? COSE_ALG_DIRECT) then
    mret (if seqNum =? 0 then (DPS_ERR_NONCE_OVERFLOW, [])
          else (DPS_OK, map (fun i => u8 (seqNum ≫ (8 * i))) [0; 1; 2; 3] ++ nonce_id uuid msgType))
  else if (alg =? COSE_ALG_A256KW) || (alg =? COSE_ALG_ECDH_ES_A256KW) then
    fun n => Some (env_random (n_allocs n), n <| n_allocs := S (n_allocs n) |>)
  else mret (DPS_ERR_NOT_IMPLEMENTED, []).

Section PubMsg.
Context `{Env : Environment} `{Crypto : Cose}.

(** ** Recipients *)

(** What the algorithm of a recipient follows from. *)
Definition SetKey (key : DPS_Key) (alg : Z) : option (DPS_Status * Z) :=
  match key with
  | KeySymmetric _ => Some (DPS_OK, COSE_ALG_A256KW)
  | KeyEC _ _ _ _ | KeyCert _ _ _ => Some (DPS_OK, COSE_ALG_ECDH_ES_A256KW)
  | KeyUnknown _ => Some (DPS_ERR_MISSING, alg)
  end.

Definition GetRecipientAlgorithm (kid : list Z) : option (DPS_Status * Z) :=
  match keyHandler with
  | None => Some (DPS_ERR_MISSING, COSE_ALG_RESERVED)
  | Some handler => run_request SetKey (handler kid) COSE_ALG_RESERVED
  end.

Definition AddRecipient (pub : ptr) (alg : Z) (kid : list Z) : M bool :=
  p ← load n_pubs pub;
  ok ← (if Z.of_nat (length (p_recipients p)) =? p_recipientsCap p then
          ok ← alloc_ok;
          _ ← when ok (update n_pubs pub (fun p =>
                p <| p_recipientsCap := if p_recipientsCap p =? 0 then 1 else p_recipientsCap p * 2 |>));
          mret ok
        else mret true);
  if negb ok then mret false else
  ok ← DPS_CopyKeyId kid;
  if negb ok then mret false else
  _ ← update n_pubs pub (fun p => p <| p_recipients := p_recipients p ++ [mkEntity alg kid] |>);
  mret true.

Fixpoint remove_recipient (kid : list Z) (l : list COSE_Entity) : list COSE_Entity :=
  match l with
  | [] => []
  | r :: l => if bool_decide (e_kid r = kid) then l else r :: remove_recipient kid l
  end.
Definition RemoveRecipient (pub : ptr) (kid : list Z) : M unit :=
  update n_pubs pub (fun p => p <| p_recipients := remove_recipient kid (p_recipients p) |>).

(** The loop of [CopyRecipients]: whether every identifier was copied. *)
Fixpoint copy_keyids (l : list COSE_Entity) : M bool :=
  match l with
  | [] => mret true
  | r :: l => ok ← DPS_CopyKeyId (e_kid r); if ok : bool then copy_keyids l else mret false
  end.
Definition CopyRecipients (dst src : ptr) : M DPS_Status :=
  p ← load n_pubs src;
  ok ← (if p_recipientsCap p =? 0 then mret true
        else ok ← alloc_ok; if ok : bool then copy_keyids (p_recipients p) else mret false);
  if negb ok then mret DPS_ERR_RESOURCES else
  _ ← update n_pubs dst (fun d => d <| p_recipients := p_recipients p |> <| p_recipientsCap := p_recipientsCap p |>);
  mret DPS_OK.

Definition FreeRecipients (pub : ptr) : M unit :=
  update n_pubs pub (fun p => p <| p_recipients := [] |> <| p_recipientsCap := 0 |>).
Definition FreeTopics (pub : ptr) : M unit := update n_pubs pub (fun p => p <| p_topics := None |>).

Definition DPS_PublicationAddSubId (pub : option ptr) (kid : list Z) : M DPS_Status :=
  valid ← IsValidPub pub;
  match pub with
  | Some p =>
      if negb valid || bool_decide (kid = []) then mret DPS_ERR_ARGS else
      '(ret, alg) ← lift (GetRecipientAlgorithm kid);
      if negb (is_OK ret) then mret ret else
      ok ← AddRecipient p alg kid; mret (if ok : bool then DPS_OK else DPS_ERR_RESOURCES)
  | None => mret DPS_ERR_ARGS
  end.
Definition DPS_PublicationRemoveSubId (pub : option ptr) (kid : list Z) : M unit :=
  valid ← IsValidPub pub;
  match pub with Some p => when valid (RemoveRecipient p kid) | None => mret () end.
Definition DPS_PublicationIsEncrypted (pub : option ptr) : M bool :=
  match pub with Some p => pb ← load n_pubs p; mret (negb (p_recipientsCap pb =? 0)) | None => mret false end.

(** ** Creating *)

(** What [calloc] gives. *)
Definition zero_pub : DPS_Publication :=
  mkPub false None (mkUUID 0 0) [] 0 None [] [] no_entity zero_sock_addr 0 no_entity zero_sock_addr None [] [] 0 0 0 0 None.

Definition DPS_CreatePublication : M (option ptr) :=
  ok ← alloc_ok;
  if negb ok then mret None else
  mcastPub ← gets n_mcastPub;
  e ← gets n_entropy;
  let '(pubId, e) := DPS_GenerateUUID e in
  _ ← modify (fun n => n <| n_entropy := e |>);
  p ← new n_pubs (zero_pub <| p_pubId := pubId |>
        <| p_flags := if has_flag mcastPub DPS_MCAST_PUB_ENABLE_SEND then PUB_FLAG_MULTICAST else 0 |>);
  mret (Some p).

(** A failed [strndup] leaves a null topic in the copy, which nothing reads before it
    is given away: it is taken for an error here. *)
Definition dup_topics (topics : list (list Z)) : M (option (list (list Z))) :=
  ok ← alloc_ok;
  if negb ok then mret None else
  _ ← for_each topics (fun _ => ok ← alloc_ok; assert ok);
  mret (Some (map (take (Z.to_nat DPS_MAX_TOPIC_STRLEN)) topics)).

Definition DPS_DestroyCopy (copy : ptr) : M unit := free n_pubs copy.

(** The node of a publication is never null here.  The status keeps its value from
    before the topics when they cannot be allocated: a copy is then returned
    that has the number of the topics and no topics in C, and no topics here. *)
Definition DPS_CopyPublication (pub : ptr) : M (option ptr) :=
  p ← load n_pubs pub;
  ok ← alloc_ok;
  if negb ok then mret None else
  copy ← new n_pubs (zero_pub <| p_flags := PUB_FLAG_IS_COPY |> <| p_sequenceNum := p_sequenceNum p |>
           <| p_ttl := p_ttl p |> <| p_ackRequested := p_ackRequested p |> <| p_handler := p_handler p |>
           <| p_pubId := p_pubId p |> <| p_sender := p_sender p |> <| p_senderAddr := p_senderAddr p |>);
  ret ← (if p_ackRequested p then CopyRecipients copy pub else mret DPS_ERR_RESOURCES);
  if p_ackRequested p && negb (is_OK ret) then _ ← DPS_DestroyCopy copy; mret None else
  '(topics, failed) ← (match p_topics p with
            | Some (_ :: _ as l) => t ← dup_topics l; mret (t, negb (bool_decide (is_Some t)))
            | _ => mret (None, false)
            end);
  if (failed : bool) then (if is_OK ret then mret (Some copy) else _ ← DPS_DestroyCopy copy; mret None) else
  _ ← update n_pubs copy (fun c => c <| p_topics := topics |> <| p_ack_sequenceNum := p_ack_sequenceNum p |>);
  ok ← DPS_CopyKeyId (e_kid (p_ack_sender p));
  if (ok : bool) then
    _ ← update n_pubs copy (fun c => c <| p_ack_sender := p_ack_sender p |>); mret (Some copy)
  else if is_OK ret then
    _ ← update n_pubs copy (fun c => c <| p_ack_sender := mkEntity (e_alg (p_ack_sender p)) [] |>); mret (Some copy)
  else _ ← DPS_DestroyCopy copy; mret None.

(** The loop over the topics of [DPS_InitPublication]. *)
Fixpoint add_pub_topics (bf : DPS_BitVector) (topics : list (list Z)) (separators : list Z) (t : DPS_TopicType)
  : M (DPS_Status * DPS_BitVector) :=
  match topics with
  | [] => mret (DPS_OK, bf)
  | x :: topics =>
      m ← malloc;
      '(ret, bf') ← lift (DPS_AddTopic env_md env_config m (Some bf) (Some x) (Some separators) t);
      bf ← lift bf';
      if is_OK ret then add_pub_topics bf topics separators t else mret (ret, bf)
  end.

(** [CBOR_EncodeString] of each topic, and its copy. *)
Fixpoint encode_topics (topics : list (list Z)) (b : DPS_TxBuffer) : M (DPS_Status * DPS_TxBuffer * list (list Z)) :=
  match topics with
  | [] => mret (DPS_OK, b, [])
  | x :: topics =>
      '(ret, b) ← lift (CBOR_EncodeString b (Some x));
      if negb (is_OK ret) then mret (ret, b, []) else
      ok ← alloc_ok;
      if negb ok then mret (DPS_ERR_RESOURCES, b, []) else
      '(ret, b, l) ← encode_topics topics b;
      mret (ret, b, take (Z.to_nat DPS_MAX_TOPIC_STRLEN) x :: l)
  end.

(** The topics in a buffer of their own, and the strings that are kept. *)
Definition serialize_topics (topics : list (list Z)) : M (DPS_Status * list Z * list (list Z)) :=
  ok ← alloc_ok;
  if negb ok then mret (DPS_ERR_RESOURCES, [], []) else
  '(ret, b) ← tx_new (CBOR_SIZEOF_LEN (Z.of_nat (length topics))
                       + foldr Z.add 0 (map (fun t => _CBOR_SizeOfString (Some t)) topics));
  '(ret, b) ← lift (on_ok (fun b => CBOR_EncodeArray b (Z.of_nat (length topics))) (ret, b));
  if negb (is_OK ret) then mret (ret, tx_written b, []) else
  '(ret, b, l) ← encode_topics topics b;
  mret (ret, tx_written b, l).

Definition serialize_filter (bf : DPS_BitVector) : M (DPS_Status * DPS_BitVector * list Z) :=
  '(ret, b) ← tx_new (32 + DPS_BitVectorSerializeMaxSize bf);
  if negb (is_OK ret) then mret (ret, bf, []) else
  '(ret, bf, b) ← lift (DPS_BitVectorSerialize bf b);
  mret (ret, bf, tx_written b).

Definition DPS_InitPublication (pub : option ptr) (topics : list (list Z)) (noWildCard : bool) (handler : option Z)
  : M DPS_Status :=
  match pub with
  | None => mret DPS_ERR_NULL
  | Some p =>
      loop ← gets n_loop;
      if negb loop then mret DPS_ERR_NOT_STARTED else
      pb ← load n_pubs p;
      if has_flag (p_flags pb) PUB_FLAG_IS_COPY || bool_decide (is_Some (p_bf pb)) || bool_decide (is_Some (p_topics pb))
      then mret DPS_ERR_INVALID
      else if bool_decide (topics = []) then mret DPS_ERR_ARGS else
      bf ← BitVectorAlloc;
      match bf with
      | None => mret DPS_ERR_RESOURCES
      | Some bf =>
          _ ← update n_pubs p (fun p =>
                (match handler with Some h => p <| p_handler := Some h |> <| p_ackRequested := true |> | None => p end)
                  <| p_flags := p_flags p .| PUB_FLAG_LOCAL |>);
          separators ← gets n_separators;
          '(ret, bf) ← add_pub_topics bf topics separators (if noWildCard then DPS_PubNoWild else DPS_PubTopic);
          '(ret, tbuf, ts) ← (if is_OK ret then serialize_topics topics else mret (ret, [], []));
          '(ret, bf, bbuf) ← (if is_OK ret then serialize_filter bf else mret (ret, bf, []));
          if is_OK ret then
            _ ← update n_pubs p (fun p => p <| p_bf := Some bf |> <| p_topics := Some ts |>
                                            <| p_topicsBuf := tbuf |> <| p_bfBuf := bbuf |>);
            l ← gets n_publications;
            _ ← assert (negb (bool_decide (p ∈ l)));
            _ ← modify (fun n => n <| n_publications := p :: n_publications n |>);
            mret ret
          else
            _ ← FreeRecipients p; mret ret
      end
  end.

(** ** Publishing *)

(** A request; the four buffers that are always there surround those of the payload. *)
Definition DPS_CreatePublishRequest (pub : ptr) (numBufs : nat) (cb : option Z) : M (option ptr) :=
  ok ← alloc_ok;
  if negb ok then mret None else
  q ← new n_reqs (mkReq pub cb 0 0 0 DPS_ERR_NO_ROUTE 0 0 false (replicate (numBufs + NUM_INTERNAL_PUB_BUFS) []));
  mret (Some q).

(** The protected map. *)
Definition protected_len (bfLen : Z) : Z :=
  CBOR_SIZEOF_LEN 5 + 5 * CBOR_SIZEOF 1 + CBOR_SIZEOF_BYTES 16 + CBOR_SIZEOF 4 + CBOR_SIZEOF_BOOLEAN
  + CBOR_SIZEOF_BYTES bfLen + CBOR_SIZEOF 2.

Definition encode_protected (ttl sequenceNum : Z) (pubId : DPS_UUID) (ackRequested : bool) (bfBuf : list Z)
    (p : DPS_Status * DPS_TxBuffer) : option (DPS_Status * DPS_TxBuffer) :=
  p ← on_ok (fun b => CBOR_EncodeMap b 5) p;
  p ← encode_key DPS_CBOR_KEY_TTL p;
  p ← on_ok (fun b => CBOR_EncodeInt b ttl) p;
  p ← encode_key DPS_CBOR_KEY_PUB_ID p;
  p ← on_ok (fun b => CBOR_EncodeUUID b (uuid_val pubId)) p;
  p ← encode_uint DPS_CBOR_KEY_SEQ_NUM sequenceNum p;
  p ← encode_key DPS_CBOR_KEY_ACK_REQ p;
  p ← on_ok (fun b => CBOR_EncodeBoolean b (if ackRequested then 1 else 0)) p;
  p ← encode_key DPS_CBOR_KEY_BLOOM_FILTER p;
  on_ok (fun b => CBOR_Copy b (Some bfBuf) (length bfBuf)) p.

(** The map that may be encrypted, up to the bytes of the payload. *)
Definition encrypted_len (topicsLen dataLen : Z) : Z :=
  CBOR_SIZEOF_LEN 2 + 2 * CBOR_SIZEOF 1 + topicsLen + CBOR_SIZEOF_LEN dataLen.

Definition encode_encrypted (topicsBuf : list Z) (dataLen : Z) (p : DPS_Status * DPS_TxBuffer)
  : option (DPS_Status * DPS_TxBuffer) :=
  p ← on_ok (fun b => CBOR_EncodeMap b 2) p;
  p ← encode_key DPS_CBOR_KEY_TOPICS p;
  p ← on_ok (fun b => DPS_TxBufferAppend b (Some topicsBuf)) p;
  p ← encode_key DPS_CBOR_KEY_DATA p;
  on_ok (fun b => CBOR_EncodeLength b dataLen CBOR_BYTES) p.

(** Encryption for the recipients, or only a signature: the buffers from the header on. *)
Definition protect (pb : DPS_Publication) (sequenceNum : Z) (aad : list Z) (payload : list (list Z))
  : M (DPS_Status * list (list Z)) :=
  signer ← gets n_signer;
  match p_recipients pb with
  | [] =>
      if e_alg signer =? 0 then mret (DPS_OK, [] :: payload ++ [[]])
      else '(ret, header, footer) ← COSE_Sign signer aad payload; mret (ret, header :: payload ++ [footer])
  | r :: _ =>
      '(ret, nonce) ← DPS_MakeNonce (p_pubId pb) sequenceNum DPS_MSG_TYPE_PUB (e_alg r);
      if negb (is_OK ret) then mret (ret, []) else
      '(ret, header, payload, footer) ←
        COSE_Encrypt COSE_ALG_A256GCM nonce (if e_alg signer =? 0 then None else Some signer) (p_recipients pb) aad payload;
      mret (ret, header :: payload ++ [footer])
  end.

Definition DPS_SerializePub (req : ptr) (bufs : list (list Z)) (ttl : Z) : M DPS_Status :=
  q ← load n_reqs req;
  pb ← load n_pubs (q_pub q);
  _ ← assert (bool_decide (length (q_bufs q) = (length bufs + NUM_INTERNAL_PUB_BUFS)%nat));
  '(ret, b) ← tx_new (protected_len (Z.of_nat (length (p_bfBuf pb))));
  if negb (is_OK ret) then mret DPS_ERR_RESOURCES else
  '(ret, b) ← lift (encode_protected ttl (q_sequenceNum q) (p_pubId pb) (p_ackRequested pb) (p_bfBuf pb) (ret, b));
  let dataLen := foldr Z.add 0 (map (fun d => Z.of_nat (length d)) bufs) in
  '(ret, b2) ← (if is_OK ret then tx_new (encrypted_len (Z.of_nat (length (p_topicsBuf pb))) dataLen)
                else mret (ret, DPS_TxBufferFree b));
  '(ret, b2) ← lift (encode_encrypted (p_topicsBuf pb) dataLen (ret, b2));
  '(ret, rest) ← (if is_OK ret then protect pb (q_sequenceNum q) (tx_written b) (tx_written b2 :: bufs)
                  else mret (ret, []));
  _ ← when (is_OK ret) (update n_reqs req (fun q => q <| q_bufs := tx_written b :: rest |>));
  mret ret.

(** The checks on the time to live, and what it does to the publication: the time to
    live of the message. *)
Definition publish_ttl (p : ptr) (hasBufs : bool) (ttl : Z) : M (DPS_Status * Z) :=
  pb ← load n_pubs p;
  if ttl <? 0 then
    if negb (has_flag (p_flags pb) PUB_FLAG_RETAINED) || hasBufs then mret (DPS_ERR_INVALID, ttl)
    else _ ← update n_pubs p (fun p => p <| p_flags := p_flags p .| PUB_FLAG_EXPIRED |>); mret (DPS_OK, 0)
  else if ttl =? 0 then
    _ ← update n_pubs p (fun p => p <| p_flags := Z.ldiff (Z.ldiff (p_flags p) PUB_FLAG_RETAINED) PUB_FLAG_EXPIRED |>);
    mret (DPS_OK, ttl)
  else
    _ ← update n_pubs p (fun p => p <| p_flags := Z.ldiff (p_flags p .| PUB_FLAG_RETAINED) PUB_FLAG_EXPIRED |>);
    mret (DPS_OK, ttl).

(** From the reference to the publication on. *)
Definition publish_request (p req : ptr) (bufs : option (list (list Z))) (ttl : Z) : M DPS_Status :=
  '(ret, ttl) ← publish_ttl p (bool_decide (is_Some bufs)) ttl;
  if negb (is_OK ret) then mret ret else
  _ ← update n_pubs p (fun p => p <| p_ttl := ttl |> <| p_sequenceNum := u32 (p_sequenceNum p + 1) |>);
  pb ← load n_pubs p;
  _ ← update n_reqs req (fun q => q <| q_ttl := ttl |> <| q_sequenceNum := p_sequenceNum pb |>);
  ret ← DPS_SerializePub req (default [] bufs) ttl;
  if negb (is_OK ret) then mret ret else
  _ ← update n_pubs p (fun p => p <| p_sendQueue := p_sendQueue p ++ [req] |>);
  _ ← update n_reqs req (fun q => q <| q_refCount := q_refCount q + 1 |>);
  _ ← emit (EvAsyncSend pubsAsync);
  mret DPS_OK.

(** When there is no memory for the request, the reference that was not taken is given
    back, and the lock too. *)
Definition DPS_PublishBufs (pub : option ptr) (bufs : option (list (list Z))) (ttl : Z) (cb : option Z) : M DPS_Status :=
  match pub with
  | None => mret DPS_ERR_NULL
  | Some p =>
      if bool_decide (DPS_BUFS_MAX < length (default [] bufs))%nat then mret DPS_ERR_ARGS else
      loop ← gets n_loop;
      if negb loop then mret DPS_ERR_NOT_STARTED else
      valid ← IsValidPub pub;
      pb ← load n_pubs p;
      if negb valid || negb (has_flag (p_flags pb) PUB_FLAG_LOCAL) then mret DPS_ERR_MISSING else
      req ← DPS_CreatePublishRequest p (length (default [] bufs)) cb;
      match req with
      | None => _ ← DPS_PublicationDecRef p; mret DPS_ERR_RESOURCES
      | Some req =>
          _ ← DPS_PublicationIncRef p;
          ret ← publish_request p req bufs ttl;
          _ ← DPS_PublicationDecRef p;
          _ ← when (negb (is_OK ret)) (DPS_DestroyPublishRequest (Some req));
          mret ret
      end
  end.

Definition DPS_Publish (pub : option ptr) (payload : option (list Z)) (ttl : Z) (cb : Z) : M DPS_Status :=
  match payload with
  | Some (_ :: _ as data) =>
      ok ← alloc_ok;
      if negb ok then mret DPS_ERR_RESOURCES else DPS_PublishBufs pub (Some [data]) ttl (Some cb)
  | _ => DPS_PublishBufs pub None ttl (Some cb)
  end.
End PubMsg.
