(* ===== verification/PubRecv.v ===== *)
(** * Publications: receiving ([src/pub.c])

    [DPS_DecodePublication] checks a message against the retained publications and the
    history, gives it to the handlers of the subscriptions that match, and queues it
    to be forwarded.  A handler is an event: what it calls is another operation. *)
From S2P Require Import Prelude Status Buffer Float Cbor BitVec Topics Uuid Addr History Node Remote Sub SubMsg Pub.
From S2P Require Import Tls Keys Cose PubMsg SubDecode.
From stdpp Require Import gmap.
#[local] Open Scope Z_scope.

(** [DPS_TxBufferToRx] of a buffer that holds these bytes. *)
Definition rx_of (bytes : list Z) : DPS_RxBuffer := mkRx bytes (length bytes) 0.

(** The seconds that a request has left. *)
Definition REQ_TTL (expires now : Z) : Z := s16 (u64 (expires + 999 - now) / 1000).

Section PubRecv.
Context `{Env : Environment} `{Crypto : Cose}.

(** ** The history *)

Definition update_history (pubId : DPS_UUID) (sequenceNum : Z) (ackRequested : bool) (ttl hopCount : Z)
    (addr : DPS_NodeAddress) : M DPS_Status :=
  now ← gets n_now;
  h ← gets n_history;
  ok1 ← alloc_ok;
  ok2 ← alloc_ok;
  '(ret, h) ← lift (DPS_UpdatePubHistory now (if ok1 : bool then Some (fresh (dom (cells h))) else None) ok2 h
                     pubId sequenceNum (if ackRequested then 1 else 0) ttl hopCount addr);
  _ ← modify (fun n => n <| n_history := h |>);
  mret ret.

Definition UpdatePubHistory (req : ptr) : M DPS_Status :=
  q ← load n_reqs req;
  pb ← load n_pubs (q_pub q);
  now ← gets n_now;
  update_history (p_pubId pb) (q_sequenceNum q) (p_ackRequested pb) (REQ_TTL (q_expires q) now) (q_hopCount q)
    (p_senderAddr pb).

(** ** The payload *)

Definition EncryptedKeys : list Z := [DPS_CBOR_KEY_TOPICS; DPS_CBOR_KEY_DATA].

(** The recipient of the acknowledgement of a message that was decrypted. *)
Definition ack_recipient (pub : ptr) (recipient : Recipient) (sender : COSE_Entity) : M DPS_Status :=
  alg ← lift (rc_alg recipient);
  let add kid := ok ← AddRecipient pub alg kid; mret (if ok : bool then DPS_OK else DPS_ERR_RESOURCES) in
  if alg =? COSE_ALG_RESERVED then mret DPS_OK
  else if (alg =? COSE_ALG_DIRECT) || (alg =? COSE_ALG_A256KW) then kid ← lift (rc_kid recipient); add kid
  else if alg =? COSE_ALG_ECDH_ES_A256KW then add (e_kid sender)
  else mret DPS_ERR_MISSING.

(** What is in the message, decrypted or verified; [None] when it cannot be had. *)
Definition open_payload (pub : ptr) (aad cipherText : list Z) : M (option (list Z)) :=
  '(ret, type, tag) ← lift (CBOR_Peek (rx_of cipherText) (Some 0) (Some 0));
  if negb (is_OK ret) then mret None
  else if negb (default 0 type =? CBOR_TAG) then mret (Some cipherText)
  else if (default 0 tag =? COSE_TAG_ENCRYPT0) || (default 0 tag =? COSE_TAG_ENCRYPT) then
    '(ret, recipient, sender, plainText) ← COSE_Decrypt blank_recipient aad cipherText;
    _ ← update n_pubs pub (fun p => p <| p_sender := sender |>);
    if negb (is_OK ret) then mret None else
    pb ← load n_pubs pub;
    ret ← (if p_ackRequested pb then ack_recipient pub recipient sender else mret DPS_OK);
    mret (if is_OK ret then Some plainText else None)
  else if default 0 tag =? COSE_TAG_SIGN1 then
    '(ret, sender, content) ← COSE_Verify aad cipherText;
    _ ← update n_pubs pub (fun p => p <| p_sender := sender |>);
    mret (if is_OK ret then Some content else None)
  else mret None.

(** [strndup] of each topic; the rest of the array stays null. *)
Fixpoint decode_topics (n : nat) (b : DPS_RxBuffer) : M (DPS_Status * list (list Z) * DPS_RxBuffer) :=
  match n with
  | O => mret (DPS_OK, [], b)
  | S n =>
      '(ret, str, sz, b) ← lift (CBOR_DecodeString b None 0);
      if negb (is_OK ret) then mret (ret, [], b) else
      bytes ← lift (decoded_bytes b str sz);
      ok ← alloc_ok;
      _ ← assert ok;
      '(ret, l, b) ← decode_topics n b;
      mret (ret, until_nul bytes :: l, b)
  end.

(** The [switch (key)] of [DecryptAndParsePub]. *)
Definition decode_payload (pub : ptr) (key : Z) (data : option (list Z)) (b : DPS_RxBuffer)
  : M (DPS_Status * option (list Z) * DPS_RxBuffer) :=
  if key =? DPS_CBOR_KEY_TOPICS then
    '(ret, numTopics, b) ← lift (CBOR_DecodeArray b 0);
    if negb (is_OK ret) then mret (ret, data, b)
    else if numTopics =? 0 then mret (DPS_ERR_INVALID, data, b) else
    ok ← alloc_ok;
    if negb ok then mret (DPS_ERR_RESOURCES, data, b) else
    '(ret, l, b) ← decode_topics (Z.to_nat numTopics) b;
    _ ← update n_pubs pub (fun p => p <| p_topics := Some l |>);
    mret (ret, data, b)
  else if key =? DPS_CBOR_KEY_DATA then
    '(ret, str, sz, b) ← lift (CBOR_DecodeBytes b);
    if negb (is_OK ret) then mret (ret, data, b) else
    bytes ← lift (decoded_bytes b str sz);
    mret (ret, (fun _ => bytes) <$> str, b)
  else mret (DPS_OK, data, b).

(** [key] has no value at first, and is used if [DPS_ParseMapNext] gives none: [-1] is
    no key of a message. *)
Definition next_key (m : CBOR_MapState) : M (DPS_Status * CBOR_MapState * Z) :=
  '(ret, m, key) ← lift (DPS_ParseMapNext m (-1));
  _ ← when (is_OK ret) (assert (negb (key =? -1)));
  mret (ret, m, key).

(** The loop over the keys of a map: every round reads at least a byte. *)
Fixpoint parse_keys {A} (decode : Z -> A -> DPS_RxBuffer -> M (DPS_Status * A * DPS_RxBuffer)) (fuel : nat)
    (m : CBOR_MapState) (x : A) : M (DPS_Status * A * DPS_RxBuffer) :=
  '(done, m) ← lift (DPS_ParseMapDone m);
  if done : bool then mret (DPS_OK, x, ms_buffer m) else
  match fuel with
  | O => undefined
  | S fuel =>
      '(ret, m, key) ← next_key m;
      if negb (is_OK ret) then mret (ret, x, ms_buffer m) else
      '(ret, x, b) ← decode key x (ms_buffer m);
      if negb (is_OK ret) then mret (ret, x, b) else parse_keys decode fuel (ms_set_buffer m b) x
  end.

Definition parse_map {A} (decode : Z -> A -> DPS_RxBuffer -> M (DPS_Status * A * DPS_RxBuffer))
    (keys optKeys : list Z) (b : DPS_RxBuffer) (x : A) : M (DPS_Status * A * DPS_RxBuffer) :=
  '(ret, m) ← lift (DPS_ParseMapInit b keys optKeys 0);
  if negb (is_OK ret) then mret (ret, x, b) else parse_keys decode (skip_fuel b) m x.

(** The status and the payload. *)
Definition DecryptAndParsePub (req : ptr) : M (DPS_Status * option (list Z)) :=
  q ← load n_reqs req;
  aad ← lift (q_bufs q !! 0%nat);
  cipherText ← lift (q_bufs q !! 1%nat);
  plain ← open_payload (q_pub q) aad cipherText;
  match plain with
  | None => mret (DPS_ERR_SECURITY, None)
  | Some bytes =>
      '(ret, data, _) ← parse_map (decode_payload (q_pub q)) EncryptedKeys [] (rx_of bytes) None;
      mret (ret, data)
  end.

(** ** The handlers *)

(** [sub->handler]: a local publication is given as a copy. *)
Definition call_handler (req sub : ptr) (data : option (list Z)) (copy : option ptr) : M (option ptr) :=
  q ← load n_reqs req;
  pb ← load n_pubs (q_pub q);
  s ← load n_subs sub;
  _ ← UpdatePubHistory req;
  handler ← lift (s_handler s);
  if negb (has_flag (p_flags pb) PUB_FLAG_LOCAL) then
    _ ← emit (EvPublication handler sub pb data); mret copy
  else
    copy ← (match copy with Some c => mret (Some c) | None => DPS_CopyPublication (q_pub q) end);
    _ ← (match copy with
         | Some c =>
             _ ← update n_pubs c (fun c => c <| p_sequenceNum := q_sequenceNum q |>);
             cp ← load n_pubs c;
             emit (EvPublication handler sub cp data)
         | None => mret ()
         end);
    mret copy.

(** Whether a subscription is a candidate. *)
Definition candidate (pb : DPS_Publication) (s : DPS_Subscription) : option bool :=
  if has_flag (p_flags pb) PUB_FLAG_EXPIRED && negb (has_flag (s_flags s) SUB_FLAG_EXPIRED) then Some false
  else DPS_BitVectorIncludes (p_bf pb) (s_bf s).

(** [data] is [None] until the publication was decrypted. *)
Fixpoint call_handlers (req : ptr) (l : list ptr) (data : option (option (list Z))) (copy : option ptr)
  : M (DPS_Status * option ptr) :=
  match l with
  | [] => mret (DPS_OK, copy)
  | sub :: l =>
      _ ← DPS_SubscriptionIncRef sub;
      q ← load n_reqs req;
      pb ← load n_pubs (q_pub q);
      s ← load n_subs sub;
      cand ← lift (candidate pb s);
      if negb cand then _ ← DPS_SubscriptionDecRef sub; call_handlers req l data copy else
      '(ret, payload) ← (match data with Some d => mret (DPS_OK, d) | None => DecryptAndParsePub req end);
      if negb (is_OK ret) then
        _ ← DPS_SubscriptionDecRef sub;
        mret (if bool_decide (ret = DPS_ERR_SECURITY) then DPS_OK else ret, copy)
      else
      pb ← load n_pubs (q_pub q);
      separators ← gets n_separators;
      '(ret, m) ← lift (DPS_MatchTopicList (map Some <$> p_topics pb) (Some (map Some (s_topics s)))
                         (Some separators) false (Some false));
      copy ← (if is_OK ret && default false m then call_handler req sub payload copy else mret copy);
      _ ← DPS_SubscriptionDecRef sub;
      call_handlers req l (Some payload) copy
  end.

Definition DPS_CallPubHandlers (req : ptr) : M DPS_Status :=
  q ← load n_reqs req;
  pb ← load n_pubs (q_pub q);
  match p_bf pb with
  | None => mret DPS_ERR_ARGS
  | Some _ =>
      l ← gets n_subscriptions;
      '(ret, copy) ← call_handlers req l None None;
      _ ← DPS_DestroyPublication copy None;
      _ ← FreeTopics (q_pub q);
      mret ret
  end.

(** ** Decoding *)

(** The local variables of [DPS_DecodePublication]: without a value at first, but for
    the port and the path. *)
Record PubFields := mkPF {
  pf_keysMask : Z;
  pf_port : Z;
  pf_ttl : option Z;
  pf_path : option nat;
  pf_pathLen : Z;
  pf_hopCount : option Z;
  pf_pubId : option DPS_UUID;
  pf_sequenceNum : option Z;
  pf_ackRequested : option bool;
  pf_bfBuf : option (list Z)
}.

#[export] Instance PubFields_settable : Settable PubFields := fun f =>
  mkPF (pf_keysMask f) (pf_port f) (pf_ttl f) (pf_path f) (pf_pathLen f) (pf_hopCount f) (pf_pubId f)
    (pf_sequenceNum f) (pf_ackRequested f) (pf_bfBuf f).
#[export] Instance set_pf_keysMask : Setter pf_keysMask.
Proof. derive_setter. Defined.
#[export] Instance set_pf_port : Setter pf_port.
Proof. derive_setter. Defined.
#[export] Instance set_pf_ttl : Setter pf_ttl.
Proof. derive_setter. Defined.
#[export] Instance set_pf_path : Setter pf_path.
Proof. derive_setter. Defined.
#[export] Instance set_pf_pathLen : Setter pf_pathLen.
Proof. derive_setter. Defined.
#[export] Instance set_pf_hopCount : Setter pf_hopCount.
Proof. derive_setter. Defined.
#[export] Instance set_pf_pubId : Setter pf_pubId.
Proof. derive_setter. Defined.
#[export] Instance set_pf_sequenceNum : Setter pf_sequenceNum.
Proof. derive_setter. Defined.
#[export] Instance set_pf_ackRequested : Setter pf_ackRequested.
Proof. derive_setter. Defined.
#[export] Instance set_pf_bfBuf : Setter pf_bfBuf.
Proof. derive_setter. Defined.

Definition no_pub_fields : PubFields := mkPF 0 0 None None 0 None None None None None.

Definition UnprotectedKeys : list Z := [DPS_CBOR_KEY_TTL; DPS_CBOR_KEY_HOP_COUNT].
Definition UnprotectedOptKeys : list Z := [DPS_CBOR_KEY_PORT; DPS_CBOR_KEY_PATH].
Definition ProtectedKeys : list Z :=
  [DPS_CBOR_KEY_TTL; DPS_CBOR_KEY_PUB_ID; DPS_CBOR_KEY_SEQ_NUM; DPS_CBOR_KEY_ACK_REQ; DPS_CBOR_KEY_BLOOM_FILTER].

Definition pf_mask (key : Z) (f : PubFields) : PubFields := f <| pf_keysMask := u16 (pf_keysMask f .| 1 ≪ key) |>.

Definition decode_unprotected (key : Z) (f : PubFields) (b : DPS_RxBuffer) : M (DPS_Status * PubFields * DPS_RxBuffer) :=
  if key =? DPS_CBOR_KEY_PORT then
    '(ret, port, b) ← lift (CBOR_DecodeUint16 b (pf_port f)); mret (ret, (pf_mask key f) <| pf_port := port |>, b)
  else if key =? DPS_CBOR_KEY_TTL then
    '(ret, ttl, b) ← lift (CBOR_DecodeInt16 b 0); mret (ret, if is_OK ret then f <| pf_ttl := Some ttl |> else f, b)
  else if key =? DPS_CBOR_KEY_PATH then
    '(ret, path, pathLen, b) ← lift (CBOR_DecodeString b (pf_path f) (pf_pathLen f));
    let ret := if is_OK ret && (DPS_NODE_ADDRESS_PATH_MAX <=? pathLen) then DPS_ERR_INVALID else ret in
    mret (ret, ((pf_mask key f) <| pf_path := path |>) <| pf_pathLen := pathLen |>, b)
  else if key =? DPS_CBOR_KEY_HOP_COUNT then
    '(ret, n, b) ← lift (CBOR_DecodeUint16 b 0); mret (ret, if is_OK ret then f <| pf_hopCount := Some n |> else f, b)
  else mret (DPS_OK, f, b).

(** The time to live of the message against the one that the publisher protected. *)
Definition ttl_consistent (ttl baseTTL : Z) : bool := negb (((baseTTL <? 0) && (0 <=? ttl)) || (baseTTL <? ttl)).

Definition decode_protected (key : Z) (f : PubFields) (b : DPS_RxBuffer) : M (DPS_Status * PubFields * DPS_RxBuffer) :=
  if key =? DPS_CBOR_KEY_TTL then
    '(ret, baseTTL, b) ← lift (CBOR_DecodeInt16 b 0);
    if negb (is_OK ret) then mret (ret, f, b) else
    ttl ← lift (pf_ttl f);
    mret (if ttl_consistent ttl baseTTL then DPS_OK else DPS_ERR_INVALID, f, b)
  else if key =? DPS_CBOR_KEY_PUB_ID then
    '(ret, val, b) ← lift (CBOR_DecodeUUID b []);
    mret (ret, if is_OK ret then f <| pf_pubId := Some (uuid_of_val val) |> else f, b)
  else if key =? DPS_CBOR_KEY_SEQ_NUM then
    '(ret, n, b) ← lift (CBOR_DecodeUint32 b 0);
    mret (if is_OK ret && (n =? 0) then DPS_ERR_INVALID else ret,
          if is_OK ret then f <| pf_sequenceNum := Some n |> else f, b)
  else if key =? DPS_CBOR_KEY_ACK_REQ then
    '(ret, n, b) ← lift (CBOR_DecodeBoolean b 0);
    mret (ret, if is_OK ret then f <| pf_ackRequested := Some (negb (n =? 0)) |> else f, b)
  else if key =? DPS_CBOR_KEY_BLOOM_FILTER then
    let start := rx_pos b in
    '(ret, _, _, b) ← lift (CBOR_Skip (skip_fuel b) b None (Some 0));
    if negb (is_OK ret) then mret (ret, f, b) else
    bytes ← lift (mem_read (rx_mem b) start (rx_pos b - start));
    mret (ret, f <| pf_bfBuf := Some bytes |>, b)
  else mret (DPS_OK, f, b).

(** The address that the sender listens on. *)
Definition sender_address (f : PubFields) (e : DPS_NetEndpoint) (b : DPS_RxBuffer) : M DPS_NetEndpoint :=
  if has_flag (pf_keysMask f) (1 ≪ DPS_CBOR_KEY_PORT) then lift (DPS_EndpointSetPort e (pf_port f))
  else bytes ← lift (decoded_bytes b (pf_path f) (pf_pathLen f)); lift (DPS_EndpointSetPath e bytes).

(** Both maps: the fields, the protected map as it is in the message, and what follows. *)
Definition parse_publication (b : DPS_RxBuffer) : M (DPS_Status * PubFields * list Z * DPS_RxBuffer) :=
  '(ret, f, b) ← parse_map decode_unprotected UnprotectedKeys UnprotectedOptKeys b no_pub_fields;
  if negb (is_OK ret) then mret (ret, f, [], b)
  else if pf_keysMask f .& (1 ≪ DPS_CBOR_KEY_PORT .| 1 ≪ DPS_CBOR_KEY_PATH) =? 0 then mret (DPS_ERR_INVALID, f, [], b)
  else
    let start := rx_pos b in
    '(ret, f, b) ← parse_map decode_protected ProtectedKeys [] b f;
    if negb (is_OK ret) then mret (ret, f, [], b) else
    bytes ← lift (mem_read (rx_mem b) start (rx_pos b - start));
    mret (DPS_OK, f, bytes, b).

(** A new publication in the list, or one without a filter that is not. *)
Definition new_publication (pubId : DPS_UUID) : M (DPS_Status * option ptr) :=
  ok ← alloc_ok;
  if negb ok then mret (DPS_ERR_RESOURCES, None) else
  pub ← new n_pubs zero_pub;
  _ ← DPS_PublicationIncRef pub;
  bf ← BitVectorAlloc;
  match bf with
  | None => mret (DPS_ERR_RESOURCES, Some pub)
  | Some _ =>
      _ ← update n_pubs pub (fun p => p <| p_bf := bf |> <| p_pubId := pubId |>);
      _ ← modify (fun n => n <| n_publications := pub :: n_publications n |>);
      mret (DPS_OK, Some pub)
  end.

(** The publication that a message is for, with a reference to it; the status tells
    whether the message is dropped. *)
Definition find_publication (pubId : DPS_UUID) (sequenceNum ttl : Z) : M (DPS_Status * option ptr) :=
  retained ← LookupRetained pubId;
  match retained with
  | Some pub =>
      p ← load n_pubs pub;
      if sequenceNum <=? p_sequenceNum p then mret (DPS_ERR_STALE, None)
      else _ ← DPS_PublicationIncRef pub; mret (DPS_OK, Some pub)
  | None =>
      if ttl <? 0 then mret (DPS_ERR_STALE, None) else
      h ← gets n_history;
      stale ← lift (DPS_PublicationIsStale h pubId sequenceNum);
      if stale : bool then mret (DPS_ERR_STALE, None) else
      pub ← LookupPublication pubId;
      match pub with
      | Some p => _ ← DPS_PublicationIncRef p; mret (DPS_OK, Some p)
      | None => new_publication pubId
      end
  end.

(** What the time to live of a message does to the publication: the status, and the
    time to live that is kept. *)
Definition receive_ttl (pub : ptr) (ttl : Z) : M (DPS_Status * Z) :=
  p ← load n_pubs pub;
  if (ttl <? 0) && negb (has_flag (p_flags p) PUB_FLAG_RETAINED) then mret (DPS_ERR_INVALID, ttl) else
  let flags := if ttl <? 0 then p_flags p .| PUB_FLAG_EXPIRED
               else if ttl =? 0 then Z.ldiff (p_flags p) PUB_FLAG_RETAINED
               else p_flags p .| PUB_FLAG_RETAINED in
  _ ← update n_pubs pub (fun p => p <| p_flags := flags |> <| p_ttl := ttl |>);
  mret (DPS_OK, if has_flag flags PUB_FLAG_EXPIRED then 0 else ttl).

(** From the request on: the status and the time to live. *)
Definition handle_publication (pub req : ptr) (ttl : Z) (bfBuf : list Z) : M (DPS_Status * Z) :=
  '(ret, ttl) ← receive_ttl pub ttl;
  if negb (is_OK ret) then mret (ret, ttl) else
  p ← load n_pubs pub;
  bf ← lift (p_bf p);
  '(ret, bf, _) ← lift (DPS_BitVectorDeserialize bf (DPS_RxBufferInit bfBuf (length bfBuf)).2);
  _ ← update n_pubs pub (fun p => p <| p_bf := Some bf |>);
  if negb (is_OK ret) then mret (ret, ttl) else
  ret ← DPS_CallPubHandlers req;
  if negb (is_OK ret) then mret (ret, ttl) else
  now ← gets n_now;
  _ ← update n_reqs req (fun q => q <| q_ttl := ttl |> <| q_expires := u64 (now + DPS_SECS_TO_MS ttl) |>);
  _ ← UpdatePubHistory req;
  _ ← update n_pubs pub (fun p => p <| p_sendQueue := p_sendQueue p ++ [req] |>);
  _ ← update n_reqs req (fun q => q <| q_refCount := q_refCount q + 1 |>);
  _ ← emit (EvAsyncSend pubsAsync);
  mret (DPS_OK, ttl).

(** The request for a message, with the two buffers that alias it. *)
Definition receive_request (pub : ptr) (sequenceNum hopCount : Z) (protected rest : list Z) : M (option ptr) :=
  req ← DPS_CreatePublishRequest pub 0 None;
  _ ← (match req with
       | Some req =>
           _ ← update n_reqs req (fun q => q <| q_sequenceNum := sequenceNum |> <| q_hopCount := u16 (hopCount + 1) |>
                 <| q_rxBuf := true |> <| q_bufs := [protected; rest; []; []] |>);
           emit EvRxIncRef
       | None => mret ()
       end);
  mret req.

(** The label [Exit], when the message was dropped: the publication that was found,
    which may have been there before, is given up, but not the reference to it. *)
Definition drop_publication (ret : DPS_Status) (pub req : option ptr) (pubId : DPS_UUID) (sequenceNum : Z)
    (ackRequested : bool) (ttl hopCount : Z) (addr : DPS_NodeAddress) : M DPS_Status :=
  _ ← (match req with
       | Some req =>
           _ ← assert (bool_decide (is_Some pub));
           _ ← update n_reqs req (fun q => q <| q_status := ret |>);
           DPS_DestroyPublishRequest (Some req)
       | None => mret ()
       end);
  _ ← (match pub with Some p => _ ← FreePublication p; mret () | None => mret () end);
  _ ← update_history pubId sequenceNum ackRequested (if ttl <? 0 then 0 else ttl) (u16 (hopCount + 1)) addr;
  mret ret.

Definition DPS_DecodePublication (e : DPS_NetEndpoint) (b : DPS_RxBuffer) (multicast : bool) : M DPS_Status :=
  '(ret, f, protected, b) ← parse_publication b;
  if negb (is_OK ret) then mret ret else
  e ← sender_address f e b;
  pubId ← lift (pf_pubId f);
  sequenceNum ← lift (pf_sequenceNum f);
  ackRequested ← lift (pf_ackRequested f);
  ttl ← lift (pf_ttl f);
  hopCount ← lift (pf_hopCount f);
  let drop ret pub req ttl := drop_publication ret pub req pubId sequenceNum ackRequested ttl hopCount (ep_addr e) in
  '(ret, pub) ← find_publication pubId sequenceNum ttl;
  match pub with
  | None => drop ret None None ttl
  | Some p =>
      if negb (is_OK ret) then drop ret pub None ttl else
      _ ← update n_pubs p (fun pb => pb <| p_sequenceNum := sequenceNum |> <| p_ackRequested := ackRequested |>
            <| p_senderAddr := ep_addr e |> <| p_topics := None |>);
      req ← receive_request p sequenceNum hopCount protected (rx_rest b);
      match req with
      | None => drop DPS_ERR_RESOURCES pub None ttl
      | Some req =>
          bfBuf ← lift (pf_bfBuf f);
          '(ret, ttl) ← handle_publication p req ttl bfBuf;
          if is_OK ret then _ ← DPS_PublicationDecRef p; mret DPS_OK
          else drop ret pub (Some req) ttl
      end
  end.
End PubRecv.
