(* ===== verification/PubSend.v ===== *)
(** * Publications: sending ([src/pub.c], [src/dps.c])

    [DPS_SendPublication] puts the header of a message in front of the buffers of a
    request; [SendPubs] takes the requests of every publication to the neighbours
    whose interests match, and keeps those that are retained. *)
From S2P Require Import Prelude Status Buffer Float Cbor BitVec Topics Uuid Addr History Node Remote Sub SubMsg Pub.
From S2P Require Import SubDecode Tls Keys Cose PubMsg PubRecv.
From stdpp Require Import gmap.
#[local] Open Scope Z_scope.

(** The [remote] argument of [DPS_SendPublication]: [DPS_LoopbackNode], a remote, or null. *)
Inductive Destination := Loopback | Unicast (remote : ptr) | Multicast.

Section PubSend.
Context `{Env : Environment} `{Crypto : Cose}.
(** The handler of acknowledgements. *)
Context (DPS_DecodeAcknowledgement : DPS_NetEndpoint -> DPS_RxBuffer -> M DPS_Status).

(** ** To this node *)

(** The buffer is freed at the end, unless a request keeps it. *)
Definition DPS_LoopbackSend (bufs : list (list Z)) : M DPS_Status :=
  addr ← gets n_addr;
  let '(ret, addr) := env_loopback addr in
  if negb (is_OK ret) then mret ret else
  ok ← alloc_ok;
  if negb ok then mret DPS_ERR_RESOURCES else
  ret ← DecodeRequest DPS_DecodePublication DPS_DecodeAcknowledgement (mkEp addr None) (rx_of (concat bufs)) false;
  _ ← emit EvRxDecRef;
  mret ret.

(** ** The header *)

Definition header_len (listen : Z) : Z :=
  CBOR_SIZEOF_LEN 5 + CBOR_SIZEOF 1 + CBOR_SIZEOF 1 + (CBOR_SIZEOF_LEN 3 + 3 * CBOR_SIZEOF 1)
  + CBOR_SIZEOF 2 + CBOR_SIZEOF 2 + listen.

Definition encode_header (addr : DPS_NodeAddress) (ttl hopCount : Z) (p : DPS_Status * DPS_TxBuffer)
  : option (DPS_Status * DPS_TxBuffer) :=
  p ← on_ok (fun b => CBOR_EncodeArray b 5) p;
  p ← on_ok (fun b => CBOR_EncodeUint b DPS_MSG_VERSION) p;
  p ← on_ok (fun b => CBOR_EncodeUint b DPS_MSG_TYPE_PUB) p;
  p ← on_ok (fun b => CBOR_EncodeMap b 3) p;
  p ← encode_port addr p;
  p ← encode_key DPS_CBOR_KEY_TTL p;
  p ← on_ok (fun b => CBOR_EncodeInt b ttl) p;
  p ← encode_path addr p;
  encode_uint DPS_CBOR_KEY_HOP_COUNT hopCount p.

(** The time to live to send, unless the publication has expired. *)
Definition send_ttl (pb : DPS_Publication) (q : DPS_PublishRequest) (now : Z) : option Z :=
  if has_flag (p_flags pb) PUB_FLAG_RETAINED then
    if has_flag (p_flags pb) PUB_FLAG_EXPIRED then Some (-1)
    else let ttl := REQ_TTL (q_expires q) now in if ttl <=? 0 then None else Some ttl
  else Some 0.

(** [++req->refCount;] *)
Definition add_request_ref (req : ptr) : M unit :=
  update n_reqs req (fun q => q <| q_refCount := q_refCount q + 1 |>).

Definition DPS_MulticastSend (bytes : list Z) : M DPS_Status := fun n =>
  let ret := env_multicast (n_sends n) in
  Some (ret, n <| n_sends := S (n_sends n) |> <| n_events := EvMulticastSend bytes ret :: n_events n |>).

(** The buffers to their destination. *)
Definition transmit (req pub : ptr) (dest : Destination) (bufs : list (list Z)) : M DPS_Status :=
  _ ← add_request_ref req;
  match dest with
  | Loopback => ret ← DPS_LoopbackSend bufs; _ ← SendComplete req None ret; mret ret
  | Unicast remote =>
      r ← load n_remotes remote;
      ret ← DPS_NetSend (ep r) (concat bufs);
      _ ← (if is_OK ret then DPS_PublicationIncRef pub else SendComplete req (Some (ep_addr (ep r))) ret);
      mret ret
  | Multicast =>
      ret ← DPS_MulticastSend (concat bufs);
      if is_OK ret then _ ← DPS_PublicationIncRef pub; mret ret
      else
        let ret := if bool_decide (ret = DPS_ERR_NO_ROUTE) then DPS_OK else ret in
        _ ← SendComplete req None ret; mret ret
  end.

Definition DPS_SendPublication (req pub : ptr) (dest : Destination) : M DPS_Status :=
  netCtx ← gets n_netCtx;
  if negb netCtx then mret DPS_ERR_NETWORK else
  pb ← load n_pubs pub;
  q ← load n_reqs req;
  now ← gets n_now;
  match send_ttl pb q now with
  | None => _ ← add_request_ref req; _ ← SendComplete req None DPS_OK; mret DPS_OK
  | Some ttl =>
      addr ← gets n_addr;
      match listen_len addr with
      | None => mret DPS_ERR_INVALID
      | Some listen =>
          '(ret, b) ← tx_new (header_len listen);
          '(ret, b) ← lift (encode_header addr ttl (q_hopCount q) (ret, b));
          if negb (is_OK ret) then mret ret
          else transmit req pub dest (tx_written b :: q_bufs q)
      end
  end.

(** ** The queues of the publications *)

(** Whether some subscription of this node is a candidate. *)
Fixpoint any_candidate (bf : option DPS_BitVector) (l : list ptr) : M bool :=
  match l with
  | [] => mret false
  | sub :: l =>
      s ← load n_subs sub;
      included ← lift (DPS_BitVectorIncludes bf (s_bf s));
      if included : bool then mret true else any_candidate bf l
  end.

(** A local publication goes to this node and to the multicast address; the results
    are only printed. *)
Definition send_local (req pub : ptr) : M unit :=
  pb ← load n_pubs pub;
  subs ← gets n_subscriptions;
  candidate ← any_candidate (p_bf pb) subs;
  _ ← when candidate (_ ← DPS_SendPublication req pub Loopback; mret ());
  sender ← gets n_mcastSender;
  pb ← load n_pubs pub;
  when (sender && has_flag (p_flags pb) PUB_FLAG_MULTICAST) (_ ← DPS_SendPublication req pub Multicast; mret ()).

(** "This is the pub/sub matching code". *)
Definition matches_remote (bf interests needs : option DPS_BitVector) : M bool :=
  scratch ← gets n_scratch_interests;
  '(_, scratch) ← lift (DPS_BitVectorIntersection (Some scratch) bf interests);
  hash ← gets n_scratch_needs;
  '(_, hash, scratch) ← lift (DPS_BitVectorFuzzyHash (Some hash) scratch);
  _ ← modify (fun n => n <| n_scratch_needs := default (n_scratch_needs n) hash |>
                         <| n_scratch_interests := default (n_scratch_interests n) scratch |>);
  lift (DPS_BitVectorIncludes hash needs).

(** Whether a publication was received from a remote. *)
Definition came_from (pb : DPS_Publication) (q : DPS_PublishRequest) (r : RemoteNode) : M bool :=
  if has_flag (p_flags pb) PUB_FLAG_LOCAL then mret false
  else h ← gets n_history;
       lift (DPS_PublicationReceivedFrom h (p_pubId pb) (q_sequenceNum q) (p_senderAddr pb) (ep_addr (ep r))).

(** One round of the loop over the remotes. *)
Definition send_remote (req pub remote : ptr) : M unit :=
  r ← load n_remotes remote;
  if negb (bool_decide (r_state r = REMOTE_ACTIVE)) || negb (bool_decide (is_Some (in_interests (inbound r))))
  then mret () else
  pb ← load n_pubs pub;
  q ← load n_reqs req;
  received ← came_from pb q r;
  if received : bool then mret () else
  m ← matches_remote (p_bf pb) (in_interests (inbound r)) (in_needs (inbound r));
  if negb m then mret () else
  ret ← DPS_SendPublication req pub (Unicast remote);
  when (negb (is_OK ret)) (DPS_DeleteRemoteNode remote).

(** The head of the retained requests takes the place of [expired], which is done with. *)
Definition pop_retained (pub : ptr) (expired : option ptr) : M (option ptr) :=
  pb ← load n_pubs pub;
  match p_retainedQueue pb with
  | [] => mret expired
  | req :: l =>
      _ ← PublishCompletion expired;
      _ ← update n_pubs pub (fun p => p <| p_retainedQueue := l |>);
      mret (Some req)
  end.

(** One request: [expired] and [reschedule] after it. *)
Definition send_request (now : Z) (pub req : ptr) (expired : option ptr) (reschedule : Z) : M (option ptr * Z) :=
  _ ← drop_request_ref req;
  _ ← update n_reqs req (fun q =>
        if q_expires q =? 0 then q <| q_expires := u64 (now + DPS_SECS_TO_MS (q_ttl q)) |> else q);
  pb ← load n_pubs pub;
  _ ← when (has_flag (p_flags pb) PUB_FLAG_LOCAL) (send_local req pub);
  remotes ← gets n_remoteNodes;
  _ ← for_each remotes (send_remote req pub);
  expired ← pop_retained pub expired;
  q ← load n_reqs req;
  let keep := now <? q_expires q in
  _ ← when keep
        (_ ← update n_pubs pub (fun p => p <| p_retainedQueue := p_retainedQueue p ++ [req] |>);
         add_request_ref req);
  _ ← DPS_PublishCompletion req;
  mret (expired, if keep then Z.min (q_expires q) reschedule else reschedule).

(** [while (!DPS_QueueEmpty(&pub->sendQueue))].  Nothing is added to the queue of
    [pub] meanwhile: the fuel is its length. *)
Fixpoint send_requests (fuel : nat) (now : Z) (pub : ptr) (expired : option ptr) (reschedule : Z)
  : M (option ptr * Z) :=
  pb ← load n_pubs pub;
  match p_sendQueue pb with
  | [] => mret (expired, reschedule)
  | req :: l =>
      match fuel with
      | O => undefined
      | S fuel =>
          _ ← update n_pubs pub (fun p => p <| p_sendQueue := l |>);
          '(expired, reschedule) ← send_request now pub req expired reschedule;
          send_requests fuel now pub expired reschedule
      end
  end.

(** The retained request that has expired. *)
Definition pop_expired (now : Z) (pub : ptr) (expired : option ptr) : M (option ptr) :=
  pb ← load n_pubs pub;
  match p_retainedQueue pb with
  | [] => mret expired
  | req :: _ => q ← load n_reqs req; if q_expires q <=? now then pop_retained pub expired else mret expired
  end.

(** A publication without requests expires. *)
Definition expire_publication (pub : ptr) (expired : option ptr) : M unit :=
  pb ← load n_pubs pub;
  match p_retainedQueue pb with
  | _ :: _ => mret ()
  | [] =>
      _ ← (match expired with
           | Some req =>
               if has_flag (p_flags pb) PUB_FLAG_EXPIRED then mret () else
               _ ← update n_pubs pub (fun p => p <| p_flags := p_flags p .| PUB_FLAG_EXPIRED |> <| p_ttl := -1 |>);
               _ ← update n_reqs req (fun q => q <| q_ttl := -1 |>);
               _ ← DPS_CallPubHandlers req; mret ()
           | None => mret ()
           end);
      DPS_ExpirePub pub
  end.

Definition send_publication (now : Z) (pub : ptr) (reschedule : Z) : M Z :=
  _ ← DPS_PublicationIncRef pub;
  pb ← load n_pubs pub;
  '(expired, reschedule) ← send_requests (length (p_sendQueue pb)) now pub None reschedule;
  expired ← pop_expired now pub expired;
  _ ← expire_publication pub expired;
  _ ← PublishCompletion expired;
  _ ← DPS_PublicationDecRef pub;
  mret reschedule.

(** [pub->next] is read before the round.  A round frees no other publication of the
    list, and those it adds are in front. *)
Fixpoint send_publications (now : Z) (l : list ptr) (reschedule : Z) : M Z :=
  match l with
  | [] => mret reschedule
  | pub :: l => reschedule ← send_publication now pub reschedule; send_publications now l reschedule
  end.

Definition SendPubs : M unit :=
  now ← gets n_now;
  l ← gets n_publications;
  reschedule ← send_publications now l UINT64_MAX;
  when (reschedule <? UINT64_MAX) (emit (EvPubsTimer (if reschedule <? now then 0 else reschedule - now))).

Definition SendPubsTask : M unit := SendPubs.
Definition SendPubsTimer : M unit := SendPubs.

(** ** Multicast *)

(** [started] is whether [DPS_MulticastStartSend] gives a sender. *)
Definition DPS_PublicationSetMulticast (started : bool) (pub : option ptr) (mcastPub : bool) : M DPS_Status :=
  p ← lift pub;
  valid ← IsValidPub pub;
  pb ← load n_pubs p;
  if negb valid || negb (has_flag (p_flags pb) PUB_FLAG_LOCAL) then mret DPS_ERR_MISSING else
  sender ← gets n_mcastSender;
  if negb sender && negb started then mret DPS_ERR_NETWORK else
  _ ← modify (fun n => n <| n_mcastSender := true |>);
  _ ← update n_pubs p (fun p => p <| p_flags :=
        if mcastPub then p_flags p .| PUB_FLAG_MULTICAST else Z.ldiff (p_flags p) PUB_FLAG_MULTICAST |>);
  mret DPS_OK.
End PubSend.
