(* ===== verification/Ack.v ===== *)
(** * Acknowledgements ([src/ack.c], [src/dps.c])

    A subscriber acknowledges a publication with data of its own.  The message goes
    back along the path that the history recorded, from node to node, as it is; the
    publisher gives it to the handler of the publication. *)
From S2P Require Import Prelude Status Buffer Float Cbor BitVec Topics Uuid Addr History Node Remote Sub SubMsg Pub Link.
From S2P Require Import SubDecode Tls Keys Cose PubMsg PubRecv PubSend.
From stdpp Require Import gmap.
#[local] Open Scope Z_scope.

Definition NUM_INTERNAL_ACK_BUFS : nat := 4.

Section Ack.
Context `{Env : Environment} `{Crypto : Cose}.

(** ** Acknowledgements *)

(** The destination and the buffers are set later. *)
Definition CreateAck (pub : ptr) (numBufs : nat) (cb : AckCallback) : M (option ptr) :=
  ok ← alloc_ok;
  if negb ok then mret None else
  pb ← load n_pubs pub;
  ack ← new n_acks (mkAck pub zero_sock_addr (p_sequenceNum pb) cb DPS_OK (replicate (numBufs + NUM_INTERNAL_ACK_BUFS) []));
  _ ← DPS_PublicationIncRef pub;
  mret (Some ack).

(** The buffers of the library are freed, those of the application are not. *)
Definition DestroyAck (ack : ptr) : M unit :=
  a ← load n_acks ack;
  _ ← DPS_PublicationDecRef (a_pub a);
  free n_acks ack.

(** The buffers that belong to the application. *)
Definition app_bufs (bufs : list (list Z)) : list (list Z) :=
  take (length bufs - NUM_INTERNAL_ACK_BUFS) (drop 3 bufs).

Definition DPS_AckPublicationCompletion (ack : ptr) : M unit :=
  a ← load n_acks ack;
  _ ← (match a_completeCB a with
       | AckApp cb => emit (EvAckComplete cb (a_pub a) (app_bufs (a_bufs a)) (a_status a))
       | AckNone | AckPublicationComplete => mret ()
       end);
  DestroyAck ack.

(** [SendComplete], and [OnNetSendComplete], which takes the lock around it. *)
Definition AckSendComplete (ack : ptr) (status : DPS_Status) : M unit :=
  _ ← update n_acks ack (fun a => a <| a_status := status |>);
  a ← load n_acks ack;
  _ ← DPS_SendComplete (Some (a_destAddr a)) status;
  DPS_AckPublicationCompletion ack.
Definition OnAckNetSendComplete (ack : ptr) (status : DPS_Status) : M unit := AckSendComplete ack status.

(** [OnSendComplete], of an acknowledgement that is forwarded. *)
Definition OnAckSendComplete (addr : option DPS_NodeAddress) (status : DPS_Status) : M unit := DPS_SendComplete addr status.

(** ** Receiving *)

(** The local variables of [DPS_DecodeAcknowledgement]: without a value at first. *)
Definition AckProtectedKeys : list Z := [DPS_CBOR_KEY_PUB_ID; DPS_CBOR_KEY_ACK_SEQ_NUM].
Definition AckEncryptedKeys : list Z := [DPS_CBOR_KEY_DATA].

Definition decode_ack_protected (key : Z) (f : option DPS_UUID * option Z) (b : DPS_RxBuffer)
  : M (DPS_Status * (option DPS_UUID * option Z) * DPS_RxBuffer) :=
  if key =? DPS_CBOR_KEY_PUB_ID then
    '(ret, val, b) ← lift (CBOR_DecodeUUID b []);
    mret (ret, (if is_OK ret then Some (uuid_of_val val) else f.1, f.2), b)
  else if key =? DPS_CBOR_KEY_ACK_SEQ_NUM then
    '(ret, n, b) ← lift (CBOR_DecodeUint32 b 0);
    mret (if is_OK ret && (n =? 0) then DPS_ERR_INVALID else ret, (f.1, if is_OK ret then Some n else f.2), b)
  else mret (DPS_OK, f, b).

Definition decode_ack_encrypted (key : Z) (data : option (list Z)) (b : DPS_RxBuffer)
  : M (DPS_Status * option (list Z) * DPS_RxBuffer) :=
  if key =? DPS_CBOR_KEY_DATA then
    '(ret, str, sz, b) ← lift (CBOR_DecodeBytes b);
    if negb (is_OK ret) then mret (ret, data, b) else
    bytes ← lift (decoded_bytes b str sz);
    mret (ret, (fun _ => bytes) <$> str, b)
  else mret (DPS_OK, data, b).

(** [DPS_LookupAckHandler] *)
Fixpoint lookup_ack_handler (pubId : DPS_UUID) (sequenceNum : Z) (l : list ptr) : M (option ptr) :=
  match l with
  | [] => mret None
  | pub :: l =>
      pb ← load n_pubs pub;
      if bool_decide (is_Some (p_handler pb)) && (DPS_UUIDCompare (p_pubId pb) pubId =? 0) && (sequenceNum <=? p_sequenceNum pb)
      then mret (Some pub) else lookup_ack_handler pubId sequenceNum l
  end.
Definition DPS_LookupAckHandler (pubId : DPS_UUID) (sequenceNum : Z) : M (option ptr) :=
  l ← gets n_publications; lookup_ack_handler pubId sequenceNum l.

(** The payload, decrypted or verified, and who sent it. *)
Definition open_ack (pub : ptr) (aad cipherText : list Z) : M (DPS_Status * list Z) :=
  '(ret, type, tag) ← lift (CBOR_Peek (rx_of cipherText) (Some 0) (Some 0));
  if negb (is_OK ret) || negb (default 0 type =? CBOR_TAG) then mret (DPS_OK, cipherText)
  else if (default 0 tag =? COSE_TAG_ENCRYPT0) || (default 0 tag =? COSE_TAG_ENCRYPT) then
    '(ret, _, sender, plainText) ← COSE_Decrypt blank_recipient aad cipherText;
    _ ← update n_pubs pub (fun p => p <| p_ack_sender := sender |>);
    mret (ret, plainText)
  else if default 0 tag =? COSE_TAG_SIGN1 then
    '(ret, sender, content) ← COSE_Verify aad cipherText;
    _ ← update n_pubs pub (fun p => p <| p_ack_sender := sender |>);
    mret (ret, content)
  else mret (DPS_ERR_INVALID, []).

(** [memset(&pub->ack, 0, sizeof(pub->ack))] *)
Definition clear_ack (pub : ptr) : M unit :=
  update n_pubs pub (fun p => p <| p_ack_sequenceNum := 0 |> <| p_ack_sender := no_entity |> <| p_ack_senderAddr := zero_sock_addr |>).

(** An acknowledgement for a publication of this node. *)
Definition handle_ack (pub : ptr) (sequenceNum : Z) (e : DPS_NetEndpoint) (aad cipherText : list Z) : M DPS_Status :=
  _ ← DPS_PublicationIncRef pub;
  '(ret, bytes) ← open_ack pub aad cipherText;
  ret ← (if negb (is_OK ret) then mret ret else
    '(ret, data, _) ← parse_map decode_ack_encrypted AckEncryptedKeys [] (rx_of bytes) None;
    if negb (is_OK ret) then mret ret else
    _ ← update n_pubs pub (fun p => p <| p_ack_sequenceNum := sequenceNum |> <| p_ack_senderAddr := ep_addr e |>);
    pb ← load n_pubs pub;
    handler ← lift (p_handler pb);
    _ ← emit (EvAck handler pub pb data);
    mret ret);
  _ ← clear_ack pub;
  _ ← DPS_PublicationDecRef pub;
  mret ret.

(** The connection to an address, or the address itself. *)
Definition ack_endpoint (addr : DPS_NodeAddress) : M DPS_NetEndpoint :=
  remote ← DPS_LookupRemoteNode (Some addr);
  match remote with
  | Some p => r ← load n_remotes p; mret (ep r)
  | None => mret (mkEp addr None)
  end.

(** An acknowledgement for another node. *)
Definition forward_ack (pubId : DPS_UUID) (sequenceNum : Z) (e : DPS_NetEndpoint) (message : list Z) : M DPS_Status :=
  h ← gets n_history;
  '(ret, sn, addr) ← lift (DPS_LookupPublisherForAck h pubId);
  match addr with
  | Some addr =>
      if negb (is_OK ret) || negb (sequenceNum <=? sn) then mret ret else
      same ← lift (DPS_SameAddr (ep_addr e) addr);
      if same : bool then mret ret else
      ackEp ← ack_endpoint addr;
      ret ← DPS_NetSend ackEp message;
      _ ← (if is_OK ret then emit EvRxIncRef else DPS_SendComplete (Some (ep_addr ackEp)) ret);
      mret ret
  | None => mret ret
  end.

Definition DPS_DecodeAcknowledgement (e : DPS_NetEndpoint) (b : DPS_RxBuffer) : M DPS_Status :=
  '(ret, maj, _, b) ← lift (CBOR_Skip (skip_fuel b) b (Some 0) (Some 0));
  if negb (is_OK ret) then mret ret
  else if negb (default 0 maj =? CBOR_MAP) then mret DPS_ERR_INVALID else
  let start := rx_pos b in
  '(ret, f, b) ← parse_map decode_ack_protected AckProtectedKeys [] b (None, None);
  if negb (is_OK ret) then mret ret else
  pubId ← lift f.1;
  sequenceNum ← lift f.2;
  aad ← lift (mem_read (rx_mem b) start (rx_pos b - start));
  pub ← DPS_LookupAckHandler pubId sequenceNum;
  match pub with
  | Some pub => handle_ack pub sequenceNum e aad (rx_rest b)
  | None => forward_ack pubId sequenceNum e (take (rx_eod b) (rx_mem b))
  end.

(** ** Sending *)

(** Whether the publication is one of this node. *)
Fixpoint local_publication (pubId : DPS_UUID) (l : list ptr) : M bool :=
  match l with
  | [] => mret false
  | pub :: l =>
      pb ← load n_pubs pub;
      if has_flag (p_flags pb) PUB_FLAG_LOCAL && (DPS_UUIDCompare (p_pubId pb) pubId =? 0) then mret true
      else local_publication pubId l
  end.

(** The acknowledgement is completed now or when the transport is done. *)
Definition DPS_SendAcknowledgement (ack : ptr) (e : DPS_NetEndpoint) : M DPS_Status :=
  a ← load n_acks ack;
  pb ← load n_pubs (a_pub a);
  l ← gets n_publications;
  loopback ← local_publication (p_pubId pb) l;
  _ ← (if loopback : bool then
         ret ← DPS_LoopbackSend DPS_DecodeAcknowledgement (a_bufs a);
         AckSendComplete ack ret
       else
         ret ← DPS_NetSend e (concat (a_bufs a));
         if is_OK ret then mret () else AckSendComplete ack ret);
  mret DPS_OK.

(** ** The message *)

Definition ack_len : Z :=
  CBOR_SIZEOF_LEN 5 + CBOR_SIZEOF 1 + CBOR_SIZEOF 1 + (CBOR_SIZEOF_LEN 2 + 2 * CBOR_SIZEOF 1)
  + CBOR_SIZEOF_BYTES 16 + CBOR_SIZEOF 4.

Definition encode_ack_head (p : DPS_Status * DPS_TxBuffer) : option (DPS_Status * DPS_TxBuffer) :=
  p ← on_ok (fun b => CBOR_EncodeArray b 5) p;
  p ← on_ok (fun b => CBOR_EncodeUint b DPS_MSG_VERSION) p;
  p ← on_ok (fun b => CBOR_EncodeUint b DPS_MSG_TYPE_ACK) p;
  on_ok (fun b => CBOR_EncodeMap b 0) p.

Definition encode_ack_protected (pubId : DPS_UUID) (sequenceNum : Z) (p : DPS_Status * DPS_TxBuffer)
  : option (DPS_Status * DPS_TxBuffer) :=
  p ← on_ok (fun b => CBOR_EncodeMap b 2) p;
  p ← encode_key DPS_CBOR_KEY_PUB_ID p;
  p ← on_ok (fun b => CBOR_EncodeUUID b (uuid_val pubId)) p;
  encode_uint DPS_CBOR_KEY_ACK_SEQ_NUM sequenceNum p.

Definition encode_ack_encrypted (dataLen : Z) (p : DPS_Status * DPS_TxBuffer) : option (DPS_Status * DPS_TxBuffer) :=
  p ← on_ok (fun b => CBOR_EncodeMap b 1) p;
  p ← encode_key DPS_CBOR_KEY_DATA p;
  on_ok (fun b => CBOR_EncodeLength b dataLen CBOR_BYTES) p.

(** "If the publication was encrypted the ack must be too": the buffers from the COSE
    header on. *)
Definition protect_ack (pb pubOfAck : DPS_Publication) (sequenceNum : Z) (aad : list Z) (payload : list (list Z))
  : M (DPS_Status * list (list Z)) :=
  signer ← gets n_signer;
  match p_recipients pb with
  | [] =>
      if e_alg signer =? 0 then mret (DPS_OK, [] :: payload ++ [[]])
      else '(ret, header, footer) ← COSE_Sign signer aad payload; mret (ret, header :: payload ++ [footer])
  | r :: _ =>
      '(ret, nonce) ← DPS_MakeNonce (p_pubId pubOfAck) sequenceNum DPS_MSG_TYPE_ACK (e_alg r);
      if negb (is_OK ret) then mret (ret, []) else
      '(ret, header, payload, footer) ←
        COSE_Encrypt COSE_ALG_A256GCM nonce (if e_alg signer =? 0 then None else Some signer) (p_recipients pb) aad payload;
      mret (ret, header :: payload ++ [footer])
  end.

Definition SerializeAck (pub ack : ptr) (bufs : list (list Z)) : M DPS_Status :=
  pb ← load n_pubs pub;
  a ← load n_acks ack;
  pa ← load n_pubs (a_pub a);
  _ ← assert (negb (a_sequenceNum a =? 0));
  _ ← assert (bool_decide (length (a_bufs a) = (length bufs + NUM_INTERNAL_ACK_BUFS)%nat));
  netCtx ← gets n_netCtx;
  if negb netCtx then mret DPS_ERR_NETWORK else
  '(ret, b) ← tx_new ack_len;
  if negb (is_OK ret) then mret ret else
  '(ret, b) ← lift (encode_ack_head (ret, b));
  let start := tx_pos b in
  '(ret, b) ← lift (encode_ack_protected (p_pubId pa) (a_sequenceNum a) (ret, b));
  let dataLen := foldr Z.add 0 (map (fun d => Z.of_nat (length d)) bufs) in
  '(ret, b2) ← (if is_OK ret then tx_new (CBOR_SIZEOF_LEN 1 + CBOR_SIZEOF 1 + CBOR_SIZEOF_LEN dataLen)
                else mret (ret, DPS_TxBufferFree b));
  '(ret, b2) ← lift (encode_ack_encrypted dataLen (ret, b2));
  if negb (is_OK ret) then mret ret else
  '(ret, rest) ← protect_ack pb pa (a_sequenceNum a) (drop start (tx_written b)) (tx_written b2 :: bufs);
  _ ← when (is_OK ret) (update n_acks ack (fun a => a <| a_bufs := tx_written b :: rest |>));
  mret ret.

(** ** Acknowledging *)

Definition DPS_QueuePublicationAck (ack : ptr) : M unit :=
  _ ← modify (fun n => n <| n_ackQueue := n_ackQueue n ++ [ack] |>);
  emit (EvAsyncSend acksAsync).

Definition DPS_AckPublicationBufs (pub : option ptr) (bufs : list (list Z)) (cb : AckCallback) : M DPS_Status :=
  match pub with
  | None => mret DPS_ERR_NULL
  | Some p =>
      pb ← load n_pubs p;
      if has_flag (p_flags pb) PUB_FLAG_LOCAL then mret DPS_ERR_INVALID
      else if bool_decide (DPS_BUFS_MAX < length bufs)%nat then mret DPS_ERR_ARGS else
      h ← gets n_history;
      '(ret, _, addr) ← lift (DPS_LookupPublisherForAck h (p_pubId pb));
      if negb (is_OK ret) then mret ret else
      match addr with
      | None => mret DPS_ERR_NO_ROUTE
      | Some addr =>
          ack ← CreateAck p (length bufs) cb;
          match ack with
          | None => mret DPS_ERR_RESOURCES
          | Some ack =>
              ret ← SerializeAck p ack bufs;
              if is_OK ret then
                _ ← update n_acks ack (fun a => a <| a_destAddr := addr |>);
                _ ← DPS_QueuePublicationAck ack;
                mret ret
              else _ ← DestroyAck ack; mret ret
          end
      end
  end.

Definition DPS_AckPublication (pub : option ptr) (data : option (list Z)) : M DPS_Status :=
  match data with
  | Some (_ :: _ as d) =>
      ok ← alloc_ok;
      if negb ok then mret DPS_ERR_RESOURCES else DPS_AckPublicationBufs pub [d] AckPublicationComplete
  | _ => DPS_AckPublicationBufs pub [] AckPublicationComplete
  end.

(** ** The task *)

Definition send_ack (ack : ptr) : M unit :=
  state ← gets n_state;
  ret ← (if bool_decide (state = DPS_NODE_RUNNING) then
           a ← load n_acks ack;
           e ← ack_endpoint (a_destAddr a);
           DPS_SendAcknowledgement ack e
         else mret DPS_ERR_NOT_STARTED);
  if is_OK ret then mret () else DPS_AckPublicationCompletion ack.

(** Nothing in the loop queues another acknowledgement. *)
Fixpoint send_acks (fuel : nat) : M unit :=
  queue ← gets n_ackQueue;
  match queue, fuel with
  | [], _ => mret ()
  | _, O => undefined
  | ack :: queue, S fuel =>
      _ ← modify (fun n => n <| n_ackQueue := queue |>);
      _ ← send_ack ack;
      send_acks fuel
  end.
Definition SendAcksTask : M unit := queue ← gets n_ackQueue; send_acks (length queue).
End Ack.
