(* ===== verification/Life.v ===== *)
(** * The life of a node ([src/dps.c])

    A node is created, started, stopped and destroyed.  Before it is started only
    what is in [Created] is set; everything else is zero.  The event loop, the
    transports and the threads are arguments. *)
From S2P Require Import Prelude Status Buffer Float Cbor BitVec Uuid Addr History Node Remote Sub SubMsg Pub Link SubDecode Tls Keys Cose.
From S2P Require Import PubMsg Ack.
From stdpp Require Import gmap.
#[local] Open Scope Z_scope.

Definition DPS_SUBSCRIPTION_UPDATE_RATE : Z := 2000.
Definition DPS_LINK_LOSS_TIMEOUT : Z := 30000.
Definition DPS_MCAST_PUB_ENABLE_SEND : Z := 1.
Definition DPS_MCAST_PUB_ENABLE_RECV : Z := 2.

(** ** Creating *)

Record Created := mkCreated {
  cr_separators : list Z;
  cr_signer : COSE_Entity;
  cr_entropy : Entropy;
  cr_subsRate : Z;
  cr_linkLossTimeout : Z;
  cr_linkLossCB : option Z
}.

Section Create.
Context `{Tls : Mbedtls} `{Keys : KeyStore}.

(** The coordinate of a private key goes to an array on the stack. *)
Definition SetCurve (key : DPS_Key) (curve : Z) : option (DPS_Status * Z) :=
  match key with
  | KeyEC c _ _ _ => Some (DPS_OK, c)
  | KeyCert _ (Some privateKey) password =>
      '(ret, c, _) ← ParsePrivateKey_ECDSA privateKey password (Some curve) (blank EC_MAX_COORD_LEN);
      Some (ret, default curve c)
  | _ => Some (DPS_ERR_MISSING, curve)
  end.

(** The status and [*alg]. *)
Definition GetSignatureAlgorithm (keyId : list Z) (alg : Z) : option (DPS_Status * Z) :=
  match keyHandler with
  | None => Some (DPS_ERR_MISSING, alg)
  | Some handler =>
      '(ret, curve) ← run_request SetCurve (handler keyId) DPS_EC_CURVE_RESERVED;
      if negb (is_OK ret) then Some (ret, alg)
      else if curve =? DPS_EC_CURVE_P384 then Some (DPS_OK, COSE_ALG_ES384)
      else if curve =? DPS_EC_CURVE_P521 then Some (DPS_OK, COSE_ALG_ES512)
      else Some (DPS_ERR_MISSING, alg)
  end.

(** [None] for a null pointer; an identifier without bytes is [[]].  [uuid] is what
    [DPS_InitUUID] gives, and the booleans are whether the node, the generator and the
    copy of the identifier can be allocated.  A null key store has no handlers. *)
Definition DPS_CreateNode (node : bool) (uuid : DPS_Status * Entropy) (rbg copy : bool)
    (separators : option (list Z)) (keyId : option (list Z)) : option (option Created) :=
  if negb node then Some None
  else if negb (is_OK uuid.1) then Some None
  else if negb rbg then Some None
  else
    let created signer :=
      Some (Some (mkCreated (take 12 (default [47] separators)) signer uuid.2 DPS_SUBSCRIPTION_UPDATE_RATE
                    DPS_LINK_LOSS_TIMEOUT None)) in
    match keyId with
    | None => created no_entity
    | Some keyId =>
        if negb (bool_decide (is_Some keyHandler)) then Some None
        else if is_nil keyId then Some None
        else
          '(_, alg) ← GetSignatureAlgorithm keyId COSE_ALG_RESERVED;
          if negb copy then Some None else created (mkEntity alg keyId)
    end.
End Create.

(** ** Stopping *)

(** [uv_run_once] and [uv_run] are what the event loop still runs while the node stops:
    the completions of messages that are being sent, and [FreeTask].  All the other
    handles are closed. *)
Section Stop.
Context `{Env : Environment} (uv_run_once uv_run : M unit).

(** [while (node->remoteNodes)] *)
Fixpoint delete_remotes (fuel : nat) : M unit :=
  l ← gets n_remoteNodes;
  match l, fuel with
  | [], _ => mret ()
  | _, O => undefined
  | p :: _, S fuel =>
      _ ← upd_outbound p (fun o => o <| linkRequested := false |>);
      _ ← DPS_DeleteRemoteNode p;
      delete_remotes fuel
  end.

(** [while (!DPS_QueueEmpty(&node->ackQueue))] *)
Fixpoint complete_acks (fuel : nat) : M unit :=
  l ← gets n_ackQueue;
  match l, fuel with
  | [], _ => mret ()
  | _, O => undefined
  | ack :: l, S fuel =>
      _ ← modify (fun n => n <| n_ackQueue := l |>);
      _ ← update n_acks ack (fun a => a <| a_status := DPS_ERR_WRITE |>);
      _ ← DPS_AckPublicationCompletion ack;
      complete_acks fuel
  end.

(** Rounds of the event loop until nothing is waiting to be freed. *)
Fixpoint drain (fuel : nat) : M unit :=
  pubs ← gets n_publications;
  freePubs ← gets n_freePubs;
  subs ← gets n_subscriptions;
  freeSubs ← gets n_freeSubs;
  if is_nil pubs && is_nil freePubs && is_nil subs && is_nil freeSubs then mret () else
  match fuel with
  | O => undefined
  | S fuel => _ ← uv_run_once; drain fuel
  end.

(** [if (node->handle) { stop it; node->handle = NULL; }] *)
Definition close_handle (handle : DPS_Node -> bool) `{!Setter handle} (e : Event) : M unit :=
  open ← gets handle;
  when open (_ ← emit e; modify (fun n => n <| handle := false |>)).
Definition close_network : M unit :=
  _ ← close_handle n_mcastReceiver (EvMulticastStop true);
  _ ← close_handle n_mcastSender (EvMulticastStop false);
  close_handle n_netCtx EvNetStop.

(** [fuel] bounds the rounds of the event loop. *)
Definition StopNode (fuel : nat) : M unit :=
  _ ← modify (fun n => n <| n_state := DPS_NODE_STOPPED |>);
  _ ← close_network;
  remotes ← gets n_remoteNodes;
  _ ← delete_remotes (length remotes);
  acks ← gets n_ackQueue;
  _ ← complete_acks (length acks);
  requests ← gets n_requestQueue;
  _ ← RunRequestsTask (length requests);
  _ ← DPS_FreeSubscriptions;
  _ ← DPS_FreePublications;
  _ ← drain fuel;
  _ ← uv_run;
  _ ← FreeTask;
  h ← gets n_history;
  h ← lift (DPS_HistoryFree h);
  modify (fun n => n <| n_history := h |> <| n_loop := false |>).

(** The end of the thread of the node; the result is whether it frees the node. *)
Definition NodeRun (fuel : nat) : M bool :=
  _ ← StopNode fuel;
  cb ← gets n_onDestroyed;
  match cb with
  | Some cb => _ ← emit (EvNodeDestroyed cb); mret true
  | None => mret false
  end.

(** The status, and whether the node was freed. *)
Definition DPS_DestroyNode (cb : option Z) : M (DPS_Status * bool) :=
  match cb with
  | None => mret (DPS_ERR_NULL, false)
  | Some _ =>
      state ← gets n_state;
      match state with
      | DPS_NODE_STOPPING => mret (DPS_ERR_INVALID, false)
      | DPS_NODE_RUNNING =>
          _ ← modify (fun n => n <| n_state := DPS_NODE_STOPPING |> <| n_onDestroyed := cb |>);
          _ ← emit (EvAsyncSend stopAsync);
          mret (DPS_OK, false)
      | DPS_NODE_STOPPED | DPS_NODE_CREATED => mret (DPS_ERR_NODE_DESTROYED, true)
      | DPS_NODE_PAUSED => undefined
      end
  end.

(** ** Starting *)

(** What the system does: whether the loop is allocated and initialised, whether sending (false) or
    receiving (true) by multicast starts, the address of [DPS_NetStart] unless it
    fails, and whether the thread is created. *)
Record System := mkSystem {
  sys_loop : bool * bool;
  sys_multicast : bool -> bool;
  sys_net : option DPS_NodeAddress;
  sys_thread : bool
}.

(** A node that has no objects.  The vectors are null until they are allocated: there
    is nothing that would use them before. *)
Definition blank_node (c : Created) (now : Z) (alloc : nat) : DPS_Node :=
  let null := mkCV 0 0 None [] in
  let none := mkBV 0 0 [] in
  mkNode ∅ [] ∅ [] [] ∅ [] [] ∅ ∅ [] ∅ [] none none null null
    (mkHistory ∅ ∅ ∅ ∅ ∅ ∅ None None None 0) (cr_signer c) (mkUUID 0 0) (cr_entropy c) zero_sock_addr (cr_separators c)
    SubsNonePending DPS_NODE_CREATED None (cr_linkLossCB c) false false false false None 0 now
    (cr_subsRate c) (cr_linkLossTimeout c) alloc 0 [].

Definition alloc_vectors : M DPS_Status :=
  ok1 ← alloc_ok;
  ok2 ← (if ok1 : bool then alloc_ok else mret false);
  interests ← lift (DPS_CountVectorAlloc env_config ok1 ok2);
  ok ← alloc_ok;
  needs ← lift (DPS_CountVectorAllocFH ok);
  sInterests ← BitVectorAlloc;
  sNeeds ← BitVectorAllocFH;
  match interests, needs, sInterests, sNeeds with
  | Some interests, Some needs, Some si, Some sn =>
      _ ← modify (fun n => n <| n_interests := interests |> <| n_needs := needs |>
                             <| n_scratch_interests := si |> <| n_scratch_needs := sn |>);
      mret DPS_OK
  | _, _, _, _ => mret DPS_ERR_RESOURCES
  end.

Definition start_multicast (sys : System) (mcast : Z) : M unit :=
  let mcast := u8 mcast in
  _ ← modify (fun n => n <| n_mcastPub := mcast |>);
  _ ← when (has_flag mcast DPS_MCAST_PUB_ENABLE_SEND)
        (_ ← emit (EvMulticastStart false); modify (fun n => n <| n_mcastSender := sys_multicast sys false |>));
  when (has_flag mcast DPS_MCAST_PUB_ENABLE_RECV)
    (_ ← emit (EvMulticastStart true); modify (fun n => n <| n_mcastReceiver := sys_multicast sys true |>)).

Definition start_loop (sys : System) (mcast : Z) : M DPS_Status :=
  timeout ← gets n_linkLossTimeout;
  _ ← emit (EvTimerStart timeout timeout);
  e ← gets n_entropy;
  let '(meshId, e) := DPS_GenerateUUID e in
  _ ← modify (fun n => n <| n_meshId := meshId |> <| n_entropy := e |>);
  ret ← alloc_vectors;
  if negb (is_OK ret) then mret ret else
  _ ← start_multicast sys mcast;
  match sys_net sys with
  | None => mret DPS_ERR_NETWORK
  | Some addr =>
      _ ← modify (fun n => n <| n_netCtx := true |> <| n_addr := addr |>);
      mret (if sys_thread sys then DPS_OK else DPS_ERR_FAILURE)
  end.

Definition DPS_StartNode (sys : System) (fuel : nat) (mcast : Z) : M DPS_Status :=
  _ ← modify (fun n => n <| n_loop := (sys_loop sys).1 && (sys_loop sys).2 |>);
  if negb (sys_loop sys).1 then mret DPS_ERR_RESOURCES
  else if negb (sys_loop sys).2 then mret DPS_ERR_FAILURE
  else
    ret ← start_loop sys mcast;
    if is_OK ret then _ ← modify (fun n => n <| n_state := DPS_NODE_RUNNING |>); mret ret
    else _ ← StopNode fuel; mret ret.
End Stop.
