(* ===== verification/PubMsgProofs.v ===== *)
(** * What a publication contains ([src/pub.c])

    The bytes of a publication are a CBOR array of five items: the version, the type,
    the map that every node on the way rewrites, the map that the publisher protects
    and the map that it may encrypt.  The buffers that the code allocates for them are
    always large enough. *)
From S2P Require Import Prelude Status Buffer Float Cbor CborProofs CborValues CborMap.
From S2P Require Import BitVec BitVecProofs BitVecSerial CountVec Topics Uuid Addr History Node Remote RemoteProofs.
From S2P Require Import Sub SubMsg SubMsgProofs Pub SubDecode Tls Keys Cose PubMsg PubRecv PubSend.
From stdpp Require Import gmap.
#[local] Open Scope Z_scope.
#[local] Set Warnings "-clear-no-such-hyp".

Definition int16 (n : Z) : Prop := - 2 ^ 15 <= n < 2 ^ 15.
Definition uint16 (n : Z) : Prop := 0 <= n < 2 ^ 16.

(** ** The entries of the maps *)

Definition header_entries (addr : DPS_NodeAddress) (ttl hopCount : Z) : list (Z * cbor) :=
  port_entries addr ++ [(DPS_CBOR_KEY_TTL, CInt ttl)] ++ path_entries addr ++ [(DPS_CBOR_KEY_HOP_COUNT, CInt hopCount)].

Definition protected_entries (ttl : Z) (pubId : DPS_UUID) (sequenceNum : Z) (ackRequested : bool) (filter : cbor)
  : list (Z * cbor) :=
  [(DPS_CBOR_KEY_TTL, CInt ttl); (DPS_CBOR_KEY_PUB_ID, CBytes (uuid_val pubId)); (DPS_CBOR_KEY_SEQ_NUM, CInt sequenceNum);
   (DPS_CBOR_KEY_ACK_REQ, CBool ackRequested); (DPS_CBOR_KEY_BLOOM_FILTER, filter)].

Definition topics_item (topics : list (list Z)) : cbor := CArray (map CString topics).
Definition payload_entries (topics : list (list Z)) (data : list Z) : list (Z * cbor) :=
  [(DPS_CBOR_KEY_TOPICS, topics_item topics); (DPS_CBOR_KEY_DATA, CBytes data)].

Definition map_wire (es : list (Z * cbor)) : list Z := cbor_head CBOR_MAP (Z.of_nat (length es)) ++ ewire es.

Definition header_wire (addr : DPS_NodeAddress) (ttl hopCount : Z) : list Z :=
  cbor_head CBOR_ARRAY 5 ++ cbor_head CBOR_UINT DPS_MSG_VERSION ++ cbor_head CBOR_UINT DPS_MSG_TYPE_PUB
  ++ map_wire (header_entries addr ttl hopCount).

(** ** Steps of the writer *)

Lemma cbor_int_neg n : n < 0 -> cbor_int n = cbor_head CBOR_NEG (-1 - n).
Proof. intros H. unfold cbor_int. by destruct (Z.geb_spec n 0); [lia|]. Qed.

Lemma length_int16 n : int16 n -> (length (cbor_int n) <= 3)%nat.
Proof.
  intros [H1 H2]. destruct (Z.le_gt_cases 0 n).
  - rewrite cbor_int_pos by done. apply head_len16. lia.
  - rewrite cbor_int_neg by done. apply head_len16. lia.
Qed.

Lemma cbor_int_bytes n : - 2 ^ 63 <= n < 2 ^ 63 -> Forall is_byte (cbor_int n).
Proof.
  intros H. destruct (Z.le_gt_cases 0 n).
  - rewrite cbor_int_pos by done. apply cbor_head_bytes; [major|lia].
  - rewrite cbor_int_neg by done. apply cbor_head_bytes; [major|lia].
Qed.

Ltac fits := rewrite ?length_app; cbn [length]; lia.

(** The last step of a chain. *)
Lemma wrote_last (m : option (DPS_Status * DPS_TxBuffer)) (Q : DPS_Status * DPS_TxBuffer -> Prop) :
  (exists x, (p ← m; Some p) = Some x /\ Q x) -> exists x, m = Some x /\ Q x.
Proof. by destruct m. Qed.

Section Steps.
Context {X : Type} (L : nat) (Q : X -> Prop).
Implicit Types (k : DPS_Status * DPS_TxBuffer -> option X).

Lemma wrote_int16 w p n k :
  wrote L w p -> int16 n -> (length w + 3 <= L)%nat ->
  (forall p', wrote L (w ++ cbor_int n) p' -> exists x, k p' = Some x /\ Q x) ->
  exists x, (p ← on_ok (fun b => CBOR_EncodeInt b n) p; k p) = Some x /\ Q x.
Proof.
  intros H Hn Hl Hk. pose proof (length_int16 n Hn). destruct Hn.
  eapply wrote_bind; [exact H| | | |exact Hk].
  - intros b Hb. apply CBOR_EncodeInt_enc; [done|lia].
  - apply cbor_int_bytes. lia.
  - lia.
Qed.
End Steps.

(** ** The header *)

Section Header.
Context (addr : DPS_NodeAddress) (listen : Z) (Hs : sendable addr) (Hl : listen_len addr = Some listen).
Context (ttl hopCount : Z) (Httl : int16 ttl) (Hhop : uint16 hopCount).

Lemma header_entries_length : length (header_entries addr ttl hopCount) = 3%nat.
Proof using Hs.
  unfold header_entries, port_entries, path_entries, sendable in *. by destruct (addr_type addr).
Qed.

(** [header_wire], piece by piece. *)
Lemma header_wire_pieces :
  header_wire addr ttl hopCount = (((((((cbor_head CBOR_ARRAY 5 ++ cbor_head CBOR_UINT DPS_MSG_VERSION)
    ++ cbor_head CBOR_UINT DPS_MSG_TYPE_PUB) ++ cbor_head CBOR_MAP 3) ++ ewire (port_entries addr))
    ++ cbor_int DPS_CBOR_KEY_TTL) ++ cbor_int ttl) ++ ewire (path_entries addr))
    ++ ewire [(DPS_CBOR_KEY_HOP_COUNT, CInt hopCount)].
Proof using Hs.
  unfold header_wire, map_wire. rewrite header_entries_length. unfold header_entries.
  rewrite !ewire_app, ewire_one. cbn [wire]. by rewrite <- !app_assoc.
Qed.

Lemma header_len_bound :
  Z.of_nat (12 + length (ewire (port_entries addr)) + length (ewire (path_entries addr))) <= header_len listen.
Proof using Hs Hl.
  pose proof (address_length addr listen Hs Hl) as [Ha _]. unfold header_len.
  change (CBOR_SIZEOF_LEN 5) with 1. change (CBOR_SIZEOF 1) with 2. change (CBOR_SIZEOF_LEN 3) with 1.
  change (CBOR_SIZEOF 2) with 3. lia.
Qed.

Lemma encode_header_spec p :
  wrote (Z.to_nat (header_len listen)) [] p ->
  exists p', encode_header addr ttl hopCount p = Some p' /\
    wrote (Z.to_nat (header_len listen)) (header_wire addr ttl hopCount) p'.
Proof using Hs Hl Httl Hhop.
  intros H. pose proof header_len_bound as HL. rewrite header_wire_pieces.
  set (L := Z.to_nat (header_len listen)) in *. destruct Hhop as [Hh1 Hh2].
  assert (12 + length (ewire (port_entries addr)) + length (ewire (path_entries addr)) <= L)%nat as HL' by lia. clear HL.
  pose proof (head_len1 CBOR_ARRAY 5 ltac:(lia)) as Hlen1. pose proof (head_len1 CBOR_UINT 1 ltac:(lia)) as Hlen2.
  pose proof (head_len1 CBOR_MAP 3 ltac:(lia)) as Hlen3. pose proof (length_key DPS_CBOR_KEY_TTL ltac:(unfold DPS_CBOR_KEY_TTL; lia)) as Hlen4.
  pose proof (length_int16 ttl Httl) as Hlen5. pose proof (head_len16 CBOR_UINT hopCount ltac:(lia)) as Hlen6.
  unfold encode_header, DPS_MSG_VERSION, DPS_MSG_TYPE_PUB.
  eapply (wrote_head L _ _ _ CBOR_ARRAY 5); [exact H|major|lia|fits|]. intros p1 H1. cbn [app] in H1.
  eapply (wrote_head L _ _ _ CBOR_UINT 1); [exact H1|major|lia|fits|]. intros p2 H2.
  eapply (wrote_head L _ _ _ CBOR_UINT 1); [exact H2|major|lia|fits|]. intros p3 H3.
  eapply (wrote_head L _ _ _ CBOR_MAP 3); [exact H3|major|lia|fits|]. intros p4 H4.
  eapply wrote_port; [exact Hs|exact H4|fits|]. intros p5 H5.
  eapply wrote_key; [exact H5|unfold DPS_CBOR_KEY_TTL; lia|fits|]. intros p6 H6.
  eapply wrote_int16; [exact H6|done|fits|]. intros p7 H7.
  eapply wrote_path; [exact Hs|exact H7|fits|]. intros p8 H8.
  apply wrote_last. eapply wrote_uint; [exact H8|unfold DPS_CBOR_KEY_HOP_COUNT; lia|lia|fits|].
  intros p9 H9. by exists p9.
Qed.
End Header.

(** ** The protected map *)

Lemma EncodeBoolean_enc b (x : bool) : tx_wf b -> enc_spec b (wire (CBool x)) (CBOR_EncodeBoolean b (if x then 1 else 0)).
Proof. intros H. by apply (enc_value_enc (CBool x) I). Qed.

Lemma TxBufferAppend_enc b bs : tx_wf b -> enc_spec b bs (DPS_TxBufferAppend b (Some bs)).
Proof.
  intros Hwf. unfold enc_spec, DPS_TxBufferAppend. destruct bs as [|x bs].
  - rewrite decide_True; [by rewrite tx_app_nil|]. unfold tx_fits. destruct Hwf. cbn. lia.
  - pose proof (CBOR_Copy_enc b (x :: bs) Hwf) as H. unfold enc_spec, CBOR_Copy in H. revert H.
    rewrite (decide_False (P := length (x :: bs) = 0%nat)) by done.
    unfold mem_read. rewrite (decide_True (P := (0 + length (x :: bs) <= length (x :: bs))%nat)) by lia.
    rewrite drop_0, (take_ge (x :: bs)) by done. cbn [mbind option_bind]. done.
Qed.

Section Protected.
Context (ttl : Z) (pubId : DPS_UUID) (sequenceNum : Z) (ackRequested : bool) (filter : cbor).
Context (Httl : int16 ttl) (Hseq : uint32 sequenceNum) (Hfilter : cbor_ok filter).
Let es := protected_entries ttl pubId sequenceNum ackRequested filter.
Let L := Z.to_nat (protected_len (Z.of_nat (length (wire filter)))).

Lemma protected_wire_pieces :
  map_wire es = (((((((((cbor_head CBOR_MAP 5 ++ cbor_int DPS_CBOR_KEY_TTL) ++ cbor_int ttl)
    ++ cbor_int DPS_CBOR_KEY_PUB_ID) ++ wire (CBytes (uuid_val pubId))) ++ ewire [(DPS_CBOR_KEY_SEQ_NUM, CInt sequenceNum)])
    ++ cbor_int DPS_CBOR_KEY_ACK_REQ) ++ wire (CBool ackRequested)) ++ cbor_int DPS_CBOR_KEY_BLOOM_FILTER) ++ wire filter).
Proof.
  unfold map_wire, es, protected_entries. cbn [length ewire flat_map fst snd].
  by rewrite !app_nil_r, <- !app_assoc.
Qed.

Lemma protected_len_bound : (36 + length (wire filter) <= L)%nat.
Proof.
  unfold L, protected_len, CBOR_SIZEOF_BYTES. change (CBOR_SIZEOF_LEN 5) with 1. change (CBOR_SIZEOF 1) with 2.
  change (CBOR_SIZEOF_LEN 16) with 1. change (CBOR_SIZEOF 4) with 5. change (CBOR_SIZEOF 2) with 3.
  unfold CBOR_SIZEOF_BOOLEAN. pose proof (cbor_head_sizeof CBOR_BYTES (Z.of_nat (length (wire filter)))). lia.
Qed.

Lemma encode_protected_spec p :
  wrote L [] p ->
  exists p', encode_protected ttl sequenceNum pubId ackRequested (wire filter) p = Some p' /\ wrote L (map_wire es) p'.
Proof using Httl Hseq Hfilter.
  intros H. pose proof protected_len_bound as HL. rewrite protected_wire_pieces. fold L.
  assert (length (wire (CBytes (uuid_val pubId))) = 17%nat) as Hu by reflexivity.
  assert (length (wire (CBool ackRequested)) = 1%nat) as Hbool by reflexivity.
  pose proof (head_len1 CBOR_MAP 5 ltac:(lia)) as Hlen7. pose proof (length_int16 ttl Httl) as Hlen8.
  assert (length (cbor_head CBOR_UINT sequenceNum) <= 5)%nat as Hs by (apply head_len32; apply Hseq).
  assert (length (ewire [(DPS_CBOR_KEY_SEQ_NUM, CInt sequenceNum)]) = S (length (cbor_head CBOR_UINT sequenceNum))) as Hse
    by (apply length_uint_entry; [unfold DPS_CBOR_KEY_SEQ_NUM; lia|apply Hseq]).
  assert (forall k, 0 <= k < 24 -> length (cbor_int k) = 1%nat) as Hk by apply length_key.
  pose proof (Hk 2 ltac:(lia)) as Hlen9. pose proof (Hk 3 ltac:(lia)) as Hlen10. pose proof (Hk 5 ltac:(lia)) as Hlen11. pose proof (Hk 6 ltac:(lia)) as Hlen12.
  unfold encode_protected, DPS_CBOR_KEY_TTL, DPS_CBOR_KEY_PUB_ID, DPS_CBOR_KEY_ACK_REQ, DPS_CBOR_KEY_BLOOM_FILTER in *.
  eapply (wrote_head L _ _ _ CBOR_MAP 5); [exact H|major|lia|fits|]. intros p1 H1. cbn [app] in H1.
  eapply wrote_key; [exact H1|lia|fits|]. intros p2 H2.
  eapply wrote_int16; [exact H2|done|fits|]. intros p3 H3.
  eapply wrote_key; [exact H3|lia|fits|]. intros p4 H4.
  eapply wrote_bind; [exact H4|intros b Hb; by apply EncodeUUID_enc|apply (wire_bytes (CBytes (uuid_val pubId)))|fits|].
  { split; [cbn; lia|apply uuid_val_bytes]. }
  intros p5 H5.
  eapply wrote_uint; [exact H5|unfold DPS_CBOR_KEY_SEQ_NUM; lia|apply Hseq|fits|]. intros p6 H6.
  eapply wrote_key; [exact H6|lia|fits|]. intros p7 H7.
  eapply wrote_bind; [exact H7|intros b Hb; by apply EncodeBoolean_enc|by apply (wire_bytes (CBool ackRequested))|fits|].
  intros p8 H8. eapply wrote_key; [exact H8|lia|fits|]. intros p9 H9. apply wrote_last.
  eapply wrote_bind; [exact H9|intros b Hb; by apply CBOR_Copy_enc|by apply wire_bytes|fits|].
  intros p10 H10. by exists p10.
Qed.
End Protected.

(** ** The map that may be encrypted *)

Section Encrypted.
Context (topics : list (list Z)) (dataLen : Z) (Htopics : cbor_ok (topics_item topics)) (Hdata : 0 <= dataLen < 2 ^ 32).
Let L := Z.to_nat (encrypted_len (Z.of_nat (length (wire (topics_item topics)))) dataLen).

(** Everything but the bytes of the payload. *)
Definition payload_head : list Z :=
  ((((cbor_head CBOR_MAP 2 ++ cbor_int DPS_CBOR_KEY_TOPICS) ++ wire (topics_item topics))
    ++ cbor_int DPS_CBOR_KEY_DATA) ++ cbor_head CBOR_BYTES dataLen).

Lemma encode_encrypted_spec p :
  wrote L [] p ->
  exists p', encode_encrypted (wire (topics_item topics)) dataLen p = Some p' /\ wrote L payload_head p'.
Proof using Htopics Hdata.
  intros H. assert (Z.of_nat L = 5 + Z.of_nat (length (wire (topics_item topics))) + Z.of_nat (length (cbor_head CBOR_BYTES dataLen))) as HL.
  { unfold L, encrypted_len. change (CBOR_SIZEOF_LEN 2) with 1. change (CBOR_SIZEOF 1) with 2.
    rewrite <- (cbor_head_sizeof CBOR_BYTES dataLen). lia. }
  pose proof (head_len1 CBOR_MAP 2 ltac:(lia)) as Hlen1.
  assert (forall k, 0 <= k < 24 -> length (cbor_int k) = 1%nat) as Hk by apply length_key.
  pose proof (Hk 11 ltac:(lia)) as Hlen2. pose proof (Hk 12 ltac:(lia)) as Hlen3.
  unfold encode_encrypted, payload_head, DPS_CBOR_KEY_TOPICS, DPS_CBOR_KEY_DATA in *.
  eapply (wrote_head L _ _ _ CBOR_MAP 2); [exact H|major|lia|fits|]. intros p1 H1. cbn [app] in H1.
  eapply wrote_key; [exact H1|lia|fits|]. intros p2 H2.
  eapply wrote_bind; [exact H2|intros b Hb; by apply TxBufferAppend_enc|by apply wire_bytes|fits|]. intros p3 H3.
  eapply wrote_key; [exact H3|lia|fits|]. intros p4 H4. apply wrote_last.
  eapply (wrote_head L _ _ _ CBOR_BYTES); [exact H4|major|lia|fits|]. intros p5 H5. by exists p5.
Qed.

Lemma payload_wire data : Z.of_nat (length data) = dataLen -> payload_head ++ data = map_wire (payload_entries topics data).
Proof.
  intros Hd. unfold payload_head, map_wire, payload_entries. cbn [length ewire flat_map fst snd wire].
  rewrite !app_nil_r, <- !app_assoc, Hd. reflexivity.
Qed.
End Encrypted.
