(* ===== verification/CoseProofs.v ===== *)
(** * What the encoders of COSE write

    [encodes bs f] says that the step [f] of a chain appends [bs].  The parts of a
    message are CBOR items. *)
From S2P Require Import Prelude Status Buffer Float Cbor CborProofs CborValues CborWrap BitVec Uuid Addr Node.
From S2P Require Import SubMsg SubMsgProofs SubDecode Tls Keys TlsLaws Cose SendProofs PubMsgProofs.
From stdpp Require Import gmap.
#[local] Open Scope Z_scope.
#[local] Set Warnings "-clear-no-such-hyp".

(** ** Steps of a chain *)

Definition encodes (bs : list Z) (f : DPS_Status * DPS_TxBuffer -> option (DPS_Status * DPS_TxBuffer)) : Prop :=
  forall L w b, wrote L w (DPS_OK, b) -> (length w + length bs <= L)%nat ->
  exists b', f (DPS_OK, b) = Some (DPS_OK, b') /\ wrote L (w ++ bs) (DPS_OK, b').

Lemma encodes_id : encodes [] Some.
Proof. intros L w b H _. exists b. by rewrite app_nil_r. Qed.

Lemma encodes_bind bs1 bs2 f g : encodes bs1 f -> encodes bs2 g -> encodes (bs1 ++ bs2) (fun p => p ← f p; g p).
Proof.
  intros Hf Hg L w b H HL. rewrite length_app in HL.
  destruct (Hf L w b H) as (b1 & -> & H1); [lia|]. cbn [mbind option_bind].
  destruct (Hg L (w ++ bs1) b1 H1) as (b2 & E & H2); [rewrite length_app; lia|].
  exists b2. split; [exact E|]. by rewrite app_assoc.
Qed.

(** Only what follows from the status being good counts. *)
Lemma encodes_ext bs f g : (forall b, f (DPS_OK, b) = g (DPS_OK, b)) -> encodes bs f -> encodes bs g.
Proof. intros E Hf L w b. rewrite <- E. apply Hf. Qed.

Lemma encodes_on_ok bs f : (forall b, tx_wf b -> enc_spec b bs (f b)) -> Forall is_byte bs -> encodes bs (on_ok f).
Proof.
  intros Hf Hb L w b H HL.
  destruct (wrote_bind L w (DPS_OK, b) bs f Some (wrote L (w ++ bs)) H Hf Hb HL) as ([ret b'] & E & W); [by eauto|].
  pose proof (wr_ok _ _ _ W) as Hr. cbn [fst] in Hr. subst ret. exists b'. split; [|done]. by destruct (on_ok f _).
Qed.

Lemma encodes_head maj n f : is_major maj -> 0 <= n < 2 ^ 32 -> (forall b, f b = EncodeUint b n maj) ->
  encodes (cbor_head maj n) (on_ok f).
Proof.
  intros Hm Hn Hf. apply encodes_on_ok; [|apply cbor_head_bytes; [done|lia]].
  intros b Hb. rewrite Hf. apply EncodeUint_enc; [done|done|lia].
Qed.
Lemma encodes_array n : 0 <= n < 2 ^ 32 -> encodes (cbor_head CBOR_ARRAY n) (on_ok (fun b => CBOR_EncodeArray b n)).
Proof. intros Hn. apply encodes_head; [major|done|]. intros b. unfold CBOR_EncodeArray. by rewrite u32_small. Qed.
Lemma encodes_map n : 0 <= n < 2 ^ 32 -> encodes (cbor_head CBOR_MAP n) (on_ok (fun b => CBOR_EncodeMap b n)).
Proof. intros Hn. apply encodes_head; [major|done|]. intros b. unfold CBOR_EncodeMap. by rewrite u32_small. Qed.
Lemma encodes_length n : 0 <= n < 2 ^ 32 -> encodes (cbor_head CBOR_BYTES n) (on_ok (fun b => CBOR_EncodeLength b n CBOR_BYTES)).
Proof. intros Hn. by apply encodes_head; [major|..]. Qed.

Definition int8 (n : Z) : Prop := -128 <= n < 128.
#[export] Instance int8_dec n : Decision (int8 n).
Proof. unfold int8. apply _. Defined.

Lemma int_item_bytes n : int8 n -> Forall is_byte (cbor_int n).
Proof. unfold int8. intros H. apply cbor_int_bytes. lia. Qed.
Lemma int8_length n : int8 n -> (1 <= length (cbor_int n) <= 2)%nat.
Proof.
  unfold int8, cbor_int. intros H. destruct (Z.geb_spec n 0).
  - pose proof (head_len8 CBOR_UINT n ltac:(lia)). pose proof (cbor_head_length CBOR_UINT n).
    pose proof (Requires_cases n). lia.
  - pose proof (head_len8 CBOR_NEG (-1 - n) ltac:(lia)). pose proof (cbor_head_length CBOR_NEG (-1 - n)).
    pose proof (Requires_cases (-1 - n)). lia.
Qed.

Lemma encodes_int8 n : int8 n -> encodes (wire (CInt n)) (encode_int8 n).
Proof.
  intros Hn. apply encodes_on_ok; [|by apply int_item_bytes]. intros b Hb. apply CBOR_EncodeInt_enc; [done|].
  unfold int8 in Hn. lia.
Qed.

Definition byte_string (bs : list Z) : Prop := Z.of_nat (length bs) < 2 ^ 32 /\ Forall is_byte bs.
#[export] Instance byte_string_dec bs : Decision (byte_string bs).
Proof. unfold byte_string. apply _. Defined.

Lemma bytes_item_bytes bs : byte_string bs -> Forall is_byte (wire (CBytes bs)).
Proof. intros [HL Hb]. cbn [wire]. apply Forall_app_2; [|done]. apply cbor_head_bytes; [major|lia]. Qed.

Lemma encodes_bytes bs : byte_string bs -> encodes (wire (CBytes bs)) (encode_bytes bs).
Proof.
  intros H. apply encodes_on_ok; [|by apply bytes_item_bytes]. intros b Hb. by apply CBOR_EncodeBytes_enc; [|apply H].
Qed.

Lemma encodes_null : encodes (wire CNull) (on_ok CBOR_EncodeNull).
Proof.
  apply encodes_on_ok; [|by apply (bool_decide_unpack _); vm_compute]. intros b Hb. unfold CBOR_EncodeNull, enc_spec.
  rewrite DPS_TxBufferSpace_spec by done. cbn [wire length]. case_decide as Hf.
  - unfold tx_fits, tx_space in *. rewrite (proj2 (Z.ltb_ge _ _)) by lia. by rewrite tx_put_fits.
  - unfold tx_fits, tx_space in *. rewrite (proj2 (Z.ltb_lt _ _)) by lia. by exists b.
Qed.

(** ** The protected map *)

Definition protected_map (alg : Z) : cbor := CMap [(CInt COSE_HDR_ALG, CInt alg)].
Definition protected_item (alg : Z) : cbor := CBytes (wire (protected_map alg)).

Lemma protected_map_length alg : int8 alg -> (3 <= length (wire (protected_map alg)) <= 4)%nat.
Proof.
  intros H. pose proof (int8_length alg H). cbn [wire protected_map flat_map]. rewrite !length_app.
  change (length (cbor_head CBOR_MAP _)) with 1%nat. change (length (wire (CInt COSE_HDR_ALG))) with 1%nat.
  change (wire (CInt alg)) with (cbor_int alg). cbn [length fst snd wire]. change (length (cbor_int COSE_HDR_ALG)) with 1%nat. lia.
Qed.
Lemma protected_map_bytes alg : int8 alg -> Forall is_byte (wire (protected_map alg)).
Proof.
  intros H. pose proof (int_item_bytes alg H). cbn [wire protected_map flat_map fst snd].
  repeat apply Forall_app_2; [by apply (bool_decide_unpack _); vm_compute..|done|done].
Qed.

(** Two steps, the second of which keeps an error. *)
Lemma enc_spec_chain b bs1 bs2 f (g : DPS_Status * DPS_TxBuffer -> option (DPS_Status * DPS_TxBuffer)) :
  tx_wf b -> Forall is_byte bs1 -> enc_spec b bs1 (f b) ->
  (forall b, tx_wf b -> enc_spec b bs2 (g (DPS_OK, b))) ->
  (forall ret b, is_OK ret = false -> g (ret, b) = Some (ret, b)) ->
  enc_spec b (bs1 ++ bs2) (p ← on_ok f (DPS_OK, b); g p).
Proof.
  intros Hb H1 Hf Hg Herr. pose proof (enc_spec_seq b bs1 bs2 (f b) (fun b => g (DPS_OK, b)) Hb H1 Hf Hg) as H.
  unfold on_ok. cbn [fst snd]. change (is_OK DPS_OK) with true. cbv iota.
  destruct (f b) as [[ret b']|]; cbn [mbind option_bind] in *; [|done].
  destruct (is_OK ret) eqn:E; [|by rewrite Herr]. by apply is_OK_true in E as ->.
Qed.
Lemma on_ok_err f ret b : is_OK ret = false -> on_ok f (ret, b) = Some (ret, b).
Proof. intros E. unfold on_ok. cbn [fst]. by rewrite E. Qed.

Lemma protected_map_enc b alg : tx_wf b -> int8 alg ->
  enc_spec b (wire (protected_map alg))
    (p ← on_ok (fun b => CBOR_EncodeMap b 1) (DPS_OK, b); p ← encode_int8 COSE_HDR_ALG p; encode_int8 alg p).
Proof.
  intros Hb Ha. cbn [wire protected_map flat_map fst snd]. rewrite app_nil_r.
  apply enc_spec_chain; [done|by apply (bool_decide_unpack _); vm_compute| | |].
  - by apply EncodeUint_enc; [|major|].
  - intros b1 Hb1. apply enc_spec_chain; [done|by apply (bool_decide_unpack _); vm_compute| | |].
    + by apply CBOR_EncodeInt_enc.
    + intros b2 Hb2. apply CBOR_EncodeInt_enc; [done|unfold int8 in Ha; lia].
    + intros ret b' E. by apply on_ok_err.
  - intros ret b' E. unfold encode_int8. rewrite on_ok_err by done. by apply on_ok_err.
Qed.

Lemma encodes_protected alg : int8 alg -> encodes (wire (protected_item alg)) (EncodeProtectedMap alg).
Proof.
  intros Ha L w b H HL. pose proof (protected_map_length alg Ha) as Hl. pose proof (protected_map_bytes alg Ha) as Hm.
  pose proof (wrote_fits _ _ _ _ H HL) as Hfit. destruct H as [_ Hwf HLb Hw]. cbn [snd] in *.
  pose proof (fun b Hb => protected_map_enc b alg Hb Ha) as Henc. unfold protected_item in *. cbn [wire] in Hfit |- *.
  fold (wire (protected_map alg)) in *. set (bs := wire (protected_map alg)) in *. rewrite length_app in Hfit.
  assert (length (cbor_head CBOR_BYTES (Z.of_nat (length bs))) = 1%nat) as H1 by (apply head_len1; lia).
  assert (length (cbor_head CBOR_BYTES (Z.of_nat 3)) = 1%nat) as H3 by done.
  unfold EncodeProtectedMap, on_ok at 1. cbn [fst snd]. change (is_OK DPS_OK) with true. cbv iota.
  rewrite CBOR_StartWrapBytes_spec; [|done|lia|unfold tx_fits in *; rewrite H3; lia]. cbn [mbind option_bind].
  assert (tx_wf (wrapped b 3 [])) as Hw0.
  { apply wrapped_wf; [done|constructor|]. unfold tx_fits in *. rewrite H3. cbn. lia. }
  specialize (Henc _ Hw0). clearbody bs. apply enc_spec_ok in Henc; [|unfold wrapped, tx_fits; rewrite tx_app_length;
    [|unfold tx_fits in *; rewrite length_app, H3; cbn; lia]; unfold tx_fits in *; cbn; rewrite length_app, H3; cbn; lia].
  destruct (EndWrap_ok b 3 bs Hwf ltac:(lia) Hm) as (b' & E & E1 & E2 & E3);
    [unfold tx_fits in *; rewrite H3; lia|unfold tx_fits in *; lia|].
  exists b'. split; [|split; cbn; [done|done|congruence|congruence]].
  assert (tx_app (wrapped b 3 []) bs = wrapped b 3 bs) as Ew.
  { unfold wrapped. rewrite app_nil_r. apply tx_app_app; [done|unfold tx_fits in *; rewrite H3; lia]. }
  rewrite Ew in Henc.
  destruct (on_ok (fun b => CBOR_EncodeMap b 1) (DPS_OK, wrapped b 3 [])) as [p1|]; [|done]. cbn [mbind option_bind] in *.
  destruct (encode_int8 COSE_HDR_ALG p1) as [p2|]; [|done]. cbn [mbind option_bind] in *. by rewrite Henc.
Qed.

Lemma encodes_eq bs bs' f : bs = bs' -> encodes bs f -> encodes bs' f.
Proof. by intros ->. Qed.
Lemma encodes_sub bs f : encodes bs f -> encodes bs (on_ok (fun b => f (DPS_OK, b))).
Proof. by apply encodes_ext. Qed.
Lemma encodes_string s : Z.of_nat (length s) <= CBOR_MAX_STRING_LEN -> Forall is_byte s ->
  encodes (wire (CString s)) (on_ok (fun b => CBOR_EncodeString b (Some s))).
Proof.
  intros HL Hs. apply encodes_on_ok; [intros b Hb; by apply CBOR_EncodeString_enc|].
  cbn [wire]. apply Forall_app_2; [|done]. apply cbor_head_bytes; [major|lia].
Qed.
Lemma encodes_uint n : 0 <= n < 2 ^ 32 -> encodes (wire (CInt n)) (on_ok (fun b => CBOR_EncodeUint b n)).
Proof. intros Hn. cbn [wire]. rewrite cbor_int_pos by lia. by apply encodes_head; [major|..]. Qed.

(** The steps of a chain one by one, then what they write as items. *)
Create HintDb encodes discriminated.
#[export] Hint Resolve encodes_null encodes_string encodes_uint encodes_int8 encodes_bytes encodes_protected : encodes.
#[export] Hint Extern 1 (int8 _) => unfold int8, COSE_HDR_ALG, COSE_HDR_KID, COSE_HDR_IV, COSE_HDR_COUNTER_SIGNATURE,
  COSE_HDR_EPHEMERAL_KEY, COSE_KEY_KTY, COSE_KEY_KTY_EC, COSE_EC_KEY_CRV, COSE_EC_KEY_X, COSE_EC_KEY_Y; lia : encodes.
Ltac encodes_step :=
  lazymatch goal with
  | |- encodes _ (fun p => @?m p ≫= @?k p) => eapply encodes_bind; [encodes_step|encodes_step]
  | |- encodes _ (on_ok (fun b => CBOR_EncodeArray b _)) => apply encodes_array; lia
  | |- encodes _ (on_ok (fun b => CBOR_EncodeMap b _)) => apply encodes_map; lia
  | |- encodes _ (on_ok (fun b => CBOR_EncodeLength b _ _)) => apply encodes_length; lia
  | |- encodes _ _ => first [solve [eauto with encodes] | idtac]
  end.
Definition entries_wire (es : list (cbor * cbor)) : list Z := flat_map (fun e => wire e.1 ++ wire e.2) es.
Ltac items := unfold entries_wire; cbn [wire flat_map length fst snd app]; rewrite ?app_nil_r, <- ?app_assoc; reflexivity.

(** ** The unprotected map *)

Definition kid_entries (kid : list Z) : list (cbor * cbor) :=
  if is_nil kid then [] else [(CInt COSE_HDR_KID, CBytes kid)].
Definition iv_entries (nonce : list Z) : list (cbor * cbor) :=
  if is_nil nonce then [] else [(CInt COSE_HDR_IV, CBytes nonce)].
(** The counter signature up to its bytes. *)
Definition partial_signature (sig : Signature) : list Z :=
  wire (CInt COSE_HDR_COUNTER_SIGNATURE) ++ cbor_head CBOR_ARRAY 3 ++ wire (protected_item (sg_alg sig))
  ++ wire (CMap (kid_entries (sg_kid sig))).
Definition partial_map (kid nonce : list Z) (sig : option Signature) : list Z :=
  cbor_head CBOR_MAP (Z.of_nat (length (kid_entries kid) + length (iv_entries nonce)) + (if sig is Some _ then 1 else 0))
  ++ entries_wire (kid_entries kid) ++ entries_wire (iv_entries nonce)
  ++ (if sig is Some sig then partial_signature sig else []).

Lemma encodes_entry key bs : int8 key -> byte_string bs ->
  encodes (entries_wire [(CInt key, CBytes bs)]) (fun p => p ← encode_int8 key p; encode_bytes bs p).
Proof. intros. eapply encodes_eq; [|encodes_step]. items. Qed.

Lemma encodes_optional (l : list Z) key : int8 key -> byte_string l ->
  encodes (entries_wire (if is_nil l then [] else [(CInt key, CBytes l)]))
    (fun p => if is_nil l then Some p else p ← encode_int8 key p; encode_bytes l p).
Proof. intros. destruct l; [apply encodes_id|by apply encodes_entry]. Qed.

Lemma encodes_partial_none sub kid nonce : byte_string kid -> byte_string nonce ->
  encodes (partial_map kid nonce None) (encode_partial_map sub kid nonce None).
Proof.
  intros Hk Hn. unfold encode_partial_map, partial_map. eapply encodes_eq; [|eapply encodes_bind; [apply encodes_map|
    eapply encodes_bind; [by apply encodes_optional|eapply encodes_bind; [by apply encodes_optional|apply encodes_id]]]].
  - rewrite !app_nil_r. unfold kid_entries, iv_entries. f_equal. f_equal. destruct kid, nonce; reflexivity.
  - destruct kid, nonce; cbn; lia.
Qed.

Lemma partial_map_none kid nonce : partial_map kid nonce None = wire (CMap (kid_entries kid ++ iv_entries nonce)).
Proof.
  unfold partial_map, entries_wire. cbn [wire]. by rewrite !app_nil_r, Z.add_0_r, length_app, flat_map_app.
Qed.

Lemma encodes_partial kid nonce sig : byte_string kid -> byte_string nonce -> int8 (sg_alg sig) ->
  byte_string (sg_kid sig) ->
  encodes (partial_map kid nonce (Some sig)) (EncodePartialUnprotectedMap kid nonce (Some sig)).
Proof.
  intros Hk Hn Ha Hs. unfold EncodePartialUnprotectedMap, encode_partial_map at 1, partial_map.
  eapply encodes_eq; [|eapply encodes_bind; [apply encodes_map|
    eapply encodes_bind; [by apply encodes_optional|eapply encodes_bind; [by apply encodes_optional|]]]].
  3: { eapply encodes_bind; [by auto with encodes|]. eapply encodes_bind; [by apply encodes_array|].
       eapply encodes_bind; [by apply encodes_protected|]. apply encodes_sub.
       by apply (encodes_partial_none _ (sg_kid sig) []). }
  - unfold partial_signature, kid_entries, iv_entries. f_equal.
    + f_equal. destruct kid, nonce; reflexivity.
    + do 5 f_equal. rewrite partial_map_none. cbn [iv_entries is_nil]. by rewrite app_nil_r.
  - destruct kid, nonce; cbn; lia.
Qed.

Lemma encodes_unprotected kid nonce : byte_string kid -> byte_string nonce ->
  encodes (wire (CMap (kid_entries kid ++ iv_entries nonce))) (EncodeUnprotectedMap kid nonce None).
Proof.
  intros Hk Hn. unfold EncodeUnprotectedMap.
  eapply encodes_eq; [|eapply encodes_bind; [by apply encodes_partial_none|apply encodes_id]].
  by rewrite app_nil_r, partial_map_none.
Qed.

(** ** Recipients *)

Definition ephemeral_map (curve : Z) (x y : list Z) : cbor :=
  CMap [(CInt COSE_KEY_KTY, CInt COSE_KEY_KTY_EC); (CInt COSE_EC_KEY_CRV, CInt curve);
        (CInt COSE_EC_KEY_X, CBytes x); (CInt COSE_EC_KEY_Y, CBytes y)].

(** The recipients that are written: those whose key is direct or wrapped, and those
    with an ephemeral key. *)
Definition symmetric_item (alg : Z) (kid content : list Z) : cbor :=
  CArray [CBytes []; CMap [(CInt COSE_HDR_ALG, CInt alg); (CInt COSE_HDR_KID, CBytes kid)]; CBytes content].
Definition ecdh_item (kid : list Z) (curve : Z) (x y content : list Z) : cbor :=
  CArray [protected_item COSE_ALG_ECDH_ES_A256KW;
          CMap [(CInt COSE_HDR_EPHEMERAL_KEY, ephemeral_map curve x y); (CInt COSE_HDR_KID, CBytes kid)]; CBytes content].

Lemma encodes_symmetric alg kid key content : alg = COSE_ALG_A256KW \/ alg = COSE_ALG_DIRECT ->
  byte_string kid -> byte_string content ->
  encodes (wire (symmetric_item alg kid content)) (EncodeRecipient alg kid key content).
Proof.
  intros Ha Hk Hc. assert ((alg =? COSE_ALG_A256KW) || (alg =? COSE_ALG_DIRECT) = true) as E by (destruct Ha as [-> | ->]; done).
  assert (int8 alg) as Ia by (destruct Ha as [-> | ->]; by apply (bool_decide_unpack _)).
  unfold EncodeRecipient. cbv zeta. rewrite E. cbv iota. eapply encodes_eq; [|encodes_step].
  2: { apply (encodes_on_ok (wire (CBytes []))); [|by apply (bool_decide_unpack _); vm_compute]. intros b Hb.
       apply (CBOR_EncodeBytes_enc b []); [done|by cbn]. }
  2: { apply (encodes_sub _ (fun p => p ← encode_int8 COSE_HDR_ALG p; encode_int8 alg p)). encodes_step. }
  unfold symmetric_item. items.
Qed.

Definition is_curve (curve : Z) : Prop := curve = DPS_EC_CURVE_P384 \/ curve = DPS_EC_CURVE_P521.
Definition coordinate (curve : Z) (x : list Z) : Prop := length x = CoordinateSize_EC curve /\ Forall is_byte x.

Lemma curve_size curve : is_curve curve -> (0 < CoordinateSize_EC curve <= 66)%nat.
Proof. by intros [-> | ->]; vm_compute; lia. Qed.
Lemma coordinate_string curve x : is_curve curve -> coordinate curve x -> byte_string x.
Proof. intros Hc [HL Hb]. pose proof (curve_size curve Hc). split; [lia|done]. Qed.

(** A key with a curve and the two coordinates. *)
Record has_public (key : COSE_Key) (curve : Z) (x y : list Z) : Prop := {
  hp_type : ck_type key = COSE_KEY_EC;
  hp_curve : ck_curve key = Some curve;
  hp_x : cells_read (CoordinateSize_EC curve) (ck_x key) = Some x;
  hp_y : cells_read (CoordinateSize_EC curve) (ck_y key) = Some y
}.

Lemma encodes_ecdh kid key curve x y content : has_public key curve x y -> is_curve curve ->
  coordinate curve x -> coordinate curve y -> byte_string kid -> byte_string content ->
  encodes (wire (ecdh_item kid curve x y content)) (EncodeRecipient COSE_ALG_ECDH_ES_A256KW kid (Some key) content).
Proof.
  intros [H1 H2 H3 H4] Hc Hx Hy Hk Hct. pose proof (coordinate_string _ _ Hc Hx). pose proof (coordinate_string _ _ Hc Hy).
  assert (int8 curve) by (destruct Hc as [-> | ->]; by apply (bool_decide_unpack _)).
  assert (int8 COSE_ALG_ECDH_ES_A256KW) by by apply (bool_decide_unpack _).
  unfold EncodeRecipient. cbv zeta. change ((COSE_ALG_ECDH_ES_A256KW =? COSE_ALG_A256KW) || _) with false. cbv iota.
  rewrite Z.eqb_refl. eapply encodes_eq; [|encodes_step; [apply encodes_sub; auto with encodes|]].
  2: { apply encodes_sub. unfold encode_ephemeral. rewrite H1, bool_decide_true by done. cbn [negb].
       rewrite H2. cbn [mbind option_bind]. rewrite H3, H4. cbn [mbind option_bind]. encodes_step. }
  unfold ecdh_item, ephemeral_map. items.
Qed.

(** ** Sizes *)

Lemma sizeof_len_range n : 1 <= CBOR_SIZEOF_LEN n <= 9.
Proof. unfold CBOR_SIZEOF_LEN. repeat case_if; lia. Qed.
Lemma bytes_item_size l : Z.of_nat (length (wire (CBytes l))) = CBOR_SIZEOF_BYTES (Z.of_nat (length l)).
Proof. cbn [wire]. rewrite length_app, Nat2Z.inj_add, cbor_head_sizeof. unfold CBOR_SIZEOF_BYTES. lia. Qed.
Lemma string_item_size l : Z.of_nat (length (wire (CString l))) = CBOR_SIZEOF_STATIC_STRING l.
Proof. cbn [wire]. rewrite length_app, Nat2Z.inj_add, cbor_head_sizeof. unfold CBOR_SIZEOF_STATIC_STRING. lia. Qed.
Lemma protected_item_size alg : int8 alg -> Z.of_nat (length (wire (protected_item alg))) <= SIZEOF_PROTECTED_MAP.
Proof.
  intros Ha. pose proof (protected_map_length alg Ha). unfold protected_item. rewrite bytes_item_size.
  change SIZEOF_PROTECTED_MAP with 6. unfold CBOR_SIZEOF_BYTES, CBOR_SIZEOF_LEN. rewrite (proj2 (Z.ltb_lt _ 24)) by lia. lia.
Qed.
Lemma int_item_size n : int8 n -> Z.of_nat (length (wire (CInt n))) <= CBOR_SIZEOF 1.
Proof. intros H. pose proof (int8_length n H). change (CBOR_SIZEOF 1) with 2. cbn [wire]. lia. Qed.
Lemma head_size maj n : Z.of_nat (length (cbor_head maj n)) = CBOR_SIZEOF_LEN n.
Proof. apply cbor_head_sizeof. Qed.

(** ** The structures that are signed, encrypted and derived from *)

Definition aad_item (tag alg : Z) (aad : list Z) : cbor :=
  CArray [CString (if tag =? COSE_TAG_ENCRYPT0 then ENCRYPT0 else ENCRYPT); protected_item alg; CBytes aad].
Definition sig_item (tag alg sigAlg : Z) (aad payload : list Z) : cbor :=
  CArray (if tag =? COSE_TAG_SIGN1 then [CString SIGNATURE1; protected_item alg; CBytes aad; CBytes payload]
          else [CString COUNTER_SIGNATURE; protected_item alg; protected_item sigAlg; CBytes aad; CBytes payload]).
Definition party_item : cbor := CArray [CNull; CNull; CNull].
Definition kdf_item (alg keyLen recipientAlg : Z) : cbor :=
  CArray [CInt alg; party_item; party_item; CArray [CInt (keyLen * 8); protected_item recipientAlg]].

Lemma encodes_party : encodes (wire party_item) EncodePartyInfo.
Proof. eapply encodes_eq; [|unfold EncodePartyInfo; encodes_step]. reflexivity. Qed.

Section Cose.
Context `{Env : Environment}.
Context (Hmem : forall k, env_alloc k = true).
Context (Hbytes : forall k size, length (env_bytes k size) = size /\ Forall is_byte (env_bytes k size)).

Lemma wp_tx_new L (Q : DPS_Status * DPS_TxBuffer -> DPS_Node -> Prop) n :
  0 < L < 2 ^ 32 -> (forall b k, wrote (Z.to_nat L) [] (DPS_OK, b) -> Q (DPS_OK, b) (n <| n_allocs := k |>)) ->
  wp (tx_new L) Q n.
Proof using Hmem Hbytes.
  intros HL HQ. unfold tx_new. wp_go. apply wp_malloc_any. rewrite Hmem. wp_go.
  pose proof (tx_init_wrote 1 ltac:(lia) Hbytes (n_allocs n) L HL (Hmem _)) as H. revert H.
  destruct (DPS_TxBufferInit _ _ _) as [ret b]. intros H.
  pose proof (wr_ok _ _ _ H) as Hr. cbn [fst] in Hr. subst ret. by apply HQ.
Qed.

(** A structure in a buffer of its own. *)
Lemma wp_build L f bs (Q : DPS_Status * DPS_TxBuffer -> DPS_Node -> Prop) n :
  0 < L < 2 ^ 32 -> encodes bs f -> Z.of_nat (length bs) <= L ->
  (forall b k, tx_wf b -> tx_written b = bs -> Q (DPS_OK, b) (n <| n_allocs := k |>)) ->
  wp ('(ret, b) ← tx_new L; lift (f (ret, b))) Q n.
Proof using Hmem Hbytes.
  intros HL Hf Hbs HQ. wp_go. apply wp_tx_new; [done|]. intros b k H. wp_go.
  destruct (Hf _ _ _ H) as (b' & E & H'); [cbn [length]; lia|]. eapply wp_lift; [exact E|].
  apply HQ; [apply H'|apply H'].
Qed.

Lemma wp_EncodeAAD tag alg aad (Q : DPS_Status * DPS_TxBuffer -> DPS_Node -> Prop) n :
  tag = COSE_TAG_ENCRYPT0 \/ tag = COSE_TAG_ENCRYPT -> int8 alg -> byte_string aad -> Z.of_nat (length aad) < 2 ^ 31 ->
  (forall b k, tx_wf b -> tx_written b = wire (aad_item tag alg aad) -> Q (DPS_OK, b) (n <| n_allocs := k |>)) ->
  wp (EncodeAAD tag alg aad) Q n.
Proof using Hmem Hbytes.
  intros Ht Ha Haad HL HQ. unfold EncodeAAD. cbv zeta.
  assert ((tag =? COSE_TAG_ENCRYPT0) || (tag =? COSE_TAG_ENCRYPT) = true) as -> by (destruct Ht as [-> | ->]; done).
  unfold aad_item in HQ. set (context := if tag =? COSE_TAG_ENCRYPT0 then ENCRYPT0 else ENCRYPT) in *.
  assert (Z.of_nat (length context) <= 16 /\ Forall is_byte context) as [Hc Hcb].
  { unfold context. case_if; split; [cbn; lia|by apply (bool_decide_unpack _); vm_compute|cbn; lia|by apply (bool_decide_unpack _); vm_compute]. }
  pose proof (sizeof_len_range (Z.of_nat (length aad))). pose proof (sizeof_len_range (Z.of_nat (length context))).
  pose proof (protected_item_size alg Ha) as Hp. change SIZEOF_PROTECTED_MAP with 6 in *. change (CBOR_SIZEOF_LEN 3) with 1.
  eapply (wp_build _ (fun p => p ← on_ok (fun b => CBOR_EncodeArray b 3) p;
    p ← on_ok (fun b => CBOR_EncodeString b (Some context)) p; p ← EncodeProtectedMap alg p; encode_bytes aad p)).
  - unfold CBOR_SIZEOF_BYTES, CBOR_SIZEOF_STATIC_STRING. lia.
  - eapply encodes_eq; [|encodes_step; apply encodes_string; [unfold CBOR_MAX_STRING_LEN; lia|done]]. reflexivity.
  - rewrite !length_app, !Nat2Z.inj_add, string_item_size, bytes_item_size, head_size. change (CBOR_SIZEOF_LEN 3) with 1. lia.
  - intros b k Hb Hw. apply HQ; [done|]. rewrite Hw. items.
Qed.

(** What is signed, up to the payload, which follows in its own buffers. *)
Lemma wp_EncodePartialSig tag alg sigAlg aad payload (Q : DPS_Status * DPS_TxBuffer -> DPS_Node -> Prop) n :
  tag = COSE_TAG_ENCRYPT0 \/ tag = COSE_TAG_ENCRYPT \/ tag = COSE_TAG_SIGN1 -> int8 alg -> int8 sigAlg ->
  byte_string aad -> Z.of_nat (length aad) + Z.of_nat (length payload) < 2 ^ 31 ->
  (forall b k, tx_wf b -> tx_written b ++ payload = wire (sig_item tag alg sigAlg aad payload) ->
     Q (DPS_OK, b) (n <| n_allocs := k |>)) ->
  wp (EncodePartialSig tag alg sigAlg aad (Z.of_nat (length payload))) Q n.
Proof using Hmem Hbytes.
  intros Ht Ha Hs Haad HL HQ. unfold EncodePartialSig. cbv zeta.
  assert ((tag =? COSE_TAG_ENCRYPT0) || (tag =? COSE_TAG_ENCRYPT) || (tag =? COSE_TAG_SIGN1) = true) as ->
    by (destruct Ht as [-> | [-> | ->]]; done).
  pose proof (sizeof_len_range (Z.of_nat (length aad))). pose proof (sizeof_len_range (Z.of_nat (length payload))).
  pose proof (protected_item_size alg Ha) as Hp. pose proof (protected_item_size sigAlg Hs) as Hq.
  change SIZEOF_PROTECTED_MAP with 6 in *. unfold sig_item in HQ. destruct (tag =? COSE_TAG_SIGN1).
  - change (CBOR_SIZEOF_LEN 4) with 1. change (CBOR_SIZEOF_STATIC_STRING SIGNATURE1) with 11.
    eapply (wp_build _ (fun p => p ← on_ok (fun b => CBOR_EncodeArray b 4) p;
      p ← on_ok (fun b => CBOR_EncodeString b (Some SIGNATURE1)) p; p ← EncodeProtectedMap alg p; p ← Some p;
      p ← encode_bytes aad p; on_ok (fun b => CBOR_EncodeLength b (Z.of_nat (length payload)) CBOR_BYTES) p)).
    + unfold CBOR_SIZEOF_BYTES. lia.
    + encodes_step; [by apply encodes_string; [|apply (bool_decide_unpack _); vm_compute]|apply encodes_id].
    + rewrite !length_app, !Nat2Z.inj_add, string_item_size, bytes_item_size, !head_size.
      change (CBOR_SIZEOF_STATIC_STRING SIGNATURE1) with 11. change (CBOR_SIZEOF_LEN 4) with 1.
      unfold CBOR_SIZEOF_BYTES. cbn [length]. lia.
    + intros b k Hb Hw. apply HQ; [done|]. rewrite Hw. items.
  - change (CBOR_SIZEOF_LEN 5) with 1. change (CBOR_SIZEOF_STATIC_STRING COUNTER_SIGNATURE) with 17.
    eapply (wp_build _ (fun p => p ← on_ok (fun b => CBOR_EncodeArray b 5) p;
      p ← on_ok (fun b => CBOR_EncodeString b (Some COUNTER_SIGNATURE)) p; p ← EncodeProtectedMap alg p;
      p ← EncodeProtectedMap sigAlg p; p ← encode_bytes aad p;
      on_ok (fun b => CBOR_EncodeLength b (Z.of_nat (length payload)) CBOR_BYTES) p)).
    + unfold CBOR_SIZEOF_BYTES. lia.
    + encodes_step. by apply encodes_string; [|apply (bool_decide_unpack _); vm_compute].
    + rewrite !length_app, !Nat2Z.inj_add, string_item_size, bytes_item_size, !head_size.
      change (CBOR_SIZEOF_STATIC_STRING COUNTER_SIGNATURE) with 17. change (CBOR_SIZEOF_LEN 5) with 1.
      unfold CBOR_SIZEOF_BYTES. lia.
    + intros b k Hb Hw. apply HQ; [done|]. rewrite Hw. items.
Qed.

Lemma wp_EncodeKDFContext alg keyLen recipientAlg (Q : DPS_Status * DPS_TxBuffer -> DPS_Node -> Prop) n :
  int8 alg -> int8 recipientAlg -> 0 <= keyLen < 256 ->
  (forall b k, tx_wf b -> tx_written b = wire (kdf_item alg keyLen recipientAlg) -> Q (DPS_OK, b) (n <| n_allocs := k |>)) ->
  wp (EncodeKDFContext alg keyLen recipientAlg) Q n.
Proof using Hmem Hbytes.
  intros Ha Hr Hk HQ. unfold EncodeKDFContext.
  pose proof (protected_item_size recipientAlg Hr) as Hp. pose proof (int_item_size alg Ha) as Hi.
  change (CBOR_SIZEOF_LEN 4 + _ + _ + _ + _ + _ + _) with 21. change SIZEOF_PROTECTED_MAP with 6 in *. change (CBOR_SIZEOF 1) with 2 in *.
  eapply (wp_build _ (fun p => p ← on_ok (fun b => CBOR_EncodeArray b 4) p; p ← encode_int8 alg p;
    p ← EncodePartyInfo p; p ← EncodePartyInfo p; p ← on_ok (fun b => CBOR_EncodeArray b 2) p;
    p ← on_ok (fun b => CBOR_EncodeUint b (keyLen * 8)) p; EncodeProtectedMap recipientAlg p)).
  - lia.
  - encodes_step; [apply encodes_party|apply encodes_party|apply encodes_uint; lia].
  - rewrite !length_app, !Nat2Z.inj_add. change (Z.of_nat (length (cbor_head CBOR_ARRAY _))) with 1.
    change (Z.of_nat (length (wire party_item))) with 4. cbn [wire]. rewrite (cbor_int_pos (keyLen * 8)) by lia.
    pose proof (head_len16 CBOR_UINT (keyLen * 8) ltac:(lia)). cbn [wire] in Hi, Hp. lia.
  - intros b k Hb Hw. apply HQ; [done|]. rewrite Hw. unfold kdf_item. items.
Qed.
End Cose.
