(* ===== verification/CoseDecode.v ===== *)
(** * What the decoders of COSE read

    [reads bs x d] says that the decoder [d] takes the bytes [bs] from the front of a
    buffer and gives [x].  It is closed under the composition of decoders. *)
From S2P Require Import Prelude Status Buffer Float Cbor CborProofs CborValues BitVec BitVecSerial Uuid Addr Node.
From S2P Require Import SubMsg SubDecode Tls Keys TlsLaws Cose PubMsgProofs CoseProofs.
From stdpp Require Import gmap.
#[local] Open Scope Z_scope.
#[local] Set Warnings "-clear-no-such-hyp".

#[local] Notation "x ←? m ; k" := (try m (fun x => k))
  (at level 20, m at level 100, k at level 200, only parsing).
#[local] Notation "' x ←? m ; k" := (try m (fun x => k))
  (at level 20, x pattern, m at level 100, k at level 200, only parsing).

Definition reads {A} (bs : list Z) (x : A) (d : DPS_RxBuffer -> M (DPS_Status + A * DPS_RxBuffer)) : Prop :=
  forall b tl n, rx_wf b -> rx_rest b = bs ++ tl ->
  exists b', d b n = Some (inr (x, b'), n) /\ rx_wf b' /\ rx_rest b' = tl.

Lemma try_run {A B} (m : M (DPS_Status + A)) (f : A -> M (DPS_Status + B)) n x n' :
  m n = Some (inr x, n') -> try m f n = f x n'.
Proof. intros E. unfold try, mbind, M_bind. by rewrite E. Qed.

Lemma reads_bind {A B} bs1 bs2 (x : A) (y : B) d1 d2 :
  reads bs1 x d1 -> reads bs2 y (d2 x) -> reads (bs1 ++ bs2) y (fun b => '(x, b) ←? d1 b; d2 x b).
Proof.
  intros H1 H2 b tl n Hb E. rewrite <- app_assoc in E.
  destruct (H1 b (bs2 ++ tl) n Hb E) as (b1 & E1 & Hb1 & R1). rewrite (try_run _ _ _ _ _ E1). cbv beta iota.
  by apply H2.
Qed.
Lemma reads_ret {A} (x : A) : reads [] x (fun b => mret (inr (x, b))).
Proof. intros b tl n Hb E. by exists b. Qed.
Lemma reads_ext {A} bs (x : A) d d' : (forall b, d b = d' b) -> reads bs x d -> reads bs x d'.
Proof. intros E H b tl n. rewrite <- E. apply H. Qed.
Lemma reads_eq {A} bs bs' (x : A) d : bs = bs' -> reads bs x d -> reads bs' x d.
Proof. by intros ->. Qed.

(** A decoder of the codec that succeeds. *)
Lemma reads_with {A} bs (x : A) (f : DPS_RxBuffer -> option (DPS_Status * A * DPS_RxBuffer)) :
  (forall b tl, rx_wf b -> rx_rest b = bs ++ tl -> f b = Some (DPS_OK, x, rx_skip b (length bs))) ->
  reads bs x (fun b => decode_with (f b)).
Proof.
  intros Hf b tl n Hb E. exists (rx_skip b (length bs)).
  split; [|by split; [eapply rx_skip_app_wf|eapply rx_rest_skip_app]].
  unfold decode_with, mbind, M_bind, lift. by rewrite (Hf b tl Hb E).
Qed.

Lemma reads_map n : 0 <= n < 2 ^ 32 -> reads (cbor_head CBOR_MAP n) n (fun b => decode_with (CBOR_DecodeMap b 0)).
Proof.
  intros Hn. apply reads_with. intros b tl Hb E. unfold CBOR_DecodeMap.
  rewrite (DecodeUint_spec b CBOR_MAP n 0 tl Hb) by (first [major|lia|done]). cbn [mbind option_bind].
  change (is_OK DPS_OK) with true. cbv iota.
  unfold SIZE_MAX. destruct (Z.gtb_spec n 18446744073709551615); [lia|]. by rewrite u64_small by lia.
Qed.
Lemma reads_array n : 0 <= n < 2 ^ 32 -> reads (cbor_head CBOR_ARRAY n) n (fun b => decode_with (CBOR_DecodeArray b 0)).
Proof.
  intros Hn. apply reads_with. intros b tl Hb E. unfold CBOR_DecodeArray.
  rewrite (DecodeUint_spec b CBOR_ARRAY n 0 tl Hb) by (first [major|lia|done]). cbn [mbind option_bind].
  change (is_OK DPS_OK) with true. cbv iota.
  unfold SIZE_MAX. destruct (Z.gtb_spec n 18446744073709551615); [lia|]. by rewrite u64_small by lia.
Qed.
Lemma s8_small n : int8 n -> s8 n = n.
Proof.
  unfold int8, s8, u8. intros H. change (2 ^ 8) with 256. change (2 ^ 7) with 128.
  destruct (Z.le_gt_cases 0 n).
  - rewrite Z.mod_small by lia. by rewrite (proj2 (Z.ltb_lt _ _)) by lia.
  - replace (n mod 256) with (n + 256) by (apply (Z.mod_unique n 256 (-1)); lia).
    rewrite (proj2 (Z.ltb_ge _ _)) by lia. lia.
Qed.
Lemma reads_int8 n n0 : int8 n -> reads (wire (CInt n)) n (fun b => decode_with (CBOR_DecodeInt8 b n0)).
Proof.
  intros Hn. apply reads_with. intros b tl Hb E. unfold CBOR_DecodeInt8. pose proof (s8_small n Hn) as E8. unfold int8 in Hn.
  rewrite (CBOR_DecodeInt_spec b n 0 tl Hb) by (first [done|lia]). cbn [mbind option_bind].
  change (is_OK DPS_OK) with true. unfold INT8_MIN, INT8_MAX.
  rewrite (proj2 (Z.ltb_ge n (-128))) by lia. destruct (Z.gtb_spec n 127); [lia|]. cbn [orb andb]. by rewrite E8.
Qed.
Lemma reads_int n : - 2 ^ 63 <= n < 2 ^ 63 -> reads (wire (CInt n)) n (fun b => decode_with (CBOR_DecodeInt b 0)).
Proof. intros Hn. apply reads_with. intros b tl Hb E. by apply (CBOR_DecodeInt_spec b n 0 tl Hb). Qed.

Lemma reads_bytes l : Z.of_nat (length l) < 2 ^ 32 -> reads (wire (CBytes l)) l decode_bytes.
Proof.
  intros Hl b tl n Hb E. cbn [wire] in E. set (h := cbor_head CBOR_BYTES (Z.of_nat (length l))) in *.
  exists (rx_skip b (length (h ++ l))).
  split; [|split; [eapply (rx_skip_app_wf _ _ tl); [done|exact E]|eapply (rx_rest_skip_app _ _ tl); exact E]].
  rewrite <- app_assoc in E. unfold decode_bytes, mbind, M_bind, lift.
  rewrite (CBOR_DecodeBytes_spec b l tl Hb Hl E). cbn [mbind option_bind]. change (is_OK DPS_OK) with true. cbn [negb].
  fold h. by rewrite (decoded_bytes_spec b h l tl Hb E).
Qed.

(** ** Headers *)

Lemma reads_protected alg : int8 alg -> reads (wire (protected_item alg)) alg DecodeProtectedMap.
Proof.
  intros Ha. pose proof (protected_map_length alg Ha) as Hl. pose proof (protected_map_bytes alg Ha) as Hm.
  unfold DecodeProtectedMap, protected_item. rewrite <- (app_nil_r (wire _)). set (bs := wire (protected_map alg)) in *.
  eapply reads_bind; [apply reads_bytes; lia|]. cbv beta iota.
  assert (is_nil bs = false) as -> by (destruct bs; [cbn in Hl; lia|done]).
  intros b tl n Hb E. unfold DPS_RxBufferInit. rewrite decide_False by lia. cbn [snd].
  assert (rx_wf (mkRx bs (length bs) 0)) as Hw by (unfold rx_wf; cbn [rx_pos rx_eod rx_mem]; split_and!; [lia|lia|lia|done]).
  assert (rx_rest (mkRx bs (length bs) 0) = cbor_head CBOR_MAP 1 ++ wire (CInt COSE_HDR_ALG) ++ wire (CInt alg) ++ []) as Er.
  { unfold rx_rest. cbn [rx_eod rx_pos rx_mem]. rewrite Nat.sub_0_r, drop_0, take_ge by lia. unfold bs, protected_map. items. }
  destruct (reads_map 1 ltac:(lia) _ _ n Hw Er) as (b1 & E1 & W1 & R1). rewrite (try_run _ _ _ _ _ E1). cbv beta iota.
  change (negb (1 =? 1)) with false. cbv iota.
  destruct (reads_int COSE_HDR_ALG ltac:(by unfold COSE_HDR_ALG; lia) _ _ n W1 R1) as (b2 & E2 & W2 & R2).
  rewrite (try_run _ _ _ _ _ E2). cbv beta iota. rewrite Z.eqb_refl. cbn [negb].
  destruct (reads_int8 alg COSE_ALG_RESERVED Ha _ _ n W2 R2) as (b3 & E3 & W3 & R3).
  rewrite (try_run _ _ _ _ _ E3). cbv beta iota. exists b. by split.
Qed.

Lemma reads_no_protected : reads (wire (CBytes [])) COSE_ALG_RESERVED DecodeProtectedMap.
Proof.
  unfold DecodeProtectedMap. rewrite <- (app_nil_r (wire _)).
  eapply reads_bind; [by apply reads_bytes|]. cbv beta iota. apply reads_ret.
Qed.

(** *** Cells *)

Definition over (cs : list (option Z)) (bs : list Z) : list (option Z) := map Some bs ++ drop (length bs) cs.

Lemma cells_read_of n bs rest : length bs = n -> cells_read n (map Some bs ++ rest) = Some bs.
Proof.
  intros <-. unfold cells_read. rewrite decide_True by (rewrite length_app, length_map; lia).
  rewrite take_app_length' by (by rewrite length_map).
  by apply (mapM_fmap_Some id Some bs).
Qed.
Lemma store_over cs bs n : bs <> [] -> (length bs <= length cs)%nat -> store_cells cs bs n = Some (inr (over cs bs), n).
Proof.
  intros Hne H. unfold store_cells. destruct bs as [|x bs]; [done|]. cbn [is_nil].
  unfold cells_write. by rewrite decide_True.
Qed.
Lemma over_length cs bs : (length bs <= length cs)%nat -> length (over cs bs) = length cs.
Proof. intros H. unfold over. rewrite length_app, length_map, length_drop. lia. Qed.

(** *** Ephemeral keys *)

Definition decoded_key (key : COSE_Key) (curve : Z) (x y : list Z) : COSE_Key :=
  mkCKey COSE_KEY_EC (ck_key key) (Some curve) (over (ck_x key) x) (over (ck_y key) y) (ck_d key).

Lemma reads_coord curve cs x : is_curve curve -> coordinate curve x -> length cs = EC_MAX_COORD_LEN ->
  reads (wire (CBytes x)) (over cs x) (decode_coord (CoordinateSize_EC curve) cs).
Proof.
  intros Hc [HL Hx] Hcs. pose proof (curve_size curve Hc) as Hs. unfold decode_coord. rewrite <- (app_nil_r (wire _)).
  eapply reads_bind; [apply reads_bytes; lia|]. cbv beta iota. rewrite bool_decide_true by done. cbn [negb].
  intros b tl n Hb E. rewrite (try_run _ _ _ (over cs x) n); [by exists b|].
  apply store_over; [intros ->; cbn in HL; lia|unfold EC_MAX_COORD_LEN in *; lia].
Qed.

(** A look at the next item does not move. *)
Lemma peek_bytes l b tl n : Z.of_nat (length l) < 2 ^ 31 -> rx_wf b -> rx_rest b = wire (CBytes l) ++ tl ->
  exists info, (lift (CBOR_Peek b (Some 0) None) : M _) n = Some ((DPS_OK, Some CBOR_BYTES, info), n).
Proof.
  intros Hl Hb E. cbn [wire] in E. rewrite <- app_assoc in E. unfold lift, CBOR_Peek.
  pose proof (rx_avail_app b _ _ Hb E) as Ha. pose proof (cbor_head_sizeof CBOR_BYTES (Z.of_nat (length l))) as Hh.
  pose proof (sizeof_len_range (Z.of_nat (length l))). rewrite length_app, Nat2Z.inj_add in Ha.
  rewrite (proj2 (Z.ltb_ge _ 1)) by lia.
  rewrite (PeekUint_spec b CBOR_BYTES (Z.of_nat (length l)) 0 0 0 (l ++ tl) Hb) by (first [major|lia|done]).
  cbn [mbind option_bind]. destruct (Z.geb_spec (Z.of_nat (length l)) (DPS_RxBufferAvail b)); [lia|].
  rewrite andb_false_r. by eexists.
Qed.
Lemma peek_int i b tl n : int8 i -> rx_wf b -> rx_rest b = wire (CInt i) ++ tl ->
  exists maj info, (lift (CBOR_Peek b (Some 0) None) : M _) n = Some ((DPS_OK, Some maj, info), n) /\ maj <> CBOR_STRING.
Proof.
  intros Hi Hb E. unfold lift, CBOR_Peek. unfold int8 in Hi. cbn [wire] in E. unfold cbor_int in E.
  assert (exists maj k, (maj = CBOR_UINT \/ maj = CBOR_NEG) /\ 0 <= k < 256 /\ rx_rest b = cbor_head maj k ++ tl)
    as (maj & k & Hm & Hk & E').
  { destruct (Z.geb_spec i 0); do 2 eexists; (split; [|split; [|exact E]]); [by left|lia|by right|lia]. }
  pose proof (rx_avail_app b _ _ Hb E') as Ha. pose proof (cbor_head_sizeof maj k) as Hh. pose proof (sizeof_len_range k).
  rewrite (proj2 (Z.ltb_ge _ 1)) by lia.
  rewrite (PeekUint_spec b maj k 0 0 0 tl Hb) by (first [done|lia|destruct Hm as [-> | ->]; major]).
  cbn [mbind option_bind].
  assert (MAJOR_ENCODES_LENGTH maj = false) as -> by (by destruct Hm as [-> | ->]).
  do 2 eexists. split; [done|]. by destruct Hm as [-> | ->].
Qed.

(** A loop that has enough fuel in the bytes it reads. *)
Lemma reads_fuel {A} bs (x : A) k (d : nat -> DPS_RxBuffer -> M (DPS_Status + A * DPS_RxBuffer)) :
  (forall fuel, (k <= fuel)%nat -> reads bs x (d fuel)) -> (k <= S (length bs))%nat ->
  reads bs x (fun b => d (skip_fuel b) b).
Proof.
  intros H Hk b tl n Hb E. apply (H (skip_fuel b)); [|done|done].
  unfold skip_fuel. rewrite (rx_avail_app b bs tl Hb E). lia.
Qed.

Lemma reads_key_step fuel size mapKey ebs csz csz' key key' rest y :
  int8 mapKey -> size <> 1 -> reads ebs (key', csz') (decode_key_entry mapKey csz key) ->
  reads rest y (decode_key_entries fuel (size - 1) COSE_KEY_KTY_EC csz' key') ->
  reads (wire (CInt mapKey) ++ ebs ++ rest) y (decode_key_entries (S fuel) size COSE_KEY_KTY_EC csz key).
Proof.
  intros Hm Hs He Hr. cbn [decode_key_entries].
  eapply reads_ext; [intros b; by rewrite (proj2 (Z.eqb_neq (size - 1) 0)) by lia|].
  eapply reads_bind; [by apply reads_int8|]. cbv beta iota. change (negb (COSE_KEY_KTY_EC =? COSE_KEY_KTY_EC)) with false.
  cbv iota. by eapply reads_bind.
Qed.

Lemma reads_curve key curve csz : is_curve curve ->
  reads (wire (CInt curve))
    (mkCKey COSE_KEY_EC (ck_key key) (Some curve) (ck_x key) (ck_y key) (ck_d key), CoordinateSize_EC curve)
    (decode_key_entry COSE_EC_KEY_CRV csz key).
Proof.
  intros Hc b tl n Hb E. assert (int8 curve) as Hi by (destruct Hc as [-> | ->]; by apply (bool_decide_unpack _)).
  unfold decode_key_entry. rewrite Z.eqb_refl.
  destruct (peek_int curve b tl n Hi Hb E) as (maj & info & Ep & Hmaj). unfold mbind at 1, M_bind at 1. rewrite Ep.
  cbn [mbind option_bind]. change (is_OK DPS_OK) with true. cbn [negb from_option id].
  rewrite (proj2 (Z.eqb_neq maj CBOR_STRING)) by done.
  destruct (reads_int8 curve 0 Hi b tl n Hb E) as (b' & E' & W & R). rewrite (try_run _ _ _ _ _ E'). cbv beta iota.
  exists b'. split; [|done]. destruct Hc as [-> | ->]; reflexivity.
Qed.

Lemma reads_x key curve x : is_curve curve -> coordinate curve x -> length (ck_x key) = EC_MAX_COORD_LEN ->
  reads (wire (CBytes x))
    (mkCKey COSE_KEY_EC (ck_key key) (ck_curve key) (over (ck_x key) x) (ck_y key) (ck_d key), CoordinateSize_EC curve)
    (decode_key_entry COSE_EC_KEY_X (CoordinateSize_EC curve) key).
Proof.
  intros Hc Hx Hk. unfold decode_key_entry. cbv beta iota delta [COSE_EC_KEY_X COSE_EC_KEY_CRV Z.eqb Pos.eqb].
  rewrite <- (app_nil_r (wire _)). eapply reads_bind; [by apply reads_coord|]. cbv beta iota. apply reads_ret.
Qed.

Lemma reads_y key curve y : is_curve curve -> coordinate curve y -> length (ck_y key) = EC_MAX_COORD_LEN ->
  reads (wire (CBytes y))
    (mkCKey COSE_KEY_EC (ck_key key) (ck_curve key) (ck_x key) (over (ck_y key) y) (ck_d key), CoordinateSize_EC curve)
    (decode_key_entry COSE_EC_KEY_Y (CoordinateSize_EC curve) key).
Proof.
  intros Hc Hy Hk b tl n Hb E. pose proof (curve_size curve Hc). unfold decode_key_entry.
  change (COSE_EC_KEY_Y =? COSE_EC_KEY_CRV) with false. change (COSE_EC_KEY_Y =? COSE_EC_KEY_X) with false.
  rewrite Z.eqb_refl. cbv iota.
  destruct (peek_bytes y b tl n) as (info & Ep); [destruct Hy; lia|done|done|].
  unfold mbind at 1, M_bind at 1. rewrite Ep. cbn [mbind option_bind]. change (is_OK DPS_OK) with true. cbn [negb from_option id].
  change (CBOR_BYTES =? CBOR_BYTES) with true. cbn [negb].
  destruct (reads_coord curve (ck_y key) y Hc Hy Hk b tl n Hb E) as (b' & E' & W & R). rewrite (try_run _ _ _ _ _ E'). by exists b'.
Qed.

Lemma reads_ephemeral key curve x y : is_curve curve -> coordinate curve x -> coordinate curve y ->
  length (ck_x key) = EC_MAX_COORD_LEN -> length (ck_y key) = EC_MAX_COORD_LEN ->
  reads (wire (ephemeral_map curve x y)) (decoded_key key curve x y) (DecodeKey key).
Proof.
  intros Hc Hx Hy Kx Ky. eapply (reads_eq (cbor_head CBOR_MAP 4 ++ wire (CInt COSE_KEY_KTY) ++ wire (CInt COSE_KEY_KTY_EC) ++
    wire (CInt COSE_EC_KEY_CRV) ++ wire (CInt curve) ++ wire (CInt COSE_EC_KEY_X) ++ wire (CBytes x) ++
    wire (CInt COSE_EC_KEY_Y) ++ wire (CBytes y) ++ [])); [unfold ephemeral_map; items|].
  unfold DecodeKey. eapply reads_bind; [by apply reads_map|]. cbv beta iota. change (4 <? 1) with false. cbv iota.
  eapply reads_bind; [by apply reads_int8; apply (bool_decide_unpack _)|]. cbv beta iota. rewrite Z.eqb_refl. cbn [negb].
  eapply reads_bind; [by apply reads_int8; apply (bool_decide_unpack _)|]. cbv beta iota.
  eapply (reads_fuel _ _ 4 (fun fuel b => decode_key_entries fuel 4 COSE_KEY_KTY_EC 0 key b));
    [|rewrite !length_app; change (length (wire (CInt COSE_EC_KEY_CRV))) with 1%nat;
      change (length (wire (CInt COSE_EC_KEY_X))) with 1%nat; change (length (wire (CInt COSE_EC_KEY_Y))) with 1%nat; lia].
  intros fuel Hf. destruct fuel as [|[|[|fuel]]]; [lia|lia|lia|].
  eapply reads_key_step; [by apply (bool_decide_unpack _)|done|by apply reads_curve|].
  eapply reads_key_step; [by apply (bool_decide_unpack _)|done|by apply reads_x|].
  eapply reads_key_step; [by apply (bool_decide_unpack _)|done|by apply reads_y|].
  cbn [ck_key ck_curve ck_x ck_y ck_d]. destruct fuel; apply reads_ret.
Qed.

(** *** The entries of an unprotected map *)

Section Entries.
Context (sub : Unprotected -> DPS_RxBuffer -> M (DPS_Status + Unprotected * DPS_RxBuffer)).

Lemma reads_entry fuel size k ebs u u' rest y : int8 k -> size <> 0 ->
  reads ebs u' (decode_entry sub k u) -> reads rest y (decode_entries sub fuel (size - 1) u') ->
  reads (wire (CInt k) ++ ebs ++ rest) y (decode_entries sub (S fuel) size u).
Proof.
  intros Hk Hs He Hr. cbn [decode_entries].
  eapply reads_ext; [intros b; by rewrite (proj2 (Z.eqb_neq size 0)) by done|].
  eapply reads_bind; [by apply reads_int8|]. cbv beta iota. by eapply reads_bind.
Qed.
Lemma reads_end fuel u : reads [] u (decode_entries sub fuel 0 u).
Proof. destruct fuel; apply reads_ret. Qed.

Lemma reads_kid u v kid : um_kid u = Some v -> Z.of_nat (length kid) < 2 ^ 32 ->
  reads (wire (CBytes kid)) (mkUnprot (um_alg u) (Some (Some kid)) (um_nonce u) (um_sig u) (um_key u))
    (decode_entry sub COSE_HDR_KID u).
Proof.
  intros Hu Hl. unfold decode_entry. change (COSE_HDR_KID =? COSE_HDR_ALG) with false. rewrite Z.eqb_refl, Hu. cbv iota.
  rewrite <- (app_nil_r (wire _)). eapply reads_bind; [by apply reads_bytes|]. cbv beta iota. apply reads_ret.
Qed.
Lemma reads_alg u v alg : um_alg u = Some v -> int8 alg ->
  reads (wire (CInt alg)) (mkUnprot (Some alg) (um_kid u) (um_nonce u) (um_sig u) (um_key u))
    (decode_entry sub COSE_HDR_ALG u).
Proof.
  intros Hu Ha. unfold decode_entry. rewrite Z.eqb_refl, Hu. cbv iota.
  rewrite <- (app_nil_r (wire _)). eapply reads_bind; [by apply reads_int8|]. cbv beta iota. apply reads_ret.
Qed.
Lemma reads_iv u nonce : um_nonce u = Some (blank COSE_NONCE_LEN) -> length nonce = COSE_NONCE_LEN ->
  reads (wire (CBytes nonce)) (mkUnprot (um_alg u) (um_kid u) (Some (map Some nonce)) (um_sig u) (um_key u))
    (decode_entry sub COSE_HDR_IV u).
Proof.
  intros Hu Hl. unfold decode_entry. change (COSE_HDR_IV =? COSE_HDR_ALG) with false.
  change (COSE_HDR_IV =? COSE_HDR_KID) with false. rewrite Z.eqb_refl, Hu. cbv iota.
  rewrite <- (app_nil_r (wire _)). eapply reads_bind; [apply reads_bytes; rewrite Hl; by cbn|]. cbv beta iota.
  intros b tl n Hb E. rewrite (try_run _ _ _ (map Some nonce) n); [by exists b|].
  rewrite store_over; [|intros ->; done|unfold blank; rewrite length_replicate; lia].
  unfold over. by rewrite Hl, drop_ge, app_nil_r.
Qed.
Lemma reads_ephemeral_entry u key curve x y : um_key u = Some key -> is_curve curve -> coordinate curve x ->
  coordinate curve y -> length (ck_x key) = EC_MAX_COORD_LEN -> length (ck_y key) = EC_MAX_COORD_LEN ->
  reads (wire (ephemeral_map curve x y))
    (mkUnprot (um_alg u) (um_kid u) (um_nonce u) (um_sig u) (Some (decoded_key key curve x y)))
    (decode_entry sub COSE_HDR_EPHEMERAL_KEY u).
Proof.
  intros Hu Hc Hx Hy Kx Ky. unfold decode_entry. change (COSE_HDR_EPHEMERAL_KEY =? COSE_HDR_ALG) with false.
  change (COSE_HDR_EPHEMERAL_KEY =? COSE_HDR_KID) with false. change (COSE_HDR_EPHEMERAL_KEY =? COSE_HDR_IV) with false.
  change (COSE_HDR_EPHEMERAL_KEY =? COSE_HDR_COUNTER_SIGNATURE) with false. rewrite Z.eqb_refl, Hu. cbv iota.
  rewrite <- (app_nil_r (wire _)). eapply reads_bind; [by apply reads_ephemeral|]. cbv beta iota. apply reads_ret.
Qed.
End Entries.

Lemma reads_decode_map sub n bs u y : 0 <= n < 2 ^ 32 -> n <= Z.of_nat (length bs) ->
  (forall fuel, (Z.to_nat n <= fuel)%nat -> reads bs y (decode_entries sub fuel n u)) ->
  reads (cbor_head CBOR_MAP n ++ bs) y (decode_map sub u).
Proof.
  intros Hn Hl H. unfold decode_map. eapply reads_bind; [by apply reads_map|]. cbv beta iota.
  eapply (reads_fuel _ _ (Z.to_nat n) (fun fuel b => decode_entries sub fuel n u b)); [done|lia].
Qed.

(** The map of a key identifier. *)
Lemma reads_kid_map sub kid v : Z.of_nat (length kid) < 2 ^ 32 ->
  reads (wire (CMap (kid_entries kid))) (mkUnprot None (Some (if is_nil kid then v else Some kid)) None None None)
    (decode_map sub (mkUnprot None (Some v) None None None)).
Proof.
  intros Hl. unfold kid_entries. destruct kid as [|x kid]; cbn [is_nil].
  - apply (reads_decode_map sub 0 []); [lia|done|]. intros fuel _. apply reads_end.
  - eapply (reads_eq (cbor_head CBOR_MAP 1 ++ wire (CInt COSE_HDR_KID) ++ wire (CBytes (x :: kid)) ++ [])); [items|].
    apply reads_decode_map; [lia|rewrite length_app; change (length (wire (CInt COSE_HDR_KID))) with 1%nat; lia|].
    intros fuel Hf. destruct fuel as [|fuel]; [lia|].
    eapply reads_entry; [by apply (bool_decide_unpack _)|done|by eapply (reads_kid sub (mkUnprot None (Some v) None None None))|].
    apply reads_end.
Qed.

(** A failure that the caller replaces. *)
Lemma reads_match {A B} bs1 bs2 (x : A) (y : B) d1 d2 s :
  reads bs1 x d1 -> reads bs2 y (d2 x) ->
  reads (bs1 ++ bs2) y (fun b => r ← d1 b; match r with inl _ => exit s | inr (x, b) => d2 x b end).
Proof.
  intros H1 H2 b tl n Hb E. rewrite <- app_assoc in E.
  destruct (H1 b (bs2 ++ tl) n Hb E) as (b1 & E1 & Hb1 & R1). unfold mbind, M_bind. rewrite E1. by apply H2.
Qed.

Lemma reads_signature u sig : um_sig u = Some (mkSig 0 [] []) -> int8 (sg_alg sig) -> sg_alg sig <> COSE_ALG_RESERVED ->
  Z.of_nat (length (sg_kid sig)) < 2 ^ 32 -> Z.of_nat (length (sg_sig sig)) < 2 ^ 32 ->
  reads (cbor_head CBOR_ARRAY 3 ++ wire (protected_item (sg_alg sig)) ++ wire (CMap (kid_entries (sg_kid sig)))
         ++ wire (CBytes (sg_sig sig)))
    (mkUnprot (um_alg u) (um_kid u) (um_nonce u) (Some sig) (um_key u))
    (decode_entry (decode_map (fun _ _ => undefined)) COSE_HDR_COUNTER_SIGNATURE u).
Proof.
  intros Hu Ha Hr Hk Hs. unfold decode_entry. change (COSE_HDR_COUNTER_SIGNATURE =? COSE_HDR_ALG) with false.
  change (COSE_HDR_COUNTER_SIGNATURE =? COSE_HDR_KID) with false. change (COSE_HDR_COUNTER_SIGNATURE =? COSE_HDR_IV) with false.
  rewrite Z.eqb_refl, Hu. cbv iota. eapply reads_bind; [by apply reads_array|]. cbv beta iota. change (negb (3 =? 3)) with false.
  cbv iota. eapply reads_match; [by apply reads_protected|]. cbv beta. rewrite (proj2 (Z.eqb_neq _ _)) by done.
  eapply reads_bind; [by eapply reads_kid_map|]. cbv beta iota. rewrite <- (app_nil_r (wire _)).
  eapply reads_bind; [by apply reads_bytes|]. cbv beta iota. cbn [um_kid mbind option_bind id sg_kid].
  assert ((if is_nil (sg_kid sig) then [] else sg_kid sig) = sg_kid sig) as E by (by destruct (sg_kid sig)).
  intros b tl n Hb Eb. exists b. split; [|done]. unfold mbind, M_bind, lift. cbn.
  destruct sig as [alg kid bytes]. cbn in *. by destruct kid.
Qed.

(** The map of a message: the nonce, and the counter signature if there is a signer. *)
Definition front_map (nonce : list Z) (sig : option Signature) : list Z :=
  match sig with
  | Some s => partial_map [] nonce sig ++ wire (CBytes (sg_sig s))
  | None => wire (CMap (kid_entries [] ++ iv_entries nonce))
  end.

Definition signature_ok (s : Signature) : Prop :=
  int8 (sg_alg s) /\ sg_alg s <> COSE_ALG_RESERVED /\ byte_string (sg_kid s) /\ byte_string (sg_sig s).

Lemma reads_front nonce sig : length nonce = COSE_NONCE_LEN -> (forall s, sig = Some s -> signature_ok s) ->
  reads (front_map nonce sig) (mkUnprot None None (Some (map Some nonce)) (Some (default (mkSig 0 [] []) sig)) None)
    (DecodeUnprotectedMap (mkUnprot None None (Some (blank COSE_NONCE_LEN)) (Some (mkSig 0 [] [])) None)).
Proof.
  intros Hn Hs. unfold DecodeUnprotectedMap, front_map. destruct nonce as [|x nonce]; [done|]. set (iv := x :: nonce) in *.
  assert (iv_entries iv = [(CInt COSE_HDR_IV, CBytes iv)]) as Ei by done.
  destruct sig as [s|]; cbn [default].
  - destruct (Hs s eq_refl) as (Ha & Hr & [Hk _] & [Hb _]). cbn [from_option id].
    eapply (reads_eq (cbor_head CBOR_MAP 2 ++ wire (CInt COSE_HDR_IV) ++ wire (CBytes iv) ++ wire (CInt COSE_HDR_COUNTER_SIGNATURE) ++
      (cbor_head CBOR_ARRAY 3 ++ wire (protected_item (sg_alg s)) ++ wire (CMap (kid_entries (sg_kid s))) ++ wire (CBytes (sg_sig s))) ++ [])).
    { unfold partial_map, partial_signature. rewrite Ei. cbn [kid_entries is_nil]. items. }
    apply reads_decode_map; [lia|rewrite !length_app; change (length (wire (CInt COSE_HDR_IV))) with 1%nat;
      change (length (wire (CInt COSE_HDR_COUNTER_SIGNATURE))) with 1%nat; lia|].
    intros fuel Hf. destruct fuel as [|[|fuel]]; [lia|lia|].
    eapply reads_entry; [by apply (bool_decide_unpack _)|done|by apply reads_iv|].
    eapply reads_entry; [by apply (bool_decide_unpack _)|done|by apply reads_signature|]. apply reads_end.
  - cbn [from_option id].
    eapply (reads_eq (cbor_head CBOR_MAP 1 ++ wire (CInt COSE_HDR_IV) ++ wire (CBytes iv) ++ [])).
    { rewrite Ei. cbn [kid_entries is_nil app]. items. }
    apply reads_decode_map; [lia|rewrite !length_app; change (length (wire (CInt COSE_HDR_IV))) with 1%nat; lia|].
    intros fuel Hf. destruct fuel as [|fuel]; [lia|].
    eapply reads_entry; [by apply (bool_decide_unpack _)|done|by apply reads_iv|]. apply reads_end.
Qed.

(** *** Recipients *)

Lemma reads_symmetric r key alg kid content : int8 alg ->
  Z.of_nat (length kid) < 2 ^ 32 -> Z.of_nat (length content) < 2 ^ 32 ->
  reads (wire (symmetric_item alg kid content)) (mkRcpt (Some alg) (Some kid), key, content) (DecodeRecipient r key).
Proof.
  intros Ha Hk Hc.
  eapply (reads_eq (cbor_head CBOR_ARRAY 3 ++ wire (CBytes []) ++ (cbor_head CBOR_MAP 2 ++ wire (CInt COSE_HDR_ALG) ++
    wire (CInt alg) ++ wire (CInt COSE_HDR_KID) ++ wire (CBytes kid) ++ []) ++ wire (CBytes content) ++ []));
    [unfold symmetric_item; items|].
  unfold DecodeRecipient. eapply reads_bind; [by apply reads_array|]. cbv beta iota. change (negb (3 =? 3)) with false. cbv iota.
  eapply reads_bind; [apply reads_no_protected|]. cbv beta iota.
  eapply (reads_bind _ _ (mkUnprot (Some alg) (Some (Some kid)) None None (Some key))); [|cbv beta iota; eapply reads_bind; [by apply reads_bytes|cbv beta iota; apply reads_ret]].
  unfold DecodeUnprotectedMap. apply reads_decode_map; [lia|rewrite !length_app; change (length (wire (CInt COSE_HDR_ALG))) with 1%nat;
      change (length (wire (CInt COSE_HDR_KID))) with 1%nat; lia|].
  intros fuel Hf. destruct fuel as [|[|fuel]]; [lia|lia|].
  eapply reads_entry; [by apply (bool_decide_unpack _)|done|by eapply reads_alg|].
  eapply reads_entry; [by apply (bool_decide_unpack _)|done|by eapply reads_kid|]. apply reads_end.
Qed.

Lemma reads_ecdh r key kid curve x y content : is_curve curve -> coordinate curve x -> coordinate curve y ->
  length (ck_x key) = EC_MAX_COORD_LEN -> length (ck_y key) = EC_MAX_COORD_LEN ->
  Z.of_nat (length kid) < 2 ^ 32 -> Z.of_nat (length content) < 2 ^ 32 ->
  reads (wire (ecdh_item kid curve x y content))
    (mkRcpt (Some COSE_ALG_ECDH_ES_A256KW) (Some kid), decoded_key key curve x y, content) (DecodeRecipient r key).
Proof.
  intros Hc Hx Hy Kx Ky Hk Hct.
  eapply (reads_eq (cbor_head CBOR_ARRAY 3 ++ wire (protected_item COSE_ALG_ECDH_ES_A256KW) ++ (cbor_head CBOR_MAP 2 ++
    wire (CInt COSE_HDR_EPHEMERAL_KEY) ++ wire (ephemeral_map curve x y) ++ wire (CInt COSE_HDR_KID) ++ wire (CBytes kid) ++ [])
    ++ wire (CBytes content) ++ [])); [unfold ecdh_item; items|].
  unfold DecodeRecipient. eapply reads_bind; [by apply reads_array|]. cbv beta iota. change (negb (3 =? 3)) with false. cbv iota.
  eapply reads_bind; [by apply reads_protected; apply (bool_decide_unpack _)|]. cbv beta iota.
  eapply (reads_bind _ _ (mkUnprot (Some COSE_ALG_ECDH_ES_A256KW) (Some (Some kid)) None None (Some (decoded_key key curve x y))));
    [|cbv beta iota; eapply reads_bind; [by apply reads_bytes|cbv beta iota; apply reads_ret]].
  unfold DecodeUnprotectedMap. apply reads_decode_map; [lia|rewrite !length_app; change (length (wire (CInt COSE_HDR_EPHEMERAL_KEY))) with 1%nat;
      change (length (wire (CInt COSE_HDR_KID))) with 1%nat; lia|].
  intros fuel Hf. destruct fuel as [|[|fuel]]; [lia|lia|].
  eapply reads_entry; [by apply (bool_decide_unpack _)|done|by eapply reads_ephemeral_entry|].
  eapply reads_entry; [by apply (bool_decide_unpack _)|done|by eapply reads_kid|]. apply reads_end.
Qed.
