(* ===== verification/CoseRound.v ===== *)
(** * Messages of COSE that come back

    What one key store encrypts for a recipient, another that shares the recipient's key
    decrypts.  [locked] says what the sender leaves for a recipient. *)
From S2P Require Import Prelude Status Buffer Float Cbor CborProofs CborValues BitVec BitVecSerial Uuid Addr Node.
From S2P Require Import SubMsg SubMsgProofs SubDecode Tls Keys TlsLaws Cose SendProofs PubMsgProofs CoseProofs CoseDecode.
From stdpp Require Import gmap.
#[local] Open Scope Z_scope.
#[local] Set Warnings "-clear-no-such-hyp".

(** Go on after a call that succeeds. *)
Ltac fine := wp_go; ok.

(** A call that must succeed, and what follows it. *)
Lemma wp_try_ok {A B} (m : M (DPS_Status * A)) (f : A -> M (DPS_Status + B)) Q n :
  wp m (fun p n => p.1 = DPS_OK /\ wp (f p.2) Q n) n -> wp (try (or_exit m) f) Q n.
Proof.
  intros H. unfold try, or_exit. do 2 apply wp_bind. eapply wp_mono; [exact H|].
  intros [ret x] n' [Hr Hf]. cbn [fst snd] in *. by subst ret.
Qed.
Lemma wp_try {A B} (m : M (DPS_Status + A)) (f : A -> M (DPS_Status + B)) Q n :
  wp m (fun r n => match r with inl ret => Q (inl ret) n | inr x => wp (f x) Q n end) n -> wp (try m f) Q n.
Proof.
  intros H. unfold try. apply wp_bind. eapply wp_mono; [exact H|]. by intros [ret|x] n'.
Qed.
Ltac after := split; [reflexivity|]; cbn [fst snd]; wp_go.

(** Only the number of allocations is another. *)
Definition moved (n n' : DPS_Node) : Prop := exists k, n' = n <| n_allocs := k |>.
Lemma allocs_moved_refl n : moved n n.
Proof. exists (n_allocs n). by destruct n. Qed.
Lemma moved_allocs n k : moved n (n <| n_allocs := k |>).
Proof. by exists k. Qed.
Lemma allocs_moved_trans n1 n2 n3 : moved n1 n2 -> moved n2 n3 -> moved n1 n3.
Proof. intros [k ->] [k' ->]. by exists k'. Qed.

Section Round.
Context `{Env : Environment} `{Tls : Mbedtls} {TlsOk : MbedtlsOk Tls}.
Context (Hmem : forall k, env_alloc k = true).
Context (Hbytes : forall k size, length (env_bytes k size) = size /\ Forall is_byte (env_bytes k size)).

(** ** What the handlers answer *)

Definition answers (ks : KeyStore) (kid : list Z) (r : KeyRequest) : Prop :=
  exists h, @keyHandler ks = Some h /\ h kid = r.
Definition aes_key (k : list Z) : Prop := length k = AES_256_KEY_LEN /\ Forall is_byte k.

Lemma wp_GetKey ks kid key k key' Q n : answers ks kid (DPS_SetKey k) -> SetKey k key = Some (DPS_OK, key') ->
  Q (DPS_OK, key') n -> wp (GetKey (Keys := ks) kid key) Q n.
Proof using.
  intros (h & Eh & Ek) Es HQ. unfold GetKey. rewrite Eh, Ek. eapply wp_lift; [|exact HQ].
  unfold DPS_SetKey. cbn [run_request]. rewrite Es. done.
Qed.
Lemma wp_GetKey_none ks kid key err Q n : answers ks kid (Answer err) -> Q (err, key) n -> wp (GetKey (Keys := ks) kid key) Q n.
Proof using. intros (h & Eh & Ek) HQ. unfold GetKey. rewrite Eh, Ek. by eapply wp_lift. Qed.

Lemma SetKey_symmetric k key : ck_type key = COSE_KEY_SYMMETRIC -> length k = AES_256_KEY_LEN ->
  SetKey (KeySymmetric (Some k)) key =
    Some (DPS_OK, mkCKey COSE_KEY_SYMMETRIC (map Some k) (ck_curve key) (ck_x key) (ck_y key) (ck_d key)).
Proof using. intros Ht Hk. cbn [SetKey]. rewrite Ht, bool_decide_true by done. cbn [negb]. by rewrite decide_True. Qed.

Definition cells_opt (x : option (list Z)) : list (option Z) :=
  match x with Some x => over (zeroed EC_MAX_COORD_LEN) x | None => zeroed EC_MAX_COORD_LEN end.
Definition coordinate_opt (curve : Z) (x : option (list Z)) : Prop :=
  match x with Some x => coordinate curve x | None => True end.

Lemma copy_coord_opt curve x : is_curve curve -> coordinate_opt curve x ->
  copy_coord (CoordinateSize_EC curve) x = Some (cells_opt x).
Proof using.
  intros Hc Hx. destruct x as [x|]; [|done]. destruct Hx as [Hl Hb]. pose proof (curve_size curve Hc).
  unfold copy_coord, mem_read. cbn [Nat.add]. rewrite decide_True by lia. cbn [mbind option_bind].
  rewrite drop_0, take_ge by lia. unfold cells_write, zeroed. rewrite length_replicate, decide_True by (unfold EC_MAX_COORD_LEN; lia).
  done.
Qed.

Lemma SetKey_ec curve x y d key : ck_type key = COSE_KEY_EC -> is_curve curve ->
  coordinate_opt curve x -> coordinate_opt curve y -> coordinate_opt curve d ->
  SetKey (KeyEC curve x y d) key =
    Some (DPS_OK, mkCKey COSE_KEY_EC (ck_key key) (Some curve) (cells_opt x) (cells_opt y) (cells_opt d)).
Proof using.
  intros Ht Hc Hx Hy Hd. cbn [SetKey]. rewrite Ht, bool_decide_true by done. cbn [negb].
  assert ((curve =? DPS_EC_CURVE_P384) || (curve =? DPS_EC_CURVE_P521) = true) as -> by (destruct Hc as [-> | ->]; done).
  assert ((if curve =? DPS_EC_CURVE_P384 then 48%nat else 66%nat) = CoordinateSize_EC curve) as -> by (destruct Hc as [-> | ->]; done).
  cbv iota zeta. by rewrite !copy_coord_opt.
Qed.

Lemma cells_opt_read curve x : coordinate curve x -> cells_read (CoordinateSize_EC curve) (cells_opt (Some x)) = Some x.
Proof using. intros [Hl _]. unfold cells_opt, over. by apply cells_read_of. Qed.

(** ** Key agreement *)

Definition group (curve : Z) : ecp_group_id := if curve =? DPS_EC_CURVE_P521 then SECP521R1 else SECP384R1.
Definition key_pair (curve : Z) (x y d : list Z) : Prop :=
  is_curve curve /\ coordinate curve x /\ coordinate curve y /\ coordinate curve d /\
  ec_pair (group curve) (mpi_read_binary x, mpi_read_binary y) (mpi_read_binary d).

Lemma curve_params curve : is_curve curve -> TLSGetCurveParams curve = Some (group curve, CoordinateSize_EC curve).
Proof using. by intros [-> | ->]. Qed.
Lemma group_size_curve curve : is_curve curve -> group_size (group curve) = CoordinateSize_EC curve.
Proof using. by intros [-> | ->]. Qed.

Definition kdf_context : list Z := wire (kdf_item COSE_ALG_A256KW (Z.of_nat AES_256_KEY_LEN) COSE_ALG_ECDH_ES_A256KW).

(** The key encryption key that the public key of one side and the private key of the
    other give. *)
Definition agreed (curve : Z) (x y d kek : list Z) : Prop :=
  exists z s, ecdh_compute_shared (group curve) (mpi_read_binary x, mpi_read_binary y) (mpi_read_binary d) = Some z /\
    mpi_write_binary z (CoordinateSize_EC curve) = Some s /\ hkdf_sha256 s kdf_context = Some kek.

(** Both sides agree on it. *)
Lemma key_agreement curve x y d x' y' d' : key_pair curve x y d -> key_pair curve x' y' d' ->
  exists kek, aes_key kek /\ agreed curve x y d' kek /\ agreed curve x' y' d kek.
Proof using.
  intros (Hc & _ & _ & _ & Hp) (_ & _ & _ & _ & Hp'). destruct (ecdh_ok _ _ _ _ _ Hp Hp') as (z & E1 & E2 & [s Es]).
  rewrite group_size_curve in Es by done. destruct (mpi_ok _ _ _ Es) as (_ & Hb & _).
  destruct (hkdf_ok s kdf_context Hb) as (kek & Ek & Hk). exists kek. split; [done|]. split; by exists z, s.
Qed.

Lemma wp_derive_kek curve cx cy cd x y d kek (Q : DPS_Status + list Z -> DPS_Node -> Prop) n : is_curve curve ->
  coordinate curve x -> coordinate curve y ->
  cells_read (CoordinateSize_EC curve) cx = Some x -> cells_read (CoordinateSize_EC curve) cy = Some y ->
  cells_read (CoordinateSize_EC curve) cd = Some d -> agreed curve x y d kek ->
  (forall k, Q (inr kek) (n <| n_allocs := k |>)) -> wp (derive_kek curve cx cy cd COSE_ALG_ECDH_ES_A256KW) Q n.
Proof using Hmem Hbytes.
  intros Hc [Lx _] [Ly _] Rx Ry Rd (z & s & Ez & Es & Ek) HQ. unfold derive_kek, try, or_exit. wp_go.
  eapply wp_lift. { unfold ECDH. rewrite curve_params by done. cbv iota beta. rewrite Rx, Ry, Rd. cbn [mbind option_bind].
    unfold SetPublic. rewrite !take_ge by lia. by rewrite Ez, Es. }
  fine. apply (wp_EncodeKDFContext Hmem Hbytes); [by apply (bool_decide_unpack _)..|unfold AES_256_KEY_LEN; lia|].
  intros b k Hb Hw. fine. unfold HKDF_SHA256. rewrite Hw. unfold kdf_context in Ek. rewrite Ek. ok. apply HQ.
Qed.

(** ** What the sender leaves for a recipient *)

Inductive locked (ks : KeyStore) (cek : list Z) : COSE_Entity -> list Z -> Prop :=
  | locked_direct kid : answers ks kid (DPS_SetKey (KeySymmetric (Some cek))) ->
      locked ks cek (mkEntity COSE_ALG_DIRECT kid) (wire (symmetric_item COSE_ALG_DIRECT kid []))
  | locked_wrapped kid kek w : answers ks kid (DPS_SetKey (KeySymmetric (Some kek))) -> aes_key kek ->
      nist_kw_unwrap kek w = Some cek -> length w = AES_256_KEY_WRAP_LEN ->
      locked ks cek (mkEntity COSE_ALG_A256KW kid) (wire (symmetric_item COSE_ALG_A256KW kid w))
  | locked_agreed kid curve x y dx x' y' d' kek w :
      answers ks kid (DPS_SetKey (KeyEC curve (Some x) (Some y) dx)) -> key_pair curve x' y' d' ->
      agreed curve x y d' kek -> aes_key kek -> nist_kw_unwrap kek w = Some cek -> length w = AES_256_KEY_WRAP_LEN ->
      locked ks cek (mkEntity COSE_ALG_ECDH_ES_A256KW kid) (wire (ecdh_item kid curve x' y' w)).

(** The keys that the sender needs for a recipient. *)
Definition sendable (ks : KeyStore) (cek : list Z) (e : COSE_Entity) : Prop :=
  byte_string (e_kid e) /\ Z.of_nat (length (e_kid e)) < 2 ^ 16 /\
  (e_alg e = COSE_ALG_DIRECT /\ answers ks (e_kid e) (DPS_SetKey (KeySymmetric (Some cek))) \/
   e_alg e = COSE_ALG_A256KW /\
     (exists kek, aes_key kek /\ answers ks (e_kid e) (DPS_SetKey (KeySymmetric (Some kek)))) \/
   e_alg e = COSE_ALG_ECDH_ES_A256KW /\
     (exists curve x y dx d, key_pair curve x y d /\ coordinate_opt curve dx /\
        answers ks (e_kid e) (DPS_SetKey (KeyEC curve (Some x) (Some y) dx)))).

(** New keys from the generator. *)
Definition generates (ks : KeyStore) : Prop :=
  exists h, @ephemeralKeyHandler ks = Some h /\
    (forall t, exists k, aes_key k /\ h t (KeySymmetric None) = DPS_SetKey (KeySymmetric (Some k))) /\
    (forall t curve, is_curve curve -> exists x y d, key_pair curve x y d /\
       h t (KeyEC curve None None None) = DPS_SetKey (KeyEC curve (Some x) (Some y) (Some d))).

(** The ephemeral key that is passed from one recipient to the next. *)
Definition eph_ok (key : COSE_Key) : Prop :=
  exists c, ck_curve key = Some c /\
    (is_curve c -> exists x y d, key_pair c x y d /\ has_public key c x y /\ cells_read (CoordinateSize_EC c) (ck_d key) = Some d).

Lemma zero_key_eph : eph_ok zero_key.
Proof using. exists 0. split; [done|]. by intros [|]. Qed.

Lemma KeyWrap_ok cek kek : aes_key cek -> aes_key kek ->
  exists w, KeyWrap cek kek = (DPS_OK, w) /\ length w = AES_256_KEY_WRAP_LEN /\ byte_string w /\ nist_kw_unwrap kek w = Some cek.
Proof using TlsOk.
  intros [Lc Bc] [Lk Bk]. destruct (kw_wrap_ok kek cek Lk Lc Bk Bc) as (w & E & Lw & Bw & Eu). exists w.
  unfold KeyWrap. rewrite E, decide_True by done. split; [done|]. split; [done|]. split; [|done]. split; [by rewrite Lw|done].
Qed.

Lemma sizeof_len_small l : l <= 255 -> CBOR_SIZEOF_LEN l <= 2.
Proof using.
  intros H. unfold CBOR_SIZEOF_LEN. destruct (l <? 24); [lia|]. by rewrite (proj2 (Z.leb_le _ _)) by (unfold UINT8_MAX; lia).
Qed.

Lemma symmetric_item_size alg kid w : int8 alg -> (length w <= AES_256_KEY_WRAP_LEN)%nat ->
  Z.of_nat (length (wire (symmetric_item alg kid w))) <= SIZEOF_RECIPIENT (Z.of_nat (length kid)).
Proof using.
  intros Ha Hw. unfold symmetric_item, SIZEOF_RECIPIENT. cbn [wire flat_map fst snd]. pose proof (int8_length alg Ha).
  rewrite !length_app, !Nat2Z.inj_add, !cbor_head_sizeof. change (Z.of_nat (length (cbor_int COSE_HDR_ALG))) with 1.
  change (Z.of_nat (length (cbor_int COSE_HDR_KID))) with 1. cbn [length].
  change SIZEOF_PROTECTED_MAP with 6. change SIZEOF_EPHEMERAL_KEY with 149. change (CBOR_SIZEOF 1) with 2.
  change (CBOR_SIZEOF_BYTES A256KW_LEN) with 42. unfold CBOR_SIZEOF_BYTES.
  change (CBOR_SIZEOF_LEN (Z.of_nat 0)) with 1. change (CBOR_SIZEOF_LEN (Z.of_nat 3)) with 1. change (CBOR_SIZEOF_LEN (Z.of_nat 2)) with 1.
  change (CBOR_SIZEOF_LEN 3) with 1. change (CBOR_SIZEOF_LEN 2) with 1. pose proof (sizeof_len_range (Z.of_nat (length w))).
  assert (CBOR_SIZEOF_LEN (Z.of_nat (length w)) <= 2) by (apply sizeof_len_small; unfold AES_256_KEY_WRAP_LEN in Hw; lia).
  unfold AES_256_KEY_WRAP_LEN in Hw. lia.
Qed.

Lemma ephemeral_map_size curve x y : is_curve curve -> coordinate curve x -> coordinate curve y ->
  Z.of_nat (length (wire (ephemeral_map curve x y))) <= SIZEOF_EPHEMERAL_KEY.
Proof using.
  intros Hc [Lx _] [Ly _]. pose proof (curve_size curve Hc). unfold ephemeral_map. cbn [wire flat_map fst snd].
  rewrite !length_app, !Nat2Z.inj_add, !cbor_head_sizeof. change SIZEOF_EPHEMERAL_KEY with 149.
  change (Z.of_nat (length (cbor_int COSE_KEY_KTY))) with 1. change (Z.of_nat (length (cbor_int COSE_KEY_KTY_EC))) with 1.
  change (Z.of_nat (length (cbor_int COSE_EC_KEY_CRV))) with 1. change (Z.of_nat (length (cbor_int COSE_EC_KEY_X))) with 1.
  change (Z.of_nat (length (cbor_int COSE_EC_KEY_Y))) with 1. cbn [length]. change (CBOR_SIZEOF_LEN (Z.of_nat 4)) with 1.
  assert (Z.of_nat (length (cbor_int curve)) = 1) as -> by (by destruct Hc as [-> | ->]).
  pose proof (sizeof_len_small (Z.of_nat (length x))). pose proof (sizeof_len_small (Z.of_nat (length y))). lia.
Qed.
Lemma ecdh_item_size kid curve x y w : is_curve curve -> coordinate curve x -> coordinate curve y ->
  (length w <= AES_256_KEY_WRAP_LEN)%nat ->
  Z.of_nat (length (wire (ecdh_item kid curve x y w))) <= SIZEOF_RECIPIENT (Z.of_nat (length kid)).
Proof using.
  intros Hc Hx Hy Hw. pose proof (ephemeral_map_size curve x y Hc Hx Hy) as He.
  pose proof (protected_item_size COSE_ALG_ECDH_ES_A256KW ltac:(by apply (bool_decide_unpack _))) as Hp.
  change SIZEOF_PROTECTED_MAP with 6 in Hp. change SIZEOF_EPHEMERAL_KEY with 149 in He.
  unfold ecdh_item, SIZEOF_RECIPIENT.
  remember (protected_item COSE_ALG_ECDH_ES_A256KW) as pi eqn:Epi. remember (ephemeral_map curve x y) as em eqn:Eem. clear Epi Eem.
  cbn [wire flat_map fst snd]. rewrite !length_app, !Nat2Z.inj_add, !cbor_head_sizeof.
  change (Z.of_nat (length (cbor_int COSE_HDR_EPHEMERAL_KEY))) with 1. change (Z.of_nat (length (cbor_int COSE_HDR_KID))) with 1.
  cbn [length]. change SIZEOF_PROTECTED_MAP with 6. change SIZEOF_EPHEMERAL_KEY with 149. change (CBOR_SIZEOF 1) with 2.
  change (CBOR_SIZEOF_BYTES A256KW_LEN) with 42. unfold CBOR_SIZEOF_BYTES. change (CBOR_SIZEOF_LEN (Z.of_nat 3)) with 1.
  change (CBOR_SIZEOF_LEN (Z.of_nat 2)) with 1. change (CBOR_SIZEOF_LEN 3) with 1. change (CBOR_SIZEOF_LEN 2) with 1.
  assert (CBOR_SIZEOF_LEN (Z.of_nat (length w)) <= 2) by (apply sizeof_len_small; unfold AES_256_KEY_WRAP_LEN in Hw; lia).
  unfold AES_256_KEY_WRAP_LEN in Hw. lia.
Qed.

(** *** New keys *)

Lemma wp_new_content_key ks Q n : generates ks ->
  (forall n' key k, moved n n' -> aes_key k -> ck_key key = map Some k -> Q (DPS_OK, key) n') ->
  wp (GetEphemeralKey (Keys := ks) (blank_key COSE_KEY_SYMMETRIC)) Q n.
Proof using.
  intros (h & Eh & Hs & _) HQ. unfold GetEphemeralKey. rewrite Eh. cbn [ck_type blank_key]. wp_go.
  destruct (Hs (n_allocs n)) as (k & Hk & E). rewrite E.
  eapply wp_lift; [|by apply (HQ _ (mkCKey COSE_KEY_SYMMETRIC (map Some k) None (blank EC_MAX_COORD_LEN)
    (blank EC_MAX_COORD_LEN) (blank EC_MAX_COORD_LEN)) k); [apply moved_allocs|..]].
  unfold DPS_SetKey. cbn [run_request]. rewrite SetKey_symmetric by (first [done|apply Hk]). done.
Qed.

Lemma wp_new_ephemeral_key ks key curve Q n : generates ks -> ck_type key = COSE_KEY_EC -> ck_curve key = Some curve ->
  is_curve curve ->
  (forall n' key', moved n n' -> ck_curve key' = Some curve -> eph_ok key' -> Q (DPS_OK, key') n') ->
  wp (GetEphemeralKey (Keys := ks) key) Q n.
Proof using.
  intros (h & Eh & _ & He) Ht Ec Hc HQ. unfold GetEphemeralKey. rewrite Eh, Ht. wp_go. rewrite Ec. eapply wp_lift; [done|]. wp_go.
  destruct (He (n_allocs n) curve Hc) as (x & y & d & Hp & E). rewrite E. pose proof Hp as (_ & Hx & Hy & Hd & _).
  eapply wp_lift. { unfold DPS_SetKey. cbn [run_request]. rewrite (SetKey_ec curve (Some x) (Some y) (Some d)) by done. done. }
  apply HQ; [apply moved_allocs|done|]. exists curve. split; [done|]. intros _. exists x, y, d.
  split; [done|]. split; [constructor; [done|done|by apply cells_opt_read|by apply cells_opt_read]|by apply cells_opt_read].
Qed.

(** *** Writing a recipient *)

Section Sender.
Context (ks : KeyStore) (cek : list Z) (Hcek : aes_key cek).

(** What is true after a recipient. *)
Definition recipient_written (L : nat) (w : list Z) (e : COSE_Entity) (n : DPS_Node)
    (Q : DPS_Status + DPS_TxBuffer * COSE_Key -> DPS_Node -> Prop) : Prop :=
  forall n' it footer eph, moved n n' -> locked ks cek e it -> eph_ok eph ->
    Z.of_nat (length it) <= SIZEOF_RECIPIENT (Z.of_nat (length (e_kid e))) ->
    wrote L (w ++ it) (DPS_OK, footer) -> Q (inr (footer, eph)) n'.

Lemma wp_encode_recipient L w e it key footer eph eph' n n' Q content :
  recipient_written L w e n Q -> moved n n' -> locked ks cek e it -> eph_ok eph ->
  Z.of_nat (length it) <= SIZEOF_RECIPIENT (Z.of_nat (length (e_kid e))) -> wrote L w (DPS_OK, footer) ->
  Z.of_nat (length w) + SIZEOF_RECIPIENT (Z.of_nat (length (e_kid e))) <= Z.of_nat L ->
  encodes it (EncodeRecipient (e_alg e) (e_kid e) key content) -> default eph' key = eph ->
  wp (try (or_exit (lift (EncodeRecipient (e_alg e) (e_kid e) key content (DPS_OK, footer))))
        (fun footer => mret (inr (footer, default eph' key)))) Q n'.
Proof using.
  intros HQ Hm Hl He Hs Hw HL Henc Hd. destruct (Henc L w footer Hw) as (b' & E & Hw'); [lia|].
  unfold try, or_exit. wp_go. eapply wp_lift; [exact E|]. fine. rewrite Hd. by apply (HQ n' it).
Qed.

Lemma wp_recipient_direct L w kid footer eph n Q :
  recipient_written L w (mkEntity COSE_ALG_DIRECT kid) n Q -> sendable ks cek (mkEntity COSE_ALG_DIRECT kid) -> eph_ok eph ->
  wrote L w (DPS_OK, footer) -> Z.of_nat (length w) + SIZEOF_RECIPIENT (Z.of_nat (length kid)) <= Z.of_nat L ->
  wp (encrypt_recipient (Keys := ks) cek (mkEntity COSE_ALG_DIRECT kid) footer eph) Q n.
Proof using.
  intros HQ (Hk & _ & Ha) He Hw HL. destruct Ha as [[_ Ha]|[[? _]|[? _]]]; [|done|done]. unfold encrypt_recipient. cbv zeta.
  cbn [e_alg e_kid] in *. rewrite Z.eqb_refl.
  apply (wp_encode_recipient L w (mkEntity COSE_ALG_DIRECT kid) (wire (symmetric_item COSE_ALG_DIRECT kid [])) None footer eph eph n n); try done.
  - apply allocs_moved_refl.
  - by constructor.
  - apply symmetric_item_size; [by apply (bool_decide_unpack _)|cbn; lia].
  - apply encodes_symmetric; [by right|done|by split].
Qed.

Lemma wp_recipient_wrapped L w kid footer eph n Q :
  recipient_written L w (mkEntity COSE_ALG_A256KW kid) n Q -> sendable ks cek (mkEntity COSE_ALG_A256KW kid) -> eph_ok eph ->
  wrote L w (DPS_OK, footer) -> Z.of_nat (length w) + SIZEOF_RECIPIENT (Z.of_nat (length kid)) <= Z.of_nat L ->
  wp (encrypt_recipient (Keys := ks) cek (mkEntity COSE_ALG_A256KW kid) footer eph) Q n.
Proof using Hcek.
  intros HQ (Hk & _ & Ha) He Hw HL. destruct Ha as [[? _]|[[_ (kek & Hkek & Ha)]|[? _]]]; [done| |done].
  cbn [e_alg e_kid] in *. destruct (KeyWrap_ok cek kek Hcek Hkek) as (kw & Ekw & Lkw & Bkw & Eu).
  unfold encrypt_recipient. cbv zeta. cbn [e_alg e_kid]. change (COSE_ALG_A256KW =? COSE_ALG_DIRECT) with false. rewrite Z.eqb_refl.
  apply wp_try_ok. eapply wp_GetKey; [exact Ha|apply SetKey_symmetric; [done|apply Hkek]|]. after. cbn [ck_key].
  eapply wp_lift. { rewrite <- (app_nil_r (map Some kek)). apply cells_read_of, Hkek. }
  apply wp_try_ok. wp_go. rewrite Ekw. after.
  apply (wp_encode_recipient L w (mkEntity COSE_ALG_A256KW kid) (wire (symmetric_item COSE_ALG_A256KW kid kw)) None footer eph eph n n); try done.
  - apply allocs_moved_refl.
  - by apply (locked_wrapped _ _ kid kek).
  - apply symmetric_item_size; [by apply (bool_decide_unpack _)|lia].
  - apply encodes_symmetric; [by left|done|done].
Qed.

Lemma wp_agreed_key curve c eph (Q : DPS_Status + COSE_Key -> DPS_Node -> Prop) n : generates ks -> is_curve curve -> eph_ok eph ->
  ck_curve eph = Some c -> (forall n' eph', moved n n' -> ck_curve eph' = Some curve -> eph_ok eph' -> Q (inr eph') n') ->
  wp (if c =? curve then mret (inr eph)
      else or_exit (GetEphemeralKey (Keys := ks) (mkCKey COSE_KEY_EC (ck_key eph) (Some curve) (ck_x eph) (ck_y eph) (ck_d eph)))) Q n.
Proof using.
  intros Hg Hc He Ec HQ. destruct (Z.eqb_spec c curve) as [-> |].
  - wp_go. by apply HQ; [apply allocs_moved_refl|..].
  - unfold or_exit. wp_go. eapply wp_new_ephemeral_key; [done..|]. intros n' key' Hm Ek Hk. fine. by apply HQ.
Qed.

Lemma wp_recipient_agreed L w kid footer eph n Q : generates ks ->
  recipient_written L w (mkEntity COSE_ALG_ECDH_ES_A256KW kid) n Q -> sendable ks cek (mkEntity COSE_ALG_ECDH_ES_A256KW kid) ->
  eph_ok eph -> wrote L w (DPS_OK, footer) -> Z.of_nat (length w) + SIZEOF_RECIPIENT (Z.of_nat (length kid)) <= Z.of_nat L ->
  wp (encrypt_recipient (Keys := ks) cek (mkEntity COSE_ALG_ECDH_ES_A256KW kid) footer eph) Q n.
Proof using Hcek Hmem Hbytes.
  intros Hg HQ (Hk & _ & Ha) He Hw HL.
  destruct Ha as [[? _]|[[? _]|[_ (curve & x & y & dx & d & Hp & Hdx & Ha)]]]; [done|done|].
  cbn [e_alg e_kid] in *. pose proof Hp as (Hc & Hx & Hy & _ & _).
  unfold encrypt_recipient. cbv zeta. cbn [e_alg e_kid]. change (COSE_ALG_ECDH_ES_A256KW =? COSE_ALG_DIRECT) with false.
  change (COSE_ALG_ECDH_ES_A256KW =? COSE_ALG_A256KW) with false. rewrite Z.eqb_refl.
  apply wp_try_ok. eapply wp_GetKey; [exact Ha|by apply SetKey_ec|]. after. cbn [ck_curve ck_x ck_y].
  eapply wp_lift; [done|].
  pose proof He as (c & Ec & _). wp_go. eapply wp_lift; [exact Ec|].
  apply wp_try, wp_agreed_key; [done..|]. clear He c Ec. intros n' e Hm Ec He.
  pose proof He as (c & Ec' & Hpub). rewrite Ec in Ec'. injection Ec' as <-.
  destruct (Hpub Hc) as (x' & y' & d' & Hp' & Hh & Hd'). destruct (key_agreement _ _ _ _ _ _ _ Hp Hp') as (kek & Hkek & Ag & _).
  apply wp_try. apply (wp_derive_kek curve _ _ _ x y d' kek); try done; [by apply cells_opt_read..|]. intros k.
  destruct (KeyWrap_ok cek kek Hcek Hkek) as (kw & Ekw & Lkw & Bkw & Eu). apply wp_try_ok. wp_go. rewrite Ekw. after.
  pose proof Hp' as (_ & Hx' & Hy' & _).
  eapply (wp_encode_recipient L w (mkEntity COSE_ALG_ECDH_ES_A256KW kid) (wire (ecdh_item kid curve x' y' kw)) (Some e) footer e eph n); try done.
  - eapply allocs_moved_trans; [exact Hm|apply moved_allocs].
  - by eapply (locked_agreed _ _ kid curve x y dx x' y' d').
  - apply ecdh_item_size; try done. lia.
  - by apply encodes_ecdh.
Qed.

Lemma wp_encrypt_recipient L w e footer eph n Q : generates ks ->
  recipient_written L w e n Q -> sendable ks cek e -> eph_ok eph -> wrote L w (DPS_OK, footer) ->
  Z.of_nat (length w) + SIZEOF_RECIPIENT (Z.of_nat (length (e_kid e))) <= Z.of_nat L ->
  wp (encrypt_recipient (Keys := ks) cek e footer eph) Q n.
Proof using Hcek Hmem Hbytes.
  intros Hg HQ Hs He Hw HL. destruct e as [alg kid]. pose proof Hs as (_ & _ & [[Ha _]|[[Ha _]|[Ha _]]]); cbn [e_alg e_kid] in *; subst alg.
  - by eapply wp_recipient_direct.
  - by eapply wp_recipient_wrapped.
  - by eapply wp_recipient_agreed.
Qed.

Definition recipient_sizes (rs : list COSE_Entity) : Z :=
  foldr Z.add 0 (map (fun r => SIZEOF_RECIPIENT (Z.of_nat (length (e_kid r)))) rs).

Lemma SIZEOF_RECIPIENT_pos n : 0 <= n -> 0 <= SIZEOF_RECIPIENT n.
Proof using.
  intros H. unfold SIZEOF_RECIPIENT, CBOR_SIZEOF_BYTES. change SIZEOF_PROTECTED_MAP with 6. change SIZEOF_EPHEMERAL_KEY with 149.
  change (CBOR_SIZEOF 1) with 2. pose proof (sizeof_len_range n). pose proof (sizeof_len_range A256KW_LEN).
  pose proof (sizeof_len_range 3). pose proof (sizeof_len_range 2). unfold A256KW_LEN in *. lia.
Qed.
Lemma recipient_sizes_pos rs : 0 <= recipient_sizes rs.
Proof using.
  induction rs as [|r rs IH]; [done|]. cbn [recipient_sizes map foldr]. unfold recipient_sizes in IH.
  pose proof (SIZEOF_RECIPIENT_pos (Z.of_nat (length (e_kid r))) ltac:(lia)). lia.
Qed.

Lemma wp_encrypt_recipients L rs w footer eph n Q : generates ks -> Forall (sendable ks cek) rs -> eph_ok eph ->
  wrote L w (DPS_OK, footer) -> Z.of_nat (length w) + recipient_sizes rs <= Z.of_nat L ->
  (forall n' items footer', moved n n' -> Forall2 (locked ks cek) rs items -> wrote L (w ++ concat items) (DPS_OK, footer') ->
     Q (inr footer') n') ->
  wp (encrypt_recipients (Keys := ks) cek rs footer eph) Q n.
Proof using Hcek Hmem Hbytes.
  intros Hg Hs. revert w footer eph n Q. induction Hs as [|e rs Hse Hs IH]; intros w footer eph n Q He Hw HL HQ; cbn [encrypt_recipients].
  - wp_go. apply (HQ _ []); [apply allocs_moved_refl|done|]. cbn [concat]. by rewrite app_nil_r.
  - cbn [recipient_sizes map foldr] in HL. fold (recipient_sizes rs) in HL. pose proof (recipient_sizes_pos rs).
    apply wp_try. eapply wp_encrypt_recipient; [done| |done|done|exact Hw|lia].
    intros n1 it footer1 eph1 Hm1 Hl He1 Hsz Hw1. cbv beta iota.
    apply (IH (w ++ it) footer1 eph1); [done|done|rewrite length_app, Nat2Z.inj_add; lia|].
    intros n2 items footer2 Hm2 Hi Hw2. apply (HQ _ (it :: items)); [by eapply allocs_moved_trans|by constructor|].
    cbn [concat]. by rewrite app_assoc.
Qed.
End Sender.

(** ** The content key *)

(** The keys that the sender needs for a recipient, whatever the content key is. *)
Definition reachable (ks : KeyStore) (e : COSE_Entity) : Prop :=
  exists k, aes_key k /\ sendable ks k e.

Definition same_alg (rs : list COSE_Entity) (alg : Z) : Prop := Forall (fun e => e_alg e = alg) rs.

Lemma sendable_any ks cek cek' e : e_alg e <> COSE_ALG_DIRECT -> sendable ks cek e -> sendable ks cek' e.
Proof using. intros Ha (Hk & Hl & [[? _]|[H|H]]); [done|..]; (split; [done|]; split; [done|]); auto. Qed.

Lemma wp_content_key ks alg rs (Q : DPS_Status + COSE_Key -> DPS_Node -> Prop) n : generates ks ->
  rs <> [] -> same_alg rs alg -> Forall (reachable ks) rs -> (alg = COSE_ALG_DIRECT -> length rs = 1%nat) ->
  (forall n' key cek, moved n n' -> aes_key cek -> ck_key key = map Some cek -> Forall (sendable ks cek) rs -> Q (inr key) n') ->
  wp (content_key (Keys := ks) alg rs) Q n.
Proof using.
  intros Hg Hne Ha Hr H1 HQ. unfold content_key. destruct rs as [|r0 rs]; [done|].
  pose proof Hr as Hr0. apply List.Forall_cons_iff in Hr0 as [(k0 & Hk0 & (_ & _ & Hs0)) _].
  pose proof Ha as Ha0. apply List.Forall_cons_iff in Ha0 as [Ha0 _]. rewrite Ha0 in Hs0.
  assert (forall cek, alg <> COSE_ALG_DIRECT -> Forall (sendable ks cek) (r0 :: rs)) as Hany.
  { intros cek Hd. apply List.Forall_forall. intros e Hin. unfold same_alg in Ha. rewrite List.Forall_forall in Ha, Hr.
    destruct (Hr e Hin) as (k & _ & Hs). apply (sendable_any ks k); [by rewrite (Ha e Hin)|done]. }
  destruct Hs0 as [[-> Hk]|[[-> _]|[-> _]]].
  - cbn [orb]. rewrite Z.eqb_refl, orb_true_r. destruct rs; [|by specialize (H1 eq_refl)]. unfold or_exit. wp_go.
    eapply wp_GetKey; [exact Hk|apply SetKey_symmetric; [done|apply Hk0]|]. fine.
    eapply (HQ _ _ k0); [apply allocs_moved_refl|done|done|]. constructor; [|done].
    apply List.Forall_cons_iff in Hr as [(k & _ & (Hks & Hl & _)) _]. split; [done|]. split; [done|]. left. by rewrite Ha0.
  - cbn. unfold or_exit. wp_go. apply wp_new_content_key; [done|]. intros n' key k Hm Hk Ek. fine. apply (HQ _ _ k); [done..|by apply Hany].
  - cbn. unfold or_exit. wp_go. apply wp_new_content_key; [done|]. intros n' key k Hm Hk Ek. fine. apply (HQ _ _ k); [done..|by apply Hany].
Qed.
End Round.
