(* ===== verification/CoseSign.v ===== *)
(** * Signatures of COSE, and the front of a message

    The place of a signature is reserved in a header and filled in later; who knows the
    public key of the signer verifies it. *)
From S2P Require Import Prelude Status Buffer Float Cbor CborProofs CborValues BitVec BitVecSerial Uuid Addr Node.
From S2P Require Import SubMsg SubMsgProofs SubDecode Tls Keys TlsLaws Cose SendProofs PubMsgProofs CoseProofs CoseDecode CoseRound.
From stdpp Require Import gmap.
#[local] Open Scope Z_scope.
#[local] Set Warnings "-clear-no-such-hyp".

(** ** Reserved bytes *)

Lemma wrote_reserve L w b len : wrote L w (DPS_OK, b) -> Z.of_nat len < 2 ^ 32 ->
  (length w + length (cbor_head CBOR_BYTES (Z.of_nat len)) + len <= L)%nat ->
  exists b' junk, CBOR_ReserveBytes b len None =
      Some (DPS_OK, b', Some (length (w ++ cbor_head CBOR_BYTES (Z.of_nat len)))) /\
    length junk = len /\ wrote L (w ++ cbor_head CBOR_BYTES (Z.of_nat len) ++ junk) (DPS_OK, b').
Proof.
  intros Hw Hl HL. set (h := cbor_head CBOR_BYTES (Z.of_nat len)) in *. unfold CBOR_ReserveBytes. rewrite u32_small by lia.
  destruct (encodes_length (Z.of_nat len) ltac:(lia) L w b Hw ltac:(fold h; lia)) as (b1 & E & Hw1). fold h in Hw1.
  change (EncodeUint b (Z.of_nat len) CBOR_BYTES = Some (DPS_OK, b1)) in E. rewrite E. cbn [mbind option_bind]. change (is_OK DPS_OK) with true. cbv iota.
  pose proof (wrote_pos _ _ _ Hw1) as Hp. destruct Hw1 as [_ Hwf HL1 Hw1]. cbn [snd] in *.
  rewrite DPS_TxBufferSpace_spec by done. unfold tx_space. rewrite HL1, Hp.
  rewrite (proj2 (Z.ltb_ge _ _)) by (rewrite length_app; lia).
  exists (tx_set_pos b1 (length (w ++ h) + len)), (take len (drop (length (w ++ h)) (tx_mem b1))).
  split; [done|]. rewrite length_app in *. split; [rewrite length_take, length_drop; lia|]. split; cbn [fst snd]; [done| |done|].
  - destruct Hwf as (_ & Hm & Hb). unfold tx_wf. cbn [tx_set_pos tx_pos tx_mem]. split; [lia|done].
  - unfold tx_written, tx_set_pos in *. cbn [tx_pos tx_mem] in *. rewrite Hp in Hw1.
    rewrite app_assoc, <- Hw1. rewrite <- (take_drop (length w + length h) (tx_mem b1)) at 1.
    rewrite take_app. rewrite length_take, Nat.min_l by lia. rewrite take_take, Nat.min_r by lia.
    f_equal. f_equal. lia.
Qed.

Lemma wrote_patch L a junk c b bs : wrote L (a ++ junk ++ c) (DPS_OK, b) -> length bs = length junk -> Forall is_byte bs ->
  exists mem, mem_write (tx_mem b) (length a) bs = Some mem /\ wrote L (a ++ bs ++ c) (DPS_OK, mkTx mem (tx_pos b)).
Proof.
  intros Hw Hl Hb. pose proof (wrote_pos _ _ _ Hw) as Hp. destruct Hw as [_ Hwf HL Hw]. cbn [snd] in *.
  pose proof Hwf as (Hpos & Hm & Hbm). unfold tx_written in Hw.
  assert (tx_mem b = (a ++ junk ++ c) ++ drop (tx_pos b) (tx_mem b)) as Em by (by rewrite <- Hw, take_drop).
  rewrite !length_app in Hp. exists (a ++ bs ++ c ++ drop (tx_pos b) (tx_mem b)).
  assert (mem_write (tx_mem b) (length a) bs = Some (a ++ bs ++ c ++ drop (tx_pos b) (tx_mem b))) as E.
  { rewrite mem_write_fits by (rewrite HL in *; lia). f_equal. rewrite Em at 1 2.
    rewrite <- !app_assoc. rewrite take_app_length. f_equal. f_equal.
    rewrite drop_app, Hl. rewrite drop_ge by lia. cbn [app].
    replace (length a + length junk - length a)%nat with (length junk) by lia. by rewrite drop_app_length. }
  split; [exact E|]. split; cbn [fst snd]; [done| | |].
  - unfold tx_wf. cbn [tx_pos tx_mem]. rewrite (mem_write_length _ _ _ _ E). split; [done|]. split; [done|].
    by apply (mem_write_bytes _ _ _ _ E).
  - cbn [tx_mem]. by rewrite (mem_write_length _ _ _ _ E).
  - unfold tx_written. cbn [tx_pos tx_mem]. rewrite !app_assoc.
    rewrite take_app_length' by (rewrite !length_app; lia). done.
Qed.

Section Sign.
Context `{Env : Environment} `{Tls : Mbedtls} {TlsOk : MbedtlsOk Tls}.
Context (Hmem : forall k, env_alloc k = true).
Context (Hbytes : forall k size, length (env_bytes k size) = size /\ Forall is_byte (env_bytes k size)).

(** ** Signing and verifying *)

Definition signature_of (curve : Z) (d msg bytes : list Z) : Prop :=
  exists h digest r s rb sb, GetHashFunction curve = Some h /\ md_digest h [msg] = Some digest /\
    ecdsa_sign_det (group curve) (mpi_read_binary d) digest h = Some (r, s) /\
    mpi_write_binary r (CoordinateSize_EC curve) = Some rb /\ mpi_write_binary s (CoordinateSize_EC curve) = Some sb /\
    bytes = rb ++ sb.

Lemma md_digest_concat h l l' : concat l = concat l' -> md_digest h l = md_digest h l'.
Proof using TlsOk.
  intros E. destruct (md_ok h l) as (d & E1 & E2), (md_ok h l') as (d' & E1' & E2').
  rewrite E1, E1', <- E2, <- E2'. by rewrite E.
Qed.

Lemma curve_hash curve : is_curve curve -> exists h, GetHashFunction curve = Some h.
Proof using. intros [-> | ->]; by eexists. Qed.

Lemma Sign_ECDSA_ok curve x y d cd bufs space : key_pair curve x y d ->
  cells_read (CoordinateSize_EC curve) cd = Some d -> Z.of_nat (CoordinateSize_EC curve) * 2 <= space ->
  exists bytes, Sign_ECDSA curve cd bufs space = Some (DPS_OK, bytes) /\ signature_of curve d (concat bufs) bytes /\
    length bytes = (CoordinateSize_EC curve * 2)%nat /\ Forall is_byte bytes.
Proof using TlsOk.
  intros (Hc & _ & _ & _ & Hp) Hd Hs. destruct (curve_hash curve Hc) as (h & Eh). destruct (md_ok h bufs) as (dig & Ed & Ed').
  destruct (ecdsa_ok _ _ _ h dig Hp) as (r & s & Er & [rb Erb] & [sb Esb] & _). rewrite group_size_curve in Erb, Esb by done.
  destruct (mpi_ok _ _ _ Erb) as (Lr & Br & _), (mpi_ok _ _ _ Esb) as (Ls & Bs & _).
  exists (rb ++ sb). split.
  - unfold Sign_ECDSA. rewrite curve_params by done. cbn [mbind option_bind]. rewrite Hd. cbn [mbind option_bind].
    rewrite (proj2 (Z.ltb_ge _ _)) by done. rewrite Eh. cbn [mbind option_bind]. by rewrite Ed, Er, Erb, Esb.
  - split; [by exists h, dig, r, s, rb, sb|]. split; [rewrite length_app; lia|by apply Forall_app_2].
Qed.

Lemma Verify_ECDSA_ok curve x y d cx cy bufs msg bytes : key_pair curve x y d -> signature_of curve d msg bytes ->
  cells_read (CoordinateSize_EC curve) cx = Some x -> cells_read (CoordinateSize_EC curve) cy = Some y -> concat bufs = msg ->
  Verify_ECDSA curve cx cy bufs bytes = Some DPS_OK.
Proof using TlsOk.
  intros (Hc & [Lx _] & [Ly _] & _ & Hp) (h & dig & r & s & rb & sb & Eh & Ed & Es & Er & Esb & ->) Hx Hy Hm.
  destruct (mpi_ok _ _ _ Er) as (Lr & _ & Rr), (mpi_ok _ _ _ Esb) as (Ls & _ & Rs).
  unfold Verify_ECDSA. rewrite curve_params by done. cbn [mbind option_bind]. rewrite Hx, Hy. cbn [mbind option_bind].
  rewrite decide_False by (rewrite length_app; lia). rewrite Eh. cbn [mbind option_bind].
  rewrite (md_digest_concat h bufs [msg]) by (by rewrite Hm; cbn; rewrite app_nil_r). rewrite Ed. cbv zeta.
  rewrite take_app_length' by lia. rewrite drop_app_length' by lia. rewrite take_ge by lia.
  unfold SetPublic. rewrite !take_ge by lia. rewrite Rr, Rs.
  destruct (ecdsa_ok _ _ _ h dig Hp) as (r' & s' & Es' & _ & _ & Hv). rewrite Es in Es'. injection Es' as <- <-. by rewrite Hv.
Qed.

(** ** Signers *)

Definition sig_curve (alg : Z) : Z := if alg =? COSE_ALG_ES384 then DPS_EC_CURVE_P384 else DPS_EC_CURVE_P521.
Definition signer_alg (alg : Z) : Prop := alg = COSE_ALG_ES384 \/ alg = COSE_ALG_ES512.
(** The private key of a signer, and its public key. *)
Definition signs (ks : KeyStore) (s : COSE_Entity) (x y d : list Z) : Prop :=
  signer_alg (e_alg s) /\ byte_string (e_kid s) /\ Z.of_nat (length (e_kid s)) < 2 ^ 16 /\ key_pair (sig_curve (e_alg s)) x y d /\
  exists x' y', coordinate_opt (sig_curve (e_alg s)) x' /\ coordinate_opt (sig_curve (e_alg s)) y' /\
    answers ks (e_kid s) (DPS_SetKey (KeyEC (sig_curve (e_alg s)) x' y' (Some d))).
Definition knows (ks : KeyStore) (s : COSE_Entity) (x y : list Z) : Prop :=
  exists d, coordinate_opt (sig_curve (e_alg s)) d /\
    answers ks (e_kid s) (DPS_SetKey (KeyEC (sig_curve (e_alg s)) (Some x) (Some y) d)).

Lemma sig_curve_ok alg : is_curve (sig_curve alg).
Proof using. unfold sig_curve, is_curve. case_match; auto. Qed.
Lemma signer_int8 alg : signer_alg alg -> int8 alg /\ alg <> COSE_ALG_RESERVED.
Proof using. intros [-> | ->]; (split; [by apply (bool_decide_unpack _)|done]). Qed.

Lemma wp_GetSignatureKey ks sig key x y d Q n : signer_alg (sg_alg sig) ->
  coordinate_opt (sig_curve (sg_alg sig)) x -> coordinate_opt (sig_curve (sg_alg sig)) y -> coordinate_opt (sig_curve (sg_alg sig)) d ->
  answers ks (sg_kid sig) (DPS_SetKey (KeyEC (sig_curve (sg_alg sig)) x y d)) ->
  Q (DPS_OK, mkCKey COSE_KEY_EC (ck_key key) (Some (sig_curve (sg_alg sig))) (cells_opt x) (cells_opt y) (cells_opt d)) n ->
  wp (GetSignatureKey (Keys := ks) sig key) Q n.
Proof using.
  intros Ha Hx Hy Hd (h & Eh & Ek) HQ. unfold GetSignatureKey. rewrite Eh.
  assert ((sg_alg sig =? COSE_ALG_ES384) || (sg_alg sig =? COSE_ALG_ES512) = true) as -> by (destruct Ha as [-> | ->]; done).
  cbv zeta. fold (sig_curve (sg_alg sig)). wp_go. eapply wp_lift.
  { rewrite Ek. unfold DPS_SetKey. cbn [run_request]. rewrite SetKey_ec; [done|done|apply sig_curve_ok|done..]. }
  fine. cbn [ck_curve]. eapply wp_lift; [done|]. wp_go. rewrite Z.eqb_refl. exact HQ.
Qed.

(** A signature over [content] in a message. *)
Definition signature_on (tag alg : Z) (aad content : list Z) (d : list Z) (sig : Signature) : Prop :=
  signature_of (sig_curve (sg_alg sig)) d
    (if tag =? COSE_TAG_SIGN1 then wire (sig_item tag (sg_alg sig) COSE_ALG_RESERVED aad content)
     else wire (sig_item tag alg (sg_alg sig) aad content)) (sg_sig sig).

Lemma wp_VerifySignature kr tag alg sig aad content x y d Q n :
  tag = COSE_TAG_ENCRYPT0 \/ tag = COSE_TAG_ENCRYPT \/ (tag = COSE_TAG_SIGN1 /\ alg = sg_alg sig) -> int8 alg ->
  signer_alg (sg_alg sig) -> byte_string aad -> Z.of_nat (length aad) + Z.of_nat (length content) < 2 ^ 31 ->
  signature_on tag alg aad content d sig -> key_pair (sig_curve (sg_alg sig)) x y d ->
  knows kr (mkEntity (sg_alg sig) (sg_kid sig)) x y ->
  (forall n', moved n n' -> Q (inr (mkEntity (sg_alg sig) (sg_kid sig))) n') ->
  wp (VerifySignature (Keys := kr) tag alg sig aad content) Q n.
Proof using Hmem Hbytes TlsOk.
  intros Ht Ha Hs Haad HL Hsig Hp (d' & Hd' & Hans) HQ. cbn [e_alg e_kid] in *. unfold VerifySignature.
  destruct (signer_int8 _ Hs) as [Hs8 _]. pose proof Hp as (Hc & Hx & Hy & _).
  apply wp_try_ok. apply (wp_EncodePartialSig Hmem Hbytes tag alg (sg_alg sig) aad content); [tauto|done..|].
  intros b k Hb Hw. after. apply wp_try_ok. eapply wp_GetSignatureKey; [done| | |exact Hd'|exact Hans|]; [done|done|]. after.
  cbn [ck_curve ck_x ck_y]. eapply wp_lift; [done|]. wp_go. eapply wp_lift.
  { eapply Verify_ECDSA_ok; [exact Hp|exact Hsig|by apply cells_opt_read|by apply cells_opt_read|].
    cbn [concat]. rewrite app_nil_r, Hw. destruct Ht as [-> |[-> |[-> ->]]]; [done|done|]. by unfold sig_item. }
  ok. apply HQ, moved_allocs.
Qed.
End Sign.
