(* ===== verification/CoseMsg.v ===== *)
(** * Whole messages of COSE

    What [COSE_Encrypt] writes, byte by byte, and what [COSE_Decrypt] makes of it; the
    same for [COSE_Sign] and [COSE_Verify]. *)
From S2P Require Import Prelude Status Buffer Float Cbor CborProofs CborValues BitVec BitVecSerial Uuid Addr Node.
From S2P Require Import SubMsg SubMsgProofs SubDecode Tls Keys TlsLaws Cose SendProofs PubMsgProofs CoseProofs CoseDecode.
From S2P Require Import CoseRound CoseSign.
From stdpp Require Import gmap.
#[local] Open Scope Z_scope.
#[local] Set Warnings "-clear-no-such-hyp".

#[local] Notation "x ←? m ; k" := (try m (fun x => k))
  (at level 20, m at level 100, k at level 200, only parsing).
#[local] Notation "' x ←? m ; k" := (try m (fun x => k))
  (at level 20, x pattern, m at level 100, k at level 200, only parsing).

Lemma encodes_tag tag : 0 <= tag < 2 ^ 32 -> encodes (cbor_head CBOR_TAG tag) (on_ok (fun b => CBOR_EncodeTag b tag)).
Proof. intros H. by apply encodes_head; [major|..]. Qed.

(** One encoder that must succeed. *)
Lemma wp_encode {A} L w bs f b (g : DPS_TxBuffer -> M (DPS_Status + A)) Q n : wrote L w (DPS_OK, b) -> encodes bs f ->
  (length w + length bs <= L)%nat -> (forall b', wrote L (w ++ bs) (DPS_OK, b') -> wp (g b') Q n) ->
  wp (try (or_exit (lift (f (DPS_OK, b)))) g) Q n.
Proof.
  intros Hw Hf HL HQ. destruct (Hf L w b Hw HL) as (b' & E & Hw'). apply wp_try_ok. eapply wp_lift; [exact E|].
  split; [done|]. by apply HQ.
Qed.

(** ** The front of an encrypted message *)

Definition enc_tag (tag : Z) : Prop := tag = COSE_TAG_ENCRYPT0 \/ tag = COSE_TAG_ENCRYPT.
Definition front_head (tag alg : Z) : list Z :=
  cbor_head CBOR_TAG tag ++ cbor_head CBOR_ARRAY (if tag =? COSE_TAG_ENCRYPT then 4 else 3) ++ wire (protected_item alg).
Definition cose_front (tag alg : Z) (nonce : list Z) (sig : option Signature) (content : list Z) : list Z :=
  front_head tag alg ++ front_map nonce sig ++ wire (CBytes content).

Section Message.
Context `{Env : Environment} `{Tls : Mbedtls} {TlsOk : MbedtlsOk Tls}.
Context (Hmem : forall k, env_alloc k = true).
Context (Hbytes : forall k size, length (env_bytes k size) = size /\ Forall is_byte (env_bytes k size)).

Lemma front_head_length tag : enc_tag tag -> forall alg, int8 alg -> (length (front_head tag alg) <= 9)%nat.
Proof using.
  intros Ht alg Ha. unfold front_head. rewrite !length_app. pose proof (protected_item_size alg Ha) as Hp.
  change SIZEOF_PROTECTED_MAP with 6 in Hp.
  assert (length (cbor_head CBOR_TAG tag) <= 2)%nat by (destruct Ht as [-> | ->]; vm_compute; lia).
  assert (length (cbor_head CBOR_ARRAY (if tag =? COSE_TAG_ENCRYPT then 4 else 3)) = 1%nat) by (by destruct Ht as [-> | ->]). lia.
Qed.

(** What a header is before the signature is in its place. *)
Definition header_written (tag alg : Z) (nonce : list Z) (signer : option COSE_Entity) (d : list Z) (len : Z)
    (r : DPS_TxBuffer * option (Signature * COSE_Key * nat)) : Prop :=
  match signer, r.2 with
  | None, None =>
      exists L, wrote L (front_head tag alg ++ front_map nonce None ++ cbor_head CBOR_BYTES len) (DPS_OK, r.1)
  | Some s, Some (sig, k, pos) =>
      let size := CoordinateSize_EC (sig_curve (e_alg s)) in
      sig = mkSig (e_alg s) (e_kid s) [] /\ ck_curve k = Some (sig_curve (e_alg s)) /\ cells_read size (ck_d k) = Some d /\
      exists L a junk, a = front_head tag alg ++ partial_map [] nonce (Some sig) ++ cbor_head CBOR_BYTES (Z.of_nat (size * 2)) /\
        pos = length a /\ length junk = (size * 2)%nat /\ wrote L (a ++ junk ++ cbor_head CBOR_BYTES len) (DPS_OK, r.1)
  | _, _ => False
  end.

Definition signer_ok (ks : KeyStore) (signer : option COSE_Entity) (x y d : list Z) : Prop :=
  match signer with Some s => signs ks s x y d | None => True end.

Lemma nonce_map_length nonce : length nonce = COSE_NONCE_LEN -> length (front_map nonce None) = 15%nat.
Proof using.
  intros Hn. unfold front_map. destruct nonce as [|z nonce]; [done|]. cbn [kid_entries iv_entries is_nil app wire flat_map fst snd].
  rewrite !length_app, Hn. reflexivity.
Qed.
Lemma partial_map_length nonce alg kid : length nonce = COSE_NONCE_LEN -> int8 alg -> Z.of_nat (length kid) < 2 ^ 16 ->
  Z.of_nat (length (partial_map [] nonce (Some (mkSig alg kid [])))) <= 15 + 10 + CBOR_SIZEOF_BYTES (Z.of_nat (length kid)).
Proof using.
  intros Hn Ha Hk. pose proof (protected_item_size alg Ha) as Hp. change SIZEOF_PROTECTED_MAP with 6 in Hp.
  assert (Z.of_nat (length (wire (CMap (kid_entries kid)))) <= 2 + CBOR_SIZEOF_BYTES (Z.of_nat (length kid))) as Hm.
  { unfold kid_entries. destruct kid as [|z kid]; [by cbn|]. cbn [is_nil].
    change (wire (CMap [(CInt COSE_HDR_KID, CBytes (z :: kid))])) with
      (cbor_head CBOR_MAP 1 ++ (wire (CInt COSE_HDR_KID) ++ wire (CBytes (z :: kid))) ++ []).
    rewrite !length_app, !Nat2Z.inj_add, bytes_item_size. change (Z.of_nat (length (cbor_head CBOR_MAP 1))) with 1.
    change (Z.of_nat (length (wire (CInt COSE_HDR_KID)))) with 1. cbn [length]. lia. }
  unfold partial_map, partial_signature. cbn [sg_alg sg_kid]. destruct nonce as [|z nonce]; [done|].
  cbn [kid_entries iv_entries is_nil app length entries_wire flat_map fst snd]. rewrite !length_app, !Nat2Z.inj_add.
  change (Z.of_nat (length (wire (CInt COSE_HDR_COUNTER_SIGNATURE)))) with 1. change (Z.of_nat (length (wire (CInt COSE_HDR_IV)))) with 1.
  rewrite bytes_item_size, Hn. change (CBOR_SIZEOF_BYTES (Z.of_nat COSE_NONCE_LEN)) with 13. cbn [length].
  change (Z.of_nat (length (cbor_head CBOR_ARRAY 3))) with 1. change (Z.of_nat (length (cbor_head CBOR_MAP _))) with 1. lia.
Qed.

Lemma encodes_partial_sig nonce s : length nonce = COSE_NONCE_LEN -> Forall is_byte nonce -> int8 (e_alg s) -> byte_string (e_kid s) ->
  encodes (partial_map [] nonce (Some (mkSig (e_alg s) (e_kid s) [])))
    (EncodePartialUnprotectedMap [] nonce (Some (mkSig (e_alg s) (e_kid s) []))).
Proof using.
  intros Hn Hb Ha Hk. apply encodes_partial; [by split|split; [rewrite Hn; by cbn|done]|done|done].
Qed.

(** The size that is allocated for a header. *)
Lemma header_size (signer : option COSE_Entity) len :
  (forall s, signer = Some s -> Z.of_nat (length (e_kid s)) < 2 ^ 16) ->
  let L := CBOR_SIZEOF 1 + CBOR_SIZEOF_LEN 4 + SIZEOF_PROTECTED_MAP + CBOR_SIZEOF_LEN 2
    + (CBOR_SIZEOF 1 + CBOR_SIZEOF_BYTES (Z.of_nat AES_GCM_NONCE_LEN)) + CBOR_SIZEOF_LEN len
    + match signer with Some s => CBOR_SIZEOF 1 + SIZEOF_COUNTER_SIGNATURE (Z.of_nat (length (e_kid s))) | None => 0 end in
  25 + CBOR_SIZEOF_LEN len <= L < 2 ^ 32 /\ forall s, signer = Some s ->
    L = 25 + CBOR_SIZEOF_LEN len + 2 + (1 + 6 + 1 + 2 + CBOR_SIZEOF_BYTES (Z.of_nat (length (e_kid s))) + 134).
Proof using.
  intros Hk. cbv zeta. change (CBOR_SIZEOF 1 + _ + _ + _ + _) with 25. pose proof (sizeof_len_range len).
  destruct signer as [s|]; [|split; [lia|done]]. specialize (Hk s eq_refl).
  assert (CBOR_SIZEOF 1 + SIZEOF_COUNTER_SIGNATURE (Z.of_nat (length (e_kid s))) =
    2 + (1 + 6 + 1 + 2 + CBOR_SIZEOF_BYTES (Z.of_nat (length (e_kid s))) + 134)) as -> by done.
  unfold CBOR_SIZEOF_BYTES. pose proof (sizeof_len_range (Z.of_nat (length (e_kid s)))).
  split; [lia|]. intros s' [= <-]. lia.
Qed.

Lemma wp_encrypt_header ks tag alg nonce signer x y d len Q n : enc_tag tag -> int8 alg -> length nonce = COSE_NONCE_LEN ->
  Forall is_byte nonce -> signer_ok ks signer x y d -> 0 <= len < 2 ^ 31 ->
  (forall n' r, moved n n' -> header_written tag alg nonce signer d len r -> Q (inr r) n') ->
  wp (encrypt_header (Keys := ks) tag alg nonce signer len) Q n.
Proof using Hmem Hbytes.
  intros Ht Ha Hn Hnb Hs Hl HQ. unfold encrypt_header. apply wp_try_ok.
  destruct (header_size signer len) as [HL HLs]; [by intros s ->; apply Hs|]. match goal with |- wp (tx_new ?l) _ _ => set (L := l) in * end.
  pose proof (sizeof_len_range len) as Hlen. pose proof (head_size CBOR_BYTES len) as Hh.
  clearbody L. apply (wp_tx_new Hmem Hbytes); [lia|]. intros b k Hw. after.
  pose proof (front_head_length tag Ht alg Ha) as Hf. unfold front_head in Hf. rewrite !length_app in Hf.
  eapply (wp_encode _ _ _ (on_ok (fun b => CBOR_EncodeTag b tag))); [exact Hw|apply encodes_tag; by destruct Ht as [-> | ->]|cbn [length]; lia|].
  clear Hw. intros b1 Hw. cbn [app] in Hw.
  eapply (wp_encode _ _ _ (on_ok (fun b => CBOR_EncodeArray b _))); [exact Hw|apply encodes_array; by case_match|lia|].
  clear Hw. intros b2 Hw.
  eapply (wp_encode _ _ _ (EncodeProtectedMap alg)); [exact Hw|by apply encodes_protected|rewrite !length_app; lia|].
  clear Hw. intros b3 Hw. rewrite <- app_assoc in Hw. rewrite <- !length_app in Hf. fold (front_head tag alg) in Hw, Hf.
  apply wp_try. destruct signer as [s|].
  - destruct Hs as (Hsa & Hkid & Hkl & Hp & x' & y' & Hx' & Hy' & Hans). destruct (signer_int8 _ Hsa) as [Hs8 _].
    pose proof Hp as (Hc & _ & _ & Hd & _). pose proof (curve_size _ Hc) as Hsz. specialize (HLs s eq_refl).
    apply wp_try_ok. eapply (wp_GetSignatureKey ks (mkSig (e_alg s) (e_kid s) [])); [done|exact Hx'|exact Hy'|by instantiate (1 := Some d)|exact Hans|].
    after. cbn [ck_curve sg_alg]. eapply wp_lift; [done|]. wp_go.
    pose proof (partial_map_length nonce (e_alg s) (e_kid s) Hn Hs8 Hkl) as Hpm.
    eapply (wp_encode _ _ _ (EncodePartialUnprotectedMap [] nonce _)); [exact Hw|by apply encodes_partial_sig|lia|].
    clear Hw. intros b4 Hw. wp_go. set (size := (CoordinateSize_EC (sig_curve (e_alg s)) * 2)%nat) in *.
    assert (Z.of_nat (length (cbor_head CBOR_BYTES (Z.of_nat size))) <= 2) as Hh2.
    { rewrite head_size. apply sizeof_len_small. lia. }
    destruct (wrote_reserve _ _ _ size Hw) as (b5 & junk & E & Hj & Hw5); [lia|rewrite !length_app; lia|].
    eapply wp_lift; [exact E|]. ok.
    eapply (wp_encode _ _ _ (on_ok (fun b => CBOR_EncodeLength b len CBOR_BYTES))); [exact Hw5|apply encodes_length; lia|rewrite !length_app; lia|].
    intros b6 Hw6. wp_go. apply HQ; [apply moved_allocs|]. cbn [header_written snd fst]. fold size.
    split; [done|]. split; [done|]. split; [by apply cells_opt_read|]. eexists (Z.to_nat L), _, junk. split; [reflexivity|].
    rewrite <- !app_assoc in Hw6 |- *. by split.
  - eapply (wp_encode _ _ _ (EncodeUnprotectedMap [] nonce None)); [exact Hw|apply encodes_unprotected; [done|split; [by rewrite Hn|done]]|..].
    { pose proof (nonce_map_length nonce Hn) as Hnm. unfold front_map in Hnm. lia. }
    clear Hw. intros b4 Hw. wp_go. pose proof (nonce_map_length nonce Hn) as Hnm. unfold front_map in Hnm.
    eapply (wp_encode _ _ _ (on_ok (fun b => CBOR_EncodeLength b len CBOR_BYTES))); [exact Hw|apply encodes_length; lia|rewrite !length_app; lia|].
    clear Hw. intros b6 Hw. wp_go. apply HQ; [apply moved_allocs|]. exists (Z.to_nat L). by rewrite <- app_assoc in Hw.
Qed.

(** *** The signature *)

Definition signed (tag alg : Z) (content d : list Z) (signer : option COSE_Entity) (sig : option Signature) : Prop :=
  match signer, sig with
  | None, None => True
  | Some s, Some sig => sg_alg sig = e_alg s /\ sg_kid sig = e_kid s /\ signature_on tag alg [] content d sig /\ byte_string (sg_sig sig)
  | _, _ => False
  end.

Lemma partial_sig_app tag alg sigAlg content w : enc_tag tag -> w ++ content = wire (sig_item tag alg sigAlg [] content) ->
  forall payload footer, concat payload ++ footer = content -> concat (w :: (payload ++ [footer])) = wire (sig_item tag alg sigAlg [] content).
Proof using. intros _ Hw payload footer Hc. cbn [concat]. rewrite concat_app. cbn [concat]. by rewrite app_nil_r, Hc. Qed.

Lemma wp_sign_content tag alg nonce s d x y ks content payload footer header sig k pos Q n : enc_tag tag -> int8 alg ->
  signs ks s x y d -> header_written tag alg nonce (Some s) d (Z.of_nat (length content)) (header, Some (sig, k, pos)) ->
  concat payload ++ tx_written footer = content -> (length payload <= DPS_BUFS_MAX)%nat -> Z.of_nat (length content) < 2 ^ 30 ->
  (forall n' b sg, moved n n' -> signed tag alg content d (Some s) (Some sg) -> tx_wf b ->
     tx_written b ++ content = cose_front tag alg nonce (Some sg) content -> Q (inr b) n') ->
  wp (sign_content tag alg (Z.of_nat (length content)) payload footer header sig k pos) Q n.
Proof using Hmem Hbytes TlsOk.
  intros Ht Ha (Hsa & Hkid & _ & Hp & _) (-> & Hcv & Hd & L & a & junk & -> & -> & Hj & Hw) Hc Hpl Hcl HQ. cbn [snd fst] in *.
  destruct (signer_int8 _ Hsa) as [Hs8 _]. pose proof Hp as (Hcurve & _). pose proof (curve_size _ Hcurve) as Hsz.
  unfold sign_content. apply wp_try_ok. cbn [sg_alg].
  apply (wp_EncodePartialSig Hmem Hbytes tag alg (e_alg s) [] content); [destruct Ht; tauto|done|done|by split|cbn [length]; lia|].
  intros b kk Hb Hwb. after. unfold assert. rewrite bool_decide_true by lia. wp_go. rewrite Hcv. eapply wp_lift; [done|]. wp_go.
  destruct (Sign_ECDSA_ok _ x y d (ck_d k) (tx_written b :: (payload ++ [tx_written footer]))
    (Z.of_nat (CoordinateSize_EC (sig_curve (e_alg s)) * 2)) Hp Hd ltac:(lia)) as (bytes & Es & Hsig & Lb & Bb).
  apply wp_try_ok. eapply wp_lift; [exact Es|]. after. rewrite bool_decide_true by done. wp_go.
  destruct (wrote_patch _ _ _ _ _ bytes Hw) as (mem & Em & Hw'); [lia|done|]. eapply wp_lift; [exact Em|]. wp_go.
  apply (HQ _ _ (mkSig (e_alg s) (e_kid s) bytes)); [apply moved_allocs| |apply Hw'|].
  - cbn [signed sg_alg sg_kid sg_sig]. split; [done|]. split; [done|]. split; [|split; [rewrite Lb; lia|done]].
    unfold signature_on. cbn [sg_alg sg_sig]. assert ((tag =? COSE_TAG_SIGN1) = false) as -> by (destruct Ht as [-> | ->]; done).
    rewrite <- (partial_sig_app tag alg (e_alg s) content _ Ht Hwb payload _ Hc). exact Hsig.
  - pose proof (wr_written _ _ _ Hw') as Ew. cbn [snd] in Ew. rewrite Ew. unfold cose_front, front_map, partial_map, partial_signature. cbn [sg_alg sg_kid sg_sig wire].
    rewrite Lb, <- !app_assoc. reflexivity.
Qed.

(** ** A whole encrypted message *)

Definition cose_message (alg : Z) (nonce : list Z) (sig : option Signature) (content : list Z) (items : list (list Z)) : list Z :=
  cose_front COSE_TAG_ENCRYPT alg nonce sig content ++ cbor_head CBOR_ARRAY (Z.of_nat (length items)) ++ concat items.

Definition gcm_content (key nonce aad p : list Z) : list Z :=
  let c := aes_gcm key nonce (wire (aad_item COSE_TAG_ENCRYPT COSE_ALG_A256GCM aad)) p in c.1 ++ c.2.

(** The bytes [msg] are an encryption of [p] for the recipients. *)
Record sealed (ks : KeyStore) (rs : list COSE_Entity) (signer : option COSE_Entity) (d nonce aad p msg : list Z) : Prop := {
  sl_parts : exists cek sig items, aes_key cek /\ Forall2 (locked ks cek) rs items /\
    signed COSE_TAG_ENCRYPT COSE_ALG_A256GCM (gcm_content cek nonce aad p) d signer sig /\
    msg = cose_message COSE_ALG_A256GCM nonce sig (gcm_content cek nonce aad p) items;
  sl_bytes : Forall is_byte msg;
  sl_length : Z.of_nat (length msg) < 2 ^ 32
}.

(** What the sender must have. *)
Record can_send (ks : KeyStore) (rs : list COSE_Entity) (alg : Z) (signer : option COSE_Entity) (x y d : list Z) : Prop := {
  cs_generates : generates ks;
  cs_some : rs <> [];
  cs_alg : same_alg rs alg;
  cs_implemented : alg <> COSE_ALG_RESERVED;
  cs_reachable : Forall (reachable ks) rs;
  cs_direct : alg = COSE_ALG_DIRECT -> length rs = 1%nat;
  cs_count : Z.of_nat (length rs) < 2 ^ 14;
  cs_signer : signer_ok ks signer x y d
}.

Lemma recipient_sizes_bound ks rs : Forall (reachable ks) rs -> recipient_sizes rs <= Z.of_nat (length rs) * 66000.
Proof using.
  induction 1 as [|e rs (k & _ & _ & Hk & _) _ IH]; [done|]. cbn [recipient_sizes map foldr length]. fold (recipient_sizes rs).
  assert (SIZEOF_RECIPIENT (Z.of_nat (length (e_kid e))) <= 66000); [|lia].
  unfold SIZEOF_RECIPIENT, CBOR_SIZEOF_BYTES. change SIZEOF_PROTECTED_MAP with 6. change SIZEOF_EPHEMERAL_KEY with 149.
  change (CBOR_SIZEOF 1) with 2. change (CBOR_SIZEOF_LEN A256KW_LEN) with 2. change (CBOR_SIZEOF_LEN 3) with 1.
  change (CBOR_SIZEOF_LEN 2) with 1. pose proof (sizeof_len_range (Z.of_nat (length (e_kid e)))). unfold A256KW_LEN. lia.
Qed.

Lemma same_alg_forallb rs alg r0 : same_alg rs alg -> e_alg r0 = alg -> forallb (fun r => e_alg r =? e_alg r0) rs = true.
Proof using.
  intros H ->. apply List.forallb_forall. intros e He. unfold same_alg in H. rewrite List.Forall_forall in H.
  apply Z.eqb_eq, H, He.
Qed.
Lemma lengths_concat l : lengths l = Z.of_nat (length (concat l)).
Proof using. unfold lengths. induction l as [|a l IH]; [done|]. cbn [map foldr concat]. rewrite length_app. lia. Qed.

Lemma tx_written_bytes b : tx_wf b -> Forall is_byte (tx_written b).
Proof using. intros (_ & _ & H). by apply Forall_take. Qed.

(** From the recipients on. *)
Lemma wp_footer ks cek rs footer t L n (Q : DPS_Status + DPS_TxBuffer -> DPS_Node -> Prop) : generates ks ->
  aes_key cek -> Forall (sendable ks cek) rs ->
  wrote L t (DPS_OK, footer) -> Z.of_nat (length t) + CBOR_SIZEOF_LEN (Z.of_nat (length rs)) + recipient_sizes rs <= Z.of_nat L ->
  Z.of_nat (length rs) < 2 ^ 14 ->
  (forall n' items footer', moved n n' -> Forall2 (locked ks cek) rs items -> tx_wf footer' -> (length (tx_written footer') <= L)%nat ->
     tx_written footer' = t ++ cbor_head CBOR_ARRAY (Z.of_nat (length items)) ++ concat items -> Q (inr footer') n') ->
  wp (footer ←? or_exit (lift (CBOR_EncodeArray footer (Z.of_nat (length rs))));
      encrypt_recipients (Keys := ks) cek rs footer zero_key) Q n.
Proof using Hmem Hbytes.
  intros Hg Hcek Hs Hw HL Hn HQ. pose proof (head_size CBOR_ARRAY (Z.of_nat (length rs))). pose proof (recipient_sizes_pos rs).
  eapply (wp_encode _ _ _ (on_ok (fun b => CBOR_EncodeArray b _))); [exact Hw|apply encodes_array; lia|lia|].
  intros b1 Hw1. eapply (wp_encrypt_recipients Hmem Hbytes ks cek Hcek _ rs); [done|done|apply zero_key_eph|exact Hw1|rewrite length_app; lia|].
  intros n' items footer' Hm Hi Hw2. apply (HQ _ items); [done|done|apply Hw2| |].
  { unfold tx_written. pose proof (proj1 (wr_wf _ _ _ Hw2)) as Hp. pose proof (wr_length _ _ _ Hw2) as Hlen. cbn [snd] in *.
    rewrite length_take. lia. }
  pose proof (wr_written _ _ _ Hw2) as Ew. cbn [snd] in Ew. by rewrite Ew, <- app_assoc, (Forall2_length _ _ _ Hi).
Qed.

(** The signature, if there is a signer. *)
Lemma wp_signature tag alg nonce signer d x y ks content payload footer r Q n : enc_tag tag -> int8 alg ->
  signer_ok ks signer x y d -> header_written tag alg nonce signer d (Z.of_nat (length content)) r ->
  concat payload ++ tx_written footer = content -> (signer <> None -> (length payload <= DPS_BUFS_MAX)%nat) ->
  Z.of_nat (length content) < 2 ^ 30 ->
  (forall n' b sig, moved n n' -> signed tag alg content d signer sig -> tx_wf b ->
     tx_written b ++ content = cose_front tag alg nonce sig content -> Q (inr b) n') ->
  wp (match r.2 with
      | Some (sig, k, pos) => sign_content tag alg (Z.of_nat (length content)) payload footer r.1 sig k pos
      | None => mret (inr r.1)
      end) Q n.
Proof using Hmem Hbytes TlsOk.
  intros Ht Ha Hs Hh Hc Hpl Hcl HQ. destruct r as [b [[[sg k] pos]|]], signer as [s|]; cbn [fst snd] in *; try done.
  - eapply wp_sign_content; [done..|by apply Hpl|done|]. intros n' b' sig Hm Hsg Hb Hw. by eapply HQ.
  - destruct Hh as [L Hw]. apply wp_ret. apply (HQ _ b None); [apply allocs_moved_refl|done|apply Hw|].
    pose proof (wr_written _ _ _ Hw) as Ew. cbn [snd fst] in Ew. rewrite Ew. unfold cose_front. cbn [wire]. by rewrite <- !app_assoc.
Qed.

Lemma wrote_app L w b bs : wrote L w (DPS_OK, b) -> (length w + length bs <= L)%nat -> Forall is_byte bs ->
  wrote L (w ++ bs) (DPS_OK, tx_app b bs).
Proof using.
  intros Hw HL Hb. pose proof (wrote_fits _ _ _ (length bs) Hw HL) as Hf. cbn [snd] in Hf.
  pose proof (wrote_pos _ _ _ Hw) as Hp. destruct Hw as [_ Hwf Hl Hw]. cbn [snd] in *. split; cbn [fst snd]; [done| | |].
  - by apply tx_app_wf.
  - by rewrite tx_app_length.
  - by rewrite tx_app_written, Hw.
Qed.

Lemma cose_front_length nonce signer ks x y d sig content : length nonce = COSE_NONCE_LEN -> signer_ok ks signer x y d ->
  signed COSE_TAG_ENCRYPT COSE_ALG_A256GCM content d signer sig ->
  Z.of_nat (length (cose_front COSE_TAG_ENCRYPT COSE_ALG_A256GCM nonce sig content)) <= 2 ^ 18 + Z.of_nat (length content).
Proof using TlsOk.
  intros Hn Hs Hsg. unfold cose_front. rewrite !length_app.
  pose proof (front_head_length COSE_TAG_ENCRYPT ltac:(by right) COSE_ALG_A256GCM ltac:(by apply (bool_decide_unpack _))) as Hf.
  pose proof (bytes_item_size content) as Hc. unfold CBOR_SIZEOF_BYTES in Hc. pose proof (sizeof_len_range (Z.of_nat (length content))).
  assert (Z.of_nat (length (front_map nonce sig)) <= 2 ^ 17); [|lia].
  destruct signer as [s|], sig as [sg|]; try done; [|by rewrite (nonce_map_length nonce Hn)].
  destruct Hsg as (Ea & Ek & (h & dg & r & t & rb & sb & _ & _ & _ & Er & Es & Eb) & _), Hs as (Hsa & _ & Hk & _).
  destruct (signer_int8 _ Hsa) as [Hs8 _]. destruct (mpi_ok _ _ _ Er) as (Lr & _), (mpi_ok _ _ _ Es) as (Ls & _).
  pose proof (curve_size _ (sig_curve_ok (sg_alg sg))) as Hsz. unfold front_map. rewrite length_app, Nat2Z.inj_add, bytes_item_size.
  pose proof (partial_map_length nonce (e_alg s) (e_kid s) Hn Hs8 Hk) as Hpm.
  assert (partial_map [] nonce (Some sg) = partial_map [] nonce (Some (mkSig (e_alg s) (e_kid s) []))) as ->.
  { unfold partial_map, partial_signature. cbn [sg_alg sg_kid]. by rewrite Ea, Ek. }
  unfold CBOR_SIZEOF_BYTES in *. rewrite Eb, length_app, Lr, Ls. pose proof (sizeof_len_range (Z.of_nat (length (e_kid s)))).
  pose proof (sizeof_len_range (Z.of_nat (CoordinateSize_EC (sig_curve (sg_alg sg)) + CoordinateSize_EC (sig_curve (sg_alg sg))))). lia.
Qed.

(** From the encryption of the content on. *)
Lemma wp_seal ks rs signer x y d nonce aad payload cek r footer Q n :
  generates ks -> signer_ok ks signer x y d -> aes_key cek -> Forall (sendable ks cek) rs -> Z.of_nat (length rs) < 2 ^ 14 ->
  length nonce = COSE_NONCE_LEN -> Forall is_byte (concat payload) -> Z.of_nat (length (concat payload)) < 2 ^ 29 ->
  recipient_sizes rs < 2 ^ 31 -> (signer <> None -> (length payload <= DPS_BUFS_MAX)%nat) ->
  header_written COSE_TAG_ENCRYPT COSE_ALG_A256GCM nonce signer d (Z.of_nat (length (concat payload)) + 16) r ->
  wrote (Z.to_nat (16 + (CBOR_SIZEOF_LEN (Z.of_nat (length rs)) + recipient_sizes rs))) [] (DPS_OK, footer) ->
  (forall n' header payload' footer, moved n n' -> map length payload' = map length payload ->
     sealed ks rs signer d nonce aad (concat payload) (header ++ concat payload' ++ footer) ->
     Q (inr (header, payload', footer)) n') ->
  wp ('(p', f') ←? or_exit
        ('(ret, p', f') ← lift (Encrypt_GCM cek nonce payload footer (wire (aad_item COSE_TAG_ENCRYPT COSE_ALG_A256GCM aad)));
         mret (ret, (p', f')));
      header ←? (match r.2 with
                 | Some (sig, k, pos) => sign_content COSE_TAG_ENCRYPT COSE_ALG_A256GCM (Z.of_nat (length (concat payload)) + 16)
                                           p' f' r.1 sig k pos
                 | None => mret (inr r.1)
                 end);
      footer ←? (footer ←? or_exit (lift (CBOR_EncodeArray f' (Z.of_nat (length rs))));
                 encrypt_recipients (Keys := ks) cek rs footer zero_key);
      mret (inr (tx_written header, p', tx_written footer))) Q n.
Proof using Hmem Hbytes TlsOk.
  intros Hg Hs Hcek Hse Hcnt Hn Hpb Hpl Hrsz Hsp Hh Hfw HQ. set (ad := wire (aad_item _ _ aad)).
  destruct (aes_gcm_length cek nonce ad (concat payload)) as [Lc Lt].
  destruct (aes_gcm_bytes cek nonce ad (concat payload) (proj2 Hcek) Hpb) as [Bc Bt].
  pose proof (recipient_sizes_pos rs). pose proof (sizeof_len_range (Z.of_nat (length rs))).
  destruct (Encrypt_GCM_ok cek nonce ad payload footer (proj1 Hcek) Hn (wr_wf _ _ _ Hfw)) as (payload' & Eg & Lp & Ec).
  { change (tx_fits (DPS_OK, footer).2 GCM_M). eapply wrote_fits; [exact Hfw|cbn [length]; unfold GCM_M; lia]. }
  apply wp_try. unfold or_exit. wp_go. eapply wp_lift; [exact Eg|]. fine. cbv beta iota.
  set (t := (aes_gcm cek nonce ad (concat payload)).2) in *.
  pose proof (wrote_app _ _ _ t Hfw ltac:(cbn [length]; unfold GCM_M in Lt; lia) Bt) as Hft. cbn [app] in Hft. clear Hfw.
  assert (gcm_content cek nonce aad (concat payload) = concat payload' ++ t) as Egc by (by rewrite Ec).
  assert (Z.of_nat (length (concat payload)) + 16 = Z.of_nat (length (concat payload' ++ t))) as El.
  { rewrite length_app, Ec, Lc, Lt. unfold GCM_M. lia. }
  rewrite El in Hh |- *. pose proof (wr_written _ _ _ Hft) as Ewt. cbn [snd] in Ewt.
  apply wp_try. eapply (wp_signature COSE_TAG_ENCRYPT COSE_ALG_A256GCM nonce signer d x y ks (concat payload' ++ t)); try done.
  { by right. } { by rewrite Ewt. }
  { intros Hne. assert (length payload' = length payload) as -> by (by rewrite <- (length_map length payload'), Lp, length_map). by apply Hsp. }
  { rewrite <- El. lia. }
  intros n1 hb sig Hm1 Hsg Hhb Hhw. cbv beta iota. apply wp_try.
  eapply (wp_footer ks cek rs _ t); [done..|exact Hft|rewrite Lt; unfold GCM_M; lia|done|].
  intros n2 items fb Hm2 Hi Hfb Lfb Efb. cbv beta iota. apply wp_ret. apply HQ; [by eapply allocs_moved_trans|done|].
  assert (tx_written hb ++ concat payload' ++ tx_written fb =
    cose_message COSE_ALG_A256GCM nonce sig (gcm_content cek nonce aad (concat payload)) items) as Em.
  { unfold cose_message. rewrite Egc, <- Hhw, Efb. by rewrite <- !app_assoc. }
  split; [exists cek, sig, items; by rewrite Em, Egc| |].
  - apply Forall_app_2; [by apply tx_written_bytes|]. apply Forall_app_2; [by rewrite Ec|by apply tx_written_bytes].
  - pose proof (cose_front_length nonce signer ks x y d sig _ Hn Hs Hsg) as Hfl. rewrite <- Hhw, !length_app in Hfl.
    rewrite !length_app. unfold GCM_M in Lt. rewrite Ec, Lc in *. lia.
Qed.

Lemma wp_encrypt_message ks rs alg signer x y d nonce aad payload Q n :
  can_send ks rs alg signer x y d -> length nonce = COSE_NONCE_LEN -> Forall is_byte nonce ->
  byte_string aad -> Z.of_nat (length aad) < 2 ^ 31 -> payload <> [] -> Forall is_byte (concat payload) ->
  Z.of_nat (length (concat payload)) < 2 ^ 29 -> (signer <> None -> (length payload <= DPS_BUFS_MAX)%nat) ->
  (forall n' header payload' footer, moved n n' -> map length payload' = map length payload ->
     sealed ks rs signer d nonce aad (concat payload) (header ++ concat payload' ++ footer) ->
     Q (inr (header, payload', footer)) n') ->
  wp (encrypt_message (Keys := ks) COSE_ALG_A256GCM nonce signer rs aad payload) Q n.
Proof using Hmem Hbytes TlsOk.
  intros [Hg Hne Ha Hr0 Hre Hd Hcnt Hs] Hn Hnb Haad Hal Hp Hpb Hpl Hsp HQ. unfold encrypt_message.
  destruct rs as [|r0 rs']; [done|]. set (rs := r0 :: rs') in *. assert (e_alg r0 = alg) as E0 by (by apply List.Forall_cons_iff in Ha as [? _]).
  assert (is_nil payload = false) as -> by (by destruct payload). rewrite (same_alg_forallb rs alg r0 Ha E0). cbn [negb].
  assert (is_nil rs' && (e_alg r0 =? COSE_ALG_RESERVED) = false) as ->.
  { apply andb_false_iff. right. rewrite E0. by apply Z.eqb_neq. }
  rewrite Z.eqb_refl. change (SetCryptoParams COSE_ALG_A256GCM) with (Some (16, AES_GCM_NONCE_LEN)). cbv beta iota zeta.
  rewrite lengths_concat. assert (int8 COSE_ALG_A256GCM) as Hi8 by by apply (bool_decide_unpack _).
  apply wp_try. eapply (wp_encrypt_header ks COSE_TAG_ENCRYPT _ _ _ x y d); [by right|done|done|done|done|lia|].
  intros n1 r Hm1 Hh. destruct r as [hb sg]. cbv beta iota.
  apply wp_try_ok. apply (wp_EncodeAAD Hmem Hbytes); [by right|done..|]. intros ab k1 _ Eab. after.
  apply wp_try. rewrite E0. eapply wp_content_key; [done..|]. intros n2 key cek Hm2 Hcek Ek Hse. cbv beta iota.
  pose proof (recipient_sizes_bound ks rs Hre) as Hsz. pose proof (recipient_sizes_pos rs). pose proof (sizeof_len_range (Z.of_nat (length rs))).
  apply wp_try_ok. change (footer_len COSE_TAG_ENCRYPT rs) with (16 + (CBOR_SIZEOF_LEN (Z.of_nat (length rs)) + recipient_sizes rs)).
  apply (wp_tx_new Hmem Hbytes); [lia|]. intros fb k2 Hfw. after. rewrite Ek.
  eapply wp_lift. { rewrite <- (app_nil_r (map Some cek)). apply cells_read_of, Hcek. }
  rewrite Eab. eapply (wp_seal ks rs signer x y d nonce aad payload cek (hb, sg)); try done.
  { lia. }
  intros n' header payload' footer Hm. apply HQ.
  eapply allocs_moved_trans; [exact Hm1|]. eapply allocs_moved_trans; [apply moved_allocs|]. eapply allocs_moved_trans; [exact Hm2|].
  by eapply allocs_moved_trans; [apply moved_allocs|].
Qed.
End Message.
