(* ===== verification/CoseOpen.v ===== *)
(** * Opening messages of COSE

    A recipient that has its key opens what was sealed for it, whatever the recipients
    before it are, and learns who signed it. *)
From S2P Require Import Prelude Status Buffer Float Cbor CborProofs CborValues BitVec BitVecSerial Uuid Addr Node.
From S2P Require Import SubMsg SubMsgProofs SubDecode Tls Keys TlsLaws Cose SendProofs PubMsgProofs CoseProofs CoseDecode.
From S2P Require Import CoseRound CoseSign CoseMsg.
From stdpp Require Import gmap.
#[local] Open Scope Z_scope.
#[local] Set Warnings "-clear-no-such-hyp".
#[local] Notation "x ←? m ; k" := (try m (fun x => k))
  (at level 20, m at level 100, k at level 200, only parsing).
#[local] Notation "' x ←? m ; k" := (try m (fun x => k))
  (at level 20, x pattern, m at level 100, k at level 200, only parsing).

Lemma decode_with_some {A} (o : option (DPS_Status * A * DPS_RxBuffer)) x b n n' :
  decode_with o n = Some (inr (x, b), n') -> o = Some (DPS_OK, x, b).
Proof.
  unfold decode_with, mbind, M_bind, lift. destruct o as [[[ret y] b']|]; [|done]. cbn [mbind option_bind].
  destruct (is_OK ret) eqn:E; [|done]. intros [= -> ->]. by destruct ret.
Qed.

Section Open.
Context `{Env : Environment} `{Tls : Mbedtls} {TlsOk : MbedtlsOk Tls}.
Context (Hmem : forall k, env_alloc k = true).
Context (Hbytes : forall k size, length (env_bytes k size) = size /\ Forall is_byte (env_bytes k size)).

Lemma answers_fun ks kid r r' : answers ks kid r -> answers ks kid r' -> r = r'.
Proof using. intros (h & E & <-) (h' & E' & <-). rewrite E in E'. by injection E' as <-. Qed.

(** ** Keys that are shared, and keys that are not there *)

Definition shared (ks kr : KeyStore) (e : COSE_Entity) : Prop :=
  e_alg e = COSE_ALG_ECDH_ES_A256KW /\
    (exists curve x y dx d x' y', key_pair curve x y d /\ coordinate_opt curve x' /\ coordinate_opt curve y' /\
       answers ks (e_kid e) (DPS_SetKey (KeyEC curve (Some x) (Some y) dx)) /\
       answers kr (e_kid e) (DPS_SetKey (KeyEC curve x' y' (Some d)))) \/
  (e_alg e = COSE_ALG_DIRECT \/ e_alg e = COSE_ALG_A256KW) /\
    (exists k, aes_key k /\ answers ks (e_kid e) (DPS_SetKey (KeySymmetric (Some k))) /\
       answers kr (e_kid e) (DPS_SetKey (KeySymmetric (Some k)))).
Definition lacks (kr : KeyStore) (e : COSE_Entity) : Prop :=
  exists err, err <> DPS_OK /\ answers kr (e_kid e) (Answer err).

(** The recipient that was read, and the key that was read with it. *)
Definition item_read (e : COSE_Entity) (it : list Z) (P : COSE_Key -> list Z -> Prop) : Prop :=
  forall r eph, length (ck_x eph) = EC_MAX_COORD_LEN -> length (ck_y eph) = EC_MAX_COORD_LEN ->
  exists eph' kw, reads it (mkRcpt (Some (e_alg e)) (Some (e_kid e)), eph', kw) (DecodeRecipient r eph) /\
    length (ck_x eph') = EC_MAX_COORD_LEN /\ length (ck_y eph') = EC_MAX_COORD_LEN /\ P eph' kw.

Lemma item_ecdh kid curve x y w (P : COSE_Key -> list Z -> Prop) : is_curve curve -> coordinate curve x -> coordinate curve y ->
  Z.of_nat (length kid) < 2 ^ 16 -> length w = AES_256_KEY_WRAP_LEN ->
  (forall eph, length (ck_x eph) = EC_MAX_COORD_LEN -> length (ck_y eph) = EC_MAX_COORD_LEN -> P (decoded_key eph curve x y) w) ->
  item_read (mkEntity COSE_ALG_ECDH_ES_A256KW kid) (wire (ecdh_item kid curve x y w)) P.
Proof using.
  intros Hc Hx Hy Hk Hw HP r eph Lx Ly. exists (decoded_key eph curve x y), w. pose proof (curve_size curve Hc).
  cbn [e_alg e_kid]. split; [apply reads_ecdh; try done; [lia|by rewrite Hw]|]. cbn [decoded_key ck_x ck_y].
  split; [rewrite over_length; [done|destruct Hx; unfold EC_MAX_COORD_LEN in *; lia]|].
  split; [rewrite over_length; [done|destruct Hy; unfold EC_MAX_COORD_LEN in *; lia]|]. by apply HP.
Qed.
Lemma item_symmetric alg kid w (P : COSE_Key -> list Z -> Prop) : alg = COSE_ALG_DIRECT \/ alg = COSE_ALG_A256KW ->
  Z.of_nat (length kid) < 2 ^ 16 -> (length w <= AES_256_KEY_WRAP_LEN)%nat -> (forall eph, P eph w) ->
  item_read (mkEntity alg kid) (wire (symmetric_item alg kid w)) P.
Proof using.
  intros Ha Hk Hw HP r eph Lx Ly. exists eph, w. split; [|by split].
  apply reads_symmetric; [destruct Ha as [-> | ->]; by apply (bool_decide_unpack _)|cbn [e_kid]; lia|unfold AES_256_KEY_WRAP_LEN in Hw; lia].
Qed.

(** Who has the key gets the content key. *)
Lemma wp_GetKeyOf kr alg kid key Q n : wp (GetKey (Keys := kr) kid key) Q n ->
  wp (GetKeyOf (Keys := kr) (mkRcpt alg (Some kid)) key) Q n.
Proof using.
  unfold GetKeyOf, GetKey. destruct (@keyHandler kr); [|done]. intros H. cbn [rc_kid]. wp_go. by eapply wp_lift.
Qed.

Definition opens (kr : KeyStore) (e : COSE_Entity) (cek : list Z) (eph : COSE_Key) (kw : list Z) : Prop :=
  forall Q n, (forall n', moved n n' -> Q (inr (map Some cek)) n') ->
  wp (recipient_key (Keys := kr) (mkRcpt (Some (e_alg e)) (Some (e_kid e))) eph kw) Q n.
Definition fails (kr : KeyStore) (e : COSE_Entity) (eph : COSE_Key) (kw : list Z) : Prop :=
  forall Q n, (forall err, Q (inl err) n) ->
  wp (recipient_key (Keys := kr) (mkRcpt (Some (e_alg e)) (Some (e_kid e))) eph kw) Q n.

Lemma KeyUnwrap_ok kek w cek : nist_kw_unwrap kek w = Some cek -> aes_key cek -> KeyUnwrap w kek = (DPS_OK, cek).
Proof using. intros E [H _]. unfold KeyUnwrap. by rewrite E, decide_True. Qed.

Lemma opens_direct kr cek eph kid : aes_key cek -> answers kr kid (DPS_SetKey (KeySymmetric (Some cek))) ->
  opens kr (mkEntity COSE_ALG_DIRECT kid) cek eph [].
Proof using.
  intros Hk Ha Q n HQ. unfold recipient_key. cbn [rc_alg rc_kid e_alg e_kid]. wp_go. eapply wp_lift; [done|]. wp_go.
  rewrite Z.eqb_refl, orb_true_r. wp_go. apply wp_try_ok.
  apply wp_GetKeyOf. eapply wp_GetKey; [exact Ha|apply SetKey_symmetric; [done|apply Hk]|]. after. apply HQ, allocs_moved_refl.
Qed.
Lemma opens_wrapped kr cek kek w eph kid : aes_key cek -> aes_key kek -> answers kr kid (DPS_SetKey (KeySymmetric (Some kek))) ->
  nist_kw_unwrap kek w = Some cek -> length w = AES_256_KEY_WRAP_LEN -> opens kr (mkEntity COSE_ALG_A256KW kid) cek eph w.
Proof using.
  intros Hc Hk Ha Eu Lw Q n HQ. unfold recipient_key. cbn [rc_alg rc_kid e_alg e_kid]. wp_go. eapply wp_lift; [done|]. wp_go.
  change ((COSE_ALG_A256KW =? COSE_ALG_RESERVED) || _) with false. rewrite Z.eqb_refl. wp_go. apply wp_try_ok.
  apply wp_GetKeyOf. eapply wp_GetKey; [exact Ha|apply SetKey_symmetric; [done|apply Hk]|]. after. rewrite bool_decide_true by done. cbn [negb ck_key].
  wp_go. eapply wp_lift. { rewrite <- (app_nil_r (map Some kek)). apply cells_read_of, Hk. }
  apply wp_try_ok. wp_go. rewrite (KeyUnwrap_ok _ _ _ Eu Hc). after. apply HQ, allocs_moved_refl.
Qed.
Lemma opens_agreed kr cek kek w eph kid curve x' y' d' x y xo yo d : aes_key cek ->
  key_pair curve x' y' d' -> key_pair curve x y d -> coordinate_opt curve xo -> coordinate_opt curve yo ->
  answers kr kid (DPS_SetKey (KeyEC curve xo yo (Some d))) -> agreed curve x y d' kek ->
  nist_kw_unwrap kek w = Some cek -> length w = AES_256_KEY_WRAP_LEN ->
  length (ck_x eph) = EC_MAX_COORD_LEN -> length (ck_y eph) = EC_MAX_COORD_LEN ->
  opens kr (mkEntity COSE_ALG_ECDH_ES_A256KW kid) cek (decoded_key eph curve x' y') w.
Proof using Hmem Hbytes TlsOk.
  intros Hcek Hp' Hp Hxo Hyo Ha Ag Eu Lw Lx Ly Q n HQ. pose proof Hp as (Hc & _ & _ & Hd & _). pose proof Hp' as (_ & Hx' & Hy' & _).
  assert (agreed curve x' y' d kek) as Ag'.
  { destruct (key_agreement _ _ _ _ _ _ _ Hp Hp') as (kek' & _ & (z & s & E1 & E2 & E3) & Ag').
    destruct Ag as (z0 & s0 & F1 & F2 & F3). rewrite E1 in F1. injection F1 as <-. rewrite E2 in F2. injection F2 as <-.
    rewrite E3 in F3. by injection F3 as <-. }
  unfold recipient_key. cbn [rc_alg rc_kid e_alg e_kid]. wp_go. eapply wp_lift; [done|]. wp_go.
  change ((COSE_ALG_ECDH_ES_A256KW =? COSE_ALG_RESERVED) || _) with false.
  change (COSE_ALG_ECDH_ES_A256KW =? COSE_ALG_A256KW) with false. rewrite Z.eqb_refl, bool_decide_true by done. cbn [negb]. wp_go.
  apply wp_try_ok. apply wp_GetKeyOf. eapply wp_GetKey; [exact Ha|by apply SetKey_ec|]. after. cbn [decoded_key ck_curve ck_x ck_y ck_d].
  eapply wp_lift; [done|]. apply wp_try. eapply (wp_derive_kek Hmem Hbytes curve _ _ _ x' y' d kek); try done.
  - by apply cells_read_of, Hx'.
  - by apply cells_read_of, Hy'.
  - by apply cells_opt_read.
  - intros k. cbv beta iota. apply wp_try_ok. wp_go. rewrite (KeyUnwrap_ok _ _ _ Eu Hcek). after. apply HQ, moved_allocs.
Qed.

Lemma wp_try_fail {A B} (m : M (DPS_Status * A)) (f : A -> M (DPS_Status + B)) Q n err : err <> DPS_OK ->
  wp m (fun p n => p.1 = err /\ Q (inl err) n) n -> wp (try (or_exit m) f) Q n.
Proof using.
  intros He H. unfold try, or_exit. do 2 apply wp_bind. eapply wp_mono; [exact H|].
  intros [ret x] n' [Hr HQ]. cbn [fst] in Hr. subst ret. by destruct err.
Qed.

Lemma fails_symmetric kr alg kid eph kw : alg = COSE_ALG_DIRECT \/ alg = COSE_ALG_A256KW -> lacks kr (mkEntity alg kid) ->
  fails kr (mkEntity alg kid) eph kw.
Proof using.
  intros Ha (err & He & Hans) Q n HQ. cbn [e_alg e_kid] in *. unfold recipient_key. cbn [rc_alg rc_kid]. wp_go. eapply wp_lift; [done|]. wp_go.
  destruct Ha as [-> | ->].
  - rewrite Z.eqb_refl, orb_true_r. wp_go. apply (wp_try_fail _ _ _ _ err He).
    apply wp_GetKeyOf. eapply wp_GetKey_none; [exact Hans|]. split; [done|apply HQ].
  - change ((COSE_ALG_A256KW =? COSE_ALG_RESERVED) || _) with false. rewrite Z.eqb_refl. wp_go.
    apply (wp_try_fail _ _ _ _ err He). apply wp_GetKeyOf. eapply wp_GetKey_none; [exact Hans|]. split; [done|apply HQ].
Qed.
Lemma fails_ecdh kr kid eph kw : lacks kr (mkEntity COSE_ALG_ECDH_ES_A256KW kid) -> length kw = AES_256_KEY_WRAP_LEN ->
  fails kr (mkEntity COSE_ALG_ECDH_ES_A256KW kid) eph kw.
Proof using.
  intros (err & He & Hans) Lw Q n HQ. cbn [e_alg e_kid] in *. unfold recipient_key. cbn [rc_alg rc_kid]. wp_go. eapply wp_lift; [done|]. wp_go.
  change ((COSE_ALG_ECDH_ES_A256KW =? COSE_ALG_RESERVED) || _) with false.
  change (COSE_ALG_ECDH_ES_A256KW =? COSE_ALG_A256KW) with false. rewrite Z.eqb_refl, bool_decide_true by done. cbn [negb]. wp_go.
  apply (wp_try_fail _ _ _ _ err He). apply wp_GetKeyOf. eapply wp_GetKey_none; [exact Hans|]. split; [done|apply HQ].
Qed.

Lemma DPS_SetKey_inj k k' : DPS_SetKey k = DPS_SetKey k' -> k = k'.
Proof using. unfold DPS_SetKey. congruence. Qed.

Lemma locked_opens ks kr cek e it : aes_key cek -> locked ks cek e it -> shared ks kr e -> Z.of_nat (length (e_kid e)) < 2 ^ 16 ->
  item_read e it (fun eph kw => opens kr e cek eph kw).
Proof using Hmem Hbytes TlsOk.
  intros Hcek Hl Hs Hk. destruct Hl as [kid Hans|kid kek w Hans Hkek Eu Lw|kid curve x y dx x' y' d' kek w Hans Hp' Ag Hkek Eu Lw];
    cbn [e_alg e_kid] in *; (destruct Hs as [(Ea & curve0 & x0 & y0 & dx0 & d & xo & yo & Hp & Hxo & Hyo & Hsk & Hrk)|(Ea & k & Hk' & Hsk & Hrk)]);
    cbn [e_alg e_kid] in *; try done; try (by destruct Ea).
  - pose proof (DPS_SetKey_inj _ _ (answers_fun _ _ _ _ Hans Hsk)) as E. injection E as <-.
    apply item_symmetric; [by left|done|cbn; lia|]. intros eph. by apply opens_direct.
  - pose proof (DPS_SetKey_inj _ _ (answers_fun _ _ _ _ Hans Hsk)) as E. injection E as <-.
    apply item_symmetric; [by right|done|lia|]. intros eph. by apply (opens_wrapped kr cek kek).
  - pose proof (DPS_SetKey_inj _ _ (answers_fun _ _ _ _ Hans Hsk)) as E. injection E as <- <- <- <-.
    pose proof Hp' as (Hc & Hx' & Hy' & _). apply item_ecdh; [done..|]. intros eph Lx Ly. by apply (opens_agreed kr cek kek w eph kid curve x' y' d' x y xo yo d).
Qed.
Lemma locked_fails ks kr cek e it : locked ks cek e it -> lacks kr e -> Z.of_nat (length (e_kid e)) < 2 ^ 16 ->
  item_read e it (fun eph kw => fails kr e eph kw).
Proof using.
  intros Hl Hn Hk. destruct Hl as [kid Hans|kid kek w Hans Hkek Eu Lw|kid curve x y dx x' y' d' kek w Hans Hp' Ag Hkek Eu Lw];
    cbn [e_alg e_kid] in *.
  - apply item_symmetric; [by left|done|cbn; lia|]. intros eph. apply fails_symmetric; [by left|done].
  - apply item_symmetric; [by right|done|lia|]. intros eph. apply fails_symmetric; [by right|done].
  - pose proof Hp' as (Hc & Hx' & Hy' & _). apply item_ecdh; [done..|]. intros eph Lx Ly. by apply fails_ecdh.
Qed.
Lemma locked_length ks cek e it : locked ks cek e it -> (1 <= length it)%nat.
Proof using.
  destruct 1; cbn [symmetric_item ecdh_item wire length]; rewrite length_app;
    match goal with |- context [cbor_head CBOR_ARRAY ?k] => pose proof (cbor_head_sizeof CBOR_ARRAY k); pose proof (sizeof_len_range k) end; lia.
Qed.

(** ** The loop over the recipients *)

Lemma wp_plain_buffer len clen Q n : clen = (len + GCM_M)%nat -> Z.of_nat len < 2 ^ 31 ->
  (forall b k, wrote len [] (DPS_OK, b) -> Q (DPS_OK, b) (n <| n_allocs := k |>)) ->
  wp (plain_buffer (mkTx [] 0) clen) Q n.
Proof using Hmem Hbytes.
  intros -> Hl HQ. unfold plain_buffer. rewrite decide_False by lia. cbn [tx_mem is_nil].
  replace (len + GCM_M - GCM_M)%nat with len by lia. destruct (decide (len = 0%nat)) as [-> |].
  - unfold tx_new. wp_go. apply wp_malloc_any. rewrite Hmem. wp_go. cbn. apply HQ. split; cbn [fst snd tx_mem]; [done| |done|done].
    split; [cbn; lia|]. by split.
  - apply (wp_tx_new Hmem Hbytes); [lia|]. intros b k Hw. rewrite Nat2Z.id in Hw. by apply HQ.
Qed.

Definition bounded (e : COSE_Entity) : Prop := Z.of_nat (length (e_kid e)) < 2 ^ 16.

Section Loop.
Context (ks kr : KeyStore) (cek nonce AAD p : list Z) (Hcek : aes_key cek) (Hn : length nonce = COSE_NONCE_LEN).
Context (Hp : Z.of_nat (length p) < 2 ^ 29).
Let content := (aes_gcm cek nonce AAD p).1 ++ (aes_gcm cek nonce AAD p).2.

(** The recipient that has the key. *)
Lemma wp_decrypt_match fuel sz e it b tl r eph ret Q n : locked ks cek e it -> shared ks kr e -> bounded e ->
  rx_wf b -> rx_rest b = it ++ tl -> (0 < fuel)%nat -> sz <> 0 ->
  length (ck_x eph) = EC_MAX_COORD_LEN -> length (ck_y eph) = EC_MAX_COORD_LEN ->
  (forall n' plain, moved n n' -> tx_written plain = p ->
     Q (DPS_OK, mkRcpt (Some (e_alg e)) (Some (e_kid e)), plain) n') ->
  wp (decrypt_recipients (Keys := kr) fuel sz COSE_TAG_ENCRYPT (map Some nonce) content AAD b r eph ret (mkTx [] 0)) Q n.
Proof using Hmem Hbytes TlsOk Hcek Hn Hp.
  intros Hl Hs Hk Hb Er Hf Hsz Lx Ly HQ. destruct fuel as [|fuel]; [lia|]. cbn [decrypt_recipients].
  rewrite (proj2 (Z.eqb_neq sz 0)) by done. wp_go. rewrite Z.eqb_refl.
  destruct (locked_opens ks kr cek e it Hcek Hl Hs Hk r eph Lx Ly) as (eph' & kw & Hread & _ & _ & Hopens).
  destruct (Hread b tl n Hb Er) as (b' & E & _ & _). eapply run_wp; [exact E|]. wp_go. apply Hopens. intros n1 Hm1. wp_go.
  destruct (aes_gcm_length cek nonce AAD p) as [Lc Lt].
  apply (wp_plain_buffer (length p)); [unfold content; rewrite length_app; lia|lia|]. intros pb k Hw. ok.
  eapply wp_lift. { rewrite <- (app_nil_r (map Some cek)). apply cells_read_of, Hcek. } wp_go.
  eapply wp_lift. { rewrite <- (app_nil_r (map Some nonce)). apply cells_read_of, Hn. } wp_go.
  eapply wp_lift. { apply (Decrypt_GCM_ok cek nonce AAD p pb (proj1 Hcek) Hn (wr_wf _ _ _ Hw)).
    - exact (wrote_pos _ _ _ Hw).
    - apply (wr_length _ _ _ Hw). }
  ok. apply HQ; [eapply allocs_moved_trans; [exact Hm1|apply moved_allocs]|]. unfold tx_written. cbn [tx_pos tx_mem]. by rewrite take_ge.
Qed.

(** Those before it do not. *)
Lemma wp_decrypt_recipients pre itp e it fuel sz b tl r eph ret Q n :
  Forall2 (locked ks cek) pre itp -> Forall (lacks kr) pre -> Forall bounded pre ->
  locked ks cek e it -> shared ks kr e -> bounded e ->
  rx_wf b -> rx_rest b = concat itp ++ it ++ tl -> (length pre < fuel)%nat -> Z.of_nat (length pre) < sz ->
  length (ck_x eph) = EC_MAX_COORD_LEN -> length (ck_y eph) = EC_MAX_COORD_LEN ->
  (forall n' plain, moved n n' -> tx_written plain = p ->
     Q (DPS_OK, mkRcpt (Some (e_alg e)) (Some (e_kid e)), plain) n') ->
  wp (decrypt_recipients (Keys := kr) fuel sz COSE_TAG_ENCRYPT (map Some nonce) content AAD b r eph ret (mkTx [] 0)) Q n.
Proof using Hmem Hbytes TlsOk Hcek Hn Hp.
  intros Hlp. revert fuel sz b r eph ret n. induction Hlp as [|e0 it0 pre itp Hl0 _ IH];
    intros fuel sz b r eph ret n Hla Hbd Hl Hs Hk Hb Er Hf Hsz Lx Ly HQ.
  - cbn [length concat app] in *. apply (wp_decrypt_match fuel sz e it b tl); try done; lia.
  - apply List.Forall_cons_iff in Hla as [Hla0 Hla], Hbd as [Hbd0 Hbd]. cbn [length concat] in *. rewrite <- app_assoc in Er.
    destruct fuel as [|fuel]; [lia|]. cbn [decrypt_recipients]. rewrite (proj2 (Z.eqb_neq sz 0)) by lia. wp_go. rewrite Z.eqb_refl.
    destruct (locked_fails ks kr cek e0 it0 Hl0 Hla0 Hbd0 r eph Lx Ly) as (eph' & kw & Hread & Lx' & Ly' & Hfails).
    destruct (Hread b _ n Hb Er) as (b' & E & Hb' & Er'). eapply run_wp; [exact E|]. wp_go. apply Hfails. intros err. wp_go.
    apply IH; try done; lia.
Qed.
End Loop.

(** ** The front of a message *)

Lemma wp_decrypt_front nonce sig content rest Q n : length nonce = COSE_NONCE_LEN ->
  (forall s, sig = Some s -> signature_ok s) -> Z.of_nat (length content) < 2 ^ 32 ->
  Forall is_byte (cose_front COSE_TAG_ENCRYPT COSE_ALG_A256GCM nonce sig content ++ rest) ->
  Z.of_nat (length (cose_front COSE_TAG_ENCRYPT COSE_ALG_A256GCM nonce sig content ++ rest)) < 2 ^ 32 ->
  (forall b, rx_wf b -> rx_rest b = rest ->
     Q (inr (COSE_TAG_ENCRYPT, COSE_ALG_A256GCM, map Some nonce, default (mkSig 0 [] []) sig, content, b)) n) ->
  wp (decrypt_front (cose_front COSE_TAG_ENCRYPT COSE_ALG_A256GCM nonce sig content ++ rest)) Q n.
Proof using.
  intros Hn Hs Hc Hb Hl HQ. set (msg := cose_front _ _ _ _ _ ++ rest) in *. unfold decrypt_front.
  assert (DPS_RxBufferInit msg (length msg) = (DPS_OK, mkRx msg (length msg) 0)) as ->.
  { unfold DPS_RxBufferInit. rewrite decide_False; [done|]. unfold msg, cose_front, front_head. rewrite !length_app.
    change (length (cbor_head CBOR_TAG COSE_TAG_ENCRYPT)) with 2%nat. lia. }
  cbn [snd]. set (b0 := mkRx msg (length msg) 0).
  assert (rx_wf b0) as Hb0 by (unfold rx_wf, b0; cbn [rx_pos rx_eod rx_mem]; split_and!; [lia|lia|lia|done]).
  assert (rx_rest b0 = cbor_head CBOR_TAG COSE_TAG_ENCRYPT ++ cbor_head CBOR_ARRAY 4 ++ wire (protected_item COSE_ALG_A256GCM) ++
    front_map nonce sig ++ wire (CBytes content) ++ rest) as E0.
  { unfold rx_rest, b0. cbn [rx_pos rx_eod rx_mem]. rewrite Nat.sub_0_r, drop_0, take_ge by lia. unfold msg, cose_front, front_head.
    by rewrite <- !app_assoc. }
  clearbody b0. pose proof (rx_skip_app_wf _ _ _ Hb0 E0) as Hb1. pose proof (rx_rest_skip_app _ _ _ E0) as E1.
  wp_go. eapply wp_lift.
  { unfold CBOR_DecodeTag. rewrite (DecodeUint_spec b0 CBOR_TAG COSE_TAG_ENCRYPT 0 _ Hb0) by (first [major|lia|exact E0|done]).
    cbn [mbind option_bind]. change (is_OK DPS_OK) with true. done. }
  cbv beta iota. change (negb (is_OK DPS_OK && _)) with false. cbv iota.
  destruct (reads_array 4 ltac:(lia) _ _ n Hb1 E1) as (b2 & F2 & Hb2 & E2).
  apply wp_try. eapply run_wp; [exact F2|]. cbv beta iota. change (negb (4 =? _)) with false. cbv iota.
  destruct (reads_protected COSE_ALG_A256GCM ltac:(by apply (bool_decide_unpack _)) _ _ n Hb2 E2) as (b3 & F3 & Hb3 & E3).
  wp_go. eapply run_wp; [exact F3|]. cbv beta iota. change (COSE_ALG_A256GCM =? COSE_ALG_RESERVED) with false.
  change (SetCryptoParams COSE_ALG_A256GCM) with (Some (16, AES_GCM_NONCE_LEN)). cbv iota.
  destruct (reads_front nonce sig Hn Hs _ _ n Hb3 E3) as (b4 & F4 & Hb4 & E4).
  apply wp_try. eapply run_wp; [exact F4|]. cbv beta iota.
  destruct (reads_bytes content Hc _ _ n Hb4 E4) as (b5 & F5 & Hb5 & E5).
  apply wp_try. eapply run_wp; [exact F5|]. cbv beta iota. apply wp_ret. by apply HQ.
Qed.

(** ** Who signed it *)

Definition recognised (kr : KeyStore) (signer : option COSE_Entity) (x y : list Z) (who : COSE_Entity) : Prop :=
  match signer with
  | None => who = no_entity
  | Some s => knows kr s x y /\ who = s \/ lacks kr s /\ who = no_entity
  end.

Lemma wp_VerifySignature_unknown kr tag alg sig aad content Q n : enc_tag tag \/ tag = COSE_TAG_SIGN1 -> int8 alg -> signer_alg (sg_alg sig) ->
  byte_string aad -> Z.of_nat (length aad) + Z.of_nat (length content) < 2 ^ 31 ->
  lacks kr (mkEntity (sg_alg sig) (sg_kid sig)) -> (forall n' err, moved n n' -> Q (inl err) n') ->
  wp (VerifySignature (Keys := kr) tag alg sig aad content) Q n.
Proof using Hmem Hbytes.
  intros Ht Ha Hs Haad HL (err & He & (h & Eh & Ek)) HQ. cbn [e_kid] in Ek. destruct (signer_int8 _ Hs) as [Hs8 _].
  unfold VerifySignature. apply wp_try_ok. apply (wp_EncodePartialSig Hmem Hbytes tag alg (sg_alg sig) aad content); [unfold enc_tag in Ht; tauto|done..|].
  intros b k Hb Hw. after. apply (wp_try_fail _ _ _ _ err He). unfold GetSignatureKey. rewrite Eh.
  assert ((sg_alg sig =? COSE_ALG_ES384) || (sg_alg sig =? COSE_ALG_ES512) = true) as -> by (destruct Hs as [-> | ->]; done).
  cbv zeta. wp_go. rewrite Ek. eapply wp_lift; [done|]. cbv beta iota. destruct err; try done;
    (cbn [is_OK negb]; apply wp_ret; split; [done|apply HQ, moved_allocs]).
Qed.

Lemma wp_verified kr ks signer x y d sig content who n (Q : COSE_Entity -> DPS_Node -> Prop) :
  signer_ok ks signer x y d -> signed COSE_TAG_ENCRYPT COSE_ALG_A256GCM content d signer sig ->
  recognised kr signer x y who -> Z.of_nat (length content) < 2 ^ 30 -> (forall n', moved n n' -> Q who n') ->
  wp (if is_nil (sg_sig (default (mkSig 0 [] []) sig)) then mret no_entity
      else v ← VerifySignature (Keys := kr) COSE_TAG_ENCRYPT COSE_ALG_A256GCM (default (mkSig 0 [] []) sig) [] content;
           mret (verified v)) Q n.
Proof using Hmem Hbytes TlsOk.
  intros Hs Hsg Hr Hc HQ. destruct signer as [s|], sig as [sg|]; cbn [signed signer_ok recognised from_option id sg_sig is_nil] in *; try done.
  - destruct Hsg as (Ea & Ek & Hon & Hsb). destruct Hs as (Hsa & Hkid & _ & Hp & _).
    assert (sg_sig sg <> []) as Hne.
    { unfold signature_on in Hon. intros E. rewrite E in Hon. destruct Hon as (h & dg & r & t & rb & sb & _ & _ & _ & Er & _ & Eapp).
      destruct (mpi_ok _ _ _ Er) as (Lr & _). pose proof (curve_size _ (sig_curve_ok (sg_alg sg))) as Hz.
      symmetry in Eapp. apply app_eq_nil in Eapp as [-> _]. cbn in Lr. lia. }
    assert (is_nil (sg_sig sg) = false) as -> by (by destruct (sg_sig sg)). wp_go.
    assert (mkEntity (sg_alg sg) (sg_kid sg) = s) as Es by (rewrite Ea, Ek; by destruct s).
    assert (int8 COSE_ALG_A256GCM) as Hi8 by by apply (bool_decide_unpack _).
    destruct Hr as [[Hkn ->]|[Hla ->]].
    + eapply (wp_VerifySignature Hmem Hbytes kr _ _ sg [] content x y d); [tauto|done|by rewrite Ea|done|cbn [length]; lia|done|by rewrite Ea|by rewrite Es|].
      intros n' Hm. wp_go. cbn [verified]. rewrite Es. by apply HQ.
    + eapply wp_VerifySignature_unknown; [by left; right|done|by rewrite Ea|done|cbn [length]; lia|by rewrite Es|].
      intros n' err Hm. wp_go. cbn [verified]. by apply HQ.
  - apply wp_ret. subst who. apply HQ, allocs_moved_refl.
Qed.

(** ** A whole message *)

Lemma concat_items_length ks cek rs items : Forall2 (locked ks cek) rs items -> (length rs <= length (concat items))%nat.
Proof using.
  induction 1 as [|e it rs items Hl _ IH]; [done|]. pose proof (locked_length _ _ _ _ Hl). cbn [length concat]. rewrite length_app. lia.
Qed.

Lemma signed_ok signer ks x y d content sig : signer_ok ks signer x y d -> signed COSE_TAG_ENCRYPT COSE_ALG_A256GCM content d signer sig ->
  forall s, sig = Some s -> signature_ok s.
Proof using.
  intros Hs Hsg s ->. destruct signer as [e|]; [|done]. destruct Hsg as (Ea & Ek & _ & Hb), Hs as (Hsa & Hkid & _).
  destruct (signer_int8 _ Hsa). unfold signature_ok. by rewrite Ea, Ek.
Qed.

Lemma wp_decrypt_content ks kr cek nonce aad p pre e post items r tl b Q n : aes_key cek -> length nonce = COSE_NONCE_LEN ->
  Z.of_nat (length p) < 2 ^ 29 -> byte_string aad -> Z.of_nat (length aad) < 2 ^ 31 ->
  Forall2 (locked ks cek) (pre ++ e :: post) items -> Forall (lacks kr) pre -> Forall bounded pre -> shared ks kr e -> bounded e ->
  Z.of_nat (length items) < 2 ^ 32 -> rx_wf b -> rx_rest b = cbor_head CBOR_ARRAY (Z.of_nat (length items)) ++ concat items ++ tl ->
  (forall n', moved n n' -> Q (DPS_OK, mkRcpt (Some (e_alg e)) (Some (e_kid e)), p) n') ->
  wp (decrypt_content (Keys := kr) COSE_TAG_ENCRYPT COSE_ALG_A256GCM (map Some nonce) aad (gcm_content cek nonce aad p) b r) Q n.
Proof using Hmem Hbytes TlsOk.
  intros Hcek Hn Hp Haad Hal Hl Hla Hbd Hs Hk Hc Hb Er HQ. unfold decrypt_content. wp_go.
  apply (wp_EncodeAAD Hmem Hbytes); [by right|by apply (bool_decide_unpack _)|done|done|]. intros ab k _ Eab. ok.
  change (COSE_TAG_ENCRYPT =? COSE_TAG_ENCRYPT0) with false. cbv iota. wp_go.
  destruct (reads_array (Z.of_nat (length items)) ltac:(lia) _ _ (n <| n_allocs := k |>) Hb Er) as (b1 & F1 & Hb1 & E1).
  apply decode_with_some in F1. eapply wp_lift; [exact F1|]. fine.
  apply Forall2_app_inv_l in Hl as (itp & it' & Hlp & Hl & ->). inversion Hl as [|? it ? itq Hle Hlq]; subst.
  pose proof (concat_items_length _ _ _ _ Hlp) as Hpl. pose proof (locked_length _ _ _ _ Hle) as Hel.
  rewrite concat_app in E1. cbn [concat] in E1. rewrite <- !app_assoc in E1. unfold gcm_content. rewrite <- Eab.
  eapply (wp_decrypt_recipients ks kr cek nonce _ p Hcek Hn Hp pre itp e it); try done.
  - unfold skip_fuel. rewrite (rx_avail_app b1 _ _ Hb1 E1). lia.
  - rewrite length_app. cbn [length]. rewrite <- (Forall2_length _ _ _ Hlp). lia.
  - intros n' plain Hm Ew. wp_go. change (is_OK DPS_OK) with true. cbv iota. rewrite Ew. apply HQ. eapply allocs_moved_trans; [apply moved_allocs|exact Hm].
Qed.

Lemma wp_COSE_Decrypt ks kr rs pre e post signer x y d nonce aad p msg r who Q n :
  sealed ks rs signer d nonce aad p msg -> rs = pre ++ e :: post -> Forall bounded rs -> Forall (lacks kr) pre -> shared ks kr e ->
  signer_ok ks signer x y d -> recognised kr signer x y who -> length nonce = COSE_NONCE_LEN -> Z.of_nat (length rs) < 2 ^ 14 ->
  byte_string aad -> Z.of_nat (length aad) < 2 ^ 31 -> Z.of_nat (length p) < 2 ^ 29 ->
  (forall n', moved n n' -> Q (DPS_OK, mkRcpt (Some (e_alg e)) (Some (e_kid e)), who, p) n') ->
  wp (COSE_Decrypt (Keys := kr) r aad msg) Q n.
Proof using Hmem Hbytes TlsOk.
  intros [(cek & sig & items & Hcek & Hl & Hsg & ->) Hb Hmsg] -> Hbd Hla Hs Hsig Hr Hn Hcnt Haad Hal Hp HQ.
  apply List.Forall_app in Hbd as [Hbd Hbe]. apply List.Forall_cons_iff in Hbe as [Hbe _].
  assert (Z.of_nat (length (gcm_content cek nonce aad p)) < 2 ^ 30) as Hgl.
  { unfold gcm_content. destruct (aes_gcm_length cek nonce (wire (aad_item COSE_TAG_ENCRYPT COSE_ALG_A256GCM aad)) p) as [L1 L2].
    rewrite length_app, L1, L2. unfold GCM_M. lia. }
  unfold COSE_Decrypt. wp_go. unfold cose_message in *.
  apply wp_decrypt_front; [done|exact (signed_ok signer ks x y d _ sig Hsig Hsg)|lia|done|done|]. intros b Hbw Er. wp_go.
  eapply (wp_verified kr ks signer x y d sig _ who); [done..|]. intros n1 Hm1. wp_go.
  eapply (wp_decrypt_content ks kr cek nonce aad p pre e post items r []); try done.
  - rewrite <- (Forall2_length _ _ _ Hl). lia.
  - by rewrite app_nil_r.
  - intros n2 Hm2. wp_go. apply HQ. by eapply allocs_moved_trans.
Qed.
End Open.
