(* ===== verification/CoseVerify.v ===== *)
(** * Signed messages of COSE, and what an accepted message proves

    What is signed is verified.  Whatever [COSE_Decrypt] accepts, with a recipient, is what
    a holder of the content key encrypted with the same authenticated data. *)
From S2P Require Import Prelude Status Buffer Float Cbor CborProofs CborValues BitVec BitVecSerial Uuid Addr Node.
From S2P Require Import SubMsg SubMsgProofs SubDecode Tls Keys TlsLaws Cose SendProofs PubMsgProofs CoseProofs CoseDecode.
From S2P Require Import CoseRound CoseSign CoseMsg CoseOpen.
From stdpp Require Import gmap.
#[local] Open Scope Z_scope.
#[local] Set Warnings "-clear-no-such-hyp".

Section Verify.
Context `{Env : Environment} `{Tls : Mbedtls} {TlsOk : MbedtlsOk Tls}.
Context (Hmem : forall k, env_alloc k = true).
Context (Hbytes : forall k size, length (env_bytes k size) = size /\ Forall is_byte (env_bytes k size)).

Lemma wrote_length L w p : wrote L w p -> (length w <= L)%nat.
Proof using. intros H. rewrite <- (wrote_pos _ _ _ H), <- (wr_length _ _ _ H). apply (wr_wf _ _ _ H). Qed.

Definition sign1_head (alg : Z) (kid : list Z) : list Z :=
  cbor_head CBOR_TAG COSE_TAG_SIGN1 ++ cbor_head CBOR_ARRAY 4 ++ wire (protected_item alg) ++ wire (CMap (kid_entries kid)).

(** The bytes that [COSE_Sign] puts around a content. *)
Record sign1 (s : COSE_Entity) (d aad content header footer : list Z) : Prop := {
  s1_parts : exists bytes, signature_on COSE_TAG_SIGN1 (e_alg s) aad content d (mkSig (e_alg s) (e_kid s) bytes) /\
    byte_string bytes /\ header = sign1_head (e_alg s) (e_kid s) ++ cbor_head CBOR_BYTES (Z.of_nat (length content)) /\
    footer = wire (CBytes bytes);
  s1_bytes : Forall is_byte header /\ Forall is_byte footer;
  s1_length : Z.of_nat (length header) + Z.of_nat (length footer) < 2 ^ 20
}.

(** The header of a signed message, in a buffer that is large enough. *)
Lemma wp_sign_header {A} alg kid len (g : DPS_TxBuffer -> M (DPS_Status + A)) Q n L b :
  int8 alg -> byte_string kid -> 0 <= len < 2 ^ 32 -> wrote L [] (DPS_OK, b) ->
  12 + CBOR_SIZEOF_BYTES (Z.of_nat (length kid)) + CBOR_SIZEOF_LEN len <= Z.of_nat L ->
  (forall b', wrote L (sign1_head alg kid ++ cbor_head CBOR_BYTES len) (DPS_OK, b') -> wp (g b') Q n) ->
  wp (try (or_exit (lift (CBOR_EncodeTag b COSE_TAG_SIGN1))) (fun b =>
      try (or_exit (lift (CBOR_EncodeArray b 4))) (fun b =>
      try (or_exit (lift (EncodeProtectedMap alg (DPS_OK, b)))) (fun b =>
      try (or_exit (lift (EncodeUnprotectedMap kid [] None (DPS_OK, b)))) (fun b =>
      try (or_exit (lift (CBOR_EncodeLength b len CBOR_BYTES))) g))))) Q n.
Proof using.
  intros Ha Hk Hl Hw HL HQ. pose proof (protected_item_size alg Ha) as Hp. change SIZEOF_PROTECTED_MAP with 6 in Hp.
  assert (Z.of_nat (length (wire (CMap (kid_entries kid ++ iv_entries [])))) <= 2 + CBOR_SIZEOF_BYTES (Z.of_nat (length kid))) as Hm.
  { pose proof (bytes_item_size kid) as Hs. unfold kid_entries. destruct kid as [|z kid]; [by cbn|]. cbn [is_nil iv_entries app].
    change (wire (CMap [(CInt COSE_HDR_KID, CBytes (z :: kid))])) with
      (cbor_head CBOR_MAP 1 ++ (wire (CInt COSE_HDR_KID) ++ wire (CBytes (z :: kid))) ++ []).
    rewrite !length_app, !Nat2Z.inj_add, Hs. change (Z.of_nat (length (cbor_head CBOR_MAP 1))) with 1.
    change (Z.of_nat (length (wire (CInt COSE_HDR_KID)))) with 1. cbn [length]. lia. }
  pose proof (head_size CBOR_BYTES len) as Hh. assert (length (cbor_head CBOR_TAG COSE_TAG_SIGN1) = 1%nat) as H1 by done.
  assert (length (cbor_head CBOR_ARRAY 4) = 1%nat) as H2 by done.
  eapply (wp_encode _ _ _ (on_ok (fun b => CBOR_EncodeTag b _))); [exact Hw|by apply encodes_tag|cbn [length]; lia|]. clear Hw. intros b1 Hw.
  eapply (wp_encode _ _ _ (on_ok (fun b => CBOR_EncodeArray b 4))); [exact Hw|by apply encodes_array|rewrite ?length_app; cbn [length]; lia|].
  clear Hw. intros b2 Hw.
  eapply (wp_encode _ _ _ (EncodeProtectedMap alg)); [exact Hw|by apply encodes_protected|rewrite ?length_app; cbn [length]; lia|].
  clear Hw. intros b3 Hw.
  eapply (wp_encode _ _ _ (EncodeUnprotectedMap kid [] None)); [exact Hw|by apply encodes_unprotected|rewrite ?length_app in *; cbn [length]; lia|].
  clear Hw. intros b4 Hw.
  eapply (wp_encode _ _ _ (on_ok (fun b => CBOR_EncodeLength b len CBOR_BYTES))); [exact Hw|by apply encodes_length|rewrite ?length_app in *; cbn [length]; lia|].
  intros b5 Hw5. apply HQ. unfold sign1_head.
  rewrite <- !app_assoc in Hw5 |- *. cbn [iv_entries is_nil app] in Hw5. by rewrite app_nil_r in Hw5.
Qed.

Lemma wp_COSE_Sign ks s x y d aad payload Q n : signs ks s x y d -> byte_string aad -> payload <> [] ->
  (length payload <= DPS_BUFS_MAX)%nat -> Z.of_nat (length aad) + Z.of_nat (length (concat payload)) < 2 ^ 31 ->
  (forall n' header footer, moved n n' -> sign1 s d aad (concat payload) header footer -> Q (DPS_OK, header, footer) n') ->
  wp (COSE_Sign (Keys := ks) s aad payload) Q n.
Proof using Hmem Hbytes TlsOk.
  intros (Hsa & Hkid & Hkl & Hp & x' & y' & Hx' & Hy' & Hans) Haad Hne Hcnt Hlen HQ. destruct (signer_int8 _ Hsa) as [Hs8 _].
  pose proof Hp as (Hc & _ & _ & Hd & _). pose proof (curve_size _ Hc) as Hsz. unfold COSE_Sign. wp_go. unfold sign_message.
  assert (is_nil payload = false) as -> by (by destruct payload). apply wp_try_ok.
  apply (wp_tx_new Hmem Hbytes); [by unfold SIZEOF_SIGNATURE|]. intros sb k0 Hsb. after. rewrite lengths_concat.
  apply wp_try_ok. apply (wp_EncodePartialSig Hmem Hbytes COSE_TAG_SIGN1 (e_alg s) COSE_ALG_RESERVED aad (concat payload));
    [tauto|done|by apply (bool_decide_unpack _)|done|lia|]. intros tb k1 _ Htb. after.
  apply wp_try_ok. eapply (wp_GetSignatureKey ks (mkSig (e_alg s) (e_kid s) [])); [done|exact Hx'|exact Hy'|by instantiate (1 := Some d)|exact Hans|].
  after. cbn [ck_curve ck_d sg_alg]. unfold assert. rewrite bool_decide_true by lia. wp_go. eapply wp_lift; [done|]. wp_go.
  assert (DPS_TxBufferSpace sb = 132) as Esp.
  { rewrite DPS_TxBufferSpace_spec by apply (wr_wf _ _ _ Hsb). unfold tx_space. pose proof (wr_length _ _ _ Hsb) as Hl.
    pose proof (wrote_pos _ _ _ Hsb) as Hps. cbn [snd length] in *. rewrite Hl, Hps. done. }
  destruct (Sign_ECDSA_ok _ x y d (cells_opt (Some d)) (tx_written tb :: payload) (DPS_TxBufferSpace sb) Hp)
    as (bytes & Es & Hsig & Lb & Bb); [by apply cells_opt_read|lia|]. apply wp_try_ok. eapply wp_lift; [exact Es|]. after.
  set (kl := Z.of_nat (length (e_kid s))) in *. set (pl := Z.of_nat (length (concat payload))) in *.
  change (CBOR_SIZEOF 1 + CBOR_SIZEOF_LEN 4 + _ + _ + _ + CBOR_SIZEOF_LEN pl) with
    (2 + 1 + 6 + 1 + (2 + (1 + 6 + 1 + 2 + CBOR_SIZEOF_BYTES kl + 134)) + CBOR_SIZEOF_LEN pl).
  pose proof (sizeof_len_range kl). pose proof (sizeof_len_range pl).
  apply wp_try_ok. apply (wp_tx_new Hmem Hbytes); [unfold CBOR_SIZEOF_BYTES; lia|]. intros hb k2 Hhb. after.
  eapply (wp_sign_header (e_alg s) (e_kid s)); [done|done|lia|exact Hhb|fold kl; unfold CBOR_SIZEOF_BYTES; lia|].
  intros hb' Hhw. apply wp_try_ok. change (CBOR_SIZEOF_BYTES SIZEOF_SIGNATURE) with 134.
  apply (wp_tx_new Hmem Hbytes); [lia|]. intros fb k3 Hfb. after.
  assert (byte_string bytes) as Hbs by (split; [lia|done]). pose proof (bytes_item_size bytes) as Hbi.
  pose proof (sizeof_len_small (Z.of_nat (length bytes)) ltac:(lia)). unfold CBOR_SIZEOF_BYTES in Hbi.
  eapply (wp_encode _ _ _ (encode_bytes bytes)); [exact Hfb|by apply encodes_bytes|cbn [length]; lia|].
  intros fb' Hfw. apply wp_ret. cbv beta iota. apply wp_ret. apply HQ; [by do 4 eapply allocs_moved_trans; [apply moved_allocs|..]; apply allocs_moved_refl|].
  pose proof (wr_written _ _ _ Hhw) as Eh. pose proof (wr_written _ _ _ Hfw) as Ef. cbn [snd app] in Eh, Ef.
  pose proof (wrote_length _ _ _ Hhw) as Lh. pose proof (wrote_length _ _ _ Hfw) as Lf. cbn [app] in Lf.
  rewrite Eh, Ef. split.
  - exists bytes. split; [|by split]. unfold signature_on. cbn [sg_alg sg_sig]. rewrite Z.eqb_refl, <- Htb. exact Hsig.
  - rewrite <- Eh, <- Ef. split; apply tx_written_bytes; [apply (wr_wf _ _ _ Hhw)|apply (wr_wf _ _ _ Hfw)].
  - unfold CBOR_SIZEOF_BYTES in Lh. lia.
Qed.

(** The buffer that holds a signed message. *)
Lemma sign1_buffer s d aad content header footer : sign1 s d aad content header footer -> Forall is_byte content ->
  Z.of_nat (length content) < 2 ^ 31 ->
  exists b bytes, DPS_RxBufferInit (header ++ content ++ footer) (length (header ++ content ++ footer)) = (DPS_OK, b) /\ rx_wf b /\
    signature_on COSE_TAG_SIGN1 (e_alg s) aad content d (mkSig (e_alg s) (e_kid s) bytes) /\ byte_string bytes /\
    rx_rest b = cbor_head CBOR_TAG COSE_TAG_SIGN1 ++ cbor_head CBOR_ARRAY 4 ++ wire (protected_item (e_alg s)) ++
      wire (CMap (kid_entries (e_kid s))) ++ wire (CBytes content) ++ wire (CBytes bytes) ++ [].
Proof using.
  intros [(bytes & Hon & Hbs & Eh & Ef) [Bh Bf] Hl] Hcb Hlen. set (msg := header ++ content ++ footer).
  exists (mkRx msg (length msg) 0), bytes. split; [|split; [|split; [done|split; [done|]]]].
  - unfold DPS_RxBufferInit. rewrite decide_False; [done|]. unfold msg. rewrite Eh. unfold sign1_head. rewrite !length_app.
    change (length (cbor_head CBOR_TAG COSE_TAG_SIGN1)) with 1%nat. lia.
  - unfold rx_wf. cbn [rx_pos rx_eod rx_mem]. split; [lia|]. split; [unfold msg; rewrite !length_app; lia|].
    by repeat apply Forall_app_2.
  - unfold rx_rest. cbn [rx_pos rx_eod rx_mem]. rewrite Nat.sub_0_r, drop_0, take_ge by lia. unfold msg. rewrite Eh, Ef. unfold sign1_head.
    cbn [wire]. by rewrite app_nil_r, <- !app_assoc.
Qed.

Lemma wp_COSE_Verify kr s x y d aad content header footer who Q n : signer_alg (e_alg s) -> byte_string (e_kid s) ->
  key_pair (sig_curve (e_alg s)) x y d -> byte_string aad -> Forall is_byte content ->
  Z.of_nat (length aad) + Z.of_nat (length content) < 2 ^ 31 -> sign1 s d aad content header footer ->
  recognised kr (Some s) x y who -> (forall n', moved n n' -> Q (DPS_OK, who, content) n') ->
  wp (COSE_Verify (Keys := kr) aad (header ++ content ++ footer)) Q n.
Proof using Hmem Hbytes TlsOk.
  intros Hsa [Hkl Hkb] Hp Haad Hcb Hlen Hs1 Hr HQ. destruct (signer_int8 _ Hsa) as [Hs8 _].
  destruct (sign1_buffer _ _ _ _ _ _ Hs1 Hcb ltac:(lia)) as (b0 & bytes & Ei & Hb0 & Hon & Hbs & E0).
  unfold COSE_Verify. wp_go. unfold verify_message. rewrite Ei.
  cbn [snd]. pose proof (rx_skip_app_wf _ _ _ Hb0 E0) as Hb1. pose proof (rx_rest_skip_app _ _ _ E0) as E1.
  wp_go. eapply wp_lift.
  { unfold CBOR_DecodeTag. rewrite (DecodeUint_spec b0 CBOR_TAG COSE_TAG_SIGN1 0 _ Hb0) by (first [major|lia|exact E0|done]).
    cbn [mbind option_bind]. change (is_OK DPS_OK) with true. done. }
  cbv beta iota. change (negb (is_OK DPS_OK && _)) with false. cbv iota.
  destruct (reads_array 4 ltac:(lia) _ _ n Hb1 E1) as (b2 & F2 & Hb2 & E2).
  apply wp_try. eapply run_wp; [exact F2|]. cbv beta iota. change (negb (4 =? 4)) with false. cbv iota.
  destruct (reads_protected (e_alg s) Hs8 _ _ n Hb2 E2) as (b3 & F3 & Hb3 & E3).
  apply wp_try. eapply run_wp; [exact F3|]. cbv beta iota.
  destruct (reads_kid_map (decode_map (fun _ _ => undefined)) (e_kid s) (Some []) Hkl _ _ n Hb3 E3) as (b4 & F4 & Hb4 & E4).
  apply wp_try. eapply run_wp; [exact F4|]. cbv beta iota. wp_go. cbn [um_kid mbind option_bind id].
  eapply (wp_lift _ (e_kid s)); [by destruct (e_kid s)|]. wp_go.
  destruct (reads_bytes content ltac:(lia) _ _ n Hb4 E4) as (b5 & F5 & Hb5 & E5).
  apply wp_try. eapply run_wp; [exact F5|]. cbv beta iota.
  destruct (reads_bytes bytes (proj1 Hbs) _ _ n Hb5 E5) as (b6 & F6 & Hb6 & E6).
  apply wp_try. eapply run_wp; [exact F6|]. wp_go.
  assert (mkEntity (e_alg s) (e_kid s) = s) as Es by (by destruct s).
  destruct Hr as [[Hkn ->]|[Hla ->]].
  - eapply (wp_VerifySignature Hmem Hbytes kr _ _ (mkSig (e_alg s) (e_kid s) bytes) aad content x y d);
      cbn [sg_alg sg_kid]; [by right; right|done|done|done|lia|exact Hon|done|by rewrite Es|].
    intros n' Hm. wp_go. cbn [verified]. rewrite Es. by apply HQ.
  - eapply (wp_VerifySignature_unknown Hmem Hbytes kr); cbn [sg_alg sg_kid]; [by right|done|done|done|lia|by rewrite Es|].
    intros n' err Hm. wp_go. cbn [verified]. by apply HQ.
Qed.
End Verify.

(** ** Early exits are errors *)

Definition exits_with_error {A} (m : M (DPS_Status + A)) : Prop :=
  forall n, wlp m (fun r _ => match r with inl ret => ret <> DPS_OK | inr _ => True end) n.

Create HintDb exits.
Section Exits.
Context {A B : Type}.
Lemma ewe_ret (x : A) : exits_with_error (mret (inr x)).
Proof. by intros n. Qed.
Lemma ewe_exit ret : ret <> DPS_OK -> exits_with_error (@exit A ret).
Proof. by intros H n. Qed.
Lemma ewe_undefined : exits_with_error (@undefined (DPS_Status + A)).
Proof. by intros n. Qed.
Lemma ewe_or_exit (m : M (DPS_Status * A)) : exits_with_error (or_exit m).
Proof.
  intros n. unfold or_exit. apply wlp_bind. unfold wlp. destruct (m n) as [[[ret x] n']|]; [|done].
  destruct (is_OK ret) eqn:E; cbn; [done|]. by intros ->.
Qed.
Lemma ewe_if (b : bool) ret (m : M (DPS_Status + A)) : (b = false -> ret <> DPS_OK) -> exits_with_error m ->
  exits_with_error (if b then m else exit ret).
Proof. intros Hr Hm. destruct b; [done|]. by apply ewe_exit, Hr. Qed.
Lemma ewe_bind (m : M B) (f : B -> M (DPS_Status + A)) : (forall x, exits_with_error (f x)) -> exits_with_error (m ≫= f).
Proof.
  intros H n. apply wlp_bind. unfold wlp at 1. destruct (m n) as [[x n']|]; [|done]. apply H.
Qed.
Lemma ewe_try (m : M (DPS_Status + B)) (f : B -> M (DPS_Status + A)) : exits_with_error m ->
  (forall x, exits_with_error (f x)) -> exits_with_error (try m f).
Proof.
  intros Hm Hf n. unfold try. apply wlp_bind. eapply wlp_mono; [apply Hm|]. intros [ret|x] n' H; [done|apply Hf].
Qed.
End Exits.
#[export] Hint Resolve ewe_ret ewe_undefined ewe_or_exit : exits.

Lemma is_OK_neq ret : is_OK ret = false -> ret <> DPS_OK.
Proof. by intros E ->. Qed.

Ltac ewe :=
  repeat (cbv beta iota;
    match goal with
    | |- exits_with_error (mret (inr _)) => apply ewe_ret
    | |- exits_with_error (exit _) => apply ewe_exit; first [done | by apply is_OK_neq | by apply is_OK_neq, negb_true_iff]
    | |- exits_with_error (or_exit _) => apply ewe_or_exit
    | |- exits_with_error undefined => apply ewe_undefined
    | |- exits_with_error (try _ _) => apply ewe_try
    | |- exits_with_error (_ ≫= _) => apply ewe_bind
    | |- forall _, _ => intros ?
    | |- exits_with_error (if ?b then _ else _) => destruct b eqn:?
    | |- exits_with_error (match ?x with _ => _ end) => destruct x
    | |- exits_with_error _ => solve [auto with exits]
    end).

Section Auth.
Context `{Env : Environment} `{Tls : Mbedtls} `{Keys : KeyStore}.

Lemma ewe_decode_with {A} (o : option (DPS_Status * A * DPS_RxBuffer)) : exits_with_error (decode_with o).
Proof. unfold decode_with. ewe. Qed.
Lemma ewe_decode_bytes b : exits_with_error (decode_bytes b).
Proof. unfold decode_bytes. ewe. Qed.
Lemma ewe_store_cells cs bs : exits_with_error (store_cells cs bs).
Proof. unfold store_cells. ewe. Qed.
#[local] Hint Resolve ewe_decode_with ewe_decode_bytes ewe_store_cells : exits.
Lemma ewe_protected b : exits_with_error (DecodeProtectedMap b).
Proof. unfold DecodeProtectedMap. ewe. Qed.
Lemma ewe_coord csz cs b : exits_with_error (decode_coord csz cs b).
Proof. unfold decode_coord. ewe. Qed.
#[local] Hint Resolve ewe_protected ewe_coord : exits.
Lemma ewe_key_entry mapKey csz key b : exits_with_error (decode_key_entry mapKey csz key b).
Proof. unfold decode_key_entry. ewe. Qed.
#[local] Hint Resolve ewe_key_entry : exits.
Lemma ewe_key_entries fuel : forall size kty csz key b, exits_with_error (decode_key_entries fuel size kty csz key b).
Proof. induction fuel; intros; cbn [decode_key_entries]; ewe. Qed.
#[local] Hint Resolve ewe_key_entries : exits.
Lemma ewe_DecodeKey key b : exits_with_error (DecodeKey key b).
Proof. unfold DecodeKey. ewe. Qed.
#[local] Hint Resolve ewe_DecodeKey : exits.

Section Map.
Context (sub : Unprotected -> DPS_RxBuffer -> M (DPS_Status + Unprotected * DPS_RxBuffer)).
Context (Hsub : forall u b, exits_with_error (sub u b)).
Lemma ewe_entry mapKey u b : exits_with_error (decode_entry sub mapKey u b).
Proof using Hsub. unfold decode_entry. ewe. Qed.
Lemma ewe_entries fuel : forall size u b, exits_with_error (decode_entries sub fuel size u b).
Proof using Hsub. pose proof ewe_entry. induction fuel; intros; cbn [decode_entries]; ewe. Qed.
Lemma ewe_map u b : exits_with_error (decode_map sub u b).
Proof using Hsub. pose proof ewe_entries. unfold decode_map. ewe. Qed.
End Map.
Lemma ewe_unprotected u b : exits_with_error (DecodeUnprotectedMap u b).
Proof. unfold DecodeUnprotectedMap. apply ewe_map. intros. apply ewe_map. intros. apply ewe_undefined. Qed.
#[local] Hint Resolve ewe_unprotected : exits.
Lemma ewe_recipient r key b : exits_with_error (DecodeRecipient r key b).
Proof. unfold DecodeRecipient. ewe. Qed.
Lemma ewe_kek curve x y d alg : exits_with_error (derive_kek curve x y d alg).
Proof. unfold derive_kek. ewe. Qed.
#[local] Hint Resolve ewe_kek : exits.
Lemma ewe_recipient_key r key kw : exits_with_error (recipient_key r key kw).
Proof. unfold recipient_key. ewe. Qed.
End Auth.

Lemma cells_read_length n cs l : cells_read n cs = Some l -> length l = n.
Proof.
  unfold cells_read. case_decide as H; [|done]. intros E. apply length_mapM in E. rewrite <- E, length_take. lia.
Qed.

Lemma wlp_lift {A} (o : option A) Q n : (forall x, o = Some x -> Q x n) -> wlp (lift o) Q n.
Proof. unfold wlp, lift. destruct o as [x|]; [|done]. intros H. by apply H. Qed.

Section Accepted.
Context `{Env : Environment} `{Tls : Mbedtls} {TlsOk : MbedtlsOk Tls} `{Keys : KeyStore}.
Context (Hmem : forall k, env_alloc k = true).
Context (Hbytes : forall k size, length (env_bytes k size) = size /\ Forall is_byte (env_bytes k size)).

Lemma Decrypt_GCM_inv key iv content aad pb pb' : length key = AES_256_KEY_LEN -> length iv = AES_GCM_NONCE_LEN ->
  tx_pos pb = 0%nat -> Decrypt_GCM key iv content aad pb = Some (DPS_OK, pb') ->
  exists c t, content = c ++ t /\ aes_gcm key iv aad (tx_written pb') = (c, t).
Proof using.
  intros Hk Hi Hp. unfold Decrypt_GCM. destruct (Z.ltb_spec (DPS_TxBufferSpace pb) (u64 (Z.of_nat (length content) - Z.of_nat GCM_M))) as [|Hs]; [done|].
  set (m := (length content - GCM_M)%nat). destruct (gcm_auth_decrypt _ _ _ _ _) as [p|] eqn:E; [|done].
  destruct (mem_write (tx_mem pb) 0 p) as [mem|] eqn:Em; [|done]. cbn [mbind option_bind]. intros [= <-].
  apply (gcm_auth_decrypt_ok _ _ _ _ _ _ Hk Hi) in E. exists (take m content), (drop m content). split; [by rewrite take_drop|].
  assert (length p = m) as Lp.
  { rewrite <- (proj1 (aes_gcm_length key iv aad p)), E. cbn [fst]. rewrite length_take. lia. }
  unfold tx_written. cbn [tx_pos tx_mem]. rewrite Hp. unfold mem_write in Em. case_decide as Hd; [|done]. injection Em as <-.
  cbn [Nat.add take app]. rewrite take_app_length' by done. exact E.
Qed.

Lemma wlp_plain_buffer pb clen n : wlp (plain_buffer pb clen) (fun p _ => p.1 = DPS_OK -> tx_pos p.2 = 0%nat) n.
Proof using.
  unfold plain_buffer. destruct (decide _); [by apply wlp_ret|]. destruct (is_nil _); [|by apply wlp_ret].
  unfold tx_new. apply wlp_bind. unfold wlp at 1. destruct (malloc n) as [[m n']|]; [|done]. apply wlp_ret.
  unfold DPS_TxBufferInit. destruct (decide _); [done|]. by destruct (m _).
Qed.

(** ** The key that opened a message *)

(** A key of the given type that the key store sets for an identifier. *)
Definition store_gives (kid : list Z) (type : COSE_KeyType) (k : COSE_Key) : Prop :=
  exists h, keyHandler = Some h /\ run_request SetKey (h kid) (blank_key type) = Some (DPS_OK, k).

(** The content keys of a recipient: the key of its identifier in the key store, or what
    that key unwraps, or what the key that the private key of its identifier agrees on
    with the ephemeral key unwraps. *)
Inductive opening_key (r : Recipient) (eph : COSE_Key) (kw : list Z) : list Z -> Prop :=
  | opening_key_direct kid k key : rc_alg r = Some COSE_ALG_RESERVED \/ rc_alg r = Some COSE_ALG_DIRECT ->
      rc_kid r = Some kid -> store_gives kid COSE_KEY_SYMMETRIC k -> cells_read AES_256_KEY_LEN (ck_key k) = Some key ->
      opening_key r eph kw key
  | opening_key_wrapped kid k kek key : rc_alg r = Some COSE_ALG_A256KW -> rc_kid r = Some kid ->
      store_gives kid COSE_KEY_SYMMETRIC k -> cells_read AES_256_KEY_LEN (ck_key k) = Some kek ->
      nist_kw_unwrap kek kw = Some key -> length kw = AES_256_KEY_WRAP_LEN -> opening_key r eph kw key
  | opening_key_agreed kid k curve x y d kek key : rc_alg r = Some COSE_ALG_ECDH_ES_A256KW -> rc_kid r = Some kid ->
      store_gives kid COSE_KEY_EC k -> ck_curve eph = Some curve ->
      cells_read (CoordinateSize_EC curve) (ck_x eph) = Some x -> cells_read (CoordinateSize_EC curve) (ck_y eph) = Some y ->
      cells_read (CoordinateSize_EC curve) (ck_d k) = Some d -> agreed curve x y d kek ->
      nist_kw_unwrap kek kw = Some key -> length kw = AES_256_KEY_WRAP_LEN -> opening_key r eph kw key.

(** The recipients that a loop of at most [sz] rounds reads from [b], each with its
    ephemeral key and its wrapped key; a message of type Encrypt0 has one, the one that
    is asked for. *)
Inductive recipient_in (tag : Z) : Z -> DPS_RxBuffer -> Recipient -> COSE_Key -> Recipient -> COSE_Key -> list Z -> Prop :=
  | recipient_asked sz b r eph : tag = COSE_TAG_ENCRYPT0 -> sz <> 0 -> recipient_in tag sz b r eph r eph []
  | recipient_read sz b r eph n r' eph' kw b' n' : tag = COSE_TAG_ENCRYPT -> sz <> 0 ->
      DecodeRecipient r eph b n = Some (inr (r', eph', kw, b'), n') -> recipient_in tag sz b r eph r' eph' kw
  | recipient_later sz b r eph n r1 eph1 kw1 b1 n1 r' eph' kw : tag = COSE_TAG_ENCRYPT -> sz <> 0 ->
      DecodeRecipient r eph b n = Some (inr (r1, eph1, kw1, b1), n1) ->
      recipient_in tag (sz - 1) b1 r1 eph1 r' eph' kw -> recipient_in tag sz b r eph r' eph' kw.

(** The content is what the content key of the recipient encrypts. *)
Definition opened_with (r : Recipient) (eph : COSE_Key) (kw : list Z) (nonce : list (option Z)) (AAD content p : list Z) : Prop :=
  exists key iv c t, opening_key r eph kw key /\ length key = AES_256_KEY_LEN /\
    cells_read COSE_NONCE_LEN nonce = Some iv /\ content = c ++ t /\ aes_gcm key iv AAD p = (c, t).

Lemma wlp_self {A} (m : M A) n : wlp m (fun x n' => m n = Some (x, n')) n.
Proof using. unfold wlp. by destruct (m n) as [[]|]. Qed.
Lemma wlp_and {A} (m : M A) Q R n : wlp m Q n -> wlp m R n -> wlp m (fun x n' => Q x n' /\ R x n') n.
Proof using. unfold wlp. by destruct (m n) as [[]|]. Qed.

(** An early exit does not matter. *)
Definition on_right {A} (P : A -> Prop) : DPS_Status + A -> DPS_Node -> Prop :=
  fun r _ => match r with inl _ => True | inr x => P x end.
Lemma wlp_try_right {A B} (m : M (DPS_Status * A)) (f : A -> M (DPS_Status + B)) P n :
  wlp m (fun '(ret, x) n' => ret = DPS_OK -> wlp (f x) (on_right P) n') n -> wlp (try (or_exit m) f) (on_right P) n.
Proof using.
  intros H. unfold try, or_exit. do 2 apply wlp_bind. eapply wlp_mono; [exact H|]. intros [ret x] n' Hf. cbv beta iota in Hf |- *.
  destruct (is_OK ret) eqn:E; apply wlp_ret; [|by apply wlp_ret]. apply Hf. by destruct ret.
Qed.

Lemma wlp_GetKeyOf r type n :
  wlp (GetKeyOf r (blank_key type)) (fun '(ret, k) _ => ret = DPS_OK -> exists kid, rc_kid r = Some kid /\ store_gives kid type k) n.
Proof using.
  unfold GetKeyOf, GetKey, store_gives. destruct keyHandler as [h|]; [|by apply wlp_ret].
  apply wlp_bind, wlp_lift. intros kid Ek. apply wlp_lift. intros [ret k] E ->. exists kid. split; [done|]. by exists h.
Qed.

Lemma KeyUnwrap_inv kw kek cek key : KeyUnwrap kw kek = (DPS_OK, cek) -> cells_read AES_256_KEY_LEN (map Some cek) = Some key ->
  nist_kw_unwrap kek kw = Some key.
Proof using.
  unfold KeyUnwrap. destruct (nist_kw_unwrap kek kw); [|done]. case_decide as Hl; [|done]. intros [= ->] Er.
  rewrite <- (app_nil_r (map Some cek)), cells_read_of in Er by done. by injection Er as ->.
Qed.

Lemma ECDH_inv curve cx cy cd secret : ECDH curve cx cy cd = Some (DPS_OK, secret) ->
  exists x y d, cells_read (CoordinateSize_EC curve) cx = Some x /\ cells_read (CoordinateSize_EC curve) cy = Some y /\
    cells_read (CoordinateSize_EC curve) cd = Some d /\
    (forall kek, hkdf_sha256 secret kdf_context = Some kek -> agreed curve x y d kek).
Proof using.
  unfold ECDH, agreed, group. intros E. unfold TLSGetCurveParams in E.
  destruct (curve =? DPS_EC_CURVE_P521); [|destruct (curve =? DPS_EC_CURVE_P384); [|done]];
  (destruct (cells_read _ cx) as [x|] eqn:Ex; [|done]; destruct (cells_read _ cy) as [y|] eqn:Ey; [|done];
   destruct (cells_read _ cd) as [d|] eqn:Ed; [|done]; cbn [mbind option_bind] in E;
   apply cells_read_length in Ex as Lx; apply cells_read_length in Ey as Ly;
   unfold SetPublic in E; rewrite !take_ge in E by lia;
   destruct (ecdh_compute_shared _ _ _) as [z|] eqn:Ez; [|done];
   destruct (mpi_write_binary z _) as [s|] eqn:Es; [|done]; injection E as <-;
   exists x, y, d; split_and!; try done; by intros kek Ek; exists z, s).
Qed.

Lemma wlp_derive_kek curve cx cy cd n :
  wlp (derive_kek curve cx cy cd COSE_ALG_ECDH_ES_A256KW) (on_right (fun kek => exists x y d,
    cells_read (CoordinateSize_EC curve) cx = Some x /\ cells_read (CoordinateSize_EC curve) cy = Some y /\
    cells_read (CoordinateSize_EC curve) cd = Some d /\ agreed curve x y d kek)) n.
Proof using Hmem Hbytes.
  unfold derive_kek. apply wlp_try_right, wlp_lift. intros [ret secret] E ->.
  destruct (ECDH_inv _ _ _ _ _ E) as (x & y & d & Ex & Ey & Ed & Ha).
  apply wlp_try_right, wp_wlp. apply (wp_EncodeKDFContext Hmem Hbytes); [by apply (bool_decide_unpack _)..|unfold AES_256_KEY_LEN; lia|].
  intros b k _ Hw _. rewrite Hw. unfold or_exit. apply wlp_bind, wlp_ret. unfold HKDF_SHA256.
  destruct (hkdf_sha256 secret _) as [kek|] eqn:Eh; [|by apply wlp_ret]. apply wlp_ret. exists x, y, d. split_and!; auto.
Qed.

Lemma wlp_recipient_key r eph kw n :
  wlp (recipient_key r eph kw) (on_right (fun cek => forall key, cells_read AES_256_KEY_LEN cek = Some key -> opening_key r eph kw key)) n.
Proof using Hmem Hbytes.
  unfold recipient_key. apply wlp_bind, wlp_lift. intros alg Ea.
  destruct ((alg =? COSE_ALG_RESERVED) || (alg =? COSE_ALG_DIRECT)) eqn:E1.
  { apply wlp_try_right. eapply wlp_mono; [apply wlp_GetKeyOf|]. intros [ret k] n1 Hk ->. destruct (Hk eq_refl) as (kid & Er & Hg).
    apply wlp_ret. intros key Ek. apply (opening_key_direct _ _ _ kid k); [|done..].
    apply orb_true_iff in E1 as [E1|E1]; apply Z.eqb_eq in E1 as ->; auto. }
  destruct (Z.eqb_spec alg COSE_ALG_A256KW) as [-> |_].
  { apply wlp_try_right. eapply wlp_mono; [apply wlp_GetKeyOf|]. intros [ret k] n1 Hk ->. destruct (Hk eq_refl) as (kid & Er & Hg).
    case_bool_decide as Hl; [|by apply wlp_ret]. apply wlp_bind, wlp_lift. intros kek Ek. apply wlp_try_right, wlp_ret.
    destruct (KeyUnwrap kw kek) as [ret cek] eqn:Eu. intros ->. apply wlp_ret. intros key Er'.
    eapply opening_key_wrapped; try done. by apply (KeyUnwrap_inv _ _ cek). }
  destruct (Z.eqb_spec alg COSE_ALG_ECDH_ES_A256KW) as [-> |_]; [|by apply wlp_ret].
  case_bool_decide as Hl; [|by apply wlp_ret]. cbn [negb].
  apply wlp_try_right. eapply wlp_mono; [apply wlp_GetKeyOf|]. intros [ret k] n1 Hk ->. destruct (Hk eq_refl) as (kid & Er & Hg).
  apply wlp_bind, wlp_lift. intros curve Ec. unfold try at 1. apply wlp_bind.
  eapply wlp_mono; [apply wlp_derive_kek|]. intros [ret|kek] n2; cbn [on_right]; [by intros; apply wlp_ret|].
  intros (x & y & d & Ex & Ey & Ed & Ha). apply wlp_try_right, wlp_ret.
  destruct (KeyUnwrap kw kek) as [ret cek] eqn:Eu. intros ->. apply wlp_ret. intros key Er'.
  eapply opening_key_agreed; try done. by apply (KeyUnwrap_inv _ _ cek).
Qed.

Lemma wlp_decrypt_recipients tag nonce content AAD fuel : enc_tag tag -> forall sz b r eph ret plain n,
  wlp (decrypt_recipients fuel sz tag nonce content AAD b r eph ret plain)
    (fun '(ret', r', plain') _ => ret' = DPS_OK ->
       (exists eph' kw, recipient_in tag sz b r eph r' eph' kw /\ opened_with r' eph' kw nonce AAD content (tx_written plain')) \/
       ret = DPS_OK /\ sz = 0 /\ plain' = plain) n.
Proof using Hmem Hbytes TlsOk.
  intros Ht. induction fuel as [|fuel IH]; intros sz b r eph ret plain n; cbn [decrypt_recipients];
    (destruct (Z.eqb_spec sz 0) as [-> |Hsz]; [apply wlp_ret; auto|]); [done|].
  apply wlp_bind. apply (wlp_mono _ (fun d _ => match d with
    | inl ret => ret <> DPS_OK
    | inr (r1, eph1, kw, b1) => recipient_in tag sz b r eph r1 eph1 kw /\
        forall r' eph' kw', recipient_in tag (sz - 1) b1 r1 eph1 r' eph' kw' -> recipient_in tag sz b r eph r' eph' kw'
    end)).
  { destruct Ht as [-> | ->].
    - apply wlp_ret. split; [by constructor|]. intros r' eph' kw' H. inversion H; [by constructor|done..].
    - eapply wlp_mono; [apply wlp_and; [apply ewe_recipient|apply wlp_self]|].
      intros [ret1|[[[r1 eph1] kw] b1]] n1 [Hd E]; [done|]. split; [by eapply recipient_read|]. intros. by eapply recipient_later. }
  intros [ret1|[[[r1 eph1] kw] b1]] n1 Hd; [by apply wlp_ret|]. destruct Hd as [Hin Hlater].
  assert (forall ret2 plain2 n2, ret2 <> DPS_OK ->
    wlp (decrypt_recipients fuel (sz - 1) tag nonce content AAD b1 r1 eph1 ret2 plain2) (fun '(ret', r', plain') _ => ret' = DPS_OK ->
       (exists eph' kw, recipient_in tag sz b r eph r' eph' kw /\ opened_with r' eph' kw nonce AAD content (tx_written plain')) \/
       ret = DPS_OK /\ sz = 0 /\ plain' = plain) n2) as Hnext.
  { intros ret2 plain2 n2 Hr. eapply wlp_mono; [apply IH|]. intros [[ret' r'] plain'] n' H E.
    destruct (H E) as [(eph' & kw' & Hin' & Ho)|[-> _]]; [left; exists eph', kw'; auto|done]. }
  apply wlp_bind. eapply wlp_mono; [apply wlp_and; [apply ewe_recipient_key|apply wlp_recipient_key]|].
  intros [ret2|cek] n2 [Hr Hkey]; cbv beta iota in Hr; cbn [on_right] in Hkey; [by apply Hnext|].
  apply wlp_bind. eapply wlp_mono; [apply wlp_plain_buffer|]. intros [ret3 pb] n3 Hpb. cbn [fst snd] in Hpb.
  destruct (is_OK ret3) eqn:E3; cbn [negb]; [|apply wlp_ret; intros ->; done].
  assert (ret3 = DPS_OK) as -> by (by destruct ret3). specialize (Hpb eq_refl).
  apply wlp_bind. apply wlp_lift. intros key Ek.
  apply wlp_bind. apply wlp_lift. intros iv Ei.
  apply wlp_bind. apply wlp_lift. intros [ret4 pb'] Eg. cbv beta iota.
  destruct (is_OK ret4) eqn:E4; [|by apply Hnext, is_OK_neq].
  apply wlp_ret. intros ->. left. exists eph1, kw. split; [done|]. pose proof (cells_read_length _ _ _ Ek). pose proof (cells_read_length _ _ _ Ei).
  destruct (Decrypt_GCM_inv key iv content AAD pb pb') as (c & t & E & Ea); [done..|]. exists key, iv, c, t. auto.
Qed.

(** What the front of a message is, if it is accepted. *)
Lemma wlp_decrypt_front msg n :
  wlp (decrypt_front msg) (fun r _ => match r with
    | inl ret => ret <> DPS_OK
    | inr (tag, alg, nonce, sig, content, b) => enc_tag tag /\ alg = COSE_ALG_A256GCM
    end) n.
Proof using.
  unfold decrypt_front. apply wlp_bind, wlp_lift. intros [[ret tag] b] _. cbv beta iota.
  destruct (is_OK ret && _) eqn:E; cbn [negb]; [|by apply wlp_ret].
  assert (enc_tag tag) as Ht.
  { apply andb_true_iff in E as [_ E]. apply orb_true_iff in E as [E|E]; apply Z.eqb_eq in E; [by left|by right]. }
  apply wlp_bind. eapply wlp_mono; [apply ewe_decode_with|]. intros [ret1|[sz b1]] n1 H1; [by apply wlp_ret|].
  cbv beta iota. destruct (sz =? _); cbn [negb]; [|by apply wlp_ret].
  apply wlp_bind. eapply wlp_mono; [apply ewe_protected|]. intros [ret2|[alg b2]] n2 H2; [by apply wlp_ret|]. cbv beta iota.
  destruct (alg =? COSE_ALG_RESERVED); [by apply wlp_ret|]. unfold SetCryptoParams.
  destruct (Z.eqb_spec alg COSE_ALG_A256GCM) as [-> |]; [|by apply wlp_ret].
  apply wlp_bind. eapply wlp_mono; [apply ewe_unprotected|]. intros [ret3|[u b3]] n3 H3; [by apply wlp_ret|]. cbv beta iota.
  apply wlp_bind. eapply wlp_mono; [apply ewe_decode_bytes|]. intros [ret4|[content b4]] n4 H4; [by apply wlp_ret|]. by apply wlp_ret.
Qed.

Definition no_recipient (tag : Z) (b : DPS_RxBuffer) (p : list Z) : Prop :=
  tag = COSE_TAG_ENCRYPT /\ p = [] /\ exists b', CBOR_DecodeArray b 0 = Some (DPS_OK, 0, b').

(** What an accepted message is: the recipient that is reported is one of the message, and
    its content key encrypted the text. *)
Definition authentic (tag : Z) (b : DPS_RxBuffer) (r r' : Recipient) (nonce : list (option Z)) (aad content p : list Z) : Prop :=
  exists sz b' r0 eph kw, recipient_in tag sz b' r0 (blank_key COSE_KEY_EC) r' eph kw /\
    opened_with r' eph kw nonce (wire (aad_item tag COSE_ALG_A256GCM aad)) content p /\
    (tag = COSE_TAG_ENCRYPT0 /\ sz = 1 /\ b' = b /\ r0 = mkRcpt (Some COSE_ALG_RESERVED) (rc_kid r) \/
     tag = COSE_TAG_ENCRYPT /\ CBOR_DecodeArray b 0 = Some (DPS_OK, sz, b') /\ r0 = r).

Lemma wlp_decrypt_content tag nonce aad content b r n : enc_tag tag -> byte_string aad -> Z.of_nat (length aad) < 2 ^ 31 ->
  wlp (decrypt_content tag COSE_ALG_A256GCM nonce aad content b r)
    (fun '(ret, r', p) _ => ret = DPS_OK -> authentic tag b r r' nonce aad content p \/ no_recipient tag b p) n.
Proof using Hmem Hbytes TlsOk.
  intros Ht Haad Hl. unfold decrypt_content. apply wlp_bind. apply wp_wlp. apply (wp_EncodeAAD Hmem Hbytes); [done|by apply (bool_decide_unpack _)|done|done|].
  intros ab k _ Eab. cbv beta iota. change (is_OK DPS_OK) with true. cbn [negb]. rewrite Eab. apply wlp_bind.
  destruct (Z.eqb_spec tag COSE_TAG_ENCRYPT0) as [E|E].
  - apply wlp_ret. cbv beta iota. change (is_OK DPS_OK) with true. cbn [negb]. apply wlp_bind.
    eapply wlp_mono; [by apply wlp_decrypt_recipients|]. intros [[ret r'] plain] n' H. cbv beta iota in H |- *. apply wlp_ret. intros ->.
    change (is_OK DPS_OK) with true. cbv iota. destruct (H eq_refl) as [(eph & kw & Hin & Ho)|(_ & ? & _)]; [left|done].
    do 5 eexists. split; [exact Hin|]. split; [exact Ho|]. by left.
  - apply wlp_bind, wlp_lift. intros [[ret sz] b1] Ea. cbv beta iota. apply wlp_ret. cbv beta iota.
    destruct (is_OK ret) eqn:Er; cbn [negb]; [|apply wlp_ret; intros ->; done]. assert (ret = DPS_OK) as -> by (by destruct ret).
    assert (tag = COSE_TAG_ENCRYPT) as Et by (by destruct Ht).
    apply wlp_bind. eapply wlp_mono; [by apply wlp_decrypt_recipients|]. intros [[ret r'] plain] n' H. cbv beta iota in H |- *. apply wlp_ret. intros ->.
    change (is_OK DPS_OK) with true. cbv iota. destruct (H eq_refl) as [(eph & kw & Hin & Ho)|(_ & -> & ->)]; [left|right].
    + do 5 eexists. split; [exact Hin|]. split; [exact Ho|]. by right.
    + split; [done|]. split; [done|by exists b1].
Qed.

Lemma decrypted_authentic r aad msg n r' who p n' : byte_string aad -> Z.of_nat (length aad) < 2 ^ 31 ->
  COSE_Decrypt r aad msg n = Some ((DPS_OK, r', who, p), n') ->
  exists tag nonce sig content b n1, decrypt_front msg n = Some (inr (tag, COSE_ALG_A256GCM, nonce, sig, content, b), n1) /\
    (authentic tag b r r' nonce aad content p \/ no_recipient tag b p).
Proof using Hmem Hbytes TlsOk.
  intros Haad Hl E. pose proof (wlp_decrypt_front msg n) as Hf. unfold COSE_Decrypt in E. unfold mbind at 1, M_bind at 1 in E. unfold wlp in Hf.
  destruct (decrypt_front msg n) as [[[ret|[[[[[tag alg] nonce] sig] content] b]] n1]|]; [|destruct Hf as [Ht ->]|done].
  { cbn in E. by injection E as -> _ _ _ _. }
  exists tag, nonce, sig, content, b, n1. split; [done|]. revert E. cbn [mbind option_bind].
  match goal with |- ?m n1 = _ -> _ => intros E; eapply (wlp_run m (fun '(ret, r', _, p) _ => ret = DPS_OK -> authentic tag b r r' nonce aad content p \/ no_recipient tag b p)) in E end.
  { by apply E. }
  apply wlp_bind. eapply wlp_mono. { instantiate (1 := fun _ _ => True). unfold wlp. by destruct (_ n1) as [[]|]. }
  intros signer n2 _. apply wlp_bind. eapply wlp_mono; [by apply wlp_decrypt_content|]. intros [[ret r1] p1] n3 H. by apply wlp_ret.
Qed.
End Accepted.
