(* ===== verification/CoseTheorems.v ===== *)
(** * Properties of COSE and the key stores

    Messages come back for who shares a key; what is accepted is authentic; the cipher
    does not depend on how a payload is split over buffers; the memory key store is a
    map. *)
From S2P Require Import Prelude Status Buffer Float Cbor CborProofs CborValues BitVec BitVecSerial Uuid Addr Node NodeTheorems.
From S2P Require Import SubMsg SubMsgProofs SubDecode Tls Keys TlsLaws Cose SendProofs PubMsgProofs CoseProofs CoseDecode.
From S2P Require Import CoseRound CoseSign CoseMsg CoseOpen CoseVerify.
From stdpp Require Import gmap.
#[local] Open Scope Z_scope.
#[local] Set Warnings "-clear-no-such-hyp".

(** ** More than sixteen buffers *)

Lemma undefined_bind {A B} (m : M A) (f : A -> M B) n : wp m (fun x n' => f x n' = None) n -> (m ≫= f) n = None.
Proof. unfold wp, mbind, M_bind. by destruct (m n) as [[x n']|]. Qed.
Lemma undefined_after {A B} (m : M A) (f : A -> M B) n : (forall x n', f x n' = None) -> (m ≫= f) n = None.
Proof. intros H. unfold mbind, M_bind. destruct (m n) as [[x n']|]; [apply H|done]. Qed.
Lemma undefined_first {A B} (m : M A) (f : A -> M B) n : m n = None -> (m ≫= f) n = None.
Proof. intros H. unfold mbind, M_bind. by rewrite H. Qed.
Lemma undefined_try {A B} (m : M (DPS_Status + A)) (f : A -> M (DPS_Status + B)) n :
  wp m (fun r n' => match r with inl _ => False | inr x => f x n' = None end) n -> try m f n = None.
Proof. intros H. apply undefined_bind. eapply wp_mono; [exact H|]. by intros [ret|x]. Qed.
Lemma undefined_try_ok {A B} (m : M (DPS_Status * A)) (f : A -> M (DPS_Status + B)) n :
  wp m (fun p n' => p.1 = DPS_OK /\ f p.2 n' = None) n -> try (or_exit m) f n = None.
Proof.
  intros H. apply undefined_try. unfold or_exit. apply wp_bind. eapply wp_mono; [exact H|].
  intros [ret x] n' [Hr Hf]. cbn [fst snd] in *. by subst ret.
Qed.

Section Cose.
Context `{Env : Environment} `{Tls : Mbedtls} {TlsOk : MbedtlsOk Tls}.
Context (Hmem : forall k, env_alloc k = true).
Context (Hbytes : forall k size, length (env_bytes k size) = size /\ Forall is_byte (env_bytes k size)).

Lemma sign_content_overrun tag alg ks s x y d nonce (content : list Z) (payload : list (list Z)) footer header sig k pos n : enc_tag tag -> int8 alg ->
  signs ks s x y d -> header_written tag alg nonce (Some s) d (Z.of_nat (length content)) (header, Some (sig, k, pos)) ->
  (DPS_BUFS_MAX < length payload)%nat -> Z.of_nat (length content) < 2 ^ 30 ->
  sign_content tag alg (Z.of_nat (length content)) payload footer header sig k pos n = None.
Proof using Hmem Hbytes.
  intros Ht Ha (Hsa & _) (-> & _) Hp Hl. destruct (signer_int8 _ Hsa) as [Hs8 _]. unfold sign_content. apply undefined_try_ok.
  apply (wp_EncodePartialSig Hmem Hbytes tag alg (e_alg s) [] content); [destruct Ht; tauto|done|done|by split|cbn [length]; lia|].
  intros b k0 _ _. split; [done|]. cbn [snd]. unfold assert. by rewrite bool_decide_false by lia.
Qed.

Lemma encrypt_overrun ks rs alg s x y d nonce aad payload n :
  can_send ks rs alg (Some s) x y d -> length nonce = COSE_NONCE_LEN -> Forall is_byte nonce ->
  byte_string aad -> Z.of_nat (length aad) < 2 ^ 31 -> (DPS_BUFS_MAX < length payload)%nat -> Forall is_byte (concat payload) ->
  Z.of_nat (length (concat payload)) < 2 ^ 29 ->
  COSE_Encrypt (Keys := ks) COSE_ALG_A256GCM nonce (Some s) rs aad payload n = None.
Proof using Hmem Hbytes TlsOk.
  intros [Hg Hne Ha Hr0 Hre Hd Hcnt Hs] Hn Hnb Haad Hal Hpl Hpb Hlen. unfold COSE_Encrypt.
  assert (encrypt_message (Keys := ks) COSE_ALG_A256GCM nonce (Some s) rs aad payload n = None) as E;
    [|unfold mbind, M_bind; by rewrite E]. unfold encrypt_message.
  destruct rs as [|r0 rs']; [done|]. set (rs := r0 :: rs') in *. assert (e_alg r0 = alg) as E0 by (by apply List.Forall_cons_iff in Ha as [? _]).
  assert (is_nil payload = false) as -> by (by destruct payload; [cbn in Hpl; lia|]). rewrite (same_alg_forallb rs alg r0 Ha E0). cbn [negb].
  assert (is_nil rs' && (e_alg r0 =? COSE_ALG_RESERVED) = false) as ->.
  { apply andb_false_iff. right. rewrite E0. by apply Z.eqb_neq. }
  change (SetCryptoParams COSE_ALG_A256GCM) with (Some (16, AES_GCM_NONCE_LEN)). cbv beta iota zeta.
  rewrite lengths_concat. assert (int8 COSE_ALG_A256GCM) as Hi8 by by apply (bool_decide_unpack _).
  apply undefined_try. eapply (wp_encrypt_header Hmem Hbytes ks COSE_TAG_ENCRYPT _ _ _ x y d); [by right|done|done|done|exact Hs|lia|].
  intros n1 [hb sg] _ Hh. cbv beta iota. apply undefined_try_ok. apply (wp_EncodeAAD Hmem Hbytes); [by right|done..|]. intros ab k1 _ Eab.
  split; [done|]. cbn [snd]. apply undefined_try. rewrite E0. eapply (wp_content_key ks); [done..|]. intros n2 key cek _ Hcek Ek _.
  pose proof (recipient_sizes_bound ks rs Hre) as Hsz. pose proof (recipient_sizes_pos rs). pose proof (sizeof_len_range (Z.of_nat (length rs))).
  apply undefined_try_ok. change (footer_len COSE_TAG_ENCRYPT rs) with (16 + (CBOR_SIZEOF_LEN (Z.of_nat (length rs)) + recipient_sizes rs)).
  apply (wp_tx_new Hmem Hbytes); [lia|]. intros fb k2 Hfw. split; [done|]. cbn [snd]. rewrite Ek.
  apply undefined_bind. eapply wp_lift. { rewrite <- (app_nil_r (map Some cek)). apply cells_read_of, Hcek. }
  destruct (Encrypt_GCM_ok cek nonce (tx_written ab) payload fb (proj1 Hcek) Hn (wr_wf _ _ _ Hfw)) as (payload' & Eg & Lp & _).
  { change (tx_fits (DPS_OK, fb).2 GCM_M). eapply wrote_fits; [exact Hfw|cbn [length]; unfold GCM_M; lia]. }
  apply undefined_try_ok. wp_go. eapply wp_lift; [exact Eg|]. wp_go. split; [done|]. cbn [snd].
  destruct sg as [[[sg k] pos]|]; [|by destruct Hh]. change (DPS_BUFS_MAX < length payload)%nat in Hpl.
  set (content := concat payload ++ replicate 16 0). assert (Z.of_nat (length (concat payload)) + 16 = Z.of_nat (length content)) as El.
  { unfold content. rewrite length_app, length_replicate. lia. } rewrite El in Hh |- *.
  unfold try at 1. unfold mbind, M_bind. rewrite (sign_content_overrun _ _ ks s x y d nonce content); try done.
  - by right.
  - rewrite <- (length_map length payload'), Lp, length_map. done.
  - rewrite <- El. lia.
Qed.

(** ** Messages come back *)

(** C8 What [COSE_Encrypt] makes of a payload, in any number of buffers and for any
    recipients, every recipient that has its key decrypts to that payload with
    [COSE_Decrypt], also when it lacks the keys of the recipients before it.  It learns
    the signer if it knows the signer's public key, and no signer otherwise.  All
    buffers that are allocated on the way suffice. *)
Theorem encrypted_for_recipients (ks kr : KeyStore) pre e post alg signer x y d who nonce aad payload r n n2 :
  can_send ks (pre ++ e :: post) alg signer x y d ->
  Forall (lacks kr) pre -> shared ks kr e -> recognised kr signer x y who ->
  length nonce = COSE_NONCE_LEN -> Forall is_byte nonce -> byte_string aad -> Z.of_nat (length aad) < 2 ^ 31 ->
  payload <> [] -> Forall is_byte (concat payload) -> Z.of_nat (length (concat payload)) < 2 ^ 29 ->
  (signer <> None -> (length payload <= DPS_BUFS_MAX)%nat) ->
  exists header payload' footer n1,
    COSE_Encrypt (Keys := ks) COSE_ALG_A256GCM nonce signer (pre ++ e :: post) aad payload n =
      Some ((DPS_OK, header, payload', footer), n1) /\
    map length payload' = map length payload /\
    exists n3, COSE_Decrypt (Keys := kr) r aad (header ++ concat payload' ++ footer) n2 =
      Some ((DPS_OK, mkRcpt (Some (e_alg e)) (Some (e_kid e)), who, concat payload), n3).
Proof using Hmem Hbytes TlsOk.
  intros Hcs Hla Hsh Hr Hn Hnb Haad Hal Hne Hpb Hpl Hsp. pose proof (cs_reachable _ _ _ _ _ _ _ Hcs) as Hre.
  assert (Forall bounded (pre ++ e :: post)) as Hbd.
  { eapply List.Forall_impl; [|exact Hre]. by intros c (k & _ & _ & H & _). }
  assert (wp (COSE_Encrypt (Keys := ks) COSE_ALG_A256GCM nonce signer (pre ++ e :: post) aad payload)
    (fun '(ret, header, payload', footer) _ => ret = DPS_OK /\ map length payload' = map length payload /\
       sealed ks (pre ++ e :: post) signer d nonce aad (concat payload) (header ++ concat payload' ++ footer)) n) as Henc.
  { unfold COSE_Encrypt. wp_go. eapply (wp_encrypt_message Hmem Hbytes ks _ alg signer x y d); try done; by intros; wp_go. }
  apply wp_run in Henc as ([[[ret header] payload'] footer] & n1 & E & -> & Lp & Hse). exists header, payload', footer, n1.
  split; [done|]. split; [done|].
  assert (wp (COSE_Decrypt (Keys := kr) r aad (header ++ concat payload' ++ footer)) (fun x _ =>
    x = (DPS_OK, mkRcpt (Some (e_alg e)) (Some (e_kid e)), who, concat payload)) n2) as Hdec.
  { eapply (wp_COSE_Decrypt Hmem Hbytes ks kr _ pre e post signer x y d nonce aad (concat payload)); try done; apply Hcs. }
  apply wp_run in Hdec as (res & n3 & E3 & ->). by exists n3.
Qed.

(** C10 Signing and verifying: [COSE_Verify] gives the content back, and the signer
    exactly when the public key is known. *)
Theorem signed_and_verified (ks kr : KeyStore) s x y d who aad payload n n2 :
  signs ks s x y d -> recognised kr (Some s) x y who -> byte_string aad -> payload <> [] ->
  (length payload <= DPS_BUFS_MAX)%nat -> Forall is_byte (concat payload) ->
  Z.of_nat (length aad) + Z.of_nat (length (concat payload)) < 2 ^ 31 ->
  exists header footer n1,
    COSE_Sign (Keys := ks) s aad payload n = Some ((DPS_OK, header, footer), n1) /\
    exists n3, COSE_Verify (Keys := kr) aad (header ++ concat payload ++ footer) n2 =
      Some ((DPS_OK, who, concat payload), n3).
Proof using Hmem Hbytes TlsOk.
  intros Hs Hr Haad Hne Hcnt Hpb Hlen.
  assert (wp (COSE_Sign (Keys := ks) s aad payload)
    (fun '(ret, header, footer) _ => ret = DPS_OK /\ sign1 s d aad (concat payload) header footer) n) as Hsig.
  { eapply (wp_COSE_Sign Hmem Hbytes ks s x y d); try done. }
  apply wp_run in Hsig as ([[ret header] footer] & n1 & E & -> & Hs1). exists header, footer, n1. split; [done|].
  assert (wp (COSE_Verify (Keys := kr) aad (header ++ concat payload ++ footer)) (fun x _ => x = (DPS_OK, who, concat payload)) n2) as Hv.
  { destruct Hs as (Hsa & Hk & _ & Hp & _). eapply (wp_COSE_Verify Hmem Hbytes kr s x y d); done. }
  apply wp_run in Hv as (res & n3 & E3 & ->). by exists n3.
Qed.

(** C9 What [COSE_Decrypt] accepts is authentic.  The recipient that it reports is one of
    those in the message, or the one that was asked for in a message of type Encrypt0;
    its content key is the one that the key store has for its identifier, or is unwrapped
    with that key, or with the key that the private key of the identifier and the
    ephemeral key of the message agree on; and the plain text, the nonce of the message
    and the authenticated data, with the tag and the algorithm, are what was encrypted
    under that content key.  The exception is a message for no recipient at all, which it
    accepts as an empty text. *)
Theorem accepted_is_authentic (kr : KeyStore) r aad msg n r' who p n' : byte_string aad -> Z.of_nat (length aad) < 2 ^ 31 ->
  COSE_Decrypt (Keys := kr) r aad msg n = Some ((DPS_OK, r', who, p), n') ->
  exists tag nonce sig content b n1,
    decrypt_front msg n = Some (inr (tag, COSE_ALG_A256GCM, nonce, sig, content, b), n1) /\
    (authentic (Keys := kr) tag b r r' nonce aad content p \/ no_recipient tag b p).
Proof using Hmem Hbytes TlsOk. exact (decrypted_authentic Hmem Hbytes r aad msg n r' who p n'). Qed.

(** C35 The array of what is signed in [COSE_Encrypt] has room for sixteen payload
    buffers: with a signer, up to sixteen are encrypted and signed, and more are written
    past its end, which is undefined behaviour. *)
Theorem signed_buffers_bound (ks : KeyStore) rs alg s x y d nonce aad payload n :
  can_send ks rs alg (Some s) x y d -> length nonce = COSE_NONCE_LEN -> Forall is_byte nonce ->
  byte_string aad -> Z.of_nat (length aad) < 2 ^ 31 -> payload <> [] -> Forall is_byte (concat payload) ->
  Z.of_nat (length (concat payload)) < 2 ^ 29 ->
  ((length payload <= DPS_BUFS_MAX)%nat ->
   exists header payload' footer n', COSE_Encrypt (Keys := ks) COSE_ALG_A256GCM nonce (Some s) rs aad payload n =
     Some ((DPS_OK, header, payload', footer), n')) /\
  ((DPS_BUFS_MAX < length payload)%nat -> COSE_Encrypt (Keys := ks) COSE_ALG_A256GCM nonce (Some s) rs aad payload n = None).
Proof using Hmem Hbytes TlsOk.
  intros Hcs Hn Hnb Haad Hal Hne Hpb Hpl. split; intros H; [|by apply (encrypt_overrun ks rs alg s x y d)].
  assert (wp (COSE_Encrypt (Keys := ks) COSE_ALG_A256GCM nonce (Some s) rs aad payload) (fun '(ret, _, _, _) _ => ret = DPS_OK) n) as Henc.
  { unfold COSE_Encrypt. wp_go. eapply (wp_encrypt_message Hmem Hbytes ks _ alg (Some s) x y d); try done; by intros; wp_go. }
  apply wp_run in Henc as ([[[ret header] payload'] footer] & n1 & E & ->). eauto.
Qed.
End Cose.

(** C36 [Encrypt_GCM] terminates, and over any buffers it is the cipher over the bytes
    in them, whatever their number and their lengths; [Decrypt_GCM] inverts it. *)
Theorem gcm_any_buffers `{Tls : Mbedtls} {TlsOk : MbedtlsOk Tls} key nonce aad bufs tag :
  length key = AES_256_KEY_LEN -> length nonce = AES_GCM_NONCE_LEN -> tx_wf tag -> tx_fits tag GCM_M ->
  exists bufs', Encrypt_GCM key nonce bufs tag aad = Some (DPS_OK, bufs', tx_app tag (aes_gcm key nonce aad (concat bufs)).2) /\
    map length bufs' = map length bufs /\ concat bufs' = (aes_gcm key nonce aad (concat bufs)).1 /\
    forall plain, tx_wf plain -> tx_pos plain = 0%nat -> length (tx_mem plain) = length (concat bufs) ->
      Decrypt_GCM key nonce (concat bufs' ++ (aes_gcm key nonce aad (concat bufs)).2) aad plain =
        Some (DPS_OK, mkTx (concat bufs) (length (concat bufs))).
Proof.
  intros Hk Hn Hw Hf. destruct (Encrypt_GCM_ok key nonce aad bufs tag Hk Hn Hw Hf) as (bufs' & E & Hl & Hc).
  exists bufs'. split; [done|]. split; [done|]. split; [done|]. intros plain Hpw Hp0 Hpl. rewrite Hc. by apply Decrypt_GCM_ok.
Qed.

(** ** The key store in memory *)

Definition key_of (entries : list (list Z * DPS_Key)) (kid : list Z) : option DPS_Key :=
  snd <$> (MemoryKeyStoreLookup entries kid ≫= (fun i => entries !! i)).

Lemma key_of_cons id k entries kid : key_of ((id, k) :: entries) kid = if bool_decide (id = kid) then Some k else key_of entries kid.
Proof.
  unfold key_of. cbn [MemoryKeyStoreLookup]. unfold SameKeyId. case_bool_decide; [done|]. by destruct (MemoryKeyStoreLookup entries kid).
Qed.
Lemma key_of_snoc id k entries kid : key_of entries id = None ->
  key_of (entries ++ [(id, k)]) kid = if bool_decide (id = kid) then Some k else key_of entries kid.
Proof.
  induction entries as [|[id' k'] entries IH]; intros H; [by cbn [app]; rewrite key_of_cons|].
  cbn [app]. rewrite key_of_cons in H |- *. case_bool_decide as E'; [done|]. specialize (IH H). rewrite !key_of_cons, IH.
  case_bool_decide as E1; [|done]. case_bool_decide as E2; [congruence|done].
Qed.
Lemma lookup_entry entries kid :
  match MemoryKeyStoreLookup entries kid ≫= (fun i => x ← entries !! i; Some (i, x)) with
  | Some (i, (id, old)) => key_of entries kid = Some old /\ In (id, old) entries /\
      forall k kid', key_of (<[i := (id, k)]> entries) kid' = if bool_decide (kid = kid') then Some k else key_of entries kid'
  | None => key_of entries kid = None
  end.
Proof.
  induction entries as [|[id k] entries IH]; [done|]. cbn [MemoryKeyStoreLookup]. unfold SameKeyId. case_bool_decide as E.
  - subst id. cbn [mbind option_bind lookup list_lookup]. rewrite key_of_cons, bool_decide_true by done. split; [done|]. split; [by left|].
    intros k1 kid'. cbn [insert list_insert]. rewrite !key_of_cons. by case_bool_decide.
  - rewrite key_of_cons, bool_decide_false by done. destruct (MemoryKeyStoreLookup entries kid) as [i|]; [|done].
    cbn [mbind option_bind fmap option_fmap option_map lookup list_lookup] in *. destruct (entries !! i) as [[id' k']|]; [|done].
    cbn [mbind option_bind] in *. destruct IH as (E1 & Hin & IH). split; [done|]. split; [by right|].
    intros k1 kid'. cbn [insert list_insert]. rewrite !key_of_cons, IH. case_bool_decide; [|done]. by case_bool_decide; [congruence|].
Qed.

Lemma handler_key_of mks kid : MemoryKeyStoreKeyHandler mks kid =
  match key_of (mks_entries mks) kid with
  | Some k => DPS_SetKey k
  | None => if SameKeyId (mks_networkId mks) kid then DPS_SetKey (KeySymmetric (mks_networkKey mks)) else Answer DPS_ERR_MISSING
  end.
Proof. unfold MemoryKeyStoreKeyHandler, key_of. by destruct (_ ≫= _) as [[id k]|]. Qed.

Definition symmetric_store (mks : DPS_MemoryKeyStore) : Prop :=
  Forall (fun e => exists k, e.2 = KeySymmetric k) (mks_entries mks).

(** Setting a key, or removing it, in a store of symmetric keys. *)
Definition stored (mks mks' : DPS_MemoryKeyStore) (kid : list Z) (key : option (list Z)) : Prop :=
  symmetric_store mks' /\ mks_networkId mks' = mks_networkId mks /\ mks_networkKey mks' = mks_networkKey mks /\
  forall kid', key_of (mks_entries mks') kid' =
    if bool_decide (kid = kid') && (bool_decide (is_Some key) || bool_decide (is_Some (key_of (mks_entries mks) kid)))
    then Some (KeySymmetric key) else key_of (mks_entries mks) kid'.

Section Store.
Context `{Env : Environment} (Hmem : forall k, env_alloc k = true).

Lemma wp_alloc_granted (Q : bool -> DPS_Node -> Prop) n : (forall k, Q true (n <| n_allocs := k |>)) -> wp alloc_ok Q n.
Proof using Hmem. intros HQ. unfold wp, alloc_ok. rewrite Hmem. apply HQ. Qed.

Lemma wp_set_entry k key (Q : DPS_Status * DPS_Key -> DPS_Node -> Prop) n :
  (forall n', Q (DPS_OK, KeySymmetric key) n') -> wp (MemoryKeyStoreSetKey (KeySymmetric k) (KeySymmetric ∘ Some <$> key)) Q n.
Proof using Hmem.
  intros HQ. destruct key as [key|]; [|apply HQ]. cbn [fmap option_fmap option_map compose MemoryKeyStoreSetKey copy_key]. wp_go.
  apply wp_alloc_granted. intros k'. wp_go. apply HQ.
Qed.

Lemma wp_SetContentKey mks kid key (Q : DPS_Status * DPS_MemoryKeyStore -> DPS_Node -> Prop) n : symmetric_store mks ->
  (forall mks' n', stored mks mks' kid key -> Q (DPS_OK, mks') n') ->
  wp (DPS_SetContentKey mks kid (KeySymmetric ∘ Some <$> key)) Q n.
Proof using Hmem.
  intros Hs HQ. unfold DPS_SetContentKey. pose proof (lookup_entry (mks_entries mks) kid) as Hl.
  destruct (MemoryKeyStoreLookup _ _ ≫= _) as [[i [id old]]|].
  - destruct Hl as (Ek & Hin & Hins). pose proof Hs as Ha. unfold symmetric_store in Ha. rewrite List.Forall_forall in Ha.
    destruct (Ha _ Hin) as [k0 E0]. cbn [snd] in E0. subst old. wp_go. apply wp_set_entry. intros n'. fine. apply HQ.
    split; [|split; [done|split; [done|]]]; cbn [set_entries mks_entries].
    + apply Forall_insert; [exact Hs|by eexists].
    + intros kid'. rewrite Hins, Ek, (bool_decide_true (is_Some (Some _))) by eauto. by rewrite orb_true_r, andb_true_r.
  - destruct key as [key|]; cbn [fmap option_fmap option_map compose].
    + rewrite bool_decide_true by eauto. cbn [negb]. wp_go.
      apply (wp_mono _ (fun p _ => p.1 = DPS_OK /\ mks_entries p.2 = mks_entries mks /\ mks_networkId p.2 = mks_networkId mks /\
        mks_networkKey p.2 = mks_networkKey mks)).
      { unfold MemoryKeyStoreGrow. case_decide; [|by wp_go]. wp_go. apply wp_alloc_granted. intros k. by wp_go. }
      intros [ret mks1] n1 (Hr & E1 & E2 & E3). cbn [fst snd] in *. subst ret. fine.
      apply (wp_mono _ (fun ok _ => ok = true)).
      { unfold DPS_CopyKeyId. destruct kid; [by wp_go|]. by apply wp_alloc_granted. }
      intros ok n2 ->. fine. apply (wp_set_entry None (Some key)). intros n3. fine. apply HQ.
      split; [|split; [done|split; [done|]]]; cbn [set_entries mks_entries]; rewrite E1.
      * apply Forall_app_2; [exact Hs|]. constructor; [by eexists|done].
      * intros kid'. rewrite key_of_snoc by done. rewrite (bool_decide_true (is_Some (Some key))) by eauto. by rewrite orb_true_l, andb_true_r.
    + wp_go. apply HQ. split; [done|]. split; [done|]. split; [done|]. intros kid'. rewrite Hl.
      rewrite !(bool_decide_false (is_Some None)) by (by intros []). by rewrite orb_false_r, andb_false_r.
Qed.
End Store.

(** C37 With memory, the key store in memory is a map of its content keys: after a key
    was set the handler answers its identifier with it, after it was removed with no
    key, and every other identifier as before. *)
Theorem memory_store_is_map `{Env : Environment} (Hmem : forall k, env_alloc k = true) mks kid key n : symmetric_store mks ->
  exists mks' n', DPS_SetContentKey mks kid (KeySymmetric ∘ Some <$> key) n = Some ((DPS_OK, mks'), n') /\ symmetric_store mks' /\
    forall kid', MemoryKeyStoreKeyHandler mks' kid' =
      if bool_decide (kid = kid') && (bool_decide (is_Some key) || bool_decide (is_Some (key_of (mks_entries mks) kid)))
      then DPS_SetKey (KeySymmetric key) else MemoryKeyStoreKeyHandler mks kid'.
Proof.
  intros Hs. assert (wp (DPS_SetContentKey mks kid (KeySymmetric ∘ Some <$> key)) (fun '(ret, mks') _ => ret = DPS_OK /\ stored mks mks' kid key) n) as H.
  { by apply (wp_SetContentKey Hmem). }
  apply wp_run in H as ([ret mks'] & n' & E & -> & Hs' & E1 & E2 & E3). exists mks', n'. split; [done|]. split; [done|].
  intros kid'. rewrite !handler_key_of, E1, E2, E3. by destruct (_ && _).
Qed.

(** ** Messages that must not come from the network *)

(** C38 Messages that anyone can send take the decoders out of defined behaviour: one of
    type Encrypt0 makes [COSE_Decrypt] ask for the key of a recipient that was never
    set, and a signature of a known signer that is too short makes [Verify_ECDSA] free
    a context that was never initialised. *)
Theorem forged_messages_undefined `{Env : Environment} `{Tls : Mbedtls} (Hmem : forall k, env_alloc k = true)
    (Hbytes : forall k size, length (env_bytes k size) = size /\ Forall is_byte (env_bytes k size)) (kr : KeyStore) aad :
  byte_string aad -> Z.of_nat (length aad) < 2 ^ 30 ->
  (forall h msg alg nonce sig content b n n1, @keyHandler kr = Some h ->
     decrypt_front msg n = Some (inr (COSE_TAG_ENCRYPT0, alg, nonce, sig, content, b), n1) ->
     COSE_Decrypt (Keys := kr) blank_recipient aad msg n = None) /\
  (forall s x y content bytes n, signer_alg (e_alg s) -> coordinate (sig_curve (e_alg s)) x -> coordinate (sig_curve (e_alg s)) y ->
     knows kr s x y -> Z.of_nat (length content) < 2 ^ 30 -> (length bytes < 2 * CoordinateSize_EC (sig_curve (e_alg s)))%nat ->
     VerifySignature (Keys := kr) COSE_TAG_SIGN1 (e_alg s) (mkSig (e_alg s) (e_kid s) bytes) aad content n = None).
Proof.
  intros Haad Hl. split.
  - intros h msg alg nonce sig content b n n1 Eh Ef. unfold COSE_Decrypt. unfold mbind at 1, M_bind at 1. rewrite Ef. cbn [mbind option_bind].
    pose proof (wlp_decrypt_front msg n) as Hf. unfold wlp in Hf. rewrite Ef in Hf. destruct Hf as [_ ->].
    assert (forall n2, decrypt_content (Keys := kr) COSE_TAG_ENCRYPT0 COSE_ALG_A256GCM nonce aad content b blank_recipient n2 = None) as Hd.
    { intros n2. unfold decrypt_content. apply undefined_bind. apply (wp_EncodeAAD Hmem Hbytes); [by left|by apply (bool_decide_unpack _)|done|lia|].
      intros ab k _ _. cbv beta iota. change (is_OK DPS_OK) with true. rewrite Z.eqb_refl. cbn [negb]. apply undefined_bind. apply wp_ret.
      cbv beta iota. change (is_OK DPS_OK) with true. cbn [negb]. unfold skip_fuel.
      unfold mbind at 1, M_bind at 1. cbn [decrypt_recipients]. change (1 =? 0) with false. change (COSE_TAG_ENCRYPT0 =? COSE_TAG_ENCRYPT) with false.
      cbv iota. unfold recipient_key, GetKeyOf. cbn [rc_alg rc_kid blank_recipient]. rewrite Eh. reflexivity. }
    apply undefined_after. intros signer n2. by apply undefined_first.
  - intros s x y content bytes n Hs Hx Hy (d & Hd & Hans) Hc Hb. destruct (signer_int8 _ Hs) as [Hs8 _]. cbn [e_alg e_kid] in Hans.
    unfold VerifySignature. apply undefined_try_ok.
    apply (wp_EncodePartialSig Hmem Hbytes COSE_TAG_SIGN1 (e_alg s) (e_alg s) aad content); [tauto|done|done|done|lia|].
    intros b k _ _. split; [done|]. cbn [snd]. apply undefined_try_ok.
    eapply (wp_GetSignatureKey kr (mkSig (e_alg s) (e_kid s) bytes)); [done|by instantiate (1 := Some x)|by instantiate (1 := Some y)|exact Hd|exact Hans|].
    split; [done|]. cbn [snd ck_curve ck_x ck_y sg_alg sg_sig]. apply undefined_bind. eapply wp_lift; [done|].
    unfold mbind, M_bind, lift, Verify_ECDSA. rewrite curve_params by apply sig_curve_ok. cbn [mbind option_bind].
    rewrite !cells_opt_read by done. cbn [mbind option_bind]. by rewrite decide_True by lia.
Qed.

(** ** Concrete messages *)

Section Witnesses.
#[local] Existing Instance toy_env.

Lemma toy_env_filled k size : length (env_bytes k size) = size /\ Forall is_byte (env_bytes k size).
Proof. cbn. split; [apply length_replicate|]. by apply Forall_replicate. Qed.
Lemma toy_mem k : env_alloc k = true.
Proof. done. Qed.

(** The sender knows the public keys of [1] and [2] and has the private key of [3]; the
    receiver has the private key of [2] and knows the public key of [3]. *)
Definition toy_coord (b : Z) : list Z := replicate 48 b.
Definition toy_public (b : Z) : DPS_Key := KeyEC DPS_EC_CURVE_P384 (Some (toy_coord b)) (Some (toy_coord b)) None.
Definition toy_private (b : Z) : DPS_Key := KeyEC DPS_EC_CURVE_P384 None None (Some (toy_coord b)).
Definition toy_sender : DPS_MemoryKeyStore := mkMks [([1], toy_public 5); ([2], toy_public 6); ([3], toy_private 7)] 4 [] None None.
Definition toy_receiver : DPS_MemoryKeyStore := mkMks [([2], toy_private 6); ([3], toy_public 7)] 2 [] None None.
Definition toy_rcpt (kid : Z) : COSE_Entity := mkEntity COSE_ALG_ECDH_ES_A256KW [kid].
Definition toy_signer : COSE_Entity := mkEntity COSE_ALG_ES384 [3].

Lemma toy_coord_ok b : is_byte b -> coordinate DPS_EC_CURVE_P384 (toy_coord b).
Proof. intros H. split; [done|]. by apply Forall_replicate. Qed.
Lemma toy_pair curve b : is_curve curve -> is_byte b ->
  let c := replicate (CoordinateSize_EC curve) b in key_pair curve c c c.
Proof.
  intros Hc Hb c. assert (coordinate curve c) as H by (split; [apply length_replicate|by apply Forall_replicate]).
  split; [done|]. do 3 (split; [done|]). split; [done|]. rewrite group_size_curve by done. apply H.
Qed.
Lemma toy_byte b : (0 <=? b) && (b <? 256) = true -> is_byte b.
Proof. unfold is_byte. lia. Qed.

Lemma toy_answers mks kid k : key_of (mks_entries mks) kid = Some k -> answers (memory_key_store mks) kid (DPS_SetKey k).
Proof. intros E. eexists. split; [done|]. cbn. by rewrite handler_key_of, E. Qed.

Lemma toy_generates mks : generates (memory_key_store mks).
Proof.
  eexists. split; [done|]. split.
  - intros t. exists (replicate 32 (u8 (Z.of_nat t))). split; [|done]. split; [done|]. apply Forall_replicate. unfold is_byte, u8.
    apply Z.mod_pos_bound. lia.
  - intros t curve Hc. assert (is_byte (u8 (Z.of_nat t))) as Hb by (unfold is_byte, u8; apply Z.mod_pos_bound; lia).
    set (c := replicate (CoordinateSize_EC curve) (u8 (Z.of_nat t))). exists c, c, c. pose proof (toy_pair curve _ Hc Hb) as Hp.
    split; [done|]. destruct Hp as (_ & [Hl Hbs] & _). unfold MemoryKeyStoreEphemeralKeyHandler, DPS_EphemeralKey.
    rewrite curve_params by done. cbn. rewrite group_size_curve by done. fold c. by rewrite decide_True.
Qed.

Lemma toy_signs : signs (memory_key_store toy_sender) toy_signer (toy_coord 7) (toy_coord 7) (toy_coord 7).
Proof.
  split; [by left|]. split; [by apply (bool_decide_unpack _)|]. split; [done|]. split; [by apply (toy_pair DPS_EC_CURVE_P384 7); [left|]|].
  exists None, None. split; [done|]. split; [done|]. by apply toy_answers.
Qed.
Lemma toy_knows : knows (memory_key_store toy_receiver) toy_signer (toy_coord 7) (toy_coord 7).
Proof. exists None. split; [done|]. by apply toy_answers. Qed.

Lemma toy_reachable kid b : is_byte b -> is_byte kid -> key_of (mks_entries toy_sender) [kid] = Some (toy_public b) ->
  reachable (memory_key_store toy_sender) (toy_rcpt kid).
Proof.
  intros Hb Hk E. exists (replicate 32 0). split; [by split; [done|apply Forall_replicate]|]. split; [by split; [cbn|constructor]|].
  split; [by cbn|]. right. right. split; [done|]. exists DPS_EC_CURVE_P384, (toy_coord b), (toy_coord b), None, (toy_coord b).
  split; [by apply (toy_pair DPS_EC_CURVE_P384 b); [left|]|]. split; [done|]. by apply toy_answers.
Qed.
Lemma toy_can_send signer : signer_ok (memory_key_store toy_sender) signer (toy_coord 7) (toy_coord 7) (toy_coord 7) ->
  can_send (memory_key_store toy_sender) [toy_rcpt 1; toy_rcpt 2] COSE_ALG_ECDH_ES_A256KW signer (toy_coord 7) (toy_coord 7) (toy_coord 7).
Proof.
  intros Hs. split; try done; [apply toy_generates|by repeat constructor|]. constructor; [by apply (toy_reachable 1 5)|].
  constructor; [by apply (toy_reachable 2 6)|done].
Qed.

Lemma toy_lacks : lacks (memory_key_store toy_receiver) (toy_rcpt 1).
Proof. exists DPS_ERR_MISSING. split; [done|]. by eexists. Qed.
Lemma toy_shared : shared (memory_key_store toy_sender) (memory_key_store toy_receiver) (toy_rcpt 2).
Proof.
  left. split; [done|]. exists DPS_EC_CURVE_P384, (toy_coord 6), (toy_coord 6), None, (toy_coord 6), None, None.
  split; [by apply (toy_pair DPS_EC_CURVE_P384 6); [left|]|]. split; [done|]. split; [done|]. split; by apply toy_answers.
Qed.

Definition toy_nonce : list Z := replicate 12 7.
Definition toy_payload : list (list Z) := [[104; 105]; [106]].
Definition toy_recipients : list COSE_Entity := [toy_rcpt 1; toy_rcpt 2].

Lemma encrypted_for_recipients_witness :
  exists header payload' footer n1,
    COSE_Encrypt (Keys := memory_key_store toy_sender) COSE_ALG_A256GCM toy_nonce (Some toy_signer) toy_recipients [9] toy_payload toy_node =
      Some ((DPS_OK, header, payload', footer), n1) /\ map length payload' = [2%nat; 1%nat] /\
    exists n3, COSE_Decrypt (Keys := memory_key_store toy_receiver) blank_recipient [9] (header ++ concat payload' ++ footer) toy_node =
      Some ((DPS_OK, mkRcpt (Some COSE_ALG_ECDH_ES_A256KW) (Some [2]), toy_signer, [104; 105; 106]), n3).
Proof.
  apply (encrypted_for_recipients toy_mem toy_env_filled (memory_key_store toy_sender) (memory_key_store toy_receiver)
    [toy_rcpt 1] (toy_rcpt 2) [] COSE_ALG_ECDH_ES_A256KW (Some toy_signer) (toy_coord 7) (toy_coord 7) (toy_coord 7)).
  - apply toy_can_send, toy_signs.
  - constructor; [apply toy_lacks|done].
  - apply toy_shared.
  - left. split; [apply toy_knows|done].
  - done.
  - by apply (bool_decide_unpack _).
  - by apply (bool_decide_unpack _).
  - done.
  - done.
  - by apply (bool_decide_unpack _).
  - done.
  - intros _. cbn. unfold DPS_BUFS_MAX. lia.
Defined.

Lemma signed_and_verified_witness :
  exists header footer n1,
    COSE_Sign (Keys := memory_key_store toy_sender) toy_signer [9] toy_payload toy_node = Some ((DPS_OK, header, footer), n1) /\
    exists n3, COSE_Verify (Keys := memory_key_store toy_receiver) [9] (header ++ concat toy_payload ++ footer) toy_node =
      Some ((DPS_OK, toy_signer, [104; 105; 106]), n3).
Proof.
  apply (signed_and_verified toy_mem toy_env_filled (memory_key_store toy_sender) (memory_key_store toy_receiver)
    toy_signer (toy_coord 7) (toy_coord 7) (toy_coord 7)).
  - apply toy_signs.
  - left. split; [apply toy_knows|done].
  - by apply (bool_decide_unpack _).
  - done.
  - cbn. unfold DPS_BUFS_MAX. lia.
  - by apply (bool_decide_unpack _).
  - done.
Defined.

Definition toy_message : list Z :=
  match COSE_Encrypt (Keys := memory_key_store toy_sender) COSE_ALG_A256GCM toy_nonce None toy_recipients [9] toy_payload toy_node with
  | Some ((_, header, payload', footer), _) => header ++ concat payload' ++ footer
  | None => []
  end.

Lemma accepted_is_authentic_witness : exists n',
  COSE_Decrypt (Keys := memory_key_store toy_receiver) blank_recipient [9] toy_message toy_node =
    Some ((DPS_OK, mkRcpt (Some COSE_ALG_ECDH_ES_A256KW) (Some [2]), no_entity, [104; 105; 106]), n') /\
  exists tag nonce sig content b n1,
    decrypt_front toy_message toy_node = Some (inr (tag, COSE_ALG_A256GCM, nonce, sig, content, b), n1) /\
    (authentic (Keys := memory_key_store toy_receiver) tag b blank_recipient (mkRcpt (Some COSE_ALG_ECDH_ES_A256KW) (Some [2])) nonce [9] content [104; 105; 106] \/
     no_recipient tag b [104; 105; 106]).
Proof.
  eexists. split; [vm_compute; reflexivity|].
  eapply (accepted_is_authentic toy_mem toy_env_filled (memory_key_store toy_receiver) blank_recipient [9] toy_message toy_node);
    [by apply (bool_decide_unpack _)|done|vm_compute; reflexivity].
Defined.

Lemma signed_buffers_bound_witness :
  COSE_Encrypt (Keys := memory_key_store toy_sender) COSE_ALG_A256GCM toy_nonce (Some toy_signer) toy_recipients [9]
    (replicate 17 [104]) toy_node = None.
Proof.
  apply (signed_buffers_bound toy_mem toy_env_filled (memory_key_store toy_sender) toy_recipients COSE_ALG_ECDH_ES_A256KW toy_signer
    (toy_coord 7) (toy_coord 7) (toy_coord 7) toy_nonce [9] (replicate 17 [104]) toy_node).
  - apply toy_can_send, toy_signs.
  - done.
  - by apply (bool_decide_unpack _).
  - by apply (bool_decide_unpack _).
  - done.
  - done.
  - by apply (bool_decide_unpack _).
  - done.
  - cbn. unfold DPS_BUFS_MAX. lia.
Defined.

Lemma gcm_any_buffers_witness : exists bufs',
  Encrypt_GCM (replicate 32 3) toy_nonce [[104; 105]; []; [106]] (mkTx (replicate 16 0) 0) [9] =
    Some (DPS_OK, bufs', tx_app (mkTx (replicate 16 0) 0) (aes_gcm (replicate 32 3) toy_nonce [9] [104; 105; 106]).2) /\
  map length bufs' = [2%nat; 0%nat; 1%nat] /\ concat bufs' = (aes_gcm (replicate 32 3) toy_nonce [9] [104; 105; 106]).1 /\
  forall plain, tx_wf plain -> tx_pos plain = 0%nat -> length (tx_mem plain) = 3%nat ->
    Decrypt_GCM (replicate 32 3) toy_nonce (concat bufs' ++ (aes_gcm (replicate 32 3) toy_nonce [9] [104; 105; 106]).2) [9] plain =
      Some (DPS_OK, mkTx [104; 105; 106] 3).
Proof.
  apply (gcm_any_buffers (replicate 32 3) toy_nonce [9] [[104; 105]; []; [106]] (mkTx (replicate 16 0) 0)); [done|done|..].
  - by apply (bool_decide_unpack _).
  - by apply (bool_decide_unpack _).
Defined.

Definition toy_keys : DPS_MemoryKeyStore := mkMks [([1], KeySymmetric (Some [5; 5]))] 1 [8] (Some [6; 6]) None.

Lemma memory_store_is_map_witness : exists mks' n',
  DPS_SetContentKey toy_keys [2] (Some (KeySymmetric (Some [4; 4]))) toy_node = Some ((DPS_OK, mks'), n') /\ symmetric_store mks' /\
  MemoryKeyStoreKeyHandler mks' [2] = DPS_SetKey (KeySymmetric (Some [4; 4])) /\
  MemoryKeyStoreKeyHandler mks' [1] = DPS_SetKey (KeySymmetric (Some [5; 5])) /\
  MemoryKeyStoreKeyHandler mks' [3] = Answer DPS_ERR_MISSING.
Proof.
  destruct (memory_store_is_map toy_mem toy_keys [2] (Some [4; 4]) toy_node) as (mks' & n' & E & Hs & H).
  { constructor; [by eexists|done]. }
  exists mks', n'. split; [exact E|]. split; [exact Hs|]. rewrite !H. done.
Defined.

(** One block of one protected header with algorithm, a nonce and a content. *)
Definition toy_forged : list Z :=
  [208; 131; 67; 161; 1; 3; 161; 5; 76] ++ toy_nonce ++ [81] ++ replicate 17 1.

Lemma forged_messages_undefined_witness :
  COSE_Decrypt (Keys := memory_key_store toy_receiver) blank_recipient [9] toy_forged toy_node = None /\
  VerifySignature (Keys := memory_key_store toy_receiver) COSE_TAG_SIGN1 COSE_ALG_ES384 (mkSig COSE_ALG_ES384 [3] [1; 2]) [9] [104] toy_node = None.
Proof.
  pose proof (forged_messages_undefined toy_mem toy_env_filled (memory_key_store toy_receiver) [9]) as H.
  destruct H as [H1 H2]; [by apply (bool_decide_unpack _)|done|]. split.
  - eapply H1; [done|]. vm_compute. reflexivity.
  - apply (H2 toy_signer (toy_coord 7) (toy_coord 7)); [by left|by apply toy_coord_ok, toy_byte..|apply toy_knows|done|].
    change (2 < 2 * 48)%nat. lia.
Defined.
End Witnesses.
