(* ===== verification/SubDecodeProofs.v ===== *)
(** * Reading a subscription message ([src/sub.c])

    The parser gives back the fields of a message that was sent. *)
From S2P Require Import Prelude Status Buffer Float Cbor CborProofs CborValues CborMap.
From S2P Require Import BitVec BitVecProofs BitVecSerial CountVec Uuid Addr History Node Remote RemoteProofs.
From S2P Require Import TopicTheorems Sub SubMsg SubMsgProofs Pub Link SubDecode.
From stdpp Require Import gmap.
From Stdlib Require Import Sorting.Sorted.
#[local] Open Scope Z_scope.
#[local] Set Warnings "-clear-no-such-hyp".

(** ** Values *)

Lemma DecodeUint_head b maj n n0 tl :
  rx_wf b -> is_major maj -> 0 <= n < 2 ^ 32 -> rx_rest b = cbor_head maj n ++ tl ->
  DecodeUint b n0 maj = Some (DPS_OK, n, rx_skip b (length (cbor_head maj n))).
Proof. intros. apply (DecodeUint_spec b maj n n0 tl); try done; lia. Qed.

Lemma DecodeUint16_wire b n n0 tl :
  rx_wf b -> 0 <= n < 65536 -> rx_rest b = wire (CInt n) ++ tl ->
  CBOR_DecodeUint16 b n0 = Some (DPS_OK, n, rx_skip b (length (wire (CInt n)))).
Proof.
  intros Hb Hn E. cbn [wire] in *. rewrite cbor_int_pos in * by lia. unfold CBOR_DecodeUint16.
  rewrite (DecodeUint_head b CBOR_UINT n 0 tl) by (major || lia || done). cbn [mbind option_bind is_OK negb].
  change (is_OK DPS_OK) with true. cbn [negb]. unfold UINT16_MAX. rewrite Z.gtb_ltb.
  rewrite (proj2 (Z.ltb_ge _ _)) by lia. unfold u16. by rewrite Z.mod_small by lia.
Qed.
Lemma DecodeUint32_wire b n n0 tl :
  rx_wf b -> uint32 n -> rx_rest b = wire (CInt n) ++ tl ->
  CBOR_DecodeUint32 b n0 = Some (DPS_OK, n, rx_skip b (length (wire (CInt n)))).
Proof.
  unfold uint32. intros Hb Hn E. cbn [wire] in *. rewrite cbor_int_pos in * by lia. unfold CBOR_DecodeUint32.
  rewrite (DecodeUint_head b CBOR_UINT n 0 tl) by (major || lia || done). cbn [mbind option_bind].
  change (is_OK DPS_OK) with true. cbn [negb]. unfold UINT32_MAX. rewrite Z.gtb_ltb.
  rewrite (proj2 (Z.ltb_ge _ _)) by lia. unfold u32. by rewrite Z.mod_small by lia.
Qed.
Lemma DecodeUint8_wire b n n0 tl :
  rx_wf b -> 0 <= n < 256 -> rx_rest b = cbor_head CBOR_UINT n ++ tl ->
  CBOR_DecodeUint8 b n0 = Some (DPS_OK, n, rx_skip b (length (cbor_head CBOR_UINT n))).
Proof.
  intros Hb Hn E. unfold CBOR_DecodeUint8.
  rewrite (DecodeUint_head b CBOR_UINT n 0 tl) by (major || lia || done). cbn [mbind option_bind].
  change (is_OK DPS_OK) with true. cbn [negb]. unfold UINT8_MAX. rewrite Z.gtb_ltb.
  rewrite (proj2 (Z.ltb_ge _ _)) by lia. unfold u8. by rewrite Z.mod_small by lia.
Qed.

Lemma DecodeArray_head b n n0 tl :
  rx_wf b -> 0 <= n < 2 ^ 32 -> rx_rest b = cbor_head CBOR_ARRAY n ++ tl ->
  CBOR_DecodeArray b n0 = Some (DPS_OK, n, rx_skip b (length (cbor_head CBOR_ARRAY n))).
Proof.
  intros Hb Hn E. unfold CBOR_DecodeArray.
  rewrite (DecodeUint_head b CBOR_ARRAY n 0 tl) by (major || lia || done). cbn [mbind option_bind].
  change (is_OK DPS_OK) with true. cbv iota. unfold SIZE_MAX. rewrite Z.gtb_ltb.
  rewrite (proj2 (Z.ltb_ge _ _)) by lia. unfold u64. by rewrite Z.mod_small by lia.
Qed.

Lemma le_value_uuid u : uuid_ok u -> uuid_of_val (uuid_val u) = u.
Proof.
  destruct u as [a b]. intros [Ha Hb]. unfold uuid_of_val, uuid_val, is_word in *. cbn [val64_0 val64_1] in *.
  rewrite take_app_le, drop_app_ge by (rewrite le_bytes_length; lia).
  rewrite !le_bytes_length, Nat.sub_diag, drop_0, !take_ge by (rewrite le_bytes_length; lia).
  f_equal; by apply le_value_le_bytes.
Qed.

(** A vector that was allocated. *)
Lemma wp_BitVectorAlloc_cases `{Env : Environment} (Q : option DPS_BitVector -> DPS_Node -> Prop) n :
  bitLen env_config mod 64 = 0 ->
  (forall k, Q None (n <| n_allocs := k |>)) ->
  (forall k, Q (Some (fresh_bv (bitLen env_config))) (n <| n_allocs := k |>)) -> wp BitVectorAlloc Q n.
Proof.
  intros Hm H0 H1. unfold BitVectorAlloc, alloc_ok, wp, mbind, M_bind, lift, DPS_BitVectorAlloc, AllocBV. cbn.
  rewrite Hm. cbn. destruct (env_alloc (n_allocs n)); cbn; [apply H1|apply H0].
Qed.
Lemma wp_BitVectorAllocFH_cases `{Env : Environment} (Q : option DPS_BitVector -> DPS_Node -> Prop) n :
  (forall k, Q None (n <| n_allocs := k |>)) ->
  (forall k, Q (Some (fresh_bv 256)) (n <| n_allocs := k |>)) -> wp BitVectorAllocFH Q n.
Proof.
  intros H0 H1. unfold BitVectorAllocFH, alloc_ok, wp, mbind, M_bind, lift, DPS_BitVectorAllocFH, AllocBV. cbn.
  destruct (env_alloc (n_allocs n)); cbn; [apply H1|apply H0].
Qed.

(** A vector that was received: only its count may be wrong. *)
Lemma Deserialize_received rx k flags l payload tl :
  rx_wf rx -> 64 * Z.of_nat k <= 65535 -> length l = k -> chunks_ok l ->
  Z.of_nat (length payload) <= 64 * Z.of_nat k / 8 -> bv_payload flags l payload -> 0 <= flags < 4 ->
  rx_rest rx = bv_wire flags (64 * Z.of_nat k) payload ++ tl ->
  exists bv, DPS_BitVectorDeserialize (fresh_bv (64 * Z.of_nat k)) rx =
      Some (DPS_OK, bv, rx_skip rx (length (bv_wire flags (64 * Z.of_nat k) payload))) /\
    bits bv = l /\ vec_ok k bv.
Proof.
  intros Hrx Hk Hl Hok Hpl Hp Hf E. set (fresh := fresh_bv (64 * Z.of_nat k)) in *.
  assert (bv_wf fresh) as Hw by (apply fresh_bv_wf; [by rewrite Z.mul_comm, Z.mod_mul|lia]).
  assert (length (bits fresh) = k) as Hb.
  { cbn. rewrite length_replicate, Z.mul_comm, Z.div_mul by done. lia. }
  destruct (DPS_BitVectorDeserialize_spec fresh rx flags l payload tl) as (bv & Ex & Eb & El); try done; try congruence.
  exists bv. split_and!; [exact Ex|done|]. split.
  - split; [|by rewrite <- Hl, <- Eb]. constructor; cbn; [rewrite El, Eb, Hl; done|rewrite El; cbn; lia|by rewrite Eb|by left].
  - rewrite (Deserialize_heads fresh rx flags payload tl) in Ex by (done || cbn; lia). cbv zeta in Ex.
    intros H0. exfalso. destruct (negb (flags .& FLAG_RLE_ENCODED =? 0)).
    + destruct (RunLengthDecode _ _ _) as [[ret l']|]; [|done]. cbn [mbind option_bind] in Ex.
      destruct (is_OK ret && negb (flags .& FLAG_RLE_COMPLEMENT =? 0)); injection Ex as _ <-; [|done].
      cbn in H0. unfold s32, u32 in H0. rewrite (Z.mod_small (64 * Z.of_nat k)), Z.mod_small in H0 by lia.
      case_match; lia.
    + destruct (_ =? _); [by injection Ex as <-|done].
Qed.

Lemma DeserializeFH_wire rx bs l tl :
  rx_wf rx -> chunks_ok l -> length l = FH_CHUNKS -> bs = bytes_of_chunks l ->
  rx_rest rx = wire (CBytes bs) ++ tl ->
  exists bv, DPS_BitVectorDeserializeFH (fresh_bv 256) rx = Some (DPS_OK, bv, rx_skip rx (length (wire (CBytes bs)))) /\
    bits bv = l /\ vec_wf FH_CHUNKS bv.
Proof.
  intros Hrx Hok Hl -> E. cbn [wire] in *. pose proof (bytes_of_chunks_length l) as Hn. rewrite Hl in Hn.
  rewrite <- app_assoc in E. unfold DPS_BitVectorDeserializeFH. change (c_assert _) with (Some ()). cbn [mbind option_bind].
  rewrite (CBOR_DecodeBytes_spec rx _ tl Hrx) by (first [exact E|rewrite Hn; done]). cbn [mbind option_bind].
  change (is_OK DPS_OK) with true. cbv iota. 
  assert ((Z.of_nat (length (bytes_of_chunks l)) =? len (fresh_bv 256) / 8) = true) as -> by by rewrite Hn.
  rewrite (decoded_bytes_spec rx _ _ tl Hrx E). cbn [mbind option_bind].
  eexists. split; [done|]. cbn [bits set_bits]. change (Z.to_nat (NUM_CHUNKS (fresh_bv 256))) with FH_CHUNKS.
  rewrite <- Hl, words_of_chunks by done. split; [done|]. split; [|done].
  constructor; cbn; [by rewrite Hl|done|done|by left].
Qed.

Section Parse.
Context `{Env : Environment} (nI : nat).
Context (Hsize : bitLen env_config = 64 * Z.of_nat nI) (Hsmall : 64 * Z.of_nat nI <= 65535).
Context (sak : bool) (mem tl : list Z).

(** The loop is about to read [es]: all of them are keys that it asks for, and
    nothing else is missing. *)
Record parsing (m : CBOR_MapState) (es : list (Z * cbor)) : Prop := {
  pa_ok : ms_result m = DPS_OK;
  pa_map : matching m es tl;
  pa_asked : Forall (fun e => e.1 ∈ ms_needs m \/ e.1 ∈ ms_wants m) es;
  pa_needs : Forall (fun n => n ∈ map fst es) (ms_needs m);
  pa_mem : rx_mem (ms_buffer m) = mem
}.

Lemma parsing_nil m : parsing m [] -> DPS_ParseMapDone m = Some (true, m).
Proof.
  intros [Hok Hm _ Hn _]. destruct m as [b needs wants entries result]. cbn in *.
  assert (needs = []) as -> by (destruct needs as [|n ?]; [done|inversion Hn; subst; by eapply elem_of_nil in H1]).
  pose proof (mt_entries _ _ _ Hm) as He. cbn in He. subst entries.
  unfold DPS_ParseMapDone. cbn. destruct (is_nil wants); cbn; unfold SkipEntries; by destruct (skip_fuel b).
Qed.

Lemma parsing_done m e es : parsing m (e :: es) -> DPS_ParseMapDone m = Some (false, m).
Proof.
  intros [_ Hm Ha _ _]. unfold DPS_ParseMapDone. destruct (ms_needs m) as [|x l] eqn:En; [|done]. cbn.
  inversion Ha as [|? ? [Hin|Hin] _]; subst; rewrite ?En in Hin; [by apply elem_of_nil in Hin|].
  pose proof (mt_entries _ _ _ Hm) as He. cbn in He.
  destruct (ms_wants m); [by apply elem_of_nil in Hin|]. cbn. by rewrite (proj2 (Z.eqb_neq _ _)) by lia.
Qed.

(** One round of the loop up to the value. *)
Lemma parsing_step m k v es key :
  parsing m ((k, v) :: es) ->
  exists m', DPS_ParseMapNext m key = Some (DPS_OK, m', k) /\
    rx_wf (ms_buffer m') /\ rx_rest (ms_buffer m') = wire v ++ ewire es ++ tl /\
    rx_eod (ms_buffer m') = rx_eod (ms_buffer m) /\
    parsing (ms_set_buffer m' (rx_skip (ms_buffer m') (length (wire v)))) es.
Proof using.
  clear dependent nI.
  intros [Hok Hm Ha Hn Hmem]. apply Forall_cons_iff in Ha as [Hk Ha]. cbn in Hk, Hn.
  destruct (ParseMapNext_step m [] k v es tl key Hok Hm (List.Forall_nil _) Hk Hn)
    as (m' & E & Hok' & Hwf & Hrest & Hneeds & Hwants & Hm' & Hmem' & Heod). exists m'. split_and!; try done.
  assert (Hlt : Forall (Z.lt k) (map fst es)) by (pose proof (mt_sorted _ _ _ Hm) as Hs; by inversion Hs).
  rewrite List.Forall_map in Hlt.
  constructor; cbn [ms_set_buffer ms_result ms_needs ms_wants ms_buffer]; [done|done| | |by rewrite <- Hmem, <- Hmem'].
  - rewrite Hneeds. pose proof (List.Forall_and Hlt Ha) as Hb. cbn in Hb.
    eapply Forall_impl; [exact Hb|]. intros e [Hlt' [H|H]]; [left; by apply list_elem_of_filter|right].
    assert (e.1 ∈ filter (fun w => k < w) (ms_wants m')) as [_ ?]%list_elem_of_filter; [|done].
    rewrite Hwants. by apply list_elem_of_filter.
  - rewrite Hneeds. rewrite List.Forall_forall in Hn |- *. intros n [Hl Hin%list_elem_of_In]%list_elem_of_In%list_elem_of_filter.
    apply Hn, elem_of_cons in Hin as [->|Hin]; [lia|done].
Qed.

(** A round: [decode_value] and the rest of the loop. *)
Lemma wp_parse_round fuel m k v es f (R : SubFields -> DPS_Node -> Prop) (Q : DPS_Status * SubFields -> DPS_Node -> Prop) n :
  parsing m ((k, v) :: es) ->
  (forall b, rx_wf b -> rx_mem b = mem -> rx_rest b = wire v ++ ewire es ++ tl ->
     wp (decode_value sak k f b) (fun x n' =>
       x.1.1 = DPS_OK /\ x.2 = rx_skip b (length (wire v)) /\ R x.1.2 n' \/
       is_OK x.1.1 = false /\ Q (x.1.1, x.1.2) n') n) ->
  (forall m' f' n', parsing m' es -> R f' n' -> wp (parse_loop fuel sak m' f') Q n') ->
  wp (parse_loop (S fuel) sak m f) Q n.
Proof.
  intros Hp Hd HQ. destruct (parsing_step m k v es 0 Hp) as (m' & E & Hwf & Hrest & _ & Hp').
  cbn [parse_loop]. wp_go. eapply wp_lift; [by eapply parsing_done|]. wp_go.
  eapply wp_lift; [exact E|]. wp_go. ok. eapply wp_mono; [apply Hd; [done|apply (pa_mem _ _ Hp')|done]|].
  intros [[ret f'] b'] n' [(E1 & E2 & HR)|[E1 HQ']]; cbn [fst snd] in *.
  - subst ret b'. wp_go. ok. by apply (HQ _ f').
  - wp_go. rewrite E1. cbn [negb]. by wp_go.
Qed.

Lemma wp_parse_end fuel m f (Q : DPS_Status * SubFields -> DPS_Node -> Prop) n :
  parsing m [] -> Q (DPS_OK, f) n -> wp (parse_loop fuel sak m f) Q n.
Proof.
  intros Hp HQ. destruct fuel; cbn [parse_loop]; wp_go; (eapply wp_lift; [by apply parsing_nil|]); by wp_go.
Qed.

(** A round whose value is always decoded to the same field. *)
Lemma wp_parse_value fuel m k v es f f' (Q : DPS_Status * SubFields -> DPS_Node -> Prop) n :
  parsing m ((k, v) :: es) ->
  (forall b n, rx_wf b -> rx_mem b = mem -> rx_rest b = wire v ++ ewire es ++ tl ->
     decode_value sak k f b n = Some (DPS_OK, f', rx_skip b (length (wire v)), n)) ->
  (forall m', parsing m' es -> wp (parse_loop fuel sak m' f') Q n) ->
  wp (parse_loop (S fuel) sak m f) Q n.
Proof.
  intros Hp Hd HQ. apply (wp_parse_round fuel m k v es f (fun x n' => x = f' /\ n' = n)); [done| |].
  - intros b Hb Hm Hr. eapply run_wp; [by apply Hd|]. by left.
  - intros m' ? ? Hp' [-> ->]. by apply HQ.
Qed.

Ltac one_value E :=
  unfold decode_value, mbind, M_bind, lift; cbn -[wire uuid_val uuid_of_val]; rewrite E; cbn -[wire uuid_val uuid_of_val].

Lemma wp_parse_port fuel m x es f (Q : DPS_Status * SubFields -> DPS_Node -> Prop) n :
  parsing m ((DPS_CBOR_KEY_PORT, CInt x) :: es) -> 0 <= x < 65536 ->
  (forall m', parsing m' es -> wp (parse_loop fuel sak m' (f <| sf_port := x |>)) Q n) ->
  wp (parse_loop (S fuel) sak m f) Q n.
Proof.
  intros Hp Hx. eapply wp_parse_value; [exact Hp|]. intros b k Hb _ E.
  by one_value (DecodeUint16_wire b x (sf_port f) (ewire es ++ tl) Hb Hx E).
Qed.

Lemma wp_parse_seq fuel m x es f (Q : DPS_Status * SubFields -> DPS_Node -> Prop) n :
  parsing m ((DPS_CBOR_KEY_SEQ_NUM, CInt x) :: es) -> uint32 x ->
  (forall m', parsing m' es -> wp (parse_loop fuel sak m' (f <| sf_revision := x |>)) Q n) ->
  wp (parse_loop (S fuel) sak m f) Q n.
Proof.
  intros Hp Hx. eapply wp_parse_value; [exact Hp|]. intros b k Hb _ E.
  by one_value (DecodeUint32_wire b x (sf_revision f) (ewire es ++ tl) Hb Hx E).
Qed.

Lemma wp_parse_flags fuel m x es f (Q : DPS_Status * SubFields -> DPS_Node -> Prop) n :
  parsing m ((DPS_CBOR_KEY_SUB_FLAGS, CInt x) :: es) -> 0 <= x < 24 ->
  (forall m', parsing m' es -> wp (parse_loop fuel sak m' (f <| sf_flags := x |>)) Q n) ->
  wp (parse_loop (S fuel) sak m f) Q n.
Proof.
  intros Hp Hx. eapply wp_parse_value; [exact Hp|]. intros b k Hb _ E. cbn [wire] in *.
  rewrite cbor_int_pos in * by lia.
  by one_value (DecodeUint8_wire b x (sf_flags f) (ewire es ++ tl) Hb ltac:(lia) E).
Qed.

Lemma wp_parse_mesh fuel m u es f (Q : DPS_Status * SubFields -> DPS_Node -> Prop) n :
  parsing m ((DPS_CBOR_KEY_MESH_ID, CBytes (uuid_val u)) :: es) -> uuid_ok u ->
  (forall m', parsing m' es ->
     wp (parse_loop fuel sak m' ((mask_key DPS_CBOR_KEY_MESH_ID f) <| sf_meshId := Some u |>)) Q n) ->
  wp (parse_loop (S fuel) sak m f) Q n.
Proof.
  intros Hp Hx. eapply wp_parse_value; [exact Hp|]. intros b k Hb _ E.
  rewrite uuid_val_wire, <- app_assoc in E.
  assert (length (uuid_val u) = 16%nat) as Hl by (unfold uuid_val; by rewrite length_app, !le_bytes_length).
  one_value (CBOR_DecodeUUID_spec b (uuid_val u) [] (ewire es ++ tl) Hb Hl E).
  rewrite le_value_uuid by done. cbn [wire]. by rewrite length_app, Hl.
Qed.

Lemma wp_parse_ack fuel m x es f (Q : DPS_Status * SubFields -> DPS_Node -> Prop) n :
  parsing m ((DPS_CBOR_KEY_ACK_SEQ_NUM, CInt x) :: es) -> uint32 x ->
  (forall m', parsing m' es -> wp (parse_loop fuel sak m' (if sak then f <| sf_ack := x |> else f)) Q n) ->
  wp (parse_loop (S fuel) sak m f) Q n.
Proof.
  intros Hp Hx. eapply wp_parse_value; [exact Hp|]. intros b k Hb _ E.
  unfold decode_value, mbind, M_bind, lift. cbn -[wire CBOR_Skip skip_fuel]. destruct sak.
  - rewrite (DecodeUint32_wire b x (sf_ack f) (ewire es ++ tl) Hb Hx E). done.
  - destruct (rx_skip_value b (CInt x) (ewire es ++ tl)) as (mj & sk & ->); [done| |done|done].
    unfold uint32 in Hx. cbn. lia.
Qed.

Lemma wp_parse_path fuel m bs es f (Q : DPS_Status * SubFields -> DPS_Node -> Prop) n :
  parsing m ((DPS_CBOR_KEY_PATH, CString bs) :: es) -> bs <> [] -> Z.of_nat (length bs) < DPS_NODE_ADDRESS_PATH_MAX ->
  (forall m' p, parsing m' es -> mem_read mem p (length bs) = Some bs ->
     wp (parse_loop fuel sak m' (f <| sf_path := Some p |> <| sf_pathLen := Z.of_nat (length bs) |>)) Q n) ->
  wp (parse_loop (S fuel) sak m f) Q n.
Proof.
  intros Hp Hne Hx HQ. unfold DPS_NODE_ADDRESS_PATH_MAX in Hx.
  eapply (wp_parse_round fuel m _ _ es f (fun x n' => n' = n /\ exists p, mem_read mem p (length bs) = Some bs /\
    x = f <| sf_path := Some p |> <| sf_pathLen := Z.of_nat (length bs) |>)); [done| |].
  - intros b Hb Hm E. cbn [wire] in *. rewrite <- app_assoc in E. eapply run_wp.
    { unfold decode_value, mbind, M_bind, lift. cbn -[wire].
      rewrite (CBOR_DecodeString_spec b bs _ _ (ewire es ++ tl) Hb) by (done || lia).
      rewrite decide_False by done. cbn -[wire]. unfold DPS_NODE_ADDRESS_PATH_MAX.
      rewrite (proj2 (Z.leb_gt _ _)) by lia. reflexivity. }
    left. split_and!; try done. eexists. split; [|done]. rewrite <- Hm. by eapply rx_read_payload.
  - intros m' f' n' Hp' (-> & p & Hr & ->). by apply HQ.
Qed.

Lemma wp_parse_needs fuel m l es f (Q : DPS_Status * SubFields -> DPS_Node -> Prop) n :
  parsing m ((DPS_CBOR_KEY_NEEDS, CBytes (bytes_of_chunks l)) :: es) ->
  chunks_ok l -> length l = FH_CHUNKS -> sf_needs f = None ->
  let f' := mask_key DPS_CBOR_KEY_NEEDS f in
  (forall k, Q (DPS_ERR_RESOURCES, f') (n <| n_allocs := k |>)) ->
  (forall m' bv k, parsing m' es -> bits bv = l -> vec_wf FH_CHUNKS bv ->
     wp (parse_loop fuel sak m' (f' <| sf_needs := Some bv |>)) Q (n <| n_allocs := k |>)) ->
  wp (parse_loop (S fuel) sak m f) Q n.
Proof.
  intros Hp Hok Hl Hnone f' Hfail HQ.
  eapply (wp_parse_round fuel m _ _ es f (fun x n' => exists k bv, n' = n <| n_allocs := k |> /\
    x = f' <| sf_needs := Some bv |> /\ bits bv = l /\ vec_wf FH_CHUNKS bv)); [done| |].
  - intros b Hb _ E. change (decode_value sak _ f b) with (decode_needs f' b). unfold decode_needs.
    change (sf_needs f') with (sf_needs f). rewrite Hnone. wp_go. apply wp_BitVectorAllocFH_cases; intros k; wp_go.
    + right. split; [done|]. apply Hfail.
    + destruct (DeserializeFH_wire b _ l (ewire es ++ tl) Hb Hok Hl eq_refl E) as (bv & Ed & Eb & W).
      eapply wp_lift; [exact Ed|]. wp_go. left. split_and!; [done|done|]. by exists k, bv.
  - intros m' x n' Hp' (k & bv & -> & -> & Eb & W). by apply HQ.
Qed.

Lemma wp_parse_interests fuel m flags payload l es f (Q : DPS_Status * SubFields -> DPS_Node -> Prop) n :
  parsing m ((DPS_CBOR_KEY_INTERESTS, CArray [CInt flags; CInt (64 * Z.of_nat nI); CBytes payload]) :: es) ->
  chunks_ok l -> length l = nI -> bv_payload flags l payload -> 0 <= flags < 4 ->
  Z.of_nat (length payload) <= 64 * Z.of_nat nI / 8 -> sf_interests f = None ->
  let f' := mask_key DPS_CBOR_KEY_INTERESTS f in
  (forall k, Q (DPS_ERR_RESOURCES, f') (n <| n_allocs := k |>)) ->
  (forall m' bv k, parsing m' es -> bits bv = l -> vec_ok nI bv ->
     wp (parse_loop fuel sak m' (f' <| sf_interests := Some bv |>)) Q (n <| n_allocs := k |>)) ->
  wp (parse_loop (S fuel) sak m f) Q n.
Proof.
  intros Hp Hok Hl Hpl Hflags Hplen Hnone f' Hfail HQ.
  assert (wire (CArray [CInt flags; CInt (64 * Z.of_nat nI); CBytes payload]) =
          bv_wire flags (64 * Z.of_nat nI) payload) as Hw.
  { unfold bv_wire. cbn. rewrite !cbor_int_pos by lia. by rewrite app_nil_r. }
  eapply (wp_parse_round fuel m _ _ es f (fun x n' => exists k bv, n' = n <| n_allocs := k |> /\
    x = f' <| sf_interests := Some bv |> /\ bits bv = l /\ vec_ok nI bv)); [done| |].
  - intros b Hb _ E. rewrite Hw in *. change (decode_value sak _ f b) with (decode_interests f' b).
    unfold decode_interests. change (sf_interests f') with (sf_interests f). rewrite Hnone. wp_go.
    apply wp_BitVectorAlloc_cases; [by rewrite Hsize, Z.mul_comm, Z.mod_mul|..]; intros k; wp_go.
    + right. split; [done|]. apply Hfail.
    + rewrite Hsize. destruct (Deserialize_received b nI flags l payload (ewire es ++ tl)) as (bv & Ed & Eb & W); try done.
      eapply wp_lift; [exact Ed|]. wp_go. left. split_and!; [done|done|]. by exists k, bv.
  - intros m' x n' Hp' (k & bv & -> & -> & Eb & W). by apply HQ.
Qed.

(** *** The parts of a message *)

Lemma wp_parse_ports fuel m addr es f (Q : DPS_Status * SubFields -> DPS_Node -> Prop) n :
  parsing m (port_entries addr ++ es) -> sendable addr ->
  let f' := match addr_type addr with
            | DPS_DTLS | DPS_TCP | DPS_UDP => f <| sf_port := DPS_NetAddrPort (inaddr addr) |>
            | _ => f
            end in
  (forall m', parsing m' es -> wp (parse_loop fuel sak m' f') Q n) ->
  wp (parse_loop (length (port_entries addr) + fuel) sak m f) Q n.
Proof.
  unfold sendable, port_entries. intros Hp Hs HQ.
  destruct (addr_type addr); cbn [app length Nat.add] in *; try (by apply HQ).
  all: eapply wp_parse_port; [exact Hp|by apply ntohs_range|exact HQ].
Qed.

(** The two vectors that a message carries, and what is read of them. *)
Definition vectors_sent (v : option wire_vectors) (i d : list Z) : Prop :=
  match v with
  | Some v => wv_needs v = d /\ chunks_ok d /\ length d = FH_CHUNKS /\ wv_len v = 64 * Z.of_nat nI /\
      chunks_ok i /\ length i = nI /\ bv_payload (wv_flags v) i (wv_payload v) /\ 0 <= wv_flags v < 4 /\
      Z.of_nat (length (wv_payload v)) <= 64 * Z.of_nat nI / 8
  | None => True
  end.
Definition vectors_read (v : option wire_vectors) (i d : list Z) (f f' : SubFields) : Prop :=
  match v with
  | Some _ => exists iv nd, bits iv = i /\ vec_ok nI iv /\ bits nd = d /\ vec_wf FH_CHUNKS nd /\
      f' = mask_key DPS_CBOR_KEY_INTERESTS (mask_key DPS_CBOR_KEY_NEEDS f)
             <| sf_needs := Some nd |> <| sf_interests := Some iv |>
  | None => f' = f
  end.

Lemma wp_parse_vectors fuel m v i d es f (Q : DPS_Status * SubFields -> DPS_Node -> Prop) n :
  parsing m (vector_entries v ++ es) -> vectors_sent v i d -> sf_needs f = None -> sf_interests f = None ->
  (forall f' k, Q (DPS_ERR_RESOURCES, f') (n <| n_allocs := k |>)) ->
  (forall m' f' k, parsing m' es -> vectors_read v i d f f' ->
     wp (parse_loop fuel sak m' f') Q (n <| n_allocs := k |>)) ->
  wp (parse_loop (length (vector_entries v) + fuel) sak m f) Q n.
Proof.
  intros Hp Hv Hnd Hiv Hfail HQ. destruct v as [v|]; cbn [vector_entries app length Nat.add] in *.
  - destruct Hv as (En & Wd & Ld & Ev & Wi & Li & Hpl & Hfl & Hlen). rewrite En, Ev in Hp.
    eapply wp_parse_needs; [exact Hp|done|done|done|intros; apply Hfail|]. intros m1 nd k Hp1 Ed Wnd.
    eapply wp_parse_interests; [exact Hp1|done|done|done|done|done|done|intros k2; apply (Hfail _ k2)|].
    intros m2 iv k2 Hp2 Ei Wiv. apply (HQ m2 _ k2 Hp2). exists iv, nd. by split_and!.
  - assert (n = n <| n_allocs := n_allocs n |>) as -> by by destruct n. by apply HQ.
Qed.

Lemma wp_parse_acks fuel m ack es f (Q : DPS_Status * SubFields -> DPS_Node -> Prop) n :
  let as_ := match ack with Some a => [(DPS_CBOR_KEY_ACK_SEQ_NUM, CInt a)] | None => [] end in
  parsing m (as_ ++ es) -> (forall a, ack = Some a -> uint32 a) ->
  (forall m', parsing m' es ->
     wp (parse_loop fuel sak m' (if sak then f <| sf_ack := default (sf_ack f) ack |> else f)) Q n) ->
  wp (parse_loop (length as_ + fuel) sak m f) Q n.
Proof.
  intros as_ Hp Ha HQ. destruct ack as [a|]; cbn [as_ app length Nat.add default] in *.
  - eapply wp_parse_ack; [exact Hp|by apply Ha|]. exact HQ.
  - replace f with (if sak then f <| sf_ack := sf_ack f |> else f) by (destruct sak, f; done). by apply HQ.
Qed.

Lemma wp_parse_paths fuel m addr f (Q : DPS_Status * SubFields -> DPS_Node -> Prop) n :
  parsing m (path_entries addr) -> sendable addr -> (addr_type addr = DPS_PIPE -> path addr <> []) ->
  (forall f', match addr_type addr with
     | DPS_PIPE => exists p, mem_read mem p (length (path addr)) = Some (path addr) /\
         f' = f <| sf_path := Some p |> <| sf_pathLen := Z.of_nat (length (path addr)) |>
     | _ => f' = f
     end -> Q (DPS_OK, f') n) ->
  wp (parse_loop (length (path_entries addr) + fuel) sak m f) Q n.
Proof.
  unfold sendable, path_entries. intros Hp Hs Hne HQ. destruct (addr_type addr); cbn [length Nat.add] in *.
  5: { eapply wp_parse_path; [exact Hp|by apply Hne|unfold DPS_NODE_ADDRESS_PATH_MAX; lia|].
       intros m' p Hp' Hr. eapply wp_parse_end; [exact Hp'|]. apply HQ. by exists p. }
  all: eapply wp_parse_end; [exact Hp|]; by apply HQ.
Qed.
End Parse.

(** ** A whole message *)

Section Message.
Context `{Env : Environment} (nI : nat).
Context (Hsize : bitLen env_config = 64 * Z.of_nat nI) (Hsmall : 64 * Z.of_nat nI <= 65535).
Context (addr : DPS_NodeAddress) (revision flags : Z) (meshId : DPS_UUID) (v : option wire_vectors)
  (i d : list Z) (ack : option Z).
Context (Haddr : sendable addr) (Hrev : uint32 revision) (Hflags : 0 <= flags < 24) (Hmesh : uuid_ok meshId).
Context (Hv : vectors_sent nI v i d) (Hack : forall a, ack = Some a -> uint32 a).

Let es := message_entries addr revision flags meshId v ack.

Lemma vector_entries_ok : Forall entry_ok (vector_entries v).
Proof using All.
  destruct v as [w|]; [|constructor]. destruct Hv as (En & _ & Hd & El & _ & _ & Hp & Hf & Hl). cbn [vector_entries]. rewrite En, El.
  assert (Forall is_byte (wv_payload w)) as Hb.
  { destruct Hp as [[_ ->]|[_ Hp]]; [apply bytes_of_chunks_bytes|]. by destruct Hp. }
  repeat constructor; cbn; try (unfold key_ok, DPS_CBOR_KEY_NEEDS, DPS_CBOR_KEY_INTERESTS; lia).
  - rewrite bytes_of_chunks_length, Hd. done.
  - apply bytes_of_chunks_bytes.
  - Z.div_mod_to_equations. lia.
  - done.
Qed.

Lemma message_entries_ok : Forall entry_ok es.
Proof using All.
  unfold es, message_entries. rewrite !Forall_app. split_and!.
  - unfold sendable, port_entries in *. destruct (addr_type addr); try by constructor.
    all: pose proof (ntohs_range _ Haddr); repeat constructor; cbn; unfold key_ok, DPS_CBOR_KEY_PORT, DPS_NetAddrPort; lia.
  - unfold uint32 in *. pose proof (uuid_val_bytes meshId) as Hb.
    assert (length (uuid_val meshId) = 16%nat) as Hl by (unfold uuid_val; by rewrite length_app, !le_bytes_length).
    revert Hb Hl. generalize (uuid_val meshId) as bs. intros bs Hb Hl.
    repeat (apply Forall_cons; split; [|]); [..|constructor]; (split; cbn); rewrite ?Hl; try done.
    all: unfold key_ok, DPS_CBOR_KEY_SEQ_NUM, DPS_CBOR_KEY_SUB_FLAGS, DPS_CBOR_KEY_MESH_ID; lia.
  - apply vector_entries_ok.
  - destruct ack as [a|]; [|constructor]. specialize (Hack a eq_refl). unfold uint32 in Hack.
    repeat constructor; cbn; unfold key_ok, DPS_CBOR_KEY_ACK_SEQ_NUM; lia.
  - unfold sendable, path_entries in *. destruct (addr_type addr); repeat constructor; cbn; try done.
    all: destruct Haddr; first [done|lia].
Qed.

(** The keys, whatever the values. *)
Lemma message_keys : exists ks, map fst es = ks /\ StronglySorted Z.lt ks /\
  Forall (fun k => k ∈ ReqKeys \/ k ∈ OptKeys) ks /\ Forall (fun k => k ∈ ks) ReqKeys.
Proof using All.
  eexists. split; [reflexivity|]. unfold es, message_entries, port_entries, path_entries, vector_entries.
  destruct (addr_type addr), v, ack; cbn; (split; [by repeat constructor|]);
    split; by apply (bool_decide_unpack _); vm_compute.
Qed.

Lemma message_matching b tl :
  rx_wf b -> rx_rest b = ewire es ++ tl ->
  parsing (rx_mem b) tl (mkMapState b ReqKeys OptKeys (Z.of_nat (length es)) DPS_OK) es.
Proof using All.
  intros Hb E. destruct message_keys as (ks & <- & H1 & H2 & H3). constructor; cbn; [done| | |done|done].
  - constructor; cbn; [done|done|done|apply message_entries_ok|done| |]; by repeat constructor.
  - by apply List.Forall_map in H2.
Qed.

(** The fields that are read, and the endpoint after them. *)
Record message_fields (sak : bool) (ack0 : Z) (f : SubFields) : Prop := {
  mf_revision : sf_revision f = revision;
  mf_flags : sf_flags f = flags;
  mf_meshId : sf_meshId f = Some meshId;
  mf_ack : sf_ack f = if sak then default ack0 ack else ack0;
  mf_vectors : match v with
    | Some _ => exists iv nd, sf_interests f = Some iv /\ bits iv = i /\ vec_ok nI iv /\
        sf_needs f = Some nd /\ bits nd = d /\ vec_wf FH_CHUNKS nd /\ sf_keysMask f .& OptKeysMask = OptKeysMask
    | None => sf_interests f = None /\ sf_needs f = None /\ sf_keysMask f .& OptKeysMask <> OptKeysMask
    end
}.

Definition sender_endpoint (e : DPS_NetEndpoint) : option DPS_NetEndpoint :=
  match addr_type addr with
  | DPS_PIPE => DPS_EndpointSetPath e (path addr)
  | _ => DPS_EndpointSetPort e (DPS_NetAddrPort (inaddr addr))
  end.

(** The port and the path are what tells that a message has an address. *)
Definition has_address : Prop :=
  match addr_type addr with DPS_PIPE => path addr <> [] | _ => DPS_NetAddrPort (inaddr addr) <> 0 end.

(** What the parts of the message leave in the fields. *)
Record fields_head (ack0 : Z) (f : SubFields) : Prop := {
  fh_port : sf_port f = match addr_type addr with
    | DPS_DTLS | DPS_TCP | DPS_UDP => DPS_NetAddrPort (inaddr addr) | _ => 0 end;
  fh_revision : sf_revision f = revision;
  fh_flags : sf_flags f = flags;
  fh_meshId : sf_meshId f = Some meshId;
  fh_ack : sf_ack f = ack0;
  fh_path : sf_path f = None;
  fh_vectors : sf_interests f = None /\ sf_needs f = None;
  fh_mask : sf_keysMask f = 256
}.

Lemma fields_vectors (sak : bool) ack0 f f' f'' :
  fields_head ack0 f -> vectors_read nI v i d f f' ->
  sf_revision f'' = sf_revision f' -> sf_flags f'' = sf_flags f' -> sf_meshId f'' = sf_meshId f' ->
  sf_ack f'' = (if sak then default (sf_ack f') ack else sf_ack f') ->
  sf_interests f'' = sf_interests f' -> sf_needs f'' = sf_needs f' -> sf_keysMask f'' = sf_keysMask f' ->
  message_fields sak ack0 f'' /\ sf_port f' = sf_port f /\ sf_path f' = None.
Proof using All.
  intros [H1 H2 H3 H4 H5 H6 [H7 H8] H9] Hr E1 E2 E3 E4 E5 E6 E7.
  assert (sf_port f' = sf_port f /\ sf_path f' = sf_path f /\ sf_revision f' = revision /\ sf_flags f' = flags /\
          sf_meshId f' = Some meshId /\ sf_ack f' = ack0) as (Ep & Eq & Er & Ef & Em & Ea).
  { unfold vectors_read in Hr. destruct v; [|by subst f'].
    destruct Hr as (iv & nd & _ & _ & _ & _ & ->). destruct f. cbn in *. by subst. }
  split; [|by rewrite Eq]. constructor; try congruence. { rewrite E4, Ea. by destruct sak. }
  rewrite E5, E6, E7. unfold vectors_read in Hr. destruct v; [|subst f'; split_and!; [done..|by rewrite H9]].
  destruct Hr as (iv & nd & Ei & Wi & Ed & Wd & ->). exists iv, nd. destruct f. cbn in *. subst. by split_and!.
Qed.

(** The loop over all the entries. *)
Lemma wp_parse_entries sak mem tl ack0 m fuel (Q : DPS_Status * SubFields -> DPS_Node -> Prop) n :
  parsing mem tl m es -> has_address -> (length es <= fuel)%nat ->
  (forall f k, Q (DPS_ERR_RESOURCES, f) (n <| n_allocs := k |>)) ->
  (forall f k, message_fields sak ack0 f ->
     match addr_type addr with
     | DPS_PIPE => sf_port f = 0 /\ exists p, sf_path f = Some p /\
         mem_read mem p (length (path addr)) = Some (path addr) /\ sf_pathLen f = Z.of_nat (length (path addr))
     | _ => sf_port f = DPS_NetAddrPort (inaddr addr) /\ sf_path f = None
     end -> Q (DPS_OK, f) (n <| n_allocs := k |>)) ->
  wp (parse_loop fuel sak m (no_fields <| sf_ack := ack0 |>)) Q n.
Proof using All.
  intros Hp Ha Hf Hfail HQ. unfold has_address in Ha. unfold es, message_entries in *.
  set (a := match ack with Some n => [(DPS_CBOR_KEY_ACK_SEQ_NUM, CInt n)] | None => [] end) in *.
  rewrite !length_app in Hf. cbn [length] in Hf.
  set (rest := (fuel - (length (port_entries addr) + 3 + length (vector_entries v) + length a + length (path_entries addr)))%nat).
  replace fuel with (length (port_entries addr) + S (S (S (length (vector_entries v) + (length a + (length (path_entries addr) + rest))))))%nat by lia.
  eapply (wp_parse_ports nI); [exact Hp|exact Haddr|]. intros m1 Hp1. cbn [app] in Hp1.
  eapply (wp_parse_seq nI); [exact Hp1|exact Hrev|]. intros m2 Hp2.
  eapply (wp_parse_flags nI); [exact Hp2|exact Hflags|]. intros m3 Hp3.
  eapply (wp_parse_mesh nI); [exact Hp3|exact Hmesh|]. intros m4 Hp4.
  match goal with |- wp (parse_loop _ _ _ ?x) _ _ => assert (fields_head ack0 x) as H4; [|set (f4 := x) in *; clearbody f4] end.
  { constructor; destruct (addr_type addr); reflexivity || by split. }
  eapply (wp_parse_vectors nI Hsize Hsmall); [exact Hp4|exact Hv|apply (fh_vectors _ _ H4)..|exact Hfail|].
  intros m5 f5 k Hp5 Hr5. eapply (wp_parse_acks nI); [exact Hp5|exact Hack|]. intros m6 Hp6.
  eapply (wp_parse_paths nI); [exact Hp6|exact Haddr|by intros E; rewrite E in Ha|]. intros f7 H7.
  destruct (fields_vectors sak ack0 f4 f5 f7 H4 Hr5) as (Hm & Ep & Eq);
    try (destruct (addr_type addr); try (destruct H7 as (p & _ & H7)); subst f7; by destruct sak).
  apply (HQ f7 k Hm). pose proof (fh_port _ _ H4) as E4. unfold sendable in Haddr.
  clear -H7 Ep Eq E4 Haddr. destruct (addr_type addr); [done|..]; try (destruct H7 as (p & Hr & H7)); subst f7; destruct sak; cbn; rewrite ?Ep, ?Eq, ?E4; eauto.
Qed.

Lemma wp_parse_message sak ack0 e e' b tl (Q : DPS_Status * SubFields * DPS_NetEndpoint -> DPS_Node -> Prop) n :
  rx_wf b -> rx_rest b = cbor_head CBOR_MAP (Z.of_nat (length es)) ++ ewire es ++ tl ->
  has_address -> sender_endpoint e = Some e' ->
  (forall f k, Q (DPS_ERR_RESOURCES, f, e) (n <| n_allocs := k |>)) ->
  (forall f k, message_fields sak ack0 f -> Q (DPS_OK, f, e') (n <| n_allocs := k |>)) ->
  wp (parse_fields sak e b (no_fields <| sf_ack := ack0 |>)) Q n.
Proof using All.
  intros Hb E Ha He Hfail HQ. set (h := cbor_head CBOR_MAP (Z.of_nat (length es))) in *.
  pose proof (rx_skip_app_wf _ _ _ Hb E) as Hb'. pose proof (rx_rest_skip_app _ _ _ E) as E'.
  pose proof (message_matching _ tl Hb' E') as Hp.
  assert (length es <= 9)%nat as Hlen.
  { unfold es, message_entries, port_entries, path_entries. destruct (addr_type addr), v, ack; cbn; lia. }
  unfold parse_fields. wp_go. eapply wp_lift.
  { unfold DPS_ParseMapInit, CBOR_DecodeMap.
    rewrite (DecodeUint_head b CBOR_MAP (Z.of_nat (length es)) 0 (ewire es ++ tl)) by (major || lia || exact E).
    cbn [mbind option_bind]. change (is_OK DPS_OK) with true. cbv iota. unfold SIZE_MAX. rewrite Z.gtb_ltb.
    rewrite (proj2 (Z.ltb_ge _ _)) by lia. unfold u64. rewrite Z.mod_small by lia. reflexivity. }
  wp_go. ok. eapply (wp_parse_entries sak _ tl); [exact Hp|exact Ha| | |].
  - pose proof (skip_fuel_matching _ _ _ (pa_map _ _ _ _ Hp)) as Hf. cbn [ms_buffer] in Hf.
    unfold skip_fuel in *. pose proof (DPS_RxBufferAvail_spec _ Hb) as H1. pose proof (DPS_RxBufferAvail_spec _ Hb') as H2.
    rewrite E' in H2. rewrite E, length_app in H1. lia.
  - intros f k. wp_go. apply Hfail.
  - intros f k Hm Hcase. wp_go. ok. unfold has_address, sender_endpoint in *. destruct (addr_type addr).
    5: { destruct Hcase as (-> & p & Ep & Hr & El). rewrite Ep. change (Bool.eqb (0 =? 0) _) with false. cbv iota.
         change (negb (0 =? 0)) with false. cbv iota. wp_go. eapply wp_lift; [|wp_go; eapply wp_lift; [exact He|by apply HQ]].
         unfold decoded_bytes. rewrite El, Nat2Z.id. exact Hr. }
    all: destruct Hcase as [-> ->]; rewrite (proj2 (Z.eqb_neq _ _)) by done.
    all: change (Bool.eqb false _) with false; cbv iota; cbn [negb]; wp_go.
    all: eapply wp_lift; [exact He|]; by apply HQ.
Qed.
End Message.
