(* ===== verification/PubParseProofs.v ===== *)
(** * Reading a publication ([src/pub.c])

    The parser of the two maps in the clear gives back the fields of a message that was
    sent, and the bytes of the protected map as they were. *)
From S2P Require Import Prelude Status Buffer Float Cbor CborProofs CborValues CborMap.
From S2P Require Import BitVec BitVecProofs BitVecSerial CountVec Topics Uuid Addr History Node Remote RemoteProofs.
From S2P Require Import TopicTheorems Sub SubMsg SubMsgProofs Pub Link SubDecode Tls Keys Cose PubMsg PubRecv PubSend PubMsgProofs SubDecodeProofs.
From stdpp Require Import gmap.
From Stdlib Require Import Sorting.Sorted.
#[local] Open Scope Z_scope.
#[local] Set Warnings "-clear-no-such-hyp".

(** ** The loop over the keys of a map *)

Section Keys.
Context {A : Type} (decode : Z -> A -> DPS_RxBuffer -> M (DPS_Status * A * DPS_RxBuffer)).
Context (mem tl : list Z) (eod : nat).

(** The loop is about to read [es]. *)
Definition receiving (m : CBOR_MapState) (es : list (Z * cbor)) : Prop :=
  parsing mem tl m es /\ rx_eod (ms_buffer m) = eod.

(** A buffer in this message with [rest] to be read. *)
Record reading (b : DPS_RxBuffer) (rest : list Z) : Prop := {
  rd_wf : rx_wf b;
  rd_mem : rx_mem b = mem;
  rd_eod : rx_eod b = eod;
  rd_rest : rx_rest b = rest
}.

Lemma reading_skip b w rest : reading b (w ++ rest) -> reading (rx_skip b (length w)) rest.
Proof.
  intros [H1 H2 H3 H4]. split; [by eapply rx_skip_app_wf|done|done|by eapply rx_rest_skip_app].
Qed.

Lemma wp_parse_key fuel m k v es x (R : A -> DPS_Node -> Prop) (Q : DPS_Status * A * DPS_RxBuffer -> DPS_Node -> Prop) n :
  receiving m ((k, v) :: es) -> 0 <= k ->
  (forall b, reading b (wire v ++ ewire es ++ tl) ->
     wp (decode k x b) (fun r n' =>
       r.1.1 = DPS_OK /\ r.2 = rx_skip b (length (wire v)) /\ R r.1.2 n' \/
       is_OK r.1.1 = false /\ Q r n') n) ->
  (forall m' x' n', receiving m' es -> R x' n' -> wp (parse_keys decode fuel m' x') Q n') ->
  wp (parse_keys decode (S fuel) m x) Q n.
Proof.
  intros [Hp He] Hk Hd HQ. destruct (parsing_step _ _ m k v es (-1) Hp) as (m' & E & Hwf & Hrest & Heod & Hp').
  cbn [parse_keys]. wp_go. eapply wp_lift; [by eapply parsing_done|]. wp_go.
  unfold next_key. wp_go. eapply wp_lift; [exact E|]. wp_go. ok. change (is_OK DPS_OK) with true.
  cbn [when]. apply wp_assert; [by rewrite (proj2 (Z.eqb_neq _ _)) by lia|]. wp_go. ok.
  eapply wp_mono; [apply Hd; split; [done|apply (pa_mem _ _ _ _ Hp')|congruence|done]|].
  intros [[ret x'] b'] n' [(E1 & E2 & HR)|[E1 HQ']]; cbn [fst snd] in *.
  - subst ret b'. wp_go. ok. apply (HQ _ x'); [|done]. split; [done|]. cbn. congruence.
  - wp_go. rewrite E1. cbn [negb]. by wp_go.
Qed.

Lemma wp_parse_last fuel m x (Q : DPS_Status * A * DPS_RxBuffer -> DPS_Node -> Prop) n :
  receiving m [] -> (forall b, reading b tl -> Q (DPS_OK, x, b) n) -> wp (parse_keys decode fuel m x) Q n.
Proof.
  intros [Hp He] HQ. assert (reading (ms_buffer m) tl) as Hr.
  { destruct Hp as [_ [Hwf Hrest _ _ _ _ _] _ _ Hm]. by split. }
  destruct fuel; cbn [parse_keys]; wp_go; (eapply wp_lift; [by eapply parsing_nil|]); wp_go; by apply HQ.
Qed.

(** The head of the map, before its keys. *)
Lemma ParseMapInit_receiving keys optKeys b es :
  reading b (map_wire es ++ tl) -> Z.of_nat (length es) < 2 ^ 31 -> Forall entry_ok es ->
  StronglySorted Z.lt (map fst es) -> StronglySorted Z.lt keys -> StronglySorted Z.lt optKeys ->
  Forall (fun k => k ∈ keys \/ k ∈ optKeys) (map fst es) -> Forall (fun k => k ∈ map fst es) keys ->
  exists m, DPS_ParseMapInit b keys optKeys 0 = Some (DPS_OK, m) /\ receiving m es /\ (length es <= skip_fuel b)%nat.
Proof.
  intros Hb Hlen Hok Hsort Hkeys Hopt Hin Hneed. unfold map_wire in Hb. rewrite <- app_assoc in Hb.
  apply reading_skip in Hb as Hb'. set (b' := rx_skip b _) in *.
  assert (receiving (mkMapState b' keys optKeys (Z.of_nat (length es)) DPS_OK) es) as Hr.
  { split; [|apply Hb']. split; cbn [ms_result ms_buffer ms_needs ms_wants]; try done; [|by apply List.Forall_map in Hin|apply Hb'].
    split; cbn; try done; apply Hb'. }
  eexists. split_and!; [|exact Hr|].
  - unfold DPS_ParseMapInit, CBOR_DecodeMap.
    rewrite (DecodeUint_head b CBOR_MAP (Z.of_nat (length es)) 0 (ewire es ++ tl)) by (major || lia || apply Hb).
    cbn [mbind option_bind]. change (is_OK DPS_OK) with true. cbv iota. unfold SIZE_MAX. rewrite Z.gtb_ltb.
    rewrite (proj2 (Z.ltb_ge _ _)) by lia. unfold u64. rewrite Z.mod_small by lia. reflexivity.
  - destruct Hr as [Hr _]. pose proof (skip_fuel_matching _ _ _ (pa_map _ _ _ _ Hr)) as Hf. cbn [ms_buffer] in Hf.
    unfold skip_fuel in *. pose proof (DPS_RxBufferAvail_spec _ (rd_wf _ _ Hb)) as H1.
    pose proof (DPS_RxBufferAvail_spec _ (rd_wf _ _ Hb')) as H2. rewrite (rd_rest _ _ Hb') in H2.
    rewrite (rd_rest _ _ Hb), length_app in H1. lia.
Qed.

Lemma wp_parse_map keys optKeys b es x (Q : DPS_Status * A * DPS_RxBuffer -> DPS_Node -> Prop) n :
  reading b (map_wire es ++ tl) -> Z.of_nat (length es) < 2 ^ 31 -> Forall entry_ok es ->
  StronglySorted Z.lt (map fst es) -> StronglySorted Z.lt keys -> StronglySorted Z.lt optKeys ->
  Forall (fun k => k ∈ keys \/ k ∈ optKeys) (map fst es) -> Forall (fun k => k ∈ map fst es) keys ->
  (forall m fuel, (length es <= fuel)%nat -> receiving m es -> wp (parse_keys decode fuel m x) Q n) ->
  wp (parse_map decode keys optKeys b x) Q n.
Proof.
  intros Hb Hlen Hok Hsort Hkeys Hopt Hin Hneed HQ.
  destruct (ParseMapInit_receiving keys optKeys b es) as (m & E & Hr & Hf); try done.
  unfold parse_map. wp_go. eapply wp_lift; [exact E|]. wp_go. ok. by apply HQ.
Qed.

(** A value that is always decoded to the same result. *)
Lemma wp_parse_pure fuel m k v es x x' (Q : DPS_Status * A * DPS_RxBuffer -> DPS_Node -> Prop) n :
  receiving m ((k, v) :: es) -> 0 <= k ->
  (forall b, reading b (wire v ++ ewire es ++ tl) ->
     decode k x b n = Some (DPS_OK, x', rx_skip b (length (wire v)), n)) ->
  (forall m', receiving m' es -> wp (parse_keys decode fuel m' x') Q n) ->
  wp (parse_keys decode (S fuel) m x) Q n.
Proof.
  intros Hp Hk Hd HQ. apply (wp_parse_key fuel m k v es x (fun y n' => y = x' /\ n' = n)); [done|done| |].
  - intros b Hb. eapply run_wp; [by apply Hd|]. by left.
  - intros m' ? ? Hp' [-> ->]. by apply HQ.
Qed.
End Keys.

Lemma reading_slice mem eod b b' w rest :
  reading mem eod b (w ++ rest) -> reading mem eod b' rest ->
  mem_read (rx_mem b') (rx_pos b) (rx_pos b' - rx_pos b) = Some w.
Proof.
  intros [H1 Hm He E] [H1' Hm' He' E'].
  assert (length (rx_rest b) = rx_eod b - rx_pos b)%nat as El
    by (unfold rx_rest; rewrite length_take, length_drop; destruct H1; lia).
  assert (length (rx_rest b') = rx_eod b' - rx_pos b')%nat as El'
    by (unfold rx_rest; rewrite length_take, length_drop; destruct H1'; lia).
  rewrite E, length_app in El. rewrite E' in El'.
  pose proof (rx_read_payload b [] w rest H1 E) as Hr. cbn [length] in Hr. rewrite Nat.add_0_r in Hr.
  assert (rx_pos b' - rx_pos b = length w)%nat as ->; [|by rewrite Hm', <- Hm].
  destruct H1 as [? _], H1' as [? _]. lia.
Qed.

(** ** Values *)

Lemma s16_small n : int16 n -> s16 n = n.
Proof.
  intros [H1 H2]. unfold s16, u16. destruct (Z.le_gt_cases 0 n).
  - rewrite Z.mod_small by lia. by rewrite (proj2 (Z.ltb_lt _ _)).
  - replace (n mod 2 ^ 16) with (n + 2 ^ 16) by (rewrite <- (Z.mod_add n 1) by lia; rewrite Z.mod_small; lia).
    rewrite (proj2 (Z.ltb_ge _ _)); lia.
Qed.

Lemma DecodeInt16_wire b n n0 tl :
  rx_wf b -> int16 n -> rx_rest b = wire (CInt n) ++ tl ->
  CBOR_DecodeInt16 b n0 = Some (DPS_OK, n, rx_skip b (length (wire (CInt n)))).
Proof.
  intros Hb Hn E. pose proof Hn as [H1 H2]. unfold CBOR_DecodeInt16.
  rewrite (CBOR_DecodeInt_spec b n 0 tl Hb) by (exact E || lia). cbn [mbind option_bind].
  unfold INT16_MIN, INT16_MAX. rewrite (proj2 (Z.ltb_ge _ _)), Z.gtb_ltb, (proj2 (Z.ltb_ge _ _)) by lia. cbn [orb].
  rewrite andb_false_r. by rewrite s16_small.
Qed.

Lemma DecodeBoolean_wire b x n0 tl :
  rx_wf b -> rx_rest b = wire (CBool x) ++ tl ->
  CBOR_DecodeBoolean b n0 = Some (DPS_OK, if x then 1 else 0, rx_skip b (length (wire (CBool x)))).
Proof.
  intros Hb E. unfold CBOR_DecodeBoolean. pose proof (DPS_RxBufferAvail_spec _ Hb) as Ha. rewrite E in Ha.
  cbn [wire app length] in Ha. rewrite (proj2 (Z.ltb_ge _ _)) by lia.
  rewrite (rx_peek_eq b _ 0 (if x then CBOR_TRUE else CBOR_FALSE) E) by done. by destruct x.
Qed.

Lemma Skip_wire b v mo so tl :
  rx_wf b -> cbor_ok v -> rx_rest b = wire v ++ tl ->
  exists mj sk, CBOR_Skip (skip_fuel b) b mo so = Some (DPS_OK, mj, sk, rx_skip b (length (wire v))).
Proof.
  intros Hwf Hv E. eapply skips_wire; eauto. unfold skip_fuel. pose proof (rx_avail_nonneg b Hwf). lia.
Qed.

(** ** The two maps in the clear *)

Section Maps.
Context (mem : list Z) (eod : nat).

Ltac decoded E := unfold decode_unprotected, decode_protected, mbind, M_bind, lift; cbn -[wire uuid_val uuid_of_val skip_fuel CBOR_Skip]; rewrite E; cbn -[wire uuid_val uuid_of_val].

Section Unprotected.
Context (addr : DPS_NodeAddress) (ttl hopCount : Z) (rest : list Z).
Context (Haddr : sendable addr) (Hpath : addr_type addr = DPS_PIPE -> path addr <> []).
Context (Httl : int16 ttl) (Hhop : uint16 hopCount).

(** The address in the fields. *)
Definition address_fields (f : PubFields) : Prop :=
  match addr_type addr with
  | DPS_PIPE => pf_keysMask f = 1 ≪ DPS_CBOR_KEY_PATH /\ pf_pathLen f = Z.of_nat (length (path addr)) /\
      exists p, pf_path f = Some p /\ mem_read mem p (length (path addr)) = Some (path addr)
  | _ => pf_keysMask f = 1 ≪ DPS_CBOR_KEY_PORT /\ pf_port f = DPS_NetAddrPort (inaddr addr)
  end.

Lemma parse_port fuel m es f (Q : DPS_Status * PubFields * DPS_RxBuffer -> DPS_Node -> Prop) n :
  receiving mem rest eod m (port_entries addr ++ es) -> pf_keysMask f = 0 ->
  let f' := match addr_type addr with
    | DPS_PIPE => f | _ => (pf_mask DPS_CBOR_KEY_PORT f) <| pf_port := DPS_NetAddrPort (inaddr addr) |> end in
  (forall m', receiving mem rest eod m' es -> wp (parse_keys decode_unprotected fuel m' f') Q n) ->
  wp (parse_keys decode_unprotected (length (port_entries addr) + fuel) m f) Q n.
Proof using Haddr.
  clear Hpath. cbv zeta. unfold sendable, port_entries in *. intros Hp Hmask HQ.
  destruct (addr_type addr); [done| | | |by apply HQ].
  all: eapply wp_parse_pure; [exact Hp|unfold DPS_CBOR_KEY_PORT; lia| |exact HQ]; intros b [Hb _ _ E];
    pose proof (ntohs_range _ Haddr) as Hx;
    by decoded (DecodeUint16_wire b (DPS_NetAddrPort (inaddr addr)) (pf_port f) (ewire es ++ rest) Hb Hx E).
Qed.

Lemma parse_path fuel m es f (Q : DPS_Status * PubFields * DPS_RxBuffer -> DPS_Node -> Prop) n :
  receiving mem rest eod m (path_entries addr ++ es) ->
  pf_keysMask f = match addr_type addr with DPS_PIPE => 0 | _ => 1 ≪ DPS_CBOR_KEY_PORT end ->
  (addr_type addr <> DPS_PIPE -> pf_port f = DPS_NetAddrPort (inaddr addr)) ->
  (forall m' f', receiving mem rest eod m' es -> address_fields f' ->
     pf_ttl f' = pf_ttl f -> wp (parse_keys decode_unprotected fuel m' f') Q n) ->
  wp (parse_keys decode_unprotected (length (path_entries addr) + fuel) m f) Q n.
Proof using Haddr Hpath.
  unfold sendable, path_entries, address_fields in *. intros Hp Hmask Hport HQ.
  destruct (addr_type addr); [done|by apply HQ; auto..|]. destruct Haddr as [Hl _]. specialize (Hpath eq_refl).
  eapply (wp_parse_key _ _ _ _ fuel m _ _ es f (fun x n' => n' = n /\ exists p, mem_read mem p (length (path addr)) = Some (path addr) /\
    x = ((pf_mask DPS_CBOR_KEY_PATH f) <| pf_path := Some p |>) <| pf_pathLen := Z.of_nat (length (path addr)) |>));
    [exact Hp|unfold DPS_CBOR_KEY_PATH; lia| |].
  - intros b [Hb Hm _ E]. cbn [wire] in *. rewrite <- app_assoc in E. eapply run_wp.
    { unfold decode_unprotected, mbind, M_bind, lift. cbn -[wire].
      rewrite (CBOR_DecodeString_spec b (path addr) _ _ (ewire es ++ rest) Hb) by (done || lia).
      rewrite decide_False by done. cbn -[wire]. unfold DPS_NODE_ADDRESS_PATH_MAX.
      rewrite (proj2 (Z.leb_gt _ _)) by lia. reflexivity. }
    left. split_and!; try done. eexists. split; [|done]. rewrite <- Hm. by eapply rx_read_payload.
  - intros m' f' n' Hp' (-> & p & Hr & ->). apply HQ; [done| |done]. cbn. rewrite Hmask.
    split_and!; [done|done|]. by exists p.
Qed.

(** What is read of the first map. *)
Definition unprotected_fields (f : PubFields) : Prop :=
  address_fields f /\ pf_ttl f = Some ttl /\ pf_hopCount f = Some hopCount.

Lemma unprotected_keys :
  Forall entry_ok (header_entries addr ttl hopCount) /\
  StronglySorted Z.lt (map fst (header_entries addr ttl hopCount)) /\
  Forall (fun k => k ∈ UnprotectedKeys \/ k ∈ UnprotectedOptKeys) (map fst (header_entries addr ttl hopCount)) /\
  Forall (fun k => k ∈ map fst (header_entries addr ttl hopCount)) UnprotectedKeys.
Proof using Haddr Httl Hhop.
  clear Hpath.   destruct Httl, Hhop. unfold sendable, header_entries, port_entries, path_entries, UnprotectedKeys, UnprotectedOptKeys in *.
  assert (forall k v, 0 <= k < 24 -> cbor_ok v -> entry_ok (k, v)) as Hk by (intros k v ? ?; split; [unfold key_ok; cbn; lia|done]).
  destruct (addr_type addr); [done| | | |].
  all: cbn [app map fst length]; split_and!; [|repeat constructor; unfold DPS_CBOR_KEY_PORT, DPS_CBOR_KEY_TTL, DPS_CBOR_KEY_PATH, DPS_CBOR_KEY_HOP_COUNT; lia|repeat constructor; set_solver|repeat constructor; set_solver].
  all: repeat (apply Forall_cons; split); try apply Forall_nil; try done; apply Hk;
    unfold DPS_CBOR_KEY_PORT, DPS_CBOR_KEY_TTL, DPS_CBOR_KEY_PATH, DPS_CBOR_KEY_HOP_COUNT; try lia; cbn; try lia.
  all: try (pose proof (ntohs_range _ Haddr); unfold DPS_NetAddrPort; lia). destruct Haddr. split; [lia|done].
Qed.

Lemma wp_parse_unprotected b (Q : DPS_Status * PubFields * DPS_RxBuffer -> DPS_Node -> Prop) n :
  reading mem eod b (map_wire (header_entries addr ttl hopCount) ++ rest) ->
  (forall f b', reading mem eod b' rest -> unprotected_fields f -> Q (DPS_OK, f, b') n) ->
  wp (parse_map decode_unprotected UnprotectedKeys UnprotectedOptKeys b no_pub_fields) Q n.
Proof using Haddr Hpath Httl Hhop.
  intros Hb HQ. destruct unprotected_keys as (H1 & H2 & H3 & H4).
  apply (wp_parse_map _ mem rest eod _ _ b (header_entries addr ttl hopCount)); try done.
  { rewrite (header_entries_length addr) by done. lia. }
  1-2: repeat constructor; unfold DPS_CBOR_KEY_TTL, DPS_CBOR_KEY_HOP_COUNT, DPS_CBOR_KEY_PORT, DPS_CBOR_KEY_PATH; lia.
  intros m fuel Hf Hm. rewrite (header_entries_length addr) in Hf by done.
  unfold header_entries in Hm.
  assert (length (port_entries addr ++ path_entries addr) = 1)%nat as Hone.
  { unfold sendable, port_entries, path_entries in *. by destruct (addr_type addr). }
  rewrite length_app in Hone.
  replace fuel with (length (port_entries addr) + S (length (path_entries addr) + S (fuel - 3)))%nat by lia.
  eapply parse_port; [exact Hm|done|]. intros m1 Hm1. cbn [app] in Hm1.
  eapply wp_parse_pure; [exact Hm1|unfold DPS_CBOR_KEY_TTL; lia| |].
  { intros b1 [Hb1 _ _ E]. by decoded (DecodeInt16_wire b1 ttl 0 _ Hb1 Httl E). }
  intros m2 Hm2. eapply parse_path; [exact Hm2|by destruct (addr_type addr)|by destruct (addr_type addr)|].
  intros m3 f3 Hm3 Ha Ht. cbn [pf_ttl] in Ht.
  eapply wp_parse_pure; [exact Hm3|unfold DPS_CBOR_KEY_HOP_COUNT; lia| |].
  { intros b1 [Hb1 _ _ E]. by decoded (DecodeUint16_wire b1 hopCount 0 _ Hb1 Hhop E). }
  intros m4 Hm4. eapply wp_parse_last; [exact Hm4|]. intros b' Hb'. apply HQ; [done|]. split; [|split; [|done]].
  - unfold address_fields in *. by destruct (addr_type addr).
  - change (pf_ttl f3 = Some ttl). rewrite Ht. by destruct (addr_type addr).
Qed.
End Unprotected.

Section Protected.
Context (ttl baseTTL : Z) (pubId : DPS_UUID) (sequenceNum : Z) (ackRequested : bool) (filter : cbor) (rest : list Z).
Context (Hbase : int16 baseTTL) (Hseq : 0 < sequenceNum < 2 ^ 32) (Hid : uuid_ok pubId) (Hfilter : cbor_ok filter).
Context (Hcons : ttl_consistent ttl baseTTL = true).
Let es := protected_entries baseTTL pubId sequenceNum ackRequested filter.

(** What is read of the second map, on top of the fields of the first. *)
Definition protected_fields (f f' : PubFields) : Prop :=
  f' = f <| pf_pubId := Some pubId |> <| pf_sequenceNum := Some sequenceNum |>
         <| pf_ackRequested := Some ackRequested |> <| pf_bfBuf := Some (wire filter) |>.

Lemma protected_keys :
  Forall entry_ok es /\ StronglySorted Z.lt (map fst es) /\
  Forall (fun k => k ∈ ProtectedKeys \/ k ∈ []) (map fst es) /\ Forall (fun k => k ∈ map fst es) ProtectedKeys.
Proof using Hbase Hseq Hfilter.
  destruct Hbase. unfold es, protected_entries. cbn [map fst].
  split_and!; [|repeat constructor; unfold DPS_CBOR_KEY_TTL, DPS_CBOR_KEY_PUB_ID, DPS_CBOR_KEY_SEQ_NUM, DPS_CBOR_KEY_ACK_REQ, DPS_CBOR_KEY_BLOOM_FILTER; lia|
    unfold ProtectedKeys; repeat constructor; set_solver|unfold ProtectedKeys; repeat constructor; set_solver].
  assert (cbor_ok (CBytes (uuid_val pubId))) as Hu by (split; [cbn; lia|apply uuid_val_bytes]).
  repeat (apply List.Forall_cons; [split; [by vm_compute|]|]); first [done|exact Hu|exact Hfilter|cbn; lia].
Qed.

Lemma decode_base_ttl f b n tl :
  reading mem eod b (wire (CInt baseTTL) ++ tl) -> pf_ttl f = Some ttl ->
  decode_protected DPS_CBOR_KEY_TTL f b n = Some (DPS_OK, f, rx_skip b (length (wire (CInt baseTTL))), n).
Proof using Hbase Hcons.
  intros [Hb _ _ E] Ht. decoded (DecodeInt16_wire b baseTTL 0 _ Hb Hbase E). rewrite Ht. cbn -[wire]. by rewrite Hcons.
Qed.

Lemma decode_pub_id f b n tl :
  reading mem eod b (wire (CBytes (uuid_val pubId)) ++ tl) ->
  decode_protected DPS_CBOR_KEY_PUB_ID f b n =
    Some (DPS_OK, f <| pf_pubId := Some pubId |>, rx_skip b (length (wire (CBytes (uuid_val pubId)))), n).
Proof using Hid.
  intros [Hb _ _ E]. rewrite uuid_val_wire, <- app_assoc in E.
  assert (length (uuid_val pubId) = 16%nat) as Hl by (unfold uuid_val; by rewrite length_app, !le_bytes_length).
  decoded (CBOR_DecodeUUID_spec b (uuid_val pubId) [] tl Hb Hl E). rewrite le_value_uuid by done.
  cbn [wire]. by rewrite length_app, Hl.
Qed.

Lemma decode_sequence f b n tl :
  reading mem eod b (wire (CInt sequenceNum) ++ tl) ->
  decode_protected DPS_CBOR_KEY_SEQ_NUM f b n =
    Some (DPS_OK, f <| pf_sequenceNum := Some sequenceNum |>, rx_skip b (length (wire (CInt sequenceNum))), n).
Proof using Hseq.
  intros [Hb _ _ E]. assert (uint32 sequenceNum) as Hu by (split; lia).
  decoded (DecodeUint32_wire b sequenceNum 0 tl Hb Hu E). by rewrite (proj2 (Z.eqb_neq _ _)) by lia.
Qed.

Lemma decode_ack_requested f b n tl :
  reading mem eod b (wire (CBool ackRequested) ++ tl) ->
  decode_protected DPS_CBOR_KEY_ACK_REQ f b n =
    Some (DPS_OK, f <| pf_ackRequested := Some ackRequested |>, rx_skip b (length (wire (CBool ackRequested))), n).
Proof. intros [Hb _ _ E]. decoded (DecodeBoolean_wire b ackRequested 0 tl Hb E). by destruct ackRequested. Qed.

Lemma decode_filter f b n tl :
  reading mem eod b (wire filter ++ tl) ->
  decode_protected DPS_CBOR_KEY_BLOOM_FILTER f b n =
    Some (DPS_OK, f <| pf_bfBuf := Some (wire filter) |>, rx_skip b (length (wire filter)), n).
Proof using Hfilter.
  intros Hb. destruct (Skip_wire b filter None (Some 0) tl) as (mj & sk & Es); [apply Hb|done|apply Hb|].
  pose proof (reading_slice mem eod b _ _ _ Hb (reading_skip _ _ _ _ _ Hb)) as Hs.
  decoded Es. cbn [is_OK]. change (is_OK DPS_OK) with true. cbv iota.
  cbn [rx_skip rx_set_pos rx_mem rx_pos] in Hs. cbn [negb]. cbv iota. by rewrite Hs.
Qed.

Lemma wp_parse_protected b f (Q : DPS_Status * PubFields * DPS_RxBuffer -> DPS_Node -> Prop) n :
  reading mem eod b (map_wire es ++ rest) -> pf_ttl f = Some ttl ->
  (forall f' b', reading mem eod b' rest -> protected_fields f f' -> Q (DPS_OK, f', b') n) ->
  wp (parse_map decode_protected ProtectedKeys [] b f) Q n.
Proof using Hbase Hseq Hid Hfilter Hcons.
  intros Hb Ht HQ. destruct protected_keys as (H1 & H2 & H3 & H4).
  apply (wp_parse_map _ mem rest eod _ _ b es); try done; [apply SSorted_nil|].
  intros m fuel Hf Hm. change (length es) with 5%nat in Hf.
  replace fuel with (S (S (S (S (S (fuel - 5))))))%nat by lia.
  eapply wp_parse_pure; [exact Hm|unfold DPS_CBOR_KEY_TTL; lia|by (intros; eapply decode_base_ttl)|]. intros m1 Hm1.
  eapply wp_parse_pure; [exact Hm1|unfold DPS_CBOR_KEY_PUB_ID; lia|by (intros; eapply decode_pub_id)|]. intros m2 Hm2.
  eapply wp_parse_pure; [exact Hm2|unfold DPS_CBOR_KEY_SEQ_NUM; lia|by (intros; eapply decode_sequence)|]. intros m3 Hm3.
  eapply wp_parse_pure; [exact Hm3|unfold DPS_CBOR_KEY_ACK_REQ; lia|by (intros; eapply decode_ack_requested)|]. intros m4 Hm4.
  eapply wp_parse_pure; [exact Hm4|unfold DPS_CBOR_KEY_BLOOM_FILTER; lia|by (intros; eapply decode_filter)|]. intros m5 Hm5.
  eapply wp_parse_last; [exact Hm5|]. intros b' Hb'. by apply HQ.
Qed.
End Protected.
End Maps.

(** ** Both maps *)

Section Publication.
Context (addr : DPS_NodeAddress) (ttl hopCount baseTTL : Z) (pubId : DPS_UUID) (sequenceNum : Z) (ackRequested : bool)
  (filter : cbor) (rest : list Z).

(** The values that a message may carry. *)
Record fields_ok : Prop := {
  fo_addr : sendable addr;
  fo_path : addr_type addr = DPS_PIPE -> path addr <> [];
  fo_ttl : int16 ttl /\ int16 baseTTL /\ ttl_consistent ttl baseTTL = true;
  fo_hopCount : uint16 hopCount;
  fo_sequenceNum : 0 < sequenceNum < 2 ^ 32;
  fo_pubId : uuid_ok pubId;
  fo_filter : cbor_ok filter
}.

Let protected := map_wire (protected_entries baseTTL pubId sequenceNum ackRequested filter).

(** What is read of a message. *)
Record pub_fields (mem : list Z) (f : PubFields) : Prop := {
  pu_address : address_fields mem addr f;
  pu_ttl : pf_ttl f = Some ttl;
  pu_hopCount : pf_hopCount f = Some hopCount;
  pu_pubId : pf_pubId f = Some pubId;
  pu_sequenceNum : pf_sequenceNum f = Some sequenceNum;
  pu_ackRequested : pf_ackRequested f = Some ackRequested;
  pu_bfBuf : pf_bfBuf f = Some (wire filter)
}.

Lemma wp_parse_publication mem eod b (Q : DPS_Status * PubFields * list Z * DPS_RxBuffer -> DPS_Node -> Prop) n :
  fields_ok -> reading mem eod b (map_wire (header_entries addr ttl hopCount) ++ protected ++ rest) ->
  (forall f b', reading mem eod b' rest -> pub_fields mem f -> Q (DPS_OK, f, protected, b') n) ->
  wp (parse_publication b) Q n.
Proof.
  intros [Ha Hp (Ht & Hbt & Hc) Hh Hs Hi Hf] Hb HQ. unfold parse_publication. wp_go.
  eapply (wp_parse_unprotected mem eod addr ttl hopCount); [done..|exact Hb|]. intros f b1 Hb1 (F1 & F2 & F3). wp_go. ok.
  assert ((pf_keysMask f .& (1 ≪ DPS_CBOR_KEY_PORT .| 1 ≪ DPS_CBOR_KEY_PATH) =? 0) = false) as ->.
  { unfold address_fields in F1. destruct (addr_type addr); destruct F1 as [-> _]; done. }
  wp_go. eapply (wp_parse_protected mem eod ttl baseTTL pubId sequenceNum ackRequested filter); [done..|].
  intros f' b2 Hb2 ->. wp_go. ok. eapply wp_lift; [by eapply reading_slice|]. wp_go. apply HQ; [done|].
  split; try done.
Qed.

(** The address that is taken for the sender's. *)
Lemma sender_address_spec `{Env : Environment} mem eod f e b' :
  pub_fields mem f -> reading mem eod b' rest -> forall n,
  sender_address f e b' n = (e' ← sender_endpoint addr e; Some (e', n)).
Proof.
  intros [F _ _ _ _ _ _] Hb n. unfold sender_address, sender_endpoint, address_fields, has_flag in *.
  destruct (addr_type addr); try (destruct F as [-> Hp]; rewrite ?Hp; reflexivity).
  destruct F as (-> & El & p & Ep & Er). unfold mbind, M_bind, lift, decoded_bytes. cbn -[DPS_EndpointSetPath].
  rewrite Ep, El, Nat2Z.id, (rd_mem _ _ _ _ Hb), Er. cbn -[DPS_EndpointSetPath]. done.
Qed.
End Publication.
