(* ===== verification/DeliverProofs.v ===== *)
(** * Giving a publication to the subscriptions ([src/pub.c])

    The payload of a message that was sent in the clear is read back, and the handlers
    that are called are those of the subscriptions whose topics match, once each and in
    order.  There is memory throughout. *)
From S2P Require Import Prelude Status Buffer Float Cbor CborProofs CborValues CborMap.
From S2P Require Import BitVec BitVecProofs BitVecSerial CountVec Topics TopicProofs TopicSound TopicTheorems.
From S2P Require Import Uuid Addr History HistTheorems Node Remote RemoteProofs Sub SubMsg SubMsgProofs Pub Link SubDecode.
From S2P Require Import SendProofs Tls Keys Cose PubMsg PubRecv PubSend PubMsgProofs SubDecodeProofs PubParseProofs.
From stdpp Require Import gmap.
From Stdlib Require Import Sorting.Sorted.
#[local] Open Scope Z_scope.
#[local] Set Warnings "-clear-no-such-hyp".

Lemma until_nul_cstr t : cstr t -> until_nul t = t.
Proof.
  induction 1 as [|c t Hc _ IH]; [done|]. cbn [until_nul]. rewrite IH. by destruct (Z.eqb_spec c 0); [lia|].
Qed.

(** The data as the handler gets them: a null pointer when there are none. *)
Definition payload_arg (data : list Z) : option (list Z) := if decide (data = []) then None else Some data.

Lemma ewire_bytes es : Forall entry_ok es -> Forall is_byte (ewire es).
Proof.
  intros H. apply flat_map_bytes. eapply List.Forall_impl; [|exact H]. intros [k v] [Hk Hv]. cbn [fst snd].
  apply Forall_app. split; [apply cbor_int_bytes; unfold key_ok in Hk; cbn in Hk; lia|by apply wire_bytes].
Qed.

Lemma payload_entries_ok topics data :
  cbor_ok (topics_item topics) -> cbor_ok (CBytes data) -> Forall entry_ok (payload_entries topics data).
Proof. intros Ht Hd. repeat apply List.Forall_cons; [by split; [by vm_compute|]..|done]. Qed.

Lemma payload_bytes topics data :
  cbor_ok (topics_item topics) -> cbor_ok (CBytes data) -> Forall is_byte (map_wire (payload_entries topics data)).
Proof.
  intros Ht Hd. apply Forall_app. split; [apply cbor_head_bytes; [major|cbn; lia]|by apply ewire_bytes, payload_entries_ok].
Qed.

(** [DPS_TxBufferToRx] of a whole message. *)
Lemma rx_of_reading bytes : Forall is_byte bytes -> Z.of_nat (length bytes) < 2 ^ 32 ->
  reading bytes (length bytes) (rx_of bytes) bytes.
Proof.
  intros Hb Hl. split; [split; cbn; [lia|done]|done|done|].
  unfold rx_rest, rx_of. cbn. by rewrite Nat.sub_0_r, drop_0, take_ge.
Qed.

(** The states of a node while it handles a publication: only the publication, the
    subscriptions, the history, the count of the allocations and the events change. *)
Record Handling := mkHandling {
  h_pub : DPS_Publication;
  h_subs : gmap ptr DPS_Subscription;
  h_history : DPS_History;
  h_allocs : nat;
  h_events : list Event
}.

Definition while_handling (n0 : DPS_Node) (p : ptr) (s : Handling) : DPS_Node :=
  n0 <| n_pubs := <[p := h_pub s]> (n_pubs n0) |> <| n_subs := h_subs s |> <| n_history := h_history s |>
     <| n_allocs := h_allocs s |> <| n_events := h_events s |>.

Section Handling.
Context `{Env : Environment} `{Crypto : Cose}.
Context (Hmem : forall k, env_alloc k = true).
Context (n0 : DPS_Node) (p : ptr).
#[local] Abbreviation st pb subs h k e := (while_handling n0 p (mkHandling pb subs h k e)).

Lemma handling_start pb : n_pubs n0 !! p = Some pb -> n0 = st pb (n_subs n0) (n_history n0) (n_allocs n0) (n_events n0).
Proof. intros E. unfold while_handling. cbn [h_pub h_subs h_history h_allocs h_events]. rewrite insert_id by done. by destruct n0. Qed.

Lemma wp_handling_load pb subs h k e (Q : DPS_Publication -> DPS_Node -> Prop) :
  Q pb (st pb subs h k e) -> wp (load n_pubs p) Q (st pb subs h k e).
Proof. intros H. eapply wp_load; [apply lookup_insert_eq|done]. Qed.

Lemma wp_handling_update f pb subs h k e (Q : unit -> DPS_Node -> Prop) :
  Q () (st (f pb) subs h k e) -> wp (update n_pubs p f) Q (st pb subs h k e).
Proof.
  intros H. eapply wp_update; [apply lookup_insert_eq|].
  match goal with |- Q () ?n => replace n with (st (f pb) subs h k e); [done|] end.
  unfold while_handling. cbn [h_pub h_subs h_history h_allocs h_events].
  rewrite <- (insert_insert_eq (n_pubs n0) p (f pb) pb). reflexivity.
Qed.

Lemma wp_handling_alloc pb subs h k e (Q : bool -> DPS_Node -> Prop) :
  Q true (st pb subs h (S k) e) -> wp alloc_ok Q (st pb subs h k e).
Proof using Hmem. intros H. unfold wp, alloc_ok. cbn. by rewrite Hmem. Qed.

(** ** The payload *)

Lemma wp_decode_topics topics : Forall cstr topics -> Forall (fun t => Z.of_nat (length t) < 2 ^ 32) topics ->
  forall mem eod b tl pb subs h k e (Q : DPS_Status * list (list Z) * DPS_RxBuffer -> DPS_Node -> Prop),
  reading mem eod b (flat_map (fun t => wire (CString t)) topics ++ tl) ->
  (forall b' k', b' = rx_skip b (length (flat_map (fun t => wire (CString t)) topics)) -> reading mem eod b' tl ->
     Q (DPS_OK, topics, b') (st pb subs h k' e)) ->
  wp (decode_topics (length topics) b) Q (st pb subs h k e).
Proof using Hmem.
  induction topics as [|t topics IH]; intros Ht Hl mem eod b tl pb subs h k e Q Hb HQ; cbn [length decode_topics flat_map].
  { wp_go. apply HQ; [|done]. unfold rx_skip, rx_set_pos. cbn. rewrite Nat.add_0_r. by destruct b. }
  apply Forall_cons_iff in Ht as [Ht Hts]. apply Forall_cons_iff in Hl as [Hl Hls]. cbn [flat_map] in Hb.
  rewrite <- app_assoc in Hb. pose proof Hb as Hb'. apply reading_skip in Hb'. destruct Hb as [Hwf Hm He E]. cbn [wire] in E.
  rewrite <- app_assoc in E. wp_go. eapply wp_lift; [by eapply CBOR_DecodeString_spec|]. wp_go. ok.
  eapply wp_lift; [by apply (decoded_bytes_spec b (cbor_head CBOR_STRING (Z.of_nat (length t))) t _ Hwf E)|]. wp_go.
  apply wp_handling_alloc. wp_go. apply wp_assert; [done|]. wp_go.
  change (cbor_head CBOR_STRING (Z.of_nat (length t)) ++ t) with (wire (CString t)).
  eapply (IH Hts Hls mem eod _ tl); [exact Hb'|]. intros b2 k2 -> Hb2. wp_go. rewrite until_nul_cstr by done.
  apply HQ; [|done]. rewrite rx_skip_skip. cbn [flat_map]. by rewrite length_app.
Qed.

Lemma wp_topics_entry topics mem eod b tl pb subs h k e
    (Q : DPS_Status * option (list Z) * DPS_RxBuffer -> DPS_Node -> Prop) :
  topics <> [] -> Forall cstr topics -> cbor_ok (topics_item topics) -> reading mem eod b (wire (topics_item topics) ++ tl) ->
  (forall k', Q (DPS_OK, None, rx_skip b (length (wire (topics_item topics))))
                (st (pb <| p_topics := Some topics |>) subs h k' e)) ->
  wp (decode_payload p DPS_CBOR_KEY_TOPICS None b) Q (st pb subs h k e).
Proof using Hmem.
  intros Hne Hc [Hn Ht]%cbor_ok_array Hb HQ. rewrite length_map in Hn.
  assert (Forall (fun t => Z.of_nat (length t) < 2 ^ 32) topics) as Hl.
  { apply (proj1 (List.Forall_map CString cbor_ok topics)) in Ht. eapply List.Forall_impl; [|exact Ht]. by intros t []. }
  unfold topics_item in *. cbn [wire] in *. rewrite length_map in *. rewrite flat_map_concat_map, map_map, <- flat_map_concat_map in *.
  unfold decode_payload. change (DPS_CBOR_KEY_TOPICS =? DPS_CBOR_KEY_TOPICS) with true. wp_go.
  rewrite <- app_assoc in Hb.
  eapply wp_lift; [eapply (DecodeArray_head _ (Z.of_nat (length topics))); [apply Hb|lia|apply Hb]|]. wp_go. ok.
  destruct (Z.eqb_spec (Z.of_nat (length topics)) 0) as [H0|_]; [by destruct topics|]. wp_go.
  apply wp_handling_alloc. wp_go. cbn [negb]. wp_go. rewrite Nat2Z.id.
  eapply (wp_decode_topics topics Hc Hl mem eod _ tl); [by apply reading_skip in Hb|]. intros b' k' -> Hb'. wp_go.
  apply wp_handling_update. wp_go. rewrite rx_skip_skip, <- length_app. apply HQ.
Qed.

Lemma wp_data_entry data mem eod b tl n (Q : DPS_Status * option (list Z) * DPS_RxBuffer -> DPS_Node -> Prop) :
  Z.of_nat (length data) < 2 ^ 32 -> reading mem eod b (wire (CBytes data) ++ tl) ->
  Q (DPS_OK, payload_arg data, rx_skip b (length (wire (CBytes data)))) n ->
  wp (decode_payload p DPS_CBOR_KEY_DATA None b) Q n.
Proof.
  intros Hl [Hwf _ _ E] HQ. cbn [wire] in E. rewrite <- app_assoc in E. unfold decode_payload.
  change (DPS_CBOR_KEY_DATA =? DPS_CBOR_KEY_TOPICS) with false. change (DPS_CBOR_KEY_DATA =? DPS_CBOR_KEY_DATA) with true.
  wp_go. eapply wp_lift; [by eapply CBOR_DecodeBytes_spec|]. wp_go. ok.
  eapply wp_lift; [by apply (decoded_bytes_spec b (cbor_head CBOR_BYTES (Z.of_nat (length data))) data tl Hwf E)|]. wp_go.
  unfold payload_arg in HQ. by destruct (decide (data = [])).
Qed.

(** The topics and the data of a map that was sent. *)
Lemma wp_parse_payload topics data pb subs h k e (Q : DPS_Status * option (list Z) * DPS_RxBuffer -> DPS_Node -> Prop) :
  let bytes := map_wire (payload_entries topics data) in
  topics <> [] -> Forall cstr topics -> cbor_ok (topics_item topics) -> cbor_ok (CBytes data) ->
  Z.of_nat (length bytes) < 2 ^ 32 ->
  (forall b k', Q (DPS_OK, payload_arg data, b) (st (pb <| p_topics := Some topics |>) subs h k' e)) ->
  wp (parse_map (decode_payload p) EncryptedKeys [] (rx_of bytes) None) Q (st pb subs h k e).
Proof using Hmem.
  cbv zeta. intros Hne Hc Ht Hd Hlen HQ. set (bytes := map_wire _) in *.
  apply (wp_parse_map _ bytes [] (length bytes) _ _ _ (payload_entries topics data)); try (done || by apply payload_entries_ok).
  { rewrite app_nil_r. apply rx_of_reading; [|done]. by apply payload_bytes. }
  1-2: by repeat constructor.
  { by apply SSorted_nil. }
  1-2: unfold EncryptedKeys; repeat constructor; set_solver.
  intros m fuel Hf Hm. cbn [length payload_entries] in Hf. replace fuel with (S (S (fuel - 2)))%nat by lia.
  eapply (wp_parse_key _ bytes [] (length bytes) _ m _ _ _ _
    (fun d n' => d = None /\ exists k', n' = st (pb <| p_topics := Some topics |>) subs h k' e)); [exact Hm|by vm_compute| |].
  - intros b Hb. eapply wp_topics_entry; [done..|exact Hb|]. intros k'. left. cbn [fst snd]. split_and!; [done|done|done|]. by eexists.
  - intros m' d ? Hm' (-> & k' & ->). eapply (wp_parse_key _ bytes [] (length bytes) _ m' _ _ _ _
      (fun d n' => d = payload_arg data /\ n' = st (pb <| p_topics := Some topics |>) subs h k' e)); [exact Hm'|by vm_compute| |].
    + intros b Hb. eapply wp_data_entry; [apply Hd|exact Hb|]. by left.
    + intros m2 ? ? Hm2 [-> ->]. eapply wp_parse_last; [exact Hm2|]. intros b' _. apply HQ.
Qed.
End Handling.
