(* ===== verification/HandlerProofs.v ===== *)
(** * Calling the handlers of a publication ([src/pub.c])

    The handlers that [DPS_CallPubHandlers] calls are those of the subscriptions whose
    topics match, once each and in order, and the history records the publication. *)
From S2P Require Import Prelude Status Buffer Float Cbor CborProofs CborValues CborMap.
From S2P Require Import BitVec BitVecProofs Topics TopicProofs TopicSound TopicTheorems Uuid Addr History HistTheorems.
From S2P Require Import Node Remote RemoteProofs Sub SubMsg SubMsgProofs Pub SubDecode Tls Keys Cose PubMsg PubRecv PubMsgProofs DeliverProofs.
From stdpp Require Import gmap.
#[local] Open Scope Z_scope.
#[local] Set Warnings "-clear-no-such-hyp".

(** ** The history of the node *)

Section History.
Context `{Env : Environment}.

(** The history records [u] with at least this sequence number. *)
Definition history_has (u : DPS_UUID) (sn : Z) (h : DPS_History) : Prop :=
  exists A d, represents h A /\ A !! u = Some d /\ sn <= ph_sn d.

(** It is a history with room for [u], and its addresses are comparable. *)
Definition history_ready (u : DPS_UUID) (h : DPS_History) : Prop :=
  exists A, represents h A /\ Z.of_nat (size (delete u A)) + 2 < 2 ^ 32 /\
    forall v d, A !! v = Some d -> Forall (fun na => addr_ok (na_addr na)) (ph_addrs d).

(** Nothing is forgotten. *)
Definition history_more (h h' : DPS_History) : Prop := forall v s, history_has v s h -> history_has v s h'.

#[export] Instance history_more_preorder : PreOrder history_more.
Proof. split; [by intros h v s|]. intros h1 h2 h3 H1 H2 v s H. by apply H2, H1. Qed.

Lemma represents_unique h A B : represents h A -> represents h B -> A = B.
Proof.
  intros [_ HA] [_ HB]. apply map_eq. intros u. apply option_eq. intros d. etransitivity; [apply HA|symmetry; apply HB].
Qed.

Lemma update_addrs_ok alloc addrs addr sn hops :
  addr_ok addr -> Forall (fun na => addr_ok (na_addr na)) addrs ->
  exists l, update_addrs alloc addrs addr sn hops = Some l /\ Forall (fun na => addr_ok (na_addr na)) l.
Proof.
  intros [Ht Ha]. induction 1 as [|na addrs [Ht' Hna] Hl IH]; cbn [update_addrs].
  - eexists. split; [done|]. destruct alloc; [|by apply List.Forall_nil].
    apply List.Forall_cons; [done|]. by apply List.Forall_nil.
  - rewrite SameAddr_ip by (done || congruence). cbn [mbind option_bind]. case_bool_decide.
    + eexists. split; [done|]. by constructor.
    + destruct IH as (l & -> & IH). eexists. split; [done|]. by constructor.
Qed.

Lemma updated_ok now alloc d sn ack ttl hops addr :
  addr_ok addr -> Forall (fun na => addr_ok (na_addr na)) (ph_addrs d) ->
  exists d', HistTheorems.updated now alloc d sn ack ttl hops addr = Some d' /\ ph_sn d' = Z.max (ph_sn d) sn /\
    Forall (fun na => addr_ok (na_addr na)) (ph_addrs d').
Proof.
  intros Ha Hd. unfold HistTheorems.updated. destruct (update_addrs_ok alloc (ph_addrs d) addr sn hops Ha Hd) as (l & El & Hl).
  case_match; [rewrite El|]; cbn [mbind option_bind]; eexists; (split; [done|]); by split.
Qed.

(** An update of [u] succeeds and leaves the records of the others. *)
Lemma update_ready h p now alloc u sn ack ttl hops addr :
  history_ready u h -> cells h !! p = None -> addr_ok addr ->
  exists h', DPS_UpdatePubHistory now (Some p) alloc h u sn ack ttl hops addr = Some (DPS_OK, h') /\
    history_ready u h' /\ history_more h h' /\ history_has u sn h'.
Proof.
  intros (A & HA & Hs & Hok) Hp Ha.
  assert (Z.of_nat (size A) <= Z.of_nat (size (delete u A)) + 1) as Hsz.
  { destruct (A !! u) as [d|] eqn:E; [|rewrite delete_id by done; lia].
    rewrite (map_size_delete_Some u A) by eauto. lia. }
  pose proof (hist_step_ok h A (OpUpdate now (Some p) alloc u sn ack ttl hops addr) HA Hp) as H.
  rewrite (HistTheorems.map_size h A HA) in H. specialize (H ltac:(lia)). unfold step_ok in H. cbn [spec_step] in H.
  destruct (updated_ok now alloc (default (new_record u) (A !! u)) sn ack ttl hops addr Ha) as (d & Ed & Esn & Hd).
  { destruct (A !! u) as [d|] eqn:E; [by eapply Hok|by constructor]. }
  rewrite Ed in H. cbn [mbind option_bind] in H. destruct H as (h' & E & HA' & _). cbn [hist_step] in E.
  destruct (DPS_UpdatePubHistory _ _ _ _ _ _ _ _ _ _) as [[r h1]|]; [|done]. cbn [mbind option_bind] in E.
  injection E as -> ->. exists h'. split_and!; [done| | |].
  - exists (<[u := d]> A). split_and!; [done|by rewrite delete_insert_eq|]. intros v d' Hv.
    destruct (decide (v = u)) as [->|Hne]; [rewrite lookup_insert_eq in Hv; by injection Hv as <-|].
    rewrite lookup_insert_ne in Hv by done. by eapply Hok.
  - intros v s (B & d' & HB & Hv & Hle). rewrite (represents_unique h B A HB HA) in Hv. exists (<[u := d]> A).
    destruct (decide (v = u)) as [->|Hne]; [exists d|exists d']; (split_and!; [done| |]).
    + by rewrite lookup_insert_eq.
    + rewrite Esn, Hv. cbn. lia.
    + by rewrite lookup_insert_ne.
    + done.
  - exists (<[u := d]> A), d. split_and!; [done|by rewrite lookup_insert_eq|lia].
Qed.
End History.

(** A map is not tagged: the message was not encrypted. *)
Lemma Peek_payload topics data :
  cbor_ok (topics_item topics) -> cbor_ok (CBytes data) ->
  Z.of_nat (length (map_wire (payload_entries topics data))) < 2 ^ 32 ->
  CBOR_Peek (rx_of (map_wire (payload_entries topics data))) (Some 0) (Some 0) = Some (DPS_OK, Some CBOR_MAP, Some 2).
Proof.
  intros Ht Hd Hl. pose proof (payload_bytes topics data Ht Hd) as Hb. set (bs := map_wire _) in *.
  assert (exists w tl, bs = cbor_head CBOR_MAP 2 ++ 11 :: w ++ 12 :: tl) as (w & tl & E).
  { exists (wire (topics_item topics)), (wire (CBytes data)). unfold bs, map_wire, payload_entries.
    cbn [length ewire flat_map fst snd]. change (cbor_int DPS_CBOR_KEY_TOPICS) with [11].
    change (cbor_int DPS_CBOR_KEY_DATA) with [12]. by rewrite app_nil_r. }
  destruct (rx_of_reading bs Hb Hl) as [Hwf _ _ Er].
  pose proof (DPS_RxBufferAvail_spec _ Hwf) as Ha. rewrite Er in Ha.
  assert (3 <= Z.of_nat (length bs)) by (rewrite E, length_app; cbn [length]; rewrite length_app; change (length (cbor_head CBOR_MAP 2)) with 1%nat; cbn [length]; lia).
  unfold CBOR_Peek. rewrite (proj2 (Z.ltb_ge _ _)) by lia.
  rewrite (PeekUint_spec (rx_of bs) CBOR_MAP 2 0 0 0 (11 :: w ++ 12 :: tl)) by (first [exact Hwf|major|lia|congruence]).
  cbn [mbind option_bind]. change (is_OK DPS_OK && MAJOR_ENCODES_LENGTH CBOR_MAP) with (MAJOR_ENCODES_LENGTH CBOR_MAP).
  rewrite Z.geb_leb, (proj2 (Z.leb_gt _ _)), andb_false_r by lia. done.
Qed.

(** The filter of a message may cache a wrong count, but not a wrong 0. *)
Lemma Includes_received k bf v :
  vec_ok k bf -> bv_wf v -> len v = len bf ->
  exists b, DPS_BitVectorIncludes (Some bf) (Some v) = Some b /\
    (b = true <-> bv_sub v bf /\ chunks_count (bits bf) <> 0).
Proof.
  intros H Hv Hl. apply vec_ok_cases in H as [[H _]|[Hn [H _]]]; [by apply DPS_BitVectorIncludes_spec|].
  assert (DPS_BitVectorIncludes (Some bf) (Some v) = DPS_BitVectorIncludes (Some (INVALIDATE_POPCOUNT bf)) (Some v)) as ->.
  { unfold DPS_BitVectorIncludes. change (len (INVALIDATE_POPCOUNT bf)) with (len bf).
    change (bits (INVALIDATE_POPCOUNT bf)) with (bits bf). change (popCount (INVALIDATE_POPCOUNT bf)) with (-1).
    by rewrite (proj2 (Z.eqb_neq _ _) Hn). }
  apply (DPS_BitVectorIncludes_spec (INVALIDATE_POPCOUNT bf) v H Hv). done.
Qed.

Lemma set_events_twice n e e' : n <| n_events := e |> <| n_events := e' |> = n <| n_events := e' |>.
Proof. done. Qed.

(** ** Lists of subscriptions *)

Lemma topic_ok_sub seps t : topic_ok seps DPS_SubTopic t -> sub_topic seps t.
Proof. by intros (? & ? & _ & _ & ?). Qed.
Lemma topic_ok_pub seps t : topic_ok seps DPS_PubTopic t -> pub_topic seps t.
Proof. by intros (? & ? & _ & _ & ?). Qed.

(** The filter that is built from topics. *)
Definition built_filter `{Env : Environment} (seps : list Z) (t : DPS_TopicType) (topics : list (list Z)) (v : DPS_BitVector)
  : Prop :=
  exists malloc, malloc_ok malloc /\
    TopicTheorems.add_topics env_md env_config malloc seps t (fresh_bv (bitLen env_config)) topics = Some (DPS_OK, v).

(** A subscription in the list of the node. *)
Record sub_ready `{Env : Environment} (seps : list Z) (n : Z) (s : DPS_Subscription) : Prop := {
  sr_filter : exists v, s_bf s = Some v /\ bv_wf v /\ len v = n /\ built_filter seps DPS_SubTopic (s_topics s) v;
  sr_handler : is_Some (s_handler s);
  sr_refs : 0 <= s_refCount s < 2 ^ 32 - 1;
  sr_listed : has_flag (s_flags s) SUB_FLAG_WAS_FREED = false;
  sr_topics : s_topics s <> [] /\ Forall (topic_ok seps DPS_SubTopic) (s_topics s)
}.

(** Every topic of the subscription is matched by one of the publication. *)
Definition sub_matches (seps : list Z) (topics : list (list Z)) (s : DPS_Subscription) : Prop :=
  Forall (fun sub => Exists (fun pub => topics_match seps pub sub) topics) (s_topics s).

(** [ts] are the subscriptions of [l] that match, in order. *)
Inductive selected (R : DPS_Subscription -> Prop) (subs : gmap ptr DPS_Subscription) : list ptr -> list ptr -> Prop :=
  | selected_nil : selected R subs [] []
  | selected_take p s l ts : subs !! p = Some s -> R s -> selected R subs l ts -> selected R subs (p :: l) (p :: ts)
  | selected_skip p s l ts : subs !! p = Some s -> ~ R s -> selected R subs l ts -> selected R subs (p :: l) ts.

Lemma selected_incl R subs l ts : selected R subs l ts -> incl ts l.
Proof.
  induction 1; [by intros ?| |by apply List.incl_tl]. apply List.incl_cons; [by left|by apply List.incl_tl].
Qed.

Lemma selected_elem R subs l ts p s :
  selected R subs l ts -> subs !! p = Some s -> In p ts <-> In p l /\ R s.
Proof.
  intros H E. induction H as [|q s' l ts Eq HR H IH|q s' l ts Eq HR H IH]; cbn [In].
  - by split; [|intros []].
  - rewrite IH. split; [intros [->|[]]; split; try tauto; congruence|tauto].
  - rewrite IH. split; [tauto|]. intros [[->|Hl] Hs]; [congruence|done].
Qed.

Section Handlers.
Context `{Env : Environment} `{Crypto : Cose}.
Context (Hmem : forall k, env_alloc k = true).
Context (n0 : DPS_Node) (p req : ptr) (q : DPS_PublishRequest) (pb0 : DPS_Publication).
Context (bf : DPS_BitVector) (topics : list (list Z)) (data : list Z) (aad : list Z).
Let seps := n_separators n0.
Let bytes := map_wire (payload_entries topics data).

(** The request is for this publication, which is not of this node and not expired, and
    its second buffer holds the payload in the clear. *)
Record request_ready : Prop := {
  qr_req : n_reqs n0 !! req = Some q;
  qr_pub : q_pub q = p;
  qr_aad : q_bufs q !! 0%nat = Some aad;
  qr_bytes : q_bufs q !! 1%nat = Some bytes;
  qr_short : Z.of_nat (length bytes) < 2 ^ 32;
  qr_local : has_flag (p_flags pb0) PUB_FLAG_LOCAL = false;
  qr_expired : has_flag (p_flags pb0) PUB_FLAG_EXPIRED = false;
  qr_addr : addr_ok (p_senderAddr pb0);
  qr_bf : p_bf pb0 = Some bf /\ exists k, vec_ok k bf;
  qr_seps : no_wild seps /\ seps <> [];
  qr_topics : topics <> [] /\ Forall (pub_topic seps) topics /\ cbor_ok (topics_item topics);
  qr_data : cbor_ok (CBytes data)
}.
Context (Hreq : request_ready).

(** The filter has no false negatives. *)
Context (Hsound : forall s, sub_ready seps (len bf) s -> sub_matches seps topics s ->
  DPS_BitVectorIncludes (Some bf) (s_bf s) = Some true).

#[local] Abbreviation at_topics t := (pb0 <| p_topics := t |>).
#[local] Abbreviation st t subs h k e := (while_handling n0 p (mkHandling (at_topics t) subs h k e)).

(** The call of the handler of a subscription. *)
Definition delivery (subs : gmap ptr DPS_Subscription) (sub : ptr) : Event :=
  EvPublication (default 0 (s ← subs !! sub; s_handler s)) sub (at_topics (Some topics)) (payload_arg data).

Lemma wp_handling_req {t subs h k e} (Q : DPS_PublishRequest -> DPS_Node -> Prop) :
  Q q (st t subs h k e) -> wp (load n_reqs req) Q (st t subs h k e).
Proof using Hreq. intros H. eapply wp_load; [apply Hreq|done]. Qed.

Lemma wp_handling_update_history sn ttl hops t subs h k e (Q : DPS_Status -> DPS_Node -> Prop) :
  history_ready (p_pubId pb0) h ->
  (forall h', history_ready (p_pubId pb0) h' -> history_more h h' -> history_has (p_pubId pb0) sn h' ->
     Q DPS_OK (st t subs h' (S (S k)) e)) ->
  wp (update_history (p_pubId pb0) sn (p_ackRequested pb0) ttl hops (p_senderAddr pb0)) Q (st t subs h k e).
Proof using Hmem Hreq.
  intros Hh HQ. unfold update_history. wp_go. apply wp_handling_alloc; [done|]. wp_go. apply wp_handling_alloc; [done|]. wp_go.
  edestruct (update_ready h (fresh (dom (cells h)))) as (h' & E & H1 & H2 & H3);
    [exact Hh|apply not_elem_of_dom, is_fresh|apply Hreq|].
  eapply wp_lift; [exact E|]. wp_go. exact (HQ h' H1 H2 H3).
Qed.

Lemma wp_handling_UpdatePubHistory t subs h k e (Q : DPS_Status -> DPS_Node -> Prop) :
  history_ready (p_pubId pb0) h ->
  (forall h', history_ready (p_pubId pb0) h' -> history_more h h' -> history_has (p_pubId pb0) (q_sequenceNum q) h' ->
     Q DPS_OK (st t subs h' (S (S k)) e)) ->
  wp (UpdatePubHistory req) Q (st t subs h k e).
Proof using Hmem Hreq.
  intros Hh HQ. unfold UpdatePubHistory. wp_go. apply wp_handling_req. wp_go. rewrite (qr_pub Hreq).
  apply wp_handling_load. wp_go. by apply wp_handling_update_history.
Qed.

(** The payload of a message that was not encrypted. *)
Lemma wp_DecryptAndParsePub t subs h k e (Q : DPS_Status * option (list Z) -> DPS_Node -> Prop) :
  (forall k', Q (DPS_OK, payload_arg data) (st (Some topics) subs h k' e)) ->
  wp (DecryptAndParsePub req) Q (st t subs h k e).
Proof using Hmem Hreq.
  intros HQ. unfold DecryptAndParsePub. wp_go. apply wp_handling_req. wp_go.
  eapply wp_lift; [apply Hreq|]. wp_go. eapply wp_lift; [apply Hreq|]. wp_go. rewrite (qr_pub Hreq).
  destruct (qr_topics Hreq) as (Hne & Hpt & Hok).
  assert (Forall cstr topics) as Hc by (eapply List.Forall_impl; [|exact Hpt]; by intros ? []).
  unfold open_payload. wp_go. eapply wp_lift; [apply Peek_payload; [done|apply Hreq..]|]. wp_go. ok.
  change (default 0 (Some CBOR_MAP) =? CBOR_TAG) with false. cbn [negb]. wp_go.
  eapply (wp_parse_payload Hmem n0 p topics data); [done|done|done|apply Hreq|apply Hreq|]. intros b k'. wp_go. apply HQ.
Qed.

Lemma wp_handling_emit ev t subs h k e (Q : unit -> DPS_Node -> Prop) :
  Q () (st t subs h k (ev :: e)) -> wp (emit ev) Q (st t subs h k e).
Proof.
  intros H. apply wp_emit. unfold while_handling in *. cbn [h_pub h_subs h_history h_allocs h_events] in *.
  by rewrite set_events_twice.
Qed.

(** *** References to the subscriptions *)

#[local] Abbreviation held s := (s <| s_refCount := s_refCount s + 1 |>).

Lemma wp_handling_IncRef sub s t subs h k e (Q : unit -> DPS_Node -> Prop) :
  subs !! sub = Some s -> sub_ready seps (len bf) s ->
  Q () (st t (<[sub := held s]> subs) h k e) -> wp (DPS_SubscriptionIncRef sub) Q (st t subs h k e).
Proof.
  intros E Hs HQ. unfold DPS_SubscriptionIncRef. eapply wp_update; [exact E|].
  pose proof (sr_refs _ _ _ Hs). unfold u32. rewrite Z.mod_small by lia. exact HQ.
Qed.

Lemma wp_handling_sub sub s t subs h k e (Q : DPS_Subscription -> DPS_Node -> Prop) :
  subs !! sub = Some s -> Q s (st t subs h k e) -> wp (load n_subs sub) Q (st t subs h k e).
Proof. intros E HQ. by eapply wp_load. Qed.

Lemma wp_handling_DecRef sub s t subs h k e (Q : unit -> DPS_Node -> Prop) :
  subs !! sub = Some s -> sub_ready seps (len bf) s ->
  Q () (st t subs h k e) -> wp (DPS_SubscriptionDecRef sub) Q (st t (<[sub := held s]> subs) h k e).
Proof.
  intros E Hs HQ. pose proof (sr_refs _ _ _ Hs) as Hr. unfold DPS_SubscriptionDecRef. wp_go.
  eapply wp_handling_sub; [apply lookup_insert_eq|]. wp_go.
  change (s_refCount (held s)) with (s_refCount s + 1). change (s_flags (held s)) with (s_flags s).
  apply wp_assert; [apply negb_true_iff, Z.eqb_neq; lia|]. wp_go.
  eapply wp_update; [apply lookup_insert_eq|].
  rewrite (sr_listed _ _ _ Hs), andb_false_r.
  change (wp (when false (FreeSubscription sub)) Q (st t (<[sub := (held s) <| s_refCount := u32 (s_refCount s + 1 - 1) |>]>
    (<[sub := held s]> subs)) h k e)).
  replace ((held s) <| s_refCount := u32 (s_refCount s + 1 - 1) |>) with s.
  - by rewrite insert_insert_eq, insert_id.
  - unfold u32. rewrite Z.mod_small, Z.add_simpl_r by lia. by destruct s.
Qed.

(** *** One handler *)

Lemma wp_call_handler sub s subs h k e (Q : option ptr -> DPS_Node -> Prop) :
  subs !! sub = Some s -> is_Some (s_handler s) -> history_ready (p_pubId pb0) h ->
  (forall h', history_ready (p_pubId pb0) h' -> history_more h h' ->
     Q None (st (Some topics) subs h' (S (S k)) (delivery subs sub :: e))) ->
  wp (call_handler req sub (payload_arg data) None) Q (st (Some topics) subs h k e).
Proof using Hmem Hreq.
  intros E [cb Hcb] Hh HQ. unfold call_handler. wp_go. apply wp_handling_req. wp_go. rewrite (qr_pub Hreq).
  apply wp_handling_load. wp_go. eapply wp_handling_sub; [exact E|]. wp_go.
  apply wp_handling_UpdatePubHistory; [done|]. intros h' Hh' Hm _. wp_go. rewrite Hcb. eapply wp_lift; [reflexivity|]. wp_go.
  change (p_flags (at_topics (Some topics))) with (p_flags pb0). rewrite (qr_local Hreq). cbn [negb].
  assert (EvPublication cb sub (at_topics (Some topics)) (payload_arg data) = delivery subs sub) as ->
    by (unfold delivery; rewrite E; cbn [mbind option_bind]; by rewrite Hcb).
  apply wp_bind, wp_handling_emit. wp_go. by apply HQ.
Qed.

(** Whether the filter lets a subscription through. *)
Lemma candidate_spec s t :
  sub_ready seps (len bf) s ->
  exists b, candidate (at_topics t) s = Some b /\ (sub_matches seps topics s -> b = true).
Proof using Hreq Hsound.
  intros Hs. unfold candidate. change (p_flags (at_topics t)) with (p_flags pb0). change (p_bf (at_topics t)) with (p_bf pb0).
  rewrite (qr_expired Hreq). cbn [andb]. destruct (qr_bf Hreq) as [-> [k Hwf]].
  destruct (sr_filter _ _ _ Hs) as (v & Ev & Hv & Hl & _). pose proof (Hsound s Hs) as Hm. rewrite Ev in *.
  destruct (Includes_received k bf v Hwf Hv Hl) as (b & Eb & _). rewrite Eb in *.
  exists b. split; [done|]. intros H. specialize (Hm H). congruence.
Qed.

Lemma match_topics_spec s :
  sub_ready seps (len bf) s ->
  exists b, DPS_MatchTopicList (Some (map Some topics)) (Some (map Some (s_topics s))) (Some seps) false (Some false) =
    Some (DPS_OK, Some b) /\ (b = true <-> sub_matches seps topics s).
Proof using Hreq.
  intros Hs. destruct (sr_topics _ _ _ Hs) as [Hne Hst]. destruct (qr_seps Hreq) as [Hw Hsne].
  destruct (qr_topics Hreq) as (Htn & Hpt & _).
  apply (List.Forall_impl _ (topic_ok_sub seps)) in Hst.
  destruct (MatchTopicList_spec seps Hw Hsne false topics (s_topics s) false Hpt Hst Htn Hne) as (b & E & Hb).
  exists b. split; [done|]. rewrite Hb. unfold sub_matches, topic_matches.
  split; apply List.Forall_impl; intros x; apply List.Exists_impl; [by intros ? [? _]|done].
Qed.

(** *** All the handlers *)

(** What the loop knows of the payload: nothing yet, or what it decrypted. *)
Definition payload_known (d : option (option (list Z))) (t : option (list (list Z))) : Prop :=
  d = None \/ d = Some (payload_arg data) /\ t = Some topics.

Lemma wp_payload d t subs h k e (Q : DPS_Status * option (list Z) -> DPS_Node -> Prop) :
  payload_known d t -> (forall k', Q (DPS_OK, payload_arg data) (st (Some topics) subs h k' e)) ->
  wp (match d with Some d => mret (DPS_OK, d) | None => DecryptAndParsePub req end) Q (st t subs h k e).
Proof using Hmem Hreq.
  intros [->|[-> ->]] HQ; [by apply wp_DecryptAndParsePub|]. wp_go. apply HQ.
Qed.

Definition subs_ready (subs : gmap ptr DPS_Subscription) (l : list ptr) : Prop :=
  Forall (fun sub => exists s, subs !! sub = Some s /\ sub_ready seps (len bf) s) l.

Lemma wp_call_handlers subs l : subs_ready subs l ->
  forall d t h k e (Q : DPS_Status * option ptr -> DPS_Node -> Prop),
  payload_known d t -> history_ready (p_pubId pb0) h ->
  (forall ts t' h' k', selected (sub_matches seps topics) subs l ts ->
     history_ready (p_pubId pb0) h' -> history_more h h' ->
     Q (DPS_OK, None) (st t' subs h' k' (rev (map (delivery subs) ts) ++ e))) ->
  wp (call_handlers req l d None) Q (st t subs h k e).
Proof using Hmem Hreq Hsound.
  induction l as [|sub l IH]; intros Hl d t h k e Q Hd Hh HQ; cbn [call_handlers].
  { wp_go. by apply (HQ []); [constructor| |]. }
  apply Forall_cons_iff in Hl as [(s & Es & Hs) Hl]. specialize (IH Hl).
  wp_go. eapply wp_handling_IncRef; [done..|]. wp_go. apply wp_handling_req. wp_go. rewrite (qr_pub Hreq).
  apply wp_handling_load. wp_go. eapply wp_handling_sub; [apply lookup_insert_eq|]. wp_go.
  destruct (candidate_spec s t Hs) as (c & Ec & Hc). eapply wp_lift; [exact Ec|]. wp_go.
  destruct (match_topics_spec s Hs) as (b & Eb & Hb).
  destruct c; cbn [negb]; wp_go; cycle 1.
  { eapply wp_handling_DecRef; [done..|]. wp_go. eapply IH; [done..|]. intros ts t' h' k' Hts.
    apply HQ. eapply selected_skip; [done| |done]. intros Hm. by specialize (Hc Hm). }
  eapply wp_payload; [done|]. intros k'. wp_go. ok. apply wp_handling_load. wp_go.
  eapply wp_lift; [exact Eb|]. wp_go. change (is_OK DPS_OK && default false (Some b)) with b.
  destruct b.
  - eapply wp_call_handler; [apply lookup_insert_eq|apply (sr_handler _ _ _ Hs)|done|]. intros h1 Hh1 Hm1. wp_go.
    eapply wp_handling_DecRef; [done..|]. wp_go. eapply IH; [by right|done|]. intros ts t' h' k2 Hts Hh' Hm'.
    specialize (HQ (sub :: ts) t' h' k2). cbn [map rev] in HQ. rewrite <- app_assoc in HQ.
    unfold delivery in HQ at 2. rewrite Es in HQ. unfold delivery at 2. rewrite lookup_insert_eq. apply HQ; [|done|by etrans].
    eapply selected_take; [done|by apply Hb|done].
  - wp_go. eapply wp_handling_DecRef; [done..|]. wp_go. eapply IH; [by right|done|]. intros ts t' h' k2 Hts.
    apply HQ. eapply selected_skip; [done| |done]. intros Hm. by apply Hb in Hm.
Qed.

Lemma wp_CallPubHandlers t k h e (Q : DPS_Status -> DPS_Node -> Prop) :
  subs_ready (n_subs n0) (n_subscriptions n0) -> history_ready (p_pubId pb0) h ->
  (forall ts h' k', selected (sub_matches seps topics) (n_subs n0) (n_subscriptions n0) ts ->
     history_ready (p_pubId pb0) h' -> history_more h h' ->
     Q DPS_OK (st None (n_subs n0) h' k' (rev (map (delivery (n_subs n0)) ts) ++ e))) ->
  wp (DPS_CallPubHandlers req) Q (st t (n_subs n0) h k e).
Proof using Hmem Hreq Hsound.
  intros Hl Hh HQ. unfold DPS_CallPubHandlers. wp_go. apply wp_handling_req. wp_go. rewrite (qr_pub Hreq).
  apply wp_handling_load. wp_go. change (p_bf (at_topics t)) with (p_bf pb0). destruct (qr_bf Hreq) as [-> _]. wp_go.
  eapply (wp_call_handlers (n_subs n0) (n_subscriptions n0)); [exact Hl|by left|done|]. intros ts t' h' k' Hts Hh' Hm. wp_go.
  unfold DPS_DestroyPublication. wp_go. unfold FreeTopics. apply wp_handling_update. wp_go. by apply HQ.
Qed.
End Handlers.
