(* ===== verification/ReceiveProofs.v ===== *)
(** * Receiving a publication ([src/pub.c])

    What [DPS_DecodePublication] does with a message in the clear of a publication that
    the node does not know yet. *)
From S2P Require Import Prelude Status Buffer Float Cbor CborProofs CborValues CborMap.
From S2P Require Import BitVec BitVecProofs BitVecSerial BitVecTheorems CountVec Topics TopicProofs TopicTheorems Uuid Addr History HistTheorems.
From S2P Require Import Node Remote RemoteProofs Sub SubMsg SubMsgProofs Pub Link SubDecode SubDecodeProofs.
From S2P Require Import Tls Keys Cose PubMsg PubRecv PubMsgProofs PubParseProofs DeliverProofs HandlerProofs.
From stdpp Require Import gmap.
#[local] Open Scope Z_scope.
#[local] Set Warnings "-clear-no-such-hyp".

(** ** States *)

(** The request changes under the node. *)
Lemma while_handling_reqs n0 p s f :
  set n_reqs f (while_handling n0 p s) = while_handling (n0 <| n_reqs := f (n_reqs n0) |>) p s.
Proof. by destruct n0, s. Qed.

Lemma while_handling_event n0 p pb subs h k e ev :
  (while_handling n0 p (mkHandling pb subs h k e)) <| n_events := ev :: n_events (while_handling n0 p (mkHandling pb subs h k e)) |> =
  while_handling n0 p (mkHandling pb subs h k (ev :: e)).
Proof. by destruct n0. Qed.

Lemma while_handling_publications n0 p s f :
  set n_publications f (while_handling n0 p s) = while_handling (n0 <| n_publications := f (n_publications n0) |>) p s.
Proof. by destruct n0, s. Qed.

Lemma while_handling_new n p pb k :
  set n_pubs (insert p pb) (n <| n_allocs := k |>) = while_handling n p (mkHandling pb (n_subs n) (n_history n) k (n_events n)).
Proof. by destruct n. Qed.

Lemma set_req_twice n req q1 q2 :
  let n1 := n <| n_reqs := <[req := q1]> (n_reqs n) |> in
  n1 <| n_reqs := <[req := q2]> (n_reqs n1) |> = n <| n_reqs := <[req := q2]> (n_reqs n) |>.
Proof. cbv zeta. by rewrite <- (insert_insert_eq (n_reqs n) req q2 q1). Qed.

Lemma topics_none pb : p_topics pb = None -> pb <| p_topics := None |> = pb.
Proof. destruct pb. by intros [= ->]. Qed.

(** The flags and the time to live of a publication that was received for the first time. *)
Definition received_flags (ttl : Z) : Z := if ttl =? 0 then 0 else PUB_FLAG_RETAINED.

Section Receive.
Context `{Env : Environment} `{Crypto : Cose}.
Context (Hmem : forall k, env_alloc k = true).
Context (nI : nat) (Hsize : bitLen env_config = 64 * Z.of_nat nI) (Hsmall : 64 * Z.of_nat nI <= 65535).

(** The filter on the wire. *)
Context (flags : Z) (l payload : list Z).
Context (Hl : length l = nI) (Hok : chunks_ok l) (Hflags : 0 <= flags < 4) (Hpayload : bv_payload flags l payload).
Context (Hshort : Z.of_nat (length payload) <= 64 * Z.of_nat nI / 8).
Definition filter_item : cbor := CArray [CInt flags; CInt (64 * Z.of_nat nI); CBytes payload].

Lemma filter_item_ok : cbor_ok filter_item.
Proof using Hsmall Hok Hflags Hpayload Hshort.
  clear Hl. unfold filter_item. rewrite cbor_ok_array. split; [cbn; lia|].
  repeat apply List.Forall_cons; [cbn; lia|cbn; lia| |done]. split; [Z.div_mod_to_equations; lia|].
  by eapply bv_payload_bytes.
Qed.

Lemma filter_item_wire : wire filter_item = bv_wire flags (64 * Z.of_nat nI) payload.
Proof using Hflags.
  clear Hl. unfold filter_item, bv_wire. cbn [wire length flat_map]. rewrite app_nil_r. by rewrite !cbor_int_pos by lia.
Qed.

Lemma Deserialize_filter :
  exists bf b, DPS_BitVectorDeserialize (fresh_bv (64 * Z.of_nat nI)) (DPS_RxBufferInit (wire filter_item) (length (wire filter_item))).2
    = Some (DPS_OK, bf, b) /\ bits bf = l /\ vec_ok nI bf.
Proof using Hsmall Hl Hok Hflags Hpayload Hshort.
  pose proof (wire_bytes _ filter_item_ok) as Hb. rewrite filter_item_wire in *.
  set (w := bv_wire flags (64 * Z.of_nat nI) payload) in *.
  assert (Z.of_nat (length w) < 2 ^ 32) as Hw.
  { unfold w, bv_wire. rewrite !length_app. pose proof (head_len1 CBOR_ARRAY 3 ltac:(lia)). pose proof (head_len1 CBOR_UINT flags ltac:(lia)).
    pose proof (head_len32 CBOR_UINT (64 * Z.of_nat nI) ltac:(lia)).
    pose proof (head_len32 CBOR_BYTES (Z.of_nat (length payload)) ltac:(Z.div_mod_to_equations; lia)). Z.div_mod_to_equations. lia. }
  destruct (rx_of_reading w Hb Hw) as [Hwf _ _ Er].
  destruct (Deserialize_received (rx_of w) nI flags l payload []) as (bf & E & Eb & W); [done..|by rewrite app_nil_r|].
  exists bf. eexists. unfold DPS_RxBufferInit. rewrite decide_False; [by split_and!; [exact E| |]|].
  unfold w, bv_wire, cbor_head. destruct (3 <? 24); cbn; lia.
Qed.

(** ** From the request on *)

Context (topics : list (list Z)) (data aad : list Z).
Let bytes := map_wire (payload_entries topics data).

(** What is asked of the node and of the message. *)
Record delivery_ready (n : DPS_Node) : Prop := {
  dr_seps : no_wild (n_separators n) /\ n_separators n <> [];
  dr_topics : topics <> [] /\ Forall (pub_topic (n_separators n)) topics /\ cbor_ok (topics_item topics);
  dr_data : cbor_ok (CBytes data);
  dr_short : Z.of_nat (length bytes) < 2 ^ 32;
  dr_subs : Forall (fun sub => exists s, n_subs n !! sub = Some s /\ sub_ready (n_separators n) (64 * Z.of_nat nI) s)
              (n_subscriptions n);
  dr_sound : forall s, sub_ready (n_separators n) (64 * Z.of_nat nI) s -> sub_matches (n_separators n) topics s ->
    forall v bf, s_bf s = Some v -> vec_ok nI bf -> bits bf = l -> DPS_BitVectorIncludes (Some bf) (Some v) = Some true
}.

Lemma delivery_ready_reqs n r : delivery_ready n -> delivery_ready (n <| n_reqs := r |>).
Proof. by intros []. Qed.

(** A publication when its message is handled, and after. *)
Record new_pub_ready (pb : DPS_Publication) : Prop := {
  np_flags : p_flags pb = 0;
  np_topics : p_topics pb = None;
  np_bf : p_bf pb = Some (fresh_bv (64 * Z.of_nat nI));
  np_queue : p_sendQueue pb = [];
  np_addr : addr_ok (p_senderAddr pb)
}.

Definition received_pub (pb : DPS_Publication) (ttl : Z) (bf : DPS_BitVector) : DPS_Publication :=
  pb <| p_flags := received_flags ttl |> <| p_ttl := ttl |> <| p_bf := Some bf |>.
Definition received_req (now ttl : Z) (q : DPS_PublishRequest) : DPS_PublishRequest :=
  q <| q_ttl := ttl |> <| q_expires := u64 (now + DPS_SECS_TO_MS ttl) |>.

Lemma wp_receive_ttl n p pb ttl (Q : DPS_Status * Z -> DPS_Node -> Prop) subs h k e :
  p_flags pb = 0 -> 0 <= ttl ->
  Q (DPS_OK, ttl) (while_handling n p (mkHandling (pb <| p_flags := received_flags ttl |> <| p_ttl := ttl |>) subs h k e)) ->
  wp (receive_ttl p ttl) Q (while_handling n p (mkHandling pb subs h k e)).
Proof.
  clear. intros Hf Ht HQ. unfold receive_ttl. wp_go. apply wp_handling_load. wp_go. rewrite Hf.
  rewrite (proj2 (Z.ltb_ge _ _)) by lia. cbn [andb]. unfold received_flags in HQ. wp_go.
  destruct (ttl =? 0); wp_go; apply wp_handling_update; wp_go; exact HQ.
Qed.

(** The publication with its flags, time to live and filter is one whose handlers can be called. *)
Lemma received_ready n p req q pb ttl bf :
  delivery_ready n -> new_pub_ready pb -> n_reqs n !! req = Some q -> q_pub q = p ->
  q_bufs q !! 0%nat = Some aad -> q_bufs q !! 1%nat = Some bytes -> vec_ok nI bf ->
  request_ready n p req q (received_pub pb ttl bf) bf topics data aad.
Proof.
  clear Hsize. intros [] [] ? ? ? ? Hbf.
  assert (forall f, f = PUB_FLAG_LOCAL \/ f = PUB_FLAG_EXPIRED -> has_flag (received_flags ttl) f = false) as Hf.
  { intros f Hf. unfold received_flags. destruct (ttl =? 0); by destruct Hf as [-> | ->]. }
  split; try done; [apply Hf; by left|apply Hf; by right|]. split; [done|by eexists].
Qed.

Lemma wp_handling_req_update n p req q f s (Q : unit -> DPS_Node -> Prop) :
  n_reqs n !! req = Some q ->
  Q () (while_handling (n <| n_reqs := <[req := f q]> (n_reqs n) |>) p s) ->
  wp (update n_reqs req f) Q (while_handling n p s).
Proof. clear. intros E HQ. eapply wp_update; [exact E|]. by rewrite while_handling_reqs. Qed.

(** The pair of the publication and its request when the message was handled. *)
Definition handled (n : DPS_Node) (p req : ptr) (pb : DPS_Publication) (q : DPS_PublishRequest) (ttl : Z) (bf : DPS_BitVector)
    (h : DPS_History) (k : nat) (e : list Event) : DPS_Node :=
  let q := received_req (n_now n) ttl q in
  while_handling (n <| n_reqs := <[req := q <| q_refCount := q_refCount q + 1 |>]> (n_reqs n) |>) p
    (mkHandling ((received_pub pb ttl bf) <| p_sendQueue := [req] |>) (n_subs n) h k e).

(** The end: the history, and the request goes to the queue. *)
Lemma wp_queue_request n p req q pb ttl bf h k e (Q : DPS_Status * Z -> DPS_Node -> Prop) :
  delivery_ready n -> new_pub_ready pb -> n_reqs n !! req = Some q -> q_pub q = p ->
  q_bufs q !! 0%nat = Some aad -> q_bufs q !! 1%nat = Some bytes -> vec_ok nI bf -> history_ready (p_pubId pb) h ->
  (forall h' k', history_ready (p_pubId pb) h' -> history_more h h' -> history_has (p_pubId pb) (q_sequenceNum q) h' ->
     Q (DPS_OK, ttl) (while_handling (n <| n_reqs := <[req := q <| q_refCount := q_refCount q + 1 |>]> (n_reqs n) |>) p
       (mkHandling ((received_pub pb ttl bf) <| p_sendQueue := [req] |>) (n_subs n) h' k' (EvAsyncSend pubsAsync :: e)))) ->
  wp (UpdatePubHistory req) (fun _ => wp (
      _ ← update n_pubs p (fun p => p <| p_sendQueue := p_sendQueue p ++ [req] |>);
      _ ← update n_reqs req (fun q => q <| q_refCount := q_refCount q + 1 |>);
      _ ← emit (EvAsyncSend pubsAsync);
      mret (DPS_OK, ttl)) Q) (while_handling n p (mkHandling (received_pub pb ttl bf) (n_subs n) h k e)).
Proof using Hmem.
  intros Hn Hp Hq Hqp Hq0 Hq1 Wb Hh HQ.
  rewrite <- (topics_none (received_pub pb ttl bf) (np_topics _ Hp)).
  pose proof (received_ready n p req q pb ttl bf Hn Hp Hq Hqp Hq0 Hq1 Wb) as Hreq.
  eapply (wp_handling_UpdatePubHistory Hmem n p req q (received_pub pb ttl bf) bf topics data aad Hreq); [done|].
  intros h' Hr Hm Hh'. wp_go. rewrite (topics_none (received_pub pb ttl bf) (np_topics _ Hp)). apply wp_handling_update. wp_go.
  change (p_sendQueue (received_pub pb ttl bf)) with (p_sendQueue pb). rewrite (np_queue _ Hp). cbn [app].
  eapply wp_handling_req_update; [exact Hq|]. wp_go. rewrite while_handling_event. by apply HQ.
Qed.

Lemma wp_handle_publication n p req q pb ttl h0 k0 e0 (Q : DPS_Status * Z -> DPS_Node -> Prop) :
  delivery_ready n -> new_pub_ready pb -> n_reqs n !! req = Some q -> q_pub q = p ->
  q_bufs q !! 0%nat = Some aad -> q_bufs q !! 1%nat = Some bytes -> 0 <= ttl -> history_ready (p_pubId pb) h0 ->
  (forall bf ts h k, vec_ok nI bf -> bits bf = l ->
     selected (sub_matches (n_separators n) topics) (n_subs n) (n_subscriptions n) ts ->
     history_ready (p_pubId pb) h -> history_more h0 h -> history_has (p_pubId pb) (q_sequenceNum q) h ->
     Q (DPS_OK, ttl) (handled n p req pb q ttl bf h k
       (EvAsyncSend pubsAsync :: rev (map (delivery (received_pub pb ttl bf) topics data (n_subs n)) ts) ++ e0))) ->
  wp (handle_publication p req ttl (wire filter_item)) Q (while_handling n p (mkHandling pb (n_subs n) h0 k0 e0)).
Proof using Hmem Hsmall Hl Hok Hflags Hpayload Hshort.
  intros Hn Hp Hq Hqp Hq0 Hq1 Ht Hh HQ. unfold handle_publication. wp_go.
  apply wp_receive_ttl; [apply Hp|done|]. wp_go. ok. apply wp_handling_load. wp_go.
  eapply wp_lift; [apply (np_bf _ Hp)|]. wp_go. destruct Deserialize_filter as (bf & b & Ed & Eb & Wb).
  eapply wp_lift; [exact Ed|]. wp_go. apply wp_handling_update. wp_go. ok.
  change (pb <| p_flags := received_flags ttl |> <| p_ttl := ttl |> <| p_bf := Some bf |>) with (received_pub pb ttl bf).
  rewrite <- (topics_none (received_pub pb ttl bf) (np_topics _ Hp)).
  pose proof (received_ready n p req q pb ttl bf Hn Hp Hq Hqp Hq0 Hq1 Wb) as Hreq.
  pose proof (vec_ok_len _ _ Wb) as Hlen.
  eapply (wp_CallPubHandlers Hmem n p req q (received_pub pb ttl bf) bf topics data aad Hreq).
  { intros s Hs Hm. rewrite Hlen in Hs. destruct (sr_filter _ _ _ Hs) as (v & Ev & _). rewrite Ev. by eapply (dr_sound _ Hn). }
  { unfold subs_ready. rewrite Hlen. apply Hn. }
  { done. }
  intros ts h1 k1 Hts Hh1 Hm1. ok. wp_go. eapply wp_handling_req_update; [exact Hq|]. wp_go.
  rewrite (topics_none (received_pub pb ttl bf) (np_topics _ Hp)).
  match goal with |- wp _ _ (while_handling ?n1 _ _) => eapply (wp_queue_request n1) end; [by apply delivery_ready_reqs|exact Hp|apply lookup_insert_eq|done..|]. intros h2 k2 Hr2 Hm2 Hh2. wp_go.
  specialize (HQ bf ts h2 k2 Wb Eb Hts Hr2 ltac:(by etrans) Hh2). unfold handled in HQ. 
  rewrite set_req_twice. exact HQ.
Qed.

(** ** A publication that the node does not know *)

(** None of its publications has this identifier, and the history does not have it with
    this sequence number. *)
Record unknown (pubId : DPS_UUID) (sequenceNum : Z) (n : DPS_Node) : Prop := {
  uk_pubs : Forall (fun p => exists pb, n_pubs n !! p = Some pb /\ DPS_UUIDCompare (p_pubId pb) pubId <> 0) (n_publications n);
  uk_history : history_ready pubId (n_history n) /\ ~ history_has pubId sequenceNum (n_history n)
}.

Lemma wp_find_pub_none matches L n (Q : option ptr -> DPS_Node -> Prop) :
  Forall (fun p => exists pb, n_pubs n !! p = Some pb /\ matches pb = false) L -> Q None n -> wp (find_pub matches L) Q n.
Proof.
  clear. induction 1 as [|p L (pb & E & Hm) _ IH]; intros HQ; cbn [find_pub]; wp_go; [done|].
  eapply wp_load; [exact E|]. wp_go. rewrite Hm. by apply IH.
Qed.

Lemma unknown_pubs pubId sequenceNum n (f : DPS_Publication -> bool) :
  unknown pubId sequenceNum n ->
  Forall (fun p => exists pb, n_pubs n !! p = Some pb /\ f pb && (DPS_UUIDCompare (p_pubId pb) pubId =? 0) = false)
    (n_publications n).
Proof.
  clear. intros [H _]. eapply List.Forall_impl; [|exact H]. intros p (pb & E & Hc). exists pb. split; [done|].
  by rewrite (proj2 (Z.eqb_neq _ _) Hc), andb_false_r.
Qed.

Lemma unknown_not_stale pubId sequenceNum n :
  unknown pubId sequenceNum n -> DPS_PublicationIsStale (n_history n) pubId sequenceNum = Some false.
Proof.
  clear. intros [_ [(A & HA & Hs & _) Hn]].
  pose proof (hist_step_ok (n_history n) A (OpStale pubId sequenceNum) HA I) as H.
  rewrite (HistTheorems.map_size _ A HA) in H.
  assert (Z.of_nat (size A) <= Z.of_nat (size (delete pubId A)) + 1) as Hsz.
  { destruct (A !! pubId) as [d|] eqn:E; [|rewrite delete_id by done; lia].
    rewrite (map_size_delete_Some pubId A) by eauto. lia. }
  specialize (H ltac:(lia)). unfold step_ok in H. cbn [spec_step hist_step] in H.
  destruct H as (h' & E & _). destruct (DPS_PublicationIsStale _ _ _) as [b|]; [|done]. cbn in E. injection E as Eb _.
  f_equal. rewrite Eb. destruct (A !! pubId) as [d|] eqn:Ed; [|done]. apply Z.leb_gt.
  destruct (Z.lt_ge_cases (ph_sn d) sequenceNum) as [|Hge]; [done|]. destruct Hn. by exists A, d.
Qed.

Lemma wp_alloc_true n (Q : bool -> DPS_Node -> Prop) : Q true (n <| n_allocs := S (n_allocs n) |>) -> wp alloc_ok Q n.
Proof using Hmem. intros H. unfold wp, alloc_ok. by rewrite Hmem. Qed.

Lemma wp_handling_BitVectorAlloc n p pb subs h k e (Q : option DPS_BitVector -> DPS_Node -> Prop) :
  Q (Some (fresh_bv (64 * Z.of_nat nI))) (while_handling n p (mkHandling pb subs h (S k) e)) ->
  wp BitVectorAlloc Q (while_handling n p (mkHandling pb subs h k e)).
Proof using Hmem Hsize.
  intros HQ. unfold BitVectorAlloc. wp_go. apply wp_handling_alloc; [done|].
  eapply wp_lift; [apply BitVectorAlloc_fresh; by rewrite Hsize, Z.mul_comm, Z.mod_mul|]. by rewrite Hsize.
Qed.

Lemma wp_find_publication pubId sequenceNum ttl n (Q : DPS_Status * option ptr -> DPS_Node -> Prop) :
  unknown pubId sequenceNum n -> 0 <= ttl ->
  (forall p k, n_pubs n !! p = None ->
     Q (DPS_OK, Some p) (while_handling (n <| n_publications := p :: n_publications n |>) p
       (mkHandling (zero_pub <| p_refCount := 1 |> <| p_bf := Some (fresh_bv (64 * Z.of_nat nI)) |> <| p_pubId := pubId |>)
          (n_subs n) (n_history n) k (n_events n)))) ->
  wp (find_publication pubId sequenceNum ttl) Q n.
Proof using Hmem Hsize.
  intros Hu Ht HQ. unfold find_publication, LookupRetained, LookupPublication. wp_go.
  apply wp_find_pub_none; [by eapply unknown_pubs|]. wp_go. rewrite (proj2 (Z.ltb_ge _ _)) by done. wp_go.
  eapply wp_lift; [by apply unknown_not_stale|]. wp_go. apply wp_find_pub_none; [by eapply unknown_pubs|]. wp_go.
  unfold new_publication. wp_go. apply wp_alloc_true. cbn [negb]. wp_go. apply wp_new. intros p Hp. cbn [n_pubs] in Hp.
  rewrite while_handling_new. wp_go. unfold DPS_PublicationIncRef. apply wp_handling_update. wp_go.
  apply wp_handling_BitVectorAlloc. wp_go. apply wp_handling_update. wp_go.
  match goal with |- Q _ ?n' => replace n' with (set n_publications (cons p)
    (while_handling n p (mkHandling (zero_pub <| p_refCount := 1 |> <| p_bf := Some (fresh_bv (64 * Z.of_nat nI)) |>
       <| p_pubId := pubId |>) (n_subs n) (n_history n) (S (S (n_allocs n))) (n_events n)))) by reflexivity end.
  rewrite while_handling_publications. by apply HQ.
Qed.

(** ** The message *)

Definition new_request (p : ptr) (sequenceNum hopCount : Z) (protected rest : list Z) : DPS_PublishRequest :=
  mkReq p None 0 0 (u16 (hopCount + 1)) DPS_ERR_NO_ROUTE 0 sequenceNum true [protected; rest; []; []].

Lemma wp_receive_request p sequenceNum hopCount protected rest n pb subs h k e (Q : option ptr -> DPS_Node -> Prop) :
  (forall req k, n_reqs n !! req = None ->
     Q (Some req) (while_handling (n <| n_reqs := <[req := new_request p sequenceNum hopCount protected rest]> (n_reqs n) |>) p
       (mkHandling pb subs h k (EvRxIncRef :: e)))) ->
  wp (receive_request p sequenceNum hopCount protected rest) Q (while_handling n p (mkHandling pb subs h k e)).
Proof using Hmem.
  intros HQ. unfold receive_request, DPS_CreatePublishRequest. wp_go. apply wp_handling_alloc; [done|]. wp_go. cbn [negb]. wp_go.
  apply wp_new. intros req Hr. rewrite while_handling_reqs. wp_go.
  eapply wp_handling_req_update; [apply lookup_insert_eq|]. wp_go. rewrite while_handling_event.
  rewrite set_req_twice. by apply HQ.
Qed.

Context (addr : DPS_NodeAddress) (ttl hopCount baseTTL : Z) (pubId : DPS_UUID) (sequenceNum : Z) (ackRequested : bool).
Let protected := map_wire (protected_entries baseTTL pubId sequenceNum ackRequested filter_item).

(** The publication and its request when the node has handled the message. *)
Definition accepted_pub (addr : DPS_NodeAddress) (bf : DPS_BitVector) : DPS_Publication :=
  zero_pub <| p_bf := Some bf |> <| p_pubId := pubId |> <| p_sequenceNum := sequenceNum |> <| p_ackRequested := ackRequested |>
    <| p_senderAddr := addr |> <| p_flags := received_flags ttl |> <| p_ttl := ttl |>.
Definition accepted_req (now : Z) (p : ptr) : DPS_PublishRequest :=
  received_req now ttl (new_request p sequenceNum hopCount protected bytes) <| q_refCount := 1 |>.

(** What the application is told for a subscription. *)
Definition deliver_to (subs : gmap ptr DPS_Subscription) (addr : DPS_NodeAddress) (bf : DPS_BitVector) (sub : ptr) : Event :=
  EvPublication (default 0 (s ← subs !! sub; s_handler s)) sub
    ((accepted_pub addr bf) <| p_refCount := 1 |> <| p_topics := Some topics |>) (payload_arg data).

(** The state of the node after it. *)
Definition accepted (n : DPS_Node) (from : DPS_NodeAddress) (n' : DPS_Node) : Prop :=
  exists p req bf ts h k,
    n_pubs n !! p = None /\ n_reqs n !! req = None /\ bits bf = l /\ vec_ok nI bf /\
    selected (sub_matches (n_separators n) topics) (n_subs n) (n_subscriptions n) ts /\
    history_ready pubId h /\ history_more (n_history n) h /\ history_has pubId sequenceNum h /\
    n' = n <| n_publications := p :: n_publications n |> <| n_reqs := <[req := accepted_req (n_now n) p]> (n_reqs n) |>
           <| n_pubs := <[p := (accepted_pub from bf) <| p_sendQueue := [req] |>]> (n_pubs n) |> <| n_history := h |>
           <| n_allocs := k |>
           <| n_events := EvAsyncSend pubsAsync :: rev (map (deliver_to (n_subs n) from bf) ts) ++ EvRxIncRef :: n_events n |>.

Lemma wp_DecodePublication_new mem eod e e' b multicast n (Q : DPS_Status -> DPS_Node -> Prop) :
  aad = protected -> fields_ok addr ttl hopCount baseTTL pubId sequenceNum filter_item ->
  reading mem eod b (map_wire (header_entries addr ttl hopCount) ++ protected ++ bytes) ->
  sender_endpoint addr e = Some e' -> addr_ok (ep_addr e') -> 0 <= ttl ->
  delivery_ready n -> unknown pubId sequenceNum n ->
  (forall n', accepted n (ep_addr e') n' -> Q DPS_OK n') ->
  wp (DPS_DecodePublication e b multicast) Q n.
Proof using Hmem Hsize Hsmall Hl Hok Hflags Hpayload Hshort.
  intros Haad Hf Hb He Ha Ht Hn Hu HQ. unfold DPS_DecodePublication. wp_go.
  eapply (wp_parse_publication addr ttl hopCount baseTTL pubId sequenceNum ackRequested filter_item bytes mem eod b); [done|exact Hb|].
  intros f b' Hb' Hpf. wp_go. ok. eapply run_wp; [erewrite sender_address_spec by done; by rewrite He|]. wp_go.
  destruct Hpf as [_ E1 E2 E3 E4 E5 E6].
  eapply wp_lift; [exact E3|]. wp_go. eapply wp_lift; [exact E4|]. wp_go. eapply wp_lift; [exact E5|]. wp_go.
  eapply wp_lift; [exact E1|]. wp_go. eapply wp_lift; [exact E2|]. wp_go.
  apply wp_find_publication; [done..|]. intros p k Hp. wp_go. ok. apply wp_handling_update. wp_go.
  apply wp_receive_request. intros req k2 Hreq. wp_go. eapply wp_lift; [exact E6|]. wp_go.
  rewrite (rd_rest _ _ _ _ Hb').
  match goal with |- wp _ _ (while_handling ?n2 p (mkHandling ?pb _ _ _ _)) =>
    change (n_subs n) with (n_subs n2); change (n_history n) with (n_history n2);
    eapply (wp_handle_publication n2 p req _ pb ttl); [by destruct Hn|by split|apply lookup_insert_eq|done|by rewrite Haad|done|done|apply Hu|] end.
  intros bf ts h k3 Wb Eb Hts Hr Hm Hh. wp_go. ok. unfold handled, DPS_PublicationDecRef. wp_go.
  apply wp_handling_load. wp_go. apply wp_assert; [done|]. wp_go. apply wp_handling_update. wp_go.
  assert (forall b, has_flag (received_flags ttl) PUB_FLAG_WAS_FREED && b = false) as Hfl.
  { intros b0. unfold received_flags. by destruct (ttl =? 0). }
  rewrite andb_comm, Hfl. wp_go. 
  apply HQ. exists p, req, bf, ts, h, k3. split_and!; try done.
  rewrite set_req_twice. reflexivity.
Qed.
End Receive.

(** ** A publication that the node knows *)

Section Stale.
Context `{Env : Environment} `{Crypto : Cose}.
Context (Hmem : forall k, env_alloc k = true).

(** The history has this sequence number, and so do the retained publications. *)
Record known (pubId : DPS_UUID) (sequenceNum : Z) (n : DPS_Node) : Prop := {
  kn_pubs : Forall (fun p => exists pb, n_pubs n !! p = Some pb /\
      (DPS_UUIDCompare (p_pubId pb) pubId = 0 -> has_flag (p_flags pb) PUB_FLAG_RETAINED = true ->
       sequenceNum <= p_sequenceNum pb)) (n_publications n);
  kn_ready : history_ready pubId (n_history n);
  kn_history : history_has pubId sequenceNum (n_history n)
}.

Lemma wp_find_pub matches L n (Q : option ptr -> DPS_Node -> Prop) (R : DPS_Publication -> Prop) :
  Forall (fun p => exists pb, n_pubs n !! p = Some pb /\ R pb) L -> Q None n ->
  (forall p pb, n_pubs n !! p = Some pb -> R pb -> matches pb = true -> Q (Some p) n) -> wp (find_pub matches L) Q n.
Proof.
  induction 1 as [|p L (pb & E & Hm) _ IH]; intros HN HQ; cbn [find_pub]; wp_go; [done|].
  eapply wp_load; [exact E|]. wp_go. destruct (matches pb) eqn:Em; [wp_go; by eapply HQ|by apply IH].
Qed.

Lemma known_stale pubId sequenceNum n :
  known pubId sequenceNum n -> DPS_PublicationIsStale (n_history n) pubId sequenceNum = Some true.
Proof.
  intros [_ (A & HA & Hs & _) (B & d & HB & Hd & Hle)]. rewrite (represents_unique _ B A HB HA) in Hd.
  pose proof (hist_step_ok (n_history n) A (OpStale pubId sequenceNum) HA I) as H.
  rewrite (HistTheorems.map_size _ A HA) in H. rewrite (map_size_delete_Some pubId A) in Hs by eauto.
  specialize (H ltac:(lia)). unfold step_ok in H. cbn [spec_step hist_step] in H. rewrite Hd in H.
  destruct H as (h' & E & _). destruct (DPS_PublicationIsStale _ _ _) as [b|]; [|done]. cbn in E. injection E as Eb _.
  f_equal. rewrite Eb. by apply Z.leb_le.
Qed.

Lemma wp_find_publication_stale pubId sequenceNum ttl n (Q : DPS_Status * option ptr -> DPS_Node -> Prop) :
  known pubId sequenceNum n -> Q (DPS_ERR_STALE, None) n -> wp (find_publication pubId sequenceNum ttl) Q n.
Proof.
  intros Hk HQ. unfold find_publication, LookupRetained. wp_go. eapply wp_find_pub; [apply Hk|..].
  - wp_go. destruct (ttl <? 0); wp_go; [done|]. eapply wp_lift; [by apply known_stale|]. by wp_go.
  - intros p pb E HR [Hf Hc]%andb_prop. wp_go. eapply wp_load; [exact E|]. wp_go.
    rewrite (proj2 (Z.leb_le _ _)); [by wp_go|]. apply HR; [by apply Z.eqb_eq|done].
Qed.

Lemma wp_update_history pubId sn ack ttl hops addr n (Q : DPS_Status -> DPS_Node -> Prop) :
  history_ready pubId (n_history n) -> addr_ok addr ->
  (forall h k, history_ready pubId h -> history_more (n_history n) h ->
     Q DPS_OK (n <| n_history := h |> <| n_allocs := k |>)) ->
  wp (update_history pubId sn ack ttl hops addr) Q n.
Proof using Hmem.
  intros Hh Ha HQ. unfold update_history. wp_go. apply wp_alloc_true; [done|]. wp_go. apply wp_alloc_true; [done|]. wp_go.
  edestruct (update_ready (n_history n) (fresh (dom (cells (n_history n))))) as (h' & E & H1 & H2 & H3);
    [exact Hh|apply not_elem_of_dom, is_fresh|exact Ha|].
  eapply wp_lift; [exact E|]. wp_go. exact (HQ h' _ H1 H2).
Qed.

(** A message for it changes nothing but the record in the history. *)
Lemma wp_DecodePublication_stale addr ttl hopCount baseTTL pubId sequenceNum ackRequested filter rest mem eod e e' b multicast n
    (Q : DPS_Status -> DPS_Node -> Prop) :
  fields_ok addr ttl hopCount baseTTL pubId sequenceNum filter ->
  reading mem eod b (map_wire (header_entries addr ttl hopCount) ++
    map_wire (protected_entries baseTTL pubId sequenceNum ackRequested filter) ++ rest) ->
  sender_endpoint addr e = Some e' -> addr_ok (ep_addr e') -> known pubId sequenceNum n ->
  (forall h k, history_ready pubId h -> history_more (n_history n) h ->
     Q DPS_ERR_STALE (n <| n_history := h |> <| n_allocs := k |>)) ->
  wp (DPS_DecodePublication e b multicast) Q n.
Proof using Hmem.
  intros Hf Hb He Ha Hk HQ. unfold DPS_DecodePublication. wp_go.
  eapply (wp_parse_publication addr ttl hopCount baseTTL pubId sequenceNum ackRequested filter rest mem eod b); [done|exact Hb|].
  intros f b' Hb' Hpf. wp_go. ok. eapply run_wp; [erewrite sender_address_spec by done; by rewrite He|]. wp_go.
  destruct Hpf as [_ E1 E2 E3 E4 E5 E6].
  eapply wp_lift; [exact E3|]. wp_go. eapply wp_lift; [exact E4|]. wp_go. eapply wp_lift; [exact E5|]. wp_go.
  eapply wp_lift; [exact E1|]. wp_go. eapply wp_lift; [exact E2|]. wp_go.
  apply wp_find_publication_stale; [done|]. wp_go. unfold drop_publication. wp_go.
  apply wp_update_history; [apply Hk|done|]. intros h k Hr Hm. wp_go. by apply HQ.
Qed.
End Stale.
