(* ===== verification/DeliverTheorems.v ===== *)
(** * Delivery of publications ([src/pub.c])

    A message with a publication that a node does not know is given to the subscriptions
    whose topics match and queued to be forwarded; one that it knows is dropped. *)
From S2P Require Import Prelude Status Buffer Float Cbor CborProofs CborValues CborMap.
From S2P Require Import BitVec BitVecProofs BitVecSerial BitVecTheorems CountVec Topics TopicProofs TopicSound TopicTheorems.
From S2P Require Import Uuid Addr History HistTheorems Node Remote RemoteProofs Sub SubMsg SubMsgProofs Pub Link SubDecode SubDecodeProofs.
From S2P Require Import Tls TlsLaws Keys Cose PubMsg PubRecv PubMsgProofs PubParseProofs DeliverProofs HandlerProofs ReceiveProofs NodeTheorems.
From stdpp Require Import gmap.
#[local] Open Scope Z_scope.
#[local] Set Warnings "-clear-no-such-hyp".

(** The memory that [DPS_AddTopic] is given does not matter. *)
Lemma add_topics_malloc md config m1 m2 seps t topics :
  (forall d, Forall is_byte (md d)) -> 1 <= numHashes config <= MAX_HASHES -> no_wild seps -> malloc_ok m1 -> malloc_ok m2 ->
  Forall (topic_ok seps t) topics -> forall bf, bv_wf bf -> 0 < len bf ->
  TopicTheorems.add_topics md config m1 seps t bf topics = TopicTheorems.add_topics md config m2 seps t bf topics.
Proof.
  intros Hmd Hc Hs H1 H2. induction 1 as [|x topics Hx Ht IH]; intros bf Hw Hl; [done|].
  cbn [TopicTheorems.add_topics].
  destruct (AddTopic_grows md config m1 seps Hmd Hc Hs H1 t x bf Hx Hw Hl) as (b1 & xs & -> & (w1 & Hw1 & ->) & I1 & W1 & L1 & _).
  destruct (AddTopic_grows md config m2 seps Hmd Hc Hs H2 t x bf Hx Hw Hl) as (b2 & ys & -> & (w2 & Hw2 & ->) & I2 & _).
  rewrite (first_wild_unique x w2 w1 Hw2 Hw1) in I2. rewrite I1 in I2. injection I2 as <-. cbn [mbind option_bind].
  apply IH; [done|lia].
Qed.

Section Deliver.
Context `{Env : Environment} `{Crypto : Cose}.

(** The hash function gives bytes, and a filter fits in a message. *)
Record hashing_ok (nI : nat) : Prop := {
  ho_md : forall d, Forall is_byte (env_md d);
  ho_hashes : 1 <= numHashes env_config <= MAX_HASHES;
  ho_size : bitLen env_config = 64 * Z.of_nat nI;
  ho_small : 0 < 64 * Z.of_nat nI <= 65535
}.

(** The separators and the subscriptions of the node. *)
Record listening (n : DPS_Node) : Prop := {
  ls_seps : no_wild (n_separators n) /\ n_separators n <> [];
  ls_subs : Forall (fun sub => exists s, n_subs n !! sub = Some s /\ sub_ready (n_separators n) (bitLen env_config) s)
              (n_subscriptions n)
}.

(** What a publisher puts in a message: the filter of its topics, encoded with these
    flags, the topics and the data. *)
Record published (seps : list Z) (topics : list (list Z)) (data : list Z) (pf : DPS_BitVector) (flags : Z) (payload : list Z)
  : Prop := {
  pd_topics : topics <> [] /\ Forall (topic_ok seps DPS_PubTopic) topics /\ cbor_ok (topics_item topics);
  pd_filter : built_filter seps DPS_PubTopic topics pf;
  pd_flags : 0 <= flags < 4;
  pd_payload : bv_payload flags (bits pf) payload /\ Z.of_nat (length payload) <= bitLen env_config / 8;
  pd_data : cbor_ok (CBytes data) /\ Z.of_nat (length (map_wire (payload_entries topics data))) < 2 ^ 32
}.

Lemma fresh_filter_wf nI : hashing_ok nI -> bv_wf (fresh_bv (bitLen env_config)).
Proof. intros [_ _ -> H]. apply fresh_bv_wf; [by rewrite Z.mul_comm, Z.mod_mul|lia]. Qed.

Lemma built_filter_wf nI seps t topics v :
  hashing_ok nI -> no_wild seps -> Forall (topic_ok seps t) topics -> built_filter seps t topics v ->
  bv_wf v /\ length (bits v) = nI.
Proof.
  intros H Hs Ht (malloc & Hm & E). pose proof (fresh_filter_wf nI H) as Hw.
  destruct (add_topics_grows env_md env_config malloc seps (ho_md _ H) (ho_hashes _ H) Hs Hm t topics Ht
    (fresh_bv (bitLen env_config)) Hw) as (v' & E' & Hv & Hl & _); [cbn; rewrite (ho_size _ H); apply (ho_small _ H)|].
  rewrite E in E'. injection E' as <-. split; [done|]. pose proof (bv_len _ Hv) as Hb. cbn in Hl. rewrite (ho_size _ H) in Hl. lia.
Qed.

(** A subscription that matches has its filter in the one of the message. *)
Lemma built_filter_sub nI seps topics subs pf v :
  hashing_ok nI -> no_wild seps -> Forall (topic_ok seps DPS_PubTopic) topics -> Forall (topic_ok seps DPS_SubTopic) subs ->
  Forall (fun sub => Exists (fun pub => topics_match seps pub sub) topics) subs ->
  built_filter seps DPS_PubTopic topics pf -> built_filter seps DPS_SubTopic subs v -> bv_sub v pf.
Proof.
  intros H Hs Ht Hst Hm Hpf Hv. pose proof (fresh_filter_wf nI H) as Hw.
  assert (0 < len (fresh_bv (bitLen env_config))) as Hl0 by (cbn; rewrite (ho_size _ H); apply (ho_small _ H)).
  destruct (built_filter_wf nI seps _ _ _ H Hs Ht Hpf) as [Wp Lp].
  destruct Hpf as (m1 & Hm1 & E1), Hv as (m2 & Hm2 & E2).
  set (fresh := fresh_bv (bitLen env_config)) in *.
  rewrite (add_topics_malloc env_md env_config m2 m1 seps DPS_SubTopic subs (ho_md _ H) (ho_hashes _ H) Hs Hm2 Hm1 Hst fresh Hw Hl0) in E2.
  apply (add_topics_sound _ _ m1 _ (ho_md _ H) (ho_hashes _ H) Hs Hm1 topics subs fresh pf Ht Hst Hm Hw Hl0 E1
    fresh v Hw eq_refl); [|done].
  apply zeros_sub. rewrite Lp. cbn. rewrite (ho_size _ H), Z.mul_comm, Z.div_mul by done. lia.
Qed.

Lemma built_filter_nonempty nI seps topics pf :
  hashing_ok nI -> no_wild seps -> topics <> [] -> Forall (topic_ok seps DPS_PubTopic) topics ->
  built_filter seps DPS_PubTopic topics pf -> chunks_count (bits pf) <> 0.
Proof.
  intros H Hs Hne Ht (m & Hm & E). pose proof (fresh_filter_wf nI H) as Hw.
  by apply (add_topics_nonempty _ _ m _ (ho_md _ H) (ho_hashes _ H) Hs Hm topics (fresh_bv (bitLen env_config)) pf);
    [..|cbn; rewrite (ho_size _ H); apply (ho_small _ H)|].
Qed.

Lemma built_filter_sound nI seps topics subs pf v bf :
  hashing_ok nI -> no_wild seps -> topics <> [] -> Forall (topic_ok seps DPS_PubTopic) topics ->
  Forall (topic_ok seps DPS_SubTopic) subs ->
  Forall (fun sub => Exists (fun pub => topics_match seps pub sub) topics) subs ->
  built_filter seps DPS_PubTopic topics pf -> built_filter seps DPS_SubTopic subs v ->
  vec_ok nI bf -> bits bf = bits pf -> DPS_BitVectorIncludes (Some bf) (Some v) = Some true.
Proof.
  intros H Hs Hne Ht Hst Hm Hpf Hv Hbf Eb. destruct (built_filter_wf nI seps _ _ _ H Hs Hst Hv) as [Wv Lv].
  assert (len v = len bf) as Hl by (rewrite (vec_ok_len _ _ Hbf), (bv_len _ Wv); lia).
  destruct (Includes_received nI bf v Hbf Wv Hl) as (b & -> & Hb). f_equal. apply Hb. unfold bv_sub. rewrite Eb.
  split; [by eapply built_filter_sub|by eapply built_filter_nonempty].
Qed.

Lemma accepted_known nI flags l payload topics data ttl hopCount baseTTL pubId sequenceNum ackRequested n from n' s :
  accepted nI flags l payload topics data ttl hopCount baseTTL pubId sequenceNum ackRequested n from n' ->
  unknown pubId sequenceNum n -> s <= sequenceNum -> known pubId s n'.
Proof.
  intros (p & req & bf & ts & h & k & Hp & _ & _ & _ & _ & Hr & _ & (A & d & HA & Hd & Hle) & ->) [Hu _] Hs. split.
  - apply List.Forall_cons.
    + eexists. split; [apply lookup_insert_eq|]. by intros _ _.
    + eapply List.Forall_impl; [|exact Hu]. intros q (pb & E & Hne). exists pb. split; [|done].
      change (<[p := (accepted_pub ttl pubId sequenceNum ackRequested from bf) <| p_sendQueue := [req] |>]> (n_pubs n) !! q = Some pb).
      rewrite lookup_insert_ne; [done|]. congruence.
  - exact Hr.
  - exists A, d. split_and!; [done|done|lia].
Qed.

Lemma known_more pubId s n h k :
  known pubId s n -> history_ready pubId h -> history_more (n_history n) h ->
  known pubId s (n <| n_history := h |> <| n_allocs := k |>).
Proof. intros [Hp Hr Hh] Hr' Hm. split; [done|done|by apply Hm]. Qed.

Lemma listening_ready nI topics data pf n :
  hashing_ok nI -> no_wild (n_separators n) /\ n_separators n <> [] ->
  Forall (fun sub => exists s, n_subs n !! sub = Some s /\ sub_ready (n_separators n) (bitLen env_config) s) (n_subscriptions n) ->
  topics <> [] /\ Forall (topic_ok (n_separators n) DPS_PubTopic) topics /\ cbor_ok (topics_item topics) ->
  built_filter (n_separators n) DPS_PubTopic topics pf -> cbor_ok (CBytes data) ->
  Z.of_nat (length (map_wire (payload_entries topics data))) < 2 ^ 32 -> delivery_ready nI (bits pf) topics data n.
Proof.
  intros H Hs Hsub (Hne & Ht & Hok) Hpf Hd Hlen. rewrite (ho_size _ H) in Hsub. split; try done.
  - split_and!; [done| |done]. eapply List.Forall_impl; [apply topic_ok_pub|done].
  - intros s Hs' Hm v bf Ev Hbf Eb. destruct (sr_filter _ _ _ Hs') as (v' & Ev' & _ & _ & Hv). rewrite Ev in Ev'.
    injection Ev' as <-. 
    by apply (built_filter_sound nI (n_separators n) topics (s_topics s) pf v bf H (proj1 Hs) Hne Ht (proj2 (sr_topics _ _ _ Hs'))).
Qed.

(** The node that is listening accepts the message. *)
Lemma wp_publication_accepted nI topics data pf flags payload addr ttl hopCount baseTTL pubId sequenceNum ackRequested
    mem eod e e' b multicast n (Q : DPS_Status -> DPS_Node -> Prop) :
  (forall k, env_alloc k = true) -> hashing_ok nI -> listening n -> published (n_separators n) topics data pf flags payload ->
  fields_ok addr ttl hopCount baseTTL pubId sequenceNum (filter_item nI flags payload) -> 0 <= ttl ->
  reading mem eod b (map_wire (header_entries addr ttl hopCount) ++
    map_wire (protected_entries baseTTL pubId sequenceNum ackRequested (filter_item nI flags payload)) ++
    map_wire (payload_entries topics data)) ->
  sender_endpoint addr e = Some e' -> addr_ok (ep_addr e') -> unknown pubId sequenceNum n ->
  (forall n', accepted nI flags (bits pf) payload topics data ttl hopCount baseTTL pubId sequenceNum ackRequested n (ep_addr e') n' ->
     Q DPS_OK n') ->
  wp (DPS_DecodePublication e b multicast) Q n.
Proof.
  intros Hmem H [Hs Hsub] [Ht Hpf Hfl [Hp Hpl] [Hd Hlen]] Hf Httl Hb He Ha Hu HQ.
  destruct (built_filter_wf nI _ _ _ _ H (proj1 Hs) (proj1 (proj2 Ht)) Hpf) as [Wp Lp].
  pose proof (listening_ready nI topics data pf n H Hs Hsub Ht Hpf Hd Hlen) as Hn.
  rewrite (ho_size _ H) in Hpl. pose proof (ho_small _ H).
  by eapply (wp_DecodePublication_new Hmem nI (ho_size _ H) ltac:(lia) flags (bits pf) payload Lp (bv_chunks _ Wp) Hfl Hp Hpl
    topics data _ addr ttl hopCount baseTTL pubId sequenceNum ackRequested mem eod e e' b).
Qed.

(** C1: the delivery of publications.  A node with memory receives the message of a
    publication that it does not know ([unknown]), in the clear, from an address that it
    can compare, with subscriptions that were made by the library ([listening]): the
    call returns OK; the handlers that are called are those of the subscriptions whose
    topics match ([selected sub_matches]), once each, in the order of the list, with the
    topics, the identifier, the sequence number and the data of the message; the
    publication is kept, its request with both parts of the message as they came waits in
    its queue to be forwarded with a hop count one higher, the sending task is scheduled,
    and the history records the sequence number and forgets nothing. *)
Theorem publication_delivered nI topics data pf flags payload addr ttl hopCount baseTTL pubId sequenceNum ackRequested
    mem eod e e' b multicast n :
  (forall k, env_alloc k = true) -> hashing_ok nI -> listening n -> published (n_separators n) topics data pf flags payload ->
  fields_ok addr ttl hopCount baseTTL pubId sequenceNum (filter_item nI flags payload) -> 0 <= ttl ->
  reading mem eod b (map_wire (header_entries addr ttl hopCount) ++
    map_wire (protected_entries baseTTL pubId sequenceNum ackRequested (filter_item nI flags payload)) ++
    map_wire (payload_entries topics data)) ->
  sender_endpoint addr e = Some e' -> addr_ok (ep_addr e') -> unknown pubId sequenceNum n ->
  exists n', DPS_DecodePublication e b multicast n = Some (DPS_OK, n') /\
    accepted nI flags (bits pf) payload topics data ttl hopCount baseTTL pubId sequenceNum ackRequested n (ep_addr e') n'.
Proof.
  intros Hmem H Hls Hpd Hf Httl Hb He Ha Hu.
  cut (wp (DPS_DecodePublication e b multicast) (fun ret n' => ret = DPS_OK /\ accepted nI flags (bits pf) payload topics data
    ttl hopCount baseTTL pubId sequenceNum ackRequested n (ep_addr e') n') n).
  { intros (ret & n' & E & -> & Hacc)%wp_run. exists n'. split; [exact E|exact Hacc]. }
  eapply (wp_publication_accepted nI topics data pf flags payload addr ttl hopCount); [done..|]. by split.
Qed.

(** C2: a publication is received once.  When a message was accepted, every other
    message of that publication with the same sequence number or a smaller one,
    whatever its path, hop count, time to live, filter and contents, is reported stale:
    no handler is called, nothing is queued or scheduled, only the history and the count
    of the allocations change, and the node stays in a state where that holds. *)
Theorem publication_received_once nI flags l payload topics data ttl hopCount baseTTL pubId sequenceNum ackRequested n from n'
    addr2 ttl2 hopCount2 baseTTL2 sequenceNum2 ackRequested2 filter2 rest2 mem eod e e' b multicast :
  (forall k, env_alloc k = true) ->
  accepted nI flags l payload topics data ttl hopCount baseTTL pubId sequenceNum ackRequested n from n' ->
  unknown pubId sequenceNum n -> sequenceNum2 <= sequenceNum ->
  fields_ok addr2 ttl2 hopCount2 baseTTL2 pubId sequenceNum2 filter2 ->
  reading mem eod b (map_wire (header_entries addr2 ttl2 hopCount2) ++
    map_wire (protected_entries baseTTL2 pubId sequenceNum2 ackRequested2 filter2) ++ rest2) ->
  sender_endpoint addr2 e = Some e' -> addr_ok (ep_addr e') ->
  exists h k, DPS_DecodePublication e b multicast n' = Some (DPS_ERR_STALE, n' <| n_history := h |> <| n_allocs := k |>) /\
    known pubId sequenceNum (n' <| n_history := h |> <| n_allocs := k |>).
Proof.
  intros Hmem Hacc Hu Hs Hf Hb He Ha.
  pose proof (accepted_known _ _ _ _ _ _ _ _ _ _ _ _ _ _ _ sequenceNum2 Hacc Hu Hs) as Hk2.
  pose proof (accepted_known _ _ _ _ _ _ _ _ _ _ _ _ _ _ _ sequenceNum Hacc Hu ltac:(lia)) as Hk.
  cut (wp (DPS_DecodePublication e b multicast) (fun ret m => ret = DPS_ERR_STALE /\ exists h k,
    m = n' <| n_history := h |> <| n_allocs := k |> /\ known pubId sequenceNum m) n').
  { intros (ret & m & E & -> & h & k & -> & Hm)%wp_run. by exists h, k. }
  eapply (wp_DecodePublication_stale Hmem addr2 ttl2 hopCount2 baseTTL2 pubId sequenceNum2); [done..|].
  intros h k Hr Hm. split; [done|]. exists h, k. split; [done|]. by apply known_more.
Qed.
End Deliver.

(** *** A message for one of two subscriptions *)

#[local] Existing Instance toy_env.
#[local] Instance toy_cose : Cose := {|
  cose_tls := toy_tls; cose_keys := {| keyHandler := None; ephemeralKeyHandler := None |}
|}.

Definition toy_malloc (size : nat) : option (list Z) := Some (replicate size 0).
Definition toy_filter (t : DPS_TopicType) (topics : list (list Z)) : DPS_BitVector :=
  match TopicTheorems.add_topics toy_md (mkConfig 64 3) toy_malloc [47] t (fresh_bv 64) topics with
  | Some (_, v) => v
  | None => fresh_bv 64
  end.

(** "b", that the message does not match. *)
Definition topic_b : list Z := [98].
Lemma topic_b_ok : topic_ok [47] DPS_SubTopic topic_b.
Proof.
  split_and!; try done. repeat (constructor; [lia|]). constructor.
Qed.

Definition toy_subscription (topics : list (list Z)) (handler : Z) : DPS_Subscription :=
  mkSub None (Some (toy_filter DPS_SubTopic topics)) (Some handler) 0 0 None topics.
Definition toy_subscriber : DPS_Node :=
  toy_node <| n_subs := {[1%positive := toy_subscription [topic_a_c] 70; 2%positive := toy_subscription [topic_b; topic_a_c] 71]} |>
    <| n_subscriptions := [2%positive; 1%positive] |>.
Definition toy_pub_filter : DPS_BitVector := toy_filter DPS_PubTopic [topic_abc].
Definition toy_payload : list Z := bytes_of_chunks (bits toy_pub_filter).
Definition toy_publication : list Z :=
  map_wire (header_entries (toy_addr 8) 5 0) ++
  map_wire (protected_entries 5 (mkUUID 1 2) 1 false (filter_item 1 0 toy_payload)) ++
  map_wire (payload_entries [topic_abc] [104; 105]).

Lemma toy_built t topics : Forall (topic_ok [47] t) topics -> built_filter [47] t topics (toy_filter t topics).
Proof.
  intros Ht. exists toy_malloc. assert (malloc_ok toy_malloc) as Hm.
  { intros size. exists (replicate size 0). split; [done|apply length_replicate]. }
  split; [done|].
  destruct (add_topics_grows toy_md (mkConfig 64 3) toy_malloc [47] toy_md_bytes ltac:(by split) slash_no_wild Hm t topics Ht
    (fresh_bv 64)) as (v & E & _); [by apply fresh_bv_wf|done|]. unfold toy_filter. by rewrite E.
Qed.

Lemma toy_env_bytes k size : length (env_bytes k size) = size /\ Forall is_byte (env_bytes k size).
Proof. cbn. split; [apply length_replicate|]. apply List.Forall_forall. intros x Hx. by apply list_elem_of_In, elem_of_replicate in Hx as [-> _]. Qed.

Lemma toy_hashing : hashing_ok 1.
Proof. split; [apply toy_md_bytes|by split|done|lia]. Qed.

Lemma toy_sub_ready topics handler :
  topics <> [] -> Forall (topic_ok [47] DPS_SubTopic) topics -> sub_ready [47] 64 (toy_subscription topics handler).
Proof.
  intros Hne Ht. pose proof (toy_built DPS_SubTopic topics Ht) as Hb.
  destruct (built_filter_wf 1 _ _ _ _ toy_hashing slash_no_wild Ht Hb) as [Hw Hl].
  split; [|by eexists|cbn; lia|done|done]. eexists. split_and!; [done|done| |done]. rewrite (bv_len _ Hw). lia.
Qed.

Lemma toy_listening : listening toy_subscriber.
Proof.
  split; [split; [exact slash_no_wild|done]|].
  assert (topic_ok [47] DPS_SubTopic topic_a_c) by apply topic_a_c_ok.
  assert (topic_ok [47] DPS_SubTopic topic_b) by apply topic_b_ok.
  change (Forall (fun sub => exists s, n_subs toy_subscriber !! sub = Some s /\ sub_ready [47] 64 s) [2%positive; 1%positive]).
  apply List.Forall_cons; [|apply List.Forall_cons; [|done]].
  - exists (toy_subscription [topic_b; topic_a_c] 71). split; [vm_compute; reflexivity|]. apply toy_sub_ready; [done|by repeat (apply List.Forall_cons; [done|])].
  - exists (toy_subscription [topic_a_c] 70). split; [vm_compute; reflexivity|]. apply toy_sub_ready; [done|by repeat (apply List.Forall_cons; [done|])].
Qed.

Lemma toy_published : published [47] [topic_abc] [104; 105] toy_pub_filter 0 toy_payload.
Proof.
  assert (Forall (topic_ok [47] DPS_PubTopic) [topic_abc]) as Ht by (apply List.Forall_cons; [apply topic_abc_ok|done]).
  split; [|by apply toy_built|done|split; [by left|by apply (bool_decide_unpack _); vm_compute]|].
  - split_and!; [done|done|]. split; [done|]. split; [|done]. split; [done|]. by apply (bool_decide_unpack _); vm_compute.
  - split; [|by vm_compute]. split; [done|]. by apply (bool_decide_unpack _); vm_compute.
Qed.

(** A node without publications and with an empty history knows none. *)
Lemma empty_unknown pubId sequenceNum n :
  n_publications n = [] -> n_history n = empty_history -> unknown pubId sequenceNum n.
Proof.
  intros Ep Eh. split; [by rewrite Ep|]. rewrite Eh. split.
  - exists ∅. split_and!; [apply empty_represents|by rewrite delete_empty, map_size_empty|by intros v d].
  - intros (A & d & HA & Hd & _). by rewrite (represents_unique _ _ _ HA empty_represents) in Hd.
Qed.

Lemma toy_fields_ok port ttl hopCount :
  0 <= port < 65536 -> int16 ttl -> ttl_consistent ttl 5 = true -> uint16 hopCount ->
  fields_ok (toy_addr port) ttl hopCount 5 (mkUUID 1 2) 1 (filter_item 1 0 toy_payload).
Proof.
  intros Hp Ht Hc Hh. split; [exact Hp|done|done|done|done|done|].
  assert (bv_payload 0 (bits toy_pub_filter) toy_payload) as Hpl by by left.
  apply (filter_item_ok 1 ltac:(lia) 0 (bits toy_pub_filter)); [by apply (bool_decide_unpack _); vm_compute|done|done|by vm_compute].
Qed.

Lemma publication_delivered_witness :
  exists n', DPS_DecodePublication (mkEp (toy_addr 5) None) (rx_of toy_publication) false toy_subscriber = Some (DPS_OK, n') /\
    exists pb, n_events n' = [EvAsyncSend pubsAsync; EvPublication 70 1%positive pb (Some [104; 105]); EvRxIncRef] /\
      p_topics pb = Some [topic_abc] /\ p_sequenceNum pb = 1.
Proof.
  destruct (publication_delivered 1 [topic_abc] [104; 105] toy_pub_filter 0 toy_payload (toy_addr 8) 5 0 5 (mkUUID 1 2) 1 false
    toy_publication (length toy_publication) (mkEp (toy_addr 5) None) (mkEp (toy_addr 8) None) (rx_of toy_publication) false
    toy_subscriber) as (n' & E & _).
  - done.
  - exact toy_hashing.
  - exact toy_listening.
  - exact toy_published.
  - by apply toy_fields_ok.
  - done.
  - apply rx_of_reading; by apply (bool_decide_unpack _); vm_compute.
  - by vm_compute.
  - apply toy_addr_ok.
  - by apply empty_unknown.
  - exists n'. split; [exact E|]. vm_compute in E. injection E as <-. eexists. split_and!; reflexivity.
Defined.

Lemma toy_accepted : exists n',
  DPS_DecodePublication (mkEp (toy_addr 5) None) (rx_of toy_publication) false toy_subscriber = Some (DPS_OK, n') /\
  accepted 1 0 (bits toy_pub_filter) toy_payload [topic_abc] [104; 105] 5 0 5 (mkUUID 1 2) 1 false toy_subscriber (toy_addr 8) n'.
Proof.
  cut (wp (DPS_DecodePublication (mkEp (toy_addr 5) None) (rx_of toy_publication) false) (fun ret n' => ret = DPS_OK /\
    accepted 1 0 (bits toy_pub_filter) toy_payload [topic_abc] [104; 105] 5 0 5 (mkUUID 1 2) 1 false toy_subscriber (toy_addr 8) n')
    toy_subscriber).
  { intros (ret & n' & E & -> & Hacc)%wp_run. exists n'. split; [exact E|exact Hacc]. }
  eapply (wp_publication_accepted 1 [topic_abc] [104; 105] toy_pub_filter 0 toy_payload (toy_addr 8) 5 0 5 (mkUUID 1 2) 1 false
    toy_publication (length toy_publication) (mkEp (toy_addr 5) None) (mkEp (toy_addr 8) None)).
  - done.
  - exact toy_hashing.
  - exact toy_listening.
  - exact toy_published.
  - by apply toy_fields_ok.
  - done.
  - apply rx_of_reading; by apply (bool_decide_unpack _); vm_compute.
  - by vm_compute.
  - apply toy_addr_ok.
  - by apply empty_unknown.
  - by split.
Qed.

(** The same publication again, over another path. *)
Definition toy_again : list Z :=
  map_wire (header_entries (toy_addr 9) 3 4) ++
  map_wire (protected_entries 5 (mkUUID 1 2) 1 false (filter_item 1 0 toy_payload)) ++
  map_wire (payload_entries [topic_abc] [104; 105]).

Lemma publication_received_once_witness :
  exists n' h k, DPS_DecodePublication (mkEp (toy_addr 5) None) (rx_of toy_publication) false toy_subscriber = Some (DPS_OK, n') /\
    DPS_DecodePublication (mkEp (toy_addr 5) None) (rx_of toy_again) true n' =
      Some (DPS_ERR_STALE, n' <| n_history := h |> <| n_allocs := k |>).
Proof.
  destruct toy_accepted as (n' & E & Hacc).
  destruct (publication_received_once 1 0 (bits toy_pub_filter) toy_payload [topic_abc] [104; 105] 5 0 5 (mkUUID 1 2) 1 false
    toy_subscriber (toy_addr 8) n' (toy_addr 9) 3 4 5 1 false (filter_item 1 0 toy_payload)
    (map_wire (payload_entries [topic_abc] [104; 105])) toy_again (length toy_again) (mkEp (toy_addr 5) None)
    (mkEp (toy_addr 9) None) (rx_of toy_again) true) as (h & k & E2 & _).
  - clear. done.
  - exact Hacc.
  - clear. by apply empty_unknown.
  - clear. lia.
  - clear. by apply toy_fields_ok.
  - clear. apply rx_of_reading; by apply (bool_decide_unpack _); vm_compute.
  - clear. by vm_compute.
  - apply toy_addr_ok.
  - exists n', h, k. split; [exact E|exact E2].
Defined.
