(* ===== verification/PublishProofs.v ===== *)
(** * What a publisher sends ([src/pub.c])

    [DPS_SerializePub] fills the buffers of a request, [DPS_SendPublication] puts a
    header in front of them: together they are the message that [wp_parse_publication]
    reads. *)
From S2P Require Import Prelude Status Buffer Float Cbor CborProofs CborValues CborMap.
From S2P Require Import BitVec BitVecProofs BitVecSerial BitVecTheorems CountVec Topics TopicProofs TopicSound TopicTheorems Uuid Addr History Node Remote RemoteProofs.
From S2P Require Import Sub SubProofs SubMsg SubMsgProofs SendProofs Pub Link SubDecode Tls Keys Cose CoseProofs PubMsg PubRecv PubSend PubMsgProofs.
From S2P Require Import SubDecodeProofs PubParseProofs DeliverProofs HandlerProofs ReceiveProofs DeliverTheorems.
From stdpp Require Import gmap.
#[local] Open Scope Z_scope.
#[local] Set Warnings "-clear-no-such-hyp".

(** One step of a writer on its own. *)
Lemma wrote_run L w b bs f :
  wrote L w (DPS_OK, b) -> (forall b, tx_wf b -> enc_spec b bs (f b)) -> Forall is_byte bs ->
  (length w + length bs <= L)%nat -> exists b', f b = Some (DPS_OK, b') /\ wrote L (w ++ bs) (DPS_OK, b').
Proof.
  intros H Hf Hb HL. destruct (wrote_bind L w (DPS_OK, b) bs f Some (wrote L (w ++ bs)) H Hf Hb HL) as ([ret b'] & E & W); [by eauto|].
  pose proof (wr_ok _ _ _ W) as Hr. cbn [fst] in Hr. subst ret. exists b'. split; [|done].
  unfold on_ok in E. cbn [fst snd] in E. change (is_OK DPS_OK) with true in E. cbv iota in E. by destruct (f b).
Qed.

(** The message of a publication in the clear. *)
Definition publication_wire (addr : DPS_NodeAddress) (ttl hopCount : Z) (rest : list Z) : list Z :=
  header_wire addr ttl hopCount ++ rest.

Section Publish.
Context `{Env : Environment} `{Crypto : Cose}.
Context (Hmem : forall k, env_alloc k = true).
Context (Hbytes : forall k size, length (env_bytes k size) = size /\ Forall is_byte (env_bytes k size)).

(** The handler of acknowledgements. *)
Context (ack : DPS_NetEndpoint -> DPS_RxBuffer -> M DPS_Status).

(** *** The buffers of a publication *)

Definition short_topic (t : list Z) : Prop := Z.of_nat (length t) <= DPS_MAX_TOPIC_STRLEN /\ Forall is_byte t.

Lemma topics_size topics :
  Forall short_topic topics ->
  CBOR_SIZEOF_LEN (Z.of_nat (length topics)) + foldr Z.add 0 (map (fun t => _CBOR_SizeOfString (Some t)) topics)
    = Z.of_nat (length (wire (topics_item topics))).
Proof.
  intros Ht. unfold topics_item. cbn [wire]. rewrite length_app, length_map, Nat2Z.inj_add, cbor_head_sizeof. f_equal.
  induction Ht as [|t topics [Hl _] _ IH]; [done|]. cbn [map foldr flat_map]. rewrite length_app, IH, Nat2Z.inj_add. f_equal.
  cbn [wire]. rewrite length_app, Nat2Z.inj_add, cbor_head_sizeof. unfold _CBOR_SizeOfString, strnlen_s.
  unfold DPS_MAX_TOPIC_STRLEN, CBOR_MAX_STRING_LEN in *. rewrite Z.min_l by lia. lia.
Qed.

Lemma wp_encode_topics L topics : Forall short_topic topics ->
  forall w b (Q : DPS_Status * DPS_TxBuffer * list (list Z) -> DPS_Node -> Prop) n,
  wrote L w (DPS_OK, b) -> (length w + length (flat_map wire (map CString topics)) <= L)%nat ->
  (forall b' k, wrote L (w ++ flat_map wire (map CString topics)) (DPS_OK, b') -> Q (DPS_OK, b', topics) (n <| n_allocs := k |>)) ->
  wp (encode_topics topics b) Q n.
Proof using Hmem.
  induction 1 as [|t topics [Hl Hb] Ht IH]; intros w b Q n Hw HL HQ; cbn [encode_topics].
  { wp_go. replace n with (n <| n_allocs := n_allocs n |>) by by destruct n. apply HQ. cbn. by rewrite app_nil_r. }
  cbn [map flat_map] in *. rewrite length_app in HL. wp_go.
  assert (Forall is_byte (wire (CString t))) as Hbytes'.
  { cbn [wire]. apply Forall_app_2; [apply cbor_head_bytes; [major|]|done]. unfold DPS_MAX_TOPIC_STRLEN in Hl. lia. }
  destruct (wrote_run L w b (wire (CString t)) (fun b => CBOR_EncodeString b (Some t))) as (b1 & Ee & W1); [exact Hw| |done|lia|].
  { intros b0 Hb0. cbn [wire]. apply CBOR_EncodeString_enc; [done|]. unfold DPS_MAX_TOPIC_STRLEN, CBOR_MAX_STRING_LEN in *. lia. }
  eapply wp_lift; [exact Ee|]. wp_go. ok. unfold wp at 1, alloc_ok. rewrite Hmem. wp_go. cbn [negb]. wp_go.
  eapply IH; [exact W1|rewrite length_app; lia|]. intros b2 k W2. wp_go.
  rewrite take_ge by (unfold DPS_MAX_TOPIC_STRLEN in *; lia). rewrite <- app_assoc in W2. by apply HQ.
Qed.

Lemma wp_serialize_topics topics (Q : DPS_Status * list Z * list (list Z) -> DPS_Node -> Prop) n :
  Forall short_topic topics -> Z.of_nat (length (wire (topics_item topics))) < 2 ^ 32 ->
  (forall k, Q (DPS_OK, wire (topics_item topics), topics) (n <| n_allocs := k |>)) -> wp (serialize_topics topics) Q n.
Proof using Hmem Hbytes.
  intros Ht Hlen HQ. unfold serialize_topics. wp_go. unfold wp at 1, alloc_ok. rewrite Hmem. wp_go. cbn [negb]. wp_go.
  rewrite topics_size by done. set (L := Z.of_nat (length (wire (topics_item topics)))).
  assert (wire (topics_item topics) = cbor_head CBOR_ARRAY (Z.of_nat (length topics)) ++ flat_map wire (map CString topics)) as Ew
    by (unfold topics_item; cbn [wire]; by rewrite length_map).
  assert (Z.of_nat (length topics) < 2 ^ 32) as Hn.
  { rewrite Ew, length_app in Hlen. assert (length topics <= length (flat_map wire (map CString topics)))%nat; [|lia].
    clear. induction topics as [|t topics IH]; [done|]. cbn [map flat_map length wire]. rewrite !length_app.
    pose proof (cbor_head_sizeof CBOR_STRING (Z.of_nat (length t))). pose proof (sizeof_len_range (Z.of_nat (length t))). lia. }
  apply (wp_tx_new Hmem Hbytes); [unfold L; rewrite Ew, length_app, Nat2Z.inj_add, cbor_head_sizeof in *; pose proof (sizeof_len_range (Z.of_nat (length topics))); lia|].
  intros b k Hb. wp_go. unfold L in Hb. rewrite Nat2Z.id in Hb.
  destruct (wrote_run (length (wire (topics_item topics))) [] b (cbor_head CBOR_ARRAY (Z.of_nat (length topics))) (fun b => CBOR_EncodeArray b (Z.of_nat (length topics))))
    as (b1 & E & W1); [exact Hb| |apply cbor_head_bytes; [major|lia]|rewrite Ew, length_app; cbn; lia|].
  { intros b0 Hb0. unfold CBOR_EncodeArray. rewrite u32_small by lia. apply EncodeUint_enc; [done|major|lia]. }
  eapply wp_lift; [unfold on_ok; cbn [fst snd]; exact E|]. wp_go. ok.
  eapply wp_encode_topics; [done|exact W1|cbn [app]; rewrite Ew, length_app; lia|]. intros b2 k2 W2. wp_go.
  pose proof (wr_written _ _ _ W2) as Hw. cbn [snd] in Hw. cbn [app] in Hw. rewrite Hw, <- Ew. apply HQ.
Qed.

Lemma wp_serialize_filter nI bf (Q : DPS_Status * DPS_BitVector * list Z -> DPS_Node -> Prop) n :
  vec_wf nI bf -> 0 < len bf <= 65535 ->
  (forall bytes k bf', bits bf' = bits bf -> Q (DPS_ERR_OVERFLOW, bf', bytes) (n <| n_allocs := k |>)) ->
  (forall flags payload k, 0 <= flags < 4 -> bv_payload flags (bits bf) payload -> Z.of_nat (length payload) <= len bf / 8 ->
     Q (DPS_OK, set_popCount bf (chunks_count (bits bf)), bv_wire flags (len bf) payload) (n <| n_allocs := k |>)) ->
  wp (serialize_filter bf) Q n.
Proof using Hmem Hbytes.
  intros [Hw _] Hl Hov HQ. unfold serialize_filter. wp_go. pose proof (MaxSize_nonneg bf).
  apply (wp_tx_new Hmem Hbytes).
  { split; [lia|]. unfold DPS_BitVectorSerializeMaxSize, CBOR_SIZEOF, CBOR_SIZEOF_BYTES.
    pose proof sizeof_len_range as Hz. pose proof (Hz 3). pose proof (Hz (len bf / 8)).
    assert (len bf / 8 < 2 ^ 16) by (apply Z.div_lt_upper_bound; lia). change (CBOR_SIZEOF_LEN 1) with 1. lia. }
  intros b k Hb. wp_go. ok.
  destruct (DPS_BitVectorSerialize_spec bf b Hw Hl) as (ret & b' & E & _ & _ & Hcase).
  { apply Hb. }
  { eapply (wrote_fits _ [] (DPS_OK, b)). 1: exact Hb. cbn. lia. }
  eapply wp_lift; [exact E|]. wp_go. destruct Hcase as [[-> _]|(-> & payload & Hp & Hpl & Ew)].
  - by apply Hov.
  - rewrite Ew. pose proof (wr_written _ _ _ Hb) as Hw0. cbn [snd] in Hw0. rewrite Hw0. cbn [app].
    apply HQ; [apply serialize_flags_range|done|done].
Qed.

(** *** [DPS_InitPublication] *)

(** The filter that the topics make, whatever the blocks that [malloc] returns. *)
Lemma wp_add_pub_topics nI seps m0 t topics :
  hashing_ok nI -> no_wild seps -> malloc_ok m0 -> Forall (topic_ok seps t) topics ->
  forall bf (Q : DPS_Status * DPS_BitVector -> DPS_Node -> Prop) n,
  vec_wf nI bf ->
  (forall bf' k, TopicTheorems.add_topics env_md env_config m0 seps t bf topics = Some (DPS_OK, bf') ->
     vec_wf nI bf' -> Q (DPS_OK, bf') (n <| n_allocs := k |>)) ->
  wp (add_pub_topics bf topics seps t) Q n.
Proof using Hmem Hbytes.
  intros H Hs Hm0. pose proof (ho_md _ H) as Hmd. pose proof (ho_hashes _ H) as Hhash. pose proof (ho_small _ H) as Hsm.
  induction 1 as [|x topics Hx Ht IH]; intros bf Q n Hb HQ; cbn [add_pub_topics].
  { wp_go. replace n with (n <| n_allocs := n_allocs n |>) by by destruct n. by apply HQ. }
  wp_go. apply wp_malloc_any. set (m := fun size : nat => if env_alloc (n_allocs n) then Some (env_bytes (n_allocs n) size) else None).
  assert (malloc_ok m) as Hm by (intros k; unfold m; rewrite Hmem; destruct (Hbytes (n_allocs n) k); eauto).
  assert (0 < len bf) as Hpos by (rewrite (vec_wf_len _ _ Hb); lia).
  destruct (AddTopic_grows env_md env_config m seps Hmd Hhash Hs Hm t x bf Hx (proj1 Hb) Hpos) as (b1 & xs & E & (w1 & F1 & ->) & I1 & W & L & _).
  destruct (AddTopic_grows env_md env_config m0 seps Hmd Hhash Hs Hm0 t x bf Hx (proj1 Hb) Hpos) as (b2 & ys & E0 & (w2 & F2 & ->) & I2 & _).
  rewrite (first_wild_unique x w2 w1 F2 F1) in I2. rewrite I1 in I2. injection I2 as <-.
  wp_go. eapply wp_lift; [exact E|]. wp_go. eapply wp_lift; [done|]. change (is_OK DPS_OK) with true. cbv iota.
  apply IH.
  - split; [done|]. pose proof (bv_len _ W). pose proof (vec_wf_len _ _ Hb). lia.
  - intros bf' k E' W'. apply HQ; [|done]. cbn [TopicTheorems.add_topics]. rewrite E0. exact E'.
Qed.

(** A publication that was created and not initialised. *)
Record created (n : DPS_Node) (p : ptr) (pb : DPS_Publication) : Prop := {
  cr_pub : n_pubs n !! p = Some pb;
  cr_new : p ∉ n_publications n;
  cr_blank : p_bf pb = None /\ p_topics pb = None /\ has_flag (p_flags pb) PUB_FLAG_IS_COPY = false;
  cr_started : n_loop n = true
}.

(** It after that. *)
Definition initialized (nI : nat) (topics : list (list Z)) (handler : option Z) (pb : DPS_Publication)
    (bf : DPS_BitVector) (flags : Z) (payload : list Z) : DPS_Publication :=
  (match handler with Some h => pb <| p_handler := Some h |> <| p_ackRequested := true |> | None => pb end)
    <| p_flags := p_flags pb .| PUB_FLAG_LOCAL |> <| p_bf := Some bf |> <| p_topics := Some topics |>
    <| p_topicsBuf := wire (topics_item topics) |> <| p_bfBuf := wire (filter_item nI flags payload) |>.

Lemma initialized_state n p (pb1 pb2 : DPS_Publication) k0 k1 k2 k3 l :
  l = n_publications n ->
  n <| n_publications := p :: n_publications n |> <| n_allocs := k3 |> <| n_pubs := <[p := pb2]> (n_pubs n) |> =
  (set n_pubs <[p := pb2]> ((set n_pubs <[p := pb1]> (n <| n_allocs := k0 |>)) <| n_allocs := k1 |> <| n_allocs := k2 |> <| n_allocs := k3 |>))
    <| n_publications := p :: l |>.
Proof. intros ->. destruct n. unfold set, set_n_pubs. cbn. by rewrite insert_insert_eq. Qed.

Lemma wp_InitPublication nI n p pb topics noWildCard handler (Q : DPS_Status -> DPS_Node -> Prop) :
  let t := if noWildCard : bool then DPS_PubNoWild else DPS_PubTopic in
  hashing_ok nI -> created n p pb -> no_wild (n_separators n) -> topics <> [] -> Forall (topic_ok (n_separators n) t) topics ->
  Forall short_topic topics -> Z.of_nat (length (wire (topics_item topics))) < 2 ^ 32 ->
  (forall n', Q DPS_ERR_OVERFLOW n') ->
  (forall v bf flags payload k, built_filter (n_separators n) t topics v -> bits bf = bits v ->
     0 <= flags < 4 -> bv_payload flags (bits v) payload -> Z.of_nat (length payload) <= bitLen env_config / 8 ->
     Q DPS_OK (n <| n_publications := p :: n_publications n |> <| n_allocs := k |>
       <| n_pubs := <[p := initialized nI topics handler pb bf flags payload]> (n_pubs n) |>)) ->
  wp (DPS_InitPublication (Some p) topics noWildCard handler) Q n.
Proof using Hmem Hbytes.
  cbv zeta. intros H [Ep Hp (Eb & Et & Ec) Hn] Hs Hne Ht Hsh Hlen Hov HQ. unfold DPS_InitPublication. wp_go.
  rewrite Hn. cbn [negb]. wp_go. eapply wp_load; [exact Ep|]. wp_go. rewrite Eb, Et, Ec. cbn [orb].
  rewrite !bool_decide_eq_false_2 by (done || by intros [? ?]). cbn [orb]. wp_go.
  apply (wp_BitVectorAlloc_fresh nI (ho_size _ H)); [apply Hmem|]. wp_go.
  eapply wp_update; [exact Ep|]. wp_go.
  assert (malloc_ok (fun size => Some (replicate size 0))) as Hm0 by (intros size; eexists; split; [done|apply length_replicate]).
  apply (wp_add_pub_topics nI _ (fun size => Some (replicate size 0))); [done|done|done|done| |].
  { split; [by apply (fresh_filter_wf nI)|]. cbn. by rewrite (ho_size _ H), Z.mul_comm, Z.div_mul, Nat2Z.id, length_replicate. }
  intros v k Ev Wv. wp_go. change (is_OK DPS_OK) with true. cbv iota.
  apply wp_serialize_topics; [done|done|]. intros k2. wp_go. change (is_OK DPS_OK) with true. cbv iota.
  pose proof (vec_wf_len _ _ Wv) as Lv. pose proof (ho_small _ H) as Hsm.
  apply (wp_serialize_filter nI); [done|lia| |].
  { intros bytes k3 bf' _. wp_go. change (is_OK DPS_ERR_OVERFLOW) with false. cbv iota.
    unfold FreeRecipients. wp_go. eapply wp_update; [apply lookup_insert_eq|]. wp_go. apply Hov. }
  intros flags payload k3 Hfl Hpay Hpl. wp_go. change (is_OK DPS_OK) with true. cbv iota. wp_go.
  eapply wp_update; [apply lookup_insert_eq|]. wp_go. apply wp_assert; [by rewrite bool_decide_eq_false_2|]. wp_go.
  rewrite Lv in *. rewrite <- (filter_item_wire nI flags payload Hfl) in *.
  refine (eq_ind _ (Q DPS_OK) (HQ v (set_popCount v (chunks_count (bits v))) flags payload k3 _ _ _ _ _) _ _);
    [by eexists|done|done|done|by rewrite (ho_size _ H)|]. by apply initialized_state.
Qed.

(** *** The buffers of a request *)

(** The request and its publication, as [DPS_PublishBufs] leaves them. *)
Record publishing (n : DPS_Node) (req : ptr) (q : DPS_PublishRequest) (pb : DPS_Publication) (bufs : list (list Z)) : Prop := {
  pg_req : n_reqs n !! req = Some q;
  pg_pub : n_pubs n !! q_pub q = Some pb;
  pg_bufs : length (q_bufs q) = (length bufs + NUM_INTERNAL_PUB_BUFS)%nat;
  pg_clear : p_recipients pb = [] /\ e_alg (n_signer n) = 0
}.

Lemma data_length (bufs : list (list Z)) :
  foldr Z.add 0 (map (fun d => Z.of_nat (length d)) bufs) = Z.of_nat (length (concat bufs)).
Proof. induction bufs as [|d bufs IH]; [done|]. cbn [map foldr concat]. rewrite length_app, IH. lia. Qed.

Lemma wp_SerializePub n req q pb bufs ttl topics filter (Q : DPS_Status -> DPS_Node -> Prop) :
  publishing n req q pb bufs -> int16 ttl -> uint32 (q_sequenceNum q) ->
  cbor_ok (topics_item topics) -> p_topicsBuf pb = wire (topics_item topics) ->
  cbor_ok filter -> p_bfBuf pb = wire filter -> Z.of_nat (length (wire filter)) < 2 ^ 31 ->
  Z.of_nat (length (map_wire (payload_entries topics (concat bufs)))) < 2 ^ 31 ->
  (forall parts k,
     concat parts = map_wire (protected_entries ttl (p_pubId pb) (q_sequenceNum q) (p_ackRequested pb) filter) ++
       map_wire (payload_entries topics (concat bufs)) ->
     Q DPS_OK (n <| n_allocs := k |> <| n_reqs := <[req := q <| q_bufs := parts |>]> (n_reqs n) |>)) ->
  wp (DPS_SerializePub req bufs ttl) Q n.
Proof using Hmem Hbytes.
  intros [Er Ep Hb [Hrec Hsig]] Httl Hseq Ht Etb Hf Efb Hfl Hlen HQ. unfold DPS_SerializePub. wp_go.
  rewrite <- (payload_wire topics _ _ eq_refl), length_app in Hlen.
  assert (forall k, 0 <= k < 24 -> length (cbor_int k) = 1%nat) as Hk by apply length_key.
  assert (encrypted_len (Z.of_nat (length (wire (topics_item topics)))) (Z.of_nat (length (concat bufs))) =
    Z.of_nat (length (payload_head topics (Z.of_nat (length (concat bufs))))) + 2) as HL2.
  { unfold encrypted_len, payload_head. rewrite !length_app, (Hk DPS_CBOR_KEY_TOPICS), (Hk DPS_CBOR_KEY_DATA) by done.
    rewrite !Nat2Z.inj_add, !cbor_head_sizeof. change (CBOR_SIZEOF_LEN 2) with 1. change (CBOR_SIZEOF 1) with 2. lia. }
  eapply wp_load; [exact Er|]. wp_go. eapply wp_load; [exact Ep|]. wp_go. rewrite Efb, Etb, data_length.
  apply wp_assert; [by apply bool_decide_eq_true_2|]. wp_go.
  apply (wp_tx_new Hmem Hbytes).
  { unfold protected_len, CBOR_SIZEOF_BYTES. pose proof (sizeof_len_range (Z.of_nat (length (wire filter)))).
    change (CBOR_SIZEOF_LEN 5) with 1. change (CBOR_SIZEOF 1) with 2. change (CBOR_SIZEOF_LEN 16) with 1.
    change (CBOR_SIZEOF 4) with 5. change (CBOR_SIZEOF 2) with 3. unfold CBOR_SIZEOF_BOOLEAN. lia. }
  intros b k Hb1. wp_go. ok.
  destruct (encode_protected_spec ttl (p_pubId pb) (q_sequenceNum q) (p_ackRequested pb) filter Httl Hseq Hf _ Hb1) as ([ret1 b1] & E1 & W1).
  eapply wp_lift; [exact E1|]. pose proof (wr_ok _ _ _ W1) as Hr1. cbn [fst] in Hr1. subst ret1. wp_go. ok.
  change (is_OK DPS_OK) with true. cbv iota.
  apply (wp_tx_new Hmem Hbytes); [rewrite HL2; lia|]. intros b0 k0 Hb0. wp_go.
  destruct (encode_encrypted_spec topics (Z.of_nat (length (concat bufs))) Ht ltac:(lia) _ Hb0) as ([ret2 b2] & E2 & W2).
  eapply wp_lift; [exact E2|]. pose proof (wr_ok _ _ _ W2) as Hr2. cbn [fst] in Hr2. subst ret2. wp_go. ok.
  unfold protect. wp_go. rewrite Hrec. match goal with |- context [e_alg (n_signer ?m)] => change (n_signer m) with (n_signer n) end. rewrite Hsig. change (0 =? 0) with true. wp_go. ok.
  change (is_OK DPS_OK) with true. cbn [when]. wp_go. eapply wp_update; [exact Er|]. wp_go.
  pose proof (wr_written _ _ _ W1) as Hw1. pose proof (wr_written _ _ _ W2) as Hw2. cbn [snd] in Hw1, Hw2. rewrite Hw1, Hw2.
  apply HQ. cbn [concat app]. rewrite concat_app. cbn [concat]. by rewrite !app_nil_r, payload_wire.
Qed.

(** *** With the header *)

(** A request that can be sent to a neighbour now, with this time to live. *)
Record sending (n : DPS_Node) (req pub : ptr) (remote : ptr) (ttl : Z) (q : DPS_PublishRequest) (r : RemoteNode) : Prop := {
  sg_req : n_reqs n !! req = Some q;
  sg_pub : exists pb, n_pubs n !! pub = Some pb /\ send_ttl pb q (n_now n) = Some ttl;
  sg_remote : n_remotes n !! remote = Some r;
  sg_running : n_netCtx n = true;
  sg_addr : sendable (n_addr n);
  sg_values : int16 ttl /\ uint16 (q_hopCount q);
  sg_sent : env_send (n_sends n) = DPS_OK
}.

Lemma header_len_range addr listen :
  sendable addr -> listen_len addr = Some listen -> 0 < header_len listen < 2 ^ 32.
Proof.
  intros Hs Hl. pose proof (listen_range 1 ltac:(lia) addr listen Hs Hl). unfold header_len.
  change (CBOR_SIZEOF_LEN 5) with 1. change (CBOR_SIZEOF 1) with 2. change (CBOR_SIZEOF_LEN 3) with 1.
  change (CBOR_SIZEOF 2) with 3. lia.
Qed.

Lemma wp_SendPublication n req pub remote ttl q r (Q : DPS_Status -> DPS_Node -> Prop) :
  sending n req pub remote ttl q r ->
  (forall n', head (n_events n') =
     Some (EvNetSend (ep r) (publication_wire (n_addr n) ttl (q_hopCount q) (concat (q_bufs q))) DPS_OK) -> Q DPS_OK n') ->
  wp (DPS_SendPublication ack req pub (Unicast remote)) Q n.
Proof using Hmem Hbytes.
  intros [Er (pb & Ep & Et) Em Hn Ha [Httl Hh] Hsend] HQ. unfold DPS_SendPublication. wp_go. rewrite Hn. cbn [negb]. wp_go.
  eapply wp_load; [exact Ep|]. wp_go. eapply wp_load; [exact Er|]. wp_go. rewrite Et. wp_go.
  assert (exists listen, listen_len (n_addr n) = Some listen) as [listen El].
  { unfold sendable, listen_len in *. destruct (addr_type (n_addr n)); [done|by eexists..]. }
  rewrite El. wp_go. apply (wp_tx_new Hmem Hbytes); [by eapply header_len_range|]. intros b k Hb. wp_go.
  destruct (encode_header_spec (n_addr n) listen Ha El ttl (q_hopCount q) Httl Hh _ Hb) as ([ret1 b1] & E1 & W1).
  eapply wp_lift; [exact E1|]. pose proof (wr_ok _ _ _ W1) as Hr1. cbn [fst] in Hr1. subst ret1. wp_go. ok.
  unfold transmit, add_request_ref. wp_go. eapply wp_update; [exact Er|]. wp_go. eapply wp_load; [exact Em|]. wp_go.
  apply wp_NetSend. match goal with |- context [env_send ?k] => change k with (n_sends n) end. rewrite Hsend. wp_go.
  change (is_OK DPS_OK) with true. cbv iota. unfold DPS_PublicationIncRef. eapply wp_update; [exact Ep|]. wp_go.
  apply HQ. cbn [concat]. pose proof (wr_written _ _ _ W1) as Hw. cbn [snd] in Hw. by rewrite Hw.
Qed.

(** *** From the packet to the handler *)

Lemma wp_receive_front hp ha type mem eod rest e b n (Q : DPS_Status -> DPS_Node -> Prop) :
  0 <= type < 24 -> n_state n = DPS_NODE_RUNNING ->
  reading mem eod b (cbor_head CBOR_ARRAY 5 ++ cbor_head CBOR_UINT DPS_MSG_VERSION ++ cbor_head CBOR_UINT type ++ rest) ->
  (forall b', reading mem eod b' rest ->
     wp (dispatch hp ha type e b' false) (fun ret n' => Q (if bool_decide (ret = DPS_ERR_STALE) then DPS_OK else ret) n') n) ->
  wp (OnNetReceive hp ha e DPS_OK b) Q n.
Proof.
  intros Ht Hrun Hb HQ. pose proof (reading_skip _ _ _ _ _ Hb) as Hb1. pose proof (reading_skip _ _ _ _ _ Hb1) as Hb2.
  pose proof (reading_skip _ _ _ _ _ Hb2) as Hb3.
  unfold OnNetReceive. wp_go. rewrite Hrun. change (negb (bool_decide _)) with false. cbv iota.
  change (negb (is_OK DPS_OK)) with false. cbv iota. unfold DecodeRequest. wp_go. rewrite Hrun.
  rewrite bool_decide_eq_false_2 by done. wp_go.
  eapply wp_lift; [exact (DecodeArray_head b 5 0 _ (rd_wf _ _ _ _ Hb) ltac:(lia) (rd_rest _ _ _ _ Hb))|]. wp_go. ok.
  change (negb (5 =? 5)) with false. cbn [orb]. wp_go.
  eapply wp_lift; [exact (DecodeUint8_wire _ DPS_MSG_VERSION 0 _ (rd_wf _ _ _ _ Hb1) ltac:(unfold DPS_MSG_VERSION; lia) (rd_rest _ _ _ _ Hb1))|].
  wp_go. ok. change (negb (DPS_MSG_VERSION =? DPS_MSG_VERSION)) with false. wp_go.
  eapply wp_lift; [exact (DecodeUint8_wire _ type 0 _ (rd_wf _ _ _ _ Hb2) ltac:(lia) (rd_rest _ _ _ _ Hb2))|].
  wp_go. ok. eapply wp_mono; [by apply HQ|]. intros ret n' H. by wp_go.
Qed.

Lemma wp_receive_pub mem eod addr ttl hopCount rest e b n (Q : DPS_Status -> DPS_Node -> Prop) :
  n_state n = DPS_NODE_RUNNING -> reading mem eod b (publication_wire addr ttl hopCount rest) ->
  (forall b', reading mem eod b' (map_wire (header_entries addr ttl hopCount) ++ rest) ->
     wp (DPS_DecodePublication e b' false) (fun ret n' => Q (if bool_decide (ret = DPS_ERR_STALE) then DPS_OK else ret) n') n) ->
  wp (OnNetReceive DPS_DecodePublication ack e DPS_OK b) Q n.
Proof.
  intros Hrun Hb HQ. unfold publication_wire, header_wire in Hb. rewrite <- !app_assoc in Hb.
  eapply (wp_receive_front _ _ DPS_MSG_TYPE_PUB); [by vm_compute|done|exact Hb|exact HQ].
Qed.
End Publish.
