(* ===== verification/AckProofs.v ===== *)
(** * What an acknowledgement contains ([src/ack.c])

    The bytes that [SerializeAck] makes, and what [DPS_DecodeAcknowledgement] reads of
    them. *)
From S2P Require Import Prelude Status Buffer Float Cbor CborProofs CborValues CborMap.
From S2P Require Import BitVec BitVecProofs BitVecSerial CountVec Topics Uuid Addr History Node Remote RemoteProofs.
From S2P Require Import TopicTheorems Sub SubMsg SubMsgProofs SendProofs Pub Link SubDecode Tls Keys Cose CoseProofs PubMsg PubRecv PubSend Ack.
From S2P Require Import PubMsgProofs SubDecodeProofs PubParseProofs DeliverProofs HandlerProofs DeliverTheorems PublishProofs.
From stdpp Require Import gmap.
From Stdlib Require Import Sorting.Sorted.
#[local] Open Scope Z_scope.
#[local] Set Warnings "-clear-no-such-hyp".

Definition ack_entries (pubId : DPS_UUID) (sequenceNum : Z) : list (Z * cbor) :=
  [(DPS_CBOR_KEY_PUB_ID, CBytes (uuid_val pubId)); (DPS_CBOR_KEY_ACK_SEQ_NUM, CInt sequenceNum)].
Definition ack_payload (data : list Z) : list (Z * cbor) := [(DPS_CBOR_KEY_DATA, CBytes data)].
Definition ack_head : list Z :=
  cbor_head CBOR_ARRAY 5 ++ cbor_head CBOR_UINT DPS_MSG_VERSION ++ cbor_head CBOR_UINT DPS_MSG_TYPE_ACK ++ wire (CMap []).

(** The message of an acknowledgement in the clear. *)
Definition ack_wire (pubId : DPS_UUID) (sequenceNum : Z) (data : list Z) : list Z :=
  ack_head ++ map_wire (ack_entries pubId sequenceNum) ++ map_wire (ack_payload data).

(** ** Writing *)

Section Write.
Context (pubId : DPS_UUID) (sequenceNum : Z) (Hseq : uint32 sequenceNum).

Lemma ack_len_value : ack_len = 32.
Proof. reflexivity. Qed.

Lemma encode_ack_head_spec b :
  wrote 32 [] (DPS_OK, b) -> exists b', encode_ack_head (DPS_OK, b) = Some (DPS_OK, b') /\ wrote 32 ack_head (DPS_OK, b').
Proof.
  intros H. pose proof (head_len1 CBOR_ARRAY 5 ltac:(lia)) as L1. pose proof (head_len1 CBOR_UINT 1 ltac:(lia)) as L2.
  pose proof (head_len1 CBOR_UINT 3 ltac:(lia)) as L3. pose proof (head_len1 CBOR_MAP 0 ltac:(lia)) as L4.
  assert (exists p', encode_ack_head (DPS_OK, b) = Some p' /\ wrote 32 ack_head p') as (p' & E & W).
  { unfold encode_ack_head, DPS_MSG_VERSION, DPS_MSG_TYPE_ACK.
    eapply (wrote_head 32 _ _ _ CBOR_ARRAY 5); [exact H|major|lia|fits|]. intros p1 H1. cbn [app] in H1.
    eapply (wrote_head 32 _ _ _ CBOR_UINT 1); [exact H1|major|lia|fits|]. intros p2 H2.
    eapply (wrote_head 32 _ _ _ CBOR_UINT 3); [exact H2|major|lia|fits|]. intros p3 H3. apply wrote_last.
    eapply (wrote_head 32 _ _ _ CBOR_MAP 0); [exact H3|major|lia|fits|]. intros p4 H4. exists p4. split; [done|].
    rewrite <- !app_assoc in H4. exact H4. }
  pose proof (wr_ok _ _ _ W) as Hr. destruct p' as [ret b']. cbn [fst] in Hr. subst ret. by exists b'.
Qed.

Lemma encode_ack_protected_spec b :
  wrote 32 ack_head (DPS_OK, b) ->
  exists b', encode_ack_protected pubId sequenceNum (DPS_OK, b) = Some (DPS_OK, b') /\
    wrote 32 (ack_head ++ map_wire (ack_entries pubId sequenceNum)) (DPS_OK, b').
Proof using Hseq.
  intros H. assert (length ack_head = 4%nat) as L0 by reflexivity.
  pose proof (head_len1 CBOR_MAP 2 ltac:(lia)) as L1. assert (length (wire (CBytes (uuid_val pubId))) = 17%nat) as L2 by reflexivity.
  pose proof (length_key 3 ltac:(lia)) as L3. assert (length (cbor_head CBOR_UINT sequenceNum) <= 5)%nat as L4 by (apply head_len32; apply Hseq).
  assert (length (ewire [(DPS_CBOR_KEY_ACK_SEQ_NUM, CInt sequenceNum)]) = S (length (cbor_head CBOR_UINT sequenceNum))) as L5
    by (apply length_uint_entry; [unfold DPS_CBOR_KEY_ACK_SEQ_NUM; lia|apply Hseq]).
  assert (exists p', encode_ack_protected pubId sequenceNum (DPS_OK, b) = Some p' /\
    wrote 32 (ack_head ++ map_wire (ack_entries pubId sequenceNum)) p') as (p' & E & W).
  { unfold encode_ack_protected, DPS_CBOR_KEY_PUB_ID.
    eapply (wrote_head 32 _ _ _ CBOR_MAP 2); [exact H|major|lia|fits|]. intros p1 H1.
    eapply wrote_key; [exact H1|lia|fits|]. intros p2 H2.
    eapply wrote_bind; [exact H2|intros b0 Hb; by apply EncodeUUID_enc|apply (wire_bytes (CBytes (uuid_val pubId)))|fits|].
    { split; [cbn; lia|apply uuid_val_bytes]. }
    intros p3 H3. apply wrote_last.
    eapply wrote_uint; [exact H3|unfold DPS_CBOR_KEY_ACK_SEQ_NUM; lia|apply Hseq|fits|]. intros p4 H4. exists p4. split; [done|].
    unfold map_wire, ack_entries, DPS_CBOR_KEY_PUB_ID. cbn [length ewire flat_map fst snd] in *.
    rewrite <- !app_assoc in H4. rewrite !app_nil_r in *. exact H4. }
  pose proof (wr_ok _ _ _ W) as Hr. destruct p' as [ret b']. cbn [fst] in Hr. subst ret. by exists b'.
Qed.
End Write.

(** Everything of the payload but the bytes of the application. *)
Definition ack_payload_head (dataLen : Z) : list Z :=
  (cbor_head CBOR_MAP 1 ++ cbor_int DPS_CBOR_KEY_DATA) ++ cbor_head CBOR_BYTES dataLen.

Lemma ack_payload_wire data :
  ack_payload_head (Z.of_nat (length data)) ++ data = map_wire (ack_payload data).
Proof.
  unfold ack_payload_head, map_wire, ack_payload. cbn [length ewire flat_map fst snd wire].
  rewrite !app_nil_r, <- !app_assoc. reflexivity.
Qed.

Definition ack_payload_len (dataLen : Z) : Z := CBOR_SIZEOF_LEN 1 + CBOR_SIZEOF 1 + CBOR_SIZEOF_LEN dataLen.

Lemma ack_payload_len_value dataLen : ack_payload_len dataLen = Z.of_nat (length (ack_payload_head dataLen)) + 1.
Proof.
  unfold ack_payload_len, ack_payload_head. rewrite !length_app, !Nat2Z.inj_add, !cbor_head_sizeof, (length_key DPS_CBOR_KEY_DATA) by done.
  change (CBOR_SIZEOF 1) with 2. lia.
Qed.

Lemma encode_ack_encrypted_spec dataLen b :
  0 <= dataLen < 2 ^ 32 -> wrote (Z.to_nat (ack_payload_len dataLen)) [] (DPS_OK, b) ->
  exists b', encode_ack_encrypted dataLen (DPS_OK, b) = Some (DPS_OK, b') /\
    wrote (Z.to_nat (ack_payload_len dataLen)) (ack_payload_head dataLen) (DPS_OK, b').
Proof.
  intros Hd H. pose proof (ack_payload_len_value dataLen) as HL. set (L := Z.to_nat (ack_payload_len dataLen)) in *.
  unfold ack_payload_head in HL. rewrite !length_app in HL.
  pose proof (head_len1 CBOR_MAP 1 ltac:(lia)) as L1. pose proof (length_key 12 ltac:(lia)) as L2.
  change (length (cbor_int DPS_CBOR_KEY_DATA)) with 1%nat in HL.
  assert (exists p', encode_ack_encrypted dataLen (DPS_OK, b) = Some p' /\ wrote L (ack_payload_head dataLen) p') as (p' & E & W).
  { unfold encode_ack_encrypted, DPS_CBOR_KEY_DATA.
    eapply (wrote_head L _ _ _ CBOR_MAP 1); [exact H|major|lia|fits|]. intros p1 H1. cbn [app] in H1.
    eapply wrote_key; [exact H1|lia|fits|]. intros p2 H2. apply wrote_last.
    eapply (wrote_head L _ _ _ CBOR_BYTES); [exact H2|major|lia|fits|]. intros p3 H3. by exists p3. }
  pose proof (wr_ok _ _ _ W) as Hr. destruct p' as [ret b']. cbn [fst] in Hr. subst ret. by exists b'.
Qed.

Section Serialize.
Context `{Env : Environment} `{Crypto : Cose}.
Context (Hmem : forall k, env_alloc k = true).
Context (Hbytes : forall k size, length (env_bytes k size) = size /\ Forall is_byte (env_bytes k size)).

(** An acknowledgement of a publication that was not encrypted, as [CreateAck] makes it. *)
Record acking (n : DPS_Node) (pub ack : ptr) (a : PublicationAck) (pb : DPS_Publication) (bufs : list (list Z)) : Prop := {
  ak_ack : n_acks n !! ack = Some a;
  ak_pub : n_pubs n !! pub = Some pb /\ a_pub a = pub;
  ak_bufs : length (a_bufs a) = (length bufs + NUM_INTERNAL_ACK_BUFS)%nat;
  ak_clear : p_recipients pb = [] /\ e_alg (n_signer n) = 0;
  ak_running : n_netCtx n = true;
  ak_sequenceNum : 0 < a_sequenceNum a < 2 ^ 32
}.

Lemma wp_SerializeAck n pub ack a pb bufs (Q : DPS_Status -> DPS_Node -> Prop) :
  acking n pub ack a pb bufs -> Z.of_nat (length (concat bufs)) < 2 ^ 31 ->
  (forall parts k, concat parts = ack_wire (p_pubId pb) (a_sequenceNum a) (concat bufs) ->
     Q DPS_OK (n <| n_allocs := k |> <| n_acks := <[ack := a <| a_bufs := parts |>]> (n_acks n) |>)) ->
  wp (SerializeAck pub ack bufs) Q n.
Proof using Hmem Hbytes.
  intros [Ea [Ep Ap] Hb [Hrec Hsig] Hn Hs] Hlen HQ. unfold SerializeAck. wp_go.
  eapply wp_load; [exact Ep|]. wp_go. eapply wp_load; [exact Ea|]. wp_go. rewrite Ap. eapply wp_load; [exact Ep|]. wp_go.
  apply wp_assert; [by rewrite (proj2 (Z.eqb_neq _ _)) by lia|]. wp_go.
  apply wp_assert; [by apply bool_decide_eq_true_2|]. wp_go. rewrite Hn. cbn [negb]. wp_go. rewrite ack_len_value, data_length.
  apply wp_tx_new; [done|done|lia|]. intros b k Hb1. wp_go. ok. change (Z.to_nat 32) with 32%nat in Hb1.
  destruct (encode_ack_head_spec b Hb1) as (b1 & E1 & W1). eapply wp_lift; [exact E1|]. wp_go.
  assert (uint32 (a_sequenceNum a)) as Hu by (split; lia).
  destruct (encode_ack_protected_spec (p_pubId pb) (a_sequenceNum a) Hu b1 W1) as (b2 & E2 & W2).
  eapply wp_lift; [exact E2|]. wp_go. change (is_OK DPS_OK) with true. cbv iota. set (dataLen := Z.of_nat (length (concat bufs))) in *.
  assert (0 <= dataLen < 2 ^ 32) as Hd by lia.
  apply wp_tx_new; [done|done| |].
  { change (0 < ack_payload_len dataLen < 2 ^ 32). rewrite ack_payload_len_value. unfold ack_payload_head.
    rewrite !length_app, !Nat2Z.inj_add, !cbor_head_sizeof. change (length (cbor_int DPS_CBOR_KEY_DATA)) with 1%nat.
    pose proof (sizeof_len_range dataLen). change (CBOR_SIZEOF_LEN 1) with 1. lia. }
  intros b0 k0 Hb0. wp_go.
  destruct (encode_ack_encrypted_spec dataLen b0 Hd Hb0) as (b3 & E3 & W3). eapply wp_lift; [exact E3|]. wp_go. ok.
  unfold protect_ack. wp_go. rewrite Hrec. match goal with |- context [e_alg (n_signer ?m)] => change (n_signer m) with (n_signer n) end.
  rewrite Hsig. change (0 =? 0) with true. wp_go. ok. change (is_OK DPS_OK) with true. cbn [when]. wp_go.
  eapply wp_update; [exact Ea|]. wp_go. apply HQ.
  pose proof (wr_written _ _ _ W2) as Hw2. pose proof (wr_written _ _ _ W3) as Hw3. cbn [snd] in Hw2, Hw3.
  rewrite Hw2, Hw3. cbn [concat app]. rewrite concat_app. cbn [concat]. unfold ack_wire.
  by rewrite <- ack_payload_wire, !app_nil_r, <- !app_assoc.
Qed.
End Serialize.

(** ** Reading *)

Section Read.
Context (pubId : DPS_UUID) (sequenceNum : Z) (Hid : uuid_ok pubId) (Hseq : 0 < sequenceNum < 2 ^ 32).

Lemma decode_ack_id mem eod f b n tl :
  reading mem eod b (wire (CBytes (uuid_val pubId)) ++ tl) ->
  decode_ack_protected DPS_CBOR_KEY_PUB_ID f b n =
    Some (DPS_OK, (Some pubId, f.2), rx_skip b (length (wire (CBytes (uuid_val pubId)))), n).
Proof using Hid.
  intros [Hb _ _ E]. rewrite uuid_val_wire, <- app_assoc in E.
  assert (length (uuid_val pubId) = 16%nat) as Hl by (unfold uuid_val; by rewrite length_app, !le_bytes_length).
  unfold decode_ack_protected, mbind, M_bind, lift. cbn -[wire uuid_val uuid_of_val].
  rewrite (CBOR_DecodeUUID_spec b (uuid_val pubId) [] tl Hb Hl E). cbn -[wire uuid_val uuid_of_val].
  rewrite le_value_uuid by done. cbn [wire]. by rewrite length_app, Hl.
Qed.

Lemma decode_ack_sequence mem eod f b n tl :
  reading mem eod b (wire (CInt sequenceNum) ++ tl) ->
  decode_ack_protected DPS_CBOR_KEY_ACK_SEQ_NUM f b n =
    Some (DPS_OK, (f.1, Some sequenceNum), rx_skip b (length (wire (CInt sequenceNum))), n).
Proof using Hseq.
  intros [Hb _ _ E]. assert (uint32 sequenceNum) as Hu by (split; lia).
  unfold decode_ack_protected, mbind, M_bind, lift. cbn -[wire].
  rewrite (DecodeUint32_wire b sequenceNum 0 tl Hb Hu E). cbn -[wire]. by rewrite (proj2 (Z.eqb_neq _ _)) by lia.
Qed.

Lemma ack_entries_ok : Forall entry_ok (ack_entries pubId sequenceNum).
Proof using Hseq.
  assert (cbor_ok (CBytes (uuid_val pubId))) as Hu by (split; [cbn; lia|apply uuid_val_bytes]).
  repeat (apply List.Forall_cons; [split; [by vm_compute|]|]); first [done|exact Hu|cbn; lia].
Qed.

Lemma wp_parse_ack_protected mem eod b rest (Q : DPS_Status * (option DPS_UUID * option Z) * DPS_RxBuffer -> DPS_Node -> Prop) n :
  reading mem eod b (map_wire (ack_entries pubId sequenceNum) ++ rest) ->
  (forall b', reading mem eod b' rest -> Q (DPS_OK, (Some pubId, Some sequenceNum), b') n) ->
  wp (parse_map decode_ack_protected AckProtectedKeys [] b (None, None)) Q n.
Proof using Hid Hseq.
  intros Hb HQ. apply (wp_parse_map _ mem rest eod _ _ b (ack_entries pubId sequenceNum)); try done.
  - apply ack_entries_ok.
  - repeat constructor; unfold DPS_CBOR_KEY_PUB_ID, DPS_CBOR_KEY_ACK_SEQ_NUM; lia.
  - repeat constructor; unfold DPS_CBOR_KEY_PUB_ID, DPS_CBOR_KEY_ACK_SEQ_NUM; lia.
  - apply SSorted_nil.
  - unfold AckProtectedKeys. repeat constructor; set_solver.
  - unfold AckProtectedKeys. repeat constructor; set_solver.
  - intros m fuel Hf Hm. change (length (ack_entries pubId sequenceNum)) with 2%nat in Hf.
    replace fuel with (S (S (fuel - 2)))%nat by lia.
    eapply wp_parse_pure; [exact Hm|unfold DPS_CBOR_KEY_PUB_ID; lia|by (intros; eapply decode_ack_id)|]. intros m1 Hm1.
    eapply wp_parse_pure; [exact Hm1|unfold DPS_CBOR_KEY_ACK_SEQ_NUM; lia|by (intros; eapply decode_ack_sequence)|]. intros m2 Hm2.
    eapply wp_parse_last; [exact Hm2|]. intros b' Hb'. by apply HQ.
Qed.
End Read.

Lemma ack_payload_bytes data : cbor_ok (CBytes data) -> Forall is_byte (map_wire (ack_payload data)).
Proof.
  intros Hd. unfold map_wire, ack_payload. cbn [length ewire flat_map fst snd]. rewrite app_nil_r.
  apply Forall_app_2; [apply cbor_head_bytes; [major|done]|].
  apply Forall_app_2; [by apply cbor_int_bytes|by apply wire_bytes].
Qed.

Lemma wp_ack_data data mem eod b tl n (Q : DPS_Status * option (list Z) * DPS_RxBuffer -> DPS_Node -> Prop) :
  Z.of_nat (length data) < 2 ^ 32 -> reading mem eod b (wire (CBytes data) ++ tl) ->
  Q (DPS_OK, payload_arg data, rx_skip b (length (wire (CBytes data)))) n ->
  wp (decode_ack_encrypted DPS_CBOR_KEY_DATA None b) Q n.
Proof.
  intros Hl [Hwf _ _ E] HQ. cbn [wire] in E. rewrite <- app_assoc in E. unfold decode_ack_encrypted.
  change (DPS_CBOR_KEY_DATA =? DPS_CBOR_KEY_DATA) with true. wp_go. eapply wp_lift; [by eapply CBOR_DecodeBytes_spec|]. wp_go. ok.
  eapply wp_lift; [by apply (decoded_bytes_spec b (cbor_head CBOR_BYTES (Z.of_nat (length data))) data tl Hwf E)|]. wp_go.
  unfold payload_arg in HQ. by destruct (decide (data = [])).
Qed.

Lemma wp_parse_ack_payload data n (Q : DPS_Status * option (list Z) * DPS_RxBuffer -> DPS_Node -> Prop) :
  cbor_ok (CBytes data) -> Z.of_nat (length (map_wire (ack_payload data))) < 2 ^ 32 ->
  (forall b, Q (DPS_OK, payload_arg data, b) n) ->
  wp (parse_map decode_ack_encrypted AckEncryptedKeys [] (rx_of (map_wire (ack_payload data))) None) Q n.
Proof.
  intros Hd Hlen HQ. set (bytes := map_wire _) in *.
  apply (wp_parse_map _ bytes [] (length bytes) _ _ _ (ack_payload data)); try done.
  - rewrite app_nil_r. apply rx_of_reading; [by apply ack_payload_bytes|done].
  - apply List.Forall_cons; [split; [by vm_compute|done]|done].
  - repeat constructor.
  - repeat constructor.
  - apply SSorted_nil.
  - unfold AckEncryptedKeys. repeat constructor; set_solver.
  - unfold AckEncryptedKeys. repeat constructor; set_solver.
  - intros m fuel Hf Hm. cbn [length ack_payload] in Hf. replace fuel with (S (fuel - 1))%nat by lia.
    eapply (wp_parse_key _ bytes [] (length bytes) _ m _ _ _ _ (fun d n' => d = payload_arg data /\ n' = n));
      [exact Hm|by vm_compute| |].
    + intros b Hb. eapply wp_ack_data; [apply Hd|exact Hb|]. by left.
    + intros m2 ? ? Hm2 [-> ->]. eapply wp_parse_last; [exact Hm2|]. intros b' _. apply HQ.
Qed.

(** A map is not tagged: the acknowledgement was not encrypted. *)
Lemma Peek_ack data :
  cbor_ok (CBytes data) -> Z.of_nat (length (map_wire (ack_payload data))) < 2 ^ 32 ->
  CBOR_Peek (rx_of (map_wire (ack_payload data))) (Some 0) (Some 0) = Some (DPS_OK, Some CBOR_MAP, Some 1).
Proof.
  intros Hd Hl. pose proof (ack_payload_bytes data Hd) as Hb. set (bs := map_wire _) in *.
  assert (bs = cbor_head CBOR_MAP 1 ++ 12 :: wire (CBytes data)) as E.
  { unfold bs, map_wire, ack_payload. cbn [length ewire flat_map fst snd]. change (cbor_int DPS_CBOR_KEY_DATA) with [12].
    by rewrite app_nil_r. }
  destruct (rx_of_reading bs Hb Hl) as [Hwf _ _ Er].
  pose proof (DPS_RxBufferAvail_spec _ Hwf) as Ha. rewrite Er in Ha.
  assert (2 <= Z.of_nat (length bs)) by (rewrite E, length_app; cbn [length]; change (length (cbor_head CBOR_MAP 1)) with 1%nat; lia).
  unfold CBOR_Peek. rewrite (proj2 (Z.ltb_ge _ _)) by lia.
  rewrite (PeekUint_spec (rx_of bs) CBOR_MAP 1 0 0 0 (12 :: wire (CBytes data))) by (first [exact Hwf|major|lia|congruence]).
  cbn [mbind option_bind]. change (is_OK DPS_OK && MAJOR_ENCODES_LENGTH CBOR_MAP) with (MAJOR_ENCODES_LENGTH CBOR_MAP).
  rewrite Z.geb_leb, (proj2 (Z.leb_gt _ _)), andb_false_r by lia. done.
Qed.

(** The empty map. *)
Lemma Skip_empty_map b tl :
  rx_wf b -> rx_rest b = wire (CMap []) ++ tl ->
  exists sk, CBOR_Skip (skip_fuel b) b (Some 0) (Some 0) = Some (DPS_OK, Some CBOR_MAP, sk, rx_skip b (length (wire (CMap [])))).
Proof.
  intros Hb E. pose proof (DPS_RxBufferAvail_spec _ Hb) as Ha. rewrite E in Ha. change (length (wire (CMap []))) with 1%nat.
  assert (1 <= DPS_RxBufferAvail b) as Ha' by (rewrite Ha, length_app; change (length (wire (CMap []))) with 1%nat; lia).
  unfold skip_fuel. cbn [CBOR_Skip]. rewrite (proj2 (Z.ltb_ge _ _)) by lia.
  rewrite (rx_peek_eq b _ 0 0xA0 E) by done. cbn [mbind option_bind].
  change (0xA0 .& 0xE0) with CBOR_MAP. cbn -[DecodeUint rx_skip].
  change 160 with CBOR_MAP. rewrite (DecodeUint_head b CBOR_MAP 0 0 tl Hb ltac:(major) ltac:(lia) E). cbn -[rx_skip].
  destruct (Z.to_nat (DPS_RxBufferAvail b)); cbn -[rx_skip]; by eexists.
Qed.

(** ** Receiving *)

(** The publication takes acknowledgements of this message. *)
Definition takes_ack (pubId : DPS_UUID) (sequenceNum : Z) (pb : DPS_Publication) : bool :=
  bool_decide (is_Some (p_handler pb)) && (DPS_UUIDCompare (p_pubId pb) pubId =? 0) && (sequenceNum <=? p_sequenceNum pb).

Definition refuses (pubs : gmap ptr DPS_Publication) (pubId : DPS_UUID) (sequenceNum : Z) (pub : ptr) : Prop :=
  exists pb, pubs !! pub = Some pb /\ takes_ack pubId sequenceNum pb = false.

Lemma wp_lookup_refused pubId sequenceNum l tl n (Q : option ptr -> DPS_Node -> Prop) :
  Forall (refuses (n_pubs n) pubId sequenceNum) l ->
  wp (lookup_ack_handler pubId sequenceNum tl) Q n -> wp (lookup_ack_handler pubId sequenceNum (l ++ tl)) Q n.
Proof.
  intros Hl HQ. induction Hl as [|p l (pb & E & Ht) Hl IH]; [exact HQ|]. cbn [app lookup_ack_handler]. wp_go.
  eapply wp_load; [exact E|]. wp_go. unfold takes_ack in Ht. by rewrite Ht.
Qed.

(** The publication [pub] of the node waits for the acknowledgement. *)
Record waiting (n : DPS_Node) (pubId : DPS_UUID) (sequenceNum : Z) (pub : ptr) (pb : DPS_Publication) (handler : Z) : Prop := {
  wt_list : exists l1 l2, n_publications n = l1 ++ pub :: l2 /\ Forall (refuses (n_pubs n) pubId sequenceNum) l1;
  wt_pub : n_pubs n !! pub = Some pb /\ p_handler pb = Some handler;
  wt_id : p_pubId pb = pubId /\ sequenceNum <= p_sequenceNum pb;
  wt_refs : 0 <= p_refCount pb /\ p_refCount pb + 1 < 2 ^ 32 /\ has_flag (p_flags pb) PUB_FLAG_WAS_FREED = false
}.

Lemma UUIDCompare_refl u : DPS_UUIDCompare u u = 0.
Proof. unfold DPS_UUIDCompare. by rewrite !Z.gtb_ltb, !Z.ltb_irrefl. Qed.

Lemma wp_LookupAckHandler n pubId sequenceNum pub pb handler (Q : option ptr -> DPS_Node -> Prop) :
  waiting n pubId sequenceNum pub pb handler -> Q (Some pub) n -> wp (DPS_LookupAckHandler pubId sequenceNum) Q n.
Proof.
  intros [(l1 & l2 & El & Hl) [Ep Eh] [Ei Hs] _] HQ. unfold DPS_LookupAckHandler. wp_go. rewrite El.
  apply wp_lookup_refused; [done|]. cbn [lookup_ack_handler]. wp_go. eapply wp_load; [exact Ep|]. wp_go.
  rewrite Eh, Ei, UUIDCompare_refl, bool_decide_eq_true_2, (proj2 (Z.leb_le _ _)) by (done || by eexists). by wp_go.
Qed.

Lemma wp_LookupAckHandler_none n pubId sequenceNum (Q : option ptr -> DPS_Node -> Prop) :
  Forall (refuses (n_pubs n) pubId sequenceNum) (n_publications n) -> Q None n -> wp (DPS_LookupAckHandler pubId sequenceNum) Q n.
Proof.
  intros Hl HQ. unfold DPS_LookupAckHandler. wp_go. rewrite <- (app_nil_r (n_publications n)).
  apply wp_lookup_refused; [done|]. cbn. by wp_go.
Qed.

(** The publication when its handler is told, and after. *)
Definition told (sequenceNum : Z) (addr : DPS_NodeAddress) (pb : DPS_Publication) : DPS_Publication :=
  pb <| p_refCount := p_refCount pb + 1 |> <| p_ack_sequenceNum := sequenceNum |> <| p_ack_senderAddr := addr |>.
Definition ack_done (pb : DPS_Publication) : DPS_Publication :=
  pb <| p_ack_sequenceNum := 0 |> <| p_ack_sender := no_entity |> <| p_ack_senderAddr := zero_sock_addr |>.

Section Receive.
Context `{Env : Environment} `{Crypto : Cose}.
Context (pubId : DPS_UUID) (sequenceNum : Z) (data : list Z) (Hid : uuid_ok pubId) (Hseq : 0 < sequenceNum < 2 ^ 32).

(** The front of [DPS_DecodeAcknowledgement]. *)
Lemma wp_decode_ack mem eod e b n (Q : DPS_Status -> DPS_Node -> Prop) :
  reading mem eod b (wire (CMap []) ++ map_wire (ack_entries pubId sequenceNum) ++ map_wire (ack_payload data)) ->
  wp (DPS_LookupAckHandler pubId sequenceNum) (fun pub n' =>
    wp (match pub with
        | Some pub => handle_ack pub sequenceNum e (map_wire (ack_entries pubId sequenceNum)) (map_wire (ack_payload data))
        | None => forward_ack pubId sequenceNum e (take eod mem)
        end) Q n') n ->
  wp (DPS_DecodeAcknowledgement e b) Q n.
Proof using Hid Hseq.
  intros Hb HQ. unfold DPS_DecodeAcknowledgement. wp_go.
  destruct (Skip_empty_map b (map_wire (ack_entries pubId sequenceNum) ++ map_wire (ack_payload data))) as (sk & Es); [apply Hb..|].
  eapply wp_lift; [exact Es|]. wp_go. ok. change (negb (default 0 (Some CBOR_MAP) =? CBOR_MAP)) with false. cbv iota.
  apply reading_skip in Hb. wp_go.
  eapply (wp_parse_ack_protected pubId sequenceNum Hid Hseq mem eod); [exact Hb|]. intros b' Hb'. wp_go. ok.
  eapply wp_lift; [done|]. wp_go. eapply wp_lift; [done|]. wp_go. eapply wp_lift; [by eapply reading_slice|]. wp_go.
  eapply wp_mono; [exact HQ|]. intros pub n' H. rewrite (rd_rest _ _ _ _ Hb'), (rd_mem _ _ _ _ Hb'), (rd_eod _ _ _ _ Hb'). exact H.
Qed.

#[local] Abbreviation cleared pb r s a := (pb <| p_refCount := r |> <| p_ack_sequenceNum := s |> <| p_ack_senderAddr := a |>
  <| p_ack_sequenceNum := 0 |> <| p_ack_sender := no_entity |> <| p_ack_senderAddr := zero_sock_addr |>).
Lemma cleared_fields (pb : DPS_Publication) r s a :
  p_refCount (cleared pb r s a) = r /\ p_flags (cleared pb r s a) = p_flags pb /\
  (cleared pb r s a) <| p_refCount := p_refCount pb |> = ack_done pb.
Proof. by destruct pb. Qed.

Lemma set_pub_twice n pub (pb1 pb2 : DPS_Publication) :
  set n_pubs <[pub := pb2]> (set n_pubs <[pub := pb1]> n) = set n_pubs <[pub := pb2]> n.
Proof. destruct n. unfold set, set_n_pubs. cbn. by rewrite insert_insert_eq. Qed.
Lemma set_pub_events n f evs : (set n_pubs f n) <| n_events := evs |> = set n_pubs f (n <| n_events := evs |>).
Proof. by destruct n. Qed.
Lemma set_pub_eta n pub (pb : DPS_Publication) evs :
  n <| n_events := evs |> <| n_pubs := <[pub := pb]> (n_pubs n) |> = set n_pubs <[pub := pb]> (n <| n_events := evs |>).
Proof. by destruct n. Qed.

Lemma acked_state n pub (pb1 pb2 pb3 pb4 : DPS_Publication) ev evs :
  evs = n_events n ->
  n <| n_events := ev :: n_events n |> <| n_pubs := <[pub := pb4]> (n_pubs n) |> =
  set n_pubs <[pub := pb4]> (set n_pubs <[pub := pb3]>
    ((set n_pubs <[pub := pb2]> (set n_pubs <[pub := pb1]> n)) <| n_events := ev :: evs |>)).
Proof. intros ->. by rewrite !set_pub_events, !set_pub_twice, set_pub_eta. Qed.

Lemma wp_handle_ack e pub pb handler aad n (Q : DPS_Status -> DPS_Node -> Prop) :
  n_pubs n !! pub = Some pb -> p_handler pb = Some handler ->
  0 <= p_refCount pb /\ p_refCount pb + 1 < 2 ^ 32 /\ has_flag (p_flags pb) PUB_FLAG_WAS_FREED = false ->
  cbor_ok (CBytes data) -> Z.of_nat (length (map_wire (ack_payload data))) < 2 ^ 32 ->
  Q DPS_OK (n <| n_events := EvAck handler pub (told sequenceNum (ep_addr e) pb) (payload_arg data) :: n_events n |>
              <| n_pubs := <[pub := ack_done pb]> (n_pubs n) |>) ->
  wp (handle_ack pub sequenceNum e aad (map_wire (ack_payload data))) Q n.
Proof.
  intros Ep Eh (Hr0 & Hr1 & Hf) Hd Hl HQ. assert (u32 (p_refCount pb + 1) = p_refCount pb + 1) as Hu by (apply u32_small; lia).
  unfold handle_ack, DPS_PublicationIncRef, open_ack. wp_go.
  eapply wp_update; [exact Ep|]. wp_go. eapply wp_lift; [by apply Peek_ack|]. wp_go. ok.
  change (default 0 (Some CBOR_MAP) =? CBOR_TAG) with false. cbn [negb orb]. wp_go. ok.
  apply wp_parse_ack_payload; [done|done|]. intros b. wp_go. ok.
  eapply wp_update; [apply lookup_insert_eq|]. wp_go. eapply wp_load; [apply lookup_insert_eq|]. wp_go.
  eapply wp_lift; [exact Eh|]. wp_go. unfold clear_ack, DPS_PublicationDecRef. eapply wp_update; [apply lookup_insert_eq|]. wp_go.
  eapply wp_load; [apply lookup_insert_eq|]. wp_go. rewrite Hu.
  destruct (cleared_fields pb (p_refCount pb + 1) sequenceNum (ep_addr e)) as (C1 & C2 & C3).
  rewrite C1, C2. apply wp_assert; [by rewrite (proj2 (Z.eqb_neq _ _)) by lia|]. wp_go.
  eapply wp_update; [apply lookup_insert_eq|]. wp_go. rewrite Hf, andb_false_r. cbn [when]. wp_go.
  rewrite C1. replace (u32 (p_refCount pb + 1 - 1)) with (p_refCount pb) by (rewrite u32_small; lia). rewrite C3.
  refine (eq_ind _ (Q DPS_OK) HQ _ _). by apply acked_state.
Qed.
End Receive.

(** ** On the way *)

Section Forward.
Context `{Env : Environment} `{Crypto : Cose} (nI : nat).

(** The connection to an address, if there is one, or the address itself. *)
Definition endpoint_of (n : DPS_Node) (addr : DPS_NodeAddress) (e : DPS_NetEndpoint) : Prop :=
  (exists p r, n_remotes n !! p = Some r /\ e = ep r /\ DPS_SameAddr (ep_addr (ep r)) addr = Some true) \/
  e = mkEp addr None /\ forall p r, n_remotes n !! p = Some r -> DPS_SameAddr (ep_addr (ep r)) addr = Some false.

Lemma wp_ack_endpoint n addr (Q : DPS_NetEndpoint -> DPS_Node -> Prop) :
  node_inv nI n -> addr_ok addr -> (forall e, endpoint_of n addr e -> Q e n) -> wp (ack_endpoint addr) Q n.
Proof.
  intros H Ha HQ. unfold ack_endpoint. wp_go. apply (wp_LookupRemoteNode nI); [done|done|]. intros [p|] Hs Hn; wp_go.
  - destruct (Hs p eq_refl) as (r & E & Es). eapply wp_load; [exact E|]. wp_go. apply HQ. left. by exists p, r.
  - apply HQ. right. split; [done|]. by apply Hn.
Qed.

(** What the history says of the way back. *)
Record way_back (n : DPS_Node) (pubId : DPS_UUID) (sequenceNum : Z) (e : DPS_NetEndpoint) (sn : Z) (addr : DPS_NodeAddress)
    (back : bool) : Prop := {
  wb_found : DPS_LookupPublisherForAck (n_history n) pubId = Some (DPS_OK, sn, Some addr);
  wb_back : DPS_SameAddr (ep_addr e) addr = Some back;
  wb_addr : addr_ok addr
}.

Lemma wp_forward_ack n pubId sequenceNum e sn addr back message (Q : DPS_Status -> DPS_Node -> Prop) :
  node_inv nI n -> way_back n pubId sequenceNum e sn addr back -> env_send (n_sends n) = DPS_OK ->
  (sn < sequenceNum \/ back = true -> Q DPS_OK n) ->
  (sequenceNum <= sn -> back = false -> forall e2, endpoint_of n addr e2 ->
     Q DPS_OK (n <| n_sends := S (n_sends n) |> <| n_events := EvRxIncRef :: EvNetSend e2 message DPS_OK :: n_events n |>)) ->
  wp (forward_ack pubId sequenceNum e message) Q n.
Proof.
  intros H [Ef Eb Ha] Hsend Hno Hyes. unfold forward_ack. wp_go. eapply wp_lift; [exact Ef|]. wp_go.
  change (negb (is_OK DPS_OK)) with false. cbn [orb]. destruct (Z.leb_spec sequenceNum sn) as [Hle|Hlt]; cbn [negb]; wp_go.
  2: { apply Hno. by left. }
  eapply wp_lift; [exact Eb|]. wp_go. destruct back; wp_go; [apply Hno; by right|].
  apply wp_ack_endpoint; [done|done|]. intros e2 He2. wp_go. apply wp_NetSend. rewrite Hsend. wp_go.
  change (is_OK DPS_OK) with true. cbv iota. wp_go. by apply (Hyes Hle eq_refl e2).
Qed.
End Forward.

(** ** The way out *)

(** Two states with the same fields are the same. *)
Lemma node_ext (n m : DPS_Node) :
  n_remotes n = n_remotes m -> n_remoteNodes n = n_remoteNodes m -> n_subs n = n_subs m ->
  n_subscriptions n = n_subscriptions m -> n_freeSubs n = n_freeSubs m -> n_pubs n = n_pubs m ->
  n_publications n = n_publications m -> n_freePubs n = n_freePubs m -> n_reqs n = n_reqs m -> n_cpns n = n_cpns m ->
  n_requestQueue n = n_requestQueue m -> n_acks n = n_acks m -> n_ackQueue n = n_ackQueue m ->
  n_scratch_needs n = n_scratch_needs m -> n_scratch_interests n = n_scratch_interests m ->
  n_interests n = n_interests m -> n_needs n = n_needs m -> n_history n = n_history m -> n_signer n = n_signer m ->
  n_meshId n = n_meshId m -> n_entropy n = n_entropy m -> n_addr n = n_addr m -> n_separators n = n_separators m ->
  n_subsPending n = n_subsPending m -> n_state n = n_state m -> n_onShutdown n = n_onShutdown m ->
  n_linkLossCB n = n_linkLossCB m -> n_loop n = n_loop m -> n_netCtx n = n_netCtx m ->
  n_mcastSender n = n_mcastSender m -> n_mcastReceiver n = n_mcastReceiver m -> n_onDestroyed n = n_onDestroyed m ->
  n_mcastPub n = n_mcastPub m -> n_now n = n_now m -> n_subsRate n = n_subsRate m ->
  n_linkLossTimeout n = n_linkLossTimeout m -> n_allocs n = n_allocs m -> n_sends n = n_sends m ->
  n_events n = n_events m -> n = m.
Proof. destruct n, m. cbn. intros. by subst. Qed.


Section Out.
Context `{Env : Environment} `{Crypto : Cose}.
Context (Hmem : forall k, env_alloc k = true).
Context (Hbytes : forall k size, length (env_bytes k size) = size /\ Forall is_byte (env_bytes k size)).

(** No publication of this node has this identifier. *)
Definition not_local (n : DPS_Node) (pubId : DPS_UUID) : Prop :=
  Forall (fun q => exists qb, n_pubs n !! q = Some qb /\
    has_flag (p_flags qb) PUB_FLAG_LOCAL && (DPS_UUIDCompare (p_pubId qb) pubId =? 0) = false) (n_publications n).

Lemma wp_local_publication n pubId (Q : bool -> DPS_Node -> Prop) :
  not_local n pubId -> Q false n -> wp (l ← gets n_publications; local_publication pubId l) Q n.
Proof.
  unfold not_local. intros Hl HQ. wp_go. induction Hl as [|q l (qb & E & Hq) Hl IH]; cbn [local_publication]; wp_go; [done|].
  eapply wp_load; [exact E|]. wp_go. by rewrite Hq.
Qed.

Lemma wp_SendAcknowledgement n ack a pb e (Q : DPS_Status -> DPS_Node -> Prop) :
  n_acks n !! ack = Some a -> n_pubs n !! a_pub a = Some pb -> not_local n (p_pubId pb) -> env_send (n_sends n) = DPS_OK ->
  Q DPS_OK (n <| n_sends := S (n_sends n) |> <| n_events := EvNetSend e (concat (a_bufs a)) DPS_OK :: n_events n |>) ->
  wp (DPS_SendAcknowledgement ack e) Q n.
Proof.
  intros Ea Ep Hl Hsend HQ. unfold DPS_SendAcknowledgement. wp_go. eapply wp_load; [exact Ea|]. wp_go.
  eapply wp_load; [exact Ep|]. wp_go.
  pose proof (wp_local_publication n (p_pubId pb) (fun b n' => b = false /\ n' = n) Hl (conj eq_refl eq_refl)) as Hw.
  unfold wp at 1, gets, mbind, M_bind in Hw. cbn in Hw.
  eapply wp_mono; [exact Hw|]. intros b n' [-> ->]. wp_go. apply wp_NetSend. rewrite Hsend. wp_go.
  change (is_OK DPS_OK) with true. cbv iota. wp_go. exact HQ.
Qed.

(** An acknowledgement that can be made: of a publication that this node received in the
    clear, and whose way back is known. *)
Record can_ack (n : DPS_Node) (pub : ptr) (pb : DPS_Publication) (addr : DPS_NodeAddress) (bufs : list (list Z)) : Prop := {
  ca_pub : n_pubs n !! pub = Some pb;
  ca_flags : has_flag (p_flags pb) PUB_FLAG_LOCAL = false;
  ca_bufs : (length bufs <= DPS_BUFS_MAX)%nat /\ Z.of_nat (length (concat bufs)) < 2 ^ 31;
  ca_clear : p_recipients pb = [] /\ e_alg (n_signer n) = 0;
  ca_way : exists sn, DPS_LookupPublisherForAck (n_history n) (p_pubId pb) = Some (DPS_OK, sn, Some addr);
  ca_running : n_netCtx n = true;
  ca_sequenceNum : 0 < p_sequenceNum pb < 2 ^ 32
}.

Lemma wp_AckPublicationBufs n pub pb addr bufs cb (Q : DPS_Status -> DPS_Node -> Prop) :
  can_ack n pub pb addr bufs ->
  (forall ack parts k, n_acks n !! ack = None -> concat parts = ack_wire (p_pubId pb) (p_sequenceNum pb) (concat bufs) ->
     Q DPS_OK (n <| n_pubs := <[pub := pb <| p_refCount := u32 (p_refCount pb + 1) |>]> (n_pubs n) |>
       <| n_acks := <[ack := mkAck pub addr (p_sequenceNum pb) cb DPS_OK parts]> (n_acks n) |> <| n_allocs := k |>
       <| n_ackQueue := n_ackQueue n ++ [ack] |> <| n_events := EvAsyncSend acksAsync :: n_events n |>)) ->
  wp (DPS_AckPublicationBufs (Some pub) bufs cb) Q n.
Proof using Hmem Hbytes.
  intros [Ep Ef [Hn Hl] Hc (sn & Ew) Hr Hs] HQ. unfold DPS_AckPublicationBufs. wp_go. eapply wp_load; [exact Ep|]. wp_go.
  rewrite Ef, bool_decide_eq_false_2 by lia. wp_go. eapply wp_lift; [exact Ew|]. wp_go. ok.
  unfold CreateAck. wp_go. unfold wp at 1, alloc_ok. rewrite Hmem. wp_go. cbn [negb]. wp_go.
  eapply wp_load; [exact Ep|]. wp_go. apply wp_new. intros ack Hack. wp_go. unfold DPS_PublicationIncRef.
  eapply wp_update; [exact Ep|]. wp_go.
  eapply (wp_SerializeAck Hmem Hbytes); [split|exact Hl|].
  - apply lookup_insert_eq.
  - split; [apply lookup_insert_eq|done].
  - cbn [a_bufs]. by rewrite length_replicate.
  - done.
  - exact Hr.
  - exact Hs.
  - intros parts k Hparts. wp_go. change (is_OK DPS_OK) with true. cbv iota. wp_go. eapply wp_update; [apply lookup_insert_eq|]. wp_go.
    unfold DPS_QueuePublicationAck. wp_go.
    refine (eq_ind _ (Q DPS_OK) (HQ ack parts k Hack Hparts) _ _).
    apply node_ext; try reflexivity. symmetry.
    exact (eq_trans (insert_insert_eq (<[ack := _]> (n_acks n)) ack _ _) (insert_insert_eq (n_acks n) ack _ _)).
Qed.
End Out.
