(* ===== verification/SyncProofs.v ===== *)
(** * What a neighbour records ([src/sub.c], [src/dps.c])

    The handling of a subscription message from a remote that is known. *)
From S2P Require Import Prelude Status Buffer Float Cbor CborProofs CborValues CborMap.
From S2P Require Import BitVec BitVecProofs BitVecSerial CountVec Uuid Addr History Node Remote RemoteProofs.
From S2P Require Import Sub SubProofs NodeTheorems Frame SubMsg SubMsgProofs SendProofs Pub PubProofs Link.
From S2P Require Import SubDecode SubDecodeProofs.
From stdpp Require Import gmap.
#[local] Open Scope Z_scope.
#[local] Set Warnings "-clear-no-such-hyp".

Section Sync.
Context `{Env : Environment} (nI : nat).
Context (Hsize : bitLen env_config = 64 * Z.of_nat nI) (HnI : (0 < nI)%nat) (Hsmall : 64 * Z.of_nat nI <= 65535).
Context (Hbytes : forall k size, length (env_bytes k size) = size /\ Forall is_byte (env_bytes k size)).

(** Only one remote changed, and things that the invariant covers. *)
Record moved (n : DPS_Node) (q : ptr) (n' : DPS_Node) (s' : RemoteNode) : Prop := {
  mv_inv : node_inv nI n';
  mv_keeps : keeps n n';
  mv_remotes : n_remotes n' = <[q := s']> (n_remotes n);
  mv_list : n_remoteNodes n' ≡ₚ n_remoteNodes n
}.

Lemma moved_refl n q s : node_inv nI n -> n_remotes n !! q = Some s -> moved n q n s.
Proof. intros H E. split; [done|done|by rewrite insert_id|done]. Qed.

Lemma moved_trans n q n1 s1 n2 s2 : moved n q n1 s1 -> moved n1 q n2 s2 -> moved n q n2 s2.
Proof.
  intros [I1 K1 R1 L1] [I2 K2 R2 L2]. split; [done|by etrans| |by etrans].
  by rewrite R2, R1, insert_insert_eq.
Qed.

Lemma moved_at n q n' s' : moved n q n' s' -> n_remotes n' !! q = Some s'.
Proof. intros [_ _ -> _]. apply lookup_insert_eq. Qed.

Lemma moved_room n q n' s' : moved n q n' s' -> room n -> room n'.
Proof. intros [_ K _ L]. unfold room. by rewrite L, (k_subscriptions _ _ K). Qed.

Lemma moved_sending n q n' s' : moved n q n' s' -> sending_ok n -> sending_ok n'.
Proof. intros [_ K _ _] [H1 H2]. split; [by rewrite (k_addr _ _ K)|by rewrite (k_meshId _ _ K)]. Qed.

(** A change of the fields that are not counted. *)
Lemma moved_fields n q s s' :
  node_inv nI n -> n_remotes n !! q = Some s -> remote_ok nI s' ->
  in_interests (inbound s') = in_interests (inbound s) -> in_needs (inbound s') = in_needs (inbound s) ->
  completion s' = completion s -> moved n q (n <| n_remotes := <[q := s']> (n_remotes n) |>) s'.
Proof.
  intros H E Hr Ei Ed Ec. split; [|by constructor|done|done].
  eapply (node_inv_update nI n _ q s s'); try done.
  - unfold remote_interests, remote_needs. rewrite Ei, Ed.
    destruct (counted_split nI n q s H E) as (H1 & H2 & H3). split; [exact H1|]. split; [exact H2|exact H3].
  - eapply (completions_update n); try done. apply H.
Qed.

Lemma moved_pubs n q n1 s n' : moved n q n1 s -> pubs_kept n1 n' -> moved n q n' s.
Proof.
  intros [I K R L] P. destruct (node_inv_pub_frame nI n1 n' I (pk_frame _ _ P)) as [I' K'].
  pose proof (pk_frame _ _ P) as F. split; [done|by etrans|by rewrite F|by rewrite F].
Qed.

(** ** Muting *)

Definition same_or_muted (s s' : RemoteNode) : Prop :=
  s' = s \/ inbound s' = inbound s /\ completion s' = completion s /\ ep s' = ep s /\
    r_state s' = REMOTE_MUTED /\ sendInterests (outbound s') = false.

Lemma wp_MeshHasLoop n q s u (Q : bool -> DPS_Node -> Prop) :
  node_inv nI n -> n_remotes n !! q = Some s -> (forall b, Q b n) -> wp (MeshHasLoop q u) Q n.
Proof.
  intros H E HQ. unfold MeshHasLoop. wp_go. eapply wp_load; [exact E|]. wp_go.
  destruct (_ =? 0); [wp_go; apply HQ|]. wp_go. apply (wp_MinMeshId nI); [done|]. intros m _. wp_go. apply HQ.
Qed.

Lemma wp_check_loop n q s f u (Q : DPS_Status -> DPS_Node -> Prop) :
  node_inv nI n -> n_remotes n !! q = Some s -> has_flag (sf_flags f) DPS_SUB_FLAG_UNMUTE_REQ = false ->
  (forall n' s', moved n q n' s' -> same_or_muted s s' -> pub_view n' = pub_view n -> Q DPS_OK n') ->
  wp (check_loop false f q u) Q n.
Proof.
  intros H E Hf HQ. unfold check_loop. wp_go. eapply wp_load; [exact E|]. wp_go. rewrite Hf.
  assert (Q DPS_OK n) as Hsame by (apply (HQ n s); [by apply moved_refl|by left|done]).
  destruct (_ || _); [by wp_go|]. wp_go.
  assert (forall b : bool, wp (if b then DPS_MuteRemoteNode q REMOTE_MUTED else mret DPS_OK) Q n) as Hb.
  { intros []; [|by wp_go]. apply (wp_leaves pub_view); [apply leaves_MuteRemoteNode|].
    apply (wp_MuteRemoteNode nI n q s); [done|done|]. intros n' s' I K L R Ei Ec Ee Hs1 Hs2 V.
    apply (HQ n' s'); [by split| |done]. destruct (decide (r_state s = REMOTE_MUTED \/ r_state s = REMOTE_UNLINKING)) as [D|D].
    - left. by apply Hs1.
    - destruct Hs2 as (S1 & _ & S3); [tauto..|]. right. by split_and!. }
  destruct (has_flag (sf_flags f) DPS_SUB_FLAG_MUTE_IND); [wp_go; apply (Hb true)|].
  apply (wp_MeshHasLoop n q s); [done|done|]. intros b. apply Hb.
Qed.

(** ** The interests *)

(** What is recorded of a message, unless it repeats the last one. *)
Definition recorded (s s' : RemoteNode) (f : SubFields) (iv nd : DPS_BitVector) : Prop :=
  if in_revision (inbound s) =? sf_revision f
  then in_interests (inbound s') = in_interests (inbound s) /\ in_needs (inbound s') = in_needs (inbound s)
  else
    vec_bits nI (in_interests (inbound s')) = received nI s iv (has_flag (sf_flags f) DPS_SUB_FLAG_DELTA_IND) /\
    (in_needs (inbound s') = Some nd \/ in_needs (inbound s') = None /\
       Forall (eq 0) (received nI s iv (has_flag (sf_flags f) DPS_SUB_FLAG_DELTA_IND))).

Lemma wp_take_interests n q s f iv nd isDup (Q : unit -> DPS_Node -> Prop) :
  node_inv nI n -> pubs_alive n -> room n -> n_remotes n !! q = Some s ->
  sf_interests f = Some iv -> vec_ok nI iv -> sf_needs f = Some nd -> vec_ok FH_CHUNKS nd ->
  (forall n' s', moved n q n' s' -> n_sends n' = n_sends n ->
     s' = s <| inbound := (inbound s) <| in_interests := in_interests (inbound s') |> <| in_needs := in_needs (inbound s') |> |> ->
     (if isDup : bool then s' = s else
        vec_bits nI (in_interests (inbound s')) = received nI s iv (has_flag (sf_flags f) DPS_SUB_FLAG_DELTA_IND) /\
        (in_needs (inbound s') = Some nd \/ in_needs (inbound s') = None /\
           Forall (eq 0) (received nI s iv (has_flag (sf_flags f) DPS_SUB_FLAG_DELTA_IND)))) -> Q () n') ->
  wp (take_interests q f isDup) Q n.
Proof.
  intros H Hp Hr E Ei Wi Ed Wd HQ. unfold take_interests. destruct isDup.
  { wp_go. apply (HQ n s); [by apply moved_refl|done|by destruct s as [? ? [] ? ?]|done]. }
  wp_go. eapply wp_lift; [exact Ei|]. wp_go. eapply wp_lift; [exact Ed|]. wp_go.
  destruct (room_rest n q Hr) as [R1 R2].
  apply (wp_leaves pub_view); [apply leaves_UpdateInboundInterests|].
  apply (wp_UpdateInboundInterests nI n q s); try done.
  intros n1 s1 I1 K1 L1 M1 [A1 A2 A3 A4] V1. unfold remote_interests, remote_needs in *.
  assert (moved n q n1 s1) as Mv by (split; [done|done|done|by rewrite L1]).
  apply wp_UpdatePubs.
  - unfold pubs_alive. unfold pub_view in V1. injection V1 as _ -> -> _ _ _ _. exact Hp.
  - intros n' P. apply (HQ n' s1); [by eapply moved_pubs| |exact A1|done].
    rewrite (pk_frame _ _ P). unfold pub_view in V1. by injection V1.
Qed.

(** ** The acknowledgement *)

(** What a SAK to the remote may carry. *)
Definition answerable (s : RemoteNode) : Prop :=
  r_state s <> REMOTE_UNMUTING /\ (sendInterests (outbound s) = true -> ready s).

Lemma send_failed_kept n q s n' :
  send_failed nI n q s n' -> env_send (n_sends n) = DPS_OK ->
  exists s', moved n q n' s' /\ inbound s' = inbound s /\ ep s' = ep s /\ completion s' = completion s.
Proof.
  intros [I K (s' & E1 & E2 & E3 & [[E4 E5]|[Ef _]])] Hs; [|by rewrite Hs in Ef].
  destruct E5 as [E5 _]. exists s'. split_and!; try done. split; [done|done|done|by rewrite E5].
Qed.

Lemma wp_ack n q s collision (Q : DPS_Status -> DPS_Node -> Prop) :
  node_inv nI n -> n_remotes n !! q = Some s -> sending_ok n -> answerable s -> env_send (n_sends n) = DPS_OK ->
  (forall ret n' s', moved n q n' s' -> inbound s' = inbound s -> ep s' = ep s -> completion s' = completion s ->
     Q ret n') ->
  wp (DPS_SendSubscriptionAck q collision) Q n.
Proof.
  intros H E Hs [Hst Hrd] Hsend HQ. assert (unmuted s = s) as Eu by (unfold unmuted; by rewrite bool_decide_eq_false_2).
  assert (n <| n_remotes := <[q := s]> (n_remotes n) |> = n) as En by (rewrite insert_id by done; by destruct n).
  apply (wp_SendSubscriptionAck nI HnI Hsmall Hbytes n q s); [done|done|done|..]; rewrite ?Eu, ?En.
  - intros [_ Hi]%andb_true_iff. by apply Hrd.
  - intros ret n' _ Hf. destruct (send_failed_kept n q s n' Hf Hsend) as (s' & Mv & E1 & E2 & E3). by eapply HQ.
  - intros _. apply (HQ _ n s); [by apply moved_refl|done..].
  - intros n' [I K L R _]. eapply (HQ _ n'); [split; [done|done|exact R|by rewrite L]|done..].
Qed.

(** ** A SUB from a remote that is known *)

Lemma wp_message_done n q s u ret (Q : DPS_Status -> DPS_Node -> Prop) :
  node_inv nI n -> n_remotes n !! q = Some s -> uuid_ok u ->
  (forall n' s', moved n q n' s' -> inbound s' = (inbound s) <| in_meshId := u |> -> ep s' = ep s ->
     completion s' = completion s -> Q ret n') ->
  wp (message_done q u ret) Q n.
Proof.
  intros H E Hu HQ. pose proof (ni_remote _ _ H _ _ E) as [R1 R2 R3 R4 (R5 & R6 & R7)].
  unfold message_done. wp_go. unfold upd_inbound. eapply wp_update; [exact E|]. wp_go.
  eapply wp_load; [apply lookup_insert_eq|]. wp_go.
  set (s1 := set inbound (fun i => i <| in_meshId := u |>) s).
  apply wp_when; intros _.
  - eapply wp_update; [apply lookup_insert_eq|]. rewrite set_remotes_twice. wp_go.
    apply (HQ _ (s1 <| r_state := REMOTE_ACTIVE |>)); [|done..]. apply (moved_fields n q s); first [done|by constructor].
  - wp_go. apply (HQ _ s1); [|done..]. apply (moved_fields n q s); first [done|by constructor].
Qed.

Record sub_fields (f : SubFields) (u : DPS_UUID) (iv nd : DPS_BitVector) : Prop := {
  sb_revision : uint32 (sf_revision f);
  sb_unmute : has_flag (sf_flags f) DPS_SUB_FLAG_UNMUTE_REQ = false;
  sb_sak : has_flag (sf_flags f) DPS_SUB_FLAG_SAK_REQ = true;
  sb_mask : sf_keysMask f .& OptKeysMask = OptKeysMask;
  sb_mesh : sf_meshId f = Some u /\ uuid_ok u;
  sb_interests : sf_interests f = Some iv /\ vec_ok nI iv;
  sb_needs : sf_needs f = Some nd /\ vec_ok FH_CHUNKS nd
}.

Lemma wp_process_sub n q s f u iv nd collision (Q : DPS_Status -> DPS_Node -> Prop) :
  node_inv nI n -> pubs_alive n -> room n -> sending_ok n -> env_send (n_sends n) = DPS_OK ->
  n_remotes n !! q = Some s -> r_state s <> REMOTE_NEW -> answerable s ->
  sub_fields f u iv nd -> in_revision (inbound s) <= sf_revision f ->
  (forall ret n' s', moved n q n' s' -> recorded s s' f iv nd -> in_revision (inbound s') = sf_revision f ->
     ep s' = ep s -> completion s' = completion s -> Q ret n') ->
  wp (process_message false f q collision) Q n.
Proof.
  intros H Hp Hr Hs Hsend E Hnew Hans [F1 F2 F3 F4 [F5 F6] [F7 F8] [F9 F10]] Hrev HQ.
  unfold process_message. wp_go. eapply wp_load; [exact E|]. wp_go.
  rewrite (proj2 (Z.ltb_ge _ _)) by done. wp_go. eapply wp_upd_inbound; [exact E|].
  set (s0 := set inbound _ s). wp_go. eapply wp_lift; [exact F5|]. wp_go.
  pose proof (ni_remote _ _ H _ _ E) as [R1 R2 R3 R4 (R5 & R6 & R7)].
  assert (moved n q (n <| n_remotes := <[q := s0]> (n_remotes n) |>) s0) as M0.
  { apply (moved_fields n q s); first [done|by constructor]. }
  apply (wp_check_loop _ q s0 f u _ (mv_inv _ _ _ _ M0) (moved_at _ _ _ _ M0) F2).
  intros n1 s1 M1 Hm V1. ok. rewrite F3, F4, Z.eqb_refl. cbn [negb]. wp_go.
  pose proof (moved_trans _ _ _ _ _ _ M0 M1) as M01.
  assert (pubs_alive n1) as Hp1 by (unfold pubs_alive in *; injection V1 as _ -> -> _ _ _ _; exact Hp).
  apply (wp_take_interests n1 q s1 f iv nd _ _ (mv_inv _ _ _ _ M01) Hp1 (moved_room _ _ _ _ M01 Hr) (moved_at _ _ _ _ M01) F7 F8 F9 F10).
  intros n2 s2 M2 V2 Es2 Hrec. pose proof (moved_trans _ _ _ _ _ _ M01 M2) as M02. wp_go.
  assert (Hs2 : answerable s2 /\ r_state s2 <> REMOTE_NEW /\ ep s2 = ep s /\ completion s2 = completion s).
  { assert (answerable s1 /\ r_state s1 <> REMOTE_NEW /\ ep s1 = ep s /\ completion s1 = completion s) as Hs1.
    { destruct Hm as [->|(Ei & Ec & Ee & Est & Esi)]; [by split_and!|]. unfold answerable. rewrite Est, Esi, Ee, Ec. by split_and!. }
    rewrite Es2. exact Hs1. }
  destruct Hs2 as (Hans2 & Hnew2 & Ee2 & Ec2).
  unfold first_interests. wp_go. eapply wp_load; [by eapply moved_at|]. wp_go.
  rewrite bool_decide_eq_false_2 by done. cbn [when]. wp_go.
  apply (wp_ack n2 q s2 _ _ (mv_inv _ _ _ _ M02) (moved_at _ _ _ _ M02) (moved_sending _ _ _ _ M02 Hs) Hans2).
  { rewrite V2. injection V1 as -> _ _ _ _ _ _. exact Hsend. }
  intros ret n3 s3 M3 Ei3 Ee3 Ec3. pose proof (moved_trans _ _ _ _ _ _ M02 M3) as M03.
  apply (wp_message_done n3 q s3 u ret _ (mv_inv _ _ _ _ M03) (moved_at _ _ _ _ M03) F6).
  intros n4 s4 M4 Ei4 Ee4 Ec4.
  apply (HQ ret n4 s4 (moved_trans _ _ _ _ _ _ M03 M4)); [| |congruence|congruence].
  - assert (inbound s1 = inbound s0) as Ei1 by (destruct Hm as [->|(? & _)]; done).
    unfold recorded, received, remote_interests in *. rewrite Ei4, Ei3. cbn.
    change (in_revision (inbound s0)) with (in_revision (inbound s)) in *.
    destruct (in_revision (inbound s) =? sf_revision f); [rewrite Hrec, Ei1; done|]. rewrite Ei1 in Hrec. exact Hrec.
  - rewrite Ei4, Ei3, Es2. cbn. destruct Hm as [->|(Ei & _)]; [done|by rewrite Ei].
Qed.

(** ** From the packet to the record *)

(** A node that receives from the remote [q]: it runs, nothing is pending on its
    side, and [q] is the only remote with the address of the sender. *)
Record receiver (n : DPS_Node) (q : ptr) (s : RemoteNode) (e e' : DPS_NetEndpoint) : Prop := {
  rc_inv : node_inv nI n;
  rc_pubs : pubs_alive n;
  rc_room : room n;
  rc_sending : sending_ok n;
  rc_send : env_send (n_sends n) = DPS_OK;
  rc_running : n_state n = DPS_NODE_RUNNING;
  rc_remote : n_remotes n !! q = Some s;
  rc_state : r_state s <> REMOTE_NEW;
  rc_answer : answerable s;
  rc_idle : forall p r, n_remotes n !! p = Some r -> completion r = None;
  rc_addr : addr_ok (ep_addr e) /\ addr_ok (ep_addr e');
  rc_only : forall p r, n_remotes n !! p = Some r ->
    DPS_SameAddr (ep_addr (ep r)) (ep_addr e') = Some (bool_decide (p = q))
}.

(** The tail of [DPS_DecodeSubscription] when no operation is pending. *)
Lemma wp_receive_end n e ret (Q : DPS_Status -> DPS_Node -> Prop) :
  node_inv nI n -> addr_ok (ep_addr e) -> (forall p r, n_remotes n !! p = Some r -> completion r = None) ->
  (forall n', node_inv nI n' -> n_remotes n' = n_remotes n -> Q ret n') ->
  wp (when (is_OK ret) (DPS_UpdateSubs SubsThrottled)) (fun _ => wp (
      remote ← DPS_LookupRemoteNode (Some (ep_addr e));
      _ ← (match remote with
           | Some p =>
               r ← load n_remotes p;
               match completion r with
               | Some cpn => when (negb (sakPending (outbound r))) (DPS_RemoteCompletion cpn DPS_OK)
               | None => mret ()
               end
           | None => mret ()
           end);
      mret ret) Q) n.
Proof.
  intros H Ha Hc HQ.
  set (tail := fun remote : option ptr =>
    _ ← (match remote with
         | Some p =>
             r ← load n_remotes p;
             match completion r with
             | Some cpn => when (negb (sakPending (outbound r))) (DPS_RemoteCompletion cpn DPS_OK)
             | None => mret ()
             end
         | None => mret ()
         end);
    mret ret).
  assert (forall n', node_inv nI n' -> n_remotes n' = n_remotes n ->
    wp (DPS_LookupRemoteNode (Some (ep_addr e))) (fun remote n' => wp (tail remote) Q n') n') as Hend.
  { intros n' H' Em. apply (wp_LookupRemoteNode nI); [done|done|]. unfold tail. intros [p|] Hs _; wp_go; [|by apply HQ].
    destruct (Hs p eq_refl) as (r & E & _). eapply wp_load; [exact E|]. rewrite (Hc p r) by by rewrite <- Em.
    wp_go. by apply HQ. }
  apply wp_when; intros _.
  - apply (wp_UpdateSubs). intros n' (st & ev & ->). wp_go. apply Hend; [|done].
    by apply (node_inv_same nI n).
  - wp_go. by apply Hend.
Qed.

Lemma wp_find_sender n q s f e e0 (Q : DPS_Status * option ptr * bool -> DPS_Node -> Prop) :
  receiver n q s e0 e -> has_flag (sf_flags f) DPS_SUB_FLAG_UNLINK_IND = false ->
  (forall n' s' b, moved n q n' s' -> s' = s <| ep := ep s' |> -> ep_addr (ep s') = ep_addr (ep s) ->
     pub_view n' = pub_view n -> Q (DPS_OK, Some q, b) n') ->
  wp (find_sender false f e) Q n.
Proof.
  intros R Hf HQ. unfold find_sender. rewrite Hf. wp_go.
  apply (wp_leaves pub_view); [apply leaves_AddRemoteNode|].
  apply (wp_AddRemoteNode nI); [apply R|apply R|..].
  - intros p r n' I K L E Es Em V. wp_go. rewrite (rc_only _ _ _ _ _ R p r E) in Es. injection Es as ->%bool_decide_eq_true.
    rewrite (rc_remote _ _ _ _ _ R) in E. injection E as <-. rewrite bool_decide_eq_true_2 by done. wp_go. eapply wp_lift; [done|]. wp_go.
    eapply wp_load; [rewrite Em; apply lookup_insert_eq|]. wp_go.
    apply (HQ n' (s <| ep := mkEp (ep_addr (ep s)) (ep_cn (ep s) ∪ ep_cn e) |>)); [|done..]. split; [done|done|done|by rewrite L].
  - intros Hnone. exfalso. specialize (Hnone q s (rc_remote _ _ _ _ _ R)).
    rewrite (rc_only _ _ _ _ _ R q s (rc_remote _ _ _ _ _ R)), bool_decide_eq_true_2 in Hnone; done.
  - intros Hnone. exfalso. specialize (Hnone q s (rc_remote _ _ _ _ _ R)).
    rewrite (rc_only _ _ _ _ _ R q s (rc_remote _ _ _ _ _ R)), bool_decide_eq_true_2 in Hnone; done.
Qed.

Lemma receiver_allocs n q s e e' k : receiver n q s e e' -> receiver (n <| n_allocs := k |>) q s e e'.
Proof. intros []. constructor; try done; [by apply (node_inv_same nI n)|by destruct rc_sending0]. Qed.

(** The endpoint found is the one of the lookup. *)
Lemma receiver_moved n q s e e' n' s' :
  receiver n q s e e' -> moved n q n' s' -> completion s' = completion s ->
  forall p r, n_remotes n' !! p = Some r -> completion r = None.
Proof.
  intros R [_ _ Em _] Ec p r. rewrite Em. destruct (decide (p = q)) as [->|Hne].
  - rewrite lookup_insert_eq. intros [= <-]. rewrite Ec. apply (rc_idle _ _ _ _ _ R _ _ (rc_remote _ _ _ _ _ R)).
  - rewrite lookup_insert_ne by done. apply (rc_idle _ _ _ _ _ R).
Qed.

Section Message.
Context (addr : DPS_NodeAddress) (revision flags : Z) (meshId : DPS_UUID) (w : wire_vectors) (i d : list Z).
Context (Haddr : sendable addr) (Hhas : has_address addr) (Hrev : uint32 revision) (Hflags : 0 <= flags < 24).
Context (Hmesh : uuid_ok meshId) (Hv : vectors_sent nI (Some w) i d).
Context (Hunmute : has_flag flags DPS_SUB_FLAG_UNMUTE_REQ = false) (Hsak : has_flag flags DPS_SUB_FLAG_SAK_REQ = true).
Context (Hunlink : has_flag flags DPS_SUB_FLAG_UNLINK_IND = false).

(** What the receiver has unless it had no memory to read the message. *)
Definition known (q : ptr) (s : RemoteNode) (ret : DPS_Status) (n' : DPS_Node) : Prop :=
  node_inv nI n' /\
  (ret <> DPS_ERR_RESOURCES -> exists s' f iv nd, n_remotes n' !! q = Some s' /\ in_revision (inbound s') = revision /\
     bits iv = i /\ bits nd = d /\ sf_revision f = revision /\ sf_flags f = flags /\ recorded s s' f iv nd).

Lemma wp_receive_fields n q s e e' f (Q : DPS_Status -> DPS_Node -> Prop) :
  receiver n q s e e' -> in_revision (inbound s) <= revision ->
  message_fields nI revision flags meshId (Some w) i d None false 0 f ->
  (forall ret n', (forall p r, n_remotes n' !! p = Some r -> completion r = None) -> known q s ret n' -> Q ret n') ->
  wp (find_sender false f e') (fun x => wp (
      let '(ret, remote, collision) := x in
      match remote with
      | None => mret ret
      | Some p => if is_OK ret then process_message false f p collision else discard_message p ret
      end) Q) n.
Proof using All.
  intros R Hle [M1 M2 M3 M4 (iv & nd & E1 & E2 & W1 & E3 & E4 & W2 & E5)] HQ.
  eapply wp_find_sender; [exact R|by rewrite M2|]. intros n1 s1 b Mv Es Ee V. wp_go. ok.
  pose proof (rc_remote _ _ _ _ _ R) as Eq. injection V as V1 V2 V3 _ _ _ _.
  apply (wp_process_sub n1 q s1 f meshId iv nd).
  - apply Mv.
  - unfold pubs_alive. rewrite V2, V3. apply R.
  - eapply moved_room; [exact Mv|apply R].
  - eapply moved_sending; [exact Mv|apply R].
  - rewrite V1. apply R.
  - by eapply moved_at.
  - rewrite Es. apply R.
  - rewrite Es. apply (rc_answer _ _ _ _ _ R).
  - constructor; rewrite ?M1, ?M2; try done. split; [done|by apply vec_wf_ok].
  - rewrite Es, M1. exact Hle.
  - intros ret n2 s2 Mv2 Hrec Er Ee2 Ec2. pose proof (moved_trans _ _ _ _ _ _ Mv Mv2) as M12.
    apply HQ; [eapply receiver_moved; [exact R|exact M12|by rewrite Ec2, Es]|]. split; [apply Mv2|]. intros _.
    exists s2, f, iv, nd. split_and!; try done; [by eapply moved_at|by rewrite Er|].
    unfold recorded, received, remote_interests in *. rewrite Es in Hrec. exact Hrec.
Qed.

Context (hp : DPS_NetEndpoint -> DPS_RxBuffer -> bool -> M DPS_Status).
Context (ha : DPS_NetEndpoint -> DPS_RxBuffer -> M DPS_Status).

Lemma wp_DecodeSubscription_sub n q s e e' b tl (Q : DPS_Status -> DPS_Node -> Prop) :
  receiver n q s e e' -> in_revision (inbound s) <= revision -> sender_endpoint addr e = Some e' ->
  let es := message_entries addr revision flags meshId (Some w) None in
  rx_wf b -> rx_rest b = cbor_head CBOR_MAP (Z.of_nat (length es)) ++ ewire es ++ tl ->
  (forall ret n', known q s ret n' -> Q ret n') ->
  wp (DPS_DecodeSubscription e b) Q n.
Proof using All.
  intros R Hle He es Hb E HQ. unfold DPS_DecodeSubscription, DecodeSubscription. wp_go.
  change (bool_decide (is_Some None)) with false. change (default 0 None) with 0.
  eapply (wp_parse_message nI Hsize Hsmall addr revision flags meshId (Some w) i d None); try done.
  - intros f k. wp_go. change (negb (is_OK DPS_ERR_RESOURCES)) with true. wp_go.
    pose proof (receiver_allocs _ _ _ _ _ k R) as Rk.
    eapply wp_receive_end; [apply Rk|apply R|apply Rk|]. intros n' I' _. by apply HQ.
  - intros f k Hm. wp_go. ok. pose proof (receiver_allocs _ _ _ _ _ k R) as Rk.
    eapply wp_receive_fields; [exact Rk|exact Hle|exact Hm|].
    intros ret n' Hc [I' Hk]. wp_go. eapply wp_receive_end; [exact I'|apply R|exact Hc|].
    intros n2 I2 Em. apply HQ. split; [exact I2|]. by rewrite Em.
Qed.

(** A SUB, from the packet to the record. *)
Lemma wp_receive_sub n q s e e' b (Q : DPS_Status -> DPS_Node -> Prop) :
  receiver n q s e e' -> in_revision (inbound s) <= revision -> sender_endpoint addr e = Some e' ->
  rx_wf b -> rx_rest b = message_wire DPS_MSG_TYPE_SUB (message_entries addr revision flags meshId (Some w) None) ->
  (forall ret n', known q s ret n' -> Q ret n') ->
  wp (OnNetReceive hp ha e DPS_OK b) Q n.
Proof using All.
  intros R Hle He Hb E HQ. unfold message_wire in E. set (es := message_entries _ _ _ _ _ _) in *.
  unfold OnNetReceive. wp_go. rewrite (rc_running _ _ _ _ _ R). change (negb (bool_decide _)) with false. cbv iota.
  change (negb (is_OK DPS_OK)) with false. cbv iota. unfold DecodeRequest. wp_go. rewrite (rc_running _ _ _ _ _ R).
  rewrite bool_decide_eq_false_2 by done. wp_go.
  pose proof (rx_skip_app_wf _ _ _ Hb E) as Hb1. pose proof (rx_rest_skip_app _ _ _ E) as E1.
  pose proof (rx_skip_app_wf _ _ _ Hb1 E1) as Hb2. pose proof (rx_rest_skip_app _ _ _ E1) as E2.
  pose proof (rx_skip_app_wf _ _ _ Hb2 E2) as Hb3. pose proof (rx_rest_skip_app _ _ _ E2) as E3.
  eapply wp_lift; [by apply (DecodeArray_head b 5 0 _ Hb ltac:(lia) E)|]. wp_go. ok.
  change (negb (5 =? 5)) with false. cbn [orb]. wp_go.
  eapply wp_lift; [by apply (DecodeUint8_wire _ DPS_MSG_VERSION 0 _ Hb1 ltac:(unfold DPS_MSG_VERSION; lia) E1)|]. wp_go. ok.
  change (negb (DPS_MSG_VERSION =? DPS_MSG_VERSION)) with false. wp_go.
  eapply wp_lift; [by apply (DecodeUint8_wire _ DPS_MSG_TYPE_SUB 0 _ Hb2 ltac:(unfold DPS_MSG_TYPE_SUB; lia) E2)|]. wp_go. ok.
  eapply (wp_DecodeSubscription_sub n q s e e'); [exact R|exact Hle|exact He|exact Hb3|exact E3|].
  intros ret n' [I Hk]. wp_go. apply HQ. split; [exact I|]. case_bool_decide as Est; [|exact Hk].
  intros _. apply Hk. by rewrite Est.
Qed.
End Message.
End Sync.
