(* ===== verification/SyncTheorems.v ===== *)
(** * Neighbours agree ([src/sub.c], [src/dps.c])

    What a node sends of its interests is what its neighbour records of them, in
    full or as a difference. *)
From S2P Require Import Prelude Status Buffer Float Cbor CborProofs CborValues CborMap.
From S2P Require Import BitVec BitVecProofs BitVecSerial BitVecTheorems CountVec Uuid Addr History Node Remote RemoteProofs.
From S2P Require Import Sub SubProofs NodeTheorems Frame SubMsg SubMsgProofs SendProofs Pub PubProofs Link.
From S2P Require Import SubDecode SubDecodeProofs SyncProofs.
From stdpp Require Import gmap.
#[local] Open Scope Z_scope.
#[local] Set Warnings "-clear-no-such-hyp".

Section Sync.
Context `{Env : Environment} (nI : nat).
Context (Hsize : bitLen env_config = 64 * Z.of_nat nI) (HnI : (0 < nI)%nat) (Hsmall : 64 * Z.of_nat nI <= 65535).
Context (Hbytes : forall k size, length (env_bytes k size) = size /\ Forall is_byte (env_bytes k size)).

(** [s], the remote that a neighbour keeps for this node, records what [r], the
    remote that this node keeps for the neighbour, says was sent. *)
Definition synced (r s : RemoteNode) : Prop :=
  in_revision (inbound s) = out_revision (outbound r) /\
  forall i d, out_interests (outbound r) = Some i -> out_needs (outbound r) = Some d ->
    vec_bits nI (in_interests (inbound s)) = bits i /\
    match in_needs (inbound s) with Some nd => bits nd = bits d | None => Forall (eq 0) (bits i) end.

(** A round of the timer for a remote that owes no acknowledgement. *)
Definition send_interests (p : ptr) : M DPS_Status :=
  '(ret, _) ← DPS_UpdateOutboundInterests p;
  if is_OK ret then DPS_SendSubscription p else mret ret.

Lemma on_wire_sent nd iv w :
  on_wire nd iv w -> vec_wf nI iv -> vec_wf FH_CHUNKS nd -> vectors_sent nI (Some w) (bits iv) (bits nd).
Proof.
  intros [W1 W2 W3 W4 W5] [Wi Ki] [Wn Kn]. pose proof (bv_len _ Wi) as Hl. rewrite Ki in Hl.
  rewrite Hl in *. split_and!; try done; first [apply (bv_chunks _ Wn)|apply (bv_chunks _ Wi)|lia].
Qed.

(** The flags of a SUB of a remote that is linked. *)
Lemma sub_flags_linked r :
  r_state r = REMOTE_ACTIVE \/ r_state r = REMOTE_LINKING ->
  has_flag (sub_flags r) DPS_SUB_FLAG_UNMUTE_REQ = false /\ has_flag (sub_flags r) DPS_SUB_FLAG_SAK_REQ = true /\
  has_flag (sub_flags r) DPS_SUB_FLAG_UNLINK_IND = false /\
  has_flag (sub_flags r) DPS_SUB_FLAG_DELTA_IND = deltaInd (outbound r).
Proof. unfold sub_flags. intros [E|E]; rewrite E; by destruct (deltaInd (outbound r)). Qed.

(** What is announced, once the new vectors are there. *)
Lemma updated_announced r r' newI newN changes :
  remote_ok nI r' -> updated nI r r' newI newN changes ->
  exists iv nd, announced (outbound r') = Some iv /\ out_needs (outbound r') = Some nd /\
    vec_wf nI iv /\ vec_wf FH_CHUNKS nd /\ bits nd = newN /\
    match out_interests (outbound r) with
    | Some old => deltaInd (outbound r') = true /\ bits iv = zip_with Z.lxor (bits old) newI
    | None => deltaInd (outbound r') = false /\ bits iv = newI
    end.
Proof.
  intros Hr [_ (iv & nd & E1 & E2 & W1 & B1 & W2 & B2) Hd Hf _]. unfold announced.
  destruct (out_interests (outbound r)) as [old|].
  - destruct (Hd old eq_refl) as (dl & E3 & W3 & B3 & E4 & _). rewrite E4. by exists dl, nd.
  - destruct (Hf eq_refl) as (E3 & _). rewrite E3. by exists iv, nd.
Qed.

(** The outbound vectors and the revision that are left. *)
Record holds (r : RemoteNode) (newI newN : list Z) (rev : Z) : Prop := {
  ho_vectors : exists i d, out_interests (outbound r) = Some i /\ bits i = newI /\
    out_needs (outbound r) = Some d /\ bits d = newN;
  ho_revision : out_revision (outbound r) = rev
}.

(** What the neighbour makes of it. *)
Lemma recorded_synced r r1 r' s s' f iv nd newI newN changes :
  synced r s -> remote_ok nI r -> remote_ok nI r1 -> updated nI r r1 newI newN changes -> needs_follow r newI newN ->
  out_revision (outbound r) + 1 < 2 ^ 32 -> length newI = nI ->
  holds r' newI newN (out_revision (outbound r1)) ->
  sf_revision f = out_revision (outbound r1) -> has_flag (sf_flags f) DPS_SUB_FLAG_DELTA_IND = deltaInd (outbound r1) ->
  (forall v, announced (outbound r1) = Some v -> bits iv = bits v) -> bits nd = newN ->
  recorded nI s s' f iv nd -> in_revision (inbound s') = sf_revision f -> synced r' s'.
Proof.
  intros [S1 S2] Hr Hr1 Hu Hn Hrev Hlen [(i & d & O1 & O2 & O3 & O4) O5] F1 F2 Hiv Hnd Hrec Es'.
  destruct (updated_announced r r1 newI newN changes Hr1 Hu) as (v & nd0 & Ea & _ & _ & _ & _ & Hcase).
  specialize (Hiv v Ea). pose proof (ro_words _ _ Hr) as (U1 & _). unfold uint32 in U1.
  pose proof (up_revision _ _ _ _ _ _ Hu) as Er.
  split; [congruence|]. intros i' d' Ei' Ed'. rewrite O1 in Ei'. rewrite O3 in Ed'. injection Ei' as <-. injection Ed' as <-.
  rewrite O2, O4. unfold recorded in Hrec. rewrite F1, Er, S1 in Hrec.
  destruct changes.
  - unfold u32 in Hrec. rewrite Z.mod_small in Hrec by lia. rewrite (proj2 (Z.eqb_neq _ _)) in Hrec by lia.
    assert (received nI s iv (has_flag (sf_flags f) DPS_SUB_FLAG_DELTA_IND) = newI) as Erec.
    { unfold received. rewrite F2, Hiv. destruct (out_interests (outbound r)) as [old|] eqn:Eo.
      - destruct Hcase as [-> ->]. pose proof (ro_outbound _ _ Hr) as Ho. rewrite Eo in Ho.
        destruct (out_needs (outbound r)) as [dn|] eqn:Ed; [|done]. destruct Ho as [Wo _].
        destruct (S2 old dn eq_refl eq_refl) as [E2 _]. unfold remote_interests. rewrite E2. apply zip_lxor_twice. destruct Wo as [_ K]. congruence.
      - destruct Hcase as [-> ->]. done. }
    rewrite Erec in Hrec. destruct Hrec as [H1 [H2|[H2 H3]]]; (split; [done|]); rewrite H2; done.
  - rewrite Z.eqb_refl in Hrec. destruct Hrec as [H1 H2]. rewrite H1, H2.
    destruct (out_interests (outbound r)) as [old|] eqn:Eo; [|by destruct (up_full _ _ _ _ _ _ Hu Eo) as (_ & ? & _)].
    destruct (up_delta _ _ _ _ _ _ Hu old Eo) as (_ & _ & _ & _ & _ & Hch).
    symmetry in Hch. apply negb_false_iff, bool_decide_eq_true in Hch.
    pose proof (ro_outbound _ _ Hr) as Ho. rewrite Eo in Ho. destruct (out_needs (outbound r)) as [dn|] eqn:Ed; [|done].
    destruct (S2 old dn eq_refl eq_refl) as [H3 H4]. rewrite <- (Hn old dn Eo Ed Hch), <- Hch. by split.
Qed.

(** The sender: a message was handed to the transport, or there was an error. *)
Lemma wp_send_interests n p r (Q : DPS_Status -> DPS_Node -> Prop) :
  node_inv nI n -> n_remotes n !! p = Some r -> sending_ok n -> room n ->
  r_state r = REMOTE_ACTIVE \/ r_state r = REMOTE_LINKING ->
  let newI := vec_union nI (rest_interests n p) in
  let newN := vec_needs FH_CHUNKS (rest_needs n p) in
  needs_follow r newI newN ->
  (forall ret n', is_OK ret = false -> Q ret n') ->
  (forall n1 r1 changes n', node_inv nI n1 -> n_addr n1 = n_addr n -> n_meshId n1 = n_meshId n -> remote_ok nI r1 ->
     updated nI r r1 newI newN changes ->
     sent nI n1 p r1 DPS_MSG_TYPE_SUB (sub_flags r1) true None
       (r1 <| outbound := await_sak DPS_MSG_TYPE_SUB (recache (outbound r1)) |>) n' -> Q DPS_OK n') ->
  wp (send_interests p) Q n.
Proof.
  intros H E Hs Hr Hst newI newN Hn Hfail Hok. unfold send_interests. wp_go. destruct (room_rest n p Hr) as [R1 R2].
  assert (r_state r <> REMOTE_UNLINKING) as Hul by (by destruct Hst as [-> | ->]).
  apply (wp_UpdateOutboundInterests nI Hsize ltac:(lia) n p r); [done..|].
  intros n1 r1 ret changes I K L Em [(-> & _ & _)|[-> Hu]]; wp_go; [by apply Hfail|]. ok.
  assert (n_remotes n1 !! p = Some r1) as E1 by (rewrite Em; apply lookup_insert_eq).
  pose proof (ni_remote _ _ I _ _ E1) as Hr1.
  assert (r_state r1 = r_state r) as Est by by rewrite (up_only _ _ _ _ _ _ Hu).
  assert (sending_ok n1) as Hs1.
  { destruct Hs. split; [by rewrite (k_addr _ _ K)|by rewrite (k_meshId _ _ K)]. }
  assert (bool_decide (r_state r1 = REMOTE_UNLINKING) = false) as Eul by (apply bool_decide_eq_false_2; by rewrite Est).
  apply (wp_SendSubscription nI HnI Hsmall Hbytes n1 p r1); rewrite ?Eul; cbn [negb]; [done|done|done| | | |].
  - rewrite Est. by destruct Hst as [-> | ->].
  - intros _. destruct (updated_announced r r1 newI newN changes Hr1 Hu) as (iv & nd & Ea & Ed & _). by split; eexists.
  - intros ret n' Hret _. by apply Hfail.
  - intros n' Hsent. eapply Hok; [exact I|apply K|apply K|exact Hr1|exact Hu|exact Hsent].
Qed.

(** What is left at the sender. *)
Lemma sent_holds r r1 newI newN changes :
  updated nI r r1 newI newN changes ->
  holds (r1 <| outbound := await_sak DPS_MSG_TYPE_SUB (recache (outbound r1)) |>) newI newN (out_revision (outbound r1)).
Proof.
  intros [_ (i & d & E1 & E2 & _ & B1 & _ & B2) _ _ _]. unfold recache, await_sak, announced, set_announced.
  destruct (deltaInd (outbound r1)); [destruct (out_delta (outbound r1))|rewrite E1];
    (split; [|by destruct (sakPending _)]); destruct (sakPending _); cbn; rewrite ?E1, ?E2; repeat eexists; done.
Qed.

(** A message that was sent, as the sender knows it. *)
Definition interests_sent (n : DPS_Node) (p : ptr) (r : RemoteNode) (newI newN : list Z) (n' : DPS_Node) : Prop :=
  exists n1 r1 changes, node_inv nI n1 /\ n_addr n1 = n_addr n /\ n_meshId n1 = n_meshId n /\ remote_ok nI r1 /\
    updated nI r r1 newI newN changes /\
    sent nI n1 p r1 DPS_MSG_TYPE_SUB (sub_flags r1) true None
      (r1 <| outbound := await_sak DPS_MSG_TYPE_SUB (recache (outbound r1)) |>) n'.

Lemma send_interests_sent n p r n' :
  node_inv nI n -> n_remotes n !! p = Some r -> sending_ok n -> room n ->
  r_state r = REMOTE_ACTIVE \/ r_state r = REMOTE_LINKING ->
  let newI := vec_union nI (rest_interests n p) in
  let newN := vec_needs FH_CHUNKS (rest_needs n p) in
  needs_follow r newI newN -> send_interests p n = Some (DPS_OK, n') -> interests_sent n p r newI newN n'.
Proof.
  intros H E Hs Hr Hst newI newN Hn Hrun.
  assert (wp (send_interests p) (fun ret n' => ret = DPS_OK -> interests_sent n p r newI newN n') n) as Hwp.
  { apply (wp_send_interests n p r); [done..| |].
    - intros ret n2 Hf ->. done.
    - intros n1 r1 changes n2 I1 Ea Emi Hr1 Hu Hsent _. by exists n1, r1, changes. }
  exact (wlp_run _ _ _ _ _ (wp_wlp _ _ _ Hwp) Hrun eq_refl).
Qed.

(** The receiver of such a message. *)
Lemma receive_synced hp ha n p r newI newN n' :
  n_remotes n !! p = Some r -> remote_ok nI r -> sending_ok n -> has_address (n_addr n) ->
  r_state r = REMOTE_ACTIVE \/ r_state r = REMOTE_LINKING ->
  needs_follow r newI newN -> out_revision (outbound r) + 1 < 2 ^ 32 -> length newI = nI ->
  interests_sent n p r newI newN n' ->
  exists r' bytes, n_remotes n' !! p = Some r' /\ holds r' newI newN (out_revision (outbound r')) /\
    head (n_events n') = Some (EvNetSend (ep r) bytes DPS_OK) /\
    forall B q s e e' b, receiver nI B q s e e' -> sender_endpoint (n_addr n) e = Some e' -> synced r s ->
      rx_wf b -> rx_rest b = bytes ->
      wp (OnNetReceive hp ha e DPS_OK b) (fun ret B' => node_inv nI B' /\
        (ret <> DPS_ERR_RESOURCES -> exists s', n_remotes B' !! q = Some s' /\ synced r' s')) B.
Proof.
  intros E Hr0 Hs Ha Hst Hn Hrev Hlen (n1 & r1 & changes & I1 & Ea & Emi & Hr1 & Hu & [I' K L Em (mesh & v & Hmesh & (nd & iv & w & End_ & Eiv & -> & Hw) & Hev)]).
  assert (r_state r1 = r_state r /\ ep r1 = ep r) as [Est Eep] by by rewrite (up_only _ _ _ _ _ _ Hu).
  pose proof (sent_holds r r1 newI newN changes Hu) as Hho. rewrite <- Est in Hst.
  destruct (updated_announced r r1 newI newN changes Hr1 Hu) as (iv0 & nd0 & Ei0 & Ed0 & Wi & Wd & Bd & _).
  rewrite Ei0 in Eiv. injection Eiv as <-. rewrite Ed0 in End_. injection End_ as <-.
  destruct (sub_flags_linked r1 Hst) as (F1 & F2 & F3 & F4).
  eexists _, _. split; [rewrite Em; apply lookup_insert_eq|]. split; [by rewrite (ho_revision _ _ _ _ Hho)|].
  split; [by rewrite Hev, Eep|]. intros B q s e e' b HB He Hsy Hb Eb. rewrite Ea in Eb.
  pose proof (up_revision _ _ _ _ _ _ Hu) as Er. pose proof (ro_words _ _ Hr0) as [U _]. unfold uint32 in U.
  eapply (wp_receive_sub nI Hsize HnI Hsmall Hbytes (n_addr n) (out_revision (outbound r1)) (sub_flags r1) mesh w (bits iv0) (bits nd0));
    try done; [apply Hs|apply (ro_words _ _ Hr1)|apply sub_flags_range|refine (least_mesh_ok n1 nI (Some p) (n_meshId n1) mesh I1 _ Hmesh); rewrite Emi; apply Hs|by apply on_wire_sent| |].
  - destruct Hsy as [-> _]. rewrite Er. destruct changes; [|lia]. unfold u32. rewrite Z.mod_small; lia.
  - intros ret B' [IB Hk]. split; [exact IB|]. intros Hret. destruct (Hk Hret) as (s' & f & iv & nd & Es & Ers & Bi & Bn & Ef & Efl & Hrec).
    exists s'. split; [exact Es|].
    eapply (recorded_synced r r1 _ s s' f iv nd newI newN changes); try done; [by rewrite Efl| |congruence|congruence].
    intros v' Ev'. rewrite Ei0 in Ev'. injection Ev' as <-. done.
Qed.
End Sync.

(** C12: when a node sends its interests to a neighbour ([DPS_UpdateOutboundInterests]
    and then [DPS_SendSubscription]), the bytes that go to the transport make the
    neighbour record exactly the union of the interests of the node without the
    neighbour's own, and the intersection of the needs: in full for the first
    message, as the difference from the last one after that, also when the same
    message arrives twice.  No assertion fails on the way and no freed object is
    used; the neighbour keeps its invariant, and records the message unless it has
    no memory to read it. *)
Theorem interests_synced `{Env : Environment} nI hp ha A p r A' :
  bitLen env_config = 64 * Z.of_nat nI -> (0 < nI)%nat -> 64 * Z.of_nat nI <= 65535 ->
  (forall k size, length (env_bytes k size) = size /\ Forall is_byte (env_bytes k size)) ->
  node_inv nI A -> n_remotes A !! p = Some r -> sending_ok A -> has_address (n_addr A) -> room A ->
  r_state r = REMOTE_ACTIVE \/ r_state r = REMOTE_LINKING ->
  let newI := vec_union nI (rest_interests A p) in
  let newN := vec_needs FH_CHUNKS (rest_needs A p) in
  needs_follow r newI newN -> out_revision (outbound r) + 1 < 2 ^ 32 ->
  send_interests p A = Some (DPS_OK, A') ->
  exists r' bytes, n_remotes A' !! p = Some r' /\ holds r' newI newN (out_revision (outbound r')) /\
    head (n_events A') = Some (EvNetSend (ep r) bytes DPS_OK) /\
    forall B q s e e' b, receiver nI B q s e e' -> sender_endpoint (n_addr A) e = Some e' -> synced nI r s ->
      rx_wf b -> rx_rest b = bytes ->
      exists ret B', OnNetReceive hp ha e DPS_OK b B = Some (ret, B') /\ node_inv nI B' /\
        (ret <> DPS_ERR_RESOURCES -> exists s', n_remotes B' !! q = Some s' /\ synced nI r' s').
Proof.
  intros Hsize HnI Hsmall Hbytes H E Hs Ha Hr Hst newI newN Hn Hrev Hrun.
  destruct (receive_synced nI Hsize HnI Hsmall Hbytes hp ha A p r newI newN A' E (ni_remote _ _ H _ _ E)) as (r' & bytes & E1 & E2 & E3 & E4);
    [done|done|done|done|done|unfold newI, vec_union; by rewrite length_map, length_columns|by apply send_interests_sent|].
  exists r', bytes. split; [done|]. split; [done|]. split; [done|]. intros B q s e e' b HB He Hsy Hb Eb.
  destruct (wp_run _ _ _ (E4 B q s e e' b HB He Hsy Hb Eb)) as (ret & B' & Erun & HB' & Hs'). by exists ret, B'.
Qed.

(** Two nodes that are linked, in the concrete environment: the first also has a
    neighbour on port 9, that is interested in bits 0 and 2. *)
#[local] Existing Instance toy_env.
Definition toy_state (m : M unit) (n : DPS_Node) : DPS_Node := match m n with Some (_, n') => n' | None => n end.
Definition toy_active : M unit :=
  update n_remotes 1%positive (set r_state (fun _ => REMOTE_ACTIVE)).
Definition toy_linked (port peer : Z) : DPS_Node :=
  toy_state toy_active (toy_state (run_op (OpAddRemote (toy_addr peer) None)) (toy_node <| n_addr := toy_addr port |>)).
Definition toy_a : DPS_Node :=
  toy_state (run_op (OpReceive 2 (bv64 [5]) (bv64 [5; 0; 0; 0]) false))
    (toy_state (run_op (OpAddRemote (toy_addr 9) None)) (toy_linked 7 8)).
Definition toy_b : DPS_Node := toy_linked 8 7.
Definition toy_remote (n : DPS_Node) : RemoteNode := default (new_remote (toy_addr 0) None) (n_remotes n !! 1%positive).

Lemma toy_step op n : node_inv 1 n -> enabled 1 op n -> node_inv 1 (toy_state (run_op op) n).
Proof.
  intros H He. pose proof (run_op_keeps 1 op n toy_env_ok H He) as Hwp. unfold toy_state, wlp in *.
  by destruct (run_op op n) as [[[] n']|].
Qed.

Lemma toy_active_inv n : node_inv 1 n -> node_inv 1 (toy_state toy_active n).
Proof.
  intros H. unfold toy_state, toy_active, update. destruct (n_remotes n !! 1%positive) as [r|] eqn:E; [|done]. cbn.
  destruct (ni_remote _ _ H _ _ E) as [? ? ? ? (? & ? & ?)]. by eapply node_inv_fields.
Qed.

Lemma toy_linked_inv port peer : node_inv 1 (toy_linked port peer).
Proof.
  apply toy_active_inv, toy_step; [|apply toy_addr_ok]. apply (started_inv 1 _ toy_env_ok). by split.
Qed.

Lemma toy_a_inv : node_inv 1 toy_a.
Proof.
  apply toy_step; [apply toy_step; [apply toy_linked_inv|apply toy_addr_ok]|].
  split_and!; by apply (bool_decide_unpack _); vm_compute.
Qed.

Lemma toy_b_remote p r : n_remotes toy_b !! p = Some r -> p = 1%positive /\ r = toy_remote toy_b.
Proof.
  replace (n_remotes toy_b) with ({[1%positive := toy_remote toy_b]} : gmap ptr RemoteNode) by (vm_compute; reflexivity).
  by intros [-> ->]%lookup_singleton_Some.
Qed.

Lemma toy_receiver : receiver 1 toy_b 1 (toy_remote toy_b) (mkEp (toy_addr 5007) None) (mkEp (toy_addr 7) None).
Proof.
  split; try done; try (by apply (bool_decide_unpack _); vm_compute); try (by split); try apply toy_linked_inv.
  all: intros p r [-> ->]%toy_b_remote; vm_compute; reflexivity.
Qed.

Lemma toy_synced : synced 1 (toy_remote toy_a) (toy_remote toy_b).
Proof. split; [reflexivity|]. intros i d [=]. Qed.

Definition toy_sent : DPS_Node := toy_state (_ ← send_interests 1%positive; mret ()) toy_a.
Definition toy_message : list Z := match n_events toy_sent with EvNetSend _ bytes _ :: _ => bytes | _ => [] end.

Lemma interests_synced_witness :
  exists ret B' s', OnNetReceive (fun _ _ _ => mret DPS_OK) (fun _ _ => mret DPS_OK) (mkEp (toy_addr 5007) None) DPS_OK
    (mkRx toy_message (length toy_message) 0) toy_b = Some (ret, B') /\ node_inv 1 B' /\
    n_remotes B' !! 1%positive = Some s' /\ vec_bits 1 (in_interests (inbound s')) = [5] /\ in_revision (inbound s') = 1.
Proof.
  destruct (interests_synced 1 (fun _ _ _ => mret DPS_OK) (fun _ _ => mret DPS_OK) toy_a 1 (toy_remote toy_a) toy_sent)
    as (r' & bytes & E1 & [(i & d & O1 & O2 & O3 & O4) O5] & E3 & E4);
    [reflexivity|lia|lia|by intros k size; split; [apply length_replicate|apply Forall_replicate]|apply toy_a_inv|reflexivity
    |split; by apply (bool_decide_unpack _); vm_compute|by vm_compute|by vm_compute|by left|by intros i d [=]|by vm_compute|vm_compute; reflexivity|].
  assert (bytes = toy_message) as -> by by vm_compute in E3; injection E3 as <-.
  destruct (E4 toy_b 1%positive (toy_remote toy_b) (mkEp (toy_addr 5007) None) (mkEp (toy_addr 7) None)
    (mkRx toy_message (length toy_message) 0)) as (ret & B' & E & I & Hs);
    [exact toy_receiver|vm_compute; reflexivity|exact toy_synced|by apply (bool_decide_unpack _); vm_compute|vm_compute; reflexivity|].
  exists ret, B'. assert (ret = DPS_OK) as -> by by vm_compute in E; injection E as <- _.
  destruct (Hs ltac:(done)) as (s' & Es & [Er Hv]). destruct (Hv i d O1 O3) as [Hb _].
  exists s'. split_and!; [done..|by rewrite Hb, O2|]. rewrite Er. vm_compute in E1. by injection E1 as <-.
Defined.
