(* ===== verification/LiveTheorems.v ===== *)
(** * A silent remote is given up ([src/dps.c])

    The timer of the subscriptions counts the rounds in which a remote owes an
    acknowledgement, repeats the last message to it, and deletes it in the end. *)
From S2P Require Import Prelude Status Buffer Float Cbor BitVec BitVecProofs CountVec Uuid Addr History Node Remote RemoteProofs.
From S2P Require Import Sub SubProofs NodeTheorems Frame SubMsg SubMsgProofs SendProofs Pub Link SyncTheorems.
From stdpp Require Import gmap.
#[local] Open Scope Z_scope.
#[local] Set Warnings "-clear-no-such-hyp".

(** ** What a round leaves alone *)

Lemma leaves_pending {A} `{Environment} (m : M A) : leaves pub_view m -> leaves n_subsPending m.
Proof. intros Hm n x n' E. specialize (Hm n x n' E). unfold pub_view in Hm. congruence. Qed.
#[local] Hint Resolve leaves_alloc_ok leaves_malloc leaves_ClearInboundInterests leaves_FreeOutboundInterests
  leaves_RemoveRemoteNode leaves_MinMeshId leaves_LookupRemoteNode : frame.
#[local] Hint Extern 5 (leaves n_subsPending _) => (apply leaves_pending; solve [auto 1 with frame nocore]) : frame.

(** ** What a round adds to the events *)

Definition grows {A} (m : M A) : Prop :=
  forall n x n', m n = Some (x, n') -> exists evs, n_events n' = evs ++ n_events n.

Section Grows.
Context {A B : Type}.
Lemma grows_leaves (m : M A) : leaves n_events m -> grows m.
Proof. intros H n x n' E. exists []. by apply H in E. Qed.
Lemma grows_bind (m : M A) (f : A -> M B) : grows m -> (forall x, grows (f x)) -> grows (m ≫= f).
Proof.
  intros Hm Hf n y n'. unfold mbind, M_bind. destruct (m n) as [[x n1]|] eqn:E; [|done]. cbn. intros Ef.
  apply Hm in E as [e1 E1]. apply Hf in Ef as [e2 E2]. exists (e2 ++ e1). by rewrite E2, E1, app_assoc.
Qed.
Lemma wp_grows (m : M A) (Q : A -> DPS_Node -> Prop) n :
  grows m -> wp m (fun x n' => (exists evs, n_events n' = evs ++ n_events n) -> Q x n') n -> wp m Q n.
Proof. unfold grows, wp. intros Hm. destruct (m n) as [[x n']|] eqn:E; [|done]. eauto. Qed.
End Grows.
Lemma grows_emit e : grows (emit e).
Proof. intros n x n' [= _ <-]. by exists [e]. Qed.

Ltac grows_step :=
  match goal with
  | |- forall _, _ => intros ?
  | |- grows (_ ≫= _) => apply grows_bind
  | |- grows (emit _) => apply grows_emit
  | |- grows (when ?b _) => destruct b; cbn [when]
  | |- grows (if ?b then _ else _) => destruct b
  | |- grows (match ?x with _ => _ end) => destruct x
  | |- grows ((match ?x with _ => _ end) _) => destruct x
  | |- grows (mret _) => apply grows_leaves, leaves_ret
  | |- grows (gets _) => apply grows_leaves, leaves_gets
  | |- grows (load _ _) => apply grows_leaves, leaves_load
  | |- grows (free _ _) => apply grows_leaves, leaves_free; done
  | |- grows (update _ _ _) => apply grows_leaves, leaves_update; done
  | |- grows (upd_outbound _ _) => apply grows_leaves, leaves_update; done
  | |- grows (modify _) => apply grows_leaves, leaves_modify; done
  | |- grows undefined => done
  | |- grows _ => solve [auto 1 with frame nocore]
  end.
Ltac grows := repeat grows_step.

Section Live.
Context `{Env : Environment} (nI : nat).

Lemma leaves_count_del_events (cv : DPS_Node -> DPS_CountVector) `{!Setter cv} bv :
  (forall v n, n_events (set cv v n) = n_events n) -> leaves n_events (count_del cv bv).
Proof.
  intros Hf n y n'. unfold count_del. destruct (DPS_CountVectorDel _ _) as [[ret [v|]]|]; cbn; try done.
  by intros [= _ <-].
Qed.
Lemma leaves_ClearInbound_events p : leaves n_events (DPS_ClearInboundInterests p).
Proof. pose proof leaves_count_del_events. unfold DPS_ClearInboundInterests. leaves. Qed.
Lemma leaves_unlink_events p : leaves n_events (RemoveRemoteNode p).
Proof. intros n x n'. unfold RemoveRemoteNode. destruct (unlink_ptr _ _); cbn; [by intros [= _ <-]|done]. Qed.
Lemma grows_OnShutdown : grows OnShutdown.
Proof. unfold OnShutdown. grows. Qed.
#[local] Hint Resolve grows_OnShutdown : frame.
Lemma grows_no_remote c : grows (RemoteCompletion_no_remote c).
Proof. unfold RemoteCompletion_no_remote, finish_completion, call_completion, DPS_NodeRequestCancel. grows. Qed.
#[local] Hint Resolve grows_no_remote : frame.
Lemma grows_DeleteRemoteNode p : grows (DPS_DeleteRemoteNode p).
Proof.
  unfold DPS_DeleteRemoteNode, IsValidRemoteNode, FreeOutboundInterests.
  pose proof (grows_leaves _ (leaves_unlink_events p)). pose proof (grows_leaves _ (leaves_ClearInbound_events p)). grows.
Qed.

Lemma leaves_NodeRequestCancel r : leaves n_subsPending (DPS_NodeRequestCancel r).
Proof. unfold DPS_NodeRequestCancel. leaves. Qed.
#[local] Hint Resolve leaves_NodeRequestCancel : frame.
Lemma leaves_OnShutdown : leaves n_subsPending OnShutdown.
Proof. unfold OnShutdown. leaves. Qed.
#[local] Hint Resolve leaves_OnShutdown : frame.
Lemma leaves_no_remote c : leaves n_subsPending (RemoteCompletion_no_remote c).
Proof. unfold RemoteCompletion_no_remote, finish_completion, call_completion. leaves. Qed.
#[local] Hint Resolve leaves_no_remote : frame.
Lemma leaves_DeleteRemoteNode p : leaves n_subsPending (DPS_DeleteRemoteNode p).
Proof. unfold DPS_DeleteRemoteNode, IsValidRemoteNode. leaves. Qed.
#[local] Hint Resolve leaves_DeleteRemoteNode : frame.
Lemma leaves_build_message p t k f l w a : leaves n_subsPending (build_message p t k f l w a).
Proof. unfold build_message. leaves. Qed.
Lemma leaves_NetSend e b : leaves n_subsPending (DPS_NetSend e b).
Proof. by intros n x n' [= _ <-]. Qed.
#[local] Hint Resolve leaves_build_message leaves_NetSend : frame.
Lemma leaves_SendComplete a ret : leaves n_subsPending (DPS_SendComplete a ret).
Proof. unfold DPS_SendComplete. leaves. Qed.
#[local] Hint Resolve leaves_SendComplete : frame.
Lemma leaves_SendSubscription p : leaves n_subsPending (DPS_SendSubscription p).
Proof. unfold DPS_SendSubscription. leaves. Qed.
Lemma leaves_SendSubscriptionAck p b : leaves n_subsPending (DPS_SendSubscriptionAck p b).
Proof. unfold DPS_SendSubscriptionAck. leaves. Qed.
#[local] Hint Resolve leaves_SendSubscription leaves_SendSubscriptionAck : frame.

(** ** A remote that does not answer *)

(** It owes an acknowledgement, and there is what the last message to it needs to be
    repeated. *)
Record silent (r : RemoteNode) : Prop := {
  sl_pending : sakPending (outbound r) = true;
  sl_counter : 0 <= sakCounter (outbound r) < 5;
  sl_state : r_state r <> REMOTE_MUTED;
  sl_sub : lastSubMsgType (outbound r) = DPS_MSG_TYPE_SUB -> r_state r <> REMOTE_UNLINKING -> ready r;
  sl_sak : lastSubMsgType (outbound r) <> DPS_MSG_TYPE_SUB -> sendInterests (outbound r) = true /\ ready r
}.

(** Nobody answers this node, although every message is sent. *)
Record nobody_answers (n : DPS_Node) : Prop := {
  na_inv : node_inv nI n;
  na_sending : sending_ok n;
  na_silent : forall p r, n_remotes n !! p = Some r -> silent r
}.

Context (HnI : (0 < nI)%nat) (Hsmall : 64 * Z.of_nat nI <= 65535).
Context (Hbytes : forall k size, length (env_bytes k size) = size /\ Forall is_byte (env_bytes k size)).
Context (Hsend : forall k, env_send k = DPS_OK).

Lemma send_failed_here n p r n' : send_failed nI n p r n' -> exists r1,
  n_remotes n' = <[p := r1]> (n_remotes n) /\ n_remoteNodes n' = n_remoteNodes n /\ n_events n' = n_events n /\ unsendable n r.
Proof using Hsend.
  intros [_ _ (r1 & _ & _ & _ & [E|[Hf _]])]; [by exists r1|]. by rewrite Hsend in Hf.
Qed.

(** The last message to a remote: a SUB, or a SAK that asks for one.  The identifier of
    the mesh is the one of the moment it is sent. *)
Definition last_message (addr : DPS_NodeAddress) (r : RemoteNode) (m : list Z) : Prop :=
  exists mesh v, if lastSubMsgType (outbound r) =? DPS_MSG_TYPE_SUB
    then announces (outbound r) (negb (bool_decide (r_state r = REMOTE_UNLINKING))) v /\
      m = message_wire DPS_MSG_TYPE_SUB (message_entries addr (out_revision (outbound r)) (sub_flags r) mesh v None)
    else announces (outbound r) true v /\
      m = message_wire DPS_MSG_TYPE_SAK (message_entries addr (out_revision (outbound r)) (sak_flags r true) mesh v
            (Some (in_revision (inbound r)))).

(** [r] has waited for one round more in [r'], and from the second round on the last
    message to it was sent again. *)
Record waited (addr : DPS_NodeAddress) (r : RemoteNode) (evs : list Event) (r' : RemoteNode) : Prop := {
  wt_counter : sakCounter (outbound r') = sakCounter (outbound r) + 1;
  wt_ep : ep r' = ep r;
  wt_same : forall m, last_message addr r' m <-> last_message addr r m;
  wt_repeated : DPS_SAK_RETRY_THRESHOLD <= sakCounter (outbound r') ->
    exists m, last_message addr r m /\ EvNetSend (ep r) m DPS_OK ∈ evs
}.

(** Why a remote is deleted: it waited long enough, or the message to it is not sent. *)
Definition given_up (n : DPS_Node) (r : RemoteNode) : Prop :=
  DPS_SAK_RETRY_THRESHOLD + DPS_SAK_RETRY_LIMIT <= sakCounter (outbound r) + 1 \/ unsendable n r.

(** What a round does to one remote; with one that waits the timer goes on. *)
Definition one_round (n : DPS_Node) (p : ptr) (r : RemoteNode) (b0 : bool) (n' : DPS_Node) (b : bool) : Prop :=
  node_inv nI n' /\ keeps n n' /\ n_subsPending n' = n_subsPending n /\ (b0 = true -> b = true) /\
  exists evs, n_events n' = evs ++ n_events n /\
  ((exists r', n_remotes n' = <[p := r']> (n_remotes n) /\ n_remoteNodes n' = n_remoteNodes n /\ silent r' /\
      waited (n_addr n) r evs r' /\ b = true) \/
   n_remotes n' = delete p (n_remotes n) /\ n_remoteNodes n' = filter (fun q => q <> p) (n_remoteNodes n) /\ given_up n r).

(** ** A round for one remote *)

Lemma wp_find_route old mesh alt l n (Q : option (option ptr) -> DPS_Node -> Prop) :
  (forall q, q ∈ l -> exists r, n_remotes n !! q = Some r /\ r_state r <> REMOTE_MUTED) ->
  (forall res, res = None \/ res = Some alt -> Q res n) -> wp (find_route old mesh alt l) Q n.
Proof using.
  intros Hl HQ. induction l as [|q l IH]; cbn [find_route]; [wp_go; by apply HQ; right|].
  assert (wp (find_route old mesh alt l) Q n) as Hrest. { apply IH. intros q' Hq'. apply Hl. by right. }
  destruct (q =? old)%positive; [done|]. destruct (Hl q) as (r & E & Hm); [by left|]. wp_go. eapply wp_load; [exact E|].
  rewrite (bool_decide_eq_false_2 (r_state r = REMOTE_MUTED)) by done. rewrite andb_false_r. cbv zeta.
  destruct (_ && _); [wp_go; apply HQ; by left|]. by destruct alt.
Qed.

(** Without a remote that is muted there is no other route. *)
Lemma wp_FindAlternativeRoute p n (Q : unit -> DPS_Node -> Prop) : is_Some (n_remotes n !! p) ->
  (forall q, q ∈ n_remoteNodes n -> exists r, n_remotes n !! q = Some r /\ r_state r <> REMOTE_MUTED) ->
  Q () n -> wp (FindAlternativeRoute p) Q n.
Proof using.
  intros [r E] Hl HQ. unfold FindAlternativeRoute. wp_go. eapply wp_load; [exact E|]. wp_go.
  apply wp_find_route; [done|]. intros res [-> | ->]; by wp_go.
Qed.

Lemma recache_same o : sakPending (recache o) = sakPending o /\ sakCounter (recache o) = sakCounter o /\
  lastSubMsgType (recache o) = lastSubMsgType o /\ sendInterests (recache o) = sendInterests o /\
  deltaInd (recache o) = deltaInd o /\ out_revision (recache o) = out_revision o /\ out_needs (recache o) = out_needs o.
Proof using. unfold recache, announced, set_announced. destruct (deltaInd o) eqn:E; case_match; by rewrite ?E. Qed.

Lemma announced_recache o : announced (recache o) = recounted_vec <$> announced o.
Proof using.
  unfold recache. destruct (announced o) as [iv|] eqn:E; [|by rewrite E]. unfold announced, set_announced in *.
  by destruct (deltaInd o) eqn:Ed; cbn; rewrite Ed.
Qed.
Lemma announces_recache o w v : announces (recache o) w v <-> announces o w v.
Proof using.
  destruct (recache_same o) as (_ & _ & _ & _ & _ & _ & En). unfold announces. destruct w; [|done]. rewrite En, announced_recache.
  split; intros (nd & iv & x & E1 & E2 & E3 & [W1 W2 W3 W4 W5]).
  - destruct (announced o) as [iv0|]; [|done]. injection E2 as <-. exists nd, iv0, x. split_and!; try done; by constructor.
  - exists nd, (recounted_vec iv), x. rewrite E2. split_and!; try done; by constructor.
Qed.
Lemma announces_await t o w v : announces (await_sak t o) w v <-> announces o w v.
Proof using. unfold await_sak. by destruct (sakPending o). Qed.

(** The message that is repeated leaves the remote silent. *)
Lemma await_silent r t : silent r -> ready r -> (t <> DPS_MSG_TYPE_SUB -> sendInterests (outbound r) = true) ->
  let r' := r <| outbound := await_sak t (recache (outbound r)) |> in silent r' /\ sakCounter (outbound r') = sakCounter (outbound r).
Proof using.
  intros [S1 S2 S3 S4 S5] Hr Ht r'. destruct (recache_same (outbound r)) as (R1 & R2 & R3 & R4 & R5 & R6 & R7).
  assert (ready (r <| outbound := recache (outbound r) |>)) as Hr'.
  { destruct Hr as [[v Ea] Hn]. unfold ready. change (outbound (r <| outbound := recache (outbound r) |>)) with (recache (outbound r)). rewrite R7, announced_recache, Ea. by split; [eexists|]. }
  unfold r', await_sak. rewrite R1, S1. cbn. split; [|done]. split; cbn; rewrite ?R1, ?R2, ?R3, ?R4; try done. intros Ht'. split; [by apply Ht|done].
Qed.
Lemma await_silent_unlinking r : silent r -> lastSubMsgType (outbound r) = DPS_MSG_TYPE_SUB -> r_state r = REMOTE_UNLINKING ->
  let r' := r <| outbound := await_sak DPS_MSG_TYPE_SUB (outbound r) |> in silent r' /\ sakCounter (outbound r') = sakCounter (outbound r).
Proof using.
  intros [S1 S2 S3 S4 S5] Et Eu r'. unfold r', await_sak. rewrite S1. split; [|done]. by split; cbn.
Qed.

(** The message stays the same when it is sent. *)
Lemma same_sub addr r o : lastSubMsgType (outbound r) = DPS_MSG_TYPE_SUB -> o = outbound r \/ o = recache (outbound r) ->
  forall m, last_message addr (r <| outbound := await_sak DPS_MSG_TYPE_SUB o |>) m <-> last_message addr r m.
Proof using.
  intros Et Ho m. unfold last_message, sub_flags. set (r' := r <| outbound := _ |>).
  change (outbound r') with (await_sak DPS_MSG_TYPE_SUB o). change (r_state r') with (r_state r). change (inbound r') with (inbound r). destruct (recache_same (outbound r)) as (_ & _ & _ & _ & R5 & R6 & _).
  assert (deltaInd o = deltaInd (outbound r) /\ out_revision o = out_revision (outbound r)) as [D1 D2] by (by destruct Ho as [-> | ->]).
  assert (forall w v, announces o w v <-> announces (outbound r) w v) as Ha by (destruct Ho as [-> | ->]; intros; [done|apply announces_recache]).
  assert (deltaInd (await_sak DPS_MSG_TYPE_SUB o) = deltaInd o /\ out_revision (await_sak DPS_MSG_TYPE_SUB o) = out_revision o /\
    lastSubMsgType (await_sak DPS_MSG_TYPE_SUB o) = DPS_MSG_TYPE_SUB) as (-> & -> & ->) by (unfold await_sak; by destruct (sakPending o)).
  rewrite Et, D1, D2. change (DPS_MSG_TYPE_SUB =? DPS_MSG_TYPE_SUB) with true. cbv iota. by setoid_rewrite announces_await; setoid_rewrite Ha.
Qed.
Lemma same_sak addr r : lastSubMsgType (outbound r) <> DPS_MSG_TYPE_SUB ->
  forall m, last_message addr ((unmuted r) <| outbound := await_sak DPS_MSG_TYPE_SAK (recache (outbound (unmuted r))) |>) m <-> last_message addr r m.
Proof using.
  intros Et m. unfold last_message. set (r' := (unmuted r) <| outbound := _ |>).
  change (outbound r') with (await_sak DPS_MSG_TYPE_SAK (recache (outbound (unmuted r)))). change (inbound r') with (inbound (unmuted r)).
  destruct (recache_same (outbound (unmuted r))) as (_ & _ & _ & _ & R5 & R6 & _).
  assert (outbound (unmuted r) = (outbound r) <| sendInterests := sendInterests (outbound (unmuted r)) |>) as Eo.
  { unfold unmuted. destruct (bool_decide _); [done|]. by destruct (outbound r). }
  assert (deltaInd (outbound (unmuted r)) = deltaInd (outbound r) /\ out_revision (outbound (unmuted r)) = out_revision (outbound r)) as [D1 D2]
    by by rewrite Eo.
  assert (forall o, deltaInd (await_sak DPS_MSG_TYPE_SAK o) = deltaInd o /\ out_revision (await_sak DPS_MSG_TYPE_SAK o) = out_revision o /\
    lastSubMsgType (await_sak DPS_MSG_TYPE_SAK o) = DPS_MSG_TYPE_SAK) as Hw by (intros o; unfold await_sak; by destruct (sakPending o)).
  assert (sak_flags r' true = sak_flags r true) as ->.
  { rewrite <- (sak_flags_unmuted r). unfold sak_flags. change (outbound r') with (await_sak DPS_MSG_TYPE_SAK (recache (outbound (unmuted r)))).
    change (r_state r') with (r_state (unmuted r)). by rewrite (proj1 (Hw _)), R5. }
  assert (forall v, announces (await_sak DPS_MSG_TYPE_SAK (recache (outbound (unmuted r)))) true v <-> announces (outbound r) true v) as Ha.
  { intros v. by rewrite announces_await, announces_recache, Eo. }
  destruct (Hw (recache (outbound (unmuted r)))) as (_ & -> & ->). rewrite R6, D2. rewrite (proj2 (Z.eqb_neq _ _) Et).
  change (DPS_MSG_TYPE_SAK =? DPS_MSG_TYPE_SUB) with false. rewrite (proj1 (unmuted_inbound r)). cbv iota. by setoid_rewrite Ha.
Qed.

Section Round.
Context (n : DPS_Node) (p : ptr) (r0 : RemoteNode) (H : node_inv nI n) (E : n_remotes n !! p = Some r0).

(** The node in the middle of the round. *)
Definition amid (r : RemoteNode) (evs : list Event) (n' : DPS_Node) : Prop :=
  node_inv nI n' /\ keeps n n' /\ n_subsPending n' = n_subsPending n /\ n_events n' = evs ++ n_events n /\
  n_remotes n' = <[p := r]> (n_remotes n) /\ n_remoteNodes n' = n_remoteNodes n.

Lemma amid_start r o : r = r0 <| outbound := o |> -> remote_ok nI r -> amid r [] (n <| n_remotes := <[p := r]> (n_remotes n) |>).
Proof using H E. intros -> Hr. split_and!; try done. by apply node_inv_outbound. Qed.

Lemma amid_step r r1 evs evs1 n1 n' : amid r evs n1 -> node_inv nI n' -> keeps n1 n' -> n_subsPending n' = n_subsPending n1 ->
  n_events n' = evs1 ++ n_events n1 -> n_remotes n' = <[p := r1]> (n_remotes n1) -> n_remoteNodes n' = n_remoteNodes n1 ->
  amid r1 (evs1 ++ evs) n'.
Proof using.
  intros (_ & K & P & Ev & Em & El) H' K' P' Ev' Em' El'. split; [done|]. split; [by etrans|]. split; [congruence|].
  split; [by rewrite Ev', Ev, app_assoc|]. split; [|congruence]. by rewrite Em', Em, insert_insert_eq.
Qed.

Context (b0 : bool) (Q : bool -> DPS_Node -> Prop) (HQ : forall n' b, one_round n p r0 b0 n' b -> Q b n').

Lemma wp_give_up r evs n1 b (K : bool -> DPS_Node -> Prop) : amid r evs n1 -> given_up n r0 -> (b0 = true -> b = true) ->
  (forall n', one_round n p r0 b0 n' b -> K b n') ->
  wp (_ ← DPS_DeleteRemoteNode p; mret b) K n1.
Proof using.
  intros (H1 & K1 & P1 & Ev & Em & El) Hg Hb HK. wp_go. apply (wp_leaves n_subsPending); [apply leaves_DeleteRemoteNode|].
  apply wp_grows; [apply grows_DeleteRemoteNode|].
  apply (wp_DeleteRemoteNode nI); [done|]. intros n' H' K' Em' El' [evs' Ev'] P'. wp_go. apply HK.
  split; [done|]. split; [by etrans|]. split; [congruence|]. split; [done|]. exists (evs' ++ evs). split; [by rewrite Ev', Ev, app_assoc|].
  right. rewrite Em', Em, El', El, delete_insert_eq. auto.
Qed.

Lemma wp_end_failed r evs n1 ret : amid r evs n1 -> is_OK ret = false -> given_up n r0 ->
  wp (send_subs_end p ret (is_OK ret || b0)) Q n1.
Proof using HQ.
  intros Ha Hret Hg. unfold send_subs_end. rewrite Hret. cbn [negb when orb]. eapply wp_give_up; [exact Ha|done|done|]. auto.
Qed.
Lemma wp_end_sent r evs n1 : amid r evs n1 -> silent r -> waited (n_addr n) r0 evs r ->
  wp (send_subs_end p DPS_OK (is_OK DPS_OK || b0)) Q n1.
Proof using HQ.
  intros (H1 & K1 & P1 & Ev & Em & El) Hs Hw. unfold send_subs_end. wp_go. apply HQ. split; [done|]. split; [done|]. split; [done|].
  split; [done|]. exists evs. split; [done|]. left. by exists r.
Qed.

Context (Hs : sending_ok n) (r : RemoteNode) (Hr : silent r) (Hc : sakCounter (outbound r) = sakCounter (outbound r0) + 1).
Context (He : ep r = ep r0) (Hl : forall m, last_message (n_addr n) r m <-> last_message (n_addr n) r0 m).
Context (Han : announced (outbound r) = announced (outbound r0)).
Context (n1 : DPS_Node) (Ha : amid r [] n1).

Lemma amid_sending : sending_ok n1.
Proof using Hs Ha. destruct Ha as (_ & [K1 K2 K3 K4 K5 K6] & _). destruct Hs. split; [by rewrite K5|by rewrite K6]. Qed.
Lemma amid_lookup : n_remotes n1 !! p = Some r.
Proof using Ha. destruct Ha as (_ & _ & _ & _ & -> & _). apply lookup_insert_eq. Qed.
Lemma amid_addr : n_addr n1 = n_addr n.
Proof using Ha. destruct Ha as (_ & [K1 K2 K3 K4 K5 K6] & _). done. Qed.
Lemma amid_given_up n2 r2 : n_netCtx n2 = n_netCtx n1 -> n_addr n2 = n_addr n1 -> announced (outbound r2) = announced (outbound r) ->
  unsendable n2 r2 -> given_up n r0.
Proof using Ha Han.
  intros E1 E2 E3 Hu. right. destruct Ha as (_ & [K1 K2 K3 K4 K5 K6] & _). unfold unsendable in *.
  by rewrite E1, E2, K4, K5, E3, Han in Hu.
Qed.

(** The message is sent. *)
Lemma waited_sent r' m evs : sakCounter (outbound r') = sakCounter (outbound r) -> ep r' = ep r ->
  (forall m, last_message (n_addr n) r' m <-> last_message (n_addr n) r m) -> last_message (n_addr n) r m ->
  EvNetSend (ep r) m DPS_OK ∈ evs -> waited (n_addr n) r0 evs r'.
Proof using Hc He Hl.
  intros E1 E2 E3 Hm Hin. split; [congruence|congruence|intros m'; by rewrite E3|]. intros _. exists m. rewrite <- He. split; [by apply Hl|done].
Qed.

Lemma wp_repeat_sub : lastSubMsgType (outbound r) = DPS_MSG_TYPE_SUB ->
  wp (ret ← DPS_SendSubscription p; send_subs_end p ret (is_OK ret || b0)) Q n1.
Proof using All.
  intros Et. wp_go. apply (wp_leaves n_subsPending); [apply leaves_SendSubscription|]. pose proof amid_sending as Hs1.
  pose proof amid_lookup as E1. pose proof Ha as (H1 & _).
  apply (wp_SendSubscription nI HnI Hsmall Hbytes n1 p r); [exact H1|exact E1|exact Hs1|apply Hr|..].
  - intros Hu. apply (sl_sub r Hr Et). by intros Eu; rewrite Eu in Hu.
  - intros ret n' Hret Hf P'. destruct (send_failed_here n1 p r n' Hf) as (r1 & M1 & L1 & Ev1 & Hu).
    apply (wp_end_failed r1 []); [|done|by apply (amid_given_up n1 r)]. destruct Hf. by apply (amid_step r r1 [] [] n1).
  - intros n' [I' K' L' M' (mesh & v & _ & Hv & Ev')] P'. rewrite amid_addr in Ev'.
    eapply (wp_end_sent _ [_]); [by eapply (amid_step r _ [] [_] n1)|..];
      (destruct (bool_decide_reflect (r_state r = REMOTE_UNLINKING)) as [Eu|Eu]; cbn [negb] in *;
       [destruct (await_silent_unlinking r Hr Et Eu) as [S C]|destruct (await_silent r DPS_MSG_TYPE_SUB Hr (sl_sub r Hr Et Eu)) as [S C]; [done|]]); [exact S|exact S|..];
      (eapply waited_sent; [exact C|done|apply same_sub; [done|by eauto]| |by left]);
      exists mesh, v; rewrite Et; (split; [|done]); [by rewrite bool_decide_true|by rewrite bool_decide_false].
Qed.

Lemma unmuted_silent : lastSubMsgType (outbound r) <> DPS_MSG_TYPE_SUB ->
  silent (unmuted r) /\ ready (unmuted r) /\ sendInterests (outbound (unmuted r)) = true /\
  sakCounter (outbound (unmuted r)) = sakCounter (outbound r) /\ announced (outbound (unmuted r)) = announced (outbound r) /\
  amid (unmuted r) [] (n1 <| n_remotes := <[p := unmuted r]> (n_remotes n1) |>).
Proof using Hr Ha.
  intros Et. pose proof amid_lookup as E1. pose proof Ha as (H1 & _). pose proof (ni_remote _ _ H1 _ _ E1) as Hok.
  destruct (unmuted_inbound r) as (U1 & U2 & U3). pose proof (unmuted_ok nI r Hok) as Hu. destruct Hr as [S1 S2 S3 S4 S5]. destruct (S5 Et) as [S6 S7].
  assert (amid (unmuted r) [] (n1 <| n_remotes := <[p := unmuted r]> (n_remotes n1) |>)) as Ha'.
  { apply (amid_step r (unmuted r) [] [] n1); [exact Ha|by apply (node_inv_fields nI n1 p r)|done..]. }
  unfold unmuted in *. destruct (bool_decide _); split_and!; try done.
Qed.

Lemma wp_repeat_sak : lastSubMsgType (outbound r) <> DPS_MSG_TYPE_SUB ->
  wp (ret ← DPS_SendSubscriptionAck p false; send_subs_end p ret (is_OK ret || b0)) Q n1.
Proof using All.
  intros Et. destruct (unmuted_silent Et) as (Su & Ru & Iu & Cu & Nu & Au).
  wp_go. apply (wp_leaves n_subsPending); [apply leaves_SendSubscriptionAck|]. pose proof amid_sending as Hs1.
  pose proof amid_lookup as E1. pose proof Ha as (H1 & _).
  apply (wp_SendSubscriptionAck nI HnI Hsmall Hbytes n1 p r false); [exact H1|exact E1|exact Hs1|done|..]; rewrite ?Iu; cbn [negb andb].
  - intros ret n' Hret Hf P'. destruct (send_failed_here _ p _ n' Hf) as (r1 & M1 & L1 & Ev1 & Hu).
    apply (wp_end_failed r1 []); [|done|by eapply (amid_given_up _ (unmuted r))]. destruct Hf. by eapply (amid_step (unmuted r) r1 [] []).
  - intros En _. apply (wp_end_failed r []); [done|done|]. eapply (amid_given_up n1 r); [done..|by left].
  - intros n' [I' K' L' M' (mesh & v & _ & Hv & Ev')] P'. destruct (await_silent (unmuted r) DPS_MSG_TYPE_SAK Su Ru ltac:(done)) as [S C].
    change (n_addr (n1 <| n_remotes := _ |>)) with (n_addr n1) in Ev'. rewrite amid_addr in Ev'.
    eapply (wp_end_sent _ [_]); [by eapply (amid_step (unmuted r) _ [] [_])|exact S|].
    eapply waited_sent; [by rewrite C|by apply (unmuted_inbound r)|by apply same_sak| |rewrite <- (proj2 (proj2 (unmuted_inbound r))); by left].
    exists mesh, v. rewrite (proj2 (Z.eqb_neq _ _) Et). split; [|].
    + unfold announces in *. rewrite Nu in Hv. unfold unmuted in Hv. by destruct (bool_decide _).
    + unfold unmuted. by destruct (bool_decide _).
Qed.
End Round.

(** In every round the counter of a silent remote grows, and it does not reach five. *)
Lemma wp_silent_round n p r0 b0 (Q : bool -> DPS_Node -> Prop) : nobody_answers n -> n_remotes n !! p = Some r0 ->
  n_subsPending n <> SubsSendNow ->
  (forall n' b, one_round n p r0 b0 n' b -> Q b n') -> wp (send_subs_pending p b0) Q n.
Proof using HnI Hsmall Hbytes Hsend.
  intros [H Hs Hall] E Hp HQ. pose proof (Hall _ _ E) as Hr0. pose proof (ni_remote _ _ H _ _ E) as Hok.
  unfold send_subs_pending. wp_go. rewrite bool_decide_eq_false_2 by done. wp_go. eapply wp_upd_outbound; [exact E|].
  destruct (sl_counter _ Hr0) as [C1 C2]. assert (u8 (sakCounter (outbound r0) + 1) = sakCounter (outbound r0) + 1) as Eu by (unfold u8; rewrite Z.mod_small; lia).
  set (r := r0 <| outbound := ((outbound r0) <| sakCounter := u8 (sakCounter (outbound r0) + 1) |>) |>).
  change (set outbound _ r0) with r.
  assert (sakCounter (outbound r) = sakCounter (outbound r0) + 1) as Ec by exact Eu.
  assert (remote_ok nI r) as Hr by by destruct Hok; constructor.
  assert (forall m, last_message (n_addr n) r m <-> last_message (n_addr n) r0 m) as Hl by done.
  pose proof (amid_start n p r0 H E r _ eq_refl Hr) as Ha. change (set n_remotes <[p := r]> n) with (n <| n_remotes := <[p := r]> (n_remotes n) |>).
  set (n1 := n <| n_remotes := <[p := r]> (n_remotes n) |>) in *. wp_go. eapply wp_load; [apply lookup_insert_eq|]. rewrite Ec. unfold DPS_SAK_RETRY_THRESHOLD, DPS_SAK_RETRY_LIMIT.
  assert (sakCounter (outbound r) < 5 -> silent r) as Hsl.
  { intros Hlt. destruct Hr0 as [S1 S2 S3 S4 S5]. split; try done. lia. }
  destruct (Z.ltb_spec (sakCounter (outbound r0) + 1) 2) as [Hlt|Hge].
  { wp_go. apply HQ. destruct Ha as (A1 & A2 & A3 & A4 & A5 & A6). do 4 (split; [done|]). exists []. split; [done|]. left. exists r.
    split; [done|]. split; [done|]. split; [apply Hsl; lia|]. split; [|done]. split; [done|done|done|]. unfold DPS_SAK_RETRY_THRESHOLD. lia. }
  destruct (Z.leb_spec (2 + 3) (sakCounter (outbound r0) + 1)) as [Hle|Hlt].
  - apply wp_bind. apply (wp_mono _ (fun _ n' => n' = n1)).
    + destruct (bool_decide (r_state r = REMOTE_ACTIVE)); cbn [when]; [|by wp_go].
      apply wp_FindAlternativeRoute; [by eexists; apply lookup_insert_eq| |done]. intros q Hq.
      apply (ni_remotes _ _ (proj1 Ha)) in Hq as [rq Eq]. exists rq. split; [done|]. cbn in Eq.
      apply lookup_insert_Some in Eq as [[_ <-]|[_ Eq]]; [apply Hr0|apply (Hall _ _ Eq)].
    + intros _ n' ->. eapply wp_give_up; [exact Ha|by left|done|]. intros n'. apply HQ.
  - assert (silent r) as Sr by (apply Hsl; lia).
    destruct (Z.eqb_spec (lastSubMsgType (outbound r)) DPS_MSG_TYPE_SUB) as [Et|Et];
      [eapply wp_repeat_sub|eapply wp_repeat_sak]; done.
Qed.

(** ** A round for all, and the rounds after it *)

(** What became of [q] in a round, if its turn was in it. *)
Definition turned (n n' : DPS_Node) (evs : list Event) (turn : bool) (q : ptr) : Prop :=
  match n_remotes n !! q, n_remotes n' !! q with
  | Some r, Some r' => if turn then waited (n_addr n) r evs r' else r' = r
  | Some r, None => turn = true /\ given_up n r
  | None, Some _ => False
  | None, None => True
  end.

(** The remotes of [later] have their round in the loop; the timer goes on if one is left. *)
Definition rounds (later : list ptr) (n : DPS_Node) (b0 : bool) (n' : DPS_Node) (b : bool) : Prop :=
  nobody_answers n' /\ n_subsPending n' = n_subsPending n /\ keeps n n' /\ (b0 = true -> b = true) /\
  (forall q, q ∈ later -> is_Some (n_remotes n' !! q) -> b = true) /\
  exists evs, n_events n' = evs ++ n_events n /\ forall q, turned n n' evs (bool_decide (q ∈ later)) q.

Lemma one_round_rounds n p r n' b0 b : nobody_answers n -> n_remotes n !! p = Some r -> one_round n p r b0 n' b -> rounds [p] n b0 n' b.
Proof using All.
  intros [H [Hs1 Hs2] Hall] E (H' & K & P & Hb & evs & Ev & D).
  assert (forall q, q <> p -> n_remotes n' !! q = n_remotes n !! q) as Hne.
  { intros q Hq. destruct D as [(r1 & Em & _)|(Em & _)]; rewrite Em; [by rewrite lookup_insert_ne|by rewrite lookup_delete_ne]. }
  split.
  - split; [done|split; [by rewrite (k_addr _ _ K)|by rewrite (k_meshId _ _ K)]|].
    intros q r' Eq. destruct (decide (q = p)) as [->|Hq]; [|rewrite Hne in Eq by done; by eapply Hall].
    destruct D as [(r1 & Em & _ & S1 & _)|(Em & _)]; rewrite Em in Eq; [|by rewrite lookup_delete_eq in Eq].
    rewrite lookup_insert_eq in Eq. by injection Eq as <-.
  - split; [done|]. split; [done|]. split; [done|]. split.
    + intros q ->%list_elem_of_singleton [r' E']. destruct D as [(_ & _ & _ & _ & _ & ->)|(Em & _)]; [done|]. by rewrite Em, lookup_delete_eq in E'.
    + exists evs. split; [done|]. intros q. unfold turned. destruct (decide (q = p)) as [->|Hq].
      * rewrite E, bool_decide_true by (by left). destruct D as [(r1 & Em & _ & _ & W & _)|(Em & _ & G)]; rewrite Em.
        -- by rewrite lookup_insert_eq.
        -- by rewrite lookup_delete_eq.
      * rewrite bool_decide_false by (by rewrite list_elem_of_singleton). rewrite Hne by done. by destruct (n_remotes n !! q).
Qed.

Lemma waited_more addr r evs r' pre post : waited addr r evs r' -> waited addr r (pre ++ evs ++ post) r'.
Proof using.
  intros [W1 W2 W3 W4]. split; [done..|]. intros Hc. destruct (W4 Hc) as (m & Hm & Hin). exists m. split; [done|].
  apply elem_of_app. right. apply elem_of_app. by left.
Qed.

(** One round, then those of the rest. *)
Lemma rounds_cons n p later b0 n1 b1 n2 b2 : p ∉ later -> rounds [p] n b0 n1 b1 -> rounds later n1 b1 n2 b2 -> rounds (p :: later) n b0 n2 b2.
Proof using.
  intros Hp (_ & P1 & K1 & B1 & L1 & evs1 & Ev1 & T1) (Hna & P2 & K2 & B2 & L2 & evs2 & Ev2 & T2).
  split; [done|]. split; [congruence|]. split; [by etrans|]. split; [auto|]. split.
  - intros q [->|Hq]%elem_of_cons; [|by apply L2]. intros Hs. apply B2, (L1 p); [by left|]. specialize (T2 p). unfold turned in T2.
    rewrite bool_decide_false in T2 by done. destruct Hs as [r2 E2]. rewrite E2 in T2. by destruct (n_remotes n1 !! p).
  - exists (evs2 ++ evs1). split; [by rewrite Ev2, Ev1, app_assoc|]. intros q. specialize (T1 q). specialize (T2 q). unfold turned in *.
    assert (forall r r', waited (n_addr n) r evs1 r' -> waited (n_addr n) r (evs2 ++ evs1) r') as M1.
    { intros r r' W. apply (waited_more _ _ _ _ evs2 []) in W. by rewrite app_nil_r in W. }
    assert (forall r r', waited (n_addr n1) r evs2 r' -> waited (n_addr n) r (evs2 ++ evs1) r') as M2.
    { intros r r' W. rewrite (k_addr _ _ K1) in W. by apply (waited_more _ _ _ _ [] evs1) in W. }
    assert (forall r, given_up n1 r -> given_up n r) as M3.
    { unfold given_up, unsendable. by rewrite (k_addr _ _ K1), (k_netCtx _ _ K1). }
    destruct (decide (q = p)) as [->|Hq].
    + rewrite (bool_decide_true (p ∈ [p])) in T1 by (by left). rewrite (bool_decide_false (p ∈ later)) in T2 by done. rewrite bool_decide_true by (by left).
      destruct (n_remotes n !! p), (n_remotes n1 !! p), (n_remotes n2 !! p); try done; [subst; by apply M1|by destruct T2].
    + rewrite (bool_decide_false (q ∈ [p])) in T1 by (by rewrite list_elem_of_singleton).
      rewrite (bool_decide_ext (q ∈ p :: later) (q ∈ later)) by (rewrite elem_of_cons; tauto).
      destruct (n_remotes n !! q), (n_remotes n1 !! q), (n_remotes n2 !! q); subst; try done;
        [destruct (bool_decide _); auto|destruct T2; auto|by destruct T1].
Qed.
Lemma rounds_nil n b : nobody_answers n -> rounds [] n b n b.
Proof using.
  intros Hna. split; [done|]. split; [done|]. split; [by constructor|]. split; [done|]. split; [by intros q Hq%elem_of_nil|].
  exists []. split; [done|]. intros q. unfold turned. rewrite bool_decide_false by apply not_elem_of_nil. by destruct (n_remotes n !! q).
Qed.
Lemma next_of_app pre p l : NoDup (pre ++ p :: l) -> next_of p (pre ++ p :: l) = head l.
Proof using.
  induction pre as [|x pre IH]; cbn [app next_of]; intros Hd; [by rewrite Pos.eqb_refl|].
  apply NoDup_cons in Hd as [Hx Hd]. destruct (Pos.eqb_spec x p) as [->|_]; [|by apply IH].
  destruct Hx. apply elem_of_app. right. by left.
Qed.

Lemma wp_silent_loop fuel later pre n b (Q : bool -> DPS_Node -> Prop) : nobody_answers n -> n_subsPending n <> SubsSendNow ->
  n_remoteNodes n = pre ++ later -> (length later <= fuel)%nat ->
  (forall n' b', rounds later n b n' b' -> Q b' n') -> wp (send_subs_loop fuel (head later) b) Q n.
Proof using HnI Hsmall Hbytes Hsend.
  revert fuel pre n b Q. induction later as [|p later IH]; intros fuel pre n b Q Hna Hp El Hf HQ; cbn [head].
  - destruct fuel; cbn [send_subs_loop]; wp_go; by apply HQ, rounds_nil.
  - destruct fuel as [|fuel]; [cbn in Hf; lia|]. cbn [send_subs_loop].
    pose proof (na_inv _ Hna) as H. destruct (proj2 (ni_remotes _ _ H p)) as [r E].
    { rewrite El. apply elem_of_app. right. by left. }
    wp_go. eapply wp_load; [exact E|]. wp_go. rewrite (sl_pending _ (na_silent _ Hna _ _ E)).
    pose proof (ni_nodup _ _ H) as Hnd. rewrite El, next_of_app by (by rewrite <- El).
    apply wp_bind. eapply wp_silent_round; [exact Hna|exact E|exact Hp|]. intros n1 b1 H1.
    pose proof (one_round_rounds n p r n1 b b1 Hna E H1) as R1. rewrite El in Hnd. apply NoDup_app in Hnd as (_ & Hnd1 & Hnd2).
    apply NoDup_cons in Hnd2 as [Hpl _].
    assert (exists pre', n_remoteNodes n1 = pre' ++ later) as [pre' El1].
    { destruct H1 as (_ & _ & _ & _ & evs & _ & [(_ & _ & -> & _)|(_ & -> & _)]); rewrite El; [exists (pre ++ [p]); by rewrite <- app_assoc|].
      exists (filter (fun q => q <> p) pre). rewrite filter_app, filter_cons_False by tauto. f_equal. by apply filter_ne_id. }
    eapply IH; [apply R1|by rewrite (proj1 (proj2 R1))|exact El1|cbn in Hf; lia|].
    intros n2 b2 R2. apply HQ. by eapply rounds_cons.
Qed.

(** What a firing of the timer does to remotes that are silent: one that is left has
    waited for one round more, and the last message to it was sent again if it has
    waited long enough; none comes, and one that goes is given up; and the timer is
    started again for those that are left. *)
Definition timer_round (n n' : DPS_Node) : Prop :=
  exists evs, n_events n' = evs ++ n_events n /\
    (forall q, turned n n' evs (bool_decide (q ∈ n_remoteNodes n)) q) /\
    (n_remoteNodes n' <> [] -> n_subsPending n' = SubsThrottled /\ EvTimerStart (n_subsRate n') (n_linkLossTimeout n') ∈ evs).

(** After the timer, every remote that is left has waited one round more. *)
Definition all_waited (k : Z) (n : DPS_Node) : Prop :=
  forall p r, n_remotes n !! p = Some r -> k <= sakCounter (outbound r).

Lemma turned_waited n n' evs p r' : turned n n' evs true p -> n_remotes n' !! p = Some r' ->
  exists r, n_remotes n !! p = Some r /\ waited (n_addr n) r evs r'.
Proof using. unfold turned. intros T E. rewrite E in T. destruct (n_remotes n !! p); [eauto|done]. Qed.

(** Neither the status of the timer nor new events matter. *)
Lemma turned_events n n1 n2 evs e turn q : n_remotes n2 = n_remotes n1 -> turned n n1 evs turn q -> turned n n2 (e ++ evs) turn q.
Proof using.
  unfold turned. intros ->. destruct (n_remotes n !! q) as [r|], (n_remotes n1 !! q) as [r'|]; try done. destruct turn; [|done].
  intros W. apply (waited_more _ _ _ _ e []) in W. by rewrite app_nil_r in W.
Qed.

Lemma wp_silent_timer fuel k n (Q : unit -> DPS_Node -> Prop) : nobody_answers n -> n_subsPending n <> SubsSendNow ->
  all_waited k n -> (length (n_remoteNodes n) <= fuel)%nat ->
  (forall n', timer_round n n' -> nobody_answers n' -> n_subsPending n' <> SubsSendNow -> all_waited (k + 1) n' ->
     (length (n_remoteNodes n') <= fuel)%nat -> Q () n') -> wp (SendSubsTimer fuel) Q n.
Proof using HnI Hsmall Hbytes Hsend.
  intros Hna Hp Hk Hf HQ. unfold SendSubsTimer. wp_go. eapply (wp_silent_loop fuel (n_remoteNodes n) [] n); [done..|].
  intros n1 b (Hna1 & P1 & K1 & _ & Hb & evs & Ev & T).
  assert (forall p r, n_remotes n1 !! p = Some r -> p ∈ n_remoteNodes n) as Hin.
  { intros p r E. apply (ni_remotes _ _ (na_inv _ Hna)). specialize (T p). unfold turned in T. rewrite E in T. by destruct (n_remotes n !! p). }
  assert (forall p r, n_remotes n1 !! p = Some r -> exists r0, n_remotes n !! p = Some r0 /\ waited (n_addr n) r0 evs r) as Hw.
  { intros p r E. apply (turned_waited n n1); [|done]. specialize (T p). by rewrite bool_decide_true in T by (by eapply Hin). }
  assert (all_waited (k + 1) n1) as Hk1.
  { intros p r E. destruct (Hw p r E) as (r0 & E0 & W). specialize (Hk p r0 E0). rewrite (wt_counter _ _ _ _ W). lia. }
  assert (length (n_remoteNodes n1) <= fuel)%nat as Hf1.
  { etrans; [|exact Hf]. apply submseteq_length, NoDup_submseteq; [apply (ni_nodup _ _ (na_inv _ Hna1))|]. intros p Hp1.
    apply (ni_remotes _ _ (na_inv _ Hna1)) in Hp1 as [r1 E1]. by eapply Hin. }
  assert (n_remoteNodes n1 <> [] -> b = true) as Hleft.
  { intros Hne. destruct (n_remoteNodes n1) as [|p l] eqn:El; [done|]. destruct (proj2 (ni_remotes _ _ (na_inv _ Hna1) p)) as [r Er]; [rewrite El; by left|].
    by apply (Hb p); [eapply Hin|]. }
  assert (forall st e n2, n2 = n1 <| n_subsPending := st |> <| n_events := e ++ n_events n1 |> -> st <> SubsSendNow ->
    (b = true -> st = SubsThrottled /\ EvTimerStart (n_subsRate n1) (n_linkLossTimeout n1) ∈ e) -> Q () n2) as Hend.
  { intros st e n2 E2 Hst Hs. apply HQ; [|..|by rewrite E2|by rewrite E2|by rewrite E2].
    - exists (e ++ evs). rewrite E2. split; [by cbn; rewrite Ev, app_assoc|]. split; [intros q; apply (turned_events n n1); [done|apply T]|].
      intros Hne. destruct (Hs (Hleft Hne)) as [-> He]. split; [done|]. apply elem_of_app. by left.
    - rewrite E2. destruct Hna1 as [H1 [Hs1 Hs2] Hall1]. split; [|by split|exact Hall1]. by apply (node_inv_same nI n1). }
  destruct b; wp_go.
  - eapply (Hend SubsThrottled [_]); [done|done|]. intros _. split; [done|by left].
  - by eapply (Hend SubsNonePending []).
Qed.

(** Any number of rounds of the timer. *)
Lemma silent_rounds fuel k c n : nobody_answers n -> n_subsPending n <> SubsSendNow ->
  all_waited c n -> (length (n_remoteNodes n) <= fuel)%nat ->
  exists n', nsteps (fun n n' => SendSubsTimer fuel n = Some ((), n') /\ timer_round n n') k n n' /\
    nobody_answers n' /\ all_waited (c + Z.of_nat k) n'.
Proof using HnI Hsmall Hbytes Hsend.
  revert c n. induction k as [|k IH]; intros c n Hna Hp Hc Hf.
  - exists n. split; [constructor|]. by rewrite Z.add_0_r.
  - assert (wp (SendSubsTimer fuel) (fun _ n1 => timer_round n n1 /\ nobody_answers n1 /\ n_subsPending n1 <> SubsSendNow /\
      all_waited (c + 1) n1 /\ (length (n_remoteNodes n1) <= fuel)%nat) n) as H by (eapply wp_silent_timer; eauto).
    apply wp_run in H as ([] & n1 & E & R & Hna1 & Hp1 & Hc1 & Hf1). destruct (IH (c + 1) n1 Hna1 Hp1 Hc1 Hf1) as (n' & Hs & Hna' & Hc').
    exists n'. split; [by eapply nsteps_l|]. split; [done|]. by replace (c + Z.of_nat (S k)) with (c + 1 + Z.of_nat k) by lia.
Qed.
End Live.

(** C15 A node gives up remotes that never answer.  When every remote is silent, owing
    an acknowledgement, and the transport takes every message, five firings of the timer
    of the subscriptions are defined and delete all remotes, and the counters of the
    interests hold nothing of theirs.  In each of them every remote waits for one round
    more, and from the round [DPS_SAK_RETRY_THRESHOLD] on the last message to it is sent
    to it again in each; it is deleted in the round [DPS_SAK_RETRY_THRESHOLD +
    DPS_SAK_RETRY_LIMIT], or before if the message cannot be sent, for want of memory or
    of an address, or because the code of the interests is longer than the room for
    them.  The timer is started again as long as a remote is left.  The fuel of a round
    is the number of remotes. *)
Theorem silent_remotes_given_up `{Env : Environment} nI n : (0 < nI)%nat -> 64 * Z.of_nat nI <= 65535 ->
  (forall k size, length (env_bytes k size) = size /\ Forall is_byte (env_bytes k size)) -> (forall k, env_send k = DPS_OK) ->
  nobody_answers nI n -> n_subsPending n <> SubsSendNow ->
  exists n', nsteps (fun m m' => SendSubsTimer (length (n_remoteNodes n)) m = Some ((), m') /\ timer_round m m') 5 n n' /\
    n_remoteNodes n' = [] /\ n_remotes n' = ∅ /\ node_inv nI n'.
Proof.
  intros HnI Hsmall Hbytes Hsend Hna Hp.
  destruct (silent_rounds nI HnI Hsmall Hbytes Hsend (length (n_remoteNodes n)) 5 0 n Hna Hp) as (n' & Hs & Hna' & Hw); [|done|].
  { intros p r E. apply (na_silent _ _ Hna p r E). }
  exists n'. split; [done|].
  assert (n_remotes n' = ∅) as Em.
  { apply map_empty. intros p. destruct (n_remotes n' !! p) as [r|] eqn:Ep; [|done]. specialize (Hw p r Ep).
    pose proof (sl_counter _ (na_silent _ _ Hna' p r Ep)). lia. }
  split; [|split; [done|apply Hna']]. destruct (n_remoteNodes n') as [|p l] eqn:El; [done|]. exfalso.
  destruct (proj2 (ni_remotes _ _ (na_inv _ _ Hna') p)) as [r Er]; [rewrite El; by left|]. by rewrite Em, lookup_empty in Er.
Qed.

(** ** A neighbour that vanished *)

#[local] Existing Instance toy_env.
Definition toy_updated : DPS_Node := toy_state (run_op (OpUpdate 1)) toy_b.
Definition toy_unanswered : DPS_Node := toy_state (_ ← DPS_SendSubscription 1; mret ()) toy_updated.

Lemma toy_filled k size : length (env_bytes k size) = size /\ Forall is_byte (env_bytes k size).
Proof. split; [apply length_replicate|by apply Forall_replicate]. Qed.
Lemma toy_updated_inv : node_inv 1 toy_updated.
Proof.
  apply toy_step; [apply toy_linked_inv|]. exists (toy_remote toy_b). split; [by vm_compute|]. by split; vm_compute.
Qed.
Lemma toy_state_inv {A} (m : M A) n : wp m (fun _ n' => node_inv 1 n') n -> node_inv 1 (toy_state (_ ← m; mret ()) n).
Proof. unfold toy_state, wp, mbind, M_bind. by destruct (m n) as [[x n']|]. Qed.
Lemma toy_unanswered_inv : node_inv 1 toy_unanswered.
Proof.
  apply toy_state_inv. eapply (wp_SendSubscription 1 ltac:(lia) ltac:(lia) toy_filled _ _ (toy_remote toy_updated)).
    - apply toy_updated_inv.
    - by vm_compute.
    - split; by apply (bool_decide_unpack _); vm_compute.
    - by vm_compute.
    - intros _. by vm_compute; split; eexists.
    - by intros ret n' _ [].
    - by intros n' [].
Qed.
Lemma toy_unanswered_remote p r : n_remotes toy_unanswered !! p = Some r -> p = 1%positive /\ r = toy_remote toy_unanswered.
Proof.
  replace (n_remotes toy_unanswered) with ({[1%positive := toy_remote toy_unanswered]} : gmap ptr RemoteNode) by (vm_compute; reflexivity).
  by intros [-> ->]%lookup_singleton_Some.
Qed.

Lemma silent_remotes_given_up_witness : exists n',
  nsteps (fun n n' => SendSubsTimer 1 n = Some ((), n') /\ timer_round n n') 5 toy_unanswered n' /\
  n_remoteNodes n' = [] /\ n_remotes n' = ∅ /\ node_inv 1 n'.
Proof.
  apply (silent_remotes_given_up 1 toy_unanswered); [lia|lia|apply toy_filled|done| |by vm_compute].
  split; [apply toy_unanswered_inv|split; by apply (bool_decide_unpack _); vm_compute|].
  intros p r [-> ->]%toy_unanswered_remote. split; [by vm_compute|by vm_compute|by vm_compute|by vm_compute; split; eexists|by vm_compute].
Defined.
