(* ===== verification/AckTheorems.v ===== *)
(** * From the subscriber back to the publisher ([src/ack.c])

    The acknowledgement of a publication reaches the handler of the publisher, through
    the nodes that the publication came through, as it was sent. *)
From S2P Require Import Prelude Status Buffer Float Cbor CborProofs CborValues CborMap.
From S2P Require Import BitVec BitVecProofs BitVecSerial BitVecTheorems CountVec Topics TopicProofs TopicSound TopicTheorems.
From S2P Require Import Uuid Addr History HistTheorems Node Remote RemoteProofs Sub SubMsg SubMsgProofs SendProofs Pub Link.
From S2P Require Import SubDecode SubDecodeProofs Tls Keys Cose PubMsg PubRecv PubSend Ack PubMsgProofs PubParseProofs DeliverProofs HandlerProofs.
From S2P Require Import ReceiveProofs NodeTheorems DeliverTheorems PublishProofs AckProofs SyncTheorems.
From stdpp Require Import gmap.
#[local] Open Scope Z_scope.
#[local] Set Warnings "-clear-no-such-hyp".

Section Acks.
Context `{Env : Environment} `{Crypto : Cose} (nI : nat).
Context (hp : DPS_NetEndpoint -> DPS_RxBuffer -> bool -> M DPS_Status).

(** A packet with an acknowledgement. *)
Record ack_packet (pubId : DPS_UUID) (sequenceNum : Z) (data : list Z) (b : DPS_RxBuffer) : Prop := {
  ap_id : uuid_ok pubId;
  ap_sequenceNum : 0 < sequenceNum < 2 ^ 32;
  ap_data : cbor_ok (CBytes data) /\ Z.of_nat (length (map_wire (ack_payload data))) < 2 ^ 32;
  ap_wf : rx_wf b;
  ap_rest : rx_rest b = ack_wire pubId sequenceNum data
}.

Lemma wp_receive_ack pubId sequenceNum data e b n (Q : DPS_Status -> DPS_Node -> Prop) :
  ack_packet pubId sequenceNum data b -> n_state n = DPS_NODE_RUNNING ->
  wp (DPS_LookupAckHandler pubId sequenceNum) (fun pub n' =>
    wp (match pub with
        | Some pub => handle_ack pub sequenceNum e (map_wire (ack_entries pubId sequenceNum)) (map_wire (ack_payload data))
        | None => forward_ack pubId sequenceNum e (take (rx_eod b) (rx_mem b))
        end) (fun ret n' => Q (if bool_decide (ret = DPS_ERR_STALE) then DPS_OK else ret) n') n') n ->
  wp (OnNetReceive hp DPS_DecodeAcknowledgement e DPS_OK b) Q n.
Proof.
  intros [Hid Hs [Hd Hl] Hb E] Hrun HQ. unfold ack_wire, ack_head in E. rewrite <- !app_assoc in E.
  eapply (wp_receive_front _ _ DPS_MSG_TYPE_ACK); [by vm_compute|done|by split|]. intros b' Hb'.
  unfold dispatch. change (DPS_MSG_TYPE_ACK =? DPS_MSG_TYPE_SUB) with false. change (DPS_MSG_TYPE_ACK =? DPS_MSG_TYPE_PUB) with false.
  change (DPS_MSG_TYPE_ACK =? DPS_MSG_TYPE_ACK) with true. cbv iota.
  eapply (wp_decode_ack pubId sequenceNum data Hid Hs (rx_mem b) (rx_eod b)); [exact Hb'|exact HQ].
Qed.

Lemma wp_ack_received pubId sequenceNum data e b n pub pb handler (Q : DPS_Status -> DPS_Node -> Prop) :
  ack_packet pubId sequenceNum data b -> n_state n = DPS_NODE_RUNNING -> waiting n pubId sequenceNum pub pb handler ->
  Q DPS_OK (n <| n_events := EvAck handler pub (told sequenceNum (ep_addr e) pb) (payload_arg data) :: n_events n |>
              <| n_pubs := <[pub := ack_done pb]> (n_pubs n) |>) ->
  wp (OnNetReceive hp DPS_DecodeAcknowledgement e DPS_OK b) Q n.
Proof.
  intros Hp Hrun Hw HQ. eapply wp_receive_ack; [exact Hp|done|]. eapply wp_LookupAckHandler; [exact Hw|].
  destruct Hp as [_ _ [Hd Hl] _ _], Hw as [_ [Ep Eh] _ Hr]. by eapply wp_handle_ack.
Qed.

Lemma wp_ack_passed pubId sequenceNum data e b n sn addr back (Q : DPS_Status -> DPS_Node -> Prop) :
  ack_packet pubId sequenceNum data b -> n_state n = DPS_NODE_RUNNING -> node_inv nI n ->
  Forall (refuses (n_pubs n) pubId sequenceNum) (n_publications n) ->
  way_back n pubId sequenceNum e sn addr back -> env_send (n_sends n) = DPS_OK ->
  (sn < sequenceNum \/ back = true -> Q DPS_OK n) ->
  (sequenceNum <= sn -> back = false -> forall e2, endpoint_of n addr e2 ->
     Q DPS_OK (n <| n_sends := S (n_sends n) |>
                 <| n_events := EvRxIncRef :: EvNetSend e2 (take (rx_eod b) (rx_mem b)) DPS_OK :: n_events n |>)) ->
  wp (OnNetReceive hp DPS_DecodeAcknowledgement e DPS_OK b) Q n.
Proof.
  intros Hp Hrun H Hl Hw Hsend Hno Hyes. eapply wp_receive_ack; [exact Hp|done|]. apply wp_LookupAckHandler_none; [done|].
  by eapply wp_forward_ack.
Qed.
End Acks.

(** C6: the round trip of an acknowledgement.  A node acknowledges a publication that it
    received in the clear: the call returns OK and queues an acknowledgement for the
    address that the history recorded, with these bytes.  When it is sent to an endpoint, by a node that
    has no publication of its own with that identifier, the transport is given bytes
    that make a node whose publication waits for them call its handler: once, with the
    data, the sequence number and the endpoint, after which the publication is as it was
    but for its cleared acknowledgement. *)
Theorem acknowledgement_roundtrip `{Env : Environment} `{Crypto : Cose} hp n pub pb addr bufs cb :
  (forall k, env_alloc k = true) ->
  (forall k size, length (env_bytes k size) = size /\ Forall is_byte (env_bytes k size)) ->
  can_ack n pub pb addr bufs -> uuid_ok (p_pubId pb) -> cbor_ok (CBytes (concat bufs)) ->
  exists n1 ack a, DPS_AckPublicationBufs (Some pub) bufs cb n = Some (DPS_OK, n1) /\
    n_ackQueue n1 = n_ackQueue n ++ [ack] /\ n_acks n1 !! ack = Some a /\ a_pub a = pub /\ a_destAddr a = addr /\
    concat (a_bufs a) = ack_wire (p_pubId pb) (p_sequenceNum pb) (concat bufs) /\
    (forall n2 e pb2, n_acks n2 !! ack = Some a -> n_pubs n2 !! pub = Some pb2 -> not_local n2 (p_pubId pb2) ->
       env_send (n_sends n2) = DPS_OK ->
       DPS_SendAcknowledgement ack e n2 = Some (DPS_OK, n2 <| n_sends := S (n_sends n2) |>
         <| n_events := EvNetSend e (concat (a_bufs a)) DPS_OK :: n_events n2 |>)) /\
    (forall n3 e b pub3 pb3 handler, rx_wf b -> rx_rest b = concat (a_bufs a) ->
       Z.of_nat (length (map_wire (ack_payload (concat bufs)))) < 2 ^ 32 -> n_state n3 = DPS_NODE_RUNNING ->
       waiting n3 (p_pubId pb) (p_sequenceNum pb) pub3 pb3 handler ->
       OnNetReceive hp DPS_DecodeAcknowledgement e DPS_OK b n3 = Some (DPS_OK,
         n3 <| n_events := EvAck handler pub3 (told (p_sequenceNum pb) (ep_addr e) pb3) (payload_arg (concat bufs)) :: n_events n3 |>
            <| n_pubs := <[pub3 := ack_done pb3]> (n_pubs n3) |>)).
Proof.
  intros Hmem Hbytes Hca Hid Hd.
  assert (wp (DPS_AckPublicationBufs (Some pub) bufs cb) (fun ret n1 => ret = DPS_OK /\ exists ack a,
    n_ackQueue n1 = n_ackQueue n ++ [ack] /\ n_acks n1 !! ack = Some a /\ a_pub a = pub /\ a_destAddr a = addr /\
    concat (a_bufs a) = ack_wire (p_pubId pb) (p_sequenceNum pb) (concat bufs)) n) as Hwp.
  { eapply (wp_AckPublicationBufs Hmem Hbytes); [exact Hca|]. intros ack parts k _ Hparts. split; [done|].
    exists ack, (mkAck pub addr (p_sequenceNum pb) cb DPS_OK parts). split_and!; [done|apply lookup_insert_eq|done..]. }
  apply wp_run in Hwp as (ret & n1 & E & -> & ack & a & Eq & Ea & Ep & Ead & Ew).
  exists n1, ack, a. split_and!; try done.
  - intros n2 e pb2 Ea2 Ep2 Hl Hsend.
    pose proof (wp_SendAcknowledgement n2 ack a pb2 e (fun ret n' => ret = DPS_OK /\ n' = n2 <| n_sends := S (n_sends n2) |>
      <| n_events := EvNetSend e (concat (a_bufs a)) DPS_OK :: n_events n2 |>)) as Hw.
    rewrite Ep in Hw. apply Hw in Hsend; [|done..]. by apply wp_run in Hsend as (r & n' & -> & -> & ->).
  - intros n3 e b pub3 pb3 handler Hb Erest Hlen Hrun Hw. rewrite Ew in Erest. pose proof (ca_sequenceNum _ _ _ _ _ Hca) as Hs.
    pose proof (wp_ack_received hp (p_pubId pb) (p_sequenceNum pb) (concat bufs) e b n3 pub3 pb3 handler) as Hr.
    match goal with |- _ = Some (_, ?m) => specialize (Hr (fun ret n' => ret = DPS_OK /\ n' = m)) end.
    apply wp_run in Hr as (r & n' & -> & -> & ->); done.
Qed.

(** C7: an acknowledgement on its way.  A node none of whose publications waits for it,
    and whose history has the publication with an address to go back to, forwards the
    packet exactly as it came, over the connection to that address when there is one,
    unless it acknowledges a message newer than the last one received or came from
    that address: then nothing happens.  Nothing of the node but the record of what was sent changes. *)
Theorem acknowledgement_forwarded `{Env : Environment} `{Crypto : Cose} nI hp pubId sequenceNum data e b n sn addr back :
  ack_packet pubId sequenceNum data b -> n_state n = DPS_NODE_RUNNING -> node_inv nI n ->
  Forall (refuses (n_pubs n) pubId sequenceNum) (n_publications n) ->
  way_back n pubId sequenceNum e sn addr back -> env_send (n_sends n) = DPS_OK ->
  exists n', OnNetReceive hp DPS_DecodeAcknowledgement e DPS_OK b n = Some (DPS_OK, n') /\
    ((sn < sequenceNum \/ back = true) /\ n' = n \/
     sequenceNum <= sn /\ back = false /\ exists e2, endpoint_of n addr e2 /\
       n' = n <| n_sends := S (n_sends n) |>
              <| n_events := EvRxIncRef :: EvNetSend e2 (take (rx_eod b) (rx_mem b)) DPS_OK :: n_events n |>).
Proof.
  intros Hp Hrun H Hl Hw Hsend.
  match goal with |- exists n', _ = _ /\ @?P n' =>
    cut (wp (OnNetReceive hp DPS_DecodeAcknowledgement e DPS_OK b) (fun ret n' => ret = DPS_OK /\ P n') n) end.
  { intros (r & n' & E & -> & HP)%wp_run. by exists n'. }
  eapply (wp_ack_passed nI); [done..|by auto|]. intros Hle Hb e2 He2. split; [done|]. right. split_and!; [done|done|]. by exists e2.
Qed.

(** *** A subscriber with a publication that came from port 9 *)

#[local] Existing Instance toy_env.
#[local] Existing Instance toy_cose.

Definition toy_came : DPS_History :=
  match DPS_UpdatePubHistory 0 (Some 1%positive) true empty_history (mkUUID 1 2) 1 1 5 0 (toy_addr 9) with
  | Some (_, h) => h
  | None => empty_history
  end.
Definition toy_received : DPS_Publication :=
  zero_pub <| p_pubId := mkUUID 1 2 |> <| p_sequenceNum := 1 |> <| p_ackRequested := true |> <| p_senderAddr := toy_addr 9 |>
    <| p_refCount := 1 |>.
Definition toy_acker : DPS_Node :=
  toy_node <| n_pubs := {[1%positive := toy_received]} |> <| n_publications := [1%positive] |> <| n_history := toy_came |>.

(** The publisher. *)
Definition toy_mine : DPS_Publication :=
  zero_pub <| p_pubId := mkUUID 1 2 |> <| p_sequenceNum := 1 |> <| p_ackRequested := true |> <| p_handler := Some 80 |>
    <| p_flags := PUB_FLAG_LOCAL |>.
Definition toy_waiter : DPS_Node := toy_node <| n_pubs := {[1%positive := toy_mine]} |> <| n_publications := [1%positive] |>.

Lemma toy_waiting : waiting toy_waiter (mkUUID 1 2) 1 1 toy_mine 80.
Proof. split; [by exists [], []|done|done|done]. Qed.

Lemma acknowledgement_roundtrip_witness :
  exists n1 n3 bytes, DPS_AckPublicationBufs (Some 1%positive) [[111; 107]] AckNone toy_acker = Some (DPS_OK, n1) /\
    OnNetReceive DPS_DecodePublication DPS_DecodeAcknowledgement (mkEp (toy_addr 5) None) DPS_OK (rx_of bytes) toy_waiter = Some (DPS_OK, n3) /\
    n_events n3 = [EvAck 80 1 (told 1 (toy_addr 5) toy_mine) (Some [111; 107])].
Proof.
  destruct (acknowledgement_roundtrip DPS_DecodePublication toy_acker 1 toy_received (toy_addr 9) [[111; 107]] AckNone)
    as (n1 & ack & a & E & _ & _ & _ & _ & Ew & _ & Hreceive).
  - done.
  - exact toy_env_bytes.
  - split; [done|done|split; [cbn; unfold DPS_BUFS_MAX; lia|done]|done|exists 1; by vm_compute|done|done].
  - done.
  - split; [done|]. by apply (bool_decide_unpack _); vm_compute.
  - destruct (rx_of_reading (ack_wire (mkUUID 1 2) 1 [111; 107])) as [Hwf _ _ Hrest];
      [by apply (bool_decide_unpack _); vm_compute|by vm_compute|].
    exists n1. eexists. exists (ack_wire (mkUUID 1 2) 1 [111; 107]). split; [exact E|]. split.
    + apply (Hreceive toy_waiter (mkEp (toy_addr 5) None) (rx_of (ack_wire (mkUUID 1 2) 1 [111; 107])) 1%positive toy_mine 80).
      * exact Hwf.
      * rewrite Ew. exact Hrest.
      * by vm_compute.
      * reflexivity.
      * exact toy_waiting.
    + reflexivity.
Defined.

(** A node on the way back. *)
Definition toy_between : DPS_Node := toy_node <| n_history := toy_came |>.
Definition toy_ack_wire : list Z := ack_wire (mkUUID 1 2) 1 [111; 107].

Lemma acknowledgement_forwarded_witness :
  exists n', OnNetReceive DPS_DecodePublication DPS_DecodeAcknowledgement (mkEp (toy_addr 5) None) DPS_OK (rx_of toy_ack_wire) toy_between
      = Some (DPS_OK, n') /\
    n_events n' = [EvRxIncRef; EvNetSend (mkEp (toy_addr 9) None) toy_ack_wire DPS_OK].
Proof.
  destruct (rx_of_reading toy_ack_wire) as [Hwf _ _ Hrest]; [by apply (bool_decide_unpack _); vm_compute|by vm_compute|].
  destruct (acknowledgement_forwarded 1 DPS_DecodePublication (mkUUID 1 2) 1 [111; 107] (mkEp (toy_addr 5) None) (rx_of toy_ack_wire)
    toy_between 1 (toy_addr 9) false) as (n' & E & Hcase).
  - split; [done|done|split; [split; [done|by apply (bool_decide_unpack _); vm_compute]|by vm_compute]|exact Hwf|exact Hrest].
  - done.
  - apply (node_inv_same 1 toy_node); [|done..]. by apply (started_inv 1 _ toy_env_ok).
  - done.
  - split; [by vm_compute|by vm_compute|apply toy_addr_ok].
  - done.
  - exists n'. split; [exact E|]. clear E. destruct Hcase as [[[Hl|Hb] _]|(_ & _ & e2 & He2 & ->)]; [lia|done|].
    destruct He2 as [(p & r & Er & _)|[-> _]]; [done|]. cbn [n_events set]. 
    assert (take (rx_eod (rx_of toy_ack_wire)) (rx_mem (rx_of toy_ack_wire)) = toy_ack_wire) as Et by (cbn; by rewrite take_ge).
    rewrite Et. reflexivity.
Defined.
