(* ===== verification/RouteTheorems.v ===== *)
(** * Forwarding of publications ([src/pub.c])

    A neighbour gets every publication that matches one of the subscriptions that it
    announced, in the bytes that it reads back, and never one that came from it. *)
From S2P Require Import Prelude Status Buffer Float Cbor CborProofs CborValues CborMap.
From S2P Require Import BitVec BitVecProofs Bloom BitVecSerial BitVecTheorems CountVec Topics TopicProofs TopicSound TopicTheorems.
From S2P Require Import Uuid Addr History HistTheorems Node Remote RemoteProofs Sub SubMsg SubMsgProofs Pub Link SubDecode SubDecodeProofs.
From S2P Require Import Tls Keys Cose PubMsg PubRecv PubSend PubMsgProofs PubParseProofs DeliverProofs HandlerProofs ReceiveProofs NodeTheorems.
From S2P Require Import DeliverTheorems SyncTheorems.
From stdpp Require Import gmap.
#[local] Open Scope Z_scope.
#[local] Set Warnings "-clear-no-such-hyp".

(** ** Vectors that may cache a wrong count *)

Lemma Intersection_received k out bv1 bv2 :
  vec_wf k out -> vec_ok k bv1 -> vec_ok k bv2 ->
  exists out', DPS_BitVectorIntersection (Some out) (Some bv1) (Some bv2) = Some (DPS_OK, Some out') /\
    vec_wf k out' /\ bits out' = zip_with Z.land (bits bv1) (bits bv2).
Proof.
  intros Ho H1 H2. pose proof (vec_wf_len _ _ Ho) as Lo. pose proof (vec_ok_len _ _ H1) as L1. pose proof (vec_ok_len _ _ H2) as L2.
  set (fix_count bv := if popCount bv =? 0 then bv else INVALIDATE_POPCOUNT bv).
  assert (forall bv, vec_ok k bv -> bv_wf (fix_count bv) /\ len (fix_count bv) = len bv /\ bits (fix_count bv) = bits bv /\
    (popCount (fix_count bv) =? 0) = (popCount bv =? 0)) as Hfix.
  { intros bv H. unfold fix_count. destruct (Z.eqb_spec (popCount bv) 0) as [E|E].
    - apply vec_ok_cases in H as [[H _]|[? _]]; [|done]. split_and!; try done. by rewrite E.
    - destruct H as [[H _] _]. by split_and!. }
  destruct (Hfix bv1 H1) as (W1 & E1 & B1 & P1), (Hfix bv2 H2) as (W2 & E2 & B2 & P2).
  destruct (DPS_BitVectorIntersection_spec out (fix_count bv1) (fix_count bv2)) as (out' & E & Wo & El & Eb);
    [apply Ho|done|done|congruence|congruence|].
  exists out'. rewrite <- B1, <- B2. split_and!; [|split; [done|]|done].
  - revert E. unfold DPS_BitVectorIntersection. by rewrite E1, E2, B1, B2, P1, P2.
  - pose proof (bv_len _ Wo). lia.
Qed.

(** ** The filter of a route *)

Lemma chunks_sub_land l1 l2 m :
  chunks_sub m l1 -> chunks_sub m l2 -> chunks_sub m (zip_with Z.land l1 l2).
Proof.
  intros H. revert l2. induction H as [|x y m l1 Hxy H IH]; intros l2 H2; inversion H2 as [|? z ? l2' Hxz H2']; subst; cbn; constructor.
  - intros i Hi Ht. rewrite Z.land_spec, (Hxy i Hi Ht). by apply Hxz.
  - by apply IH.
Qed.

Lemma chunks_count_sub l m : chunks_ok l -> chunks_ok m -> chunks_sub m l -> chunks_count m <> 0 -> chunks_count l <> 0.
Proof.
  intros Hl Hm Hs Hc. pose proof (chunks_count_mono m l Hm Hl Hs). pose proof (chunks_count_nonneg m). lia.
Qed.

(** *** Unions and intersections bound their members *)

Lemma chunks_test_out l i : 64 * Z.of_nat (length l) <= i -> chunks_test l i = false.
Proof.
  intros Hi. unfold chunks_test, chunk_at. rewrite lookup_ge_None_2; [apply Z.bits_0|]. Z.div_mod_to_equations. lia.
Qed.

Lemma vec_union_sub k L l : In l L -> chunks_ok l -> length l = k -> chunks_sub l (vec_union k L).
Proof.
  intros Hin Hok Hl. apply chunks_sub_test; [done|unfold vec_union; by rewrite length_map, length_columns|].
  intros i Hi Ht. destruct (Z.le_gt_cases (64 * Z.of_nat k) i) as [Ho|Ho]; [rewrite chunks_test_out in Ht; [done|lia]|].
  rewrite vec_union_test by lia. apply existsb_exists. by exists l.
Qed.

Lemma vec_needs_sub k L l : In l L -> length l = k -> chunks_sub (vec_needs k L) l.
Proof.
  intros Hin Hl. unfold vec_needs. rewrite decide_False by (by intros ->).
  assert (length (vec_meet k L) = k) as Hm by (unfold vec_meet; by rewrite length_map, length_columns).
  apply chunks_sub_test; [|congruence|].
  - pose proof (vec_needs_ok k L) as H. unfold vec_needs in H. by rewrite decide_False in H by (by intros ->).
  - intros i Hi Ht. destruct (Z.le_gt_cases (64 * Z.of_nat k) i) as [Ho|Ho]; [rewrite chunks_test_out in Ht; [done|lia]|].
    rewrite vec_meet_test in Ht by lia. rewrite forallb_forall in Ht. by apply Ht.
Qed.

Lemma vec_union_zeros k : vec_union k [replicate k 0] = replicate k 0.
Proof.
  unfold vec_union. induction k as [|k IH]; [done|]. cbn [columns map head replicate default tail]. by rewrite IH.
Qed.

Lemma fuzzy_of_zeros k l : length l = k -> chunks_count (fuzzy_spec (zip_with Z.land l (replicate k 0))) = 0.
Proof.
  intros <-. assert (zip_with Z.land l (replicate (length l) 0) = replicate (length l) 0) as ->.
  { induction l as [|x l IH]; [done|]. cbn. by rewrite Z.land_0_r, IH. }
  unfold fuzzy_spec. assert (chunks_count (replicate (length l) 0) = 0) as -> by (induction l; done). done.
Qed.

Section Route.
Context `{Env : Environment} (nI : nat).

(** The scratch vectors of the node. *)
Definition scratch_ok (n : DPS_Node) : Prop :=
  vec_wf nI (n_scratch_interests n) /\ vec_wf FH_CHUNKS (n_scratch_needs n).

Lemma wp_matches_remote bf i d n (Q : bool -> DPS_Node -> Prop) :
  scratch_ok n -> vec_ok nI bf -> vec_ok nI i -> vec_wf FH_CHUNKS d ->
  (forall b n', n' = n <| n_scratch_needs := n_scratch_needs n' |> <| n_scratch_interests := n_scratch_interests n' |> ->
     scratch_ok n' ->
     (b = true <-> chunks_sub (bits d) (fuzzy_spec (zip_with Z.land (bits bf) (bits i))) /\
                   chunks_count (fuzzy_spec (zip_with Z.land (bits bf) (bits i))) <> 0) -> Q b n') ->
  wp (matches_remote (Some bf) (Some i) (Some d)) Q n.
Proof.
  intros [Hsi Hsn] Hbf Hi Hd HQ. unfold matches_remote. wp_go.
  destruct (Intersection_received nI _ bf i Hsi Hbf Hi) as (o & Eo & Wo & Bo). eapply wp_lift; [exact Eo|]. wp_go.
  destruct (DPS_BitVectorFuzzyHash_spec (n_scratch_needs n) o) as (hash & Eh & Wh & Lh & Bh);
    [apply Hsn|apply (vec_wf_len _ _ Hsn)|apply Wo|]. eapply wp_lift; [exact Eh|]. wp_go.
  destruct (DPS_BitVectorIncludes_spec hash d Wh (proj1 Hd)) as (b & Eb & Hb); [rewrite Lh; symmetry; apply (vec_wf_len _ _ Hd)|].
  eapply wp_lift; [exact Eb|]. apply HQ.
  - by destruct n.
  - split; cbn.
    + split; [|apply Wo]. apply set_popCount_wf; [apply Wo|by right].
    + split; [done|]. pose proof (bv_len _ Wh) as Hl. rewrite Lh in Hl. unfold FH_BITVECTOR_LEN, FH_CHUNKS, CHUNK_SIZE in *. lia.
  - rewrite Hb. unfold bv_sub. by rewrite Bh, Bo.
Qed.

(** The filter of a subscription that is in the interests is in the intersection, so the
    needs are in its hash. *)
Lemma route_matches bf i d sf :
  vec_ok nI bf -> vec_ok nI i -> chunks_ok sf -> chunks_count sf <> 0 ->
  chunks_sub sf bf.(bits) -> chunks_sub sf (bits i) -> chunks_sub d (fuzzy_spec sf) ->
  chunks_sub d (fuzzy_spec (zip_with Z.land (bits bf) (bits i))) /\
  chunks_count (fuzzy_spec (zip_with Z.land (bits bf) (bits i))) <> 0.
Proof.
  intros Hbf Hi Hok Hc Hs1 Hs2 Hd. pose proof (chunks_sub_land _ _ _ Hs1 Hs2) as Hs.
  assert (chunks_ok (zip_with Z.land (bits bf) (bits i))) as Hz.
  { apply zip_with_ok; [|by eapply vec_ok_chunks..]. intros. by apply (land_range _ _ 64). }
  split.
  - unfold chunks_sub in *. etrans; [exact Hd|]. by apply fuzzy_spec_mono.
  - apply fuzzy_spec_nonempty; [done|]. exact (chunks_count_sub _ sf Hz Hok Hs Hc).
Qed.

(** *** What a node announces covers its subscriptions *)

Lemma vectors_elem {V} (f : V -> option DPS_BitVector) (m : gmap ptr V) q v bv l :
  q ∈ l -> m !! q = Some v -> f v = Some bv -> In (bits bv) (vectors f m l).
Proof.
  intros Hq Em Ef. apply list_elem_of_In. unfold vectors. apply list_elem_of_omap. exists q. split; [done|].
  unfold vectors_at. rewrite Em. cbn. by rewrite Ef.
Qed.

(** A subscription as the library makes it: its needs are the hash of its filter. *)
Definition hashed (s : DPS_Subscription) : Prop :=
  exists v d, s_bf s = Some v /\ s_needs s = Some d /\ bits d = fuzzy_spec (bits v) /\ vec_wf FH_CHUNKS d.

Lemma announced_covers n p sub s v d :
  sub ∈ n_subscriptions n -> n_subs n !! sub = Some s -> s_bf s = Some v -> s_needs s = Some d ->
  chunks_ok (bits v) -> length (bits v) = nI -> vec_wf FH_CHUNKS d ->
  chunks_sub (bits v) (vec_union nI (rest_interests n p)) /\
  chunks_sub (vec_needs FH_CHUNKS (rest_needs n p)) (bits d).
Proof.
  intros Hin Es Ev Ed Hok Hl Hd. split.
  - apply vec_union_sub; [|done|done]. apply List.in_or_app. left. by eapply vectors_elem.
  - apply vec_needs_sub; [|apply Hd]. apply List.in_or_app. left. by eapply vectors_elem.
Qed.

(** What is stored for the remote is the union and the intersection of the others. *)
Lemma outbound_announced n n' p r r' changed oi od :
  node_inv nI n -> n_remotes n !! p = Some r -> r_state r <> REMOTE_UNLINKING ->
  Z.of_nat (length (rest_interests n p)) < CV_MAX -> Z.of_nat (length (rest_needs n p)) < CV_MAX ->
  needs_follow r (vec_union nI (rest_interests n p)) (vec_needs FH_CHUNKS (rest_needs n p)) ->
  bitLen env_config = 64 * Z.of_nat nI -> 64 * Z.of_nat nI < 2 ^ 31 ->
  DPS_UpdateOutboundInterests p n = Some ((DPS_OK, changed), n') -> n_remotes n' !! p = Some r' ->
  out_interests (outbound r') = Some oi -> out_needs (outbound r') = Some od ->
  bits oi = vec_union nI (rest_interests n p) /\ bits od = vec_needs FH_CHUNKS (rest_needs n p).
Proof.
  intros Hn Er Hst HlI HlN Hnf Hsz Hsm E Er' Eoi Eod.
  pose proof (wp_UpdateOutboundInterests nI Hsz Hsm n p r (fun x n' => x.1 = DPS_OK -> forall r', n_remotes n' !! p = Some r' ->
    exists i d, out_interests (outbound r') = Some i /\ out_needs (outbound r') = Some d /\
      bits i = vec_union nI (rest_interests n p) /\ bits d = vec_needs FH_CHUNKS (rest_needs n p)) Hn Er Hst HlI HlN) as Hwp.
  cbv zeta in Hwp. unfold wp in Hwp. rewrite E in Hwp.
  destruct (Hwp Hnf) with (r' := r') as (i & d & E1 & E2 & B1 & B2); [|done|done|split; congruence].
  intros m q ret ch _ _ _ Em [(-> & _)|(-> & [_ (i & d & ? & ? & _ & ? & _ & ?) _ _ _])] Hret; [done|].
  intros q' Eq'. rewrite Em, lookup_insert_eq in Eq'. injection Eq' as <-. by exists i, d.
Qed.
End Route.

(** *** Which filters are not empty *)

(** A topic that says something: it is not a wildcard alone. *)
Definition says_something (topic : list Z) : Prop := topic <> [INFIX_WILDC] /\ topic <> [FINAL_WILDC].

Section Says.
Context (seps : list Z) (Hs : no_wild seps).

Lemma wild_ok_tail a : forall b l, wild_ok seps b (a ++ l) -> exists b', wild_ok seps b' l.
Proof using. induction a as [|c a IH]; intros b l H; [by exists b|]. by apply IH in H as [_ H] || (destruct H as [_ H]; by apply IH in H). Qed.

(** The last level is inserted. *)
Lemma loop_inserts_some pub b r : forall d q, r <> [] -> levels_ok seps r -> wild_ok seps b (levels r) ->
  loop_inserts pub (Some 0%nat) d q r <> [].
Proof using.
  revert b. induction r as [|[p s] r IH]; intros b d q Hne Hl Hw; [done|]. apply Forall_cons_iff in Hl as [[Hp Hsl] Hl]. cbn [fst snd] in *.
  cbn [loop_inserts]. change (levels ((p, s) :: r)) with (p :: s ++ levels r) in Hw. destruct Hw as [_ Hw].
  intros [_ [H1 H2]%app_eq_nil]%app_eq_nil. destruct r as [|ps r].
  - rewrite Hp, app_nil_r in *. unfold segment_used in H1. cbn [Nat.ltb Nat.leb andb] in H1. destruct s as [|c s]; [done|].
    destruct (Z.eqb_spec c INFIX_WILDC) as [->|]; [|done]. destruct Hw as [Hc _]. destruct (Hc eq_refl) as [_ [->|(_ & p' & l' & -> & Hp')]]; [done|].
    apply Forall_cons_iff in Hsl as [_ Hsl]. apply Forall_cons_iff in Hsl as [Hsl _]. congruence.
  - destruct (wild_ok_tail s _ _ Hw) as [b' Hb]. by apply (IH b' (d ++ p :: s) (q ++ [p])) in H2.
Qed.

Lemma says_inserts topic wc : topic_ok seps DPS_SubTopic topic -> says_something topic -> first_wild topic wc ->
  topic_inserts seps DPS_SubTopic topic wc <> [].
Proof using Hs.
  intros (_ & Hne & _ & _ & _ & Hw) [H1 H2] Hf. unfold topic_inserts. pose proof (split_join seps topic) as Ej.
  pose proof (split_levels_ok seps topic) as [Hsl Hl]. destruct (TopicProofs.split seps topic) as [s r] eqn:Es. cbn [fst snd is_sub is_pub] in *.
  destruct wc as [[|k]|]; [|done|done]. destruct Hf as (a & c & b & E & La & _ & Hc). destruct a; [|done]. cbn [app] in E. rewrite app_nil_l, app_nil_r.
  pose proof Hw as Hw'. rewrite E in Hw. destruct Hw as [Hcw _]. destruct (Hcw Hc) as [_ Hb].
  assert (b <> []) as Hbn. { intros ->. unfold ANY_WILDC in Hc. apply orb_true_iff in Hc as [Hc|Hc]; apply Z.eqb_eq in Hc as ->; congruence. }
  destruct Hb as [->|(-> & p & l & -> & Hp)]; [done|]. assert (is_sep seps INFIX_WILDC = false) as Hi.
  { destruct (is_sep seps INFIX_WILDC) eqn:Ei; [|done]. by apply (sep_not_wild seps Hs) in Ei. }
  rewrite <- Ej in Hw'. apply wild_ok_tail in Hw' as [b' Hw']. apply (loop_inserts_some false b'); [|done|done].
  intros ->. rewrite E in Es. cbn [TopicProofs.split] in Es. rewrite Hi in Es. destruct (TopicProofs.split seps l). rewrite Hp in Es. congruence.
Qed.

Lemma says_filter `{Env : Environment} nI topics v : hashing_ok nI -> Forall (topic_ok seps DPS_SubTopic) topics ->
  built_filter seps DPS_SubTopic topics v -> Exists says_something topics -> chunks_count (bits v) <> 0.
Proof using Hs.
  intros H Ht Hv (topic & Hin & Hsay)%List.Exists_exists. destruct (built_filter_wf nI _ _ _ _ H Hs Ht Hv) as [Wv _].
  destruct Hv as (m & Hm & E). pose proof (fresh_filter_wf nI H) as Hw.
  assert (0 < len (fresh_bv (bitLen env_config))) as Hl0 by (cbn; rewrite (ho_size _ H); apply (ho_small _ H)).
  destruct (add_topics_has env_md env_config m seps (ho_md _ H) (ho_hashes _ H) Hs Hm DPS_SubTopic topics topic Ht Hin _ _ Hw Hl0 E)
    as (b0 & b1 & xs & W0 & L0 & (wc & Hwc & ->) & Hi & S1).
  rewrite List.Forall_forall in Ht. pose proof (says_inserts topic wc (Ht topic Hin) Hsay Hwc) as Hne.
  destruct (insert_all_spec env_md (ho_md _ H) env_config (ho_hashes _ H) (topic_inserts seps DPS_SubTopic topic wc) b0 W0 ltac:(lia))
    as (b1' & Hi' & W1 & L1 & _ & _ & Hh & _). rewrite Hi in Hi'. injection Hi' as <-.
  destruct (topic_inserts seps DPS_SubTopic topic wc) as [|x xs]; [done|].
  assert (chunks_count (bits b1) <> 0) as Hc.
  { apply (bloom_has_nonempty env_md env_config (ho_hashes _ H) _ (len b0) x); [apply W1|lia|]. apply Hh. by left. }
  pose proof (chunks_count_mono _ _ (bv_chunks _ W1) (bv_chunks _ Wv) S1). pose proof (chunks_count_nonneg (bits b1)). lia.
Qed.
End Says.

(** C3: routing has no false negatives, from the topics to the decision.  A node [nB]
    computed its interests for a neighbour, which records them ([in_interests] and
    [in_needs] of the remote that stands for [nB] hold the same bits).  Then for every
    subscription of [nB], made by the library, that has a topic other than "+" and "#"
    alone, and every publication that matches it by its topics, whatever else [nB] and
    its other neighbours announced, the neighbour's matching code decides to send the
    publication to [nB].  The topics "+" and "#" put nothing in a filter: what becomes of
    a subscription to "#" is stated below. *)
Theorem routed_to_subscriber `{Env : Environment} nI nB nB' p r r' changed oi od sub s bv v topics pf nA bf i d :
  hashing_ok nI -> node_inv nI nB -> n_remotes nB !! p = Some r -> r_state r <> REMOTE_UNLINKING ->
  Z.of_nat (length (rest_interests nB p)) < CV_MAX -> Z.of_nat (length (rest_needs nB p)) < CV_MAX ->
  needs_follow r (vec_union nI (rest_interests nB p)) (vec_needs FH_CHUNKS (rest_needs nB p)) ->
  DPS_UpdateOutboundInterests p nB = Some ((DPS_OK, changed), nB') -> n_remotes nB' !! p = Some r' ->
  out_interests (outbound r') = Some oi -> out_needs (outbound r') = Some od ->
  sub ∈ n_subscriptions nB -> n_subs nB !! sub = Some s -> hashed s -> s_bf s = Some bv -> bits bv = bits v -> Exists says_something (s_topics s) ->
  no_wild (n_separators nB) -> Forall (topic_ok (n_separators nB) DPS_SubTopic) (s_topics s) ->
  built_filter (n_separators nB) DPS_SubTopic (s_topics s) v ->
  topics <> [] -> Forall (topic_ok (n_separators nB) DPS_PubTopic) topics ->
  built_filter (n_separators nB) DPS_PubTopic topics pf -> sub_matches (n_separators nB) topics s ->
  scratch_ok nI nA -> vec_ok nI bf -> bits bf = bits pf ->
  vec_ok nI i -> bits i = bits oi -> vec_wf FH_CHUNKS d -> bits d = bits od ->
  exists nA', matches_remote (Some bf) (Some i) (Some d) nA = Some (true, nA').
Proof.
  intros H HB Er Hst HlI HlN Hnf Hup Er' Eoi Eod Hsub Es (v' & sn & Ev & En & Bn & Wn) Ev' Ebv Hne Hs Hst' Hv Htn Ht Hpf Hm
    Hscr Hbf Ebf Hi Ei Hd Ed. rewrite Ev in Ev'. injection Ev' as ->. rewrite Ebv in Bn. pose proof (ho_small _ H) as Hsm.
  destruct (built_filter_wf nI _ _ _ _ H Hs Hst' Hv) as [Wv Lv]. apply (says_filter _ Hs nI _ _ H Hst' Hv) in Hne.
  destruct (announced_covers nI nB p sub s bv sn Hsub Es Ev En ltac:(rewrite Ebv; apply (bv_chunks _ Wv)) ltac:(by rewrite Ebv) Wn) as [Ci Cd].
  rewrite Ebv in Ci.
  pose proof (outbound_announced nI nB nB' p r r' changed oi od HB Er Hst HlI HlN Hnf (ho_size _ H) ltac:(lia) Hup Er' Eoi Eod) as [Bi Bd].
  pose proof (built_filter_sub nI _ _ _ pf v H Hs Ht Hst' Hm Hpf Hv) as Hsb.
  destruct (route_matches nI bf i (bits d) (bits v)) as [R1 R2];
    [done|done|apply Wv|done|by rewrite Ebf|by rewrite Ei, Bi|by rewrite Ed, Bd, <- Bn|].
  cut (wp (matches_remote (Some bf) (Some i) (Some d)) (fun b _ => b = true) nA).
  { intros (b & nA' & E & ->)%wp_run. by exists nA'. }
  apply (wp_matches_remote nI); [done..|]. intros b n' _ _ Hb. apply Hb. by split.
Qed.

(** *** A subscription to everything *)

Section Everything.
Context `{Env : Environment} (nI : nat) (seps : list Z) (H : hashing_ok nI) (Hs : no_wild seps).

Lemma wildcard_not_sep : is_sep seps FINAL_WILDC = false.
Proof using Hs.
  destruct (is_sep seps FINAL_WILDC) eqn:E; [|done]. by apply (sep_not_wild seps Hs) in E.
Qed.

Lemma wildcard_matches pub : topic_ok seps DPS_PubTopic pub -> topics_match seps pub [FINAL_WILDC].
Proof using Hs.
  intros (_ & Hne & _ & Hsep & _). unfold topics_match. cbn [TopicProofs.split]. rewrite wildcard_not_sep. cbn [fst snd].
  apply tm_rest. destruct pub as [|c pub]; [done|]. cbn [TopicProofs.split]. cbn [next_char] in Hsep. destruct (TopicProofs.split seps pub) as [s r].
  by rewrite Hsep.
Qed.

Lemma wildcard_topic_ok : topic_ok seps DPS_SubTopic [FINAL_WILDC].
Proof using Hs.
  pose proof wildcard_not_sep as Hw. split_and!; try done; [by repeat constructor|]. split; [cbn; by rewrite Hw|].
  cbn. split; [|done]. intros _. split; [done|by left].
Qed.

Lemma wildcard_filter v : built_filter seps DPS_SubTopic [[FINAL_WILDC]] v -> bits v = replicate nI 0.
Proof using H Hs.
  intros (m & Hm & E). pose proof (fresh_filter_wf nI H) as Hw. cbn [TopicTheorems.add_topics] in E.
  destruct (AddTopic_grows env_md env_config m seps (ho_md _ H) (ho_hashes _ H) Hs Hm DPS_SubTopic [FINAL_WILDC]
    (fresh_bv (bitLen env_config)) wildcard_topic_ok Hw) as (v' & xs & E1 & (wc & Hwc & ->) & Hi & _);
    [cbn; rewrite (ho_size _ H); apply (ho_small _ H)|].
  rewrite E1 in E. cbn in E. injection E as <-.
  rewrite (first_wild_unique [FINAL_WILDC] wc (Some 0%nat) Hwc) in Hi by (exists [], FINAL_WILDC, []; split_and!; [done|done|constructor|done]).
  unfold topic_inserts in Hi. cbn [TopicProofs.split] in Hi. rewrite wildcard_not_sep in Hi. cbn in Hi. injection Hi as <-.
  cbn. rewrite (ho_size _ H), Z.mul_comm, Z.div_mul, Nat2Z.id by done. done.
Qed.
End Everything.

Lemma vec_union_zero k L : vec_union k (replicate k 0 :: L) = vec_union k L.
Proof.
  unfold vec_union. revert L. induction k as [|k IH]; intros L; [done|]. cbn [columns map replicate head default tail]. f_equal. apply IH.
Qed.

Lemma nothing_common k l : length l = k -> chunks_count (zip_with Z.land l (vec_union k [])) = 0.
Proof.
  intros <-. unfold vec_union. induction l as [|x l IH]; [done|]. cbn [length columns map head default squash foldr zip_with].
  by rewrite Z.land_0_r.
Qed.

(** C34: a subscription to everything is announced as nothing.  The topic "#" is matched
    by every publication, but puts nothing in the filter of its subscription, nor in its
    needs.  So a neighbour that records the interests and the needs of [nB] sends exactly
    the publications whose filter has a bit in common with the interests of the other
    subscriptions and of the other neighbours of [nB]; the rest, and all of them when "#"
    is all that [nB] has, never reach the subscription. *)
Theorem wildcard_not_routed `{Env : Environment} nI nB p sub s bv v rest :
  hashing_ok nI -> no_wild (n_separators nB) -> sub ∈ n_subscriptions nB -> n_subs nB !! sub = Some s -> hashed s ->
  s_topics s = [[FINAL_WILDC]] -> s_bf s = Some bv -> bits bv = bits v -> built_filter (n_separators nB) DPS_SubTopic (s_topics s) v ->
  rest_interests nB p ≡ₚ bits v :: rest ->
  (forall topics, topics <> [] -> Forall (topic_ok (n_separators nB) DPS_PubTopic) topics -> sub_matches (n_separators nB) topics s) /\
  (forall nA bf i d, scratch_ok nI nA -> vec_ok nI bf -> vec_ok nI i -> bits i = vec_union nI (rest_interests nB p) ->
     vec_wf FH_CHUNKS d -> bits d = vec_needs FH_CHUNKS (rest_needs nB p) ->
     exists b nA', matches_remote (Some bf) (Some i) (Some d) nA = Some (b, nA') /\
       (b = true <-> chunks_count (zip_with Z.land (bits bf) (vec_union nI rest)) <> 0) /\ (rest = [] -> b = false)).
Proof.
  intros H Hs Hsub Es (v' & sn & Ev & En & Bn & Wn) Et Ev' Ebv Hv Hr. rewrite Ev in Ev'. injection Ev' as ->. rewrite Et in Hv.
  pose proof (wildcard_filter nI _ H Hs v Hv) as Hz. rewrite Ebv, Hz in Bn. split.
  - intros topics Hne Ht. unfold sub_matches. rewrite Et. apply List.Forall_cons; [|done]. destruct topics as [|t topics]; [done|].
    apply Forall_cons_iff in Ht as [Ht _]. left. by apply wildcard_matches.
  - intros nA bf i d Hscr Hbf Hi Ei Hd Ed. rewrite (vec_union_perm _ _ _ Hr), Hz, vec_union_zero in Ei.
    assert (bits sn = replicate FH_CHUNKS 0) as Bz by (rewrite Bn; unfold fuzzy_spec; by rewrite zeros_count).
    assert (chunks_sub (bits d) (replicate FH_CHUNKS 0)) as Hdz.
    { rewrite Ed, <- Bz. apply vec_needs_sub; [|apply Wn]. apply List.in_or_app. left. by eapply vectors_elem. }
    assert (chunks_ok (zip_with Z.land (bits bf) (bits i))) as Hok.
    { apply zip_with_ok; [|by eapply vec_ok_chunks..]. intros. by apply (land_range _ _ 64). }
    cut (wp (matches_remote (Some bf) (Some i) (Some d)) (fun b _ => b = true <-> chunks_count (zip_with Z.land (bits bf) (bits i)) <> 0) nA).
    { intros (b & nA' & E & Hb)%wp_run. exists b, nA'. rewrite <- Ei. split; [done|]. split; [done|]. intros ->. destruct b; [|done].
      destruct (proj1 Hb eq_refl). rewrite Ei. by apply nothing_common, vec_ok_length. }
    apply (wp_matches_remote nI); [done..|]. intros b n' _ _ Hb. rewrite Hb. split.
    + intros [_ Hc] Hc0. apply Hc. unfold fuzzy_spec. by rewrite Hc0.
    + intros Hc. split; [|by apply fuzzy_spec_nonempty]. unfold chunks_sub in *. etrans; [exact Hdz|]. apply (zeros_sub FH_CHUNKS).
      unfold fuzzy_spec. by destruct (_ =? 0).
Qed.

(** *** A neighbour of a subscriber *)

#[local] Existing Instance toy_env.

(** The node subscribed to "a/+/c" and has a neighbour. *)
Definition toy_routed : DPS_Node :=
  toy_state (run_op (OpSubscribe 1 70)) (toy_state toy_active (toy_state (run_op (OpAddRemote (toy_addr 7) None))
    (toy_node <| n_addr := toy_addr 8 |> <| n_subs := {[1%positive := mkSub None None None 0 SUB_FLAG_SERIALIZE None [topic_a_c]]} |>))).
Definition toy_announced : DPS_Node := toy_state (_ ← DPS_UpdateOutboundInterests 1; mret ()) toy_routed.
Definition toy_outbound : Outbound := outbound (toy_remote toy_announced).

Lemma toy_routed_inv : node_inv 1 toy_routed.
Proof.
  apply toy_step.
  - apply toy_active_inv, toy_step; [|apply toy_addr_ok]. apply (started_inv 1 _ toy_env_ok). by split.
  - exists (mkSub None None None 0 SUB_FLAG_SERIALIZE None [topic_a_c]). split_and!; try (by vm_compute).
    + intros Hin. by vm_compute in Hin; apply not_elem_of_nil in Hin.
    + exact slash_no_wild.
    + apply List.Forall_cons; [apply topic_a_c_ok|done].
Qed.

Lemma toy_scratch : scratch_ok 1 toy_node.
Proof. split; by apply (bool_decide_unpack _); vm_compute. Qed.

Lemma toy_subscribed_ok : Forall (topic_ok [47] DPS_SubTopic) [topic_a_c].
Proof. apply List.Forall_cons; [apply topic_a_c_ok|done]. Qed.

Lemma toy_published_ok : Forall (topic_ok [47] DPS_PubTopic) [topic_abc].
Proof. apply List.Forall_cons; [apply topic_abc_ok|done]. Qed.

Definition toy_s : DPS_Subscription := default (toy_subscription [] 0) (n_subs toy_routed !! 1%positive).

Lemma toy_hashed : hashed toy_s.
Proof.
  exists (default (fresh_bv 64) (s_bf toy_s)), (default (fresh_bv 64) (s_needs toy_s)).
  split; [by vm_compute|split; [by vm_compute|split]]; [by vm_compute|by apply (bool_decide_unpack _); vm_compute].
Qed.

Lemma toy_alone : rest_interests toy_routed 1 = [[2377900611858333728]] /\
  rest_needs toy_routed 1 = [[16248997466341380273; 16510325079287465961; 13536781899771764338; 31]].
Proof. split; by vm_compute. Qed.

Lemma toy_match : topics_match [47] topic_abc topic_a_c.
Proof. unfold topics_match. cbn. repeat (apply tm_level; [first [by left|by right]|]). apply tm_last. by left. Qed.

Lemma routed_to_subscriber_witness :
  exists nA', matches_remote (Some (toy_filter DPS_PubTopic [topic_abc])) (out_interests toy_outbound) (out_needs toy_outbound)
    toy_node = Some (true, nA').
Proof.
  pose (oi := default (fresh_bv 64) (out_interests toy_outbound)). pose (od := default (fresh_bv 64) (out_needs toy_outbound)).
  replace (out_interests toy_outbound) with (Some oi) by (vm_compute; reflexivity).
  replace (out_needs toy_outbound) with (Some od) by (vm_compute; reflexivity).
  destruct toy_alone as [HI HN]. assert (s_topics toy_s = [topic_a_c]) as Ht by (vm_compute; reflexivity).
  apply (routed_to_subscriber 1 toy_routed toy_announced 1 (toy_remote toy_routed) (toy_remote toy_announced) true oi od 1 toy_s
    (default (fresh_bv 64) (s_bf toy_s)) (toy_filter DPS_SubTopic [topic_a_c]) [topic_abc] (toy_filter DPS_PubTopic [topic_abc]) toy_node _ oi od).
  - exact toy_hashing.
  - exact toy_routed_inv.
  - vm_compute; reflexivity.
  - by vm_compute.
  - rewrite HI. by vm_compute.
  - rewrite HN. by vm_compute.
  - intros i d E. exfalso. by vm_compute in E.
  - vm_compute; reflexivity.
  - vm_compute; reflexivity.
  - vm_compute; reflexivity.
  - vm_compute; reflexivity.
  - replace (n_subscriptions toy_routed) with [1%positive] by (vm_compute; reflexivity). by left.
  - vm_compute; reflexivity.
  - exact toy_hashed.
  - vm_compute; reflexivity.
  - by vm_compute.
  - rewrite Ht. left. split; discriminate.
  - exact slash_no_wild.
  - rewrite Ht. exact toy_subscribed_ok.
  - rewrite Ht. exact (toy_built DPS_SubTopic [topic_a_c] toy_subscribed_ok).
  - done.
  - exact toy_published_ok.
  - exact (toy_built DPS_PubTopic [topic_abc] toy_published_ok).
  - unfold sub_matches. rewrite Ht. apply List.Forall_cons; [|done]. left. exact toy_match.
  - exact toy_scratch.
  - by apply (bool_decide_unpack _); vm_compute.
  - done.
  - by apply (bool_decide_unpack _); vm_compute.
  - done.
  - by apply (bool_decide_unpack _); vm_compute.
  - done.
Defined.

Definition toy_wild_v : DPS_BitVector := toy_filter DPS_SubTopic [[FINAL_WILDC]].
Definition toy_wild : DPS_Subscription :=
  (toy_subscription [[FINAL_WILDC]] 70) <| s_bf := Some toy_wild_v |> <| s_needs := Some (fresh_bv 256) |>.

(** A node that is subscribed to everything, and has a neighbour with interests of its own. *)
Definition toy_everything : DPS_Node :=
  toy_a <| n_subs := {[1%positive := toy_wild]} |> <| n_subscriptions := [1%positive] |>.

Lemma wildcard_not_routed_witness :
  vec_union 1 (rest_interests toy_everything 1) = [5] /\
  exists b nA', matches_remote (Some (toy_filter DPS_PubTopic [topic_abc])) (Some (bv64 [5])) (Some (fresh_bv 256)) toy_node = Some (b, nA') /\
    (b = true <-> chunks_count (zip_with Z.land (bits (toy_filter DPS_PubTopic [topic_abc])) [5]) <> 0) /\ ([[5]] = [] -> b = false).
Proof.
  split; [by vm_compute|]. pose proof (wildcard_topic_ok [47] slash_no_wild) as Hw.
  assert (Forall (topic_ok [47] DPS_SubTopic) [[FINAL_WILDC]]) as Hws by (apply List.Forall_cons; [exact Hw|done]).
  refine (proj2 (wildcard_not_routed 1 toy_everything 1 1 toy_wild toy_wild_v toy_wild_v [[5]] toy_hashing slash_no_wild _ _ _ _ _ _ 
    (toy_built DPS_SubTopic _ Hws) _) toy_node _ _ _ toy_scratch _ _ _ _ _).
  - by left.
  - done.
  - by exists toy_wild_v, (fresh_bv 256); split_and!; [..|apply (bool_decide_unpack _); vm_compute].
  - done.
  - done.
  - done.
  - by vm_compute.
  - by apply (bool_decide_unpack _); vm_compute.
  - by apply (bool_decide_unpack _); vm_compute.
  - by vm_compute.
  - by apply (bool_decide_unpack _); vm_compute.
  - by vm_compute.
Defined.
