(* ===== verification/LifeTheorems.v ===== *)
(** * The life of a node is safe ([src/dps.c])

    A node that starts is well typed, one that does not start leaves nothing behind,
    and a node that is destroyed stops, frees what it holds and says so.  While a node
    with nothing in flight stops, the event loop has only [FreeTask] to run. *)
From S2P Require Import Prelude Status Buffer Float Cbor BitVec BitVecProofs CountVec BitVecTheorems Uuid Addr History HistTheorems Node Remote RemoteProofs.
From S2P Require Import Sub SubProofs NodeTheorems Frame SubMsg SubMsgProofs SendProofs Pub PubProofs Link SubDecode SubDecodeProofs TopicTheorems Ack Life SyncTheorems RouteTheorems.
From stdpp Require Import gmap.
#[local] Open Scope Z_scope.
#[local] Set Warnings "-clear-no-such-hyp".

Section Life.
Context `{Env : Environment} (nI : nat).

(** ** Views *)

(** What closing the handles leaves alone. *)
Definition object_view (n : DPS_Node) :=
  (n_remotes n, n_remoteNodes n, n_subs n, n_subscriptions n, n_freeSubs n, n_pubs n, n_publications n, n_freePubs n,
   (n_ackQueue n, n_requestQueue n, n_history n, n_cpns n, n_interests n, n_needs n, n_state n, n_onDestroyed n, n_onShutdown n)).
(** What deleting a remote leaves alone. *)
Definition delete_view (n : DPS_Node) :=
  (n_subs n, n_subscriptions n, n_freeSubs n, n_pubs n, n_publications n, n_freePubs n,
   (n_ackQueue n, n_history n, n_state n, n_onDestroyed n, n_netCtx n, n_mcastSender n, n_mcastReceiver n)).
(** What freeing a subscription leaves alone. *)
Definition sub_view (n : DPS_Node) :=
  (n_remotes n, n_remoteNodes n, n_requestQueue n, n_pubs n, n_publications n, n_freePubs n,
   (n_ackQueue n, n_history n, n_state n, n_onDestroyed n, n_netCtx n, n_mcastSender n, n_mcastReceiver n)).
(** What freeing a publication leaves alone. *)
Definition pub_free_view (n : DPS_Node) :=
  (n_remotes n, n_remoteNodes n, n_requestQueue n, n_subs n, n_subscriptions n, n_freeSubs n,
   (n_ackQueue n, n_history n, n_state n, n_onDestroyed n, n_netCtx n, n_mcastSender n, n_mcastReceiver n)).

Lemma leaves_count {X} (view : DPS_Node -> X) (cv : DPS_Node -> DPS_CountVector) `{!Setter cv} bv :
  (forall v n, view (set cv v n) = view n) -> leaves view (count_del cv bv).
Proof using.
  intros Hf n y n'. unfold count_del. destruct (DPS_CountVectorDel _ _) as [[ret [v|]]|]; cbn; try done.
  by intros [= _ <-].
Qed.
Lemma leaves_del_interests' bv : leaves delete_view (count_del n_interests bv) /\ leaves sub_view (count_del n_interests bv).
Proof using. split; by apply leaves_count. Qed.
Lemma leaves_del_needs' bv : leaves delete_view (count_del n_needs bv) /\ leaves sub_view (count_del n_needs bv).
Proof using. split; by apply leaves_count. Qed.
#[local] Hint Extern 1 (leaves _ (count_del n_interests _)) => apply leaves_del_interests' : frame.
#[local] Hint Extern 1 (leaves _ (count_del n_needs _)) => apply leaves_del_needs' : frame.

Lemma leaves_RemoveRemote p : leaves delete_view (RemoveRemoteNode p).
Proof using. intros n y n'. unfold RemoveRemoteNode. destruct (unlink_ptr _ _); cbn; [by intros [= _ <-]|done]. Qed.
#[local] Hint Resolve leaves_RemoveRemote : frame.
Lemma leaves_delete_remote p : leaves delete_view (DPS_DeleteRemoteNode p).
Proof using.
  unfold DPS_DeleteRemoteNode, IsValidRemoteNode, DPS_ClearInboundInterests, FreeOutboundInterests, RemoteCompletion_no_remote,
    finish_completion, DPS_NodeRequestCancel, call_completion, OnShutdown. leaves.
Qed.
Lemma leaves_FreeSubscription p : leaves sub_view (FreeSubscription p).
Proof using. unfold FreeSubscription. leaves. Qed.

(** ** No request is queued *)

Definition calm {A} (m : M A) : Prop := forall n x n', m n = Some (x, n') -> n_requestQueue n = [] -> n_requestQueue n' = [].

Lemma leaves_calm {A} (m : M A) : leaves n_requestQueue m -> calm m.
Proof using. intros Hm n x n' E Hn. by rewrite (Hm _ _ _ E). Qed.
Lemma calm_bind {A B} (m : M A) (f : A -> M B) : calm m -> (forall x, calm (f x)) -> calm (m ≫= f).
Proof using.
  intros Hm Hf n y n'. unfold mbind, M_bind. destruct (m n) as [[x n1]|] eqn:E; [|done]. cbn. intros Ef Hn.
  eapply Hf; [exact Ef|]. by eapply Hm.
Qed.
Lemma calm_cancel r : calm (DPS_NodeRequestCancel r).
Proof using. intros n x n' [= _ <-] Hn. cbn. by rewrite Hn. Qed.
Lemma leaves_queue_count (cv : DPS_Node -> DPS_CountVector) `{!Setter cv} bv :
  (forall v n, n_requestQueue (set cv v n) = n_requestQueue n) -> leaves n_requestQueue (count_del cv bv).
Proof using. apply leaves_count. Qed.
Lemma leaves_queue_remove p : leaves n_requestQueue (RemoveRemoteNode p).
Proof using. intros n y n'. unfold RemoveRemoteNode. destruct (unlink_ptr _ _); cbn; [by intros [= _ <-]|done]. Qed.
#[local] Hint Resolve leaves_queue_remove : frame.
#[local] Hint Extern 1 (leaves n_requestQueue (count_del _ _)) => (by apply leaves_queue_count) : frame.

Ltac calm := repeat match goal with
  | |- forall _, _ => intros ?
  | |- calm (DPS_NodeRequestCancel _) => apply calm_cancel
  | |- calm (_ ≫= _) => apply calm_bind
  | |- calm (match ?x with _ => _ end) => destruct x
  | |- calm _ => apply leaves_calm; solve [leaves]
  end.
Lemma calm_delete p : calm (DPS_DeleteRemoteNode p).
Proof using.
  unfold DPS_DeleteRemoteNode, IsValidRemoteNode, DPS_ClearInboundInterests, FreeOutboundInterests, RemoteCompletion_no_remote,
    finish_completion, call_completion, OnShutdown. calm.
Qed.

(** ** The steps of stopping *)

Lemma leaves_close_network : leaves object_view close_network.
Proof using. unfold close_network, close_handle. leaves. Qed.

Lemma wp_close_handle {X} (view : DPS_Node -> X) (f : DPS_Node -> bool) `{!Setter f} e (Q : unit -> DPS_Node -> Prop) n :
  leaves view (close_handle f e) -> (forall g n, f (set f g n) = g (f n)) ->
  (forall n', f n' = false -> view n' = view n -> Q () n') -> wp (close_handle f e) Q n.
Proof using.
  intros Hv Hf HQ. apply (wp_leaves view _ _ _ Hv). unfold close_handle. wp_go.
  destruct (f n) eqn:E; cbn [when]; wp_go; apply HQ; [by rewrite Hf|done].
Qed.

(** Every handle is closed. *)
Definition closed (n : DPS_Node) : Prop := n_netCtx n = false /\ n_mcastSender n = false /\ n_mcastReceiver n = false.

Lemma wp_close_network n (Q : unit -> DPS_Node -> Prop) :
  (forall n', object_view n' = object_view n -> closed n' -> Q () n') -> wp close_network Q n.
Proof using.
  intros HQ. apply (wp_leaves object_view); [apply leaves_close_network|]. unfold close_network. wp_go.
  apply (wp_close_handle n_mcastSender); [unfold close_handle; leaves|done|]. intros n1 E1 _. wp_go.
  apply (wp_close_handle n_mcastReceiver); [unfold close_handle; leaves|done|]. intros n2 E2 E2'. wp_go.
  apply (wp_close_handle (fun n => (n_mcastReceiver n, n_mcastSender n))); [unfold close_handle; leaves|done|].
  intros n3 E3 [= E4 E5] Hv. apply HQ; [done|]. split_and!; congruence.
Qed.

(** An invariant node stays one when only a flag of a remote changes. *)
Lemma wp_delete_remotes fuel n (Q : unit -> DPS_Node -> Prop) : node_inv nI n -> n_requestQueue n = [] -> (length (n_remoteNodes n) <= fuel)%nat ->
  (forall n', node_inv nI n' -> n_remoteNodes n' = [] -> n_requestQueue n' = [] -> delete_view n' = delete_view n -> Q () n') ->
  wp (delete_remotes fuel) Q n.
Proof using.
  revert n. induction fuel as [|fuel IH]; intros n H Hc Hl HQ; cbn [delete_remotes]; wp_go; destruct (n_remoteNodes n) as [|p l] eqn:El;
    try (wp_go; by apply HQ); [cbn in Hl; lia|].
  destruct (proj2 (ni_remotes _ _ H p)) as [r E]; [rewrite El; by left|]. wp_go. eapply wp_upd_outbound; [exact E|].
  set (n1 := set n_remotes _ n).
  assert (node_inv nI n1) as H1. { apply (node_inv_outbound nI n p r _ H E). destruct (ni_remote _ _ H _ _ E). by constructor. }
  wp_go. apply (wp_leaves delete_view); [apply leaves_delete_remote|].
  assert (wp (DPS_DeleteRemoteNode p) (fun _ n' => node_inv nI n' /\ n_remoteNodes n' = filter (fun q => q <> p) (p :: l)) n1) as Hd.
  { apply (wp_DeleteRemoteNode nI); [done|]. intros n' H' _ _ El'. split; [done|]. rewrite El'. by change (n_remoteNodes n1) with (n_remoteNodes n); rewrite El. }
  apply wp_run in Hd as ([] & n2 & E2 & H2 & El2). eapply run_wp; [exact E2|]. intros Hv.
  apply IH; [done|by apply (calm_delete p _ _ _ E2)| |].
  - rewrite El2, filter_cons_False by tauto. cbn in Hl. etrans; [apply length_filter|]. lia.
  - intros n3 H3 El3 Hc3 Hv3. apply HQ; [done..|]. rewrite Hv3. exact Hv.
Qed.

(** The subscriptions of the list and those that wait to be freed. *)
Definition free_sub (n : DPS_Node) (p : ptr) : Prop :=
  exists s, n_subs n !! p = Some s /\ has_flag (s_flags s) SUB_FLAG_WAS_FREED = true /\ s_refCount s = 0.
Record subs_quiet (n : DPS_Node) : Prop := {
  sq_list : forall p, p ∈ n_subscriptions n -> exists s, n_subs n !! p = Some s /\ s_refCount s = 0;
  sq_free : Forall (free_sub n) (n_freeSubs n);
  sq_nodup : NoDup (n_subscriptions n ++ n_freeSubs n)
}.

Lemma wp_free_subscriptions l n (Q : unit -> DPS_Node -> Prop) : node_inv nI n -> subs_quiet n -> n_subscriptions n = l ->
  (forall n', node_inv nI n' -> n_subscriptions n' = [] -> n_freeSubs n' = reverse l ++ n_freeSubs n -> Forall (free_sub n') (n_freeSubs n') ->
     NoDup (n_freeSubs n') -> (forall p, is_Some (n_subs n' !! p) <-> is_Some (n_subs n !! p)) -> sub_view n' = sub_view n -> Q () n') ->
  wp (free_subscriptions l) Q n.
Proof using.
  revert n. induction l as [|p l IH]; intros n H [S1 S2 S3] El HQ; cbn [free_subscriptions].
  { wp_go. apply HQ; try done. by rewrite El in S3. }
  rewrite El in S1, S3. destruct (S1 p) as (s & E & Hs); [by left|]. cbn [app] in S3. apply NoDup_cons in S3 as [Hp S3].
  wp_go. apply (wp_leaves sub_view); [apply leaves_FreeSubscription|].
  eapply (wp_FreeSubscription nI n p s); [exact H|rewrite El; by left|exact E|]. intros n1 H1 _ _ El1 Ef1 Es1 Hv1. wp_go.
  rewrite El, filter_cons_False, filter_ne_id in El1 by (tauto || (intros Hin; apply Hp, elem_of_app; by left)).
  replace (n1 <| n_subscriptions := l |>) with n1 by (rewrite <- El1; by destruct n1).
  apply IH; [done| |done|].
  - split.
    + intros q Hq. rewrite El1 in Hq. destruct (S1 q) as (sq & Eq & Hsq); [by right|]. exists sq. rewrite Es1, lookup_insert_ne; [done|].
      intros ->. apply Hp, elem_of_app. by left.
    + rewrite Ef1. constructor.
      * exists (s <| s_flags := SUB_FLAG_WAS_FREED |>). by rewrite Es1, lookup_insert_eq.
      * rewrite List.Forall_forall in S2 |- *. intros q Hq. destruct (S2 q Hq) as (sq & Eq & Hsq). exists sq. rewrite Es1, lookup_insert_ne; [done|].
        intros ->. apply Hp, elem_of_app. right. by apply list_elem_of_In.
    + rewrite El1, Ef1, <- Permutation_middle. by constructor.
  - intros n2 H2 El2 Ef2 Hf2 Hn2 Hd2 Hv2. apply HQ; try done; [| |congruence].
    + rewrite Ef2, Ef1, reverse_cons. by rewrite <- app_assoc.
    + intros q. rewrite Hd2, Es1. destruct (decide (q = p)) as [->|Hne]; [rewrite lookup_insert_eq, E; split; by eexists|by rewrite lookup_insert_ne].
Qed.

(** The publications of the list, with nothing to send, and those that wait to be freed. *)
Definition free_pub (n : DPS_Node) (p : ptr) : Prop :=
  exists b, n_pubs n !! p = Some b /\ has_flag (p_flags b) PUB_FLAG_WAS_FREED = true /\ p_refCount b = 0.
Record pubs_quiet (n : DPS_Node) : Prop := {
  pq_list : forall p, p ∈ n_publications n -> exists b, n_pubs n !! p = Some b /\ p_refCount b = 0 /\ p_sendQueue b = [] /\ p_retainedQueue b = [] /\
    has_flag (p_flags b) PUB_FLAG_WAS_FREED = false /\ has_flag (p_flags b) PUB_FLAG_IS_COPY = false;
  pq_free : Forall (free_pub n) (n_freePubs n);
  pq_nodup : NoDup (n_publications n ++ n_freePubs n)
}.

Lemma wp_FreePublication_quiet n p b (Q : bool -> DPS_Node -> Prop) : n_pubs n !! p = Some b -> p_refCount b = 0 -> p_sendQueue b = [] ->
  p_retainedQueue b = [] -> has_flag (p_flags b) PUB_FLAG_WAS_FREED = false -> has_flag (p_flags b) PUB_FLAG_IS_COPY = false ->
  (forall n', n_pubs n' = <[p := b <| p_flags := PUB_FLAG_WAS_FREED |>]> (n_pubs n) ->
     n_publications n' = default (n_publications n) (unlink_ptr (n_publications n) p) -> n_freePubs n' = p :: n_freePubs n ->
     pub_free_view n' = pub_free_view n -> Q false n') ->
  wp (FreePublication p) Q n.
Proof using.
  intros E Hr Hs Ht Hf Hc HQ. unfold FreePublication. wp_go. eapply wp_load; [exact E|]. rewrite Hc, Hf, Hs, Ht, Hr. cbn [negb when flush_queue].
  wp_go. eapply wp_update; [exact E|]. wp_go. change (0 =? 0) with true. cbn [when]. wp_go. by apply HQ.
Qed.

Lemma wp_free_publications l n (Q : unit -> DPS_Node -> Prop) : pubs_quiet n -> n_publications n = l ->
  (forall n', n_publications n' = [] -> n_freePubs n' = reverse l ++ n_freePubs n -> Forall (free_pub n') (n_freePubs n') ->
     NoDup (n_freePubs n') -> pub_free_view n' = pub_free_view n -> Q () n') ->
  wp (free_publications l) Q n.
Proof using.
  revert n. induction l as [|p l IH]; intros n [S1 S2 S3] El HQ; cbn [free_publications].
  { wp_go. apply HQ; try done. by rewrite El in S3. }
  rewrite El in S1, S3. destruct (S1 p) as (b & E & Hr & Hs & Ht & Hf & Hc); [by left|]. cbn [app] in S3. apply NoDup_cons in S3 as [Hp S3].
  wp_go. eapply wp_FreePublication_quiet; [done..|]. intros n1 Es1 El1 Ef1 Hv1. wp_go.
  set (n2 := n1 <| n_publications := l |>). assert (n_pubs n2 = n_pubs n1 /\ n_freePubs n2 = n_freePubs n1 /\ n_publications n2 = l) as (Es2 & Ef2 & El2) by done.
  assert (pub_free_view n2 = pub_free_view n) as Hv2 by exact Hv1. clearbody n2. rewrite Es1 in Es2. rewrite Ef1 in Ef2.
  apply IH; [|done|].
  - split.
    + intros q Hq. rewrite El2 in Hq. destruct (S1 q) as (sq & Eq & Hsq); [by right|]. exists sq. rewrite Es2, lookup_insert_ne; [done|].
      intros ->. apply Hp, elem_of_app. by left.
    + rewrite Ef2. constructor.
      * exists (b <| p_flags := PUB_FLAG_WAS_FREED |>). by rewrite Es2, lookup_insert_eq.
      * rewrite List.Forall_forall in S2 |- *. intros q Hq. destruct (S2 q Hq) as (sq & Eq & Hsq). exists sq. rewrite Es2, lookup_insert_ne; [done|].
        intros ->. apply Hp, elem_of_app. right. by apply list_elem_of_In.
    + rewrite El2, Ef2, <- Permutation_middle. by constructor.
  - intros n3 El3 Ef3 Hf3 Hn3 Hv3. apply HQ; try done; [|congruence]. rewrite Ef3, Ef2, reverse_cons. by rewrite <- app_assoc.
Qed.

(** *** Freeing what nothing references *)

Definition task_view (n : DPS_Node) :=
  (n_remotes n, n_remoteNodes n, n_requestQueue n, n_subscriptions n, n_publications n,
   (n_ackQueue n, n_history n, n_state n, n_onDestroyed n, n_netCtx n, n_mcastSender n, n_mcastReceiver n)).
Definition without {V} (l : list ptr) (m m' : gmap ptr V) : Prop := forall q, m' !! q = if bool_decide (q ∈ l) then None else m !! q.

Lemma without_nil {V} (m : gmap ptr V) : without [] m m.
Proof using. intros q. by rewrite bool_decide_false by apply not_elem_of_nil. Qed.
Lemma without_cons {V} p l (m m' : gmap ptr V) : without l (delete p m) m' -> without (p :: l) m m'.
Proof using.
  intros H q. rewrite H. destruct (decide (q = p)) as [->|Hne].
  - rewrite lookup_delete_eq, (bool_decide_true (p ∈ p :: l)) by (by left). by case_bool_decide.
  - rewrite lookup_delete_ne by done. rewrite (bool_decide_ext (q ∈ p :: l) (q ∈ l)); [done|]. rewrite elem_of_cons. tauto.
Qed.

Section Unreferenced.
Context {V : Type} (heap : DPS_Node -> gmap ptr V) (refCount : V -> Z) (free : ptr -> M unit) {X : Type} (view : DPS_Node -> X).
Context (freeable : V -> Prop) (Hcount : forall v, freeable v -> refCount v = 0).
Context (Hfree : forall p v n (Q : unit -> DPS_Node -> Prop), heap n !! p = Some v -> freeable v ->
  (forall n', heap n' = delete p (heap n) -> view n' = view n -> Q () n') -> wp (free p) Q n).

Lemma wp_free_unreferenced l n (Q : list ptr -> DPS_Node -> Prop) : NoDup l -> (forall p, p ∈ l -> exists v, heap n !! p = Some v /\ freeable v) ->
  (forall n', without l (heap n) (heap n') -> view n' = view n -> Q [] n') -> wp (free_unreferenced heap refCount free l) Q n.
Proof using Hcount Hfree.
  revert n. induction l as [|p l IH]; intros n Hd Hl HQ; cbn [free_unreferenced].
  { wp_go. apply HQ; [apply without_nil|done]. }
  apply NoDup_cons in Hd as [Hp Hd]. destruct (Hl p) as (v & E & Hv); [by left|]. wp_go. eapply wp_load; [exact E|].
  rewrite (Hcount v Hv). change (0 =? 0) with true. wp_go. eapply Hfree; [exact E|done|]. intros n1 E1 V1. wp_go. apply IH; [done| |].
  - intros q Hq. destruct (Hl q) as (w & Ew & Hw); [by right|]. exists w. rewrite E1, lookup_delete_ne; [done|]. by intros ->.
  - intros n2 E2 V2. apply HQ; [apply without_cons; by rewrite <- E1|congruence].
Qed.
End Unreferenced.

Definition freed_sub (s : DPS_Subscription) : Prop := has_flag (s_flags s) SUB_FLAG_WAS_FREED = true /\ s_refCount s = 0.
Definition freed_pub (b : DPS_Publication) : Prop := has_flag (p_flags b) PUB_FLAG_WAS_FREED = true /\ p_refCount b = 0.

Lemma wp_FreeSub p s n (Q : unit -> DPS_Node -> Prop) : n_subs n !! p = Some s -> freed_sub s ->
  (forall n', n_subs n' = delete p (n_subs n) -> (task_view n', n_pubs n', n_freePubs n', n_freeSubs n') = (task_view n, n_pubs n, n_freePubs n, n_freeSubs n) -> Q () n') ->
  wp (DPS_FreeSubscription p) Q n.
Proof using.
  intros E [Hf Hr] HQ. unfold DPS_FreeSubscription. wp_go. eapply wp_load; [exact E|]. wp_go. rewrite Hf, Hr. apply wp_assert; [done|].
  destruct (s_onDestroyed s); wp_go; (eapply wp_free; [exact E|]; by apply HQ).
Qed.
Lemma wp_FreePub p b n (Q : unit -> DPS_Node -> Prop) : n_pubs n !! p = Some b -> freed_pub b ->
  (forall n', n_pubs n' = delete p (n_pubs n) -> (task_view n', n_subs n', n_freePubs n', n_freeSubs n') = (task_view n, n_subs n, n_freePubs n, n_freeSubs n) -> Q () n') ->
  wp (DPS_FreePublication p) Q n.
Proof using.
  intros E [Hf Hr] HQ. unfold DPS_FreePublication. wp_go. eapply wp_load; [exact E|]. wp_go. rewrite Hf, Hr. apply wp_assert; [done|].
  destruct (p_onDestroyed b); wp_go; (eapply wp_free; [exact E|]; by apply HQ).
Qed.

(** Nothing keeps what waits to be freed. *)
Record freeable (n : DPS_Node) : Prop := {
  fr_subs : Forall (free_sub n) (n_freeSubs n);
  fr_subs_nodup : NoDup (n_freeSubs n);
  fr_pubs : Forall (free_pub n) (n_freePubs n);
  fr_pubs_nodup : NoDup (n_freePubs n)
}.

Lemma wp_FreeTask n (Q : unit -> DPS_Node -> Prop) : freeable n ->
  (forall n', task_view n' = task_view n -> n_freeSubs n' = [] -> n_freePubs n' = [] -> without (n_freeSubs n) (n_subs n) (n_subs n') ->
     without (n_freePubs n) (n_pubs n) (n_pubs n') -> Q () n') -> wp FreeTask Q n.
Proof using.
  intros [S1 S2 S3 S4] HQ. unfold FreeTask. wp_go.
  eapply (wp_free_unreferenced n_subs s_refCount _ _ freed_sub); [by intros v []|exact wp_FreeSub|exact S2| |].
  { intros p Hp. rewrite List.Forall_forall in S1. by apply S1, list_elem_of_In. }
  intros n1 W1 [[[V1 E1]%pair_equal_spec F1]%pair_equal_spec G1]%pair_equal_spec. wp_go. change (n_freePubs (n1 <| n_freeSubs := [] |>)) with (n_freePubs n1). rewrite F1.
  eapply (wp_free_unreferenced n_pubs p_refCount _ _ freed_pub); [by intros v []|exact wp_FreePub|exact S4| |].
  { intros p Hp. change (n_pubs (n1 <| n_freeSubs := [] |>)) with (n_pubs n1). rewrite E1. rewrite List.Forall_forall in S3. by apply S3, list_elem_of_In. }
  intros n2 W2 [[[V2 E2]%pair_equal_spec F2]%pair_equal_spec G2]%pair_equal_spec. wp_go.
  apply HQ; [exact (eq_trans V2 V1)|exact G2|done|..].
  { change (without (n_freeSubs n) (n_subs n) (n_subs n2)). rewrite E2. exact W1. }
  change (without (n_freePubs n) (n_pubs n) (n_pubs n2)). rewrite <- E1. exact W2.
Qed.

(** ** Nodes at rest, and stopping them *)

Record quiescent (n : DPS_Node) : Prop := {
  qu_inv : node_inv nI n;
  qu_subs : subs_quiet n;
  qu_pubs : pubs_quiet n;
  qu_acks : n_ackQueue n = [];
  qu_requests : n_requestQueue n = [];
  qu_history : exists A, represents (n_history n) A
}.

(** Nothing was left behind. *)
Record stopped (n : DPS_Node) : Prop := {
  sp_state : n_state n = DPS_NODE_STOPPED;
  sp_handles : n_loop n = false /\ closed n;
  sp_remotes : n_remoteNodes n = [] /\ n_remotes n = ∅;
  sp_queues : n_ackQueue n = [] /\ n_requestQueue n = [];
  sp_subs : n_subscriptions n = [] /\ n_freeSubs n = [];
  sp_pubs : n_publications n = [] /\ n_freePubs n = [];
  sp_history : cells (n_history n) = ∅ /\ count (n_history n) = 0
}.

(** What became of the objects. *)
Definition objects_freed (n n' : DPS_Node) : Prop :=
  (forall p, p ∈ n_subscriptions n ++ n_freeSubs n -> n_subs n' !! p = None) /\
  (forall p, p ∈ n_publications n ++ n_freePubs n -> n_pubs n' !! p = None).

Lemma wp_drain fuel n (Q : unit -> DPS_Node -> Prop) : (n_freeSubs n = [] /\ n_freePubs n = [] \/ (0 < fuel)%nat) -> freeable n -> n_subscriptions n = [] -> n_publications n = [] ->
  (forall n', task_view n' = task_view n -> n_freeSubs n' = [] -> n_freePubs n' = [] -> without (n_freeSubs n) (n_subs n) (n_subs n') ->
     without (n_freePubs n) (n_pubs n) (n_pubs n') -> Q () n') -> wp (drain FreeTask fuel) Q n.
Proof using.
  intros Hf Hfr Es Ep HQ.
  assert (forall n', n_subscriptions n' = [] -> n_publications n' = [] -> n_freeSubs n' = [] -> n_freePubs n' = [] ->
    forall fuel (Q : unit -> DPS_Node -> Prop), Q () n' -> wp (drain FreeTask fuel) Q n') as Hend.
  { intros n' F1 F2 F3 F4 fuel' Q' HQ'. destruct fuel'; cbn [drain]; wp_go; rewrite F1, F2, F3, F4; by wp_go. }
  destruct (is_nil (n_freePubs n) && is_nil (n_freeSubs n)) eqn:En.
  - apply andb_true_iff in En as [E1 E2]. destruct (n_freePubs n) eqn:F1, (n_freeSubs n) eqn:F2; try done.
    apply Hend; [done..|]. apply HQ; try done; apply without_nil.
  - destruct Hf as [[F1 F2]|Hf]; [by rewrite F1, F2 in En|]. destruct fuel as [|fuel]; [lia|]. cbn [drain]. wp_go. rewrite Es, Ep. cbn [is_nil andb].
    assert (is_nil (n_freePubs n) && true && is_nil (n_freeSubs n) = false) as -> by by rewrite andb_true_r. wp_go.
    apply wp_FreeTask; [done|]. intros n1 V1 F1 F2 W1 W2. apply Hend; [| |done|done|by apply HQ].
    + unfold task_view in V1. congruence.
    + unfold task_view in V1. congruence.
Qed.

Lemma subs_quiet_same n n' : n_subs n' = n_subs n -> n_subscriptions n' = n_subscriptions n -> n_freeSubs n' = n_freeSubs n ->
  subs_quiet n -> subs_quiet n'.
Proof using. intros E1 E2 E3 [Q1 Q2 Q3]. split; unfold free_sub; rewrite ?E1, ?E2, ?E3; done. Qed.
Lemma pubs_quiet_same n n' : n_pubs n' = n_pubs n -> n_publications n' = n_publications n -> n_freePubs n' = n_freePubs n ->
  pubs_quiet n -> pubs_quiet n'.
Proof using. intros E1 E2 E3 [Q1 Q2 Q3]. split; unfold free_pub; rewrite ?E1, ?E2, ?E3; done. Qed.
Lemma pubs_quiet_nil n : n_publications n = [] -> n_freePubs n = [] -> pubs_quiet n.
Proof using. intros E1 E2. split; rewrite ?E1, ?E2; [|constructor|constructor]. by intros p ?%elem_of_nil. Qed.
Lemma without_elem {V} l (m m' : gmap ptr V) p : without l m m' -> p ∈ l -> m' !! p = None.
Proof using. intros H Hp. by rewrite H, bool_decide_true. Qed.

(** From the rounds of the event loop on. *)
Definition stop_tail (fuel : nat) : M unit :=
  _ ← drain FreeTask fuel; _ ← FreeTask; _ ← FreeTask;
  h ← gets n_history; h ← lift (DPS_HistoryFree h); modify (fun n => n <| n_history := h |> <| n_loop := false |>).

Record at_end (n : DPS_Node) : Prop := {
  ae_remotes : n_remoteNodes n = [] /\ n_remotes n = ∅;
  ae_lists : n_subscriptions n = [] /\ n_publications n = [];
  ae_queues : n_ackQueue n = [] /\ n_requestQueue n = [];
  ae_state : n_state n = DPS_NODE_STOPPED /\ closed n;
  ae_history : exists A, represents (n_history n) A
}.

Lemma wp_idle m (R : unit -> DPS_Node -> Prop) : n_freeSubs m = [] -> n_freePubs m = [] ->
  (forall m', task_view m' = task_view m -> n_freeSubs m' = [] -> n_freePubs m' = [] -> without [] (n_subs m) (n_subs m') -> without [] (n_pubs m) (n_pubs m') -> R () m') ->
  wp FreeTask R m.
Proof using.
  intros G1 G2 HR. apply wp_FreeTask; [split; rewrite ?G1, ?G2; by constructor|]. intros m'. rewrite G1, G2. by apply HR.
Qed.
Lemma without_nil_trans {V} l (m1 m2 m3 : gmap ptr V) : without l m1 m2 -> without [] m2 m3 -> without l m1 m3.
Proof using. intros H1 H2 q. by rewrite H2, bool_decide_false by apply not_elem_of_nil. Qed.

Lemma wp_stop_tail fuel n (Q : unit -> DPS_Node -> Prop) : (n_freeSubs n = [] /\ n_freePubs n = [] \/ (0 < fuel)%nat) -> freeable n -> at_end n ->
  (forall n', stopped n' -> without (n_freeSubs n) (n_subs n) (n_subs n') -> without (n_freePubs n) (n_pubs n) (n_pubs n') ->
     n_onDestroyed n' = n_onDestroyed n -> Q () n') ->
  wp (stop_tail fuel) Q n.
Proof using.
  intros Hf Hfr [[R1 R2] [L1 L2] [A1 A2] [St (C1 & C2 & C3)] [A HA]] HQ. unfold stop_tail. wp_go. apply wp_drain; [done..|].
  intros n3 T3 FS3 FP3 WS3 WP3. unfold task_view in T3. injection T3 as T1 T2 T3 T4 T5 T6 T7 T8 T9 T10 T11 T12.
  wp_go. apply wp_idle; [done..|]. intros n4 U4 FS4 FP4 WS4 WP4. wp_go. apply wp_idle; [done..|]. intros n5 U5 FS5 FP5 WS5 WP5.
  unfold task_view in U4, U5. injection U4 as X1 X2 X3 X4 X5 X6 X7 X8 X9 X10 X11 X12. injection U5 as Y1 Y2 Y3 Y4 Y5 Y6 Y7 Y8 Y9 Y10 Y11 Y12.
  wp_go. assert (n_history n5 = n_history n) as -> by congruence. destruct (HistoryFree_empties _ _ HA) as (h' & Eh & Hh & _ & _ & Hct).
  eapply wp_lift; [exact Eh|]. wp_go. apply HQ; [|eauto using without_nil_trans..|cbn; congruence].
  split; cbn; [congruence|split_and!; [done|split_and!; cbn; congruence]|split; congruence|split; congruence|split; [congruence|done]|split; [congruence|done]|done].
Qed.

(** From [DPS_FreeSubscriptions] on. *)
Lemma wp_stop_objects fuel n (Q : unit -> DPS_Node -> Prop) : (0 < fuel)%nat -> node_inv nI n -> n_remoteNodes n = [] -> subs_quiet n -> pubs_quiet n ->
  n_ackQueue n = [] -> n_requestQueue n = [] -> n_state n = DPS_NODE_STOPPED -> closed n -> (exists A, represents (n_history n) A) ->
  (forall n', stopped n' -> objects_freed n n' -> n_onDestroyed n' = n_onDestroyed n -> Q () n') ->
  wp (_ ← DPS_FreeSubscriptions; _ ← DPS_FreePublications; stop_tail fuel) Q n.
Proof using.
  intros Hf H Er Hs Hp Ea Eq Est (C1 & C2 & C3) HA HQ. wp_go. unfold DPS_FreeSubscriptions. wp_go.
  apply wp_free_subscriptions; [done..|]. intros n1 H1 S1 F1 Fr1 N1 D1 V1. unfold sub_view in V1. injection V1 as V1 V2 V3 V4 V5 V6 V7 V8 V9 V10 V11 V12 V13.
  wp_go. unfold DPS_FreePublications. wp_go. apply wp_free_publications; [by apply (pubs_quiet_same n)|done|].
  intros n2 P2 F2 Fr2 N2 W. unfold pub_free_view in W. injection W as W1 W2 W3 W4 W5 W6 W7 W8 W9 W10 W11 W12 W13.
  assert (n_remotes n = ∅) as Em.
  { apply map_empty. intros p. apply eq_None_not_Some. intros Hsome. apply (ni_remotes _ _ H) in Hsome. rewrite Er in Hsome. by apply elem_of_nil in Hsome. }
  apply wp_stop_tail; [by right|..].
  - split; [|by rewrite W6|done|done]. rewrite W6. unfold free_sub in *. by rewrite W4.
  - split; [split; congruence|split; congruence|split; congruence|split; [congruence|split_and!; congruence]|]. by rewrite W8, V8.
  - intros n' St WS WP Ed. apply HQ; [done| |congruence]. split; intros p Hin.
    + eapply without_elem; [exact WS|]. rewrite W6, F1, elem_of_app, elem_of_reverse. by apply elem_of_app.
    + eapply without_elem; [exact WP|]. rewrite F2, V6, elem_of_app, elem_of_reverse, V5. by apply elem_of_app.
Qed.

Lemma wp_StopNode fuel n (Q : unit -> DPS_Node -> Prop) : (0 < fuel)%nat -> quiescent n ->
  (forall n', stopped n' -> objects_freed n n' -> n_onDestroyed n' = n_onDestroyed n -> Q () n') -> wp (StopNode FreeTask FreeTask fuel) Q n.
Proof using.
  intros Hf [H Hs Hp Qa Qr HA] HQ. unfold StopNode. wp_go. apply wp_close_network.
  intros n1 V1 C1. unfold object_view in V1. cbn in V1. injection V1 as F1 F2 F3 F4 F5 F6 F7 F8 F9 F10 F11 F12 F13 F14 F15 F16 F17.
  assert (node_inv nI n1) as H1 by by apply (node_inv_same nI n). wp_go. apply wp_delete_remotes; [done|congruence|done|].
  intros n2 H2 E2 R2 V2. unfold delete_view in V2. injection V2 as G1 G2 G3 G4 G5 G6 G7 G8 G9 G10 G11 G12 G13. wp_go.
  rewrite G7, F9, Qa. cbn [length complete_acks]. wp_go. rewrite G7, F9, Qa. wp_go. rewrite R2. cbn [length RunRequestsTask]. wp_go. rewrite R2. apply wp_ret.
  apply (wp_mono _ (fun _ n' => stopped n' /\ objects_freed n2 n' /\ n_onDestroyed n' = n_onDestroyed n2)).
  - apply wp_stop_objects; [done..|apply (subs_quiet_same n); [congruence..|done]|apply (pubs_quiet_same n); [congruence..|done]|congruence|done|congruence
      |destruct C1 as (C1 & C2 & C3); split_and!; congruence|by rewrite G8, F11|by auto].
  - intros [] n' (S1 & [S2 S3] & S4). apply HQ; [done| |congruence]. split; intros p Hin; [apply S2|apply S3]; congruence.
Qed.

(** ** Starting *)

(** A node without objects. *)
Record empty_node (n : DPS_Node) : Prop := {
  em_remotes : n_remotes n = ∅ /\ n_remoteNodes n = [];
  em_subs : n_subscriptions n = [] /\ n_freeSubs n = [];
  em_pubs : n_publications n = [] /\ n_freePubs n = [];
  em_queues : n_ackQueue n = [] /\ n_requestQueue n = [];
  em_history : n_history n = empty_history
}.

Lemma wp_stop_empty fuel n (Q : unit -> DPS_Node -> Prop) : empty_node n -> (forall n', stopped n' -> Q () n') -> wp (StopNode FreeTask FreeTask fuel) Q n.
Proof using.
  intros [[E1 E2] [E3 E4] [E5 E6] [E7 E8] E9] HQ. unfold StopNode. wp_go. apply wp_close_network.
  intros n1 V1 C1. unfold object_view in V1. cbn in V1. injection V1 as F1 F2 F3 F4 F5 F6 F7 F8 F9 F10 F11 F12 F13 F14 F15 F16 F17.
  wp_go. rewrite F2, E2. cbn [length delete_remotes]. wp_go. rewrite F2, E2. wp_go. rewrite F9, E7. cbn [length complete_acks]. wp_go.
  rewrite F9, E7. wp_go. rewrite F10, E8. cbn [length RunRequestsTask]. wp_go. rewrite F10, E8. wp_go.
  unfold DPS_FreeSubscriptions. wp_go. rewrite F4, E3. cbn [free_subscriptions]. wp_go.
  unfold DPS_FreePublications. wp_go. rewrite F7, E5. cbn [free_publications]. apply wp_ret. apply (wp_stop_tail fuel n1).
  - left. split; congruence.
  - split; rewrite ?F5, ?F8, ?E4, ?E6; constructor.
  - split; [split; congruence|split; congruence|split; congruence|by split|]. exists ∅. rewrite F11, E9. exact empty_represents.
  - intros n' Hst _ _ _. by apply HQ.
Qed.

Context (Hok : env_ok nI).

(** Allocating the vectors. *)
Lemma set_allocs_twice n k k' : n <| n_allocs := k |> <| n_allocs := k' |> = n <| n_allocs := k' |>.
Proof using. done. Qed.
Lemma wp_alloc_case n k (Q : bool -> DPS_Node -> Prop) : (forall b, env_alloc k = b -> Q b (n <| n_allocs := S k |>)) ->
  wp alloc_ok Q (n <| n_allocs := k |>).
Proof using. intros HQ. by apply HQ. Qed.
Lemma wp_BitVectorAlloc_case n k (Q : option DPS_BitVector -> DPS_Node -> Prop) : bitLen env_config mod 64 = 0 ->
  (forall b, env_alloc k = b -> Q (if b then Some (fresh_bv (bitLen env_config)) else None) (n <| n_allocs := S k |>)) ->
  wp BitVectorAlloc Q (n <| n_allocs := k |>).
Proof using.
  intros Hm HQ. unfold BitVectorAlloc. wp_go. apply wp_alloc_case. intros b Hb. eapply wp_lift; [|by apply HQ].
  unfold DPS_BitVectorAlloc, AllocBV. rewrite Hm. by destruct b.
Qed.
Lemma wp_BitVectorAllocFH_case n k (Q : option DPS_BitVector -> DPS_Node -> Prop) :
  (forall b, env_alloc k = b -> Q (if b then Some (fresh_bv 256) else None) (n <| n_allocs := S k |>)) ->
  wp BitVectorAllocFH Q (n <| n_allocs := k |>).
Proof using.
  intros HQ. unfold BitVectorAllocFH. wp_go. apply wp_alloc_case. intros b Hb. eapply wp_lift; [|by apply HQ]. by destruct b.
Qed.

Lemma allocs_eta n : n <| n_allocs := n_allocs n |> = n.
Proof using. by destruct n. Qed.

Lemma wp_alloc_vectors n (Q : DPS_Status -> DPS_Node -> Prop) :
  (forall k, ~ (forall k, env_alloc k = true) -> Q DPS_ERR_RESOURCES (n <| n_allocs := k |>)) ->
  (forall interests needs si sn k, DPS_CountVectorAlloc env_config true true = Some (Some interests) ->
     DPS_CountVectorAllocFH true = Some (Some needs) -> vec_wf nI si -> vec_wf FH_CHUNKS sn ->
     Q DPS_OK (n <| n_allocs := k |> <| n_interests := interests |> <| n_needs := needs |> <| n_scratch_interests := si |> <| n_scratch_needs := sn |>)) ->
  wp alloc_vectors Q n.
Proof using Hok.
  intros Hfail HQ. rewrite <- (allocs_eta n). pose proof (eo_size _ Hok) as Hsz. pose proof (eo_small _ Hok) as Hsm.
  assert (bitLen env_config mod 64 = 0) as Hm by (rewrite Hsz, Z.mul_comm; by apply Z.mod_mul).
  assert (vec_wf nI (fresh_bv (bitLen env_config))) as Hi.
  { split; [apply fresh_bv_wf; [done|lia]|]. cbn. rewrite length_replicate, Hsz, Z.mul_comm, Z.div_mul by done. lia. }
  assert (vec_wf FH_CHUNKS (fresh_bv 256)) as Hn by (split; [apply fresh_bv_wf; [done|lia]|done]).
  assert (forall a b, exists v, DPS_CountVectorAlloc env_config a b = Some v /\ (a && b = true -> is_Some v) /\ (a && b = false -> v = None)) as Hcv.
  { intros [] []; unfold DPS_CountVectorAlloc, AllocCV, AllocBV; rewrite Hm; cbn; eexists; split_and!; try done; by eexists. }
  set (cvFH := mkCV 0 256 None (replicate 4 (replicate 64 0))).
  unfold alloc_vectors. wp_go. apply wp_alloc_case. intros a Ea. wp_go.
  apply (wp_mono _ (fun b n1 => (a && b = false -> ~ (forall k, env_alloc k = true)) /\ exists k, n1 = n <| n_allocs := k |>)).
  { destruct a; [apply wp_alloc_case; intros b Eb|wp_go]; (split; [intros Hab Hall; rewrite Hall in *; by subst|by eexists]). }
  intros b n1 [Hab [k1 ->]]. wp_go. destruct (Hcv a b) as (v & Ev & V1 & V2). eapply wp_lift; [exact Ev|]. wp_go.
  apply wp_alloc_case. intros c Ec. wp_go. eapply wp_lift; [exact (eq_refl : DPS_CountVectorAllocFH c = Some (if c then Some cvFH else None))|]. wp_go. apply wp_BitVectorAlloc_case; [done|]. intros d Ed. wp_go.
  apply wp_BitVectorAllocFH_case. intros e Ee. wp_go.
  destruct (a && b) eqn:Eab; [|rewrite V2 by done; wp_go; apply Hfail; by apply Hab]. destruct (V1 eq_refl) as [cv ->].
  assert (a = true /\ b = true) as [-> ->] by by apply andb_true_iff in Eab.
  destruct c; [|wp_go; apply Hfail; intros Hall; by rewrite Hall in Ec]. destruct d; [|wp_go; apply Hfail; intros Hall; by rewrite Hall in Ed].
  destruct e; [|wp_go; apply Hfail; intros Hall; by rewrite Hall in Ee]. wp_go. by apply HQ.
Qed.

(** A node that runs and satisfies the invariants of its parts. *)
Record typed_node (n : DPS_Node) : Prop := {
  tn_started : started n;
  tn_inv : node_inv nI n;
  tn_scratch : vec_wf nI (n_scratch_interests n) /\ vec_wf FH_CHUNKS (n_scratch_needs n);
  tn_mesh : uuid_ok (n_meshId n);
  tn_history : represents (n_history n) ∅;
  tn_quiet : quiescent n;
  tn_running : n_state n = DPS_NODE_RUNNING /\ n_loop n = true /\ n_netCtx n = true
}.

Lemma GenerateUUID_ok e : is_word 64 (nonce0 e) -> is_word 64 (nonce1 e) -> uuid_ok (DPS_GenerateUUID e).1.
Proof using.
  intros H0 H1. assert (forall a b, is_word 64 (LEPRNG a ≪ 32 .| LEPRNG b)) as Hw.
  { intros a b. pose proof (LEPRNG_range a). pose proof (LEPRNG_range b). apply (lor_range _ _ 64); [lia| |]; [|lia].
    rewrite Z.shiftl_mul_pow2 by lia. lia. }
  split; cbn [DPS_GenerateUUID fst next_seeds val64_0 val64_1 seed0 seed1 seed2 seed3 nonce0 nonce1]; apply (lxor_range _ _ 64); try done; try lia; apply Hw.
Qed.

(** What [start_multicast] leaves alone. *)
Definition start_view (n : DPS_Node) :=
  (n_remotes n, n_remoteNodes n, n_subscriptions n, n_freeSubs n, n_publications n, n_freePubs n, n_ackQueue n, n_requestQueue n,
   (n_history n, n_interests n, n_needs n, n_scratch_interests n, n_scratch_needs n, n_meshId n, n_loop n)).
Lemma leaves_start_multicast sys mcast : leaves start_view (start_multicast sys mcast).
Proof using. unfold start_multicast. leaves. Qed.
Lemma start_multicast_defined sys mcast n : exists n', start_multicast sys mcast n = Some ((), n').
Proof using. unfold start_multicast. destruct (has_flag _ _), (has_flag _ _); by eexists. Qed.

Lemma typed_from n : empty_node n -> n_loop n = true -> n_netCtx n = true -> uuid_ok (n_meshId n) ->
  DPS_CountVectorAlloc env_config true true = Some (Some (n_interests n)) -> DPS_CountVectorAllocFH true = Some (Some (n_needs n)) ->
  vec_wf nI (n_scratch_interests n) -> vec_wf FH_CHUNKS (n_scratch_needs n) -> n_state n = DPS_NODE_RUNNING -> typed_node n.
Proof using Hok.
  intros [[E1 E2] [E3 E4] [E5 E6] [E7 E8] E9] Hl Hc Hu Hi Hn Hsi Hsn Hst. assert (started n) as Hs by by split.
  pose proof (started_inv nI n Hok Hs) as H. assert (represents (n_history n) ∅) as Hh by (rewrite E9; exact empty_represents).
  split; try done. split; [done| | |done|done|by eexists].
  - split; rewrite ?E3, ?E4; [|constructor|constructor]. by intros p ?%elem_of_nil.
  - by apply pubs_quiet_nil.
Qed.

Lemma wp_start_loop sys mcast n (Q : DPS_Status -> DPS_Node -> Prop) : empty_node n -> n_loop n = true ->
  is_word 64 (nonce0 (n_entropy n)) -> is_word 64 (nonce1 (n_entropy n)) ->
  (forall ret n', ret <> DPS_OK -> empty_node n' -> ~ ((forall k, env_alloc k = true) /\ is_Some (sys_net sys) /\ sys_thread sys = true) -> Q ret n') ->
  (forall n', typed_node (n' <| n_state := DPS_NODE_RUNNING |>) -> sys_net sys = Some (n_addr n') -> Q DPS_OK n') ->
  wp (start_loop sys mcast) Q n.
Proof using Hok.
  intros Hem Hl H0 H1 Hfail HQ. unfold start_loop. wp_go. pose proof (GenerateUUID_ok (n_entropy n) H0 H1) as Hu.
  change (n_entropy (n <| n_events := _ |>)) with (n_entropy n). destruct (DPS_GenerateUUID (n_entropy n)) as [u e]. cbn [fst] in Hu. wp_go.
  match goal with |- wp _ _ ?x => set (n1 := x) end. assert (empty_node n1) as Hem1 by by destruct Hem.
  assert (n_loop n1 = true /\ n_meshId n1 = u) as [Hl1 Hu1] by done. clearbody n1. clear Hem. apply wp_alloc_vectors.
  { intros k Hk. wp_go. apply Hfail; [done| |tauto]. by destruct Hem1. }
  intros ci cn si sn k Ei En Wi Wn. match goal with |- wp _ _ ?x => set (n2 := x) end.
  assert (empty_node n2) as Hem2 by by destruct Hem1. assert (n_loop n2 = true /\ n_meshId n2 = u /\ n_interests n2 = ci /\ n_needs n2 = cn /\
    n_scratch_interests n2 = si /\ n_scratch_needs n2 = sn) as (Hl2 & Hu2 & E1 & E2 & E3 & E4) by by split_and!.
  clearbody n2. cbv beta iota. change (is_OK DPS_OK) with true. cbn [negb]. wp_go.
  destruct (start_multicast_defined sys mcast n2) as [n3 E]. pose proof (leaves_start_multicast sys mcast _ _ _ E) as V.
  eapply run_wp; [exact E|]. unfold start_view in V. injection V as V1 V2 V3 V4 V5 V6 V7 V8 V9 V10 V11 V12 V13 V14 V15.
  assert (empty_node n3) as Hem3 by (destruct Hem2 as [[] [] [] [] ]; split; try split; congruence).
  destruct (sys_net sys) as [addr|] eqn:En3; wp_go.
  2: { apply Hfail; [done|done|]. by intros (_ & [? ?] & _). }
  destruct (sys_thread sys) eqn:Et.
  - apply HQ; [|done]. apply typed_from; try done; cbn; [by destruct Hem3|congruence|congruence|congruence|congruence|congruence|congruence].
  - apply Hfail; [done|by destruct Hem3|]. by intros (_ & _ & ?).
Qed.
End Life.

(** C14 Starting a node establishes the types and invariants of all its parts: whatever
    the system and the allocator answer, [DPS_StartNode] is defined; with [DPS_OK] the
    node runs, its count vectors count nothing, its scratch vectors have the configured
    lengths, its mesh identifier is one, its history is empty and it is at rest;
    otherwise it was stopped and nothing is left, or it never had a loop.  With memory,
    a loop, an address and a thread it does start. *)
Theorem started_node_typed `{Env : Environment} nI sys fuel mcast c now alloc : env_ok nI ->
  is_word 64 (nonce0 (cr_entropy c)) -> is_word 64 (nonce1 (cr_entropy c)) ->
  exists ret n', DPS_StartNode FreeTask FreeTask sys fuel mcast (blank_node c now alloc) = Some (ret, n') /\
    (ret = DPS_OK -> typed_node nI n' /\ sys_net sys = Some (n_addr n')) /\
    (ret <> DPS_OK -> stopped n' \/ n_state n' = DPS_NODE_CREATED /\ n_loop n' = false) /\
    (sys_loop sys = (true, true) -> (forall k, env_alloc k = true) -> is_Some (sys_net sys) -> sys_thread sys = true -> ret = DPS_OK).
Proof.
  intros Hok H0 H1.
  enough (wp (DPS_StartNode FreeTask FreeTask sys fuel mcast) (fun ret n' => (ret = DPS_OK -> typed_node nI n' /\ sys_net sys = Some (n_addr n')) /\
    (ret <> DPS_OK -> stopped n' \/ n_state n' = DPS_NODE_CREATED /\ n_loop n' = false) /\
    (sys_loop sys = (true, true) -> (forall k, env_alloc k = true) -> is_Some (sys_net sys) -> sys_thread sys = true -> ret = DPS_OK))
    (blank_node c now alloc)) as H by (apply wp_run in H as (ret & n' & E & H); by exists ret, n').
  unfold DPS_StartNode. destruct (sys_loop sys) as [[] []] eqn:El; cbn [fst snd andb negb]; wp_go;
    try (split; [done|split; [intros _; right; done|done]]).
  apply (wp_start_loop nI Hok); [by split|done|done|done| |].
  - intros ret n' Hret Hem Hnot. assert (is_OK ret = false) as -> by by destruct ret. wp_go. apply wp_stop_empty; [done|].
    intros n2 Hst. wp_go. split; [done|]. split; [by left|]. intros _ H2 H3 H4. destruct Hnot. by split_and!.
  - intros n' Ht En. change (is_OK DPS_OK) with true. cbv iota. wp_go. split; [done|]. split; [done|done].
Qed.

(** C16 A node that is destroyed comes to rest: on a running node with nothing in flight
    [DPS_DestroyNode] only asks it to stop, and refuses to be called again; the thread
    of the node then ends, with one round of the event loop: every remote, subscription
    and publication is freed, the network is closed, the last it does is to call the
    callback, and it frees the node. *)
Theorem destroyed_node_freed `{Env : Environment} nI n cb : quiescent nI n -> n_state n = DPS_NODE_RUNNING ->
  exists n1, DPS_DestroyNode (Some cb) n = Some ((DPS_OK, false), n1) /\ n_events n1 = EvAsyncSend stopAsync :: n_events n /\
    (forall cb', DPS_DestroyNode (Some cb') n1 = Some ((DPS_ERR_INVALID, false), n1)) /\
    exists n2, NodeRun FreeTask FreeTask 1 n1 = Some (true, n2) /\ stopped n2 /\ objects_freed n n2 /\
      head (n_events n2) = Some (EvNodeDestroyed cb).
Proof.
  intros Hq Hst.
  set (n1 := n <| n_state := DPS_NODE_STOPPING |> <| n_onDestroyed := Some cb |> <| n_events := EvAsyncSend stopAsync :: n_events n |>).
  exists n1. split; [unfold DPS_DestroyNode, mbind, M_bind, gets; cbn; by rewrite Hst|]. split; [done|]. split; [done|].
  assert (quiescent nI n1) as Hq1.
  { destruct Hq as [Q1 Q2 Q3 Q4 Q5 Q6]. split; try done; [by apply (node_inv_same nI n)|by apply (subs_quiet_same n)|by apply (pubs_quiet_same n)]. }
  assert (objects_freed n = objects_freed n1) as -> by done. assert (n_onDestroyed n1 = Some cb) as Ecb by done. clearbody n1.
  assert (wp (NodeRun FreeTask FreeTask 1) (fun b n2 => b = true /\ stopped n2 /\ objects_freed n1 n2 /\ head (n_events n2) = Some (EvNodeDestroyed cb)) n1) as H.
  { unfold NodeRun. wp_go. apply (wp_StopNode nI 1 n1); [lia|done|]. intros n' Hs Ho Ed. wp_go. rewrite Ed, Ecb. wp_go.
    split; [done|]. split; [by destruct Hs|]. by split. }
  apply wp_run in H as (b & n2 & E & -> & H). by exists n2.
Qed.

(** ** Concrete nodes *)

#[local] Existing Instance toy_env.
Definition toy_created : Created := mkCreated [47] no_entity (mkEntropy 1 2 3 4 5 6) DPS_SUBSCRIPTION_UPDATE_RATE DPS_LINK_LOSS_TIMEOUT None.
Definition toy_system : System := mkSystem (true, true) (fun _ => true) (Some (toy_addr 7)) true.

Lemma started_node_typed_witness : exists n',
  DPS_StartNode FreeTask FreeTask toy_system 0 3 (blank_node toy_created 0 0) = Some (DPS_OK, n') /\ typed_node 1 n'.
Proof.
  destruct (started_node_typed 1 toy_system 0 3 toy_created 0 0 toy_env_ok) as (ret & n' & E & H1 & _ & H3); [by split|by split|].
  assert (ret = DPS_OK) as -> by by apply H3. exists n'. split; [exact E|]. by apply H1.
Defined.

(** The node of a subscriber, which has a neighbour. *)
Lemma toy_routed_quiescent : quiescent 1 toy_routed.
Proof.
  split; [apply toy_routed_inv| | |by vm_compute|by vm_compute|].
  - split.
    + intros p Hp. assert (n_subscriptions toy_routed = [1%positive]) as E by (vm_compute; reflexivity). rewrite E in Hp.
      apply list_elem_of_singleton in Hp as ->. eexists. split; [vm_compute; reflexivity|done].
    + assert (n_freeSubs toy_routed = []) as -> by (vm_compute; reflexivity). constructor.
    + by apply (bool_decide_unpack _); vm_compute.
  - apply pubs_quiet_nil; vm_compute; reflexivity.
  - exists ∅. replace (n_history toy_routed) with empty_history by (vm_compute; reflexivity). exact empty_represents.
Qed.

Lemma destroyed_node_freed_witness :
  exists n1 n2, DPS_DestroyNode (Some 8) toy_routed = Some ((DPS_OK, false), n1) /\
    NodeRun FreeTask FreeTask 1 n1 = Some (true, n2) /\ stopped n2 /\ n_subs n2 !! 1%positive = None.
Proof.
  destruct (destroyed_node_freed 1 toy_routed 8 toy_routed_quiescent) as (n1 & E1 & _ & _ & n2 & E2 & Hs & [Ho _] & _); [by vm_compute|].
  exists n1, n2. split; [exact E1|]. split; [exact E2|]. split; [exact Hs|]. apply Ho, elem_of_app. left. vm_compute. left.
Defined.
