(* ===== verification/PublishTheorems.v ===== *)
(** * From the publisher to the subscriber ([src/pub.c])

    What [DPS_InitPublication], [DPS_SerializePub] and [DPS_SendPublication] make is a
    message that the nodes on the way accept, deliver and send on. *)
From S2P Require Import Prelude Status Buffer Float Cbor CborProofs CborValues CborMap.
From S2P Require Import BitVec BitVecProofs BitVecSerial BitVecTheorems CountVec Topics TopicProofs TopicSound TopicTheorems.
From S2P Require Import Uuid Addr History HistTheorems Node Remote RemoteProofs Sub SubMsg SubMsgProofs Pub Link SubDecode SubDecodeProofs.
From S2P Require Import Tls Keys Cose PubMsg PubRecv PubSend PubMsgProofs PubParseProofs DeliverProofs HandlerProofs ReceiveProofs NodeTheorems.
From S2P Require Import DeliverTheorems PublishProofs SyncTheorems RouteTheorems.
From stdpp Require Import gmap.
#[local] Open Scope Z_scope.
#[local] Set Warnings "-clear-no-such-hyp".

Section Hop.
Context `{Env : Environment} `{Crypto : Cose} (ack : DPS_NetEndpoint -> DPS_RxBuffer -> M DPS_Status).
Context (Hmem : forall k, env_alloc k = true).
Context (Hbytes : forall k size, length (env_bytes k size) = size /\ Forall is_byte (env_bytes k size)).
Context (nI : nat) (H : hashing_ok nI).

(** The two parts of a message that no node changes. *)
Context (topics : list (list Z)) (data : list Z) (flags : Z) (payload : list Z).
Context (baseTTL : Z) (pubId : DPS_UUID) (sequenceNum : Z) (ackRequested : bool).
Let body : list Z :=
  map_wire (protected_entries baseTTL pubId sequenceNum ackRequested (filter_item nI flags payload)) ++
  map_wire (payload_entries topics data).

(** The node [n] that gets these bytes from [e] accepts the publication. *)
Definition taken_by (pf : DPS_BitVector) (addr : DPS_NodeAddress) (ttl hopCount : Z) (bytes : list Z) : Prop :=
  forall n e e' b,
  listening n -> published (n_separators n) topics data pf flags payload -> n_state n = DPS_NODE_RUNNING ->
  unknown pubId sequenceNum n -> rx_wf b -> rx_rest b = bytes -> sender_endpoint addr e = Some e' -> addr_ok (ep_addr e') ->
  exists n', OnNetReceive DPS_DecodePublication ack e DPS_OK b n = Some (DPS_OK, n') /\
    accepted nI flags (bits pf) payload topics data ttl hopCount baseTTL pubId sequenceNum ackRequested n (ep_addr e') n'.

Lemma wire_taken pf addr ttl hopCount :
  fields_ok addr ttl hopCount baseTTL pubId sequenceNum (filter_item nI flags payload) -> 0 <= ttl ->
  taken_by pf addr ttl hopCount (publication_wire addr ttl hopCount body).
Proof using Hmem H.
  intros Hf Ht n e e' b Hls Hpd Hrun Hu Hb Eb He Ha.
  cut (wp (OnNetReceive DPS_DecodePublication ack e DPS_OK b) (fun ret n' => ret = DPS_OK /\ accepted nI flags (bits pf) payload
    topics data ttl hopCount baseTTL pubId sequenceNum ackRequested n (ep_addr e') n') n).
  { intros (ret & n' & E & -> & Hacc)%wp_run. by exists n'. }
  eapply wp_receive_pub; [done|split; [exact Hb|reflexivity|reflexivity|exact Eb]|]. intros b' Hb'.
  eapply (wp_publication_accepted nI topics data pf flags payload addr ttl hopCount); [done..|exact Hb'|done|done|done|].
  intros n' Hacc. by split.
Qed.

(** What a node sends for a request with these buffers is a message that the next node
    accepts. *)
Lemma wp_hop pf n req pub remote ttl q r (Q : DPS_Status -> DPS_Node -> Prop) :
  sending n req pub remote ttl q r -> concat (q_bufs q) = body ->
  fields_ok (n_addr n) ttl (q_hopCount q) baseTTL pubId sequenceNum (filter_item nI flags payload) -> 0 <= ttl ->
  (forall n' bytes, head (n_events n') = Some (EvNetSend (ep r) bytes DPS_OK) ->
     taken_by pf (n_addr n) ttl (q_hopCount q) bytes -> Q DPS_OK n') ->
  wp (DPS_SendPublication ack req pub (Unicast remote)) Q n.
Proof using Hmem Hbytes H.
  intros Hsend Eb Hf Ht HQ. eapply wp_SendPublication; [done|done|exact Hsend|]. intros n' Ev. rewrite Eb in Ev.
  eapply HQ; [exact Ev|]. by apply wire_taken.
Qed.
End Hop.

(** what [DPS_InitPublication] makes.  A publication that was created is given
    valid topics: unless the run-length encoding of its filter overflows, the call
    returns OK and the publication is local and in the list, its filter is that of its
    topics, and the two buffers that every message of it will carry are the CBOR items
    of the topics and of the filter, so that [publication_roundtrip] applies to it; the
    handler of acknowledgements and the demand for them are set together. *)
Theorem publication_initialized `{Env : Environment} nI n p pb topics noWildCard handler :
  let t := if noWildCard : bool then DPS_PubNoWild else DPS_PubTopic in
  (forall k, env_alloc k = true) ->
  (forall k size, length (env_bytes k size) = size /\ Forall is_byte (env_bytes k size)) -> hashing_ok nI ->
  created n p pb -> no_wild (n_separators n) -> topics <> [] -> Forall (topic_ok (n_separators n) t) topics ->
  Forall short_topic topics -> Z.of_nat (length (wire (topics_item topics))) < 2 ^ 32 ->
  exists ret n', DPS_InitPublication (Some p) topics noWildCard handler n = Some (ret, n') /\
    (ret = DPS_ERR_OVERFLOW \/
     ret = DPS_OK /\ exists v bf flags payload k,
       built_filter (n_separators n) t topics v /\ bits bf = bits v /\ 0 <= flags < 4 /\ bv_payload flags (bits v) payload /\
       Z.of_nat (length payload) <= bitLen env_config / 8 /\
       n' = n <| n_publications := p :: n_publications n |> <| n_allocs := k |>
         <| n_pubs := <[p := initialized nI topics handler pb bf flags payload]> (n_pubs n) |>).
Proof.
  intros t Hmem Hbytes H Hc Hs Hne Ht Hsh Hlen.
  match goal with |- exists ret n', _ = _ /\ @?P ret n' => cut (wp (DPS_InitPublication (Some p) topics noWildCard handler) P n) end.
  { intros (ret & n' & E & HP)%wp_run. by exists ret, n'. }
  eapply wp_InitPublication; [done..|by left|]. intros v bf flags payload k Hv Eb Hfl Hp Hpl. right. split; [done|].
  by exists v, bf, flags, payload, k.
Qed.

(** C4: the round trip of a publication, from the buffers of the publisher to the
    handlers of the subscriber.  A request for a publication whose topics and filter were
    encoded is serialized in the clear; it can then be sent to any neighbour, then or
    later, by a node whose address fits in a message, with a time to live that fits the
    one it was published with: the transport is given bytes that every node that does not know the
    publication accepts, with the topics, the data, the identifier, the sequence number,
    the filter, the time to live and the hop count of the publisher ([taken_by]: what
    it does is [accepted], as for the delivery). *)
Theorem publication_roundtrip `{Env : Environment} `{Crypto : Cose} ack nI req q pb bufs ttl topics flags payload n :
  (forall k, env_alloc k = true) ->
  (forall k size, length (env_bytes k size) = size /\ Forall is_byte (env_bytes k size)) -> hashing_ok nI ->
  publishing n req q pb bufs -> int16 ttl -> uint32 (q_sequenceNum q) ->
  cbor_ok (topics_item topics) -> p_topicsBuf pb = wire (topics_item topics) ->
  cbor_ok (filter_item nI flags payload) -> p_bfBuf pb = wire (filter_item nI flags payload) ->
  Z.of_nat (length (wire (filter_item nI flags payload))) < 2 ^ 31 ->
  Z.of_nat (length (map_wire (payload_entries topics (concat bufs)))) < 2 ^ 31 ->
  exists parts n1, DPS_SerializePub req bufs ttl n = Some (DPS_OK, n1) /\
    (exists k, n1 = n <| n_allocs := k |> <| n_reqs := <[req := q <| q_bufs := parts |>]> (n_reqs n) |>) /\
    forall pf n2 req2 pub remote ttl2 q2 r,
      sending n2 req2 pub remote ttl2 q2 r -> q_bufs q2 = parts -> 0 <= ttl2 ->
      fields_ok (n_addr n2) ttl2 (q_hopCount q2) ttl (p_pubId pb) (q_sequenceNum q) (filter_item nI flags payload) ->
      exists n3 bytes, DPS_SendPublication ack req2 pub (Unicast remote) n2 = Some (DPS_OK, n3) /\
        head (n_events n3) = Some (EvNetSend (ep r) bytes DPS_OK) /\
        taken_by ack nI topics (concat bufs) flags payload ttl (p_pubId pb) (q_sequenceNum q) (p_ackRequested pb)
          pf (n_addr n2) ttl2 (q_hopCount q2) bytes.
Proof.
  intros Hmem Hbytes H Hpg Httl Hseq Ht Etb Hf Efb Hfl Hlen.
  assert (wp (DPS_SerializePub req bufs ttl) (fun ret n1 => ret = DPS_OK /\ exists parts,
    (exists k, n1 = n <| n_allocs := k |> <| n_reqs := <[req := q <| q_bufs := parts |>]> (n_reqs n) |>) /\
    concat parts = map_wire (protected_entries ttl (p_pubId pb) (q_sequenceNum q) (p_ackRequested pb) (filter_item nI flags payload)) ++
       map_wire (payload_entries topics (concat bufs))) n) as Hwp.
  { eapply wp_SerializePub; [done..|]. intros parts k Ep. split; [done|]. exists parts. split; [by exists k|done]. }
  apply wp_run in Hwp as (ret & n1 & E1 & -> & parts & Er & Ep). exists parts, n1. split_and!; [done|done|].
  intros pf n2 req2 pub remote ttl2 q2 r Hs Eb Ht2 Hfo. rewrite <- Eb in Ep.
  assert (wp (DPS_SendPublication ack req2 pub (Unicast remote)) (fun ret n3 => ret = DPS_OK /\ exists bytes,
    head (n_events n3) = Some (EvNetSend (ep r) bytes DPS_OK) /\
    taken_by ack nI topics (concat bufs) flags payload ttl (p_pubId pb) (q_sequenceNum q) (p_ackRequested pb)
          pf (n_addr n2) ttl2 (q_hopCount q2) bytes) n2) as Hwp.
  { eapply wp_hop; [done|done|done|exact Hs|exact Ep|done|done|]. intros n3 bytes Ev Hb. split; [done|]. by exists bytes. }
  apply wp_run in Hwp as (ret & n3 & E3 & -> & bytes & Ev & Hb). by exists n3, bytes.
Qed.

(** What a node keeps of a message that it accepted is what it received. *)
Lemma accepted_body `{Env : Environment} nI flags l payload topics data ttl hopCount baseTTL pubId sequenceNum ackRequested n from n' :
  accepted nI flags l payload topics data ttl hopCount baseTTL pubId sequenceNum ackRequested n from n' ->
  exists p pb req q, p ∈ n_publications n' /\ n_pubs n' !! p = Some pb /\ p_sendQueue pb = [req] /\
    p_pubId pb = pubId /\ (exists bf, p_bf pb = Some bf /\ bits bf = l /\ vec_ok nI bf) /\
    n_reqs n' !! req = Some q /\ q_sequenceNum q = sequenceNum /\ q_hopCount q = u16 (hopCount + 1) /\
    concat (q_bufs q) = map_wire (protected_entries baseTTL pubId sequenceNum ackRequested (filter_item nI flags payload)) ++
      map_wire (payload_entries topics data).
Proof.
  intros (p & req & bf & ts & h & k & _ & _ & Hb & Wb & _ & _ & _ & _ & ->).
  exists p, ((accepted_pub ttl pubId sequenceNum ackRequested from bf) <| p_sendQueue := [req] |>), req,
    (accepted_req nI flags payload topics data ttl hopCount baseTTL pubId sequenceNum ackRequested (n_now n) p).
  split_and!; [by left|apply lookup_insert_eq|done|done|by exists bf|apply lookup_insert_eq|done|done|].
  cbn [accepted_req received_req new_request q_bufs set concat]. cbn. by rewrite !app_nil_r.
Qed.

Section Forward.
Context `{Env : Environment} `{Crypto : Cose} (ack : DPS_NetEndpoint -> DPS_RxBuffer -> M DPS_Status) (nI : nat).

(** The neighbour wants the publication: it announced interests and needs that match. *)
Definition interested (bf i d : DPS_BitVector) : Prop :=
  let common := fuzzy_spec (zip_with Z.land (bits bf) (bits i)) in chunks_sub (bits d) common /\ chunks_count common <> 0.

(** The neighbour, the publication and the request of a round of the loop. *)
Record forwarding (n : DPS_Node) (req pub remote : ptr) (ttl : Z) (q : DPS_PublishRequest) (r : RemoteNode)
    (pb : DPS_Publication) (bf i d : DPS_BitVector) (received : bool) : Prop := {
  fw_sending : sending n req pub remote ttl q r;
  fw_pub : n_pubs n !! pub = Some pb /\ p_bf pb = Some bf;
  fw_inbound : in_interests (inbound r) = Some i /\ in_needs (inbound r) = Some d;
  fw_vectors : scratch_ok nI n /\ vec_ok nI bf /\ vec_ok nI i /\ vec_wf FH_CHUNKS d;
  fw_received : if has_flag (p_flags pb) PUB_FLAG_LOCAL then received = false else
    DPS_PublicationReceivedFrom (n_history n) (p_pubId pb) (q_sequenceNum q) (p_senderAddr pb) (ep_addr (ep r)) = Some received
}.

Definition to_send (r : RemoteNode) (received : bool) (bf i d : DPS_BitVector) : Prop :=
  r_state r = REMOTE_ACTIVE /\ received = false /\ interested bf i d.

Lemma wp_came_from n req pub remote ttl q r pb bf i d received (Q : bool -> DPS_Node -> Prop) :
  forwarding n req pub remote ttl q r pb bf i d received -> Q received n -> wp (came_from pb q r) Q n.
Proof.
  intros [_ _ _ _ Hr] HQ. unfold came_from. destruct (has_flag _ _); wp_go; [by rewrite <- Hr|].
  by eapply wp_lift; [exact Hr|].
Qed.

Lemma wp_send_remote n req pub remote ttl q r pb bf i d received (Q : unit -> DPS_Node -> Prop) :
  forwarding n req pub remote ttl q r pb bf i d received ->
  (~ to_send r received bf i d -> forall n', n' = n <| n_scratch_needs := n_scratch_needs n' |> <| n_scratch_interests := n_scratch_interests n' |> ->
     Q tt n') ->
  (to_send r received bf i d -> forall n1, n1 = n <| n_scratch_needs := n_scratch_needs n1 |> <| n_scratch_interests := n_scratch_interests n1 |> ->
     wp (DPS_SendPublication ack req pub (Unicast remote)) (fun ret n' => ret = DPS_OK /\ Q tt n') n1) ->
  wp (send_remote ack req pub remote) Q n.
Proof.
  intros Hf Hno Hyes. pose proof Hf as [Hs [Ep Eb] [Ei Ed] (Hsc & Vb & Vi & Vd) _]. unfold send_remote. wp_go.
  assert (forall P : Prop, P -> n = n <| n_scratch_needs := n_scratch_needs n |> <| n_scratch_interests := n_scratch_interests n |>)
    as Hsame by (intros _ _; by destruct n).
  eapply wp_load; [exact (sg_remote _ _ _ _ _ _ _ Hs)|]. wp_go. rewrite Ei. rewrite (bool_decide_eq_true_2 (is_Some (Some i))) by eauto.
  destruct (bool_decide (r_state r = REMOTE_ACTIVE)) eqn:Est; cbn [negb orb]; wp_go.
  2: { apply bool_decide_eq_false in Est. apply Hno; [by intros [? _]|by eapply Hsame]. }
  apply bool_decide_eq_true in Est.
  eapply wp_load; [exact Ep|]. wp_go. eapply wp_load; [exact (sg_req _ _ _ _ _ _ _ Hs)|]. wp_go.
  eapply wp_came_from; [exact Hf|]. wp_go. destruct received.
  { wp_go. apply Hno; [by intros (_ & ? & _)|by eapply Hsame]. }
  rewrite Eb, Ed. wp_go. apply (wp_matches_remote nI); [done..|]. intros b n1 En1 _ Hb. wp_go. destruct b; cbn [negb]; wp_go.
  - assert (to_send r false bf i d) as Hts by (split_and!; [done|done|by apply Hb]).
    eapply wp_mono; [exact (Hyes Hts n1 En1)|]. intros ret n' [-> HQ]. wp_go. by wp_go.
  - apply Hno; [|done]. intros (_ & _ & Hi). by apply Hb in Hi.
Qed.
End Forward.

Lemma sending_scratch `{Env : Environment} n req pub remote ttl q r n1 :
  n1 = n <| n_scratch_needs := n_scratch_needs n1 |> <| n_scratch_interests := n_scratch_interests n1 |> ->
  sending n req pub remote ttl q r -> sending n1 req pub remote ttl q r.
Proof. intros -> []. by split. Qed.

(** C5: forwarding.  A request whose buffers hold the two parts of a message, as the
    publisher serialized them or as a node accepted them ([accepted_body]), meets a
    neighbour that announced interests: the neighbour is sent the publication exactly
    when it is active, the publication is local or the history does not say that it
    comes from there, and the announced vectors match the filter.  What it is sent is then accepted, and delivered, by
    every node that does not know the publication, with the hop count of the request;
    else nothing of the node changes but the scratch vectors. *)
Theorem publication_forwarded `{Env : Environment} `{Crypto : Cose} ack nI n req pub remote ttl q r pb bf i d received
    topics data flags payload baseTTL pubId sequenceNum ackRequested :
  (forall k, env_alloc k = true) ->
  (forall k size, length (env_bytes k size) = size /\ Forall is_byte (env_bytes k size)) -> hashing_ok nI ->
  forwarding nI n req pub remote ttl q r pb bf i d received ->
  concat (q_bufs q) = map_wire (protected_entries baseTTL pubId sequenceNum ackRequested (filter_item nI flags payload)) ++
    map_wire (payload_entries topics data) ->
  fields_ok (n_addr n) ttl (q_hopCount q) baseTTL pubId sequenceNum (filter_item nI flags payload) -> 0 <= ttl ->
  exists n', send_remote ack req pub remote n = Some (tt, n') /\
    (to_send r received bf i d /\
     (exists bytes, head (n_events n') = Some (EvNetSend (ep r) bytes DPS_OK) /\
       forall pf, taken_by ack nI topics data flags payload baseTTL pubId sequenceNum ackRequested pf
         (n_addr n) ttl (q_hopCount q) bytes) \/
     ~ to_send r received bf i d /\
     n' = n <| n_scratch_needs := n_scratch_needs n' |> <| n_scratch_interests := n_scratch_interests n' |>).
Proof.
  intros Hmem Hbytes H Hf Eq Hfo Ht.
  match goal with |- exists n', _ = _ /\ @?P n' => cut (wp (send_remote ack req pub remote) (fun _ n' => P n') n) end.
  { intros ([] & n' & E & HP)%wp_run. by exists n'. }
  eapply wp_send_remote; [exact Hf|by right|]. intros Hs n1 En1.
  pose proof (sending_scratch _ _ _ _ _ _ _ _ En1 (fw_sending _ _ _ _ _ _ _ _ _ _ _ _ _ Hf)) as Hs1.
  assert (n_addr n1 = n_addr n) as Ea by (by rewrite En1).
  eapply wp_SendPublication; [done|done|exact Hs1|]. intros n' Ev. split; [done|]. left. split; [done|].
  eexists. split; [exact Ev|]. intros pf. rewrite Ea, Eq. by apply wire_taken.
Qed.

(** *** A publisher and its neighbour *)

#[local] Existing Instance toy_env.
#[local] Existing Instance toy_cose.

Definition no_ack (e : DPS_NetEndpoint) (b : DPS_RxBuffer) : M DPS_Status := mret DPS_OK.

(** The publication of "a/b/c" with a request for it, and a neighbour that is active. *)
Definition toy_pub : DPS_Publication :=
  zero_pub <| p_pubId := mkUUID 1 2 |> <| p_sequenceNum := 1 |> <| p_flags := PUB_FLAG_LOCAL .| PUB_FLAG_RETAINED |>
    <| p_topics := Some [topic_abc] |> <| p_bf := Some toy_pub_filter |>
    <| p_topicsBuf := wire (topics_item [topic_abc]) |> <| p_bfBuf := wire (filter_item 1 0 toy_payload) |>.
Definition toy_req : DPS_PublishRequest := mkReq 1 None 5 5000 0 DPS_ERR_NO_ROUTE 1 1 false (replicate 5 []).
Definition toy_publisher : DPS_Node :=
  toy_routed <| n_pubs := {[1%positive := toy_pub]} |> <| n_publications := [1%positive] |> <| n_reqs := {[1%positive := toy_req]} |>.

Lemma toy_publishing : publishing toy_publisher 1 toy_req toy_pub [[104; 105]].
Proof. split; [by vm_compute..|]. split; by vm_compute. Qed.

Lemma toy_items : cbor_ok (topics_item [topic_abc]) /\ cbor_ok (filter_item 1 0 toy_payload).
Proof. split; [apply toy_published|apply (fo_filter _ _ _ _ _ _ _ (toy_fields_ok 8 5 0 ltac:(lia) ltac:(done) eq_refl ltac:(done)))]. Qed.

Lemma toy_publisher_addr : n_addr toy_publisher = toy_addr 8.
Proof. vm_compute. reflexivity. Qed.

Lemma addr_serialized n k m : n_addr (n <| n_allocs := k |> <| n_reqs := m |>) = n_addr n.
Proof. done. Qed.

Lemma publication_roundtrip_witness :
  exists parts n1 n3 bytes, DPS_SerializePub 1 [[104; 105]] 5 toy_publisher = Some (DPS_OK, n1) /\
    DPS_SendPublication no_ack 1 1 (Unicast 1) n1 = Some (DPS_OK, n3) /\
    head (n_events n3) = Some (EvNetSend (mkEp (toy_addr 7) None) bytes DPS_OK) /\
    option_map q_bufs (n_reqs n1 !! 1%positive) = Some parts /\
    taken_by no_ack 1 [topic_abc] [104; 105] 0 toy_payload 5 (mkUUID 1 2) 1 false toy_pub_filter (toy_addr 8) 5 0 bytes.
Proof.
  destruct (publication_roundtrip no_ack 1 1%positive toy_req toy_pub [[104; 105]] 5 [topic_abc] 0 toy_payload toy_publisher)
    as (parts & n1 & E1 & (k & En) & Hsend).
  - done.
  - exact toy_env_bytes.
  - exact toy_hashing.
  - exact toy_publishing.
  - done.
  - done.
  - apply toy_items.
  - done.
  - apply toy_items.
  - done.
  - by vm_compute.
  - by vm_compute.
  - assert (n_addr n1 = toy_addr 8) as Ea by (rewrite En, addr_serialized; exact toy_publisher_addr).
    destruct (Hsend toy_pub_filter n1 1%positive 1%positive 1%positive 5 (toy_req <| q_bufs := parts |>) (toy_remote toy_routed))
      as (n3 & bytes & E3 & Ev & Htk).
    + rewrite En. split.
      * apply lookup_insert_eq.
      * exists toy_pub. split; reflexivity.
      * vm_compute; reflexivity.
      * vm_compute; reflexivity.
      * rewrite addr_serialized, toy_publisher_addr. clear. done.
      * clear. done.
      * reflexivity.
    + reflexivity.
    + clear. done.
    + rewrite Ea. clear. by apply toy_fields_ok.
    + exists parts, n1, n3, bytes. split_and!; [exact E1|exact E3|exact Ev|by rewrite En|].
      rewrite Ea in Htk. exact Htk.
Defined.

(** A node on the way: the message came from port 9, the neighbour has port 7. *)
Definition toy_passing : DPS_Publication :=
  zero_pub <| p_pubId := mkUUID 1 2 |> <| p_sequenceNum := 1 |> <| p_flags := PUB_FLAG_RETAINED |>
    <| p_bf := Some toy_pub_filter |> <| p_senderAddr := toy_addr 9 |>.
Definition toy_request : DPS_PublishRequest := toy_req <| q_hopCount := 3 |> <| q_bufs :=
  [map_wire (protected_entries 5 (mkUUID 1 2) 1 false (filter_item 1 0 toy_payload)); map_wire (payload_entries [topic_abc] [104; 105])] |>.
Definition toy_neighbour : RemoteNode :=
  (new_remote (toy_addr 7) None) <| r_state := REMOTE_ACTIVE |>
    <| inbound := (inbound (new_remote (toy_addr 7) None)) <| in_interests := Some (toy_filter DPS_PubTopic [topic_abc]) |>
                    <| in_needs := Some (bv64 [0; 0; 0; 0]) |> |>.
Definition toy_router : DPS_Node :=
  toy_node <| n_addr := toy_addr 8 |> <| n_pubs := {[1%positive := toy_passing]} |> <| n_publications := [1%positive] |>
    <| n_reqs := {[1%positive := toy_request]} |> <| n_remotes := {[1%positive := toy_neighbour]} |> <| n_remoteNodes := [1%positive] |>.

Lemma publication_forwarded_witness :
  exists n' bytes, send_remote no_ack 1 1 1 toy_router = Some (tt, n') /\
    head (n_events n') = Some (EvNetSend (mkEp (toy_addr 7) None) bytes DPS_OK) /\
    taken_by no_ack 1 [topic_abc] [104; 105] 0 toy_payload 5 (mkUUID 1 2) 1 false toy_pub_filter (toy_addr 8) 5 3 bytes.
Proof.
  destruct (publication_forwarded no_ack 1 toy_router 1 1 1 5 toy_request toy_neighbour toy_passing toy_pub_filter
    (toy_filter DPS_PubTopic [topic_abc]) (bv64 [0; 0; 0; 0]) false [topic_abc] [104; 105] 0 toy_payload 5 (mkUUID 1 2) 1 false)
    as (n' & E & Hcase).
  - done.
  - exact toy_env_bytes.
  - exact toy_hashing.
  - split.
    + split; [reflexivity|exists toy_passing; split; reflexivity|reflexivity|reflexivity|done|done|reflexivity].
    + split; reflexivity.
    + split; reflexivity.
    + split_and!; [split| | |]; by apply (bool_decide_unpack _); vm_compute.
    + vm_compute. reflexivity.
  - vm_compute. reflexivity.
  - by apply toy_fields_ok.
  - done.
  - destruct Hcase as [[_ (bytes & Ev & Htk)]|[Hno _]].
    + exists n', bytes. split_and!; [exact E|exact Ev|exact (Htk toy_pub_filter)].
    + exfalso. apply Hno. split_and!; [reflexivity|reflexivity|]. split; [|by vm_compute].
      unfold chunks_sub. apply (bool_decide_unpack (Forall2 zsub _ _)). by vm_compute.
Defined.

(** A publication that was created. *)
Definition toy_created : DPS_Node := toy_node <| n_pubs := {[1%positive := zero_pub <| p_pubId := mkUUID 1 2 |>]} |>.

Lemma publication_initialized_witness :
  exists n' pb, DPS_InitPublication (Some 1%positive) [topic_abc] false (Some 70) toy_created = Some (DPS_OK, n') /\
    n_pubs n' !! 1%positive = Some pb /\ p_topicsBuf pb = wire (topics_item [topic_abc]) /\ p_ackRequested pb = true.
Proof.
  destruct (publication_initialized 1 toy_created 1 (zero_pub <| p_pubId := mkUUID 1 2 |>) [topic_abc] false (Some 70))
    as (ret & n' & E & Hcase).
  - done.
  - exact toy_env_bytes.
  - exact toy_hashing.
  - split; [reflexivity|by apply not_elem_of_nil|split_and!; reflexivity|reflexivity].
  - exact slash_no_wild.
  - done.
  - apply List.Forall_cons; [apply topic_abc_ok|done].
  - apply List.Forall_cons; [|done]. split; [done|]. by apply (bool_decide_unpack _); vm_compute.
  - by vm_compute.
  - destruct Hcase as [->|(-> & v & bf & flags & payload & k & _ & _ & _ & _ & _ & En)].
    + exfalso. clear - E. vm_compute in E. discriminate E.
    + exists n', (initialized 1 [topic_abc] (Some 70) (zero_pub <| p_pubId := mkUUID 1 2 |>) bf flags payload).
      split; [exact E|]. rewrite En. split_and!; [apply lookup_insert_eq|reflexivity|reflexivity].
Defined.
