(* ===== verification/MeshTheorems.v ===== *)
(** * Muted links and lost links ([src/dps.c], [src/sub.c])

    What a node announces when it restores a link, what it takes to keep the
    assertion on the needs, and what happens to a link that is not answered. *)
From S2P Require Import Prelude Status Buffer Float Cbor CborProofs CborValues CborMap.
From S2P Require Import BitVec BitVecProofs BitVecSerial BitVecTheorems CountVec Topics TopicProofs TopicSound TopicTheorems Uuid Addr History Node Remote.
From S2P Require Import RemoteProofs Sub SubProofs NodeTheorems Frame SubMsg SubMsgProofs SendProofs Pub PubProofs Link.
From S2P Require Import SubDecode SubDecodeProofs SyncProofs SyncTheorems.
From stdpp Require Import gmap.
#[local] Open Scope Z_scope.
#[local] Set Warnings "-clear-no-such-hyp".

Lemma RandUUIDLess_ok u e : uuid_ok u -> uuid_ok (DPS_RandUUIDLess u e).1.
Proof.
  unfold DPS_RandUUIDLess. destruct (DPS_Rand64 e) as [r e']. intros [_ H]. cbn [fst].
  split; cbn [val64_0 val64_1]; [apply Z.mod_pos_bound; lia|]. destruct (_ >=? _); [apply Z.mod_pos_bound; lia|done].
Qed.

Section Mesh.
Context `{Env : Environment} (nI : nat).
Context (Hsize : bitLen env_config = 64 * Z.of_nat nI) (HnI : (0 < nI)%nat) (Hsmall : 64 * Z.of_nat nI <= 65535).
Context (Hbytes : forall k size, length (env_bytes k size) = size /\ Forall is_byte (env_bytes k size)).

(** The remote after its outbound vectors were replaced by empty ones. *)
Record blank (r r' : RemoteNode) : Prop := {
  bl_only : r' = r <| outbound := outbound r' |>;
  bl_revision : out_revision (outbound r') = out_revision (outbound r);
  bl_pending : sakPending (outbound r') = sakPending (outbound r);
  bl_interests : exists i, out_interests (outbound r') = Some i /\ vec_wf nI i /\ bits i = replicate nI 0;
  bl_needs : exists d, out_needs (outbound r') = Some d /\ vec_wf FH_CHUNKS d /\ bits d = replicate FH_CHUNKS 0
}.

Lemma blank_vector k bv : vec_wf k bv -> vec_wf k (DPS_BitVectorClear bv) /\ bits (DPS_BitVectorClear bv) = replicate k 0.
Proof.
  intros [W L]. rewrite (DPS_BitVectorClear_spec _ W). cbn [bits]. rewrite L. split; [|done].
  split; [by rewrite <- L; apply cleared_wf|]. cbn. apply length_replicate.
Qed.

Lemma fresh_blank k : 64 * Z.of_nat k <= 65535 ->
  vec_wf k (fresh_bv (64 * Z.of_nat k)) /\ bits (fresh_bv (64 * Z.of_nat k)) = replicate k 0.
Proof.
  intros Hk. unfold fresh_bv. cbn [bits]. rewrite Z.mul_comm, Z.div_mul, Nat2Z.id by done. split; [|done].
  split; [|apply length_replicate]. pose proof (fresh_bv_wf (Z.of_nat k * 64)) as H. unfold fresh_bv in H.
  rewrite Z.div_mul, Nat2Z.id in H by done. apply H; [by apply Z.mod_mul|lia].
Qed.

(** A vector that is cleared or allocated. *)
Definition blank_or_none (k : nat) (v : option DPS_BitVector) : Prop :=
  match v with Some bv => vec_wf k bv /\ bits bv = replicate k 0 | None => exists j, env_alloc j = false end.

Lemma wp_clear_vector k o alloc (Q : option DPS_BitVector -> DPS_Node -> Prop) n :
  (forall bv, o = Some bv -> vec_wf k bv) ->
  (forall (P : option DPS_BitVector -> DPS_Node -> Prop), (forall v j, blank_or_none k v -> P v (n <| n_allocs := j |>)) -> wp alloc P n) ->
  (forall v j, blank_or_none k v -> Q v (n <| n_allocs := j |>)) ->
  wp (match o with Some bv => mret (Some (DPS_BitVectorClear bv)) | None => alloc end) Q n.
Proof.
  intros Ho Ha HQ. destruct o as [bv|]; [|by apply Ha]. wp_go.
  destruct n. apply HQ. by apply blank_vector, Ho.
Qed.

Lemma wp_alloc_blank n (P : option DPS_BitVector -> DPS_Node -> Prop) :
  (forall v j, blank_or_none nI v -> P v (n <| n_allocs := j |>)) -> wp BitVectorAlloc P n.
Proof.
  intros HP. destruct (env_alloc (n_allocs n)) eqn:Ea; unfold BitVectorAlloc; wp_go; unfold wp at 1, alloc_ok; rewrite Ea.
  - eapply wp_lift; [apply BitVectorAlloc_fresh; by rewrite Hsize, Z.mul_comm, Z.mod_mul|].
    apply HP. rewrite Hsize. by apply fresh_blank.
  - apply (wp_lift _ None); [|apply HP; by eexists].
    unfold DPS_BitVectorAlloc, AllocBV. by rewrite Hsize, Z.mul_comm, Z.mod_mul.
Qed.
Lemma wp_allocFH_blank n (P : option DPS_BitVector -> DPS_Node -> Prop) :
  (forall v j, blank_or_none FH_CHUNKS v -> P v (n <| n_allocs := j |>)) -> wp BitVectorAllocFH P n.
Proof.
  intros HP. destruct (env_alloc (n_allocs n)) eqn:Ea; unfold BitVectorAllocFH; wp_go; unfold wp at 1, alloc_ok; rewrite Ea.
  - eapply wp_lift; [reflexivity|]. apply HP. by apply (fresh_blank FH_CHUNKS).
  - eapply wp_lift; [reflexivity|]. apply HP. by eexists.
Qed.

Lemma outbound_vectors_wf r : remote_ok nI r ->
  (forall bv, out_interests (outbound r) = Some bv -> vec_wf nI bv) /\
  (forall bv, out_needs (outbound r) = Some bv -> vec_wf FH_CHUNKS bv).
Proof.
  intros Hr. pose proof (ro_outbound _ _ Hr) as H.
  destruct (out_interests (outbound r)), (out_needs (outbound r)); try done. destruct H.
  by split; intros bv [= <-].
Qed.

Lemma wp_ClearOutboundInterests n p r (Q : DPS_Status -> DPS_Node -> Prop) :
  node_inv nI n -> n_remotes n !! p = Some r ->
  (forall ret n' r', node_inv nI n' -> keeps n n' -> n_remoteNodes n' = n_remoteNodes n ->
     n_remotes n' = <[p := r']> (n_remotes n) ->
     (ret = DPS_ERR_RESOURCES /\ (exists j, env_alloc j = false) /\ r' = r <| outbound := outbound r' |> /\ out_interests (outbound r') = None /\
        out_needs (outbound r') = None \/
      ret = DPS_OK /\ blank r r') -> Q ret n') ->
  wp (DPS_ClearOutboundInterests p) Q n.
Proof.
  intros H E HQ. pose proof (ni_remote _ _ H _ _ E) as Hr. destruct (outbound_vectors_wf r Hr) as [Wi Wd].
  unfold DPS_ClearOutboundInterests. wp_go. eapply wp_load; [exact E|]. wp_go.
  apply (wp_clear_vector nI); [done|apply wp_alloc_blank|]. intros i j Hi. wp_go.
  apply (wp_clear_vector FH_CHUNKS); [done|apply wp_allocFH_blank|]. intros d j' Hd. wp_go.
  eapply wp_upd_outbound; [exact E|]. wp_go.
  assert (forall o n', remote_ok nI (r <| outbound := o |>) ->
    n' = n <| n_remotes := <[p := r <| outbound := o |>]> (n_remotes n) |> <| n_allocs := j' |> ->
    node_inv nI n' /\ keeps n n' /\ n_remoteNodes n' = n_remoteNodes n /\ n_remotes n' = <[p := r <| outbound := o |>]> (n_remotes n)) as Hset.
  { intros o n' Ho ->. split_and!; [|done..]. eapply node_inv_same; [by apply (node_inv_outbound nI n p r o)|done..]. }
  destruct Hr as [R1 R2 R3 R4 R5].
  destruct i as [i|]; [destruct d as [d|]|]; wp_go;
    [|eapply wp_upd_outbound; [apply lookup_insert_eq|]; rewrite set_remotes_twice; wp_go..].
  - destruct Hi as [Wi' Bi], Hd as [Wd' Bd]. edestruct Hset as (H1 & H2 & H3 & H4); [|reflexivity|].
    2: { eapply HQ; [exact H1|exact H2|exact H3|exact H4|]. right. split; [done|]. split; try done; eexists; by split_and!. }
    by split.
  - edestruct Hset as (H1 & H2 & H3 & H4); [|reflexivity|].
    2: { eapply HQ; [exact H1|exact H2|exact H3|exact H4|]. by left. }
    by split.
  - edestruct Hset as (H1 & H2 & H3 & H4); [|reflexivity|].
    2: { eapply HQ; [exact H1|exact H2|exact H3|exact H4|]. by left. }
    by split.
Qed.

(** ** Unmuting *)

(** What was sent: the interests, as the difference from empty ones ([delta]), or in
    full when there was no memory for the empty ones. *)
Record restored (delta : bool) (r r1 : RemoteNode) (newI newN : list Z) : Prop := {
  re_only : r1 = r <| r_state := REMOTE_UNMUTING |> <| outbound := outbound r1 |>;
  re_delta : deltaInd (outbound r1) = delta;
  re_interests : exists i, out_interests (outbound r1) = Some i /\ bits i = newI;
  re_announced : exists dl, announced (outbound r1) = Some dl /\ vec_wf nI dl /\ bits dl = newI;
  re_needs : exists d, out_needs (outbound r1) = Some d /\ vec_wf FH_CHUNKS d /\ bits d = newN
}.

Definition unmute_sent (n : DPS_Node) (p : ptr) (r : RemoteNode) (newI newN : list Z) (n' : DPS_Node) : Prop :=
  exists n1 r1 delta, (delta = false -> exists j, env_alloc j = false) /\ node_inv nI n1 /\ sending_ok n1 /\ n_addr n1 = n_addr n /\ n_remoteNodes n1 = n_remoteNodes n /\
    n_remotes n1 = <[p := r1]> (n_remotes n) /\ restored delta r r1 newI newN /\
    sent nI n1 p r1 DPS_MSG_TYPE_SUB (sub_flags r1) true None
      (r1 <| outbound := await_sak DPS_MSG_TYPE_SUB (recache (outbound r1)) |>) n'.

Lemma zip_lxor_zeros (l : list Z) : zip_with Z.lxor (replicate (length l) 0) l = l.
Proof. induction l as [|x l IH]; [done|]. cbn. by rewrite IH. Qed.

Lemma length_vec_union l : length (vec_union nI l) = nI.
Proof. unfold vec_union. by rewrite length_map, length_columns. Qed.

(** The interests that are announced after the vectors were emptied. *)
Lemma updated_blank r r' r'' newI newN changes :
  r_state r = REMOTE_UNMUTING -> blank r r' -> updated nI r' r'' newI newN changes -> length newI = nI ->
  restored true r r'' newI newN.
Proof.
  intros Hs [E1 _ _ (i & Ei & Wi & Bi) _] [Eo (i' & d' & Ei' & Ed' & Wi' & Bi' & Wd' & Bd') Hd _ _] Hl.
  destruct (Hd i Ei) as (dl & Edl & Wdl & Bdl & Hdelta & _). split; [|done|by exists i'| |by exists d'].
  - rewrite Eo, E1. by destruct r as [? ? ? ? ?]; cbn in Hs; subst.
  - exists dl. unfold announced. rewrite Hdelta. split; [done|]. split; [done|]. by rewrite Bdl, Bi, <- Hl, zip_lxor_zeros.
Qed.

(** They are announced in full if there was no memory to empty them. *)
Lemma updated_full r r' r'' newI newN changes :
  r_state r = REMOTE_UNMUTING -> r' = r <| outbound := outbound r' |> -> out_interests (outbound r') = None ->
  updated nI r' r'' newI newN changes -> restored false r r'' newI newN.
Proof.
  intros Hs E1 E2 [Eo (i & d & Ei & Ed & Wi & Bi & Wd & Bd) _ Hf _]. destruct (Hf E2) as (Hdelta & _).
  split; [|done|by exists i| |by exists d].
  - rewrite Eo, E1. by destruct r as [? ? ? ? ?]; cbn in Hs; subst.
  - exists i. unfold announced. by rewrite Hdelta.
Qed.

Lemma wp_unmute_update n p r1 (Q : DPS_Status -> DPS_Node -> Prop) :
  let newI := vec_union nI (rest_interests n p) in
  let newN := vec_needs FH_CHUNKS (rest_needs n p) in
  node_inv nI n -> n_remotes n !! p = Some r1 -> sending_ok n -> room n -> r_state r1 = REMOTE_UNMUTING ->
  (newI = replicate nI 0 -> newN = replicate FH_CHUNKS 0) ->
  (forall ret n', is_OK ret = false -> node_inv nI n' -> Q ret n') ->
  (forall n', unmute_sent n p r1 newI newN n' -> Q DPS_OK n') ->
  wp (DPS_ClearOutboundInterests p) (fun _ => wp (
      '(ret, _) ← DPS_UpdateOutboundInterests p;
      if is_OK ret then DPS_SendSubscription p else mret ret) Q) n.
Proof.
  intros newI newN H E Hs Hr Hst Hn Hfail Hok. destruct (room_rest n p Hr) as [R1 R2].
  apply (wp_ClearOutboundInterests n p r1); [done..|]. intros ret1 n1 r2 I1 K1 L1 Em1 Hcase. wp_go.
  assert (rest_interests n1 p = rest_interests n p /\ rest_needs n1 p = rest_needs n p) as [Ri Rn].
  { unfold rest_interests, rest_needs. by rewrite (k_subs _ _ K1), (k_subscriptions _ _ K1), Em1, L1, !others_insert. }
  assert (n_remotes n1 !! p = Some r2) as E1 by (rewrite Em1; apply lookup_insert_eq).
  assert (r_state r2 = REMOTE_UNMUTING) as Hst2 by (rewrite <- Hst; by destruct Hcase as [(_ & _ & -> & _)|[_ [-> _ _ _ _]]]).
  assert (needs_follow r2 newI newN) as Hnf.
  { intros i d Ei Ed Ebi. destruct Hcase as [(_ & _ & _ & Eo & _)|[_ [_ _ _ (i' & Ei' & _ & Bi) (d' & Ed' & _ & Bd)]]]; [congruence|].
    rewrite Ei in Ei'. rewrite Ed in Ed'. injection Ei' as <-. injection Ed' as <-. rewrite Bd. symmetry. apply Hn. by rewrite <- Bi. }
  assert (r2 = r1 <| outbound := outbound r2 |>) as Er2 by (by destruct Hcase as [(_ & _ & ? & _)|[_ [? _ _ _ _]]]).
  apply (wp_UpdateOutboundInterests nI Hsize ltac:(lia) n1 p r2); rewrite ?Ri, ?Rn; [done|done|by rewrite Hst2|done|done|done|].
  intros n2 r3 ret changes I2 K2 L2 Em2 [(-> & _ & _)|[-> Hu]]; wp_go; [by apply Hfail|].
  assert (exists delta, (delta = false -> exists j, env_alloc j = false) /\ restored delta r1 r3 newI newN) as (delta & Hdelta & Hre).
  { destruct Hcase as [(_ & Ha & _ & Eo & _)|[_ Hb]].
    - exists false. split; [done|]. by apply (updated_full r1 r2 r3 newI newN changes).
    - exists true. split; [done|]. apply (updated_blank r1 r2 r3 newI newN changes); [done..|apply length_vec_union]. }
  assert (r_state r3 = REMOTE_UNMUTING) as Hst3 by (rewrite (re_only _ _ _ _ _ Hre); done).
  assert (sending_ok n2) as Hs2.
  { destruct Hs. split; [by rewrite (k_addr _ _ K2), (k_addr _ _ K1)|by rewrite (k_meshId _ _ K2), (k_meshId _ _ K1)]. }
  assert (n_remotes n2 !! p = Some r3) as E3 by (rewrite Em2; apply lookup_insert_eq).
  change (is_OK DPS_OK) with true. cbv iota.
  apply (wp_SendSubscription nI HnI Hsmall Hbytes n2 p r3); rewrite ?Hst3; cbn [bool_decide negb]; [done..| | |].
  - intros _. destruct Hre as [_ _ _ (dl & Ea & _) (d & Ed & _)]. by split; eexists.
  - intros ret n3 Hret Hf. apply Hfail; [done|]. by destruct Hf.
  - intros n3 Hsent. apply Hok. exists n2, r3, delta. split_and!; try done.
    + by rewrite (k_addr _ _ K2), (k_addr _ _ K1).
    + by rewrite L2.
    + by rewrite Em2, Em1, insert_insert_eq.
Qed.

(** [unmuting r] is the remote when [DPS_UnmuteRemoteNode] computes what to send. *)
Definition unmuting (r : RemoteNode) : RemoteNode :=
  r <| r_state := REMOTE_UNMUTING |> <| outbound := (outbound r) <| sakCounter := 0 |> |>.

Lemma wp_UnmuteRemoteNode n p r (Q : DPS_Status -> DPS_Node -> Prop) :
  let newI := vec_union nI (rest_interests n p) in
  let newN := vec_needs FH_CHUNKS (rest_needs n p) in
  node_inv nI n -> n_remotes n !! p = Some r -> sending_ok n -> room n ->
  r_state r = REMOTE_MUTED \/ r_state r = REMOTE_UNMUTING ->
  (newI = replicate nI 0 -> newN = replicate FH_CHUNKS 0) ->
  (forall ret n', is_OK ret = false -> node_inv nI n' -> Q ret n') ->
  (forall n0 n', n_addr n0 = n_addr n -> n_remoteNodes n0 = n_remoteNodes n -> n_events n0 = n_events n ->
     n_remotes n0 = <[p := unmuting r]> (n_remotes n) -> unmute_sent n0 p (unmuting r) newI newN n' -> Q DPS_OK n') ->
  wp (DPS_UnmuteRemoteNode p) Q n.
Proof.
  intros newI newN H E Hs Hr Hst Hn Hfail Hok. unfold DPS_UnmuteRemoteNode. wp_go. eapply wp_load; [exact E|].
  replace (bool_decide (r_state r = REMOTE_MUTED) || bool_decide (r_state r = REMOTE_UNMUTING)) with true by (by destruct Hst as [-> | ->]).
  wp_go. eapply wp_update; [exact E|]. wp_go. eapply wp_upd_outbound; [apply lookup_insert_eq|]. rewrite set_remotes_twice. wp_go.
  change (set outbound _ _) with (unmuting r).
  assert (remote_ok nI (unmuting r)) as Hu by (destruct (ni_remote _ _ H _ _ E); by split).
  pose proof (node_inv_fields nI n p r (unmuting r) H E Hu eq_refl eq_refl) as H1.
  set (n1 := set n_remotes _ n) in *. change (node_inv nI n1) in H1. apply (wp_MinMeshId nI); [done|]. intros m Hm. wp_go.
  assert (uuid_ok m) as Hmok by (refine (least_mesh_ok n1 nI None (n_meshId n1) m H1 _ Hm); apply Hs).
  pose proof (RandUUIDLess_ok m (n_entropy n1) Hmok) as Hless.
  destruct (DPS_RandUUIDLess m (n_entropy n1)) as [mesh e] eqn:Eless. cbn [fst] in Hless. wp_go.
  match goal with |- wp _ _ ?x => set (n2 := x) end.
  assert (n_remotes n2 = <[p := unmuting r]> (n_remotes n)) as Em by done.
  assert (rest_interests n2 p = rest_interests n p /\ rest_needs n2 p = rest_needs n p) as [Ri Rn].
  { unfold rest_interests, rest_needs. by rewrite Em, !others_insert. }
  apply (wp_unmute_update n2 p (unmuting r)).
  - by apply (node_inv_same nI n1).
  - rewrite Em. apply lookup_insert_eq.
  - destruct Hs. by split.
  - exact Hr.
  - done.
  - by rewrite Ri, Rn.
  - exact Hfail.
  - intros n'. rewrite Ri, Rn. by apply (Hok n2).
Qed.

End Mesh.

(** ** The assertion on the needs *)

Lemma zip_lxor_self (l m : list Z) : length m = length l -> zip_with Z.lxor l m = l <-> m = replicate (length l) 0.
Proof.
  revert m. induction l as [|x l IH]; intros [|y m] H; try done. cbn. injection H as H. split.
  - intros [= Hx Hl]. f_equal; [|by apply IH].
    apply (f_equal (Z.lxor x)) in Hx. by rewrite <- Z.lxor_assoc, Z.lxor_nilpotent, Z.lxor_0_l in Hx.
  - intros [= -> Hm]. rewrite Z.lxor_0_r. f_equal. by apply IH.
Qed.

(** The interests that a neighbour records of a difference that has all of them. *)
Lemma received_difference `{Env : Environment} nI s iv :
  remote_ok nI s -> length (bits iv) = nI ->
  received nI s iv true = bits iv <-> vec_bits nI (in_interests (inbound s)) = replicate nI 0.
Proof.
  intros Hs Hl. unfold received, remote_interests. subst nI. apply zip_lxor_self.
  destruct (in_interests (inbound s)) as [bv|] eqn:E; cbn [vec_bits]; [|by rewrite length_replicate].
  pose proof (ro_inbound _ _ Hs) as H. rewrite E in H. destruct (in_needs (inbound s)) as [d|]; [|done].
  destruct H as (H & _). destruct H as [[_ L] _]. exact L.
Qed.

Lemma unmuting_flags `{Env : Environment} nI r r1 newI newN :
  restored nI true r r1 newI newN ->
  has_flag (sub_flags r1) DPS_SUB_FLAG_UNMUTE_REQ = true /\ has_flag (sub_flags r1) DPS_SUB_FLAG_DELTA_IND = true.
Proof. intros [E Hd _ _ _]. unfold sub_flags. rewrite Hd, E. by split. Qed.

(** [DPS_UnmuteRemoteNode] is defined on a muted link, and what it sends is a
    difference, although its comment says that it must not be one: the vectors that
    it compares with were emptied just before, not forgotten.  The message has the
    whole interests of the node and the flag of a difference, so a neighbour records
    them only if it holds nothing of this node; one that still holds what it was sent
    before the link was muted records something else, and nothing at all if the
    interests are the same as before. *)
Theorem unmute_sends_difference `{Env : Environment} nI n p r :
  bitLen env_config = 64 * Z.of_nat nI -> (0 < nI)%nat -> 64 * Z.of_nat nI <= 65535 ->
  (forall k size, length (env_bytes k size) = size /\ Forall is_byte (env_bytes k size)) ->
  (forall k, env_alloc k = true) ->
  let newI := vec_union nI (rest_interests n p) in
  let newN := vec_needs FH_CHUNKS (rest_needs n p) in
  node_inv nI n -> n_remotes n !! p = Some r -> sending_ok n -> room n ->
  r_state r = REMOTE_MUTED -> (newI = replicate nI 0 -> newN = replicate FH_CHUNKS 0) ->
  exists ret n', DPS_UnmuteRemoteNode p n = Some (ret, n') /\ node_inv nI n' /\
    (ret = DPS_OK -> exists rev flags mesh w,
       head (n_events n') = Some (EvNetSend (ep r) (message_wire DPS_MSG_TYPE_SUB
         (message_entries (n_addr n) rev flags mesh (Some w) None)) DPS_OK) /\
       vectors_sent nI (Some w) newI newN /\
       has_flag flags DPS_SUB_FLAG_UNMUTE_REQ = true /\ has_flag flags DPS_SUB_FLAG_DELTA_IND = true /\
       forall s iv, remote_ok nI s -> bits iv = newI ->
         (received nI s iv true = newI <-> vec_bits nI (in_interests (inbound s)) = replicate nI 0)).
Proof.
  intros Hsize HnI Hsmall Hbytes Hal newI newN H E Hs Hr Hst Hn. apply wp_run.
  apply (wp_UnmuteRemoteNode nI Hsize HnI Hsmall Hbytes n p r); [done..|by left|done| |].
  { intros ret n' Hf Hi. split; [done|]. by intros ->. }
  intros n0 n' Ea El Ee Em (n1 & r1 & [|] & Hd & I1 & Hs1 & Ea1 & El1 & Em1 & Hre & Hsent);
    [|destruct (Hd eq_refl) as [j Hj]; by rewrite Hal in Hj].
  split; [apply Hsent|]. intros _. destruct (sn_message _ _ _ _ _ _ _ _ _ _ Hsent) as (mesh & v & _ & (nd & iv & w & Ed & Ei & -> & Hw) & Hev).
  destruct (unmuting_flags nI _ _ _ _ Hre) as [F1 F2].
  destruct Hre as [Eo Hdelta _ (dl & Edl & Wdl & Bdl) (d & Ed' & Wd & Bd)].
  rewrite Ei in Edl. injection Edl as ->. rewrite Ed in Ed'. injection Ed' as ->.
  exists (out_revision (outbound r1)), (sub_flags r1), mesh, w.
  split; [|split; [|split; [done|split; [done|]]]].
  - rewrite Hev, Ea1, Ea, Eo. done.
  - assert (vectors_sent nI (Some w) (bits dl) (bits d)) as Hv by (by apply on_wire_sent). rewrite Bdl, Bd in Hv. exact Hv.
  - intros s iv Hs2 Eiv. rewrite <- Eiv. apply received_difference; [done|]. rewrite Eiv. apply length_vec_union.
Qed.

(** The two nodes of the other witnesses: the second holds the interests of the
    first when the link is muted on both sides and then restored by the first. *)
#[local] Existing Instance toy_env.
Definition toy_receive (bytes : list Z) (n : DPS_Node) : DPS_Node :=
  toy_state (_ ← OnNetReceive (fun _ _ _ => mret DPS_OK) (fun _ _ => mret DPS_OK) (mkEp (toy_addr 5007) None) DPS_OK
               (mkRx bytes (length bytes) 0); mret ()) n.
Definition toy_last (n : DPS_Node) : list Z := match n_events n with EvNetSend _ bytes _ :: _ => bytes | _ => [] end.
Definition toy_muted_a : DPS_Node := toy_state (run_op (OpMute 1)) toy_sent.
Definition toy_muted_b : DPS_Node := toy_state (run_op (OpMute 1)) (toy_receive toy_message toy_b).
Definition toy_unmuted_a : DPS_Node := toy_state (_ ← DPS_UnmuteRemoteNode 1; mret ()) toy_muted_a.

(** The neighbour ends up without the interests that the node announces. *)
Example unmute_loses_interests :
  vec_bits 1 (in_interests (inbound (toy_remote toy_muted_b))) = [5] /\
  vec_bits 1 (out_interests (outbound (toy_remote toy_unmuted_a))) = [5] /\
  out_revision (outbound (toy_remote toy_unmuted_a)) = 2 /\
  let b := toy_receive (toy_last toy_unmuted_a) toy_muted_b in
  in_revision (inbound (toy_remote b)) = 2 /\ r_state (toy_remote b) = REMOTE_ACTIVE /\
  in_interests (inbound (toy_remote b)) = None.
Proof. vm_compute. by split_and!. Qed.

Lemma unmute_sends_difference_witness :
  let n := toy_state (run_op (OpMute 1)) toy_a in
  exists n' rev flags mesh w, DPS_UnmuteRemoteNode 1 n = Some (DPS_OK, n') /\ node_inv 1 n' /\
    head (n_events n') = Some (EvNetSend (mkEp (toy_addr 8) None) (message_wire DPS_MSG_TYPE_SUB
      (message_entries (toy_addr 7) rev flags mesh (Some w) None)) DPS_OK) /\
    vectors_sent 1 (Some w) [5] [5; 0; 0; 0] /\ has_flag flags DPS_SUB_FLAG_DELTA_IND = true.
Proof.
  intros n. destruct (unmute_sends_difference 1 n 1 (toy_remote n)) as (ret & n' & E & I & Hok);
    [reflexivity|lia|lia|by intros k size; split; [apply length_replicate|apply Forall_replicate]|done| |vm_compute; reflexivity
    |split; by apply (bool_decide_unpack _); vm_compute|by vm_compute|vm_compute; reflexivity|by vm_compute|].
  - apply toy_step; [apply toy_a_inv|]. change (1%positive ∈ n_remoteNodes toy_a). by apply (bool_decide_unpack _); vm_compute.
  - assert (ret = DPS_OK) as -> by by vm_compute in E; injection E as <- _.
    destruct (Hok eq_refl) as (rev & flags & mesh & w & E1 & E2 & _ & E4 & _). exists n', rev, flags, mesh, w.
    split_and!; [exact E|exact I|exact E1|exact E2|exact E4].
Defined.

(** C33: [DPS_UpdateOutboundInterests] assumes that the needs are determined by the
    interests.  It is defined, and keeps the invariant of the node, where that holds;
    where the union of the interests is what was announced last but the intersection
    of the needs is not, the assertion on the needs fails, unless there was no memory
    for the vectors: no execution announces the new needs. *)
Theorem outbound_needs_asserted `{Env : Environment} nI n p r :
  bitLen env_config = 64 * Z.of_nat nI -> (0 < nI)%nat -> 64 * Z.of_nat nI <= 65535 ->
  node_inv nI n -> n_remotes n !! p = Some r -> r_state r <> REMOTE_UNLINKING -> room n ->
  let newI := vec_union nI (rest_interests n p) in
  let newN := vec_needs FH_CHUNKS (rest_needs n p) in
  (needs_follow r newI newN ->
     exists ret changes n', DPS_UpdateOutboundInterests p n = Some ((ret, changes), n') /\ node_inv nI n' /\
       (ret = DPS_OK -> exists r', n_remotes n' !! p = Some r' /\ updated nI r r' newI newN changes)) /\
  (~ needs_follow r newI newN ->
     forall x n', DPS_UpdateOutboundInterests p n = Some (x, n') -> x = (DPS_ERR_RESOURCES, false)).
Proof.
  intros Hsize HnI Hsmall H E Hst Hr newI newN. destruct (room_rest n p Hr) as [R1 R2]. split.
  - intros Hnf. assert (wp (DPS_UpdateOutboundInterests p) (fun x n' => node_inv nI n' /\
      (x.1 = DPS_OK -> exists r', n_remotes n' !! p = Some r' /\ updated nI r r' newI newN x.2)) n) as Hwp.
    { apply (wp_UpdateOutboundInterests nI Hsize ltac:(lia) n p r); [done..|].
      intros n' r' ret changes I _ _ Em Hc. split; [done|]. cbn. intros ->. destruct Hc as [[? _]|[_ Hu]]; [done|].
      exists r'. split; [by rewrite Em, lookup_insert_eq|done]. }
    apply wp_run in Hwp as ([ret changes] & n' & E' & I' & Hu). by exists ret, changes, n'.
  - intros Hnf x n' Hrun. by apply (wlp_run _ _ _ _ _ (wlp_UpdateOutboundInterests_needs nI n p r Hsize ltac:(lia) H E Hst Hr Hnf) Hrun).
Qed.

(** A node that subscribes to topics [a] and [b] together, tells its neighbour, and
    then subscribes to [a] alone. *)
Definition toy_sub (topics : list (list Z)) : DPS_Subscription := mkSub None None None 0 SUB_FLAG_SERIALIZE None topics.
Definition toy_subs (n : DPS_Node) : DPS_Node :=
  n <| n_subs := {[1%positive := toy_sub [[97]; [98]]; 2%positive := toy_sub [[97]]]} |>.
Definition toy_subscribed : DPS_Node :=
  toy_state (run_op (OpAddRemote (toy_addr 8) None)) (toy_state (run_op (OpSubscribe 1 0)) (toy_subs toy_node)).
Definition toy_told : DPS_Node :=
  toy_state (run_op (OpUpdate 1)) toy_subscribed.
Definition toy_covered : DPS_Node := toy_state (run_op (OpSubscribe 2 0)) toy_told.

Lemma toy_topic_a : topic_ok [47] DPS_SubTopic [97].
Proof. split_and!; try done; repeat constructor. Qed.
Lemma toy_topic_b : topic_ok [47] DPS_SubTopic [98].
Proof. split_and!; try done; repeat constructor. Qed.

Lemma toy_enabled p topics n :
  n_subs n !! p = Some (toy_sub topics) -> bool_decide (p ∉ n_subscriptions n) = true -> n_loop n = true -> n_separators n = [47] ->
  Forall (topic_ok [47] DPS_SubTopic) topics -> room n -> enabled 1 (OpSubscribe p 0) n.
Proof.
  intros E Hp Hl Hs Ht Hr. exists (toy_sub topics). rewrite Hs. split_and!; try done; [by apply bool_decide_eq_true in Hp|apply slash_no_wild].
Qed.

Lemma toy_subscribed_inv : node_inv 1 toy_subscribed.
Proof.
  apply toy_step; [apply toy_step|apply toy_addr_ok].
  - apply (started_inv 1 _ toy_env_ok). by split.
  - apply (toy_enabled 1 [[97]; [98]]); try (by vm_compute). constructor; [apply toy_topic_a|constructor; [apply toy_topic_b|constructor]].
Qed.

Lemma toy_told_inv : node_inv 1 toy_told.
Proof.
  apply toy_step; [apply toy_subscribed_inv|]. exists (toy_remote toy_subscribed).
  split_and!; [vm_compute; reflexivity|by vm_compute|by vm_compute].
Qed.

Lemma toy_covered_inv : node_inv 1 toy_covered.
Proof.
  apply toy_step; [apply toy_told_inv|]. apply (toy_enabled 2 [[97]]); try (by vm_compute). constructor; [apply toy_topic_a|constructor].
Qed.

Lemma outbound_needs_asserted_witness :
  length (n_subscriptions toy_covered) = 2%nat /\
  forall x n', DPS_UpdateOutboundInterests 1 toy_covered = Some (x, n') -> x = (DPS_ERR_RESOURCES, false).
Proof.
  split; [by vm_compute|].
  destruct (outbound_needs_asserted 1 toy_covered 1 (toy_remote toy_covered)) as [_ H];
    [reflexivity|lia|lia|apply toy_covered_inv|vm_compute; reflexivity|by vm_compute|by vm_compute|].
  apply H. by apply (bool_decide_unpack _); vm_compute.
Defined.

(** As every allocation succeeds there, the assertion fails. *)
Example covered_subscription_asserts :
  vec_union 1 (rest_interests toy_told 1) = vec_union 1 (rest_interests toy_covered 1) /\
  DPS_UpdateOutboundInterests 1 toy_covered = None.
Proof. vm_compute. by split. Qed.
